(* ===== verification/_CoqProject ===== *)
-Q . S2P
Prelude.v
Numbers.v
PyVal.v
Bytes.v
Json.v
FileSys.v
FileLock.v
Predicate.v
JournalStore.v
CommitManifest.v
TvimStore.v
Lexical.v
LexicalIndex.v
RouteRegistry.v
EngineCore.v
Topology.v
KnowledgeGraph.v
GraphSync.v
VectorBoundary.v
LocalOpen.v
LocalDb.v
StableIds.v
LocalInit.v
HandleLife.v
NativeAdapter.v
LocalVerbs.v
Serving.v
Ingest.v
Temporal.v
MigrateReport.v
MigratePlan.v
MigrateSources.v
Adapters.v
DirTree.v
Collection.v
LateInteraction.v
Migration.v
Traces.v
Base64.v
CloudClient.v
CloudSync.v
CloudStore.v
CloudConfig.v
CloudAccount.v
McpInstall.v
Doctor.v
EmbedBackends.v
OnnxArtifacts.v
EmbedRuntime.v
