(* ===== verification/Prelude.v ===== *)
(** * LodeDB: a verification development of its Python code

    LodeDB is an embedded vector database. Its Python package under [src/src/lodedb/] consists
    of the SDK ([local/]), the storage engine's file formats and helpers ([engine/]), a
    knowledge graph on top of the SDK ([graph/]) and a cloud client ([cloud/]); vector search
    itself is a compiled extension built from the Rust crates. This library models the Python
    code and proves what makes it correct. Paths below are relative to [src/src/lodedb/].

    ** Parts and files

    Foundations, shared by every component:
    - [Prelude.v] (this file): exceptions and results, the state and error monad [st] with
      [forS], ordered dictionaries, characters and strings, stable sorting, batches, and the
      lemmas and tactics on them ([res_inv], [res_cases]);
    - [Numbers.v]: [int] and [float] parsing, printing and arithmetic (binary64 as
      [spec_float], so everything evaluates); [PyVal.v]: dynamically typed values and the
      operations of the language on them, error classes included; [Bytes.v]: UTF-8,
      fixed-width integers, SHA-256; [Json.v]: [json.dumps] and [json.loads] with the round trip;
    - [FileSys.v] ([engine/_atomic_io.py]): a file system and the monad [io], which records every
      intermediate disk state, so that crash statements quantify over them;
    - [FileLock.v] ([engine/_filelock.py]): the exclusive lock of an index as a step relation over
      any number of processes. At most one of them holds the lock of a path.

    Storage ([engine/]):
    - [Predicate.v] ([_predicate.py]): metadata filters. Validation, coercion and compilation
      refine an abstract filter syntax with its satisfaction relation;
    - [JournalStore.v] ([state_journal_store.py]): the journal of document deltas refines a map of
      documents; appending, anchoring a base and rolling back at every point of interruption;
    - [CommitManifest.v] ([_commit_manifest.py]): the root pointer of a generation, its atomic
      replacement and its fail-closed reader;
    - [TvimStore.v] ([turbovec_delta_store.py]): the journal of vector batches refines the live rows;
    - [Lexical.v], [LexicalIndex.v] ([_lexical.py]): tokenizer, incremental BM25 index and rank
      fusion; an incrementally maintained index ranks like a rebuilt one;
    - [RouteRegistry.v] ([route_registry.py], [runtime_policy.py]): route selection and policies;
    - [EngineCore.v] ([core.py], [route_profiles.py]): identity and validation helpers, chunking,
      state restoration, and the snapshot auditor, which runs over the journal, commit and vector
      stores;
    - [StableIds.v] ([turbovec_index.py]): 64-bit chunk ids and their collision repair;
    - [NativeAdapter.v] ([native_adapter.py]): the calls on the compiled extension, JSON text and float32
      arrays. An extension that keeps its contract, seen through the adapter, is the engine the
      database is proved against.

    The graph ([graph/]):
    - [Topology.v] ([_store.py]): the SQLite tables as finite maps with foreign keys, cascade and
      transactions, refining an abstract labelled graph;
    - [KnowledgeGraph.v], [GraphSync.v] ([knowledge_graph.py]): mutations, ingestion, traversal,
      search and reindexing over the class [LodeIndex]; the index never holds a document whose
      entity is gone, and [reindex] rebuilds it from the topology;
    - [Temporal.v] ([temporal.py]): frames and property mappings of the bi-temporal graph. A fact keeps
      its properties through the native graph, as far as their numbers fit its JSON.

    The SDK ([local/], mostly [db.py]):
    - [VectorBoundary.v]: what vectors are accepted and how they are normalized;
    - [LocalOpen.v]: option resolution and the guards of reopening a path, read from the disk
      through [CommitManifest.v] and [EngineCore.v];
    - [LocalInit.v] (and [presets.py]): the constructor, from its keyword arguments to the request
      given to the engine, and the errors it answers with. What creates a store reopens it;
    - [Collection.v] ([collection.py]): named spaces under one directory, with the registry of
      their configurations. A space reopens as it was created, and opening never loses another;
    - [LocalDb.v]: the verbs over the native engine, and the proof that a writable handle is a
      [LodeIndex] with [LodeIndexLaws], the interface the graph is proved against;
    - [LocalVerbs.v]: the other verbs: embedding without storing, array answers, images, stored vectors,
      compaction, statistics. A batch embeds like its texts one by one;
    - [HandleLife.v]: the worker thread of the compiled engine, closing, discarding, finalizers and the
      exit hook. The engine is touched and released on its own thread only;
    - [Ingest.v] ([appender.py], [checkpointer.py], [segments.py]): writers that log beside a store, and the
      process that folds the log. Folding what was appended is writing it with the verbs, the retained texts
      where the appender was opened to keep them;
    - [LateInteraction.v] ([late_interaction.py]): documents of many vectors, encoded at the precision a
      directory fixed when it was first opened;
    - [EmbedBackends.v] ([engine/embedding_backends.py]): the embedding backends around the third-party runtimes:
      batches by padded length, lazy loads, pooling, normalization. Batching is invisible in the vectors;
    - [OnnxArtifacts.v] ([onnx_artifacts.py]): the cache of model files: manifest, snapshot, export, publication. A model
      is materialized once, and a publication cut short is no hit;
    - [EmbedRuntime.v] ([backends.py]): from a preset and the caller's wishes to a backend of [EmbedBackends.v], with the
      fallbacks. What is reported is what was built.

    Adapters and migration ([local/integrations/], [local/migrate/]):
    - [Adapters.v] ([langchain.py], [llama_index.py], [mem0.py]): the vector stores given to those
      frameworks, over the verbs; filters keep their meaning, payloads come back;
    - [MigrateReport.v] ([report.py]), [MigratePlan.v] ([detect.py], [plan.py], planning in
      [runner.py]): redaction, the payload guard, routing and the plan of a migration;
    - [MigrateSources.v] ([sources/]): the rows each importer yields, and the completeness of the
      keyset pages of a table;
    - [DirTree.v]: [shutil.rmtree], [Path.rename] and [shutil.move] on [FileSys.v], with a small
      logic of what a program leaves alone ([only_below], [same_at], [confined]);
    - [Migration.v] ([runner.py]): replay, validation and publication of a run; no interruption
      damages the target, and the streaming loop equals its batched reference.

    The cloud client ([cloud/]):
    - [Traces.v]: the rules for programs of [st] that log what they do outside (requests, calls,
      pauses), with [st_try] for [except] clauses; [Base64.v]: the codec of binary fields;
    - [CloudClient.v] ([transfer.py], class [CloudClient]): requests, refusals, percent-encoding
      and the endpoints of the control plane; distinct stores have distinct paths;
    - [CloudSync.v] ([transfer.py], the managed transfers): plan, push, pull, status and sync. A
      sync follows its decision table whatever the server answers, and releases every push
      session it opened;
    - [CloudStore.v] ([serving.py]): the verbs of a remote store handle. A session reads its own
      writes, a resent write registers once, and the batched text read equals the reads by id;
    - [CloudConfig.v] ([_config.py], [_env_file.py]): credentials, the remote record, dotenv files
      and [.gitignore], over [FileSys.v];
    - [CloudAccount.v] ([client.py], [_sealing.py], [connect] of [serving.py], [LoginHandoff]): who
      the caller is and which organisation and environment the calls go to, sealed stores,
      login.

    Tools ([local/]):
    - [McpInstall.v] ([mcp_install.py]): registering the server with coding assistants. The textual
      edits of a plain TOML file are edits of the tables a reader of TOML finds, and a dry run touches nothing;
    - [Serving.v] ([server.py], [mcp_server.py]): the HTTP handler, from the bytes of a request to its answer,
      and the tools of the assistant server. What is added over HTTP is read back over HTTP;
    - [Doctor.v] ([doctor.py]): the offline check of vector sidecars and the capability report. A sidecar
      that passes is whole, and its coverage is that of replaying its deltas over its base.

    ** Interfaces

    What the code calls but does not contain is a class or a record, with what the code relies
    on as its laws: the compiled engine ([NativeEngine], [NativeLaws] in [LocalDb.v],
    [NativeOpen] in [LocalOpen.v], [NativeHost] and [NativeHostLaws] in [LocalInit.v], [NativeUpkeep] in
    [LocalVerbs.v]), below it the extension itself ([CoreEngine], [CoreAppender], [CoreCheckpointer] and
    [CoreModule] with [CoreLaws] in [NativeAdapter.v], its log with [AppenderLaws], [FoldLaws] and [OpenPolicy] in
    [Ingest.v], its multi-vector store with [MultiLaws] and the files it leaves alone with [SidecarLaws] in [LateInteraction.v],
    its bi-temporal graph with [TemporalNative], [TemporalLaws] and the floats it restores, [WireFloats]), the vector index and arrays ([TurboIndex], [Numpy] in
    [TvimStore.v]), the embedding model ([EmbeddingBackend], [ImageModel]), SQLite's row order ([Sqlite]), the iteration order of sets
    ([PySets]), the embedding runtimes ([TorchHost],
    [SentenceHost], [OnnxHost] with [TorchLaws], [OnnxLaws]), the hub and the exporter of models ([OnnxWorld],
    [ArtifactLaws]), what the platform answers to probes ([Host]), [Pillow], NumPy's reductions ([Reductions], [Pooling], [LateReductions], [TensorMath]), random tokens ([Secrets]), opening a database
    on disk ([MigrationSDK], [SDKLaws]: it writes only below its directory), the control plane
    ([Http]: any answer to any request), the managed calls of the Rust core ([ManagedCore]), the
    clock, pauses and random keys ([Ambient]), the connection pool ([Pool]), the clock of a lock
    wait ([LockWait]), temporary file names ([TempNames]), the platform and its programs ([Machine], [Probes]). Theorems that need a
    server that behaves name what it promises: [SessionWorld] counts the push sessions it opened,
    [dedup_server] honours idempotency keys, [text_server] answers text reads. Between components
    the graph sees the database through [LodeIndexLaws], discharged once by
    [GraphSync.map_index_laws] (a finite map, to evaluate with) and once by
    [LocalDb.local_db_implements_index]. The engine of the database is any instance of [NativeLaws], and
    [NativeAdapter.adapter_implements_native] makes one of every extension that keeps [CoreLaws]; collections open their spaces through [SpaceHost] and
    [SpaceLaws], of which the constructor of [LocalInit.v] is an instance ([lode_host_laws]). Every law class has a concrete instance, which the
    witnesses of the theorems use.

    ** Conventions

    A function that raises returns [result]; a method of a stateful object is an [st]; a function
    that touches the disk is an [io]. Names are the source's. A [while] loop or a recursion that
    is not structural takes fuel: the probes of [StableIds.repair] (one more than the values that
    can be refused, proved enough), the characters left in the JSON reader (each step consumes
    one), the chunks of [EngineCore.slices] (at most the length of the text), the pages of
    [MigrateSources.pages] (one per 500 rows and one more), the resends of
    [CloudStore.write_loop] (five: [write_loop_enough]), the chunks
    of [Doctor.read_section] (one per 64 KiB: [section_ends]), the digests of [EmbedBackends.hash_values] (one per number: [hash_values_enough]). The loops of the cloud client that wait for the clock take their number of rounds as an argument, for
    which their theorems are quantified. Where a definition can run out, it ends with
    [OutOfFuel], an exception of the model alone, and the theorem states that it does not.

    Theorems that are claims about the program carry an id (C1, C2, ...) in their comment, in
    order of importance; the lemma that follows with the suffix [_witness] applies one to
    concrete data.

    ** Findings

    Modelling showed, among others: a single stray file name with a superscript digit makes
    [list_base_epochs] raise ([CommitManifest.superscript_epoch_raises]); a reserved metadata key
    with a leading space is stored under the reserved name ([EngineCore.reserved_name_slips_through]);
    a node named twice in a batch keeps the wrong content in the index
    ([GraphSync.duplicate_in_batch_diverges]); derived edge ids collide
    ([GraphSync.derived_edge_ids_collide]); a row added beside a vector beyond the float32 range
    is normalized to different bits ([VectorBoundary.batch_mate_changes_row]); a migration without
    [--overwrite-target] onto a directory that is not empty nests the store in it
    ([Migration.occupied_target_nests]), [--resume] replaces the store it is said to write into
    ([Migration.resume_replaces]), numbers in the sampled metadata fail a correct migration
    ([Migration.number_metadata_fails]), a collection name can lead out of the temporary directory
    ([Migration.collection_escapes]), a keyword DSN is stored with its password
    ([MigratePlan.keyword_dsn_is_stored]); where a dotenv file assigns a key twice, the minted
    value is written to the assignment that is not read
    ([CloudConfig.stale_assignment_wins]); a store named [..] has the path of its environment
    ([CloudClient.dot_segment]); a token argument is refused beside a host variable
    ([CloudAccount.token_argument_refused]); a space name may end in a line break
    ([Collection.line_break_in_name]); a second handle on a collection writes its older view of a
    space over a newer one ([Collection.stale_handle_overrides]); a lock timeout of [nan] waits
    without end ([FileLock.nan_timeout_waits]); the flags [store_text] and [index_text] are said to be compared on
    reopen and are not ([LocalInit.text_flags_not_compared]); rewriting the entry of a TOML file drops the comments
    above the next table ([McpInstall.comment_is_dropped]), and a header with a comment behind it is
    not found, so the table is there twice ([McpInstall.commented_header_is_duplicated]); the batched image verb refuses a vector the
    single one stores ([LocalVerbs.batched_image_refused]); late interaction stores a row whose squares
    overflow as zeros ([LateInteraction.overflowing_row_becomes_zero]); an HTTP body that is not an
    object gets no answer at all ([Serving.list_body_gets_no_answer]); a stable id that is twice in the base of a
    sidecar passes the check ([Doctor.duplicate_base_ids_pass]); a model manifest that is no object raises instead of
    being a miss ([OnnxArtifacts.list_manifest_raises]), and an export without a tokenizer is made anew at every call
    ([OnnxArtifacts.export_without_tokenizer_is_repeated]).

    ** Not modelled

    Strings are sequences of code points below 256; the digit limit of [int], the positions in
    JSON error messages, timings of commits, logging and telemetry are left out, and so are threads outside
    [FileLock.v] and [HandleLife.v]: a handle is used by one caller at a time, as its operation lock
    enforces. The contents of vectors inside the engine are abstracted to the documents it holds.
    Of the cloud client: connection
    headers and the streaming of blob bodies, HPKE and sealed boxes, the TOML and timestamp
    parsers, file permissions and the methods of [Client] that only forward with the tenancy
    applied. The command lines ([cloud/cli.py], [local/cli.py], [migrate/cli.py]) parse arguments and
    print, [benchmark.py] measures time; the text rendering of the doctor's report is printing too; the other framework integrations map
    between third-party types, the Qdrant reader and GPU
    kernels ([gpu_turbovec.py]) are calls into third-party runtimes, which a model would have to
    invent; the Rust crates are seen through the compiled extension. *)

From Stdlib Require Import Ascii String ZArith Lia SpecFloat.
From stdpp Require Import base list strings gmap sets sorting.

Declare Scope py_scope.
Delimit Scope py_scope with py.
Open Scope stdpp_scope.

(** ** Exceptions and results *)

Global Instance float_eq_dec : EqDecision spec_float.
Proof. solve_decision. Defined.

(** The exception classes the modelled code raises or catches. [OutOfFuel] is none of them: a loop of
    the model whose bound was too small ends with it. *)
Inductive exn_kind :=
| ValueError | RuntimeError | TypeError | KeyError | AttributeError
| JSONDecodeError | UnicodeDecodeError | FileNotFoundError | OSError
| ConcurrentWriterError | ReadOnlyError | StructError | OverflowError | IndexError
| UnicodeEncodeError | ZeroDivisionError | IntegrityError
| VectorOnlyIndexError | ImageEmbeddingUnsupportedError
| CloudError (status : Z) (retry_after : option spec_float) | SyncConflictError (status : Z)
| TransportError | TimeoutError | CredentialsError | MCPInstallError
| MigrationError | SourceExportError | NotImplementedError | ModuleNotFoundError | ImportError
| OnnxMaterializationError | FileExistsError
| OutOfFuel.

Global Instance exn_kind_eq_dec : EqDecision exn_kind.
Proof. solve_decision. Defined.

Record exn := Exn { exn_class : exn_kind; exn_msg : string }.

(** [type(exc).__name__]. *)
Definition class_name (e : exn) : string :=
  match exn_class e with
  | ValueError => "ValueError" | RuntimeError => "RuntimeError" | TypeError => "TypeError" | KeyError => "KeyError"
  | AttributeError => "AttributeError" | JSONDecodeError => "JSONDecodeError" | UnicodeDecodeError => "UnicodeDecodeError"
  | FileNotFoundError => "FileNotFoundError" | OSError => "OSError" | ConcurrentWriterError => "ConcurrentWriterError"
  | ReadOnlyError => "ReadOnlyError" | StructError => "error" | OverflowError => "OverflowError" | IndexError => "IndexError"
  | UnicodeEncodeError => "UnicodeEncodeError" | ZeroDivisionError => "ZeroDivisionError"
  | IntegrityError => "IntegrityError" | VectorOnlyIndexError => "VectorOnlyIndexError"
  | ImageEmbeddingUnsupportedError => "ImageEmbeddingUnsupportedError" | CloudError _ _ => "CloudError"
  | SyncConflictError _ => "SyncConflictError" | TransportError => "TransportError"
  | TimeoutError => "TimeoutError" | CredentialsError => "CredentialsError" | MigrationError => "MigrationError"
  | SourceExportError => "SourceExportError" | NotImplementedError => "NotImplementedError" | MCPInstallError => "MCPInstallError"
  | ModuleNotFoundError => "ModuleNotFoundError" | ImportError => "ImportError"
  | OnnxMaterializationError => "OnnxMaterializationError" | FileExistsError => "FileExistsError"
  | OutOfFuel => ""
  end.

(** [except ValueError] also catches its subclasses. *)
Definition is_value_error (e : exn) : bool :=
  match exn_class e with
  | ValueError | JSONDecodeError | UnicodeDecodeError | UnicodeEncodeError => true
  | _ => false
  end.

Inductive result (A : Type) :=
| Ok (a : A)
| Err (e : exn).
Arguments Ok {A} a.
Arguments Err {A} e.

Definition raise {A} (k : exn_kind) (msg : string) : result A := Err (Exn k msg).

Global Instance result_ret : MRet result := @Ok.
Global Instance result_bind : MBind result := λ A B f r,
  match r with Ok a => f a | Err e => Err e end.
Global Instance result_fmap : FMap result := λ A B f r,
  match r with Ok a => Ok (f a) | Err e => Err e end.

Definition is_Ok {A} (r : result A) : Prop := ∃ a, r = Ok a.

(** [[f x for x in l]] where [f] may raise: left to right, the first error wins. *)
Section mapR.
Context {A B : Type} (f : A → result B).
Fixpoint mapR (l : list A) : result (list B) :=
  match l with
  | [] => Ok []
  | x :: l => y ← f x; ys ← mapR l; Ok (y :: ys)
  end.
End mapR.

(** A [for] loop over a list whose body may raise. *)
Section foldR.
Context {A S : Type} (f : S → A → result S).
Fixpoint foldR (s : S) (l : list A) : result S :=
  match l with
  | [] => Ok s
  | x :: l => s' ← f s x; foldR s' l
  end.
End foldR.

(** ** State and errors

    A method of a stateful object: the result or the exception, with the state left. *)

Definition st (S A : Type) : Type := S → result A * S.

Global Instance st_ret {S} : MRet (st S) := λ A a s, (Ok a, s).
Global Instance st_bind {S} : MBind (st S) := λ A B f m s,
  match m s with (Ok a, s') => f a s' | (Err e, s') => (Err e, s') end.

Definition st_lift {S A} (r : result A) : st S A := λ s, (r, s).
Definition st_read {S A} (f : S → result A) : st S A := λ s, (f s, s).
Definition st_update {S} (f : S → S) : st S unit := λ s, (Ok tt, f s).

(** A [for] loop over a list whose body acts on the state. *)
Section forS.
Context {A S : Type} (f : A → st S unit).
Fixpoint forS (l : list A) : st S unit :=
  match l with
  | [] => mret tt
  | x :: l => _ ← f x; forS l
  end.
End forS.

(** A [dict] as the list of its items in insertion order: [d[k] = v] and [list(d.values())]. *)
Section dicts.
Context {A : Type}.
Fixpoint put_item (k : string) (v : A) (d : list (string * A)) : list (string * A) :=
  match d with
  | [] => [(k, v)]
  | kv :: d => if bool_decide (kv.1 = k) then (k, v) :: d else kv :: put_item k v d
  end.
Definition put_items (d e : list (string * A)) : list (string * A) :=
  fold_left (λ d kv, put_item kv.1 kv.2 d) e d.
Definition get_item (k : string) (d : list (string * A)) : option A :=
  snd <$> List.find (λ kv, bool_decide (kv.1 = k)) d.
End dicts.

(** ** Characters and strings

    A Python [str] is a [string] of code points below 256, [bytes] a [string] of
    octets; both are read as the list of their characters. *)

Definition bytes := string.

Definition ord (c : ascii) : N := N_of_ascii c.
Definition chr (n : N) : ascii := ascii_of_N n.

Definition chars : string → list ascii := String.list_ascii_of_string.
Definition of_chars : list ascii → string := String.string_of_list_ascii.

Definition slen (s : string) : nat := String.length s.

Definition in_range (lo hi : N) (c : ascii) : bool := ((lo <=? ord c) && (ord c <=? hi))%N.

(** [str.isspace] on one character. *)
Definition is_space (c : ascii) : bool :=
  in_range 9 13 c || in_range 28 32 c || (ord c =? 133)%N || (ord c =? 160)%N.

(** ASCII decimal digits, what [\d] and number literals use here. *)
Definition is_digit (c : ascii) : bool := in_range 48 57 c.

(** [str.isdigit] on one character: also the Latin-1 superscripts. *)
Definition is_digit_char (c : ascii) : bool :=
  is_digit c || (ord c =? 178)%N || (ord c =? 179)%N || (ord c =? 185)%N.

(** [str.isdigit]: nonempty and every character a digit character. *)
Definition str_isdigit (s : string) : bool :=
  match chars s with [] => false | l => forallb is_digit_char l end.

(** [str.lower] on one character. *)
Definition lower_char (c : ascii) : ascii :=
  if in_range 65 90 c || (in_range 192 222 c && negb (ord c =? 215)%N)
  then chr (ord c + 32) else c.

Definition str_lower (s : string) : string := of_chars (map lower_char (chars s)).

Fixpoint drop_while {A} (f : A → bool) (l : list A) : list A :=
  match l with
  | [] => []
  | x :: l' => if f x then drop_while f l' else l
  end.

Fixpoint take_while {A} (f : A → bool) (l : list A) : list A :=
  match l with
  | [] => []
  | x :: l' => if f x then x :: take_while f l' else []
  end.

(** [str.strip()]. *)
Definition strip_chars (l : list ascii) : list ascii :=
  reverse (drop_while is_space (reverse (drop_while is_space l))).
Definition str_strip (s : string) : string := of_chars (strip_chars (chars s)).

(** [not s.strip()]: the string is blank. *)
Definition is_blank (s : string) : bool := forallb is_space (chars s).

(** [s.rstrip(c)] for one character. *)
Definition str_rstrip_char (c : ascii) (s : string) : string :=
  of_chars (reverse (drop_while (λ x, bool_decide (x = c)) (reverse (chars s)))).

Definition startswith (p s : string) : bool := String.prefix p s.

Definition str_rev (s : string) : string := of_chars (reverse (chars s)).
Definition endswith (p s : string) : bool := startswith (str_rev p) (str_rev s).

(** [s[n:]] and [s[:n]] for nonnegative [n]. *)
Definition str_drop (n : nat) (s : string) : string := of_chars (drop n (chars s)).
Definition str_take (n : nat) (s : string) : string := of_chars (take n (chars s)).

Definition str_in (s : string) (l : list string) : bool := bool_decide (s ∈ l).

(** ["sep".join(l)]. *)
Fixpoint str_join (sep : string) (l : list string) : string :=
  match l with
  | [] => ""
  | [s] => s
  | s :: l => s +:+ sep +:+ str_join sep l
  end.

(** [str.split()] on whitespace runs. *)
Fixpoint split_ws_go (cur : list ascii) (l : list ascii) : list (list ascii) :=
  match l with
  | [] => match cur with [] => [] | _ => [reverse cur] end
  | c :: l =>
      if is_space c
      then match cur with [] => split_ws_go [] l | _ => reverse cur :: split_ws_go [] l end
      else split_ws_go (c :: cur) l
  end.
Definition str_split (s : string) : list string := map of_chars (split_ws_go [] (chars s)).

(** [s.split(c, 1)] for one character: the part before the first [c], and the part
    after it when there is one. *)
Fixpoint split_once_chars (c : ascii) (l : list ascii) : list ascii * option (list ascii) :=
  match l with
  | [] => ([], None)
  | x :: l =>
      if bool_decide (x = c) then ([], Some l)
      else let '(a, b) := split_once_chars c l in (x :: a, b)
  end.

(** [s.split(c)] for one character. *)
Fixpoint split_all_chars (c : ascii) (cur l : list ascii) : list (list ascii) :=
  match l with
  | [] => [reverse cur]
  | x :: l =>
      if bool_decide (x = c) then reverse cur :: split_all_chars c [] l
      else split_all_chars c (x :: cur) l
  end.
Definition str_split_char (c : ascii) (s : string) : list string :=
  map of_chars (split_all_chars c [] (chars s)).

(** [sep in s]. *)
Definition str_contains (p s : string) : bool :=
  match String.index 0 p s with Some _ => true | None => false end.

(** The double quote, which string literals here cannot contain. *)
Definition dquote : ascii := "034"%char.
Definition backslash : ascii := "092"%char.
Definition newline : ascii := "010"%char.
Definition newline_str : string := String newline "".

(** ** Stable sorting: Python's [sorted] on a total preorder *)

Section sort.
Context {A : Type} (leb : A → A → bool).

Fixpoint insert_sorted (x : A) (l : list A) : list A :=
  match l with
  | [] => [x]
  | y :: l' => if leb x y then x :: l else y :: insert_sorted x l'
  end.

Fixpoint sort_by (l : list A) : list A :=
  match l with
  | [] => []
  | x :: l => insert_sorted x (sort_by l)
  end.

End sort.

Definition str_ltb (s1 s2 : string) : bool := String.ltb s1 s2.
Definition str_leb (s1 s2 : string) : bool := String.leb s1 s2.

(** [dict(sorted(m.items()))]: the items of a string-keyed map, by key. *)
Definition items_sorted {A} (m : gmap string A) : list (string * A) :=
  sort_by (λ p q, str_leb p.1 q.1) (map_to_list m).

(** ** Lemmas on results *)

Lemma bind_Ok {A B} (r : result A) (f : A → result B) b :
  r ≫= f = Ok b ↔ ∃ a, r = Ok a ∧ f a = Ok b.
Proof. destruct r; split; [eauto | by intros (?&[= <-]&?) | done | by intros (?&?&?)]. Qed.

Lemma bind_Err {A B} (r : result A) (f : A → result B) e :
  r ≫= f = Err e ↔ r = Err e ∨ ∃ a, r = Ok a ∧ f a = Err e.
Proof. destruct r; split; naive_solver. Qed.

Lemma fmap_Ok {A B} (f : A → B) (r : result A) b :
  f <$> r = Ok b ↔ ∃ a, r = Ok a ∧ b = f a.
Proof. destruct r; split; naive_solver. Qed.

Lemma fmap_Err {A B} (f : A → B) (r : result A) e : f <$> r = Err e ↔ r = Err e.
Proof. destruct r; split; naive_solver. Qed.

(** Decompose a hypothesis [m = Ok _] into the results of its steps. *)
Ltac res_inv :=
  repeat match goal with
  | H : mbind _ _ = Ok _ |- _ => apply bind_Ok in H as (? & ? & H)
  | H : fmap _ _ = Ok _ |- _ => apply fmap_Ok in H as (? & H & ?)
  | H : mret _ = Ok _ |- _ => unfold mret, result_ret in H
  | H : Ok _ = Ok _ |- _ => injection H as H
  | H : raise _ _ = Ok _ |- _ => discriminate H
  | H : Err _ = Ok _ |- _ => discriminate H
  | H : _ ∧ _ |- _ => destruct H
  end; subst.

(** Case on every [if]/[match] of a hypothesis [_ = Ok _]. *)
Ltac res_cases H :=
  repeat (progress (res_inv;
    try match type of H with
    | (if ?b then _ else _) = Ok _ => destruct b eqn:?
    | match ?x with _ => _ end = Ok _ => destruct x eqn:?
    end)); try discriminate.

Lemma mapR_Ok {A B} (f : A → result B) l ys :
  mapR f l = Ok ys ↔ Forall2 (λ x y, f x = Ok y) l ys.
Proof.
  revert ys; induction l as [|x l IH]; intros ys; simpl.
  - split; [intros [= <-]; constructor | intros H; inversion H; done].
  - split.
    + intros H. res_inv. constructor; [done|]. by apply IH.
    + intros H. inversion H as [|? y ? ys' Hxy Hl]; subst.
      rewrite Hxy. simpl. apply IH in Hl as ->. done.
Qed.

Lemma mapR_ext {A B} (f g : A → result B) l :
  Forall (λ x, f x = g x) l → mapR f l = mapR g l.
Proof. induction 1 as [|x l Hx ? IH]; simpl; [done|]. by rewrite Hx, IH. Qed.

Lemma mapR_total {A B} (f : A → B) l : mapR (λ x, Ok (f x)) l = Ok (map f l).
Proof. induction l as [|x l IH]; simpl; [done|]. by rewrite IH. Qed.

Lemma mapR_length {A B} (f : A → result B) l ys : mapR f l = Ok ys → length ys = length l.
Proof. intros H. apply mapR_Ok in H. by apply Forall2_length in H. Qed.

Lemma foldR_app {A S} (f : S → A → result S) s l1 l2 :
  foldR f s (l1 ++ l2) = s' ← foldR f s l1; foldR f s' l2.
Proof.
  revert s; induction l1 as [|x l1 IH]; intros s; simpl; [done|].
  destruct (f s x); simpl; [apply IH | done].
Qed.

Lemma mapR_map {A B C} (g : A → B) (f : B → result C) l :
  mapR f (map g l) = mapR (λ x, f (g x)) l.
Proof. induction l as [|x l IH]; simpl; [done|]. by rewrite IH. Qed.

Lemma mapR_exists {A B} (f : A → result B) (R : A → B → Prop) l :
  Forall (λ x, ∃ y, f x = Ok y ∧ R x y) l → ∃ ys, mapR f l = Ok ys ∧ Forall2 R l ys.
Proof.
  induction 1 as [|x l (y & Hy & Hr) _ (ys & Hys & Hrs)]; simpl; [by exists []|].
  exists (y :: ys). rewrite Hy, Hys. simpl. auto.
Qed.

Lemma mapR_Err {A B} (f : A → result B) l e :
  mapR f l = Err e → ∃ x, x ∈ l ∧ f x = Err e.
Proof.
  induction l as [|x l IH]; simpl; [done|].
  intros [?|(y & _ & [(z & ? & ?)%IH|(? & _ & ?)]%bind_Err)]%bind_Err;
    [exists x; set_solver | exists z; set_solver | done].
Qed.

Lemma foldR_inv {A S} (I : S → Prop) (f : S → A → result S) l s s' :
  (∀ s x s', I s → x ∈ l → f s x = Ok s' → I s') → I s → foldR f s l = Ok s' → I s'.
Proof.
  revert s; induction l as [|x l IH]; simpl; intros s Hf Hs H; res_inv; [done|].
  eapply IH; [|eapply Hf; [exact Hs|by left|done]|done].
  intros s1 y s2 ???; eapply Hf; [done|by right|done].
Qed.

Lemma foldR_Err {A S} (f : S → A → result S) l s e :
  foldR f s l = Err e → ∃ s' x, x ∈ l ∧ f s' x = Err e.
Proof.
  revert s; induction l as [|x l IH]; simpl; intros s; [done|].
  intros [?|(y & _ & (s' & z & ? & ?)%IH)]%bind_Err;
    [exists s, x; set_solver | exists s', z; set_solver].
Qed.

(** ** Lemmas on strings *)

Lemma of_chars_chars s : of_chars (chars s) = s.
Proof. apply String.string_of_list_ascii_of_string. Qed.
Lemma chars_of_chars l : chars (of_chars l) = l.
Proof. apply String.list_ascii_of_string_of_list_ascii. Qed.

Global Instance chars_inj : Inj (=) (=) chars.
Proof. intros s1 s2 H. by rewrite <-(of_chars_chars s1), H, of_chars_chars. Qed.
Global Instance of_chars_inj : Inj (=) (=) of_chars.
Proof. intros s1 s2 H. by rewrite <-(chars_of_chars s1), H, chars_of_chars. Qed.

Lemma chars_app s1 s2 : chars (s1 +:+ s2) = chars s1 ++ chars s2.
Proof.
  induction s1 as [|c s1 IH]; [done|].
  change (String c s1 +:+ s2) with (String c (s1 +:+ s2)).
  change (chars (String c (s1 +:+ s2))) with (c :: chars (s1 +:+ s2)). by rewrite IH.
Qed.

Lemma chars_cons c s : chars (String c s) = c :: chars s.
Proof. done. Qed.

Lemma of_chars_app l1 l2 : of_chars (l1 ++ l2) = of_chars l1 +:+ of_chars l2.
Proof. apply (inj chars). by rewrite chars_app, !chars_of_chars. Qed.

Lemma slen_chars s : slen s = length (chars s).
Proof. unfold slen. induction s as [|c s IH]; [done|]. simpl. by f_equal. Qed.

Lemma slen_app s1 s2 : slen (s1 +:+ s2) = slen s1 + slen s2.
Proof. by rewrite !slen_chars, chars_app, length_app. Qed.

Lemma sapp_assoc s1 s2 s3 : s1 +:+ (s2 +:+ s3) = (s1 +:+ s2) +:+ s3.
Proof. apply (inj chars). by rewrite !chars_app, (assoc_L (++)). Qed.

Lemma sapp_nil_r s : s +:+ "" = s.
Proof. apply (inj chars). by rewrite chars_app, app_nil_r. Qed.

Lemma sapp_cons c s1 s2 : String c s1 +:+ s2 = String c (s1 +:+ s2).
Proof. done. Qed.

Lemma ord_chr n : (n < 256)%N → ord (chr n) = n.
Proof. apply N_ascii_embedding. Qed.
Lemma chr_ord c : chr (ord c) = c.
Proof. apply ascii_N_embedding. Qed.
Lemma ord_bound c : (ord c < 256)%N.
Proof. apply N_ascii_bounded. Qed.
Global Instance ord_inj : Inj (=) (=) ord.
Proof. intros c1 c2 H. by rewrite <-(chr_ord c1), H, chr_ord. Qed.

Lemma in_range_spec lo hi c : in_range lo hi c = true ↔ (lo <= ord c <= hi)%N.
Proof. unfold in_range. rewrite andb_true_iff, !N.leb_le. lia. Qed.

Lemma startswith_spec p s : startswith p s = true ↔ ∃ r, s = p +:+ r.
Proof.
  unfold startswith. revert s; induction p as [|c p IH]; intros s.
  - simpl. split; [intros _; by exists s|]. by destruct s.
  - destruct s as [|d s]; simpl.
    { split; [done|]. intros (r & Hr). done. }
    destruct (ascii_dec c d) as [->|Hne].
    + rewrite IH. split; intros (r & Hr); exists r; [by rewrite Hr | by injection Hr].
    + split; [done|]. intros (r & Hr). by injection Hr as ->.
Qed.

Lemma startswith_app p s : startswith p (p +:+ s) = true.
Proof. apply startswith_spec. eauto. Qed.

Lemma str_rev_app s1 s2 : str_rev (s1 +:+ s2) = str_rev s2 +:+ str_rev s1.
Proof. unfold str_rev. by rewrite chars_app, reverse_app, of_chars_app. Qed.
Lemma str_rev_involutive s : str_rev (str_rev s) = s.
Proof. unfold str_rev. by rewrite chars_of_chars, reverse_involutive, of_chars_chars. Qed.

Lemma endswith_spec p s : endswith p s = true ↔ ∃ r, s = r +:+ p.
Proof.
  unfold endswith. rewrite startswith_spec. split.
  - intros (r & Hr). exists (str_rev r).
    by rewrite <-(str_rev_involutive s), Hr, str_rev_app, str_rev_involutive.
  - intros (r & ->). exists (str_rev r). by rewrite str_rev_app.
Qed.

Lemma str_drop_app s1 s2 : str_drop (slen s1) (s1 +:+ s2) = s2.
Proof.
  unfold str_drop. by rewrite slen_chars, chars_app, drop_app_length, of_chars_chars.
Qed.
Lemma str_take_app s1 s2 : str_take (slen s1) (s1 +:+ s2) = s1.
Proof.
  unfold str_take. by rewrite slen_chars, chars_app, take_app_length, of_chars_chars.
Qed.
Lemma str_drop_app_alt n s1 s2 : n = slen s1 → str_drop n (s1 +:+ s2) = s2.
Proof. intros ->. apply str_drop_app. Qed.
Lemma str_take_app_alt n s1 s2 : n = slen s1 → str_take n (s1 +:+ s2) = s1.
Proof. intros ->. apply str_take_app. Qed.
Lemma str_take_ge n s : slen s ≤ n → str_take n s = s.
Proof. intros. unfold str_take. rewrite take_ge, of_chars_chars; [done|]. by rewrite <-slen_chars. Qed.

Lemma sapp_inj_l s1 s2 s : s +:+ s1 = s +:+ s2 → s1 = s2.
Proof. intros H. apply (f_equal chars) in H. rewrite !chars_app in H. apply (inj chars). by apply app_inv_head in H. Qed.
Lemma sapp_inj_r s1 s2 s : s1 +:+ s = s2 +:+ s → s1 = s2.
Proof. intros H. apply (f_equal chars) in H. rewrite !chars_app in H. apply (inj chars). by apply app_inv_tail in H. Qed.

(** Strings that end in different characters differ. *)
Lemma suffix_ne s1 s2 c1 c2 : c1 ≠ c2 → s1 +:+ String c1 "" ≠ s2 +:+ String c2 "".
Proof.
  intros Hc H. apply (f_equal chars) in H. rewrite !chars_app in H.
  apply app_inj_tail in H as [_ H]. done.
Qed.

Lemma forallb_impl {A} (f g : A → bool) l :
  (∀ x, f x = true → g x = true) → forallb f l = true → forallb g l = true.
Proof. intros Hfg. induction l as [|x l IH]; simpl; [done|]. intros [?%Hfg ?%IH]%andb_prop. by apply andb_true_intro. Qed.

Lemma drop_while_app {A} (f : A → bool) l1 l2 :
  forallb f l1 = true → drop_while f (l1 ++ l2) = drop_while f l2.
Proof. induction l1 as [|x l1 IH]; simpl; [done|]. by intros [-> ?%IH]%andb_prop. Qed.

Lemma drop_while_head {A} (f : A → bool) x l : f x = false → drop_while f (x :: l) = x :: l.
Proof. simpl. by intros ->. Qed.

Lemma take_while_app {A} (f : A → bool) l1 l2 :
  forallb f l1 = true → take_while f (l1 ++ l2) = l1 ++ take_while f l2.
Proof. induction l1 as [|x l1 IH]; simpl; [done|]. intros [-> ?]%andb_prop. by rewrite IH. Qed.

Lemma take_drop_while {A} (f : A → bool) l : take_while f l ++ drop_while f l = l.
Proof. induction l as [|x l IH]; simpl; [done|]. destruct (f x); simpl; by rewrite ?IH. Qed.

Lemma forallb_take_while {A} (f : A → bool) l : forallb f (take_while f l) = true.
Proof. induction l as [|x l IH]; simpl; [done|]. destruct (f x) eqn:E; simpl; by rewrite ?E. Qed.

Lemma drop_while_hd {A} (f : A → bool) l x l' : drop_while f l = x :: l' → f x = false.
Proof.
  induction l as [|y l IH]; simpl; [done|]. destruct (f y) eqn:E; [done|]. by intros [= <- <-].
Qed.

(** A boundary the predicate rejects stops the scan where the first part does. *)
Lemma take_while_stop {A} (f : A → bool) l r :
  (∀ x r', r = x :: r' → f x = false) → take_while f (l ++ r) = take_while f l.
Proof.
  intros Hr. induction l as [|x l IH]; simpl.
  - destruct r as [|x r]; simpl; [done|]. by rewrite (Hr x r).
  - destruct (f x); by rewrite ?IH.
Qed.
Lemma drop_while_stop {A} (f : A → bool) l r :
  (∀ x r', r = x :: r' → f x = false) → drop_while f (l ++ r) = drop_while f l ++ r.
Proof.
  intros Hr. induction l as [|x l IH]; simpl.
  - destruct r as [|x r]; simpl; [done|]. by rewrite (Hr x r).
  - destruct (f x); by rewrite ?IH.
Qed.

Lemma length_drop_while {A} (f : A → bool) l : length (drop_while f l) ≤ length l.
Proof. induction l as [|y l IH]; simpl; [done|]. destruct (f y); simpl; lia. Qed.

(** ** Lemmas on the order of strings *)

Lemma str_leb_refl s : str_leb s s = true.
Proof. apply Is_true_true. change (String.le s s). reflexivity. Qed.
Lemma str_leb_trans s1 s2 s3 :
  str_leb s1 s2 = true → str_leb s2 s3 = true → str_leb s1 s3 = true.
Proof. rewrite <-!Is_true_true. change (String.le s1 s2 → String.le s2 s3 → String.le s1 s3). by etrans. Qed.
Lemma str_leb_antisym s1 s2 : str_leb s1 s2 = true → str_leb s2 s1 = true → s1 = s2.
Proof. apply String.leb_antisym. Qed.
Lemma str_leb_total s1 s2 : str_leb s1 s2 = true ∨ str_leb s2 s1 = true.
Proof. apply String.leb_total. Qed.
Lemma str_ltb_leb s1 s2 : str_ltb s1 s2 = negb (str_leb s2 s1).
Proof.
  unfold str_ltb, str_leb, String.ltb, String.leb. rewrite (String.compare_antisym s2 s1).
  by destruct (String.compare s1 s2).
Qed.

(** ** Lemmas on sorting *)

Section sort_lemmas.
Context {A : Type} (leb : A → A → bool).

Lemma insert_sorted_perm x l : insert_sorted leb x l ≡ₚ x :: l.
Proof.
  induction l as [|y l IH]; simpl; [done|]. destruct (leb x y); [done|].
  rewrite IH. apply Permutation_swap.
Qed.

Lemma sort_by_perm l : sort_by leb l ≡ₚ l.
Proof. induction l as [|x l IH]; simpl; [done|]. by rewrite insert_sorted_perm, IH. Qed.

Lemma elem_of_sort_by x l : x ∈ sort_by leb l ↔ x ∈ l.
Proof. by rewrite sort_by_perm. Qed.

Lemma length_sort_by l : length (sort_by leb l) = length l.
Proof. by rewrite sort_by_perm. Qed.

(** Sorting commutes with a map that keeps the order. *)
Lemma sort_by_map {B} (leb' : B → B → bool) (g : A → B) l :
  (∀ x y, leb' (g x) (g y) = leb x y) → sort_by leb' (map g l) = map g (sort_by leb l).
Proof.
  intros Hg. induction l as [|x l IH]; simpl; [done|]. rewrite IH. generalize (sort_by leb l) as k.
  induction k as [|y k IHk]; simpl; [done|]. rewrite Hg. destruct (leb x y); simpl; by rewrite ?IHk.
Qed.

Section total.
Context (Ht : ∀ x y, leb x y = true ∨ leb y x = true).
Context (Htr : ∀ x y z, leb x y = true → leb y z = true → leb x z = true).

Lemma insert_sorted_sorted x l :
  StronglySorted (λ x y, leb x y = true) l →
  StronglySorted (λ x y, leb x y = true) (insert_sorted leb x l).
Proof using Ht Htr.
  induction 1 as [|y l Hl IH Hy]; simpl; [by repeat constructor|].
  destruct (leb x y) eqn:E.
  - constructor; [by constructor|]. constructor; [done|].
    eapply Forall_impl; [exact Hy|]. intros z Hz. by eapply Htr.
  - constructor; [done|]. rewrite insert_sorted_perm. constructor; [|done].
    destruct (Ht x y) as [?|?]; [congruence|done].
Qed.

Lemma sort_by_sorted l : StronglySorted (λ x y, leb x y = true) (sort_by leb l).
Proof using Ht Htr.
  induction l as [|x l IH]; simpl; [constructor|]. by apply insert_sorted_sorted.
Qed.

(** Sorting forgets the order of its input when the order separates its elements. *)
Lemma sort_by_unique l1 l2 :
  (∀ x y, x ∈ l1 → y ∈ l1 → leb x y = true → leb y x = true → x = y) →
  l1 ≡ₚ l2 → sort_by leb l1 = sort_by leb l2.
Proof using Ht Htr.
  intros Ha Hp. apply (StronglySorted_unique_strong (λ x y, leb x y = true)).
  - intros x y Hx Hy. rewrite elem_of_sort_by in Hx, Hy. rewrite <-Hp in Hy. by apply Ha.
  - apply sort_by_sorted.
  - apply sort_by_sorted.
  - by rewrite !sort_by_perm.
Qed.
End total.

(** A sorted list is a fixed point. *)
Lemma sort_by_id l : StronglySorted (λ x y, leb x y = true) l → sort_by leb l = l.
Proof.
  induction 1 as [|x l Hl IH Hx]; simpl; [done|]. rewrite IH.
  destruct l as [|y l]; simpl; [done|]. apply Forall_cons in Hx as [-> _]. done.
Qed.
End sort_lemmas.

Lemma insert_sorted_ext {A} (leb leb' : A → A → bool) x l :
  (∀ y, y ∈ l → leb x y = leb' x y) → insert_sorted leb x l = insert_sorted leb' x l.
Proof.
  induction l as [|y l IH]; intros H; simpl; [done|]. rewrite (H y) by (by left).
  destruct (leb' x y); [done|]. f_equal. apply IH. intros z Hz. apply H. by right.
Qed.
Lemma sort_by_ext {A} (leb leb' : A → A → bool) l :
  (∀ x y, x ∈ l → y ∈ l → leb x y = leb' x y) → sort_by leb l = sort_by leb' l.
Proof.
  induction l as [|x l IH]; intros H; simpl; [done|].
  rewrite IH by (intros y z Hy Hz; apply H; by right). apply insert_sorted_ext.
  intros y Hy. apply H; [by left|]. right. by rewrite elem_of_sort_by in Hy.
Qed.

Definition key_leb {A} (p q : string * A) : bool := str_leb p.1 q.1.

Lemma key_leb_total {A} (p q : string * A) : key_leb p q = true ∨ key_leb q p = true.
Proof. apply str_leb_total. Qed.
Lemma key_leb_trans {A} (p q r : string * A) :
  key_leb p q = true → key_leb q r = true → key_leb p r = true.
Proof. apply str_leb_trans. Qed.

Lemma items_sorted_perm {A} (m : gmap string A) : items_sorted m ≡ₚ map_to_list m.
Proof. apply sort_by_perm. Qed.

Lemma elem_of_items_sorted {A} (m : gmap string A) k v : (k, v) ∈ items_sorted m ↔ m !! k = Some v.
Proof. by rewrite items_sorted_perm, elem_of_map_to_list. Qed.

Lemma list_to_map_items_sorted {A} (m : gmap string A) : list_to_map (items_sorted m) = m.
Proof.
  rewrite <-(list_to_map_to_list m) at 2. apply list_to_map_proper.
  - rewrite items_sorted_perm. apply NoDup_fst_map_to_list.
  - apply items_sorted_perm.
Qed.

(** ** Loops over the state and insertion-ordered dictionaries *)

Lemma forS_app {A S} (f : A → st S unit) l1 l2 s :
  forS f (l1 ++ l2) s = (_ ← forS f l1; forS f l2) s.
Proof.
  revert s; induction l1 as [|x l1 IH]; intros s; [done|]. simpl. unfold mbind, st_bind in *.
  destruct (f x s) as [[[]|e] s']; [|done]. apply IH.
Qed.

(** A loop whose body never raises is a fold. *)
Lemma forS_total {A S} (f : A → st S unit) (g : A → S → S) l s :
  (∀ x s, f x s = (Ok tt, g x s)) → forS f l s = (Ok tt, fold_left (λ s x, g x s) l s).
Proof.
  intros Hf. revert s; induction l as [|x l IH]; intros s; [done|]. simpl. unfold mbind, st_bind.
  rewrite Hf. apply IH.
Qed.

Lemma elem_of_put_item {A} k v (d : list (string * A)) x : NoDup d.*1 →
  x ∈ put_item k v d ↔ x = (k, v) ∨ (x ∈ d ∧ x.1 ≠ k).
Proof.
  induction d as [|[k' v'] d IH]; simpl; [set_solver|]. intros [Hni Hnd]%NoDup_cons.
  case_bool_decide as E; rewrite !elem_of_cons.
  - subst k'. split; [|set_solver]. intros [->|Hx]; [by left|]. right. split; [by right|].
    intros <-. apply Hni. apply list_elem_of_fmap. by exists x.
  - rewrite IH by done. naive_solver.
Qed.

Lemma put_item_keys {A} k v (d : list (string * A)) x : x ∈ (put_item k v d).*1 ↔ x = k ∨ x ∈ d.*1.
Proof.
  induction d as [|[k' v'] d IH]; simpl; [set_solver|]. case_bool_decide as E; simpl; rewrite !elem_of_cons.
  - subst. tauto.
  - rewrite IH. tauto.
Qed.

Lemma put_item_NoDup {A} k v (d : list (string * A)) : NoDup d.*1 → NoDup (put_item k v d).*1.
Proof.
  induction d as [|[k' v'] d IH]; simpl; [intros _; apply NoDup_singleton|]. intros [Hni Hnd]%NoDup_cons.
  case_bool_decide as E; simpl.
  - subst. by constructor.
  - constructor; [|by apply IH]. rewrite put_item_keys. by intros [?|?].
Qed.

(** When a key always comes with the same value, a dictionary holds the pairs stored in it. *)
Lemma put_items_spec {A} (l d : list (string * A)) : NoDup d.*1 →
  (∀ x y, x ∈ d ++ l → y ∈ d ++ l → x.1 = y.1 → x = y) →
  NoDup (put_items d l).*1 ∧ ∀ x, x ∈ put_items d l ↔ x ∈ d ++ l.
Proof.
  revert d; induction l as [|[k v] l IH]; intros d Hnd Hfun.
  { cbn. rewrite app_nil_r. split; [done|]. by intros x. }
  assert (∀ x, x ∈ put_item k v d ↔ x ∈ d ++ [(k, v)]) as Hx.
  { intros x. rewrite elem_of_put_item, elem_of_app, list_elem_of_singleton by done.
    destruct (decide (x.1 = k)) as [E|E]; [|naive_solver]. split; [tauto|]. intros [Hd| -> ]; [|by left]. left.
    apply Hfun; [set_solver|set_solver|done]. }
  assert (∀ x, x ∈ put_item k v d ++ l ↔ x ∈ d ++ (k, v) :: l) as Hxl.
  { intros x. rewrite elem_of_app, Hx. set_solver. }
  destruct (IH (put_item k v d)) as [H1 H2].
  - by apply put_item_NoDup.
  - intros x y. rewrite !Hxl. apply Hfun.
  - split; [exact H1|]. intros x. rewrite <-Hxl. apply H2.
Qed.

Lemma get_item_put {A} k k' (v : A) d : get_item k (put_item k' v d) = if bool_decide (k = k') then Some v else get_item k d.
Proof.
  unfold get_item. induction d as [|[k0 v0] d IH]; cbn.
  - rewrite (bool_decide_ext (k' = k) (k = k')) by naive_solver. by case_match.
  - destruct (bool_decide_reflect (k0 = k')) as [->|Hne]; cbn.
    + rewrite (bool_decide_ext (k' = k) (k = k')) by naive_solver. by destruct (bool_decide (k = k')).
    + destruct (bool_decide_reflect (k0 = k)) as [->|Hk]; [|done]. cbn. by rewrite bool_decide_eq_false_2.
Qed.

Lemma get_item_elem {A} k v (d : list (string * A)) : NoDup d.*1 → get_item k d = Some v ↔ (k, v) ∈ d.
Proof.
  unfold get_item. induction d as [|[k' v'] d IH]; cbn [List.find fmap list_fmap fst];
    [intros _; split; [done|intros H; by apply elem_of_nil in H]|].
  intros [Hni Hnd]%NoDup_cons. rewrite elem_of_cons. case_bool_decide as E.
  - subst k'. cbn. split; [intros [= ->]; by left|]. intros [[= ->]|Hin]; [done|].
    destruct Hni. apply list_elem_of_fmap. by exists (k, v).
  - rewrite IH by done. naive_solver.
Qed.

(** [[l[i : i + n] for i in range(0, len(l), n)]]. *)
Definition batches {A} (n : nat) (l : list A) : list (list A) :=
  map (λ i, take n (drop (i * n) l)) (seq 0 ((length l + n - 1) / n)).

Lemma concat_batches_go {A} (n k : nat) (l : list A) : length l ≤ k * n →
  concat (map (λ i, take n (drop (i * n) l)) (seq 0 k)) = l.
Proof.
  revert l; induction k as [|k IH]; intros l Hl; [by destruct l; [|simpl in Hl; lia]|].
  cbn [seq map concat]. rewrite <-seq_shift, map_map. cbn [Nat.mul drop].
  transitivity (take n l ++ drop n l); [|apply take_drop]. f_equal.
  rewrite <-(IH (drop n l)) by (rewrite length_drop; lia).
  f_equal. apply map_ext. intros i. by rewrite drop_drop.
Qed.

Lemma concat_batches {A} (n : nat) (l : list A) : 0 < n → concat (batches n l) = l.
Proof.
  intros Hn. apply concat_batches_go.
  pose proof (Nat.div_mod (length l + n - 1) n). pose proof (Nat.mod_upper_bound (length l + n - 1) n). lia.
Qed.
