(* ===== verification/Numbers.v ===== *)
(** * Python numbers: [int] literals and printing, and binary64 [float]s

    [str(int)], [int(str)], [float(str)], [repr(float)] and the float operations the
    program uses. A [float] is the Standard Library's [spec_float] at precision 53 and
    exponent bound 1024, so every definition computes; [float(str)] and [repr] round
    correctly (the division step keeps an exact remainder location). *)

From Stdlib Require Import Ascii String ZArith Lia.
From Stdlib Require Import Decimal DecimalString DecimalZ DecimalN SpecFloat.
From stdpp Require Import base strings numbers list.
From S2P Require Import Prelude.

Local Open Scope Z_scope.

(** ** Integers in decimal *)

(** [str(z)]. *)
Definition Z_str (z : Z) : string := NilZero.string_of_int (Z.to_int z).

Definition digit_val (c : ascii) : Z := Z.of_N (ord c) - 48.

(** The value of a list of decimal digits, most significant first. *)
Definition digits_val (l : list ascii) : Z := fold_left (λ acc c, 10 * acc + digit_val c) l 0.

(** Digits with single underscores between them lose the underscores; any other
    underscore is an error. [prev] tells whether the previous character was a digit. *)
Fixpoint strip_underscores (prev : bool) (l : list ascii) : option (list ascii) :=
  match l with
  | [] => Some []
  | c :: l' =>
      if bool_decide (c = "_"%char) then
        match l' with
        | d :: _ => if prev && is_digit d then strip_underscores false l' else None
        | [] => None
        end
      else (c ::.) <$> strip_underscores (is_digit c) l'
  end.

(** [(sign, rest)]: an optional sign. *)
Definition split_sign (l : list ascii) : bool * list ascii :=
  match l with
  | "-"%char :: l => (true, l)
  | "+"%char :: l => (false, l)
  | _ => (false, l)
  end.

(** [int(s)] on a [str]; [None] is the [ValueError]. *)
Definition parse_int (s : string) : option Z :=
  l ← strip_underscores false (strip_chars (chars s));
  let '(neg, ds) := split_sign l in
  match ds with
  | [] => None
  | _ => if forallb is_digit ds
         then Some (if neg then - digits_val ds else digits_val ds) else None
  end.

(** [f"{z:08d}"] for a nonnegative [z]. *)
Definition zfill (w : nat) (s : string) : string :=
  of_chars (replicate (w - slen s)%nat "0"%char) +:+ s.
Definition format_08d (z : Z) : string := zfill 8 (Z_str z).
Definition format_04d (z : Z) : string := zfill 4 (Z_str z).

(** ** Binary64 *)

Notation float := spec_float.

Definition prec64 : Z := 53.
Definition emax64 : Z := 1024.

Definition fadd : float → float → float := SFadd prec64 emax64.
Definition fsub : float → float → float := SFsub prec64 emax64.
Definition fmul : float → float → float := SFmul prec64 emax64.
Definition fdiv : float → float → float := SFdiv prec64 emax64.
Definition fopp : float → float := SFopp.
Definition fltb : float → float → bool := SFltb.
Definition fleb : float → float → bool := SFleb.
Definition feqb : float → float → bool := SFeqb.

Definition is_nan (f : float) : bool := match f with S754_nan => true | _ => false end.
Definition is_finite (f : float) : bool :=
  match f with S754_nan | S754_infinity _ => false | _ => true end.

(** [float(z)] on an [int] in range. *)
Definition float_of_Z (z : Z) : float := binary_normalize prec64 emax64 z 0 false.

(** [z >= f] for an [int] and a [float]: exact, as the interpreter compares them. *)
Definition int_geb_float (z : Z) (f : float) : bool :=
  match f with
  | S754_nan => false
  | S754_infinity s => s
  | S754_zero _ => z >=? 0
  | S754_finite s m e =>
      let c := if s then Z.neg m else Z.pos m in
      if e >=? 0 then z >=? c * 2 ^ e else z * 2 ^ (- e) >=? c
  end.

(** The float nearest to [(-1)^neg * m * 10^e], [n] being the number of decimal digits
    of [m]: values out of range are decided on [n + e] alone. *)
Definition dec_to_float (neg : bool) (m : positive) (n e : Z) : float :=
  if n + e >? 310 then S754_infinity neg
  else if n + e <? -326 then S754_zero neg
  else if e >=? 0 then binary_round prec64 emax64 neg (m * Z.to_pos (10 ^ e)) 0
  else let '(mz, ez, lz) := SFdiv_core_binary prec64 emax64 (Z.pos m) 0 (10 ^ (- e)) 0 in
       binary_round_aux prec64 emax64 neg mz ez lz.

(** Digits, an optional point with digits, at least one digit in all. *)
Definition scan_mantissa (l : list ascii) : option (list ascii * list ascii * list ascii) :=
  let ip := take_while is_digit l in
  let r := drop_while is_digit l in
  match r with
  | "."%char :: r' =>
      let fp := take_while is_digit r' in
      match ip ++ fp with [] => None | _ => Some (ip, fp, drop_while is_digit r') end
  | _ => match ip with [] => None | _ => Some (ip, [], r) end
  end.

(** An optional exponent; the whole rest must be consumed. *)
Definition scan_exponent (l : list ascii) : option Z :=
  match l with
  | [] => Some 0
  | c :: r =>
      if bool_decide (c = "e"%char ∨ c = "E"%char) then
        let '(neg, ds) := split_sign r in
        match ds with
        | [] => None
        | _ => if forallb is_digit ds
               then Some (if neg then - digits_val ds else digits_val ds) else None
        end
      else None
  end.

(** [float(s)] on a [str]; [None] is the [ValueError]. *)
Definition parse_float (s : string) : option float :=
  l ← strip_underscores false (strip_chars (chars s));
  let '(neg, l) := split_sign l in
  let word := of_chars (map lower_char l) in
  if bool_decide (word = "inf" ∨ word = "infinity") then Some (S754_infinity neg)
  else if bool_decide (word = "nan") then Some S754_nan
  else
    '(ip, fp, r) ← scan_mantissa l;
    e ← scan_exponent r;
    let ds := drop_while (λ c, bool_decide (c = "0"%char)) (ip ++ fp) in
    Some match digits_val ds with
         | Z.pos m =>
             dec_to_float neg m (Z.of_nat (length ds)) (e - Z.of_nat (length fp))
         | _ => S754_zero neg
         end.

(** ** [repr] of a float: the shortest decimal that reads back *)

(** [v = num / den] lies in [[10^(p-1), 10^p)]; [p] is adjusted from an estimate. *)
Fixpoint adjust_decpt (fuel : nat) (num den p : Z) : Z :=
  match fuel with
  | O => p
  | S fuel =>
      let ge q := if q >=? 0 then num >=? den * 10 ^ q else num * 10 ^ (- q) >=? den in
      if ge p then adjust_decpt fuel num den (p + 1)
      else if negb (ge (p - 1)) then adjust_decpt fuel num den (p - 1)
      else p
  end.

(** The [n]-digit candidates for [num / den], nearest first. *)
Definition candidates (num den p n : Z) : list Z :=
  let sc := n - p in
  let num' := if sc >=? 0 then num * 10 ^ sc else num in
  let den' := if sc >=? 0 then den else den * 10 ^ (- sc) in
  let lo := num' / den' in
  let r := num' mod den' in
  match Z.compare (2 * r) den' with
  | Lt => [lo; lo + 1]
  | Gt => [lo + 1; lo]
  | Eq => if Z.even lo then [lo; lo + 1] else [lo + 1; lo]
  end.

Definition reads_back (m : positive) (e : Z) (c q : Z) : bool :=
  match c with
  | Z.pos p => bool_decide
      (dec_to_float false p (Z.of_nat (slen (Z_str c))) q = S754_finite false m e)
  | _ => false
  end.

Fixpoint shortest (fuel : nat) (m : positive) (e num den p n : Z) : Z * Z :=
  match List.find (λ c, reads_back m e c (p - n)) (candidates num den p n) with
  | Some c => (c, p - n)
  | None =>
      match fuel with
      | O => (hd 0 (candidates num den p n), p - n)
      | S fuel => shortest fuel m e num den p (n + 1)
      end
  end.

Definition float_digits (m : positive) (e : Z) : Z * Z :=
  let num := if e >=? 0 then Z.pos m * 2 ^ e else Z.pos m in
  let den := if e >=? 0 then 1 else 2 ^ (- e) in
  let p := adjust_decpt 4 num den (((Z.log2 num - Z.log2 den) * 30103) / 100000) in
  shortest 16 m e num den p 1.

Definition rstrip_zeros (l : list ascii) : list ascii :=
  reverse (drop_while (λ c, bool_decide (c = "0"%char)) (reverse l)).

(** Lay out the digits [ds] of a value [0.ds * 10^decpt]. *)
Definition format_repr (ds : list ascii) (decpt : Z) : string :=
  let n := Z.of_nat (length ds) in
  if (decpt <=? -4) || (decpt >? 16) then
    let ex := decpt - 1 in
    let es := (if ex <? 0 then "-" else "+") +:+ zfill 2 (Z_str (Z.abs ex)) in
    match ds with
    | [] => ""
    | [d] => String d "" +:+ "e" +:+ es
    | d :: ds' => String d "" +:+ "." +:+ of_chars ds' +:+ "e" +:+ es
    end
  else if decpt <=? 0 then
    "0." +:+ of_chars (replicate (Z.to_nat (- decpt)) "0"%char ++ ds)
  else if n <=? decpt then
    of_chars (ds ++ replicate (Z.to_nat (decpt - n)) "0"%char) +:+ ".0"
  else of_chars (take (Z.to_nat decpt) ds) +:+ "." +:+ of_chars (drop (Z.to_nat decpt) ds).

(** [repr(f)], also [str(f)]. *)
Definition float_repr (f : float) : string :=
  match f with
  | S754_nan => "nan"
  | S754_infinity s => if s then "-inf" else "inf"
  | S754_zero s => if s then "-0.0" else "0.0"
  | S754_finite s m e =>
      let '(c, q) := float_digits m e in
      let all := chars (Z_str c) in
      (if s then "-" else "")
        +:+ format_repr (rstrip_zeros all) (Z.of_nat (length all) + q)
  end.

(** ** Printing and reading integers *)

Definition digits_acc (acc : Z) (l : list ascii) : Z :=
  fold_left (λ acc c, 10 * acc + digit_val c) l acc.

Lemma uint_chars_digit d : forallb is_digit (chars (NilEmpty.string_of_uint d)) = true.
Proof. induction d; simpl; auto. Qed.

Lemma digits_acc_uint d p :
  digits_acc (Z.pos p) (chars (NilEmpty.string_of_uint d)) = Z.pos (Pos.of_uint_acc d p).
Proof.
  revert p; induction d; intros p; [done|..];
    cbn [NilEmpty.string_of_uint chars list_ascii_of_string];
    unfold digits_acc in *; cbn [fold_left];
    cbn [Pos.of_uint_acc]; rewrite <-IHd;
    f_equal; unfold digit_val; simpl; lia.
Qed.

Lemma digits_val_uint d : digits_val (chars (NilEmpty.string_of_uint d)) = Z.of_uint d.
Proof.
  induction d; [done|exact IHd|..]; unfold digits_val;
    cbn [NilEmpty.string_of_uint chars list_ascii_of_string fold_left];
    apply digits_acc_uint.
Qed.

Definition uint_string (d : uint) : string := NilZero.string_of_uint d.

Lemma uint_string_spec d :
  forallb is_digit (chars (uint_string d)) = true ∧ chars (uint_string d) ≠ [] ∧
  digits_val (chars (uint_string d)) = Z.of_uint d.
Proof.
  unfold uint_string, NilZero.string_of_uint. destruct d; [done|..];
    match goal with |- context [NilEmpty.string_of_uint ?d] =>
      split_and!; [apply uint_chars_digit | done | apply digits_val_uint] end.
Qed.

(** [str(z)] is an optional minus sign and the decimal digits of [|z|]. *)
Lemma Z_str_shape z :
  ∃ s, Z_str z = (if z <? 0 then "-" else "") +:+ s ∧ forallb is_digit (chars s) = true ∧
       chars s ≠ [] ∧ digits_val (chars s) = Z.abs z.
Proof.
  unfold Z_str. pose proof (DecimalZ.of_to z) as Hz.
  destruct z as [|p|p]; cbn [Z.to_int] in *; eexists; (split; [reflexivity|]);
    cbn [Z.of_int] in Hz.
  - by vm_compute.
  - destruct (uint_string_spec (Pos.to_uint p)) as (?&?&?). split_and!; try done.
    etrans; [done|]. simpl. lia.
  - destruct (uint_string_spec (Pos.to_uint p)) as (?&?&Hv). split_and!; try done.
    etrans; [exact Hv|]. simpl. lia.
Qed.

Lemma is_digit_not_special c :
  is_digit c = true → is_space c = false ∧ c ≠ "_"%char ∧ c ≠ "-"%char ∧ c ≠ "+"%char ∧ c ≠ "."%char
    ∧ c ≠ "e"%char ∧ c ≠ "E"%char.
Proof.
  intros H. split; [apply in_range_spec in H|by split_and!; intros ->].
  - unfold is_space, in_range. rewrite !orb_false_iff, !andb_false_iff, !N.leb_gt, !N.eqb_neq. lia.
Qed.

Lemma strip_chars_id l :
  (∀ c l', l = c :: l' → is_space c = false) → (∀ c l', l = l' ++ [c] → is_space c = false) →
  strip_chars l = l.
Proof.
  intros Hf Hl. unfold strip_chars. destruct l as [|c l']; [done|].
  rewrite drop_while_head; [|by eapply Hf].
  destruct (reverse (c :: l')) as [|d r] eqn:E; [by apply (f_equal length) in E; rewrite length_reverse in E|].
  assert (c :: l' = reverse r ++ [d]) as E'.
  { rewrite <-(reverse_involutive (c :: l')), E. by rewrite reverse_cons. }
  rewrite drop_while_head; [|by eapply Hl]. by rewrite reverse_cons, E'.
Qed.

Lemma strip_underscores_id b l :
  Forall (λ c, c ≠ "_"%char) l → strip_underscores b l = Some l.
Proof.
  intros H; revert b. induction H as [|c l Hc ? IH]; intros b; simpl; [done|].
  rewrite bool_decide_eq_false_2 by done. by rewrite IH.
Qed.

Lemma forallb_digits_Forall (P : ascii → Prop) l :
  (∀ c, is_digit c = true → P c) → forallb is_digit l = true → Forall P l.
Proof. intros HP H. apply Forall_forall. intros c Hc.
  apply HP. rewrite forallb_forall in H. by apply H, list_elem_of_In. Qed.

Lemma strip_digits l : forallb is_digit l = true → strip_chars l = l.
Proof.
  intros H. pose proof (forallb_digits_Forall (λ c, is_space c = false) l
    (λ c Hc, proj1 (is_digit_not_special c Hc)) H) as HF.
  apply strip_chars_id; intros c l' ->.
  - by apply Forall_cons in HF as [? _].
  - by apply Forall_app in HF as [_ [? _]%Forall_cons].
Qed.

(** [int(str(z)) == z]. *)
Lemma parse_int_Z_str z : parse_int (Z_str z) = Some z.
Proof.
  destruct (Z_str_shape z) as (s & -> & Hd & Hne & Hv).
  pose proof (forallb_digits_Forall (λ c, is_space c = false) _
    (λ c Hc, proj1 (is_digit_not_special c Hc)) Hd) as HFs.
  assert (Forall (λ c, c ≠ "_"%char) (chars s)) as HFu.
  { eapply forallb_digits_Forall; [|done]. intros c Hc. by apply is_digit_not_special in Hc as (_ & ? & _). }
  unfold parse_int. rewrite chars_app.
  destruct (chars s) as [|c l] eqn:Es; [done|].
  assert (strip_chars (chars (if z <? 0 then "-" else "") ++ c :: l)
          = chars (if z <? 0 then "-" else "") ++ c :: l) as ->.
  { apply strip_chars_id.
    - intros d l'. destruct (z <? 0); simpl; intros [= <- ?]; [done|].
      by apply Forall_cons in HFs as [? _].
    - intros d l' E. assert (last (c :: l) = Some d) as Hl.
      { apply (f_equal last) in E. rewrite last_snoc in E. rewrite <-E.
        destruct (z <? 0); [|done]. symmetry. simpl. done. }
      apply last_Some in Hl as [l'' Hl]. rewrite Hl in HFs.
      by apply Forall_app in HFs as [_ [? _]%Forall_cons]. }
  rewrite strip_underscores_id.
  2: { apply Forall_app; split; [|done]. destruct (z <? 0); simpl; repeat constructor. done. }
  assert (split_sign (c :: l) = (false, c :: l)) as Hs.
  { simpl in Hd. apply andb_prop in Hd as [Hc _]. apply is_digit_not_special in Hc.
    destruct Hc as (_&_&Hm&Hp&_). unfold split_sign.
    destruct c as [[] [] [] [] [] [] [] []]; done. }
  destruct (Z.ltb_spec z 0); cbn [mbind option_bind chars list_ascii_of_string app].
  - change (split_sign ("-"%char :: c :: l)) with (true, c :: l). cbv iota beta.
    rewrite Hd, Hv. f_equal. lia.
  - rewrite Hs. cbv iota beta. rewrite Hd, Hv. f_equal. lia.
Qed.

Global Instance Z_str_inj : Inj (=) (=) Z_str.
Proof. intros z1 z2 H. apply (inj Some). by rewrite <-!parse_int_Z_str, H. Qed.

(** Leading zeros do not change the value read. *)
Lemma digits_val_zeros n l : digits_val (replicate n "0"%char ++ l) = digits_val l.
Proof. unfold digits_val. by induction n. Qed.

Lemma zfill_chars w z : 0 <= z →
  forallb is_digit (chars (zfill w (Z_str z))) = true ∧ digits_val (chars (zfill w (Z_str z))) = z ∧
  chars (zfill w (Z_str z)) ≠ [].
Proof.
  intros Hz. destruct (Z_str_shape z) as (s & Hs & Hd & Hne & Hv).
  destruct (Z.ltb_spec z 0); [lia|]. change ("" +:+ s) with s in Hs.
  unfold zfill. rewrite Hs, chars_app, chars_of_chars. split_and!.
  - rewrite forallb_app, Hd, andb_true_r. generalize (w - slen s)%nat. by induction n.
  - rewrite digits_val_zeros. lia.
  - by destruct (chars s), (replicate _ _).
Qed.

Lemma zfill_inj w z1 z2 : 0 <= z1 → 0 <= z2 → zfill w (Z_str z1) = zfill w (Z_str z2) → z1 = z2.
Proof.
  intros H1 H2 E. destruct (zfill_chars w z1 H1) as (_ & Hv1 & _).
  destruct (zfill_chars w z2 H2) as (_ & Hv2 & _). by rewrite <-Hv1, <-Hv2, E.
Qed.

Lemma format_08d_chars z : 0 <= z →
  forallb is_digit (chars (format_08d z)) = true ∧ digits_val (chars (format_08d z)) = z ∧
  chars (format_08d z) ≠ [].
Proof. apply zfill_chars. Qed.

Lemma format_08d_inj z1 z2 : 0 <= z1 → 0 <= z2 → format_08d z1 = format_08d z2 → z1 = z2.
Proof. apply zfill_inj. Qed.

(** ** The order of floats *)

Lemma SFcompare_some x y : is_nan x = false → is_nan y = false → ∃ c, SFcompare x y = Some c.
Proof. destruct x, y; simpl; try done; intros _ _; eauto; repeat case_match; eauto. Qed.

Lemma SFcompare_flip x y : SFcompare y x = CompOpp <$> SFcompare x y.
Proof.
  destruct x as [[]|[]| |[] mx ex], y as [[]|[]| |[] my ey]; try done; simpl;
    rewrite (Z.compare_antisym ex ey); destruct (ex ?= ey)%Z; simpl; try done;
    rewrite ?(Pos.compare_antisym mx my);
    rewrite ?(Pos.compare_cont_antisym); simpl;
    change (Pos.compare_cont Eq mx my) with (Pos.compare mx my);
    by destruct (mx ?= my)%positive.
Qed.

Lemma fltb_negb_fleb x y : is_nan x = false → is_nan y = false → fltb x y = negb (fleb y x).
Proof.
  intros Hx Hy. unfold fltb, fleb, SFltb, SFleb. rewrite (SFcompare_flip x y).
  destruct (SFcompare_some x y Hx Hy) as [[] ->]; done.
Qed.

(** Non-NaN floats are ordered as triples: class, signed exponent, signed mantissa. *)
Definition fkey (f : float) : Z * Z * Z :=
  match f with
  | S754_infinity true => (-2, 0, 0)
  | S754_finite true m e => (-1, - e, - Z.pos m)
  | S754_zero _ => (0, 0, 0)
  | S754_finite false m e => (1, e, Z.pos m)
  | S754_infinity false => (2, 0, 0)
  | S754_nan => (3, 0, 0)
  end.

Definition key_lt (x y : Z * Z * Z) : Prop :=
  x.1.1 < y.1.1 ∨ x.1.1 = y.1.1 ∧ (x.1.2 < y.1.2 ∨ x.1.2 = y.1.2 ∧ x.2 < y.2).

Lemma SFcompare_fkey x y : is_nan x = false → is_nan y = false →
  match SFcompare x y with
  | Some Lt => key_lt (fkey x) (fkey y)
  | Some Eq => fkey x = fkey y
  | Some Gt => key_lt (fkey y) (fkey x)
  | None => False
  end.
Proof.
  unfold key_lt. destruct x as [[]|[]| |[] mx ex], y as [[]|[]| |[] my ey]; intros Hx Hy; try done; simpl; try lia.
  - destruct (Z.compare_spec ex ey); simpl; try lia. subst.
    change (Pos.compare_cont Eq mx my) with (Pos.compare mx my).
    destruct (Pos.compare_spec mx my); simpl; subst; try done; lia.
  - destruct (Z.compare_spec ex ey); simpl; try lia. subst.
    change (Pos.compare_cont Eq mx my) with (Pos.compare mx my).
    destruct (Pos.compare_spec mx my); simpl; subst; try done; lia.
Qed.

Lemma feqb_fkey x y : is_nan x = false → is_nan y = false → feqb x y = true ↔ fkey x = fkey y.
Proof.
  intros Hx Hy. pose proof (SFcompare_fkey x y Hx Hy) as H. unfold feqb, SFeqb. unfold key_lt in H.
  destruct (SFcompare x y) as [[]|]; try done; split; try done; intros E; rewrite E in H; lia.
Qed.
Lemma fltb_fkey x y : is_nan x = false → is_nan y = false → fltb x y = true ↔ key_lt (fkey x) (fkey y).
Proof.
  intros Hx Hy. pose proof (SFcompare_fkey x y Hx Hy) as H. unfold fltb, SFltb. unfold key_lt in *.
  destruct (SFcompare x y) as [[]|]; try done; split; try done; [rewrite H|]; lia.
Qed.

Lemma is_nan_fopp x : is_nan (fopp x) = is_nan x.
Proof. by destruct x. Qed.

(** ** Evaluation checks against the interpreter *)

Example Z_str_neg : Z_str (-120) = "-120". Proof. reflexivity. Qed.
Example parse_int_us : parse_int " -1_000 " = Some (-1000). Proof. reflexivity. Qed.
Example parse_int_bad : parse_int "1__0" = None. Proof. reflexivity. Qed.
Example repr_tenth : option_map float_repr (parse_float "0.1") = Some "0.1".
Proof. vm_compute. reflexivity. Qed.
Example repr_pow2 : option_map float_repr (parse_float "5.6843418860808015e-14")
  = Some "5.684341886080802e-14".
Proof. vm_compute. reflexivity. Qed.
Example repr_big : option_map float_repr (parse_float "1e16") = Some "1e+16".
Proof. vm_compute. reflexivity. Qed.
