(* ===== verification/PyVal.v ===== *)
(** * Python values

    The dynamically typed values the program passes around: filters, manifests, parsed
    JSON. [pyval] has one constructor per built-in class the code tests for, [PObj]
    being an object of any other class, known by its [repr]. Dictionaries keep insertion
    order. The operations below ([d.get], [int(x)], [str(x)], iteration, truth) follow
    the language, error classes included. *)

From Stdlib Require Import Ascii String ZArith Lia SpecFloat.
From stdpp Require Import base strings numbers sets list.
From S2P Require Import Prelude Numbers.

Local Open Scope Z_scope.

Inductive pyval :=
| PNone
| PBool (b : bool)
| PInt (z : Z)
| PFloat (f : spec_float)
| PStr (s : string)
| PList (l : list pyval)
| PTuple (l : list pyval)
| PDict (d : list (pyval * pyval))
| PObj (tag : string).

(** Induction that reaches the elements of lists, tuples and dictionaries. *)
Section pyval_ind.
Context (P : pyval → Prop).
Context (Hnone : P PNone) (Hbool : ∀ b, P (PBool b)) (Hint : ∀ z, P (PInt z)).
Context (Hfloat : ∀ f, P (PFloat f)) (Hstr : ∀ s, P (PStr s)).
Context (Hlist : ∀ l, Forall P l → P (PList l)) (Htuple : ∀ l, Forall P l → P (PTuple l)).
Context (Hdict : ∀ d, Forall (λ kv, P kv.1 ∧ P kv.2) d → P (PDict d)).
Context (Hobj : ∀ t, P (PObj t)).

Fixpoint pyval_deep_ind (v : pyval) : P v :=
  match v with
  | PNone => Hnone
  | PBool b => Hbool b
  | PInt z => Hint z
  | PFloat f => Hfloat f
  | PStr s => Hstr s
  | PList l => Hlist l ((fix go l : Forall P l :=
      match l with
      | [] => List.Forall_nil P
      | x :: l => List.Forall_cons P x l (pyval_deep_ind x) (go l)
      end) l)
  | PTuple l => Htuple l ((fix go l : Forall P l :=
      match l with
      | [] => List.Forall_nil P
      | x :: l => List.Forall_cons P x l (pyval_deep_ind x) (go l)
      end) l)
  | PDict d => Hdict d ((fix go d : Forall (λ kv, P kv.1 ∧ P kv.2) d :=
      match d with
      | [] => List.Forall_nil _
      | kv :: d => List.Forall_cons _ kv d
          (conj (pyval_deep_ind kv.1) (pyval_deep_ind kv.2)) (go d)
      end) d)
  | PObj t => Hobj t
  end.
End pyval_ind.

(** ** Classes, truth, [repr] and [str] *)

Definition type_name (v : pyval) : string :=
  match v with
  | PNone => "NoneType" | PBool _ => "bool" | PInt _ => "int" | PFloat _ => "float"
  | PStr _ => "str" | PList _ => "list" | PTuple _ => "tuple" | PDict _ => "dict"
  | PObj _ => "object"
  end.

(** [bool(v)]. *)
Definition truthy (v : pyval) : bool :=
  match v with
  | PNone => false
  | PBool b => b
  | PInt z => negb (z =? 0)
  | PFloat f => match f with S754_zero _ => false | _ => true end
  | PStr s => match s with EmptyString => false | _ => true end
  | PList l | PTuple l => match l with [] => false | _ => true end
  | PDict d => match d with [] => false | _ => true end
  | PObj _ => true
  end.

Definition hex_digit (n : N) : ascii := chr (if (n <? 10)%N then 48 + n else 87 + n).
Definition hex2 (n : N) : list ascii := [hex_digit (n / 16); hex_digit (n mod 16)].

Definition squote : ascii := "039"%char.

(** One character of [repr(str)] when the delimiter is [q]. *)
Definition repr_char (q c : ascii) : list ascii :=
  if bool_decide (c = q) || bool_decide (c = backslash) then [backslash; c]
  else if bool_decide (c = newline) then [backslash; "n"%char]
  else if (ord c =? 13)%N then [backslash; "r"%char]
  else if (ord c =? 9)%N then [backslash; "t"%char]
  else if in_range 32 126 c || (in_range 161 255 c && negb (ord c =? 173)%N) then [c]
  else backslash :: "x"%char :: hex2 (ord c).

(** [repr(s)] for a [str]: single quotes unless only they occur. *)
Definition str_repr (s : string) : string :=
  let q := if bool_decide (squote ∈ chars s) && negb (bool_decide (dquote ∈ chars s))
           then dquote else squote in
  of_chars (q :: concat (map (repr_char q) (chars s)) ++ [q]).

(** [repr(v)]. *)
Fixpoint py_repr (v : pyval) : string :=
  match v with
  | PNone => "None"
  | PBool b => if b then "True" else "False"
  | PInt z => Z_str z
  | PFloat f => float_repr f
  | PStr s => str_repr s
  | PList l => "[" +:+ str_join ", " (map py_repr l) +:+ "]"
  | PTuple l =>
      match l with
      | [x] => "(" +:+ py_repr x +:+ ",)"
      | _ => "(" +:+ str_join ", " (map py_repr l) +:+ ")"
      end
  | PDict d =>
      "{" +:+ str_join ", " (map (λ kv, py_repr kv.1 +:+ ": " +:+ py_repr kv.2) d) +:+ "}"
  | PObj t => t
  end.

(** [str(v)]. *)
Definition py_str (v : pyval) : string :=
  match v with PStr s => s | _ => py_repr v end.

(** ** Conversions *)

(** [int(f)]: truncation. *)
Definition float_trunc (f : spec_float) : result Z :=
  match f with
  | S754_zero _ => Ok 0
  | S754_nan => raise ValueError "cannot convert float NaN to integer"
  | S754_infinity _ => raise OverflowError "cannot convert float infinity to integer"
  | S754_finite s m e =>
      let a := if e >=? 0 then Z.pos m * 2 ^ e else Z.pos m / 2 ^ (- e) in
      Ok (if s then - a else a)
  end.

(** [int(v)]. *)
Definition py_int (v : pyval) : result Z :=
  match v with
  | PInt z => Ok z
  | PBool b => Ok (if b then 1 else 0)
  | PFloat f => float_trunc f
  | PStr s =>
      match parse_int s with
      | Some z => Ok z
      | None => raise ValueError ("invalid literal for int() with base 10: " +:+ str_repr s)
      end
  | _ => raise TypeError ("int() argument must be a string, a bytes-like object or a real number, not '"
                            +:+ type_name v +:+ "'")
  end.

(** [float(v)]. *)
Definition py_float (v : pyval) : result spec_float :=
  match v with
  | PInt z =>
      match float_of_Z z with
      | S754_infinity _ => raise OverflowError "int too large to convert to float"
      | f => Ok f
      end
  | PBool b => Ok (float_of_Z (if b then 1 else 0))
  | PFloat f => Ok f
  | PStr s =>
      match parse_float s with
      | Some f => Ok f
      | None => raise ValueError ("could not convert string to float: " +:+ str_repr s)
      end
  | _ => raise TypeError ("float() argument must be a string or a real number, not '"
                            +:+ type_name v +:+ "'")
  end.

(** ** Dictionaries *)

Notation pydict := (list (pyval * pyval)).

Definition key_is (k : string) (kv : pyval * pyval) : bool :=
  match kv.1 with PStr s => bool_decide (s = k) | _ => false end.

(** [d.get(k)] at a string key. *)
Definition dict_get (k : string) (d : pydict) : option pyval := snd <$> List.find (key_is k) d.

(** [d[k] = v]: in place when [k] is there, else at the end. *)
Fixpoint dict_set (k : string) (v : pyval) (d : pydict) : pydict :=
  match d with
  | [] => [(PStr k, v)]
  | kv :: d => if key_is k kv then (kv.1, v) :: d else kv :: dict_set k v d
  end.

(** [d.pop(k, None)]. *)
Definition dict_del (k : string) (d : pydict) : pydict := List.filter (λ kv, negb (key_is k kv)) d.

(** [d.update(e)]; the dictionaries the code updates come from JSON and have string
    keys, any other key is taken to be a new one. *)
Definition dict_update (d e : pydict) : pydict :=
  fold_left (λ d kv, match kv.1 with PStr k => dict_set k kv.2 d | _ => d ++ [kv] end) e d.

(** A dictionary display with string keys. *)
Definition dict_of (l : list (string * pyval)) : pyval :=
  PDict (map (λ kv, (PStr kv.1, kv.2)) l).

Definition no_attr {A} (v : pyval) (name : string) : result A :=
  raise AttributeError ("'" +:+ type_name v +:+ "' object has no attribute '" +:+ name +:+ "'").

(** [v.get(k, default)]. *)
Definition py_get (v : pyval) (k : string) (default : pyval) : result pyval :=
  match v with
  | PDict d => Ok (match dict_get k d with Some x => x | None => default end)
  | _ => no_attr v "get"
  end.

(** [v[k]]. *)
Definition py_index (v : pyval) (k : string) : result pyval :=
  match v with
  | PDict d => match dict_get k d with Some x => Ok x | None => raise KeyError (str_repr k) end
  | PList _ | PTuple _ | PStr _ =>
      raise TypeError (type_name v +:+ " indices must be integers or slices, not str")
  | _ => raise TypeError ("'" +:+ type_name v +:+ "' object is not subscriptable")
  end.

(** The elements a [for] loop over [v] visits. *)
Definition py_iter (v : pyval) : result (list pyval) :=
  match v with
  | PList l | PTuple l => Ok l
  | PDict d => Ok (map fst d)
  | PStr s => Ok (map (λ c, PStr (String c "")) (chars s))
  | _ => raise TypeError ("'" +:+ type_name v +:+ "' object is not iterable")
  end.

(** [len(v)]. *)
Definition py_len (v : pyval) : result Z :=
  match v with
  | PList l | PTuple l => Ok (Z.of_nat (length l))
  | PDict d => Ok (Z.of_nat (length d))
  | PStr s => Ok (Z.of_nat (slen s))
  | _ => raise TypeError ("object of type '" +:+ type_name v +:+ "' has no len()")
  end.

(** [v.items()]. *)
Definition py_items (v : pyval) : result pydict :=
  match v with PDict d => Ok d | _ => no_attr v "items" end.

Definition py_hashable (v : pyval) : bool :=
  match v with PList _ | PDict _ => false | _ => true end.

(** [dict(v)]: a copy of a mapping, or a mapping from a sequence of string-keyed pairs. *)
Definition py_dict (v : pyval) : result pydict :=
  match v with
  | PDict d => Ok d
  | _ =>
      l ← py_iter v;
      foldR (λ d x,
        pr ← match py_iter x with
             | Ok pr => Ok pr
             | Err _ => raise TypeError "cannot convert dictionary update sequence element to a sequence"
             end;
        match pr with
        | [PStr k; y] => Ok (dict_set k y d)
        | [k; y] => if py_hashable k then Ok (d ++ [(k, y)]) else raise TypeError "unhashable type"
        | _ => raise ValueError "dictionary update sequence element has the wrong length; 2 is required"
        end) [] l
  end.

(** [s[a:b]] on a string or bytes, negative bounds counting from the end. *)
Definition slice_bound (n i : Z) : nat := Z.to_nat (if i <? 0 then Z.max 0 (i + n) else Z.min i n).
Definition py_slice (s : string) (a b : Z) : string :=
  let n := Z.of_nat (slen s) in
  let i := slice_bound n a in
  of_chars (take (slice_bound n b - i) (drop i (chars s))).

(** [v or w]. *)
Definition py_or (v w : pyval) : pyval := if truthy v then v else w.

(** ** Lemmas on dictionaries *)

Lemma key_is_true k kv : key_is k kv = true ↔ kv.1 = PStr k.
Proof.
  unfold key_is. destruct (kv.1); try (split; done). rewrite bool_decide_eq_true.
  split; [by intros -> | by intros [= ->]].
Qed.

Lemma dict_get_cons k k' v d :
  dict_get k ((PStr k', v) :: d) = if bool_decide (k' = k) then Some v else dict_get k d.
Proof. unfold dict_get. simpl. unfold key_is at 1. simpl. by destruct (bool_decide _). Qed.

Lemma dict_get_set_eq k v d : dict_get k (dict_set k v d) = Some v.
Proof.
  unfold dict_get. induction d as [|kv d IH]; simpl.
  - unfold key_is; simpl. by rewrite bool_decide_eq_true_2.
  - destruct (key_is k kv) eqn:E; simpl; rewrite ?E; [|done].
    unfold key_is in *. simpl. by rewrite E.
Qed.

Lemma dict_get_set_ne k k' v d : k ≠ k' → dict_get k (dict_set k' v d) = dict_get k d.
Proof.
  intros Hne. unfold dict_get. induction d as [|kv d IH]; simpl.
  - unfold key_is; simpl. by rewrite bool_decide_eq_false_2.
  - destruct (key_is k' kv) eqn:E; simpl.
    + apply key_is_true in E. unfold key_is. simpl. rewrite E.
      rewrite !bool_decide_eq_false_2 by done. done.
    + destruct (key_is k kv); [done|]. exact IH.
Qed.

Lemma dict_get_del_eq k d : dict_get k (dict_del k d) = None.
Proof.
  unfold dict_get, dict_del. induction d as [|kv d IH]; simpl; [done|].
  destruct (key_is k kv) eqn:E; simpl; [done|]. by rewrite E.
Qed.

Lemma dict_get_del_ne k k' d : k ≠ k' → dict_get k (dict_del k' d) = dict_get k d.
Proof.
  intros Hne. unfold dict_get, dict_del. induction d as [|kv d IH]; simpl; [done|].
  destruct (key_is k' kv) eqn:E; simpl.
  - apply key_is_true in E. destruct (key_is k kv) eqn:E'; [|done].
    apply key_is_true in E'. congruence.
  - by destruct (key_is k kv).
Qed.

(** A string-keyed dictionary with distinct keys. *)
Definition str_keys (d : pydict) (l : list (string * pyval)) : Prop :=
  d = map (λ kv, (PStr kv.1, kv.2)) l ∧ NoDup l.*1.

Lemma dict_get_str_keys k (l : list (string * pyval)) :
  dict_get k (map (λ kv, (PStr kv.1, kv.2)) l) = snd <$> List.find (λ kv, bool_decide (kv.1 = k)) l.
Proof.
  induction l as [|[k' v] l IH]; [done|]. simpl map. rewrite dict_get_cons. simpl.
  by destruct (bool_decide _).
Qed.

Lemma dict_set_fresh k v d : dict_get k d = None → dict_set k v d = d ++ [(PStr k, v)].
Proof.
  unfold dict_get. induction d as [|kv d IH]; simpl; [done|].
  destruct (key_is k kv); simpl; [done|]. intros ?. by rewrite IH.
Qed.

Lemma py_slice_mid s1 s2 s3 a b : a = Z.of_nat (slen s1) → b = a + Z.of_nat (slen s2) →
  py_slice (s1 +:+ s2 +:+ s3) a b = s2.
Proof.
  intros -> ->. unfold py_slice. set (n := Z.of_nat (slen (s1 +:+ s2 +:+ s3))).
  assert (n = Z.of_nat (slen s1) + Z.of_nat (slen s2) + Z.of_nat (slen s3)) as Hn
    by (unfold n; rewrite !slen_app; lia).
  assert (slice_bound n (Z.of_nat (slen s1)) = slen s1) as ->.
  { unfold slice_bound. destruct (Z.ltb_spec (Z.of_nat (slen s1)) 0); lia. }
  assert (slice_bound n (Z.of_nat (slen s1) + Z.of_nat (slen s2)) = (slen s1 + slen s2)%nat) as ->.
  { unfold slice_bound. destruct (Z.ltb_spec (Z.of_nat (slen s1) + Z.of_nat (slen s2)) 0); lia. }
  rewrite !chars_app, slen_chars, drop_app_length, slen_chars.
  replace (length (chars s1) + length (chars s2) - length (chars s1))%nat with (length (chars s2)) by lia.
  by rewrite take_app_length, of_chars_chars.
Qed.

(** ** Building a dictionary entry by entry

    [enc] lays out a list of [X]s as a string-keyed dictionary. *)

Section build.
Context {X : Type} (key : X → string) (val : X → pyval).

Definition enc_items (l : list X) : pydict := map (λ x, (PStr (key x), val x)) l.

Lemma dict_get_enc_None k l : k ∉ map key l → dict_get k (enc_items l) = None.
Proof.
  induction l as [|x l IH]; simpl; [done|]. rewrite dict_get_cons, not_elem_of_cons.
  intros [? ?]. rewrite bool_decide_eq_false_2 by done. auto.
Qed.

(** Storing an [X] keeps the layout, with distinct keys. *)
Lemma dict_set_enc x l : NoDup (map key l) → ∃ l',
  dict_set (key x) (val x) (enc_items l) = enc_items l' ∧ NoDup (map key l') ∧ l' ≠ [] ∧
  (∀ k, k ∈ map key l' ↔ k = key x ∨ k ∈ map key l) ∧ (∀ y, y ∈ l' → y = x ∨ y ∈ l).
Proof.
  induction l as [|y l IH]; intros Hnd; cbn [enc_items map dict_set] in *.
  - exists [x]. split_and!; [done|by repeat constructor; set_solver|done|set_solver..].
  - unfold key_is at 1; cbn [fst]. case_bool_decide as E.
    + exists (x :: l). split_and!.
      * cbn [enc_items map]. by rewrite E.
      * cbn [map]. by rewrite <-E.
      * done.
      * cbn [map]. rewrite E. set_solver.
      * set_solver.
    + apply NoDup_cons in Hnd as [Hy Hnd]. destruct (IH Hnd) as (l' & Hl & Hnd' & _ & Hk & Hin).
      exists (y :: l'). split_and!; try done.
      * cbn [enc_items map]. fold (enc_items l'). by rewrite <-Hl.
      * cbn [map]. constructor; [|done]. rewrite Hk. intros [?|?]; done.
      * cbn [map]. set_solver.
      * set_solver.
Qed.

(** A loop that stores the result of each step ends with every entry laid out. *)
Lemma foldR_build f (P : X → Prop) (d : pydict) l0 acc :
  (∀ acc kv acc', kv ∈ d → f acc kv = Ok acc' →
     ∃ x, P x ∧ acc' = dict_set (key x) (val x) acc) →
  NoDup (map key l0) → Forall P l0 → foldR f (enc_items l0) d = Ok acc →
  ∃ l, acc = enc_items l ∧ NoDup (map key l) ∧ Forall P l ∧ (d ≠ [] ∨ l0 ≠ [] → l ≠ []).
Proof.
  revert l0; induction d as [|kv d IH]; simpl; intros l0 Hf Hnd HP H; res_inv.
  - exists l0. split_and!; [done..|]. by intros [?|?].
  - destruct (Hf _ kv _ ltac:(left) H0) as (y & HPy & ->).
    destruct (dict_set_enc y l0 Hnd) as (l1 & Hl & Hnd1 & Hne & _ & Hin). rewrite Hl in H.
    destruct (IH l1) as (l & -> & ? & ? & Hl1); [|done| |done|].
    + intros acc0 kv' acc' ? ?. eapply Hf; [by right|done].
    + apply Forall_forall. intros z [->|Hz]%Hin; [done|]. rewrite Forall_forall in HP. auto.
    + exists l. split_and!; auto.
Qed.

(** A loop that stores every entry as it is rebuilds the dictionary. *)
Lemma foldR_build_id f l0 l :
  (∀ acc x, x ∈ l → f acc (PStr (key x), val x) = Ok (dict_set (key x) (val x) acc)) →
  NoDup (map key (l0 ++ l)) → foldR f (enc_items l0) (enc_items l) = Ok (enc_items (l0 ++ l)).
Proof.
  revert l0; induction l as [|x l IH]; simpl; intros l0 Hf Hnd; [by rewrite app_nil_r|].
  rewrite Hf by left. simpl. rewrite dict_set_fresh.
  2: { apply dict_get_enc_None. rewrite map_app in Hnd. simpl in Hnd.
       apply NoDup_app in Hnd as (_ & Hd & _). intros Hx. eapply Hd; [exact Hx|by left]. }
  replace (enc_items l0 ++ [(PStr (key x), val x)]) with (enc_items (l0 ++ [x]))
    by (unfold enc_items; by rewrite map_app).
  rewrite IH, <-(assoc_L (++)); [done| |by rewrite <-(assoc_L (++))].
  intros acc y ?. apply Hf. by right.
Qed.

End build.

#[export] Hint Rewrite dict_get_set_eq dict_get_del_eq : pydict.
