(* ===== verification/Bytes.v ===== *)
(** * Bytes: UTF-8, fixed-width integers and SHA-256

    The [bytes] operations of the standard library that the stores use: [str.encode],
    [bytes.decode], [struct.Struct("<Q")] and [hashlib.sha256(...).hexdigest()]. SHA-256 is
    written out (FIPS 180-4) so that digests evaluate. *)

From Stdlib Require Import Ascii String ZArith Lia.
From stdpp Require Import base strings numbers sets list.
From S2P Require Import Prelude Numbers PyVal.

Local Open Scope N_scope.

(** ** UTF-8 on code points below 256 *)

Definition utf8_char (c : ascii) : list ascii :=
  if ord c <? 128 then [c] else [chr (192 + ord c / 64); chr (128 + ord c mod 64)].

Definition utf8_encode (s : string) : bytes := of_chars (concat (map utf8_char (chars s))).

(** Two-byte sequences for code points 128 to 255 have the lead bytes C2 and C3; longer
    sequences are code points a [string] does not hold, and are not decoded here. *)
Fixpoint utf8_decode_chars (l : list ascii) : option (list ascii) :=
  match l with
  | [] => Some []
  | c :: l' =>
      if ord c <? 128 then (c ::.) <$> utf8_decode_chars l'
      else match l' with
           | d :: l'' =>
               if ((ord c =? 194) || (ord c =? 195)) && in_range 128 191 d
               then (chr ((ord c - 192) * 64 + (ord d - 128)) ::.) <$> utf8_decode_chars l''
               else None
           | [] => None
           end
  end.

Definition utf8_decode (b : bytes) : result string :=
  match utf8_decode_chars (chars b) with
  | Some l => Ok (of_chars l)
  | None => raise UnicodeDecodeError "'utf-8' codec can't decode byte"
  end.

(** ** [struct.Struct("<Q")] *)

Fixpoint le_bytes (n : nat) (z : N) : list ascii :=
  match n with O => [] | S n => chr (z mod 256) :: le_bytes n (z / 256) end.
Definition le_value (l : list ascii) : N := fold_right (λ c acc, ord c + 256 * acc) 0 l.

Definition pack_u64 (n : N) : bytes := of_chars (le_bytes 8 n).
(** [unpack_from(data, offset)[0]]; the eight bytes are there. *)
Definition unpack_u64 (data : bytes) (offset : nat) : N :=
  le_value (take 8 (drop offset (chars data))).

(** ** SHA-256 *)

Definition w32 (z : N) : N := z mod 4294967296.
Definition rotr (n x : N) : N := N.lor (N.shiftr x n) (w32 (N.shiftl x (32 - n))).
Definition Ch (x y z : N) : N := N.lxor (N.land x y) (N.land (N.lxor x 4294967295) z).
Definition Maj (x y z : N) : N := N.lxor (N.lxor (N.land x y) (N.land x z)) (N.land y z).
Definition Sig0 (x : N) : N := N.lxor (N.lxor (rotr 2 x) (rotr 13 x)) (rotr 22 x).
Definition Sig1 (x : N) : N := N.lxor (N.lxor (rotr 6 x) (rotr 11 x)) (rotr 25 x).
Definition sig0 (x : N) : N := N.lxor (N.lxor (rotr 7 x) (rotr 18 x)) (N.shiftr x 3).
Definition sig1 (x : N) : N := N.lxor (N.lxor (rotr 17 x) (rotr 19 x)) (N.shiftr x 10).

Definition K256 : list N :=
  [1116352408; 1899447441; 3049323471; 3921009573; 961987163; 1508970993; 2453635748; 2870763221;
   3624381080; 310598401; 607225278; 1426881987; 1925078388; 2162078206; 2614888103; 3248222580;
   3835390401; 4022224774; 264347078; 604807628; 770255983; 1249150122; 1555081692; 1996064986;
   2554220882; 2821834349; 2952996808; 3210313671; 3336571891; 3584528711; 113926993; 338241895;
   666307205; 773529912; 1294757372; 1396182291; 1695183700; 1986661051; 2177026350; 2456956037;
   2730485921; 2820302411; 3259730800; 3345764771; 3516065817; 3600352804; 4094571909; 275423344;
   430227734; 506948616; 659060556; 883997877; 958139571; 1322822218; 1537002063; 1747873779;
   1955562222; 2024104815; 2227730452; 2361852424; 2428436474; 2756734187; 3204031479; 3329325298].

Record hstate := HState { h_a : N; h_b : N; h_c : N; h_d : N; h_e : N; h_f : N; h_g : N; h_h : N }.

Definition H256 : hstate :=
  HState 1779033703 3144134277 1013904242 2773480762 1359893119 2600822924 528734635 1541459225.

(** The message schedule, latest word first. *)
Fixpoint schedule (n : nat) (ws : list N) : list N :=
  match n with
  | O => ws
  | S n => schedule n
      (w32 (sig1 (nth 1 ws 0) + nth 6 ws 0 + sig0 (nth 14 ws 0) + nth 15 ws 0) :: ws)
  end.

Definition round (s : hstate) (kw : N * N) : hstate :=
  let t1 := h_h s + Sig1 (h_e s) + Ch (h_e s) (h_f s) (h_g s) + kw.1 + kw.2 in
  let t2 := Sig0 (h_a s) + Maj (h_a s) (h_b s) (h_c s) in
  HState (w32 (t1 + t2)) (h_a s) (h_b s) (h_c s) (w32 (h_d s + t1)) (h_e s) (h_f s) (h_g s).

Definition be_word (l : list ascii) : N := fold_left (λ acc c, 256 * acc + ord c) l 0.

(** [l] cut in pieces of [k]. *)
Fixpoint pieces (n k : nat) (l : list ascii) : list (list ascii) :=
  match n with O => [] | S n => take k l :: pieces n k (drop k l) end.

Definition compress (s : hstate) (block : list ascii) : hstate :=
  let ws := reverse (schedule 48 (reverse (map be_word (pieces 16 4 block)))) in
  let r := fold_left round (combine K256 ws) s in
  HState (w32 (h_a s + h_a r)) (w32 (h_b s + h_b r)) (w32 (h_c s + h_c r)) (w32 (h_d s + h_d r))
         (w32 (h_e s + h_e r)) (w32 (h_f s + h_f r)) (w32 (h_g s + h_g r)) (w32 (h_h s + h_h r)).

Definition sha_pad (l : list ascii) : list ascii :=
  let n := length l in
  let z := ((119 - n mod 64) mod 64)%nat in
  l ++ [chr 128] ++ replicate z (chr 0) ++ reverse (le_bytes 8 (8 * N.of_nat n)).

Definition hex_word (x : N) : list ascii :=
  concat (map (λ c, hex2 (ord c)) (reverse (le_bytes 4 x))).

Definition sha256_state (l : list ascii) : hstate :=
  let p := sha_pad l in fold_left compress (pieces (length p / 64) 64 p) H256.

(** [hashlib.sha256(data).hexdigest()]. *)
Definition sha256_hex (data : bytes) : string :=
  let s := sha256_state (chars data) in
  of_chars (concat (map hex_word [h_a s; h_b s; h_c s; h_d s; h_e s; h_f s; h_g s; h_h s])).

Example sha256_abc : sha256_hex "abc" =
  "ba7816bf8f01cfea414140de5dae2223b00361a396177a9cb410ff61f20015ad".
Proof. vm_compute. reflexivity. Qed.
Example sha256_empty : sha256_hex "" =
  "e3b0c44298fc1c149afbf4c8996fb92427ae41e4649b934ca495991b7852b855".
Proof. vm_compute. reflexivity. Qed.
Example sha256_two_blocks :
  sha256_hex "abcdbcdecdefdefgefghfghighijhijkijkljklmklmnlmnomnopnopq" =
  "248d6a61d20638b8e5c026930c3e6039a33ce45964ff2167f6ecedd419db06c1".
Proof. vm_compute. reflexivity. Qed.

(** ** Lemmas *)

Definition is_ascii (c : ascii) : bool := ord c <? 128.
Definition is_hex (c : ascii) : bool := in_range 48 57 c || in_range 97 102 c.

Lemma utf8_encode_ascii s : forallb is_ascii (chars s) = true → utf8_encode s = s.
Proof.
  intros H. unfold utf8_encode. rewrite <-(of_chars_chars s) at 2. f_equal.
  induction (chars s) as [|c l IH]; simpl; [done|]. simpl in H. apply andb_prop in H as [Hc H].
  assert (utf8_char c = [c]) as -> by (unfold utf8_char; by rewrite (Hc : (ord c <? 128) = true)).
  simpl. by rewrite IH.
Qed.

Lemma utf8_decode_encode s : utf8_decode (utf8_encode s) = Ok s.
Proof.
  unfold utf8_decode, utf8_encode. rewrite chars_of_chars.
  enough (utf8_decode_chars (concat (map utf8_char (chars s))) = Some (chars s)) as ->
    by (by rewrite of_chars_chars).
  induction (chars s) as [|c l IH]; [done|]. cbn [map concat]. pose proof (ord_bound c) as Hc.
  unfold utf8_char at 1. destruct (ord c <? 128) eqn:E.
  - cbn [app utf8_decode_chars]. by rewrite E, IH.
  - apply N.ltb_ge in E. cbn [app utf8_decode_chars].
    assert (ord c / 64 = 2 ∨ ord c / 64 = 3) as Hq.
    { assert (2 <= ord c / 64) by (apply N.div_le_lower_bound; lia).
      assert (ord c / 64 < 4) by (apply N.div_lt_upper_bound; lia). lia. }
    pose proof (N.mod_lt (ord c) 64 ltac:(done)) as Hm. pose proof (N.div_mod' (ord c) 64) as Hd.
    rewrite ord_chr by lia. replace (192 + ord c / 64 <? 128) with false by (symmetry; apply N.ltb_ge; lia).
    unfold in_range. rewrite (ord_chr (128 + _)) by lia.
    replace ((192 + ord c / 64 =? 194) || (192 + ord c / 64 =? 195)) with true
      by (symmetry; apply orb_true_iff; rewrite !N.eqb_eq; lia).
    assert ((128 <=? 128 + ord c mod 64) && (128 + ord c mod 64 <=? 191) = true) as ->.
    { apply andb_true_iff. rewrite !N.leb_le. clear -Hm. revert Hm. generalize (ord c mod 64).
      intros r Hr. lia. }
    cbn [andb]. rewrite IH. cbn [fmap option_fmap option_map]. do 2 f_equal. rewrite <-(chr_ord c) at 3.
    f_equal. rewrite Hd at 3. clear. generalize (ord c / 64) (ord c mod 64). intros q r. lia.
Qed.

Lemma utf8_decode_ascii s : forallb is_ascii (chars s) = true → utf8_decode s = Ok s.
Proof. intros H. by rewrite <-(utf8_encode_ascii s H) at 1; rewrite utf8_decode_encode. Qed.

Lemma length_le_bytes n z : length (le_bytes n z) = n.
Proof. revert z; induction n; intros z; simpl; auto. Qed.

Lemma le_value_bytes n z : z < 256 ^ N.of_nat n → le_value (le_bytes n z) = z.
Proof.
  revert z; induction n as [|n IH]; intros z Hz.
  - simpl in *. lia.
  - rewrite Nat2N.inj_succ, N.pow_succ_r' in Hz. cbn [le_bytes].
    unfold le_value in *. cbn [fold_right]. rewrite IH.
    + rewrite ord_chr by (apply N.mod_lt; done). pose proof (N.div_mod' z 256). lia.
    + apply N.div_lt_upper_bound; [done|]. lia.
Qed.

Lemma slen_pack_u64 n : slen (pack_u64 n) = 8%nat.
Proof. unfold pack_u64. by rewrite slen_chars, chars_of_chars. Qed.

(** [unpack(pack(n)) == n] in any context. *)
Lemma unpack_pack_u64 n a b : n < 2 ^ 64 → unpack_u64 (a +:+ pack_u64 n +:+ b) (slen a) = n.
Proof.
  intros Hn. unfold unpack_u64, pack_u64. rewrite !chars_app, chars_of_chars, slen_chars.
  rewrite drop_app_length, take_app_length' by (by rewrite length_le_bytes). by apply le_value_bytes.
Qed.

Lemma hex2_hex n : n < 256 → forallb is_hex (hex2 n) = true.
Proof.
  intros Hn. assert (n / 16 < 16) by (apply N.div_lt_upper_bound; lia).
  pose proof (N.mod_lt n 16 ltac:(done)).
  assert (∀ k, k < 16 → is_hex (hex_digit k) = true) as Hk.
  { intros k Hk. unfold hex_digit, is_hex, in_range.
    destruct (k <? 10) eqn:E; [apply N.ltb_lt in E|apply N.ltb_ge in E]; rewrite ord_chr by lia;
    rewrite orb_true_iff, !andb_true_iff, !N.leb_le; lia. }
  unfold hex2. cbn [forallb]. by rewrite !Hk.
Qed.

Lemma hex_word_spec x : forallb is_hex (hex_word x) = true ∧ length (hex_word x) = 8%nat.
Proof.
  split; [|done]. unfold hex_word. generalize (reverse (le_bytes 4 x)) as l.
  induction l as [|c l IH]; [done|]. cbn [map concat]. rewrite forallb_app, hex2_hex, IH; [done|].
  apply ord_bound.
Qed.

(** A digest is 64 lowercase hexadecimal characters. *)
Lemma sha256_hex_spec data :
  forallb is_hex (chars (sha256_hex data)) = true ∧ slen (sha256_hex data) = 64%nat.
Proof.
  unfold sha256_hex. rewrite slen_chars, !chars_of_chars. cbn [map concat].
  rewrite !forallb_app, !length_app. split.
  - by rewrite !(proj1 (hex_word_spec _)).
  - by rewrite !(proj2 (hex_word_spec _)).
Qed.
