(* ===== verification/Json.v ===== *)
(** * [json.dumps(..., sort_keys=True)] and [json.loads]

    The writer and the reader of the manifests, segments and state snapshots. The writer
    is parameterised by the layout ([indent=None] or [indent=2]); the reader follows the
    decoder of the standard library: whitespace, escapes, number tokens, the non-finite
    constants, later duplicates winning. Decoder messages carry no position here. An escape
    of a code point above 255 is outside the model's strings and is rejected. *)

From Stdlib Require Import Ascii String ZArith Lia SpecFloat.
From Stdlib Require Import Decimal DecimalString DecimalZ DecimalFacts.
From stdpp Require Import base strings numbers sets list.
From S2P Require Import Prelude Numbers PyVal Bytes.

Local Open Scope Z_scope.

(** ** Writing *)

(** [nl lvl] separates the elements of a container at depth [lvl]; [item lvl] follows a comma,
    [colon] a colon. *)
Record layout := Layout
  { lay_nl : nat → list ascii; lay_item : nat → list ascii; lay_colon : list ascii; lay_leb : string → string → bool }.

Definition compact : layout := Layout (λ _, []) (λ _, [" "%char]) [" "%char] str_leb.
(** Without [sort_keys]: insertion order. *)
Definition unsorted : layout := Layout (λ _, []) (λ _, [" "%char]) [" "%char] (λ _ _, true).
Definition indented (k : nat) : layout :=
  let nl lvl := newline :: replicate (k * lvl) " "%char in Layout nl nl [" "%char] str_leb.
(** [separators] without blanks and [sort_keys]. *)
Definition tight : layout := Layout (λ _, []) (λ _, []) [] str_leb.

(** One character of a string, with [ensure_ascii=True]. *)
Definition json_char (c : ascii) : list ascii :=
  if bool_decide (c = dquote) then [backslash; dquote]
  else if bool_decide (c = backslash) then [backslash; backslash]
  else if (ord c =? 10)%N then [backslash; "n"%char]
  else if (ord c =? 13)%N then [backslash; "r"%char]
  else if (ord c =? 9)%N then [backslash; "t"%char]
  else if (ord c =? 8)%N then [backslash; "b"%char]
  else if (ord c =? 12)%N then [backslash; "f"%char]
  else if in_range 32 126 c then [c]
  else backslash :: "u"%char :: "0"%char :: "0"%char :: hex2 (ord c).

Definition json_str (s : string) : list ascii :=
  dquote :: concat (map json_char (chars s)) ++ [dquote].

Definition json_float (f : spec_float) : string :=
  match f with
  | S754_nan => "NaN"
  | S754_infinity s => if s then "-Infinity" else "Infinity"
  | _ => float_repr f
  end.

Fixpoint join_chars (sep : list ascii) (l : list (list ascii)) : list ascii :=
  match l with
  | [] => []
  | [x] => x
  | x :: l => x ++ sep ++ join_chars sep l
  end.

Definition keys_leb {A} (leb : string → string → bool) (p q : string * A) : bool := leb p.1 q.1.

Definition key_text (k : pyval) : string := match k with PStr s => s | _ => "" end.

(** The text of a serializable value at depth [lvl]. *)
Fixpoint json_text (lay : layout) (lvl : nat) (v : pyval) : list ascii :=
  match v with
  | PNone => chars "null"
  | PBool b => if b then chars "true" else chars "false"
  | PInt z => chars (Z_str z)
  | PFloat f => chars (json_float f)
  | PStr s => json_str s
  | PList l | PTuple l =>
      match l with
      | [] => chars "[]"
      | _ => "["%char :: lay_nl lay (S lvl)
               ++ join_chars (","%char :: lay_item lay (S lvl)) (map (json_text lay (S lvl)) l)
               ++ lay_nl lay lvl ++ ["]"%char]
      end
  | PDict d =>
      match d with
      | [] => chars "{}"
      | _ => "{"%char :: lay_nl lay (S lvl)
               ++ join_chars (","%char :: lay_item lay (S lvl))
                    (map (λ kt, json_str kt.1 ++ ":"%char :: lay_colon lay ++ kt.2)
                       (sort_by (keys_leb (lay_leb lay)) (map (λ kv, (key_text kv.1, json_text lay (S lvl) kv.2)) d)))
               ++ lay_nl lay lvl ++ ["}"%char]
      end
  | PObj _ => []
  end.

(** Every part has a JSON class; keys are strings, as in every dictionary the program writes. *)
Fixpoint serializable (v : pyval) : bool :=
  match v with
  | PList l | PTuple l => forallb serializable l
  | PDict d => forallb (λ kv, match kv.1 with PStr _ => serializable kv.2 | _ => false end) d
  | PObj _ => false
  | _ => true
  end.

Definition dumps (lay : layout) (v : pyval) : result string :=
  if serializable v then Ok (of_chars (json_text lay 0 v))
  else raise TypeError "Object is not JSON serializable".

(** ** Reading *)

Definition json_ws (c : ascii) : bool :=
  (ord c =? 32)%N || (ord c =? 9)%N || (ord c =? 10)%N || (ord c =? 13)%N.
Definition skip_ws : list ascii → list ascii := drop_while json_ws.

Definition hex_val (c : ascii) : option N :=
  (if in_range 48 57 c then Some (ord c - 48)
   else if in_range 97 102 c then Some (ord c - 87)
   else if in_range 65 70 c then Some (ord c - 55) else None)%N.

Definition unescape (c : ascii) : option ascii :=
  if bool_decide (c = dquote) then Some dquote
  else if bool_decide (c = backslash) then Some backslash
  else if bool_decide (c = "/"%char) then Some "/"%char
  else if bool_decide (c = "n"%char) then Some (chr 10)
  else if bool_decide (c = "r"%char) then Some (chr 13)
  else if bool_decide (c = "t"%char) then Some (chr 9)
  else if bool_decide (c = "b"%char) then Some (chr 8)
  else if bool_decide (c = "f"%char) then Some (chr 12) else None.

Definition consc (c : ascii) (r : option (list ascii * list ascii)) :=
  match r with Some (s, l) => Some (c :: s, l) | None => None end.

(** The rest of a string after its opening quote. *)
Fixpoint scan_string (l : list ascii) : option (list ascii * list ascii) :=
  match l with
  | [] => None
  | c :: l1 =>
      if bool_decide (c = dquote) then Some ([], l1)
      else if bool_decide (c = backslash) then
        match l1 with
        | [] => None
        | e :: l2 =>
            if bool_decide (e = "u"%char) then
              match l2 with
              | a :: b :: c :: d :: l3 =>
                  match hex_val a, hex_val b, hex_val c, hex_val d with
                  | Some 0%N, Some 0%N, Some h1, Some h2 => consc (chr (16 * h1 + h2)) (scan_string l3)
                  | _, _, _, _ => None
                  end
              | _ => None
              end
            else match unescape e with Some c => consc c (scan_string l2) | None => None end
        end
      else if (ord c <? 32)%N then None
      else consc c (scan_string l1)
  end.

(** The number token: an optional minus, [0] or digits not starting with it, an optional
    fraction, an optional exponent. *)
Definition scan_int (l : list ascii) : option (list ascii * list ascii) :=
  match l with
  | [] => None
  | c :: r => if bool_decide (c = "0"%char) then Some ([c], r)
              else if is_digit c then Some (take_while is_digit l, drop_while is_digit l) else None
  end.

(** A run of digits, when there is one. *)
Definition scan_digits (l : list ascii) : option (list ascii * list ascii) :=
  match take_while is_digit l with [] => None | ds => Some (ds, drop_while is_digit l) end.

Definition scan_frac (l : list ascii) : list ascii * list ascii :=
  match l with
  | "."%char :: r => match scan_digits r with Some (ds, r') => ("."%char :: ds, r') | None => ([], l) end
  | _ => ([], l)
  end.

Definition scan_exp (l : list ascii) : list ascii * list ascii :=
  match l with
  | c :: r =>
      if bool_decide (c = "e"%char ∨ c = "E"%char) then
        let '(sgn, r1) := match r with
                          | "-"%char :: r1 => (["-"%char], r1)
                          | "+"%char :: r1 => (["+"%char], r1)
                          | _ => ([], r)
                          end in
        match scan_digits r1 with Some (ds, r2) => (c :: sgn ++ ds, r2) | None => ([], l) end
      else ([], l)
  | [] => ([], l)
  end.

Definition scan_number (l : list ascii) : option (pyval * list ascii) :=
  let '(neg, l0) := match l with "-"%char :: r => (true, r) | _ => (false, l) end in
  match scan_int l0 with
  | None => None
  | Some (ip, l1) =>
      let '(fp, l2) := scan_frac l1 in
      let '(ep, l3) := scan_exp l2 in
      match fp ++ ep with
      | [] => Some (PInt (if neg then - digits_val ip else digits_val ip), l3)
      | _ => match parse_float (of_chars ((if neg then ["-"%char] else []) ++ ip ++ fp ++ ep)) with
             | Some f => Some (PFloat f, l3)
             | None => None
             end
      end
  end.

(** [l] without the literal [p] at its front. *)
Fixpoint strip_prefix (p l : list ascii) : option (list ascii) :=
  match p, l with
  | [], _ => Some l
  | c :: p, d :: l => if bool_decide (c = d) then strip_prefix p l else None
  | _ :: _, [] => None
  end.

Definition literals : list (string * pyval) :=
  [("null", PNone); ("true", PBool true); ("false", PBool false); ("NaN", PFloat S754_nan);
   ("Infinity", PFloat (S754_infinity false)); ("-Infinity", PFloat (S754_infinity true))].

Fixpoint scan_literal (ls : list (string * pyval)) (l : list ascii) : option (pyval * list ascii) :=
  match ls with
  | [] => None
  | (s, v) :: ls => match strip_prefix (chars s) l with Some r => Some (v, r) | None => scan_literal ls l end
  end.

Definition scan_scalar (l : list ascii) : option (pyval * list ascii) :=
  match scan_literal literals l with Some r => Some r | None => scan_number l end.

Definition pairs_dict (l : list (string * pyval)) : pydict :=
  fold_left (λ d kv, dict_set kv.1 kv.2 d) l [].

(** [n] bounds the characters still to be read; [loads] starts it above the text's length. *)
Fixpoint parse_value (n : nat) (l : list ascii) : option (pyval * list ascii) :=
  match n with
  | O => None
  | S n =>
      match l with
      | [] => None
      | c :: r =>
          if bool_decide (c = dquote) then
            match scan_string r with Some (s, r') => Some (PStr (of_chars s), r') | None => None end
          else if bool_decide (c = "["%char) then
            match skip_ws r with
            | "]"%char :: r' => Some (PList [], r')
            | r' => match parse_elems n r' with Some (vs, r'') => Some (PList vs, r'') | None => None end
            end
          else if bool_decide (c = "{"%char) then
            match skip_ws r with
            | "}"%char :: r' => Some (PDict [], r')
            | r' => match parse_members n r' with
                    | Some (kvs, r'') => Some (PDict (pairs_dict kvs), r'')
                    | None => None
                    end
            end
          else scan_scalar l
      end
  end
with parse_elems (n : nat) (l : list ascii) : option (list pyval * list ascii) :=
  match n with
  | O => None
  | S n =>
      match parse_value n l with
      | None => None
      | Some (v, r) =>
          match skip_ws r with
          | "]"%char :: r' => Some ([v], r')
          | ","%char :: r' =>
              match parse_elems n (skip_ws r') with Some (vs, r'') => Some (v :: vs, r'') | None => None end
          | _ => None
          end
      end
  end
with parse_members (n : nat) (l : list ascii) : option (list (string * pyval) * list ascii) :=
  match n with
  | O => None
  | S n =>
      match l with
      | [] => None
      | c :: r0 =>
          if bool_decide (c = dquote) then
            match scan_string r0 with
            | None => None
            | Some (k, r) =>
                match skip_ws r with
                | ":"%char :: r1 =>
                    match parse_value n (skip_ws r1) with
                    | None => None
                    | Some (v, r2) =>
                        match skip_ws r2 with
                        | "}"%char :: r' => Some ([(of_chars k, v)], r')
                        | ","%char :: r' =>
                            match parse_members n (skip_ws r') with
                            | Some (kvs, r'') => Some ((of_chars k, v) :: kvs, r'')
                            | None => None
                            end
                        | _ => None
                        end
                    end
                | _ => None
                end
            end
          else None
      end
  end.

Definition loads (s : string) : result pyval :=
  match parse_value (S (slen s)) (skip_ws (chars s)) with
  | Some (v, r) => match skip_ws r with [] => Ok v | _ => raise JSONDecodeError "Extra data" end
  | None => raise JSONDecodeError "Expecting value"
  end.

(** ** What reading back a written value gives *)

(** Tuples become lists, dictionaries come out in key order. *)
Fixpoint canon (v : pyval) : pyval :=
  match v with
  | PList l | PTuple l => PList (map canon l)
  | PDict d => PDict (map (λ kv, (PStr kv.1, kv.2))
                        (sort_by key_leb (map (λ kv, (key_text kv.1, canon kv.2)) d)))
  | _ => v
  end.

(** The same with the keys put in order by [leb]. *)
Section canon_with.
Context (leb : string → string → bool).
Fixpoint canon_with (v : pyval) : pyval :=
  match v with
  | PList l | PTuple l => PList (map canon_with l)
  | PDict d => PDict (map (λ kv, (PStr kv.1, kv.2))
                        (sort_by (keys_leb leb) (map (λ kv, (key_text kv.1, canon_with kv.2)) d)))
  | _ => v
  end.
End canon_with.

(** The float's text reads back as the float: decided by evaluation. *)
Definition float_json_ok (f : spec_float) : bool :=
  match scan_scalar (chars (json_float f)) with
  | Some (PFloat g, []) => bool_decide (f = g)
  | _ => false
  end.

(** Serializable, with distinct keys and floats that read back. *)
Fixpoint json_ok (v : pyval) : bool :=
  match v with
  | PList l | PTuple l => forallb json_ok l
  | PDict d =>
      forallb (λ kv, match kv.1 with PStr _ => json_ok kv.2 | _ => false end) d
      && bool_decide (NoDup (map (λ kv, key_text kv.1) d))
  | PObj _ => false
  | PFloat f => float_json_ok f
  | _ => true
  end.

Definition sample : pyval :=
  dict_of [("b", PList [PInt (-12); PBool true; PNone; PStr (of_chars [dquote; chr 233; newline])]);
           ("a", dict_of [("x", PTuple []); ("z", PDict [])]); ("f", PFloat (float_of_Z 3))].
Example sample_ok : json_ok sample = true. Proof. vm_compute. reflexivity. Qed.
Example sample_roundtrip :
  (s ← dumps compact sample; loads s) = Ok (canon sample) ∧
  (s ← dumps (indented 2) sample; loads s) = Ok (canon sample).
Proof. vm_compute. split; reflexivity. Qed.

(** ** Lemmas on tokens *)

Lemma scan_string_char c l : scan_string (json_char c ++ l) = consc c (scan_string l).
Proof. destruct c as [[] [] [] [] [] [] [] []]; reflexivity. Qed.

Lemma scan_string_text s l :
  scan_string (concat (map json_char s) ++ dquote :: l) = Some (s, l).
Proof.
  induction s as [|c s IH]; [done|]. cbn [map concat]. rewrite <-(assoc_L (++)), scan_string_char, IH.
  done.
Qed.

(** What may follow a value: the end, whitespace, or the punctuation of a container. *)
Definition delim (l : list ascii) : Prop :=
  match l with [] => True | c :: _ => json_ws c = true ∨ c = ","%char ∨ c = "]"%char ∨ c = "}"%char end.

Definition number_char (c : ascii) : bool :=
  is_digit c || bool_decide (c = "."%char ∨ c = "e"%char ∨ c = "E"%char ∨ c = "-"%char ∨ c = "+"%char).

Lemma delim_not_number c l : delim (c :: l) → number_char c = false.
Proof.
  simpl. intros [H|[->|[->| ->]]]; [|done..]. revert H.
  by destruct c as [[] [] [] [] [] [] [] []].
Qed.

Lemma delim_digit l c l' : delim l → l = c :: l' → is_digit c = false.
Proof. intros H ->. apply delim_not_number, orb_false_elim in H as [H _]. done. Qed.

Lemma scan_digits_app l r : delim r →
  scan_digits (l ++ r) = match scan_digits l with Some (ds, l') => Some (ds, l' ++ r) | None => None end.
Proof.
  intros Hr. unfold scan_digits.
  rewrite take_while_stop, drop_while_stop by (intros; by eapply delim_digit).
  by destruct (take_while is_digit l).
Qed.

Lemma scan_frac_app l r : delim r → scan_frac (l ++ r) = ((scan_frac l).1, (scan_frac l).2 ++ r).
Proof.
  intros Hr. destruct l as [|c l].
  - destruct r as [|c r]; [done|]. apply delim_not_number in Hr. simpl.
    by destruct c as [[] [] [] [] [] [] [] []].
  - destruct (decide (c = "."%char)) as [->|Hc].
    + cbn [scan_frac app]. rewrite scan_digits_app by done. by destruct (scan_digits l) as [[]|].
    + assert (∀ l, scan_frac (c :: l) = ([], c :: l)) as Hf.
      { intros l'. unfold scan_frac. by destruct c as [[] [] [] [] [] [] [] []]. }
      change ((c :: l) ++ r) with (c :: (l ++ r)). by rewrite !Hf.
Qed.

Definition exp_sign (r : list ascii) : list ascii * list ascii :=
  match r with
  | "-"%char :: r1 => (["-"%char], r1)
  | "+"%char :: r1 => (["+"%char], r1)
  | _ => ([], r)
  end.

Lemma exp_sign_app l r : delim r → exp_sign (l ++ r) = ((exp_sign l).1, (exp_sign l).2 ++ r).
Proof.
  intros Hr. destruct l as [|c l].
  - destruct r as [|c r]; [done|]. apply delim_not_number in Hr. simpl.
    by destruct c as [[] [] [] [] [] [] [] []].
  - by destruct c as [[] [] [] [] [] [] [] []].
Qed.

Lemma scan_exp_app l r : delim r → scan_exp (l ++ r) = ((scan_exp l).1, (scan_exp l).2 ++ r).
Proof.
  intros Hr. destruct l as [|c l].
  - destruct r as [|c r]; [done|]. apply delim_not_number, orb_false_elim in Hr as [_ Hr].
    apply bool_decide_eq_false_1 in Hr. simpl.
    rewrite bool_decide_eq_false_2; [done|]. naive_solver.
  - unfold scan_exp. cbn [app]. case_bool_decide; [|done].
    fold (exp_sign l) (exp_sign (l ++ r)). rewrite exp_sign_app by done.
    destruct (exp_sign l) as [sgn l1]. cbn [fst snd]. rewrite scan_digits_app by done.
    by destruct (scan_digits l1) as [[]|].
Qed.

Lemma scan_int_app l r x : delim r → scan_int l = Some x → scan_int (l ++ r) = Some (x.1, x.2 ++ r).
Proof.
  intros Hr. destruct l as [|c l]; [done|]. cbn [scan_int app]. case_bool_decide; [by intros [= <-]|].
  destruct (is_digit c) eqn:E; [|done]. intros [= <-]. change (c :: l ++ r) with ((c :: l) ++ r).
  rewrite take_while_stop, drop_while_stop by (intros; by eapply delim_digit). done.
Qed.

Definition number_sign (l : list ascii) : bool * list ascii :=
  match l with "-"%char :: r => (true, r) | _ => (false, l) end.

Lemma scan_number_app l v r : delim r → scan_number l = Some (v, []) →
  scan_number (l ++ r) = Some (v, r).
Proof.
  intros Hr. unfold scan_number. fold (number_sign l) (number_sign (l ++ r)).
  destruct (number_sign l) as [neg l0] eqn:En. intros H.
  assert (number_sign (l ++ r) = (neg, l0 ++ r)) as ->.
  { destruct l as [|c l]; [|by destruct c as [[] [] [] [] [] [] [] []]; simplify_eq/=].
    by injection En as <- <-. }
  destruct (scan_int l0) as [[ip l1]|] eqn:E1; [|done]. rewrite (scan_int_app _ _ _ Hr E1).
  cbn [fst snd]. rewrite scan_frac_app by done. destruct (scan_frac l1) as [fp l2].
  cbn [fst snd]. rewrite scan_exp_app by done. destruct (scan_exp l2) as [ep l3]. cbn [fst snd].
  destruct (fp ++ ep); [by injection H as <- ->|].
  destruct (parse_float _); [|done]. by injection H as <- ->.
Qed.

(** A number token starts with a digit, or a minus and a digit. *)
Lemma scan_number_start l x : scan_number l = Some x →
  ∃ c l', is_digit c = true ∧ (l = c :: l' ∨ l = "-"%char :: c :: l').
Proof.
  unfold scan_number. fold (number_sign l). destruct (number_sign l) as [neg l0] eqn:En.
  destruct (scan_int l0) as [[ip l1]|] eqn:E1; [|done]. intros _.
  assert (∃ c l', is_digit c = true ∧ l0 = c :: l') as (c & l' & Hc & ->).
  { destruct l0 as [|c l']; [done|]. exists c, l'. split; [|done]. cbn [scan_int] in E1.
    case_bool_decide; [by subst|]. by destruct (is_digit c). }
  exists c, l'. split; [done|]. destruct l as [|d l]; [done|].
  destruct (decide (d = "-"%char)) as [->|Hd]; [injection En as <- ->; by right|].
  left. assert (number_sign (d :: l) = (false, d :: l)) as E.
  { by destruct d as [[] [] [] [] [] [] [] []]. }
  congruence.
Qed.

Lemma scan_literal_number c l : is_digit c = true →
  scan_literal literals (c :: l) = None ∧ scan_literal literals ("-"%char :: c :: l) = None.
Proof. intros H. split; revert H; by destruct c as [[] [] [] [] [] [] [] []]. Qed.

Lemma scan_scalar_number l v r : delim r → scan_number l = Some (v, []) →
  scan_scalar (l ++ r) = Some (v, r).
Proof.
  intros Hr H. destruct (scan_number_start _ _ H) as (c & l' & Hc & Hl).
  unfold scan_scalar. pose proof (scan_number_app _ _ _ Hr H) as ->.
  destruct (scan_literal_number c (l' ++ r) Hc) as [H1 H2].
  destruct Hl as [-> | ->]; cbn [app]; by rewrite ?H1, ?H2.
Qed.

Lemma strip_prefix_app p l l' r : strip_prefix p l = Some l' → strip_prefix p (l ++ r) = Some (l' ++ r).
Proof.
  revert l; induction p as [|c p IH]; intros [|d l]; simpl; try done; [by intros [= <-]..|].
  case_bool_decide; [apply IH|done].
Qed.

(** *** Integers have no leading zero *)

Lemma nzhead_hd d d' : Decimal.nzhead d ≠ Decimal.D0 d'.
Proof. by induction d. Qed.

Lemma uint_string_scan d r : (∀ d', d = Decimal.D0 d' → d' = Decimal.Nil) → delim r →
  scan_int (chars (uint_string d) ++ r) = Some (chars (uint_string d), r).
Proof.
  intros Hd Hr. destruct (uint_string_spec d) as (Hdig & Hne & _).
  destruct (chars (uint_string d)) as [|c l] eqn:E; [done|]. cbn [app scan_int].
  assert (is_digit c = true) as Hc by (simpl in Hdig; by apply andb_prop in Hdig as [? _]).
  case_bool_decide as H0.
  - subst c. enough (l = []) as -> by done.
    unfold uint_string, NilZero.string_of_uint in E.
    destruct d; try rewrite (Hd d eq_refl) in E; simpl in E; by simplify_eq.
  - rewrite Hc. change (c :: l ++ r) with ((c :: l) ++ r).
    rewrite take_while_app, drop_while_app by done.
    destruct r as [|c' r]; simpl; [by rewrite !app_nil_r|].
    rewrite (delim_digit _ _ _ Hr eq_refl). by rewrite !app_nil_r.
Qed.

Lemma Z_to_int_norm z d : Z.to_int z = Decimal.Pos d ∨ Z.to_int z = Decimal.Neg d →
  ∀ d', d = Decimal.D0 d' → d' = Decimal.Nil.
Proof.
  intros H d' ->. pose proof (DecimalZ.to_of (Z.to_int z)) as Hn. rewrite DecimalZ.of_to in Hn.
  destruct H as [H|H]; rewrite H in Hn; cbn [Decimal.norm] in Hn.
  - unfold Decimal.unorm in Hn. cbn [Decimal.nzhead] in Hn.
    destruct (Decimal.nzhead d') eqn:E; simplify_eq; try done; by apply nzhead_hd in E.
  - destruct (Decimal.nzhead (Decimal.D0 d')) eqn:E; simplify_eq; try done; by apply nzhead_hd in E.
Qed.

Lemma scan_number_int z : scan_number (chars (Z_str z)) = Some (PInt z, []).
Proof.
  unfold Z_str. pose proof (DecimalZ.of_to z) as Hz. pose proof (Z_to_int_norm z) as Hn.
  destruct (Z.to_int z) as [d|d]; unfold scan_number; cbn [NilZero.string_of_int];
    destruct (uint_string_spec d) as (Hdig & Hne & Hv).
  - fold (uint_string d). fold (number_sign (chars (uint_string d))).
    assert (number_sign (chars (uint_string d)) = (false, chars (uint_string d))) as ->.
    { destruct (chars (uint_string d)) as [|c l]; [done|]. simpl in Hdig.
      apply andb_prop in Hdig as [Hc _]. revert Hc. by destruct c as [[] [] [] [] [] [] [] []]. }
    pose proof (uint_string_scan d [] (Hn d (or_introl eq_refl)) I) as E. rewrite app_nil_r in E.
    rewrite E. cbn. by rewrite Hv, <-Hz.
  - fold (uint_string d). rewrite chars_cons.
    pose proof (uint_string_scan d [] (Hn d (or_intror eq_refl)) I) as E. rewrite app_nil_r in E.
    rewrite E. cbn. by rewrite Hv, <-Hz.
Qed.

(** ** Reading back what was written *)

Lemma pairs_dict_id (l : list (string * pyval)) :
  NoDup l.*1 → pairs_dict l = map (λ kv, (PStr kv.1, kv.2)) l.
Proof.
  intros Hnd. pose proof (foldR_build_id fst snd (λ d kv, Ok (dict_set (key_text kv.1) kv.2 d)) [] l
    (λ acc x _, eq_refl) Hnd) as H.
  cbn [app] in H. unfold enc_items in H.
  enough (∀ acc, foldR (λ d kv, Ok (dict_set (key_text kv.1) kv.2 d)) acc (map (λ kv, (PStr kv.1, kv.2)) l)
    = Ok (fold_left (λ d (kv : string * pyval), dict_set kv.1 kv.2 d) l acc)) as E
    by (cbn [map] in H; rewrite E in H; by injection H).
  clear. induction l as [|kv l IH]; intros acc; [done|]. cbn [map foldR fold_left]. simpl. apply IH.
Qed.

(** A layout only adds whitespace. *)
Class LayoutOk (lay : layout) : Prop :=
  layout_ws lvl : forallb json_ws (lay_nl lay lvl) = true ∧ forallb json_ws (lay_item lay lvl) = true ∧
    forallb json_ws (lay_colon lay) = true.

(** The layouts of [sort_keys=True]. *)
Class SortedKeys (lay : layout) : Prop := sorted_keys : lay_leb lay = str_leb.
Global Instance compact_sorted : SortedKeys compact := eq_refl.
Global Instance indented_sorted k : SortedKeys (indented k) := eq_refl.

Global Instance tight_sorted : SortedKeys tight := eq_refl.

Global Instance tight_ok : LayoutOk tight.
Proof. done. Qed.
Global Instance unsorted_ok : LayoutOk unsorted.
Proof. by intros lvl. Qed.
Global Instance compact_ok : LayoutOk compact.
Proof. done. Qed.
Global Instance indented_ok k : LayoutOk (indented k).
Proof.
  assert (∀ n, forallb json_ws (replicate n " "%char) = true) as H by (by induction n).
  intros lvl. simpl. rewrite H. done.
Qed.

Section roundtrip.
Context (lay : layout) {Hlay : LayoutOk lay}.
Local Notation canonl := (canon_with (lay_leb lay)).
Local Notation leb := (keys_leb (lay_leb lay)).

Lemma skip_nl lvl l : skip_ws (lay_nl lay lvl ++ l) = skip_ws l.
Proof using Hlay. apply drop_while_app, Hlay. Qed.
Lemma skip_item lvl l : skip_ws (lay_item lay lvl ++ l) = skip_ws l.
Proof using Hlay. apply drop_while_app, Hlay. Qed.

Lemma skip_colon l : skip_ws (lay_colon lay ++ l) = skip_ws l.
Proof using Hlay. apply drop_while_app, (Hlay O). Qed.

Lemma delim_nl lvl c l : c = "]"%char ∨ c = "}"%char → delim (lay_nl lay lvl ++ c :: l).
Proof using Hlay.
  intros Hc. pose proof (proj1 (Hlay lvl)) as H. destruct (lay_nl lay lvl) as [|d ws]; simpl.
  - naive_solver.
  - simpl in H. apply andb_prop in H as [H _]. by left.
Qed.

(** The text of a value starts with a character that is neither whitespace nor a closing bracket. *)
Definition text_start (l : list ascii) : Prop :=
  ∃ c l', l = c :: l' ∧ json_ws c = false ∧ c ≠ "]"%char ∧ c ≠ "}"%char ∧ c ≠ ","%char.

Lemma number_start l x : scan_number l = Some x → text_start l.
Proof.
  intros (c & l' & Hc & [->| ->])%scan_number_start; [|by eexists _, _].
  exists c, l'. split; [done|]. revert Hc. by destruct c as [[] [] [] [] [] [] [] []].
Qed.

Lemma float_text_cases f : float_json_ok f = true →
  (∃ s, (s, PFloat f) ∈ literals ∧ chars (json_float f) = chars s) ∨
  scan_number (chars (json_float f)) = Some (PFloat f, []).
Proof.
  intros H. destruct f as [s|[]| |s m e].
  - right. by destruct s.
  - left. exists "-Infinity". split; [|done]. do 5 right. by left.
  - left. exists "Infinity". split; [|done]. do 4 right. by left.
  - left. exists "NaN". split; [|done]. do 3 right. by left.
  - unfold float_json_ok in H. unfold scan_scalar in H.
    destruct (scan_literal literals (chars (json_float (S754_finite s m e)))) as [[v r]|] eqn:E.
    + exfalso. destruct v; try done. destruct r; try done. apply bool_decide_eq_true_1 in H. subst.
      unfold literals in E. cbn [scan_literal] in E. repeat case_match; simplify_eq.
    + right. destruct (scan_number _) as [[v r]|] eqn:E'; [|done].
      destruct v; try done. destruct r; try done. apply bool_decide_eq_true_1 in H. by subst.
Qed.

Lemma json_text_start v lvl : json_ok v = true → text_start (json_text lay lvl v).
Proof.
  destruct v as [|[]|z|f|s|[|]|[|]|[|]|]; cbn [json_text json_ok]; intros H;
    try discriminate H; try (eexists _, _; split; [reflexivity|by split_and!]).
  - eapply number_start, scan_number_int.
  - destruct (float_text_cases f H) as [(s & Hs & ->)|Hs]; [|by eapply number_start].
    unfold literals in Hs. rewrite !elem_of_cons in Hs.
    destruct Hs as [?|[?|[?|[?|[?|[?|Hs]]]]]]; simplify_eq;
      try (eexists _, _; split; [reflexivity|by split_and!]).
    by apply elem_of_nil in Hs.
Qed.

(** [parse_value] reads back the text of [v], whatever delimiter follows. *)
Definition reads (v : pyval) : Prop :=
  ∀ lvl n r, delim r → (length (json_text lay lvl v) < n)%nat →
    parse_value n (json_text lay lvl v ++ r) = Some (canonl v, r).

Lemma skip_text l r : text_start l → skip_ws (l ++ r) = l ++ r.
Proof. intros (c & l' & -> & Hc & _). cbn [app]. unfold skip_ws. by rewrite drop_while_head. Qed.

Lemma delim_join c l : c = ","%char ∨ c = "]"%char ∨ c = "}"%char → delim (c :: l).
Proof. simpl. naive_solver. Qed.

Lemma join_chars_cons sep x y l : join_chars sep (x :: y :: l) = x ++ sep ++ join_chars sep (y :: l).
Proof. done. Qed.

Lemma skip_join sep x l r : text_start x → skip_ws (join_chars sep (x :: l) ++ r) = join_chars sep (x :: l) ++ r.
Proof.
  intros Hx. destruct l as [|y l]; [by apply skip_text|].
  rewrite join_chars_cons, <-(assoc_L (++)). by apply skip_text.
Qed.

Lemma parse_elems_reads l : Forall (λ v, json_ok v = true ∧ reads v) l → l ≠ [] → ∀ lvl n r,
  (length (join_chars (","%char :: lay_item lay lvl) (map (json_text lay lvl) l)) + 1 < n)%nat →
  parse_elems n (join_chars (","%char :: lay_item lay lvl) (map (json_text lay lvl) l)
                   ++ lay_nl lay (pred lvl) ++ "]"%char :: r) = Some (map canonl l, r).
Proof using Hlay.
  induction 1 as [|v l [Hok Hv] HF IH]; [done|]. intros _ lvl n r Hn.
  destruct n as [|n]; [lia|]. destruct l as [|w l].
  - cbn [map join_chars parse_elems] in *.
    rewrite Hv; [|apply delim_nl; by left|lia]. rewrite skip_nl.
    change (skip_ws ("]"%char :: r)) with ("]"%char :: r). done.
  - cbn [map] in *. rewrite join_chars_cons in Hn |- *. rewrite <-!(assoc_L (++)). cbn [app parse_elems].
    rewrite !length_app in Hn. cbn [length] in Hn.
    rewrite Hv; [|apply delim_join; by left|lia].
    change (skip_ws (","%char :: ?x)) with (","%char :: x).
    inversion HF as [|? ? [Hokw _] HF']; subst. rewrite skip_item.
    rewrite skip_join by (by apply json_text_start). rewrite IH; [done|done|]. lia.
Qed.

Definition member_text (lvl : nat) (kv : string * pyval) : list ascii :=
  json_str kv.1 ++ ":"%char :: lay_colon lay ++ json_text lay lvl kv.2.

Lemma member_start lvl kv : text_start (member_text lvl kv).
Proof. eexists _, _. split; [reflexivity|by split_and!]. Qed.

(** The key, the colon and the value of one member. *)
Lemma member_reads lvl n kv r : json_ok kv.2 = true → reads kv.2 → delim r →
  (length (member_text lvl kv) < n)%nat →
  ∃ r0, member_text lvl kv ++ r = dquote :: r0 ∧ ∃ r1 r2,
    scan_string r0 = Some (chars kv.1, ":"%char :: r1) ∧ skip_ws r1 = r2 ∧
    parse_value n r2 = Some (canonl kv.2, r).
Proof.
  intros Hok Hv Hr Hn. unfold member_text, json_str in *.
  exists (concat (map json_char (chars kv.1)) ++ dquote :: ":"%char :: lay_colon lay ++ json_text lay lvl kv.2 ++ r).
  split; [rewrite <-!(assoc_L (++)); cbn [app]; by rewrite <-!(assoc_L (++))|].
  eexists _, _. rewrite scan_string_text.
  split; [reflexivity|]. split; [reflexivity|].
  rewrite skip_colon, skip_text by (by apply json_text_start).
  apply Hv; [done|]. cbn [app length] in Hn. rewrite !length_app in Hn. cbn [length] in Hn.
  rewrite !length_app in Hn. lia.
Qed.

Lemma parse_members_reads l : Forall (λ kv, json_ok kv.2 = true ∧ reads kv.2) l → l ≠ [] → ∀ lvl n r,
  (length (join_chars (","%char :: lay_item lay lvl) (map (member_text lvl) l)) + 1 < n)%nat →
  parse_members n (join_chars (","%char :: lay_item lay lvl) (map (member_text lvl) l)
                   ++ lay_nl lay (pred lvl) ++ "}"%char :: r) = Some (map (λ kv, (kv.1, canonl kv.2)) l, r).
Proof using Hlay.
  induction 1 as [|kv l [Hok Hv] HF IH]; [done|]. intros _ lvl n r Hn.
  destruct n as [|n]; [lia|]. destruct l as [|kv' l].
  - cbn [map join_chars] in Hn |- *.
    edestruct (member_reads lvl n kv) as (r0 & -> & r1 & r2 & Hs & Hw & Hp); [done..|apply delim_nl; by right|lia|].
    cbn [parse_members]. rewrite bool_decide_eq_true_2 by done. rewrite Hs.
    change (skip_ws (":"%char :: r1)) with (":"%char :: r1). cbv iota beta. rewrite Hw, Hp, skip_nl.
    change (skip_ws ("}"%char :: r)) with ("}"%char :: r). cbv iota beta. by rewrite of_chars_chars.
  - cbn [map] in *. rewrite join_chars_cons in Hn |- *. rewrite <-!(assoc_L (++)). cbn [app].
    rewrite !length_app in Hn. cbn [length] in Hn.
    edestruct (member_reads lvl n kv) as (r0 & -> & r1 & r2 & Hs & Hw & Hp);
      [done..|apply delim_join; by left|lia|].
    cbn [parse_members]. rewrite bool_decide_eq_true_2 by done. rewrite Hs.
    change (skip_ws (":"%char :: r1)) with (":"%char :: r1). cbv iota beta. rewrite Hw, Hp.
    change (skip_ws (","%char :: ?x)) with (","%char :: x). cbv iota beta. rewrite skip_item.
    rewrite skip_join by apply member_start. rewrite IH; [by rewrite of_chars_chars|done|]. lia.
Qed.

Lemma sorted_texts lvl (d : pydict) :
  map (λ kt, json_str kt.1 ++ ":"%char :: lay_colon lay ++ kt.2)
      (sort_by leb (map (λ kv, (key_text kv.1, json_text lay lvl kv.2)) d))
  = map (member_text lvl) (sort_by leb (map (λ kv, (key_text kv.1, kv.2)) d)).
Proof.
  replace (map (λ kv, (key_text kv.1, json_text lay lvl kv.2)) d)
    with (map (λ kv : string * pyval, (kv.1, json_text lay lvl kv.2)) (map (λ kv, (key_text kv.1, kv.2)) d))
    by (by rewrite map_map).
  rewrite (sort_by_map leb) by done. by rewrite map_map.
Qed.

Lemma sorted_canons (d : pydict) :
  sort_by leb (map (λ kv, (key_text kv.1, canonl kv.2)) d)
  = map (λ kv, (kv.1, canonl kv.2)) (sort_by leb (map (λ kv, (key_text kv.1, kv.2)) d)).
Proof.
  rewrite <-(sort_by_map leb leb) by done. by rewrite map_map.
Qed.

Lemma bracket_skip lvl c x : text_start x → skip_ws (lay_nl lay lvl ++ x ++ c) = x ++ c.
Proof using Hlay. intros H. rewrite skip_nl. by apply skip_text. Qed.

Lemma text_start_app x y : text_start x → text_start (x ++ y).
Proof. intros (c & l & -> & H). exists c, (l ++ y). by split. Qed.

Lemma join_start sep x l : text_start x → text_start (join_chars sep (x :: l)).
Proof.
  destruct l as [|y l]; [done|]. rewrite join_chars_cons. by apply text_start_app.
Qed.

(** An opening bracket, then text that is not its closing bracket: the container loop runs. *)
Lemma parse_list_open n l r x : text_start l → parse_elems n l = Some (x, r) → 
  ∀ ws, forallb json_ws ws = true → parse_value (S n) ("["%char :: ws ++ l) = Some (PList x, r).
Proof.
  intros (c & l' & -> & Hc & Hb & _) Hp ws Hws. cbn [parse_value].
  rewrite bool_decide_eq_false_2, bool_decide_eq_true_2 by done.
  unfold skip_ws. rewrite drop_while_app, drop_while_head by done.
  destruct c as [[] [] [] [] [] [] [] []]; try (by rewrite Hp). done.
Qed.

Lemma parse_dict_open n l r x : text_start l → parse_members n l = Some (x, r) → 
  ∀ ws, forallb json_ws ws = true →
  parse_value (S n) ("{"%char :: ws ++ l) = Some (PDict (pairs_dict x), r).
Proof.
  intros (c & l' & -> & Hc & _ & Hb & _) Hp ws Hws. cbn [parse_value].
  rewrite bool_decide_eq_false_2, bool_decide_eq_false_2, bool_decide_eq_true_2 by done.
  unfold skip_ws. rewrite drop_while_app, drop_while_head by done.
  destruct c as [[] [] [] [] [] [] [] []]; try (by rewrite Hp). done.
Qed.

Lemma number_parse n l v r : delim r → scan_number l = Some (v, []) → parse_value (S n) (l ++ r) = Some (v, r).
Proof.
  intros Hr H. pose proof (scan_scalar_number _ _ _ Hr H) as Hs.
  destruct (scan_number_start _ _ H) as (c & l' & Hc & Hl). cbn [parse_value].
  assert (∃ d l'', l ++ r = d :: l'' ∧ d ≠ dquote ∧ d ≠ "["%char ∧ d ≠ "{"%char) as (d & l'' & E & H1 & H2 & H3).
  { destruct Hl as [-> | ->]; eexists _, _; (split; [reflexivity|]); [|done].
    revert Hc. by destruct c as [[] [] [] [] [] [] [] []]. }
  rewrite E in *. by rewrite !bool_decide_eq_false_2.
Qed.

Lemma literal_parse n s v r : (s, v) ∈ literals → parse_value (S n) (chars s ++ r) = Some (v, r).
Proof.
  unfold literals. rewrite !elem_of_cons.
  intros [?|[?|[?|[?|[?|[?|H]]]]]]; [simplify_eq; reflexivity..|]. by apply elem_of_nil in H.
Qed.

(** Writing then reading returns the canonical value. *)
Lemma json_reads v : json_ok v = true → reads v.
Proof using Hlay.
  assert (∀ l, Forall (λ v, json_ok v = true → reads v) l → forallb json_ok l = true →
    ∀ lvl n r, delim r → (length (json_text lay lvl (PList l)) < n)%nat →
    parse_value n (json_text lay lvl (PList l) ++ r) = Some (PList (map canonl l), r)) as Hseq.
  { intros l IH Hok lvl [|n] r Hr Hn; [lia|]. destruct l as [|w l]; [done|].
    assert (Forall (λ v, json_ok v = true ∧ reads v) (w :: l)) as HF.
    { rewrite forallb_forall in Hok. rewrite Forall_forall in IH |- *. intros x Hx.
      assert (json_ok x = true) by (by apply Hok, list_elem_of_In). auto. }
    cbn [json_text] in Hn |- *. cbn [app]. rewrite <-!(assoc_L (++)). cbn [app].
    cbn [length] in Hn. rewrite !length_app in Hn. cbn [length] in Hn.
    apply parse_list_open; [| |apply Hlay].
    - cbn [map]. apply text_start_app, join_start, json_text_start. by apply Forall_cons in HF as [[] _].
    - change (lay_nl lay lvl) with (lay_nl lay (pred (S lvl))). apply parse_elems_reads; [done..|]. lia. }
  revert v. refine (pyval_deep_ind _ _ _ _ _ _ _ _ _ _).
  - intros _ lvl [|n] r Hr Hn; [lia|]. by apply (literal_parse n "null"); left.
  - intros [] _ lvl [|n] r Hr Hn; [lia| |lia|].
    + apply (literal_parse n "true"). right. by left.
    + apply (literal_parse n "false"). do 2 right. by left.
  - intros z _ lvl [|n] r Hr Hn; [lia|]. by apply number_parse; [|apply scan_number_int].
  - intros f Hok lvl [|n] r Hr Hn; [lia|]. cbn [json_text canon_with].
    destruct (float_text_cases f Hok) as [(s & Hs & ->)|Hs]; [by apply literal_parse|].
    by apply number_parse.
  - intros s _ lvl [|n] r Hr Hn; [lia|]. cbn [json_text canon_with json_str]. unfold json_str. cbn [app parse_value].
    rewrite bool_decide_eq_true_2 by done. rewrite <-(assoc_L (++)). cbn [app].
    by rewrite scan_string_text, of_chars_chars.
  - intros l IH Hok. exact (Hseq l IH Hok).
  - intros l IH Hok. exact (Hseq l IH Hok).
  - intros d IH Hok lvl [|n] r Hr Hn; [lia|]. destruct d as [|kv d]; [done|].
    cbn [json_ok] in Hok. apply andb_prop in Hok as [Hok Hnd]. apply bool_decide_eq_true_1 in Hnd.
    set (es := sort_by leb (map (λ kv, (key_text kv.1, kv.2)) (kv :: d))).
    assert (es ≡ₚ map (λ kv, (key_text kv.1, kv.2)) (kv :: d)) as Hperm by apply sort_by_perm.
    assert (Forall (λ kv, json_ok kv.2 = true ∧ reads kv.2) es) as HF.
    { rewrite Hperm. rewrite forallb_forall in Hok. rewrite Forall_forall in IH. rewrite Forall_forall.
      intros x (y & -> & Hy)%list_elem_of_fmap.
      assert (json_ok y.2 = true) as Hy2.
      { apply list_elem_of_In, Hok in Hy. by destruct (y.1). }
      split; [done|]. by apply (IH y Hy). }
    assert (es ≠ []) as Hne by (intros E; rewrite E in Hperm; by apply Permutation_nil in Hperm).
    cbn [json_text canon_with] in Hn |- *. rewrite sorted_canons. rewrite sorted_texts in Hn |- *. fold es in Hn |- *.
    cbn [app]. rewrite <-!(assoc_L (++)). cbn [app].
    cbn [length] in Hn. rewrite !length_app in Hn. cbn [length] in Hn.
    rewrite (parse_dict_open n _ r (map (λ kv, (kv.1, canonl kv.2)) es)); [| | |apply Hlay].
    + rewrite pairs_dict_id; [done|].
      replace ((map (λ kv, (kv.1, canonl kv.2)) es).*1) with (es.*1)
        by (rewrite <-list_fmap_compose; done).
      rewrite Hperm. by rewrite <-list_fmap_compose.
    + destruct es as [|e es']; [done|]. cbn [map]. apply text_start_app, join_start, member_start.
    + change (lay_nl lay lvl) with (lay_nl lay (pred (S lvl))). apply parse_members_reads; [done..|]. lia.
  - done.
Qed.
End roundtrip.

Lemma json_ok_serializable v : json_ok v = true → serializable v = true.
Proof.
  assert (∀ l, Forall (λ v, json_ok v = true → serializable v = true) l →
    forallb json_ok l = true → forallb serializable l = true) as Hl.
  { induction 1 as [|w l Hw _ IH]; [done|]. cbn [forallb]. intros [? ?]%andb_prop.
    by rewrite Hw, IH. }
  revert v. refine (pyval_deep_ind _ _ _ _ _ _ _ _ _ _); try done.
  intros d IH. cbn [json_ok serializable]. intros [H _]%andb_prop. revert H.
  induction IH as [|kv d [_ Hv] _ IHd]; [done|]. cbn [forallb]. intros [H ?]%andb_prop.
  destruct (kv.1); try done. by rewrite Hv, IHd.
Qed.

Lemma dumps_ok lay v : json_ok v = true → dumps lay v = Ok (of_chars (json_text lay 0 v)).
Proof. intros H. unfold dumps. by rewrite json_ok_serializable. Qed.

(** [json.loads(json.dumps(v)) == canon(v)] in every layout. *)
Lemma loads_text_with lay `{!LayoutOk lay} v : json_ok v = true →
  loads (of_chars (json_text lay 0 v)) = Ok (canon_with (lay_leb lay) v).
Proof.
  intros Hok. unfold loads. rewrite slen_chars, chars_of_chars.
  rewrite <-(app_nil_r (json_text lay 0 v)) at 2. rewrite skip_text by (by apply json_text_start).
  rewrite json_reads; [done..|lia].
Qed.

Lemma loads_text lay `{!LayoutOk lay} `{!SortedKeys lay} v : json_ok v = true →
  loads (of_chars (json_text lay 0 v)) = Ok (canon v).
Proof. intros Hok. rewrite loads_text_with by done. rewrite (sorted_keys (lay := lay)). reflexivity. Qed.

(** With the newline that ends a written document. *)
Lemma loads_line_with lay `{!LayoutOk lay} v : json_ok v = true →
  loads (of_chars (json_text lay 0 v) +:+ newline_str) = Ok (canon_with (lay_leb lay) v).
Proof.
  intros Hok. unfold loads. rewrite chars_app, slen_app, slen_chars, chars_of_chars.
  rewrite skip_text by (by apply json_text_start). rewrite json_reads; [done|done|done|by left|lia].
Qed.

Lemma loads_line lay `{!LayoutOk lay} `{!SortedKeys lay} v : json_ok v = true →
  loads (of_chars (json_text lay 0 v) +:+ newline_str) = Ok (canon v).
Proof. intros Hok. rewrite loads_line_with by done. by rewrite (sorted_keys (lay := lay)). Qed.

(** ** Canonical dictionaries *)

Definition str_keyed (d : pydict) : bool := forallb (λ kv, match kv.1 with PStr _ => true | _ => false end) d.
Definition keys_of (d : pydict) : list string := map (λ kv, key_text kv.1) d.

Lemma dict_get_elem k v d : str_keyed d = true → NoDup (keys_of d) →
  dict_get k d = Some v ↔ (PStr k, v) ∈ d.
Proof.
  induction d as [|[k' v'] d IH]; cbn [str_keyed forallb keys_of map fst snd];
    [intros _ _; split; [done|intros H; by apply elem_of_nil in H]|].
  intros [Hk Hd]%andb_prop [Hni Hnd]%NoDup_cons. destruct k' as [| | | |s| | | |]; try done.
  rewrite dict_get_cons, elem_of_cons. case_bool_decide as E; cbn [key_text] in Hni.
  - subst s. split; [intros [= ->]; by left|]. intros [[= ->]|Hin]; [done|].
    destruct Hni. apply list_elem_of_fmap. by exists (PStr k, v).
  - rewrite IH by done. naive_solver.
Qed.

Lemma dict_get_perm k d d' : str_keyed d = true → NoDup (keys_of d) → d ≡ₚ d' →
  dict_get k d = dict_get k d'.
Proof.
  intros Hs Hnd Hp. assert (str_keyed d' = true) as Hs'.
  { unfold str_keyed in *. rewrite forallb_forall in Hs |- *. intros x Hx. apply Hs.
    by rewrite <-list_elem_of_In, Hp, list_elem_of_In. }
  assert (NoDup (keys_of d')) as Hnd' by (unfold keys_of in *; by rewrite <-Hp).
  apply option_eq. intros v. rewrite !dict_get_elem by done. by rewrite Hp.
Qed.

Definition canon_items (d : pydict) : pydict :=
  map (λ kv, (PStr kv.1, kv.2)) (sort_by key_leb (map (λ kv, (key_text kv.1, canon kv.2)) d)).

Lemma canon_dict d : canon (PDict d) = PDict (canon_items d).
Proof. done. Qed.

Lemma canon_items_perm d : str_keyed d = true → canon_items d ≡ₚ map (λ kv, (kv.1, canon kv.2)) d.
Proof.
  intros Hs. unfold canon_items. rewrite sort_by_perm, map_map. cbn [fst snd].
  enough (map (λ kv, (PStr (key_text kv.1), canon kv.2)) d = map (λ kv, (kv.1, canon kv.2)) d) as -> by done.
  apply map_ext_in. intros [k v] Hin. unfold str_keyed in Hs. rewrite forallb_forall in Hs.
  apply Hs in Hin. simpl in *. by destruct k.
Qed.

Lemma dict_get_map_snd k f d : dict_get k (map (λ kv, (kv.1, f kv.2)) d) = f <$> dict_get k d.
Proof.
  unfold dict_get. induction d as [|[k' v] d IH]; [done|]. cbn [map List.find].
  unfold key_is in *. cbn [fst snd] in *. destruct k'; try done. by destruct (bool_decide _).
Qed.

Lemma json_ok_dict d : json_ok (PDict d) = true →
  str_keyed d = true ∧ NoDup (keys_of d) ∧ Forall (λ kv, json_ok kv.2 = true) d.
Proof.
  cbn [json_ok]. intros [H Hnd%bool_decide_eq_true_1]%andb_prop. split_and!; [|done|].
  - unfold str_keyed. rewrite forallb_forall in H |- *. intros x Hx%H. by destruct (x.1).
  - rewrite Forall_forall. rewrite forallb_forall in H. intros x Hx.
    apply list_elem_of_In, H in Hx. by destruct (x.1).
Qed.

Lemma json_ok_dict_intro d : str_keyed d = true → NoDup (keys_of d) →
  Forall (λ kv, json_ok kv.2 = true) d → json_ok (PDict d) = true.
Proof.
  intros Hs Hnd HF. cbn [json_ok]. apply andb_true_intro. split; [|by apply bool_decide_eq_true_2].
  rewrite Forall_forall in HF. unfold str_keyed in Hs. rewrite forallb_forall in Hs |- *.
  intros x Hx. pose proof (Hs x Hx) as H. apply list_elem_of_In, HF in Hx. by destruct (x.1).
Qed.

(** Reading a key of a dictionary that went through a file. *)
Lemma dict_get_canon k d : json_ok (PDict d) = true →
  dict_get k (canon_items d) = canon <$> dict_get k d.
Proof.
  intros (Hs & Hnd & _)%json_ok_dict. rewrite <-dict_get_map_snd. symmetry. apply dict_get_perm.
  - unfold str_keyed in *. rewrite forallb_forall in Hs |- *.
    intros x Hx. apply in_map_iff in Hx as (y & <- & Hy). by apply Hs in Hy.
  - unfold keys_of in *. by rewrite map_map.
  - symmetry. by apply canon_items_perm.
Qed.

Lemma key_text_perm d : str_keyed d = true → keys_of (canon_items d) ≡ₚ keys_of d.
Proof. intros Hs. unfold keys_of. rewrite canon_items_perm by done. by rewrite map_map. Qed.

Lemma json_ok_canon v : json_ok v = true → json_ok (canon v) = true.
Proof.
  assert (∀ l, Forall (λ v, json_ok v = true → json_ok (canon v) = true) l →
    forallb json_ok l = true → forallb json_ok (map canon l) = true) as Hl.
  { induction 1 as [|w l Hw _ IH]; [done|]. cbn [map forallb]. intros [? ?]%andb_prop.
    by rewrite Hw, IH. }
  revert v. refine (pyval_deep_ind _ _ _ _ _ _ _ _ _ _); try done.
  intros d IH Hok. apply json_ok_dict in Hok as (Hs & Hnd & HF). rewrite canon_dict.
  assert (str_keyed (canon_items d) = true) as Hs'.
  { unfold str_keyed, canon_items. rewrite forallb_forall. intros x Hx.
    by apply in_map_iff in Hx as (y & <- & _). }
  apply json_ok_dict_intro; [done|by rewrite key_text_perm|].
  rewrite canon_items_perm by done. apply Forall_forall. intros x (y & -> & Hy)%list_elem_of_fmap.
  rewrite Forall_forall in IH, HF. apply (IH y Hy), (HF y Hy).
Qed.

(** Canonical values are fixed points. *)
Lemma canon_idem v : json_ok v = true → canon (canon v) = canon v.
Proof.
  assert (∀ l, Forall (λ v, json_ok v = true → canon (canon v) = canon v) l →
    forallb json_ok l = true → map canon (map canon l) = map canon l) as Hl.
  { induction 1 as [|w l Hw _ IH]; [done|]. cbn [map forallb]. intros [? ?]%andb_prop.
    by rewrite Hw, IH. }
  revert v. refine (pyval_deep_ind _ _ _ _ _ _ _ _ _ _); try done.
  - intros l IH Hok. cbn [canon]. f_equal. by apply Hl.
  - intros l IH Hok. cbn [canon]. f_equal. by apply Hl.
  - intros d IH Hok. apply json_ok_dict in Hok as (Hs & Hnd & HF). rewrite !canon_dict. f_equal.
    unfold canon_items. rewrite map_map. cbn [fst snd key_text].
    set (es := sort_by key_leb (map (λ kv, (key_text kv.1, canon kv.2)) d)).
    assert (map (λ kv, (kv.1, canon kv.2)) es = es) as ->.
    { rewrite <-(map_id es) at 2. apply map_ext_in. intros [k v] Hin%list_elem_of_In. simpl. f_equal.
      unfold es in Hin. rewrite elem_of_sort_by in Hin. apply list_elem_of_fmap in Hin as (y & [= -> ->] & Hy).
      rewrite Forall_forall in IH, HF. apply (IH y Hy), (HF y Hy). }
    f_equal. apply sort_by_id. apply sort_by_sorted; [apply key_leb_total|apply key_leb_trans].
Qed.

(** A value and its canonical form have the same text. *)
Lemma json_text_canon lay `{!SortedKeys lay} v : json_ok v = true → ∀ lvl, json_text lay lvl (canon v) = json_text lay lvl v.
Proof.
  assert (∀ l, Forall (λ v, json_ok v = true → ∀ lvl, json_text lay lvl (canon v) = json_text lay lvl v) l →
    forallb json_ok l = true → ∀ lvl, map (json_text lay lvl) (map canon l) = map (json_text lay lvl) l) as Hl.
  { induction 1 as [|w l Hw _ IH]; [done|]. cbn [map forallb]. intros [? ?]%andb_prop lvl.
    by rewrite Hw, IH. }
  revert v. refine (pyval_deep_ind _ _ _ _ _ _ _ _ _ _); try done.
  - intros l IH Hok lvl. cbn [canon json_text]. destruct l as [|x l]; [done|]. cbn [map].
    change (json_text lay (S lvl) (canon x) :: map (json_text lay (S lvl)) (map canon l))
      with (map (json_text lay (S lvl)) (map canon (x :: l))). by rewrite Hl.
  - intros l IH Hok lvl. cbn [canon json_text]. destruct l as [|x l]; [done|]. cbn [map].
    change (json_text lay (S lvl) (canon x) :: map (json_text lay (S lvl)) (map canon l))
      with (map (json_text lay (S lvl)) (map canon (x :: l))). by rewrite Hl.
  - intros d IH Hok lvl. apply json_ok_dict in Hok as (Hs & Hnd & HF). rewrite canon_dict.
    destruct d as [|kv d]; [done|].
    assert (canon_items (kv :: d) ≠ []) as Hne.
    { intros E. pose proof (canon_items_perm (kv :: d) Hs) as Hp. rewrite E in Hp. by apply Permutation_nil in Hp. }
    cbn [json_text]. destruct (canon_items (kv :: d)) as [|x l] eqn:E; [done|]. rewrite <-E. clear E x l Hne.
    rewrite (sorted_keys (lay := lay)). change (@keys_leb (list ascii) str_leb) with (@key_leb (list ascii)).
    do 3 f_equal. unfold canon_items. rewrite map_map. cbn [fst snd key_text].
    set (es := sort_by key_leb (map (λ kv, (key_text kv.1, canon kv.2)) (kv :: d))).
    rewrite (sort_by_map key_leb key_leb (λ kt, (kt.1, json_text lay (S lvl) kt.2)) es) by done.
    rewrite (sort_by_id key_leb es) by (apply sort_by_sorted; [apply key_leb_total|apply key_leb_trans]).
    unfold es. rewrite <-(sort_by_map key_leb key_leb (λ kt, (kt.1, json_text lay (S lvl) kt.2))) by done.
    rewrite map_map. cbn [fst snd]. do 3 f_equal. apply map_ext_in. intros y Hy%list_elem_of_In. f_equal.
    rewrite Forall_forall in IH, HF. apply (IH y Hy), (HF y Hy).
Qed.

(** ** Members written without a space after the colon *)

Lemma scan_key k l : scan_string (concat (map json_char (chars k)) ++ [dquote] ++ l) = Some (chars k, l).
Proof. apply scan_string_text. Qed.

Lemma tight_member_cons k v t n r : text_start t → parse_value n (t ++ ","%char :: r) = Some (v, ","%char :: r) →
  parse_members (S n) (json_str k ++ ":"%char :: t ++ ","%char :: r)
  = match parse_members n (skip_ws r) with Some (kvs, r') => Some ((k, v) :: kvs, r') | None => None end.
Proof.
  intros Ht Hv. unfold json_str. cbn [app parse_members]. rewrite bool_decide_eq_true_2 by done.
  rewrite <-(assoc_L (++)), scan_key.
  change (skip_ws (":"%char :: ?x)) with (":"%char :: x). cbv iota beta.
  rewrite skip_text by done. rewrite Hv. change (skip_ws (","%char :: r)) with (","%char :: r).
  cbv iota beta. by rewrite of_chars_chars.
Qed.

Lemma tight_member_last k v t n r : text_start t → parse_value n (t ++ "}"%char :: r) = Some (v, "}"%char :: r) →
  parse_members (S n) (json_str k ++ ":"%char :: t ++ "}"%char :: r) = Some ([(k, v)], r).
Proof.
  intros Ht Hv. unfold json_str. cbn [app parse_members]. rewrite bool_decide_eq_true_2 by done.
  rewrite <-(assoc_L (++)), scan_key.
  change (skip_ws (":"%char :: ?x)) with (":"%char :: x). cbv iota beta.
  rewrite skip_text by done. rewrite Hv. change (skip_ws ("}"%char :: r)) with ("}"%char :: r).
  cbv iota beta. by rewrite of_chars_chars.
Qed.

(** ** Without [sort_keys]: tuples become lists, nothing else changes *)

Fixpoint jsonify (v : pyval) : pyval :=
  match v with
  | PList l | PTuple l => PList (map jsonify l)
  | PDict d => PDict (map (λ kv, (kv.1, jsonify kv.2)) d)
  | _ => v
  end.

Lemma sort_by_stable {A} (leb : A → A → bool) l : (∀ x y, leb x y = true) → sort_by leb l = l.
Proof.
  intros H. induction l as [|x l IH]; [done|]. simpl. rewrite IH. destruct l as [|y l]; [done|]. simpl. by rewrite H.
Qed.

Lemma canon_unsorted v : json_ok v = true → canon_with (lay_leb unsorted) v = jsonify v.
Proof.
  assert (∀ l, Forall (λ v, json_ok v = true → canon_with (lay_leb unsorted) v = jsonify v) l →
    forallb json_ok l = true → map (canon_with (lay_leb unsorted)) l = map jsonify l) as Hl.
  { induction 1 as [|w l Hw _ IH]; [done|]. cbn [map forallb]. intros [? ?]%andb_prop.
    by rewrite Hw, IH. }
  revert v. refine (pyval_deep_ind _ _ _ _ _ _ _ _ _ _); try done.
  - intros l IH Hok. cbn [canon_with jsonify]. f_equal. by apply Hl.
  - intros l IH Hok. cbn [canon_with jsonify]. f_equal. by apply Hl.
  - intros d IH Hok. apply json_ok_dict in Hok as (Hs & _ & HF). cbn [canon_with jsonify].
    rewrite sort_by_stable by done. rewrite map_map. cbn [fst snd]. f_equal. apply map_ext_in.
    intros [k v] Hin. unfold str_keyed in Hs. rewrite forallb_forall in Hs. pose proof (Hs _ Hin) as Hk.
    apply list_elem_of_In in Hin. rewrite Forall_forall in IH, HF.
    destruct (IH _ Hin) as [_ Hv]. pose proof (HF _ Hin) as Hv'. cbn [fst snd] in *.
    destruct k; try done. by rewrite Hv.
Qed.

Lemma keys_of_jsonify (d : pydict) : keys_of (map (λ kv, (kv.1, jsonify kv.2)) d) = keys_of d.
Proof. unfold keys_of. by rewrite map_map. Qed.

Lemma json_ok_jsonify v : json_ok v = true → json_ok (jsonify v) = true.
Proof.
  assert (∀ l, Forall (λ v, json_ok v = true → json_ok (jsonify v) = true) l →
    forallb json_ok l = true → forallb json_ok (map jsonify l) = true) as Hl.
  { induction 1 as [|w l Hw _ IH]; [done|]. cbn [map forallb]. intros [? ?]%andb_prop. by rewrite Hw, IH. }
  revert v. refine (pyval_deep_ind _ _ _ _ _ _ _ _ _ _); try done.
  intros d IH Hok. apply json_ok_dict in Hok as (Hs & Hnd & HF). cbn [jsonify]. apply json_ok_dict_intro.
  - unfold str_keyed in *. rewrite forallb_forall in Hs |- *. by intros ? (x & <- & Hx%Hs)%in_map_iff.
  - by rewrite keys_of_jsonify.
  - apply Forall_forall. intros ? (x & -> & Hx)%list_elem_of_fmap. rewrite Forall_forall in IH, HF. cbn [snd]. by apply IH, HF.
Qed.

Lemma canon_jsonify v : json_ok v = true → canon (jsonify v) = canon v.
Proof.
  assert (∀ l, Forall (λ v, json_ok v = true → canon (jsonify v) = canon v) l →
    forallb json_ok l = true → map canon (map jsonify l) = map canon l) as Hl.
  { induction 1 as [|w l Hw _ IH]; [done|]. cbn [map forallb]. intros [? ?]%andb_prop. by rewrite Hw, IH. }
  revert v. refine (pyval_deep_ind _ _ _ _ _ _ _ _ _ _); try done.
  - intros l IH Hok. cbn [jsonify canon]. f_equal. by apply Hl.
  - intros l IH Hok. cbn [jsonify canon]. f_equal. by apply Hl.
  - intros d IH Hok. apply json_ok_dict in Hok as (_ & _ & HF). cbn [jsonify canon]. rewrite map_map. cbn [fst snd]. do 3 f_equal.
    apply map_ext_in. intros x Hx%list_elem_of_In. rewrite Forall_forall in IH, HF. destruct (IH x Hx) as [_ Hv]. by rewrite Hv by (by apply HF).
Qed.

(** [json.loads(json.dumps(v))] with the default options. *)
Lemma loads_dumps_unsorted v : json_ok v = true →
  dumps unsorted v = Ok (of_chars (json_text unsorted 0 v)) ∧
  loads (of_chars (json_text unsorted 0 v)) = Ok (jsonify v).
Proof.
  intros Hok. split; [by apply dumps_ok|]. rewrite loads_text_with, canon_unsorted by done. done.
Qed.
