(* ===== verification/FileSys.v ===== *)
(** * The file system and durable replacement ([src/src/lodedb/engine/_atomic_io.py])

    Paths, a file-system state, and a monad of operations that records every intermediate
    state, so that a statement over the trace of an operation is a statement over every
    point where the process can be killed. A written file is not on stable storage until
    it is synced; a torn write leaves any prefix of its data. *)

From Stdlib Require Import Ascii String ZArith Lia.
From stdpp Require Import base strings numbers sets gmap list.
From S2P Require Import Prelude Numbers PyVal Bytes.

(** ** Paths *)

(** The components of an absolute path, the last one first. *)
Notation path := (list string).

Definition pname (p : path) : string := hd "" p.
Definition parent (p : path) : path := tail p.
Definition with_name (p : path) (n : string) : path := n :: parent p.

(** [p / s]: the components of [s], with [.] and empty ones dropped and [..] going up. *)
Definition pjoin (p : path) (s : string) : path :=
  fold_left (λ p c, if str_in c [""; "."] then p else if bool_decide (c = "..") then parent p else c :: p)
    (str_split_char "/"%char s) (if startswith "/" s then [] else p).

(** A name that is one path component. *)
Definition simple_name (s : string) : bool :=
  forallb (λ c, negb (bool_decide (c = "/"%char))) (chars s) && negb (str_in s [""; "."; ".."]).

Lemma split_all_none c cur l : forallb (λ x, negb (bool_decide (x = c))) l = true →
  split_all_chars c cur l = [reverse cur ++ l].
Proof.
  revert cur; induction l as [|x l IH]; intros cur; simpl; [by rewrite app_nil_r|].
  intros [Hx Hl]%andb_prop. apply negb_true_iff in Hx. rewrite Hx, IH by done.
  by rewrite reverse_cons, <-(assoc_L (++)).
Qed.

(** One component goes below. *)
Lemma pjoin_simple p s : simple_name s = true → pjoin p s = s :: p.
Proof.
  unfold simple_name, pjoin. intros [Hs Hn]%andb_prop. unfold str_split_char.
  rewrite split_all_none by done. change (reverse [] ++ chars s) with (chars s).
  cbn [map fold_left]. rewrite of_chars_chars.
  apply negb_true_iff, bool_decide_eq_false_1 in Hn.
  unfold str_in. rewrite !bool_decide_eq_false_2; [|set_solver..].
  destruct (startswith "/" s) eqn:E; [|done]. apply startswith_spec in E as (r & ->). done.
Qed.

(** ** State and operations *)

Record file := File { fdata : bytes; fsynced : bool }.
Record fsys := FSys { files : gmap path file; dirs : gset path }.

Definition content (s : fsys) (p : path) : option bytes := fdata <$> files s !! p.
Definition put (p : path) (f : file) (s : fsys) : fsys := FSys (<[p := f]> (files s)) (dirs s).
Definition drop_file (p : path) (s : fsys) : fsys := FSys (delete p (files s)) (dirs s).
Definition dir_exists (s : fsys) (p : path) : bool := bool_decide (p = [] ∨ p ∈ dirs s).

(** What running an operation gives: the states it goes through, the last one, its value. *)
Record outcome (A : Type) := Out { trace : list fsys; final : fsys; value : result A }.
Arguments Out {A} trace final value.
Arguments trace {A} o.
Arguments final {A} o.
Arguments value {A} o.

Definition io (A : Type) : Type := fsys → outcome A.

Global Instance io_ret : MRet io := λ A a s, Out [] s (Ok a).
Global Instance io_bind : MBind io := λ A B k m s,
  let o := m s in
  match value o with
  | Ok a => let o' := k a (final o) in Out (trace o ++ trace o') (final o') (value o')
  | Err e => Out (trace o) (final o) (Err e)
  end.
Global Instance io_fmap : FMap io := λ A B f m s,
  let o := m s in Out (trace o) (final o) (f <$> value o).

Definition lift {A} (r : result A) : io A := λ s, Out [] s r.
Definition fail {A} (k : exn_kind) (msg : string) : io A := lift (raise k msg).
Definition gets {A} (f : fsys → A) : io A := λ s, Out [] s (Ok (f s)).
Definition step (s' : fsys) : outcome unit := Out [s'] s' (Ok tt).

Section mapIO.
Context {A B : Type} (f : A → io B).
Fixpoint mapIO (l : list A) : io (list B) :=
  match l with
  | [] => mret []
  | x :: l => y ← f x; ys ← mapIO l; mret (y :: ys)
  end.
End mapIO.

Section foldIO.
Context {A S : Type} (f : S → A → io S).
Fixpoint foldIO (s : S) (l : list A) : io S :=
  match l with
  | [] => mret s
  | x :: l => s' ← f s x; foldIO s' l
  end.
End foldIO.

Definition no_such_file {A} (p : path) : io A :=
  fail FileNotFoundError ("[Errno 2] No such file or directory: " +:+ str_repr (pname p)).

Definition is_file (p : path) : io bool := gets (λ s, bool_decide (is_Some (files s !! p))).
Definition is_dir (p : path) : io bool := gets (λ s, dir_exists s p).

(** [path.read_bytes()]. *)
Definition read_bytes (p : path) : io bytes := λ s,
  match files s !! p with Some f => Out [] s (Ok (fdata f)) | None => no_such_file p s end.
(** [path.read_text(encoding="utf-8")]. *)
Definition read_text (p : path) : io string := b ← read_bytes p; lift (utf8_decode b).
(** [path.stat().st_size]. *)
Definition file_size (p : path) : io Z := b ← read_bytes p; mret (Z.of_nat (slen b)).

(** The states of a write that is cut after any number of bytes. *)
Definition write_states (p : path) (data : bytes) (s : fsys) : list fsys :=
  map (λ n, put p (File (str_take n data) false) s) (seq 0 (S (slen data))).

(** [open(path, "wb")], the writes, the close. *)
Definition write_bytes (p : path) (data : bytes) : io unit := λ s,
  if dir_exists s (parent p)
  then Out (write_states p data s) (put p (File data false) s) (Ok tt)
  else no_such_file p s.
Definition write_text (p : path) (text : string) : io unit := write_bytes p (utf8_encode text).

(** [os.replace(src, dst)]: one atomic step. *)
Definition os_replace (src dst : path) : io unit := λ s,
  match files s !! src with
  | Some f => if dir_exists s (parent dst) then step (put dst f (drop_file src s)) else no_such_file dst s
  | None => no_such_file src s
  end.

(** [path.unlink(missing_ok=True)]. *)
Definition unlink_ok (p : path) : io unit := λ s,
  match files s !! p with Some _ => step (drop_file p s) | None => Out [] s (Ok tt) end.

(** A directory and those above it. *)
Fixpoint ancestors (p : path) : gset path :=
  match p with [] => ∅ | _ :: q => {[p]} ∪ ancestors q end.

(** [path.mkdir(parents=True, exist_ok=True)]. *)
Definition mkdir_p (p : path) : io unit := λ s,
  if dir_exists s p then Out [] s (Ok tt) else step (FSys (files s) (ancestors p ∪ dirs s)).

(** The names of the files in a directory that end with a suffix, in name order. *)
Definition glob_suffix (dir : path) (suffix : string) : io (list string) :=
  gets (λ s, sort_by str_leb (omap (λ p, match p with
    | n :: q => if bool_decide (q = dir) && endswith suffix n then Some n else None
    | [] => None
    end) (map fst (map_to_list (files s))))).

(** ** Durable replacement *)

Definition normalize_durability (value : option string) : result bool :=
  match value with
  | None => Ok false
  | Some value =>
      let mode := str_lower (str_strip value) in
      if str_in mode [""; "fast"] then Ok false
      else if bool_decide (mode = "fsync") then Ok true
      else raise ValueError ("durability must be one of ('fast', 'fsync'), got " +:+ str_repr value)
  end.

Definition durability_from_env (env : gmap string string) : result bool :=
  normalize_durability (env !! "LODEDB_DURABILITY").

Definition fsync_path (p : path) : io unit := λ s,
  match files s !! p with
  | Some f => step (put p (File (fdata f) true) s)
  | None => no_such_file p s
  end.

(** Only directory entries are flushed: no file content changes. *)
Definition fsync_dir (p : path) : io unit := mret tt.

Definition durable_replace (tmp dst : path) (fsync : bool) : io unit :=
  _ ← (if fsync then fsync_path tmp else mret tt);
  _ ← os_replace tmp dst;
  if fsync then fsync_dir (parent dst) else mret tt.

(** [_sha256_file(path)]: the digest of the blocks is the digest of the content. *)
Definition sha256_file (p : path) : io string := b ← read_bytes p; mret (sha256_hex b).

(** ** Exceptions around file operations *)

(** [try: m finally: h], and [try: m except Exception: h; raise]. *)
Definition after {A} (always : bool) (m : io A) (h : io unit) : io A := λ s,
  let o := m s in
  match value o, always with
  | Ok _, false => o
  | r, _ => let o' := h (final o) in
            Out (trace o ++ trace o') (final o') (match value o' with Ok _ => r | Err e => Err e end)
  end.

(** [try: m except Exception as exc]. *)
Definition attempt {A} (m : io A) : io (result A) := λ s, let o := m s in Out (trace o) (final o) (Ok (value o)).

(** ** Running operations *)

Lemma bind_run {A B} (m : io A) (k : A → io B) s s' tr a :
  m s = Out tr s' (Ok a) →
  (m ≫= k) s = Out (tr ++ trace (k a s')) (final (k a s')) (value (k a s')).
Proof. intros H. unfold mbind, io_bind. by rewrite H. Qed.

Lemma bind_run_pure {A B} (m : io A) (k : A → io B) s a :
  m s = Out [] s (Ok a) → (m ≫= k) s = k a s.
Proof. intros H. rewrite (bind_run _ _ _ _ _ _ H). by destruct (k a s). Qed.

Lemma bind_run_err {A B} (m : io A) (k : A → io B) s s' tr e :
  m s = Out tr s' (Err e) → (m ≫= k) s = Out tr s' (Err e).
Proof. intros H. unfold mbind, io_bind. by rewrite H. Qed.

(** A pure computation, then the rest. *)
Lemma lift_bind_run {A B} (r : result A) (k : A → io B) s :
  (lift r ≫= k) s = match r with Ok a => k a s | Err e => Out [] s (Err e) end.
Proof. destruct r as [a|e]; [by apply bind_run_pure|done]. Qed.

(** Case on the computation at the head of a program and of its pure counterpart. *)
Ltac lift_step r x :=
  rewrite lift_bind_run; destruct r as [x|]; [cbn [mbind result_bind]|reflexivity].

(** An operation run from [s]: every state on the way satisfies [C], the end satisfies [Q]. *)
Definition runs {A} (C : fsys → Prop) (m : io A) (s : fsys) (Q : result A → fsys → Prop) : Prop :=
  Forall C (trace (m s)) ∧ Q (value (m s)) (final (m s)).

Lemma runs_ret {A} C (a : A) s (Q : result A → fsys → Prop) : Q (Ok a) s → runs C (mret a) s Q.
Proof. by split; [constructor|]. Qed.

Lemma runs_lift {A} C (r : result A) s (Q : result A → fsys → Prop) : Q r s → runs C (lift r) s Q.
Proof. by split; [constructor|]. Qed.

Lemma runs_bind {A B} C (m : io A) (k : A → io B) s Q R :
  runs C m s R → (∀ a s', R (Ok a) s' → runs C (k a) s' Q) → (∀ e s', R (Err e) s' → Q (Err e) s') →
  runs C (m ≫= k) s Q.
Proof.
  intros [HC HR] Hk He. unfold runs, mbind, io_bind. destruct (value (m s)) as [a|e] eqn:E; simpl.
  - destruct (Hk _ _ HR) as [HC' HQ]. split; [by apply Forall_app|done].
  - split; [done|by apply He].
Qed.

(** A step that reads, then the rest. *)
Lemma runs_pure {A B} C (m : io A) (k : A → io B) s a Q :
  m s = Out [] s (Ok a) → runs C (k a) s Q → runs C (m ≫= k) s Q.
Proof. intros H. unfold runs. by rewrite (bind_run_pure _ _ _ _ H). Qed.

Lemma runs_weaken {A} (C C' : fsys → Prop) (m : io A) s (Q Q' : result A → fsys → Prop) :
  runs C m s Q → (∀ s, C s → C' s) → (∀ r s, Q r s → Q' r s) → runs C' m s Q'.
Proof. intros [? ?] ? ?. split; [by eapply Forall_impl|auto]. Qed.

Lemma after_Ok {A} (m : io A) h s a : value (after false m h s) = Ok a →
  value (m s) = Ok a ∧ final (after false m h s) = final (m s).
Proof. unfold after. destruct (value (m s)) eqn:Em; cbn; [by rewrite Em|]. by destruct (value (h _)). Qed.
Lemma io_bind_Ok {A B} (m : io A) (k : A → io B) s b : value ((m ≫= k) s) = Ok b →
  ∃ a, value (m s) = Ok a ∧ value (k a (final (m s))) = Ok b ∧ final ((m ≫= k) s) = final (k a (final (m s))).
Proof. unfold mbind, io_bind. destruct (value (m s)) as [a|e]; cbn; [|done]. by exists a. Qed.

(** An operation that leaves the state alone. *)
Definition pure_io {A} (m : io A) : Prop := ∀ s, trace (m s) = [] ∧ final (m s) = s.

Lemma pure_run {A} (m : io A) s : pure_io m → m s = Out [] s (value (m s)).
Proof. intros H. destruct (H s) as [H1 H2]. destruct (m s); simpl in *. by subst. Qed.

Lemma pure_bind {A B} (m : io A) (k : A → io B) : pure_io m → (∀ a, pure_io (k a)) → pure_io (m ≫= k).
Proof.
  intros Hm Hk s. unfold mbind, io_bind. destruct (Hm s) as [Ht Hf].
  destruct (value (m s)) as [a|e]; simpl; rewrite ?Ht, ?Hf; [apply Hk|done].
Qed.
Lemma pure_ret {A} (a : A) : pure_io (mret a).
Proof. done. Qed.
Lemma pure_lift {A} (r : result A) : pure_io (lift r).
Proof. done. Qed.
Lemma pure_gets {A} (f : fsys → A) : pure_io (gets f).
Proof. done. Qed.
Lemma pure_read_bytes p : pure_io (read_bytes p).
Proof. intros s. unfold read_bytes. by destruct (files s !! p). Qed.
Lemma pure_mapIO {A B} (f : A → io B) l : (∀ a, pure_io (f a)) → pure_io (mapIO f l).
Proof.
  intros Hf. induction l; simpl; [apply pure_ret|].
  apply pure_bind; [done|]. intros. apply pure_bind; [done|]. intros. apply pure_ret.
Qed.
Lemma pure_foldIO {A S} (f : S → A → io S) s l : (∀ s a, pure_io (f s a)) → pure_io (foldIO f s l).
Proof.
  intros Hf. revert s; induction l; intros s; simpl; [apply pure_ret|]. by apply pure_bind.
Qed.

Create HintDb fs.
#[export] Hint Resolve pure_bind pure_ret pure_lift pure_gets pure_read_bytes pure_mapIO pure_foldIO : fs.

Lemma pure_is_file p : pure_io (is_file p).
Proof. done. Qed.
Lemma pure_read_text p : pure_io (read_text p).
Proof. apply pure_bind; [apply pure_read_bytes|done]. Qed.
Lemma pure_sha256_file p : pure_io (sha256_file p).
Proof. apply pure_bind; [apply pure_read_bytes|done]. Qed.
Lemma pure_file_size p : pure_io (file_size p).
Proof. apply pure_bind; [apply pure_read_bytes|done]. Qed.
Lemma pure_fail {A} k msg : pure_io (fail (A := A) k msg).
Proof. done. Qed.

#[export] Hint Resolve pure_is_file pure_read_text pure_sha256_file pure_file_size pure_fail : fs.

(** Show that a program only reads, through its binds and branches. *)
Ltac solve_pure :=
  repeat first
    [ progress intros
    | apply pure_ret | apply pure_lift | apply pure_gets | apply pure_fail
    | apply pure_is_file | apply pure_read_text | apply pure_read_bytes | apply pure_sha256_file
    | apply pure_file_size | solve [auto with fs]
    | apply pure_bind
    | match goal with
      | |- pure_io (if ?b then _ else _) => destruct b
      | |- pure_io (match ?x with _ => _ end) => destruct x
      end ].

(** The value of a bind whose first part only reads. *)
Lemma pure_bind_Ok {A B} (m : io A) (k : A → io B) s b :
  pure_io m → value ((m ≫= k) s) = Ok b → ∃ a, value (m s) = Ok a ∧ value (k a s) = Ok b.
Proof.
  intros Hm. unfold mbind, io_bind. destruct (Hm s) as [_ Hf].
  destruct (value (m s)) as [a|e]; [|done]. cbn. rewrite Hf. eauto.
Qed.

(** ** The primitives *)

Lemma content_put_eq s p f : content (put p f s) p = Some (fdata f).
Proof. unfold content, put. simpl. by rewrite lookup_insert_eq. Qed.
Lemma content_put_ne s p q f : p ≠ q → content (put p f s) q = content s q.
Proof. intros. unfold content, put. simpl. by rewrite lookup_insert_ne. Qed.

Lemma read_bytes_run s p b : content s p = Some b → read_bytes p s = Out [] s (Ok b).
Proof. unfold content, read_bytes. destruct (files s !! p) as [f|]; [by intros [= <-]|done]. Qed.
Lemma read_text_run {B} s p b (k : string → io B) : content s p = Some b →
  (read_text p ≫= k) s = match utf8_decode b with Ok t => k t s | Err e => Out [] s (Err e) end.
Proof.
  intros H. destruct (utf8_decode b) as [t|e] eqn:E.
  - apply bind_run_pure. unfold read_text.
    rewrite (bind_run_pure _ _ _ _ (read_bytes_run _ _ _ H)). by rewrite E.
  - eapply bind_run_err. unfold read_text.
    rewrite (bind_run_pure _ _ _ _ (read_bytes_run _ _ _ H)). by rewrite E.
Qed.
Lemma file_size_run s p b : content s p = Some b → file_size p s = Out [] s (Ok (Z.of_nat (slen b))).
Proof. intros H. unfold file_size. by rewrite (bind_run_pure _ _ _ _ (read_bytes_run _ _ _ H)). Qed.
Lemma sha256_file_run s p b : content s p = Some b → sha256_file p s = Out [] s (Ok (sha256_hex b)).
Proof. intros H. unfold sha256_file. by rewrite (bind_run_pure _ _ _ _ (read_bytes_run _ _ _ H)). Qed.
Lemma is_file_run s p : is_file p s = Out [] s (Ok (bool_decide (is_Some (content s p)))).
Proof.
  unfold is_file, gets, content. do 2 f_equal. apply bool_decide_ext. by rewrite fmap_is_Some.
Qed.

(** Files other than the target are not touched by a write, at any point of it. *)
Lemma write_bytes_runs p data s : dir_exists s (parent p) = true →
  runs (λ t, dirs t = dirs s ∧ ∀ q, q ≠ p → files t !! q = files s !! q) (write_bytes p data) s
    (λ r t, r = Ok tt ∧ t = put p (File data false) s).
Proof.
  intros Hd. unfold runs, write_bytes. rewrite Hd. split; [|done]. cbn [trace].
  apply Forall_forall. intros t (n & -> & _)%list_elem_of_fmap. split; [done|].
  intros q Hq. simpl. by rewrite lookup_insert_ne.
Qed.

(** Publishing: the destination changes in one step, from what it was to the temporary's
    content, which is on stable storage when [fsync] is set. *)
Lemma durable_replace_runs tmp dst fsync s f : tmp ≠ dst →
  files s !! tmp = Some f → dir_exists s (parent dst) = true →
  let new := File (fdata f) (fsync || fsynced f) in
  runs (λ t, dirs t = dirs s ∧ (∀ q, q ≠ tmp → q ≠ dst → files t !! q = files s !! q) ∧
             (files t !! dst = files s !! dst ∨ files t !! dst = Some new ∧ files t !! tmp = None))
    (durable_replace tmp dst fsync) s
    (λ r t, r = Ok tt ∧ t = put dst new (drop_file tmp s)).
Proof.
  intros Hne Hf Hd new.
  assert (∀ f' : file, drop_file tmp (put tmp f' s) = drop_file tmp s) as Hdp.
  { intros f'. unfold drop_file, put. simpl. by rewrite delete_insert_eq. }
  assert (∀ s', dirs s' = dirs s → dir_exists s' (parent dst) = true) as Hd'.
  { intros s' E. unfold dir_exists in *. by rewrite E. }
  destruct fsync; unfold durable_replace, runs, mbind, io_bind, fsync_path, os_replace; cbn.
  - rewrite Hf. cbn. rewrite lookup_insert_eq. rewrite Hd' by done. cbn. rewrite Hdp. split; [|done].
    apply Forall_cons; split; [split_and!|apply Forall_cons; split; [split_and!|done]]; cbn; try done.
    + intros q Hq _. by rewrite lookup_insert_ne.
    + left. by rewrite lookup_insert_ne.
    + intros q Hq Hq'. by rewrite lookup_insert_ne, lookup_delete_ne.
    + right. rewrite lookup_insert_eq, lookup_insert_ne, lookup_delete_eq by done. done.
  - rewrite Hf. cbn. rewrite Hd' by done. cbn.
    assert (new = f) as -> by (unfold new; by destruct f). split; [|done].
    apply Forall_cons; split; [split_and!|done]; cbn; try done.
    + intros q Hq Hq'. by rewrite lookup_insert_ne, lookup_delete_ne.
    + right. rewrite lookup_insert_eq, lookup_insert_ne, lookup_delete_eq by done. done.
Qed.

Lemma mkdir_p_run p s : ∃ tr ds, mkdir_p p s = Out tr (FSys (files s) ds) (Ok tt) ∧
  (dirs s ⊆ ds) ∧ dir_exists (FSys (files s) ds) p = true ∧ Forall (λ t, files t = files s) tr.
Proof.
  unfold mkdir_p. destruct (dir_exists s p) eqn:E.
  - exists [], (dirs s). destruct s. split_and!; done.
  - eexists _, _. split; [reflexivity|]. cbn. split_and!; [set_solver| |by repeat constructor].
    unfold dir_exists. apply bool_decide_eq_true_2. destruct p as [|n p]; [by left|right].
    cbn. set_solver.
Qed.

(** ** The publishing pattern: write a sibling temporary, then replace *)

Definition tmp_of (p : path) : path := with_name p (pname p +:+ ".tmp").

Lemma tmp_of_ne n p : tmp_of (n :: p) ≠ n :: p.
Proof.
  unfold tmp_of, with_name, pname. simpl. intros [= H]. apply (f_equal slen) in H.
  rewrite slen_app in H. simpl in H. lia.
Qed.

Definition publish (dst : path) (data : bytes) (fsync : bool) : io unit :=
  _ ← write_bytes (tmp_of dst) data; durable_replace (tmp_of dst) dst fsync.

(** Only the temporary and the destination change; the destination is always either the
    old file or the whole new one. *)
Definition published (s : fsys) (dst : path) (f : file) (t : fsys) : Prop :=
  dirs t = dirs s ∧ (∀ q, q ≠ tmp_of dst → q ≠ dst → files t !! q = files s !! q) ∧
  (files t !! dst = files s !! dst ∨ files t !! dst = Some f).

Lemma published_final n p f s :
  published s (n :: p) f (put (n :: p) f (drop_file (tmp_of (n :: p)) s)).
Proof.
  split_and!; [done| |].
  - intros q H1 H2. cbn. by rewrite lookup_insert_ne, lookup_delete_ne.
  - right. cbn. by rewrite lookup_insert_eq.
Qed.

Lemma publish_runs n p data fsync s : dir_exists s p = true →
  runs (published s (n :: p) (File data fsync)) (publish (n :: p) data fsync) s
    (λ r t, r = Ok tt ∧ t = put (n :: p) (File data fsync) (drop_file (tmp_of (n :: p)) s)).
Proof.
  intros Hd. pose proof (tmp_of_ne n p) as Hne. unfold publish.
  eapply runs_bind.
  - eapply runs_weaken; [by apply (write_bytes_runs (tmp_of (n :: p)))| |by intros r t H; exact H].
    intros t [Hdt Ht]. split_and!; [done|auto|]. left. auto.
  - intros [] s' [_ ->]. eapply runs_weaken.
    + eapply (durable_replace_runs _ _ fsync _ (File data false)); [done|by apply lookup_insert_eq|done].
    + intros t (Hdt & Hq & Ht). cbn in *. rewrite orb_false_r in *. split_and!; [done| |].
      * intros q Hq1 Hq2. rewrite Hq by done. by rewrite lookup_insert_ne.
      * destruct Ht as [Ht|[Ht _]]; [left|by right]. by rewrite Ht, lookup_insert_ne.
    + intros r t [-> ->]. split; [done|]. cbn. rewrite orb_false_r.
      unfold put, drop_file. cbn. by rewrite delete_insert_eq.
  - by intros e s' [? _].
Qed.
