(* ===== verification/FileLock.v ===== *)
(** * The single-writer lock

    [engine/_filelock.py]: the sentinel file of a directory, the timeout from the environment and
    [WriterLock], whose polling loop is cut into the steps between which other processes run. The
    operating system's advisory locks are modelled as [flock] documents them: a lock belongs to an
    open file description, closing the description releases it, and a process that ends closes
    what it has open. *)

From Stdlib Require Import Ascii String ZArith Lia SpecFloat.
From stdpp Require Import base strings gmap sets list relations.
From S2P Require Import Prelude Numbers PyVal Bytes FileSys.

Local Open Scope Z_scope.

Definition _LOCK_FILE_NAME : string := ".lodedb.lock".
Definition DEFAULT_LOCK_TIMEOUT_S : spec_float := float_of_Z 30.

Definition lock_path_for (persistence_dir : path) : path := _LOCK_FILE_NAME :: persistence_dir.

Definition lodedb_lock_timeout_from_env (env : gmap string string) : result spec_float :=
  match env !! "LODEDB_PERSIST_LOCK_TIMEOUT" with
  | None | Some "" => Ok DEFAULT_LOCK_TIMEOUT_S
  | Some raw =>
      match parse_float raw with
      | Some value => if fleb value (S754_zero false) then raise ValueError "LODEDB_PERSIST_LOCK_TIMEOUT must be positive" else Ok value
      | None => raise ValueError "LODEDB_PERSIST_LOCK_TIMEOUT must be a number"
      end
  end.

(** ** The operating system *)

(** The descriptors that are open, the one that owns the lock of each file, and the clock. *)
Record os := OS { os_open : gset nat; os_owner : gmap path nat; os_now : spec_float }.

(** [os.open(...)]: a descriptor that is not in use. *)
Definition new_fd (s : os) : nat := fresh (os_open s).
Definition os_open_file (s : os) : os := OS ({[ new_fd s ]} ∪ os_open s) (os_owner s) (os_now s).

(** [flock(fd, LOCK_EX | LOCK_NB)]. *)
Definition _os_try_lock (file : path) (fd : nat) (s : os) : bool * os :=
  match os_owner s !! file with
  | Some owner => (bool_decide (owner = fd), s)
  | None => (true, OS (os_open s) (<[file := fd]> (os_owner s)) (os_now s))
  end.

Definition _os_unlock (file : path) (fd : nat) (s : os) : os :=
  if bool_decide (os_owner s !! file = Some fd) then OS (os_open s) (delete file (os_owner s)) (os_now s) else s.

(** [os.close(fd)] also drops the lock the description holds. *)
Definition os_close (file : path) (fd : nat) (s : os) : os :=
  let s := _os_unlock file fd s in OS (os_open s ∖ {[ fd ]}) (os_owner s) (os_now s).

(** ** [WriterLock] *)

(** The attribute [_fd] together with where a call of [acquire] has got to: it has opened a
    descriptor and computed its deadline, but not got the lock. *)
Inductive phase := Idle | Waiting (fd : nat) (deadline : spec_float) | Holding (fd : nat).

Definition held (ph : phase) : bool := match ph with Holding _ => true | _ => false end.

Definition already_open (dir : path) : exn :=
  Exn ConcurrentWriterError ("LodeDB at " +:+ str_join "/" (reverse dir) +:+ " is already open by another process "
    +:+ "(LodeDB is single-writer per path); close the other handle, or raise LODEDB_PERSIST_LOCK_TIMEOUT to wait longer.").

(** Up to the loop of [acquire]; nothing happens to a lock that is held. *)
Definition acquire_begin (timeout : spec_float) (ph : phase) (s : os) : phase * os :=
  match ph with
  | Idle => (Waiting (new_fd s) (fadd (os_now s) timeout), os_open_file s)
  | _ => (ph, s)
  end.

(** One turn of the loop, up to the sleep: an answer, or [None] to go round again. *)
Definition acquire_poll (file : path) (fd : nat) (deadline : spec_float) (s : os) : option (result unit) * phase * os :=
  let '(locked, s') := _os_try_lock file fd s in
  if locked then (Some (Ok tt), Holding fd, s')
  else if fleb deadline (os_now s') then (Some (Err (already_open (parent file))), Idle, os_close file fd s')
  else (None, Waiting fd deadline, s').

(** [release]: the descriptor is closed after the lock is given back. *)
Definition release (file : path) (ph : phase) (s : os) : phase * os :=
  match ph with
  | Holding fd => (Idle, os_close file fd (_os_unlock file fd s))
  | _ => (ph, s)
  end.

(** The whole call, [others n] being what the rest of the world does during the [n]-th sleep. *)
Fixpoint acquire_loop (file : path) (fd : nat) (deadline : spec_float) (others : nat → os → os) (rounds n : nat) (s : os)
    : result unit * phase * os :=
  match rounds with
  | O => (raise OutOfFuel "", Waiting fd deadline, s)
  | S rounds =>
      match acquire_poll file fd deadline s with
      | (Some r, ph, s') => (r, ph, s')
      | (None, _, s') => acquire_loop file fd deadline others rounds (S n) (others n s')
      end
  end.

Definition acquire (file : path) (timeout : spec_float) (others : nat → os → os) (rounds : nat) (ph : phase) (s : os)
    : result unit * phase * os :=
  match acquire_begin timeout ph s with
  | (Waiting fd deadline, s') => acquire_loop file fd deadline others rounds 0 s'
  | (ph', s') => (Ok tt, ph', s')
  end.

(** ** Many processes *)

(** The locks of the running processes, by handle. *)
Record system := System { sys_os : os; sys_locks : gmap nat (path * phase) }.

Definition set_lock (h : nat) (file : path) (x : phase * os) (y : system) : system :=
  System x.2 (<[h := (file, x.1)]> (sys_locks y)).

(** What a process that ends leaves to the kernel. *)
Definition exit_process (file : path) (ph : phase) (s : os) : os :=
  match ph with Waiting fd _ | Holding fd => os_close file fd s | Idle => s end.

Inductive lock_step : system → system → Prop :=
| StepNew h file y : sys_locks y !! h = None → lock_step y (System (sys_os y) (<[h := (file, Idle)]> (sys_locks y)))
| StepBegin h file timeout ph y : sys_locks y !! h = Some (file, ph) →
    lock_step y (set_lock h file (acquire_begin timeout ph (sys_os y)) y)
| StepPoll h file fd deadline y : sys_locks y !! h = Some (file, Waiting fd deadline) →
    lock_step y (let '(_, ph, s) := acquire_poll file fd deadline (sys_os y) in set_lock h file (ph, s) y)
| StepRelease h file ph y : sys_locks y !! h = Some (file, ph) → lock_step y (set_lock h file (release file ph (sys_os y)) y)
| StepExit h file ph y : sys_locks y !! h = Some (file, ph) →
    lock_step y (System (exit_process file ph (sys_os y)) (delete h (sys_locks y)))
| StepClock now y : lock_step y (System (OS (os_open (sys_os y)) (os_owner (sys_os y)) now) (sys_locks y)).

Definition start (now : spec_float) : system := System (OS ∅ ∅ now) ∅.

(** ** The invariant *)

Definition fd_of (ph : phase) : option nat := match ph with Idle => None | Waiting fd _ | Holding fd => Some fd end.

Record safe (y : system) : Prop := Safe
  { (** a lock's descriptor is open, and no two locks share one *)
    sf_open h file ph fd : sys_locks y !! h = Some (file, ph) → fd_of ph = Some fd → fd ∈ os_open (sys_os y);
    sf_apart h h' file file' ph ph' fd : sys_locks y !! h = Some (file, ph) → sys_locks y !! h' = Some (file', ph') →
      fd_of ph = Some fd → fd_of ph' = Some fd → h = h';
    (** every open descriptor belongs to a lock: none is lost *)
    sf_known fd : fd ∈ os_open (sys_os y) → ∃ h file ph, sys_locks y !! h = Some (file, ph) ∧ fd_of ph = Some fd;
    (** the owner of a file is the lock that holds it *)
    sf_owner file fd : os_owner (sys_os y) !! file = Some fd ↔ ∃ h, sys_locks y !! h = Some (file, Holding fd) }.

(** What a transition of one lock has to respect for the invariant to stay: it keeps the other
    descriptors and the locks of other files, opens at most a fresh descriptor, and its own phase
    tells what it has. *)
Lemma safe_set h file ph x y : safe y → sys_locks y !! h = Some (file, ph) →
  (∀ fd, fd_of x.1 = Some fd → fd ∈ os_open x.2 ∧ (fd_of ph = Some fd ∨ fd ∉ os_open (sys_os y))) →
  (∀ fd, fd_of ph ≠ Some fd → fd ∈ os_open (sys_os y) → fd ∈ os_open x.2) →
  (∀ fd, fd ∈ os_open x.2 → fd_of x.1 = Some fd ∨ (fd ∈ os_open (sys_os y) ∧ fd_of ph ≠ Some fd)) →
  (∀ file', file' ≠ file → os_owner x.2 !! file' = os_owner (sys_os y) !! file') →
  (∀ fd, os_owner x.2 !! file = Some fd ↔ x.1 = Holding fd ∨ (os_owner (sys_os y) !! file = Some fd ∧ ph ≠ Holding fd)) →
  safe (set_lock h file x y).
Proof.
  intros [Ho Ha Hk Hw] Hh Hnew Hkeep Hback Hother Hown. split; cbn [set_lock sys_os sys_locks].
  - intros g f p fd. rewrite lookup_insert_Some. intros [[-> [= <- <-]]|[Hne Hg]] Hfd.
    + by apply Hnew.
    + apply Hkeep; [|by eapply Ho]. intros Heq. apply Hne. by eapply Ha.
  - intros g g' f f' p p' fd. rewrite !lookup_insert_Some.
    intros [[-> [= <- <-]]|[Hne Hg]] [[-> [= <- <-]]|[Hne' Hg']] Hfd Hfd'; [done| | |by eapply Ha].
    + destruct (Hnew _ Hfd) as [_ [Heq|Hnot]]; [by eapply Ha|by destruct Hnot; eapply Ho].
    + symmetry. destruct (Hnew _ Hfd') as [_ [Heq|Hnot]]; [by eapply Ha|by destruct Hnot; eapply Ho].
  - intros fd [Hfd|[Hfd Hne]]%Hback.
    + exists h, file, x.1. by rewrite lookup_insert_eq.
    + destruct (Hk _ Hfd) as (g & f & p & Hg & Hp). exists g, f, p. split; [|done].
      rewrite lookup_insert_ne; [done|]. intros <-. rewrite Hh in Hg. by injection Hg as -> ->.
  - intros f fd. destruct (decide (f = file)) as [->|Hf].
    + rewrite Hown. split.
      * intros [Hx|[Hold Hne]]; [exists h; rewrite lookup_insert_eq; by rewrite Hx|].
        apply Hw in Hold as [g Hg]. exists g. rewrite lookup_insert_ne; [done|]. intros <-. rewrite Hh in Hg. by injection Hg.
      * intros [g [[-> [= Hx]]|[Hne Hg]]%lookup_insert_Some]; [by left|]. right. split; [apply Hw; by exists g|].
        intros ->. apply Hne. eapply Ha; [exact Hh|exact Hg|done|done].
    + rewrite Hother by done. rewrite Hw. split; intros [g Hg]; exists g.
      * rewrite lookup_insert_ne; [done|]. intros <-. rewrite Hh in Hg. by injection Hg.
      * apply lookup_insert_Some in Hg as [[-> [= ? ?]]|[_ Hg]]; [done|done].
Qed.

Lemma new_fd_fresh s : new_fd s ∉ os_open s.
Proof. unfold new_fd; apply (is_fresh (os_open s)). Qed.

Lemma unlock_open file fd s : os_open (_os_unlock file fd s) = os_open s.
Proof. unfold _os_unlock. by case_bool_decide. Qed.
Lemma unlock_owner_other file file' fd s : file' ≠ file → os_owner (_os_unlock file fd s) !! file' = os_owner s !! file'.
Proof. intros. unfold _os_unlock. case_bool_decide; [by apply lookup_delete_ne|done]. Qed.
Lemma unlock_owner file fd fd' s : os_owner (_os_unlock file fd s) !! file = Some fd' ↔ os_owner s !! file = Some fd' ∧ fd' ≠ fd.
Proof.
  unfold _os_unlock. case_bool_decide as H; cbn [os_owner].
  - rewrite lookup_delete_eq. rewrite H. naive_solver.
  - naive_solver.
Qed.

Lemma close_open file fd s : os_open (os_close file fd s) = os_open s ∖ {[ fd ]}.
Proof. unfold os_close. cbn. by rewrite unlock_open. Qed.
Lemma close_owner_other file file' fd s : file' ≠ file → os_owner (os_close file fd s) !! file' = os_owner s !! file'.
Proof. intros. by apply unlock_owner_other. Qed.
Lemma close_owner file fd fd' s : os_owner (os_close file fd s) !! file = Some fd' ↔ os_owner s !! file = Some fd' ∧ fd' ≠ fd.
Proof. apply unlock_owner. Qed.

(** A descriptor of one lock owns nothing but what that lock holds. *)
Lemma waiting_owns_nothing y h file fd deadline : safe y → sys_locks y !! h = Some (file, Waiting fd deadline) →
  os_owner (sys_os y) !! file ≠ Some fd.
Proof.
  intros [Ho Ha Hk Hw] Hh Hown. apply Hw in Hown as [g Hg].
  assert (g = h) as -> by (eapply Ha; [exact Hg|exact Hh|done|done]). by rewrite Hh in Hg.
Qed.

Lemma safe_poll h file fd deadline y : safe y → sys_locks y !! h = Some (file, Waiting fd deadline) →
  safe (let '(_, ph, s) := acquire_poll file fd deadline (sys_os y) in set_lock h file (ph, s) y).
Proof.
  intros Hs Hh. pose proof (waiting_owns_nothing _ _ _ _ _ Hs Hh) as Hno.
  assert (fd ∈ os_open (sys_os y)) as Hfd by (by eapply (sf_open y Hs)).
  unfold acquire_poll, _os_try_lock. destruct (os_owner (sys_os y) !! file) as [owner|] eqn:Hown.
  - rewrite bool_decide_eq_false_2 by congruence. destruct (fleb _ _).
    + apply (safe_set _ _ _ _ _ Hs Hh); cbn [fst snd fd_of].
      * done.
      * intros fd' Hne Hin. rewrite close_open. set_solver.
      * intros fd'. rewrite close_open. right. set_solver.
      * intros. by apply close_owner_other.
      * intros fd'. rewrite close_owner. split; [|naive_solver]. intros [? ?]. by right.
    + apply (safe_set _ _ _ _ _ Hs Hh); cbn [fst snd fd_of]; [by intros ? [= <-]; auto|done| |done|].
      * intros fd' Hin. destruct (decide (fd = fd')) as [->|]; [by left|right; split; [done|congruence]].
      * intros fd'. split; [by right|]. by intros [?|[? _]].
  - apply (safe_set _ _ _ _ _ Hs Hh); cbn [fst snd fd_of os_open os_owner]; [by intros ? [= <-]; auto|done| | |].
    + intros fd' Hin. destruct (decide (fd = fd')) as [->|]; [by left|right; split; [done|congruence]].
    + intros. by apply lookup_insert_ne.
    + intros fd'. rewrite lookup_insert_eq, Hown. naive_solver.
Qed.

(** Every way out of a phase gives back what it had. *)
Lemma safe_idle h file ph y : safe y → sys_locks y !! h = Some (file, ph) →
  safe (set_lock h file (Idle, exit_process file ph (sys_os y)) y).
Proof.
  intros Hs Hh. apply (safe_set _ _ _ _ _ Hs Hh); cbn [fst snd fd_of]; [done|..].
  - intros fd' Hne Hin. destruct ph; cbn [exit_process fd_of] in *; rewrite ?close_open; set_solver.
  - intros fd' Hin. right. destruct ph as [|fd dl|fd]; cbn [exit_process fd_of] in *; rewrite ?close_open in Hin; set_solver.
  - intros f Hne. destruct ph; cbn [exit_process]; [done|by apply close_owner_other..].
  - intros fd'. destruct ph as [|fd dl|fd]; cbn [exit_process]; [naive_solver|..]; rewrite close_owner; [|naive_solver].
    pose proof (waiting_owns_nothing _ _ _ _ _ Hs Hh). naive_solver.
Qed.

Lemma release_exit file fd s : os_close file fd (_os_unlock file fd s) = os_close file fd s.
Proof.
  unfold os_close. f_equal; [by rewrite !unlock_open| |]; unfold _os_unlock; repeat case_bool_decide; cbn in *; try done.
  by rewrite lookup_delete_eq in *.
Qed.

Lemma set_lock_same h file ph y : sys_locks y !! h = Some (file, ph) → set_lock h file (ph, sys_os y) y = y.
Proof. intros Hh. unfold set_lock. cbn. rewrite insert_id by done. by destruct y. Qed.

Lemma safe_step y y' : safe y → lock_step y y' → safe y'.
Proof.
  intros Hs Hstep. destruct Hstep as [h file y Hh|h file timeout ph y Hh|h file fd dl y Hh|h file ph y Hh|h file ph y Hh|now y].
  - destruct Hs as [Ho Ha Hk Hw]. split; cbn.
    + intros g f p fd [[-> [= <- <-]]|[_ Hg]]%lookup_insert_Some; [done|by eapply Ho].
    + intros g g' f f' p p' fd [[-> [= <- <-]]|[_ Hg]]%lookup_insert_Some [[-> [= <- <-]]|[_ Hg']]%lookup_insert_Some; try done.
      by eapply Ha.
    + intros fd (g & f & p & Hg & Hp)%Hk. exists g, f, p. split; [|done]. rewrite lookup_insert_ne; [done|]. intros ->. by rewrite Hh in Hg.
    + intros f fd. rewrite Hw. split; intros [g Hg]; exists g.
      * rewrite lookup_insert_ne; [done|]. intros ->. by rewrite Hh in Hg.
      * by apply lookup_insert_Some in Hg as [[_ [=]]|[_ Hg]].
  - destruct ph as [|fd dl|fd]; cbn [acquire_begin].
    + pose proof (new_fd_fresh (sys_os y)) as Hf.
      apply (safe_set _ _ _ _ _ Hs Hh); cbn [fst snd fd_of os_open_file os_open os_owner]; [|set_solver| |done|naive_solver].
      * intros fd' [= <-]. split; [set_solver|by right].
      * intros fd' [->%elem_of_singleton|?]%elem_of_union; [by left|by right].
    + by rewrite set_lock_same.
    + by rewrite set_lock_same.
  - by apply safe_poll.
  - destruct ph as [|fd dl|fd]; cbn [release]; [| |rewrite release_exit; by apply (safe_idle _ _ _ _ Hs Hh)].
    + by rewrite set_lock_same.
    + by rewrite set_lock_same.
  - pose proof (safe_idle _ _ _ _ Hs Hh) as [Ho Ha Hk Hw]. cbn [set_lock sys_os sys_locks fst snd] in *. split; cbn.
    + intros g f p fd [? Hg]%lookup_delete_Some Hp. refine (Ho g f p fd _ Hp). by rewrite lookup_insert_ne.
    + intros g g' f f' p p' fd [? Hg]%lookup_delete_Some [? Hg']%lookup_delete_Some.
      refine (Ha g g' f f' p p' fd _ _); by rewrite lookup_insert_ne.
    + intros fd (g & f & p & Hg & Hp)%Hk. exists g, f, p. split; [|done].
      apply lookup_insert_Some in Hg as [[-> [= <- <-]]|[? Hg]]; [done|]. by rewrite lookup_delete_ne.
    + intros f fd. rewrite Hw. split; intros [g Hg]; exists g.
      * apply lookup_insert_Some in Hg as [[_ [=]]|[? Hg]]. by rewrite lookup_delete_ne.
      * apply lookup_delete_Some in Hg as [? Hg]. by rewrite lookup_insert_ne.
  - destruct Hs as [Ho Ha Hk Hw]. by split.
Qed.

Lemma safe_start now : safe (start now).
Proof. split; cbn; intros; try (by rewrite lookup_empty in *); [set_solver|]. rewrite lookup_empty. split; [done|]. intros [h Hh]. by rewrite lookup_empty in Hh. Qed.

(** The descriptor a lock object has. *)
Definition has_fd (y : system) (h fd : nat) : Prop := ∃ file ph, sys_locks y !! h = Some (file, ph) ∧ fd_of ph = Some fd.

(** C31: however the processes that use a directory interleave, start, give up, release and die, at most one
    lock object holds the lock of a file; every open descriptor belongs to exactly one lock object, so no
    path through [acquire] and [release] loses one; and a waiting process gets the lock at its next poll
    whenever nobody holds it. *)
Theorem one_writer_per_path now y : rtc lock_step (start now) y →
  (∀ h h' file fd fd', sys_locks y !! h = Some (file, Holding fd) → sys_locks y !! h' = Some (file, Holding fd') → h = h') ∧
  (∀ fd, fd ∈ os_open (sys_os y) ↔ ∃ h, has_fd y h fd ∧ ∀ h', has_fd y h' fd → h' = h) ∧
  (∀ h file fd deadline, sys_locks y !! h = Some (file, Waiting fd deadline) →
     (∀ h' fd', sys_locks y !! h' ≠ Some (file, Holding fd')) →
     (acquire_poll file fd deadline (sys_os y)).1 = (Some (Ok tt), Holding fd)).
Proof.
  intros Hr. assert (safe y) as [Ho Ha Hk Hw].
  { revert Hr. generalize (safe_start now). generalize (start now). intros x Hx Hr. induction Hr; [done|]. eauto using safe_step. }
  split_and!.
  - intros h h' file fd fd' Hh Hh'. assert (fd = fd') as <-; [|by eapply Ha].
    assert (os_owner (sys_os y) !! file = Some fd) as H1 by (apply Hw; by exists h).
    assert (os_owner (sys_os y) !! file = Some fd') as H2 by (apply Hw; by exists h'). congruence.
  - intros fd. split.
    + intros (h & file & ph & Hh & Hf)%Hk. exists h. split; [by exists file, ph|]. intros h' (file' & ph' & Hh' & Hf'). by eapply Ha.
    + intros (h & (file & ph & Hh & Hf) & _). by eapply Ho.
  - intros h file fd dl Hh Hfree. unfold acquire_poll, _os_try_lock. destruct (os_owner (sys_os y) !! file) as [owner|] eqn:E; [|done].
    apply Hw in E as [h' Hh']. by destruct (Hfree h' owner).
Qed.

Lemma one_writer_per_path_witness :
  let y := System (OS {[ 0%nat ]} {[ [_LOCK_FILE_NAME; "data"] := 0%nat ]} (S754_zero false))
                  {[ 1%nat := ([_LOCK_FILE_NAME; "data"], Holding 0%nat) ]} in
  (∀ h h' file fd fd', sys_locks y !! h = Some (file, Holding fd) → sys_locks y !! h' = Some (file, Holding fd') → h = h') ∧
  (∀ fd, fd ∈ os_open (sys_os y) ↔ ∃ h, has_fd y h fd ∧ ∀ h', has_fd y h' fd → h' = h) ∧
  (∀ h file fd deadline, sys_locks y !! h = Some (file, Waiting fd deadline) →
     (∀ h' fd', sys_locks y !! h' ≠ Some (file, Holding fd')) →
     (acquire_poll file fd deadline (sys_os y)).1 = (Some (Ok tt), Holding fd)).
Proof.
  intros y. refine (one_writer_per_path (S754_zero false) y _). pose (file := [_LOCK_FILE_NAME; "data"]).
  pose (y1 := System (OS ∅ ∅ (S754_zero false)) {[ 1%nat := (file, Idle) ]}).
  pose (y2 := set_lock 1 file (acquire_begin DEFAULT_LOCK_TIMEOUT_S Idle (sys_os y1)) y1).
  apply (rtc_l _ _ y1); [exact (StepNew 1 file (start (S754_zero false)) eq_refl)|].
  apply (rtc_l _ _ y2); [exact (StepBegin 1 file DEFAULT_LOCK_TIMEOUT_S Idle y1 eq_refl)|].
  apply rtc_once. exact (StepPoll 1 file 0%nat (fadd (S754_zero false) DEFAULT_LOCK_TIMEOUT_S) y2 eq_refl).
Defined.

(** A timeout that is not a number is accepted, and never elapses. *)
Example nan_timeout_waits : lodedb_lock_timeout_from_env {[ "LODEDB_PERSIST_LOCK_TIMEOUT" := "nan" ]} = Ok S754_nan ∧
  ∀ now, fleb (fadd now S754_nan) now = false.
Proof. split; [reflexivity|]. by intros []. Qed.

(** Acquiring ends: once a sleep ends with the clock past the deadline, the call has returned with the lock,
    or raised [ConcurrentWriterError] with its descriptor closed; nothing in between leaves the loop. *)
Theorem acquire_ends file timeout others k rounds s :
  (∀ t, fleb (fadd (os_now s) timeout) (os_now (others k t)) = true) → (S k < rounds)%nat →
  let '(r, ph, t) := acquire file timeout others rounds Idle s in
  (r = Ok tt ∧ ph = Holding (new_fd s)) ∨
  (r = Err (already_open (parent file)) ∧ ph = Idle ∧ new_fd s ∉ os_open t).
Proof.
  intros Hclock. unfold acquire. cbn [acquire_begin]. generalize (os_open_file s).
  generalize (fadd (os_now s) timeout) (new_fd s) Hclock. clear. intros deadline fd Hclock s Hr.
  assert (∀ m n u, (n ≤ k ∧ S k < n + m ∨ n = S k ∧ 0 < m ∧ fleb deadline (os_now u) = true)%nat →
    let '(r, ph, t) := acquire_loop file fd deadline others m n u in
    (r = Ok tt ∧ ph = Holding fd) ∨ (r = Err (already_open (parent file)) ∧ ph = Idle ∧ fd ∉ os_open t)) as Hloop.
  { induction m as [|m IH]; intros n u Hn; [lia|]. cbn [acquire_loop]. unfold acquire_poll.
    destruct (_os_try_lock file fd u) as [[] u'] eqn:Et; [by left|].
    assert (os_now u' = os_now u) as -> by (unfold _os_try_lock in Et; destruct (os_owner u !! file); [by injection Et as _ <-|done]).
    destruct (fleb deadline (os_now u)) eqn:El.
    - right. split_and!; [done..|]. rewrite close_open. set_solver.
    - destruct Hn as [[Hk Hm]|(_ & _ & Hbad)]; [|congruence]. apply IH.
      destruct (decide (n = k)) as [->|]; [right; split_and!; [done|lia|apply Hclock]|left; lia]. }
  apply Hloop. left. lia.
Qed.

Definition taken : os := OS {[ 7%nat ]} {[ [_LOCK_FILE_NAME; "data"] := 7%nat ]} (S754_zero false).
Definition minute_passes (n : nat) (t : os) : os := OS (os_open t) (os_owner t) (float_of_Z 60).

Lemma acquire_ends_witness :
  let '(r, ph, t) := acquire [_LOCK_FILE_NAME; "data"] DEFAULT_LOCK_TIMEOUT_S minute_passes 3 Idle taken in
  (r = Ok tt ∧ ph = Holding (new_fd taken)) ∨
  (r = Err (already_open (parent [_LOCK_FILE_NAME; "data"])) ∧ ph = Idle ∧ new_fd taken ∉ os_open t).
Proof. exact (acquire_ends [_LOCK_FILE_NAME; "data"] DEFAULT_LOCK_TIMEOUT_S minute_passes 0 3 taken (λ t, eq_refl) ltac:(lia)). Defined.

(** ** The sentinel on disk *)

(** What [acquire] does to the disk before it polls: the directory and an empty sentinel are there. *)
Definition open_sentinel (dir : path) : io unit :=
  _ ← mkdir_p dir;
  found ← is_file (lock_path_for dir);
  if (found : bool) then mret tt else write_bytes (lock_path_for dir) "".
