(* ===== verification/Predicate.v ===== *)
(** * The metadata filter predicate engine ([src/src/lodedb/engine/_predicate.py])

    Validation and coercion of a filter ([walk] and its callers), and compilation of a
    validated filter to a predicate on stored metadata. The specification is an abstract
    filter syntax with its satisfaction relation; validation is shown to accept only
    encodings of that syntax, and compilation to decide satisfaction. *)

From Stdlib Require Import Ascii String ZArith Lia SpecFloat.
From stdpp Require Import base strings numbers gmap list.
From S2P Require Import Prelude Numbers PyVal.

Local Open Scope Z_scope.

(** ** Operators *)

Definition ORDERED_OPERATORS : list string := ["$gt"; "$gte"; "$lt"; "$lte"].
Definition COMPARISON_OPERATORS : list string :=
  ["$eq"; "$ne"; "$in"; "$nin"; "$exists"] ++ ORDERED_OPERATORS.
Definition LOGICAL_OPERATORS : list string := ["$and"; "$or"; "$not"].

Definition MAX_DEPTH : Z := 32.

(** ** Validation and coercion *)

Definition bad_operand {A} : result A :=
  raise ValueError "filter operand must be a string, number, boolean, or null".

Definition sdk_stringify (value : pyval) : result string :=
  match value with
  | PBool b => Ok (if b then "true" else "false")
  | PNone => Ok ""
  | PStr _ | PInt _ | PFloat _ => Ok (py_str value)
  | _ => bad_operand
  end.

Definition engine_stringify (value : pyval) : result string :=
  match value with
  | PNone => Ok ""
  | PBool _ | PInt _ | PFloat _ | PStr _ => Ok (py_str value)
  | _ => bad_operand
  end.

Section walk.
Context (stringify : pyval → result string).

Definition scalar (field : string) (value : pyval) : result pyval :=
  match value with
  | PDict _ | PList _ | PTuple _ =>
      raise ValueError ("filter operand for field " +:+ str_repr field +:+ " must be a scalar value")
  | _ => PStr <$> stringify value
  end.

Definition validate_operand (field op : string) (operand : pyval) : result pyval :=
  if bool_decide (op = "$exists") then
    match operand with
    | PBool _ => Ok operand
    | _ => raise ValueError ("$exists for field " +:+ str_repr field +:+ " requires a boolean")
    end
  else if str_in op ["$in"; "$nin"] then
    match operand with
    | PList (x :: l) | PTuple (x :: l) => PTuple <$> mapR (scalar field) (x :: l)
    | _ => raise ValueError (op +:+ " for field " +:+ str_repr field +:+ " requires a non-empty list")
    end
  else scalar field operand.

Definition walk_field (field : string) (spec : pyval) : result pyval :=
  match spec with
  | PDict [] =>
      raise ValueError ("operator map for field " +:+ str_repr field +:+ " must be non-empty")
  | PDict d =>
      PDict <$> foldR (λ operators kv,
        match kv.1 with
        | PStr op =>
            if str_in op COMPARISON_OPERATORS then
              v ← validate_operand field op kv.2;
              Ok (dict_set op v operators)
            else raise ValueError ("unsupported operator " +:+ str_repr op +:+ " for field "
                                     +:+ str_repr field)
        | op => raise ValueError ("unsupported operator " +:+ py_repr op +:+ " for field "
                                    +:+ str_repr field)
        end) [] d
  | _ => scalar field spec
  end.

(** [walk] is the recursive call on sub-filters, one level deeper. *)
Definition walk_logical (walk : pyval → result pyval) (op : string) (spec : pyval) : result pyval :=
  if bool_decide (op = "$not") then walk spec
  else match spec with
       | PList (x :: l) => PList <$> mapR walk (x :: l)
       | _ => raise ValueError (op +:+ " requires a non-empty list of filters")
       end.

Fixpoint walk (depth : Z) (node : pyval) : result pyval :=
  if depth >? MAX_DEPTH then raise ValueError "filter is nested too deeply"
  else
    match node with
    | PDict [] => raise ValueError "filter must be a non-empty object"
    | PDict d =>
        PDict <$> foldR (λ result kv,
          match kv.1 with
          | PStr key =>
              if is_blank key then raise ValueError "filter keys must be non-blank strings"
              else if str_in key LOGICAL_OPERATORS then
                v ← walk_logical (walk (depth + 1)) key kv.2;
                Ok (dict_set key v result)
              else if startswith "$" key then
                raise ValueError ("unsupported filter operator " +:+ str_repr key +:+ " at field level")
              else
                v ← walk_field key kv.2;
                Ok (dict_set key v result)
          | _ => raise ValueError "filter keys must be non-blank strings"
          end) [] d
    | _ => raise ValueError "filter must be an object"
    end.
End walk.

Definition validate_metadata_filter (metadata : pyval) : result pyval :=
  match metadata with
  | PDict (_ :: _) => walk engine_stringify 0 metadata
  | _ => raise ValueError "filter.metadata must be a nonempty object"
  end.

Definition coerce_sdk_filter (metadata : pyval) : result pyval := walk sdk_stringify 0 metadata.

(** ** Compilation

    A compiled predicate is a function of the stored metadata, a [str -> str] map. It can
    raise, since [compile_metadata_filter] does not check the grammar. *)

Definition meta := gmap string string.
Definition pred := meta → result bool.

(** The loops of [_all] and [_any]: left to right, stopping at the first decisive answer. *)
Fixpoint all_of (m : meta) (children : list pred) : result bool :=
  match children with
  | [] => Ok true
  | predicate :: children => b ← predicate m; if b : bool then all_of m children else Ok false
  end.

Fixpoint any_of (m : meta) (children : list pred) : result bool :=
  match children with
  | [] => Ok false
  | predicate :: children => b ← predicate m; if b : bool then Ok true else any_of m children
  end.

Definition compile_all (predicates : list pred) : pred :=
  match predicates with
  | [p] => p
  | _ => λ m, all_of m predicates
  end.

Definition compile_any (predicates : list pred) : pred := λ m, any_of m predicates.

(** [meta.get(field, _MISSING)]; a key that is not a string is never there. *)
Definition stored_at (m : meta) (field : pyval) : option string :=
  match field with PStr k => m !! k | _ => None end.

(** [meta.get(field, _MISSING) == v]. *)
Definition stored_eq (stored : option string) (v : pyval) : bool :=
  match stored, v with Some s, PStr t => bool_decide (s = t) | _, _ => false end.

(** [meta.get(field, _MISSING) in v]. *)
Definition stored_in (stored : option string) (v : pyval) : result bool :=
  match v with
  | PList l | PTuple l => Ok (existsb (stored_eq stored) l)
  | PDict d => Ok (existsb (λ kv, stored_eq stored kv.1) d)
  | PStr t => match stored with
              | Some s => Ok (str_contains s t)
              | None => raise TypeError "'in <string>' requires string as left operand, not object"
              end
  | _ => raise TypeError ("argument of type '" +:+ type_name v +:+ "' is not iterable")
  end.

(** [float(text)], or [None] when it does not parse or is not ordered. *)
Definition as_number (text : pyval) : result (option spec_float) :=
  match text with
  | PNone => Ok None
  | _ => match py_float text with
         | Ok value => Ok (if is_nan value then None else Some value)
         | Err e => if is_value_error e || bool_decide (exn_class e = TypeError)
                    then Ok None else Err e
         end
  end.

(** [_ORDERED_CMP]: the four comparators, on numbers and on strings. *)
Inductive ordop := OpGt | OpGe | OpLt | OpLe.

Definition ordered_cmp (op : string) : option ordop :=
  if bool_decide (op = "$gt") then Some OpGt
  else if bool_decide (op = "$gte") then Some OpGe
  else if bool_decide (op = "$lt") then Some OpLt
  else if bool_decide (op = "$lte") then Some OpLe
  else None.

Definition cmp_float (o : ordop) (x y : spec_float) : bool :=
  match o with OpGt => fltb y x | OpGe => fleb y x | OpLt => fltb x y | OpLe => fleb x y end.
Definition cmp_str (o : ordop) (x y : string) : bool :=
  match o with
  | OpGt => str_ltb y x | OpGe => str_leb y x | OpLt => str_ltb x y | OpLe => str_leb x y
  end.

(** [compare(stored, v)] for a stored string. *)
Definition cmp_stored (o : ordop) (stored : string) (v : pyval) : result bool :=
  match v with
  | PStr t => Ok (cmp_str o stored t)
  | _ => raise TypeError ("ordering is not supported between instances of 'str' and '"
                            +:+ type_name v +:+ "'")
  end.

Definition compile_ordered (field : pyval) (op : string) (operand : pyval) : result pred :=
  match ordered_cmp op with
  | None => raise KeyError (str_repr op)
  | Some compare =>
      operand_number ← as_number operand;
      match operand_number with
      | None => Ok (λ m : meta, match stored_at m field with
                         | None => Ok false
                         | Some stored => cmp_stored compare stored operand
                         end)
      | Some vn => Ok (λ m : meta, match stored_at m field with
                            | None => Ok false
                            | Some stored =>
                                stored_number ← as_number (PStr stored);
                                match stored_number with
                                | None => cmp_stored compare stored operand
                                | Some sn => Ok (cmp_float compare sn vn)
                                end
                            end)
      end
  end.

Definition compile_operator (field : pyval) (op : pyval) (operand : pyval) : result pred :=
  match op with
  | PStr op =>
      if bool_decide (op = "$eq") then Ok (λ m : meta, Ok (stored_eq (stored_at m field) operand))
      else if bool_decide (op = "$ne") then Ok (λ m : meta, Ok (negb (stored_eq (stored_at m field) operand)))
      else if bool_decide (op = "$in") then Ok (λ m : meta, stored_in (stored_at m field) operand)
      else if bool_decide (op = "$nin") then Ok (λ m : meta, negb <$> stored_in (stored_at m field) operand)
      else if bool_decide (op = "$exists") then
        if truthy operand then Ok (λ m : meta, Ok (bool_decide (is_Some (stored_at m field))))
        else Ok (λ m : meta, Ok (negb (bool_decide (is_Some (stored_at m field)))))
      else compile_ordered field op operand
  | _ => raise KeyError (py_repr op)
  end.

Definition compile_field (field : pyval) (spec : pyval) : result pred :=
  match spec with
  | PDict d => compile_all <$> mapR (λ kv, compile_operator field kv.1 kv.2) d
  | _ => Ok (λ m : meta, Ok (stored_eq (stored_at m field) spec))
  end.

(** [[compile(sub) for sub in spec]]. *)
Definition compile_each (compile : pyval → result pred) (spec : pyval) : result (list pred) :=
  match spec with
  | PList l | PTuple l => mapR compile l
  | PDict d => mapR (λ kv, compile kv.1) d
  | PStr EmptyString => Ok []
  | PStr _ => no_attr spec "items"
  | _ => raise TypeError ("'" +:+ type_name spec +:+ "' object is not iterable")
  end.

Definition compile_not (inner : pred) : pred := λ m, negb <$> inner m.

Fixpoint compile_node (node : pyval) : result pred :=
  match node with
  | PDict d =>
      compile_all <$> mapR (λ kv,
        if key_is "$and" kv then compile_all <$> compile_each compile_node kv.2
        else if key_is "$or" kv then compile_any <$> compile_each compile_node kv.2
        else if key_is "$not" kv then compile_not <$> compile_node kv.2
        else compile_field kv.1 kv.2) d
  | _ => no_attr node "items"
  end.

Definition compile_metadata_filter (metadata_filter : pyval) : result pred :=
  compile_node metadata_filter.

Definition matches_metadata_filter (document_metadata : meta) (metadata_filter : pyval) : result bool :=
  p ← compile_node metadata_filter; p document_metadata.

(** ** Specification: abstract filters and what they mean *)

Inductive cond :=
| CEq (v : string) | CNe (v : string) | CIn (vs : list string) | CNin (vs : list string)
| CExists (b : bool) | COrd (o : ordop) (v : string).

Inductive fnode := FNode (entries : list fentry)
with fentry :=
| FAnd (ns : list fnode) | FOr (ns : list fnode) | FNot (n : fnode)
| FScalar (field v : string) | FField (field : string) (cs : list cond).

(** Ordered comparison: numeric when both sides are numbers, else by code point. *)
Definition number_of (s : string) : option spec_float :=
  match parse_float s with Some f => if is_nan f then None else Some f | None => None end.

Definition ord_holds (o : ordop) (stored v : string) : bool :=
  match number_of stored, number_of v with
  | Some x, Some y => cmp_float o x y
  | _, _ => cmp_str o stored v
  end.

Definition cond_holds (stored : option string) (c : cond) : bool :=
  match c with
  | CEq v => bool_decide (stored = Some v)
  | CNe v => negb (bool_decide (stored = Some v))
  | CIn vs => match stored with Some s => bool_decide (s ∈ vs) | None => false end
  | CNin vs => match stored with Some s => negb (bool_decide (s ∈ vs)) | None => true end
  | CExists b => Bool.eqb b (bool_decide (is_Some stored))
  | COrd o v => match stored with Some s => ord_holds o s v | None => false end
  end.

(** Entries are AND-ed, the operators of a field are AND-ed. *)
Fixpoint sat (m : meta) (n : fnode) : bool :=
  match n with FNode es => forallb (sat_entry m) es end
with sat_entry (m : meta) (e : fentry) : bool :=
  match e with
  | FAnd ns => forallb (sat m) ns
  | FOr ns => existsb (sat m) ns
  | FNot n => negb (sat m n)
  | FScalar field v => bool_decide (m !! field = Some v)
  | FField field cs => forallb (cond_holds (m !! field)) cs
  end.

(** The concrete form of an abstract filter. *)
Definition ordop_name (o : ordop) : string :=
  match o with OpGt => "$gt" | OpGe => "$gte" | OpLt => "$lt" | OpLe => "$lte" end.

Definition cond_key (c : cond) : string :=
  match c with
  | CEq _ => "$eq" | CNe _ => "$ne" | CIn _ => "$in" | CNin _ => "$nin"
  | CExists _ => "$exists" | COrd o _ => ordop_name o
  end.
Definition cond_operand (c : cond) : pyval :=
  match c with
  | CEq v | CNe v | COrd _ v => PStr v
  | CIn vs | CNin vs => PTuple (map PStr vs)
  | CExists b => PBool b
  end.
Definition enc_cond (c : cond) : pyval * pyval := (PStr (cond_key c), cond_operand c).

Definition entry_key (e : fentry) : string :=
  match e with
  | FAnd _ => "$and" | FOr _ => "$or" | FNot _ => "$not"
  | FScalar field _ | FField field _ => field
  end.

Fixpoint enc (n : fnode) : pyval :=
  match n with FNode es => PDict (map (λ e, (PStr (entry_key e), enc_spec e)) es) end
with enc_spec (e : fentry) : pyval :=
  match e with
  | FAnd ns | FOr ns => PList (map enc ns)
  | FNot n => enc n
  | FScalar _ v => PStr v
  | FField _ cs => PDict (map enc_cond cs)
  end.

(** The grammar's side conditions, [d] being the depth of the node. *)
Definition field_ok (field : string) : bool :=
  negb (is_blank field) && negb (startswith "$" field).
Definition cond_ok (c : cond) : bool :=
  match c with CIn vs | CNin vs => negb (bool_decide (vs = [])) | _ => true end.

Definition distinct (l : list string) : bool := bool_decide (NoDup l).
Definition nonempty {A} (l : list A) : bool := match l with [] => false | _ => true end.

Fixpoint wf (d : Z) (n : fnode) : bool :=
  match n with
  | FNode es =>
      (d <=? MAX_DEPTH) && nonempty es && distinct (map entry_key es) && forallb (wf_entry d) es
  end
with wf_entry (d : Z) (e : fentry) : bool :=
  match e with
  | FAnd ns | FOr ns => nonempty ns && forallb (wf (d + 1)) ns
  | FNot n => wf (d + 1) n
  | FScalar field _ => field_ok field
  | FField field cs =>
      field_ok field && nonempty cs && distinct (map cond_key cs) && forallb cond_ok cs
  end.

(** ** Induction on abstract filters *)

Section fnode_ind.
Context (P : fnode → Prop) (Q : fentry → Prop).
Context (Hnode : ∀ es, Forall Q es → P (FNode es)).
Context (Hand : ∀ ns, Forall P ns → Q (FAnd ns)) (Hor : ∀ ns, Forall P ns → Q (FOr ns)).
Context (Hnot : ∀ n, P n → Q (FNot n)) (Hscalar : ∀ f v, Q (FScalar f v)).
Context (Hfield : ∀ f cs, Q (FField f cs)).

Fixpoint fnode_deep_ind (n : fnode) : P n :=
  match n with
  | FNode es => Hnode es ((fix go es : Forall Q es :=
      match es with
      | [] => List.Forall_nil Q
      | e :: es => List.Forall_cons Q e es (fentry_deep_ind e) (go es)
      end) es)
  end
with fentry_deep_ind (e : fentry) : Q e :=
  match e with
  | FAnd ns => Hand ns ((fix go ns : Forall P ns :=
      match ns with
      | [] => List.Forall_nil P
      | n :: ns => List.Forall_cons P n ns (fnode_deep_ind n) (go ns)
      end) ns)
  | FOr ns => Hor ns ((fix go ns : Forall P ns :=
      match ns with
      | [] => List.Forall_nil P
      | n :: ns => List.Forall_cons P n ns (fnode_deep_ind n) (go ns)
      end) ns)
  | FNot n => Hnot n (fnode_deep_ind n)
  | FScalar f v => Hscalar f v
  | FField f cs => Hfield f cs
  end.
End fnode_ind.

(** ** Compilation decides satisfaction *)

(** [p] computes [g], without raising. *)
Definition computes (p : pred) (g : meta → bool) : Prop := ∀ m, p m = Ok (g m).

Lemma all_of_computes {X} (g : meta → X → bool) (xs : list X) ps m :
  Forall2 (λ x p, computes p (λ m, g m x)) xs ps → all_of m ps = Ok (forallb (g m) xs).
Proof.
  induction 1 as [|x p xs ps Hp _ IH]; simpl; [done|]. rewrite Hp. simpl.
  by destruct (g m x).
Qed.

Lemma any_of_computes {X} (g : meta → X → bool) (xs : list X) ps m :
  Forall2 (λ x p, computes p (λ m, g m x)) xs ps → any_of m ps = Ok (existsb (g m) xs).
Proof.
  induction 1 as [|x p xs ps Hp _ IH]; simpl; [done|]. rewrite Hp. simpl.
  by destruct (g m x).
Qed.

Lemma compile_all_computes {X} (g : meta → X → bool) (xs : list X) ps :
  Forall2 (λ x p, computes p (λ m, g m x)) xs ps →
  computes (compile_all ps) (λ m, forallb (g m) xs).
Proof.
  intros H m. pose proof (all_of_computes g xs ps m H) as Ha.
  destruct H as [|x p xs ps Hp H]; [done|]. destruct H; [|exact Ha].
  simpl. rewrite Hp. by rewrite andb_true_r.
Qed.

Lemma as_number_str s : as_number (PStr s) = Ok (number_of s).
Proof. unfold as_number, number_of. simpl. by destruct (parse_float s). Qed.

Lemma compile_ordered_computes field o v :
  ∃ p, compile_ordered (PStr field) (ordop_name o) (PStr v) = Ok p ∧
       computes p (λ m, cond_holds (m !! field) (COrd o v)).
Proof.
  assert (ordered_cmp (ordop_name o) = Some o) as Ho by (by destruct o).
  unfold compile_ordered. rewrite Ho, as_number_str. cbn [mbind result_bind].
  destruct (number_of v) as [y|] eqn:Ev; eexists; (split; [done|]); intros m; unfold stored_at;
    cbn [cond_holds]; destruct (m !! field) as [s|] eqn:Em; try done;
    rewrite ?as_number_str; cbn [mbind result_bind]; unfold ord_holds; rewrite Ev;
    by destruct (number_of s).
Qed.

Lemma stored_eq_spec stored v : stored_eq stored (PStr v) = bool_decide (stored = Some v).
Proof.
  unfold stored_eq. destruct stored as [s|]; [|by rewrite bool_decide_eq_false_2].
  apply bool_decide_ext. split; [by intros -> | by intros [= ->]].
Qed.

Lemma stored_in_spec stored vs :
  existsb (stored_eq stored) (map PStr vs)
    = match stored with Some s => bool_decide (s ∈ vs) | None => false end.
Proof.
  induction vs as [|v vs IH]; [by destruct stored|]. simpl existsb.
  rewrite IH, stored_eq_spec. destruct stored as [s|]; [|by rewrite bool_decide_eq_false_2].
  rewrite <-bool_decide_or. apply bool_decide_ext. rewrite elem_of_cons. naive_solver.
Qed.

Lemma compile_cond_computes field c :
  ∃ p, compile_operator (PStr field) (PStr (cond_key c)) (cond_operand c) = Ok p ∧
       computes p (λ m, cond_holds (m !! field) c).
Proof.
  destruct c as [v|v|vs|vs|b|o v].
  5: destruct b.
  7: { destruct (compile_ordered_computes field o v) as (p & Hp & Hc).
       exists p. split; [|done]. simpl. by destruct o. }
  all: eexists; (split; [reflexivity|]); intros m; unfold stored_at; simpl;
    rewrite ?stored_eq_spec, ?stored_in_spec; try done; by destruct (m !! field).
Qed.

Lemma field_ok_not_logical k :
  field_ok k = true → str_in k LOGICAL_OPERATORS = false ∧ is_blank k = false ∧ startswith "$" k = false.
Proof.
  unfold field_ok. intros [Hb Hd]%andb_prop. apply negb_true_iff in Hb, Hd. split_and!; try done.
  apply bool_decide_eq_false_2. unfold LOGICAL_OPERATORS. rewrite !elem_of_cons.
  intros [->|[->|[->|H]]]; [done..|]. by apply elem_of_nil in H.
Qed.

Lemma key_is_str k k' v : key_is k (PStr k', v) = bool_decide (k' = k).
Proof. done. Qed.

(** A field entry takes none of the logical branches of [compile_node]. *)
Lemma compile_field_key k (v : pyval) :
  field_ok k = true →
  key_is "$and" (PStr k, v) = false ∧ key_is "$or" (PStr k, v) = false ∧ key_is "$not" (PStr k, v) = false.
Proof.
  intros (Hl & _)%field_ok_not_logical. apply bool_decide_eq_false_1 in Hl.
  rewrite !key_is_str. split_and!; apply bool_decide_eq_false_2; intros ->; apply Hl; set_solver.
Qed.

Lemma compile_each_computes (g : meta → fnode → bool) ns :
  Forall (λ n, ∃ p, compile_node (enc n) = Ok p ∧ computes p (λ m, g m n)) ns →
  ∃ ps, compile_each compile_node (PList (map enc ns)) = Ok ps ∧
        Forall2 (λ n p, computes p (λ m, g m n)) ns ps.
Proof. intros H. cbn [compile_each]. rewrite mapR_map. by apply mapR_exists. Qed.

Lemma Forall_wf_impl d ns (P : fnode → Prop) :
  forallb (wf d) ns = true → Forall (λ n, ∀ d, wf d n = true → P n) ns → Forall P ns.
Proof.
  intros Hw H. rewrite Forall_forall in H |- *. rewrite forallb_forall in Hw.
  intros n Hn. eapply H; [done|]. by apply Hw, list_elem_of_In.
Qed.

(** The body of the loop of [compile_node], on one entry. *)
Definition compile_entry (kv : pyval * pyval) : result pred :=
  if key_is "$and" kv then compile_all <$> compile_each compile_node kv.2
  else if key_is "$or" kv then compile_any <$> compile_each compile_node kv.2
  else if key_is "$not" kv then compile_not <$> compile_node kv.2
  else compile_field kv.1 kv.2.

Lemma compile_node_dict d : compile_node (PDict d) = compile_all <$> mapR compile_entry d.
Proof. done. Qed.

Lemma compile_enc n d : wf d n = true →
  ∃ p, compile_node (enc n) = Ok p ∧ computes p (λ m, sat m n).
Proof.
  revert n d.
  refine (fnode_deep_ind (λ n, ∀ d, wf d n = true →
      ∃ p, compile_node (enc n) = Ok p ∧ computes p (λ m, sat m n))
    (λ e, ∀ d, wf_entry d e = true → ∃ p,
      compile_entry (PStr (entry_key e), enc_spec e) = Ok p ∧ computes p (λ m, sat_entry m e)) _ _ _ _ _ _).
  - intros es IH d Hw. cbn [wf] in Hw. repeat (apply andb_prop in Hw as [Hw ?]).
    cbn [enc]. rewrite compile_node_dict, mapR_map.
    destruct (mapR_exists (λ e, compile_entry (PStr (entry_key e), enc_spec e)) (λ e p, computes p (λ m, sat_entry m e)) es) as (ps & Hps & HF).
    2: { exists (compile_all ps). rewrite Hps. split; [done|]. by apply compile_all_computes. }
    rewrite Forall_forall in IH |- *. intros e He. eapply IH; [done|].
    rewrite forallb_forall in H. by apply H, list_elem_of_In.
  - intros ns IH d Hw. cbn [wf_entry] in Hw. apply andb_prop in Hw as [_ Hw].
    destruct (compile_each_computes sat ns) as (ps & Hps & HF); [by eapply Forall_wf_impl|].
    exists (compile_all ps). unfold compile_entry. simpl in *. rewrite Hps. split; [done|]. by apply compile_all_computes.
  - intros ns IH d Hw. cbn [wf_entry] in Hw. apply andb_prop in Hw as [_ Hw].
    destruct (compile_each_computes sat ns) as (ps & Hps & HF); [by eapply Forall_wf_impl|].
    exists (compile_any ps). unfold compile_entry. simpl in *. rewrite Hps. split; [done|]. intros m.
    by apply any_of_computes.
  - intros n IH d Hw. cbn [wf_entry] in Hw. destruct (IH _ Hw) as (p & Hp & Hc).
    exists (compile_not p). unfold compile_entry. simpl. rewrite Hp. split; [done|]. intros m. unfold compile_not.
    by rewrite Hc.
  - intros f v d Hw. cbn [wf_entry] in Hw. cbn [entry_key enc_spec]. unfold compile_entry.
    destruct (compile_field_key f (PStr v) Hw) as (-> & -> & ->).
    eexists. split; [reflexivity|]. intros m. cbn [snd fst stored_at sat_entry].
    by rewrite stored_eq_spec.
  - intros f cs d Hw. cbn [wf_entry] in Hw. do 3 (apply andb_prop in Hw as [Hw ?]).
    cbn [entry_key enc_spec]. unfold compile_entry.
    destruct (compile_field_key f (PDict (map enc_cond cs)) Hw) as (-> & -> & ->).
    cbn [fst snd compile_field]. rewrite mapR_map.
    destruct (mapR_exists (λ c, compile_operator (PStr f) (PStr (cond_key c)) (cond_operand c))
      (λ c p, computes p (λ m, cond_holds (m !! f) c)) cs) as (ps & Hps & HF).
    { apply Forall_forall. intros c _. apply compile_cond_computes. }
    exists (compile_all ps). unfold compile_entry. simpl in *. rewrite Hps. split; [done|].
    by apply (compile_all_computes (λ m c, cond_holds (m !! f) c)).
Qed.

(** ** Validation accepts encodings of abstract filters only *)

Section walk_lemmas.
Context (stringify : pyval → result string).

(** The loop bodies of [walk] and [walk_field]. *)
Definition walk_entry (depth : Z) (result : pydict) (kv : pyval * pyval) : Prelude.result pydict :=
  match kv.1 with
  | PStr key =>
      if is_blank key then raise ValueError "filter keys must be non-blank strings"
      else if str_in key LOGICAL_OPERATORS then
        v ← walk_logical (walk stringify (depth + 1)) key kv.2;
        Ok (dict_set key v result)
      else if startswith "$" key then
        raise ValueError ("unsupported filter operator " +:+ str_repr key +:+ " at field level")
      else
        v ← walk_field stringify key kv.2;
        Ok (dict_set key v result)
  | _ => raise ValueError "filter keys must be non-blank strings"
  end.

Definition walk_op (field : string) (operators : pydict) (kv : pyval * pyval) : result pydict :=
  match kv.1 with
  | PStr op =>
      if str_in op COMPARISON_OPERATORS then
        v ← validate_operand stringify field op kv.2;
        Ok (dict_set op v operators)
      else raise ValueError ("unsupported operator " +:+ str_repr op +:+ " for field "
                               +:+ str_repr field)
  | op => raise ValueError ("unsupported operator " +:+ py_repr op +:+ " for field "
                              +:+ str_repr field)
  end.

Lemma walk_dict depth kv d : depth <= MAX_DEPTH →
  walk stringify depth (PDict (kv :: d)) = PDict <$> foldR (walk_entry depth) [] (kv :: d).
Proof. intros H. cbn [walk]. destruct (Z.gtb_spec depth MAX_DEPTH); [lia|]. done. Qed.

Lemma walk_Ok_inv depth v v' : walk stringify depth v = Ok v' →
  depth <= MAX_DEPTH ∧ ∃ kv d, v = PDict (kv :: d).
Proof.
  destruct v as [| | | | | | |[|kv d]|]; cbn [walk]; destruct (Z.gtb_spec depth MAX_DEPTH);
    try done; eauto.
Qed.

Lemma walk_field_dict field kv d :
  walk_field stringify field (PDict (kv :: d)) = PDict <$> foldR (walk_op field) [] (kv :: d).
Proof. done. Qed.

Lemma scalar_Ok field v v' : scalar stringify field v = Ok v' → ∃ s, v' = PStr s.
Proof. destruct v; simpl; intros H; res_inv; eauto; done. Qed.

Lemma scalars_Ok field l l' : mapR (scalar stringify field) l = Ok l' →
  ∃ ss, l' = map PStr ss ∧ length ss = length l.
Proof.
  revert l'; induction l as [|v l IH]; intros l'; simpl; intros H; res_inv; [by exists []|].
  destruct (IH _ H1) as (ss & -> & Hl). apply scalar_Ok in H0 as (s & ->).
  exists (s :: ss). simpl. auto.
Qed.

(** A validated operand is the operand of a well-formed condition. *)
Lemma validate_operand_Ok field op v v' :
  str_in op COMPARISON_OPERATORS = true → validate_operand stringify field op v = Ok v' →
  ∃ c, cond_ok c = true ∧ op = cond_key c ∧ v' = cond_operand c.
Proof.
  intros Hop H. apply bool_decide_eq_true_1 in Hop. unfold validate_operand in H.
  unfold COMPARISON_OPERATORS, ORDERED_OPERATORS in Hop. simpl in Hop. rewrite !elem_of_cons in Hop.
  assert (∀ c, scalar stringify field v = Ok v' → (∀ s, cond_ok (c s) = true ∧ op = cond_key (c s) ∧
    PStr s = cond_operand (c s)) → ∃ c, cond_ok c = true ∧ op = cond_key c ∧ v' = cond_operand c) as Hsc.
  { intros c (s & ->)%scalar_Ok Hc. exists (c s). apply Hc. }
  assert (∀ c l, PTuple <$> mapR (scalar stringify field) l = Ok v' → l ≠ [] →
    (∀ ss, ss ≠ [] → cond_ok (c ss) = true ∧ op = cond_key (c ss) ∧
    PTuple (map PStr ss) = cond_operand (c ss)) →
    ∃ c, cond_ok c = true ∧ op = cond_key c ∧ v' = cond_operand c) as Hin.
  { intros c l (l' & (ss & -> & Hl)%scalars_Ok & ->)%fmap_Ok Hne Hc. exists (c ss). apply Hc.
    intros ->. by destruct l. }
  destruct Hop as [->|[->|[->|[->|[->|[->|[->|[->|[->|Hop]]]]]]]]].
  - apply (Hsc CEq); [done|]. auto.
  - apply (Hsc CNe); [done|]. auto.
  - destruct v as [| | | | |[|x l]|[|x l]| |]; try done; apply (Hin CIn) in H; try done;
      intros ss Hss; simpl; by rewrite bool_decide_eq_false_2.
  - destruct v as [| | | | |[|x l]|[|x l]| |]; try done; apply (Hin CNin) in H; try done;
      intros ss Hss; simpl; by rewrite bool_decide_eq_false_2.
  - destruct v; try done. injection H as <-. by exists (CExists b).
  - apply (Hsc (COrd OpGt)); [done|]. auto.
  - apply (Hsc (COrd OpGe)); [done|]. auto.
  - apply (Hsc (COrd OpLt)); [done|]. auto.
  - apply (Hsc (COrd OpLe)); [done|]. auto.
  - by apply elem_of_nil in Hop.
Qed.

Lemma walk_field_Ok field v v' : field_ok field = true → walk_field stringify field v = Ok v' →
  ∃ e, wf_entry 0 e = true ∧ (∀ d, wf_entry d e = wf_entry 0 e) ∧ entry_key e = field ∧ v' = enc_spec e.
Proof.
  intros Hf H. assert (scalar stringify field v = Ok v' → ∃ e, wf_entry 0 e = true ∧
    (∀ d, wf_entry d e = wf_entry 0 e) ∧ entry_key e = field ∧ v' = enc_spec e) as Hsc.
  { intros (s & ->)%scalar_Ok. by exists (FScalar field s). }
  destruct v as [| | | | | | |[|kv d]|]; try exact (Hsc H).
  - discriminate H.
  - rewrite walk_field_dict in H. apply fmap_Ok in H as (ops & H & ->).
    edestruct (foldR_build cond_key cond_operand (walk_op field) (λ c, cond_ok c = true)
      (kv :: d) [] ops) as (cs & -> & Hnd & Hall & Hne); [|constructor..|exact H|].
    { intros acc [k x] acc' _ Hs. unfold walk_op in Hs. cbn [fst snd] in Hs.
      destruct k; try done. destruct (str_in s _) eqn:Hop; [|done]. res_inv.
      eapply validate_operand_Ok in H0 as (c & ? & -> & ->); eauto. }
    exists (FField field cs). assert (wf_entry 0 (FField field cs) = true) as Hw; [|by split_and!].
    cbn [wf_entry]. rewrite Hf. assert (cs ≠ []) as Hcs by (apply Hne; by left).
    rewrite (bool_decide_eq_true_2 _ Hnd : distinct _ = true).
    assert (nonempty cs = true) as -> by (by destruct cs). simpl.
    apply forallb_forall. intros c Hc%list_elem_of_In. rewrite Forall_forall in Hall. auto.
Qed.

Lemma wf_node_intro depth es : depth <= MAX_DEPTH → es ≠ [] → NoDup (map entry_key es) →
  Forall (λ e, wf_entry depth e = true) es → wf depth (FNode es) = true.
Proof.
  intros Hd Hne Hnd Hall. cbn [wf]. rewrite (bool_decide_eq_true_2 _ Hnd : distinct _ = true).
  assert (nonempty es = true) as -> by (by destruct es).
  assert (forallb (wf_entry depth) es = true) as ->.
  { apply forallb_forall. intros e He%list_elem_of_In. rewrite Forall_forall in Hall. auto. }
  rewrite !andb_true_r. by apply Z.leb_le.
Qed.

Lemma walk_nodes_Ok depth l l' :
  Forall (λ v, ∀ depth v', walk stringify depth v = Ok v' → ∃ n, v' = enc n ∧ wf depth n = true) l →
  mapR (walk stringify depth) l = Ok l' →
  ∃ ns, l' = map enc ns ∧ forallb (wf depth) ns = true ∧ length ns = length l.
Proof.
  intros HF; revert l'. induction HF as [|v l Hv _ IH]; intros l'; simpl; intros H; res_inv.
  - by exists [].
  - destruct (IH _ H1) as (ns & -> & Hns & ?). destruct (Hv _ _ H0) as (n & -> & Hn).
    exists (n :: ns). simpl. rewrite Hn, Hns. auto.
Qed.

(** The elements of a node's value that [walk] recurses into satisfy [P]. *)
Definition below (P : pyval → Prop) (v : pyval) : Prop :=
  P v ∧ match v with PList l => Forall P l | _ => True end.

Lemma walk_logical_Ok depth op v v' :
  str_in op LOGICAL_OPERATORS = true →
  below (λ v, ∀ depth v', walk stringify depth v = Ok v' → ∃ n, v' = enc n ∧ wf depth n = true) v →
  walk_logical (walk stringify (depth + 1)) op v = Ok v' →
  ∃ e, wf_entry depth e = true ∧ entry_key e = op ∧ v' = enc_spec e.
Proof.
  intros Hop [Hv Hl] H. unfold walk_logical in H. case_bool_decide as Hnot.
  - subst op. apply Hv in H as (n & -> & Hn). by exists (FNot n).
  - destruct v as [| | | | |[|x l]| | |]; try done. apply fmap_Ok in H as (l' & H & ->).
    apply walk_nodes_Ok in H as (ns & -> & Hns & Hlen); [|done].
    assert (nonempty ns && forallb (wf (depth + 1)) ns = true) as Hw by (destruct ns; by try rewrite Hns).
    apply bool_decide_eq_true_1 in Hop. unfold LOGICAL_OPERATORS in Hop. rewrite !elem_of_cons in Hop.
    destruct Hop as [->|[->|[->|Hop]]]; [by exists (FAnd ns)|by exists (FOr ns)|done|].
    by apply elem_of_nil in Hop.
Qed.

Lemma below_intro (P : pyval → Prop) v :
  P v → (∀ l, v = PList l → Forall P l) → below P v.
Proof. intros ? H. split; [done|]. destruct v; auto. Qed.

(** What [walk] returns is the encoding of a well-formed filter. *)
Lemma walk_sound v depth v' : walk stringify depth v = Ok v' →
  ∃ n, v' = enc n ∧ wf depth n = true.
Proof.
  enough (below (λ v, ∀ depth v', walk stringify depth v = Ok v' →
    ∃ n, v' = enc n ∧ wf depth n = true) v) as [Hv _] by apply Hv.
  clear depth v'. revert v.
  refine (pyval_deep_ind _ _ _ _ _ _ _ _ _ _);
    try (intros; apply below_intro; [|done]; intros depth v' H;
         by apply walk_Ok_inv in H as (_ & ? & ? & ?)).
  - intros l IH. split.
    2: { eapply Forall_impl; [exact IH|]. by intros v [??]. }
    intros depth v' H. by apply walk_Ok_inv in H as (_ & ? & ? & ?).
  - intros l IH. split; [|done].
    intros depth v' H. by apply walk_Ok_inv in H as (_ & ? & ? & ?).
  - intros d IH. split; [|done]. intros depth v' H.
    destruct (walk_Ok_inv _ _ _ H) as (Hd & kv & d' & [= ->]).
    rewrite walk_dict in H by done. apply fmap_Ok in H as (acc & H & ->).
    edestruct (foldR_build entry_key enc_spec (walk_entry depth) (λ e, wf_entry depth e = true)
      (kv :: d') [] acc) as (es & -> & Hnd & Hall & Hne); [|constructor..|exact H|].
    + intros acc0 [k x] acc' Hin Hs. rewrite Forall_forall in IH. specialize (IH _ Hin) as [_ IH].
      unfold walk_entry in Hs. cbn [fst snd] in Hs, IH. destruct k; try done.
      destruct (is_blank s) eqn:Hb; [done|]. destruct (str_in s _) eqn:Hl.
      * res_inv. apply walk_logical_Ok in H0 as (e & ? & <- & ->); eauto.
      * destruct (startswith "$" s) eqn:Hs0; [done|]. res_inv.
        apply walk_field_Ok in H0 as (e & ? & Hdep & <- & ->).
        -- exists e. by rewrite Hdep.
        -- unfold field_ok. by rewrite Hb, Hs0.
    + exists (FNode es). split; [done|]. apply wf_node_intro; [done|by apply Hne; left|done|done].
Qed.

(** ** Every rejection is a [ValueError] *)

Context (Herr : ∀ v e, stringify v = Err e → exn_class e = ValueError).

Lemma scalar_Err field v e : scalar stringify field v = Err e → exn_class e = ValueError.
Proof using Herr.
  destruct v; simpl; try (intros H%fmap_Err; by eapply Herr); by intros [= <-].
Qed.

Lemma validate_operand_Err field op v e :
  validate_operand stringify field op v = Err e → exn_class e = ValueError.
Proof using Herr.
  assert (∀ l, PTuple <$> mapR (scalar stringify field) l = Err e → exn_class e = ValueError) as Hl.
  { intros l (x & _ & H)%fmap_Err%mapR_Err. by eapply scalar_Err. }
  unfold validate_operand. repeat case_match; try (by intros [= <-]); try apply Hl; apply scalar_Err.
Qed.

Lemma walk_field_Err field v e : walk_field stringify field v = Err e → exn_class e = ValueError.
Proof using Herr.
  destruct v as [| | | | | | |[|kv d]|]; try apply scalar_Err; [by intros [= <-]|].
  rewrite walk_field_dict. intros (acc & [k x] & _ & H)%fmap_Err%foldR_Err.
  unfold walk_op in H. cbn [fst snd] in H. destruct k; try by injection H as <-.
  destruct (str_in s _); [|by injection H as <-].
  apply bind_Err in H as [H|(? & _ & ?)]; [by eapply validate_operand_Err|done].
Qed.

Lemma walk_Err v depth e : walk stringify depth v = Err e → exn_class e = ValueError.
Proof using Herr.
  enough (below (λ v, ∀ depth e, walk stringify depth v = Err e → exn_class e = ValueError) v)
    as [Hv _] by apply Hv.
  clear depth e. revert v.
  assert (∀ v, (∀ kv d, v ≠ PDict (kv :: d)) → ∀ depth e, walk stringify depth v = Err e →
    exn_class e = ValueError) as Hflat.
  { intros v Hv depth e. destruct v as [| | | | | | |[|kv d]|]; cbn [walk];
      destruct (depth >? MAX_DEPTH); try (by intros [= <-]). by destruct (Hv kv d). }
  refine (pyval_deep_ind _ _ _ _ _ _ _ _ _ _); try (intros; split; [by apply Hflat|done]).
  - intros l IH. split; [by apply Hflat|]. eapply Forall_impl; [exact IH|]. by intros v [??].
  - intros d IH. split; [|done]. intros depth e. destruct d as [|kv d]; [by apply Hflat|].
    destruct (Z_le_gt_dec depth MAX_DEPTH) as [Hd|Hd].
    2: { cbn [walk]. destruct (Z.gtb_spec depth MAX_DEPTH); [by intros [= <-]|lia]. }
    rewrite walk_dict by done. intros (acc & [k x] & Hin & H)%fmap_Err%foldR_Err.
    rewrite Forall_forall in IH. destruct (IH _ Hin) as [_ [IHv IHl]].
    unfold walk_entry in H. cbn [fst snd] in *. destruct k; try by injection H as <-.
    destruct (is_blank s); [by injection H as <-|]. destruct (str_in s _).
    + apply bind_Err in H as [H|(? & _ & ?)]; [|done]. unfold walk_logical in H.
      case_bool_decide; [by eapply IHv|]. destruct x as [| | | | |[|y l]| | |]; try by injection H as <-.
      apply fmap_Err, mapR_Err in H as (z & Hz & H). rewrite Forall_forall in IHl. by eapply IHl.
    + destruct (startswith "$" s); [by injection H as <-|].
      apply bind_Err in H as [H|(? & _ & ?)]; [by eapply walk_field_Err|done].
Qed.

(** ** Canonical filters are fixed points *)

Context (Hstr : ∀ s, stringify (PStr s) = Ok s).

Lemma scalar_str field s : scalar stringify field (PStr s) = Ok (PStr s).
Proof using Hstr. simpl. by rewrite Hstr. Qed.

Lemma scalars_str field ss : mapR (scalar stringify field) (map PStr ss) = Ok (map PStr ss).
Proof using Hstr.
  induction ss as [|s ss IH]; [done|]. cbn [map mapR]. rewrite scalar_str. cbn [mbind result_bind].
  by rewrite IH.
Qed.

Lemma validate_operand_cond field c : cond_ok c = true →
  validate_operand stringify field (cond_key c) (cond_operand c) = Ok (cond_operand c).
Proof using Hstr.
  intros Hc. destruct c as [v|v|vs|vs|b|[] v]; try apply scalar_str; [| |done].
  all: destruct vs as [|v vs]; [done|]; pose proof (scalars_str field (v :: vs)) as E;
    unfold validate_operand; simpl in E |- *; by rewrite E.
Qed.

Lemma walk_field_enc field cs : forallb cond_ok cs = true → nonempty cs = true →
  NoDup (map cond_key cs) → walk_field stringify field (PDict (map enc_cond cs)) = Ok (PDict (map enc_cond cs)).
Proof using Hstr.
  intros Hok Hne Hnd. destruct cs as [|c cs]; [done|]. unfold enc_cond. cbn [map].
  rewrite walk_field_dict.
  pose proof (foldR_build_id cond_key cond_operand (walk_op field) [] (c :: cs)) as E.
  cbn [enc_items map app] in E. rewrite E; [done| |done].
  intros acc x Hx. unfold walk_op. cbn [fst snd].
  assert (str_in (cond_key x) COMPARISON_OPERATORS = true) as -> by (by destruct x as [| | | | |[]]).
  rewrite validate_operand_cond; [done|]. rewrite forallb_forall in Hok. by apply Hok, list_elem_of_In.
Qed.

Lemma walk_nodes_enc depth ns :
  Forall (λ n, ∀ depth, wf depth n = true → walk stringify depth (enc n) = Ok (enc n)) ns →
  forallb (wf depth) ns = true → mapR (walk stringify depth) (map enc ns) = Ok (map enc ns).
Proof.
  induction 1 as [|n ns Hn _ IH]; [done|]. cbn [forallb map mapR]. intros [Hw Hws]%andb_prop.
  rewrite Hn by done. simpl. by rewrite IH.
Qed.

Lemma walk_enc n depth : wf depth n = true → walk stringify depth (enc n) = Ok (enc n).
Proof using Hstr.
  revert n depth.
  refine (fnode_deep_ind (λ n, ∀ depth, wf depth n = true → walk stringify depth (enc n) = Ok (enc n))
    (λ e, ∀ depth acc, wf_entry depth e = true →
       walk_entry depth acc (PStr (entry_key e), enc_spec e) = Ok (dict_set (entry_key e) (enc_spec e) acc))
    _ _ _ _ _ _).
  - intros es IH depth Hw. cbn [wf] in Hw. repeat (apply andb_prop in Hw as [Hw ?]).
    apply Z.leb_le in Hw. apply bool_decide_eq_true_1 in H0. destruct es as [|e es]; [done|].
    cbn [enc map]. rewrite walk_dict by done.
    pose proof (foldR_build_id entry_key enc_spec (walk_entry depth) [] (e :: es)) as E.
    cbn [enc_items map app] in E. rewrite E; [done| |done].
    intros acc x Hx. rewrite Forall_forall in IH. apply IH; [done|].
    rewrite forallb_forall in H. by apply H, list_elem_of_In.
  - intros ns IH depth acc Hw. cbn [wf_entry] in Hw. apply andb_prop in Hw as [Hne Hw].
    destruct ns as [|n ns]; [done|]. pose proof (walk_nodes_enc _ _ IH Hw) as E.
    unfold walk_entry, walk_logical. simpl in E |- *. by rewrite E.
  - intros ns IH depth acc Hw. cbn [wf_entry] in Hw. apply andb_prop in Hw as [Hne Hw].
    destruct ns as [|n ns]; [done|]. pose proof (walk_nodes_enc _ _ IH Hw) as E.
    unfold walk_entry, walk_logical. simpl in E |- *. by rewrite E.
  - intros n IH depth acc Hw. cbn [wf_entry] in Hw. unfold walk_entry, walk_logical. simpl.
    by rewrite IH.
  - intros f v depth acc Hw. cbn [wf_entry] in Hw.
    destruct (field_ok_not_logical f Hw) as (Hl & Hb & Hs). unfold walk_entry. cbn [fst snd entry_key enc_spec].
    rewrite Hb, Hl, Hs. unfold walk_field. by rewrite scalar_str.
  - intros f cs depth acc Hw. cbn [wf_entry] in Hw. do 3 (apply andb_prop in Hw as [Hw ?]).
    apply bool_decide_eq_true_1 in H0.
    destruct (field_ok_not_logical f Hw) as (Hl & Hb & Hs). unfold walk_entry. cbn [fst snd entry_key enc_spec].
    rewrite Hb, Hl, Hs. by rewrite walk_field_enc.
Qed.
End walk_lemmas.

Lemma engine_stringify_str s : engine_stringify (PStr s) = Ok s.
Proof. done. Qed.
Lemma sdk_stringify_str s : sdk_stringify (PStr s) = Ok s.
Proof. done. Qed.
Lemma engine_stringify_Err v e : engine_stringify v = Err e → exn_class e = ValueError.
Proof. destruct v; simpl; try done; by intros [= <-]. Qed.
Lemma sdk_stringify_Err v e : sdk_stringify v = Err e → exn_class e = ValueError.
Proof. destruct v; simpl; try done; by intros [= <-]. Qed.

Lemma validate_walk v v' :
  validate_metadata_filter v = Ok v' ↔ walk engine_stringify 0 v = Ok v'.
Proof.
  split.
  - destruct v as [| | | | | | |[|kv d]|]; done.
  - intros H. destruct (walk_Ok_inv _ _ _ _ H) as (_ & kv & d & ->). exact H.
Qed.

(** ** Totality of the ordered operators *)

Lemma number_of_not_nan s x : number_of s = Some x → is_nan x = false.
Proof. unfold number_of. repeat case_match; intros; simplify_eq; done. Qed.

Definition dual (o : ordop) : ordop :=
  match o with OpGt => OpLe | OpLe => OpGt | OpGe => OpLt | OpLt => OpGe end.

Lemma cmp_str_dual o s t : cmp_str (dual o) s t = negb (cmp_str o s t).
Proof. destruct o; simpl; rewrite ?str_ltb_leb, ?negb_involutive; done. Qed.

Lemma cmp_float_dual o x y : is_nan x = false → is_nan y = false →
  cmp_float (dual o) x y = negb (cmp_float o x y).
Proof. intros. destruct o; simpl; rewrite ?fltb_negb_fleb, ?negb_involutive by done; done. Qed.

Lemma ord_holds_dual o s t : ord_holds (dual o) s t = negb (ord_holds o s t).
Proof.
  unfold ord_holds. destruct (number_of s) as [x|] eqn:Es, (number_of t) as [y|] eqn:Et;
    try apply cmp_str_dual. apply cmp_float_dual; by eapply number_of_not_nan.
Qed.

(** ** The properties *)

(** C9: a filter that passes validation is the concrete form of an abstract filter of the
    documented grammar, nested at most [MAX_DEPTH] deep; it compiles, and the compiled
    predicate never raises and decides exactly the satisfaction relation, on every stored
    metadata map. *)
Theorem validated_filter_compiles_to_semantics v v' :
  validate_metadata_filter v = Ok v' →
  ∃ n p, v' = enc n ∧ wf 0 n = true ∧ compile_metadata_filter v' = Ok p ∧
         ∀ m, p m = Ok (sat m n) ∧ matches_metadata_filter m v' = Ok (sat m n).
Proof.
  intros (n & -> & Hn)%validate_walk%walk_sound. destruct (compile_enc n 0 Hn) as (p & Hp & Hc).
  exists n, p. split_and!; try done. intros m. split; [done|].
  unfold matches_metadata_filter. rewrite Hp. apply Hc.
Qed.

Definition sample_filter : pyval :=
  dict_of [("year", dict_of [("$gte", PInt 2000); ("$in", PList [PInt 1999; PInt 2024])]);
           ("$or", PList [dict_of [("draft", PBool true)]; dict_of [("$not", dict_of [("tag", PStr "x")])]])].

Lemma validated_filter_compiles_to_semantics_witness :
  ∃ v' n p, validate_metadata_filter sample_filter = Ok v' ∧ v' = enc n ∧
    compile_metadata_filter v' = Ok p ∧ p {["year" := "2024"; "draft" := "True"]} = Ok true.
Proof.
  destruct (validate_metadata_filter sample_filter) as [v'|e] eqn:E; [|by vm_compute in E].
  destruct (validated_filter_compiles_to_semantics sample_filter v' E) as (n & p & Hn & _ & Hp & Hs).
  exists v', n, p. split_and!; try done.
  destruct (Hs {["year" := "2024"; "draft" := "True"]}) as [H1 H2]. rewrite H1, <-H2.
  vm_compute in E. injection E as <-. by vm_compute.
Defined.

(** Validation accepts the whole grammar and nothing else: the values it returns are
    exactly the concrete forms of well-formed abstract filters. *)
Theorem validate_range v' :
  (∃ v, validate_metadata_filter v = Ok v') ↔ (∃ n, v' = enc n ∧ wf 0 n = true).
Proof.
  split.
  - intros (v & H). apply validate_walk in H. by apply walk_sound in H.
  - intros (n & -> & Hn). exists (enc n). apply validate_walk.
    by apply walk_enc; [apply engine_stringify_str|].
Qed.

(** canonical filters are fixed points of validation: validating the result of a
    validation, or of the SDK's coercion, changes nothing, so the engine's second pass over
    an SDK filter is the no-op the module promises. *)
Theorem second_pass_is_noop v v' :
  validate_metadata_filter v = Ok v' ∨ coerce_sdk_filter v = Ok v' →
  validate_metadata_filter v' = Ok v'.
Proof.
  intros [H|H]; [apply validate_walk in H|unfold coerce_sdk_filter in H];
    apply walk_sound in H as (n & -> & Hn); apply validate_walk;
    by apply walk_enc; [apply engine_stringify_str|].
Qed.

Lemma second_pass_is_noop_witness :
  ∃ v', coerce_sdk_filter sample_filter = Ok v' ∧ validate_metadata_filter v' = Ok v' ∧
        v' ≠ sample_filter.
Proof.
  destruct (coerce_sdk_filter sample_filter) as [v'|e] eqn:E; [|by vm_compute in E].
  exists v'. split; [done|]. split; [exact (second_pass_is_noop sample_filter v' (or_intror E))|].
  vm_compute in E. injection E as <-. by vm_compute.
Defined.

(** Validation and coercion fail only with [ValueError], whatever value they are given:
    no other exception class escapes the trust boundary. *)
Theorem rejections_are_value_errors v e :
  validate_metadata_filter v = Err e ∨ coerce_sdk_filter v = Err e → exn_class e = ValueError.
Proof.
  intros [H|H].
  - destruct v as [| | | | | | |[|kv d]|]; try by injection H as <-.
    by eapply walk_Err; [apply engine_stringify_Err|exact H].
  - by eapply walk_Err; [apply sdk_stringify_Err|exact H].
Qed.

Lemma rejections_are_value_errors_witness :
  ∃ e, validate_metadata_filter (dict_of [("a", dict_of [("$regex", PStr "x")])]) = Err e
       ∧ exn_class e = ValueError.
Proof.
  destruct (validate_metadata_filter (dict_of [("a", dict_of [("$regex", PStr "x")])])) as [v|e] eqn:E;
    [by vm_compute in E|].
  exists e. split; [done|]. exact (rejections_are_value_errors _ e (or_introl E)).
Defined.

(** the ordered operators are total on present keys: for any stored value and operand,
    numeric or not, [$lte] is the negation of [$gt] and [$lt] of [$gte]; and [$ne] and [$nin]
    are the negations of [$eq] and [$in], absent keys included. *)
Theorem operators_are_complementary field v vs s m :
  m !! field = Some s →
  (∀ o, ∃ p q b, compile_operator (PStr field) (PStr (ordop_name o)) (PStr v) = Ok p ∧
     compile_operator (PStr field) (PStr (ordop_name (dual o))) (PStr v) = Ok q ∧
     p m = Ok b ∧ q m = Ok (negb b)) ∧
  (∀ m', ∃ p q b, compile_operator (PStr field) (PStr "$eq") (PStr v) = Ok p ∧
     compile_operator (PStr field) (PStr "$ne") (PStr v) = Ok q ∧ p m' = Ok b ∧ q m' = Ok (negb b)) ∧
  (∀ m', ∃ p q b, compile_operator (PStr field) (PStr "$in") (PTuple (map PStr vs)) = Ok p ∧
     compile_operator (PStr field) (PStr "$nin") (PTuple (map PStr vs)) = Ok q ∧
     p m' = Ok b ∧ q m' = Ok (negb b)).
Proof.
  intros Hm. split_and!.
  - intros o. destruct (compile_cond_computes field (COrd o v)) as (p & Hp & Hpc).
    destruct (compile_cond_computes field (COrd (dual o) v)) as (q & Hq & Hqc).
    exists p, q, (ord_holds o s v). rewrite Hpc, Hqc. cbn [cond_holds]. rewrite Hm, ord_holds_dual.
    split_and!; done.
  - intros m'. by do 3 eexists.
  - intros m'. by do 3 eexists.
Qed.

Lemma operators_are_complementary_witness :
  ({["n" := "10"]} : meta) !! "n" = Some "10" ∧
  ∃ p q b, compile_operator (PStr "n") (PStr "$gt") (PStr "9") = Ok p ∧
     compile_operator (PStr "n") (PStr "$lte") (PStr "9") = Ok q ∧
     p {["n" := "10"]} = Ok b ∧ q {["n" := "10"]} = Ok (negb b).
Proof.
  split; [reflexivity|].
  exact (proj1 (operators_are_complementary "n" "9" [] "10" {["n" := "10"]} eq_refl) OpGt).
Defined.
