(* ===== verification/JournalStore.v ===== *)
(** * The document state journal ([src/src/lodedb/engine/state_journal_store.py])

    A base JSON snapshot plus ordered [.jsd] delta segments and the manifest that anchors
    them. The operations of [StateJournalStore] are translated one by one over the file
    system of [FileSys]; timings are left out. The specification is a map of documents with
    their chunk rows: replaying the journal is shown to refine applying the deltas to it,
    and appending a delta to be atomic at every point where the process can stop. *)

From Stdlib Require Import Ascii String ZArith Lia SpecFloat.
From stdpp Require Import base strings numbers sets gmap sorting list.
From S2P Require Import Prelude Numbers PyVal Bytes Json FileSys.

Local Open Scope Z_scope.

Definition STATE_JOURNAL_DIR_SUFFIX : string := ".json-delta".
Definition STATE_JOURNAL_MANIFEST_NAME : string := "manifest.json".
Definition STATE_JOURNAL_SEGMENT_SUFFIX : string := ".jsd".
Definition STATE_JOURNAL_MAGIC : bytes := "EEJSD001".
Definition STATE_JOURNAL_SCHEMA_VERSION : Z := 1.
Definition DEFAULT_MAX_DELTA_DOCUMENT_FRACTION : spec_float := fdiv (float_of_Z 1) (float_of_Z 4).
Definition DEFAULT_MAX_DELTA_SEGMENTS : Z := 64.
Definition STATE_HEADER_EXCLUDED_KEYS : list string :=
  ["chunks"; "document_hashes"; "document_chunk_ids"; "document_metadata"; "query_latency_ms"].

Record StateJournalWrite := SJWrite { file_name : string; file_bytes : Z; write_kind : string }.

Record StateJournalStore := SJStore { base_path : path; sj_fsync : bool }.

Module SJ.
Section store.
Context (st : StateJournalStore).

Definition journal_dir : path := with_name (base_path st) (pname (base_path st) +:+ STATE_JOURNAL_DIR_SUFFIX).
Definition manifest_path : path := pjoin journal_dir STATE_JOURNAL_MANIFEST_NAME.

Definition has_manifest : io bool := is_file manifest_path.

(** [int(v.get(k, default))]. *)
Definition get_int (v : pyval) (k : string) (default : Z) : result Z :=
  x ← py_get v k (PInt default); py_int x.

Definition read_manifest_optional : io (option pydict) :=
  there ← is_file manifest_path;
  if there : bool then
    text ← read_text manifest_path;
    manifest ← lift (loads text);
    version ← lift (get_int manifest "schema_version" (-1));
    if version =? STATE_JOURNAL_SCHEMA_VERSION then
      d ← lift (py_items manifest); mret (Some d)
    else fail RuntimeError "unsupported state journal manifest schema version"
  else mret None.

Definition read_manifest : io pydict :=
  manifest ← read_manifest_optional;
  match manifest with
  | None => fail RuntimeError "state journal manifest is missing"
  | Some d => mret d
  end.

Definition write_manifest (manifest : pydict) : io unit :=
  text ← lift (dumps (indented 2) (PDict manifest));
  publish manifest_path (utf8_encode text) (sj_fsync st).

(** [manifest.get("deltas", [])] as the list a loop visits. *)
Definition manifest_deltas (manifest : pydict) : result (list pyval) :=
  v ← py_get (PDict manifest) "deltas" (PList []); py_iter v.

Definition manifest_segment_names (manifest : option pydict) : result (list string) :=
  match manifest with
  | None | Some [] => Ok []
  | Some m =>
      deltas ← manifest_deltas m;
      names ← mapR (λ delta,
        n ← py_get delta "file_name" PNone;
        if truthy n then x ← py_index delta "file_name"; Ok [py_str x] else Ok []) deltas;
      Ok (concat names)
  end.

Definition unlink_all (names : list string) : io unit :=
  foldIO (λ _ n, unlink_ok (pjoin journal_dir n)) tt names.

Definition record_base (document_count chunk_count : Z) : io StateJournalWrite :=
  there ← is_file (base_path st);
  if there : bool then
    size ← file_size (base_path st);
    previous ← read_manifest_optional;
    next_seq ← lift (match previous with
                     | Some (_ :: _ as m) => get_int (PDict m) "next_seq" 0
                     | _ => Ok 0
                     end);
    _ ← mkdir_p journal_dir;
    stale ← lift (manifest_segment_names previous);
    digest ← sha256_file (base_path st);
    _ ← write_manifest
      [(PStr "schema_version", PInt STATE_JOURNAL_SCHEMA_VERSION);
       (PStr "base", dict_of
          [("file_name", PStr (pname (base_path st))); ("sha256", PStr digest);
           ("file_bytes", PInt size); ("document_count", PInt document_count);
           ("chunk_count", PInt chunk_count)]);
       (PStr "deltas", PList []);
       (PStr "next_seq", PInt (next_seq + 1))];
    _ ← unlink_all stale;
    mret (SJWrite (pname (base_path st)) size "base")
  else fail RuntimeError "state journal base snapshot is missing".

Definition segment_name (sequence : Z) : string :=
  "delta-" +:+ format_08d sequence +:+ STATE_JOURNAL_SEGMENT_SUFFIX.

Definition delta_body (upserted_documents : list pyval) (deleted_document_ids : list string)
    (state_header : pydict) : pyval :=
  dict_of [("schema_version", PInt STATE_JOURNAL_SCHEMA_VERSION);
           ("upserted_documents", PList upserted_documents);
           ("deleted_document_ids", PList (map PStr deleted_document_ids));
           ("state_header", PDict state_header)].

Definition delta_header (sequence generation document_count_after chunk_count_after : Z)
    (body_blob : bytes) : pyval :=
  dict_of [("schema_version", PInt STATE_JOURNAL_SCHEMA_VERSION); ("kind", PStr "delta");
           ("seq", PInt sequence); ("generation_after", PInt generation);
           ("document_count_after", PInt document_count_after);
           ("chunk_count_after", PInt chunk_count_after);
           ("body_bytes", PInt (Z.of_nat (slen body_blob)));
           ("body_sha256", PStr (sha256_hex body_blob))].

(** [_HEADER_LENGTH.pack(n)]. *)
Definition pack_header_length (n : Z) : result bytes :=
  if n <? 2 ^ 64 then Ok (pack_u64 (Z.to_N n)) else raise StructError "int too large to convert".

Definition append_delta (upserted_documents : list pyval) (deleted_document_ids : list string)
    (state_header : pydict) (document_count_after chunk_count_after generation : Z)
    : io StateJournalWrite :=
  manifest ← read_manifest;
  sequence ← lift (get_int (PDict manifest) "next_seq" 0);
  body_text ← lift (dumps compact (delta_body upserted_documents deleted_document_ids state_header));
  let body_blob := utf8_encode body_text in
  header_text ← lift (dumps compact
    (delta_header sequence generation document_count_after chunk_count_after body_blob));
  let header_blob := utf8_encode header_text in
  _ ← mkdir_p journal_dir;
  let segment_path := pjoin journal_dir (segment_name sequence) in
  packed ← lift (pack_header_length (Z.of_nat (slen header_blob)));
  _ ← publish segment_path (STATE_JOURNAL_MAGIC +:+ packed +:+ header_blob +:+ body_blob) (sj_fsync st);
  size ← file_size segment_path;
  deltas ← lift (manifest_deltas manifest);
  digest ← sha256_file segment_path;
  let entry := dict_of
    [("file_name", PStr (segment_name sequence)); ("sha256", PStr digest); ("file_bytes", PInt size);
     ("seq", PInt sequence); ("upserted_documents", PInt (Z.of_nat (length upserted_documents)));
     ("deleted_documents", PInt (Z.of_nat (length deleted_document_ids)))] in
  _ ← write_manifest (dict_set "next_seq" (PInt (sequence + 1))
                        (dict_set "deltas" (PList (deltas ++ [entry])) manifest));
  mret (SJWrite (segment_name sequence) size "delta").

Definition should_compact (max_delta_document_fraction : spec_float) (max_delta_segments : Z) : io bool :=
  manifest ← read_manifest_optional;
  match manifest with
  | None | Some [] => mret false
  | Some m =>
      v ← lift (py_get (PDict m) "deltas" (PList []));
      if negb (truthy v) then mret false
      else
          deltas ← lift (py_iter v);
          if Z.of_nat (length deltas) >=? max_delta_segments then mret true
          else
            delta_documents ← lift (foldR (λ acc delta,
              u ← get_int delta "upserted_documents" 0;
              d ← get_int delta "deleted_documents" 0;
              Ok (acc + u + d)) 0 deltas);
            base ← lift (py_get (PDict m) "base" (PDict []));
            count ← lift (get_int base "document_count" 1);
            base_documents ← lift (py_float (PInt (Z.max count 1)));
            mret (int_geb_float delta_documents (fmul base_documents max_delta_document_fraction))
  end.

(** ** Replay *)

(** The four collections [replay_onto_payload] works on. *)
Record collections := Collections {
  chunks_by_id : gmap string pyval;
  document_hashes : gmap string string;
  document_chunk_ids : gmap string (list pyval);
  document_metadata : gmap string pydict }.

(** [{str(k): f(v) for k, v in dict(payload.get(key, {}) or {}).items()}]. *)
Definition payload_map {A} (payload : pydict) (key : string) (f : pyval → result A) : result (gmap string A) :=
  v ← py_get (PDict payload) key (PDict []);
  d ← py_dict (py_or v (PDict []));
  foldR (λ m kv, x ← f kv.2; Ok (<[py_str kv.1 := x]> m)) ∅ d.

Definition payload_collections (payload : pydict) : result collections :=
  chunks ← py_get (PDict payload) "chunks" (PTuple []);
  rows ← py_iter chunks;
  by_id ← foldR (λ m row, cid ← py_index row "chunk_id"; Ok (<[py_str cid := row]> m)) ∅ rows;
  hashes ← payload_map payload "document_hashes" (λ v, Ok (py_str v));
  ids ← payload_map payload "document_chunk_ids" py_iter;
  metadata ← payload_map payload "document_metadata" (λ v, py_dict (py_or v (PDict [])));
  Ok (Collections by_id hashes ids metadata).

(** [chunks_by_id.pop(str(chunk_id), None)] for each id of a document. *)
Definition pop_chunks (ids : list pyval) (m : gmap string pyval) : gmap string pyval :=
  fold_left (λ m cid, delete (py_str cid) m) ids m.

Definition replay_delete (c : collections) (document_id : pyval) : collections :=
  let id := py_str document_id in
  let ids := match document_chunk_ids c !! id with Some l => l | None => [] end in
  Collections (pop_chunks ids (chunks_by_id c)) (delete id (document_hashes c))
              (delete id (document_chunk_ids c)) (delete id (document_metadata c)).

Definition replay_upsert (c : collections) (document : pyval) : result collections :=
  idv ← py_index document "document_id";
  let id := py_str idv in
  let old := match document_chunk_ids c !! id with Some l => l | None => [] end in
  let by_id := pop_chunks old (chunks_by_id c) in
  rowsv ← py_get document "chunks" (PTuple []);
  rows ← py_iter rowsv;
  by_id ← foldR (λ m row,
    cid ← py_index row "chunk_id"; d ← py_dict row; Ok (<[py_str cid := PDict d]> m)) by_id rows;
  hash ← py_index document "document_hash";
  idsv ← py_get document "chunk_ids" (PTuple []);
  ids ← py_iter idsv;
  metav ← py_get document "metadata" (PDict []);
  meta ← py_dict (py_or metav (PDict []));
  Ok (Collections by_id (<[id := py_str hash]> (document_hashes c))
        (<[id := map (λ cid, PStr (py_str cid)) ids]> (document_chunk_ids c))
        (<[id := meta]> (document_metadata c))).

(** One segment: deletes, then upserts, then the count checks; the new state header. *)
Definition replay_segment (c : collections) (header body : pyval) : result (collections * pydict * Z * Z) :=
  deletedv ← py_get body "deleted_document_ids" (PTuple []);
  deleted ← py_iter deletedv;
  let c := fold_left replay_delete deleted c in
  upsertedv ← py_get body "upserted_documents" (PTuple []);
  upserted ← py_iter upsertedv;
  c ← foldR replay_upsert c upserted;
  expected_documents ← get_int header "document_count_after" (-1);
  _ ← (if (expected_documents >=? 0) && negb (Z.of_nat (size (document_hashes c)) =? expected_documents)
       then raise RuntimeError "state journal replay rejected: document count mismatch" else Ok tt);
  expected_chunks ← get_int header "chunk_count_after" (-1);
  _ ← (if (expected_chunks >=? 0) && negb (Z.of_nat (size (chunks_by_id c)) =? expected_chunks)
       then raise RuntimeError "state journal replay rejected: chunk count mismatch" else Ok tt);
  headerv ← py_get body "state_header" (PDict []);
  state_header ← py_dict (py_or headerv (PDict []));
  Ok (c, state_header, Z.of_nat (length upserted), Z.of_nat (length deleted)).

Definition validated_segment_path (entry : pyval) : io path :=
  namev ← lift (py_get entry "file_name" (PStr ""));
  let file_name := py_str namev in
  let p := pjoin journal_dir file_name in
  there ← is_file p;
  if bool_decide (file_name = "") || negb there
  then fail RuntimeError ("state journal segment is missing: " +:+ file_name)
  else
    digest ← sha256_file p;
    recorded ← lift (py_get entry "sha256" (PStr ""));
    if bool_decide (digest = py_str recorded) then mret p
    else fail RuntimeError ("state journal segment failed checksum: " +:+ file_name).

(** [_read_journal_segment]: the parse of one segment's bytes. *)
Definition parse_segment (name : string) (data : bytes) : result (pyval * pyval) :=
  let prefix := Z.of_nat (slen STATE_JOURNAL_MAGIC) + 8 in
  let n := Z.of_nat (slen data) in
  if (n <? prefix) || negb (bool_decide (str_take (slen STATE_JOURNAL_MAGIC) data = STATE_JOURNAL_MAGIC))
  then raise RuntimeError ("not a state journal segment: " +:+ name)
  else
    let header_stop := prefix + Z.of_N (unpack_u64 data (slen STATE_JOURNAL_MAGIC)) in
    if n <? header_stop
    then raise RuntimeError ("state journal segment header is truncated: " +:+ name)
    else
      header_text ← utf8_decode (py_slice data prefix header_stop);
      header ← loads header_text;
      version ← get_int header "schema_version" (-1);
      if negb (version =? STATE_JOURNAL_SCHEMA_VERSION)
      then raise RuntimeError "unsupported state journal segment schema version"
      else
        body_bytes ← get_int header "body_bytes" (-1);
        let body_blob := py_slice data header_stop (header_stop + body_bytes) in
        if negb (Z.of_nat (slen body_blob) =? body_bytes)
        then raise RuntimeError ("state journal segment body is truncated: " +:+ name)
        else
          recorded ← py_get header "body_sha256" (PStr "");
          if negb (bool_decide (sha256_hex body_blob = py_str recorded))
          then raise RuntimeError ("state journal segment body failed checksum: " +:+ name)
          else
            body_text ← utf8_decode body_blob;
            body ← loads body_text;
            keys ← py_iter body;
            let missing := List.filter (λ k, negb (existsb (λ v, key_is k (v, PNone)) keys))
                             ["deleted_document_ids"; "state_header"; "upserted_documents"] in
            match missing with
            | [] => Ok (header, body)
            | _ => raise RuntimeError ("state journal segment is missing fields: "
                                         +:+ py_repr (PList (map PStr missing)))
            end.

Definition read_journal_segment (p : path) : io (pyval * pyval) :=
  data ← read_bytes p; lift (parse_segment (pname p) data).

(** The loop state of [replay_onto_payload]. *)
Record replay := Replay {
  rp_coll : collections; rp_prev : Z; rp_upserts : Z; rp_deletes : Z; rp_header : option pydict }.

Definition replay_entry (r : replay) (entry : pyval) : io replay :=
  sequence ← lift (get_int entry "seq" (-1));
  if sequence <=? rp_prev r
  then fail RuntimeError "state journal manifest has out-of-order segments"
  else
    p ← validated_segment_path entry;
    '(header, body) ← read_journal_segment p;
    '(c, h, u, d) ← lift (replay_segment (rp_coll r) header body);
    mret (Replay c sequence (rp_upserts r + u) (rp_deletes r + d) (Some h)).

(** The sorted collections written back into the payload. *)
Definition payload_of (payload : pydict) (c : collections) (header : option pydict) : pydict :=
  let payload := match header with
                 | Some h => dict_update payload (fold_left (λ h k, dict_del k h) STATE_HEADER_EXCLUDED_KEYS h)
                 | None => payload
                 end in
  dict_set "document_metadata"
      (dict_of (map (λ kv, (kv.1, PDict (sort_by (λ a b, str_leb (key_text a.1) (key_text b.1)) kv.2)))
                    (items_sorted (document_metadata c))))
    (dict_set "document_chunk_ids"
        (dict_of (map (λ kv, (kv.1, PList kv.2)) (items_sorted (document_chunk_ids c))))
      (dict_set "document_hashes"
          (dict_of (map (λ kv, (kv.1, PStr kv.2)) (items_sorted (document_hashes c))))
        (dict_set "chunks" (PList (map snd (items_sorted (chunks_by_id c)))) payload))).

Definition resolve_manifest (manifest : option pydict) : io pydict :=
  match manifest with Some m => mret m | None => read_manifest end.

(** The new payload, with the segment, upsert and delete counts it reports. *)
Definition replay_onto_payload (payload : pydict) (manifest : option pydict) : io (pydict * (Z * Z * Z)) :=
  manifest ← resolve_manifest manifest;
  c ← lift (payload_collections payload);
  deltas ← lift (manifest_deltas manifest);
  r ← foldIO replay_entry (Replay c (-1) 0 0 None) deltas;
  mret (payload_of payload (rp_coll r) (rp_header r),
        (Z.of_nat (length deltas), rp_upserts r, rp_deletes r)).

Definition validate_base_checksum (manifest : option pydict) : io unit :=
  manifest ← resolve_manifest manifest;
  base_entry ← lift (py_get (PDict manifest) "base" (PDict []));
  recordedv ← lift (py_get base_entry "sha256" (PStr ""));
  let recorded := py_str recordedv in
  if bool_decide (recorded = "") then mret tt
  else
    digest ← sha256_file (base_path st);
    if bool_decide (digest = recorded) then mret tt
    else fail RuntimeError "state journal base snapshot failed manifest checksum".

Definition iter_segment_bodies (manifest : option pydict) : io (list pyval) :=
  manifest ← resolve_manifest manifest;
  deltas ← lift (manifest_deltas manifest);
  mapIO (λ entry, p ← validated_segment_path entry; hb ← read_journal_segment p; mret hb.2) deltas.

(** The four figures of [storage_file_bytes], as floats. *)
Definition storage_file_bytes (manifest : option pydict)
    : io (spec_float * spec_float * spec_float * spec_float) :=
  manifest ← (match manifest with Some m => mret (Some m) | None => read_manifest_optional end);
  let m := match manifest with Some m => m | None => [] end in
  base ← lift (py_get (PDict m) "base" (PDict []));
  base_bytes ← lift (v ← py_get base "file_bytes" (PInt 0); py_float v);
  deltas ← lift (manifest_deltas m);
  delta_bytes ← lift (foldR (λ acc delta, b ← get_int delta "file_bytes" 0; Ok (acc + b)) 0 deltas);
  delta_bytes ← lift (py_float (PInt delta_bytes));
  there ← is_file manifest_path;
  manifest_bytes ← (if there : bool then file_size manifest_path else mret 0);
  mret (base_bytes, delta_bytes, float_of_Z (Z.of_nat (length deltas)), float_of_Z manifest_bytes).

Definition remove_all : io unit :=
  there ← is_dir journal_dir;
  if there : bool then
    names ← glob_suffix journal_dir STATE_JOURNAL_SEGMENT_SUFFIX;
    _ ← unlink_all names;
    unlink_ok manifest_path
  else mret tt.

Definition current_manifest : io (option pydict) := read_manifest_optional.

Definition restore_manifest (manifest : pydict) : io unit :=
  _ ← mkdir_p journal_dir;
  referenced ← lift (manifest_segment_names (Some manifest));
  _ ← write_manifest manifest;
  names ← glob_suffix journal_dir STATE_JOURNAL_SEGMENT_SUFFIX;
  unlink_all (List.filter (λ n, negb (str_in n referenced)) names).

End store.
End SJ.

(** ** Reading dictionaries that went through JSON *)

Lemma py_get_canon d k x : json_ok (PDict d) = true →
  py_get (canon (PDict d)) k x = Ok (match dict_get k d with Some v => canon v | None => x end).
Proof. intros H. rewrite canon_dict. cbn [py_get]. rewrite dict_get_canon by done. by destruct (dict_get k d). Qed.

(** The bytes of a compactly dumped value, and reading them back. *)
Definition json_blob (v : pyval) : bytes := utf8_encode (of_chars (json_text compact 0 v)).

Lemma blob_text v : json_ok v = true → ∃ t, utf8_decode (json_blob v) = Ok t ∧ loads t = Ok (canon v).
Proof.
  intros H. unfold json_blob. rewrite utf8_decode_encode. eexists. split; [done|]. by apply loads_text.
Qed.

(** ** One segment *)

Record seg := Seg {
  sg_seq : Z; sg_gen : Z; sg_docs : Z; sg_chunks : Z;
  sg_up : list pyval; sg_del : list string; sg_head : pydict }.

Definition seg_body (g : seg) : pyval := SJ.delta_body (sg_up g) (sg_del g) (sg_head g).
Definition seg_header (g : seg) : pyval :=
  SJ.delta_header (sg_seq g) (sg_gen g) (sg_docs g) (sg_chunks g) (json_blob (seg_body g)).
Definition seg_bytes (g : seg) : bytes :=
  STATE_JOURNAL_MAGIC +:+ pack_u64 (N.of_nat (slen (json_blob (seg_header g))))
    +:+ json_blob (seg_header g) +:+ json_blob (seg_body g).

(** The segment fits the format: its contents are JSON and the header length fits 64 bits. *)
Definition seg_ok (g : seg) : Prop :=
  json_ok (seg_body g) = true ∧ Z.of_nat (slen (json_blob (seg_header g))) < 2 ^ 64 ∧ 0 <= sg_seq g.

Lemma seg_header_ok g : json_ok (seg_header g) = true.
Proof. reflexivity. Qed.

Definition header_items (g : seg) : pydict := match seg_header g with PDict d => d | _ => [] end.

Lemma py_get_header g k v : dict_get k (header_items g) = Some v →
  ∀ x, py_get (canon (seg_header g)) k x = Ok (canon v).
Proof.
  intros H x. change (seg_header g) with (PDict (header_items g)).
  rewrite py_get_canon by apply seg_header_ok. by rewrite H.
Qed.

Lemma get_int_header g k z : dict_get k (header_items g) = Some (PInt z) →
  ∀ x, SJ.get_int (canon (seg_header g)) k x = Ok z.
Proof. intros H x. unfold SJ.get_int. by rewrite (py_get_header g k _ H). Qed.

Lemma slen_json_blob_slice a b c d (x y : Z) : x = Z.of_nat (slen a + slen b) → y = x + Z.of_nat (slen c) →
  py_slice (a +:+ b +:+ c +:+ d) x y = c.
Proof.
  intros -> ->. rewrite (sapp_assoc a b). apply py_slice_mid; [by rewrite slen_app|done].
Qed.

(** Decoding an encoded segment gives its header and body. *)
Lemma parse_seg_bytes name g : seg_ok g →
  SJ.parse_segment name (seg_bytes g) = Ok (canon (seg_header g), canon (seg_body g)).
Proof.
  intros (Hb & Hlen & _). unfold SJ.parse_segment, seg_bytes.
  set (hb := json_blob (seg_header g)) in *. set (bb := json_blob (seg_body g)).
  set (pk := pack_u64 (N.of_nat (slen hb))).
  assert (slen pk = 8%nat) as Hpk by apply slen_pack_u64.
  assert (slen STATE_JOURNAL_MAGIC = 8%nat) as Hmg by done.
  set (data := STATE_JOURNAL_MAGIC +:+ pk +:+ hb +:+ bb).
  assert (Z.of_nat (slen data) = 16 + Z.of_nat (slen hb) + Z.of_nat (slen bb)) as Hn
    by (unfold data; rewrite !slen_app; lia).
  rewrite Hn, Hmg. replace (_ <? _) with false by (symmetry; apply Z.ltb_ge; lia).
  assert (str_take 8 data = STATE_JOURNAL_MAGIC) as -> by (by apply str_take_app_alt).
  rewrite bool_decide_eq_true_2 by done. cbn [negb orb].
  assert (unpack_u64 data 8 = N.of_nat (slen hb)) as ->.
  { rewrite <-Hmg. apply unpack_pack_u64. lia. }
  replace (_ <? _) with false by (symmetry; apply Z.ltb_ge; lia).
  assert (py_slice data (Z.of_nat 8 + 8) (Z.of_nat 8 + 8 + Z.of_N (N.of_nat (slen hb))) = hb) as ->
    by (apply slen_json_blob_slice; lia).
  destruct (blob_text (seg_header g) (seg_header_ok g)) as (t & Ht & Hl). fold hb in Ht. rewrite Ht.
  cbn [mbind result_bind]. rewrite Hl. cbn [mbind result_bind].
  rewrite (get_int_header g "schema_version" 1) by reflexivity. cbn [mbind result_bind].
  change (negb (1 =? STATE_JOURNAL_SCHEMA_VERSION)) with false. cbv iota.
  rewrite (get_int_header g "body_bytes" (Z.of_nat (slen bb))) by reflexivity. cbn [mbind result_bind].
  assert (py_slice data (Z.of_nat 8 + 8 + Z.of_N (N.of_nat (slen hb)))
    (Z.of_nat 8 + 8 + Z.of_N (N.of_nat (slen hb)) + Z.of_nat (slen bb)) = bb) as ->.
  { unfold data. rewrite <-(sapp_nil_r bb) at 1. rewrite (sapp_assoc pk hb).
    apply slen_json_blob_slice; rewrite ?slen_app; lia. }
  rewrite Z.eqb_refl. cbn [negb].
  rewrite (py_get_header g "body_sha256" (PStr (sha256_hex bb))) by reflexivity. cbn [mbind result_bind].
  cbn [canon py_str]. rewrite bool_decide_eq_true_2 by done. cbn [negb].
  destruct (blob_text (seg_body g) Hb) as (t' & Ht' & Hl'). fold bb in Ht'. rewrite Ht'.
  cbn [mbind result_bind]. rewrite Hl'. cbn [mbind result_bind]. reflexivity.
Qed.

(** ** The journal on disk *)

Definition seg_entry (g : seg) : pyval :=
  dict_of [("file_name", PStr (SJ.segment_name (sg_seq g))); ("sha256", PStr (sha256_hex (seg_bytes g)));
           ("file_bytes", PInt (Z.of_nat (slen (seg_bytes g)))); ("seq", PInt (sg_seq g));
           ("upserted_documents", PInt (Z.of_nat (length (sg_up g))));
           ("deleted_documents", PInt (Z.of_nat (length (sg_del g))))].

(** A manifest as it is read back: keys in order, entries canonical. *)
Definition mk_manifest (base : pyval) (segs : list seg) (next : Z) : pydict :=
  [(PStr "base", canon base); (PStr "deltas", PList (map canon (map seg_entry segs)));
   (PStr "next_seq", PInt next); (PStr "schema_version", PInt STATE_JOURNAL_SCHEMA_VERSION)].

(** What [_read_manifest_optional] makes of the manifest file. *)
Definition parse_manifest (c : option bytes) : result (option pydict) :=
  match c with
  | None => Ok None
  | Some b =>
      text ← utf8_decode b;
      manifest ← loads text;
      version ← SJ.get_int manifest "schema_version" (-1);
      if version =? STATE_JOURNAL_SCHEMA_VERSION then d ← py_items manifest; Ok (Some d)
      else raise RuntimeError "unsupported state journal manifest schema version"
  end.

Section journal.
Context (st : StateJournalStore).

Notation mpath := (SJ.manifest_path st).
Notation jdir := (SJ.journal_dir st).
Definition spath (n : Z) : path := SJ.segment_name n :: jdir.

Lemma mpath_eq : mpath = STATE_JOURNAL_MANIFEST_NAME :: jdir.
Proof. by apply pjoin_simple. Qed.

Lemma segment_name_simple n : 0 <= n → simple_name (SJ.segment_name n) = true.
Proof.
  intros Hn. destruct (format_08d_chars n Hn) as (Hd & _). unfold simple_name, SJ.segment_name.
  rewrite !chars_app, !forallb_app.
  assert (forallb (λ c, negb (bool_decide (c = "/"%char))) (chars (format_08d n)) = true) as ->.
  { eapply forallb_impl; [|exact Hd]. intros c Hc. apply negb_true_iff, bool_decide_eq_false_2.
    by intros ->. }
  apply negb_true_iff, bool_decide_eq_false_2. set_solver.
Qed.

Lemma segment_path_eq n : 0 <= n → pjoin jdir (SJ.segment_name n) = spath n.
Proof. intros. by apply pjoin_simple, segment_name_simple. Qed.

Lemma segment_name_inj n m : 0 <= n → 0 <= m → SJ.segment_name n = SJ.segment_name m → n = m.
Proof.
  intros Hn Hm H. unfold SJ.segment_name in H. apply sapp_inj_l, sapp_inj_r in H.
  by apply format_08d_inj.
Qed.

Lemma spath_inj n m : 0 <= n → 0 <= m → spath n = spath m → n = m.
Proof. intros ?? H. apply (f_equal pname) in H. by apply segment_name_inj. Qed.

Lemma tmp_spath_ne n m : tmp_of (spath n) ≠ spath m.
Proof.
  unfold spath, tmp_of, with_name, pname. simpl. intros [= H]. unfold SJ.segment_name in H.
  revert H. rewrite !sapp_assoc.
  change ".tmp" with (".tm" +:+ String "p" ""). change STATE_JOURNAL_SEGMENT_SUFFIX with (".js" +:+ String "d" "").
  rewrite !sapp_assoc. by apply suffix_ne.
Qed.

Lemma spath_mpath n : spath n ≠ mpath ∧ tmp_of (spath n) ≠ mpath ∧ tmp_of mpath ≠ spath n.
Proof. rewrite mpath_eq. by split_and!; intros [= ?]. Qed.

(** *** Reading the manifest *)

Lemma read_manifest_optional_run s :
  SJ.read_manifest_optional st s = Out [] s (parse_manifest (content s mpath)).
Proof.
  unfold SJ.read_manifest_optional. erewrite bind_run_pure by reflexivity.
  unfold content. destruct (files s !! mpath) as [f|] eqn:E.
  2: { rewrite bool_decide_eq_false_2 by (by intros [? ?]). done. }
  rewrite bool_decide_eq_true_2 by done. cbn [fmap option_fmap option_map parse_manifest].
  unfold read_text, mbind, io_bind, read_bytes, lift. rewrite E. cbn.
  destruct (utf8_decode (fdata f)) as [t|]; [|done]. cbn.
  destruct (loads t) as [v|]; [|done]. cbn.
  destruct (SJ.get_int v "schema_version" (-1)) as [z|]; [|done]. cbn.
  destruct (z =? STATE_JOURNAL_SCHEMA_VERSION); [|done]. cbn.
  by destruct (py_items v).
Qed.

Lemma read_manifest_run s m : parse_manifest (content s mpath) = Ok (Some m) →
  SJ.read_manifest st s = Out [] s (Ok m).
Proof.
  intros H. unfold SJ.read_manifest.
  erewrite bind_run_pure; [|rewrite read_manifest_optional_run, H; reflexivity]. done.
Qed.

(** *** Writing the manifest *)

Lemma entry_ok g : json_ok (seg_entry g) = true.
Proof. reflexivity. Qed.

Lemma manifest_bytes_parse m : json_ok (PDict m) = true →
  dict_get "schema_version" m = Some (PInt STATE_JOURNAL_SCHEMA_VERSION) →
  parse_manifest (Some (utf8_encode (of_chars (json_text (indented 2) 0 (PDict m))))) = Ok (Some (canon_items m)).
Proof.
  intros Hok Hv. unfold parse_manifest.
  rewrite utf8_decode_encode. cbn [mbind result_bind]. rewrite loads_text by (done || apply _). cbn [mbind result_bind].
  unfold SJ.get_int. rewrite py_get_canon by done. by rewrite Hv.
Qed.

(** A manifest about to be written: [mk_manifest] up to canonical form. *)
Lemma write_manifest_runs m s : json_ok (PDict m) = true → dir_exists s jdir = true →
  let f := File (utf8_encode (of_chars (json_text (indented 2) 0 (PDict m)))) (sj_fsync st) in
  runs (published s mpath f) (SJ.write_manifest st m) s
    (λ r t, r = Ok tt ∧ t = put mpath f (drop_file (tmp_of mpath) s)).
Proof.
  intros Hok Hd f. unfold SJ.write_manifest, runs.
  erewrite bind_run_pure by (rewrite dumps_ok by done; reflexivity).
  rewrite mpath_eq. by apply publish_runs.
Qed.

(** *** The invariant *)

Definition seg_on_disk (s : fsys) (g : seg) : Prop :=
  seg_ok g ∧ content s (spath (sg_seq g)) = Some (seg_bytes g).

(** The manifest reads back as [base], [segs] and [next]; every segment it lists is on disk
    with the recorded bytes; sequence numbers increase and stay below [next]. *)
Record journal_ok (s : fsys) (base : pyval) (segs : list seg) (next : Z) : Prop := {
  jo_dir : dir_exists s jdir = true;
  jo_manifest : parse_manifest (content s mpath) = Ok (Some (mk_manifest base segs next));
  jo_base : json_ok base = true;
  jo_segs : Forall (seg_on_disk s) segs;
  jo_sorted : StronglySorted Z.lt (map sg_seq segs);
  jo_next : 0 <= next ∧ Forall (λ g, sg_seq g < next) segs }.

Lemma canon_entries segs : map canon (map canon (map seg_entry segs)) = map canon (map seg_entry segs).
Proof. rewrite !map_map. apply map_ext. intros g. by apply canon_idem, entry_ok. Qed.

Lemma entries_ok segs : forallb json_ok (map canon (map seg_entry segs)) = true.
Proof. induction segs as [|g segs IH]; [done|]. cbn [map forallb]. by rewrite json_ok_canon, IH. Qed.

(** Reading the fields of a manifest in the invariant's form. *)
Lemma mk_next base segs next : SJ.get_int (PDict (mk_manifest base segs next)) "next_seq" 0 = Ok next.
Proof. reflexivity. Qed.
Lemma mk_deltas base segs next : SJ.manifest_deltas (mk_manifest base segs next) = Ok (map canon (map seg_entry segs)).
Proof. reflexivity. Qed.

Definition extend_manifest (base : pyval) (segs : list seg) (g : seg) : pydict :=
  dict_set "next_seq" (PInt (sg_seq g + 1))
    (dict_set "deltas" (PList (map canon (map seg_entry segs) ++ [seg_entry g]))
       (mk_manifest base segs (sg_seq g))).

Lemma extend_manifest_eq base segs g : extend_manifest base segs g =
  [(PStr "base", canon base); (PStr "deltas", PList (map canon (map seg_entry segs) ++ [seg_entry g]));
   (PStr "next_seq", PInt (sg_seq g + 1)); (PStr "schema_version", PInt STATE_JOURNAL_SCHEMA_VERSION)].
Proof. reflexivity. Qed.

Lemma four_keys_ok (a b c d : pyval) :
  json_ok a && (json_ok b && (json_ok c && json_ok d)) = true →
  json_ok (PDict [(PStr "base", a); (PStr "deltas", b); (PStr "next_seq", c); (PStr "schema_version", d)]) = true.
Proof.
  intros (Ha & (Hb & [Hc Hd]%andb_prop)%andb_prop)%andb_prop. apply json_ok_dict_intro; [done| |by repeat constructor].
  by apply (bool_decide_unpack _).
Qed.

Lemma four_keys_canon (a b c d : pyval) :
  canon_items [(PStr "base", a); (PStr "deltas", b); (PStr "next_seq", c); (PStr "schema_version", d)]
  = [(PStr "base", canon a); (PStr "deltas", canon b); (PStr "next_seq", canon c); (PStr "schema_version", canon d)].
Proof. reflexivity. Qed.

Lemma extend_manifest_ok base segs g : json_ok base = true → json_ok (PDict (extend_manifest base segs g)) = true.
Proof.
  intros Hb. rewrite extend_manifest_eq. apply four_keys_ok. cbn [json_ok].
  by rewrite json_ok_canon, forallb_app, entries_ok.
Qed.

Lemma extend_manifest_canon base segs g : json_ok base = true →
  canon_items (extend_manifest base segs g) = mk_manifest base (segs ++ [g]) (sg_seq g + 1).
Proof.
  intros Hb. rewrite extend_manifest_eq, four_keys_canon. unfold mk_manifest. cbn [canon].
  by rewrite canon_idem, !map_app, canon_entries.
Qed.

(** The invariant only looks at the manifest and the segments it lists. *)
Lemma journal_ok_frame s t base segs next : journal_ok s base segs next → dirs t = dirs s →
  content t mpath = content s mpath →
  (∀ n, 0 <= n → n < next → content t (spath n) = content s (spath n)) → journal_ok t base segs next.
Proof.
  intros [Hd Hm Hb Hs Hso [H0 Hn]] Hdt Hmt Hst. split; try done.
  - unfold dir_exists in *. by rewrite Hdt.
  - by rewrite Hmt.
  - rewrite Forall_forall in Hs, Hn |- *. intros g Hg. destruct (Hs g Hg) as [Hok Hc].
    split; [done|]. rewrite Hst; [done| |by apply Hn]. by destruct Hok as (_ & _ & ?).
Qed.

Lemma content_eq s t p : files t !! p = files s !! p → content t p = content s p.
Proof. unfold content. by intros ->. Qed.

(** Any state of the publication of segment [next] still holds the old journal. *)
Lemma journal_ok_segment s t base segs next f : journal_ok s base segs next →
  published s (spath next) f t → journal_ok t base segs next.
Proof.
  intros Hj (Hd & Hq & _). destruct (spath_mpath next) as (H1 & H2 & _).
  apply (journal_ok_frame s); [done..|apply content_eq, Hq; congruence|].
  intros n Hn Hlt. apply content_eq, Hq; [intros E; by apply (tmp_spath_ne next n)|].
  intros E. apply spath_inj in E; [lia|done|apply Hj].
Qed.

(** The state after the manifest is replaced holds the extended journal. *)
Lemma journal_ok_extend s t base segs g : journal_ok s base segs (sg_seq g) → seg_on_disk s g →
  dirs t = dirs s → (∀ n, content t (spath n) = content s (spath n)) →
  content t mpath = Some (utf8_encode (of_chars (json_text (indented 2) 0 (PDict (extend_manifest base segs g))))) →
  journal_ok t base (segs ++ [g]) (sg_seq g + 1).
Proof.
  intros [Hd Hm Hb Hs Hso [H0 Hn]] Hg Hdt Hst Hmt. split; try done.
  - unfold dir_exists in *. by rewrite Hdt.
  - rewrite Hmt, manifest_bytes_parse; [|by apply extend_manifest_ok|reflexivity].
    by rewrite extend_manifest_canon.
  - apply Forall_app. split; [|constructor; [|done]].
    + eapply Forall_impl; [exact Hs|]. intros x [Hok Hc]. split; [done|]. by rewrite Hst.
    + destruct Hg as [? Hc]. split; [done|]. by rewrite Hst.
  - rewrite map_app. apply StronglySorted_app. split_and!; [|done|by repeat constructor].
    intros x y Hx Hy. apply list_elem_of_fmap in Hx as (g' & -> & Hg'). rewrite Forall_forall in Hn.
    apply list_elem_of_singleton in Hy as ->. by apply Hn.
  - split; [lia|]. apply Forall_app. split; [|constructor; [lia|done]].
    eapply Forall_impl; [exact Hn|]. simpl. lia.
Qed.

Lemma spath_not_tmp_mpath n : spath n ≠ tmp_of mpath ∧ spath n ≠ mpath.
Proof. destruct (spath_mpath n) as (? & ? & ?). split; congruence. Qed.

(** Appending a delta: it succeeds, the new segment is last, and at every point of the way
    the disk holds either the old journal or the extended one. *)
Lemma append_delta_runs s base segs next up del head docs chunks gen :
  let g := Seg next gen docs chunks up del head in
  journal_ok s base segs next → seg_ok g →
  runs (λ t, journal_ok t base segs next ∨ journal_ok t base (segs ++ [g]) (next + 1))
    (SJ.append_delta st up del head docs chunks gen) s
    (λ r t, r = Ok (SJWrite (SJ.segment_name next) (Z.of_nat (slen (seg_bytes g))) "delta") ∧
            journal_ok t base (segs ++ [g]) (next + 1)).
Proof.
  intros g Hj Hg. pose proof Hg as (Hbody & Hlen & Hseq). simpl in Hseq.
  unfold SJ.append_delta.
  eapply runs_pure; [apply read_manifest_run, (jo_manifest _ _ _ _ Hj)|].
  eapply runs_pure; [rewrite mk_next; reflexivity|].
  eapply runs_pure; [rewrite dumps_ok by exact Hbody; reflexivity|]. cbv zeta.
  fold (json_blob (SJ.delta_body up del head)).
  eapply runs_pure; [rewrite dumps_ok by exact (seg_header_ok g); reflexivity|].
  eapply runs_pure; [unfold mkdir_p; rewrite (jo_dir _ _ _ _ Hj); reflexivity|].
  change (utf8_encode (of_chars (json_text compact 0 (SJ.delta_header next gen docs chunks
    (json_blob (SJ.delta_body up del head)))))) with (json_blob (seg_header g)).
  eapply runs_pure.
  { unfold SJ.pack_header_length. destruct (Z.ltb_spec (Z.of_nat (slen (json_blob (seg_header g)))) (2 ^ 64));
       [reflexivity|lia]. }
  rewrite segment_path_eq by done.
  replace (Z.to_N (Z.of_nat (slen (json_blob (seg_header g))))) with (N.of_nat (slen (json_blob (seg_header g)))) by lia.
  change (json_blob (SJ.delta_body up del head)) with (json_blob (seg_body g)).
  fold (seg_bytes g). apply (runs_bind _ _ _ _ _
    (λ r t, r = Ok tt ∧ t = put (spath next) (File (seg_bytes g) (sj_fsync st)) (drop_file (tmp_of (spath next)) s))).
  { eapply runs_weaken; [apply publish_runs, (jo_dir _ _ _ _ Hj)| |by intros r t H; exact H].
    intros t Ht. left. by eapply journal_ok_segment. }
  2: { by intros e s' [? _]. }
  intros [] s1 [_ ->]. pose proof (published_final (SJ.segment_name next) jdir (File (seg_bytes g) (sj_fsync st)) s) as Hp.
  pose proof (journal_ok_segment _ _ _ _ _ _ Hj Hp) as Hj1.
  set (s1 := put (spath next) (File (seg_bytes g) (sj_fsync st)) (drop_file (tmp_of (spath next)) s)).
  fold (spath next) s1 in Hj1. assert (content s1 (spath next) = Some (seg_bytes g)) as Hc by apply content_put_eq.
  eapply runs_pure; [by apply file_size_run|].
  eapply runs_pure; [rewrite mk_deltas; reflexivity|].
  eapply runs_pure; [by apply sha256_file_run|]. cbv zeta.
  change (dict_set "next_seq" _ _) with (extend_manifest base segs g).
  apply (runs_bind _ _ _ _ _ (λ r t, r = Ok tt ∧ journal_ok t base (segs ++ [g]) (next + 1))).
  - pose proof (write_manifest_runs (extend_manifest base segs g) s1
      (extend_manifest_ok _ _ g (jo_base _ _ _ _ Hj)) (jo_dir _ _ _ _ Hj1)) as Hw.
    assert (∀ t f, published s1 mpath f t → ∀ n, content t (spath n) = content s1 (spath n)) as Hframe.
    { intros t f (_ & Hq & _) n. apply content_eq, Hq; apply (spath_not_tmp_mpath n). }
    eapply runs_weaken; [exact Hw| |].
    + intros t Ht. pose proof Ht as (Hdt & Hq & [Hm|Hm]); [left|right].
      * apply (journal_ok_frame s1); [done..|by apply content_eq|]. intros n _ _. by eapply Hframe.
      * apply (journal_ok_extend s1 t base segs g); [done|by split|done|by eapply Hframe|].
        unfold content. by rewrite Hm.
    + intros r t [-> ->]. split; [done|].
      pose proof (published_final STATE_JOURNAL_MANIFEST_NAME jdir (File (utf8_encode (of_chars (json_text (indented 2) 0
        (PDict (extend_manifest base segs g))))) (sj_fsync st)) s1) as Hpf. rewrite <-mpath_eq in Hpf.
      apply (journal_ok_extend s1 _ base segs g); [done|by split|done|by eapply Hframe|apply content_put_eq].
  - intros [] t [_ Ht]. by apply runs_ret.
  - by intros e t [? _].
Qed.
End journal.

(** ** Replaying a journal that is on disk *)

Definition entry_items (g : seg) : pydict := match seg_entry g with PDict d => d | _ => [] end.

Lemma py_get_entry g k v : dict_get k (entry_items g) = Some v →
  ∀ x, py_get (canon (seg_entry g)) k x = Ok (canon v).
Proof.
  intros H x. change (seg_entry g) with (PDict (entry_items g)).
  rewrite py_get_canon by apply entry_ok. by rewrite H.
Qed.

(** The effect of one segment on the loop state, without the disk. *)
Definition replay_step (r : SJ.replay) (g : seg) : result SJ.replay :=
  '(c, h, u, d) ← SJ.replay_segment (SJ.rp_coll r) (canon (seg_header g)) (canon (seg_body g));
  Ok (SJ.Replay c (sg_seq g) (SJ.rp_upserts r + u) (SJ.rp_deletes r + d) (Some h)).

Section replaying.
Context (st : StateJournalStore).

Lemma validated_segment_run s g : seg_on_disk st s g →
  SJ.validated_segment_path st (canon (seg_entry g)) s = Out [] s (Ok (spath st (sg_seq g))).
Proof.
  intros [(_ & _ & Hseq) Hc]. unfold SJ.validated_segment_path.
  erewrite bind_run_pure by (rewrite (py_get_entry g "file_name" (PStr (SJ.segment_name (sg_seq g))) eq_refl); reflexivity).
  cbv beta zeta. cbn [canon py_str]. rewrite segment_path_eq by done.
  erewrite bind_run_pure by (apply is_file_run). rewrite Hc, (bool_decide_eq_true_2 (is_Some (Some _))) by eauto.
  rewrite bool_decide_eq_false_2 by done. cbn [orb negb].
  erewrite bind_run_pure by (by apply sha256_file_run).
  erewrite bind_run_pure by (rewrite (py_get_entry g "sha256" (PStr (sha256_hex (seg_bytes g))) eq_refl); reflexivity).
  cbn [canon py_str]. by rewrite bool_decide_eq_true_2.
Qed.

Lemma replay_entry_run s r g : seg_on_disk st s g → SJ.rp_prev r < sg_seq g →
  SJ.replay_entry st r (canon (seg_entry g)) s = Out [] s (replay_step r g).
Proof.
  intros Hg Hlt. unfold SJ.replay_entry.
  assert (SJ.get_int (canon (seg_entry g)) "seq" (-1) = Ok (sg_seq g)) as Hs.
  { unfold SJ.get_int. by rewrite (py_get_entry g "seq" (PInt (sg_seq g)) eq_refl). }
  erewrite bind_run_pure by (rewrite Hs; reflexivity).
  destruct (Z.leb_spec (sg_seq g) (SJ.rp_prev r)); [lia|].
  erewrite bind_run_pure by (by apply validated_segment_run).
  assert (SJ.read_journal_segment (spath st (sg_seq g)) s
    = Out [] s (Ok (canon (seg_header g), canon (seg_body g)))) as Hr.
  { unfold SJ.read_journal_segment. erewrite bind_run_pure by (apply read_bytes_run, Hg).
    rewrite parse_seg_bytes by apply Hg. reflexivity. }
  erewrite bind_run_pure by exact Hr. cbv beta iota. unfold replay_step.
  unfold mbind at 1, io_bind, lift. cbn [value trace final].
  destruct (SJ.replay_segment _ _ _) as [[[[c h] u] d]|e]; done.
Qed.

Lemma replay_fold_run s r segs : Forall (seg_on_disk st s) segs →
  StronglySorted Z.lt (SJ.rp_prev r :: map sg_seq segs) →
  foldIO (SJ.replay_entry st) r (map canon (map seg_entry segs)) s = Out [] s (foldR replay_step r segs).
Proof.
  revert r; induction segs as [|g segs IH]; intros r HF Hs; [done|].
  apply Forall_cons in HF as [Hg HF]. cbn [map] in Hs.
  apply StronglySorted_cons in Hs as [Hlt Hs]. apply Forall_cons in Hlt as [Hlt _].
  cbn [map foldIO foldR]. destruct (replay_step r g) as [r'|e] eqn:E.
  - erewrite bind_run_pure by (rewrite replay_entry_run by done; by rewrite E). cbn [mbind result_bind].
    apply IH; [done|]. assert (SJ.rp_prev r' = sg_seq g) as ->; [|done].
    unfold replay_step in E. res_inv. destruct x as [[[c h] u] d]. by injection E as <-.
  - erewrite bind_run_err; [|rewrite replay_entry_run by done; rewrite E; reflexivity]. done.
Qed.

(** Replay with the manifest of a journal on disk, or with a committed copy of it whose
    segments are still there. *)
Lemma replay_run s payload base segs next manifest :
  (manifest = Some (mk_manifest base segs next) ∨
   manifest = None ∧ parse_manifest (content s (SJ.manifest_path st)) = Ok (Some (mk_manifest base segs next))) →
  Forall (seg_on_disk st s) segs → StronglySorted Z.lt (map sg_seq segs) →
  SJ.replay_onto_payload st payload manifest s = Out [] s (
    c ← SJ.payload_collections payload;
    r ← foldR replay_step (SJ.Replay c (-1) 0 0 None) segs;
    Ok (SJ.payload_of payload (SJ.rp_coll r) (SJ.rp_header r),
        (Z.of_nat (length segs), SJ.rp_upserts r, SJ.rp_deletes r))).
Proof.
  intros Hm HF Hs. unfold SJ.replay_onto_payload.
  assert (SJ.resolve_manifest st manifest s = Out [] s (Ok (mk_manifest base segs next))) as Hres.
  { destruct Hm as [->|[-> Hm]]; [done|]. by apply read_manifest_run. }
  erewrite bind_run_pure by exact Hres. cbv beta.
  destruct (SJ.payload_collections payload) as [c|e]; [|done].
  erewrite bind_run_pure by reflexivity. cbn [mbind result_bind].
  erewrite bind_run_pure by (rewrite mk_deltas; reflexivity).
  assert (StronglySorted Z.lt (SJ.rp_prev (SJ.Replay c (-1) 0 0 None) :: map sg_seq segs)) as Hs'.
  { apply StronglySorted_cons. split; [|done]. apply Forall_forall.
    intros z (g & -> & Hg)%list_elem_of_fmap. rewrite Forall_forall in HF.
    destruct (HF g Hg) as [(_ & _ & ?) _]. simpl. lia. }
  pose proof (replay_fold_run s _ _ HF Hs') as Hf.
  destruct (foldR replay_step _ segs) as [r|e].
  - erewrite bind_run_pure by exact Hf. by rewrite !length_map.
  - by erewrite bind_run_err by exact Hf.
Qed.
End replaying.

(** ** Specification: documents and deltas *)

Record doc := Doc { d_hash : string; d_ids : list string; d_rows : list pydict; d_meta : pydict }.

(** A document row as it is journaled. *)
Definition enc_doc (p : string * doc) : pyval :=
  dict_of [("document_id", PStr p.1); ("document_hash", PStr (d_hash p.2));
           ("chunk_ids", PList (map PStr (d_ids p.2))); ("chunks", PList (map PDict (d_rows p.2)));
           ("metadata", PDict (d_meta p.2))].

(** The document as it comes back from a file. *)
Definition cdoc (d : doc) : doc :=
  Doc (d_hash d) (d_ids d) (map canon_items (d_rows d)) (canon_items (d_meta d)).

Definition doc_chunks (d : doc) : gmap string pyval := list_to_map (zip (d_ids d) (map PDict (d_rows d))).

(** Chunk ids are distinct and are those of the rows. *)
Definition doc_wf (d : doc) : Prop :=
  NoDup (d_ids d) ∧ Forall2 (λ cid row, dict_get "chunk_id" row = Some (PStr cid)) (d_ids d) (d_rows d).

Notation docs := (gmap string doc).

(** Every chunk id belongs to one document. *)
Definition docs_wf (m : docs) : Prop :=
  (∀ id d, m !! id = Some d → doc_wf d) ∧
  (∀ i j di dj cid, m !! i = Some di → m !! j = Some dj → cid ∈ d_ids di → cid ∈ d_ids dj → i = j).

Definition owns (m : docs) (cid : string) (row : pyval) : Prop :=
  ∃ id d, m !! id = Some d ∧ doc_chunks d !! cid = Some row.

(** All the chunk rows of a document map. *)
Definition chunk_map (m : docs) : gmap string pyval := map_fold (λ _ d acc, doc_chunks d ∪ acc) ∅ m.

Record delta := Delta { dl_up : list (string * doc); dl_del : list string; dl_head : pydict; dl_gen : Z }.

Definition put_doc (m : docs) (p : string * doc) : docs := <[p.1 := cdoc p.2]> m.
Definition apply_delta (m : docs) (δ : delta) : docs :=
  fold_left put_doc (dl_up δ) (fold_left (λ m id, delete id m) (dl_del δ) m).

(** Upserted documents are well formed, serializable and take no chunk id of another document. *)
Fixpoint upserts_wf (m : docs) (ups : list (string * doc)) : Prop :=
  match ups with
  | [] => True
  | p :: ups =>
      doc_wf p.2 ∧ json_ok (enc_doc p) = true ∧
      (∀ j dj cid, j ≠ p.1 → m !! j = Some dj → cid ∈ d_ids p.2 → cid ∈ d_ids dj → False) ∧
      upserts_wf (put_doc m p) ups
  end.

Definition delta_seg (m : docs) (n : Z) (δ : delta) : seg :=
  Seg n (dl_gen δ) (Z.of_nat (size (apply_delta m δ))) (Z.of_nat (size (chunk_map (apply_delta m δ))))
    (map enc_doc (dl_up δ)) (dl_del δ) (dl_head δ).

Definition delta_wf (m : docs) (δ : delta) : Prop :=
  upserts_wf (fold_left (λ m id, delete id m) (dl_del δ) m) (dl_up δ) ∧ json_ok (PDict (dl_head δ)) = true.

(** The collections of a replay stand for a document map. *)
Record repr (c : SJ.collections) (m : docs) : Prop := {
  rp_hashes : SJ.document_hashes c = d_hash <$> m;
  rp_ids : SJ.document_chunk_ids c = (λ d, map PStr (d_ids d)) <$> m;
  rp_meta : SJ.document_metadata c = d_meta <$> m;
  rp_chunks : ∀ cid row, SJ.chunks_by_id c !! cid = Some row ↔ owns m cid row }.

(** *** Chunk maps *)

Lemma doc_chunks_elem d cid row : doc_wf d → doc_chunks d !! cid = Some row → cid ∈ d_ids d.
Proof.
  intros _ H. apply elem_of_list_to_map_2 in H. by apply elem_of_zip_l in H.
Qed.

Lemma doc_chunks_owner m i j di cid row : docs_wf m → m !! i = Some di → cid ∈ d_ids di →
  ∀ dj, m !! j = Some dj → doc_chunks dj !! cid = Some row → j = i.
Proof.
  intros [Hw Hu] Hi Hc dj Hj Hr. eapply Hu; [done..| |done]. eapply doc_chunks_elem; eauto.
Qed.

Lemma docs_wf_delete m id : docs_wf m → docs_wf (delete id m).
Proof.
  intros [Hw Hu]. split.
  - intros i d [_ Hi]%lookup_delete_Some. eauto.
  - intros i j di dj cid [_ Hi]%lookup_delete_Some [_ Hj]%lookup_delete_Some. eauto.
Qed.

Lemma docs_wf_insert m id d : docs_wf m → doc_wf d →
  (∀ j dj cid, j ≠ id → m !! j = Some dj → cid ∈ d_ids d → cid ∈ d_ids dj → False) →
  docs_wf (<[id := d]> m).
Proof.
  intros [Hw Hu] Hd Hdis. split.
  - intros i di [[-> <-]|[_ Hi]]%lookup_insert_Some; eauto.
  - intros i j di dj cid [[-> <-]|[Hni Hi]]%lookup_insert_Some [[-> <-]|[Hnj Hj]]%lookup_insert_Some Hci Hcj;
      [done|exfalso; eauto..|eauto].
Qed.

Lemma chunk_map_owns m cid row : docs_wf m → chunk_map m !! cid = Some row ↔ owns m cid row.
Proof.
  revert cid row. unfold chunk_map.
  apply (map_fold_weak_ind (λ acc m, ∀ cid row, docs_wf m → acc !! cid = Some row ↔ owns m cid row)).
  - intros cid row _. rewrite lookup_empty. split; [done|]. by intros (id & d & ? & _).
  - intros id d m' acc Hid IH cid row Hwf.
    assert (docs_wf m') as Hwf'.
    { rewrite <-(delete_insert_id m' id d) by done. by apply docs_wf_delete. }
    rewrite lookup_union_Some_raw, IH by done. unfold owns. split.
    + intros [H|[_ (j & dj & Hj & H)]].
      * exists id, d. by rewrite lookup_insert_eq.
      * exists j, dj. rewrite lookup_insert_ne; [done|]. intros ->. congruence.
    + intros (j & dj & [[<- <-]|[Hne Hj]]%lookup_insert_Some & H); [by left|right].
      split; [|by exists j, dj]. destruct (doc_chunks d !! cid) as [r|] eqn:E; [|done].
      exfalso. apply Hne. symmetry. eapply (doc_chunks_owner (<[id:=d]> m')); [done|apply lookup_insert_eq| |by rewrite lookup_insert_ne|done].
      eapply doc_chunks_elem; [|done]. apply Hwf with id. apply lookup_insert_eq.
Qed.

Lemma repr_chunk_map c m : repr c m → docs_wf m → SJ.chunks_by_id c = chunk_map m.
Proof.
  intros Hr Hwf. apply map_eq. intros cid. apply option_eq. intros row.
  by rewrite (rp_chunks _ _ Hr), chunk_map_owns.
Qed.

Lemma pop_chunks_lookup ids M cid :
  SJ.pop_chunks (map PStr ids) M !! cid = if bool_decide (cid ∈ ids) then None else M !! cid.
Proof.
  unfold SJ.pop_chunks. revert M; induction ids as [|i ids IH]; intros M; simpl.
  - done.
  - rewrite IH. destruct (decide (cid = i)) as [->|Hne].
    + rewrite lookup_delete_eq, (bool_decide_eq_true_2 (i ∈ i :: ids)) by left. by destruct (bool_decide _).
    + rewrite lookup_delete_ne by done.
      by rewrite (bool_decide_ext (cid ∈ ids) (cid ∈ i :: ids)) by (rewrite elem_of_cons; naive_solver).
Qed.

(** The chunks left after a document's chunks are popped are those of the others. *)
Lemma pop_document c m id d : repr c m → docs_wf m → m !! id = Some d → ∀ cid row,
  SJ.pop_chunks (map PStr (d_ids d)) (SJ.chunks_by_id c) !! cid = Some row ↔ owns (delete id m) cid row.
Proof.
  intros Hr Hwf Hd cid row. rewrite pop_chunks_lookup. case_bool_decide as Hc.
  - split; [done|]. intros (j & dj & [Hne Hj]%lookup_delete_Some & H).
    destruct Hne. symmetry. by eapply doc_chunks_owner.
  - rewrite (rp_chunks _ _ Hr). split; intros (j & dj & Hj & H).
    + exists j, dj. split; [|done]. apply lookup_delete_Some. split; [|done]. intros ->.
      simplify_eq. destruct Hc. eapply doc_chunks_elem; [|done]. by eapply Hwf.
    + apply lookup_delete_Some in Hj as [_ Hj]. by exists j, dj.
Qed.

(** [old]: the chunk ids recorded for a document, none when it is not there. *)
Lemma pop_recorded c m id : repr c m → docs_wf m → ∀ cid row,
  SJ.pop_chunks (match SJ.document_chunk_ids c !! id with Some l => l | None => [] end)
    (SJ.chunks_by_id c) !! cid = Some row ↔ owns (delete id m) cid row.
Proof.
  intros Hr Hwf cid row. rewrite (rp_ids _ _ Hr), lookup_fmap.
  destruct (m !! id) as [d|] eqn:E; cbn [fmap option_fmap option_map].
  - by apply pop_document.
  - rewrite delete_id by done. apply (rp_chunks _ _ Hr).
Qed.

Lemma replay_delete_repr c m id : repr c m → docs_wf m →
  repr (SJ.replay_delete c (PStr id)) (delete id m) ∧ docs_wf (delete id m).
Proof.
  intros Hr Hwf. split; [|by apply docs_wf_delete]. unfold SJ.replay_delete. cbn [py_str]. split; cbn.
  - by rewrite (rp_hashes _ _ Hr), fmap_delete.
  - by rewrite (rp_ids _ _ Hr), fmap_delete.
  - by rewrite (rp_meta _ _ Hr), fmap_delete.
  - by apply pop_recorded.
Qed.

(** *** Upserts *)

Lemma py_index_canon d k v : json_ok (PDict d) = true → dict_get k d = Some v →
  py_index (canon (PDict d)) k = Ok (canon v).
Proof. intros Hok H. rewrite canon_dict. cbn [py_index]. by rewrite dict_get_canon, H. Qed.

Definition doc_items (p : string * doc) : pydict := match enc_doc p with PDict d => d | _ => [] end.

Lemma py_index_doc p k v : json_ok (enc_doc p) = true → dict_get k (doc_items p) = Some v →
  py_index (canon (enc_doc p)) k = Ok (canon v).
Proof. apply (py_index_canon (doc_items p)). Qed.
Lemma py_get_doc p k v x : json_ok (enc_doc p) = true → dict_get k (doc_items p) = Some v →
  py_get (canon (enc_doc p)) k x = Ok (canon v).
Proof. intros Hok H. etrans; [by apply (py_get_canon (doc_items p))|]. by rewrite H. Qed.

Lemma enc_doc_parts p : json_ok (enc_doc p) = true →
  Forall (λ row, json_ok (PDict row) = true) (d_rows p.2) ∧ json_ok (PDict (d_meta p.2)) = true.
Proof.
  intros (_ & _ & HF)%json_ok_dict. cbn [map] in HF. rewrite !Forall_cons in HF.
  destruct HF as (_ & _ & _ & Hrows & Hmeta & _). cbn [fst snd] in *. split; [|done].
  cbn [json_ok] in Hrows. apply Forall_forall. intros row Hrow. rewrite forallb_forall in Hrows.
  apply Hrows. by apply in_map, list_elem_of_In.
Qed.

Lemma doc_wf_cdoc d : doc_wf d → Forall (λ row, json_ok (PDict row) = true) (d_rows d) → doc_wf (cdoc d).
Proof.
  intros [Hnd HF] Hok. split; [done|]. cbn. revert Hok. clear Hnd.
  induction HF as [|cid row ids rows Hc HF IH]; cbn; [constructor|].
  intros [Hrow Hok]%Forall_cons. constructor; [|by apply IH]. by rewrite dict_get_canon, Hc.
Qed.

Definition store_row (m : gmap string pyval) (row : pyval) : result (gmap string pyval) :=
  cid ← py_index row "chunk_id"; d ← py_dict row; Ok (<[py_str cid := PDict d]> m).

Lemma store_rows_run ids rows M : NoDup ids →
  Forall2 (λ cid row, dict_get "chunk_id" row = Some (PStr cid)) ids rows →
  Forall (λ row, json_ok (PDict row) = true) rows →
  foldR store_row M (map canon (map PDict rows))
  = Ok (list_to_map (zip ids (map PDict (map canon_items rows))) ∪ M).
Proof.
  intros Hnd HF; revert M. induction HF as [|cid row ids rows Hc HF IH]; intros M Hok;
    cbn [map foldR zip zip_with list_to_map foldr].
  - by rewrite (left_id_L ∅ (∪)).
  - apply NoDup_cons in Hnd as [Hni Hnd]. apply Forall_cons in Hok as [Hrow Hok].
    unfold store_row at 2. rewrite (py_index_canon _ _ _ Hrow Hc). cbn [mbind result_bind canon py_dict py_str].
    rewrite IH by done. f_equal.
    etrans; [symmetry; apply insert_union_r|apply insert_union_l].
    apply not_elem_of_list_to_map_1. intros Hin. apply Hni.
    apply list_elem_of_fmap in Hin as ([x y] & -> & Hin). by apply elem_of_zip_l in Hin.
Qed.

Lemma replay_upsert_repr c m p : repr c m → docs_wf m → upserts_wf m [p] →
  ∃ c', SJ.replay_upsert c (canon (enc_doc p)) = Ok c' ∧ repr c' (put_doc m p) ∧ docs_wf (put_doc m p).
Proof.
  intros Hr Hwf (Hd & Hok & Hdis & _). destruct (enc_doc_parts p Hok) as [Hrows Hmeta].
  pose proof (doc_wf_cdoc _ Hd Hrows) as Hcd. unfold SJ.replay_upsert.
  rewrite (py_index_doc p "document_id" (PStr p.1) Hok eq_refl). cbn [mbind result_bind canon py_str].
  rewrite (py_get_doc p "chunks" (PList (map PDict (d_rows p.2))) _ Hok eq_refl).
  cbn [mbind result_bind canon py_iter].
  change (λ (m0 : gmap string pyval) (row : pyval), _) with store_row.
  rewrite (store_rows_run (d_ids p.2)) by (done || apply Hd). cbn [mbind result_bind].
  rewrite (py_index_doc p "document_hash" (PStr (d_hash p.2)) Hok eq_refl). cbn [mbind result_bind canon py_str].
  rewrite (py_get_doc p "chunk_ids" (PList (map PStr (d_ids p.2))) _ Hok eq_refl).
  cbn [mbind result_bind canon py_iter].
  rewrite (py_get_doc p "metadata" (PDict (d_meta p.2)) _ Hok eq_refl). cbn [mbind result_bind].
  rewrite canon_dict.
  assert (py_dict (py_or (PDict (canon_items (d_meta p.2))) (PDict [])) = Ok (canon_items (d_meta p.2))) as ->.
  { unfold py_or. cbn [truthy]. by destruct (canon_items (d_meta p.2)). }
  cbn [mbind result_bind]. eexists. split; [reflexivity|]. split.
  2: { unfold put_doc. by apply docs_wf_insert. }
  unfold put_doc. split; cbn.
  - by rewrite (rp_hashes _ _ Hr), fmap_insert.
  - rewrite (rp_ids _ _ Hr), fmap_insert. f_equal. cbn. rewrite !map_map. by apply map_ext.
  - by rewrite (rp_meta _ _ Hr), fmap_insert.
  - intros cid row. fold (doc_chunks (cdoc p.2)). rewrite lookup_union_Some_raw.
    rewrite (pop_recorded _ _ _ Hr Hwf). unfold owns. split.
    + intros [H|[_ (j & dj & [Hne Hj]%lookup_delete_Some & H)]].
      * exists p.1, (cdoc p.2). by rewrite lookup_insert_eq.
      * exists j, dj. by rewrite lookup_insert_ne.
    + intros (j & dj & [[<- <-]|[Hne Hj]]%lookup_insert_Some & H); [by left|right].
      split; [|exists j, dj; by rewrite lookup_delete_ne].
      destruct (doc_chunks (cdoc p.2) !! cid) as [r|] eqn:E; [|done]. exfalso.
      eapply (Hdis j dj cid); [done..| |].
      * by apply (doc_chunks_elem (cdoc p.2)) in E.
      * eapply doc_chunks_elem; [by eapply Hwf|done].
Qed.

Lemma replay_deletes_repr c m ids : repr c m → docs_wf m →
  let m' := fold_left (λ m id, delete id m) ids m in
  repr (fold_left SJ.replay_delete (map PStr ids) c) m' ∧ docs_wf m'.
Proof.
  revert c m; induction ids as [|id ids IH]; intros c m Hr Hwf; [done|]. cbn [map fold_left].
  destruct (replay_delete_repr c m id Hr Hwf). by apply IH.
Qed.

Lemma replay_upserts_repr c m ups : repr c m → docs_wf m → upserts_wf m ups →
  ∃ c', foldR SJ.replay_upsert c (map canon (map enc_doc ups)) = Ok c' ∧
        repr c' (fold_left put_doc ups m) ∧ docs_wf (fold_left put_doc ups m).
Proof.
  revert c m; induction ups as [|p ups IH]; intros c m Hr Hwf Hup; [by exists c|].
  destruct Hup as (H1 & H2 & H3 & Hup). cbn [map foldR fold_left].
  destruct (replay_upsert_repr c m p Hr Hwf) as (c' & -> & Hr' & Hwf'); [done|]. by apply IH.
Qed.

(** *** Replaying deltas *)

Definition body_items (g : seg) : pydict := match seg_body g with PDict d => d | _ => [] end.

Lemma py_get_body g k v x : json_ok (seg_body g) = true → dict_get k (body_items g) = Some v →
  py_get (canon (seg_body g)) k x = Ok (canon v).
Proof. intros Hok H. etrans; [by apply (py_get_canon (body_items g))|]. by rewrite H. Qed.

Lemma replay_step_repr r m n δ : repr (SJ.rp_coll r) m → docs_wf m → delta_wf m δ →
  json_ok (seg_body (delta_seg m n δ)) = true →
  ∃ r', replay_step r (delta_seg m n δ) = Ok r' ∧ repr (SJ.rp_coll r') (apply_delta m δ) ∧
    docs_wf (apply_delta m δ) ∧ SJ.rp_header r' = Some (canon_items (dl_head δ)) ∧
    SJ.rp_upserts r' = SJ.rp_upserts r + Z.of_nat (length (dl_up δ)) ∧
    SJ.rp_deletes r' = SJ.rp_deletes r + Z.of_nat (length (dl_del δ)).
Proof.
  intros Hr Hwf [Hup Hhead] Hok. set (g := delta_seg m n δ) in *.
  destruct (replay_deletes_repr _ m (dl_del δ) Hr Hwf) as [Hr1 Hwf1].
  destruct (replay_upserts_repr _ _ (dl_up δ) Hr1 Hwf1 Hup) as (c' & Hc' & Hr2 & Hwf2).
  fold (apply_delta m δ) in Hr2, Hwf2. unfold replay_step, SJ.replay_segment.
  rewrite (py_get_body g "deleted_document_ids" (PList (map PStr (dl_del δ))) _ Hok eq_refl).
  cbn [mbind result_bind canon py_iter].
  assert (map canon (map PStr (dl_del δ)) = map PStr (dl_del δ)) as -> by (rewrite map_map; by apply map_ext).
  rewrite (py_get_body g "upserted_documents" (PList (map enc_doc (dl_up δ))) _ Hok eq_refl).
  cbn [mbind result_bind canon py_iter]. rewrite Hc'. cbn [mbind result_bind].
  rewrite (get_int_header g "document_count_after" (Z.of_nat (size (apply_delta m δ))) eq_refl).
  cbn [mbind result_bind]. rewrite (rp_hashes _ _ Hr2), map_size_fmap, Z.eqb_refl, andb_false_r.
  rewrite (get_int_header g "chunk_count_after" (Z.of_nat (size (chunk_map (apply_delta m δ)))) eq_refl).
  cbn [mbind result_bind]. rewrite (repr_chunk_map _ _ Hr2 Hwf2), Z.eqb_refl, andb_false_r.
  rewrite (py_get_body g "state_header" (PDict (dl_head δ)) _ Hok eq_refl). cbn [mbind result_bind].
  rewrite canon_dict.
  assert (py_dict (py_or (PDict (canon_items (dl_head δ))) (PDict [])) = Ok (canon_items (dl_head δ))) as ->.
  { unfold py_or. cbn [truthy]. by destruct (canon_items (dl_head δ)). }
  cbn [mbind result_bind]. eexists. split; [reflexivity|]. cbn. rewrite !length_map. split_and!; done.
Qed.

Fixpoint segs_for (m : docs) (n : Z) (ds : list delta) : list seg :=
  match ds with [] => [] | δ :: ds => delta_seg m n δ :: segs_for (apply_delta m δ) (n + 1) ds end.

(** Each delta is well formed on the documents before it, and its segment fits the format. *)
Fixpoint deltas_wf (m : docs) (n : Z) (ds : list delta) : Prop :=
  match ds with
  | [] => True
  | δ :: ds => delta_wf m δ ∧ seg_ok (delta_seg m n δ) ∧ deltas_wf (apply_delta m δ) (n + 1) ds
  end.

Definition apply_deltas (m : docs) (ds : list delta) : docs := fold_left apply_delta ds m.

Lemma replay_deltas_repr r m n ds : repr (SJ.rp_coll r) m → docs_wf m → deltas_wf m n ds →
  ∃ r', foldR replay_step r (segs_for m n ds) = Ok r' ∧ repr (SJ.rp_coll r') (apply_deltas m ds) ∧
    docs_wf (apply_deltas m ds).
Proof.
  revert r m n; induction ds as [|δ ds IH]; intros r m n Hr Hwf Hds; [by exists r|].
  destruct Hds as (Hδ & Hok & Hds). cbn [segs_for foldR].
  destruct (replay_step_repr r m n δ Hr Hwf Hδ) as (r' & -> & Hr' & Hwf' & _); [apply Hok|].
  by apply IH.
Qed.

Section refinement.
Context (st : StateJournalStore).

(** Loading [payload] through the journal on disk gives the documents [m]. *)
Definition loads_docs (s : fsys) (payload : pydict) (m : docs) : Prop :=
  ∃ c h n, SJ.replay_onto_payload st payload None s = Out [] s (Ok (SJ.payload_of payload c h, n)) ∧ repr c m.

(** The calls a writer makes, one per mutation batch. *)
Fixpoint append_all (m : docs) (ds : list delta) : io unit :=
  match ds with
  | [] => mret tt
  | δ :: ds =>
      let m' := apply_delta m δ in
      _ ← SJ.append_delta st (map enc_doc (dl_up δ)) (dl_del δ) (dl_head δ)
            (Z.of_nat (size m')) (Z.of_nat (size (chunk_map m'))) (dl_gen δ);
      append_all m' ds
  end.

Lemma journal_loads s base m0 n ds next payload c0 : journal_ok st s base (segs_for m0 n ds) next →
  SJ.payload_collections payload = Ok c0 → repr c0 m0 → docs_wf m0 → deltas_wf m0 n ds →
  loads_docs s payload (apply_deltas m0 ds).
Proof.
  intros Hj Hp Hr Hwf Hds. unfold loads_docs.
  destruct (replay_deltas_repr (SJ.Replay c0 (-1) 0 0 None) m0 n ds Hr Hwf Hds) as (r' & Hf & Hr' & _).
  erewrite (replay_run st s payload) by
    (try (right; split; [reflexivity|apply (jo_manifest _ _ _ _ _ Hj)]); apply Hj).
  rewrite Hp. cbn [mbind result_bind]. rewrite Hf. cbn [mbind result_bind]. eauto.
Qed.

Lemma segs_for_snoc m n ds δ :
  segs_for m n (ds ++ [δ]) = segs_for m n ds ++ [delta_seg (apply_deltas m ds) (n + Z.of_nat (length ds)) δ].
Proof.
  revert m n; induction ds as [|δ' ds IH]; intros m n; cbn [app segs_for length].
  - by rewrite Z.add_0_r.
  - rewrite IH. by replace (n + Z.of_nat (S (length ds))) with (n + 1 + Z.of_nat (length ds)) by lia.
Qed.

Lemma deltas_wf_app m n ds ds' : deltas_wf m n (ds ++ ds') ↔
  deltas_wf m n ds ∧ deltas_wf (apply_deltas m ds) (n + Z.of_nat (length ds)) ds'.
Proof.
  revert m n; induction ds as [|δ ds IH]; intros m n; cbn [app deltas_wf length].
  - rewrite Z.add_0_r. cbn. tauto.
  - rewrite IH. replace (n + Z.of_nat (S (length ds))) with (n + 1 + Z.of_nat (length ds)) by lia.
    cbn. tauto.
Qed.

(** After [done] and while [todo] is being journaled, the journal always loads some prefix. *)
Lemma append_all_runs base m0 n payload c0 todo : SJ.payload_collections payload = Ok c0 → repr c0 m0 →
  docs_wf m0 → ∀ done s, deltas_wf m0 n (done ++ todo) →
  journal_ok st s base (segs_for m0 n done) (n + Z.of_nat (length done)) →
  runs (λ t, ∃ k, (k ≤ length (done ++ todo))%nat ∧ loads_docs t payload (apply_deltas m0 (take k (done ++ todo))))
    (append_all (apply_deltas m0 done) todo) s
    (λ r t, r = Ok tt ∧ loads_docs t payload (apply_deltas m0 (done ++ todo))).
Proof.
  intros Hp Hr Hwf. induction todo as [|δ todo IH]; intros done s Hds Hj.
  - apply runs_ret. split; [done|]. rewrite app_nil_r in *. by eapply journal_loads.
  - pose proof Hds as (Hd1 & Hδ & Hok & Htodo)%deltas_wf_app.
    assert (∀ t, journal_ok st t base (segs_for m0 n (done ++ [δ])) (n + Z.of_nat (length (done ++ [δ]))) →
      loads_docs t payload (apply_deltas m0 (done ++ [δ]))) as Hl1.
    { intros t Ht. eapply journal_loads; [done..|]. apply deltas_wf_app. cbn [deltas_wf]. by split_and!. }
    assert (∀ t, journal_ok st t base (segs_for m0 n done) (n + Z.of_nat (length done)) →
      loads_docs t payload (apply_deltas m0 done)) as Hl0.
    { intros t Ht. by eapply journal_loads. }
    assert (∀ t, journal_ok st t base (segs_for m0 n done ++
        [delta_seg (apply_deltas m0 done) (n + Z.of_nat (length done)) δ]) (n + Z.of_nat (length done) + 1) →
      journal_ok st t base (segs_for m0 n (done ++ [δ])) (n + Z.of_nat (length (done ++ [δ])))) as Hsn.
    { intros t Ht. rewrite segs_for_snoc, length_app. cbn [length].
      by replace (n + Z.of_nat (length done + 1)) with (n + Z.of_nat (length done) + 1) by lia. }
    cbn [append_all]. eapply (runs_bind _ _ _ _ _
      (λ r t, is_Ok r ∧ journal_ok st t base (segs_for m0 n (done ++ [δ])) (n + Z.of_nat (length (done ++ [δ]))))).
    + eapply runs_weaken; [apply append_delta_runs; [exact Hj|exact Hok]| |].
      * intros t [Ht|Ht].
        -- exists (length done). split; [rewrite length_app; lia|]. rewrite take_app_length. by apply Hl0.
        -- exists (length (done ++ [δ])). split; [rewrite !length_app; cbn [length]; lia|].
           change (done ++ δ :: todo) with (done ++ [δ] ++ todo).
           rewrite (assoc_L (++) done [δ] todo), take_app_length. by apply Hl1, Hsn.
      * intros r t [-> Ht]. split; [by eexists|by apply Hsn].
    + intros a t [_ Ht]. specialize (IH (done ++ [δ]) t). rewrite <-(assoc_L (++)) in IH.
      unfold apply_deltas in IH at 2. rewrite fold_left_app in IH. by apply IH.
    + by intros e t [[? ?] _].
Qed.
End refinement.

(** ** Anchoring a base, rolling back, failing closed *)

Section lifecycle.
Context (st : StateJournalStore).

Notation mpath := (SJ.manifest_path st).
Notation jdir := (SJ.journal_dir st).

(** The base entry [record_base] writes for a snapshot of bytes [b]. *)
Definition base_entry (b : bytes) (document_count chunk_count : Z) : pyval :=
  dict_of [("file_name", PStr (pname (base_path st))); ("sha256", PStr (sha256_hex b));
           ("file_bytes", PInt (Z.of_nat (slen b))); ("document_count", PInt document_count);
           ("chunk_count", PInt chunk_count)].

Definition base_manifest (b : bytes) (dc cc next : Z) : pydict :=
  [(PStr "schema_version", PInt STATE_JOURNAL_SCHEMA_VERSION); (PStr "base", base_entry b dc cc);
   (PStr "deltas", PList []); (PStr "next_seq", PInt (next + 1))].

Lemma base_manifest_ok b dc cc next : json_ok (PDict (base_manifest b dc cc next)) = true.
Proof. reflexivity. Qed.
Lemma base_manifest_canon b dc cc next :
  canon_items (base_manifest b dc cc next) = mk_manifest (base_entry b dc cc) [] (next + 1).
Proof. reflexivity. Qed.

Lemma journal_ok_base s b dc cc next : 0 <= next → dir_exists s jdir = true →
  content s mpath = Some (utf8_encode (of_chars (json_text (indented 2) 0 (PDict (base_manifest b dc cc next))))) →
  journal_ok st s (base_entry b dc cc) [] (next + 1).
Proof.
  intros Hn Hd Hm. split; try done.
  - rewrite Hm, manifest_bytes_parse by reflexivity. by rewrite base_manifest_canon.
  - constructor.
  - split; [lia|done].
Qed.

Lemma unlink_all_runs names s : runs (λ t, dirs t = dirs s ∧ ∀ q, (∀ n, n ∈ names → q ≠ pjoin jdir n) → files t !! q = files s !! q)
  (SJ.unlink_all st names) s
  (λ r t, r = Ok tt ∧ dirs t = dirs s ∧ (∀ n, n ∈ names → files t !! pjoin jdir n = None) ∧
          ∀ q, (∀ n, n ∈ names → q ≠ pjoin jdir n) → files t !! q = files s !! q).
Proof.
  unfold SJ.unlink_all. revert s; induction names as [|n names IH]; intros s.
  { apply runs_ret. split_and!; try done. by intros n ?%elem_of_nil. }
  cbn [foldIO]. apply (runs_bind _ _ _ _ _ (λ r t, r = Ok tt ∧ dirs t = dirs s ∧ files t !! pjoin jdir n = None ∧
    ∀ q, q ≠ pjoin jdir n → files t !! q = files s !! q)).
  - unfold unlink_ok, runs. destruct (files s !! pjoin jdir n) as [f|] eqn:E; cbn.
    + split; [constructor; [|done]|]; cbn.
      * split; [done|]. intros q Hq. apply lookup_delete_ne. intros <-. by eapply Hq; [left|].
      * split_and!; [done..|apply lookup_delete_eq|]. intros q Hq. by apply lookup_delete_ne.
    + split; [constructor|]. done.
  - intros [] t (_ & Hd & Hn & Hq). eapply runs_weaken; [apply IH| |].
    + intros t' [Hd' Hq']. split; [congruence|]. intros q H. rewrite Hq'; [apply Hq, H; by left|].
      intros m Hm. apply H. by right.
    + intros r t' (-> & Hd' & Hn' & Hq'). split_and!; [done|congruence| |].
      * intros m [->|Hm]%elem_of_cons; [|by apply Hn'].
        destruct (decide (pjoin jdir n ∈ map (pjoin jdir) names)) as [(m & E & Hm)%list_elem_of_fmap|Hno].
        -- rewrite E. by apply Hn'.
        -- rewrite Hq'; [done|]. intros m Hm E. apply Hno, list_elem_of_fmap. eauto.
      * intros q H. rewrite Hq'; [apply Hq, H; by left|]. intros m Hm. apply H. by right.
  - by intros e t [? _].
Qed.

Definition seg_names (segs : list seg) : list string := map (λ g, SJ.segment_name (sg_seq g)) segs.

Lemma segment_name_truthy n : truthy (PStr (SJ.segment_name n)) = true.
Proof. reflexivity. Qed.

Lemma mk_segment_names base segs next :
  SJ.manifest_segment_names (Some (mk_manifest base segs next)) = Ok (seg_names segs).
Proof.
  unfold SJ.manifest_segment_names, mk_manifest. fold (mk_manifest base segs next). rewrite mk_deltas.
  cbn [mbind result_bind]. rewrite !mapR_map.
  assert (mapR (λ x, n ← py_get (canon (seg_entry x)) "file_name" PNone;
      if truthy n then y ← py_index (canon (seg_entry x)) "file_name"; Ok [py_str y] else Ok []) segs
    = Ok (map (λ g, [SJ.segment_name (sg_seq g)]) segs)) as ->.
  { rewrite <-mapR_total. apply mapR_ext, Forall_forall. intros g _.
    rewrite (py_get_entry g "file_name" (PStr (SJ.segment_name (sg_seq g))) eq_refl). cbn [mbind result_bind canon].
    rewrite segment_name_truthy. change (seg_entry g) with (PDict (entry_items g)).
    by rewrite (py_index_canon (entry_items g) "file_name" (PStr (SJ.segment_name (sg_seq g))) (entry_ok g) eq_refl). }
  cbn [mbind result_bind]. f_equal. unfold seg_names. induction segs as [|g segs IH]; [done|].
  cbn [map concat app]. by rewrite IH.
Qed.

Lemma mpath_not_named segs n : Forall (λ g, 0 <= sg_seq g) segs → n ∈ seg_names segs → mpath ≠ pjoin jdir n.
Proof.
  intros HF (g & -> & Hg)%list_elem_of_fmap. rewrite Forall_forall in HF.
  rewrite segment_path_eq by auto. intros E. by apply (spath_mpath st (sg_seq g)).
Qed.

Lemma segs_nonneg s segs : Forall (seg_on_disk st s) segs → Forall (λ g, 0 <= sg_seq g) segs.
Proof. intros HF. eapply Forall_impl; [exact HF|]. by intros g [(_ & _ & ?) _]. Qed.

(** The tail of [record_base]: write the new manifest, then drop the stale segments. *)
Lemma rebase_runs s t0 b dc cc next base segs :
  journal_ok st s base segs next → files t0 = files s → dirs s ⊆ dirs t0 → dir_exists t0 jdir = true →
  runs (λ t, journal_ok st t base segs next ∨ journal_ok st t (base_entry b dc cc) [] (next + 1))
    (_ ← SJ.write_manifest st (base_manifest b dc cc next);
     _ ← SJ.unlink_all st (seg_names segs);
     mret (SJWrite (pname (base_path st)) (Z.of_nat (slen b)) "base")) t0
    (λ r t, r = Ok (SJWrite (pname (base_path st)) (Z.of_nat (slen b)) "base") ∧
            journal_ok st t (base_entry b dc cc) [] (next + 1) ∧
            ∀ g, g ∈ segs → content t (spath st (sg_seq g)) = None).
Proof.
  intros Hj Hf Hds Hd. pose proof (segs_nonneg _ _ (jo_segs _ _ _ _ _ Hj)) as Hnn.
  assert (0 <= next) as Hn by apply Hj.
  assert (journal_ok st t0 base segs next) as Hj0.
  { destruct Hj as [? Hm ? Hs ? ?]. split; try done; unfold content in *; rewrite ?Hf; try done.
    eapply Forall_impl; [exact Hs|]. intros g [? Hc]. split; [done|]. unfold content in *. by rewrite Hf. }
  apply (runs_bind _ _ _ _ _ (λ r t, r = Ok tt ∧ journal_ok st t (base_entry b dc cc) [] (next + 1))).
  - eapply runs_weaken; [apply write_manifest_runs; [apply base_manifest_ok|done]| |].
    + intros t (Hdt & Hq & [Hm|Hm]); [left|right].
      * apply (journal_ok_frame st t0); [done..|by apply content_eq|]. intros n _ _. apply content_eq, Hq;
          apply (spath_not_tmp_mpath st n).
      * apply journal_ok_base; [done|unfold dir_exists in *; by rewrite Hdt|]. unfold content. by rewrite Hm.
    + intros r t [-> ->]. split; [done|]. by apply journal_ok_base; [| |apply content_put_eq].
  - intros [] t [_ Ht].
    assert (∀ t', dirs t' = dirs t → files t' !! mpath = files t !! mpath →
      journal_ok st t' (base_entry b dc cc) [] (next + 1)) as Hfr.
    { intros t' Hd' Hm'. destruct Ht as [Hdt Hm ? ? ? ?]. split; try done.
      - unfold dir_exists in *. by rewrite Hd'.
      - unfold content in *. by rewrite Hm'. }
    eapply (runs_bind _ _ _ _ _ (λ r t', r = Ok tt ∧ journal_ok st t' (base_entry b dc cc) [] (next + 1) ∧
      ∀ g, g ∈ segs → content t' (spath st (sg_seq g)) = None)).
    + eapply runs_weaken; [apply unlink_all_runs| |].
      * intros t' [Hd' Hq']. right. apply Hfr; [done|]. apply Hq'. intros n. by apply mpath_not_named.
      * intros r t' (-> & Hd' & Hn' & Hq'). split_and!; [done| |].
        -- apply Hfr; [done|]. apply Hq'. intros n. by apply mpath_not_named.
        -- intros g Hg. rewrite Forall_forall in Hnn. rewrite <-segment_path_eq by auto. unfold content.
           rewrite Hn'; [done|]. apply list_elem_of_fmap. eauto.
    + intros [] t' (_ & ? & ?). by apply runs_ret.
    + by intros e t' [? _].
  - by intros e t [? _].
Qed.

(** Re-anchoring on a snapshot that is on disk: atomic between the old journal and the new,
    empty one; the stale segments are gone at the end. *)
Lemma record_base_runs s b dc cc base segs next :
  journal_ok st s base segs next → content s (base_path st) = Some b →
  runs (λ t, journal_ok st t base segs next ∨ journal_ok st t (base_entry b dc cc) [] (next + 1))
    (SJ.record_base st dc cc) s
    (λ r t, r = Ok (SJWrite (pname (base_path st)) (Z.of_nat (slen b)) "base") ∧
            journal_ok st t (base_entry b dc cc) [] (next + 1) ∧
            ∀ g, g ∈ segs → content t (spath st (sg_seq g)) = None).
Proof.
  intros Hj Hb. unfold SJ.record_base.
  eapply runs_pure; [apply is_file_run|]. rewrite Hb, bool_decide_eq_true_2 by eauto.
  eapply runs_pure; [by apply file_size_run|].
  eapply runs_pure; [rewrite read_manifest_optional_run, (jo_manifest _ _ _ _ _ Hj); reflexivity|].
  apply (runs_pure _ _ _ _ next); [reflexivity|].
  eapply runs_pure; [unfold mkdir_p; rewrite (jo_dir _ _ _ _ _ Hj); reflexivity|].
  eapply runs_pure; [unfold lift; rewrite mk_segment_names; reflexivity|].
  eapply runs_pure; [by apply sha256_file_run|].
  apply (rebase_runs s s); [done..|]. apply Hj.
Qed.

(** A store that has no manifest yet. *)
Lemma record_base_fresh s b dc cc : content s mpath = None → content s (base_path st) = Some b →
  let t := final (SJ.record_base st dc cc s) in
  value (SJ.record_base st dc cc s) = Ok (SJWrite (pname (base_path st)) (Z.of_nat (slen b)) "base") ∧
  journal_ok st t (base_entry b dc cc) [] 1.
Proof.
  intros Hm Hb t. subst t.
  assert (runs (λ _, True) (SJ.record_base st dc cc) s (λ r t, r = Ok (SJWrite (pname (base_path st)) (Z.of_nat (slen b)) "base") ∧
    journal_ok st t (base_entry b dc cc) [] 1)) as [_ H]; [|exact H].
  unfold SJ.record_base.
  eapply runs_pure; [apply is_file_run|]. rewrite Hb, bool_decide_eq_true_2 by eauto.
  eapply runs_pure; [by apply file_size_run|].
  eapply runs_pure; [rewrite read_manifest_optional_run, Hm; reflexivity|].
  eapply runs_pure; [reflexivity|].
  destruct (mkdir_p_run jdir s) as (tr & ds & Hmk & Hsub & Hd & _).
  eapply (runs_bind _ _ _ _ _ (λ r t, r = Ok tt ∧ t = FSys (files s) ds)).
  { unfold runs. rewrite Hmk. split; [|done]. apply Forall_forall. done. }
  2: { by intros e t [? _]. }
  intros [] t [_ ->]. eapply runs_pure; [reflexivity|].
  eapply runs_pure; [by apply sha256_file_run|].
  eapply (runs_bind _ _ _ _ _ (λ r t, r = Ok tt ∧ journal_ok st t (base_entry b dc cc) [] 1)).
  - eapply runs_weaken; [apply (write_manifest_runs st (base_manifest b dc cc 0)); [apply base_manifest_ok|done]|done|].
    intros r t [-> ->]. split; [done|]. by apply (journal_ok_base _ _ _ _ 0); [| |apply content_put_eq].
  - intros [] t [_ Ht]. eapply runs_pure; [reflexivity|]. by apply runs_ret.
  - by intros e t [? _].
Qed.

(** *** Rolling back to a committed manifest *)

Lemma mk_manifest_ok base segs next : json_ok base = true → json_ok (PDict (mk_manifest base segs next)) = true.
Proof. intros Hb. apply four_keys_ok. cbn [json_ok]. by rewrite json_ok_canon, entries_ok. Qed.

Lemma mk_manifest_canon base segs next : json_ok base = true →
  canon_items (mk_manifest base segs next) = mk_manifest base segs next.
Proof.
  intros Hb. unfold mk_manifest at 1. rewrite four_keys_canon. cbn [canon]. by rewrite canon_idem, canon_entries.
Qed.

(** Names in the journal directory are single path components. *)
Definition names_simple (s : fsys) : Prop :=
  ∀ n, is_Some (files s !! (n :: jdir)) → simple_name n = true.

Lemma glob_elem s suffix n : n ∈ sort_by str_leb (omap (λ p, match p with
    | n :: q => if bool_decide (q = jdir) && endswith suffix n then Some n else None
    | [] => None
    end) (map fst (map_to_list (files s)))) ↔ is_Some (files s !! (n :: jdir)) ∧ endswith suffix n = true.
Proof.
  rewrite elem_of_sort_by, list_elem_of_omap. split.
  - intros ([|m q] & Hp & H); [done|]. apply list_elem_of_fmap in Hp as ([p f] & Hp & Hin). simpl in Hp. subst p.
    case_bool_decide; simpl in H; [|done]. destruct (endswith suffix m) eqn:E; [|done]. simplify_eq.
    apply elem_of_map_to_list in Hin. by split; [eexists|].
  - intros [[f Hf] He]. exists (n :: jdir). split.
    + apply list_elem_of_fmap. exists (n :: jdir, f). split; [done|]. by apply elem_of_map_to_list.
    + rewrite bool_decide_eq_true_2 by done. by rewrite He.
Qed.

Lemma restore_manifest_final s base segs next :
  json_ok base = true → Forall (seg_on_disk st s) segs → StronglySorted Z.lt (map sg_seq segs) →
  0 <= next ∧ Forall (λ g, sg_seq g < next) segs → names_simple s →
  let o := SJ.restore_manifest st (mk_manifest base segs next) s in
  value o = Ok tt ∧ journal_ok st (final o) base segs next ∧
  (∀ n, is_Some (files (final o) !! (n :: jdir)) → endswith STATE_JOURNAL_SEGMENT_SUFFIX n = true → n ∈ seg_names segs).
Proof.
  intros Hb Hs Hso Hn Hsimple o. subst o.
  assert (runs (λ _, True) (SJ.restore_manifest st (mk_manifest base segs next)) s (λ r t, r = Ok tt ∧
    journal_ok st t base segs next ∧ (∀ n, is_Some (files t !! (n :: jdir)) →
      endswith STATE_JOURNAL_SEGMENT_SUFFIX n = true → n ∈ seg_names segs))) as [_ H]; [|exact H].
  pose proof (segs_nonneg _ _ Hs) as Hnn. unfold SJ.restore_manifest.
  destruct (mkdir_p_run jdir s) as (tr & ds & Hmk & Hsub & Hd & _).
  eapply (runs_bind _ _ _ _ _ (λ r t, r = Ok tt ∧ t = FSys (files s) ds)).
  { unfold runs. rewrite Hmk. split; [|done]. by apply Forall_forall. }
  2: { by intros e t [? _]. }
  intros [] t [_ ->]. eapply runs_pure; [unfold lift; rewrite mk_segment_names; reflexivity|].
  set (s1 := FSys (files s) ds) in *.
  set (f := File (utf8_encode (of_chars (json_text (indented 2) 0 (PDict (mk_manifest base segs next))))) (sj_fsync st)).
  eapply (runs_bind _ _ _ _ _ (λ r t, r = Ok tt ∧ t = put mpath f (drop_file (tmp_of mpath) s1))).
  { eapply runs_weaken; [apply write_manifest_runs; [by apply mk_manifest_ok|done]|done|]. by intros r t H. }
  2: { by intros e t [? _]. }
  intros [] t [_ ->]. set (s2 := put mpath f (drop_file (tmp_of mpath) s1)).
  assert (files s2 = <[mpath := f]> (delete (tmp_of mpath) (files s))) as Hs2 by reflexivity.
  assert (∀ n, files s2 !! spath st n = files s !! spath st n) as Hsp.
  { intros n. destruct (spath_not_tmp_mpath st n). rewrite Hs2. by rewrite lookup_insert_ne, lookup_delete_ne. }
  eapply runs_pure; [reflexivity|]. eapply runs_weaken; [apply unlink_all_runs|done|].
  assert (∀ n, is_Some (files s2 !! (n :: jdir)) → simple_name n = true) as Hsimple2.
  { intros n [g Hg]. rewrite Hs2 in Hg. apply lookup_insert_Some in Hg as [[E _]|[_ [_ Hg]%lookup_delete_Some]].
    - rewrite mpath_eq in E. by injection E as <-.
    - apply Hsimple. by eexists. }
  set (doomed := List.filter _ _).
  assert (∀ n, n ∈ doomed ↔ n ∉ seg_names segs ∧ is_Some (files s2 !! (n :: jdir)) ∧
    endswith STATE_JOURNAL_SEGMENT_SUFFIX n = true) as Hdoom.
  { intros n. unfold doomed. rewrite list_elem_of_In, filter_In, <-list_elem_of_In, glob_elem, negb_true_iff.
    unfold str_in. rewrite bool_decide_eq_false. tauto. }
  intros r t (-> & Hdt & Hgone & Hkept). split_and!; [done| |].
  - assert (∀ q, (∀ n, q = n :: jdir → n ∈ seg_names segs ∨ endswith STATE_JOURNAL_SEGMENT_SUFFIX n = false) →
      files t !! q = files s2 !! q) as Hkeep.
    { intros q Hq. apply Hkept. intros n (Hno & Hex & Hen)%Hdoom E.
      rewrite pjoin_simple in E by (by apply Hsimple2). destruct (Hq n E) as [?|?]; [done|congruence]. }
    split; try done.
    + unfold dir_exists in *. rewrite Hdt. exact Hd.
    + rewrite (content_eq s2 t) by (apply Hkeep; intros n; rewrite (mpath_eq st); intros [= <-]; by right).
      unfold s2. rewrite content_put_eq. unfold f. cbn [fdata]. rewrite manifest_bytes_parse; [|by apply mk_manifest_ok|done].
      by rewrite mk_manifest_canon.
    + rewrite Forall_forall in Hs |- *. intros g Hg. destruct (Hs g Hg) as [Hok Hc]. split; [done|].
      rewrite <-Hc. apply content_eq. rewrite <-Hsp. apply Hkeep. intros n E. left.
      apply (f_equal pname) in E. cbn in E. subst n. apply list_elem_of_fmap. eauto.
  - intros n Hex Hen. destruct (decide (n ∈ seg_names segs)) as [?|Hno]; [done|].
    destruct (files s2 !! (n :: jdir)) as [g|] eqn:E2.
    + assert (n ∈ doomed) as Hd' by (apply Hdoom; by split_and!; [|eexists|]).
      pose proof (Hgone n Hd') as Hg. rewrite pjoin_simple in Hg by (apply Hsimple2; by eexists).
      by apply eq_None_not_Some in Hg.
    + exfalso. apply eq_None_not_Some in E2. apply E2. rewrite <-(Hkept (n :: jdir)); [done|].
      intros m (_ & Hm & _)%Hdoom E. rewrite pjoin_simple in E by (by apply Hsimple2). injection E as ->. done.
Qed.
End lifecycle.

(** *** Failing closed on an arbitrary disk *)

Lemma parse_segment_checked name data h b : SJ.parse_segment name data = Ok (h, b) →
  str_take 8 data = STATE_JOURNAL_MAGIC ∧ SJ.get_int h "schema_version" (-1) = Ok STATE_JOURNAL_SCHEMA_VERSION ∧
  ∃ blob sha, py_get h "body_sha256" (PStr "") = Ok sha ∧ sha256_hex blob = py_str sha ∧
    SJ.get_int h "body_bytes" (-1) = Ok (Z.of_nat (slen blob)) ∧
    (text ← utf8_decode blob; loads text) = Ok b.
Proof.
  unfold SJ.parse_segment. intros H.
  destruct (_ || _) eqn:E1 in H; [done|]. apply orb_false_elim in E1 as [_ Hmg].
  apply negb_false_iff, bool_decide_eq_true_1 in Hmg. destruct (_ <? _) in H; [done|].
  apply bind_Ok in H as (ht & _ & H). apply bind_Ok in H as (hd & Hh & H).
  apply bind_Ok in H as (v & Hv & H). destruct (negb (v =? _)) eqn:Ev; [done|].
  apply negb_false_iff, Z.eqb_eq in Ev. subst v.
  apply bind_Ok in H as (n & Hn & H). destruct (negb (_ =? n)) eqn:En; [done|].
  apply negb_false_iff, Z.eqb_eq in En. apply bind_Ok in H as (sha & Hsha & H).
  destruct (negb (bool_decide _)) eqn:Es; [done|]. apply negb_false_iff, bool_decide_eq_true_1 in Es.
  apply bind_Ok in H as (bt & Hbt & H). apply bind_Ok in H as (bd & Hbd & H).
  apply bind_Ok in H as (keys & _ & H). destruct (List.filter _ _); [|done]. injection H as <- <-.
  split; [exact Hmg|]. split; [done|]. eexists _, sha. split_and!; [done|exact Es|by rewrite En|].
  rewrite Hbt. exact Hbd.
Qed.

Section fail_closed.
Context (st : StateJournalStore).

Lemma pure_validated entry : pure_io (SJ.validated_segment_path st entry).
Proof. unfold SJ.validated_segment_path. solve_pure. Qed.
Lemma pure_read_segment p : pure_io (SJ.read_journal_segment p).
Proof. unfold SJ.read_journal_segment. solve_pure. Qed.
Lemma pure_replay_entry r e : pure_io (SJ.replay_entry st r e).
Proof.
  unfold SJ.replay_entry. apply pure_bind; [apply pure_lift|]. intros q. destruct (q <=? _); [apply pure_fail|].
  apply pure_bind; [apply pure_validated|]. intros p. apply pure_bind; [apply pure_read_segment|].
  intros [h b]. apply pure_bind; [apply pure_lift|]. intros [[[c hd] u] d]. apply pure_ret.
Qed.
Lemma pure_read_manifest_optional : pure_io (SJ.read_manifest_optional st).
Proof. intros s. by rewrite read_manifest_optional_run. Qed.
Lemma pure_resolve m : pure_io (SJ.resolve_manifest st m).
Proof.
  destruct m; [apply pure_ret|]. apply pure_bind; [apply pure_read_manifest_optional|]. solve_pure.
Qed.

(** The recorded file is there, has the recorded digest, and holds a segment. *)
Definition segment_checked (s : fsys) (entry : pyval) : Prop :=
  ∃ name data sha h b, py_get entry "file_name" (PStr "") = Ok name ∧
    content s (pjoin (SJ.journal_dir st) (py_str name)) = Some data ∧
    py_get entry "sha256" (PStr "") = Ok sha ∧ sha256_hex data = py_str sha ∧
    SJ.parse_segment (pname (pjoin (SJ.journal_dir st) (py_str name))) data = Ok (h, b).

Lemma validated_checked s entry p : value (SJ.validated_segment_path st entry s) = Ok p →
  ∃ name data sha, py_get entry "file_name" (PStr "") = Ok name ∧ p = pjoin (SJ.journal_dir st) (py_str name) ∧
    content s p = Some data ∧ py_get entry "sha256" (PStr "") = Ok sha ∧ sha256_hex data = py_str sha.
Proof.
  intros H. unfold SJ.validated_segment_path in H.
  apply pure_bind_Ok in H as (name & Hname & H); [|apply pure_lift].
  apply pure_bind_Ok in H as (there & Hthere & H); [|apply pure_is_file].
  destruct (_ || _); [done|]. apply pure_bind_Ok in H as (digest & Hdig & H); [|apply pure_sha256_file].
  apply pure_bind_Ok in H as (sha & Hsha & H); [|apply pure_lift].
  case_bool_decide; [|done]. cbn in Hname, Hsha, H. injection H as <-.
  unfold sha256_file in Hdig. apply pure_bind_Ok in Hdig as (data & Hdata & Hdig); [|apply pure_read_bytes].
  unfold mret, io_ret in Hdig. cbn [value] in Hdig.
  exists name, data, sha. split_and!; try done; [|congruence].
  unfold read_bytes in Hdata. unfold content. destruct (files s !! _); [|done]. cbn in Hdata |- *. congruence.
Qed.

Lemma replay_entry_checked s r e r' : value (SJ.replay_entry st r e s) = Ok r' →
  SJ.get_int e "seq" (-1) = Ok (SJ.rp_prev r') ∧ SJ.rp_prev r < SJ.rp_prev r' ∧ segment_checked s e.
Proof.
  intros H. unfold SJ.replay_entry in H.
  apply pure_bind_Ok in H as (q & Hq & H); [|apply pure_lift]. destruct (Z.leb_spec q (SJ.rp_prev r)); [done|].
  apply pure_bind_Ok in H as (p & Hp & H); [|apply pure_validated].
  apply pure_bind_Ok in H as ([h b] & Hhb & H); [|apply pure_read_segment].
  apply pure_bind_Ok in H as ([[[c hd] u] d] & Hc & H); [|apply pure_lift]. cbn in H. injection H as <-.
  split; [done|]. split; [done|].
  destruct (validated_checked _ _ _ Hp) as (name & data & sha & Hn & -> & Hd & Hs & Hm).
  unfold SJ.read_journal_segment in Hhb. apply pure_bind_Ok in Hhb as (data' & Hd' & Hhb); [|apply pure_read_bytes].
  rewrite (read_bytes_run _ _ _ Hd) in Hd'. cbn in Hd', Hhb. injection Hd' as <-.
  exists name, data, sha, h, b. by split_and!.
Qed.

Lemma replay_fold_checked s deltas r r' : value (foldIO (SJ.replay_entry st) r deltas s) = Ok r' →
  ∃ seqs, Forall2 (λ e q, SJ.get_int e "seq" (-1) = Ok q) deltas seqs ∧
    StronglySorted Z.lt (SJ.rp_prev r :: seqs) ∧ Forall (segment_checked s) deltas.
Proof.
  revert r; induction deltas as [|e deltas IH]; intros r H; cbn [foldIO] in H.
  - exists []. split_and!; repeat constructor.
  - apply pure_bind_Ok in H as (r1 & H1 & H); [|apply pure_replay_entry].
    destruct (replay_entry_checked _ _ _ _ H1) as (Hq & Hlt & Hc).
    destruct (IH _ H) as (seqs & HF & Hs & Hall). exists (SJ.rp_prev r1 :: seqs).
    split_and!; [by constructor| |by constructor].
    apply StronglySorted_cons. split; [|done]. apply StronglySorted_cons in Hs as [Hs _].
    constructor; [done|]. eapply Forall_impl; [exact Hs|]. simpl. lia.
Qed.
End fail_closed.

(** ** The properties *)

(** C1: journaling refines the document map. Starting from an anchored journal whose base
    payload stands for the documents [m0], a writer that appends the deltas [ds] succeeds, and
    loading the payload through the journal then gives exactly [m0] with the deltas applied.
    If the process stops at any intermediate state of the disk, torn writes included, loading
    gives [m0] with some prefix of the deltas applied, never a mixture. *)
Theorem journal_refines_documents st s base m0 n payload c0 ds :
  journal_ok st s base [] n → SJ.payload_collections payload = Ok c0 → repr c0 m0 → docs_wf m0 →
  deltas_wf m0 n ds →
  runs (λ t, ∃ k, (k ≤ length ds)%nat ∧ loads_docs st t payload (apply_deltas m0 (take k ds)))
    (append_all st m0 ds) s
    (λ r t, r = Ok tt ∧ loads_docs st t payload (apply_deltas m0 ds)).
Proof.
  intros Hj Hp Hr Hwf Hds.
  apply (append_all_runs st base m0 n payload c0 ds Hp Hr Hwf [] s); [done|].
  cbn [segs_for length]. by rewrite Z.add_0_r.
Qed.

Definition demo_store : StateJournalStore := SJStore ["k.json"; "data"] true.
Definition demo_disk : fsys := FSys {[ ["k.json"; "data"] := File "{}" true ]} {[ ["data"] ]}.
Definition demo_anchored : fsys := final (SJ.record_base demo_store 0 0 demo_disk).
Definition demo_doc : doc :=
  Doc "h1" ["c1"; "c2"] [[(PStr "chunk_id", PStr "c1"); (PStr "len", PInt 4)]; [(PStr "chunk_id", PStr "c2")]]
    [(PStr "tag", PStr "x")].
Definition demo_delta : delta := Delta [("doc-a", demo_doc)] [] [(PStr "generation", PInt 1)] 1.

Lemma demo_anchored_ok : journal_ok demo_store demo_anchored (base_entry demo_store "{}" 0 0) [] 1.
Proof. by apply (record_base_fresh demo_store demo_disk "{}" 0 0). Qed.

Lemma demo_delta_wf : deltas_wf ∅ 1 [demo_delta].
Proof.
  assert (doc_wf demo_doc) as Hd.
  { split; [by apply (bool_decide_unpack _)|by repeat constructor]. }
  split; [|split; [|done]].
  - split; [|by vm_compute]. split; [exact Hd|]. split; [by vm_compute|]. split; [|done].
    intros j dj cid _ Hj. by apply (lookup_empty_Some (M := gmap string) j dj) in Hj.
  - split; [by vm_compute|]. split; by vm_compute.
Qed.

(** The disk after the demonstration delta is appended. *)
Definition demo_appended : fsys :=
  let g := delta_seg ∅ 1 demo_delta in
  final (SJ.append_delta demo_store (sg_up g) (sg_del g) (sg_head g) (sg_docs g) (sg_chunks g) (sg_gen g)
           demo_anchored).

Lemma demo_appended_ok :
  journal_ok demo_store demo_appended (base_entry demo_store "{}" 0 0) [delta_seg ∅ 1 demo_delta] 2.
Proof.
  destruct demo_delta_wf as (_ & Hok & _).
  pose proof (append_delta_runs demo_store demo_anchored (base_entry demo_store "{}" 0 0) [] 1
    (sg_up (delta_seg ∅ 1 demo_delta)) (sg_del (delta_seg ∅ 1 demo_delta)) (sg_head (delta_seg ∅ 1 demo_delta))
    (sg_docs (delta_seg ∅ 1 demo_delta)) (sg_chunks (delta_seg ∅ 1 demo_delta)) (sg_gen (delta_seg ∅ 1 demo_delta))
    demo_anchored_ok Hok) as [_ [_ H]].
  exact H.
Qed.

Lemma empty_repr : repr (SJ.Collections ∅ ∅ ∅ ∅) ∅ ∧ docs_wf ∅.
Proof.
  split.
  - split; cbn; try by rewrite fmap_empty. intros cid row. rewrite lookup_empty.
    split; [done|]. by intros (id & d & ? & _).
  - split; intros *; by rewrite lookup_empty.
Qed.

Lemma journal_refines_documents_witness :
  value (append_all demo_store ∅ [demo_delta] demo_anchored) = Ok tt ∧
  loads_docs demo_store (final (append_all demo_store ∅ [demo_delta] demo_anchored)) []
    {[ "doc-a" := cdoc demo_doc ]}.
Proof.
  exact (proj2 (journal_refines_documents demo_store demo_anchored _ ∅ 1 [] (SJ.Collections ∅ ∅ ∅ ∅) [demo_delta]
    demo_anchored_ok eq_refl (proj1 empty_repr) (proj2 empty_repr) demo_delta_wf)).
Defined.

(** Anchoring a new base is atomic. [record_base] on a snapshot that is on disk succeeds;
    every state on the way holds either the old journal intact or the new, empty one with a
    larger sequence number, and at the end the superseded segments are gone. *)
Theorem record_base_atomic st s b dc cc base segs next :
  journal_ok st s base segs next → content s (base_path st) = Some b →
  runs (λ t, journal_ok st t base segs next ∨ journal_ok st t (base_entry st b dc cc) [] (next + 1))
    (SJ.record_base st dc cc) s
    (λ r t, r = Ok (SJWrite (pname (base_path st)) (Z.of_nat (slen b)) "base") ∧
            journal_ok st t (base_entry st b dc cc) [] (next + 1) ∧
            ∀ g, g ∈ segs → content t (spath st (sg_seq g)) = None).
Proof. apply record_base_runs. Qed.

Lemma record_base_atomic_witness :
  journal_ok demo_store (final (SJ.record_base demo_store 3 5 demo_anchored))
    (base_entry demo_store "{}" 3 5) [] 2.
Proof.
  assert (content demo_anchored (base_path demo_store) = Some "{}") as Hb by (by vm_compute).
  exact (proj1 (proj2 (proj2 (record_base_atomic demo_store demo_anchored "{}" 3 5 _ [] 1 demo_anchored_ok Hb)))).
Defined.

(** Rolling back. On a disk whose journal went past a committed manifest, restoring that
    manifest gives back the committed journal, leaves no segment file it does not name, and
    loading through it gives the documents of the committed deltas. *)
Theorem restore_rolls_back st s base m0 n ds extra next payload c0 :
  journal_ok st s base (segs_for m0 n (ds ++ extra)) next → names_simple st s →
  SJ.payload_collections payload = Ok c0 → repr c0 m0 → docs_wf m0 → deltas_wf m0 n (ds ++ extra) →
  let committed := segs_for m0 n ds in
  let o := SJ.restore_manifest st (mk_manifest base committed next) s in
  value o = Ok tt ∧ journal_ok st (final o) base committed next ∧
  loads_docs st (final o) payload (apply_deltas m0 ds) ∧
  (∀ name, is_Some (files (final o) !! (name :: SJ.journal_dir st)) →
     endswith STATE_JOURNAL_SEGMENT_SUFFIX name = true → name ∈ seg_names committed).
Proof.
  intros Hj Hns Hp Hr Hwf [Hds _]%deltas_wf_app committed o.
  assert (∃ rest, segs_for m0 n (ds ++ extra) = committed ++ rest) as [rest Hrest].
  { unfold committed. clear. revert m0 n; induction ds as [|δ ds IH]; intros m0 n; [by eexists|].
    destruct (IH (apply_delta m0 δ) (n + 1)) as [rest Hr]. exists rest. cbn [app segs_for]. by rewrite Hr. }
  rewrite Hrest in Hj. destruct Hj as [? _ Hb [Hs _]%Forall_app Hso [H0 [Hn _]%Forall_app]].
  rewrite map_app in Hso. apply StronglySorted_app in Hso as (_ & Hso & _).
  destruct (restore_manifest_final st s base committed next Hb Hs Hso (conj H0 Hn) Hns) as (Hv & Hj & Hnames).
  split_and!; [done|done| |done]. by eapply journal_loads.
Qed.

Lemma restore_rolls_back_witness :
  let o := SJ.restore_manifest demo_store (mk_manifest (base_entry demo_store "{}" 0 0) [] 2) demo_appended in
  value o = Ok tt ∧ loads_docs demo_store (final o) [] ∅.
Proof.
  intros o.
  assert (names_simple demo_store demo_appended) as Hns.
  { assert (map_Forall (λ p _, simple_name (pname p) = true) (files demo_appended)) as HF
      by (apply (bool_decide_unpack _); by vm_compute).
    intros name [f Hf]. exact (HF _ _ Hf). }
  destruct (restore_rolls_back demo_store demo_appended (base_entry demo_store "{}" 0 0) ∅ 1 [] [demo_delta] 2 []
    (SJ.Collections ∅ ∅ ∅ ∅) demo_appended_ok Hns eq_refl (proj1 empty_repr) (proj2 empty_repr) demo_delta_wf)
    as (Hv & _ & Hl & _).
  exact (conj Hv Hl).
Defined.

(** C12: replay fails closed. On any disk at all, if [replay_onto_payload] returns, then every
    segment the manifest names exists with the recorded digest and parses with its own body
    digest and length, and the sequence numbers strictly increase. *)
Theorem replay_fails_closed st s payload manifest out :
  value (SJ.replay_onto_payload st payload manifest s) = Ok out →
  ∃ m deltas seqs, value (SJ.resolve_manifest st manifest s) = Ok m ∧ SJ.manifest_deltas m = Ok deltas ∧
    Forall2 (λ e q, SJ.get_int e "seq" (-1) = Ok q) deltas seqs ∧ StronglySorted Z.lt seqs ∧
    Forall (λ e, ∃ name data sha h b blob bsha,
      py_get e "file_name" (PStr "") = Ok name ∧
      content s (pjoin (SJ.journal_dir st) (py_str name)) = Some data ∧
      py_get e "sha256" (PStr "") = Ok sha ∧ sha256_hex data = py_str sha ∧
      SJ.parse_segment (pname (pjoin (SJ.journal_dir st) (py_str name))) data = Ok (h, b) ∧
      py_get h "body_sha256" (PStr "") = Ok bsha ∧ sha256_hex blob = py_str bsha ∧
      (text ← utf8_decode blob; loads text) = Ok b) deltas.
Proof.
  intros H. unfold SJ.replay_onto_payload in H.
  apply pure_bind_Ok in H as (m & Hm & H); [|apply pure_resolve].
  apply pure_bind_Ok in H as (c & _ & H); [|apply pure_lift].
  apply pure_bind_Ok in H as (deltas & Hd & H); [|apply pure_lift].
  apply pure_bind_Ok in H as (r & Hr & _); [|apply pure_foldIO, pure_replay_entry].
  destruct (replay_fold_checked _ _ _ _ _ Hr) as (seqs & HF & Hs & Hall).
  exists m, deltas, seqs. apply StronglySorted_cons in Hs as [_ Hs]. split_and!; try done.
  eapply Forall_impl; [exact Hall|]. intros e (name & data & sha & h & b & ? & ? & ? & ? & Hp).
  destruct (parse_segment_checked _ _ _ _ Hp) as (_ & _ & blob & bsha & ? & ? & _ & ?).
  exists name, data, sha, h, b, blob, bsha. by split_and!.
Qed.

Lemma replay_fails_closed_witness :
  ∃ out m deltas seqs, value (SJ.replay_onto_payload demo_store [] None demo_appended) = Ok out ∧
    value (SJ.resolve_manifest demo_store None demo_appended) = Ok m ∧ SJ.manifest_deltas m = Ok deltas ∧
    Forall2 (λ e q, SJ.get_int e "seq" (-1) = Ok q) deltas seqs.
Proof.
  destruct (journal_loads demo_store demo_appended _ ∅ 1 [demo_delta] 2 [] (SJ.Collections ∅ ∅ ∅ ∅)
    demo_appended_ok eq_refl (proj1 empty_repr) (proj2 empty_repr) demo_delta_wf) as (c & h & k & E & _).
  apply (f_equal value) in E. cbn [value] in E.
  destruct (replay_fails_closed demo_store demo_appended [] None _ E) as (m & deltas & seqs & Hm & Hd & HF & _ & _).
  exists (SJ.payload_of [] c h, k), m, deltas, seqs. exact (conj E (conj Hm (conj Hd HF))).
Defined.
