(* ===== verification/CommitManifest.v ===== *)
(** * The root commit manifest ([src/src/lodedb/engine/_commit_manifest.py])

    The single pointer whose replacement commits a generation, and the epoch-addressed
    paths of the artifacts it names. *)

From Stdlib Require Import Ascii String ZArith Lia.
From stdpp Require Import base strings numbers sets gmap list.
From S2P Require Import Prelude Numbers PyVal Bytes Json FileSys.

Local Open Scope Z_scope.

Definition COMMIT_MANIFEST_SUFFIX : string := ".commit.json".
Definition GEN_DIR_SUFFIX : string := ".gen".
Definition COMMIT_MANIFEST_SCHEMA_VERSION : Z := 1.
Definition DEFAULT_EPOCHS_RETAINED : Z := 3.

Definition commit_manifest_path (persistence_dir : path) (index_key : string) : path :=
  pjoin persistence_dir (index_key +:+ COMMIT_MANIFEST_SUFFIX).
Definition generation_dir (persistence_dir : path) (index_key : string) : path :=
  pjoin persistence_dir (index_key +:+ GEN_DIR_SUFFIX).

Definition base_json_path (persistence_dir : path) (index_key : string) (epoch : Z) : path :=
  pjoin (generation_dir persistence_dir index_key) ("g" +:+ Z_str epoch +:+ ".json").
Definition base_tvim_path (persistence_dir : path) (index_key : string) (epoch : Z) : path :=
  pjoin (generation_dir persistence_dir index_key) ("g" +:+ Z_str epoch +:+ ".tvim").
Definition base_tvtext_path (persistence_dir : path) (index_key : string) (epoch : Z) : path :=
  pjoin (generation_dir persistence_dir index_key) ("g" +:+ Z_str epoch +:+ ".tvtext").
Definition base_tvlex_path (persistence_dir : path) (index_key : string) (epoch : Z) : path :=
  pjoin (generation_dir persistence_dir index_key) ("g" +:+ Z_str epoch +:+ ".tvlex").

Definition is_commit_manifest_name (name : string) : bool := endswith COMMIT_MANIFEST_SUFFIX name.

(** [path.stem] of a name that ends in [.json]. *)
Definition json_stem (name : string) : string := str_take (slen name - 5) name.

Definition list_base_epochs (persistence_dir : path) (index_key : string) : io (gset Z) :=
  let directory := generation_dir persistence_dir index_key in
  there ← is_dir directory;
  if there : bool then
    names ← glob_suffix directory ".json";
    lift (foldR (λ epochs name,
      if startswith "g" name then
        let stem := json_stem name in
        if startswith "g" stem && str_isdigit (str_drop 1 stem) then
          e ← py_int (PStr (str_drop 1 stem)); Ok ({[e]} ∪ epochs)
        else Ok epochs
      else Ok epochs) ∅ names)
  else mret ∅.

Definition body_sha256 (body : pydict) : result string :=
  text ← dumps compact (PDict body); Ok (sha256_hex (utf8_encode text)).

Definition read_commit_manifest (p : path) : io (option pydict) :=
  there ← is_file p;
  if there : bool then
    text ← read_text p;
    document ← lift (loads text);
    versionv ← lift (py_get document "schema_version" (PInt (-1)));
    version ← lift (py_int versionv);
    if negb (version =? COMMIT_MANIFEST_SCHEMA_VERSION)
    then fail RuntimeError "unsupported commit manifest schema version"
    else
      body ← lift (py_get document "body" PNone);
      recordedv ← lift (py_get document "body_sha256" (PStr ""));
      let recorded := py_str recordedv in
      match body with
      | PDict b =>
          if bool_decide (recorded = "")
          then fail RuntimeError "commit manifest is missing its body or checksum"
          else
            digest ← lift (body_sha256 b);
            if bool_decide (digest = recorded) then mret (Some b)
            else fail RuntimeError "commit manifest failed body checksum"
      | _ => fail RuntimeError "commit manifest is missing its body or checksum"
      end
  else mret None.

(** The wrapper assembled around one serialization of the body. *)
Definition document_json (body_json body_sha : string) : string :=
  of_chars ("{"%char :: json_str "body" ++ [":"%char]) +:+ body_json
    +:+ of_chars (","%char :: json_str "body_sha256" ++ [":"%char]) +:+ of_chars (json_str body_sha)
    +:+ of_chars (","%char :: json_str "schema_version" ++ [":"%char])
    +:+ Z_str COMMIT_MANIFEST_SCHEMA_VERSION +:+ "}".

Definition write_commit_manifest (p : path) (body : pydict) (fsync : bool) : io unit :=
  body_json ← lift (dumps compact (PDict body));
  let body_sha := sha256_hex (utf8_encode body_json) in
  publish p (utf8_encode (document_json body_json body_sha)) fsync.

Definition opt_manifest (m : option pydict) : pyval := match m with Some d => PDict d | None => PNone end.

Definition build_commit_body (index_key : string) (generation base_epoch document_count chunk_count : Z)
    (json_manifest tvim_manifest tvtext_manifest tvlex_manifest : option pydict) : pydict :=
  [(PStr "index_key", PStr index_key); (PStr "generation", PInt generation);
   (PStr "base_epoch", PInt base_epoch); (PStr "document_count", PInt document_count);
   (PStr "chunk_count", PInt chunk_count); (PStr "json", opt_manifest json_manifest);
   (PStr "tvim", opt_manifest tvim_manifest); (PStr "tvtext", opt_manifest tvtext_manifest);
   (PStr "tvlex", opt_manifest tvlex_manifest)].

Example document_json_shape :
  document_json "{}" "ab" = of_chars (chars "{'body':{},'body_sha256':'ab','schema_version':1}" ≫=
    λ c, [if bool_decide (c = squote) then dquote else c]).
Proof. reflexivity. Qed.

(** ** Reading depends on one file *)

Definition parse_commit (c : option bytes) : result (option pydict) :=
  match c with
  | None => Ok None
  | Some b =>
      text ← utf8_decode b;
      document ← loads text;
      versionv ← py_get document "schema_version" (PInt (-1));
      version ← py_int versionv;
      if negb (version =? COMMIT_MANIFEST_SCHEMA_VERSION)
      then raise RuntimeError "unsupported commit manifest schema version"
      else
        body ← py_get document "body" PNone;
        recordedv ← py_get document "body_sha256" (PStr "");
        match body with
        | PDict b =>
            if bool_decide (py_str recordedv = "")
            then raise RuntimeError "commit manifest is missing its body or checksum"
            else
              digest ← body_sha256 b;
              if bool_decide (digest = py_str recordedv) then Ok (Some b)
              else raise RuntimeError "commit manifest failed body checksum"
        | _ => raise RuntimeError "commit manifest is missing its body or checksum"
        end
  end.

Lemma read_commit_run p s : read_commit_manifest p s = Out [] s (parse_commit (content s p)).
Proof.
  unfold read_commit_manifest. erewrite bind_run_pure by apply is_file_run.
  destruct (content s p) as [b|] eqn:E.
  2: { rewrite bool_decide_eq_false_2 by (by intros [? ?]). done. }
  rewrite bool_decide_eq_true_2 by eauto. cbn [parse_commit].
  rewrite (read_text_run _ _ _ _ E).
  destruct (utf8_decode b) as [t|]; [|done]. cbn [mbind result_bind].
  lift_step (loads t) d. lift_step (py_get d "schema_version" (PInt (-1))) v. lift_step (py_int v) z.
  destruct (negb _); [done|]. lift_step (py_get d "body" PNone) bd. lift_step (py_get d "body_sha256" (PStr "")) r.
  cbv zeta. destruct bd as [| | | | | | |bd|]; try done.
  destruct (bool_decide (py_str r = "")); [done|]. lift_step (body_sha256 bd) dg.
  by destruct (bool_decide (dg = py_str r)).
Qed.

(** ** Reading back what was written *)

Lemma slen_of_chars l : slen (of_chars l) = length l.
Proof. by rewrite slen_chars, chars_of_chars. Qed.

(** The three members after the opening brace. *)
Definition document_members (t sha : list ascii) : list ascii :=
  json_str "body" ++ ":"%char :: t ++ ","%char ::
    (json_str "body_sha256" ++ ":"%char :: sha ++ ","%char ::
      (json_str "schema_version" ++ ":"%char :: chars (Z_str 1) ++ "}"%char :: [])).

Lemma document_json_chars t sha :
  chars (document_json (of_chars t) sha) = "{"%char :: document_members t (json_str sha).
Proof.
  unfold document_json, document_members. rewrite !chars_app, !chars_of_chars.
  cbn [app]. rewrite <-!(assoc_L (++)). reflexivity.
Qed.

Lemma parse_document_members v sha n : json_ok v = true →
  (length (document_members (json_text compact 0 v) (json_str sha)) < n)%nat →
  parse_members n (document_members (json_text compact 0 v) (json_str sha))
  = Some ([("body", canon v); ("body_sha256", PStr sha); ("schema_version", PInt 1)], []).
Proof.
  intros Hok Hn. unfold document_members in *.
  repeat (rewrite length_app in Hn; cbn [length] in Hn).
  destruct n as [|[|[|n]]]; [lia..|].
  rewrite (tight_member_cons "body" (canon v)).
  - change (skip_ws (json_str "body_sha256" ++ ?x)) with (json_str "body_sha256" ++ x).
    rewrite (tight_member_cons "body_sha256" (PStr sha)).
    + change (skip_ws (json_str "schema_version" ++ ?x)) with (json_str "schema_version" ++ x).
      rewrite (tight_member_last "schema_version" (PInt 1)); [done| |].
      * by eapply number_start, scan_number_int.
      * apply (json_reads compact (PInt 1) eq_refl 0%nat); [apply delim_join; auto|].
        cbn [json_text]. lia.
    + apply (json_text_start compact (PStr sha) 0%nat eq_refl).
    + apply (json_reads compact (PStr sha) eq_refl 0%nat); [apply delim_join; auto|]. cbn [json_text]. lia.
  - by apply json_text_start.
  - apply (json_reads compact v Hok 0%nat); [apply delim_join; auto|lia].
Qed.

Lemma loads_document v sha : json_ok v = true →
  loads (document_json (of_chars (json_text compact 0 v)) sha)
  = Ok (dict_of [("body", canon v); ("body_sha256", PStr sha); ("schema_version", PInt 1)]).
Proof.
  intros Hok. unfold loads. rewrite slen_chars, document_json_chars.
  set (l := document_members _ _). change (skip_ws ("{"%char :: l)) with ("{"%char :: [] ++ l).
  cbn [length]. rewrite (parse_dict_open (S (length l)) l [] _ ltac:(eexists _, _; split; [reflexivity|by split_and!])
    (parse_document_members v sha (S (length l)) Hok (Nat.lt_succ_diag_r _)) [] eq_refl).
  reflexivity.
Qed.

Lemma body_sha256_canon body : json_ok (PDict body) = true →
  body_sha256 (canon_items body) = Ok (sha256_hex (utf8_encode (of_chars (json_text compact 0 (PDict body))))).
Proof.
  intros Hok. unfold body_sha256. rewrite <-canon_dict, dumps_ok by (by apply json_ok_canon).
  cbn [mbind result_bind]. by rewrite json_text_canon.
Qed.

Lemma sha256_hex_nonempty b : sha256_hex b ≠ "".
Proof. intros H. destruct (sha256_hex_spec b) as [_ Hl]. by rewrite H in Hl. Qed.

Definition document_bytes (body : pydict) : bytes :=
  let body_json := of_chars (json_text compact 0 (PDict body)) in
  utf8_encode (document_json body_json (sha256_hex (utf8_encode body_json))).

Lemma document_get (a b c x : pyval) :
  let d := dict_of [("body", a); ("body_sha256", b); ("schema_version", c)] in
  py_get d "body" x = Ok a ∧ py_get d "body_sha256" x = Ok b ∧ py_get d "schema_version" x = Ok c.
Proof. done. Qed.

(** A document whose checksum is that of its body is accepted. *)
Lemma parse_commit_checked raw text b sha : utf8_decode raw = Ok text →
  loads text = Ok (dict_of [("body", PDict b); ("body_sha256", PStr sha); ("schema_version", PInt 1)]) →
  body_sha256 b = Ok sha → sha ≠ "" → parse_commit (Some raw) = Ok (Some b).
Proof.
  intros Hd Hl Hb Hne. unfold parse_commit. rewrite Hd. cbn [mbind result_bind]. rewrite Hl. cbn [mbind result_bind].
  destruct (document_get (PDict b) (PStr sha) (PInt 1) (PInt (-1))) as (_ & _ & ->). cbn [mbind result_bind py_int].
  rewrite Z.eqb_refl. cbn [negb].
  destruct (document_get (PDict b) (PStr sha) (PInt 1) PNone) as (-> & _ & _). cbn [mbind result_bind].
  destruct (document_get (PDict b) (PStr sha) (PInt 1) (PStr "")) as (_ & -> & _). cbn [mbind result_bind py_str].
  rewrite bool_decide_eq_false_2 by done. rewrite Hb. cbn [mbind result_bind]. by rewrite bool_decide_eq_true_2.
Qed.

Lemma parse_document body : json_ok (PDict body) = true →
  parse_commit (Some (document_bytes body)) = Ok (Some (canon_items body)).
Proof.
  intros Hok. eapply parse_commit_checked.
  - apply utf8_decode_encode.
  - rewrite loads_document by done. by rewrite canon_dict.
  - by apply body_sha256_canon.
  - apply sha256_hex_nonempty.
Qed.

Lemma write_commit_runs n d body fsync s : json_ok (PDict body) = true → dir_exists s d = true →
  runs (published s (n :: d) (File (document_bytes body) fsync)) (write_commit_manifest (n :: d) body fsync) s
    (λ r t, r = Ok tt ∧ t = put (n :: d) (File (document_bytes body) fsync) (drop_file (tmp_of (n :: d)) s)).
Proof.
  intros Hok Hd. unfold write_commit_manifest.
  eapply runs_pure; [rewrite dumps_ok by done; reflexivity|]. by apply publish_runs.
Qed.

(** ** Epoch-addressed artifacts *)

Inductive artifact := AJson | ATvim | ATvtext | ATvlex.

Definition artifact_path (a : artifact) : path → string → Z → path :=
  match a with
  | AJson => base_json_path | ATvim => base_tvim_path | ATvtext => base_tvtext_path | ATvlex => base_tvlex_path
  end.
Definition artifact_suffix (a : artifact) : string :=
  match a with AJson => ".json" | ATvim => ".tvim" | ATvtext => ".tvtext" | ATvlex => ".tvlex" end.

(** Digits, then a point: the split of [g<epoch><suffix>] is unique. *)
Lemma epoch_name_inj e1 e2 a1 a2 :
  "g" +:+ Z_str e1 +:+ artifact_suffix a1 = "g" +:+ Z_str e2 +:+ artifact_suffix a2 → e1 = e2 ∧ a1 = a2.
Proof.
  intros H. apply sapp_inj_l in H.
  assert (∀ e, ∃ l, chars (Z_str e) = l ∧ Forall (λ c, c ≠ "."%char) l) as Hz.
  { intros e. exists (chars (Z_str e)). split; [done|]. destruct (Z_str_shape e) as (s & -> & Hd & _).
    rewrite chars_app. apply Forall_app. split; [destruct (e <? 0); repeat constructor; done|].
    eapply forallb_digits_Forall; [|exact Hd]. intros c Hc. by apply is_digit_not_special in Hc as (_&_&_&_&?&_). }
  destruct (Hz e1) as (l1 & E1 & H1), (Hz e2) as (l2 & E2 & H2).
  apply (f_equal chars) in H. rewrite !chars_app, E1, E2 in H.
  assert (l1 = l2 ∧ chars (artifact_suffix a1) = chars (artifact_suffix a2)) as [<- Hs].
  { clear E1 E2 Hz. revert l2 H H2. induction H1 as [|c l1 Hc _ IH]; intros [|c2 l2] H H2.
    - done.
    - apply Forall_cons in H2 as [Hc2 _]. exfalso. destruct a1; injection H as E _; congruence.
    - exfalso. destruct a2; injection H as E _; congruence.
    - injection H as -> H. apply Forall_cons in H2 as [_ H2]. destruct (IH l2 H H2) as [-> ?]. done. }
  split; [|by destruct a1, a2].
  apply (inj Z_str), (inj chars). congruence.
Qed.

Lemma artifact_name_simple a e : simple_name ("g" +:+ Z_str e +:+ artifact_suffix a) = true.
Proof.
  unfold simple_name. rewrite !chars_app, !forallb_app.
  assert (forallb (λ c, negb (bool_decide (c = "/"%char))) (chars (Z_str e)) = true) as ->.
  { destruct (Z_str_shape e) as (s & -> & Hd & _). rewrite chars_app, forallb_app.
    apply andb_true_intro. split; [by destruct (e <? 0)|]. eapply forallb_impl; [|exact Hd].
    intros c Hc. apply negb_true_iff, bool_decide_eq_false_2. by intros ->. }
  apply andb_true_intro. split; [by destruct a|].
  apply negb_true_iff, bool_decide_eq_false_2. set_solver.
Qed.

Lemma artifact_path_eq a dir key e :
  artifact_path a dir key e = ("g" +:+ Z_str e +:+ artifact_suffix a) :: generation_dir dir key.
Proof. rewrite <-pjoin_simple by apply artifact_name_simple. by destruct a. Qed.

Lemma parse_commit_Some raw b : parse_commit (Some raw) = Ok (Some b) →
  ∃ text document recorded, utf8_decode raw = Ok text ∧ loads text = Ok document ∧
    py_get document "body" PNone = Ok (PDict b) ∧ py_get document "body_sha256" (PStr "") = Ok recorded ∧
    body_sha256 b = Ok (py_str recorded) ∧
    (v ← py_get document "schema_version" (PInt (-1)); py_int v) = Ok COMMIT_MANIFEST_SCHEMA_VERSION.
Proof.
  unfold parse_commit. intros H. apply bind_Ok in H as (text & Ht & H). apply bind_Ok in H as (doc & Hd & H).
  apply bind_Ok in H as (v & Hv & H). apply bind_Ok in H as (z & Hz & H).
  destruct (negb (z =? _)) eqn:Ez; [done|]. apply negb_false_iff, Z.eqb_eq in Ez.
  apply bind_Ok in H as (body & Hb & H). apply bind_Ok in H as (rec & Hr & H). destruct body; try done.
  case_bool_decide; [done|]. apply bind_Ok in H as (dg & Hdg & H). case_bool_decide; [|done].
  injection H as ->. subst. exists text, doc, rec. split_and!; try done. rewrite Hv. exact Hz.
Qed.

(** ** The properties *)

(** C2: the manifest swap is the commit point. Writing a serializable body succeeds, and at
    every intermediate state of the disk, torn writes of the temporary included, a reader gets
    either what it got before the commit or the new body, which is what it gets at the end;
    with [fsync] the new file is on stable storage before it becomes visible. *)
Theorem commit_swap_atomic s n d body fsync :
  json_ok (PDict body) = true → dir_exists s d = true →
  runs (λ t, value (read_commit_manifest (n :: d) t) = value (read_commit_manifest (n :: d) s) ∨
             value (read_commit_manifest (n :: d) t) = Ok (Some (canon_items body)) ∧
             fsynced <$> files t !! (n :: d) = Some fsync)
    (write_commit_manifest (n :: d) body fsync) s
    (λ r t, r = Ok tt ∧ value (read_commit_manifest (n :: d) t) = Ok (Some (canon_items body))).
Proof.
  intros Hok Hd. eapply runs_weaken; [by apply write_commit_runs| |].
  - intros t (_ & _ & [Hm|Hm]); rewrite !read_commit_run; cbn [value].
    + left. unfold content. by rewrite Hm.
    + right. unfold content. rewrite Hm. cbn [fmap option_fmap option_map fdata]. by rewrite parse_document.
  - intros r t [-> ->]. split; [done|]. rewrite read_commit_run. cbn [value].
    rewrite content_put_eq. cbn [fdata]. by rewrite parse_document.
Qed.

Definition demo_body : pydict := build_commit_body "k" 3 2 1 4 (Some [(PStr "next_seq", PInt 1)]) None None None.

Lemma commit_swap_atomic_witness :
  let s := FSys ∅ {[ ["data"] ]} in
  value (read_commit_manifest ["k.commit.json"; "data"] (final (write_commit_manifest ["k.commit.json"; "data"] demo_body true s)))
  = Ok (Some (canon_items demo_body)).
Proof.
  intros s. assert (dir_exists s ["data"] = true) as Hd by (apply bool_decide_eq_true_2; right; set_solver).
  exact (proj2 (proj2 (commit_swap_atomic s "k.commit.json" ["data"] demo_body true eq_refl Hd))).
Defined.

(** the root manifest is read fail-closed. On any disk, if reading returns a body then
    the file is valid JSON of the supported schema version and its recorded checksum is the
    digest of the body's canonical serialization. *)
Theorem read_commit_fails_closed s p b :
  value (read_commit_manifest p s) = Ok (Some b) →
  ∃ raw text document recorded, content s p = Some raw ∧ utf8_decode raw = Ok text ∧ loads text = Ok document ∧
    py_get document "body" PNone = Ok (PDict b) ∧ py_get document "body_sha256" (PStr "") = Ok recorded ∧
    body_sha256 b = Ok (py_str recorded) ∧
    (v ← py_get document "schema_version" (PInt (-1)); py_int v) = Ok COMMIT_MANIFEST_SCHEMA_VERSION.
Proof.
  rewrite read_commit_run. cbn [value]. destruct (content s p) as [raw|] eqn:E; [|done].
  intros (text & doc & rec & H)%parse_commit_Some. by exists raw, text, doc, rec.
Qed.

Lemma read_commit_fails_closed_witness :
  let s := FSys {[ ["m"] := File (document_bytes demo_body) false ]} ∅ in
  ∃ raw, content s ["m"] = Some raw ∧ ∃ sha, body_sha256 (canon_items demo_body) = Ok sha.
Proof.
  intros s. assert (value (read_commit_manifest ["m"] s) = Ok (Some (canon_items demo_body))) as E.
  { rewrite read_commit_run. apply (parse_document demo_body eq_refl). }
  destruct (read_commit_fails_closed s ["m"] _ E) as (raw & text & doc & rec & Hr & _ & _ & _ & _ & Hs & _).
  exact (ex_intro _ raw (conj Hr (ex_intro _ (py_str rec) Hs))).
Defined.

(** Epoch-addressed artifacts never collide: under one index, the JSON, TurboVec, raw-text
    and lexical bases of all epochs have pairwise different paths, so writing a new epoch's
    base cannot overwrite an artifact an older manifest names. *)
Theorem epoch_paths_disjoint a1 a2 dir key e1 e2 :
  artifact_path a1 dir key e1 = artifact_path a2 dir key e2 → a1 = a2 ∧ e1 = e2.
Proof.
  rewrite !artifact_path_eq. intros H. apply (f_equal pname) in H. cbn [pname hd] in H.
  apply epoch_name_inj in H as [? ?]. done.
Qed.

Lemma epoch_paths_disjoint_witness :
  artifact_path ATvim ["d"] "k" 7 = artifact_path ATvim ["d"] "k" 7 ∧ ATvim = ATvim ∧ 7 = 7.
Proof. exact (conj eq_refl (epoch_paths_disjoint ATvim ATvim ["d"] "k" 7 7 eq_refl)). Defined.

(** [list_base_epochs] guards [int()] with [str.isdigit()], which is weaker: a file
    named g² followed by .json (a superscript two) in the generation directory passes the
    guard and makes the listing raise [ValueError] instead of being skipped. *)
Theorem superscript_epoch_raises dir key s :
  dir_exists s (generation_dir dir key) = true →
  files s = {[ (String "g" (String (chr 178) ".json") :: generation_dir dir key) := File "" true ]} →
  ∃ e, value (list_base_epochs dir key s) = Err e ∧ exn_class e = ValueError.
Proof.
  intros Hd Hf. unfold list_base_epochs.
  rewrite (bind_run_pure (is_dir (generation_dir dir key)) _ s (dir_exists s (generation_dir dir key)) eq_refl), Hd.
  erewrite bind_run_pure by reflexivity. rewrite Hf, map_to_list_singleton. cbn [map fst omap list_omap].
  rewrite bool_decide_eq_true_2 by done. cbn. eexists. split; reflexivity.
Qed.

Lemma superscript_epoch_raises_witness :
  ∃ e, value (list_base_epochs ["d"] "k" (FSys {[ [String "g" (String (chr 178) ".json"); "k.gen"; "d"] := File "" true ]}
    {[ ["k.gen"; "d"] ]})) = Err e ∧ exn_class e = ValueError.
Proof.
  apply (superscript_epoch_raises ["d"] "k"); [|reflexivity].
  apply bool_decide_eq_true_2. right. change (generation_dir ["d"] "k") with ["k.gen"; "d"]. set_solver.
Defined.
