(* ===== verification/TvimStore.v ===== *)
(** * The vector delta store ([src/src/lodedb/engine/turbovec_delta_store.py])

    The base [.tvim] file of the vector index plus ordered [.tvd] delta segments and the
    manifest that anchors them. numpy arrays and the native index are not part of the
    repository's Python code: they are the interfaces [Numpy] and [TurboIndex], a type with the
    operations the store calls, and the laws its correctness relies on are the classes
    [NumpyLaws] and [TurboLaws]. Timings are left out. *)

From Stdlib Require Import Ascii String ZArith Lia SpecFloat.
From stdpp Require Import base strings numbers sets gmap sorting list.
From S2P Require Import Prelude Numbers PyVal Bytes Json FileSys JournalStore.

Local Open Scope Z_scope.

Definition TVIM_DELTA_DIR_SUFFIX : string := ".tvim-delta".
Definition TVIM_DELTA_MANIFEST_NAME : string := "manifest.json".
Definition TVIM_DELTA_SEGMENT_SUFFIX : string := ".tvd".
Definition TVIM_DELTA_MAGIC : bytes := "EETVD001".
Definition TVIM_DELTA_SCHEMA_VERSION : Z := 1.
Definition DEFAULT_MAX_DELTA_ROW_FRACTION : spec_float := fdiv (float_of_Z 1) (float_of_Z 4).
Definition DEFAULT_MAX_TVIM_SEGMENTS : Z := 64.

(** ** Interfaces *)

(** numpy arrays: [str(a.dtype)], [a.shape], [a.tobytes()], [np.ascontiguousarray(a, dtype)],
    [np.zeros(shape, dtype)] and [np.frombuffer(blob, dtype).reshape(shape).copy()]. *)
Class Numpy (arr : Type) := {
  dtype_str : arr → string;
  shape : arr → list Z;
  tobytes : arr → bytes;
  ascontiguous : string → arr → arr;
  zeros : list Z → string → arr;
  frombuffer : bytes → pyval → list Z → result arr }.

(** The native index: [len], the calibration fingerprint (absent from old builds), the file
    image [index.write] saves, and the local delta operations. *)
Class TurboIndex (arr index : Type) := {
  index_len : index → Z;
  calibration_fingerprint : index → option Z;
  index_image : index → bytes;
  bytes_per_vector : index → Z;
  export_encoded : index → arr → result (arr * arr);
  add_encoded : index → arr → arr → arr → result index;
  remove_many : index → arr → result (index * Z) }.

(** [a.shape[0]]. *)
Definition shape0 {arr} `{Numpy arr} (a : arr) : result Z :=
  match shape a with n :: _ => Ok n | [] => raise IndexError "tuple index out of range" end.

Definition fingerprint {arr index} `{TurboIndex arr index} (i : index) : result Z :=
  match calibration_fingerprint i with
  | Some f => Ok f
  | None => raise AttributeError "object has no attribute 'calibration_fingerprint'"
  end.

(** The writes of an open file, one after the other. *)
Definition concat_bytes (l : list bytes) : bytes := foldr String.append "" l.

Record TvimDeltaWrite := TvimWrite { tw_file_name : string; tw_file_bytes : Z; tw_kind : string }.
Record TvimDeltaStore := TvStore { tv_base_path : path; tv_fsync : bool }.

Module TV.
Section store.
Context (st : TvimDeltaStore) {arr index : Type} `{NP : Numpy arr} `{TI : !TurboIndex arr index}.

Definition delta_dir : path := with_name (tv_base_path st) (pname (tv_base_path st) +:+ TVIM_DELTA_DIR_SUFFIX).
Definition manifest_path : path := pjoin delta_dir TVIM_DELTA_MANIFEST_NAME.
Definition has_manifest : io bool := is_file manifest_path.

Definition read_manifest_optional : io (option pydict) :=
  there ← is_file manifest_path;
  if there : bool then
    text ← read_text manifest_path;
    manifest ← lift (loads text);
    version ← lift (SJ.get_int manifest "schema_version" (-1));
    if version =? TVIM_DELTA_SCHEMA_VERSION then
      d ← lift (py_items manifest); mret (Some d)
    else fail RuntimeError "unsupported TurboVec delta manifest schema version"
  else mret None.

Definition read_manifest : io pydict :=
  manifest ← read_manifest_optional;
  match manifest with
  | None => fail RuntimeError "TurboVec delta manifest is missing"
  | Some d => mret d
  end.

Definition write_manifest (manifest : pydict) : io unit :=
  text ← lift (dumps (indented 2) (PDict manifest));
  publish manifest_path (utf8_encode text) (tv_fsync st).

Definition manifest_segment_names (manifest : option pydict) : result (list string) :=
  SJ.manifest_segment_names manifest.

Definition unlink_all (names : list string) : io unit :=
  foldIO (λ _ n, unlink_ok (pjoin delta_dir n)) tt names.

Definition persist_base (i : index) : io TvimDeltaWrite :=
  _ ← mkdir_p (parent (tv_base_path st));
  _ ← publish (tv_base_path st) (index_image i) (tv_fsync st);
  size ← file_size (tv_base_path st);
  previous ← read_manifest_optional;
  next_seq ← lift (match previous with
                   | Some (_ :: _ as m) => SJ.get_int (PDict m) "next_seq" 0
                   | _ => Ok 0
                   end);
  _ ← mkdir_p delta_dir;
  stale ← lift (manifest_segment_names previous);
  digest ← sha256_file (tv_base_path st);
  _ ← write_manifest
    [(PStr "schema_version", PInt TVIM_DELTA_SCHEMA_VERSION);
     (PStr "base", dict_of
        [("file_name", PStr (pname (tv_base_path st))); ("sha256", PStr digest);
         ("file_bytes", PInt size); ("rows", PInt (index_len i));
         ("calibration_fingerprint", PInt (default 0 (calibration_fingerprint i)))]);
     (PStr "deltas", PList []);
     (PStr "next_seq", PInt (next_seq + 1))];
  _ ← unlink_all stale;
  mret (TvimWrite (pname (tv_base_path st)) size "base").

Definition segment_name (sequence : Z) : string :=
  "delta-" +:+ format_08d sequence +:+ TVIM_DELTA_SEGMENT_SUFFIX.

(** One row of the header's array table. *)
Definition array_spec (na : string * arr) : pyval :=
  dict_of [("name", PStr na.1); ("dtype", PStr (dtype_str na.2)); ("shape", PList (map PInt (shape na.2)));
           ("nbytes", PInt (Z.of_nat (slen (tobytes na.2)))); ("sha256", PStr (sha256_hex (tobytes na.2)))].

Definition delta_header (sequence generation fp rows : Z) (arrays : list (string * arr)) : pyval :=
  dict_of [("schema_version", PInt TVIM_DELTA_SCHEMA_VERSION); ("kind", PStr "delta"); ("seq", PInt sequence);
           ("generation_after", PInt generation); ("calibration_fingerprint", PInt fp);
           ("rows_after", PInt rows); ("arrays", PList (map array_spec arrays))].

(** The codes and scales of the upserted rows. *)
Definition encoded_rows (i : index) (upserts : arr) : result (arr * arr) :=
  n ← shape0 upserts;
  if n =? 0 then Ok (zeros [0; bytes_per_vector i] "uint8", zeros [0] "float32")
  else export_encoded i upserts.

Definition delta_arrays (upserts codes scales removed : arr) : list (string * arr) :=
  [("upsert_stable_ids", ascontiguous "uint64" upserts); ("upsert_codes", ascontiguous "uint8" codes);
   ("upsert_scales", ascontiguous "float32" scales); ("removed_stable_ids", ascontiguous "uint64" removed)].

Definition segment_bytes (packed header_blob : bytes) (arrays : list (string * arr)) : bytes :=
  TVIM_DELTA_MAGIC +:+ packed +:+ header_blob +:+ concat_bytes (map (λ na, tobytes na.2) arrays).

Definition append_delta (i : index) (upserts removed : arr) (generation : Z) : io TvimDeltaWrite :=
  manifest ← read_manifest;
  sequence ← lift (SJ.get_int (PDict manifest) "next_seq" 0);
  '(codes, scales) ← lift (encoded_rows i upserts);
  let arrays := delta_arrays upserts codes scales removed in
  fp ← lift (fingerprint i);
  header_text ← lift (dumps compact (delta_header sequence generation fp (index_len i) arrays));
  let header_blob := utf8_encode header_text in
  _ ← mkdir_p delta_dir;
  let segment_path := pjoin delta_dir (segment_name sequence) in
  packed ← lift (SJ.pack_header_length (Z.of_nat (slen header_blob)));
  _ ← publish segment_path (segment_bytes packed header_blob arrays) (tv_fsync st);
  size ← file_size segment_path;
  deltas ← lift (SJ.manifest_deltas manifest);
  digest ← sha256_file segment_path;
  n_up ← lift (shape0 upserts);
  n_rm ← lift (shape0 removed);
  let entry := dict_of
    [("file_name", PStr (segment_name sequence)); ("sha256", PStr digest); ("file_bytes", PInt size);
     ("seq", PInt sequence); ("upsert_rows", PInt n_up); ("removed_rows", PInt n_rm)] in
  _ ← write_manifest (dict_set "next_seq" (PInt (sequence + 1))
                        (dict_set "deltas" (PList (deltas ++ [entry])) manifest));
  mret (TvimWrite (segment_name sequence) size "delta").

Definition has_pending_segments (manifest : option pydict) : io bool :=
  manifest ← (match manifest with Some m => mret (Some m) | None => read_manifest_optional end);
  match manifest with
  | None | Some [] => mret false
  | Some m => v ← lift (py_get (PDict m) "deltas" PNone); mret (truthy v)
  end.

Definition should_compact (max_delta_row_fraction : spec_float) (max_delta_segments : Z) : io bool :=
  manifest ← read_manifest_optional;
  match manifest with
  | None | Some [] => mret false
  | Some m =>
      v ← lift (py_get (PDict m) "deltas" (PList []));
      if negb (truthy v) then mret false
      else
          deltas ← lift (py_iter v);
          if Z.of_nat (length deltas) >=? max_delta_segments then mret true
          else
            delta_rows ← lift (foldR (λ acc delta,
              u ← SJ.get_int delta "upsert_rows" 0;
              r ← SJ.get_int delta "removed_rows" 0;
              Ok (acc + (u + r))) 0 deltas);
            base ← lift (py_get (PDict m) "base" (PDict []));
            rows ← lift (SJ.get_int base "rows" 1);
            base_rows ← lift (py_float (PInt (Z.max rows 1)));
            mret (int_geb_float delta_rows (fmul base_rows max_delta_row_fraction))
  end.

(** ** Reading a segment *)

(** [hexdigest != spec["sha256"]], negated. *)
Definition is_str (v : pyval) (s : string) : bool :=
  match v with PStr t => bool_decide (t = s) | _ => false end.

(** The loop of [_read_delta_segment] over the array table: the offset and the arrays so far. *)
Definition read_array (data : bytes) (acc : Z * gmap string arr) (spec : pyval) : result (Z * gmap string arr) :=
  nbytesv ← py_index spec "nbytes";
  nbytes ← py_int nbytesv;
  let blob := py_slice data acc.1 (acc.1 + nbytes) in
  if negb (Z.of_nat (slen blob) =? nbytes) then
    name ← py_index spec "name";
    raise RuntimeError ("TurboVec delta array " +:+ py_str name +:+ " is truncated")
  else
    recorded ← py_index spec "sha256";
    if negb (is_str recorded (sha256_hex blob)) then
      name ← py_index spec "name";
      raise RuntimeError ("TurboVec delta array " +:+ py_str name +:+ " failed checksum")
    else
      dtype ← py_index spec "dtype";
      shapev ← py_index spec "shape";
      sizes ← py_iter shapev;
      shape ← mapR py_int sizes;
      a ← frombuffer blob dtype shape;
      name ← py_index spec "name";
      Ok (acc.1 + nbytes, <[py_str name := a]> acc.2).

Definition required_arrays : list string := ["removed_stable_ids"; "upsert_codes"; "upsert_scales"; "upsert_stable_ids"].

Definition parse_delta (name : string) (data : bytes) : result (pyval * gmap string arr) :=
  let prefix := Z.of_nat (slen TVIM_DELTA_MAGIC) + 8 in
  let n := Z.of_nat (slen data) in
  if (n <? prefix) || negb (bool_decide (str_take (slen TVIM_DELTA_MAGIC) data = TVIM_DELTA_MAGIC))
  then raise RuntimeError ("not a TurboVec delta segment: " +:+ name)
  else
    let header_stop := prefix + Z.of_N (unpack_u64 data (slen TVIM_DELTA_MAGIC)) in
    if n <? header_stop
    then raise RuntimeError ("TurboVec delta segment header is truncated: " +:+ name)
    else
      header_text ← utf8_decode (py_slice data prefix header_stop);
      header ← loads header_text;
      version ← SJ.get_int header "schema_version" (-1);
      if negb (version =? TVIM_DELTA_SCHEMA_VERSION)
      then raise RuntimeError "unsupported TurboVec delta segment schema version"
      else
        specsv ← py_index header "arrays";
        specs ← py_iter specsv;
        out ← foldR (read_array data) (header_stop, ∅) specs;
        match List.filter (λ k, bool_decide (out.2 !! k = None)) required_arrays with
        | [] => Ok (header, out.2)
        | missing => raise RuntimeError ("TurboVec delta segment is missing arrays: "
                                           +:+ py_repr (PList (map PStr missing)))
        end.

Definition read_delta_segment (p : path) : io (pyval * gmap string arr) :=
  data ← read_bytes p; lift (parse_delta (pname p) data).

Definition validated_segment_path (entry : pyval) : io path :=
  namev ← lift (py_get entry "file_name" (PStr ""));
  let file_name := py_str namev in
  let p := pjoin delta_dir file_name in
  there ← is_file p;
  if bool_decide (file_name = "") || negb there
  then fail RuntimeError ("TurboVec delta segment is missing: " +:+ file_name)
  else
    digest ← sha256_file p;
    recorded ← lift (py_get entry "sha256" (PStr ""));
    if bool_decide (digest = py_str recorded) then mret p
    else fail RuntimeError ("TurboVec delta segment failed checksum: " +:+ file_name).

(** ** Replay *)

Definition array (arrays : gmap string arr) (name : string) : result arr :=
  match arrays !! name with Some a => Ok a | None => raise KeyError (str_repr name) end.

(** The removals of a segment, then its upserts, then the row count check. An array named
    [header] shadows the header in the dictionary the reader returns. *)
Definition replay_segment (i : index) (header : pyval) (arrays : gmap string arr) : result (index * Z * Z) :=
  header ← (match arrays !! "header" with
            | Some _ => raise AttributeError "'numpy.ndarray' object has no attribute 'get'"
            | None => Ok header
            end);
  recorded ← SJ.get_int header "calibration_fingerprint" (-1);
  actual ← fingerprint i;
  if negb (recorded =? actual)
  then raise RuntimeError "TurboVec delta replay rejected: segment calibration fingerprint mismatch"
  else
    removed_ids ← array arrays "removed_stable_ids";
    n_rm ← shape0 removed_ids;
    '(i, rm) ← (if n_rm =? 0 then Ok (i, 0)
                else
                  '(i, removed) ← remove_many i removed_ids;
                  if removed =? n_rm then Ok (i, removed)
                  else raise RuntimeError "TurboVec delta replay rejected: removed-id count mismatch");
    upsert_ids ← array arrays "upsert_stable_ids";
    n_up ← shape0 upsert_ids;
    i ← (if n_up =? 0 then Ok i
         else codes ← array arrays "upsert_codes";
              scales ← array arrays "upsert_scales";
              add_encoded i upsert_ids codes scales);
    expected_rows ← SJ.get_int header "rows_after" (-1);
    if (expected_rows >=? 0) && negb (index_len i =? expected_rows)
    then raise RuntimeError "TurboVec delta replay rejected: row count mismatch"
    else Ok (i, n_up, rm).

Record replay := Replay { rp_index : index; rp_prev : Z; rp_upserts : Z; rp_removes : Z }.

Definition replay_entry (r : replay) (delta : pyval) : io replay :=
  sequence ← lift (SJ.get_int delta "seq" (-1));
  if sequence <=? rp_prev r
  then fail RuntimeError "TurboVec delta manifest has out-of-order segments"
  else
    p ← validated_segment_path delta;
    '(header, arrays) ← read_delta_segment p;
    '(i, u, d) ← lift (replay_segment (rp_index r) header arrays);
    mret (Replay i sequence (rp_upserts r + u) (rp_removes r + d)).

Definition resolve_manifest (manifest : option pydict) : io pydict :=
  match manifest with Some m => mret m | None => read_manifest end.

(** The base fingerprint check. *)
Definition check_base_fingerprint (i : index) (manifest : pydict) : result unit :=
  base_entry ← py_get (PDict manifest) "base" (PDict []);
  recorded ← SJ.get_int base_entry "calibration_fingerprint" 0;
  if recorded =? 0 then Ok tt
  else match calibration_fingerprint i with
       | None => Ok tt
       | Some actual =>
           if actual =? recorded then Ok tt
           else raise RuntimeError "TurboVec delta replay rejected: base calibration fingerprint mismatch"
       end.

(** The index after replay, with the segment, upsert and remove counts it reports. *)
Definition replay_onto (i : index) (manifest : option pydict) : io (index * (Z * Z * Z)) :=
  manifest ← resolve_manifest manifest;
  _ ← lift (check_base_fingerprint i manifest);
  deltas ← lift (SJ.manifest_deltas manifest);
  r ← foldIO replay_entry (Replay i (-1) 0 0) deltas;
  mret (rp_index r, (Z.of_nat (length deltas), rp_upserts r, rp_removes r)).

Definition validate_base_checksum (manifest : option pydict) : io unit :=
  manifest ← resolve_manifest manifest;
  base_entry ← lift (py_get (PDict manifest) "base" (PDict []));
  recordedv ← lift (py_get base_entry "sha256" (PStr ""));
  let recorded := py_str recordedv in
  if bool_decide (recorded = "") then mret tt
  else
    digest ← sha256_file (tv_base_path st);
    if bool_decide (digest = recorded) then mret tt
    else fail RuntimeError "TurboVec base snapshot failed manifest checksum".

(** The four figures of [storage_file_bytes], as floats. *)
Definition storage_file_bytes (manifest : option pydict)
    : io (spec_float * spec_float * spec_float * spec_float) :=
  manifest ← (match manifest with Some m => mret (Some m) | None => read_manifest_optional end);
  let m := match manifest with Some m => m | None => [] end in
  base ← lift (py_get (PDict m) "base" (PDict []));
  base_bytes ← lift (v ← py_get base "file_bytes" (PInt 0); py_float v);
  deltas ← lift (SJ.manifest_deltas m);
  delta_bytes ← lift (foldR (λ acc delta, b ← SJ.get_int delta "file_bytes" 0; Ok (acc + b)) 0 deltas);
  delta_bytes ← lift (py_float (PInt delta_bytes));
  there ← is_file manifest_path;
  manifest_bytes ← (if there : bool then file_size manifest_path else mret 0);
  mret (base_bytes, delta_bytes, float_of_Z (Z.of_nat (length deltas)), float_of_Z manifest_bytes).

Definition remove_all : io unit :=
  there ← is_dir delta_dir;
  if there : bool then
    names ← glob_suffix delta_dir TVIM_DELTA_SEGMENT_SUFFIX;
    _ ← unlink_all names;
    unlink_ok manifest_path
  else mret tt.

Definition current_manifest : io (option pydict) := read_manifest_optional.

Definition restore_manifest (manifest : pydict) : io unit :=
  _ ← mkdir_p delta_dir;
  referenced ← lift (manifest_segment_names (Some manifest));
  _ ← write_manifest manifest;
  names ← glob_suffix delta_dir TVIM_DELTA_SEGMENT_SUFFIX;
  unlink_all (List.filter (λ n, negb (str_in n referenced)) names).
End store.
End TV.

(** ** What the store relies on *)

(** [np.frombuffer(a.tobytes(), a.dtype).reshape(a.shape)] is [a]. *)
Class NumpyLaws (arr : Type) `{Numpy arr} : Prop := {
  frombuffer_tobytes : ∀ a, frombuffer (tobytes a) (PStr (dtype_str a)) (shape a) = Ok a }.

(** The native index as a map from stable ids to encoded rows: what its delta operations
    document. [ids] reads an id array, [enc] pairs codes with scales. *)
Class TurboLaws (arr index row : Type) `{Numpy arr} `{!TurboIndex arr index} := {
  ids : arr → list N;
  enc : arr → arr → list row;
  rows : index → gmap N row;
  ids_shape : ∀ a, shape0 a = Ok (Z.of_nat (length (ids a)));
  ids_contiguous : ∀ a, ids (ascontiguous "uint64" a) = ids a;
  enc_contiguous : ∀ c s, enc (ascontiguous "uint8" c) (ascontiguous "float32" s) = enc c s;
  enc_zeros : ∀ n, enc (zeros [0; n] "uint8") (zeros [0] "float32") = [];
  len_rows : ∀ i, index_len i = Z.of_nat (size (rows i));
  export_rows : ∀ i a rs, Forall2 (λ id r, rows i !! id = Some r) (ids a) rs →
    ∃ c s, export_encoded i a = Ok (c, s) ∧ enc c s = rs;
  remove_rows : ∀ i a, NoDup (ids a) → Forall (λ id, id ∈ dom (rows i)) (ids a) →
    ∃ i', remove_many i a = Ok (i', Z.of_nat (length (ids a))) ∧
      (∀ id, rows i' !! id = if decide (id ∈ ids a) then None else rows i !! id) ∧
      calibration_fingerprint i' = calibration_fingerprint i;
  add_rows : ∀ i a c s, NoDup (ids a) → Forall (λ id, id ∉ dom (rows i)) (ids a) →
    length (enc c s) = length (ids a) →
    ∃ i', add_encoded i a c s = Ok i' ∧ rows i' = list_to_map (zip (ids a) (enc c s)) ∪ rows i ∧
      calibration_fingerprint i' = calibration_fingerprint i }.

(** ** Segments *)

Section segments.
Context {arr : Type} `{NP : Numpy arr} {NL : NumpyLaws arr}.

Lemma array_spec_ok (na : string * arr) : json_ok (TV.array_spec na) = true.
Proof.
  unfold TV.array_spec, dict_of. cbn [map]. apply json_ok_dict_intro.
  - done.
  - apply (bool_decide_unpack _). by vm_compute.
  - repeat constructor. cbn. generalize (shape na.2). intros l. induction l as [|z l IH]; [done|]. cbn. exact IH.
Qed.

Lemma delta_header_ok q g f n (arrays : list (string * arr)) : json_ok (TV.delta_header q g f n arrays) = true.
Proof.
  unfold TV.delta_header, dict_of. cbn [map]. apply json_ok_dict_intro.
  - done.
  - apply (bool_decide_unpack _). by vm_compute.
  - repeat constructor. cbn [json_ok snd]. apply forallb_forall. intros v (na & <- & _)%in_map_iff. apply array_spec_ok.
Qed.

Definition spec_items (na : string * arr) : pydict := match TV.array_spec na with PDict d => d | _ => [] end.

Lemma py_index_spec (na : string * arr) k v : dict_get k (spec_items na) = Some v →
  py_index (canon (TV.array_spec na)) k = Ok (canon v).
Proof.
  intros Hk. change (TV.array_spec na) with (PDict (spec_items na)). apply py_index_canon; [apply array_spec_ok|done].
Qed.

(** One array of the table, at its place in the data. *)
Lemma read_array_run (pre rest : bytes) (na : string * arr) (m : gmap string arr) :
  TV.read_array (pre +:+ tobytes na.2 +:+ rest) (Z.of_nat (slen pre), m) (canon (TV.array_spec na))
  = Ok (Z.of_nat (slen pre) + Z.of_nat (slen (tobytes na.2)), <[na.1 := na.2]> m).
Proof.
  unfold TV.read_array. cbn [fst snd].
  rewrite (py_index_spec na "nbytes" (PInt (Z.of_nat (slen (tobytes na.2))))) by reflexivity.
  cbn [mbind result_bind canon py_int].
  rewrite (py_slice_mid pre (tobytes na.2) rest) by done.
  rewrite Z.eqb_refl. cbn [negb].
  rewrite (py_index_spec na "sha256" (PStr (sha256_hex (tobytes na.2)))) by reflexivity.
  cbn [mbind result_bind canon TV.is_str]. rewrite bool_decide_eq_true_2 by done. cbn [negb].
  rewrite (py_index_spec na "dtype" (PStr (dtype_str na.2))) by reflexivity. cbn [mbind result_bind canon].
  rewrite (py_index_spec na "shape" (PList (map PInt (shape na.2)))) by reflexivity. cbn [mbind result_bind canon py_iter].
  assert (mapR py_int (map canon (map PInt (shape na.2))) = Ok (shape na.2)) as ->.
  { rewrite map_map, mapR_map. rewrite <-(map_id (shape na.2)) at 2. by rewrite <-mapR_total. }
  cbn [mbind result_bind]. rewrite frombuffer_tobytes. cbn [mbind result_bind].
  rewrite (py_index_spec na "name" (PStr na.1)) by reflexivity. reflexivity.
Qed.

Lemma read_arrays_run (arrays : list (string * arr)) (pre rest : bytes) (m : gmap string arr) :
  ∃ z, foldR (TV.read_array (pre +:+ concat_bytes (map (λ na, tobytes na.2) arrays) +:+ rest))
    (Z.of_nat (slen pre), m) (map canon (map TV.array_spec arrays))
  = Ok (z, fold_left (λ m na, <[na.1 := na.2]> m) arrays m).
Proof.
  revert pre m; induction arrays as [|na arrays IH]; intros pre m; [by eexists|].
  cbn [map foldR concat_bytes foldr fold_left]. fold (concat_bytes (map (λ na, tobytes na.2) arrays)).
  rewrite <-sapp_assoc. rewrite read_array_run. cbn [mbind result_bind].
  specialize (IH (pre +:+ tobytes na.2) (<[na.1 := na.2]> m)) as (z & Hz). exists z.
  rewrite slen_app, Nat2Z.inj_add in Hz. rewrite <-sapp_assoc in Hz. exact Hz.
Qed.
End segments.

(** ** Batches and their segments *)

Section batches.
Context {arr index row : Type} `{NP : Numpy arr} {NL : NumpyLaws arr} `{TI : !TurboIndex arr index} {TL : TurboLaws arr index row}.

(** One mutation batch as it is journaled: the index after it, the ids it upserted and
    removed, and the codes and scales exported for the upserts. *)
Record batch := Batch {
  b_live : index; b_up : arr; b_rm : arr; b_codes : arr; b_scales : arr; b_gen : Z }.

Definition b_arrays (x : batch) : list (string * arr) :=
  TV.delta_arrays (b_up x) (b_codes x) (b_scales x) (b_rm x).
Definition b_header (q : Z) (x : batch) : pyval :=
  TV.delta_header q (b_gen x) (default 0 (calibration_fingerprint (b_live x))) (index_len (b_live x)) (b_arrays x).
Definition b_bytes (q : Z) (x : batch) : bytes :=
  TV.segment_bytes (pack_u64 (N.of_nat (slen (json_blob (b_header q x))))) (json_blob (b_header q x)) (b_arrays x).

(** The batch takes rows [before] to the rows of the live index: removals of present ids, then
    upserts of ids that are not present, exported from the live index. *)
Record batch_ok (fp : Z) (before : gmap N row) (x : batch) : Prop := {
  bo_fp : calibration_fingerprint (b_live x) = Some fp;
  bo_rm : NoDup (ids (b_rm x)) ∧ Forall (λ id, id ∈ dom before) (ids (b_rm x));
  bo_up : NoDup (ids (b_up x)) ∧ Forall (λ id, id ∈ dom before → id ∈ ids (b_rm x)) (ids (b_up x));
  bo_live : Forall (λ id, id ∈ dom (rows (b_live x))) (ids (b_up x));
  bo_export : TV.encoded_rows (b_live x) (b_up x) = Ok (b_codes x, b_scales x);
  bo_rest : ∀ id, id ∉ ids (b_up x) → rows (b_live x) !! id = if decide (id ∈ ids (b_rm x)) then None else before !! id }.

(** The header length fits the format's 64 bits. *)
Definition fits (q : Z) (x : batch) : Prop := Z.of_nat (slen (json_blob (b_header q x))) < 2 ^ 64.

Definition header_dict (q : Z) (x : batch) : pydict := match b_header q x with PDict d => d | _ => [] end.

Lemma get_int_b_header q x k z : dict_get k (header_dict q x) = Some (PInt z) →
  ∀ d, SJ.get_int (canon (b_header q x)) k d = Ok z.
Proof.
  intros Hk d. unfold SJ.get_int. change (b_header q x) with (PDict (header_dict q x)).
  rewrite py_get_canon by apply delta_header_ok. by rewrite Hk.
Qed.

(** The arrays of a segment as the reader returns them. *)
Definition b_map (x : batch) : gmap string arr := fold_left (λ m na, <[na.1 := na.2]> m) (b_arrays x) ∅.

Lemma parse_b_bytes name q x :
  Z.of_nat (slen (json_blob (b_header q x))) < 2 ^ 64 →
  TV.parse_delta name (b_bytes q x) = Ok (canon (b_header q x), b_map x).
Proof.
  intros Hlen. unfold TV.parse_delta, b_bytes, TV.segment_bytes.
  set (hb := json_blob (b_header q x)) in *. set (bb := concat_bytes _).
  set (pk := pack_u64 (N.of_nat (slen hb))).
  assert (slen pk = 8%nat) as Hpk by apply slen_pack_u64.
  assert (slen TVIM_DELTA_MAGIC = 8%nat) as Hmg by done.
  set (data := TVIM_DELTA_MAGIC +:+ pk +:+ hb +:+ bb).
  assert (Z.of_nat (slen data) = 16 + Z.of_nat (slen hb) + Z.of_nat (slen bb)) as Hn
    by (unfold data; rewrite !slen_app; lia).
  rewrite Hn, Hmg. replace (_ <? _) with false by (symmetry; apply Z.ltb_ge; lia).
  assert (str_take 8 data = TVIM_DELTA_MAGIC) as -> by (by apply str_take_app_alt).
  rewrite bool_decide_eq_true_2 by done. cbn [negb orb].
  assert (unpack_u64 data 8 = N.of_nat (slen hb)) as ->.
  { rewrite <-Hmg. apply unpack_pack_u64. lia. }
  replace (_ <? _) with false by (symmetry; apply Z.ltb_ge; lia).
  assert (py_slice data (Z.of_nat 8 + 8) (Z.of_nat 8 + 8 + Z.of_N (N.of_nat (slen hb))) = hb) as ->
    by (apply slen_json_blob_slice; lia).
  destruct (blob_text (b_header q x) (delta_header_ok _ _ _ _ _)) as (t & Ht & Hl). fold hb in Ht. rewrite Ht.
  cbn [mbind result_bind]. rewrite Hl. cbn [mbind result_bind].
  rewrite (get_int_b_header q x "schema_version" 1) by reflexivity. cbn [mbind result_bind].
  change (negb (1 =? TVIM_DELTA_SCHEMA_VERSION)) with false. cbv iota.
  change (b_header q x) with (PDict (header_dict q x)).
  rewrite (py_index_canon _ "arrays" (PList (map TV.array_spec (b_arrays x)))) by (apply delta_header_ok || reflexivity).
  cbn [mbind result_bind canon py_iter].
  destruct (read_arrays_run (b_arrays x) (TVIM_DELTA_MAGIC +:+ pk +:+ hb) "" ∅) as (z & Hz).
  rewrite sapp_nil_r, <-!sapp_assoc in Hz. fold bb data in Hz.
  assert (Z.of_nat (slen (TVIM_DELTA_MAGIC +:+ pk +:+ hb)) = Z.of_nat 8 + 8 + Z.of_N (N.of_nat (slen hb))) as Hpre
    by (rewrite !slen_app; lia).
  rewrite Hpre in Hz. rewrite Hz. cbn [mbind result_bind snd]. reflexivity.
Qed.

Lemma b_map_arrays x :
  b_map x !! "header" = None ∧ b_map x !! "removed_stable_ids" = Some (ascontiguous "uint64" (b_rm x)) ∧
  b_map x !! "upsert_stable_ids" = Some (ascontiguous "uint64" (b_up x)) ∧
  b_map x !! "upsert_codes" = Some (ascontiguous "uint8" (b_codes x)) ∧
  b_map x !! "upsert_scales" = Some (ascontiguous "float32" (b_scales x)).
Proof. done. Qed.

Lemma bo_enc fp before x : batch_ok fp before x →
  Forall2 (λ id r, rows (b_live x) !! id = Some r) (ids (b_up x)) (enc (b_codes x) (b_scales x)).
Proof.
  intros Hx. pose proof (bo_export _ _ _ Hx) as He. unfold TV.encoded_rows in He. rewrite ids_shape in He.
  cbn [mbind result_bind] in He. destruct (Z.eqb_spec (Z.of_nat (length (ids (b_up x)))) 0) as [E|E].
  - injection He as <- <-. rewrite enc_zeros. assert (ids (b_up x) = []) as -> by (apply length_zero_iff_nil; lia). constructor.
  - assert (∃ rs, Forall2 (λ id r, rows (b_live x) !! id = Some r) (ids (b_up x)) rs) as [rs Hrs].
    { pose proof (bo_live _ _ _ Hx) as HF. clear -HF. induction HF as [|id l Hid _ (rs & IH)]; [by exists []|].
      apply elem_of_dom in Hid as [r Hr]. exists (r :: rs). by constructor. }
    destruct (export_rows _ _ _ Hrs) as (c & sc & Hc & <-). rewrite Hc in He. by injection He as <- <-.
Qed.

(** Replaying the removals and the upserts of a batch gives the rows of the live index. *)
Lemma replay_rows fp i before x : rows i = before → calibration_fingerprint i = Some fp → batch_ok fp before x →
  ∃ i1 i2, (∀ id, rows i1 !! id = if decide (id ∈ ids (b_rm x)) then None else before !! id) ∧
    (if Z.of_nat (length (ids (b_rm x))) =? 0 then i1 = i
     else remove_many i (ascontiguous "uint64" (b_rm x)) = Ok (i1, Z.of_nat (length (ids (b_rm x))))) ∧
    (if Z.of_nat (length (ids (b_up x))) =? 0 then i2 = i1
     else add_encoded i1 (ascontiguous "uint64" (b_up x)) (ascontiguous "uint8" (b_codes x))
            (ascontiguous "float32" (b_scales x)) = Ok i2) ∧
    rows i2 = rows (b_live x) ∧ calibration_fingerprint i2 = Some fp.
Proof.
  intros Hi Hf Hx. destruct (bo_rm _ _ _ Hx) as [Hrm1 Hrm2], (bo_up _ _ _ Hx) as [Hup1 Hup2].
  assert (∃ i1, (∀ id, rows i1 !! id = if decide (id ∈ ids (b_rm x)) then None else before !! id) ∧
    (if Z.of_nat (length (ids (b_rm x))) =? 0 then i1 = i
     else remove_many i (ascontiguous "uint64" (b_rm x)) = Ok (i1, Z.of_nat (length (ids (b_rm x))))) ∧
    calibration_fingerprint i1 = Some fp) as (i1 & Hr1 & Hs1 & Hf1).
  { destruct (Z.eqb_spec (Z.of_nat (length (ids (b_rm x)))) 0) as [E|E].
    - exists i. split_and!; [|done|done]. intros id. assert (ids (b_rm x) = []) as -> by (apply length_zero_iff_nil; lia).
      rewrite decide_False by apply not_elem_of_nil. by rewrite Hi.
    - destruct (remove_rows i (ascontiguous "uint64" (b_rm x))) as (i1 & Hrm & Hrows & Hfp).
      { by rewrite ids_contiguous. } { by rewrite ids_contiguous, Hi. }
      rewrite ids_contiguous in Hrm, Hrows. exists i1. split_and!; [by rewrite <-Hi|done|by rewrite Hfp]. }
  exists i1. assert (Forall (λ id, id ∉ dom (rows i1)) (ids (b_up x))) as Hfresh.
  { rewrite Forall_forall in Hup2 |- *. intros id Hid [r Hr]%elem_of_dom. rewrite Hr1 in Hr.
    destruct (decide (id ∈ ids (b_rm x))) as [|Hn]; [done|]. apply Hn, Hup2; [done|]. apply elem_of_dom. by exists r. }
  assert (length (enc (b_codes x) (b_scales x)) = length (ids (b_up x))) as Hlen
    by (symmetry; by eapply Forall2_length, bo_enc).
  assert (rows (b_live x) = list_to_map (zip (ids (b_up x)) (enc (b_codes x) (b_scales x))) ∪ rows i1) as Hlive.
  { apply map_eq. intros id. pose proof (bo_enc fp before x Hx) as HF.
    destruct (decide (id ∈ ids (b_up x))) as [Hin|Hin].
    - destruct (list_elem_of_lookup_1 _ _ Hin) as [k Hk]. destruct (Forall2_lookup_l _ _ _ _ _ HF Hk) as (r & Hr & Hrow).
      rewrite Hrow. symmetry. apply lookup_union_Some_l. apply elem_of_list_to_map_1.
      + by rewrite fst_zip by lia.
      + apply list_elem_of_lookup. exists k. by rewrite lookup_zip_with, Hk, Hr.
    - rewrite (bo_rest _ _ _ Hx id Hin), lookup_union_r by (apply not_elem_of_list_to_map_1; by rewrite fst_zip by lia).
      by rewrite Hr1. }
  destruct (Z.eqb_spec (Z.of_nat (length (ids (b_up x)))) 0) as [E|E].
  - exists i1. split_and!; try done. rewrite Hlive. assert (ids (b_up x) = []) as -> by (apply length_zero_iff_nil; lia).
    cbn. by rewrite (left_id_L ∅ (∪)).
  - destruct (add_rows i1 (ascontiguous "uint64" (b_up x)) (ascontiguous "uint8" (b_codes x))
      (ascontiguous "float32" (b_scales x))) as (i2 & Hadd & Hrows & Hfp).
    { by rewrite ids_contiguous. } { by rewrite ids_contiguous. } { by rewrite enc_contiguous, ids_contiguous. }
    rewrite ids_contiguous, enc_contiguous in Hrows. exists i2. split_and!; try done; [by rewrite Hlive|by rewrite Hfp].
Qed.

Lemma replay_segment_run fp i before q x : rows i = before → calibration_fingerprint i = Some fp → batch_ok fp before x →
  ∃ i', TV.replay_segment i (canon (b_header q x)) (b_map x)
          = Ok (i', Z.of_nat (length (ids (b_up x))), Z.of_nat (length (ids (b_rm x)))) ∧
    rows i' = rows (b_live x) ∧ calibration_fingerprint i' = Some fp.
Proof.
  intros Hi Hf Hx. destruct (replay_rows fp i before x Hi Hf Hx) as (i1 & i2 & _ & Hs1 & Hs2 & Hr2 & Hf2).
  destruct (b_map_arrays x) as (H1 & H2 & H3 & H4 & H5).
  unfold TV.replay_segment. rewrite H1. cbn [mbind result_bind].
  rewrite (get_int_b_header q x "calibration_fingerprint" fp).
  2:{ unfold header_dict, b_header. rewrite (bo_fp _ _ _ Hx). reflexivity. }
  cbn [mbind result_bind]. unfold fingerprint. rewrite Hf. cbn [mbind result_bind]. rewrite Z.eqb_refl. cbn [negb].
  unfold TV.array. rewrite H2, H3, H4, H5. cbn [mbind result_bind]. rewrite !ids_shape, !ids_contiguous. cbn [mbind result_bind].
  assert ((if Z.of_nat (length (ids (b_rm x))) =? 0 then Ok (i, 0)
     else '(i, removed) ← remove_many i (ascontiguous "uint64" (b_rm x));
          if removed =? Z.of_nat (length (ids (b_rm x))) then Ok (i, removed)
          else raise RuntimeError "TurboVec delta replay rejected: removed-id count mismatch")
     = Ok (i1, Z.of_nat (length (ids (b_rm x))))) as ->.
  { destruct (Z.eqb_spec (Z.of_nat (length (ids (b_rm x)))) 0) as [E|E]; [by rewrite Hs1, E|].
    rewrite Hs1. cbn [mbind result_bind]. by rewrite Z.eqb_refl. }
  cbn [mbind result_bind].
  assert ((if Z.of_nat (length (ids (b_up x))) =? 0 then Ok i1
     else add_encoded i1 (ascontiguous "uint64" (b_up x)) (ascontiguous "uint8" (b_codes x)) (ascontiguous "float32" (b_scales x)))
     = Ok i2) as ->.
  { destruct (Z.eqb_spec (Z.of_nat (length (ids (b_up x)))) 0) as [E|E]; [by rewrite Hs2|done]. }
  cbn [mbind result_bind].
  rewrite (get_int_b_header q x "rows_after" (index_len (b_live x))) by reflexivity. cbn [mbind result_bind].
  assert (index_len i2 = index_len (b_live x)) as -> by (by rewrite !len_rows, Hr2).
  rewrite Z.eqb_refl. cbn [negb]. rewrite andb_false_r. exists i2. done.
Qed.
End batches.

(** ** The store on disk *)

(** What [_read_manifest_optional] makes of the manifest file. *)
Definition parse_tvim_manifest (c : option bytes) : result (option pydict) :=
  match c with
  | None => Ok None
  | Some b =>
      text ← utf8_decode b;
      manifest ← loads text;
      version ← SJ.get_int manifest "schema_version" (-1);
      if version =? TVIM_DELTA_SCHEMA_VERSION then d ← py_items manifest; Ok (Some d)
      else raise RuntimeError "unsupported TurboVec delta manifest schema version"
  end.

Section disk.
Context (st : TvimDeltaStore).
Context {arr index row : Type} `{NP : Numpy arr} {NL : NumpyLaws arr} `{TI : !TurboIndex arr index} {TL : TurboLaws arr index row}.

Notation mpath := (TV.manifest_path st).
Notation ddir := (TV.delta_dir st).
Notation tseg := (Z * batch (arr := arr) (index := index))%type.
Definition tpath (n : Z) : path := TV.segment_name n :: ddir.

Lemma tv_mpath_eq : mpath = TVIM_DELTA_MANIFEST_NAME :: ddir.
Proof. by apply pjoin_simple. Qed.

Lemma tv_segment_name_simple n : 0 <= n → simple_name (TV.segment_name n) = true.
Proof.
  intros Hn. destruct (format_08d_chars n Hn) as (Hd & _). unfold simple_name, TV.segment_name.
  rewrite !chars_app, !forallb_app.
  assert (forallb (λ c, negb (bool_decide (c = "/"%char))) (chars (format_08d n)) = true) as ->.
  { eapply forallb_impl; [|exact Hd]. intros c Hc. apply negb_true_iff, bool_decide_eq_false_2. by intros ->. }
  apply negb_true_iff, bool_decide_eq_false_2. set_solver.
Qed.

Lemma tpath_eq n : 0 <= n → pjoin ddir (TV.segment_name n) = tpath n.
Proof. intros. by apply pjoin_simple, tv_segment_name_simple. Qed.

Lemma tpath_inj n m : 0 <= n → 0 <= m → tpath n = tpath m → n = m.
Proof.
  intros Hn Hm H. apply (f_equal pname) in H. unfold tpath, TV.segment_name in H. cbn in H.
  apply (sapp_inj_l _ _ "delta-"), sapp_inj_r in H. by apply format_08d_inj.
Qed.

Lemma tmp_tpath_ne n m : tmp_of (tpath n) ≠ tpath m.
Proof.
  unfold tpath, tmp_of, with_name, pname. simpl. intros [= H]. unfold TV.segment_name in H.
  revert H. rewrite !sapp_assoc.
  change ".tmp" with (".tm" +:+ String "p" ""). change TVIM_DELTA_SEGMENT_SUFFIX with (".tv" +:+ String "d" "").
  rewrite !sapp_assoc. by apply suffix_ne.
Qed.

Lemma tpath_mpath n : tpath n ≠ mpath ∧ tmp_of (tpath n) ≠ mpath ∧ tmp_of mpath ≠ tpath n.
Proof. rewrite tv_mpath_eq. by split_and!; intros [= ?]. Qed.

Lemma tv_read_manifest_optional_run s :
  TV.read_manifest_optional st s = Out [] s (parse_tvim_manifest (content s mpath)).
Proof.
  unfold TV.read_manifest_optional. erewrite bind_run_pure by reflexivity.
  unfold content. destruct (files s !! mpath) as [f|] eqn:E.
  2: { rewrite bool_decide_eq_false_2 by (by intros [? ?]). done. }
  rewrite bool_decide_eq_true_2 by done. cbn [fmap option_fmap option_map parse_tvim_manifest].
  erewrite read_text_run by (unfold content; by rewrite E).
  destruct (utf8_decode (fdata f)) as [t|]; [|done]. cbn [mbind result_bind].
  lift_step (loads t) v. lift_step (SJ.get_int v "schema_version" (-1)) z.
  destruct (z =? TVIM_DELTA_SCHEMA_VERSION); [|done]. lift_step (py_items v) d. done.
Qed.

Lemma tv_read_manifest_run s m : parse_tvim_manifest (content s mpath) = Ok (Some m) →
  TV.read_manifest st s = Out [] s (Ok m).
Proof.
  intros H. unfold TV.read_manifest.
  erewrite bind_run_pure; [|rewrite tv_read_manifest_optional_run, H; reflexivity]. done.
Qed.

Lemma tv_manifest_bytes_parse m : json_ok (PDict m) = true →
  dict_get "schema_version" m = Some (PInt TVIM_DELTA_SCHEMA_VERSION) →
  parse_tvim_manifest (Some (utf8_encode (of_chars (json_text (indented 2) 0 (PDict m))))) = Ok (Some (canon_items m)).
Proof.
  intros Hok Hv. unfold parse_tvim_manifest.
  rewrite utf8_decode_encode. cbn [mbind result_bind]. rewrite loads_text by (done || apply _). cbn [mbind result_bind].
  unfold SJ.get_int. rewrite py_get_canon by done. by rewrite Hv.
Qed.

Lemma tv_write_manifest_runs m s : json_ok (PDict m) = true → dir_exists s ddir = true →
  let f := File (utf8_encode (of_chars (json_text (indented 2) 0 (PDict m)))) (tv_fsync st) in
  runs (published s mpath f) (TV.write_manifest st m) s
    (λ r t, r = Ok tt ∧ t = put mpath f (drop_file (tmp_of mpath) s)).
Proof.
  intros Hok Hd f. unfold TV.write_manifest, runs.
  erewrite bind_run_pure by (rewrite dumps_ok by done; reflexivity).
  rewrite tv_mpath_eq. by apply publish_runs.
Qed.

(** *** The invariant *)

Definition t_entry (g : tseg) : pyval :=
  dict_of [("file_name", PStr (TV.segment_name g.1)); ("sha256", PStr (sha256_hex (b_bytes g.1 g.2)));
           ("file_bytes", PInt (Z.of_nat (slen (b_bytes g.1 g.2)))); ("seq", PInt g.1);
           ("upsert_rows", PInt (Z.of_nat (length (ids (b_up g.2)))));
           ("removed_rows", PInt (Z.of_nat (length (ids (b_rm g.2)))))].

Lemma t_entry_ok g : json_ok (t_entry g) = true.
Proof. reflexivity. Qed.

Definition t_manifest (base : pyval) (segs : list tseg) (next : Z) : pydict :=
  [(PStr "base", canon base); (PStr "deltas", PList (map canon (map t_entry segs)));
   (PStr "next_seq", PInt next); (PStr "schema_version", PInt TVIM_DELTA_SCHEMA_VERSION)].

Definition t_on_disk (s : fsys) (g : tseg) : Prop :=
  0 <= g.1 ∧ Z.of_nat (slen (json_blob (b_header g.1 g.2))) < 2 ^ 64 ∧ content s (tpath g.1) = Some (b_bytes g.1 g.2).

Record store_ok (s : fsys) (base : pyval) (segs : list tseg) (next : Z) : Prop := {
  so_dir : dir_exists s ddir = true;
  so_manifest : parse_tvim_manifest (content s mpath) = Ok (Some (t_manifest base segs next));
  so_base : json_ok base = true;
  so_segs : Forall (t_on_disk s) segs;
  so_sorted : StronglySorted Z.lt (map fst segs);
  so_next : 0 <= next ∧ Forall (λ g, g.1 < next) segs }.

Lemma t_entries_canon segs : map canon (map canon (map t_entry segs)) = map canon (map t_entry segs).
Proof. rewrite !map_map. apply map_ext. intros g. by apply canon_idem, t_entry_ok. Qed.
Lemma t_entries_ok segs : forallb json_ok (map canon (map t_entry segs)) = true.
Proof. induction segs as [|g segs IH]; [done|]. cbn [map forallb]. by rewrite json_ok_canon, IH. Qed.

Definition t_extend (base : pyval) (segs : list tseg) (g : tseg) : pydict :=
  [(PStr "base", canon base); (PStr "deltas", PList (map canon (map t_entry segs) ++ [t_entry g]));
   (PStr "next_seq", PInt (g.1 + 1)); (PStr "schema_version", PInt TVIM_DELTA_SCHEMA_VERSION)].

Lemma t_extend_ok base segs g : json_ok base = true → json_ok (PDict (t_extend base segs g)) = true.
Proof.
  intros Hb. unfold t_extend. apply four_keys_ok. cbn [json_ok]. by rewrite json_ok_canon, forallb_app, t_entries_ok.
Qed.
Lemma t_extend_canon base segs g : json_ok base = true →
  canon_items (t_extend base segs g) = t_manifest base (segs ++ [g]) (g.1 + 1).
Proof.
  intros Hb. unfold t_extend. rewrite four_keys_canon. unfold t_manifest. cbn [canon].
  by rewrite canon_idem, !map_app, t_entries_canon.
Qed.

Lemma store_ok_frame s t base segs next : store_ok s base segs next → dirs t = dirs s →
  content t mpath = content s mpath →
  (∀ n, 0 <= n → n < next → content t (tpath n) = content s (tpath n)) → store_ok t base segs next.
Proof.
  intros [Hd Hm Hb Hs Hso [H0 Hn]] Hdt Hmt Hst. split; try done.
  - unfold dir_exists in *. by rewrite Hdt.
  - by rewrite Hmt.
  - rewrite Forall_forall in Hs, Hn |- *. intros g Hg. destruct (Hs g Hg) as (Hq & Hl & Hc).
    split_and!; [done|done|]. rewrite Hst; [done|done|by apply Hn].
Qed.

Lemma store_ok_segment s t base segs next f : store_ok s base segs next →
  published s (tpath next) f t → store_ok t base segs next.
Proof.
  intros Hj (Hd & Hq & _). destruct (tpath_mpath next) as (H1 & H2 & _).
  apply (store_ok_frame s); [done..|apply content_eq, Hq; congruence|].
  intros n Hn Hlt. apply content_eq, Hq; [intros E; by apply (tmp_tpath_ne next n)|].
  intros E. apply tpath_inj in E; [lia|done|apply Hj].
Qed.

Lemma store_ok_extend s t base segs g : store_ok s base segs g.1 → t_on_disk s g →
  dirs t = dirs s → (∀ n, content t (tpath n) = content s (tpath n)) →
  content t mpath = Some (utf8_encode (of_chars (json_text (indented 2) 0 (PDict (t_extend base segs g))))) →
  store_ok t base (segs ++ [g]) (g.1 + 1).
Proof.
  intros [Hd Hm Hb Hs Hso [H0 Hn]] Hg Hdt Hst Hmt. split; try done.
  - unfold dir_exists in *. by rewrite Hdt.
  - rewrite Hmt, tv_manifest_bytes_parse; [|by apply t_extend_ok|reflexivity]. by rewrite t_extend_canon.
  - apply Forall_app. split; [|constructor; [|done]].
    + eapply Forall_impl; [exact Hs|]. intros x (?&?&Hc). split_and!; [done|done|]. by rewrite Hst.
    + destruct Hg as (?&?&Hc). split_and!; [done|done|]. by rewrite Hst.
  - rewrite map_app. apply StronglySorted_app. split_and!; [|done|by repeat constructor].
    intros x y Hx Hy. apply list_elem_of_fmap in Hx as (g' & -> & Hg'). rewrite Forall_forall in Hn.
    apply list_elem_of_singleton in Hy as ->. by apply Hn.
  - split; [lia|]. apply Forall_app. split; [|constructor; [lia|done]].
    eapply Forall_impl; [exact Hn|]. simpl. lia.
Qed.

(** Appending a batch: it succeeds, its segment is last, and at every point of the way the disk
    holds either the old store or the extended one. *)
Lemma tv_append_runs s base segs next fp before x :
  store_ok s base segs next → batch_ok fp before x → fits next x →
  runs (λ t, store_ok t base segs next ∨ store_ok t base (segs ++ [(next, x)]) (next + 1))
    (TV.append_delta st (b_live x) (b_up x) (b_rm x) (b_gen x)) s
    (λ r t, r = Ok (TvimWrite (TV.segment_name next) (Z.of_nat (slen (b_bytes next x))) "delta") ∧
            store_ok t base (segs ++ [(next, x)]) (next + 1)).
Proof.
  intros Hj Hx Hfit. assert (0 <= next) as Hseq by apply Hj. unfold TV.append_delta.
  eapply runs_pure; [apply tv_read_manifest_run, (so_manifest _ _ _ _ Hj)|].
  eapply runs_pure; [reflexivity|].
  eapply runs_pure; [rewrite (bo_export _ _ _ Hx); reflexivity|]. cbv beta iota zeta.
  eapply runs_pure; [unfold fingerprint; rewrite (bo_fp _ _ _ Hx); reflexivity|].
  eapply runs_pure; [rewrite dumps_ok by apply delta_header_ok; reflexivity|].
  eapply runs_pure; [unfold mkdir_p; rewrite (so_dir _ _ _ _ Hj); reflexivity|].
  assert (utf8_encode (of_chars (json_text compact 0 (TV.delta_header next (b_gen x) fp (index_len (b_live x))
    (TV.delta_arrays (b_up x) (b_codes x) (b_scales x) (b_rm x))))) = json_blob (b_header next x)) as ->.
  { unfold json_blob, b_header. by rewrite (bo_fp _ _ _ Hx). }
  eapply runs_pure.
  { unfold SJ.pack_header_length. unfold fits in Hfit.
    destruct (Z.ltb_spec (Z.of_nat (slen (json_blob (b_header next x)))) (2 ^ 64)); [reflexivity|lia]. }
  rewrite tpath_eq by done.
  replace (Z.to_N (Z.of_nat (slen (json_blob (b_header next x))))) with (N.of_nat (slen (json_blob (b_header next x)))) by lia.
  fold (b_arrays x). fold (b_bytes next x). apply (runs_bind _ _ _ _ _
    (λ r t, r = Ok tt ∧ t = put (tpath next) (File (b_bytes next x) (tv_fsync st)) (drop_file (tmp_of (tpath next)) s))).
  { eapply runs_weaken; [apply publish_runs, (so_dir _ _ _ _ Hj)| |by intros r t Hr; exact Hr].
    intros t Ht. left. by eapply store_ok_segment. }
  2: { by intros e s' [? _]. }
  intros [] s1 [_ ->]. pose proof (published_final (TV.segment_name next) ddir (File (b_bytes next x) (tv_fsync st)) s) as Hp.
  pose proof (store_ok_segment _ _ _ _ _ _ Hj Hp) as Hj1. fold (tpath next) in Hj1.
  set (s1 := put (tpath next) (File (b_bytes next x) (tv_fsync st)) (drop_file (tmp_of (tpath next)) s)) in *.
  assert (content s1 (tpath next) = Some (b_bytes next x)) as Hc by apply content_put_eq.
  eapply runs_pure; [by apply file_size_run|].
  eapply runs_pure; [reflexivity|].
  eapply runs_pure; [by apply sha256_file_run|].
  eapply runs_pure; [rewrite ids_shape; reflexivity|].
  eapply runs_pure; [rewrite ids_shape; reflexivity|]. cbv zeta.
  change (dict_set "next_seq" _ _) with (t_extend base segs (next, x)).
  assert (t_on_disk s1 (next, x)) as Hseg by (split_and!; [done|exact Hfit|done]).
  apply (runs_bind _ _ _ _ _ (λ r t, r = Ok tt ∧ store_ok t base (segs ++ [(next, x)]) (next + 1))).
  - pose proof (tv_write_manifest_runs (t_extend base segs (next, x)) s1
      (t_extend_ok _ _ _ (so_base _ _ _ _ Hj)) (so_dir _ _ _ _ Hj1)) as Hw.
    assert (∀ t f, published s1 mpath f t → ∀ n, content t (tpath n) = content s1 (tpath n)) as Hframe.
    { intros t f (_ & Hq & _) n. destruct (tpath_mpath n) as (? & ? & ?). apply content_eq, Hq; congruence. }
    eapply runs_weaken; [exact Hw| |].
    + intros t Ht. pose proof Ht as (Hdt & Hq & [Hm|Hm]); [left|right].
      * apply (store_ok_frame s1); [done..|by apply content_eq|]. intros n _ _. by eapply Hframe.
      * apply (store_ok_extend s1 t base segs (next, x)); [done|done|done|by eapply Hframe|]. unfold content. by rewrite Hm.
    + intros r t [-> ->]. split; [done|].
      pose proof (published_final TVIM_DELTA_MANIFEST_NAME ddir (File (utf8_encode (of_chars (json_text (indented 2) 0
        (PDict (t_extend base segs (next, x)))))) (tv_fsync st)) s1) as Hpf. rewrite <-tv_mpath_eq in Hpf.
      apply (store_ok_extend s1 _ base segs (next, x)); [done|done|done|by eapply Hframe|apply content_put_eq].
  - intros [] t [_ Ht]. by apply runs_ret.
  - by intros e t [? _].
Qed.

(** *** Replay of a store on disk *)

Definition t_entry_items (g : tseg) : pydict := match t_entry g with PDict d => d | _ => [] end.
Lemma py_get_t_entry g k v : dict_get k (t_entry_items g) = Some v →
  ∀ d, py_get (canon (t_entry g)) k d = Ok (canon v).
Proof.
  intros Hk d. change (t_entry g) with (PDict (t_entry_items g)). rewrite py_get_canon by apply t_entry_ok. by rewrite Hk.
Qed.

Lemma tv_validated_run s g : t_on_disk s g →
  TV.validated_segment_path st (canon (t_entry g)) s = Out [] s (Ok (tpath g.1)).
Proof.
  intros (Hq & _ & Hc). unfold TV.validated_segment_path.
  erewrite bind_run_pure by (rewrite (py_get_t_entry g "file_name" (PStr (TV.segment_name g.1)) eq_refl); reflexivity).
  cbv beta zeta. cbn [canon py_str]. rewrite tpath_eq by done.
  erewrite bind_run_pure by (apply is_file_run). rewrite Hc, (bool_decide_eq_true_2 (is_Some (Some _))) by eauto.
  rewrite bool_decide_eq_false_2 by done. cbn [orb negb].
  erewrite bind_run_pure by (by apply sha256_file_run).
  erewrite bind_run_pure by (rewrite (py_get_t_entry g "sha256" (PStr (sha256_hex (b_bytes g.1 g.2))) eq_refl); reflexivity).
  cbn [canon py_str]. by rewrite bool_decide_eq_true_2.
Qed.

(** The loop state holds an index with the rows [before]. *)
Definition at_rows (fp : Z) (r : TV.replay (index := index)) (before : gmap N row) : Prop :=
  rows (TV.rp_index r) = before ∧ calibration_fingerprint (TV.rp_index r) = Some fp.

Lemma tv_replay_entry_run s r g fp before : t_on_disk s g → TV.rp_prev r < g.1 → at_rows fp r before →
  batch_ok fp before g.2 →
  ∃ r', TV.replay_entry st r (canon (t_entry g)) s = Out [] s (Ok r') ∧ TV.rp_prev r' = g.1 ∧
        at_rows fp r' (rows (b_live g.2)).
Proof.
  intros Hg Hlt [Hr Hf] Hx. unfold TV.replay_entry.
  assert (SJ.get_int (canon (t_entry g)) "seq" (-1) = Ok g.1) as Hs.
  { unfold SJ.get_int. by rewrite (py_get_t_entry g "seq" (PInt g.1) eq_refl). }
  destruct (replay_segment_run fp (TV.rp_index r) before g.1 g.2 Hr Hf Hx) as (i' & Hi' & Hr' & Hf').
  eexists (TV.Replay i' g.1 _ _). split; [|done].
  erewrite bind_run_pure by (rewrite Hs; reflexivity).
  destruct (Z.leb_spec g.1 (TV.rp_prev r)); [lia|].
  erewrite bind_run_pure by (by apply tv_validated_run).
  assert (TV.read_delta_segment (tpath g.1) s = Out [] s (Ok (canon (b_header g.1 g.2), b_map g.2))) as Hrd.
  { unfold TV.read_delta_segment. erewrite bind_run_pure by (apply read_bytes_run, Hg).
    rewrite parse_b_bytes by apply Hg. reflexivity. }
  erewrite bind_run_pure by exact Hrd. cbv beta iota.
  erewrite bind_run_pure by (rewrite Hi'; reflexivity). reflexivity.
Qed.

(** A chain of batches, each valid on the rows the previous one left. *)
Fixpoint chain_ok (fp : Z) (before : gmap N row) (xs : list (batch (arr := arr) (index := index))) : Prop :=
  match xs with
  | [] => True
  | x :: xs => batch_ok fp before x ∧ chain_ok fp (rows (b_live x)) xs
  end.
Fixpoint chain_fits (n : Z) (xs : list (batch (arr := arr) (index := index))) : Prop :=
  match xs with [] => True | x :: xs => fits n x ∧ chain_fits (n + 1) xs end.
Definition rows_after (before : gmap N row) (xs : list (batch (arr := arr) (index := index))) : gmap N row :=
  fold_left (λ _ x, rows (b_live x)) xs before.

Lemma chain_ok_app fp before xs ys : chain_ok fp before (xs ++ ys) ↔
  chain_ok fp before xs ∧ chain_ok fp (rows_after before xs) ys.
Proof.
  revert before; induction xs as [|x xs IH]; intros before; cbn [app chain_ok]; [tauto|]. rewrite IH. cbn. tauto.
Qed.

Lemma tv_replay_fold_run s r segs fp before : Forall (t_on_disk s) segs →
  StronglySorted Z.lt (TV.rp_prev r :: map fst segs) → at_rows fp r before → chain_ok fp before (map snd segs) →
  ∃ r', foldIO (TV.replay_entry st) r (map canon (map t_entry segs)) s = Out [] s (Ok r') ∧
        at_rows fp r' (rows_after before (map snd segs)).
Proof.
  revert r before; induction segs as [|g segs IH]; intros r before HF Hs Hr Hc; [by exists r|].
  apply Forall_cons in HF as [Hg HF]. cbn [map] in Hs, Hc. destruct Hc as [Hx Hc].
  apply StronglySorted_cons in Hs as [Hlt Hs]. apply Forall_cons in Hlt as [Hlt _].
  destruct (tv_replay_entry_run s r g fp before Hg Hlt Hr Hx) as (r1 & Hr1 & Hp1 & Ha1).
  cbn [map foldIO]. erewrite bind_run_pure by exact Hr1.
  apply (IH r1 (rows (b_live g.2))); [done|by rewrite Hp1|done|done].
Qed.

(** Loading: replay onto a freshly loaded base index [i0] gives the rows [m]. *)
Definition loads_rows (s : fsys) (i0 : index) (m : gmap N row) : Prop :=
  ∃ i n, TV.replay_onto st i0 None s = Out [] s (Ok (i, n)) ∧ rows i = m.

Definition base_fp_ok (fp : Z) (base : pyval) : Prop :=
  SJ.get_int (canon base) "calibration_fingerprint" 0 = Ok fp.

Lemma store_loads s base segs next i0 fp : store_ok s base segs next → base_fp_ok fp base →
  calibration_fingerprint i0 = Some fp → chain_ok fp (rows i0) (map snd segs) →
  loads_rows s i0 (rows_after (rows i0) (map snd segs)).
Proof.
  intros Hj Hb Hf Hc. unfold loads_rows, TV.replay_onto.
  assert (StronglySorted Z.lt (-1 :: map fst segs)) as Hs'.
  { apply StronglySorted_cons. split; [|apply Hj]. apply Forall_forall.
    intros z (g & -> & Hg)%list_elem_of_fmap. pose proof (so_segs _ _ _ _ Hj) as HF. rewrite Forall_forall in HF.
    destruct (HF g Hg) as (? & _). lia. }
  destruct (tv_replay_fold_run s (TV.Replay i0 (-1) 0 0) segs fp (rows i0) (so_segs _ _ _ _ Hj) Hs') as (r' & Hr' & Ha).
  { by split. } { done. }
  eexists (TV.rp_index r'), _. split; [|apply Ha].
  erewrite bind_run_pure by (unfold TV.resolve_manifest; by apply tv_read_manifest_run, (so_manifest _ _ _ _ Hj)).
  erewrite bind_run_pure.
  2:{ unfold TV.check_base_fingerprint. cbn [py_get]. change (dict_get "base" (t_manifest base segs next)) with (Some (canon base)).
      cbn [mbind result_bind]. unfold base_fp_ok in Hb. rewrite Hb. cbn [mbind result_bind]. rewrite Hf, Z.eqb_refl.
      destruct (fp =? 0); reflexivity. }
  erewrite bind_run_pure by reflexivity. erewrite bind_run_pure by exact Hr'. reflexivity.
Qed.

(** The calls a writer makes, one per mutation batch. *)
Fixpoint tv_append_all (xs : list (batch (arr := arr) (index := index))) : io unit :=
  match xs with
  | [] => mret tt
  | x :: xs => _ ← TV.append_delta st (b_live x) (b_up x) (b_rm x) (b_gen x); tv_append_all xs
  end.

Fixpoint number (n : Z) (xs : list (batch (arr := arr) (index := index))) : list tseg :=
  match xs with [] => [] | x :: xs => (n, x) :: number (n + 1) xs end.
Lemma number_snd n xs : map snd (number n xs) = xs.
Proof. revert n; induction xs as [|x xs IH]; intros n; cbn [number map snd]; by rewrite ?IH. Qed.
Lemma number_snoc n xs x : number n (xs ++ [x]) = number n xs ++ [(n + Z.of_nat (length xs), x)].
Proof.
  revert n; induction xs as [|y xs IH]; intros n; cbn [app number length]; [by rewrite Z.add_0_r|].
  rewrite IH. by replace (n + Z.of_nat (S (length xs))) with (n + 1 + Z.of_nat (length xs)) by lia.
Qed.

Lemma tv_append_all_runs base n i0 fp todo : base_fp_ok fp base → calibration_fingerprint i0 = Some fp →
  ∀ past s, chain_ok fp (rows i0) (past ++ todo) → chain_fits (n + Z.of_nat (length past)) todo →
  store_ok s base (number n past) (n + Z.of_nat (length past)) →
  runs (λ t, ∃ k, (k ≤ length (past ++ todo))%nat ∧ loads_rows t i0 (rows_after (rows i0) (take k (past ++ todo))))
    (tv_append_all todo) s
    (λ r t, r = Ok tt ∧ loads_rows t i0 (rows_after (rows i0) (past ++ todo))).
Proof.
  intros Hb Hf. induction todo as [|x todo IH]; intros past s Hc Hfits Hj.
  - apply runs_ret. split; [done|]. rewrite app_nil_r in *.
    rewrite <-(number_snd n past). eapply store_loads; [done..|]. by rewrite number_snd.
  - pose proof Hc as [Hc1 [Hx Hc2]]%chain_ok_app.
    assert (chain_ok fp (rows i0) (past ++ [x])) as Hcx by (apply chain_ok_app; cbn [chain_ok]; done).
    assert (∀ t, store_ok t base (number n past ++ [(n + Z.of_nat (length past), x)]) (n + Z.of_nat (length past) + 1) →
      store_ok t base (number n (past ++ [x])) (n + Z.of_nat (length (past ++ [x])))) as Hsn.
    { intros t Ht. rewrite number_snoc, length_app. cbn [length].
      by replace (n + Z.of_nat (length past + 1)) with (n + Z.of_nat (length past) + 1) by lia. }
    assert (∀ t ys, store_ok t base (number n ys) (n + Z.of_nat (length ys)) → chain_ok fp (rows i0) ys →
      loads_rows t i0 (rows_after (rows i0) ys)) as Hl.
    { intros t ys Ht Hys. rewrite <-(number_snd n ys). eapply store_loads; [done..|]. by rewrite number_snd. }
    cbn [tv_append_all]. eapply (runs_bind _ _ _ _ _
      (λ r t, is_Ok r ∧ store_ok t base (number n (past ++ [x])) (n + Z.of_nat (length (past ++ [x]))))).
    + eapply runs_weaken; [eapply tv_append_runs; [exact Hj|exact Hx|apply Hfits]| |].
      * intros t [Ht|Ht].
        -- exists (length past). split; [rewrite length_app; lia|]. rewrite take_app_length. by apply Hl.
        -- exists (length (past ++ [x])). split; [rewrite !length_app; cbn [length]; lia|].
           change (past ++ x :: todo) with (past ++ [x] ++ todo).
           rewrite (assoc_L (++) past [x] todo), take_app_length. by apply Hl; [apply Hsn|].
      * intros r t [-> Ht]. split; [by eexists|by apply Hsn].
    + intros a t [_ Ht]. specialize (IH (past ++ [x]) t). rewrite <-(assoc_L (++)) in IH. apply IH; [done| |done].
      destruct Hfits as [_ Hfits]. rewrite length_app. cbn [length].
      by replace (n + Z.of_nat (length past + 1)) with (n + Z.of_nat (length past) + 1) by lia.
    + by intros e t [[? ?] _].
Qed.
End disk.

(** ** Failing closed *)

Section tv_fail_closed.
Context (st : TvimDeltaStore).
Context {arr index : Type} `{NP : Numpy arr} `{TI : !TurboIndex arr index}.

(** Each array has the recorded length and digest. *)
Definition array_checked (spec : pyval) : Prop :=
  ∃ blob n, (v ← py_index spec "nbytes"; py_int v) = Ok n ∧ Z.of_nat (slen blob) = n ∧
            py_index spec "sha256" = Ok (PStr (sha256_hex blob)).

Lemma read_array_checked data acc spec (acc' : Z * gmap string arr) :
  TV.read_array data acc spec = Ok acc' → array_checked spec.
Proof.
  unfold TV.read_array. intros E. apply bind_Ok in E as (v & Hv & E). apply bind_Ok in E as (n & Hn & E).
  destruct (negb (_ =? n)) eqn:El; [by apply bind_Ok in E as (? & _ & ?)|]. apply negb_false_iff, Z.eqb_eq in El.
  apply bind_Ok in E as (sha & Hsha & E). destruct (negb (TV.is_str _ _)) eqn:Es; [by apply bind_Ok in E as (? & _ & ?)|].
  apply negb_false_iff in Es. eexists _, n. split_and!; [|exact El|].
  - rewrite Hv. exact Hn.
  - rewrite Hsha. f_equal. destruct sha; try done. cbn in Es. apply bool_decide_eq_true_1 in Es. by rewrite Es.
Qed.

Lemma read_arrays_checked data specs acc (acc' : Z * gmap string arr) :
  foldR (TV.read_array data) acc specs = Ok acc' → Forall array_checked specs.
Proof.
  revert acc; induction specs as [|spec specs IH]; intros acc E; [constructor|]. cbn [foldR] in E.
  apply bind_Ok in E as (acc1 & E1 & E). constructor; [by eapply read_array_checked|by eapply IH].
Qed.

Lemma parse_delta_checked name data h (arrays : gmap string arr) : TV.parse_delta name data = Ok (h, arrays) →
  str_take 8 data = TVIM_DELTA_MAGIC ∧ SJ.get_int h "schema_version" (-1) = Ok TVIM_DELTA_SCHEMA_VERSION ∧
  (∃ specs, (v ← py_index h "arrays"; py_iter v) = Ok specs ∧ Forall array_checked specs) ∧
  Forall (λ k, is_Some (arrays !! k)) TV.required_arrays.
Proof.
  unfold TV.parse_delta. intros E.
  destruct (_ || _) eqn:E1 in E; [done|]. apply orb_false_elim in E1 as [_ Hmg].
  apply negb_false_iff, bool_decide_eq_true_1 in Hmg. destruct (_ <? _) in E; [done|].
  apply bind_Ok in E as (ht & _ & E). apply bind_Ok in E as (hd & Hh & E).
  apply bind_Ok in E as (v & Hv & E). destruct (negb (v =? _)) eqn:Ev; [done|].
  apply negb_false_iff, Z.eqb_eq in Ev. subst v. apply bind_Ok in E as (sv & Hsv & E).
  apply bind_Ok in E as (specs & Hspecs & E). apply bind_Ok in E as (out & Hout & E).
  destruct (List.filter _ _) eqn:Ef; [|done]. injection E as <- <-. split_and!; [exact Hmg|done| |].
  - exists specs. rewrite Hsv. split; [exact Hspecs|by eapply read_arrays_checked].
  - apply Forall_forall. intros k Hk. destruct (out.2 !! k) eqn:Ek; [done|]. exfalso.
    assert (In k (List.filter (λ k, bool_decide (out.2 !! k = None)) TV.required_arrays)) as Hin.
    { apply filter_In. split; [by apply list_elem_of_In|by apply bool_decide_eq_true_2]. }
    by rewrite Ef in Hin.
Qed.

(** The recorded file is there, has the recorded digest, and holds a segment. *)
Definition tv_segment_checked (s : fsys) (entry : pyval) : Prop :=
  ∃ name data sha h (arrays : gmap string arr), py_get entry "file_name" (PStr "") = Ok name ∧
    content s (pjoin (TV.delta_dir st) (py_str name)) = Some data ∧
    py_get entry "sha256" (PStr "") = Ok sha ∧ sha256_hex data = py_str sha ∧
    TV.parse_delta (pname (pjoin (TV.delta_dir st) (py_str name))) data = Ok (h, arrays).

Lemma tv_pure_validated entry : pure_io (TV.validated_segment_path st entry).
Proof. unfold TV.validated_segment_path. solve_pure. Qed.
Lemma tv_pure_read_segment p : pure_io (TV.read_delta_segment (arr := arr) p).
Proof. unfold TV.read_delta_segment. solve_pure. Qed.
Lemma tv_pure_replay_entry (r : TV.replay (index := index)) e : pure_io (TV.replay_entry st r e).
Proof.
  unfold TV.replay_entry. apply pure_bind; [apply pure_lift|]. intros q. destruct (q <=? _); [apply pure_fail|].
  apply pure_bind; [apply tv_pure_validated|]. intros p. apply pure_bind; [apply tv_pure_read_segment|].
  intros [h b]. apply pure_bind; [apply pure_lift|]. intros [[i u] d]. apply pure_ret.
Qed.
Lemma tv_pure_resolve m : pure_io (TV.resolve_manifest st m).
Proof.
  destruct m; [apply pure_ret|]. apply pure_bind.
  - intros s. by rewrite tv_read_manifest_optional_run.
  - solve_pure.
Qed.

Lemma tv_validated_checked s entry p : value (TV.validated_segment_path st entry s) = Ok p →
  ∃ name data sha, py_get entry "file_name" (PStr "") = Ok name ∧ p = pjoin (TV.delta_dir st) (py_str name) ∧
    content s p = Some data ∧ py_get entry "sha256" (PStr "") = Ok sha ∧ sha256_hex data = py_str sha.
Proof.
  intros E. unfold TV.validated_segment_path in E.
  apply pure_bind_Ok in E as (name & Hname & E); [|apply pure_lift].
  apply pure_bind_Ok in E as (there & Hthere & E); [|apply pure_is_file].
  destruct (_ || _); [done|]. apply pure_bind_Ok in E as (digest & Hdig & E); [|apply pure_sha256_file].
  apply pure_bind_Ok in E as (sha & Hsha & E); [|apply pure_lift].
  case_bool_decide; [|done]. cbn in Hname, Hsha, E. injection E as <-.
  unfold sha256_file in Hdig. apply pure_bind_Ok in Hdig as (data & Hdata & Hdig); [|apply pure_read_bytes].
  unfold mret, io_ret in Hdig. cbn [value] in Hdig.
  exists name, data, sha. split_and!; try done; [|congruence].
  unfold read_bytes in Hdata. unfold content. destruct (files s !! _); [|done]. cbn in Hdata |- *. congruence.
Qed.

Lemma tv_replay_entry_checked s (r r' : TV.replay (index := index)) e : value (TV.replay_entry st r e s) = Ok r' →
  SJ.get_int e "seq" (-1) = Ok (TV.rp_prev r') ∧ TV.rp_prev r < TV.rp_prev r' ∧ tv_segment_checked s e.
Proof.
  intros E. unfold TV.replay_entry in E.
  apply pure_bind_Ok in E as (q & Hq & E); [|apply pure_lift]. destruct (Z.leb_spec q (TV.rp_prev r)); [done|].
  apply pure_bind_Ok in E as (p & Hp & E); [|apply tv_pure_validated].
  apply pure_bind_Ok in E as ([h b] & Hhb & E); [|apply tv_pure_read_segment].
  apply pure_bind_Ok in E as ([[i u] d] & Hc & E); [|apply pure_lift]. cbn in E. injection E as <-.
  split; [done|]. split; [done|].
  destruct (tv_validated_checked _ _ _ Hp) as (name & data & sha & Hn & -> & Hd & Hs & Hm).
  unfold TV.read_delta_segment in Hhb. apply pure_bind_Ok in Hhb as (data' & Hd' & Hhb); [|apply pure_read_bytes].
  rewrite (read_bytes_run _ _ _ Hd) in Hd'. cbn in Hd', Hhb. injection Hd' as <-.
  exists name, data, sha, h, b. by split_and!.
Qed.

Lemma tv_replay_fold_checked s deltas (r r' : TV.replay (index := index)) :
  value (foldIO (TV.replay_entry st) r deltas s) = Ok r' →
  ∃ seqs, Forall2 (λ e q, SJ.get_int e "seq" (-1) = Ok q) deltas seqs ∧
    StronglySorted Z.lt (TV.rp_prev r :: seqs) ∧ Forall (tv_segment_checked s) deltas.
Proof.
  revert r; induction deltas as [|e deltas IH]; intros r E; cbn [foldIO] in E.
  - exists []. split_and!; repeat constructor.
  - apply pure_bind_Ok in E as (r1 & E1 & E); [|apply tv_pure_replay_entry].
    destruct (tv_replay_entry_checked _ _ _ _ E1) as (Hq & Hlt & Hc).
    destruct (IH _ E) as (seqs & HF & Hs & Hall). exists (TV.rp_prev r1 :: seqs).
    split_and!; [by constructor| |by constructor].
    apply StronglySorted_cons. split; [|done]. apply StronglySorted_cons in Hs as [Hs _].
    constructor; [done|]. eapply Forall_impl; [exact Hs|]. simpl. lia.
Qed.
End tv_fail_closed.

(** ** The properties *)

(** C7: journaling refines the vector index. Starting from a store anchored at a base whose
    freshly loaded index is [i0], a writer that appends the batches [xs] succeeds, and replaying
    the store onto [i0] then gives exactly the rows of the live index after the last batch. If
    the process stops at any intermediate state of the disk, torn writes included, replay gives
    the rows after some prefix of the batches. *)
Theorem tvim_refines_rows (st : TvimDeltaStore) {arr index row : Type} `{NP : Numpy arr} {NL : NumpyLaws arr}
    `{TI : !TurboIndex arr index} {TL : TurboLaws arr index row} s base n fp (i0 : index) xs :
  store_ok st s base [] n → base_fp_ok fp base → calibration_fingerprint i0 = Some fp →
  chain_ok fp (rows i0) xs → chain_fits n xs →
  runs (λ t, ∃ k, (k ≤ length xs)%nat ∧ loads_rows st t i0 (rows_after (rows i0) (take k xs)))
    (tv_append_all st xs) s
    (λ r t, r = Ok tt ∧ loads_rows st t i0 (rows_after (rows i0) xs)).
Proof.
  intros Hj Hb Hf Hc Hfits. apply (tv_append_all_runs st base n i0 fp xs Hb Hf [] s); [done| |];
    cbn [number length]; by rewrite Z.add_0_r.
Qed.

(** vector replay fails closed. On any disk, if [replay_onto] returns, then every segment the
    manifest names exists with the recorded digest and parses, each of its arrays has the length
    and digest its header records, the four required arrays are present, and the sequence
    numbers strictly increase. *)
Theorem tvim_replay_fails_closed (st : TvimDeltaStore) {arr index : Type} `{NP : Numpy arr}
    `{TI : !TurboIndex arr index} s (i : index) manifest out :
  value (TV.replay_onto st i manifest s) = Ok out →
  ∃ m deltas seqs, value (TV.resolve_manifest st manifest s) = Ok m ∧ SJ.manifest_deltas m = Ok deltas ∧
    Forall2 (λ e q, SJ.get_int e "seq" (-1) = Ok q) deltas seqs ∧ StronglySorted Z.lt seqs ∧
    Forall (λ e, ∃ name data sha h (arrays : gmap string arr) specs,
      py_get e "file_name" (PStr "") = Ok name ∧
      content s (pjoin (TV.delta_dir st) (py_str name)) = Some data ∧
      py_get e "sha256" (PStr "") = Ok sha ∧ sha256_hex data = py_str sha ∧
      TV.parse_delta (pname (pjoin (TV.delta_dir st) (py_str name))) data = Ok (h, arrays) ∧
      (v ← py_index h "arrays"; py_iter v) = Ok specs ∧ Forall array_checked specs ∧
      Forall (λ k, is_Some (arrays !! k)) TV.required_arrays) deltas.
Proof.
  intros E. unfold TV.replay_onto in E.
  apply pure_bind_Ok in E as (m & Hm & E); [|apply tv_pure_resolve].
  apply pure_bind_Ok in E as (c & _ & E); [|apply pure_lift].
  apply pure_bind_Ok in E as (deltas & Hd & E); [|apply pure_lift].
  apply pure_bind_Ok in E as (r & Hr & _); [|apply pure_foldIO, tv_pure_replay_entry].
  destruct (tv_replay_fold_checked _ _ _ _ _ Hr) as (seqs & HF & Hs & Hall).
  exists m, deltas, seqs. apply StronglySorted_cons in Hs as [_ Hs]. split_and!; try done.
  eapply Forall_impl; [exact Hall|]. intros e (name & data & sha & h & b & ? & ? & ? & ? & Hp).
  destruct (parse_delta_checked _ _ _ _ Hp) as (_ & _ & (specs & ? & ?) & ?).
  exists name, data, sha, h, b, specs. by split_and!.
Qed.

(** ** Instances: one-byte arrays and an index that keeps its rows *)

Record sarr := SArr { sa_dtype : string; sa_cells : list ascii }.
Record sindex := SIndex { si_rows : gmap N (ascii * ascii); si_fp : Z }.

Global Instance sarr_numpy : Numpy sarr := {
  dtype_str := sa_dtype;
  shape a := [Z.of_nat (length (sa_cells a))];
  tobytes a := of_chars (sa_cells a);
  ascontiguous d a := SArr d (sa_cells a);
  zeros _ d := SArr d [];
  frombuffer b d _ := match d with PStr d => Ok (SArr d (chars b)) | _ => raise TypeError "data type not understood" end }.

Global Instance sarr_laws : NumpyLaws sarr.
Proof. split. intros [d l]. cbn. by rewrite chars_of_chars. Qed.

Definition sa_ids (a : sarr) : list N := map ord (sa_cells a).
Definition sa_row (i : sindex) (id : N) : ascii * ascii := default ("0"%char, "0"%char) (si_rows i !! id).

Global Instance sindex_turbo : TurboIndex sarr sindex := {
  index_len i := Z.of_nat (size (si_rows i));
  calibration_fingerprint i := Some (si_fp i);
  index_image i := Z_str (si_fp i);
  bytes_per_vector _ := 1;
  export_encoded i a :=
    let rs := map (sa_row i) (sa_ids a) in Ok (SArr "uint8" (map fst rs), SArr "float32" (map snd rs));
  add_encoded i a c s :=
    Ok (SIndex (list_to_map (zip (sa_ids a) (zip (sa_cells c) (sa_cells s))) ∪ si_rows i) (si_fp i));
  remove_many i a :=
    Ok (SIndex (foldr delete (si_rows i) (sa_ids a)) (si_fp i),
        Z.of_nat (length (filter (λ id, id ∈ dom (si_rows i)) (sa_ids a)))) }.

Lemma foldr_delete_lookup {A} (m : gmap N A) l id :
  foldr delete m l !! id = if decide (id ∈ l) then None else m !! id.
Proof.
  induction l as [|x l IH]; cbn [foldr]; [by rewrite decide_False by apply not_elem_of_nil|].
  destruct (decide (x = id)) as [->|Hne]; [rewrite lookup_delete_eq, decide_True by (by left); done|].
  rewrite lookup_delete_ne, IH by done.
  destruct (decide (id ∈ l)); [by rewrite decide_True by (by right)|].
  rewrite decide_False; [done|]. rewrite elem_of_cons. naive_solver.
Qed.

Global Instance sindex_laws : TurboLaws sarr sindex (ascii * ascii).
Proof.
  refine {| ids := sa_ids; enc c s := zip (sa_cells c) (sa_cells s); rows := si_rows |}; try done.
  - intros a. unfold shape0. cbn. unfold sa_ids. by rewrite length_map.
  - intros i a rs HF. eexists _, _. split; [reflexivity|]. cbn [sa_cells].
    assert (map (sa_row i) (sa_ids a) = rs) as ->; [|apply zip_fst_snd].
    induction HF as [|id r l rs Hr _ IH]; [done|]. cbn [map]. rewrite IH. f_equal. unfold sa_row. by rewrite Hr.
  - intros i a Hnd HF. eexists. split; [cbn; do 3 f_equal|split; [|done]].
    + f_equal. clear Hnd. induction HF as [|id l Hid _ IH]; [done|]. rewrite filter_cons_True by done. cbn. by f_equal.
    + intros id. cbn. apply foldr_delete_lookup.
  - intros i a c s Hnd HF Hl. eexists. split; [reflexivity|]. done.
Defined.

Definition demo_tv_store : TvimDeltaStore := TvStore ["k.tvim"; "data"] true.
Definition demo_tv_base : pyval :=
  dict_of [("file_name", PStr "k.tvim"); ("rows", PInt 1); ("calibration_fingerprint", PInt 7)].
Definition demo_tv_disk : fsys :=
  FSys {[ TV.manifest_path demo_tv_store := File (utf8_encode (of_chars (json_text (indented 2) 0
          (PDict (t_manifest (arr := sarr) (index := sindex) demo_tv_base [] 1))))) true ]}
       {[ TV.delta_dir demo_tv_store ]}.
Definition demo_i0 : sindex := SIndex {[ 97%N := ("x"%char, "1"%char) ]} 7.
Definition demo_i1 : sindex := SIndex {[ 98%N := ("y"%char, "2"%char) ]} 7.
Definition demo_batch : batch (arr := sarr) (index := sindex) :=
  Batch demo_i1 (SArr "uint64" ["b"%char]) (SArr "uint64" ["a"%char]) (SArr "uint8" ["y"%char])
    (SArr "float32" ["2"%char]) 3.

Lemma demo_tv_store_ok : store_ok demo_tv_store demo_tv_disk demo_tv_base ([] : list (Z * batch)) 1.
Proof.
  split; try done; by constructor.
Qed.


Lemma demo_chain_ok : chain_ok 7 (rows demo_i0) [demo_batch].
Proof.
  split; [|done]. split; try done.
  - split; [apply (bool_decide_unpack _); by vm_compute|]. constructor; [apply (bool_decide_unpack _); by vm_compute|constructor].
  - split; [apply (bool_decide_unpack _); by vm_compute|]. constructor; [|constructor].
    intros Hd. exfalso. revert Hd. apply (bool_decide_unpack _). by vm_compute.
  - constructor; [apply (bool_decide_unpack _); by vm_compute|constructor].
  - intros id Hid. change (ids (b_up demo_batch)) with [98%N] in Hid. change (ids (b_rm demo_batch)) with [97%N].
    change (rows (b_live demo_batch) !! id) with (({[ 98%N := ("y"%char, "2"%char) ]} : gmap N (ascii * ascii)) !! id).
    change (rows demo_i0 !! id) with (({[ 97%N := ("x"%char, "1"%char) ]} : gmap N (ascii * ascii)) !! id).
    rewrite lookup_singleton_ne by (intros <-; set_solver).
    destruct (decide (id ∈ [97%N])) as [|Hn]; [done|]. symmetry. apply lookup_singleton_ne. intros <-. set_solver.
Qed.

Lemma demo_chain_fits : chain_fits 1 [demo_batch].
Proof. split; [|done]. unfold fits. vm_compute. reflexivity. Qed.

Lemma tvim_refines_rows_witness :
  runs (λ t, ∃ k, (k ≤ 1)%nat ∧ loads_rows demo_tv_store t demo_i0 (rows_after (rows demo_i0) (take k [demo_batch])))
    (tv_append_all demo_tv_store [demo_batch]) demo_tv_disk
    (λ r t, r = Ok tt ∧ loads_rows demo_tv_store t demo_i0 (rows demo_i1)).
Proof.
  apply (tvim_refines_rows demo_tv_store demo_tv_disk demo_tv_base 1 7 demo_i0 [demo_batch]).
  - apply demo_tv_store_ok.
  - reflexivity.
  - reflexivity.
  - apply demo_chain_ok.
  - apply demo_chain_fits.
Defined.

Lemma demo_loads : ∃ i n, TV.replay_onto demo_tv_store demo_i0 None demo_tv_disk = Out [] demo_tv_disk (Ok (i, n)) ∧ rows i = rows demo_i0.
Proof. apply (store_loads demo_tv_store demo_tv_disk demo_tv_base [] 1 demo_i0 7 demo_tv_store_ok); reflexivity || exact I. Qed.

Lemma tvim_replay_fails_closed_witness :
  ∃ out m deltas seqs, value (TV.replay_onto demo_tv_store demo_i0 None demo_tv_disk) = Ok out ∧
    value (TV.resolve_manifest demo_tv_store None demo_tv_disk) = Ok m ∧ SJ.manifest_deltas m = Ok deltas ∧
    Forall2 (λ e q, SJ.get_int e "seq" (-1) = Ok q) deltas seqs.
Proof.
  destruct demo_loads as (i & n & E & _). apply (f_equal value) in E. cbn [value] in E.
  destruct (tvim_replay_fails_closed demo_tv_store demo_tv_disk demo_i0 None _ E) as (m & deltas & seqs & Hm & Hd & HF & _ & _).
  exists (i, n), m, deltas, seqs. exact (conj E (conj Hm (conj Hd HF))).
Defined.
