(* ===== verification/Lexical.v ===== *)
(** * The lexical ranker ([src/src/lodedb/engine/_lexical.py])

    The tokenizer, the incremental BM25 inverted index and reciprocal rank fusion. The
    specification of the tokenizer is a decomposition of the text; that of the index is a
    map from unit ids to their term counts, on which ranking is defined directly. [math.log]
    and the iteration order of a set are parameters. *)

From Stdlib Require Import Ascii String ZArith Lia SpecFloat.
From stdpp Require Import base strings numbers sets gmap sorting list.
From S2P Require Import Prelude Numbers PyVal.

Local Open Scope Z_scope.

(** ** The tokenizer *)

Definition alnum (c : ascii) : bool := in_range 48 57 c || in_range 97 122 c.
Definition sep (c : ascii) : bool := bool_decide (c = "-"%char ∨ c = "."%char ∨ c = "/"%char).

Definition next_alnum (l : list ascii) : bool := match l with c :: _ => alnum c | [] => false end.

(** [_TOKEN_RE.findall]: the leftmost longest matches of an alphanumeric run that may contain
    single separators between alphanumerics. [cur] is the match in progress, reversed. *)
Fixpoint findall (cur l : list ascii) : list (list ascii) :=
  match l with
  | [] => match cur with [] => [] | _ => [reverse cur] end
  | c :: l' =>
      if alnum c then findall (c :: cur) l'
      else match cur with
           | [] => findall [] l'
           | _ => if sep c && next_alnum l' then findall (c :: cur) l' else reverse cur :: findall [] l'
           end
  end.

Definition tokenize (text : string) : list string :=
  match text with
  | EmptyString => []
  | _ => map of_chars (findall [] (chars (str_lower text)))
  end.

Example tokenize_codes : tokenize "Error E1234. on 2024-01-15 a--b (v1.2.3)"
  = ["error"; "e1234"; "on"; "2024-01-15"; "a"; "b"; "v1.2.3"].
Proof. reflexivity. Qed.

(** ** The index *)

Definition BM25_K1 : spec_float := fdiv (float_of_Z 12) (float_of_Z 10).
Definition BM25_B : spec_float := fdiv (float_of_Z 3) (float_of_Z 4).
Definition RRF_C : Z := 60.

Record Bm25Index := Bm25 {
  postings : gmap string (gmap Z Z);
  doc_freq : gmap string Z;
  doc_len : gmap Z Z;
  unit_id_by_pos : gmap Z string;
  pos_by_unit_id : gmap string Z;
  terms_by_pos : gmap Z (list string);
  group_by_pos : gmap Z string;
  positions_by_group : gmap string (gset Z);
  n_units : Z;
  total_len : Z;
  next_pos : Z;
  k1 : spec_float;
  b : spec_float }.

Definition empty_index (k1 b : spec_float) : Bm25Index :=
  Bm25 ∅ ∅ ∅ ∅ ∅ ∅ ∅ ∅ 0 0 0 k1 b.

(** Term counts, and the distinct terms in order of first occurrence. *)
Definition count_tokens (tokens : list string) : gmap string Z :=
  fold_left (λ m t, <[t := default 0 (m !! t) + 1]> m) tokens ∅.
Definition distinct_terms (tokens : list string) : list string :=
  reverse (fold_left (λ l t, if str_in t l then l else t :: l) tokens []).

(** One posting of [_add_at]: the postings and document frequencies of a term. *)
Definition add_posting (pos : Z) (counts : gmap string Z) (pd : gmap string (gmap Z Z) * gmap string Z) (token : string)
    : result (gmap string (gmap Z Z) * gmap string Z) :=
  let frequency := default 0 (counts !! token) in
  match pd.1 !! token with
  | None => Ok (<[token := {[pos := frequency]}]> pd.1, <[token := 1]> pd.2)
  | Some posting =>
      match pd.2 !! token with
      | None => raise KeyError (str_repr token)
      | Some df => Ok (<[token := <[pos := frequency]> posting]> pd.1, <[token := df + 1]> pd.2)
      end
  end.

Definition add_at (i : Bm25Index) (unit_id : string) (tokens : list string) (group_id : string) : result Bm25Index :=
  let pos := next_pos i in
  let length := Z.of_nat (List.length tokens) in
  let terms := distinct_terms tokens in
  '(ps, df) ← foldR (add_posting pos (count_tokens tokens)) (postings i, doc_freq i) terms;
  Ok (Bm25 ps df (<[pos := length]> (doc_len i)) (<[pos := unit_id]> (unit_id_by_pos i))
        (<[unit_id := pos]> (pos_by_unit_id i)) (<[pos := terms]> (terms_by_pos i))
        (<[pos := group_id]> (group_by_pos i))
        (<[group_id := {[pos]} ∪ default ∅ (positions_by_group i !! group_id)]> (positions_by_group i))
        (n_units i + 1) (total_len i + length) (pos + 1) (k1 i) (b i)).

(** One term of [_remove_at]. *)
Definition remove_posting (pos : Z) (pd : gmap string (gmap Z Z) * gmap string Z) (term : string)
    : result (gmap string (gmap Z Z) * gmap string Z) :=
  match pd.1 !! term with
  | None => Ok pd
  | Some posting =>
      let posting := delete pos posting in
      if bool_decide (posting = ∅) then
        match pd.2 !! term with
        | None => raise KeyError (str_repr term)
        | Some _ => Ok (delete term pd.1, delete term pd.2)
        end
      else Ok (<[term := posting]> pd.1, <[term := Z.of_nat (size posting)]> pd.2)
  end.

Definition remove_at (i : Bm25Index) (pos : Z) : result Bm25Index :=
  '(ps, df) ← foldR (remove_posting pos) (postings i, doc_freq i) (default [] (terms_by_pos i !! pos));
  let groups :=
    match group_by_pos i !! pos with
    | None => positions_by_group i
    | Some g =>
        match positions_by_group i !! g with
        | None => positions_by_group i
        | Some positions =>
            let positions := positions ∖ {[pos]} in
            if bool_decide (positions = ∅) then delete g (positions_by_group i)
            else <[g := positions]> (positions_by_group i)
        end
    end in
  Ok (Bm25 ps df (delete pos (doc_len i)) (delete pos (unit_id_by_pos i))
        (match unit_id_by_pos i !! pos with Some u => delete u (pos_by_unit_id i) | None => pos_by_unit_id i end)
        (delete pos (terms_by_pos i)) (delete pos (group_by_pos i)) groups
        (n_units i - 1) (total_len i - default 0 (doc_len i !! pos)) (next_pos i) (k1 i) (b i)).

Definition remove_unit (i : Bm25Index) (unit_id : string) : result Bm25Index :=
  match pos_by_unit_id i !! unit_id with None => Ok i | Some pos => remove_at i pos end.

Definition add_unit (i : Bm25Index) (unit_id : string) (tokens : list string) (group_id : option string)
    : result Bm25Index :=
  i ← (match pos_by_unit_id i !! unit_id with Some _ => remove_unit i unit_id | None => Ok i end);
  add_at i unit_id tokens (default unit_id group_id).

Definition remove_group (i : Bm25Index) (group_id : string) : result Bm25Index :=
  match positions_by_group i !! group_id with
  | None => Ok i
  | Some positions => foldR remove_at i (elements positions)
  end.

Definition replace_group (i : Bm25Index) (group_id : string) (units : list (string * list string)) : result Bm25Index :=
  i ← remove_group i group_id;
  foldR (λ i u, add_unit i u.1 u.2 (Some group_id)) i units.

Definition build (unit_ids : list string) (token_lists : list (list string)) (group_ids : option (list string))
    (k1 b : spec_float) : result Bm25Index :=
  let groups := default unit_ids group_ids in
  if bool_decide (List.length groups = List.length unit_ids) then
    foldR (λ i u, add_at i u.1.1 u.1.2 u.2) (empty_index k1 b) (zip (zip unit_ids token_lists) groups)
  else raise ValueError "group_ids must align with unit_ids".

Definition from_token_lists (unit_ids : list string) (token_lists : list (list string))
    (group_ids : option (list string)) (k1 b : spec_float) : result Bm25Index :=
  if bool_decide (List.length unit_ids = List.length token_lists)
  then build unit_ids token_lists group_ids k1 b
  else raise ValueError "unit_ids and token_lists must be the same length".

Definition Bm25_init (unit_ids texts : list string) (group_ids : option (list string)) (k1 b : spec_float)
    : result Bm25Index :=
  if bool_decide (List.length unit_ids = List.length texts)
  then build unit_ids (map tokenize texts) group_ids k1 b
  else raise ValueError "unit_ids and texts must be the same length".

Definition unit_ids (i : Bm25Index) : gset string := dom (pos_by_unit_id i).
Definition position_of (i : Bm25Index) (unit_id : string) : option Z := pos_by_unit_id i !! unit_id.

(** ** Ranking *)

(** Sort keys [(-score, id)], compared as tuples. *)
Definition rank_leb {A} (key : A → string) (x y : A * spec_float) : bool :=
  let nx := fopp x.2 in let ny := fopp y.2 in
  if feqb nx ny then str_leb (key x.1) (key y.1) else fltb nx ny.

Section ranking.
Context (log : spec_float → spec_float).
Context (set_order : list string → list string).

Definition half : spec_float := fdiv (float_of_Z 1) (float_of_Z 2).
Definition one : spec_float := float_of_Z 1.
Definition zero : spec_float := S754_zero false.

(** [math.log(1.0 + (n - df + 0.5) / (df + 0.5))]. *)
Definition idf_of (n df : Z) : spec_float :=
  if df =? 0 then zero
  else log (fadd one (fdiv (fadd (float_of_Z (n - df)) half) (fadd (float_of_Z df) half))).

Definition idf (i : Bm25Index) (term : string) : spec_float := idf_of (n_units i) (default 0 (doc_freq i !! term)).

(** [total_len / n], or 1.0 when it is zero. *)
Definition avgdl_of (total n : Z) : spec_float :=
  let a := fdiv (float_of_Z total) (float_of_Z n) in
  match a with S754_zero _ => one | _ => a end.

Definition denominator (k1 b : spec_float) (tf len : Z) (avgdl : spec_float) : spec_float :=
  fadd (float_of_Z tf) (fmul k1 (fadd (fsub one b) (fmul b (fdiv (float_of_Z len) avgdl)))).

Definition contribution (k1 idf : spec_float) (tf : Z) (denominator : spec_float) : spec_float :=
  fdiv (fmul idf (fmul (float_of_Z tf) (fadd k1 one))) denominator.

(** The scores after one position of one posting. *)
Definition score_posting (i : Bm25Index) (avgdl idf : spec_float) (allowed : option (gset Z))
    (scores : gmap Z spec_float) (pt : Z * Z) : result (gmap Z spec_float) :=
  if match allowed with Some a => bool_decide (pt.1 ∉ a) | None => false end then Ok scores
  else match doc_len i !! pt.1 with
       | None => raise KeyError (Z_str pt.1)
       | Some len =>
           let den := denominator (k1 i) (b i) pt.2 len avgdl in
           if fleb den zero then Ok scores
           else Ok (<[pt.1 := fadd (default zero (scores !! pt.1)) (contribution (k1 i) idf pt.2 den)]> scores)
       end.

Definition score_term (i : Bm25Index) (avgdl : spec_float) (allowed : option (gset Z))
    (scores : gmap Z spec_float) (term : string) : result (gmap Z spec_float) :=
  match postings i !! term with
  | None => Ok scores
  | Some posting =>
      if fleb (idf i term) zero then Ok scores
      else foldR (score_posting i avgdl (idf i term) allowed) scores (map_to_list posting)
  end.

Definition rank (i : Bm25Index) (query : string) (limit : option Z) (allowed_indices : option (gset Z))
    : result (list (string * spec_float)) :=
  if n_units i =? 0 then Ok []
  else match tokenize query with
  | [] => Ok []
  | query_terms =>
      let avgdl := avgdl_of (total_len i) (n_units i) in
      scores ← foldR (score_term i avgdl allowed_indices) ∅ (set_order query_terms);
      named ← mapR (λ ps : Z * spec_float, match unit_id_by_pos i !! ps.1 with
                           | Some u => Ok (u, ps.2)
                           | None => raise KeyError (Z_str ps.1)
                           end) (map_to_list scores);
      let ranked := sort_by (rank_leb id) named in
      Ok (match limit with Some k => take (slice_bound (Z.of_nat (List.length ranked)) k) ranked | None => ranked end)
  end.
End ranking.

(** ** Reciprocal rank fusion *)

(** One ranking: [(seen, fused)] after the id at [position]. *)
Definition fuse_id (c : Z) (weight : spec_float) (sf : gset string * gmap string spec_float) (pi : Z * string)
    : result (gset string * gmap string spec_float) :=
  let '(seen, fused) := sf in
  if bool_decide (pi.2 ∈ seen) then Ok sf
  else
    let rank := pi.1 + 1 in
    if c + rank =? 0 then raise ZeroDivisionError "float division by zero"
    else Ok ({[pi.2]} ∪ seen,
             <[pi.2 := fadd (default (S754_zero false) (fused !! pi.2)) (fdiv weight (float_of_Z (c + rank)))]> fused).

Definition enumerate {A} (l : list A) : list (Z * A) := zip (map Z.of_nat (seq 0 (List.length l))) l.

Definition fuse_ranking (c : Z) (fused : gmap string spec_float) (wr : spec_float * list string)
    : result (gmap string spec_float) :=
  snd <$> foldR (fuse_id c wr.1) (∅, fused) (enumerate wr.2).

Definition reciprocal_rank_fusion (rankings : list (list string)) (c : Z) (weights : option (list spec_float))
    : result (list (string * spec_float)) :=
  let ws := default (replicate (List.length rankings) (float_of_Z 1)) weights in
  if bool_decide (List.length ws = List.length rankings) then
    fused ← foldR (fuse_ranking c) ∅ (zip ws rankings);
    Ok (sort_by (rank_leb id) (map_to_list fused))
  else raise ValueError "weights must align with rankings".

Definition fuse_unit_rankings (vector_unit_ids lexical_unit_ids : list string) (c : Z) : result (list string) :=
  map fst <$> reciprocal_rank_fusion [vector_unit_ids; lexical_unit_ids] c None.

(** ** Aligned chunk lists *)

(** [chunker] is the caller's chunking function; dictionaries are association lists in order. *)
Definition build_chunk_texts (chunker : string → Z → list string) (document_texts : gmap string string)
    (document_chunk_ids : list (string * list string)) (chunk_character_limit : Z)
    : list string * list string * list string :=
  fold_left (λ acc di,
    match document_texts !! di.1 with
    | None => acc
    | Some text =>
        let zipped := zip di.2 (chunker text chunk_character_limit) in
        (acc.1.1 ++ map fst zipped, acc.1.2 ++ map snd zipped, acc.2 ++ map (λ _, di.1) zipped)
    end) document_chunk_ids ([], [], []).

Definition build_chunk_token_lists (document_tokens : gmap string (list (list string)))
    (document_chunk_ids : list (string * list string)) : list string * list (list string) * list string :=
  fold_left (λ acc di,
    match document_tokens !! di.1 with
    | None | Some [] => acc
    | Some chunks =>
        let zipped := zip di.2 chunks in
        (acc.1.1 ++ map fst zipped, acc.1.2 ++ map snd zipped, acc.2 ++ map (λ _, di.1) zipped)
    end) document_chunk_ids ([], [], []).

(** ** The tokenizer's specification *)

(** A token after its first character: separators are single and between alphanumerics. *)
Fixpoint token_body (l : list ascii) : bool :=
  match l with
  | [] => true
  | c :: l' => (alnum c || sep c && next_alnum l') && token_body l'
  end.
Definition is_token (l : list ascii) : bool :=
  match l with [] => false | c :: l' => alnum c && token_body l' end.

Definition is_gap (l : list ascii) : bool := forallb (λ c, negb (alnum c)) l.
(** A gap that keeps two tokens apart: not empty and not a lone separator. *)
Definition boundary (l : list ascii) : bool :=
  match l with [] => false | [c] => negb (sep c) | _ => true end.

Definition render (parts : list (list ascii * list ascii)) : list ascii := concat (map (λ p, p.1 ++ p.2) parts).

Fixpoint parts_ok (parts : list (list ascii * list ascii)) : bool :=
  match parts with
  | [] => true
  | p :: ps => is_token p.1 && is_gap p.2 && (match ps with [] => true | _ => boundary p.2 end) && parts_ok ps
  end.

(** The text is gaps and tokens in alternation, the tokens being [ts]. *)
Definition tokenization (l : list ascii) (ts : list (list ascii)) : Prop :=
  ∃ g parts, l = g ++ render parts ∧ is_gap g = true ∧ parts_ok parts = true ∧ ts = map fst parts.

Lemma sep_not_alnum c : sep c = true → alnum c = false.
Proof. unfold sep. intros [->|[->| ->]]%bool_decide_eq_true_1; done. Qed.

Lemma findall_body cur t r : cur ≠ [] → token_body t = true → findall cur (t ++ r) = findall (reverse t ++ cur) r.
Proof.
  revert cur; induction t as [|c t IH]; intros cur Hcur Ht; [done|].
  cbn [token_body] in Ht. apply andb_prop in Ht as [Hc Ht]. cbn [app findall].
  rewrite reverse_cons, <-(assoc_L (++)). change ([c] ++ cur) with (c :: cur).
  destruct (alnum c) eqn:E; [by apply IH|]. simpl in Hc. apply andb_prop in Hc as [Hs Hn].
  destruct cur as [|d cur]; [done|]. rewrite Hs.
  assert (next_alnum (t ++ r) = true) as -> by (by destruct t). by apply IH.
Qed.

Lemma findall_gap g r : is_gap g = true → findall [] (g ++ r) = findall [] r.
Proof.
  induction g as [|c g IH]; [done|]. cbn [is_gap forallb app findall]. intros [Hc Hg]%andb_prop.
  apply negb_true_iff in Hc. rewrite Hc. by apply IH.
Qed.

Lemma findall_emit cur g r : cur ≠ [] → is_gap g = true → (boundary g = true ∨ r = []) →
  findall cur (g ++ r) = reverse cur :: findall [] r.
Proof.
  intros Hcur Hg Hb. destruct g as [|c g].
  - destruct Hb as [?| ->]; [done|]. cbn. by destruct cur.
  - cbn [is_gap forallb] in Hg. apply andb_prop in Hg as [Hc Hg]. apply negb_true_iff in Hc.
    cbn [app findall]. rewrite Hc. destruct cur as [|x cur]; [done|].
    assert (sep c && next_alnum (g ++ r) = false) as ->.
    { destruct g as [|d g]; cbn [app next_alnum].
      - destruct Hb as [Hb| ->]; [|by rewrite andb_false_r]. cbn in Hb. apply negb_true_iff in Hb. by rewrite Hb.
      - cbn [forallb] in Hg. apply andb_prop in Hg as [Hd _]. apply negb_true_iff in Hd. by rewrite Hd, andb_false_r. }
    f_equal. by apply (findall_gap g).
Qed.

Lemma findall_parts parts : parts_ok parts = true → findall [] (render parts) = map fst parts.
Proof.
  induction parts as [|[t g] parts IH]; [done|]. cbn [parts_ok fst snd]. intros H.
  apply andb_prop in H as [H Hps]. apply andb_prop in H as [H Hb]. apply andb_prop in H as [Ht Hg].
  unfold render. cbn [map concat fst snd]. fold (render parts). rewrite <-(assoc_L (++)).
  destruct t as [|c t]; [done|]. cbn [is_token] in Ht. apply andb_prop in Ht as [Hc Ht].
  cbn [app findall]. rewrite Hc, findall_body by done. rewrite findall_emit.
  - rewrite reverse_app, reverse_involutive. f_equal. by apply IH.
  - by destruct (reverse t).
  - done.
  - destruct parts; [by right|by left].
Qed.

Lemma token_body_snoc t c : token_body t = true → alnum c = true → token_body (t ++ [c]) = true.
Proof.
  intros Ht Hc. induction t as [|d t IH]; cbn [app token_body]; [by rewrite Hc|].
  cbn [token_body] in Ht. apply andb_prop in Ht as [Hd Ht]. rewrite IH by done. rewrite andb_true_r.
  apply orb_prop in Hd as [->|[-> Hn]%andb_prop]; [done|]. destruct t; [done|]. cbn in *. by rewrite Hn, orb_true_r.
Qed.
Lemma token_body_snoc2 t c d : token_body t = true → sep c = true → alnum d = true → token_body (t ++ [c; d]) = true.
Proof.
  intros Ht Hc Hd. induction t as [|e t IH]; cbn [app token_body next_alnum].
  - by rewrite Hc, Hd, !orb_true_r.
  - cbn [token_body] in Ht. apply andb_prop in Ht as [He Ht]. rewrite IH by done. rewrite andb_true_r.
    apply orb_prop in He as [->|[-> Hn]%andb_prop]; [done|]. destruct t; [done|]. cbn in *. by rewrite Hn, orb_true_r.
Qed.

(** [t] is a token, or becomes one with the alphanumeric that comes next. *)
Definition open_token (t l : list ascii) : Prop :=
  is_token t = true ∨ (next_alnum l = true ∧ ∀ d, alnum d = true → is_token (t ++ [d]) = true).

Lemma is_token_snoc t c : is_token t = true → alnum c = true → is_token (t ++ [c]) = true.
Proof.
  destruct t as [|d t]; [done|]. cbn [is_token app]. intros [-> Ht]%andb_prop Hc. by apply token_body_snoc.
Qed.

Lemma findall_complete l :
  tokenization l (findall [] l) ∧
  ∀ cur, cur ≠ [] → open_token (reverse cur) l → ∃ t' g parts,
    l = t' ++ g ++ render parts ∧ is_token (reverse cur ++ t') = true ∧
    parts_ok ((reverse cur ++ t', g) :: parts) = true ∧ findall cur l = (reverse cur ++ t') :: map fst parts.
Proof.
  induction l as [|c l [IH0 IH]].
  - split; [by exists [], []|]. intros cur Hcur [Ht|[? _]]; [|done].
    exists [], [], []. rewrite (app_nil_r (reverse cur)). cbn [parts_ok fst snd findall map]. rewrite Ht.
    by destruct cur.
  - split.
    + cbn [findall]. destruct (alnum c) eqn:Hc.
      * destruct (IH [c]) as (t' & g & parts & -> & Ht & Hp & Hf); [done|left; cbn; by rewrite Hc|].
        exists [], ((c :: t', g) :: parts). split_and!; [|done|done|done].
        unfold render. cbn. by rewrite <-(assoc_L (++)).
      * destruct IH0 as (g & parts & -> & Hg & Hp & ->). exists (c :: g), parts. split_and!; try done.
        cbn. by rewrite Hc.
    + intros cur Hcur Hopen. destruct (alnum c) eqn:Hc.
      * destruct (IH (c :: cur)) as (t' & g & parts & -> & Ht & Hp & Hf); [done| |].
        { left. rewrite reverse_cons. destruct Hopen as [Ht|[_ Ht]]; [by apply is_token_snoc|by apply Ht]. }
        rewrite reverse_cons, <-(assoc_L (++)) in Ht, Hp, Hf. change ([c] ++ t') with (c :: t') in *.
        exists (c :: t'), g, parts. split_and!; try done. cbn [findall]. by rewrite Hc.
      * assert (is_token (reverse cur) = true) as Htok.
        { destruct Hopen as [?|[Hn _]]; [done|]. cbn in Hn. congruence. }
        destruct (sep c && next_alnum l) eqn:Hs.
        -- apply andb_prop in Hs as [Hsep Hn].
           destruct (IH (c :: cur)) as (t' & g & parts & -> & Ht & Hp & Hf); [done| |].
           { right. split; [done|]. intros d Hd. rewrite reverse_cons, <-(assoc_L (++)). cbn [app].
             destruct (reverse cur) as [|e t]; [done|]. cbn [is_token app] in *.
             apply andb_prop in Htok as [-> ?]. by apply token_body_snoc2. }
           rewrite reverse_cons, <-(assoc_L (++)) in Ht, Hp, Hf. change ([c] ++ t') with (c :: t') in *.
           exists (c :: t'), g, parts. split_and!; try done. cbn [findall]. rewrite Hc, Hsep, Hn.
           destruct cur; done.
        -- destruct IH0 as (g & parts & El & Hg & Hp & Hf). exists [], (c :: g), parts. rewrite (app_nil_r (reverse cur)).
           assert (is_gap (c :: g) = true) as Hcg by (cbn; by rewrite Hc).
           split_and!; [by rewrite El|done| |].
           ++ cbn [parts_ok fst snd]. rewrite Htok, Hcg, Hp. cbn [andb]. rewrite andb_true_r.
              destruct parts as [|[t gg] parts]; [done|]. destruct g as [|d g]; [|done]. cbn [boundary].
              apply negb_true_iff. destruct (sep c) eqn:E; [|done]. rewrite <-Hs. cbn [andb]. rewrite El.
              cbn [parts_ok fst] in Hp. do 3 (apply andb_prop in Hp as [Hp _]).
              destruct t as [|x t]; [done|]. cbn in Hp |- *. by apply andb_prop in Hp as [-> _].
           ++ cbn [findall]. rewrite Hc, Hs, <-Hf. by destruct cur.
Qed.

Lemma tokenization_findall l ts : tokenization l ts ↔ ts = findall [] l.
Proof.
  split; [|intros ->; apply findall_complete].
  intros (g & parts & -> & Hg & Hp & ->). by rewrite findall_gap, findall_parts.
Qed.

(** ** The ranking order *)

(** [rank_leb] on scores that are not NaN, as a lexicographic order on the scores' keys. *)
Definition rank_before {A} (key : A → string) (x y : A * spec_float) : Prop :=
  key_lt (fkey (fopp x.2)) (fkey (fopp y.2)) ∨
  fkey (fopp x.2) = fkey (fopp y.2) ∧ str_leb (key x.1) (key y.1) = true.

Global Instance key_lt_dec x y : Decision (key_lt x y).
Proof. unfold key_lt. apply _. Defined.
Global Instance rank_before_dec {A} (key : A → string) x y : Decision (rank_before key x y).
Proof. unfold rank_before. apply _. Defined.

Lemma key_lt_irrefl x : ¬ key_lt x x.
Proof. unfold key_lt. lia. Qed.
Lemma key_lt_trans x y z : key_lt x y → key_lt y z → key_lt x z.
Proof. unfold key_lt. lia. Qed.
Lemma key_lt_total x y : key_lt x y ∨ x = y ∨ key_lt y x.
Proof.
  unfold key_lt. destruct x as [[x1 x2] x3], y as [[y1 y2] y3]. cbn [fst snd].
  destruct (Z.lt_trichotomy x1 y1) as [?|[->|?]]; [lia| |lia].
  destruct (Z.lt_trichotomy x2 y2) as [?|[->|?]]; [lia| |lia].
  destruct (Z.lt_trichotomy x3 y3) as [?|[->|?]]; [lia|by right; left|lia].
Qed.

Section rank_order.
Context {A : Type} (key : A → string).

Lemma rank_leb_before (x y : A * spec_float) : is_nan x.2 = false → is_nan y.2 = false →
  rank_leb key x y = bool_decide (rank_before key x y).
Proof.
  intros Hx Hy. unfold rank_leb. rewrite <-is_nan_fopp in Hx, Hy.
  apply eq_bool_prop_intro. rewrite !Is_true_true, bool_decide_eq_true. unfold rank_before.
  destruct (feqb (fopp x.2) (fopp y.2)) eqn:E.
  - apply feqb_fkey in E as ->; [|done|done].
    split; [by right|]. intros [H|[_ ?]]; [by apply key_lt_irrefl in H|done].
  - assert (fkey (fopp x.2) ≠ fkey (fopp y.2)) by (intros H; apply feqb_fkey in H; [congruence|done|done]).
    rewrite fltb_fkey by done. naive_solver.
Qed.

Lemma rank_before_total (x y : A * spec_float) : rank_before key x y ∨ rank_before key y x.
Proof.
  unfold rank_before. destruct (key_lt_total (fkey (fopp x.2)) (fkey (fopp y.2))) as [?|[?|?]]; [by left; left| |by right; left].
  destruct (str_leb_total (key x.1) (key y.1)); [left|right]; by right.
Qed.
Lemma rank_before_trans (x y z : A * spec_float) : rank_before key x y → rank_before key y z → rank_before key x z.
Proof.
  unfold rank_before. intros [H1|[H1 S1]] [H2|[H2 S2]].
  - left. by eapply key_lt_trans.
  - left. by rewrite <-H2.
  - left. by rewrite H1.
  - right. split; [congruence|]. by eapply str_leb_trans.
Qed.
Lemma rank_before_antisym (x y : A * spec_float) : rank_before key x y → rank_before key y x → key x.1 = key y.1.
Proof.
  unfold rank_before. intros [H1|[H1 S1]] [H2|[H2 S2]].
  - exfalso. eapply key_lt_irrefl, key_lt_trans; [exact H1|exact H2].
  - rewrite H2 in H1. by apply key_lt_irrefl in H1.
  - rewrite H1 in H2. by apply key_lt_irrefl in H2.
  - by apply str_leb_antisym.
Qed.
End rank_order.

(** In a list with distinct keys, a key has one value. *)
Lemma NoDup_fst_inj {A B} (l : list (A * B)) k x y : NoDup l.*1 → (k, x) ∈ l → (k, y) ∈ l → x = y.
Proof.
  induction l as [|[k' z] l IH]; intros Hnd Hx Hy; [by apply elem_of_nil in Hx|].
  apply NoDup_cons in Hnd as [Hk Hnd].
  assert (∀ v, (k', v) ∉ l) as Hno by (intros v Hv; apply Hk, list_elem_of_fmap; by exists (k', v)).
  apply elem_of_cons in Hx, Hy. naive_solver.
Qed.

Definition scored (l : list (string * spec_float)) : Prop := Forall (λ us, is_nan us.2 = false) l.

Lemma rank_sort_eq l : scored l → sort_by (rank_leb id) l = sort_by (λ x y, bool_decide (rank_before id x y)) l.
Proof.
  intros Hl. apply sort_by_ext. intros x y Hx Hy. unfold scored in Hl. rewrite Forall_forall in Hl. apply rank_leb_before; by apply Hl.
Qed.

(** Best first, ties by id. *)
Lemma rank_sort_sorted l : scored l → StronglySorted (rank_before id) (sort_by (rank_leb id) l).
Proof.
  intros Hl. rewrite rank_sort_eq by done.
  assert (StronglySorted (λ x y, bool_decide (rank_before id x y) = true) (sort_by (λ x y, bool_decide (rank_before id x y)) l)) as H.
  { apply sort_by_sorted.
    - intros x y. rewrite !bool_decide_eq_true. apply rank_before_total.
    - intros x y z. rewrite !bool_decide_eq_true. apply rank_before_trans. }
  induction H as [|x k _ IH Hx]; constructor; [done|]. eapply Forall_impl; [exact Hx|]. intros y. apply bool_decide_eq_true_1.
Qed.

(** The ranked list depends on the scored ids only, not on their order. *)
Lemma rank_sort_unique l1 l2 : scored l1 → NoDup l1.*1 → l1 ≡ₚ l2 → sort_by (rank_leb id) l1 = sort_by (rank_leb id) l2.
Proof.
  intros Hs Hnd Hp. rewrite !rank_sort_eq by (done || unfold scored in *; by rewrite <-Hp). apply sort_by_unique; [| | |done].
  - intros x y. rewrite !bool_decide_eq_true. apply rank_before_total.
  - intros x y z. rewrite !bool_decide_eq_true. apply rank_before_trans.
  - intros [u x] [v y] Hx Hy. rewrite !bool_decide_eq_true. intros H1 H2.
    assert (u = v) as -> by (by apply (rank_before_antisym id (u, x) (v, y))).
    by rewrite (NoDup_fst_inj l1 v x y).
Qed.

(** ** Reciprocal rank fusion: the score of an id *)

(** The 1-based rank of the first occurrence of an id in a ranking. *)
Fixpoint first_rank (u : string) (ranking : list string) : option Z :=
  match ranking with
  | [] => None
  | v :: r => if bool_decide (v = u) then Some 1 else Z.succ <$> first_rank u r
  end.

(** [Σ w / (c + rank(id))] over the rankings that contain the id, in order. *)
Definition rrf_step (c : Z) (u : string) (acc : option spec_float) (wr : spec_float * list string) : option spec_float :=
  match first_rank u wr.2 with
  | Some k => Some (fadd (default zero acc) (fdiv wr.1 (float_of_Z (c + k))))
  | None => acc
  end.
Definition rrf_score (c : Z) (wrs : list (spec_float * list string)) (u : string) : option spec_float :=
  fold_left (rrf_step c u) wrs None.

Section fusion.
Context (c : Z) (Hc : 0 <= c).

Lemma fuse_ids w l k seen fused :
  ∃ seen' fused', foldR (fuse_id c w) (seen, fused) (zip (map Z.of_nat (seq k (List.length l))) l) = Ok (seen', fused') ∧
  ∀ u, fused' !! u = if bool_decide (u ∈ seen) then fused !! u
    else match first_rank u l with
         | Some r => Some (fadd (default zero (fused !! u)) (fdiv w (float_of_Z (c + (Z.of_nat k + r)))))
         | None => fused !! u
         end.
Proof using Hc.
  revert k seen fused; induction l as [|v l IH]; intros k seen fused.
  { exists seen, fused. split; [done|]. intros u. cbn. by case_bool_decide. }
  cbn [List.length seq map zip zip_with foldR]. unfold fuse_id at 2. cbn [fst snd].
  destruct (decide (v ∈ seen)) as [Hv|Hv].
  - rewrite bool_decide_eq_true_2 by done. cbn [mbind result_bind].
    destruct (IH (S k) seen fused) as (seen' & fused' & HOk & Hall). exists seen', fused'. split; [exact HOk|].
    intros u. rewrite Hall. case_bool_decide as Hu; [done|]. cbn [first_rank].
    rewrite (bool_decide_eq_false_2 (v = u)) by congruence. destruct (first_rank u l); [|done]. cbn [fmap option_fmap option_map].
    do 4 f_equal. lia.
  - rewrite bool_decide_eq_false_2 by done. rewrite (proj2 (Z.eqb_neq _ _)) by lia. cbn [mbind result_bind].
    destruct (IH (S k) ({[v]} ∪ seen) (<[v := fadd (default (S754_zero false) (fused !! v)) (fdiv w (float_of_Z (c + (Z.of_nat k + 1))))]> fused))
      as (seen' & fused' & HOk & Hall). exists seen', fused'. split; [exact HOk|].
    intros u. rewrite Hall. cbn [first_rank]. destruct (decide (v = u)) as [->|Hne].
    + rewrite (bool_decide_eq_true_2 (u ∈ _ ∪ _)) by set_solver. rewrite (bool_decide_eq_true_2 (u = u)) by done.
      rewrite lookup_insert_eq, bool_decide_eq_false_2 by done. done.
    + rewrite (bool_decide_eq_false_2 (v = u)), lookup_insert_ne by done.
      rewrite (bool_decide_ext (u ∈ {[v]} ∪ seen) (u ∈ seen)) by set_solver. case_bool_decide; [done|].
      destruct (first_rank u l); [|done]. cbn [fmap option_fmap option_map]. do 4 f_equal. lia.
Qed.

Lemma fuse_ranking_spec wr fused :
  ∃ fused', fuse_ranking c fused wr = Ok fused' ∧ ∀ u, fused' !! u = rrf_step c u (fused !! u) wr.
Proof using Hc.
  destruct (fuse_ids wr.1 wr.2 0 ∅ fused) as (seen & fused' & HOk & Hall). exists fused'. split.
  - unfold fuse_ranking, enumerate. by rewrite HOk.
  - intros u. rewrite Hall. unfold rrf_step. cbn. done.
Qed.

Lemma fuse_rankings_spec wrs fused :
  ∃ fused', foldR (fuse_ranking c) fused wrs = Ok fused' ∧ ∀ u, fused' !! u = fold_left (rrf_step c u) wrs (fused !! u).
Proof using Hc.
  revert fused; induction wrs as [|wr wrs IH]; intros fused; cbn [foldR fold_left]; [by exists fused|].
  destruct (fuse_ranking_spec wr fused) as (f1 & -> & H1). cbn [mbind result_bind].
  destruct (IH f1) as (f' & -> & H'). exists f'. split; [done|]. intros u. by rewrite H', H1.
Qed.
End fusion.

Lemma first_rank_is_Some u l : is_Some (first_rank u l) ↔ u ∈ l.
Proof.
  induction l as [|v l IH]; cbn [first_rank].
  - split; [by intros [??]|by intros ?%elem_of_nil].
  - rewrite elem_of_cons. case_bool_decide; [naive_solver|]. rewrite fmap_is_Some, IH. naive_solver.
Qed.

Lemma rrf_score_is_Some c wrs u : is_Some (rrf_score c wrs u) ↔ ∃ wr, wr ∈ wrs ∧ u ∈ wr.2.
Proof.
  unfold rrf_score. assert (∀ acc, is_Some (fold_left (rrf_step c u) wrs acc) ↔ is_Some acc ∨ ∃ wr, wr ∈ wrs ∧ u ∈ wr.2) as H.
  { induction wrs as [|wr wrs IH]; intros acc; cbn [fold_left].
    - split; [by left|]. intros [?|(wr & ?%elem_of_nil & _)]; done.
    - rewrite IH. unfold rrf_step. pose proof (first_rank_is_Some u wr.2) as Hr. setoid_rewrite elem_of_cons.
      destruct (first_rank u wr.2); split.
      + intros _. right. exists wr. split; [by left|]. by apply Hr.
      + intros _. left. eauto.
      + intros [?|(wr' & ? & ?)]; [by left|]. right. exists wr'. auto.
      + intros [?|(wr' & [->|?] & Hu)]; [by left|by apply Hr in Hu as [??]|]. right. eauto. }
  rewrite H. split; [intros [[??]|?]; done|by right].
Qed.

Lemma rrf_score_is_Some_rankings c ws rankings u : length ws = length rankings →
  is_Some (rrf_score c (zip ws rankings) u) ↔ ∃ r, r ∈ rankings ∧ u ∈ r.
Proof.
  intros Hl. rewrite rrf_score_is_Some. split.
  - intros ([w r] & Hin & Hu). exists r. split; [|done]. by apply elem_of_zip_r in Hin.
  - intros (r & Hin & Hu). rewrite <-(snd_zip ws rankings) in Hin by lia.
    apply list_elem_of_fmap in Hin as ([w r'] & -> & Hwr). by exists (w, r').
Qed.

Lemma lower_char_token c : (alnum c || sep c) = true → lower_char c = c.
Proof. destruct c as [[] [] [] [] [] [] [] []]; vm_compute; done. Qed.

Lemma token_body_chars t : token_body t = true → Forall (λ c, (alnum c || sep c) = true) t.
Proof.
  induction t as [|c t IH]; [constructor|]. cbn [token_body]. intros [Hc Ht]%andb_prop. constructor; [|by apply IH].
  apply orb_prop in Hc as [->|[-> _]%andb_prop]; [done|apply orb_true_r].
Qed.

Lemma parts_ok_tokens parts : parts_ok parts = true → Forall (λ t, is_token t = true) (map fst parts).
Proof.
  induction parts as [|p parts IH]; [constructor|]. cbn [parts_ok map]. intros [H ?]%andb_prop.
  do 2 (apply andb_prop in H as [H _]). constructor; [done|by apply IH].
Qed.

(** A token is its own tokenization. *)
Lemma token_self t : is_token t = true → tokenize (of_chars t) = [of_chars t].
Proof.
  intros Ht. assert (map lower_char t = t) as Hl.
  { destruct t as [|c t]; [done|]. cbn [is_token] in Ht. apply andb_prop in Ht as [Hc Ht]. cbn [map].
    rewrite lower_char_token by (by rewrite Hc). f_equal. apply token_body_chars in Ht.
    induction Ht as [|d t Hd _ IH]; [done|]. cbn [map]. by rewrite lower_char_token, IH. }
  assert (findall [] t = [t]) as Hf.
  { pose proof (findall_parts [(t, [])]) as H. cbn in H. rewrite !app_nil_r in H. apply H. by rewrite Ht. }
  assert (tokenize (of_chars t) = map of_chars (findall [] (chars (str_lower (of_chars t))))) as -> by (by destruct t).
  unfold str_lower. by rewrite !chars_of_chars, Hl, Hf.
Qed.

(** ** Claims *)

(** [tokenize] decomposes the lowered text: the tokens it returns, in document order, are the
    alphanumeric runs (single [-], [.] or [/] inside) of the one way to write the text as runs kept
    apart by gaps that are not a lone separator; and a token is its own tokenization. *)
Theorem tokenize_spec text ts :
  (tokenization (chars (str_lower text)) (map chars ts) ↔ ts = tokenize text) ∧
  Forall (λ t, tokenize t = [t]) (tokenize text).
Proof.
  assert (tokenize text = map of_chars (findall [] (chars (str_lower text)))) as E by (by destruct text).
  assert (map chars (tokenize text) = findall [] (chars (str_lower text))) as E'.
  { rewrite E, map_map. rewrite <-map_id. apply map_ext. apply chars_of_chars. }
  split.
  - rewrite tokenization_findall, <-E'. split; [|by intros ->]. intros H. by apply (inj (map chars)) in H.
  - rewrite E. apply Forall_fmap, Forall_forall. intros t Ht. cbn. apply token_self.
    destruct (findall_complete (chars (str_lower text))) as [(g & parts & _ & _ & Hp & Ef) _]. rewrite Ef in Ht.
    apply parts_ok_tokens in Hp. rewrite Forall_forall in Hp. by apply Hp.
Qed.

(** Reciprocal rank fusion returns every id of the rankings once, with the sum of
    [weight / (c + rank)] over the rankings that contain it (its first, 1-based rank in each),
    best first with ties by id. *)
Theorem rrf_scores_and_order rankings c weights :
  0 <= c → length (default (replicate (length rankings) (float_of_Z 1)) weights) = length rankings →
  ∃ l, reciprocal_rank_fusion rankings c weights = Ok l ∧ NoDup l.*1 ∧
  (∀ u x, (u, x) ∈ l ↔
     rrf_score c (zip (default (replicate (length rankings) (float_of_Z 1)) weights) rankings) u = Some x) ∧
  (∀ u, u ∈ l.*1 ↔ ∃ r, r ∈ rankings ∧ u ∈ r) ∧
  (scored l → StronglySorted (rank_before id) l).
Proof.
  intros Hc Hw. unfold reciprocal_rank_fusion. rewrite bool_decide_eq_true_2 by done.
  set (ws := default _ weights) in *. destruct (fuse_rankings_spec c Hc (zip ws rankings) ∅) as (fused & -> & Hall).
  cbn [mbind result_bind]. eexists. split; [reflexivity|].
  assert (∀ u x, (u, x) ∈ sort_by (rank_leb id) (map_to_list fused) ↔ rrf_score c (zip ws rankings) u = Some x) as Hin.
  { intros u x. rewrite elem_of_sort_by, elem_of_map_to_list, Hall, lookup_empty. done. }
  split_and!.
  - rewrite (sort_by_perm (rank_leb id)). apply NoDup_fst_map_to_list.
  - done.
  - intros u. etrans; [|apply (rrf_score_is_Some_rankings c ws rankings u Hw)]. rewrite list_elem_of_fmap. split.
    + intros ([v x] & -> & Hx%Hin). by exists x.
    + intros [x Hx%Hin]. by exists (u, x).
  - intros Hs. apply rank_sort_sorted. unfold scored in *. by rewrite sort_by_perm in Hs.
Qed.

Lemma rrf_scores_and_order_witness :
  ∃ l, reciprocal_rank_fusion [["a"; "b"; "a"]; ["b"]]%string RRF_C None = Ok l ∧ NoDup l.*1 ∧
  (∀ u x, (u, x) ∈ l ↔ rrf_score RRF_C (zip [float_of_Z 1; float_of_Z 1] [["a"; "b"; "a"]; ["b"]]%string) u = Some x) ∧
  (∀ u, u ∈ l.*1 ↔ ∃ r, r ∈ [["a"; "b"; "a"]; ["b"]]%string ∧ u ∈ r) ∧
  (scored l → StronglySorted (rank_before id) l).
Proof. apply (rrf_scores_and_order [["a"; "b"; "a"]; ["b"]]%string RRF_C None); [discriminate|reflexivity]. Defined.

Example fuse_sample : fuse_unit_rankings ["a"; "b"; "c"]%string ["c"; "d"]%string RRF_C = Ok ["c"; "a"; "b"; "d"]%string.
Proof. vm_compute. reflexivity. Qed.
