(* ===== verification/LexicalIndex.v ===== *)
(** * The BM25 index: representation invariant, incremental updates and ranking

    Correctness of [Bm25Index] ([src/src/lodedb/engine/_lexical.py]). The abstract state is a
    map from positions to units (id, tokens, document group) with the next free position; every
    map and counter of the index is a function of it. Adding, upserting, removing and replacing
    units never raise and act on the abstract state as their documentation says, and [rank] is a
    function of the set of units alone, so an index maintained incrementally ranks like one built
    in bulk. *)

From Stdlib Require Import Ascii String ZArith Lia SpecFloat.
From stdpp Require Import base strings numbers sets gmap fin_maps fin_map_dom sorting list.
From S2P Require Import Prelude Numbers PyVal Lexical.

Local Open Scope Z_scope.

(** ** The abstract index *)

Record unit_slot := Slot { slot_id : string; slot_tokens : list string; slot_group : string }.

Global Instance unit_slot_eq_dec : EqDecision unit_slot.
Proof. solve_decision. Defined.

Local Notation slots := (gmap Z unit_slot).

Definition term_count (t : string) (tokens : list string) : Z :=
  Z.of_nat (List.length (filter (λ x, x = t) tokens)).

Definition slot_tf (t : string) (s : unit_slot) : option Z :=
  let c := term_count t (slot_tokens s) in if c =? 0 then None else Some c.

Definition posting_of (S : slots) (t : string) : gmap Z Z := omap (slot_tf t) S.
Definition nonempty_map {A} (m : gmap Z A) : option (gmap Z A) := if bool_decide (m = ∅) then None else Some m.
Definition group_positions (S : slots) (g : string) : gset Z := dom (filter (λ ps : Z * unit_slot, slot_group ps.2 = g) S).
Definition nonempty_set (X : gset Z) : option (gset Z) := if bool_decide (X = ∅) then None else Some X.
Definition slot_len (s : unit_slot) : Z := Z.of_nat (List.length (slot_tokens s)).
Definition slots_len (S : slots) : Z := map_fold (λ _ s acc, slot_len s + acc) 0 S.

(** Every map and counter of the index, as a function of the slots. *)
Record repr (i : Bm25Index) (S : slots) : Prop := Repr {
  repr_postings : ∀ t, postings i !! t = nonempty_map (posting_of S t);
  repr_doc_freq : ∀ t, doc_freq i !! t = (λ m, Z.of_nat (size m)) <$> nonempty_map (posting_of S t);
  repr_doc_len : doc_len i = slot_len <$> S;
  repr_unit_id : unit_id_by_pos i = slot_id <$> S;
  repr_pos : ∀ u p, pos_by_unit_id i !! u = Some p ↔ slot_id <$> S !! p = Some u;
  repr_terms : terms_by_pos i = (λ s, distinct_terms (slot_tokens s)) <$> S;
  repr_group : group_by_pos i = slot_group <$> S;
  repr_groups : ∀ g, positions_by_group i !! g = nonempty_set (group_positions S g);
  repr_n : n_units i = Z.of_nat (size S);
  repr_total : total_len i = slots_len S;
  repr_next : ∀ p s, S !! p = Some s → 0 <= p < next_pos i;
  repr_next_nonneg : 0 <= next_pos i }.

(** ** Counting *)

Lemma term_count_cons t x l : term_count t (x :: l) = (if decide (x = t) then 1 else 0) + term_count t l.
Proof.
  unfold term_count. rewrite filter_cons. destruct (decide (x = t)); cbn [List.length]; lia.
Qed.
Lemma term_count_nonneg t l : 0 <= term_count t l.
Proof. unfold term_count. lia. Qed.
Lemma term_count_pos t l : 0 < term_count t l ↔ t ∈ l.
Proof.
  induction l as [|x l IH].
  - split; [done|]. by intros ?%elem_of_nil.
  - rewrite term_count_cons, elem_of_cons. pose proof (term_count_nonneg t l).
    destruct (decide (x = t)) as [->|]; [split; [by left|lia]|]. rewrite <-IH. split; [intros; right; lia|].
    intros [->|]; [done|lia].
Qed.

Lemma count_tokens_spec_go l (m : gmap string Z) t :
  default 0 (fold_left (λ m t, <[t := default 0 (m !! t) + 1]> m) l m !! t) = default 0 (m !! t) + term_count t l.
Proof.
  revert m; induction l as [|x l IH]; intros m; cbn [fold_left].
  { change (term_count t []) with 0. lia. }
  rewrite IH, term_count_cons.
  destruct (decide (x = t)) as [->|]; [rewrite lookup_insert_eq|rewrite lookup_insert_ne by done]; cbn [default from_option id]; lia.
Qed.
Lemma count_tokens_spec l t : default 0 (count_tokens l !! t) = term_count t l.
Proof. unfold count_tokens. rewrite count_tokens_spec_go, lookup_empty. done. Qed.

Lemma distinct_terms_go l acc : NoDup acc →
  NoDup (fold_left (λ l t, if str_in t l then l else t :: l) l acc) ∧
  ∀ t, t ∈ fold_left (λ l t, if str_in t l then l else t :: l) l acc ↔ t ∈ acc ∨ t ∈ l.
Proof.
  revert acc; induction l as [|x l IH]; intros acc Ha; cbn [fold_left]; [split; [done|set_solver]|].
  unfold str_in at 2 4. case_bool_decide.
  - destruct (IH acc) as [H1 H2]; [done|]. split; [done|]. intros t. rewrite H2. set_solver.
  - destruct (IH (x :: acc)) as [H1 H2]; [by constructor|]. split; [done|]. intros t. rewrite H2. set_solver.
Qed.
Lemma distinct_terms_NoDup l : NoDup (distinct_terms l).
Proof. unfold distinct_terms. rewrite reverse_Permutation. apply distinct_terms_go. constructor. Qed.
Lemma elem_of_distinct_terms t l : t ∈ distinct_terms l ↔ t ∈ l.
Proof.
  unfold distinct_terms. rewrite elem_of_reverse. destruct (distinct_terms_go l []) as [_ ->]; [constructor|set_solver].
Qed.

Lemma slot_tf_spec t s c : slot_tf t s = Some c ↔ c = term_count t (slot_tokens s) ∧ t ∈ slot_tokens s.
Proof.
  unfold slot_tf. rewrite <-term_count_pos. pose proof (term_count_nonneg t (slot_tokens s)).
  destruct (Z.eqb_spec (term_count t (slot_tokens s)) 0); naive_solver lia.
Qed.
Lemma slot_tf_None t s : slot_tf t s = None ↔ t ∉ slot_tokens s.
Proof.
  unfold slot_tf. rewrite <-term_count_pos. pose proof (term_count_nonneg t (slot_tokens s)).
  destruct (Z.eqb_spec (term_count t (slot_tokens s)) 0); naive_solver lia.
Qed.

(** ** Postings under insertion and deletion *)

Lemma nonempty_map_default {A} (m : gmap Z A) : default ∅ (nonempty_map m) = m.
Proof. unfold nonempty_map. by case_bool_decide. Qed.

Lemma nonempty_map_empty {A} : nonempty_map (∅ : gmap Z A) = None.
Proof. done. Qed.
Lemma nonempty_map_Some {A} (m : gmap Z A) : m ≠ ∅ → nonempty_map m = Some m.
Proof. intros. unfold nonempty_map. by rewrite bool_decide_eq_false_2. Qed.

Lemma posting_of_insert S p s t : S !! p = None →
  posting_of (<[p := s]> S) t = match slot_tf t s with Some c => <[p := c]> (posting_of S t) | None => posting_of S t end.
Proof.
  intros Hp. apply map_eq. intros q. unfold posting_of. rewrite lookup_omap.
  destruct (decide (p = q)) as [->|Hne].
  - rewrite lookup_insert_eq. cbn [mbind option_bind]. destruct (slot_tf t s); [by rewrite lookup_insert_eq|].
    by rewrite lookup_omap, Hp.
  - rewrite lookup_insert_ne by done. destruct (slot_tf t s); [rewrite lookup_insert_ne by done|]; by rewrite lookup_omap.
Qed.
Lemma posting_of_delete S p t : posting_of (delete p S) t = delete p (posting_of S t).
Proof. apply omap_delete. Qed.
Lemma posting_of_lookup S t p : posting_of S t !! p = S !! p ≫= slot_tf t.
Proof. apply lookup_omap. Qed.

(** The state of a term after some of the unit's terms have been processed. *)
Lemma add_postings (pos : Z) (s : unit_slot) (S : slots) terms ps df :
  S !! pos = None → NoDup terms → (∀ t, t ∈ terms → t ∈ slot_tokens s) →
  (∀ t, t ∈ terms → ps !! t = nonempty_map (posting_of S t) ∧
                    df !! t = (λ m, Z.of_nat (size m)) <$> nonempty_map (posting_of S t)) →
  ∃ ps' df', foldR (add_posting pos (count_tokens (slot_tokens s))) (ps, df) terms = Ok (ps', df') ∧
  ∀ t, if decide (t ∈ terms)
       then ps' !! t = nonempty_map (posting_of (<[pos := s]> S) t) ∧
            df' !! t = (λ m, Z.of_nat (size m)) <$> nonempty_map (posting_of (<[pos := s]> S) t)
       else ps' !! t = ps !! t ∧ df' !! t = df !! t.
Proof.
  intros Hp. revert ps df; induction terms as [|x terms IH]; intros ps df Hnd Hin Hold.
  { exists ps, df. split; [done|]. intros t. by rewrite decide_False by set_solver. }
  apply NoDup_cons in Hnd as [Hx Hnd].
  assert (slot_tf x s = Some (term_count x (slot_tokens s))) as Htf by (apply slot_tf_spec; split; [done|]; apply Hin; by left).
  destruct (Hold x) as [Hpx Hdx]; [by left|].
  set (new := <[pos := term_count x (slot_tokens s)]> (posting_of S x)).
  assert (posting_of (<[pos := s]> S) x = new) as Hnew by (rewrite posting_of_insert by done; by rewrite Htf).
  assert (nonempty_map new = Some new) as Hne.
  { unfold nonempty_map. rewrite bool_decide_eq_false_2; [done|]. apply insert_non_empty. }
  assert (posting_of S x !! pos = None) as Hfresh by (by rewrite posting_of_lookup, Hp).
  assert (add_posting pos (count_tokens (slot_tokens s)) (ps, df) x
    = Ok (<[x := new]> ps, <[x := Z.of_nat (size new)]> df)) as Hstep.
  { unfold add_posting. cbn [fst snd]. rewrite count_tokens_spec, Hpx, Hdx. unfold nonempty_map.
    case_bool_decide as E; cbn [fmap option_fmap option_map].
    - unfold new. rewrite E. unfold singletonM, map_singleton. do 4 f_equal. by rewrite insert_empty, map_size_singleton.
    - do 4 f_equal. unfold new. rewrite map_size_insert_None by done. lia. }
  cbn [foldR]. rewrite Hstep. cbn [mbind result_bind].
  destruct (IH (<[x := new]> ps) (<[x := Z.of_nat (size new)]> df)) as (ps' & df' & HOk & Hall); [done|set_solver| |].
  { intros t Ht. assert (x ≠ t) by set_solver. rewrite !lookup_insert_ne by done. apply Hold. by right. }
  exists ps', df'. split; [done|]. intros t. specialize (Hall t).
  destruct (decide (t ∈ terms)) as [Ht|Ht]; [by rewrite decide_True by set_solver|].
  destruct (decide (t = x)) as [->|Hne'].
  - rewrite decide_True by set_solver. rewrite !lookup_insert_eq in Hall. rewrite Hnew, Hne. done.
  - rewrite decide_False by set_solver. by rewrite !lookup_insert_ne in Hall by done.
Qed.

Lemma remove_postings (pos : Z) (S : slots) terms ps df :
  NoDup terms →
  (∀ t, t ∈ terms → ps !! t = nonempty_map (posting_of S t) ∧
                    df !! t = (λ m, Z.of_nat (size m)) <$> nonempty_map (posting_of S t)) →
  ∃ ps' df', foldR (remove_posting pos) (ps, df) terms = Ok (ps', df') ∧
  ∀ t, if decide (t ∈ terms)
       then ps' !! t = nonempty_map (posting_of (delete pos S) t) ∧
            df' !! t = (λ m, Z.of_nat (size m)) <$> nonempty_map (posting_of (delete pos S) t)
       else ps' !! t = ps !! t ∧ df' !! t = df !! t.
Proof.
  revert ps df; induction terms as [|x terms IH]; intros ps df Hnd Hold.
  { exists ps, df. split; [done|]. intros t. by rewrite decide_False by set_solver. }
  apply NoDup_cons in Hnd as [Hx Hnd]. destruct (Hold x) as [Hpx Hdx]; [by left|].
  assert (∃ ps1 df1, remove_posting pos (ps, df) x = Ok (ps1, df1) ∧
    ps1 !! x = nonempty_map (posting_of (delete pos S) x) ∧
    df1 !! x = (λ m, Z.of_nat (size m)) <$> nonempty_map (posting_of (delete pos S) x) ∧
    ∀ t, t ≠ x → ps1 !! t = ps !! t ∧ df1 !! t = df !! t) as (ps1 & df1 & Hstep & Hp1 & Hd1 & Hother).
  { unfold remove_posting. cbn [fst snd]. rewrite posting_of_delete.
    destruct (decide (posting_of S x = ∅)) as [E|E].
    - rewrite E, nonempty_map_empty in Hpx, Hdx. rewrite Hpx, E, delete_empty, nonempty_map_empty. by exists ps, df.
    - rewrite nonempty_map_Some in Hpx, Hdx by done. rewrite Hpx, Hdx. cbn [fmap option_fmap option_map].
      destruct (decide (delete pos (posting_of S x) = ∅)) as [E'|E'].
      + rewrite bool_decide_eq_true_2 by done. eexists _, _. split; [reflexivity|]. rewrite !lookup_delete_eq, E'.
        split_and!; [done|done|]. intros t ?. by rewrite !lookup_delete_ne by done.
      + rewrite bool_decide_eq_false_2 by done. eexists _, _. split; [reflexivity|].
        rewrite !lookup_insert_eq, nonempty_map_Some by done.
        split_and!; [done|done|]. intros t ?. by rewrite !lookup_insert_ne by done. }
  cbn [foldR]. rewrite Hstep. cbn [mbind result_bind].
  destruct (IH ps1 df1) as (ps' & df' & HOk & Hall); [done| |].
  { intros t Ht. assert (t ≠ x) by set_solver. destruct (Hother t) as [-> ->]; [done|]. apply Hold. by right. }
  exists ps', df'. split; [done|]. intros t. specialize (Hall t).
  destruct (decide (t ∈ terms)) as [Ht|Ht]; [by rewrite decide_True by set_solver|].
  destruct (decide (t = x)) as [->|Hne'].
  - rewrite decide_True by set_solver. destruct Hall as [-> ->]. done.
  - rewrite decide_False by set_solver. destruct Hall as [-> ->]. by apply Hother.
Qed.

(** ** Groups and lengths under insertion and deletion *)

Lemma elem_of_group_positions S g p : p ∈ group_positions S g ↔ slot_group <$> S !! p = Some g.
Proof.
  unfold group_positions. rewrite elem_of_dom, fmap_Some. split.
  - intros [s [Hs Hg]%map_lookup_filter_Some]. by exists s.
  - intros (s & Hs & ->). exists s. by apply map_lookup_filter_Some.
Qed.

Lemma group_positions_insert S p s g : S !! p = None →
  group_positions (<[p := s]> S) g = if decide (slot_group s = g) then {[p]} ∪ group_positions S g else group_positions S g.
Proof.
  intros Hp. apply set_eq. intros q. rewrite elem_of_group_positions.
  destruct (decide (p = q)) as [->|Hne].
  - rewrite lookup_insert_eq. cbn. destruct (decide (slot_group s = g)); [set_solver|].
    rewrite elem_of_group_positions, Hp. naive_solver.
  - rewrite lookup_insert_ne by done. rewrite <-elem_of_group_positions. destruct (decide (slot_group s = g)); set_solver.
Qed.

Lemma group_positions_delete S p g : group_positions (delete p S) g = group_positions S g ∖ {[p]}.
Proof.
  apply set_eq. intros q. rewrite elem_of_difference, !elem_of_group_positions, elem_of_singleton.
  destruct (decide (p = q)) as [->|Hne]; [rewrite lookup_delete_eq|rewrite lookup_delete_ne by done]; naive_solver.
Qed.

Lemma nonempty_set_empty : nonempty_set ∅ = None.
Proof. done. Qed.
Lemma nonempty_set_Some X : X ≠ ∅ → nonempty_set X = Some X.
Proof. intros. unfold nonempty_set. by rewrite bool_decide_eq_false_2. Qed.
Lemma nonempty_set_default X : default ∅ (nonempty_set X) = X.
Proof. unfold nonempty_set. by case_bool_decide. Qed.

Lemma slots_len_insert S p s : S !! p = None → slots_len (<[p := s]> S) = slot_len s + slots_len S.
Proof. intros. unfold slots_len. rewrite (map_fold_insert_L _ _ p s S); [done|intros; lia|done]. Qed.
Lemma slots_len_delete S p s : S !! p = Some s → slots_len (delete p S) = slots_len S - slot_len s.
Proof.
  intros Hp. rewrite <-(insert_delete_id S p s Hp) at 2. rewrite slots_len_insert by apply lookup_delete_eq. lia.
Qed.

(** ** The two primitives *)

Lemma add_at_repr i S u tokens g : repr i S → pos_by_unit_id i !! u = None →
  ∃ i', add_at i u tokens g = Ok i' ∧ repr i' (<[next_pos i := Slot u tokens g]> S) ∧
        next_pos i' = next_pos i + 1 ∧ k1 i' = k1 i ∧ b i' = b i.
Proof.
  intros HR Hu. set (pos := next_pos i). set (s := Slot u tokens g).
  assert (S !! pos = None) as Hfresh.
  { destruct (S !! pos) as [s'|] eqn:E; [|done]. apply (repr_next i S HR) in E. unfold pos in E. lia. }
  destruct (add_postings pos s S (distinct_terms tokens) (postings i) (doc_freq i)) as (ps & df & Hfold & Hall).
  { done. }
  { apply distinct_terms_NoDup. }
  { intros t. apply elem_of_distinct_terms. }
  { intros t _. split; [apply HR|apply HR]. }
  assert (∀ t, ps !! t = nonempty_map (posting_of (<[pos := s]> S) t) ∧
               df !! t = (λ m, Z.of_nat (size m)) <$> nonempty_map (posting_of (<[pos := s]> S) t)) as Hpd.
  { intros t. specialize (Hall t). destruct (decide (t ∈ distinct_terms tokens)) as [|Ht]; [done|].
    rewrite elem_of_distinct_terms in Ht. rewrite posting_of_insert by done.
    assert (slot_tf t s = None) as -> by by apply slot_tf_None.
    destruct Hall as [-> ->]. split; apply HR. }
  unfold add_at. cbn zeta. change (slot_tokens s) with tokens in Hfold. fold pos. rewrite Hfold. cbn [mbind result_bind].
  eexists. split; [reflexivity|]. split; [|done]. split; cbn.
  - apply Hpd.
  - apply Hpd.
  - rewrite fmap_insert, (repr_doc_len i S HR). done.
  - rewrite fmap_insert, (repr_unit_id i S HR). done.
  - intros v p. destruct (decide (u = v)) as [->|Hne].
    + rewrite lookup_insert_eq. destruct (decide (pos = p)) as [<-|]; [by rewrite lookup_insert_eq|].
      rewrite lookup_insert_ne by done. split; [by intros [= ->]|]. intros Hs%(repr_pos i S HR). congruence.
    + rewrite lookup_insert_ne by done. rewrite (repr_pos i S HR).
      destruct (decide (pos = p)) as [<-|]; [|by rewrite lookup_insert_ne].
      rewrite lookup_insert_eq, Hfresh. split; [done|]. cbn. by intros [= ->].
  - rewrite fmap_insert, (repr_terms i S HR). done.
  - rewrite fmap_insert, (repr_group i S HR). done.
  - intros h. rewrite group_positions_insert by done. cbn [slot_group s]. destruct (decide (g = h)) as [->|].
    + rewrite lookup_insert_eq, (repr_groups i S HR), nonempty_set_default.
      rewrite nonempty_set_Some; [done|set_solver].
    + rewrite lookup_insert_ne by done. apply HR.
  - rewrite map_size_insert_None by done. rewrite (repr_n i S HR). lia.
  - rewrite slots_len_insert by done. rewrite (repr_total i S HR). unfold slot_len. cbn. lia.
  - intros p s'. destruct (decide (pos = p)) as [<-|].
    + intros _. pose proof (repr_next_nonneg i S HR). unfold pos in *. lia.
    + rewrite lookup_insert_ne by done. intros ?%(repr_next i S HR). unfold pos in *. lia.
  - pose proof (repr_next_nonneg i S HR). unfold pos in *. lia.
Qed.

Lemma remove_at_repr i S p s : repr i S → S !! p = Some s →
  ∃ i', remove_at i p = Ok i' ∧ repr i' (delete p S) ∧
        next_pos i' = next_pos i ∧ k1 i' = k1 i ∧ b i' = b i.
Proof.
  intros HR Hp.
  destruct (remove_postings p S (distinct_terms (slot_tokens s)) (postings i) (doc_freq i)) as (ps & df & Hfold & Hall).
  { apply distinct_terms_NoDup. }
  { intros t _. split; [apply HR|apply HR]. }
  assert (∀ t, ps !! t = nonempty_map (posting_of (delete p S) t) ∧
               df !! t = (λ m, Z.of_nat (size m)) <$> nonempty_map (posting_of (delete p S) t)) as Hpd.
  { intros t. specialize (Hall t). destruct (decide (t ∈ distinct_terms (slot_tokens s))) as [|Ht]; [done|].
    rewrite elem_of_distinct_terms in Ht. rewrite posting_of_delete, delete_id.
    - destruct Hall as [-> ->]. split; apply HR.
    - rewrite posting_of_lookup, Hp. by apply slot_tf_None. }
  unfold remove_at.
  rewrite (repr_terms i S HR), (repr_doc_len i S HR), (repr_unit_id i S HR), (repr_group i S HR), !lookup_fmap, Hp.
  cbn [fmap option_fmap option_map default from_option id]. rewrite Hfold. cbn [mbind result_bind].
  eexists. split; [reflexivity|]. split; [|done]. split; cbn [postings doc_freq doc_len unit_id_by_pos pos_by_unit_id terms_by_pos group_by_pos
    positions_by_group n_units total_len next_pos].
  - apply Hpd.
  - apply Hpd.
  - by rewrite fmap_delete.
  - by rewrite fmap_delete.
  - intros v q. destruct (decide (slot_id s = v)) as [<-|Hne].
    + rewrite lookup_delete_eq. split; [done|]. destruct (decide (p = q)) as [->|]; [by rewrite lookup_delete_eq|].
      rewrite lookup_delete_ne by done. intros Hq%(repr_pos i S HR).
      assert (pos_by_unit_id i !! slot_id s = Some p) by (apply (repr_pos i S HR); by rewrite Hp). congruence.
    + rewrite lookup_delete_ne by done. rewrite (repr_pos i S HR).
      destruct (decide (p = q)) as [->|]; [|by rewrite lookup_delete_ne].
      rewrite lookup_delete_eq, Hp. cbn. naive_solver.
  - by rewrite fmap_delete.
  - by rewrite fmap_delete.
  - intros h. rewrite group_positions_delete, (repr_groups i S HR).
    assert (p ∈ group_positions S (slot_group s)) as Hin by (by rewrite elem_of_group_positions, Hp).
    rewrite nonempty_set_Some by set_solver.
    destruct (decide (slot_group s = h)) as [<-|Hne].
    + destruct (decide (group_positions S (slot_group s) ∖ {[p]} = ∅)) as [E|E].
      * rewrite E, bool_decide_eq_true_2 by done. by rewrite lookup_delete_eq.
      * rewrite bool_decide_eq_false_2, nonempty_set_Some by done. by rewrite lookup_insert_eq.
    + assert (p ∉ group_positions S h) by (rewrite elem_of_group_positions, Hp; cbn; naive_solver).
      rewrite (difference_disjoint_L (group_positions S h)) by set_solver.
      case_bool_decide; [rewrite lookup_delete_ne by done|rewrite lookup_insert_ne by done]; apply HR.
  - rewrite map_size_delete, Hp. rewrite (repr_n i S HR).
    assert (size S ≠ 0%nat) by (apply map_size_ne_0_lookup; eauto). cbn. lia.
  - rewrite (slots_len_delete S p s Hp), (repr_total i S HR). done.
  - intros q s' [_ Hq]%lookup_delete_Some. by apply (repr_next i S HR) in Hq.
  - apply HR.
Qed.

Lemma repr_empty k b : repr (empty_index k b) ∅.
Proof.
  split; cbn; try done; try (intros; by rewrite ?lookup_empty).
Qed.

(** ** Units and documents: the operations on the abstract state *)

(** The units and the next free position. *)
Definition astate : Type := gmap Z unit_slot * Z.

Definition a_keep (P : unit_slot → bool) (a : astate) : astate := (filter (λ ps : Z * unit_slot, P ps.2 = true) a.1, a.2).
Definition a_put (u : string) (tokens : list string) (g : string) (a : astate) : astate :=
  (<[a.2 := Slot u tokens g]> a.1, a.2 + 1).

Definition not_unit (u : string) (s : unit_slot) : bool := bool_decide (slot_id s ≠ u).
Definition not_group (g : string) (s : unit_slot) : bool := bool_decide (slot_group s ≠ g).

Definition a_add_unit (a : astate) (u : string) (tokens : list string) (g : string) : astate :=
  a_put u tokens g (a_keep (not_unit u) a).

Inductive index_op :=
| AddUnit (unit_id : string) (tokens : list string) (group_id : option string)
| RemoveUnit (unit_id : string)
| RemoveGroup (group_id : string)
| ReplaceGroup (group_id : string) (units : list (string * list string)).

Definition run_op (i : Bm25Index) (o : index_op) : result Bm25Index :=
  match o with
  | AddUnit u tokens g => add_unit i u tokens g
  | RemoveUnit u => remove_unit i u
  | RemoveGroup g => remove_group i g
  | ReplaceGroup g units => replace_group i g units
  end.

Definition spec_op (a : astate) (o : index_op) : astate :=
  match o with
  | AddUnit u tokens g => a_add_unit a u tokens (default u g)
  | RemoveUnit u => a_keep (not_unit u) a
  | RemoveGroup g => a_keep (not_group g) a
  | ReplaceGroup g units => fold_left (λ a u, a_add_unit a u.1 u.2 g) units (a_keep (not_group g) a)
  end.

(** The index represents the abstract state, with the given parameters. *)
Definition rep (k b : spec_float) (i : Bm25Index) (a : astate) : Prop :=
  repr i a.1 ∧ next_pos i = a.2 ∧ k1 i = k ∧ Lexical.b i = b.

Section ops.
Context (k b : spec_float).

Lemma rep_pos_None i a u : rep k b i a → pos_by_unit_id i !! u = None →
  a_keep (not_unit u) a = a.
Proof.
  intros (HR & _) Hu. destruct a as [S n]. unfold a_keep. f_equal. cbn [fst snd] in *. apply map_filter_id.
  intros p s Hs. apply bool_decide_eq_true_2. cbn [snd]. intros <-.
  assert (pos_by_unit_id i !! slot_id s = Some p) by (apply (repr_pos i S HR); by rewrite Hs). congruence.
Qed.

Lemma remove_at_rep i a p s : rep k b i a → a.1 !! p = Some s →
  ∃ i', remove_at i p = Ok i' ∧ rep k b i' (delete p a.1, a.2).
Proof.
  intros (HR & Hn & Hk & Hb) Hp. destruct (remove_at_repr i a.1 p s HR Hp) as (i' & HOk & HR' & Hn' & Hk' & Hb').
  exists i'. split; [done|]. split_and!; [done|cbn [snd]; by rewrite Hn'|by rewrite Hk'|by rewrite Hb'].
Qed.

Lemma remove_unit_rep i a u : rep k b i a →
  ∃ i', remove_unit i u = Ok i' ∧ rep k b i' (a_keep (not_unit u) a) ∧ pos_by_unit_id i' !! u = None.
Proof.
  intros H. unfold remove_unit. destruct (pos_by_unit_id i !! u) as [p|] eqn:E.
  - assert (HR := proj1 H). apply (repr_pos i a.1 HR) in E as Hs. apply fmap_Some in Hs as (s & Hs & Hu).
    destruct (remove_at_rep i a p s H Hs) as (i' & HOk & H').
    assert (filter (λ ps : Z * unit_slot, not_unit u ps.2 = true) a.1 = delete p a.1) as Hd.
    { apply map_eq. intros q. destruct (decide (p = q)) as [<-|Hne].
      - rewrite lookup_delete_eq. apply map_lookup_filter_None. right. intros s' Hs' Hk.
        apply bool_decide_eq_true_1 in Hk. cbn in Hk. congruence.
      - rewrite lookup_delete_ne by done. destruct (a.1 !! q) as [s'|] eqn:Hq; [|by apply map_lookup_filter_None; left].
        apply map_lookup_filter_Some. split; [done|]. apply bool_decide_eq_true_2. cbn. intros Hu'.
        assert (pos_by_unit_id i !! u = Some q) by (apply (repr_pos i a.1 HR); rewrite Hq; cbn; by rewrite Hu'). congruence. }
    exists i'. split; [done|]. split; [unfold a_keep; by rewrite Hd|].
    destruct (pos_by_unit_id i' !! u) as [q|] eqn:E'; [|done]. exfalso.
    apply (repr_pos i' _ (proj1 H')) in E'. cbn [fst] in E'. rewrite <-Hd in E'.
    apply fmap_Some in E' as (s' & [_ Hk]%map_lookup_filter_Some & Hs'). apply bool_decide_eq_true_1 in Hk. by rewrite Hs' in Hk.
  - exists i. split; [done|]. by rewrite (rep_pos_None i a u).
Qed.

Lemma add_unit_rep i a u tokens g : rep k b i a →
  ∃ i', add_unit i u tokens g = Ok i' ∧ rep k b i' (a_add_unit a u tokens (default u g)).
Proof.
  intros H. unfold add_unit.
  assert (∃ i1, (match pos_by_unit_id i !! u with Some _ => remove_unit i u | None => Ok i end) = Ok i1 ∧
    rep k b i1 (a_keep (not_unit u) a) ∧ pos_by_unit_id i1 !! u = None) as (i1 & -> & (HR & Hn & Hk & Hb) & Hu).
  { destruct (pos_by_unit_id i !! u) eqn:E; [by apply remove_unit_rep|]. exists i. by rewrite (rep_pos_None i a u). }
  cbn [mbind result_bind].
  destruct (add_at_repr i1 _ u tokens (default u g) HR Hu) as (i' & -> & HR' & Hn' & Hk' & Hb').
  exists i'. split; [done|]. rewrite Hn in HR', Hn'. split_and!; [exact HR'|by rewrite Hn'|congruence|congruence].
Qed.

Lemma lookup_foldr_delete {A} (m : gmap Z A) l q :
  foldr delete m l !! q = if decide (q ∈ l) then None else m !! q.
Proof.
  induction l as [|p l IH]; cbn [foldr]; [by rewrite decide_False by set_solver|].
  destruct (decide (p = q)) as [->|]; [rewrite lookup_delete_eq, decide_True by set_solver; done|].
  rewrite lookup_delete_ne, IH by done. destruct (decide (q ∈ l)); [by rewrite decide_True by set_solver|].
  by rewrite decide_False by set_solver.
Qed.

Lemma foldr_delete_delete {A} (m : gmap Z A) p l : foldr delete (delete p m) l = delete p (foldr delete m l).
Proof.
  apply map_eq. intros q. rewrite lookup_foldr_delete.
  destruct (decide (p = q)) as [->|]; [rewrite !lookup_delete_eq; by destruct (decide _)|].
  by rewrite !lookup_delete_ne, lookup_foldr_delete.
Qed.

Lemma remove_positions_rep i a l : rep k b i a → NoDup l → (∀ p, p ∈ l → is_Some (a.1 !! p)) →
  ∃ i', foldR remove_at i l = Ok i' ∧ rep k b i' (foldr delete a.1 l, a.2).
Proof.
  revert i a; induction l as [|p l IH]; intros i a H Hnd Hin; cbn [foldR foldr].
  { exists i. split; [done|]. by destruct a. }
  apply NoDup_cons in Hnd as [Hp Hnd]. destruct (Hin p) as [s Hs]; [by left|].
  destruct (remove_at_rep i a p s H Hs) as (i1 & -> & H1). cbn [mbind result_bind].
  destruct (IH i1 (delete p a.1, a.2) H1 Hnd) as (i' & HOk & H').
  { intros q Hq. cbn [fst]. rewrite lookup_delete_ne by set_solver. apply Hin. by right. }
  exists i'. split; [done|]. cbn [fst snd] in H'. by rewrite foldr_delete_delete in H'.
Qed.

Lemma remove_group_rep i a g : rep k b i a →
  ∃ i', remove_group i g = Ok i' ∧ rep k b i' (a_keep (not_group g) a).
Proof.
  intros H. unfold remove_group. rewrite (repr_groups i a.1 (proj1 H)).
  assert (foldr delete a.1 (elements (group_positions a.1 g)) = filter (λ ps : Z * unit_slot, not_group g ps.2 = true) a.1) as Hf.
  { apply map_eq. intros q. rewrite lookup_foldr_delete.
    destruct (a.1 !! q) as [s|] eqn:Hq.
    - destruct (decide (q ∈ elements (group_positions a.1 g))) as [Hin|Hin];
        rewrite elem_of_elements, elem_of_group_positions, Hq in Hin; cbn in Hin.
      + symmetry. apply map_lookup_filter_None. right. intros s' Hs' Hk. apply bool_decide_eq_true_1 in Hk. cbn in Hk. naive_solver.
      + symmetry. apply map_lookup_filter_Some. split; [done|]. apply bool_decide_eq_true_2. naive_solver.
    - destruct (decide _); symmetry; apply map_lookup_filter_None; by left. }
  destruct (decide (group_positions a.1 g = ∅)) as [E|E].
  - rewrite E, elements_empty in Hf. cbn [foldr] in Hf. rewrite E, nonempty_set_empty. exists i. split; [done|].
    unfold a_keep. rewrite <-Hf. by destruct a.
  - rewrite nonempty_set_Some by done.
    destruct (remove_positions_rep i a (elements (group_positions a.1 g)) H) as (i' & HOk & H').
    { apply NoDup_elements. }
    { intros p. rewrite elem_of_elements, elem_of_group_positions, fmap_Some. intros (s & -> & _). eauto. }
    exists i'. split; [done|]. unfold a_keep. by rewrite <-Hf.
Qed.

Lemma add_units_rep i a g units : rep k b i a →
  ∃ i', foldR (λ i (u : string * list string), add_unit i u.1 u.2 (Some g)) i units = Ok i' ∧
        rep k b i' (fold_left (λ a (u : string * list string), a_add_unit a u.1 u.2 g) units a).
Proof.
  revert i a; induction units as [|[u t] units IH]; intros i a H; cbn [foldR fold_left fst snd]; [by exists i|].
  destruct (add_unit_rep i a u t (Some g) H) as (i1 & -> & H1). cbn [mbind result_bind]. by apply IH.
Qed.

Lemma run_op_rep i a o : rep k b i a → ∃ i', run_op i o = Ok i' ∧ rep k b i' (spec_op a o).
Proof.
  intros H. destruct o as [u t g|u|g|g units]; cbn [run_op spec_op].
  - by apply add_unit_rep.
  - destruct (remove_unit_rep i a u H) as (i' & ? & ? & _). by exists i'.
  - by apply remove_group_rep.
  - destruct (remove_group_rep i a g H) as (i1 & Hi & H1). unfold replace_group. rewrite Hi. cbn [mbind result_bind].
    by apply add_units_rep.
Qed.

Lemma run_ops_rep i a ops : rep k b i a → ∃ i', foldR run_op i ops = Ok i' ∧ rep k b i' (fold_left spec_op ops a).
Proof.
  revert i a; induction ops as [|o ops IH]; intros i a H; cbn [foldR fold_left]; [by exists i|].
  destruct (run_op_rep i a o H) as (i1 & -> & H1). cbn [mbind result_bind]. by apply IH.
Qed.
End ops.

(** ** Reference ranking: a function of the units *)

Section ranking.
Context (log : spec_float → spec_float) (set_order : list string → list string).

Definition ref_df (units : list (string * list string)) (t : string) : Z :=
  Z.of_nat (List.length (filter (λ u : string * list string, t ∈ u.2) units)).
Definition ref_total (units : list (string * list string)) : Z :=
  foldr (λ u acc, Z.of_nat (List.length u.2) + acc) 0 units.

(** What one query term adds to the score of a unit; [None] is a unit no term has scored. *)
Definition score_step (k b avgdl : spec_float) (n : Z) (df : string → Z) (tokens : list string)
    (acc : option spec_float) (t : string) : option spec_float :=
  let tf := term_count t tokens in
  let idf := idf_of log n (df t) in
  let den := denominator k b tf (Z.of_nat (List.length tokens)) avgdl in
  if (tf =? 0) || fleb idf zero || fleb den zero then acc
  else Some (fadd (default zero acc) (contribution k idf tf den)).

Definition ref_scores (k b : spec_float) (units : list (string * list string)) (terms : list string)
    (ok : string → bool) : list (string * spec_float) :=
  let n := Z.of_nat (List.length units) in
  let avgdl := avgdl_of (ref_total units) n in
  omap (λ u : string * list string,
          if ok u.1 then (u.1,.) <$> fold_left (score_step k b avgdl n (ref_df units) u.2) terms None else None) units.

Definition rank_ref (k b : spec_float) (units : list (string * list string)) (query : string) (limit : option Z)
    (ok : string → bool) : list (string * spec_float) :=
  if bool_decide (units = []) || bool_decide (tokenize query = []) then []
  else
    let ranked := sort_by (rank_leb id) (ref_scores k b units (set_order (tokenize query)) ok) in
    match limit with Some c => take (slice_bound (Z.of_nat (List.length ranked)) c) ranked | None => ranked end.

Definition units_of (S : slots) : list (string * list string) :=
  map (λ ps : Z * unit_slot, (slot_id ps.2, slot_tokens ps.2)) (map_to_list S).

Definition allowedb (allowed : option (gset Z)) (p : Z) : bool :=
  match allowed with Some A => bool_decide (p ∈ A) | None => true end.
Definition allowed_id (i : Bm25Index) (allowed : option (gset Z)) (u : string) : bool :=
  match position_of i u with Some p => allowedb allowed p | None => false end.

(** *** Statistics *)

Lemma length_units_of S : List.length (units_of S) = size S.
Proof. unfold units_of. by rewrite length_map, length_map_to_list. Qed.

Lemma units_of_insert S p s : S !! p = None → units_of (<[p := s]> S) ≡ₚ (slot_id s, slot_tokens s) :: units_of S.
Proof. intros. unfold units_of. by rewrite (map_to_list_insert S p s) by done. Qed.

Lemma ref_total_units_of S : ref_total (units_of S) = slots_len S.
Proof.
  induction S as [|p s S Hp Hfst IH] using map_first_key_ind.
  { unfold units_of. by rewrite map_to_list_empty. }
  rewrite slots_len_insert by done. rewrite <-IH. unfold units_of. rewrite map_to_list_insert_first_key by done. done.
Qed.

Lemma size_posting_of S t : Z.of_nat (size (posting_of S t)) = ref_df (units_of S) t.
Proof.
  unfold ref_df. f_equal. induction S as [|p s S Hp Hfst IH] using map_first_key_ind.
  { unfold units_of, posting_of. by rewrite map_to_list_empty, omap_empty. }
  rewrite posting_of_insert by done. unfold units_of. rewrite map_to_list_insert_first_key by done. cbn [map].
  rewrite filter_cons. cbn [snd]. fold (units_of S). destruct (decide (t ∈ slot_tokens s)) as [Hin|Hin].
  - assert (slot_tf t s = Some (term_count t (slot_tokens s))) as -> by (by apply slot_tf_spec).
    rewrite map_size_insert_None by (by rewrite posting_of_lookup, Hp). cbn [List.length]. by rewrite IH.
  - by apply slot_tf_None in Hin as ->.
Qed.

(** *** Scores *)

Section scores.
Context (i : Bm25Index) (S : slots) (HR : repr i S).
Context (avgdl : spec_float) (allowed : option (gset Z)).

Let step := score_step (k1 i) (b i) avgdl (n_units i) (ref_df (units_of S)).

Lemma idf_repr t : t ∈ dom (postings i) → idf log i t = idf_of log (n_units i) (ref_df (units_of S) t).
Proof using HR.
  intros Ht. unfold idf. f_equal. apply elem_of_dom in Ht as [m Hm]. rewrite (repr_doc_freq i S HR), <-(repr_postings i S HR), Hm.
  cbn. rewrite (repr_postings i S HR) in Hm. unfold nonempty_map in Hm. case_bool_decide; [done|]. injection Hm as <-.
  apply size_posting_of.
Qed.

(** One term, over any part of its posting list. *)
Lemma score_postings t l scores :
  fleb (idf_of log (n_units i) (ref_df (units_of S) t)) zero = false →
  NoDup l.*1 → (∀ p c, (p, c) ∈ l → posting_of S t !! p = Some c) →
  ∃ scores', foldR (score_posting i avgdl (idf_of log (n_units i) (ref_df (units_of S) t)) allowed) scores l = Ok scores' ∧
  ∀ p, scores' !! p = match S !! p with
    | Some s => if bool_decide (p ∈ l.*1) && allowedb allowed p then step (slot_tokens s) (scores !! p) t else scores !! p
    | None => scores !! p
    end.
Proof using HR.
  intros Hidf. revert scores; induction l as [|[p c] l IH]; intros scores Hnd Hin.
  { exists scores. split; [done|]. intros q. by destruct (S !! q). }
  apply NoDup_cons in Hnd as [Hp Hnd]. cbn [fst] in Hp.
  assert (Hc := Hin p c ltac:(by left)). rewrite posting_of_lookup in Hc. apply bind_Some in Hc as (s & Hs & Htf).
  assert (Htf' := Htf). apply slot_tf_spec in Htf' as [-> Ht].
  assert (∃ sc1, score_posting i avgdl (idf_of log (n_units i) (ref_df (units_of S) t)) allowed scores
      (p, term_count t (slot_tokens s)) = Ok sc1 ∧
    (∀ q, q ≠ p → sc1 !! q = scores !! q) ∧
    sc1 !! p = if allowedb allowed p then step (slot_tokens s) (scores !! p) t else scores !! p) as (sc1 & Hstep & Hoth & Hat).
  { unfold score_posting. cbn [fst snd]. rewrite (repr_doc_len i S HR), lookup_fmap, Hs. cbn [fmap option_fmap option_map].
    assert (match allowed with Some a => bool_decide (p ∉ a) | None => false end = negb (allowedb allowed p)) as ->.
    { destruct allowed as [a|]; [|done]. cbn. rewrite bool_decide_not. done. }
    destruct (allowedb allowed p); cbn [negb]; [|by exists scores].
    unfold step, score_step. rewrite Hidf. unfold slot_len.
    assert ((term_count t (slot_tokens s) =? 0) = false) as -> by (apply Z.eqb_neq; apply term_count_pos in Ht; lia).
    cbn [orb]. set (den := denominator _ _ _ _ _). destruct (fleb den zero); [by exists scores|]. eexists. split; [reflexivity|]. split.
    - intros q ?. by rewrite lookup_insert_ne.
    - by rewrite lookup_insert_eq. }
  cbn [foldR]. rewrite Hstep. cbn [mbind result_bind].
  destruct (IH sc1 Hnd) as (sc' & -> & Hall); [intros q d Hq; apply Hin; by right|].
  exists sc'. split; [done|]. intros q. rewrite Hall. destruct (decide (q = p)) as [->|Hne].
  - rewrite Hs, Hat. cbn [fmap list_fmap fst]. rewrite bool_decide_eq_false_2, bool_decide_eq_true_2 by set_solver. done.
  - rewrite (Hoth q Hne). destruct (S !! q) as [s'|]; [|done]. cbn [fmap list_fmap fst].
    rewrite (bool_decide_ext (q ∈ p :: l.*1) (q ∈ l.*1)); [done|]. set_solver.
Qed.

Lemma score_term_repr t scores :
  ∃ scores', score_term log i avgdl allowed scores t = Ok scores' ∧
  ∀ p, scores' !! p = match S !! p with
    | Some s => if allowedb allowed p then step (slot_tokens s) (scores !! p) t else scores !! p
    | None => scores !! p
    end.
Proof using HR.
  assert (∀ s p, (term_count t (slot_tokens s) =? 0) = true → step (slot_tokens s) (scores !! p) t = scores !! p) as Hzero.
  { intros s p E. unfold step, score_step. by rewrite E. }
  unfold score_term. destruct (postings i !! t) as [m|] eqn:E.
  - rewrite idf_repr by (apply elem_of_dom; eauto). destruct (fleb _ zero) eqn:Hidf.
    + exists scores. split; [done|]. intros p. destruct (S !! p) as [s|]; [|done].
      assert (step (slot_tokens s) (scores !! p) t = scores !! p) as ->; [|by destruct (allowedb _ _)].
      unfold step, score_step. rewrite Hidf. by rewrite orb_true_r.
    + rewrite (repr_postings i S HR) in E. unfold nonempty_map in E. case_bool_decide; [done|]. injection E as <-.
      destruct (score_postings t (map_to_list (posting_of S t)) scores Hidf) as (sc & HOk & Hall).
      { apply NoDup_fst_map_to_list. }
      { intros p c. by rewrite elem_of_map_to_list. }
      exists sc. split; [done|]. intros p. rewrite Hall. destruct (S !! p) as [s|] eqn:Hs; [|done].
      case_bool_decide as Hin; cbn [andb]; [done|].
      rewrite Hzero; [by destruct (allowedb _ _)|]. apply Z.eqb_eq.
      pose proof (term_count_nonneg t (slot_tokens s)). destruct (decide (t ∈ slot_tokens s)) as [Ht|Ht].
      * exfalso. apply Hin. apply list_elem_of_fmap. exists (p, term_count t (slot_tokens s)). split; [done|].
        apply elem_of_map_to_list. rewrite posting_of_lookup, Hs. by apply slot_tf_spec.
      * rewrite <-term_count_pos in Ht. lia.
  - exists scores. split; [done|]. intros p. destruct (S !! p) as [s|] eqn:Hs; [|done].
    rewrite Hzero; [by destruct (allowedb _ _)|]. apply Z.eqb_eq.
    rewrite (repr_postings i S HR) in E. unfold nonempty_map in E. case_bool_decide as Hem; [|done].
    assert (posting_of S t !! p = None) as Hn by (by rewrite Hem). rewrite posting_of_lookup, Hs in Hn. cbn in Hn.
    apply slot_tf_None in Hn. rewrite <-term_count_pos in Hn. pose proof (term_count_nonneg t (slot_tokens s)). lia.
Qed.

Lemma score_terms_repr terms scores :
  ∃ scores', foldR (score_term log i avgdl allowed) scores terms = Ok scores' ∧
  ∀ p, scores' !! p = match S !! p with
    | Some s => if allowedb allowed p then fold_left (step (slot_tokens s)) terms (scores !! p) else scores !! p
    | None => scores !! p
    end.
Proof using HR.
  revert scores; induction terms as [|t terms IH]; intros scores; cbn [foldR fold_left].
  { exists scores. split; [done|]. intros p. destruct (S !! p); [|done]. by destruct (allowedb _ _). }
  destruct (score_term_repr t scores) as (sc1 & -> & H1). cbn [mbind result_bind].
  destruct (IH sc1) as (sc' & -> & H'). exists sc'. split; [done|]. intros p. rewrite H', H1.
  destruct (S !! p); [|done]. by destruct (allowedb _ _).
Qed.
End scores.

(** *** The ranked list *)

Lemma NoDup_units_of i S : repr i S → NoDup (units_of S).*1.
Proof.
  intros HR. unfold units_of. rewrite <-list_fmap_compose. apply NoDup_fmap_2_strong; [|apply NoDup_map_to_list].
  intros [p s] [q s']. cbn [compose fst snd]. rewrite !elem_of_map_to_list. intros Hs Hs' Hid.
  assert (pos_by_unit_id i !! slot_id s = Some p) as H1 by (apply (repr_pos i S HR); by rewrite Hs).
  assert (pos_by_unit_id i !! slot_id s = Some q) as H2 by (apply (repr_pos i S HR); rewrite Hs'; cbn; by rewrite Hid).
  congruence.
Qed.

Lemma elem_of_units_of S u t : (u, t) ∈ units_of S ↔ ∃ p g, S !! p = Some (Slot u t g).
Proof.
  unfold units_of. rewrite list_elem_of_fmap. split.
  - intros ([p [u' t' g]] & [= -> ->] & Hs%elem_of_map_to_list). eauto.
  - intros (p & g & Hs). exists (p, Slot u t g). by rewrite elem_of_map_to_list.
Qed.

Lemma ref_scores_fst k b units terms ok : sublist (ref_scores k b units terms ok).*1 units.*1.
Proof.
  unfold ref_scores. generalize (Z.of_nat (List.length units)) as n, (ref_total units) as tot, (ref_df units) as df.
  intros n tot df. induction units as [|[u t] units IH]; [constructor|]. cbn [omap list_omap fst snd].
  destruct (ok u); cbn [fmap option_fmap option_map]; [|by apply sublist_cons].
  destruct (fold_left _ terms None); cbn [fmap option_fmap option_map list_fmap fst]; [by apply sublist_skip|by apply sublist_cons].
Qed.

(** The scored positions, named, are the reference scores in some order. *)
Lemma scores_named i S allowed terms scores : repr i S →
  foldR (score_term log i (avgdl_of (total_len i) (n_units i)) allowed) ∅ terms = Ok scores →
  ∃ named, mapR (λ ps : Z * spec_float, match unit_id_by_pos i !! ps.1 with
                   | Some u => Ok (u, ps.2) | None => raise KeyError (Z_str ps.1) end) (map_to_list scores) = Ok named ∧
           named ≡ₚ ref_scores (k1 i) (b i) (units_of S) terms (allowed_id i allowed).
Proof.
  intros HR Hsc.
  destruct (score_terms_repr i S HR (avgdl_of (total_len i) (n_units i)) allowed terms ∅) as (sc & Hsc' & Hall).
  assert (sc = scores) as -> by congruence. clear Hsc Hsc'.
  set (name := λ p, default ""%string (unit_id_by_pos i !! p)).
  assert (∀ p x, scores !! p = Some x → ∃ s, S !! p = Some s ∧ allowedb allowed p = true ∧ unit_id_by_pos i !! p = Some (slot_id s)
     ∧ fold_left (score_step (k1 i) (b i) (avgdl_of (total_len i) (n_units i)) (n_units i) (ref_df (units_of S)) (slot_tokens s)) terms None = Some x) as Hin.
  { intros p x Hx. rewrite Hall, lookup_empty in Hx. destruct (S !! p) as [s|] eqn:Hs; [|done]. exists s.
    destruct (allowedb allowed p); [|done]. split_and!; try done. by rewrite (repr_unit_id i S HR), lookup_fmap, Hs. }
  exists (map (λ ps : Z * spec_float, (name ps.1, ps.2)) (map_to_list scores)). split.
  { rewrite <-mapR_total. apply mapR_ext, Forall_forall. intros [p x] (s & _ & _ & Hu & _)%elem_of_map_to_list%Hin.
    cbn [fst snd]. unfold name. by rewrite Hu. }
  assert (Hunits := NoDup_units_of i S HR).
  apply NoDup_Permutation.
  - apply NoDup_fmap_2_strong; [|apply NoDup_map_to_list]. intros [p x] [q y] (s & Hs & _ & Hu & _)%elem_of_map_to_list%Hin
      (s' & Hs' & _ & Hu' & _)%elem_of_map_to_list%Hin. cbn [fst snd]. unfold name. rewrite Hu, Hu'. cbn. intros [= Hid ->].
    f_equal. assert (pos_by_unit_id i !! slot_id s = Some p) by (apply (repr_pos i S HR); by rewrite Hs).
    assert (pos_by_unit_id i !! slot_id s = Some q) by (apply (repr_pos i S HR); rewrite Hs'; cbn; by rewrite Hid). congruence.
  - eapply NoDup_fmap_1, sublist_NoDup; [exact Hunits|apply ref_scores_fst].
  - intros [u x]. unfold ref_scores. rewrite length_units_of, ref_total_units_of, <-(repr_n i S HR), <-(repr_total i S HR).
    rewrite list_elem_of_fmap, list_elem_of_omap. split.
    + intros ([p y] & [= -> ->] & (s & Hs & Ha & Hu & Hf)%elem_of_map_to_list%Hin).
      exists (slot_id s, slot_tokens s). split; [apply elem_of_units_of; exists p, (slot_group s); by destruct s|].
      cbn [fst snd]. unfold name, allowed_id, position_of. rewrite Hu.
      assert (pos_by_unit_id i !! slot_id s = Some p) as -> by (apply (repr_pos i S HR); by rewrite Hs).
      rewrite Ha, Hf. done.
    + intros ([u' t] & (p & g & Hs)%elem_of_units_of & Hx). cbn [fst snd] in Hx. unfold allowed_id, position_of in Hx.
      assert (pos_by_unit_id i !! u' = Some p) as Hp by (apply (repr_pos i S HR); by rewrite Hs).
      rewrite Hp in Hx. destruct (allowedb allowed p) eqn:Ha; [|done]. apply fmap_Some in Hx as (y & Hy & [= -> ->]).
      exists (p, y). split.
      * unfold name. cbn [fst snd]. by rewrite (repr_unit_id i S HR), lookup_fmap, Hs.
      * apply elem_of_map_to_list. by rewrite Hall, Hs, Ha, lookup_empty.
Qed.

Lemma rank_is_ref k b i a query limit allowed : rep k b i a →
  scored (ref_scores k b (units_of a.1) (set_order (tokenize query)) (allowed_id i allowed)) →
  rank log set_order i query limit allowed = Ok (rank_ref k b (units_of a.1) query limit (allowed_id i allowed)).
Proof.
  intros (HR & _ & <- & <-) Hsc. unfold rank, rank_ref.
  destruct (decide (units_of a.1 = [])) as [E|E].
  { rewrite (bool_decide_eq_true_2 (units_of a.1 = [])) by done. cbn [orb].
    rewrite (repr_n i a.1 HR), <-length_units_of, E. done. }
  rewrite (bool_decide_eq_false_2 (units_of a.1 = [])) by done. cbn [orb].
  assert ((n_units i =? 0) = false) as ->.
  { apply Z.eqb_neq. rewrite (repr_n i a.1 HR), <-length_units_of. intros H. apply E, length_zero_iff_nil. lia. }
  destruct (tokenize query) as [|t ts] eqn:Et; [done|]. rewrite bool_decide_eq_false_2 by done. rewrite <-Et in *.
  destruct (score_terms_repr i a.1 HR (avgdl_of (total_len i) (n_units i)) allowed (set_order (tokenize query)) ∅) as (sc & Hfold & _).
  rewrite Hfold. cbn [mbind result_bind].
  destruct (scores_named i a.1 allowed _ sc HR Hfold) as (named & -> & Hp). cbn [mbind result_bind].
  rewrite <-(rank_sort_unique _ named Hsc); [done| |by symmetry].
  eapply sublist_NoDup; [by apply (NoDup_units_of i)|apply ref_scores_fst].
Qed.
End ranking.

(** ** The bulk build *)

Definition put_all (l : list (string * list string * string)) (a : astate) : astate :=
  fold_left (λ a u, a_put u.1.1 u.1.2 u.2 a) l a.

Lemma add_all_rep k b i a (l : list (string * list string * string)) :
  rep k b i a → NoDup (map (λ u, u.1.1) l) → (∀ u, u ∈ map (λ u, u.1.1) l → pos_by_unit_id i !! u = None) →
  ∃ i', foldR (λ i (u : string * list string * string), add_at i u.1.1 u.1.2 u.2) i l = Ok i' ∧ rep k b i' (put_all l a) ∧
        units_of (put_all l a).1 ≡ₚ map fst l ++ units_of a.1.
Proof.
  revert i a; induction l as [|[[u t] g] l IH]; intros i a H Hnd Habs; [by exists i|].
  cbn [map] in Hnd. apply NoDup_cons in Hnd as [Hu Hnd]. cbn [fst snd] in *. destruct H as (HR & Hn & Hk & Hb).
  destruct (add_at_repr i a.1 u t g HR) as (i1 & Hadd & HR1 & Hn1 & Hk1 & Hb1); [apply Habs; by left|].
  cbn [foldR fst snd]. rewrite Hadd. cbn [mbind result_bind].
  assert (rep k b i1 (a_put u t g a)) as H1.
  { rewrite Hn in HR1, Hn1. split_and!; [exact HR1|by rewrite Hn1|congruence|congruence]. }
  destruct (IH i1 (a_put u t g a) H1 Hnd) as (i' & HOk & H' & Hp).
  { intros v Hv. destruct (pos_by_unit_id i1 !! v) as [p|] eqn:E; [|done]. exfalso.
    apply (repr_pos i1 _ (proj1 H1)) in E. cbn [a_put fst] in E. destruct (decide (a.2 = p)) as [<-|].
    - rewrite lookup_insert_eq in E. cbn in E. injection E as ->. done.
    - rewrite lookup_insert_ne in E by done. apply (repr_pos i _ HR) in E. rewrite Habs in E; [done|by right]. }
  exists i'. split; [exact HOk|]. split; [exact H'|]. change (put_all ((u, t, g) :: l) a) with (put_all l (a_put u t g a)).
  rewrite Hp. cbn [a_put fst map]. rewrite units_of_insert.
  - cbn [slot_id slot_tokens app]. by rewrite Permutation_middle.
  - destruct (a.1 !! a.2) eqn:E; [|done]. apply (repr_next i _ HR) in E. lia.
Qed.

Lemma fst_zip_same {A B} (l : list A) (l' : list B) : length l = length l' → map fst (zip l l') = l.
Proof.
  revert l'; induction l as [|x l IH]; intros [|y l'] H; try done. cbn [zip zip_with map]. f_equal. apply IH. by injection H.
Qed.

Lemma from_token_lists_rep k b ids lists groups :
  NoDup ids → length lists = length ids → length (default ids groups) = length ids →
  ∃ i a, from_token_lists ids lists groups k b = Ok i ∧ rep k b i a ∧ units_of a.1 ≡ₚ zip ids lists.
Proof.
  intros Hnd Hl Hg. unfold from_token_lists, build. rewrite !bool_decide_eq_true_2 by done.
  set (l := zip (zip ids lists) (default ids groups)).
  assert (length (zip ids lists) = length ids) as Hzl by (rewrite length_zip_with; lia).
  assert (map fst l = zip ids lists) as Hf by (apply fst_zip_same; lia).
  assert (map (λ u, u.1.1) l = ids) as Hids.
  { change (λ u, u.1.1) with (λ u : string * list string * string, fst (fst u)).
    rewrite <-(map_map fst fst), Hf. by apply fst_zip_same. }
  destruct (add_all_rep k b (empty_index k b) (∅, 0) l) as (i & HOk & HR & Hp).
  { split_and!; [apply repr_empty|done|done|done]. }
  { by rewrite Hids. }
  { intros u _. apply lookup_empty. }
  exists i, (put_all l (∅, 0)). split; [exact HOk|]. split; [done|]. rewrite Hp, Hf.
  unfold units_of. cbn [fst]. rewrite map_to_list_empty. cbn [map]. by rewrite app_nil_r.
Qed.

(** ** Ranking depends on the units only *)

Lemma ref_df_perm units units' t : units ≡ₚ units' → ref_df units t = ref_df units' t.
Proof. intros H. unfold ref_df. f_equal. apply Permutation_length. by rewrite H. Qed.
Lemma ref_total_perm units units' : units ≡ₚ units' → ref_total units = ref_total units'.
Proof.
  intros H. unfold ref_total. induction H; cbn [foldr]; [done|by f_equal|lia|by etrans].
Qed.

Lemma ref_scores_perm log k b units units' terms ok ok' : units ≡ₚ units' → (∀ u, u ∈ units.*1 → ok u = ok' u) →
  ref_scores log k b units terms ok ≡ₚ ref_scores log k b units' terms ok'.
Proof.
  intros Hp Hok. unfold ref_scores. rewrite (ref_total_perm units units' Hp), (Permutation_length Hp).
  set (n := Z.of_nat _). set (tot := ref_total units'). rewrite <-Hp. apply Permutation_refl'. apply list_omap_ext, Forall_Forall2_diag, Forall_forall.
  intros [u t] Hu. cbn [fst snd]. rewrite (Hok u) by (apply list_elem_of_fmap; by exists (u, t)). destruct (ok' u); [|done]. f_equal.
  generalize (None : option spec_float) as acc. induction terms as [|x terms IH]; intros acc; [done|]. cbn [fold_left].
  rewrite IH. f_equal. unfold score_step. by rewrite (ref_df_perm units units' x Hp).
Qed.

Lemma rank_ref_perm log set_order k b units units' query limit ok ok' :
  units ≡ₚ units' → NoDup units.*1 → (∀ u, u ∈ units.*1 → ok u = ok' u) →
  scored (ref_scores log k b units (set_order (tokenize query)) ok) →
  rank_ref log set_order k b units query limit ok = rank_ref log set_order k b units' query limit ok'.
Proof.
  intros Hp Hnd Hok Hsc. unfold rank_ref.
  rewrite (bool_decide_ext (units = []) (units' = [])).
  2:{ split; intros E; rewrite E in Hp; [by apply Permutation_nil_l in Hp|by apply Permutation_nil_r in Hp]. }
  destruct (_ || _); [done|].
  rewrite (rank_sort_unique _ (ref_scores log k b units' (set_order (tokenize query)) ok') Hsc); [done| |by apply ref_scores_perm].
  eapply sublist_NoDup; [exact Hnd|apply ref_scores_fst].
Qed.

(** ** Claims *)

(** What the abstract operations do not touch stays where it is. *)
Definition touches (o : index_op) (s : unit_slot) : bool :=
  match o with
  | AddUnit u _ _ | RemoveUnit u => bool_decide (slot_id s = u)
  | RemoveGroup g => bool_decide (slot_group s = g)
  | ReplaceGroup g units => bool_decide (slot_group s = g) || bool_decide (slot_id s ∈ map fst units)
  end.

Lemma a_keep_lookup P a p s : (a_keep P a).1 !! p = Some s ↔ a.1 !! p = Some s ∧ P s = true.
Proof. unfold a_keep. cbn [fst]. apply map_lookup_filter_Some. Qed.

Lemma a_add_unit_keeps a u t g p s : p < a.2 →
  (a_add_unit a u t g).1 !! p = Some s ↔ a.1 !! p = Some s ∧ slot_id s ≠ u.
Proof.
  intros Hp. unfold a_add_unit, a_put. cbn [fst a_keep snd]. rewrite lookup_insert_ne by lia.
  change (filter _ a.1) with ((a_keep (not_unit u) a).1). rewrite a_keep_lookup. unfold not_unit. by rewrite bool_decide_eq_true.
Qed.

Lemma a_add_units_keeps a g units p s : p < a.2 →
  (fold_left (λ a (u : string * list string), a_add_unit a u.1 u.2 g) units a).1 !! p = Some s ↔
  a.1 !! p = Some s ∧ slot_id s ∉ map fst units.
Proof.
  revert a; induction units as [|[u t] units IH]; intros a Hp; cbn [fold_left map fst snd].
  { split; [intros; split; [done|apply not_elem_of_nil]|by intros [? _]]. }
  rewrite IH by (cbn; lia). rewrite a_add_unit_keeps by done. rewrite not_elem_of_cons. naive_solver.
Qed.

Lemma spec_op_keeps o a p s : p < a.2 → (spec_op a o).1 !! p = Some s ↔ a.1 !! p = Some s ∧ touches o s = false.
Proof.
  intros Hp. destruct o as [u t g|u|g|g units]; cbn [spec_op touches].
  - rewrite a_add_unit_keeps by done. by rewrite bool_decide_eq_false.
  - rewrite a_keep_lookup. unfold not_unit. by rewrite bool_decide_eq_true, bool_decide_eq_false.
  - rewrite a_keep_lookup. unfold not_group. by rewrite bool_decide_eq_true, bool_decide_eq_false.
  - rewrite a_add_units_keeps by done. rewrite a_keep_lookup, orb_false_iff, !bool_decide_eq_false. unfold not_group.
    rewrite bool_decide_eq_true. tauto.
Qed.

Lemma spec_op_next a o : a.2 <= (spec_op a o).2.
Proof.
  destruct o as [u t g|u|g|g units]; cbn; try lia.
  assert (∀ a', a'.2 <= (fold_left (λ a (u : string * list string), a_add_unit a u.1 u.2 g) units a').2) as H; [|apply (H (a_keep _ a))].
  induction units as [|u units IH]; intros a'; cbn [fold_left]; [lia|]. etrans; [|apply IH]. cbn. lia.
Qed.

Lemma spec_ops_keeps ops a p s : p < a.2 →
  (fold_left spec_op ops a).1 !! p = Some s ↔ a.1 !! p = Some s ∧ Forall (λ o, touches o s = false) ops.
Proof.
  revert a; induction ops as [|o ops IH]; intros a Hp; cbn [fold_left].
  { split; [by split|by intros [? _]]. }
  rewrite IH by (pose proof (spec_op_next a o); lia). rewrite spec_op_keeps by done. rewrite Forall_cons. tauto.
Qed.

(** C8: Building an index from distinct units and then adding, upserting, removing and replacing
    units and document groups in any order never raises, and the index it leaves represents exactly
    the abstract state the operations describe: every posting list, document frequency, length,
    position map, group map and counter is the one computed from the units present. *)
Theorem index_refines_units k b ids lists groups ops :
  NoDup ids → length lists = length ids → length (default ids groups) = length ids →
  ∃ i a, from_token_lists ids lists groups k b = Ok i ∧ units_of a.1 ≡ₚ zip ids lists ∧ rep k b i a ∧
  ∃ i', foldR run_op i ops = Ok i' ∧ rep k b i' (fold_left spec_op ops a).
Proof.
  intros Hnd Hl Hg. destruct (from_token_lists_rep k b ids lists groups Hnd Hl Hg) as (i & a & HOk & HR & Hu).
  exists i, a. split; [done|]. split; [done|]. split; [done|]. by apply run_ops_rep.
Qed.

(** Positions are stable and never reused: over any sequence of updates, the unit found at a
    position that was already assigned is the unit that was there before, and it is there exactly
    when no update touched it (its id, or its document group). *)
Theorem positions_stable k b i a ops p u :
  rep k b i a → p < next_pos i →
  ∃ i', foldR run_op i ops = Ok i' ∧
  (unit_id_by_pos i' !! p = Some u ↔
   ∃ s, a.1 !! p = Some s ∧ slot_id s = u ∧ Forall (λ o, touches o s = false) ops) ∧
  (unit_id_by_pos i' !! p = Some u → unit_id_by_pos i !! p = Some u ∧ position_of i' u = Some p).
Proof.
  intros HR Hp. destruct (run_ops_rep k b i a ops HR) as (i' & HOk & HR'). exists i'. split; [done|].
  destruct HR as (HR & Hn & _), HR' as (HR' & _). rewrite Hn in Hp.
  assert (unit_id_by_pos i' !! p = Some u ↔
    ∃ s, a.1 !! p = Some s ∧ slot_id s = u ∧ Forall (λ o, touches o s = false) ops) as Hiff.
  { rewrite (repr_unit_id i' _ HR'), lookup_fmap, fmap_Some. setoid_rewrite spec_ops_keeps; [|done]. naive_solver. }
  split; [done|]. intros Hu. split.
  - apply Hiff in Hu as (s & Hs & <- & _). by rewrite (repr_unit_id i _ HR), lookup_fmap, Hs.
  - apply (repr_pos i' _ HR'). by rewrite (repr_unit_id i' _ HR'), lookup_fmap in Hu.
Qed.

(** An index maintained incrementally ranks like one built in bulk: after any sequence of
    updates, every query returns the ids and scores that a fresh build over the units present, in
    whatever order, returns, and both are the reference ranking of those units (BM25 score with
    the document frequencies, lengths and counts of the units, best first, ties by id). *)
Theorem incremental_ranks_like_bulk log set_order k b ops units query limit :
  units_of (fold_left spec_op ops (∅, 0)).1 ≡ₚ units →
  scored (ref_scores log k b units (set_order (tokenize query)) (λ _, true)) →
  ∃ i j, foldR run_op (empty_index k b) ops = Ok i ∧
    from_token_lists (map fst units) (map snd units) None k b = Ok j ∧
    rank log set_order i query limit None = Ok (rank_ref log set_order k b units query limit (λ _, true)) ∧
    rank log set_order j query limit None = Ok (rank_ref log set_order k b units query limit (λ _, true)).
Proof.
  intros Hu Hsc.
  assert (rep k b (empty_index k b) (∅, 0)) as H0 by (split_and!; [apply repr_empty|done|done|done]).
  destruct (run_ops_rep k b _ _ ops H0) as (i & HOk & HR).
  assert (NoDup units.*1) as Hnd by (rewrite <-Hu; apply (NoDup_units_of i), HR).
  destruct (from_token_lists_rep k b (map fst units) (map snd units) None) as (j & a & HOkj & HRj & Hj).
  { done. } { by rewrite !length_map. } { done. }
  assert (zip (map fst units) (map snd units) = units) as Hz.
  { clear. induction units as [|[u t] units IH]; [done|]. cbn [map zip zip_with]. f_equal. exact IH. }
  rewrite Hz in Hj. exists i, j. split; [done|]. split; [done|].
  assert (∀ i a, rep k b i a → units_of a.1 ≡ₚ units →
    rank log set_order i query limit None = Ok (rank_ref log set_order k b units query limit (λ _, true))) as Hall.
  { clear -Hsc Hnd. intros i a HR Hp.
    assert (∀ u, u ∈ (units_of a.1).*1 → allowed_id i None u = true) as Hok.
    { intros u ([u' t] & -> & (p & g & Hs)%elem_of_units_of)%list_elem_of_fmap. unfold allowed_id, position_of. cbn [fst].
      assert (pos_by_unit_id i !! u' = Some p) as -> by (apply (repr_pos i _ (proj1 HR)); by rewrite Hs). done. }
    assert (scored (ref_scores log k b (units_of a.1) (set_order (tokenize query)) (allowed_id i None))) as Hsc'.
    { unfold scored in *. by rewrite (ref_scores_perm log k b _ units _ _ (λ _, true) Hp Hok). }
    rewrite (rank_is_ref log set_order k b i a query limit None HR Hsc'). f_equal.
    apply rank_ref_perm; [done|by apply (NoDup_units_of i), HR|done|done]. }
  split; [by eapply Hall|by eapply Hall].
Qed.

(** ** Instances *)

Definition sample_ops : list index_op :=
  [AddUnit "d1#0" ["error"; "e1234"; "error"] (Some "d1"%string); AddUnit "d1#1" ["restart"] (Some "d1"%string);
   AddUnit "d2#0" ["error"; "log"] (Some "d2"%string); ReplaceGroup "d1" [("d1#0"%string, ["e1234"; "fixed"])];
   AddUnit "x" [] None; RemoveUnit "x"]%string.
Definition sample_log (x : spec_float) : spec_float := fsub x (float_of_Z 1).

Lemma index_refines_units_witness :
  ∃ i a, from_token_lists ["a"; "b"]%string [["x"; "y"]; ["x"]]%string None BM25_K1 BM25_B = Ok i ∧
  units_of a.1 ≡ₚ zip ["a"; "b"]%string [["x"; "y"]; ["x"]]%string ∧ rep BM25_K1 BM25_B i a ∧
  ∃ i', foldR run_op i sample_ops = Ok i' ∧ rep BM25_K1 BM25_B i' (fold_left spec_op sample_ops a).
Proof.
  apply (index_refines_units BM25_K1 BM25_B); [|reflexivity|reflexivity].
  apply (bool_decide_unpack _). vm_compute. exact I.
Defined.

Definition sample_index : Bm25Index :=
  match foldR run_op (empty_index BM25_K1 BM25_B) (take 3 sample_ops) with Ok i => i | Err _ => empty_index BM25_K1 BM25_B end.
Definition sample_state : astate := fold_left spec_op (take 3 sample_ops) (∅, 0).

Lemma sample_index_rep : rep BM25_K1 BM25_B sample_index sample_state.
Proof.
  unfold sample_index.
  destruct (run_ops_rep BM25_K1 BM25_B (empty_index BM25_K1 BM25_B) (∅, 0) (take 3 sample_ops)) as (i & -> & H); [|exact H].
  split_and!; [apply repr_empty|done|done|done].
Qed.

Lemma positions_stable_witness :
  ∃ i', foldR run_op sample_index (drop 3 sample_ops) = Ok i' ∧
  (unit_id_by_pos i' !! 2 = Some "d2#0"%string ↔
   ∃ s, sample_state.1 !! 2 = Some s ∧ slot_id s = "d2#0"%string ∧ Forall (λ o, touches o s = false) (drop 3 sample_ops)) ∧
  (unit_id_by_pos i' !! 2 = Some "d2#0"%string →
   unit_id_by_pos sample_index !! 2 = Some "d2#0"%string ∧ position_of i' "d2#0" = Some 2).
Proof.
  apply (positions_stable BM25_K1 BM25_B sample_index sample_state (drop 3 sample_ops) 2 "d2#0"); [|vm_compute; reflexivity].
  apply sample_index_rep.
Defined.

Lemma incremental_ranks_like_bulk_witness :
  ∃ i j, foldR run_op (empty_index BM25_K1 BM25_B) sample_ops = Ok i ∧
    from_token_lists ["d2#0"; "d1#0"]%string [["error"; "log"]; ["e1234"; "fixed"]]%string None BM25_K1 BM25_B = Ok j ∧
    rank sample_log distinct_terms i "Fixed error E1234?" (Some 5) None
      = Ok (rank_ref sample_log distinct_terms BM25_K1 BM25_B [("d2#0", ["error"; "log"]); ("d1#0", ["e1234"; "fixed"])]%string
              "Fixed error E1234?" (Some 5) (λ _, true)) ∧
    rank sample_log distinct_terms j "Fixed error E1234?" (Some 5) None
      = Ok (rank_ref sample_log distinct_terms BM25_K1 BM25_B [("d2#0", ["error"; "log"]); ("d1#0", ["e1234"; "fixed"])]%string
              "Fixed error E1234?" (Some 5) (λ _, true)).
Proof.
  apply (incremental_ranks_like_bulk sample_log distinct_terms BM25_K1 BM25_B sample_ops
           [("d2#0", ["error"; "log"]); ("d1#0", ["e1234"; "fixed"])]%string).
  - etrans; [apply Permutation_refl'; vm_compute; reflexivity|apply Permutation_swap].
  - unfold scored. apply (bool_decide_unpack _). vm_compute. exact I.
Defined.
