(* ===== verification/RouteRegistry.v ===== *)
(** * Route registry and runtime policies
    ([src/src/lodedb/engine/route_registry.py], [src/src/lodedb/engine/runtime_policy.py])

    Which retrieval route a model/task pair gets: explicit registry entries, task-level
    statuses, defaults and the runtime overrides that force the full-vector fallback; and the
    commit-mode and delta-persistence policies read from the environment. *)

From Stdlib Require Import Ascii String ZArith Lia.
From stdpp Require Import base strings numbers sets gmap list.
From S2P Require Import Prelude Numbers PyVal.

Local Open Scope Z_scope.

(** ** Route classes *)

Definition COMPRESSED_INT8_SUPPORTED : string := "compressed_int8_supported".
Definition FIXED_FULL_SUPPORTED_INT8_FAILED : string := "fixed_full_supported_int8_failed".
Definition REQUIRES_HIGHER_K_DIAGNOSTIC : string := "requires_higher_k_diagnostic".
Definition FULL_DENSE_OR_FULL_VECTOR_FALLBACK : string := "full_dense_or_full_vector_fallback".
Definition EXCLUDED_CANDIDATE_RECALL_BOTTLENECK : string := "excluded_candidate_recall_bottleneck".
Definition SKIPPED_LOADER : string := "skipped_loader".
Definition SKIPPED_BUDGET : string := "skipped_budget".

Definition SUPPORTED_ROUTE_CLASSES : list string := [COMPRESSED_INT8_SUPPORTED; FIXED_FULL_SUPPORTED_INT8_FAILED].
Definition FALLBACK_ROUTE_CLASSES : list string :=
  [FULL_DENSE_OR_FULL_VECTOR_FALLBACK; EXCLUDED_CANDIDATE_RECALL_BOTTLENECK; REQUIRES_HIGHER_K_DIAGNOSTIC;
   SKIPPED_LOADER; SKIPPED_BUDGET].
Definition KNOWN_ROUTE_CLASSES : list string := SUPPORTED_ROUTE_CLASSES ++ FALLBACK_ROUTE_CLASSES.

(** ** Registry records *)

Record RouteRegistryEntry := Entry {
  en_model : string; en_task : string; en_class : string; en_provider : string; en_decision : string;
  en_template : string; en_fallback : string; en_reason : string; en_evidence : pydict }.

Record DatasetRouteStatus := Status {
  ds_task : string; ds_status : string; ds_reason : string; ds_segment : string; ds_loader : bool }.

Record RouteDecision := Decision_ {
  rd_model : string; rd_task : string; rd_provider : option string; rd_class : string; rd_decision : string;
  rd_template : string; rd_fallback : string; rd_reason : string; rd_hit : bool; rd_evidence : pydict }.

Record RouteRegistry := Registry {
  rr_name : string; rr_default_class : string; rr_default_decision : string; rr_default_fallback : string;
  rr_entries : list RouteRegistryEntry; rr_statuses : list DatasetRouteStatus }.

(** [str(payload.get(k, default))] and [str(payload[k])]. *)
Definition get_str (payload : pyval) (k default : string) : result string := py_str <$> py_get payload k (PStr default).
Definition index_str (payload : pyval) (k : string) : result string := py_str <$> py_index payload k.

Definition entry_from_mapping (payload : pyval) : result RouteRegistryEntry :=
  cls ← index_str payload "route_classification";
  if negb (str_in cls KNOWN_ROUTE_CLASSES)
  then raise ValueError ("Unknown route classification: " +:+ str_repr cls)
  else
    model ← index_str payload "model";
    task ← index_str payload "task";
    provider ← get_str payload "provider" "any";
    decision ← get_str payload "route_decision" "";
    template ← get_str payload "method_template" "";
    fallback ← get_str payload "fallback" "full_dense_or_full_vector";
    reason ← get_str payload "reason" "";
    ev ← py_get payload "evidence" (PDict []);
    evidence ← py_dict (py_or ev (PDict []));
    Ok (Entry model task cls provider decision template fallback reason evidence).

Definition entry_to_dict (e : RouteRegistryEntry) : pyval :=
  dict_of [("model", PStr (en_model e)); ("provider", PStr (en_provider e)); ("task", PStr (en_task e));
           ("route_classification", PStr (en_class e)); ("route_decision", PStr (en_decision e));
           ("method_template", PStr (en_template e)); ("fallback", PStr (en_fallback e));
           ("reason", PStr (en_reason e)); ("evidence", PDict (en_evidence e))].

Definition status_from_mapping (payload : pyval) : result DatasetRouteStatus :=
  status ← index_str payload "status";
  if negb (str_in status KNOWN_ROUTE_CLASSES)
  then raise ValueError ("Unknown dataset route status: " +:+ str_repr status)
  else
    task ← index_str payload "task";
    segment ← get_str payload "segment" "unsupported";
    reason ← get_str payload "reason" "";
    loader ← py_get payload "loader_supported" (PBool false);
    Ok (Status task status reason segment (truthy loader)).

Definition status_to_dict (d : DatasetRouteStatus) : pyval :=
  dict_of [("task", PStr (ds_task d)); ("segment", PStr (ds_segment d)); ("status", PStr (ds_status d));
           ("loader_supported", PBool (ds_loader d)); ("reason", PStr (ds_reason d))].

Definition decision_to_dict (d : RouteDecision) : pyval :=
  dict_of [("model", PStr (rd_model d)); ("provider", match rd_provider d with Some p => PStr p | None => PNone end);
           ("task", PStr (rd_task d)); ("route_classification", PStr (rd_class d));
           ("route_decision", PStr (rd_decision d)); ("method_template", PStr (rd_template d));
           ("fallback", PStr (rd_fallback d)); ("reason", PStr (rd_reason d)); ("registry_hit", PBool (rd_hit d));
           ("evidence", PDict (rd_evidence d))].

Definition is_dict (v : pyval) : bool := match v with PDict _ => true | _ => false end.

Definition registry_from_mapping (payload : pyval) : result RouteRegistry :=
  registry ← py_get payload "route_registry" PNone;
  if negb (is_dict registry)
  then raise ValueError "route registry config must contain a 'route_registry' mapping"
  else
    dv ← py_get registry "defaults" (PDict []);
    defaults ← py_dict (py_or dv (PDict []));
    ev ← py_get registry "entries" (PTuple []);
    items ← py_iter ev;
    entries ← mapR entry_from_mapping (List.filter is_dict items);
    sv ← py_get registry "dataset_statuses" (PTuple []);
    sitems ← py_iter sv;
    statuses ← mapR status_from_mapping (List.filter is_dict sitems);
    name ← get_str registry "name" "unnamed_route_registry";
    cls ← get_str (PDict defaults) "route_classification" FULL_DENSE_OR_FULL_VECTOR_FALLBACK;
    decision ← get_str (PDict defaults) "route_decision" "use_full_dense_or_full_vector_fallback";
    fallback ← get_str (PDict defaults) "fallback" "full_dense_or_full_vector";
    Ok (Registry name cls decision fallback entries statuses).

Definition registry_to_dict (r : RouteRegistry) : pyval :=
  dict_of [("name", PStr (rr_name r));
           ("defaults", dict_of [("route_classification", PStr (rr_default_class r));
                                 ("route_decision", PStr (rr_default_decision r));
                                 ("fallback", PStr (rr_default_fallback r))]);
           ("entries", PList (map entry_to_dict (rr_entries r)));
           ("dataset_statuses", PList (map status_to_dict (rr_statuses r)))].

(** ** Lookup and selection *)

(** The first element of a loop that returns on its condition. *)
Definition first {A} (f : A → bool) (l : list A) : option A := List.find f l.

Definition entry_for (model task : string) (e : RouteRegistryEntry) : bool :=
  bool_decide (en_model e = model) && bool_decide (en_task e = task).
Definition entry_at (model task provider : string) (e : RouteRegistryEntry) : bool :=
  entry_for model task e && bool_decide (en_provider e = provider).

(** [provider or d]. *)
Definition provider_or (provider : option string) (d : string) : string :=
  match provider with Some p => if bool_decide (p = "") then d else p | None => d end.

Definition find_entry (r : RouteRegistry) (model task : string) (provider : option string) : option RouteRegistryEntry :=
  match first (entry_at model task (provider_or provider "any")) (rr_entries r) with
  | Some e => Some e
  | None =>
      match (match provider with None => first (entry_for model task) (rr_entries r) | Some _ => None end) with
      | Some e => Some e
      | None => first (entry_at model task "any") (rr_entries r)
      end
  end.

Definition dataset_status_for (r : RouteRegistry) (task : string) : option DatasetRouteStatus :=
  first (λ s, bool_decide (ds_task s = task)) (rr_statuses r).

Definition fallback_decision (r : RouteRegistry) (model task : string) (provider : option string)
    (cls decision reason : string) (hit : bool) (evidence : pydict) : RouteDecision :=
  Decision_ model task provider cls decision "" (rr_default_fallback r) reason hit evidence.

Definition runtime_fallback (r : RouteRegistry) (model task : string) (provider : option string) (reason : string)
    : RouteDecision :=
  fallback_decision r model task provider FULL_DENSE_OR_FULL_VECTOR_FALLBACK "use_full_dense_or_full_vector_fallback"
    reason (bool_decide (find_entry r model task provider ≠ None)) [].

Definition route_decision_for_status (status : string) : string :=
  if bool_decide (status = SKIPPED_LOADER) then "skip_until_loader_validated"
  else if bool_decide (status = SKIPPED_BUDGET) then "skip_until_budget_authorizes_validation"
  else if bool_decide (status = EXCLUDED_CANDIDATE_RECALL_BOTTLENECK) then "exclude_pair_and_use_full_dense_or_fallback"
  else "use_full_dense_or_full_vector_fallback".

Definition select_route (r : RouteRegistry) (model task : string) (provider : option string)
    (fixed_full_passed compressed_int8_passed : option bool) (requires_higher_k : bool)
    (failure_mode : option string) (drifted failed high_risk : bool) : RouteDecision :=
  if drifted then runtime_fallback r model task provider "drift_gate_requires_fallback"
  else if failed then runtime_fallback r model task provider "runtime_failure_requires_fallback"
  else if high_risk then runtime_fallback r model task provider "high_risk_pair_requires_fallback"
  else if requires_higher_k then
    fallback_decision r model task provider REQUIRES_HIGHER_K_DIAGNOSTIC
      "diagnostic_higher_k_only_keep_default_unsupported"
      "higher K is diagnostic only and is not a default product route" true []
  else
    match find_entry r model task provider with
    | None =>
        match dataset_status_for r task with
        | Some s => fallback_decision r model task provider (ds_status s) (route_decision_for_status (ds_status s))
                      (ds_reason s) true []
        | None => fallback_decision r model task provider (rr_default_class r) (rr_default_decision r)
                    "unknown_model_task_pair" false []
        end
    | Some e =>
        match fixed_full_passed, compressed_int8_passed with
        | Some false, _ =>
            if bool_decide (failure_mode = Some "candidate_recall")
            then fallback_decision r model task provider EXCLUDED_CANDIDATE_RECALL_BOTTLENECK
                   "exclude_pair_and_use_full_dense_or_fallback" "candidate_recall_bottleneck" true (en_evidence e)
            else runtime_fallback r model task provider "fixed_full_rerank_failed"
        | Some true, Some false =>
            fallback_decision r model task provider FIXED_FULL_SUPPORTED_INT8_FAILED
              "use_fixed_full_rerank_with_full_vector_fallback" "compressed_int8_failed_or_missing" true (en_evidence e)
        | _, _ =>
            Decision_ model task (Some (provider_or provider (en_provider e))) (en_class e) (en_decision e)
              (en_template e) (en_fallback e) (en_reason e) true (en_evidence e)
        end
    end.

Definition default_route_registry : RouteRegistry :=
  Registry "lodedb_local_route_registry" FULL_DENSE_OR_FULL_VECTOR_FALLBACK
    "use_full_dense_or_full_vector_fallback" "full_dense_or_full_vector" [] [].

Definition route_decisions_to_dicts (decisions : list RouteDecision) : list pyval := map decision_to_dict decisions.

(** ** Runtime policies *)

Inductive TvimDeltaPersistencePolicy := DeltaOff | DeltaAuto.
Inductive CommitMode := Generation | Wal.

(** [CommitMode(text)]; a value outside the enumeration raises [ValueError]. *)
Definition commit_mode_of (s : string) : option CommitMode :=
  if bool_decide (s = "generation") then Some Generation else if bool_decide (s = "wal") then Some Wal else None.
Definition delta_policy_of (s : string) : option TvimDeltaPersistencePolicy :=
  if bool_decide (s = "off") then Some DeltaOff else if bool_decide (s = "auto") then Some DeltaAuto else None.

(** [value or d] for an optional string. *)
Definition str_or (value : option string) (d : string) : string := provider_or value d.

Definition parse_commit_mode (value : option string) : result CommitMode :=
  match commit_mode_of (str_lower (str_strip (str_or value "wal"))) with
  | Some m => Ok m
  | None => raise ValueError "commit_mode must be one of: generation, wal"
  end.

Definition parse_tvim_delta_persistence_policy (value : option string) : result TvimDeltaPersistencePolicy :=
  match delta_policy_of (str_or value "auto") with
  | Some m => Ok m
  | None => raise ValueError "LODEDB_TVIM_DELTA_PERSISTENCE must be one of: off, auto"
  end.

Definition commit_mode_from_env (env : gmap string string) : result CommitMode :=
  parse_commit_mode (Some (default "wal" (env !! "LODEDB_COMMIT_MODE"))).
Definition tvim_delta_persistence_policy_from_env (env : gmap string string) : result TvimDeltaPersistencePolicy :=
  parse_tvim_delta_persistence_policy (Some (default "auto" (env !! "LODEDB_TVIM_DELTA_PERSISTENCE"))).

(** ** Properties *)

Lemma first_Some {A} (f : A → bool) l x : first f l = Some x → x ∈ l ∧ f x = true.
Proof. intros H. apply List.find_some in H as [Hin Hf]. split; [by apply list_elem_of_In|done]. Qed.
Lemma first_None {A} (f : A → bool) l : first f l = None → ∀ x, x ∈ l → f x = false.
Proof. intros H x Hx. eapply List.find_none in H; [done|by apply list_elem_of_In]. Qed.

Lemma entry_for_true model task e : entry_for model task e = true ↔ en_model e = model ∧ en_task e = task.
Proof. unfold entry_for. by rewrite andb_true_iff, !bool_decide_eq_true. Qed.
Lemma entry_at_true model task p e : entry_at model task p e = true ↔ en_model e = model ∧ en_task e = task ∧ en_provider e = p.
Proof. unfold entry_at. rewrite andb_true_iff, entry_for_true, bool_decide_eq_true. tauto. Qed.

(** The entry found is for the pair; it has the asked provider whenever some entry of the pair
    has it, and otherwise it is a provider-independent one unless no provider was asked. *)
Lemma find_entry_spec r model task provider e : find_entry r model task provider = Some e →
  e ∈ rr_entries r ∧ en_model e = model ∧ en_task e = task ∧
  (en_provider e = provider_or provider "any" ∨
   (∀ e', e' ∈ rr_entries r → en_model e' = model → en_task e' = task → en_provider e' ≠ provider_or provider "any") ∧
   (provider = None ∨ en_provider e = "any")).
Proof.
  unfold find_entry. destruct (first (entry_at _ _ _) _) as [e1|] eqn:E1.
  - intros [= ->]. apply first_Some in E1 as [Hin (? & ? & ?)%entry_at_true]. tauto.
  - assert (∀ e', e' ∈ rr_entries r → en_model e' = model → en_task e' = task →
      en_provider e' ≠ provider_or provider "any") as Hno.
    { intros e' Hin Hm Ht Hp. apply (first_None _ _ E1) in Hin.
      assert (entry_at model task (provider_or provider "any") e' = true) by (by apply entry_at_true). congruence. }
    destruct provider as [p|].
    + intros H. apply first_Some in H as [Hin (? & ? & ?)%entry_at_true]. split_and!; try done. right. tauto.
    + destruct (first (entry_for _ _) _) as [e2|] eqn:E2.
      * intros [= ->]. apply first_Some in E2 as [Hin [? ?]%entry_for_true]. split_and!; try done. right. tauto.
      * intros H. apply first_Some in H as [Hin (? & ? & ?)%entry_at_true]. split_and!; try done. right. tauto.
Qed.

(** Route selection fails safe. A drifted, failed or high-risk lookup always gets the
    full-vector fallback with no method template; and a decision carries a method template only
    when no runtime gate fired, the fixed-full and int8 checks did not fail, and a registry entry
    for exactly this model and task (of the asked provider if the registry has one) says so. *)
Theorem route_selection_fails_safe r model task provider ff c8 hk fm drifted failed high_risk :
  let d := select_route r model task provider ff c8 hk fm drifted failed high_risk in
  (drifted || failed || high_risk = true →
     rd_class d = FULL_DENSE_OR_FULL_VECTOR_FALLBACK ∧ rd_template d = "" ∧ rd_fallback d = rr_default_fallback r) ∧
  (rd_template d ≠ "" →
     drifted = false ∧ failed = false ∧ high_risk = false ∧ hk = false ∧ ff ≠ Some false ∧
     (ff = Some true → c8 ≠ Some false) ∧
     ∃ e, e ∈ rr_entries r ∧ en_model e = model ∧ en_task e = task ∧
       (en_provider e = provider_or provider "any" ∨
        (∀ e', e' ∈ rr_entries r → en_model e' = model → en_task e' = task → en_provider e' ≠ provider_or provider "any") ∧
        (provider = None ∨ en_provider e = "any")) ∧
       rd_class d = en_class e ∧ rd_template d = en_template e ∧ rd_hit d = true).
Proof.
  intros d. split.
  - unfold d, select_route. destruct drifted; [done|]. destruct failed; [done|]. by destruct high_risk.
  - unfold d, select_route. destruct drifted; [done|]. destruct failed; [done|]. destruct high_risk; [done|].
    destruct hk; [done|]. destruct (find_entry r model task provider) as [e|] eqn:E.
    2:{ by destruct (dataset_status_for r task). }
    apply find_entry_spec in E as (Hin & Hm & Ht & Hp).
    destruct ff as [[]|]; [destruct c8 as [[]|]| |]; try done; try (intros _; split_and!; try done; by exists e).
    by destruct (bool_decide _).
Qed.

(** Configured classes are the known ones. *)
Definition registry_ok (r : RouteRegistry) : Prop :=
  Forall (λ e, en_class e ∈ KNOWN_ROUTE_CLASSES) (rr_entries r) ∧ Forall (λ s, ds_status s ∈ KNOWN_ROUTE_CLASSES) (rr_statuses r).

Lemma entry_roundtrip e : en_class e ∈ KNOWN_ROUTE_CLASSES → entry_from_mapping (entry_to_dict e) = Ok e.
Proof.
  intros Hk. unfold entry_from_mapping.
  assert (index_str (entry_to_dict e) "route_classification" = Ok (en_class e)) as -> by reflexivity.
  cbn [mbind result_bind]. unfold str_in. rewrite bool_decide_eq_true_2 by done. cbn [negb].
  destruct e as [m t c p d tm f r ev]. cbn. by destruct ev.
Qed.
Lemma status_roundtrip s : ds_status s ∈ KNOWN_ROUTE_CLASSES → status_from_mapping (status_to_dict s) = Ok s.
Proof.
  intros Hk. unfold status_from_mapping.
  assert (index_str (status_to_dict s) "status" = Ok (ds_status s)) as -> by reflexivity.
  cbn [mbind result_bind]. unfold str_in. rewrite bool_decide_eq_true_2 by done. by destruct s.
Qed.

Lemma filter_all_dicts {A} (f : A → pyval) l : (∀ x, is_dict (f x) = true) → List.filter is_dict (map f l) = map f l.
Proof. intros Hf. induction l as [|x l IH]; [done|]. cbn [map List.filter]. by rewrite Hf, IH. Qed.

Lemma mapR_roundtrip {A} (f : A → pyval) (g : pyval → result A) l : Forall (λ x, g (f x) = Ok x) l → mapR g (map f l) = Ok l.
Proof. induction 1 as [|x l Hx _ IH]; [done|]. cbn [map mapR]. rewrite Hx. cbn [mbind result_bind]. by rewrite IH. Qed.

(** A registry whose classes are known is read back unchanged from what [to_dict] writes. *)
Theorem registry_roundtrip r : registry_ok r →
  registry_from_mapping (dict_of [("route_registry", registry_to_dict r)]) = Ok r.
Proof.
  intros [He Hs]. unfold registry_from_mapping.
  change (py_get (dict_of _) "route_registry" PNone) with (Ok (registry_to_dict r)).
  cbn [mbind result_bind is_dict registry_to_dict dict_of negb].
  change (py_get _ "defaults" (PDict [])) with (Ok (dict_of [("route_classification", PStr (rr_default_class r));
     ("route_decision", PStr (rr_default_decision r)); ("fallback", PStr (rr_default_fallback r))])).
  cbn [mbind result_bind py_or truthy dict_of map py_dict].
  change (py_get _ "entries" (PTuple [])) with (Ok (PList (map entry_to_dict (rr_entries r)))).
  cbn [mbind result_bind py_iter]. rewrite filter_all_dicts by done.
  rewrite (mapR_roundtrip entry_to_dict entry_from_mapping).
  2:{ eapply Forall_impl; [exact He|]. apply entry_roundtrip. }
  cbn [mbind result_bind].
  change (py_get _ "dataset_statuses" (PTuple [])) with (Ok (PList (map status_to_dict (rr_statuses r)))).
  cbn [mbind result_bind py_iter]. rewrite filter_all_dicts by done.
  rewrite (mapR_roundtrip status_to_dict status_from_mapping).
  2:{ eapply Forall_impl; [exact Hs|]. apply status_roundtrip. }
  by destruct r.
Qed.

Definition sample_registry : RouteRegistry :=
  Registry "r" FULL_DENSE_OR_FULL_VECTOR_FALLBACK "d" "f"
    [Entry "m" "t" COMPRESSED_INT8_SUPPORTED "any" "use" "tpl" "fb" "ok" [(PStr "recall", PInt 1)]]
    [Status "t2" SKIPPED_LOADER "none" "unsupported" true].

Lemma registry_roundtrip_witness :
  registry_from_mapping (dict_of [("route_registry", registry_to_dict sample_registry)]) = Ok sample_registry.
Proof.
  apply (registry_roundtrip sample_registry). split; constructor; try constructor; apply (bool_decide_unpack _); vm_compute; exact I.
Defined.
