(* ===== verification/EngineCore.v ===== *)
(** * Engine contracts and the snapshot auditor
    ([src/src/lodedb/engine/core.py], [src/src/lodedb/engine/route_profiles.py])

    The engine-facing records, the validation and identity helpers the SDK shares, the route
    policies, restoring an index state from a persisted payload, and the auditor that walks a
    persistence directory through the commit manifests, journals and vector stores. *)

From Stdlib Require Import Ascii String ZArith Lia SpecFloat.
From stdpp Require Import base strings numbers sets gmap sorting list.
From S2P Require Import Prelude Numbers PyVal Bytes Json FileSys JournalStore CommitManifest TvimStore RouteRegistry.

Local Open Scope Z_scope.

Definition DIRECT_TURBOVEC_STORAGE_PROFILE : string := "turbovec_direct".
Definition NON_INDEX_JSON_FILES : list string := ["collection.json"; "migration.json"].
Definition QUERY_LATENCY_SAMPLE_CAP : nat := 1024.
Definition DEFAULT_INDEX_ID : string := "default".
Definition DEFAULT_INDEX_NAME : string := "Default index".
Definition ACTIVE_INDEX_STATUS : string := "ready".
Definition LEGACY_INDEX_TIMESTAMP : string := "1970-01-01T00:00:00+00:00".

(** ** Route policies *)

Record EngineRoutePolicy := Policy {
  pl_profile : string; pl_label : string; pl_note : string; pl_model : string; pl_provider : string; pl_task : string;
  pl_dim : Z; pl_template : string; pl_experimental : bool; pl_backend : string; pl_bits : option Z }.

(** The error message of a request that does not match the profile, if any. *)
Definition validate_index_request (p : EngineRoutePolicy) (model provider task : string) (native_dim : Z)
    (route : RouteDecision) : option string :=
  if bool_decide (model ≠ pl_model p) then Some ("model must match route profile " +:+ pl_profile p)
  else if bool_decide (provider ≠ pl_provider p) then Some ("provider must match route profile " +:+ pl_profile p)
  else if bool_decide (task ≠ pl_task p) then Some ("task must match route profile " +:+ pl_profile p)
  else if negb (native_dim =? pl_dim p) then Some ("native_dim must match route profile " +:+ pl_profile p)
  else if bool_decide (pl_backend p ≠ DIRECT_TURBOVEC_STORAGE_PROFILE) then
    if negb (str_in (rd_class route) SUPPORTED_ROUTE_CLASSES)
    then Some ("route profile " +:+ pl_profile p +:+ " is not supported by the route registry")
    else if bool_decide (rd_template route ≠ pl_template p)
    then Some ("route registry selection must match route profile " +:+ pl_profile p)
    else None
  else None.

Definition policy_to_dict (p : EngineRoutePolicy) : pyval :=
  dict_of [("profile", PStr (pl_profile p)); ("label", PStr (pl_label p)); ("client_note", PStr (pl_note p));
           ("index_backend", PStr (pl_backend p));
           ("turbovec_bit_width", match pl_bits p with Some b => PInt b | None => PNone end);
           ("experimental", PBool (pl_experimental p))].

Definition storage_profile_for_route_policy (policy : option EngineRoutePolicy) : result string :=
  match policy with
  | Some p =>
      if bool_decide (pl_backend p ≠ DIRECT_TURBOVEC_STORAGE_PROFILE)
      then raise ValueError ("unsupported index backend: " +:+ pl_backend p)
      else Ok DIRECT_TURBOVEC_STORAGE_PROFILE
  | None => Ok DIRECT_TURBOVEC_STORAGE_PROFILE
  end.

(** ** Index state *)

Record IndexedChunk := Chunk {
  ck_id : string; ck_document : string; ck_hash : string; ck_embedding : list spec_float }.

Record ClientIndexState := ClientState {
  cs_client_id : string; cs_client_hash : string; cs_index_id : string; cs_index_key : string;
  cs_model : string; cs_provider : string; cs_task : string; cs_dim : Z; cs_name : string;
  cs_metadata : gmap string string; cs_status : string; cs_created : string; cs_updated : string;
  cs_chunks : gmap string IndexedChunk; cs_hashes : gmap string string; cs_chunk_ids : gmap string (list string);
  cs_doc_metadata : gmap string (gmap string string); cs_text : gmap string string;
  cs_tokens : gmap string (list (list string));
  cs_embedded : Z; cs_reused : Z; cs_deletes : Z; cs_deleted_chunks : Z; cs_queries : Z; cs_fallbacks : Z;
  cs_reasons : gmap string Z; cs_latency : list spec_float; cs_profile : string; cs_bits : Z }.

(** ** Identity and validation helpers *)

Definition sha256_text (value : string) : string := sha256_hex (utf8_encode value).

Definition lower_hex (c : ascii) : bool := in_range 48 57 c || in_range 97 102 c.
Definition is_sha256_hex (value : string) : bool := (slen value =? 64)%nat && forallb lower_hex (chars value).

Definition FORBIDDEN_NAMES : list string :=
  ["client_id"; "document_text"; "query_text"; "chunk_text"; "raw_document"; "raw_query"; "raw_chunk"; "raw_payload"; "text"].

(** The forbidden field names anywhere in a value, in the order they are met. *)
Fixpoint forbidden_in (payload : pyval) : list string :=
  match payload with
  | PDict d =>
      concat (map (λ kv, (if str_in (py_str kv.1) FORBIDDEN_NAMES then [py_str kv.1] else []) ++ forbidden_in kv.2) d)
  | PList l => concat (map forbidden_in l)
  | _ => []
  end.
Definition snapshot_forbidden_keys (payload : pyval) : gset string := list_to_set (forbidden_in payload).

(** [", ".join(sorted(keys))]. *)
Definition joined_keys (keys : gset string) : string := str_join ", " (sort_by str_leb (elements keys)).

Definition client_index_key (client_id : string) : string := sha256_text client_id.

(** [re.fullmatch(r"idx_[0-9a-f]{24}", value)]. *)
Definition is_generated_id (value : string) : bool :=
  startswith "idx_" value && (slen value =? 28)%nat && forallb lower_hex (drop 4 (chars value)).

Definition normalize_index_id (index_id : pyval) : result string :=
  match index_id with
  | PNone => Ok DEFAULT_INDEX_ID
  | PStr s =>
      let value := str_strip s in
      if bool_decide (value = "") then raise ValueError "index_id is required"
      else if bool_decide (value = DEFAULT_INDEX_ID) then Ok value
      else if is_generated_id value then Ok value
      else raise ValueError "index_id is invalid"
  | _ => raise ValueError "index_id must be a string"
  end.

Definition index_state_key_for_client_hash (client_id_hash index_id : string) : string :=
  if bool_decide (index_id = DEFAULT_INDEX_ID) then client_id_hash
  else sha256_text (client_id_hash +:+ ":" +:+ index_id).

(** [isinstance(value, bool | int | float | str) or value is None], with the text stored. *)
Definition metadata_text (v : pyval) : option string :=
  match v with
  | PNone => Some ""
  | PBool _ | PInt _ | PFloat _ | PStr _ => Some (py_str v)
  | _ => None
  end.

Definition validate_metadata (metadata : pyval) : result (gmap string string) :=
  match metadata with
  | PDict d =>
      let forbidden := snapshot_forbidden_keys (PDict d) in
      if bool_decide (forbidden ≠ ∅)
      then raise ValueError ("metadata contains reserved raw-payload keys: " +:+ joined_keys forbidden)
      else
        foldR (λ safe kv,
          let key_text := str_strip (py_str kv.1) in
          if bool_decide (key_text = "") then raise ValueError "metadata keys must be nonblank"
          else match metadata_text kv.2 with
               | Some t => Ok (<[key_text := t]> safe)
               | None => raise ValueError "metadata values must be scalar strings, numbers, booleans, or null"
               end) ∅ d
  | _ => raise ValueError "metadata must be an object"
  end.

Definition normalized_chunk_hash (text : string) : string := sha256_text (str_join " " (str_split text)).

Definition chunk_id_for_hash (document_id chunk_hash : string) (occurrence : Z) : string :=
  document_id +:+ ":" +:+ str_take 12 chunk_hash +:+ ":" +:+ format_04d occurrence.

(** [stripped[start : start + limit] for start in range(0, len(stripped), limit)]. *)
Fixpoint slices (fuel limit : nat) (l : list ascii) : list string :=
  match fuel, l with
  | O, _ | _, [] => []
  | S fuel, _ => of_chars (take limit l) :: slices fuel limit (drop limit l)
  end.

Definition chunk_text (text : string) (character_limit : Z) : result (list string) :=
  if character_limit <=? 0 then raise ValueError "character_limit must be positive"
  else
    let stripped := str_strip text in
    Ok (slices (slen stripped) (Z.to_nat character_limit) (chars stripped)).

Definition OBSERVABLE_STRING_FIELDS : list string :=
  ["status"; "route_classification"; "storage_profile"; "compact_backend"; "native_backend"; "retrieval_mode";
   "stage_one_backend"; "gpu_stage_one_status"; "gpu_fallback_reason"].

(** [fields] is a string-keyed dictionary. *)
Definition sanitize_observability_fields (fields : list (string * pyval)) : list (string * pyval) :=
  List.filter (λ kv, match kv.2 with
    | PBool _ | PInt _ | PFloat _ => true
    | PStr _ => str_in kv.1 OBSERVABLE_STRING_FIELDS
    | _ => false
    end) fields.

(** ** Restoring a state from a payload *)

Definition storage_profile_from_payload (value : pyval) : result string :=
  let text := py_str value in
  if bool_decide (text = DIRECT_TURBOVEC_STORAGE_PROFILE) then Ok text
  else raise ValueError "storage_profile must be turbovec_direct; standard-cascade and extreme_compact snapshots are retired".

Definition chunk_from_payload (payload : pyval) (native_dim : Z) : result IndexedChunk :=
  match payload with
  | PDict _ =>
      cid ← index_str payload "chunk_id";
      doc ← index_str payload "document_id";
      hash ← index_str payload "content_hash";
      Ok (Chunk cid doc hash (replicate (Z.to_nat native_dim) (S754_zero false)))
  | _ => raise ValueError "persisted chunk must be a JSON object"
  end.

(** [payload.get("schema_version") != 1], negated: [True] and [1.0] equal [1]. *)
Definition equals_one (v : pyval) : bool :=
  match v with
  | PInt z => z =? 1
  | PBool b => b
  | PFloat f => feqb f (float_of_Z 1)
  | _ => false
  end.

(** [payload.get(key, default)] as a list to visit. *)
Definition get_iter (payload : pyval) (key : string) : result (list pyval) :=
  v ← py_get payload key (PTuple []); py_iter v.

(** [dict(payload.get("metadata", {}) or {})]. *)
Definition get_dict (payload : pyval) (key : string) : result pydict :=
  v ← py_get payload key (PDict []); py_dict (py_or v (PDict [])).

Definition state_from_payload (payload : pyval) : result ClientIndexState :=
  match payload with
  | PDict d =>
      version ← py_get payload "schema_version" PNone;
      if negb (equals_one version) then raise ValueError "unsupported engine state schema version"
      else
        legacy ← get_str payload "client_id" "";
        hashv ← py_get payload "client_id_hash" PNone;
        let client_id_hash := py_str (py_or hashv (PStr (sha256_text legacy))) in
        idv ← get_str payload "index_id" DEFAULT_INDEX_ID;
        index_id ← normalize_index_id (PStr idv);
        keyv ← py_get payload "index_key" PNone;
        let index_key := py_str (py_or keyv (PStr (index_state_key_for_client_hash client_id_hash index_id))) in
        model ← index_str payload "model";
        provider ← index_str payload "provider";
        task ← index_str payload "task";
        dimv ← py_index payload "native_dim";
        native_dim ← py_int dimv;
        name ← get_str payload "name" DEFAULT_INDEX_NAME;
        md ← get_dict payload "metadata";
        metadata ← validate_metadata (PDict md);
        status ← get_str payload "status" ACTIVE_INDEX_STATUS;
        created ← get_str payload "created_at" LEGACY_INDEX_TIMESTAMP;
        updated ← get_str payload "updated_at" LEGACY_INDEX_TIMESTAMP;
        profilev ← py_get payload "storage_profile" (PStr "standard");
        profile ← storage_profile_from_payload profilev;
        bits ← SJ.get_int payload "turbovec_bit_width" 4;
        embedded ← SJ.get_int payload "embedded_chunk_count" 0;
        reused ← SJ.get_int payload "cache_reuse_count" 0;
        deletes ← SJ.get_int payload "delete_count" 0;
        deleted_chunks ← SJ.get_int payload "deleted_chunk_count" 0;
        queries ← SJ.get_int payload "query_count" 0;
        fallbacks ← SJ.get_int payload "fallback_count" 0;
        reasons ← SJ.payload_map d "fallback_reasons" py_int;
        lat ← get_iter payload "query_latency_ms";
        latency ← mapR py_float lat;
        rows ← get_iter payload "chunks";
        chunks ← foldR (λ m row, c ← chunk_from_payload row native_dim; Ok (<[ck_id c := c]> m)) ∅ rows;
        hashes ← SJ.payload_map d "document_hashes" (λ v, Ok (py_str v));
        chunk_ids ← SJ.payload_map d "document_chunk_ids" (λ v, l ← py_iter v; Ok (map py_str l));
        doc_metadata ← SJ.payload_map d "document_metadata"
                         (λ v, m ← py_dict (py_or v (PDict [])); validate_metadata (PDict m));
        Ok (ClientState "" client_id_hash index_id index_key model provider task native_dim name metadata status
              created updated chunks hashes chunk_ids doc_metadata ∅ ∅ embedded reused deletes deleted_chunks queries
              fallbacks reasons (drop (length latency - QUERY_LATENCY_SAMPLE_CAP) latency) profile bits)
  | _ => raise ValueError "persisted engine state must be a JSON object"
  end.

(** ** The auditor *)

Definition has_key (k : string) (v : pyval) : bool :=
  match v with PDict d => bool_decide (is_Some (dict_get k d)) | _ => false end.

Definition snapshot_contains_full_float_embeddings (payload : pyval) : result bool :=
  match payload with
  | PDict _ => rows ← get_iter payload "chunks"; Ok (existsb (has_key "embedding") rows)
  | _ => Ok false
  end.

Definition VECTOR_KEYS : list string :=
  ["stage_one_embedding"; "refit_embedding"; "compact_embedding"; "turbovec_codes"; "rerank_vector"].

Definition is_list (v : pyval) : bool := match v with PList _ => true | _ => false end.
Definition is_vector_value (v : pyval) : bool :=
  match v with PList _ => true | PDict d => existsb (λ kv, is_list kv.2) d | _ => false end.
Definition row_has_vectors (row : pyval) : bool :=
  match row with
  | PDict d => existsb (λ k, match dict_get k d with Some v => is_vector_value v | None => false end) VECTOR_KEYS
  | _ => false
  end.

Definition snapshot_contains_per_vector_json_arrays (payload : pyval) : result bool :=
  match payload with
  | PDict _ => rows ← get_iter payload "chunks"; Ok (existsb row_has_vectors rows)
  | _ => Ok false
  end.

(** A manifest embedded in the commit body; the stores call [manifest.get]. *)
Definition as_manifest (v : pyval) : result (option pydict) :=
  match v with PNone => Ok None | PDict d => Ok (Some d) | _ => no_attr v "get" end.

Record audit_row := AuditRow {
  ar_file_name : string; ar_client_hash : string; ar_index_id : string; ar_index_key : string; ar_sha256 : string;
  ar_documents : Z; ar_chunks : Z; ar_json_bytes : Z; ar_segments : option Z; ar_sidecar : option (string * Z) }.

(** The segment bodies of the journal, each scanned as it is read. *)
Definition audit_segment (st : StateJournalStore) (file_name : string) (entry : pyval) : io unit :=
  p ← SJ.validated_segment_path st entry;
  hb ← SJ.read_journal_segment p;
  let forbidden := snapshot_forbidden_keys hb.2 in
  if bool_decide (forbidden ≠ ∅)
  then fail ValueError (file_name +:+ " journal contains forbidden raw-payload keys: " +:+ joined_keys forbidden)
  else mret tt.

(** The journal part of the audit: the replayed payload and the segments replayed. *)
Definition audit_journal (st : StateJournalStore) (file_name : string) (payload : pyval) (manifest : option pydict)
    : io (pyval * option Z) :=
  on_disk ← SJ.has_manifest st;
  if bool_decide (manifest ≠ None) || on_disk then
    _ ← SJ.validate_base_checksum st manifest;
    m ← SJ.resolve_manifest st manifest;
    deltas ← lift (SJ.manifest_deltas m);
    _ ← foldIO (λ _ e, audit_segment st file_name e) tt deltas;
    d ← lift (match payload with PDict d => Ok d | v => no_attr v "get" end);
    out ← SJ.replay_onto_payload st d manifest;
    _ ← SJ.storage_file_bytes st manifest;
    mret (PDict out.1, Some out.2.1.1)
  else mret (payload, None).

(** The checks on the replayed payload, and the state it restores. *)
Definition audit_payload (file_name expected_key : string) (payload : pyval) : result ClientIndexState :=
  let forbidden := snapshot_forbidden_keys payload in
  if bool_decide (forbidden ≠ ∅)
  then raise ValueError (file_name +:+ " contains forbidden raw-payload keys: " +:+ joined_keys forbidden)
  else
    full ← snapshot_contains_full_float_embeddings payload;
    if full : bool then raise ValueError (file_name +:+ " contains full float embedding arrays")
    else
      arrays ← snapshot_contains_per_vector_json_arrays payload;
      if arrays : bool then raise ValueError (file_name +:+ " contains per-vector JSON arrays")
      else
        state ← state_from_payload payload;
        if negb (is_sha256_hex expected_key)
        then raise ValueError ("snapshot index key must be a SHA-256 hash: " +:+ file_name)
        else if bool_decide (cs_index_key state ≠ expected_key)
        then raise ValueError ("snapshot index_key does not match its key: " +:+ file_name)
        else Ok state.

Definition path_exists (p : path) : io bool := f ← is_file p; d ← is_dir p; mret (f || d).

Definition audit_snapshot_row (json_path tvim_path : path) (expected_key file_name : string)
    (json_manifest tvim_manifest : pyval) : io audit_row :=
  text ← read_text json_path;
  payload ← lift (loads text);
  manifest ← lift (as_manifest json_manifest);
  '(payload, segments) ← audit_journal (SJStore json_path false) file_name payload manifest;
  state ← lift (audit_payload file_name expected_key payload);
  sidecar ← path_exists tvim_path;
  if negb sidecar && bool_decide (cs_chunks state ≠ ∅)
  then fail ValueError (file_name +:+ " is missing required TurboVec sidecar")
  else
    side ← (if sidecar : bool then
              digest ← sha256_file tvim_path;
              size ← file_size tvim_path;
              tvim ← lift (as_manifest tvim_manifest);
              on_disk ← TV.has_manifest (TvStore tvim_path false);
              _ ← (if bool_decide (tvim ≠ None) || on_disk
                   then _ ← TV.storage_file_bytes (TvStore tvim_path false) tvim; mret tt
                   else mret tt);
              mret (Some (digest, size))
            else mret None);
    digest ← sha256_file json_path;
    size ← file_size json_path;
    mret (AuditRow file_name (cs_client_hash state) (cs_index_id state) (cs_index_key state) digest
            (Z.of_nat (base.size (cs_hashes state))) (Z.of_nat (base.size (cs_chunks state))) size segments side).

(** One commit manifest of the directory: the rows and the audited keys. *)
Definition audit_commit (directory : path) (acc : list audit_row * list string) (name : string)
    : io (list audit_row * list string) :=
  let key := str_take (slen name - slen COMMIT_MANIFEST_SUFFIX) name in
  body ← read_commit_manifest (pjoin directory name);
  match body with
  | None => mret acc
  | Some body =>
      epochv ← lift (py_index (PDict body) "base_epoch");
      epoch ← lift (py_int epochv);
      jm ← lift (py_get (PDict body) "json" PNone);
      tm ← lift (py_get (PDict body) "tvim" PNone);
      row ← audit_snapshot_row (base_json_path directory key epoch) (base_tvim_path directory key epoch) key name jm tm;
      mret (acc.1 ++ [row], acc.2 ++ [key])
  end.

Definition audit_legacy (directory : path) (audited : list string) (rows : list audit_row) (name : string)
    : io (list audit_row) :=
  let stem := json_stem name in
  if is_commit_manifest_name name || str_in name NON_INDEX_JSON_FILES || str_in stem audited then mret rows
  else
    row ← audit_snapshot_row (pjoin directory name) (pjoin directory (stem +:+ ".tvim")) stem name PNone PNone;
    mret (rows ++ [row]).

(** The rows of the passed audit; the other fields of the report are constants. *)
Definition audit_persisted_index_snapshots (directory : path) : io (list audit_row) :=
  there ← path_exists directory;
  if negb there then fail FileNotFoundError ("index snapshot directory not found: " +:+ str_join "/" (reverse directory))
  else
    dir ← is_dir directory;
    if negb dir then fail ValueError ("index snapshot path is not a directory: " +:+ str_join "/" (reverse directory))
    else
      commits ← glob_suffix directory COMMIT_MANIFEST_SUFFIX;
      '(rows, audited) ← foldIO (audit_commit directory) ([], []) commits;
      names ← glob_suffix directory ".json";
      foldIO (audit_legacy directory audited) rows names.

(** ** Route profiles *)

Definition BGE_TURBOVEC_ROUTE_PROFILE : string := "bge-turbovec".
Definition E5_SMALL_TURBOVEC_ROUTE_PROFILE : string := "e5-small-turbovec".
Definition MINILM_TURBOVEC_ROUTE_PROFILE : string := "minilm-turbovec".
Definition CLIP_TURBOVEC_ROUTE_PROFILE : string := "clip-turbovec".
Definition BGE_TURBOVEC_2BIT_ROUTE_PROFILE : string := "bge-turbovec-2bit".
Definition MINILM_TURBOVEC_2BIT_ROUTE_PROFILE : string := "minilm-turbovec-2bit".
Definition DEFAULT_ROUTE_PROFILE : string := MINILM_TURBOVEC_ROUTE_PROFILE.

Definition DIRECT_NOTE : string := "storage-first direct full-dimensional TurboVec route without PCA or rerank".
Definition CLIP_NOTE : string :=
  "shared image/text CLIP space; cross-modal cosine over the direct full-dimensional TurboVec route without PCA or rerank".
Definition BGE_2BIT_NOTE : string :=
  "half the code bytes of bge-turbovec (192 vs 384 B/embed) with a dense-reference recall discount (GovReport5K 0.8688 vs 0.9631 at top-100) but GovReport end-task qrel recall indistinguishable from 4-bit; opt-in tier for storage-constrained deployments".
Definition MINILM_2BIT_NOTE : string :=
  "half the code bytes of minilm-turbovec (96 vs 192 B/embed) with a dense-reference recall discount (GovReport5K 0.8662 vs 0.9612 at top-100) but GovReport end-task qrel recall indistinguishable from 4-bit; opt-in tier for storage-constrained deployments".

Definition CLIENT_ROUTE_POLICIES : list (string * EngineRoutePolicy) :=
  [(BGE_TURBOVEC_ROUTE_PROFILE,
    Policy BGE_TURBOVEC_ROUTE_PROFILE "BGE direct TurboVec 4-bit" DIRECT_NOTE "BAAI/bge-base-en-v1.5" "local_open"
      "direct-turbovec" 768 "direct_turbovec_full768_bw4" false "turbovec_direct" (Some 4));
   (MINILM_TURBOVEC_ROUTE_PROFILE,
    Policy MINILM_TURBOVEC_ROUTE_PROFILE "MiniLM direct TurboVec 4-bit" DIRECT_NOTE
      "sentence-transformers/all-MiniLM-L6-v2" "local_open" "direct-turbovec" 384 "direct_turbovec_full384_bw4" false
      "turbovec_direct" (Some 4));
   (E5_SMALL_TURBOVEC_ROUTE_PROFILE,
    Policy E5_SMALL_TURBOVEC_ROUTE_PROFILE "Multilingual E5-small direct TurboVec 4-bit" DIRECT_NOTE
      "intfloat/multilingual-e5-small" "local_open" "direct-turbovec" 384 "direct_turbovec_full384_bw4" false
      "turbovec_direct" (Some 4));
   (CLIP_TURBOVEC_ROUTE_PROFILE,
    Policy CLIP_TURBOVEC_ROUTE_PROFILE "CLIP direct TurboVec 4-bit (image + text)" CLIP_NOTE
      "sentence-transformers/clip-ViT-B-32" "local_open" "direct-turbovec" 512 "direct_turbovec_full512_bw4" false
      "turbovec_direct" (Some 4));
   (BGE_TURBOVEC_2BIT_ROUTE_PROFILE,
    Policy BGE_TURBOVEC_2BIT_ROUTE_PROFILE "BGE direct TurboVec 2-bit (storage-constrained opt-in)" BGE_2BIT_NOTE
      "BAAI/bge-base-en-v1.5" "local_open" "direct-turbovec" 768 "direct_turbovec_full768_bw2" false
      "turbovec_direct" (Some 2));
   (MINILM_TURBOVEC_2BIT_ROUTE_PROFILE,
    Policy MINILM_TURBOVEC_2BIT_ROUTE_PROFILE "MiniLM direct TurboVec 2-bit (storage-constrained opt-in)" MINILM_2BIT_NOTE
      "sentence-transformers/all-MiniLM-L6-v2" "local_open" "direct-turbovec" 384 "direct_turbovec_full384_bw2" true
      "turbovec_direct" (Some 2))].

Definition CLIENT_ROUTE_PROFILE_ORDER : list string :=
  [MINILM_TURBOVEC_ROUTE_PROFILE; BGE_TURBOVEC_ROUTE_PROFILE; E5_SMALL_TURBOVEC_ROUTE_PROFILE;
   CLIP_TURBOVEC_ROUTE_PROFILE; MINILM_TURBOVEC_2BIT_ROUTE_PROFILE; BGE_TURBOVEC_2BIT_ROUTE_PROFILE].

Definition lookup_policy (profile : string) : option EngineRoutePolicy :=
  snd <$> List.find (λ kp, bool_decide (kp.1 = profile)) CLIENT_ROUTE_POLICIES.

Definition route_policy_for_profile (profile : string) : result EngineRoutePolicy :=
  match lookup_policy profile with
  | Some p => Ok p
  | None => raise ValueError ("route profile must be one of: " +:+ str_join ", " CLIENT_ROUTE_PROFILE_ORDER)
  end.

Definition client_route_policy_manifest : result (list pyval) :=
  mapR (λ name, match lookup_policy name with Some p => Ok (policy_to_dict p) | None => raise KeyError (str_repr name) end)
    CLIENT_ROUTE_PROFILE_ORDER.

(** ** Chunking *)

Lemma slices_spec fuel limit l : (0 < limit)%nat → (length l ≤ fuel)%nat →
  concat (map chars (slices fuel limit l)) = l ∧
  Forall (λ s, s ≠ "" ∧ (slen s ≤ limit)%nat) (slices fuel limit l) ∧
  (∀ i s, slices fuel limit l !! i = Some s → (S i < length (slices fuel limit l))%nat → slen s = limit).
Proof.
  intros Hl. revert l; induction fuel as [|fuel IH]; intros l Hf.
  { destruct l; [|cbn in Hf; lia]. split_and!; [done|constructor|]. by intros [] s ?. }
  destruct l as [|c l]; [split_and!; [done|constructor|by intros [] s ?]|].
  cbn [slices]. set (l' := c :: l) in *.
  assert (length (drop limit l') ≤ fuel)%nat as Hd by (rewrite length_drop; cbn in *; lia).
  destruct (IH (drop limit l') Hd) as (H1 & H2 & H3).
  assert (slen (of_chars (take limit l')) = Nat.min limit (length l')) as Hs.
  { by rewrite slen_chars, chars_of_chars, length_take. }
  split_and!.
  - cbn [map concat]. rewrite chars_of_chars, H1. apply take_drop.
  - constructor; [|done]. split; [|lia]. intros E. rewrite E in Hs. cbn in Hs. lia.
  - intros [|i] s; cbn [lookup list_lookup length].
    + intros [= <-] Hlt. rewrite Hs. destruct (drop limit l') as [|x r] eqn:E.
      * destruct fuel; cbn in Hlt; lia.
      * apply (f_equal length) in E. rewrite length_drop in E. cbn [length] in E. lia.
    + intros Hi Hlt. apply (H3 i s Hi). lia.
Qed.

(** Chunking loses nothing and respects the limit: for a positive limit the chunks
    concatenate to the stripped text, each is nonempty and at most the limit, and all but the
    last have exactly the limit; a limit that is not positive raises [ValueError]. *)
Theorem chunk_text_partitions text limit :
  if limit <=? 0 then chunk_text text limit = raise ValueError "character_limit must be positive"
  else ∃ chunks, chunk_text text limit = Ok chunks ∧
    concat (map chars chunks) = chars (str_strip text) ∧
    Forall (λ c, c ≠ "" ∧ Z.of_nat (slen c) <= limit) chunks ∧
    (∀ i c, chunks !! i = Some c → (S i < length chunks)%nat → Z.of_nat (slen c) = limit).
Proof.
  unfold chunk_text. destruct (Z.leb_spec limit 0) as [|Hl]; [done|]. eexists. split; [reflexivity|].
  destruct (slices_spec (slen (str_strip text)) (Z.to_nat limit) (chars (str_strip text))) as (H1 & H2 & H3).
  { lia. } { by rewrite slen_chars. }
  split_and!; [done| |].
  - eapply Forall_impl; [exact H2|]. intros c [? ?]. split; [done|lia].
  - intros i c Hi Hlt. rewrite (H3 i c Hi Hlt). lia.
Qed.

(** ** Reserved names *)

(** The keys of a value at any depth. *)
Inductive key_in : string → pyval → Prop :=
| key_here k v d : (k, v) ∈ d → key_in (py_str k) (PDict d)
| key_dict n k v d : (k, v) ∈ d → key_in n v → key_in n (PDict d)
| key_list n v l : v ∈ l → key_in n v → key_in n (PList l).

Lemma elem_of_concat_map {A B} (f : A → list B) l y : y ∈ concat (map f l) ↔ ∃ x, x ∈ l ∧ y ∈ f x.
Proof.
  induction l as [|x l IH]; cbn [map concat].
  - split; [by intros ?%elem_of_nil|by intros (x & ?%elem_of_nil & _)].
  - rewrite elem_of_app, IH. setoid_rewrite elem_of_cons. naive_solver.
Qed.

Lemma forbidden_in_complete n v : key_in n v → n ∈ FORBIDDEN_NAMES → n ∈ forbidden_in v.
Proof.
  intros H Hn. induction H as [k v d Hin|n k v d Hin _ IH|n v l Hin _ IH]; cbn [forbidden_in]; apply elem_of_concat_map.
  - exists (k, v). split; [done|]. cbn [fst]. unfold str_in. rewrite bool_decide_eq_true_2 by done. by left.
  - exists (k, v). split; [done|]. apply elem_of_app. right. by apply IH.
  - exists v. split; [done|]. by apply IH.
Qed.

Lemma no_forbidden_keys v n : snapshot_forbidden_keys v = ∅ → n ∈ FORBIDDEN_NAMES → ¬ key_in n v.
Proof.
  intros Hv Hn Hk. pose proof (forbidden_in_complete n v Hk Hn) as Hin.
  assert (n ∈ snapshot_forbidden_keys v) as H by (by apply elem_of_list_to_set). by rewrite Hv in H.
Qed.

(** Only scalars are stored, under stripped nonblank keys. *)
Definition meta_step (safe : gmap string string) (kv : pyval * pyval) : result (gmap string string) :=
  let key_text := str_strip (py_str kv.1) in
  if bool_decide (key_text = "") then raise ValueError "metadata keys must be nonblank"
  else match metadata_text kv.2 with
       | Some t => Ok (<[key_text := t]> safe)
       | None => raise ValueError "metadata values must be scalar strings, numbers, booleans, or null"
       end.

Lemma meta_fold_keys d m m' : foldR meta_step m d = Ok m' →
  ∀ k, k ∈ dom m' ↔ k ∈ dom m ∨ ∃ kv, kv ∈ d ∧ k = str_strip (py_str kv.1).
Proof.
  revert m; induction d as [|kv d IH]; intros m H k; cbn [foldR] in H.
  - injection H as ->. split; [by left|]. intros [?|(kv & ?%elem_of_nil & _)]; done.
  - apply bind_Ok in H as (m1 & H1 & H). rewrite (IH m1 H). unfold meta_step in H1.
    case_bool_decide; [done|]. destruct (metadata_text kv.2); [|done]. injection H1 as <-.
    rewrite dom_insert. setoid_rewrite elem_of_cons. set_solver.
Qed.

Lemma meta_fold_spec d m m' : foldR meta_step m d = Ok m' →
  Forall (λ kv, str_strip (py_str kv.1) ≠ "" ∧ is_Some (metadata_text kv.2)) d.
Proof.
  revert m; induction d as [|kv d IH]; intros m H; cbn [foldR] in H; [constructor|].
  apply bind_Ok in H as (m1 & H1 & H). constructor; [|by eapply IH]. unfold meta_step in H1.
  case_bool_decide; [done|]. destruct (metadata_text kv.2); [|done]. eauto.
Qed.

Lemma foldR_value_error {S A} (f : S → A → result S) s l e :
  (∀ s x e, f s x = Err e → exn_class e = ValueError) → foldR f s l = Err e → exn_class e = ValueError.
Proof. intros Hf H. apply foldR_Err in H as (s' & x & _ & H). by eapply Hf. Qed.

(** Metadata validation: whatever the value, it either raises [ValueError] or returns a flat
    string map whose keys are exactly the stripped keys of the input; then the input has no
    reserved raw-payload key at any depth, no blank key, and only scalar or null values. *)
Theorem validate_metadata_spec v :
  match validate_metadata v with
  | Err e => exn_class e = ValueError
  | Ok m => ∃ d, v = PDict d ∧ (∀ n, n ∈ FORBIDDEN_NAMES → ¬ key_in n v) ∧
      Forall (λ kv, str_strip (py_str kv.1) ≠ "" ∧ is_Some (metadata_text kv.2)) d ∧
      ∀ k, k ∈ dom m ↔ ∃ kv, kv ∈ d ∧ k = str_strip (py_str kv.1)
  end.
Proof.
  destruct (validate_metadata v) as [m|e] eqn:E; destruct v as [| | | | | | |d|]; unfold validate_metadata in E; try done;
    try (injection E as <-; done).
  - case_bool_decide as Hf; [done|]. change (foldR meta_step ∅ d = Ok m) in E. exists d. split; [done|]. split_and!.
    + intros n Hn. apply no_forbidden_keys; [|done]. destruct (decide (snapshot_forbidden_keys (PDict d) = ∅)); [done|tauto].
    + by eapply meta_fold_spec.
    + intros k. rewrite (meta_fold_keys _ _ _ E). set_solver.
  - case_bool_decide as Hf; [by injection E as <-|]. change (foldR meta_step ∅ d = Err e) in E.
    eapply foldR_value_error; [|exact E]. intros s x e' H. unfold meta_step in H.
    case_bool_decide; [by injection H as <-|]. destruct (metadata_text x.2); [done|by injection H as <-].
Qed.

Definition reserved_ok (n : string) : bool :=
  bool_decide (str_strip (String " " n) = n) && negb (str_in (String " " n) FORBIDDEN_NAMES) &&
  negb (bool_decide (n = "")) && str_in n FORBIDDEN_NAMES.
Lemma reserved_ok_spec n : reserved_ok n = true →
  str_strip (String " " n) = n ∧ str_in (String " " n) FORBIDDEN_NAMES = false ∧ n ≠ "" ∧ str_in n FORBIDDEN_NAMES = true.
Proof.
  unfold reserved_ok. intros H. apply andb_prop in H as [H H4]. apply andb_prop in H as [H H3]. apply andb_prop in H as [H1 H2].
  apply bool_decide_eq_true_1 in H1. apply negb_true_iff in H2, H3. by apply bool_decide_eq_false_1 in H3.
Qed.
Lemma reserved_names_ok : Forall (λ n, reserved_ok n = true) FORBIDDEN_NAMES.
Proof. repeat (apply Forall_cons; split; [vm_compute; reflexivity|]). constructor. Qed.

(** The reserved-name check looks at a key before it is stripped, the stored key after: for
    every reserved name, metadata with a leading space in the key passes validation and comes out
    under the reserved name, which validation itself then rejects. *)
Theorem reserved_name_slips_through t :
  Forall (λ n, ∃ m, validate_metadata (dict_of [(String " " n, PStr t)]) = Ok m ∧ m = {[ n := t ]} ∧
                    validate_metadata (dict_of [(n, PStr t)])
                      = raise ValueError ("metadata contains reserved raw-payload keys: " +:+ n)) FORBIDDEN_NAMES.
Proof.
  eapply Forall_impl; [exact reserved_names_ok|]. intros n (Hs & Hf & Hn & Hr)%reserved_ok_spec.
  exists {[ n := t ]}. split; [|split; [done|]].
  - unfold validate_metadata, dict_of. cbn [map fst snd].
    assert (snapshot_forbidden_keys (PDict [(PStr (String " " n), PStr t)]) = ∅) as ->.
    { unfold snapshot_forbidden_keys. cbn [forbidden_in map concat fst snd py_str]. by rewrite Hf. }
    rewrite bool_decide_eq_false_2 by (intros H; by apply H). cbn [foldR fst snd py_str metadata_text].
    rewrite Hs, bool_decide_eq_false_2 by done. cbn [mbind result_bind]. by rewrite insert_empty.
  - unfold validate_metadata, dict_of. cbn [map fst snd].
    assert (snapshot_forbidden_keys (PDict [(PStr n, PStr t)]) = {[ n ]}) as ->.
    { unfold snapshot_forbidden_keys. cbn [forbidden_in map concat fst snd py_str]. rewrite Hr. cbn [app list_to_set]. set_solver. }
    rewrite bool_decide_eq_true_2 by set_solver. unfold joined_keys. rewrite elements_singleton. done.
Qed.

(** ** Identifiers *)

Lemma drop_while_hd_or {A} (f : A → bool) l : drop_while f l = [] ∨ ∃ x r, drop_while f l = x :: r ∧ f x = false.
Proof. destruct (drop_while f l) as [|x r] eqn:E; [by left|right]. exists x, r. split; [done|]. by eapply drop_while_hd. Qed.

(** A list that starts and ends outside the predicate is not stripped. *)
Lemma strip_chars_idem l : strip_chars (strip_chars l) = strip_chars l.
Proof.
  unfold strip_chars. set (r := reverse (drop_while is_space l)).
  assert (∃ k, r = k ++ drop_while is_space r) as [k Hk].
  { exists (take_while is_space r). by rewrite take_drop_while. }
  destruct (drop_while_hd_or is_space r) as [E|(x & t & E & Hx)].
  { by rewrite E. }
  assert (drop_while is_space (reverse (drop_while is_space r)) = reverse (drop_while is_space r)) as ->.
  { destruct (drop_while_hd_or is_space l) as [E'|(y & t' & E' & Hy)].
    - unfold r in E. by rewrite E' in E.
    - assert (reverse r = y :: t') as Hr by (unfold r; by rewrite reverse_involutive).
      rewrite Hk, reverse_app in Hr. destruct (reverse (drop_while is_space r)) as [|z u] eqn:Eu.
      + apply (f_equal length) in Eu. rewrite length_reverse, E in Eu. done.
      + injection Hr as -> _. by rewrite drop_while_head. }
  rewrite reverse_involutive, E. cbn [drop_while]. by rewrite Hx.
Qed.

Lemma str_strip_idem s : str_strip (str_strip s) = str_strip s.
Proof. unfold str_strip. by rewrite chars_of_chars, strip_chars_idem. Qed.

(** A public index id is normalized once and for all: the result is [default] or [idx_] with
    24 hexadecimal digits, normalizing it again returns it, and every rejection is a [ValueError]. *)
Theorem normalize_index_id_canonical v :
  match normalize_index_id v with
  | Ok id => (id = DEFAULT_INDEX_ID ∨ is_generated_id id = true) ∧ normalize_index_id (PStr id) = Ok id
  | Err e => exn_class e = ValueError
  end.
Proof.
  destruct v as [| | | |s| | | |]; cbn [normalize_index_id]; try done; [split; [by left|reflexivity]|].
  case_bool_decide as E1; [done|]. case_bool_decide as E2.
  - split; [by left|]. rewrite E2. reflexivity.
  - destruct (is_generated_id (str_strip s)) eqn:Eg; [|done]. split; [by right|]. cbn [normalize_index_id].
    rewrite str_strip_idem, !bool_decide_eq_false_2 by done. by rewrite Eg.
Qed.

(** Two lists that agree up to a separator neither part contains. *)
Lemma app_sep_inj {A} (c : A) l1 l2 r1 r2 : c ∉ r1 → c ∉ r2 → l1 ++ c :: r1 = l2 ++ c :: r2 → l1 = l2 ∧ r1 = r2.
Proof.
  intros H1 H2. revert l2; induction l1 as [|x l1 IH]; intros [|y l2] H; cbn in H.
  - by injection H as ->.
  - injection H as <- ->. exfalso. apply H1. apply elem_of_app. right. by left.
  - injection H as -> <-. exfalso. apply H2. apply elem_of_app. right. by left.
  - injection H as -> H. destruct (IH l2 H) as [-> ->]. done.
Qed.

Lemma colon_not_digits l : forallb is_digit l = true → ":"%char ∉ l.
Proof. rewrite forallb_forall. intros H Hin%list_elem_of_In%H. done. Qed.
Lemma colon_not_hex l : forallb lower_hex l = true → ":"%char ∉ l.
Proof. rewrite forallb_forall. intros H Hin%list_elem_of_In%H. done. Qed.

(** Chunk ids are unambiguous: two chunk ids built from SHA-256 content hashes are equal only
    for the same document, the same twelve-digit hash prefix and the same occurrence. *)
Theorem chunk_ids_unambiguous d1 d2 h1 h2 o1 o2 :
  is_sha256_hex h1 = true → is_sha256_hex h2 = true → 0 <= o1 → 0 <= o2 →
  chunk_id_for_hash d1 h1 o1 = chunk_id_for_hash d2 h2 o2 → d1 = d2 ∧ str_take 12 h1 = str_take 12 h2 ∧ o1 = o2.
Proof.
  intros [_ Hh1]%andb_prop [_ Hh2]%andb_prop Ho1 Ho2 H. apply (f_equal chars) in H.
  unfold chunk_id_for_hash in H. rewrite !chars_app in H. change (chars ":") with [":"%char] in H. cbn [app] in H.
  assert (∀ h, forallb lower_hex (chars h) = true → ":"%char ∉ chars (str_take 12 h)) as Hhex.
  { intros h Hh. unfold str_take. rewrite chars_of_chars. intros Hin. eapply colon_not_hex; [exact Hh|].
    by eapply elem_of_take in Hin as (i & Hi & _); apply list_elem_of_lookup_2 in Hi. }
  assert (∀ o, 0 <= o → ":"%char ∉ chars (format_04d o)) as Hdig.
  { intros o Ho. apply colon_not_digits. apply (zfill_chars 4 o Ho). }
  change (?a ++ ?c :: ?b ++ ?c :: ?e) with (a ++ [c] ++ (b ++ c :: e)) in H.
  assert (∀ d h o, chars d ++ [":"%char] ++ (chars (str_take 12 h) ++ ":"%char :: chars (format_04d o))
    = (chars d ++ ":"%char :: chars (str_take 12 h)) ++ ":"%char :: chars (format_04d o)) as Hre.
  { intros d h o. by rewrite <-(assoc_L (++)). }
  rewrite !Hre in H. apply app_sep_inj in H as [H Ho]; [|by apply Hdig|by apply Hdig].
  apply app_sep_inj in H as [Hd Hh]; [|by apply Hhex|by apply Hhex].
  split_and!; [by apply (inj chars)|by apply (inj chars)|]. apply (inj chars) in Ho. by apply (zfill_inj 4) in Ho.
Qed.

Definition sample_hash : string := of_chars (replicate 64 "a"%char).
Lemma chunk_ids_unambiguous_witness : "doc:1"%string = "doc:1"%string ∧ str_take 12 sample_hash = str_take 12 sample_hash ∧ 3 = 3.
Proof. apply (chunk_ids_unambiguous "doc:1" "doc:1" sample_hash sample_hash 3 3); [reflexivity|reflexivity|lia|lia|reflexivity]. Defined.

(** ** What a passed audit certifies *)

Lemma pure_has_manifest st : pure_io (SJ.has_manifest st).
Proof. apply pure_is_file. Qed.
Lemma pure_audit_segment st fn e : pure_io (audit_segment st fn e).
Proof.
  unfold audit_segment. apply pure_bind; [apply pure_validated|]. intros p. apply pure_bind; [apply pure_read_segment|].
  intros hb. solve_pure.
Qed.
Lemma pure_validate_base st m : pure_io (SJ.validate_base_checksum st m).
Proof.
  unfold SJ.validate_base_checksum. apply pure_bind; [apply pure_resolve|]. intros d. solve_pure.
Qed.
Lemma pure_replay_payload st d m : pure_io (SJ.replay_onto_payload st d m).
Proof.
  unfold SJ.replay_onto_payload. apply pure_bind; [apply pure_resolve|]. intros x.
  apply pure_bind; [apply pure_lift|]. intros c. apply pure_bind; [apply pure_lift|]. intros l.
  apply pure_bind; [apply pure_foldIO, pure_replay_entry|]. intros r. apply pure_ret.
Qed.
Lemma pure_sj_storage st m : pure_io (SJ.storage_file_bytes st m).
Proof.
  unfold SJ.storage_file_bytes. apply pure_bind; [destruct m; [apply pure_ret|apply pure_read_manifest_optional]|].
  intros x. solve_pure.
Qed.
Lemma pure_tv_storage st m : pure_io (TV.storage_file_bytes st m).
Proof.
  unfold TV.storage_file_bytes. apply pure_bind.
  - destruct m; [apply pure_ret|]. intros s. by rewrite tv_read_manifest_optional_run.
  - intros x. solve_pure.
Qed.
Lemma pure_audit_journal st fn p m : pure_io (audit_journal st fn p m).
Proof.
  unfold audit_journal. apply pure_bind; [apply pure_has_manifest|]. intros b. destruct (_ || _); [|apply pure_ret].
  apply pure_bind; [apply pure_validate_base|]. intros _. apply pure_bind; [apply pure_resolve|]. intros m'.
  apply pure_bind; [apply pure_lift|]. intros l. apply pure_bind; [apply pure_foldIO; intros _ e; apply pure_audit_segment|].
  intros _. apply pure_bind; [apply pure_lift|]. intros d. apply pure_bind; [apply pure_replay_payload|].
  intros out. apply pure_bind; [apply pure_sj_storage|]. intros _. apply pure_ret.
Qed.
Lemma pure_path_exists p : pure_io (path_exists p).
Proof. unfold path_exists. solve_pure. Qed.
Lemma pure_audit_row jp tp k fn jm tm : pure_io (audit_snapshot_row jp tp k fn jm tm).
Proof.
  unfold audit_snapshot_row. apply pure_bind; [apply pure_read_text|]. intros t. apply pure_bind; [apply pure_lift|]. intros v.
  apply pure_bind; [apply pure_lift|]. intros m. apply pure_bind; [apply pure_audit_journal|]. intros [v' sg].
  apply pure_bind; [apply pure_lift|]. intros c. apply pure_bind; [apply pure_path_exists|]. intros side.
  destruct (_ && _); [apply pure_fail|]. apply pure_bind; [|intros x; solve_pure].
  destruct side; [|apply pure_ret]. apply pure_bind; [apply pure_sha256_file|]. intros dg.
  apply pure_bind; [apply pure_file_size|]. intros sz. apply pure_bind; [apply pure_lift|]. intros tv.
  apply pure_bind; [apply pure_is_file|]. intros od. apply pure_bind; [|intros _; apply pure_ret].
  destruct (_ || _); [|apply pure_ret]. apply pure_bind; [apply pure_tv_storage|]. intros _. apply pure_ret.
Qed.

(** No reserved name is a key of the value, at any depth. *)
Definition payload_free (v : pyval) : Prop := ∀ n, n ∈ FORBIDDEN_NAMES → ¬ key_in n v.

(** Every segment body the journal replays is free of reserved names. *)
Lemma audit_segments_free st fn s deltas : value (foldIO (λ _ e, audit_segment st fn e) tt deltas s) = Ok tt →
  Forall (λ e, ∃ p hb, value (SJ.validated_segment_path st e s) = Ok p ∧
                       value (SJ.read_journal_segment p s) = Ok hb ∧ payload_free hb.2) deltas.
Proof.
  induction deltas as [|e deltas IH]; intros H; [constructor|]. cbn [foldIO] in H.
  apply pure_bind_Ok in H as ([] & H1 & H); [|apply pure_audit_segment]. constructor; [|by apply IH].
  unfold audit_segment in H1. apply pure_bind_Ok in H1 as (p & Hp & H1); [|apply pure_validated].
  apply pure_bind_Ok in H1 as (hb & Hhb & H1); [|apply pure_read_segment].
  case_bool_decide as Hf; [done|]. exists p, hb. split_and!; [done|done|]. intros n Hn.
  apply no_forbidden_keys; [exact Hf|done].
Qed.

(** The payload an index serves: the base snapshot with its journal replayed, if it has one. *)
Definition served_payload (s : fsys) (jp : path) (manifest : option pydict) (payload served : pyval) : Prop :=
  let st := SJStore jp false in
  (manifest = None ∧ content s (SJ.manifest_path st) = None ∧ served = payload) ∨
  (∃ d out m deltas, payload = PDict d ∧ value (SJ.replay_onto_payload st d manifest s) = Ok out ∧ served = PDict out.1 ∧
     value (SJ.resolve_manifest st manifest s) = Ok m ∧ SJ.manifest_deltas m = Ok deltas ∧
     Forall (λ e, ∃ p hb, value (SJ.validated_segment_path st e s) = Ok p ∧
                          value (SJ.read_journal_segment p s) = Ok hb ∧ payload_free hb.2) deltas).

Lemma audit_journal_served jp fn payload manifest s out :
  value (audit_journal (SJStore jp false) fn payload manifest s) = Ok out → served_payload s jp manifest payload out.1.
Proof.
  intros H. unfold audit_journal in H. apply pure_bind_Ok in H as (od & Hod & H); [|apply pure_has_manifest].
  destruct (bool_decide (manifest ≠ None) || od) eqn:E.
  - right. apply pure_bind_Ok in H as (u & _ & H); [|apply pure_validate_base].
    apply pure_bind_Ok in H as (m & Hm & H); [|apply pure_resolve].
    apply pure_bind_Ok in H as (deltas & Hd & H); [|apply pure_lift].
    apply pure_bind_Ok in H as ([] & Hsegs & H); [|apply pure_foldIO; intros _ e; apply pure_audit_segment].
    apply pure_bind_Ok in H as (d & Hpd & H); [|apply pure_lift].
    apply pure_bind_Ok in H as (o & Ho & H); [|apply pure_replay_payload].
    apply pure_bind_Ok in H as (x & _ & H); [|apply pure_sj_storage].
    cbn in H. injection H as <-. destruct payload; try done. cbn in Hpd. injection Hpd as ->.
    exists d, o, m, deltas. split_and!; try done. by eapply audit_segments_free.
  - left. cbn in H. injection H as <-. apply orb_false_elim in E as [Hm ->]. split_and!; [| |done].
    + apply bool_decide_eq_false_1 in Hm. destruct manifest; [exfalso; by apply Hm|done].
    + unfold SJ.has_manifest in Hod. rewrite is_file_run in Hod. cbn [value] in Hod.
      destruct (content s (SJ.manifest_path (SJStore jp false))) as [c|]; [|done]. by rewrite bool_decide_eq_true_2 in Hod.
Qed.

(** A chunk row carries a vector: an embedding, whatever it is, or a list (or an object with a list in it)
    under one of the names vectors are kept under. *)
Inductive carries_vector : pyval → Prop :=
| carries_embedding d v : dict_get "embedding" d = Some v → carries_vector (PDict d)
| carries_list k d l : k ∈ VECTOR_KEYS → dict_get k d = Some (PList l) → carries_vector (PDict d)
| carries_object k d o n l : k ∈ VECTOR_KEYS → dict_get k d = Some (PDict o) → (n, PList l) ∈ o → carries_vector (PDict d).

(** No chunk row of a payload carries a vector. *)
Definition vector_free (payload : pyval) : Prop :=
  ∀ d rows row, payload = PDict d → dict_get "chunks" d = Some (PList rows) → row ∈ rows → ¬ carries_vector row.

Lemma existsb_false {A} (f : A → bool) l x : existsb f l = false → x ∈ l → f x = false.
Proof. intros H Hx. apply not_true_iff_false. intros Hf. rewrite (proj2 (existsb_exists f l)) in H; [done|]. exists x. by rewrite <-list_elem_of_In. Qed.

Lemma no_vectors payload : snapshot_contains_full_float_embeddings payload = Ok false →
  snapshot_contains_per_vector_json_arrays payload = Ok false → vector_free payload.
Proof.
  intros Hf Ha d rows row -> Hrows Hin Hc. unfold snapshot_contains_full_float_embeddings, snapshot_contains_per_vector_json_arrays in *.
  assert (get_iter (PDict d) "chunks" = Ok rows) as Hg by (unfold get_iter; cbn; by rewrite Hrows).
  rewrite Hg in Hf, Ha. injection Hf as Hf. injection Ha as Ha. pose proof (existsb_false _ _ _ Hf Hin) as H1. pose proof (existsb_false _ _ _ Ha Hin) as H2.
  assert (∀ k d v, row_has_vectors (PDict d) = false → k ∈ VECTOR_KEYS → dict_get k d = Some v → is_vector_value v = false) as Hv.
  { intros k d' v Hr Hk Hd. unfold row_has_vectors in Hr. pose proof (existsb_false _ _ k Hr Hk) as H. cbn beta in H. by rewrite Hd in H. }
  destruct Hc as [d' v Hd|k d' l Hk Hd|k d' o n l Hk Hd Ho].
  - cbn in H1. by rewrite Hd in H1.
  - by specialize (Hv k d' _ H2 Hk Hd).
  - specialize (Hv k d' _ H2 Hk Hd). cbn in Hv. by pose proof (existsb_false _ _ _ Hv Ho).
Qed.

(** What a row of a passed audit says of the disk. *)
Definition certified (s : fsys) (jp tp : path) (key name : string) (jm : pyval) (row : audit_row) : Prop :=
  ∃ data text payload manifest served state,
    content s jp = Some data ∧ utf8_decode data = Ok text ∧ loads text = Ok payload ∧
    as_manifest jm = Ok manifest ∧ served_payload s jp manifest payload served ∧ payload_free served ∧
    vector_free served ∧ state_from_payload served = Ok state ∧ is_sha256_hex key = true ∧ cs_index_key state = key ∧
    (cs_chunks state ≠ ∅ → is_Some (content s tp) ∨ dir_exists s tp = true) ∧
    ar_file_name row = name ∧ ar_index_key row = key ∧ ar_sha256 row = sha256_hex data ∧
    ar_documents row = Z.of_nat (size (cs_hashes state)) ∧ ar_chunks row = Z.of_nat (size (cs_chunks state)).

Lemma audit_payload_spec fn key v state : audit_payload fn key v = Ok state →
  payload_free v ∧ vector_free v ∧ state_from_payload v = Ok state ∧
  is_sha256_hex key = true ∧ cs_index_key state = key.
Proof.
  unfold audit_payload. case_bool_decide as Hf; [done|]. intros H.
  apply bind_Ok in H as ([] & Hfull & H); [done|]. apply bind_Ok in H as ([] & Harr & H); [done|].
  apply bind_Ok in H as (st & Hst & H). destruct (is_sha256_hex key); [|done]. cbn [negb] in H.
  case_bool_decide as Hk; [done|]. injection H as ->. split_and!; [|by apply no_vectors|done..].
  intros n Hn. apply no_forbidden_keys; [exact Hf|done].
Qed.

Lemma sha256_file_Ok s p d : value (sha256_file p s) = Ok d → ∃ data, content s p = Some data ∧ d = sha256_hex data.
Proof.
  unfold sha256_file. intros H. apply pure_bind_Ok in H as (data & Hd & H); [|apply pure_read_bytes].
  unfold mret, io_ret in H. cbn [value] in H. exists data. split; [|congruence].
  unfold read_bytes in Hd. unfold content. destruct (files s !! p); [|done]. cbn in Hd |- *. congruence.
Qed.

Lemma audit_row_certified jp tp key name jm tm s row :
  value (audit_snapshot_row jp tp key name jm tm s) = Ok row → certified s jp tp key name jm row.
Proof.
  intros H. unfold audit_snapshot_row in H. apply pure_bind_Ok in H as (text & Ht & H); [|apply pure_read_text].
  apply pure_bind_Ok in H as (payload & Hp & H); [|apply pure_lift].
  apply pure_bind_Ok in H as (manifest & Hm & H); [|apply pure_lift].
  apply pure_bind_Ok in H as ([served sg] & Hj & H); [|apply pure_audit_journal].
  apply pure_bind_Ok in H as (state & Hs & H); [|apply pure_lift].
  apply pure_bind_Ok in H as (side & Hside & H); [|apply pure_path_exists].
  destruct (_ && _) eqn:Eside in H; [done|].
  assert (pure_io (if side then digest ← sha256_file tp; size ← file_size tp; tvim ← lift (as_manifest tm);
    on_disk ← TV.has_manifest (TvStore tp false);
    _ ← (if bool_decide (tvim ≠ None) || on_disk then _ ← TV.storage_file_bytes (TvStore tp false) tvim; mret tt else mret tt);
    mret (Some (digest, size)) else mret None)) as Hpure.
  { destruct side; [|apply pure_ret]. apply pure_bind; [apply pure_sha256_file|]. intros dg.
    apply pure_bind; [apply pure_file_size|]. intros sz. apply pure_bind; [apply pure_lift|]. intros tv.
    apply pure_bind; [apply pure_is_file|]. intros od. apply pure_bind; [|intros _; apply pure_ret].
    destruct (_ || _); [|apply pure_ret]. apply pure_bind; [apply pure_tv_storage|]. intros _. apply pure_ret. }
  apply pure_bind_Ok in H as (sd & _ & H); [|exact Hpure].
  apply pure_bind_Ok in H as (dg & Hdg & H); [|apply pure_sha256_file].
  apply pure_bind_Ok in H as (sz & _ & H); [|apply pure_file_size]. cbn in H. injection H as <-.
  apply sha256_file_Ok in Hdg as (data & Hdata & ->). cbn in Hp, Hm, Hs.
  apply audit_payload_spec in Hs as (Hfree & Hvec & Hst & Hkey & Hik).
  unfold read_text in Ht. apply pure_bind_Ok in Ht as (b & Hb & Ht); [|apply pure_read_bytes].
  rewrite (read_bytes_run _ _ _ Hdata) in Hb. cbn in Hb, Ht. injection Hb as <-.
  exists data, text, payload, manifest, served, state. split_and!; try done.
  - by apply audit_journal_served in Hj.
  - intros Hc. unfold path_exists in Hside. apply pure_bind_Ok in Hside as (f & Hf & Hside); [|apply pure_is_file].
    apply pure_bind_Ok in Hside as (d & Hd & Hside); [|apply pure_gets].
    rewrite is_file_run in Hf. cbn in Hf, Hd, Hside. injection Hf as <-. injection Hd as <-. injection Hside as <-.
    rewrite (bool_decide_eq_true_2 (cs_chunks state ≠ ∅)), andb_true_r in Eside by done.
    apply negb_false_iff, orb_prop in Eside as [E|E]; [left; by apply bool_decide_eq_true_1 in E|by right].
Qed.

Lemma pure_read_commit p : pure_io (read_commit_manifest p).
Proof. unfold read_commit_manifest. solve_pure. Qed.
Lemma pure_audit_commit d acc name : pure_io (audit_commit d acc name).
Proof.
  unfold audit_commit. apply pure_bind; [apply pure_read_commit|]. intros [body|]; [|apply pure_ret].
  do 4 (apply pure_bind; [apply pure_lift|]; intros ?). apply pure_bind; [apply pure_audit_row|]. intros row. apply pure_ret.
Qed.

Lemma audit_commits_certified d s names acc out : value (foldIO (audit_commit d) acc names s) = Ok out →
  ∃ rows, out.1 = acc.1 ++ rows ∧
    (∀ row, row ∈ rows → ∃ jp tp key name jm, certified s jp tp key name jm row) ∧
    ∀ name, name ∈ names → value (read_commit_manifest (pjoin d name) s) = Ok None ∨
      ∃ body epoch jm row, value (read_commit_manifest (pjoin d name) s) = Ok (Some body) ∧ row ∈ rows ∧
        (v ← py_index (PDict body) "base_epoch"; py_int v) = Ok epoch ∧ py_get (PDict body) "json" PNone = Ok jm ∧
        let key := str_take (slen name - slen COMMIT_MANIFEST_SUFFIX) name in
        certified s (base_json_path d key epoch) (base_tvim_path d key epoch) key name jm row.
Proof.
  revert acc; induction names as [|name names IH]; intros acc H; cbn [foldIO] in H.
  { cbn in H. injection H as <-. exists []. rewrite app_nil_r. split_and!; [done| |]; by intros ? ?%elem_of_nil. }
  apply pure_bind_Ok in H as (acc1 & H1 & H); [|apply pure_audit_commit].
  destruct (IH acc1 H) as (rows & Hout & Hrows & Hnames). unfold audit_commit in H1.
  apply pure_bind_Ok in H1 as (body & Hbody & H1); [|apply pure_read_commit]. destruct body as [body|].
  - apply pure_bind_Ok in H1 as (ev & Hev & H1); [|apply pure_lift].
    apply pure_bind_Ok in H1 as (epoch & Hepoch & H1); [|apply pure_lift].
    apply pure_bind_Ok in H1 as (jm & Hjm & H1); [|apply pure_lift].
    apply pure_bind_Ok in H1 as (tm & _ & H1); [|apply pure_lift].
    apply pure_bind_Ok in H1 as (row & Hrow & H1); [|apply pure_audit_row]. cbn [lift value] in Hev, Hepoch, Hjm.
    unfold mret, io_ret in H1. cbn [value] in H1. injection H1 as <-.
    apply audit_row_certified in Hrow. exists (row :: rows). cbn [fst] in Hout. rewrite Hout, <-(assoc_L (++)). split; [done|]. split.
    + intros r [->|Hr]%elem_of_cons; [by eauto 6|by apply Hrows].
    + intros n [->|Hn]%elem_of_cons.
      * right. exists body, epoch, jm, row. split_and!; [done|by left| |done|done]. rewrite Hev. exact Hepoch.
      * destruct (Hnames n Hn) as [?|(b' & e' & j' & r' & ? & ? & ? & ? & ?)]; [by left|right].
        exists b', e', j', r'. split_and!; try done. by right.
  - cbn in H1. injection H1 as <-. exists rows. split_and!; [done|done|].
    intros n [->|Hn]%elem_of_cons; [by left|by apply Hnames].
Qed.

Lemma audit_legacy_certified d s audited names rows out :
  value (foldIO (audit_legacy d audited) rows names s) = Ok out →
  ∃ more, out = rows ++ more ∧ ∀ row, row ∈ more → ∃ jp tp key name jm, certified s jp tp key name jm row.
Proof.
  revert rows; induction names as [|name names IH]; intros rows H; cbn [foldIO] in H.
  { cbn in H. injection H as <-. exists []. rewrite app_nil_r. split; [done|]. by intros ? ?%elem_of_nil. }
  assert (pure_io (audit_legacy d audited rows name)) as Hp.
  { unfold audit_legacy. destruct (_ || _); [apply pure_ret|]. apply pure_bind; [apply pure_audit_row|]. intros row. apply pure_ret. }
  apply pure_bind_Ok in H as (rows1 & H1 & H); [|exact Hp]. destruct (IH rows1 H) as (more & -> & Hmore).
  unfold audit_legacy in H1. destruct (_ || _).
  - cbn in H1. injection H1 as <-. by exists more.
  - apply pure_bind_Ok in H1 as (row & Hrow & H1); [|apply pure_audit_row]. cbn in H1. injection H1 as <-.
    apply audit_row_certified in Hrow. exists (row :: more). rewrite <-(assoc_L (++)). split; [done|].
    intros r [->|Hr]%elem_of_cons; [by eauto 6|by apply Hmore].
Qed.

(** The file names of a directory that end with a suffix, as the auditor lists them. *)
Definition listed (s : fsys) (d : path) (suffix : string) : list string :=
  match value (glob_suffix d suffix s) with Ok l => l | Err _ => [] end.

(** C11: What a passed audit certifies. If the auditor returns, then every row it reports stands
    for a snapshot whose served payload (base with the committed journal replayed) and journal
    segment bodies contain no reserved raw-payload key at any depth, whose served chunk rows carry no
    embedding and no list under the names of vectors (the bodies are searched for reserved keys alone),
    whose index key is a SHA-256 hash equal to the one the snapshot records, and whose vector
    sidecar exists when it has chunks; and every commit manifest of the directory that reads as
    a generation has such a row, for the generation it names. *)
Theorem passed_audit_certifies d s rows :
  value (audit_persisted_index_snapshots d s) = Ok rows →
  (∀ row, row ∈ rows → ∃ jp tp key name jm, certified s jp tp key name jm row) ∧
  ∀ name, name ∈ listed s d COMMIT_MANIFEST_SUFFIX →
    value (read_commit_manifest (pjoin d name) s) = Ok None ∨
    ∃ body epoch jm row, value (read_commit_manifest (pjoin d name) s) = Ok (Some body) ∧ row ∈ rows ∧
      (v ← py_index (PDict body) "base_epoch"; py_int v) = Ok epoch ∧ py_get (PDict body) "json" PNone = Ok jm ∧
      let key := str_take (slen name - slen COMMIT_MANIFEST_SUFFIX) name in
      certified s (base_json_path d key epoch) (base_tvim_path d key epoch) key name jm row.
Proof.
  intros H. unfold audit_persisted_index_snapshots in H.
  apply pure_bind_Ok in H as (there & _ & H); [|apply pure_path_exists]. destruct (negb there); [done|].
  apply pure_bind_Ok in H as (dir & _ & H); [|apply pure_gets]. destruct (negb dir); [done|].
  apply pure_bind_Ok in H as (commits & Hc & H); [|apply pure_gets].
  apply pure_bind_Ok in H as ([rows0 audited] & Hfold & H); [|apply pure_foldIO; intros; apply pure_audit_commit].
  apply pure_bind_Ok in H as (names & _ & H); [|apply pure_gets].
  destruct (audit_commits_certified d s commits ([], []) _ Hfold) as (rows1 & Hr1 & Hc1 & Hn1). cbn [fst app] in Hr1. subst rows0.
  destruct (audit_legacy_certified d s audited names rows1 rows H) as (more & -> & Hmore). split.
  - intros row [Hr|Hr]%elem_of_app; [by apply Hc1|by apply Hmore].
  - unfold listed. rewrite Hc. intros name Hname. destruct (Hn1 name Hname) as [?|(b & e & j & r & ? & ? & ? & ? & ?)]; [by left|right].
    exists b, e, j, r. split_and!; try done. apply elem_of_app. by left.
Qed.

(** A directory with one committed generation and one legacy snapshot. *)
Definition legacy_key : string := of_chars (replicate 64 "b"%char).
Definition demo_payload (key : string) : pyval :=
  dict_of [("schema_version", PInt 1); ("index_key", PStr key); ("model", PStr "m"); ("provider", PStr "p");
           ("task", PStr "t"); ("native_dim", PInt 2); ("storage_profile", PStr "turbovec_direct");
           ("metadata", dict_of [("lang", PStr "en")])].
Definition demo_snapshot (key : string) : file :=
  File (utf8_encode (of_chars (json_text compact 0 (demo_payload key)))) true.
Definition audit_disk : fsys :=
  FSys (<[ commit_manifest_path ["data"] sample_hash := File (document_bytes (build_commit_body sample_hash 3 2 0 0 None None None None)) true ]>
       (<[ base_json_path ["data"] sample_hash 2 := demo_snapshot sample_hash ]>
         {[ [legacy_key +:+ ".json"; "data"] := demo_snapshot legacy_key ]})) {[ ["data"] ]}.
Definition audited_rows : list audit_row :=
  match value (audit_persisted_index_snapshots ["data"] audit_disk) with Ok r => r | Err _ => [] end.

Lemma passed_audit_certifies_witness :
  map ar_index_key audited_rows = [sample_hash; legacy_key] ∧
  ∀ row, row ∈ audited_rows → ∃ jp tp key name jm, certified audit_disk jp tp key name jm row.
Proof.
  split; [vm_compute; reflexivity|].
  apply (passed_audit_certifies ["data"] audit_disk audited_rows). vm_compute. reflexivity.
Defined.
