(* ===== verification/Topology.v ===== *)
(** * The topology store of the knowledge graph

    [graph/_store.py]: nodes, typed edges and retained vectors in a SQLite database. The
    three tables are finite maps by primary key; a query is its [WHERE] clause, evaluated
    on every row. SQLite promises no row order without [ORDER BY]: the order of a result is
    the class [Sqlite], known only to be a permutation ([SqliteLaws]). A [with self._conn:]
    block commits at its end and rolls back on an exception ([transaction]). *)

From Stdlib Require Import Ascii String ZArith Lia SpecFloat.
From stdpp Require Import base strings gmap sets list.
From S2P Require Import Prelude Numbers PyVal Json.

(** ** Data *)

Record Node := MkNode { n_id : string; n_type : string; n_label : string; n_properties : pyval }.

Record Edge := MkEdge
  { e_id : string; e_src : string; e_relation : string; e_dst : string; e_properties : pyval }.

(** Rows without their primary key; [properties] is JSON text. *)
Record node_row := NodeRow { nr_type : string; nr_label : string; nr_properties : string }.
Record edge_row := EdgeRow
  { er_src : string; er_relation : string; er_dst : string; er_properties : string }.

(** A stored vector is an [array("f")]: its BLOB is the image of these floats. *)
Record TopologyStore := Topology
  { nodes : gmap string node_row; edges : gmap string edge_row; node_vectors : gmap string (list spec_float) }.

Definition empty_store : TopologyStore := Topology ∅ ∅ ∅.

Definition _DIRECTIONS : list string := ["both"; "in"; "out"].
Definition _IN_CHUNK : nat := 400.

(** ** Queries *)

Inductive column := col_id | col_src | col_relation | col_dst.

Inductive where_clause :=
| W_all
| W_eq (c : column) (v : string)
| W_in (c : column) (vs : list string)
| W_or (w1 w2 : where_clause)
| W_and (w1 w2 : where_clause).

Fixpoint holds (get : column → string) (w : where_clause) : bool :=
  match w with
  | W_all => true
  | W_eq c v => bool_decide (get c = v)
  | W_in c vs => bool_decide (get c ∈ vs)
  | W_or w1 w2 => holds get w1 || holds get w2
  | W_and w1 w2 => holds get w1 && holds get w2
  end.

(** [nodes] is only queried by its key. *)
Definition key_column {A} (r : string * A) (c : column) : string := r.1.
Definition edge_column (r : string * edge_row) (c : column) : string :=
  match c with
  | col_id => r.1 | col_src => er_src r.2 | col_relation => er_relation r.2 | col_dst => er_dst r.2
  end.

Class Sqlite := row_order : ∀ {A : Type}, where_clause → list A → list A.
Class SqliteLaws (SQ : Sqlite) : Prop := row_order_perm : ∀ A w (l : list A), row_order w l ≡ₚ l.

Section store.
Context {SQ : Sqlite}.

Definition select {A} (get : string * A → column → string) (w : where_clause) (t : gmap string A)
    : list (string * A) :=
  row_order w (List.filter (λ r, holds (get r) w) (map_to_list t)).

Definition _node_from_row (r : string * node_row) : result Node :=
  properties ← loads (nr_properties r.2);
  Ok (MkNode r.1 (nr_type r.2) (nr_label r.2) properties).

Definition _edge_from_row (r : string * edge_row) : result Edge :=
  properties ← loads (er_properties r.2);
  Ok (MkEdge r.1 (er_src r.2) (er_relation r.2) (er_dst r.2) properties).

(** [with self._conn:]: an exception restores the database. *)
Definition transaction {A} (m : st TopologyStore A) : st TopologyStore A := λ d,
  match m d with (Ok a, d') => (Ok a, d') | (Err e, _) => (Err e, d) end.

(** ** Nodes *)

Definition insert_node (r : string * node_row) (d : TopologyStore) : TopologyStore :=
  Topology (<[r.1 := r.2]> (nodes d)) (edges d) (node_vectors d).

Definition node_row_of (n : Node) : result (string * node_row) :=
  text ← dumps unsorted (n_properties n);
  Ok (n_id n, NodeRow (n_type n) (n_label n) text).

Definition upsert_nodes (ns : list Node) : st TopologyStore unit :=
  rows ← st_lift (mapR node_row_of ns);
  match rows with
  | [] => mret tt
  | _ => transaction (forS (λ r, st_update (insert_node r)) rows)
  end.

Definition upsert_node (n : Node) : st TopologyStore unit := upsert_nodes [n].

Definition get_node (node_id : string) (d : TopologyStore) : result (option Node) :=
  match nodes d !! node_id with
  | Some r => Some <$> _node_from_row (node_id, r)
  | None => Ok None
  end.

Definition get_nodes (node_ids : list string) (d : TopologyStore) : result (list Node) :=
  foldR (λ found batch,
      more ← mapR _node_from_row (select key_column (W_in col_id batch) (nodes d));
      Ok (found ++ more))
    [] (batches _IN_CHUNK node_ids).

(** Storing a double in an [array("f")] rounds it to binary32. *)
Definition to_float32 (f : spec_float) : spec_float :=
  match f with
  | S754_finite s m e => binary_normalize 24 128 (if s then Z.neg m else Z.pos m) e s
  | _ => f
  end.

(** The foreign key is checked when a row is inserted, not when one is updated in place. *)
Definition insert_vector (r : string * list spec_float) : st TopologyStore unit := λ d,
  if bool_decide (is_Some (node_vectors d !! r.1)) || bool_decide (is_Some (nodes d !! r.1))
  then (Ok tt, Topology (nodes d) (edges d) (<[r.1 := r.2]> (node_vectors d)))
  else (raise IntegrityError "FOREIGN KEY constraint failed", d).

Definition set_node_vectors (items : list (string * list spec_float)) : st TopologyStore unit :=
  let rows := map (λ it, (it.1, map to_float32 it.2)) items in
  match rows with
  | [] => mret tt
  | _ => transaction (forS insert_vector rows)
  end.

Definition get_node_vector (node_id : string) (d : TopologyStore) : option (list spec_float) :=
  node_vectors d !! node_id.

Definition iter_node_vectors (d : TopologyStore) : list (string * list spec_float) :=
  select key_column W_all (node_vectors d).

Definition remove_node_vector (node_id : string) : st TopologyStore unit :=
  transaction (st_update (λ d, Topology (nodes d) (edges d) (delete node_id (node_vectors d)))).

Definition incident_to (node_id : string) : where_clause :=
  W_or (W_eq col_src node_id) (W_eq col_dst node_id).

(** [DELETE FROM nodes WHERE id = ?] with its row count; [ON DELETE CASCADE] drops the vector. *)
Definition delete_node (node_id : string) : st TopologyStore bool := λ d,
  if bool_decide (is_Some (nodes d !! node_id))
  then (Ok true, Topology (delete node_id (nodes d)) (edges d) (delete node_id (node_vectors d)))
  else (Ok false, d).

Definition delete_edges (w : where_clause) (d : TopologyStore) : TopologyStore :=
  Topology (nodes d) (filter (λ r, holds (edge_column r) w = false) (edges d)) (node_vectors d).

Definition remove_node (node_id : string) : st TopologyStore (bool * list string) :=
  transaction (
    incident ← st_read (λ d, Ok (map fst (select edge_column (incident_to node_id) (edges d))));
    _ ← st_update (delete_edges (incident_to node_id));
    existed ← delete_node node_id;
    mret (existed, incident)).

Definition all_node_ids (d : TopologyStore) : list string := map fst (select key_column W_all (nodes d)).

Definition iter_nodes (d : TopologyStore) : result (list Node) :=
  mapR _node_from_row (select key_column W_all (nodes d)).

Definition node_count (d : TopologyStore) : Z := Z.of_nat (size (nodes d)).

(** ** Edges *)

Definition insert_edge (r : string * edge_row) (d : TopologyStore) : TopologyStore :=
  Topology (nodes d) (<[r.1 := r.2]> (edges d)) (node_vectors d).

Definition edge_row_of (e : Edge) : result (string * edge_row) :=
  text ← dumps unsorted (e_properties e);
  Ok (e_id e, EdgeRow (e_src e) (e_relation e) (e_dst e) text).

Definition upsert_edges (es : list Edge) : st TopologyStore unit :=
  rows ← st_lift (mapR edge_row_of es);
  match rows with
  | [] => mret tt
  | _ => transaction (forS (λ r, st_update (insert_edge r)) rows)
  end.

Definition upsert_edge (e : Edge) : st TopologyStore unit := upsert_edges [e].

Definition get_edge (edge_id : string) (d : TopologyStore) : result (option Edge) :=
  match edges d !! edge_id with
  | Some r => Some <$> _edge_from_row (edge_id, r)
  | None => Ok None
  end.

Definition remove_edge (edge_id : string) : st TopologyStore bool :=
  transaction (λ d,
    (Ok (bool_decide (is_Some (edges d !! edge_id))),
     Topology (nodes d) (delete edge_id (edges d)) (node_vectors d))).

Definition iter_edges (d : TopologyStore) : result (list Edge) :=
  mapR _edge_from_row (select edge_column W_all (edges d)).

Definition edge_count (d : TopologyStore) : Z := Z.of_nat (size (edges d)).

(** ** Traversal *)

(** The clause one batch of ids gives. *)
Definition edges_where (direction : string) (relation : option string) (batch : list string) : where_clause :=
  let w := if bool_decide (direction = "out") then W_in col_src batch
           else if bool_decide (direction = "in") then W_in col_dst batch
           else W_or (W_in col_src batch) (W_in col_dst batch) in
  match relation with
  | Some r => W_and w (W_eq col_relation r)
  | None => w
  end.

Definition edges_for (node_ids : list string) (direction : string) (relation : option string)
    (d : TopologyStore) : result (list Edge) :=
  if negb (str_in direction _DIRECTIONS)
  then raise ValueError ("direction must be one of ['both', 'in', 'out'], got " +:+ str_repr direction)
  else
    found ← foldR (λ found batch,
        foldR (λ found r, edge ← _edge_from_row r; Ok (put_item (e_id edge) edge found))
          found (select edge_column (edges_where direction relation batch) (edges d)))
      [] (batches _IN_CHUNK node_ids);
    Ok (map snd found).

Definition neighbors (node_id : string) (direction : string) (relation : option string)
    (d : TopologyStore) : result (list Edge) :=
  edges_for [node_id] direction relation d.
End store.

(** ** The graph a store stands for *)

Record graph := Graph
  { g_nodes : gmap string (string * string * pyval);
    g_edges : gmap string (string * string * string * pyval);
    g_vectors : gmap string (list spec_float) }.

Definition parsed (text : string) : pyval := match loads text with Ok v => v | Err _ => PNone end.
Definition node_data (r : node_row) : string * string * pyval := (nr_type r, nr_label r, parsed (nr_properties r)).
Definition edge_data (r : edge_row) : string * string * string * pyval :=
  (er_src r, er_relation r, er_dst r, parsed (er_properties r)).
Definition view (d : TopologyStore) : graph :=
  Graph (node_data <$> nodes d) (edge_data <$> edges d) (node_vectors d).

(** Every text parses and every vector belongs to a node. *)
Definition wf (d : TopologyStore) : Prop :=
  map_Forall (λ _ r, is_Ok (loads (nr_properties r))) (nodes d) ∧
  map_Forall (λ _ r, is_Ok (loads (er_properties r))) (edges d) ∧
  dom (node_vectors d) ⊆ dom (nodes d).

Inductive mutation :=
| UpsertNodes (ns : list Node)
| UpsertEdges (es : list Edge)
| SetVectors (items : list (string * list spec_float))
| DropVector (node_id : string)
| RemoveNode (node_id : string)
| RemoveEdge (edge_id : string).

Inductive answer := Done | Existed (b : bool) | Removed (existed : bool) (edge_ids : gset string).

Definition mutation_ok (m : mutation) : Prop :=
  match m with
  | UpsertNodes ns => Forall (λ n, json_ok (n_properties n) = true) ns
  | UpsertEdges es => Forall (λ e, json_ok (e_properties e) = true) es
  | _ => True
  end.

Definition run {SQ : Sqlite} (m : mutation) : st TopologyStore answer :=
  match m with
  | UpsertNodes ns => _ ← upsert_nodes ns; mret Done
  | UpsertEdges es => _ ← upsert_edges es; mret Done
  | SetVectors items => _ ← set_node_vectors items; mret Done
  | DropVector x => _ ← remove_node_vector x; mret Done
  | RemoveNode x => r ← remove_node x; mret (Removed r.1 (list_to_set r.2))
  | RemoveEdge x => b ← remove_edge x; mret (Existed b)
  end.

Fixpoint run_all {SQ : Sqlite} (ms : list mutation) (d : TopologyStore) : list (result answer) * TopologyStore :=
  match ms with
  | [] => ([], d)
  | m :: ms => let '(r, d') := run m d in let '(rs, d'') := run_all ms d' in (r :: rs, d'')
  end.

(** The same on graphs. *)
Definition g_put_node (g : graph) (n : Node) : graph :=
  Graph (<[n_id n := (n_type n, n_label n, jsonify (n_properties n))]> (g_nodes g)) (g_edges g) (g_vectors g).
Definition g_put_edge (g : graph) (e : Edge) : graph :=
  Graph (g_nodes g) (<[e_id e := (e_src e, e_relation e, e_dst e, jsonify (e_properties e))]> (g_edges g))
    (g_vectors g).
Definition g_put_vector (g : graph) (it : string * list spec_float) : graph :=
  Graph (g_nodes g) (g_edges g) (<[it.1 := map to_float32 it.2]> (g_vectors g)).
Definition g_incident (x : string) (e : string * string * string * pyval) : bool :=
  bool_decide (e.1.1.1 = x) || bool_decide (e.1.2 = x).

Definition spec (m : mutation) (g : graph) : result answer * graph :=
  match m with
  | UpsertNodes ns => (Ok Done, fold_left g_put_node ns g)
  | UpsertEdges es => (Ok Done, fold_left g_put_edge es g)
  | SetVectors items =>
      if forallb (λ it, bool_decide (it.1 ∈ dom (g_nodes g))) items
      then (Ok Done, fold_left g_put_vector items g)
      else (raise IntegrityError "FOREIGN KEY constraint failed", g)
  | DropVector x => (Ok Done, Graph (g_nodes g) (g_edges g) (delete x (g_vectors g)))
  | RemoveNode x =>
      (Ok (Removed (bool_decide (x ∈ dom (g_nodes g)))
             (dom (filter (λ r : string * _, g_incident x r.2 = true) (g_edges g)))),
       Graph (delete x (g_nodes g)) (filter (λ r : string * _, g_incident x r.2 = false) (g_edges g))
         (delete x (g_vectors g)))
  | RemoveEdge x =>
      (Ok (Existed (bool_decide (x ∈ dom (g_edges g)))), Graph (g_nodes g) (delete x (g_edges g)) (g_vectors g))
  end.

Fixpoint spec_all (ms : list mutation) (g : graph) : list (result answer) * graph :=
  match ms with
  | [] => ([], g)
  | m :: ms => let '(r, g') := spec m g in let '(rs, g'') := spec_all ms g' in (r :: rs, g'')
  end.

(** ** Lemmas *)

Lemma parsed_Ok text : is_Ok (loads text) → loads text = Ok (parsed text).
Proof. unfold parsed. by intros [v ->]. Qed.

Section lemmas.
Context {SQ : Sqlite} {SL : SqliteLaws SQ}.

Lemma elem_of_select {A} (get : string * A → column → string) w t x :
  x ∈ select get w t ↔ t !! x.1 = Some x.2 ∧ holds (get x) w = true.
Proof.
  unfold select. rewrite (row_order_perm _ w), list_elem_of_In, filter_In, <-list_elem_of_In.
  destruct x as [k v]. by rewrite elem_of_map_to_list.
Qed.

Lemma select_keys_NoDup {A} (get : string * A → column → string) w (t : gmap string A) :
  NoDup (map fst (select get w t)).
Proof.
  unfold select. rewrite (row_order_perm _ w). apply (sublist_NoDup _ (map fst (map_to_list t))).
  - apply NoDup_fst_map_to_list.
  - generalize (map_to_list t). intros l. induction l as [|x l IH]; simpl; [done|].
    destruct (holds (get x) w); simpl; by constructor.
Qed.

Definition node_of (r : string * node_row) : Node := MkNode r.1 (nr_type r.2) (nr_label r.2) (parsed (nr_properties r.2)).
Definition edge_of (r : string * edge_row) : Edge :=
  MkEdge r.1 (er_src r.2) (er_relation r.2) (er_dst r.2) (parsed (er_properties r.2)).

Lemma node_from_row_wf d x r : wf d → nodes d !! x = Some r → _node_from_row (x, r) = Ok (node_of (x, r)).
Proof. intros (H & _ & _) Hx. unfold _node_from_row. cbn [fst snd]. by rewrite (parsed_Ok _ (H _ _ Hx)). Qed.
Lemma edge_from_row_wf d x r : wf d → edges d !! x = Some r → _edge_from_row (x, r) = Ok (edge_of (x, r)).
Proof. intros (_ & H & _) Hx. unfold _edge_from_row. cbn [fst snd]. by rewrite (parsed_Ok _ (H _ _ Hx)). Qed.

Lemma node_rows_wf d w : wf d →
  mapR _node_from_row (select key_column w (nodes d)) = Ok (map node_of (select key_column w (nodes d))).
Proof.
  intros Hwf. rewrite <-mapR_total. apply mapR_ext, Forall_forall. intros [x r] [Hx _]%elem_of_select.
  by apply (node_from_row_wf d).
Qed.
Lemma edge_rows_wf d w : wf d →
  mapR _edge_from_row (select edge_column w (edges d)) = Ok (map edge_of (select edge_column w (edges d))).
Proof.
  intros Hwf. rewrite <-mapR_total. apply mapR_ext, Forall_forall. intros [x r] [Hx _]%elem_of_select.
  by apply (edge_from_row_wf d).
Qed.

Lemma node_row_of_ok n : json_ok (n_properties n) = true →
  ∃ text, node_row_of n = Ok (n_id n, NodeRow (n_type n) (n_label n) text) ∧ loads text = Ok (jsonify (n_properties n)).
Proof.
  intros [Hd Hl]%loads_dumps_unsorted. unfold node_row_of. rewrite Hd. by eexists.
Qed.
Lemma edge_row_of_ok e : json_ok (e_properties e) = true →
  ∃ text, edge_row_of e = Ok (e_id e, EdgeRow (e_src e) (e_relation e) (e_dst e) text) ∧
    loads text = Ok (jsonify (e_properties e)).
Proof.
  intros [Hd Hl]%loads_dumps_unsorted. unfold edge_row_of. rewrite Hd. by eexists.
Qed.

(** *** Upserts *)

Lemma insert_node_wf d n text : wf d → loads text = Ok (jsonify (n_properties n)) →
  let d' := insert_node (n_id n, NodeRow (n_type n) (n_label n) text) d in
  wf d' ∧ view d' = g_put_node (view d) n.
Proof.
  intros (H1 & H2 & H3) Hl. split.
  - split_and!; [|done|]; cbn.
    + apply map_Forall_insert_2; [|done]. cbn. rewrite Hl. by eexists.
    + rewrite dom_insert. set_solver.
  - unfold view, g_put_node; cbn. rewrite fmap_insert. unfold node_data at 1, parsed; cbn. by rewrite Hl.
Qed.
Lemma insert_edge_wf d e text : wf d → loads text = Ok (jsonify (e_properties e)) →
  let d' := insert_edge (e_id e, EdgeRow (e_src e) (e_relation e) (e_dst e) text) d in
  wf d' ∧ view d' = g_put_edge (view d) e.
Proof.
  intros (H1 & H2 & H3) Hl. split.
  - split_and!; [done| |done]; cbn. apply map_Forall_insert_2; [|done]. cbn. rewrite Hl. by eexists.
  - unfold view, g_put_edge; cbn. rewrite fmap_insert. unfold edge_data at 1, parsed; cbn. by rewrite Hl.
Qed.

(** Writing prepared rows, one relation to the graph kept along the loop. *)
Lemma upsert_rows {A R} (row : A → result R) (ins : R → TopologyStore → TopologyStore) (gput : graph → A → graph) l d :
  wf d → Forall (λ x, ∃ r, row x = Ok r ∧ ∀ d, wf d → wf (ins r d) ∧ view (ins r d) = gput (view d) x) l →
  ∃ rows d', mapR row l = Ok rows ∧ transaction (forS (λ r, st_update (ins r)) rows) d = (Ok tt, d') ∧
    (rows = [] → d' = d) ∧ wf d' ∧ view d' = fold_left gput l (view d).
Proof.
  intros Hwf HF. assert (∃ rows, mapR row l = Ok rows ∧
    wf (fold_left (λ d r, ins r d) rows d) ∧ view (fold_left (λ d r, ins r d) rows d) = fold_left gput l (view d))
    as (rows & Hr & Hw & Hv).
  { revert d Hwf. induction HF as [|x l (r & Hr & Hd) _ IH]; intros d Hwf; [by exists []|].
    destruct (Hd d Hwf) as [Hw Hv]. destruct (IH _ Hw) as (rows & Hrs & Hw' & Hv').
    exists (r :: rows). cbn. rewrite Hr. cbn. rewrite Hrs. cbn. by rewrite Hv', Hv. }
  exists rows, (fold_left (λ d r, ins r d) rows d). split; [done|]. split; [|split; [by intros ->|done]].
  unfold transaction. by rewrite (forS_total _ ins).
Qed.

Lemma upsert_nodes_refines ns d : wf d → Forall (λ n, json_ok (n_properties n) = true) ns →
  ∃ d', upsert_nodes ns d = (Ok tt, d') ∧ wf d' ∧ view d' = fold_left g_put_node ns (view d).
Proof.
  intros Hwf HF. destruct (upsert_rows node_row_of insert_node g_put_node ns d) as (rows & d' & Hr & Ht & He & Hw & Hv);
    [done| |].
  { eapply Forall_impl; [exact HF|]. intros n (text & Hn & Hl)%node_row_of_ok. eexists. split; [exact Hn|].
    intros d0 Hd0. by apply insert_node_wf. }
  exists d'. split; [|done]. unfold upsert_nodes, mbind, st_bind, st_lift. rewrite Hr. destruct rows; [|done].
  by rewrite (He eq_refl).
Qed.
Lemma upsert_edges_refines es d : wf d → Forall (λ e, json_ok (e_properties e) = true) es →
  ∃ d', upsert_edges es d = (Ok tt, d') ∧ wf d' ∧ view d' = fold_left g_put_edge es (view d).
Proof.
  intros Hwf HF. destruct (upsert_rows edge_row_of insert_edge g_put_edge es d) as (rows & d' & Hr & Ht & He & Hw & Hv);
    [done| |].
  { eapply Forall_impl; [exact HF|]. intros n (text & Hn & Hl)%edge_row_of_ok. eexists. split; [exact Hn|].
    intros d0 Hd0. by apply insert_edge_wf. }
  exists d'. split; [|done]. unfold upsert_edges, mbind, st_bind, st_lift. rewrite Hr. destruct rows; [|done].
  by rewrite (He eq_refl).
Qed.

(** *** Vectors *)

Lemma insert_vector_wf d r : wf d →
  insert_vector r d = if bool_decide (is_Some (nodes d !! r.1))
                      then (Ok tt, Topology (nodes d) (edges d) (<[r.1 := r.2]> (node_vectors d)))
                      else (raise IntegrityError "FOREIGN KEY constraint failed", d).
Proof.
  intros (_ & _ & H). unfold insert_vector. case_bool_decide as Hv; [|done]. cbn [orb].
  rewrite bool_decide_eq_true_2; [done|]. apply elem_of_dom, H. by apply elem_of_dom.
Qed.

Lemma put_vector_wf d x v : wf d → is_Some (nodes d !! x) →
  wf (Topology (nodes d) (edges d) (<[x := v]> (node_vectors d))).
Proof.
  intros (H1 & H2 & H3) Hx. split_and!; [done..|]. cbn. rewrite dom_insert. apply elem_of_dom in Hx. set_solver.
Qed.

Lemma insert_vectors items d : wf d →
  if forallb (λ it, bool_decide (it.1 ∈ dom (nodes d))) items
  then ∃ d', forS insert_vector (map (λ it, (it.1, map to_float32 it.2)) items) d = (Ok tt, d') ∧ wf d' ∧
         view d' = fold_left g_put_vector items (view d)
  else ∃ d', forS insert_vector (map (λ it, (it.1, map to_float32 it.2)) items) d
             = (raise IntegrityError "FOREIGN KEY constraint failed", d').
Proof.
  revert d; induction items as [|[x v] items IH]; intros d Hwf; [by exists d|].
  cbn [map forS forallb fst snd]. unfold mbind, st_bind. rewrite insert_vector_wf by done. cbn [fst snd].
  destruct (decide (x ∈ dom (nodes d))) as [Hx|Hx].
  - rewrite (bool_decide_eq_true_2 _ Hx). cbn [andb]. apply elem_of_dom in Hx. rewrite bool_decide_eq_true_2 by done.
    exact (IH _ (put_vector_wf _ _ _ Hwf Hx)).
  - rewrite (bool_decide_eq_false_2 _ Hx). cbn [andb]. rewrite bool_decide_eq_false_2; [by eexists|].
    by rewrite <-elem_of_dom.
Qed.

(** *** Removals *)

Lemma incident_holds x (r : string * edge_row) :
  holds (edge_column r) (incident_to x) = g_incident x (edge_data r.2).
Proof. done. Qed.

Lemma incident_ids x d i :
  i ∈ map fst (select edge_column (incident_to x) (edges d))
  ↔ ∃ r, edges d !! i = Some r ∧ (er_src r = x ∨ er_dst r = x).
Proof.
  rewrite list_elem_of_fmap. split.
  - intros ([k r] & -> & [Hr Hh]%elem_of_select). exists r. split; [done|]. cbn in Hh.
    by rewrite orb_true_iff, !bool_decide_eq_true in Hh.
  - intros (r & Hr & Hx). exists (i, r). split; [done|]. apply elem_of_select. split; [done|]. cbn.
    by rewrite orb_true_iff, !bool_decide_eq_true.
Qed.

Lemma kept_edges x d i r :
  edges (delete_edges (incident_to x) d) !! i = Some r ↔ edges d !! i = Some r ∧ er_src r ≠ x ∧ er_dst r ≠ x.
Proof. cbn. rewrite map_lookup_filter_Some. cbn. by rewrite orb_false_iff, !bool_decide_eq_false. Qed.

Lemma remove_node_eq x d : remove_node x d =
  (Ok (bool_decide (is_Some (nodes d !! x)), map fst (select edge_column (incident_to x) (edges d))),
   if bool_decide (is_Some (nodes d !! x))
   then Topology (delete x (nodes d)) (edges (delete_edges (incident_to x) d)) (delete x (node_vectors d))
   else delete_edges (incident_to x) d).
Proof.
  unfold remove_node, transaction, mbind, st_bind, st_read, st_update, delete_node, delete_edges. cbn.
  by destruct (bool_decide (is_Some (nodes d !! x))).
Qed.

Lemma remove_node_wf x d : wf d →
  (remove_node x d).2 = Topology (delete x (nodes d)) (edges (delete_edges (incident_to x) d)) (delete x (node_vectors d)).
Proof.
  intros (_ & _ & H). rewrite remove_node_eq. cbn [snd]. case_bool_decide as Hx; [done|].
  apply eq_None_not_Some in Hx. unfold delete_edges. cbn. rewrite !delete_id; [done| |done].
  apply not_elem_of_dom. intros Hv%H. by apply not_elem_of_dom in Hx.
Qed.

Lemma run_remove_node x d : wf d →
  ∃ d', run (RemoveNode x) d = ((spec (RemoveNode x) (view d)).1, d') ∧ wf d' ∧ view d' = (spec (RemoveNode x) (view d)).2.
Proof.
  intros Hwf. exists (remove_node x d).2. cbn [run spec fst snd]. unfold mbind, st_bind.
  rewrite remove_node_eq. cbn [fst snd]. split; [|].
  - unfold mret, st_ret. f_equal. f_equal. f_equal.
    + apply bool_decide_ext. cbn. by rewrite dom_fmap, elem_of_dom.
    + apply set_eq. intros e. rewrite elem_of_list_to_set, elem_of_dom, list_elem_of_fmap. split.
      * intros ([k r] & -> & [Hk Hh]%elem_of_select). exists (edge_data r). apply map_lookup_filter_Some.
        split; [|exact Hh]. cbn in Hk |- *. by rewrite lookup_fmap, Hk.
      * intros [v [Hv Hh]%map_lookup_filter_Some]. cbn in Hv. rewrite lookup_fmap, fmap_Some in Hv.
        destruct Hv as (r & Hr & ->). exists (e, r). split; [done|]. by apply elem_of_select.
  - pose proof (remove_node_wf x d Hwf) as E. rewrite remove_node_eq in E. cbn [snd] in E. rewrite E.
    destruct Hwf as (H1 & H2 & H3). split.
    + split_and!; cbn.
      * by apply map_Forall_delete.
      * intros k r [Hk _]%map_lookup_filter_Some. by apply (H2 k).
      * rewrite !dom_delete. set_solver.
    + unfold view. cbn. rewrite fmap_delete. f_equal. apply map_eq. intros k.
      apply option_eq. intros e. rewrite lookup_fmap, fmap_Some, map_lookup_filter_Some, lookup_fmap, fmap_Some. split.
      * intros (r & [Hk Hh]%map_lookup_filter_Some & ->). split; [by exists r|exact Hh].
      * intros [(r & Hk & ->) Hh]. exists r. split; [|done]. by apply map_lookup_filter_Some.
Qed.

(** *** Every mutation is the one of the graph *)

Lemma run_refines m d : wf d → mutation_ok m →
  ∃ d', run m d = ((spec m (view d)).1, d') ∧ wf d' ∧ view d' = (spec m (view d)).2.
Proof.
  intros Hwf Hm. destruct m as [ns|es|items|x|x|x]; [..|by apply run_remove_node|].
  - destruct (upsert_nodes_refines ns d Hwf Hm) as (d' & Hr & ? & ?). exists d'. split; [|done].
    cbn [run]. unfold mbind, st_bind. by rewrite Hr.
  - destruct (upsert_edges_refines es d Hwf Hm) as (d' & Hr & ? & ?). exists d'. split; [|done].
    cbn [run]. unfold mbind, st_bind. by rewrite Hr.
  - cbn [run spec]. pose proof (insert_vectors items d Hwf) as H.
    assert (dom (g_nodes (view d)) = dom (nodes d)) as -> by (cbn; apply dom_fmap_L).
    unfold mbind, st_bind, set_node_vectors. destruct (forallb _ items) eqn:E.
    + destruct H as (d' & Hr & ? & Hv). exists d'. split; [|done]. destruct items as [|it items].
      * cbn in Hr |- *. unfold mret, st_ret in *. by injection Hr as <-.
      * cbn [map] in Hr |- *. unfold transaction. by rewrite Hr.
    + destruct H as (d' & Hr). exists d. split; [|done]. destruct items as [|it items]; [done|].
      cbn [map] in Hr |- *. unfold transaction. by rewrite Hr.
  - eexists. cbn. split; [done|]. destruct Hwf as (H1 & H2 & H3). split; [|done].
    split_and!; [done..|]. cbn. rewrite dom_delete. set_solver.
  - eexists. cbn. unfold mbind, st_bind, remove_edge, transaction, mret, st_ret. split.
    + do 3 f_equal. apply bool_decide_ext. by rewrite dom_fmap, elem_of_dom.
    + destruct Hwf as (H1 & H2 & H3). split.
      * split_and!; [done| |done]. by apply map_Forall_delete.
      * unfold view. cbn. by rewrite fmap_delete.
Qed.

(** *** Batched reads *)

Lemma elem_of_batches (n : nat) (x : string) l : 0 < n → (∃ b, b ∈ batches n l ∧ x ∈ b) ↔ x ∈ l.
Proof.
  intros Hn. transitivity (x ∈ concat (batches n l)); [|by rewrite concat_batches].
  rewrite !list_elem_of_In, in_concat. split; intros (b & Hb & Hx); exists b; by rewrite ?list_elem_of_In in *.
Qed.

Lemma get_nodes_eq ids d : wf d →
  get_nodes ids d
  = Ok (concat (map (λ b, map node_of (select key_column (W_in col_id b) (nodes d))) (batches _IN_CHUNK ids))).
Proof.
  intros Hwf. unfold get_nodes. set (bs := batches _IN_CHUNK ids). clearbody bs.
  assert (∀ acc, foldR (λ found batch,
      more ← mapR _node_from_row (select key_column (W_in col_id batch) (nodes d)); Ok (found ++ more)) acc bs
    = Ok (acc ++ concat (map (λ b, map node_of (select key_column (W_in col_id b) (nodes d))) bs))) as H.
  { induction bs as [|b bs IH]; intros acc; cbn [foldR map concat]; [by rewrite app_nil_r|].
    rewrite node_rows_wf by done. cbn. by rewrite IH, <-(assoc_L (++)). }
  apply H.
Qed.

Lemma edges_fold d rows acc : wf d → Forall (λ r, edges d !! r.1 = Some r.2) rows →
  foldR (λ found r, edge ← _edge_from_row r; Ok (put_item (e_id edge) edge found)) acc rows
  = Ok (put_items acc (map (λ r, (r.1, edge_of r)) rows)).
Proof.
  intros Hwf HF. revert acc. induction HF as [|[x r] rows Hr _ IH]; intros acc; [done|].
  cbn [foldR map]. rewrite (edge_from_row_wf d) by done. cbn. apply IH.
Qed.

Definition matches (direction : string) (relation : option string) (ids : list string) (r : string * edge_row) : bool :=
  holds (edge_column r) (edges_where direction relation ids).

Lemma edges_for_eq ids direction relation d : wf d → direction ∈ _DIRECTIONS →
  edges_for ids direction relation d
  = Ok (map snd (put_items [] (map (λ r, (r.1, edge_of r))
      (concat (map (λ b, select edge_column (edges_where direction relation b) (edges d)) (batches _IN_CHUNK ids)))))).
Proof.
  intros Hwf Hd. unfold edges_for, str_in. rewrite bool_decide_eq_true_2 by done. cbn [negb].
  set (bs := batches _IN_CHUNK ids). clearbody bs.
  assert (∀ acc, foldR (λ found batch,
        foldR (λ found r, edge ← _edge_from_row r; Ok (put_item (e_id edge) edge found))
          found (select edge_column (edges_where direction relation batch) (edges d))) acc bs
    = Ok (put_items acc (map (λ r, (r.1, edge_of r))
        (concat (map (λ b, select edge_column (edges_where direction relation b) (edges d)) bs))))) as H.
  { induction bs as [|b bs IH]; intros acc; cbn [foldR map concat]; [done|].
    rewrite (edges_fold d); [|done|]. 2:{ apply Forall_forall. by intros r [? _]%elem_of_select. }
    cbn. rewrite IH. unfold put_items. by rewrite map_app, fold_left_app. }
  rewrite H. done.
Qed.

(** A batch list matches an edge exactly when some batch does. *)
Lemma matches_batches direction relation ids r :
  (∃ b, b ∈ batches _IN_CHUNK ids ∧ matches direction relation b r = true)
  ↔ matches direction relation ids r = true.
Proof.
  assert (∀ c, (∃ b, b ∈ batches _IN_CHUNK ids ∧ holds (edge_column r) (W_in c b) = true)
    ↔ holds (edge_column r) (W_in c ids) = true) as Hin.
  { intros c. cbn [holds]. rewrite bool_decide_eq_true, <-(elem_of_batches _IN_CHUNK) by (unfold _IN_CHUNK; lia).
    split; intros (b & Hb & Hx); exists b; by rewrite bool_decide_eq_true in *. }
  unfold matches, edges_where.
  assert (∀ f : list string → where_clause,
    ((∃ b, b ∈ batches _IN_CHUNK ids ∧ holds (edge_column r) (f b) = true) ↔ holds (edge_column r) (f ids) = true) →
    (∃ b, b ∈ batches _IN_CHUNK ids ∧
      holds (edge_column r) (match relation with Some x => W_and (f b) (W_eq col_relation x) | None => f b end) = true)
    ↔ holds (edge_column r) (match relation with Some x => W_and (f ids) (W_eq col_relation x) | None => f ids end) = true)
    as Hrel.
  { intros f Hf. destruct relation as [x|]; [|done]. cbn [holds]. rewrite andb_true_iff, <-Hf.
    setoid_rewrite andb_true_iff. naive_solver. }
  case_bool_decide; [apply (Hrel (W_in col_src)), Hin|]. case_bool_decide; [apply (Hrel (W_in col_dst)), Hin|].
  apply (Hrel (λ b, W_or (W_in col_src b) (W_in col_dst b))). cbn [holds]. rewrite orb_true_iff.
  setoid_rewrite orb_true_iff. pose proof (Hin col_src) as H1. pose proof (Hin col_dst) as H2. cbn [holds] in H1, H2.
  naive_solver.
Qed.

Lemma get_edge_wf d x e : wf d →
  get_edge x d = Ok (Some e) ↔ ∃ r, edges d !! x = Some r ∧ e = edge_of (x, r).
Proof.
  intros Hwf. unfold get_edge. destruct (edges d !! x) as [r|] eqn:E; [|naive_solver].
  rewrite (edge_from_row_wf d) by done. cbn. naive_solver.
Qed.
Lemma get_node_wf d x n : wf d →
  get_node x d = Ok (Some n) ↔ ∃ r, nodes d !! x = Some r ∧ n = node_of (x, r).
Proof.
  intros Hwf. unfold get_node. destruct (nodes d !! x) as [r|] eqn:E; [|naive_solver].
  rewrite (node_from_row_wf d) by done. cbn. naive_solver.
Qed.

(** The ends of an edge a direction looks at. *)
Definition touches (direction : string) (ids : list string) (e : Edge) : Prop :=
  (direction ≠ "in" ∧ e_src e ∈ ids) ∨ (direction ≠ "out" ∧ e_dst e ∈ ids).
Definition related (relation : option string) (e : Edge) : Prop :=
  match relation with Some x => e_relation e = x | None => True end.

Lemma matches_spec direction relation ids r : direction ∈ _DIRECTIONS →
  matches direction relation ids r = true ↔ touches direction ids (edge_of r) ∧ related relation (edge_of r).
Proof.
  intros Hd. unfold matches, edges_where, touches, related.
  assert (∀ w, holds (edge_column r) (match relation with Some x => W_and w (W_eq col_relation x) | None => w end) = true
    ↔ holds (edge_column r) w = true ∧ match relation with Some x => e_relation (edge_of r) = x | None => True end) as Hrel.
  { intros w. destruct relation; cbn [holds]; [|tauto]. by rewrite andb_true_iff, bool_decide_eq_true. }
  unfold _DIRECTIONS in Hd.
  case_bool_decide as Ho; [|case_bool_decide as Hi]; rewrite Hrel; cbn [holds];
    rewrite ?orb_true_iff, ?bool_decide_eq_true; subst; cbn [edge_column edge_of e_src e_dst]; [naive_solver..|].
  naive_solver.
Qed.

Lemma edges_for_spec ids direction relation d : wf d → direction ∈ _DIRECTIONS →
  ∃ es, edges_for ids direction relation d = Ok es ∧ NoDup (map e_id es) ∧
    ∀ e, e ∈ es ↔ get_edge (e_id e) d = Ok (Some e) ∧ touches direction ids e ∧ related relation e.
Proof.
  intros Hwf Hd. rewrite edges_for_eq by done. eexists. split; [done|].
  set (rows := concat _).
  assert (∀ r, r ∈ rows ↔ edges d !! r.1 = Some r.2 ∧ matches direction relation ids r = true) as Hrows.
  { intros r. unfold rows. rewrite list_elem_of_In, in_concat, <-(matches_batches direction relation ids r). split.
    - intros (l & (b & <- & Hb)%in_map_iff & Hr). apply list_elem_of_In in Hb, Hr.
      apply elem_of_select in Hr as [? ?]. split; [done|]. by exists b.
    - intros (Hr & b & Hb & Hm). eexists. split; [apply in_map_iff; exists b; split; [done|by rewrite <-list_elem_of_In]|].
      rewrite <-list_elem_of_In. by apply elem_of_select. }
  destruct (put_items_spec (map (λ r, (r.1, edge_of r)) rows) []) as [Hnd Hin]; [constructor| |].
  { cbn [app]. intros x y (r & -> & [Hr _]%Hrows)%list_elem_of_fmap (r' & -> & [Hr' _]%Hrows)%list_elem_of_fmap.
    cbn [fst]. destruct r as [k r], r' as [k' r']; cbn in *. intros ->. by simplify_eq. }
  cbn [app] in Hin.
  assert (∀ x, x ∈ put_items [] (map (λ r, (r.1, edge_of r)) rows) → e_id x.2 = x.1) as Hid.
  { by intros x (r & -> & _)%Hin%list_elem_of_fmap. }
  split.
  - rewrite map_map. erewrite map_ext_in; [exact Hnd|]. intros x Hx%list_elem_of_In. by apply Hid.
  - intros e. rewrite list_elem_of_fmap, get_edge_wf by done. split.
    + intros (x & -> & (r & -> & [Hr Hm]%Hrows)%Hin%list_elem_of_fmap). cbn [snd edge_of e_id].
      rewrite matches_spec in Hm by done. split; [|done]. exists r.2. by destruct r.
    + intros ((r & Hr & ->) & Hm). exists (e_id e, edge_of (e_id e, r)). split; [done|].
      apply Hin, list_elem_of_fmap. exists (e_id e, r). split; [done|]. apply Hrows. split; [done|].
      by apply matches_spec.
Qed.

Lemma get_nodes_spec ids d : wf d →
  ∃ ns, get_nodes ids d = Ok ns ∧ ∀ n, n ∈ ns ↔ n_id n ∈ ids ∧ get_node (n_id n) d = Ok (Some n).
Proof.
  intros Hwf. rewrite get_nodes_eq by done. eexists. split; [done|]. intros n.
  rewrite get_node_wf, <-(elem_of_batches _IN_CHUNK) by (done || (unfold _IN_CHUNK; lia)).
  rewrite list_elem_of_In, in_concat. split.
  - intros (l & (b & <- & Hb)%in_map_iff & Hn). apply list_elem_of_In in Hb, Hn.
    apply list_elem_of_fmap in Hn as (r & -> & [Hr Hh%bool_decide_eq_true_1]%elem_of_select).
    split; [by exists b|]. exists r.2. split; [done|]. by destruct r.
  - intros ((b & Hb & Hx) & r & Hr & ->). eexists. split; [apply in_map_iff; exists b; split; [done|by rewrite <-list_elem_of_In]|].
    rewrite <-list_elem_of_In. apply list_elem_of_fmap. exists (n_id n, r). split; [done|]. apply elem_of_select.
    split; [done|]. by apply bool_decide_eq_true_2.
Qed.

(** [{node.id: node for node in self.get_nodes(ids)}]. *)
Lemma nodes_by_id ids d : wf d →
  ∃ ns, get_nodes ids d = Ok ns ∧ NoDup (put_items [] (map (λ n, (n_id n, n)) ns)).*1 ∧
    ∀ x n, get_item x (put_items [] (map (λ n, (n_id n, n)) ns)) = Some n ↔ x ∈ ids ∧ get_node x d = Ok (Some n).
Proof.
  intros Hwf. destruct (get_nodes_spec ids d Hwf) as (ns & Hns & Hin). exists ns. split; [done|].
  destruct (put_items_spec (map (λ n, (n_id n, n)) ns) []) as [Hnd Hp]; [constructor| |].
  { cbn [app]. intros x y (n & -> & [_ Hn]%Hin)%list_elem_of_fmap (m & -> & [_ Hm]%Hin)%list_elem_of_fmap. cbn.
    intros E. rewrite E in Hn. rewrite Hn in Hm. by injection Hm as ->. }
  split; [done|]. intros x n. rewrite get_item_elem, Hp by done. cbn [app]. rewrite list_elem_of_fmap. split.
  - intros (m & [= -> ->] & Hm). by apply Hin.
  - intros [Hx Hn]. pose proof Hn as (r & _ & E)%get_node_wf; [|done].
    exists n. assert (n_id n = x) as <- by (by rewrite E). split; [done|]. by apply Hin.
Qed.
End lemmas.

(** ** Claims *)

(** A row order to evaluate with: rows as the table keeps them. *)
Definition plain_sqlite : Sqlite := λ A w l, l.
Global Instance plain_sqlite_laws : SqliteLaws plain_sqlite.
Proof. by intros A w l. Qed.

(** C6: Whatever mutations are run, in any order and with failing ones among them (a vector for
    a node that does not exist is refused and its whole batch rolled back), the store answers
    each one as the abstract graph does, and stands for that graph in the end, with every
    property text readable and no vector without its node. *)
Theorem topology_refines_graph {SQ : Sqlite} {SL : SqliteLaws SQ} (ms : list mutation) (d : TopologyStore) :
  wf d → Forall mutation_ok ms →
  ∃ d', run_all ms d = ((spec_all ms (view d)).1, d') ∧ wf d' ∧ view d' = (spec_all ms (view d)).2.
Proof.
  intros Hwf HF. revert d Hwf. induction HF as [|m ms Hm _ IH]; intros d Hwf; [by exists d|].
  cbn [run_all spec_all]. destruct (run_refines m d Hwf Hm) as (d1 & Hr & Hw1 & Hv1). rewrite Hr.
  destruct (spec m (view d)) as [r g']. cbn [fst snd] in *. subst g'.
  destruct (IH d1 Hw1) as (d2 & Hr2 & Hw2 & Hv2). rewrite Hr2.
  destruct (spec_all ms (view d1)) as [rs g'']. by exists d2.
Qed.

Definition sample_mutations : list mutation :=
  [UpsertNodes [MkNode "a" "T" "A" (PDict [(PStr "k", PTuple [PInt 1])]); MkNode "b" "" "" (PDict [])];
   UpsertEdges [MkEdge "e1" "a" "r" "b" (PDict []); MkEdge "e2" "b" "r" "b" (PDict [])];
   SetVectors [("a", [S754_zero false]); ("zz", [])]; SetVectors [("a", [S754_zero false])];
   RemoveNode "a"; RemoveEdge "e1"].

Lemma topology_refines_graph_witness :
  ∃ d', @run_all plain_sqlite sample_mutations empty_store
        = ([Ok Done; Ok Done; raise IntegrityError "FOREIGN KEY constraint failed"; Ok Done;
            Ok (Removed true {["e1"]}); Ok (Existed false)], d') ∧ wf d'.
Proof.
  destruct (@topology_refines_graph plain_sqlite plain_sqlite_laws sample_mutations empty_store) as (d' & H1 & H2 & _).
  - split_and!; [apply map_Forall_empty..|]. set_solver.
  - repeat constructor.
  - exists d'. split; [|exact H2]. rewrite H1. vm_compute. reflexivity.
Defined.

(** Expanding a frontier of any length returns, without repetition, exactly the stored edges
    that touch it in the given direction and have the given relation: cutting the id list into
    batches of 400 loses and duplicates nothing. Any other direction is a ValueError. *)
Theorem edges_for_exact {SQ : Sqlite} {SL : SqliteLaws SQ} (ids : list string) (direction : string)
    (relation : option string) (d : TopologyStore) : wf d →
  (direction ∈ _DIRECTIONS → ∃ es, edges_for ids direction relation d = Ok es ∧ NoDup (map e_id es) ∧
     ∀ e, e ∈ es ↔ get_edge (e_id e) d = Ok (Some e) ∧ touches direction ids e ∧ related relation e) ∧
  (direction ∉ _DIRECTIONS → ∃ msg, edges_for ids direction relation d = raise ValueError msg).
Proof.
  intros Hwf. split; [by apply edges_for_spec|]. intros Hd. unfold edges_for, str_in.
  rewrite bool_decide_eq_false_2 by done. by eexists.
Qed.

Definition sample_store : TopologyStore :=
  Topology (<["a" := NodeRow "" "" "{}"]> (<["b" := NodeRow "" "" "{}"]> ∅))
    (<["e1" := EdgeRow "a" "r" "b" "{}"]> (<["e2" := EdgeRow "b" "s" "b" "{}"]> ∅)) (<["a" := []]> ∅).

Lemma sample_store_wf : wf sample_store.
Proof.
  split_and!.
  - repeat apply map_Forall_insert_2; [by eexists; vm_compute..|apply map_Forall_empty].
  - repeat apply map_Forall_insert_2; [by eexists; vm_compute..|apply map_Forall_empty].
  - apply (bool_decide_unpack _). vm_compute. exact I.
Qed.

Lemma edges_for_exact_witness :
  ∃ es, @edges_for plain_sqlite ["a"; "b"] "both" (Some "s") sample_store = Ok es ∧ map e_id es = ["e2"] ∧
    ∀ e, e ∈ es ↔ get_edge (e_id e) sample_store = Ok (Some e) ∧ touches "both" ["a"; "b"] e ∧ related (Some "s") e.
Proof.
  destruct (@edges_for_exact plain_sqlite plain_sqlite_laws ["a"; "b"] "both" (Some "s") sample_store sample_store_wf)
    as [[es (H1 & _ & H2)] _].
  - apply (bool_decide_unpack _). vm_compute. exact I.
  - exists es. split; [exact H1|]. split; [|exact H2]. revert H1. vm_compute. by intros [= <-].
Defined.

(** Removing a node reports whether it existed and exactly the ids of the edges at it, and
    leaves no trace of it: no row, no vector, no edge at it in either direction; every other
    node, vector and edge is untouched. *)
Theorem remove_node_complete {SQ : Sqlite} {SL : SqliteLaws SQ} (x : string) (d : TopologyStore) : wf d →
  ∃ incident d', remove_node x d = (Ok (bool_decide (is_Some (nodes d !! x)), incident), d') ∧
    NoDup incident ∧
    (∀ i, i ∈ incident ↔ ∃ r, edges d !! i = Some r ∧ (er_src r = x ∨ er_dst r = x)) ∧
    get_node x d' = Ok None ∧ get_node_vector x d' = None ∧ edges_for [x] "both" None d' = Ok [] ∧
    (∀ y, y ≠ x → get_node y d' = get_node y d ∧ get_node_vector y d' = get_node_vector y d) ∧
    (∀ i, i ∉ incident → get_edge i d' = get_edge i d) ∧ (∀ i, i ∈ incident → get_edge i d' = Ok None).
Proof.
  intros Hwf. pose proof (remove_node_wf x d Hwf) as E. rewrite remove_node_eq in E |- *. cbn [snd] in E. rewrite E.
  set (d' := Topology _ _ _) in *. set (incident := map fst _).
  pose proof (incident_ids x d) as Hinc. fold incident in Hinc.
  assert (∀ i r, edges d' !! i = Some r ↔ edges d !! i = Some r ∧ er_src r ≠ x ∧ er_dst r ≠ x) as Hed
    by (intros i r; apply kept_edges).
  exists incident, d'. split; [done|]. split; [apply select_keys_NoDup|]. split; [exact Hinc|].
  split; [unfold get_node, d'; cbn; by rewrite lookup_delete_eq|].
  split; [unfold get_node_vector, d'; cbn; by rewrite lookup_delete_eq|]. split; [|split; [|split]].
  - assert (wf d') as Hw'.
    { destruct Hwf as (H1 & H2 & H3). split_and!; cbn.
      - by apply map_Forall_delete.
      - intros k r [Hk _]%Hed. by apply (H2 k).
      - rewrite !dom_delete. set_solver. }
    destruct (edges_for_spec [x] "both" None d' Hw') as (es & -> & _ & Hes); [apply list_elem_of_here|]. f_equal.
    apply elem_of_nil_inv. intros e (Hg & Ht & _)%Hes. apply get_edge_wf in Hg as (r & (_ & Hs & Hd)%Hed & He); [|done].
    unfold touches in Ht. rewrite He in Ht. cbn [edge_of e_src e_dst fst snd] in Ht. rewrite !list_elem_of_singleton in Ht. naive_solver.
  - intros y Hy. unfold get_node, get_node_vector, d'. cbn. by rewrite !lookup_delete_ne by done.
  - intros i Hi. unfold get_edge. enough (edges d' !! i = edges d !! i) as -> by done. apply option_eq. intros r.
    rewrite Hed. split; [tauto|]. intros Hr. split_and!; [done| |]; intros E'; apply Hi, Hinc; eauto.
  - intros i (r & Hr & Hx)%Hinc. unfold get_edge. enough (edges d' !! i = None) as -> by done.
    apply eq_None_not_Some. intros [r' (Hr' & ? & ?)%Hed]. rewrite Hr in Hr'. injection Hr' as <-. tauto.
Qed.

Lemma remove_node_complete_witness :
  ∃ d', @remove_node plain_sqlite "a" sample_store = (Ok (true, ["e1"]), d') ∧ get_node_vector "a" d' = None.
Proof.
  destruct (@remove_node_complete plain_sqlite plain_sqlite_laws "a" sample_store sample_store_wf)
    as (incident & d' & H & _ & _ & _ & Hv & _).
  exists d'. split; [|exact Hv]. revert H. vm_compute. by intros [= <- <-].
Defined.
