(* ===== verification/KnowledgeGraph.v ===== *)
(** * The knowledge graph

    [graph/knowledge_graph.py]: the topology store of [Topology.v] as the source of truth and
    a LodeDB index over node labels, edge facts and caller-supplied vectors. The index is seen
    through the class [LodeIndex]; what the graph relies on is [LodeIndexLaws], discharged for
    the local database in [LocalDb.v]. Python sets have an iteration order the program does not
    control: the class [PySets]. *)

From Stdlib Require Import Ascii String ZArith Lia SpecFloat.
From stdpp Require Import base strings gmap sets list.
From S2P Require Import Prelude Numbers PyVal Json Predicate Topology.

Local Open Scope Z_scope.

(** ** What the index offers *)

Inductive content := Text (text : string) | Vector (vector : list spec_float).
Record document := Document { doc_content : content; doc_metadata : meta }.

Record LodeSearchHit := Hit { hit_score : spec_float; hit_id : string; hit_metadata : meta }.

(** [docs] is the collection the index holds, [accepts] the content it takes as input, [stored]
    what it makes of it (vectors are normalized). *)
Class LodeIndex (X : Type) := {
  docs : X → gmap string document;
  accepts : X → content → bool;
  stored : content → content;
  lode_add : string → string → meta → st X unit;
  lode_add_vectors : list spec_float → string → meta → st X unit;
  lode_add_many : list (string * string * meta) → st X unit;
  lode_add_vectors_many : list (list spec_float * string * meta) → st X unit;
  lode_remove : string → st X bool;
  lode_list_documents : pyval → X → result (list string);
  lode_search : string → Z → pyval → option string → X → result (list LodeSearchHit);
  lode_search_by_vector : list spec_float → Z → pyval → X → result (list LodeSearchHit);
  lode_count : X → Z }.

(** A document as the index keeps it. *)
Definition indexed {X} {LI : LodeIndex X} (c : content) (m : meta) : document := Document (stored c) m.

Definition text_entry (t : string * string * meta) : string * (content * meta) := (t.1.2, (Text t.1.1, t.2)).
Definition vector_entry (t : list spec_float * string * meta) : string * (content * meta) := (t.1.2, (Vector t.1.1, t.2)).

Definition index_all {X} {LI : LodeIndex X} (l : list (string * (content * meta))) (m : gmap string document)
    : gmap string document :=
  fold_left (λ m e, <[e.1 := indexed e.2.1 e.2.2]> m) l m.

(** What a write does: a batch is applied in order, up to the entry that fails when it fails,
    and a non-empty batch with distinct ids and acceptable contents succeeds. Acceptance depends on the
    configuration only. *)
Definition writes {X} {LI : LodeIndex X} (w : st X unit) (l : list (string * (content * meta))) : Prop :=
  ∀ x, ∃ r x', w x = (r, x') ∧ (∀ c, accepts x' c = accepts x c) ∧
    (∃ n, docs x' = index_all (take n l) (docs x)) ∧
    (r = Ok tt → docs x' = index_all l (docs x)) ∧
    (l ≠ [] → NoDup l.*1 → Forall (λ e, is_blank e.1 = false ∧ accepts x e.2.1 = true) l → r = Ok tt).

Definition kind_filter (kind : string) : pyval := dict_of [("kind", PStr kind)].

(** A filter on metadata fields, not the structured form with [metadata] or [document_ids]. *)
Definition flat_filter (f : pyval) : bool :=
  match f with
  | PDict d => existsb (λ kv, negb (key_is "metadata" kv) && negb (key_is "document_ids" kv)) d
  | _ => false
  end.

(** A hit is a stored document that satisfies the filter, once coerced to the engine's strings. *)
Definition hit_ok {X} {LI : LodeIndex X} (f : pyval) (x : X) (h : LodeSearchHit) : Prop :=
  ∃ d f', docs x !! hit_id h = Some d ∧ hit_metadata h = doc_metadata d ∧ coerce_sdk_filter f = Ok f' ∧
    matches_metadata_filter (doc_metadata d) f' = Ok true.

Class LodeIndexLaws (X : Type) {LI : LodeIndex X} : Prop := {
  add_writes text id m : writes (lode_add text id m) [(id, (Text text, m))];
  add_vectors_writes v id m : writes (lode_add_vectors v id m) [(id, (Vector v, m))];
  add_many_writes l : writes (lode_add_many l) (map text_entry l);
  add_vectors_many_writes l : writes (lode_add_vectors_many l) (map vector_entry l);
  remove_law id x : is_blank id = false → ∃ x', lode_remove id x = (Ok (bool_decide (is_Some (docs x !! id))), x') ∧
    docs x' = delete id (docs x) ∧ ∀ c, accepts x' c = accepts x c;
  list_law kind x : ∃ ids, lode_list_documents (kind_filter kind) x = Ok ids ∧ NoDup ids ∧
    ∀ id, id ∈ ids ↔ ∃ d, docs x !! id = Some d ∧ doc_metadata d !! "kind" = Some kind;
  search_law query k f mode x hits : flat_filter f = true → lode_search query k f mode x = Ok hits →
    Forall (hit_ok f x) hits;
  search_vector_law v k f x hits : flat_filter f = true → lode_search_by_vector v k f x = Ok hits →
    Forall (hit_ok f x) hits }.

(** The order in which a [for] loop visits a set. *)
Class PySets := set_order : gset string → list string.
Class PySetsLaws (PS : PySets) : Prop := set_order_perm : ∀ s, set_order s ≡ₚ elements s.

(** ** State *)

Record KnowledgeGraph (X : Type) := KG
  { _store : TopologyStore; _db : X;
    index_edges : bool; read_only : bool; retain_vectors : bool; vector_only : bool }.
Arguments KG {X} _ _ _ _ _ _.
Arguments _store {X} _.
Arguments _db {X} _.
Arguments index_edges {X} _.
Arguments read_only {X} _.
Arguments retain_vectors {X} _.
Arguments vector_only {X} _.

Definition _NODE_PREFIX : string := "n:".
Definition _EDGE_PREFIX : string := "e:".

Record Subgraph := MkSubgraph
  { sub_nodes : list (string * Node); sub_edges : list Edge; sub_seeds : list (string * spec_float) }.

(** One [add_node] or [add_edge] call, or one mapping of a batch, keyword by keyword; the
    [token] is the random suffix drawn when no id is given. *)
Record node_item := NodeItem
  { ni_id : option string; ni_token : string; ni_type : string; ni_label : string;
    ni_properties : option pydict; ni_embedding : option (list spec_float) }.
Record edge_item := EdgeItem
  { ei_src : string; ei_relation : string; ei_dst : string; ei_id : option string;
    ei_properties : option pydict; ei_fact : option string; ei_embedding : option (list spec_float) }.

Section graph.
Context {X : Type} {LI : LodeIndex X} {SQ : Sqlite} {PS : PySets}.
Local Notation kgraph := (KnowledgeGraph X).

Definition with_store (g : kgraph) (d : TopologyStore) : kgraph :=
  KG d (_db g) (index_edges g) (read_only g) (retain_vectors g) (vector_only g).
Definition with_db (g : kgraph) (x : X) : kgraph :=
  KG (_store g) x (index_edges g) (read_only g) (retain_vectors g) (vector_only g).

Definition on_store {A} (m : st TopologyStore A) : st kgraph A := λ g,
  let '(r, d) := m (_store g) in (r, with_store g d).
Definition on_db {A} (m : st X A) : st kgraph A := λ g,
  let '(r, x) := m (_db g) in (r, with_db g x).

Definition _require_writable : st kgraph unit := λ g,
  if read_only g
  then (raise ReadOnlyError "this KnowledgeGraph is read-only; reopen without read_only=True", g)
  else (Ok tt, g).

(** [if flag: action]. *)
Definition when (b : bool) (m : st kgraph unit) : st kgraph unit := if b then m else mret tt.

(** ** Indexing one entity *)

Definition node_metadata (n : Node) : meta :=
  <["kind" := "node"]> (<["type" := n_type n]> (<["node_id" := n_id n]> ∅)).
Definition edge_metadata (e : Edge) : meta :=
  <["kind" := "edge"]> (<["relation" := e_relation e]> (<["src" := e_src e]> (<["dst" := e_dst e]>
    (<["edge_id" := e_id e]> ∅)))).

Definition _index_node (n : Node) (embedding : option (list spec_float)) : st kgraph unit := λ g,
  let doc_id := _NODE_PREFIX +:+ n_id n in
  let metadata := node_metadata n in
  match embedding with
  | Some v =>
      (_ ← on_db (lode_add_vectors v doc_id metadata);
       when (retain_vectors g) (on_store (set_node_vectors [(n_id n, v)]))) g
  | None =>
      if negb (vector_only g) && negb (is_blank (n_label n))
      then (_ ← on_db (lode_add (n_label n) doc_id metadata);
            when (retain_vectors g) (on_store (remove_node_vector (n_id n)))) g
      else (_ ← on_db (lode_remove doc_id);
            when (retain_vectors g) (on_store (remove_node_vector (n_id n)))) g
  end.

Definition _index_edge (e : Edge) (fact : option string) (embedding : option (list spec_float)) : st kgraph unit := λ g,
  let doc_id := _EDGE_PREFIX +:+ e_id e in
  let metadata := edge_metadata e in
  match embedding with
  | Some v => on_db (lode_add_vectors v doc_id metadata) g
  | None =>
      match fact with
      | Some f =>
          if negb (vector_only g) && negb (is_blank f)
          then on_db (lode_add f doc_id metadata) g
          else (_ ← on_db (lode_remove doc_id); mret tt) g
      | None => (_ ← on_db (lode_remove doc_id); mret tt) g
      end
  end.

(** ** Mutation *)

Definition node_id_of (i : node_item) : string :=
  match ni_id i with Some x => x | None => "node-" +:+ ni_token i end.
Definition node_of_item (i : node_item) : Node :=
  MkNode (node_id_of i) (ni_type i) (ni_label i) (PDict (default [] (ni_properties i))).

Definition edge_id_of (i : edge_item) : string :=
  match ei_id i with
  | Some x => x
  | None => ei_src i +:+ ":" +:+ ei_relation i +:+ ":" +:+ ei_dst i
  end.
Definition edge_of_item (i : edge_item) : Edge :=
  MkEdge (edge_id_of i) (ei_src i) (ei_relation i) (ei_dst i) (PDict (default [] (ei_properties i))).

Definition add_node (i : node_item) : st kgraph string :=
  _ ← _require_writable;
  let node := node_of_item i in
  _ ← on_store (upsert_node node);
  _ ← _index_node node (ni_embedding i);
  mret (n_id node).

Definition add_edge (i : edge_item) : st kgraph string := λ g,
  (_ ← _require_writable;
   let edge := edge_of_item i in
   _ ← on_store (upsert_edge edge);
   _ ← when (index_edges g) (_index_edge edge (ei_fact i) (ei_embedding i));
   mret (e_id edge)) g.

(** What the loop of [add_nodes] collects. *)
Record node_batch := NodeBatch
  { nb_nodes : list Node; nb_text : list (string * string * meta);
    nb_vectors : list (list spec_float * string * meta); nb_stale : list string;
    nb_retained : list (string * list spec_float); nb_stale_retained : list string }.

Definition collect_node (retain vonly : bool) (b : node_batch) (i : node_item) : node_batch :=
  let node := node_of_item i in
  let nodes := nb_nodes b ++ [node] in
  let doc_id := _NODE_PREFIX +:+ n_id node in
  match ni_embedding i with
  | Some v =>
      NodeBatch nodes (nb_text b) (nb_vectors b ++ [(v, doc_id, node_metadata node)]) (nb_stale b)
        (if retain then nb_retained b ++ [(n_id node, v)] else nb_retained b) (nb_stale_retained b)
  | None =>
      let stale_retained := if retain then nb_stale_retained b ++ [n_id node] else nb_stale_retained b in
      if negb vonly && negb (is_blank (n_label node))
      then NodeBatch nodes (nb_text b ++ [(n_label node, doc_id, node_metadata node)]) (nb_vectors b) (nb_stale b)
             (nb_retained b) stale_retained
      else NodeBatch nodes (nb_text b) (nb_vectors b) (nb_stale b ++ [doc_id]) (nb_retained b) stale_retained
  end.

(** [if l: action(l)]. *)
Definition unless_empty {A} (l : list A) (m : list A → st kgraph unit) : st kgraph unit :=
  match l with [] => mret tt | _ => m l end.

Definition remove_doc (doc_id : string) : st kgraph unit := _ ← on_db (lode_remove doc_id); mret tt.

Definition add_nodes (items : list node_item) : st kgraph (list string) := λ g,
  (_ ← _require_writable;
   let b := fold_left (collect_node (retain_vectors g) (vector_only g)) items (NodeBatch [] [] [] [] [] []) in
   _ ← on_store (upsert_nodes (nb_nodes b));
   _ ← forS (λ x, on_store (remove_node_vector x)) (nb_stale_retained b);
   _ ← when (retain_vectors g) (unless_empty (nb_retained b) (λ l, on_store (set_node_vectors l)));
   _ ← forS remove_doc (nb_stale b);
   _ ← unless_empty (nb_text b) (λ l, on_db (lode_add_many l));
   _ ← unless_empty (nb_vectors b) (λ l, on_db (lode_add_vectors_many l));
   mret (map node_id_of items)) g.

Record edge_batch := EdgeBatch
  { eb_edges : list Edge; eb_text : list (string * string * meta);
    eb_vectors : list (list spec_float * string * meta); eb_stale : list string }.

Definition collect_edge (index vonly : bool) (b : edge_batch) (i : edge_item) : edge_batch :=
  let edge := edge_of_item i in
  let edges := eb_edges b ++ [edge] in
  let doc_id := _EDGE_PREFIX +:+ e_id edge in
  if negb index then EdgeBatch edges (eb_text b) (eb_vectors b) (eb_stale b)
  else match ei_embedding i with
       | Some v => EdgeBatch edges (eb_text b) (eb_vectors b ++ [(v, doc_id, edge_metadata edge)]) (eb_stale b)
       | None =>
           match ei_fact i with
           | Some f =>
               if negb vonly && negb (is_blank f)
               then EdgeBatch edges (eb_text b ++ [(f, doc_id, edge_metadata edge)]) (eb_vectors b) (eb_stale b)
               else EdgeBatch edges (eb_text b) (eb_vectors b) (eb_stale b ++ [doc_id])
           | None => EdgeBatch edges (eb_text b) (eb_vectors b) (eb_stale b ++ [doc_id])
           end
       end.

Definition add_edges (items : list edge_item) : st kgraph (list string) := λ g,
  (_ ← _require_writable;
   let b := fold_left (collect_edge (index_edges g) (vector_only g)) items (EdgeBatch [] [] [] []) in
   _ ← on_store (upsert_edges (eb_edges b));
   _ ← forS remove_doc (eb_stale b);
   _ ← unless_empty (eb_text b) (λ l, on_db (lode_add_many l));
   _ ← unless_empty (eb_vectors b) (λ l, on_db (lode_add_vectors_many l));
   mret (map edge_id_of items)) g.

(** ** Buffered ingestion *)

Record _IngestBuffer := IngestBuffer { buf_nodes : list node_item; buf_edges : list edge_item }.

Definition buffer_add_node (i : node_item) (b : _IngestBuffer) : string * _IngestBuffer :=
  let node_id := node_id_of i in
  (node_id, IngestBuffer (buf_nodes b ++ [NodeItem (Some node_id) (ni_token i) (ni_type i) (ni_label i)
                                            (ni_properties i) (ni_embedding i)]) (buf_edges b)).

Definition buffer_add_edge (i : edge_item) (b : _IngestBuffer) : string * _IngestBuffer :=
  let edge_id := edge_id_of i in
  (edge_id, IngestBuffer (buf_nodes b)
              (buf_edges b ++ [EdgeItem (ei_src i) (ei_relation i) (ei_dst i) (Some edge_id)
                                 (ei_properties i) (ei_fact i) (ei_embedding i)])).

(** [with kg.ingest() as buffer: body]; an exception in the body flushes nothing. *)
Definition ingest (body : _IngestBuffer → result _IngestBuffer) : st kgraph unit :=
  _ ← _require_writable;
  buffer ← st_lift (body (IngestBuffer [] []));
  _ ← unless_empty (buf_nodes buffer) (λ l, _ ← add_nodes l; mret tt);
  unless_empty (buf_edges buffer) (λ l, _ ← add_edges l; mret tt).

(** ** Removal *)

Definition remove_node (node_id : string) : st kgraph bool := λ g,
  (_ ← _require_writable;
   r ← on_store (Topology.remove_node node_id);
   _ ← remove_doc (_NODE_PREFIX +:+ node_id);
   _ ← when (index_edges g) (forS (λ e, remove_doc (_EDGE_PREFIX +:+ e)) r.2);
   mret r.1) g.

Definition remove_edge (edge_id : string) : st kgraph bool := λ g,
  (_ ← _require_writable;
   existed ← on_store (Topology.remove_edge edge_id);
   _ ← when (index_edges g) (remove_doc (_EDGE_PREFIX +:+ edge_id));
   mret existed) g.

(** ** Topology reads *)

Definition get_node (node_id : string) (g : kgraph) : result (option Node) := Topology.get_node node_id (_store g).
Definition get_edge (edge_id : string) (g : kgraph) : result (option Edge) := Topology.get_edge edge_id (_store g).
Definition neighbors (node_id direction : string) (relation : option string) (g : kgraph) : result (list Edge) :=
  Topology.neighbors node_id direction relation (_store g).
Definition list_nodes (g : kgraph) : result (list Node) := iter_nodes (_store g).
Definition list_edges (g : kgraph) : result (list Edge) := iter_edges (_store g).

(** ** Breadth-first expansion *)

Record hop_state := Hop
  { visited : gset string; frontier : gset string; edges_seen : list (string * Edge); truncated : bool }.

(** One endpoint of one edge: [next_frontier] is the [frontier] field here. *)
Definition visit (max_nodes : option Z) (s : hop_state) (endpoint : string) : hop_state :=
  if bool_decide (endpoint ∈ visited s) then s
  else if match max_nodes with Some m => Z.of_nat (size (visited s)) >=? m | None => false end
  then Hop (visited s) (frontier s) (edges_seen s) true
  else Hop ({[endpoint]} ∪ visited s) ({[endpoint]} ∪ frontier s) (edges_seen s) (truncated s).

Definition expand_edge (max_nodes : option Z) (s : hop_state) (e : Edge) : hop_state :=
  let s := Hop (visited s) (frontier s) (put_item (e_id e) e (edges_seen s)) (truncated s) in
  visit max_nodes (visit max_nodes s (e_src e)) (e_dst e).

Fixpoint hop_loop (n : nat) (direction : string) (relation : option string) (max_nodes : option Z)
    (d : TopologyStore) (s : hop_state) : result hop_state :=
  match n with
  | O => Ok s
  | S n =>
      if bool_decide (frontier s = ∅) || truncated s then Ok s
      else es ← edges_for (set_order (frontier s)) direction relation d;
           hop_loop n direction relation max_nodes d
             (fold_left (expand_edge max_nodes) es (Hop (visited s) ∅ (edges_seen s) (truncated s)))
  end.

(** [seeds] as a list: a single [str] is the list of itself. *)
Definition k_hop (seeds : list string) (k : Z) (direction : string) (relation : option string)
    (max_nodes : option Z) (g : kgraph) : result Subgraph :=
  let seed_set := list_to_set seeds in
  s ← hop_loop (Z.to_nat (Z.max 0 k)) direction relation max_nodes (_store g) (Hop seed_set seed_set [] false);
  ns ← get_nodes (set_order (visited s)) (_store g);
  Ok (MkSubgraph (put_items [] (map (λ n, (n_id n, n)) ns)) (map snd (edges_seen s)) []).

(** ** Semantic retrieval *)

Definition _strip (value prefix : string) : string :=
  if startswith prefix value then str_drop (slen prefix) value else value.

Definition _search_index (query : option string) (embedding : option (list spec_float)) (k : Z) (kind : string)
    (entity_type : option string) (extra_filter : option pydict) (mode : option string) (g : kgraph)
    : result (list LodeSearchHit) :=
  let base := match entity_type with
              | Some t => dict_of [("kind", PStr kind); ("type", PStr t)]
              | None => dict_of [("kind", PStr kind)]
              end in
  let search_filter := match extra_filter with
                       | Some (kv :: d) => dict_of [("$and", PList [base; PDict (kv :: d)])]
                       | _ => base
                       end in
  match embedding with
  | Some v =>
      if bool_decide (mode = None ∨ mode = Some "vector")
      then lode_search_by_vector v k search_filter (_db g)
      else raise ValueError "mode must be 'vector' when searching by embedding; 'hybrid'/'lexical' rank the query text, not a precomputed vector"
  | None =>
      match query with
      | None | Some "" => raise ValueError "provide a query string or an embedding"
      | Some q => lode_search q k search_filter mode (_db g)
      end
  end.

(** [hit.metadata.get(key) or _strip(hit.id, prefix)]. *)
Definition hit_entity (key prefix : string) (h : LodeSearchHit) : string :=
  match hit_metadata h !! key with
  | None | Some "" => _strip (hit_id h) prefix
  | Some x => x
  end.

Definition semantic_nodes (query : option string) (embedding : option (list spec_float)) (k : Z)
    (node_type : option string) (filter : option pydict) (mode : option string) (g : kgraph)
    : result (list (spec_float * Node)) :=
  hits ← _search_index query embedding k "node" node_type filter mode g;
  let hit_node_ids := map (hit_entity "node_id" _NODE_PREFIX) hits in
  ns ← get_nodes hit_node_ids (_store g);
  let nodes_by_id := put_items [] (map (λ n, (n_id n, n)) ns) in
  Ok (omap (λ hi, (λ n, (hit_score hi.1, n)) <$> get_item hi.2 nodes_by_id) (zip hits hit_node_ids)).

Definition semantic_edges (query : option string) (embedding : option (list spec_float)) (k : Z)
    (relation : option string) (mode : option string) (g : kgraph) : result (list (spec_float * Edge)) :=
  if negb (index_edges g) then Ok []
  else
    let extra := (λ r, [(PStr "relation", PStr r)]) <$> relation in
    hits ← _search_index query embedding k "edge" None extra mode g;
    foldR (λ out h,
        e ← Topology.get_edge (hit_entity "edge_id" _EDGE_PREFIX h) (_store g);
        Ok (match e with Some e => out ++ [(hit_score h, e)] | None => out end)) [] hits.

(** [d.setdefault(k, v)]. *)
Definition set_default {A} (k : string) (v : A) (d : list (string * A)) : list (string * A) :=
  match get_item k d with Some _ => d | None => put_item k v d end.

Definition search_subgraph (query : option string) (embedding : option (list spec_float)) (k hops : Z)
    (direction : string) (relation node_type : option string) (filter : option pydict) (mode : option string)
    (g : kgraph) : result Subgraph :=
  seeds ← semantic_nodes query embedding k node_type filter mode g;
  sub ← k_hop (map (λ s, n_id s.2) seeds) hops direction relation None g;
  Ok (MkSubgraph (fold_left (λ ns s, set_default (n_id s.2) s.2 ns) seeds (sub_nodes sub)) (sub_edges sub)
        (map (λ s, (n_id s.2, s.1)) seeds)).

(** ** Rebuilding the index *)

(** The loop over listed documents: those not wanted are removed and counted. *)
Fixpoint drop_orphans (wanted : gset string) (ids : list string) (removed : Z) : st kgraph Z :=
  match ids with
  | [] => mret removed
  | id :: ids =>
      if bool_decide (id ∈ wanted) then drop_orphans wanted ids removed
      else _ ← remove_doc id; drop_orphans wanted ids (removed + 1)
  end.

(** The documents of the nodes and the number of nodes that cannot be rebuilt. *)
Record rebuild := Rebuild
  { rb_labels : list (string * string * meta); rb_vectors : list (list spec_float * string * meta);
    rb_unrebuildable : Z }.

Definition rebuild_node (vonly : bool) (retained : list (string * list spec_float)) (r : rebuild) (n : Node) : rebuild :=
  let doc_id := _NODE_PREFIX +:+ n_id n in
  match get_item (n_id n) retained with
  | Some v => Rebuild (rb_labels r) (rb_vectors r ++ [(v, doc_id, node_metadata n)]) (rb_unrebuildable r)
  | None =>
      if negb vonly && negb (is_blank (n_label n))
      then Rebuild (rb_labels r ++ [(n_label n, doc_id, node_metadata n)]) (rb_vectors r) (rb_unrebuildable r)
      else Rebuild (rb_labels r) (rb_vectors r) (rb_unrebuildable r + 1)
  end.

Record reindex_counts := Counts
  { reindexed_nodes : Z; reindexed_labels : Z; reindexed_vectors : Z; unrebuildable : Z; removed_orphans : Z }.

Definition reindex : st kgraph reindex_counts := λ g,
  (_ ← _require_writable;
   let wanted_node_docs := list_to_set (map (λ x, _NODE_PREFIX +:+ x) (all_node_ids (_store g))) in
   node_docs ← st_read (λ g, lode_list_documents (kind_filter "node") (_db g));
   removed ← drop_orphans wanted_node_docs node_docs 0;
   let retained := if retain_vectors g then put_items [] (iter_node_vectors (_store g)) else [] in
   ns ← st_lift (iter_nodes (_store g));
   let r := fold_left (rebuild_node (vector_only g) retained) ns (Rebuild [] [] 0) in
   _ ← unless_empty (rb_labels r) (λ l, on_db (lode_add_many l));
   _ ← unless_empty (rb_vectors r) (λ l, on_db (lode_add_vectors_many l));
   removed ← (if index_edges g
              then es ← st_lift (iter_edges (_store g));
                   let wanted_edge_docs := list_to_set (map (λ e, _EDGE_PREFIX +:+ e_id e) es) in
                   edge_docs ← st_read (λ g, lode_list_documents (kind_filter "edge") (_db g));
                   drop_orphans wanted_edge_docs edge_docs removed
              else mret removed);
   let labels := Z.of_nat (length (rb_labels r)) in
   let vectors := Z.of_nat (length (rb_vectors r)) in
   mret (Counts (labels + vectors) labels vectors (rb_unrebuildable r) removed)) g.

Definition stats (g : kgraph) : Z * Z * Z * bool :=
  (node_count (_store g), edge_count (_store g), lode_count (_db g), index_edges g).
End graph.

(** ** Reachability *)

(** [x] is at most [n] hops from a seed. *)
Inductive within (d : TopologyStore) (direction : string) (relation : option string) (seeds : gset string)
    : nat → string → Prop :=
| within_seed n x : x ∈ seeds → within d direction relation seeds n x
| within_step n x y e : within d direction relation seeds n x →
    Topology.get_edge (e_id e) d = Ok (Some e) → touches direction [x] e → related relation e →
    y = e_src e ∨ y = e_dst e → within d direction relation seeds (S n) y.

Section hops.
Context {SQ : Sqlite} {SL : SqliteLaws SQ} {PS : PySets} {PL : PySetsLaws PS}.
Context (d : TopologyStore) (Hwf : Topology.wf d) (direction : string) (Hdir : direction ∈ _DIRECTIONS).
Context (relation : option string) (seeds : gset string).
Local Notation near := (within d direction relation seeds).

Lemma within_mono n m x : (n ≤ m)%nat → near n x → near m x.
Proof.
  intros Hle H. revert m Hle. induction H as [n x Hx|n x y e _ IH He Ht Hr Hy]; intros m Hle; [by constructor|].
  destruct m as [|m]; [lia|]. eapply within_step; [apply IH; lia|done..].
Qed.

(** The nodes expanded before hop [n]. *)
Definition expanded (n : nat) (x : string) : Prop := match n with O => False | S m => near m x end.

Lemma expanded_near n x : expanded n x → near n x.
Proof. destruct n; [done|]. apply within_mono. lia. Qed.

(** A stored edge of the right relation at a node [x]. *)
Definition edge_at (x : string) (e : Edge) : Prop :=
  Topology.get_edge (e_id e) d = Ok (Some e) ∧ touches direction [x] e ∧ related relation e.

Lemma touches_list ids e : touches direction ids e ↔ ∃ x, x ∈ ids ∧ touches direction [x] e.
Proof. unfold touches. setoid_rewrite list_elem_of_singleton. naive_solver. Qed.

Definition hop_inv (n : nat) (s : hop_state) : Prop :=
  (∀ x, x ∈ visited s ↔ near n x) ∧ frontier s ⊆ visited s ∧
  (∀ x, x ∈ visited s ∧ x ∉ frontier s ↔ expanded n x) ∧
  NoDup (edges_seen s).*1 ∧
  (∀ ke, ke ∈ edges_seen s ↔ ke.1 = e_id ke.2 ∧ ∃ x, expanded n x ∧ edge_at x ke.2) ∧
  truncated s = false.

Lemma ends_cons e es x :
  (∃ e', e' ∈ e :: es ∧ (x = e_src e' ∨ x = e_dst e'))
  ↔ (x = e_src e ∨ x = e_dst e) ∨ ∃ e', e' ∈ es ∧ (x = e_src e' ∨ x = e_dst e').
Proof. setoid_rewrite elem_of_cons. naive_solver. Qed.

(** Without a budget a batch of edges adds all its ends. *)
Lemma expand_edges es s :
  let s' := fold_left (expand_edge None) es s in
  (∀ x, x ∈ visited s' ↔ x ∈ visited s ∨ ∃ e, e ∈ es ∧ (x = e_src e ∨ x = e_dst e)) ∧
  (∀ x, x ∈ frontier s' ↔ x ∈ frontier s ∨ (x ∉ visited s ∧ ∃ e, e ∈ es ∧ (x = e_src e ∨ x = e_dst e))) ∧
  edges_seen s' = put_items (edges_seen s) (map (λ e, (e_id e, e)) es) ∧ truncated s' = truncated s.
Proof.
  assert (∀ s y, let s' := visit None s y in
    (∀ x, x ∈ visited s' ↔ x ∈ visited s ∨ x = y) ∧
    (∀ x, x ∈ frontier s' ↔ x ∈ frontier s ∨ (x ∉ visited s ∧ x = y)) ∧
    edges_seen s' = edges_seen s ∧ truncated s' = truncated s) as Hv.
  { intros s0 y. unfold visit. case_bool_decide; cbn; [naive_solver|]. split_and!; [set_solver|set_solver|done..]. }
  revert s. induction es as [|e es IH]; intros s; cbn [fold_left map].
  { cbn. split_and!; [set_solver|set_solver|done..]. }
  unfold expand_edge at 2 4 6 8. set (s0 := Hop _ _ _ _).
  destruct (Hv s0 (e_src e)) as (A1 & A2 & A3 & A4). destruct (Hv (visit None s0 (e_src e)) (e_dst e)) as (B1 & B2 & B3 & B4).
  destruct (IH (visit None (visit None s0 (e_src e)) (e_dst e))) as (C1 & C2 & C3 & C4). split_and!.
  - intros x. rewrite C1, B1, A1, ends_cons. cbn. tauto.
  - intros x. rewrite C2, B2, A2, B1, A1, ends_cons. cbn.
    destruct (decide (x ∈ visited s)), (decide (x = e_src e)), (decide (x = e_dst e)); tauto.
  - rewrite C3, B3, A3. done.
  - rewrite C4, B4, A4. done.
Qed.

Lemma elem_of_set_order (X : gset string) x : x ∈ set_order X ↔ x ∈ X.
Proof. by rewrite (set_order_perm X), elem_of_elements. Qed.

Lemma near_step n y :
  near (S n) y ↔ near n y ∨ ∃ x e, near n x ∧ edge_at x e ∧ (y = e_src e ∨ y = e_dst e).
Proof.
  unfold edge_at. split.
  - intros H. inversion H; subst; [left; by constructor|]. right. eauto 10.
  - intros [H|(x & e & H & (? & ? & ?) & ?)]; [by apply (within_mono n); [lia|]|]. by eapply within_step.
Qed.

(** One iteration of the loop. *)
Lemma hop_step n s es : hop_inv n s →
  (∀ e, e ∈ es ↔ Topology.get_edge (e_id e) d = Ok (Some e) ∧
                 touches direction (set_order (frontier s)) e ∧ related relation e) →
  hop_inv (S n) (fold_left (expand_edge None) es (Hop (visited s) ∅ (edges_seen s) (truncated s))).
Proof.
  intros (Hv & Hf & Hx & Hnd & Hes & Ht) Hin.
  assert (∀ e, e ∈ es ↔ ∃ x, x ∈ frontier s ∧ edge_at x e) as Hin'.
  { intros e. rewrite Hin, touches_list. setoid_rewrite elem_of_set_order. unfold edge_at. naive_solver. }
  destruct (expand_edges es (Hop (visited s) ∅ (edges_seen s) (truncated s))) as (C1 & C2 & C3 & C4).
  cbn [visited frontier edges_seen truncated] in *.
  set (s' := fold_left _ _ _) in *. clearbody s'.
  assert (∀ x, near n x ↔ x ∈ frontier s ∨ expanded n x) as Hsplit.
  { intros x. rewrite <-Hx, <-Hv. destruct (decide (x ∈ frontier s)); set_solver. }
  assert (NoDup (put_items (edges_seen s) (map (λ e, (e_id e, e)) es)).*1 ∧
    ∀ x, x ∈ put_items (edges_seen s) (map (λ e, (e_id e, e)) es) ↔ x ∈ edges_seen s ++ map (λ e, (e_id e, e)) es) as Hput.
  { apply put_items_spec; [done|].
    assert (∀ ke, ke ∈ edges_seen s ++ map (λ e, (e_id e, e)) es →
      ke.1 = e_id ke.2 ∧ Topology.get_edge ke.1 d = Ok (Some ke.2)) as Hall.
    { intros ke [(Hk & x & _ & He & _)%Hes|(e & -> & (He & _)%Hin)%list_elem_of_fmap]%elem_of_app; [|done].
      by rewrite Hk. }
    intros [k e] [k' e'] [_ H]%Hall [_ H']%Hall. cbn in *. intros ->. rewrite H in H'. by injection H' as ->. }
  split_and!.
  - intros y. rewrite C1, Hv, near_step. split.
    + intros [H|(e & (x & Hxf & He)%Hin' & Hy)]; [by left|]. right. exists x, e. split; [|done]. apply Hsplit. by left.
    + intros [H|(x & e & [Hxf|He]%Hsplit & Hat & Hy)]; [by left| |].
      * right. exists e. split; [|done]. apply Hin'. by exists x.
      * left. destruct n as [|m]; [done|]. rewrite near_step. right. by exists x, e.
  - intros x. rewrite C1, C2. set_solver.
  - intros x. rewrite C1, C2. cbn [expanded]. rewrite <-Hv. destruct (decide (x ∈ visited s)); set_solver.
  - rewrite C3. by apply Hput.
  - intros ke. rewrite C3. destruct Hput as [_ ->]. rewrite elem_of_app, Hes, list_elem_of_fmap. cbn [expanded]. split.
    + intros [[Hk (x & Hx' & He)]|(e & -> & (x & Hxf & He)%Hin')].
      * split; [done|]. exists x. split; [|done]. apply Hsplit. by right.
      * split; [done|]. exists x. split; [|done]. apply Hsplit. by left.
    + destruct ke as [k e]. intros [Hk (x & [Hxf|He]%Hsplit & Hat)]; cbn [fst snd] in *; subst k.
      * right. exists e. split; [done|]. apply Hin'. by exists x.
      * left. split; [done|]. by exists x.
  - by rewrite C4.
Qed.

(** When the frontier runs dry, further hops reach nothing new. *)
Lemma near_closed n m x : (∀ x, near n x → expanded n x) → (n ≤ m)%nat → near m x → near n x.
Proof.
  intros Hcl Hle H. revert Hle. induction H as [m x Hx|m x y e H IH He Ht Hr Hy]; intros Hle; [by constructor|].
  destruct (decide (n = S m)) as [->|]; [by eapply within_step|].
  assert (near n x) as Hn by (apply IH; lia). apply Hcl in Hn. destruct n as [|n]; [done|]. by eapply within_step.
Qed.

Lemma hop_loop_spec k n s : hop_inv n s →
  ∃ s', hop_loop k direction relation None d s = Ok s' ∧ hop_inv (n + k) s'.
Proof.
  revert n s. induction k as [|k IH]; intros n s Hs; cbn [hop_loop]; [exists s; by rewrite Nat.add_0_r|].
  pose proof Hs as (Hv & Hf & Hx & Hnd & Hes & Ht). rewrite Ht, orb_false_r. case_bool_decide as He.
  - assert (∀ x, near n x → expanded n x) as Hcl.
    { intros x Hnx. apply Hx. rewrite Hv, He. set_solver. }
    assert (∀ x, near (n + S k) x ↔ near n x) as Hsame.
    { intros x. split; [apply near_closed; [done|lia]|apply within_mono; lia]. }
    assert (∀ x, expanded (n + S k) x ↔ expanded n x) as Hsame'.
    { intros x. rewrite Nat.add_succ_r. cbn [expanded]. split; [|].
      - intros H. apply Hcl. eapply near_closed; [done| |exact H]. lia.
      - intros H%expanded_near. eapply within_mono; [|exact H]. lia. }
    exists s. split; [done|]. split_and!; [|done| |done| |done].
    + intros x. by rewrite Hsame.
    + intros x. by rewrite Hsame'.
    + intros ke. setoid_rewrite Hsame'. apply Hes.
  - destruct (edges_for_spec (set_order (frontier s)) direction relation d Hwf Hdir) as (es & -> & _ & Hin).
    cbn. rewrite Nat.add_succ_r, <-Nat.add_succ_l. rewrite <-Ht. apply IH, hop_step; done.
Qed.

Lemma hop_start : hop_inv 0 (Hop seeds seeds [] false).
Proof.
  split_and!; cbn; [|done| | | |done].
  - intros x. split; [by constructor|]. by inversion 1.
  - intros x. split; [by intros [? ?]|done].
  - constructor.
  - intros ke. split; [by intros ?%elem_of_nil|]. by intros (_ & x & ? & _).
Qed.
End hops.

(** *** With a budget *)

Section budget.
Context {SQ : Sqlite} {SL : SqliteLaws SQ} {PS : PySets} {PL : PySetsLaws PS}.
Context (d : TopologyStore) (Hwf : Topology.wf d) (direction : string) (Hdir : direction ∈ _DIRECTIONS).
Context (relation : option string) (seeds : gset string) (max : Z).
Local Notation near := (within d direction relation seeds).

(** The size of the visited set and where it comes from. *)
Definition budget_inv (n : nat) (s : hop_state) : Prop :=
  Z.of_nat (size (visited s)) <= Z.max max (Z.of_nat (size seeds)) ∧ (∀ x, x ∈ visited s → near n x).

Lemma visit_budget n s x : budget_inv n s → near n x → budget_inv n (visit (Some max) s x).
Proof.
  intros [Hs Hn] Hx. unfold visit. case_bool_decide as Hv; [done|].
  destruct (Z.geb_spec (Z.of_nat (size (visited s))) max) as [Hge|Hlt]; [done|]. split; cbn [visited].
  - rewrite size_union, size_singleton by set_solver. lia.
  - intros y [->%elem_of_singleton|Hy]%elem_of_union; [done|by apply Hn].
Qed.

Lemma expand_budget n es s : budget_inv n s → (∀ e, e ∈ es → near n (e_src e) ∧ near n (e_dst e)) →
  budget_inv n (fold_left (expand_edge (Some max)) es s).
Proof.
  revert s. induction es as [|e es IH]; intros s Hs He; [done|]. cbn [fold_left].
  destruct (He e) as [H1 H2]; [by left|]. apply IH; [|intros e' He'; apply He; by right].
  apply visit_budget; [|done]. by apply visit_budget.
Qed.

Lemma visit_frontier m s x : frontier s ⊆ visited s → frontier (visit m s x) ⊆ visited (visit m s x).
Proof. intros H. unfold visit. case_bool_decide; [done|].
  destruct m as [m|]; [destruct (_ >=? m); [done|]|]; cbn; set_solver.
Qed.

Lemma expand_frontier m es s : frontier s ⊆ visited s →
  frontier (fold_left (expand_edge m) es s) ⊆ visited (fold_left (expand_edge m) es s).
Proof.
  revert s. induction es as [|e es IH]; intros s Hs; [done|]. cbn [fold_left]. apply IH.
  unfold expand_edge. by apply visit_frontier, visit_frontier.
Qed.

Lemma hop_loop_budget k n s : budget_inv n s → frontier s ⊆ visited s →
  ∃ s', hop_loop k direction relation (Some max) d s = Ok s' ∧ budget_inv (n + k) s'.
Proof.
  revert n s. induction k as [|k IH]; intros n s Hs Hf; cbn [hop_loop]; [exists s; by rewrite Nat.add_0_r|].
  assert (∀ m s', budget_inv m s' → ∀ m', (m ≤ m')%nat → budget_inv m' s') as Hmono.
  { intros m s' [? Hn] m' Hle. split; [done|]. intros x Hx. eapply within_mono; [done|]. by apply Hn. }
  destruct (bool_decide (frontier s = ∅) || truncated s); [exists s; split; [done|]; eapply Hmono; [done|lia]|].
  destruct (edges_for_spec (set_order (frontier s)) direction relation d Hwf Hdir) as (es & -> & _ & Hin).
  cbn. rewrite Nat.add_succ_r, <-Nat.add_succ_l. apply IH; [|by apply expand_frontier].
  apply expand_budget; [by apply (Hmono n s Hs (S n)); lia|].
  intros e (He & (x & Hx & Ht)%touches_list & Hr)%Hin. rewrite elem_of_set_order in Hx.
  apply Hf, Hs in Hx. split; eapply within_step; eauto.
Qed.
End budget.

(** ** Claims *)

(** An order to evaluate with. *)
Definition plain_sets : PySets := elements.
Global Instance plain_sets_laws : PySetsLaws plain_sets.
Proof. by intros s. Qed.

(** C16: Without a budget, [k_hop] returns the complete neighbourhood: its nodes are exactly the
    stored nodes at most [k] hops from a seed, and its edges, each once, exactly the stored
    edges of the relation met from a node at most [k - 1] hops away; whatever order the
    database lists rows in and Python visits sets in. *)
Theorem k_hop_exact {X} {SQ : Sqlite} {SL : SqliteLaws SQ} {PS : PySets} {PL : PySetsLaws PS}
    (seeds : list string) (k : nat) (direction : string) (relation : option string) (g : KnowledgeGraph X) :
  Topology.wf (_store g) → direction ∈ _DIRECTIONS →
  ∃ sub, k_hop seeds (Z.of_nat k) direction relation None g = Ok sub ∧
    (∀ x n, get_item x (sub_nodes sub) = Some n ↔
       within (_store g) direction relation (list_to_set seeds) k x ∧ get_node x g = Ok (Some n)) ∧
    NoDup (map e_id (sub_edges sub)) ∧
    (∀ e, e ∈ sub_edges sub ↔ ∃ x, expanded (_store g) direction relation (list_to_set seeds) k x ∧
                                 edge_at (_store g) direction relation x e).
Proof.
  intros Hwf Hdir. unfold k_hop. rewrite Z.max_r, Nat2Z.id by lia.
  destruct (hop_loop_spec (_store g) Hwf direction Hdir relation (list_to_set seeds) k 0 _
    (hop_start _ _ _ _)) as (s & -> & Hv & _ & _ & Hnd & Hes & _). cbn [Nat.add] in Hv, Hes.
  destruct (nodes_by_id (set_order (visited s)) (_store g) Hwf) as (ns & Hns & _ & Hget).
  unfold mbind, result_bind. rewrite Hns. eexists. split; [done|]. cbn [sub_nodes sub_edges]. split_and!.
  - intros x n. by rewrite Hget, elem_of_set_order, Hv.
  - rewrite map_map. erewrite map_ext_in; [exact Hnd|]. intros ke Hke%list_elem_of_In. cbn. by apply Hes in Hke as [-> _].
  - intros e. rewrite list_elem_of_fmap. split.
    + by intros (ke & -> & [_ ?]%Hes).
    + intros He. exists (e_id e, e). split; [done|]. by apply Hes.
Qed.

(** With a budget, [k_hop] never visits more nodes than [max_nodes] (or than the seeds it was
    given), and every node it returns is a stored node at most [k] hops away. *)
Theorem k_hop_within_budget {X} {SQ : Sqlite} {SL : SqliteLaws SQ} {PS : PySets} {PL : PySetsLaws PS}
    (seeds : list string) (k : nat) (direction : string) (relation : option string) (max : Z) (g : KnowledgeGraph X) :
  Topology.wf (_store g) → direction ∈ _DIRECTIONS →
  ∃ sub, k_hop seeds (Z.of_nat k) direction relation (Some max) g = Ok sub ∧
    Z.of_nat (length (sub_nodes sub)) <= Z.max max (Z.of_nat (size (list_to_set seeds : gset string))) ∧
    (∀ x n, get_item x (sub_nodes sub) = Some n →
       within (_store g) direction relation (list_to_set seeds) k x ∧ get_node x g = Ok (Some n)).
Proof.
  intros Hwf Hdir. unfold k_hop. rewrite Z.max_r, Nat2Z.id by lia.
  destruct (hop_loop_budget (_store g) Hwf direction Hdir relation (list_to_set seeds) max k 0
    (Hop (list_to_set seeds) (list_to_set seeds) [] false)) as (s & -> & Hsz & Hn).
  { split; [cbn; lia|]. cbn. intros x Hx. by constructor. }
  { done. }
  destruct (nodes_by_id (set_order (visited s)) (_store g) Hwf) as (ns & Hns & Hnd & Hget).
  unfold mbind, result_bind. rewrite Hns. eexists. split; [done|]. cbn [sub_nodes]. split.
  - etrans; [|exact Hsz]. apply Nat2Z.inj_le. rewrite <-(length_fmap fst).
    assert (length (set_order (visited s)) = size (visited s)) as <-.
    { rewrite (set_order_perm (visited s)). done. }
    apply submseteq_length, NoDup_submseteq; [done|]. intros x ([y n] & -> & Hin)%list_elem_of_fmap.
    apply get_item_elem in Hin; [|done]. cbn. by apply Hget in Hin as [? _].
  - intros x n [Hx ?]%Hget. split; [|done]. apply Hn. by apply elem_of_set_order in Hx.
Qed.

Definition sample_graph : KnowledgeGraph unit := KG sample_store tt false false false false.

Lemma k_hop_exact_witness :
  ∃ sub, @k_hop unit plain_sqlite plain_sets ["a"] (Z.of_nat 1) "out" None None sample_graph = Ok sub ∧
    get_item "b" (sub_nodes sub) = Some (MkNode "b" "" "" (PDict [])) ∧
    (∀ x n, get_item x (sub_nodes sub) = Some n ↔
       within sample_store "out" None (list_to_set ["a"]) 1 x ∧ get_node x sample_graph = Ok (Some n)).
Proof.
  destruct (@k_hop_exact unit plain_sqlite plain_sqlite_laws plain_sets plain_sets_laws ["a"] 1 "out" None sample_graph)
    as (sub & H1 & H2 & _).
  - apply sample_store_wf.
  - apply (bool_decide_unpack _). vm_compute. exact I.
  - exists sub. split; [exact H1|]. split; [|exact H2]. revert H1. vm_compute. by intros [= <-].
Defined.

Lemma k_hop_within_budget_witness :
  ∃ sub, @k_hop unit plain_sqlite plain_sets ["a"] (Z.of_nat 3) "both" None (Some 1) sample_graph = Ok sub ∧
    Z.of_nat (length (sub_nodes sub)) <= 1.
Proof.
  destruct (@k_hop_within_budget unit plain_sqlite plain_sqlite_laws plain_sets plain_sets_laws ["a"] 3 "both" None 1 sample_graph)
    as (sub & H1 & H2 & _).
  - apply sample_store_wf.
  - apply (bool_decide_unpack _). vm_compute. exact I.
  - exists sub. split; [exact H1|]. exact H2.
Defined.
