(* ===== verification/GraphSync.v ===== *)
(** * The knowledge graph and its index

    What keeps the two halves of [graph/knowledge_graph.py] together: no operation, failing or
    not, leaves a document whose entity is gone; a batch of nodes ends like its nodes added one
    by one; [reindex] rebuilds the index from the topology alone; a search answers with stored
    entities. Everything is proved against [LodeIndexLaws]. *)

From Stdlib Require Import Ascii String ZArith Lia SpecFloat.
From stdpp Require Import base strings gmap sets list.
From S2P Require Import Prelude Numbers PyVal Json Predicate Topology KnowledgeGraph.

Local Open Scope Z_scope.

(** ** The index follows the topology *)

Section sync.
Context {X : Type} {LI : LodeIndex X} {LL : LodeIndexLaws X} {SQ : Sqlite} {SL : SqliteLaws SQ} {PS : PySets}.
Local Notation kgraph := (KnowledgeGraph X).
Implicit Types g : kgraph.

(** A document of a node or of an edge of the store, with the metadata that says so. *)
Definition node_doc (d : TopologyStore) (id : string) (dd : document) : Prop :=
  ∃ x, id = _NODE_PREFIX +:+ x ∧ is_Some (nodes d !! x) ∧
    doc_metadata dd !! "kind" = Some "node" ∧ doc_metadata dd !! "node_id" = Some x.
Definition edge_doc (d : TopologyStore) (id : string) (dd : document) : Prop :=
  ∃ y, id = _EDGE_PREFIX +:+ y ∧ is_Some (edges d !! y) ∧
    doc_metadata dd !! "kind" = Some "edge" ∧ doc_metadata dd !! "edge_id" = Some y.

Definition synced g : Prop :=
  Topology.wf (_store g) ∧
  ∀ id dd, docs (_db g) !! id = Some dd →
    node_doc (_store g) id dd ∨ (index_edges g = true ∧ edge_doc (_store g) id dd).

(** [synced], the nodes [S] and edges [T] are stored, and edges are indexed or not. *)
Definition synced_with (ie : bool) (S T : gset string) g : Prop :=
  synced g ∧ index_edges g = ie ∧ S ⊆ dom (nodes (_store g)) ∧ T ⊆ dom (edges (_store g)).

(** Total correctness of the normal exit, [synced] on the exceptional one. *)
Definition keeps {A} (P : kgraph → Prop) (m : st kgraph A) (Q : kgraph → Prop) : Prop :=
  ∀ g, P g → match m g with (Ok _, g') => Q g' | (Err _, g') => synced g' end.

Lemma keeps_bind {A B} P (m : st kgraph A) R (f : A → st kgraph B) Q :
  keeps P m R → (∀ a, keeps R (f a) Q) → keeps P (m ≫= f) Q.
Proof.
  intros Hm Hf g Hg. apply Hm in Hg. unfold mbind, st_bind. destruct (m g) as [[a|e] g']; [|done]. by apply Hf.
Qed.
Lemma keeps_ret {A} P (a : A) : keeps P (mret a) P.
Proof. by intros g Hg. Qed.
Lemma keeps_forS {A} P (f : A → st kgraph unit) l : (∀ x, x ∈ l → keeps P (f x) P) → keeps P (forS f l) P.
Proof.
  induction l as [|x l IH]; intros H; [apply keeps_ret|]. cbn [forS]. eapply keeps_bind; [apply H; by left|].
  intros []. apply IH. intros y Hy. apply H. by right.
Qed.
Lemma keeps_when P b (m : st kgraph unit) : keeps P m P → keeps P (when b m) P.
Proof. destruct b; [done|]. intros _. apply keeps_ret. Qed.
Lemma keeps_unless_empty {A} P (l : list A) (m : list A → st kgraph unit) : keeps P (m l) P → keeps P (unless_empty l m) P.
Proof. destruct l; [intros _; apply keeps_ret|done]. Qed.
Lemma keeps_weaken {A} (P P' : kgraph → Prop) (m : st kgraph A) (Q Q' : kgraph → Prop) :
  (∀ g, P' g → P g) → (∀ g, Q g → Q' g) → keeps P m Q → keeps P' m Q'.
Proof. intros HP HQ Hm g Hg%HP%Hm. destruct (m g) as [[a|e] g']; auto. Qed.

Lemma synced_with_synced ie S T g : synced_with ie S T g → synced g.
Proof. by intros [? _]. Qed.

Lemma keeps_writable ie S T : keeps (synced_with ie S T) _require_writable (synced_with ie S T).
Proof. intros g Hg. unfold _require_writable. destruct (read_only g); [by eapply synced_with_synced|done]. Qed.

(** Growing the store keeps every document accounted for. *)
Lemma synced_grow g d : synced g → Topology.wf d → dom (nodes (_store g)) ⊆ dom (nodes d) →
  dom (edges (_store g)) ⊆ dom (edges d) → synced (with_store g d).
Proof.
  intros [_ Hd] Hwf Hn He. split; [done|]. intros id dd Hid. cbn in Hid |- *.
  destruct (Hd id dd Hid) as [(x & Hx & Hs & Hm)|(Hi & y & Hy & Hs & Hm)]; [left|right; split; [done|]].
  - exists x. split; [done|]. split; [|done]. apply elem_of_dom, Hn. by apply elem_of_dom.
  - exists y. split; [done|]. split; [|done]. apply elem_of_dom, He. by apply elem_of_dom.
Qed.

Lemma fold_put_nodes ns gr : dom (g_nodes (fold_left g_put_node ns gr)) = list_to_set (map n_id ns) ∪ dom (g_nodes gr) ∧
  g_edges (fold_left g_put_node ns gr) = g_edges gr.
Proof.
  revert gr; induction ns as [|n ns IH]; intros gr; cbn [fold_left map]; [split; [set_solver|done]|].
  destruct (IH (g_put_node gr n)) as [-> ->]. cbn. split; [|done]. rewrite dom_insert_L. set_solver.
Qed.
Lemma fold_put_edges es gr : dom (g_edges (fold_left g_put_edge es gr)) = list_to_set (map e_id es) ∪ dom (g_edges gr) ∧
  g_nodes (fold_left g_put_edge es gr) = g_nodes gr.
Proof.
  revert gr; induction es as [|n ns IH]; intros gr; cbn [fold_left map]; [split; [set_solver|done]|].
  destruct (IH (g_put_edge gr n)) as [-> ->]. cbn. split; [|done]. rewrite dom_insert_L. set_solver.
Qed.

Lemma view_dom d : dom (g_nodes (view d)) = dom (nodes d) ∧ dom (g_edges (view d)) = dom (edges d).
Proof. cbn. by rewrite !dom_fmap_L. Qed.

Lemma keeps_upsert_nodes ie S T ns : Forall (λ n, json_ok (n_properties n) = true) ns →
  keeps (synced_with ie S T) (on_store (upsert_nodes ns)) (synced_with ie (list_to_set (map n_id ns) ∪ S) T).
Proof.
  intros HF g ([Hwf Hd] & Hie & HS & HT). unfold on_store.
  destruct (upsert_nodes_refines ns (_store g) Hwf HF) as (d' & -> & Hwf' & Hv).
  destruct (fold_put_nodes ns (view (_store g))) as [E1 E2]. rewrite <-Hv in E1, E2.
  destruct (view_dom d') as [V1 V2], (view_dom (_store g)) as [V3 V4].
  rewrite V1, V3 in E1. assert (dom (edges d') = dom (edges (_store g))) as E3 by (by rewrite <-V2, <-V4, E2).
  split; [apply synced_grow; [done|done|set_solver|set_solver]|]. cbn. set_solver.
Qed.
Lemma keeps_upsert_edges ie S T es : Forall (λ e, json_ok (e_properties e) = true) es →
  keeps (synced_with ie S T) (on_store (upsert_edges es)) (synced_with ie S (list_to_set (map e_id es) ∪ T)).
Proof.
  intros HF g ([Hwf Hd] & Hie & HS & HT). unfold on_store.
  destruct (upsert_edges_refines es (_store g) Hwf HF) as (d' & -> & Hwf' & Hv).
  destruct (fold_put_edges es (view (_store g))) as [E1 E2]. rewrite <-Hv in E1, E2.
  destruct (view_dom d') as [V1 V2], (view_dom (_store g)) as [V3 V4].
  rewrite V2, V4 in E1. assert (dom (nodes d') = dom (nodes (_store g))) as E3 by (by rewrite <-V1, <-V3, E2).
  split; [apply synced_grow; [done|done|set_solver|set_solver]|]. cbn. set_solver.
Qed.

(** Vectors: the other two tables stay. *)
Lemma vector_op_tables (m : mutation) d : Topology.wf d → (∃ items, m = SetVectors items) ∨ (∃ x, m = DropVector x) →
  Topology.wf (run m d).2 ∧ dom (nodes (run m d).2) = dom (nodes d) ∧ dom (edges (run m d).2) = dom (edges d).
Proof.
  intros Hwf Hm. assert (mutation_ok m) as Hok by (by destruct Hm as [[? ->]|[? ->]]).
  destruct (run_refines m d Hwf Hok) as (d' & -> & Hwf' & Hv). cbn [snd]. split; [done|].
  destruct (view_dom d') as [<- <-], (view_dom d) as [<- <-]. rewrite Hv.
  destruct Hm as [[items ->]|[x ->]]; [|done]. cbn [spec]. destruct (forallb _ items); [|done]. cbn [snd].
  generalize (view d). clear. induction items as [|it items IH]; intros gr; [done|]. cbn [fold_left].
  by destruct (IH (g_put_vector gr it)) as [-> ->].
Qed.

Lemma keeps_store_op ie S T (op : st TopologyStore unit) :
  (∀ d, Topology.wf d → Topology.wf (op d).2 ∧ dom (nodes (op d).2) = dom (nodes d) ∧ dom (edges (op d).2) = dom (edges d)) →
  keeps (synced_with ie S T) (on_store op) (synced_with ie S T).
Proof.
  intros Hop g (Hs & Hie & HS & HT). unfold on_store. destruct (Hop (_store g) (proj1 Hs)) as (H1 & H2 & H3).
  destruct (op (_store g)) as [r d']. cbn [snd] in *.
  assert (synced (with_store g d')) as Hs' by (apply synced_grow; [done|done|set_solver|set_solver]).
  destruct r; [|done]. split; [done|]. cbn. by rewrite H2, H3.
Qed.

Lemma keeps_set_vectors ie S T items : keeps (synced_with ie S T) (on_store (set_node_vectors items)) (synced_with ie S T).
Proof.
  apply keeps_store_op. intros d Hwf. pose proof (vector_op_tables (SetVectors items) d Hwf) as H. cbn [run] in H.
  unfold mbind, st_bind in H. destruct (set_node_vectors items d) as [[[]|e] d']; apply H; eauto.
Qed.
Lemma keeps_remove_vector ie S T x : keeps (synced_with ie S T) (on_store (remove_node_vector x)) (synced_with ie S T).
Proof. apply keeps_store_op. intros d Hwf. apply (vector_op_tables (DropVector x) d Hwf). eauto. Qed.

(** Writes to the index: only documents of stored entities. *)
Definition entry_ok (ie : bool) (S T : gset string) (e : string * (content * meta)) : Prop :=
  (∃ x, e.1 = _NODE_PREFIX +:+ x ∧ x ∈ S ∧ e.2.2 !! "kind" = Some "node" ∧ e.2.2 !! "node_id" = Some x) ∨
  (ie = true ∧ ∃ y, e.1 = _EDGE_PREFIX +:+ y ∧ y ∈ T ∧ e.2.2 !! "kind" = Some "edge" ∧ e.2.2 !! "edge_id" = Some y).

Lemma index_all_lookup l m id dd : index_all l m !! id = Some dd →
  m !! id = Some dd ∨ ∃ e, e ∈ l ∧ id = e.1 ∧ dd = indexed e.2.1 e.2.2.
Proof.
  revert m; induction l as [|e l IH]; intros m H; [by left|]. cbn in H. apply IH in H as [H|(e' & ? & ?)].
  - destruct (decide (id = e.1)) as [->|Hne].
    + rewrite lookup_insert_eq in H. injection H as <-. right. exists e. split; [by left|done].
    + rewrite lookup_insert_ne in H by done. by left.
  - right. exists e'. split; [by right|done].
Qed.

Lemma elem_of_take_in {A} (x : A) n l : x ∈ take n l → x ∈ l.
Proof. rewrite <-(take_drop n l) at 2. set_solver. Qed.

Lemma keeps_write ie S T (w : st X unit) l : writes w l → Forall (entry_ok ie S T) l →
  keeps (synced_with ie S T) (on_db w) (synced_with ie S T).
Proof.
  intros Hw HF g ([Hwf Hd] & Hie & HS & HT). unfold on_db. destruct (Hw (_db g)) as (r & x' & -> & _ & Hdocs & _).
  assert (synced (with_db g x')) as Hs.
  { split; [done|]. cbn. intros id dd Hid. destruct Hdocs as [n Hdocs]. rewrite Hdocs in Hid.
    apply index_all_lookup in Hid as [Hid|(e & He%elem_of_take_in & -> & ->)]; [by apply Hd|].
    rewrite Forall_forall in HF. destruct (HF e He) as [(x & -> & Hx & Hm)|(-> & y & -> & Hy & Hm)].
    - left. exists x. split; [done|]. split; [by apply elem_of_dom, HS|done].
    - right. split; [done|]. exists y. split; [done|]. split; [by apply elem_of_dom, HT|done]. }
  by destruct r.
Qed.

Lemma prefix_not_blank p x : p = _NODE_PREFIX ∨ p = _EDGE_PREFIX → is_blank (p +:+ x) = false.
Proof. by intros [-> | ->]. Qed.

(** Removing a document. *)
Lemma remove_doc_run id g : is_blank id = false →
  ∃ g', remove_doc id g = (Ok tt, g') ∧ _store g' = _store g ∧ docs (_db g') = delete id (docs (_db g)) ∧
    (∀ c, accepts (_db g') c = accepts (_db g) c) ∧ index_edges g' = index_edges g ∧ read_only g' = read_only g ∧
    retain_vectors g' = retain_vectors g ∧ vector_only g' = vector_only g.
Proof.
  intros Hb. destruct (remove_law id (_db g) Hb) as (x' & Hr & Hd & Ha). exists (with_db g x').
  split; [|done]. unfold remove_doc, mbind, st_bind, on_db. by rewrite Hr.
Qed.

Lemma keeps_remove_doc ie S T id : is_blank id = false →
  keeps (synced_with ie S T) (remove_doc id) (synced_with ie S T).
Proof.
  intros Hb g ([Hwf Hd] & Hie & HS & HT). destruct (remove_doc_run id g Hb) as (g' & -> & Hst & Hdoc & _ & Hie' & _).
  unfold synced_with, synced. rewrite Hst, Hdoc, Hie'. split; [|done]. split; [done|].
  intros i dd [_ Hi]%lookup_delete_Some. by apply Hd.
Qed.

Lemma node_metadata_facts n :
  node_metadata n !! "kind" = Some "node" ∧ node_metadata n !! "node_id" = Some (n_id n) ∧
  node_metadata n !! "type" = Some (n_type n).
Proof. unfold node_metadata. split_and!; by simplify_map_eq. Qed.
Lemma edge_metadata_facts e :
  edge_metadata e !! "kind" = Some "edge" ∧ edge_metadata e !! "edge_id" = Some (e_id e).
Proof. unfold edge_metadata. split_and!; by simplify_map_eq. Qed.

Lemma node_entry_ok ie S T n c : n_id n ∈ S → entry_ok ie S T (_NODE_PREFIX +:+ n_id n, (c, node_metadata n)).
Proof. intros H. left. exists (n_id n). split_and!; [done..| |]; apply node_metadata_facts. Qed.
Lemma edge_entry_ok S T e c : e_id e ∈ T → entry_ok true S T (_EDGE_PREFIX +:+ e_id e, (c, edge_metadata e)).
Proof. intros H. right. split; [done|]. exists (e_id e). split_and!; [done..| |]; apply edge_metadata_facts. Qed.

Lemma keeps_lode_remove ie S T (m : st kgraph unit) id : is_blank id = false →
  keeps (synced_with ie S T) m (synced_with ie S T) →
  keeps (synced_with ie S T) (_ ← on_db (lode_remove id); m) (synced_with ie S T).
Proof.
  intros Hb Hm. apply (keeps_bind _ _ (synced_with ie S T)); [|by intros _].
  intros g Hg. pose proof (keeps_remove_doc ie S T id Hb g Hg) as H.
  unfold remove_doc, mbind, st_bind in H. by destruct (on_db (lode_remove id) g) as [[]].
Qed.

Lemma keeps_index_node ie S T n embedding : n_id n ∈ S →
  keeps (synced_with ie S T) (_index_node n embedding) (synced_with ie S T).
Proof.
  intros Hn g Hg. unfold _index_node.
  assert (keeps (synced_with ie S T) (when (retain_vectors g) (on_store (remove_node_vector (n_id n)))) (synced_with ie S T))
    as Hdrop by apply keeps_when, keeps_remove_vector.
  destruct embedding as [v|].
  - refine (keeps_bind _ _ (synced_with ie S T) _ _ _ _ g Hg).
    + eapply keeps_write; [apply add_vectors_writes|]. constructor; [|done]. by apply node_entry_ok.
    + intros _. apply keeps_when, keeps_set_vectors.
  - destruct (negb (vector_only g) && negb (is_blank (n_label n))).
    + refine (keeps_bind _ _ (synced_with ie S T) _ _ _ (λ _, Hdrop) g Hg).
      eapply keeps_write; [apply add_writes|]. constructor; [|done]. by apply node_entry_ok.
    + refine (keeps_lode_remove ie S T _ _ _ Hdrop g Hg). by apply prefix_not_blank; left.
Qed.

Lemma keeps_index_edge S T e fact embedding : e_id e ∈ T →
  keeps (synced_with true S T) (_index_edge e fact embedding) (synced_with true S T).
Proof.
  intros He g Hg. unfold _index_edge.
  assert (keeps (synced_with true S T) (_ ← on_db (lode_remove (_EDGE_PREFIX +:+ e_id e)); mret tt) (synced_with true S T))
    as Hdrop by (apply keeps_lode_remove; [by apply prefix_not_blank; right|apply keeps_ret]).
  destruct embedding as [v|]; [|destruct fact as [f|]; [destruct (negb (vector_only g) && negb (is_blank f))|]].
  - refine (keeps_write true S T _ _ _ _ g Hg); [apply add_vectors_writes|]. constructor; [|done]. by apply edge_entry_ok.
  - refine (keeps_write true S T _ _ _ _ g Hg); [apply add_writes|]. constructor; [|done]. by apply edge_entry_ok.
  - exact (Hdrop g Hg).
  - exact (Hdrop g Hg).
Qed.

(** *** The operations *)

Definition item_ok (i : node_item) : Prop := json_ok (PDict (default [] (ni_properties i))) = true.
Definition edge_item_ok (i : edge_item) : Prop := json_ok (PDict (default [] (ei_properties i))) = true.

Lemma synced_start g : synced g → synced_with (index_edges g) ∅ ∅ g.
Proof. intros H. split_and!; [done..|set_solver|set_solver]. Qed.

Lemma keeps_at {A} (m : st kgraph A) g S T : synced g →
  keeps (synced_with (index_edges g) ∅ ∅) m (synced_with (index_edges g) S T) → synced (m g).2.
Proof.
  intros Hg Hk. specialize (Hk g (synced_start g Hg)).
  destruct (m g) as [[a|e] g']; [|done]. by eapply synced_with_synced.
Qed.

Lemma add_node_synced i : item_ok i → ∀ g, synced g → synced (add_node i g).2.
Proof.
  intros Hi g Hg. unfold add_node. eapply keeps_at; [done|].
  eapply keeps_bind; [apply keeps_writable|]. intros _.
  eapply keeps_bind; [apply keeps_upsert_nodes; by repeat constructor|]. intros _.
  eapply keeps_bind; [apply keeps_index_node; set_solver|]. intros _. apply keeps_ret.
Qed.

Lemma add_edge_synced i : edge_item_ok i → ∀ g, synced g → synced (add_edge i g).2.
Proof.
  intros Hi g Hg. unfold add_edge. eapply keeps_at; [done|].
  eapply keeps_bind; [apply keeps_writable|]. intros _.
  eapply keeps_bind; [apply keeps_upsert_edges; by repeat constructor|]. intros _.
  eapply keeps_bind; [|intros _; apply keeps_ret].
  destruct (index_edges g); [|apply keeps_ret]. apply keeps_index_edge. set_solver.
Qed.

(** *** Batches *)

(** What the index should hold for an item. *)
Definition node_content (vonly : bool) (i : node_item) : option content :=
  match ni_embedding i with
  | Some v => Some (Vector v)
  | None => if negb vonly && negb (is_blank (ni_label i)) then Some (Text (ni_label i)) else None
  end.
Definition edge_content (vonly : bool) (i : edge_item) : option content :=
  match ei_embedding i with
  | Some v => Some (Vector v)
  | None => match ei_fact i with
            | Some f => if negb vonly && negb (is_blank f) then Some (Text f) else None
            | None => None
            end
  end.

Definition pick_text {A} (c : option content) (a : A) (m : meta) : option (string * A * meta) :=
  match c with Some (Text s) => Some (s, a, m) | _ => None end.
Definition pick_vector {A} (c : option content) (a : A) (m : meta) : option (list spec_float * A * meta) :=
  match c with Some (Vector v) => Some (v, a, m) | _ => None end.
Definition pick_none {A} (c : option content) (a : A) : option A := match c with None => Some a | _ => None end.
Definition node_doc_id (i : node_item) : string := _NODE_PREFIX +:+ node_id_of i.
Definition edge_doc_id (i : edge_item) : string := _EDGE_PREFIX +:+ edge_id_of i.

Lemma collect_nodes retain vonly items b :
  fold_left (collect_node retain vonly) items b =
  NodeBatch (nb_nodes b ++ map node_of_item items)
    (nb_text b ++ omap (λ i, pick_text (node_content vonly i) (node_doc_id i) (node_metadata (node_of_item i))) items)
    (nb_vectors b ++ omap (λ i, pick_vector (node_content vonly i) (node_doc_id i) (node_metadata (node_of_item i))) items)
    (nb_stale b ++ omap (λ i, pick_none (node_content vonly i) (node_doc_id i)) items)
    (nb_retained b ++ if retain then omap (λ i, (λ v, (node_id_of i, v)) <$> ni_embedding i) items else [])
    (nb_stale_retained b ++ if retain then omap (λ i, match ni_embedding i with Some _ => None | None => Some (node_id_of i) end) items
                            else []).
Proof.
  revert b; induction items as [|i items IH]; intros b; cbn [fold_left omap list_omap map].
  { rewrite !app_nil_r. destruct retain; rewrite ?app_nil_r; by destruct b. }
  rewrite IH. unfold collect_node, node_content.
  destruct (ni_embedding i) as [v|]; [|cbn [node_of_item n_label];
    destruct (negb vonly && negb (is_blank (ni_label i)))]; destruct retain; cbn; rewrite <-?(assoc_L (++)); done.
Qed.

Lemma collect_edges index vonly items b :
  fold_left (collect_edge index vonly) items b =
  EdgeBatch (eb_edges b ++ map edge_of_item items)
    (eb_text b ++ if index then omap (λ i, pick_text (edge_content vonly i) (edge_doc_id i) (edge_metadata (edge_of_item i))) items else [])
    (eb_vectors b ++ if index then omap (λ i, pick_vector (edge_content vonly i) (edge_doc_id i) (edge_metadata (edge_of_item i))) items else [])
    (eb_stale b ++ if index then omap (λ i, pick_none (edge_content vonly i) (edge_doc_id i)) items else []).
Proof.
  revert b; induction items as [|i items IH]; intros b; cbn [fold_left omap list_omap map].
  { destruct index; rewrite !app_nil_r; by destruct b. }
  rewrite IH. unfold collect_edge, edge_content. destruct index; cbn [negb]; [|cbn; by rewrite <-(assoc_L (++))].
  destruct (ei_embedding i) as [v|]; [|destruct (ei_fact i) as [f|]; [destruct (negb vonly && negb (is_blank f))|]];
    cbn; rewrite <-?(assoc_L (++)); done.
Qed.

Lemma add_nodes_synced items : Forall item_ok items → ∀ g, synced g → synced (add_nodes items g).2.
Proof.
  intros HF g Hg. unfold add_nodes. eapply keeps_at; [done|].
  eapply keeps_bind; [apply keeps_writable|]. intros _. rewrite collect_nodes.
  cbn [nb_nodes nb_text nb_vectors nb_stale nb_retained nb_stale_retained app].
  eapply keeps_bind; [apply keeps_upsert_nodes; by apply Forall_map|]. intros _.
  set (S := list_to_set _ ∪ ∅).
  assert (∀ i, i ∈ items → node_id_of i ∈ S) as HS.
  { intros i Hi. unfold S. apply elem_of_union_l, elem_of_list_to_set. rewrite map_map.
    apply list_elem_of_fmap. by exists i. }
  eapply keeps_bind; [apply keeps_forS; intros; apply keeps_remove_vector|]. intros _.
  eapply keeps_bind; [apply keeps_when, keeps_unless_empty, keeps_set_vectors|]. intros _.
  eapply keeps_bind; [apply keeps_forS; intros x (i & Hi & Hx)%list_elem_of_omap; apply keeps_remove_doc|]. 
  { destruct (node_content _ i); [done|]. injection Hx as <-. by apply prefix_not_blank; left. }
  intros _. eapply keeps_bind; [apply keeps_unless_empty; eapply keeps_write; [apply add_many_writes|]|].
  { apply Forall_map, Forall_forall. intros e (i & Hi & He)%list_elem_of_omap.
    destruct (node_content _ i) as [[]|]; try done. injection He as <-.
    by apply (node_entry_ok _ _ _ (node_of_item i)), HS. }
  intros _. eapply keeps_bind; [apply keeps_unless_empty; eapply keeps_write; [apply add_vectors_many_writes|]|].
  { apply Forall_map, Forall_forall. intros e (i & Hi & He)%list_elem_of_omap.
    destruct (node_content _ i) as [[]|]; try done. injection He as <-.
    by apply (node_entry_ok _ _ _ (node_of_item i)), HS. }
  intros _. apply keeps_ret.
Qed.

Lemma add_edges_synced items : Forall edge_item_ok items → ∀ g, synced g → synced (add_edges items g).2.
Proof.
  intros HF g Hg. unfold add_edges. eapply keeps_at; [done|].
  eapply keeps_bind; [apply keeps_writable|]. intros _. rewrite collect_edges.
  cbn [eb_edges eb_text eb_vectors eb_stale app].
  eapply keeps_bind; [apply keeps_upsert_edges; by apply Forall_map|]. intros _.
  set (T := list_to_set _ ∪ ∅).
  assert (∀ i, i ∈ items → edge_id_of i ∈ T) as HT.
  { intros i Hi. unfold T. apply elem_of_union_l, elem_of_list_to_set. rewrite map_map.
    apply list_elem_of_fmap. by exists i. }
  destruct (index_edges g); [|cbn; eapply keeps_bind; [apply keeps_ret|]; intros _; eapply keeps_bind; [apply keeps_ret|];
    intros _; eapply keeps_bind; [apply keeps_ret|]; intros _; apply keeps_ret].
  eapply keeps_bind; [apply keeps_forS; intros x (i & Hi & Hx)%list_elem_of_omap; apply keeps_remove_doc|].
  { destruct (edge_content _ i); [done|]. injection Hx as <-. by apply prefix_not_blank; right. }
  intros _. eapply keeps_bind; [apply keeps_unless_empty; eapply keeps_write; [apply add_many_writes|]|].
  { apply Forall_map, Forall_forall. intros e (i & Hi & He)%list_elem_of_omap.
    destruct (edge_content _ i) as [[]|]; try done. injection He as <-.
    by apply (edge_entry_ok _ _ (edge_of_item i)), HT. }
  intros _. eapply keeps_bind; [apply keeps_unless_empty; eapply keeps_write; [apply add_vectors_many_writes|]|].
  { apply Forall_map, Forall_forall. intros e (i & Hi & He)%list_elem_of_omap.
    destruct (edge_content _ i) as [[]|]; try done. injection He as <-.
    by apply (edge_entry_ok _ _ (edge_of_item i)), HT. }
  intros _. apply keeps_ret.
Qed.

(** *** Removals *)

(** [g'] differs from [g] only in what the index holds. *)
Definition same_but_docs g g' : Prop :=
  _store g' = _store g ∧ (∀ c, accepts (_db g') c = accepts (_db g) c) ∧ index_edges g' = index_edges g ∧
  read_only g' = read_only g ∧ retain_vectors g' = retain_vectors g ∧ vector_only g' = vector_only g.

Lemma same_but_docs_refl g : same_but_docs g g.
Proof. by split_and!. Qed.
Lemma same_but_docs_trans g g' g'' : same_but_docs g g' → same_but_docs g' g'' → same_but_docs g g''.
Proof.
  intros (A1 & A2 & A3 & A4 & A5 & A6) (B1 & B2 & B3 & B4 & B5 & B6).
  split_and!; [congruence|intros c; by rewrite B2, A2|congruence..].
Qed.

Lemma remove_docs_run {A} (f : A → string) l g : Forall (λ x, is_blank (f x) = false) l →
  ∃ g', forS (λ x, remove_doc (f x)) l g = (Ok tt, g') ∧ same_but_docs g g' ∧
    ∀ id, docs (_db g') !! id = if bool_decide (id ∈ map f l) then None else docs (_db g) !! id.
Proof.
  intros HF. revert g. induction HF as [|x l Hx _ IH]; intros g.
  { exists g. split; [done|]. split; [apply same_but_docs_refl|]. intros id. by rewrite bool_decide_eq_false_2 by set_solver. }
  cbn [forS map]. destruct (remove_doc_run (f x) g Hx) as (g1 & H1 & Hst & Hd1 & Hf1).
  destruct (IH g1) as (g2 & H2 & Hs2 & Hd2). exists g2. unfold mbind, st_bind. rewrite H1. split; [done|]. split.
  { by apply (same_but_docs_trans g g1). }
  intros id. rewrite Hd2, Hd1. destruct (decide (id = f x)) as [->|Hne].
  - rewrite lookup_delete_eq, (bool_decide_eq_true_2 (f x ∈ f x :: _)) by set_solver. by destruct (bool_decide _).
  - rewrite lookup_delete_ne by done. erewrite bool_decide_ext; [done|]. set_solver.
Qed.

Lemma node_not_edge_prefix x y : _NODE_PREFIX +:+ x ≠ _EDGE_PREFIX +:+ y.
Proof. done. Qed.

Lemma remove_node_run x g : Topology.wf (_store g) → read_only g = false →
  ∃ incident d' g', Topology.remove_node x (_store g) = (Ok (bool_decide (is_Some (nodes (_store g) !! x)), incident), d') ∧
    remove_node x g = (Ok (bool_decide (is_Some (nodes (_store g) !! x))), g') ∧
    same_but_docs (with_store g d') g' ∧
    ∀ id, docs (_db g') !! id =
      if bool_decide (id = _NODE_PREFIX +:+ x ∨ (index_edges g = true ∧ id ∈ map (λ e, _EDGE_PREFIX +:+ e) incident))
      then None else docs (_db g) !! id.
Proof.
  intros Hwf Hro. destruct (Topology.remove_node x (_store g)) as [r d'] eqn:Hr.
  pose proof (remove_node_eq x (_store g)) as E. rewrite Hr in E. injection E as -> E.
  set (incident := map fst _) in *. exists incident, d'. unfold remove_node.
  unfold mbind at 1, st_bind at 1, _require_writable. rewrite Hro.
  unfold mbind at 1, st_bind at 1, on_store at 1. rewrite Hr. cbn [fst snd].
  destruct (remove_doc_run (_NODE_PREFIX +:+ x) (with_store g d')) as (g1 & H1 & Hs1 & Hd1 & Hf1); [done|].
  unfold mbind at 1, st_bind at 1. rewrite H1. destruct (index_edges g) eqn:Hie; cbn [when].
  - destruct (remove_docs_run (λ e, _EDGE_PREFIX +:+ e) incident g1) as (g2 & H2 & Hs2 & Hd2).
    { apply Forall_forall. by intros. }
    exists g2. unfold mbind, st_bind. rewrite H2. split; [done|]. split; [done|]. split.
    { by apply (same_but_docs_trans _ g1). }
    intros id. rewrite Hd2, Hd1. cbn. destruct (decide (id = _NODE_PREFIX +:+ x)) as [->|Hne].
    + rewrite lookup_delete_eq. rewrite (bool_decide_eq_true_2 (_ ∨ _)) by tauto.
      match goal with |- (if ?b then _ else _) = _ => by destruct b end.
    + rewrite lookup_delete_ne by done. erewrite bool_decide_ext; [done|]. tauto.
  - exists g1. split; [done|]. split; [done|]. split; [done|]. intros id. rewrite Hd1. cbn.
    destruct (decide (id = _NODE_PREFIX +:+ x)) as [->|Hne].
    + by rewrite lookup_delete_eq, bool_decide_eq_true_2 by tauto.
    + rewrite lookup_delete_ne by done. rewrite bool_decide_eq_false_2; [done|]. intros [?|[? _]]; done.
Qed.

Lemma remove_node_synced x : ∀ g, synced g → synced (remove_node x g).2.
Proof.
  intros g [Hwf Hd]. destruct (read_only g) eqn:Hro.
  { unfold remove_node, mbind, st_bind, _require_writable. by rewrite Hro. }
  destruct (remove_node_run x g Hwf Hro) as (incident & d' & g' & Hr & -> & (Hst & _ & Hie & _) & Hdocs). cbn [snd].
  pose proof (remove_node_wf x (_store g) Hwf) as E. rewrite Hr in E. cbn [snd] in E.
  destruct (run_remove_node x (_store g) Hwf) as (d1 & H1 & Hwf' & _). cbn [run] in H1. unfold mbind, st_bind in H1.
  rewrite Hr in H1. apply (f_equal snd) in H1. unfold mret, st_ret in H1. cbn [snd] in H1. subst d1.
  assert (incident = map fst (select edge_column (incident_to x) (edges (_store g)))) as Hinc.
  { rewrite remove_node_eq in Hr. by injection Hr. }
  split; [by rewrite Hst|]. rewrite Hst, Hie. cbn [_store with_store index_edges].
  intros id dd Hid. rewrite Hdocs in Hid. case_bool_decide as Hn; [done|].
  destruct (Hd id dd Hid) as [(y & -> & Hy & Hm)|(Hi & y & -> & Hy & Hm)].
  - left. exists y. split; [done|]. split; [|done]. rewrite E. cbn. rewrite lookup_delete_ne; [done|].
    intros ->. apply Hn. by left.
  - right. split; [done|]. exists y. split; [done|]. split; [|done]. destruct Hy as [r Hyr].
    exists r. rewrite E. cbn [edges]. apply kept_edges. split; [done|].
    destruct (decide (er_src r = x ∨ er_dst r = x)) as [Hx|Hx]; [|tauto]. destruct Hn. right. split; [done|].
    apply list_elem_of_fmap. exists y. split; [done|]. rewrite Hinc. apply incident_ids. by exists r.
Qed.

Lemma remove_edge_synced y : ∀ g, synced g → synced (remove_edge y g).2.
Proof.
  intros g [Hwf Hd]. unfold remove_edge, mbind at 1, st_bind at 1, _require_writable. destruct (read_only g); [done|].
  set (d' := Topology (nodes (_store g)) (delete y (edges (_store g))) (node_vectors (_store g))).
  assert (Topology.wf d') as Hwf'.
  { destruct Hwf as (H1 & H2 & H3). split_and!; [done| |done]. by apply map_Forall_delete. }
  unfold mbind at 1, st_bind at 1, on_store, Topology.remove_edge, transaction. fold d'.
  destruct (index_edges g) eqn:Hie; cbn [when].
  - destruct (remove_doc_run (_EDGE_PREFIX +:+ y) (with_store g d')) as (g1 & H1 & Hst & Hd1 & _ & Hie1 & _); [done|].
    unfold mbind, st_bind, mret, st_ret. rewrite H1. cbn [snd]. split; [by rewrite Hst|]. rewrite Hst, Hie1, Hd1. cbn.
    intros id dd [Hne Hid]%lookup_delete_Some. rewrite Hie.
    destruct (Hd id dd Hid) as [Hn|(Hi & z & -> & Hz & Hm)]; [by left|]. right. split; [done|].
    exists z. split; [done|]. split; [|done]. cbn. rewrite lookup_delete_ne; [done|]. by intros ->.
  - cbn. split; [done|]. cbn. intros id dd Hid. destruct (Hd id dd Hid) as [Hn|(Hi & _)]; [by left|].
    congruence.
Qed.
End sync.

(** ** Keyed assignments *)

(** [m[k] = v] or, for [None], [del m[k]]. *)
Section assign.
Context {V : Type}.
Implicit Types (l : list (string * option V)) (m : gmap string V).

Definition assign m (e : string * option V) : gmap string V := partial_alter (λ _, e.2) e.1 m.
Definition assign_all l m : gmap string V := fold_left assign l m.

Lemma assign_Some k v m : assign m (k, Some v) = <[k := v]> m.
Proof. done. Qed.
Lemma assign_None k m : assign m (k, None) = delete k m.
Proof. done. Qed.

Lemma assign_all_out l m k : k ∉ l.*1 → assign_all l m !! k = m !! k.
Proof.
  revert m; induction l as [|e l IH]; intros m; [done|]. cbn. rewrite not_elem_of_cons. intros [Hne Hk].
  rewrite IH by done. unfold assign. by rewrite lookup_partial_alter_ne.
Qed.

Lemma assign_all_in l m k v : NoDup l.*1 → (k, v) ∈ l → assign_all l m !! k = v.
Proof.
  revert m; induction l as [|[k' v'] l IH]; intros m; cbn; [by intros _ ?%elem_of_nil|].
  intros [Hni Hnd]%NoDup_cons [[= -> ->]|Hin]%elem_of_cons; [|by apply IH].
  rewrite assign_all_out by done. unfold assign. cbn. by rewrite lookup_partial_alter_eq.
Qed.

(** With distinct keys the order does not matter. *)
Lemma assign_all_perm l1 l2 m : NoDup l1.*1 → l1 ≡ₚ l2 → assign_all l1 m = assign_all l2 m.
Proof.
  intros Hnd Hp. apply map_eq. intros k.
  assert (NoDup l2.*1) as Hnd2 by (by rewrite <-Hp).
  destruct (decide (k ∈ l1.*1)) as [Hk|Hk].
  - apply list_elem_of_fmap in Hk as ([k' v] & -> & Hin). cbn.
    rewrite (assign_all_in l1 m k' v), (assign_all_in l2 m k' v) by (done || by rewrite <-Hp). done.
  - rewrite !assign_all_out; [done| |done]. by rewrite <-Hp.
Qed.

Lemma assign_all_app l1 l2 m : assign_all (l1 ++ l2) m = assign_all l2 (assign_all l1 m).
Proof. apply fold_left_app. Qed.
End assign.

Section batch.
Context {X : Type} {LI : LodeIndex X} {LL : LodeIndexLaws X} {SQ : Sqlite} {SL : SqliteLaws SQ} {PS : PySets}.
Local Notation kgraph := (KnowledgeGraph X).
Implicit Types g : kgraph.

Lemma index_all_assign l m :
  index_all l m = assign_all (map (λ e, (e.1, Some (indexed e.2.1 e.2.2))) l) m.
Proof. revert m; induction l as [|e l IH]; intros m; [done|]. cbn. apply IH. Qed.

Lemma write_run (w : st X unit) l g : writes w l → l ≠ [] → NoDup l.*1 →
  Forall (λ e, is_blank e.1 = false ∧ accepts (_db g) e.2.1 = true) l →
  ∃ g', on_db w g = (Ok tt, g') ∧ same_but_docs g g' ∧ docs (_db g') = index_all l (docs (_db g)).
Proof.
  intros Hw Hne Hnd HF. destruct (Hw (_db g)) as (r & x' & Hr & Ha & _ & Hok & Hs).
  exists (with_db g x'). unfold on_db. rewrite Hr, (Hs Hne Hnd HF) in *. split; [done|]. split; [|by apply Hok].
  split_and!; [done|exact Ha|done..].
Qed.

Lemma write_unless_empty {A} (entry : A → string * (content * meta)) (w : list A → st X unit) (l : list A) g :
  (∀ l, writes (w l) (map entry l)) → NoDup (map entry l).*1 →
  Forall (λ e, is_blank e.1 = false ∧ accepts (_db g) e.2.1 = true) (map entry l) →
  ∃ g', unless_empty l (λ l, on_db (w l)) g = (Ok tt, g') ∧ same_but_docs g g' ∧
    docs (_db g') = index_all (map entry l) (docs (_db g)).
Proof.
  intros Hw Hnd HF. destruct l as [|a l]; [|by apply write_run].
  exists g. split; [done|]. split; [apply same_but_docs_refl|done].
Qed.

(** *** The effect of one item *)

Definition row_of (n : Node) : string * node_row :=
  (n_id n, NodeRow (n_type n) (n_label n) (of_chars (json_text unsorted 0 (n_properties n)))).

Definition item_vector (i : node_item) : string * option (list spec_float) :=
  (node_id_of i, map to_float32 <$> ni_embedding i).
Definition item_doc (vonly : bool) (i : node_item) : string * option document :=
  (node_doc_id i, (λ c, indexed c (node_metadata (node_of_item i))) <$> node_content vonly i).

Definition put_row (m : gmap string node_row) (n : Node) : gmap string node_row := <[(row_of n).1 := (row_of n).2]> m.
Definition put_rows (ns : list Node) (d : TopologyStore) : TopologyStore :=
  Topology (fold_left put_row ns (nodes d)) (edges d) (node_vectors d).
Definition set_vectors (l : list (string * option (list spec_float))) (d : TopologyStore) : TopologyStore :=
  Topology (nodes d) (edges d) (assign_all l (node_vectors d)).

Lemma upsert_nodes_run ns d : Forall (λ n, json_ok (n_properties n) = true) ns →
  upsert_nodes ns d = (Ok tt, put_rows ns d).
Proof.
  intros HF. unfold upsert_nodes, mbind, st_bind, st_lift.
  assert (mapR node_row_of ns = Ok (map row_of ns)) as ->.
  { rewrite <-mapR_total. apply mapR_ext. eapply Forall_impl; [exact HF|]. intros n Hn. unfold node_row_of.
    by rewrite dumps_ok. }
  assert (transaction (forS (λ r, st_update (insert_node r)) (map row_of ns)) d = (Ok tt, put_rows ns d)) as H.
  { unfold transaction. rewrite (forS_total _ insert_node) by done. f_equal. clear.
    revert d. induction ns as [|n ns IH]; intros d; [by destruct d|]. cbn [map fold_left]. by rewrite IH. }
  destruct ns as [|n ns]; [by destruct d|]. exact H.
Qed.

Lemma drop_vector_run x d : remove_node_vector x d = (Ok tt, set_vectors [(x, None)] d).
Proof. done. Qed.

Lemma set_vectors_run items d : Forall (λ it, is_Some (nodes d !! it.1)) items →
  set_node_vectors items d = (Ok tt, set_vectors (map (λ it, (it.1, Some (map to_float32 it.2))) items) d).
Proof.
  intros HF. assert (forS insert_vector (map (λ it, (it.1, map to_float32 it.2)) items) d
    = (Ok tt, set_vectors (map (λ it, (it.1, Some (map to_float32 it.2))) items) d)) as H.
  { revert d HF. induction items as [|it items IH]; intros d HF; [by destruct d|].
    apply Forall_cons in HF as [Hit HF]. cbn [map forS]. unfold mbind, st_bind, insert_vector at 1. cbn [fst snd].
    rewrite (bool_decide_eq_true_2 _ Hit), orb_true_r. by rewrite IH. }
  unfold set_node_vectors. destruct items as [|it items]; [done|]. cbn [map] in *. unfold transaction. by rewrite H.
Qed.

Lemma put_rows_nodes ns d x : x ∈ map n_id ns → is_Some (nodes (put_rows ns d) !! x).
Proof.
  cbn [put_rows nodes]. generalize (nodes d).
  assert (∀ ns m y, is_Some (m !! y) → is_Some (fold_left put_row ns m !! y)) as H.
  { clear. intros ns. induction ns as [|n ns IH]; intros m y Hy; [done|]. cbn [fold_left]. apply IH. unfold put_row.
    destruct (decide (n_id n = y)) as [<-|]; [by rewrite lookup_insert_eq|by rewrite lookup_insert_ne]. }
  induction ns as [|n ns IH]; cbn [map fold_left]; intros m; [by intros ?%elem_of_nil|].
  intros [->|Hx]%elem_of_cons; [|by apply IH]. apply H. unfold put_row. by rewrite lookup_insert_eq.
Qed.

(** *** One node, many nodes *)

Definition after_nodes (retain : bool) (items : list node_item) (d : TopologyStore) : TopologyStore :=
  let d' := put_rows (map node_of_item items) d in
  if retain then set_vectors (map item_vector items) d' else d'.
Definition docs_after (vonly : bool) (items : list node_item) (m : gmap string document) : gmap string document :=
  assign_all (map (item_doc vonly) items) m.

Definition became g g' (d : TopologyStore) (m : gmap string document) : Prop :=
  same_but_docs (with_store g d) g' ∧ docs (_db g') = m.

Definition takes g (i : node_item) : Prop :=
  item_ok i ∧ ∀ c, node_content (vector_only g) i = Some c → accepts (_db g) c = true.

Lemma when_vectors_run g g0 (i : node_item) : n_id (node_of_item i) ∈ dom (nodes (_store g)) →
  match ni_embedding i with
  | Some v => when (retain_vectors g0) (on_store (set_node_vectors [(n_id (node_of_item i), v)])) g
  | None => when (retain_vectors g0) (on_store (remove_node_vector (n_id (node_of_item i)))) g
  end = (Ok tt, with_store g (if retain_vectors g0 then set_vectors [item_vector i] (_store g) else _store g)).
Proof.
  intros Hn. unfold item_vector. destruct (ni_embedding i) as [v|], (retain_vectors g0); cbn [when]; [|by destruct g|done|by destruct g].
  unfold on_store. rewrite set_vectors_run; [done|]. constructor; [|done]. by apply elem_of_dom.
Qed.

Lemma index_node_run g (i : node_item) : takes g i → node_id_of i ∈ dom (nodes (_store g)) →
  ∃ g', _index_node (node_of_item i) (ni_embedding i) g = (Ok tt, g') ∧
    became g g' (if retain_vectors g then set_vectors [item_vector i] (_store g) else _store g)
      (assign (docs (_db g)) (item_doc (vector_only g) i)).
Proof.
  intros [_ Hacc] Hn. unfold _index_node, item_doc. unfold node_content in *.
  pose proof (λ g1, when_vectors_run g1 g i) as Hv.
  destruct (ni_embedding i) as [v|]; [|cbn [node_of_item n_label] in *; destruct (negb (vector_only g) && negb (is_blank (ni_label i)))].
  - destruct (write_run (lode_add_vectors v (_NODE_PREFIX +:+ n_id (node_of_item i)) (node_metadata (node_of_item i))) _ g
      (add_vectors_writes _ _ _)) as (g1 & H1 & Hs1 & Hd1); [done|apply NoDup_singleton|by repeat constructor; auto|].
    unfold mbind, st_bind. rewrite H1. pose proof Hs1 as (Hst & Ha & F1 & F2 & F3 & F4).
    eexists. split; [rewrite Hv by (by rewrite Hst); done|]. split; [|exact Hd1].
    rewrite Hst. split_and!; cbn; done.
  - destruct (write_run (lode_add (ni_label i) (_NODE_PREFIX +:+ n_id (node_of_item i)) (node_metadata (node_of_item i))) _ g
      (add_writes _ _ _)) as (g1 & H1 & Hs1 & Hd1); [done|apply NoDup_singleton|by repeat constructor; auto|].
    unfold mbind, st_bind. rewrite H1. pose proof Hs1 as (Hst & Ha & F1 & F2 & F3 & F4).
    eexists. split; [rewrite Hv by (by rewrite Hst); done|]. split; [|exact Hd1].
    rewrite Hst. split_and!; cbn; done.
  - destruct (remove_law (_NODE_PREFIX +:+ n_id (node_of_item i)) (_db g)) as (x' & Hr & Hd & Ha); [done|].
    unfold mbind, st_bind, on_db at 1. rewrite Hr. eexists. split; [rewrite Hv by done; done|].
    split; [|exact Hd]. split_and!; cbn; done.
Qed.

Lemma add_node_run g i : read_only g = false → takes g i →
  ∃ g', add_node i g = (Ok (node_id_of i), g') ∧
    became g g' (after_nodes (retain_vectors g) [i] (_store g)) (docs_after (vector_only g) [i] (docs (_db g))).
Proof.
  intros Hro Ht. unfold add_node. unfold mbind at 1, st_bind at 1, _require_writable. rewrite Hro.
  unfold mbind at 1, st_bind at 1, on_store, upsert_node. rewrite upsert_nodes_run by (constructor; [apply Ht|done]).
  destruct (index_node_run (with_store g (put_rows [node_of_item i] (_store g))) i Ht) as (g' & H & Hs & Hd).
  { apply elem_of_dom, put_rows_nodes. by left. }
  exists g'. unfold mbind, st_bind. rewrite H. split; [done|]. by split.
Qed.

Fixpoint add_each (items : list node_item) : st kgraph (list string) :=
  match items with
  | [] => mret []
  | i :: items => x ← add_node i; xs ← add_each items; mret (x :: xs)
  end.

Lemma after_nodes_cons retain i items d :
  after_nodes retain (i :: items) d = after_nodes retain items (after_nodes retain [i] d).
Proof. by destruct retain. Qed.

Lemma add_each_run items g : read_only g = false → Forall (takes g) items →
  ∃ g', add_each items g = (Ok (map node_id_of items), g') ∧
    became g g' (after_nodes (retain_vectors g) items (_store g)) (docs_after (vector_only g) items (docs (_db g))).
Proof.
  revert g. induction items as [|i items IH]; intros g Hro HF.
  { exists g. split; [done|]. split; [|done]. unfold after_nodes. split_and!; try done. cbn.
    destruct (_store g). by destruct (retain_vectors g). }
  apply Forall_cons in HF as [Hi HF]. cbn [add_each map]. destruct (add_node_run g i Hro Hi) as (g1 & H1 & Hs1 & Hd1).
  destruct Hs1 as (Hst & Ha & F1 & F2 & F3 & F4).
  destruct (IH g1) as (g2 & H2 & Hs2 & Hd2).
  { by rewrite F2. }
  { eapply Forall_impl; [exact HF|]. intros j [Hj1 Hj2]. split; [done|]. intros c. rewrite F4, Ha. apply Hj2. }
  exists g2. unfold mbind, st_bind. rewrite H1, H2. split; [done|].
  destruct Hs2 as (Hst2 & Ha2 & G1 & G2 & G3 & G4). split.
  - split_and!; cbn in *; [|intros c; by rewrite Ha2, Ha|congruence..].
    rewrite Hst2, F3, Hst. symmetry. apply after_nodes_cons.
  - rewrite Hd2, Hd1, F4. done.
Qed.

(** The stages of a batch, in the order of the code, amount to the items in their own order. *)
Lemma stages_docs vonly items :
  map (λ x, (x, None)) (omap (λ i, pick_none (node_content vonly i) (node_doc_id i)) items)
  ++ map (λ e, (e.1, Some (indexed e.2.1 e.2.2))) (map text_entry
       (omap (λ i, pick_text (node_content vonly i) (node_doc_id i) (node_metadata (node_of_item i))) items))
  ++ map (λ e, (e.1, Some (indexed e.2.1 e.2.2))) (map vector_entry
       (omap (λ i, pick_vector (node_content vonly i) (node_doc_id i) (node_metadata (node_of_item i))) items))
  ≡ₚ map (item_doc vonly) items.
Proof.
  induction items as [|i items IH]; [done|]. cbn [omap list_omap map]. rewrite <-IH. unfold item_doc at 1.
  destruct (node_content vonly i) as [[s|v]|]; cbn [pick_none pick_text pick_vector map app fmap option_fmap option_map].
  - by rewrite <-Permutation_middle.
  - rewrite (assoc_L (++)), <-Permutation_middle. by rewrite <-(assoc_L (++)).
  - done.
Qed.

Lemma stages_vectors items :
  map (λ x, (x, None)) (omap (λ i, match ni_embedding i with Some _ => None | None => Some (node_id_of i) end) items)
  ++ map (λ it, (it.1, Some (map to_float32 it.2))) (omap (λ i, (λ v, (node_id_of i, v)) <$> ni_embedding i) items)
  ≡ₚ map item_vector items.
Proof.
  induction items as [|i items IH]; [done|]. cbn [omap list_omap map]. rewrite <-IH. unfold item_vector at 1.
  destruct (ni_embedding i) as [v|]; cbn; [by rewrite <-Permutation_middle|done].
Qed.

Lemma drop_vectors_run l g : forS (λ x, on_store (remove_node_vector x)) l g
  = (Ok tt, with_store g (set_vectors (map (λ x, (x, None)) l) (_store g))).
Proof.
  revert g; induction l as [|x l IH]; intros g; cbn [forS map]; [by destruct g as [[]]|].
  unfold mbind, st_bind, on_store at 1. rewrite drop_vector_run. by rewrite IH.
Qed.

Lemma remove_docs_assign l g : Forall (λ x, is_blank x = false) l →
  ∃ g', forS remove_doc l g = (Ok tt, g') ∧ same_but_docs g g' ∧
    docs (_db g') = assign_all (map (λ x, (x, None)) l) (docs (_db g)).
Proof.
  intros HF. revert g. induction HF as [|x l Hx _ IH]; intros g.
  { exists g. split; [done|]. by split; [apply same_but_docs_refl|]. }
  cbn [forS map]. destruct (remove_doc_run x g Hx) as (g1 & H1 & Hst & Hd1 & Hf1).
  destruct (IH g1) as (g2 & H2 & Hs2 & Hd2). exists g2. unfold mbind, st_bind. rewrite H1. split; [done|]. split.
  { by apply (same_but_docs_trans g g1). }
  by rewrite Hd2, Hd1.
Qed.

Lemma node_doc_ids_NoDup items : NoDup (map node_id_of items) → NoDup (map node_doc_id items).
Proof.
  intros H. replace (map node_doc_id items) with (map (λ x, _NODE_PREFIX +:+ x) (map node_id_of items)) by (by rewrite map_map).
  apply (NoDup_fmap_2_strong (λ x, _NODE_PREFIX +:+ x)); [|done]. intros x y _ _. apply sapp_inj_l.
Qed.

(** The index half of a batch. *)
Lemma batch_docs_run vonly items g : NoDup (map node_id_of items) →
  Forall (λ i, ∀ c, node_content vonly i = Some c → accepts (_db g) c = true) items →
  ∃ g', (_ ← forS remove_doc (omap (λ i, pick_none (node_content vonly i) (node_doc_id i)) items);
         _ ← unless_empty (omap (λ i, pick_text (node_content vonly i) (node_doc_id i) (node_metadata (node_of_item i))) items)
               (λ l, on_db (lode_add_many l));
         _ ← unless_empty (omap (λ i, pick_vector (node_content vonly i) (node_doc_id i) (node_metadata (node_of_item i))) items)
               (λ l, on_db (lode_add_vectors_many l));
         mret (map node_id_of items)) g = (Ok (map node_id_of items), g') ∧
    same_but_docs g g' ∧ docs (_db g') = docs_after vonly items (docs (_db g)).
Proof.
  intros Hnd Hacc. pose proof (stages_docs vonly items) as Hperm.
  assert (NoDup (map (item_doc vonly) items).*1) as Hnd'.
  { replace ((map (item_doc vonly) items).*1) with (map node_doc_id items); [by apply node_doc_ids_NoDup|].
    clear. induction items as [|i items IH]; [done|]. cbn [map fmap list_fmap]. by f_equal. }
  pose proof Hnd' as Hnd2. rewrite <-Hperm, !fmap_app in Hnd2.
  apply NoDup_app in Hnd2 as (_ & _ & (Hndt & _ & Hndv)%NoDup_app).
  assert (∀ l : list (string * (content * meta)), (map (λ e, (e.1, Some (indexed e.2.1 e.2.2))) l).*1 = l.*1) as Hfst.
  { intros l. induction l as [|e l IH]; [done|]. cbn. by f_equal. }
  rewrite Hfst in Hndt, Hndv.
  set (stale := omap (λ i, pick_none _ (node_doc_id i)) items) in *.
  set (text := omap (λ i, pick_text _ (node_doc_id i) _) items) in *.
  set (vecs := omap (λ i, pick_vector _ (node_doc_id i) _) items) in *.
  rewrite Forall_forall in Hacc.
  destruct (remove_docs_assign stale g) as (g1 & H1 & Hs1 & Hd1).
  { apply Forall_forall. intros x (i & _ & Hx)%list_elem_of_omap. destruct (node_content vonly i); [done|]. by injection Hx as <-. }
  destruct (write_unless_empty text_entry lode_add_many text g1 add_many_writes Hndt) as (g2 & H2 & Hs2 & Hd2).
  { apply Forall_map, Forall_forall. intros e (i & Hi & He)%list_elem_of_omap.
    destruct (node_content vonly i) as [[]|] eqn:Ec; try done. injection He as <-. split; [done|].
    destruct Hs1 as (_ & -> & _). by apply (Hacc i Hi). }
  pose proof (same_but_docs_trans _ _ _ Hs1 Hs2) as Hs12.
  destruct (write_unless_empty vector_entry lode_add_vectors_many vecs g2 add_vectors_many_writes Hndv) as (g3 & H3 & Hs3 & Hd3).
  { apply Forall_map, Forall_forall. intros e (i & Hi & He)%list_elem_of_omap.
    destruct (node_content vonly i) as [[]|] eqn:Ec; try done. injection He as <-. split; [done|].
    destruct Hs12 as (_ & -> & _). by apply (Hacc i Hi). }
  exists g3. unfold mbind, st_bind. rewrite H1, H2, H3. split; [done|]. split; [by apply (same_but_docs_trans _ g2)|].
  rewrite Hd3, Hd2, Hd1, !index_all_assign, <-!assign_all_app. unfold docs_after.
  symmetry. apply assign_all_perm; [done|]. by rewrite <-Hperm.
Qed.

Lemma batch_vectors (retain : bool) (items : list node_item) (d : TopologyStore) : NoDup (map node_id_of items) →
  set_vectors (map (λ it : string * list spec_float, (it.1, Some (map to_float32 it.2))) (if retain then omap (λ i, (λ v, (node_id_of i, v)) <$> ni_embedding i) items else []))
    (set_vectors (map (λ x, (x, None)) (if retain then omap (λ i, match ni_embedding i with Some _ => None | None => Some (node_id_of i) end) items else [])) d)
  = if retain then set_vectors (map item_vector items) d else d.
Proof.
  intros Hnd. destruct retain; [|by destruct d]. unfold set_vectors. cbn [nodes edges node_vectors]. f_equal.
  rewrite <-assign_all_app. symmetry. apply assign_all_perm; [|by rewrite stages_vectors].
  replace ((map item_vector items).*1) with (map node_id_of items); [done|].
  clear. induction items as [|i items IH]; [done|]. cbn. by f_equal.
Qed.

Lemma add_nodes_run items g : read_only g = false → NoDup (map node_id_of items) → Forall (takes g) items →
  ∃ g', add_nodes items g = (Ok (map node_id_of items), g') ∧
    became g g' (after_nodes (retain_vectors g) items (_store g)) (docs_after (vector_only g) items (docs (_db g))).
Proof.
  intros Hro Hnd HF. unfold add_nodes. rewrite collect_nodes.
  cbn [nb_nodes nb_text nb_vectors nb_stale nb_retained nb_stale_retained app].
  unfold mbind at 1, st_bind at 1, _require_writable. rewrite Hro.
  unfold mbind at 1, st_bind at 1, on_store at 1. rewrite upsert_nodes_run.
  2:{ apply Forall_map. eapply Forall_impl; [exact HF|]. by intros i [? _]. }
  set (d1 := put_rows (map node_of_item items) (_store g)).
  unfold mbind at 1, st_bind at 1. rewrite drop_vectors_run. cbn [_store with_store].
  set (d2 := set_vectors _ d1). set (ret := if retain_vectors g then _ else _).
  unfold mbind at 1, st_bind at 1.
  assert (when (retain_vectors g) (unless_empty ret (λ l, on_store (set_node_vectors l))) (with_store (with_store g d1) d2)
    = (Ok tt, with_store g (set_vectors (map (λ it, (it.1, Some (map to_float32 it.2))) ret) d2))) as ->.
  { unfold ret. clear ret. destruct (retain_vectors g); cbn [when]; [|done].
    set (ret := omap _ items). assert (∀ g0, on_store (set_node_vectors ret) g0 = (Ok tt, with_store g0
      (set_vectors (map (λ it, (it.1, Some (map to_float32 it.2))) ret) (_store g0))) →
      unless_empty ret (λ l, on_store (set_node_vectors l)) g0 = (Ok tt, with_store g0
      (set_vectors (map (λ it, (it.1, Some (map to_float32 it.2))) ret) (_store g0)))) as Hue
      by (intros g0; destruct ret; [intros _; by destruct g0 as [[]]|done]).
    rewrite Hue; [done|]. unfold on_store. rewrite set_vectors_run; [done|]. apply Forall_forall.
    intros e (i & Hi & He)%list_elem_of_omap. apply fmap_Some in He as (v & _ & ->). cbn.
    apply put_rows_nodes. rewrite map_map. apply list_elem_of_fmap. by exists i. }
  assert (set_vectors (map (λ it, (it.1, Some (map to_float32 it.2))) ret) d2
    = after_nodes (retain_vectors g) items (_store g)) as -> by (by apply batch_vectors).
  destruct (batch_docs_run (vector_only g) items (with_store g (after_nodes (retain_vectors g) items (_store g))))
    as (g' & H & Hs & Hd); [done| |].
  { eapply Forall_impl; [exact HF|]. by intros i [_ ?]. }
  exists g'. split; [exact H|]. by split.
Qed.
End batch.

(** ** An index to evaluate with: the collection itself *)

Definition map_accepts (c : content) : bool := match c with Text s => negb (is_blank s) | Vector _ => true end.

Definition map_write (l : list (string * (content * meta))) : st (gmap string document) unit := λ x,
  if forallb (λ e, negb (is_blank e.1) && map_accepts e.2.1) l
  then (Ok tt, fold_left (λ m e, <[e.1 := Document e.2.1 e.2.2]> m) l x)
  else (raise ValueError "refused", x).

Definition matches_coerced (m : meta) (f : pyval) : result bool :=
  f' ← coerce_sdk_filter f; matches_metadata_filter m f'.

Definition matching (f : pyval) (x : gmap string document) : list (string * document) :=
  List.filter (λ e, match matches_coerced (doc_metadata e.2) f with Ok b => b | Err _ => false end) (items_sorted x).

Definition map_hits (k : Z) (f : pyval) (x : gmap string document) : list LodeSearchHit :=
  map (λ e, Hit (S754_zero false) e.1 (doc_metadata e.2)) (take (Z.to_nat k) (matching f x)).

Global Instance map_index : LodeIndex (gmap string document) := {|
  docs := id;
  accepts := λ _, map_accepts;
  stored := id;
  lode_add := λ text id m, map_write [(id, (Text text, m))];
  lode_add_vectors := λ v id m, map_write [(id, (Vector v, m))];
  lode_add_many := λ l, map_write (map text_entry l);
  lode_add_vectors_many := λ l, map_write (map vector_entry l);
  lode_remove := λ id x, if is_blank id then (raise ValueError "refused", x)
                         else (Ok (bool_decide (is_Some (x !! id))), delete id x);
  lode_list_documents := λ f x, Ok (map fst (matching f x));
  lode_search := λ _ k f _ x, Ok (map_hits k f x);
  lode_search_by_vector := λ _ k f x, Ok (map_hits k f x);
  lode_count := λ x, Z.of_nat (size x) |}.

(** [{key: value}] on one field. *)
Definition has (key value : string) (m : meta) : bool := stored_eq (m !! key) (PStr value).

Lemma has_true key value m : has key value m = true ↔ m !! key = Some value.
Proof.
  unfold has, stored_eq. destruct (m !! key) as [s|]; [|done]. rewrite bool_decide_eq_true. split; [by intros ->|by intros [= ->]].
Qed.

Lemma compile_kind kind : compile_node (dict_of [("kind", PStr kind)]) = Ok (λ m, Ok (has "kind" kind m)).
Proof. cbn. by rewrite !bool_decide_eq_false_2 by done. Qed.
Lemma compile_kind_type kind type :
  compile_node (dict_of [("kind", PStr kind); ("type", PStr type)])
  = Ok (λ m, all_of m [(λ m, Ok (has "kind" kind m)); (λ m, Ok (has "type" type m))]).
Proof. cbn. by rewrite !bool_decide_eq_false_2 by done. Qed.

Lemma kind_filter_matches m kind : matches_metadata_filter m (kind_filter kind) = Ok (bool_decide (m !! "kind" = Some kind)).
Proof.
  unfold matches_metadata_filter, kind_filter. rewrite compile_kind. cbn. f_equal. apply Bool.eq_iff_eq_true.
  by rewrite has_true, bool_decide_eq_true.
Qed.

(** The filters the graph builds are already in the engine's strings. *)
Lemma coerce_kind kind : coerce_sdk_filter (kind_filter kind) = Ok (kind_filter kind).
Proof. reflexivity. Qed.

Lemma elem_of_matching f x e :
  e ∈ matching f x ↔ x !! e.1 = Some e.2 ∧ matches_coerced (doc_metadata e.2) f = Ok true.
Proof.
  unfold matching. rewrite list_elem_of_In, filter_In, <-list_elem_of_In. destruct e as [k d]. rewrite elem_of_items_sorted.
  cbn. destruct (matches_coerced (doc_metadata d) f) as [b|]; naive_solver.
Qed.

Lemma map_write_writes l : writes (map_write l) l.
Proof.
  intros x. unfold map_write. destruct (forallb _ l) eqn:E.
  - exists (Ok tt), (index_all l x). split; [done|]. split; [done|]. split; [|by split].
    exists (length l). by rewrite firstn_all.
  - eexists _, x. split; [done|]. split; [done|]. split; [by exists 0%nat|]. split; [done|]. intros _ _ HF.
    exfalso. apply not_true_iff_false in E. apply E. apply forallb_forall.
    intros e He%list_elem_of_In. rewrite Forall_forall in HF. destruct (HF e He) as [-> Ha]. exact Ha.
Qed.

Lemma map_hits_law k f x : Forall (hit_ok f x) (map_hits k f x).
Proof.
  apply Forall_map, Forall_forall. intros e He. assert (e ∈ matching f x) as [H1 H2]%elem_of_matching.
  { rewrite <-(take_drop (Z.to_nat k)). set_solver. }
  unfold matches_coerced in H2. destruct (coerce_sdk_filter f) as [f'|] eqn:Ef; [|done]. exists e.2, f'. done.
Qed.

Global Instance map_index_laws : LodeIndexLaws (gmap string document).
Proof.
  constructor.
  - intros text id m. apply map_write_writes.
  - intros v id m. apply map_write_writes.
  - intros l. apply map_write_writes.
  - intros l. apply map_write_writes.
  - intros id x Hb. cbn. rewrite Hb. by eexists.
  - intros kind x. eexists. split; [done|]. split.
    + unfold matching. apply (sublist_NoDup _ (map fst (items_sorted x))).
      * rewrite items_sorted_perm. apply NoDup_fst_map_to_list.
      * set (keep := λ e : string * document, _). generalize (items_sorted x), keep. clear. intros l keep.
        induction l as [|e l IH]; [done|]. cbn. destruct (keep e); cbn; by constructor.
    + intros id. rewrite list_elem_of_fmap. split.
      * intros (e & -> & [H1 H2]%elem_of_matching). exists e.2. split; [done|].
        unfold matches_coerced in H2. rewrite coerce_kind in H2. cbn [mbind result_bind] in H2.
        rewrite kind_filter_matches in H2. injection H2 as H2. by apply bool_decide_eq_true_1 in H2.
      * intros (d & Hd & Hk). exists (id, d). split; [done|]. apply elem_of_matching. split; [done|].
        unfold matches_coerced. rewrite coerce_kind. cbn [mbind result_bind].
        rewrite kind_filter_matches. by rewrite bool_decide_eq_true_2.
  - intros query k f mode x hits _ [= <-]. apply map_hits_law.
  - intros v k f x hits _ [= <-]. apply map_hits_law.
Qed.

(** ** Searching *)

Section search.
Context {X : Type} {LI : LodeIndex X} {LL : LodeIndexLaws X} {SQ : Sqlite} {SL : SqliteLaws SQ} {PS : PySets}.
Local Notation kgraph := (KnowledgeGraph X).
Implicit Types g : kgraph.

(** What a match of the scoped filter says of a document. *)
Lemma all_of_Ok m (p : pred) ps : all_of m (p :: ps) = Ok true → p m = Ok true ∧ all_of m ps = Ok true.
Proof. cbn. by destruct (p m) as [[]|]. Qed.

Definition base_filter (kind : string) (entity_type : option string) : pyval :=
  match entity_type with
  | Some t => dict_of [("kind", PStr kind); ("type", PStr t)]
  | None => dict_of [("kind", PStr kind)]
  end.

Lemma base_filter_kind kind entity_type p m : compile_node (base_filter kind entity_type) = Ok p → p m = Ok true →
  m !! "kind" = Some kind.
Proof.
  unfold base_filter. destruct entity_type as [t|].
  - rewrite compile_kind_type. intros [= <-] H. apply has_true. cbn in H. by destruct (has "kind" kind m).
  - rewrite compile_kind. intros [= <-] H. injection H as H. by apply has_true.
Qed.

Lemma and_filter_left base extra m :
  matches_metadata_filter m (dict_of [("$and", PList [base; extra])]) = Ok true →
  ∃ p, compile_node base = Ok p ∧ p m = Ok true.
Proof.
  unfold matches_metadata_filter, dict_of. cbn [map fst snd compile_node mapR]. unfold key_is at 1. cbn [fst].
  rewrite bool_decide_eq_true_2 by done. cbn [compile_each mapR].
  destruct (compile_node base) as [p|e]; [|done]. destruct (compile_node extra) as [q|e]; [|done]. cbn. intros H.
  exists p. split; [done|]. by apply (all_of_Ok m p [q]) in H as [? _].
Qed.

Lemma coerce_base kind entity_type : coerce_sdk_filter (base_filter kind entity_type) = Ok (base_filter kind entity_type).
Proof. by destruct entity_type. Qed.

Lemma coerce_and kind entity_type extra f' :
  coerce_sdk_filter (dict_of [("$and", PList [base_filter kind entity_type; extra])]) = Ok f' →
  ∃ extra', f' = dict_of [("$and", PList [base_filter kind entity_type; extra'])].
Proof.
  assert (walk sdk_stringify 1 (base_filter kind entity_type) = Ok (base_filter kind entity_type)) as Hb
    by (by destruct entity_type).
  unfold coerce_sdk_filter, dict_of. cbn [map fst snd walk foldR]. change (0 >? MAX_DEPTH) with false. cbn iota.
  change (is_blank "$and") with false. change (str_in "$and" LOGICAL_OPERATORS) with true. cbn iota.
  unfold walk_logical. change (bool_decide ("$and" = "$not")) with false. cbn iota. cbn [mapR].
  change (0 + 1) with 1. rewrite Hb. destruct (walk sdk_stringify 1 extra) as [extra'|]; [|done].
  cbn. intros [= <-]. by exists extra'.
Qed.

Lemma search_index_hits query embedding k kind entity_type extra mode g hits :
  _search_index query embedding k kind entity_type extra mode g = Ok hits →
  Forall (λ h, ∃ dd, docs (_db g) !! hit_id h = Some dd ∧ hit_metadata h = doc_metadata dd ∧
                     doc_metadata dd !! "kind" = Some kind) hits.
Proof.
  unfold _search_index. fold (base_filter kind entity_type). intros H.
  set (f := match extra with Some (kv :: d) => dict_of [("$and", PList [base_filter kind entity_type; PDict (kv :: d)])]
            | _ => base_filter kind entity_type end) in H.
  assert (flat_filter f = true) as Hflat by (unfold f; by destruct extra as [[|]|], entity_type).
  assert (Forall (hit_ok f (_db g)) hits) as HF.
  { destruct embedding as [v|].
    - case_bool_decide; [|done]. apply search_vector_law in H; [done|exact Hflat].
    - destruct query as [[|a q]|]; [done| |done]. apply search_law in H; [done|exact Hflat]. }
  eapply Forall_impl; [exact HF|]. intros h (dd & f' & H1 & H2 & Hf' & H3). exists dd. split_and!; [done..|]. clear H.
  assert (∃ p, compile_node (base_filter kind entity_type) = Ok p ∧ p (doc_metadata dd) = Ok true) as (p & Hp & Ht).
  { unfold f in Hf'. destruct extra as [[|kv extra]|].
    - rewrite coerce_base in Hf'. injection Hf' as <-. unfold matches_metadata_filter in H3. res_inv. eauto.
    - apply coerce_and in Hf' as (extra' & ->). by apply and_filter_left in H3.
    - rewrite coerce_base in Hf'. injection Hf' as <-. unfold matches_metadata_filter in H3. res_inv. eauto. }
  by eapply base_filter_kind.
Qed.

Lemma strip_prefix p x : _strip (p +:+ x) p = x.
Proof. unfold _strip. by rewrite startswith_app, str_drop_app. Qed.

(** The node a hit names. *)
Lemma hit_node g h : synced g →
  (∃ dd, docs (_db g) !! hit_id h = Some dd ∧ hit_metadata h = doc_metadata dd ∧ doc_metadata dd !! "kind" = Some "node") →
  hit_id h = _NODE_PREFIX +:+ hit_entity "node_id" _NODE_PREFIX h ∧
  is_Some (nodes (_store g) !! hit_entity "node_id" _NODE_PREFIX h).
Proof.
  intros [_ Hd] (dd & H1 & H2 & H3). destruct (Hd _ _ H1) as [(x & Hid & Hx & _ & Hn)|(_ & y & _ & _ & Hk & _)].
  - assert (hit_entity "node_id" _NODE_PREFIX h = x) as ->; [|done]. unfold hit_entity. rewrite H2, Hn.
    destruct x; [|done]. by rewrite Hid, strip_prefix.
  - congruence.
Qed.

Lemma omap_hits {A} (f : LodeSearchHit → string) (get : string → option A) (P : LodeSearchHit → A → Prop) hits :
  Forall (λ h, ∃ n, get (f h) = Some n ∧ P h n) hits →
  Forall2 (λ h sn, sn.1 = hit_score h ∧ P h sn.2) hits
    (omap (λ hi, (λ n, (hit_score hi.1, n)) <$> get hi.2) (zip hits (map f hits))).
Proof.
  induction 1 as [|h hits (n & Hn & HP) _ IH]; [constructor|]. cbn. rewrite Hn. cbn. by constructor.
Qed.
End search.

(** ** Rebuilding *)

Section rebuild.
Context {X : Type} {LI : LodeIndex X} {LL : LodeIndexLaws X} {SQ : Sqlite} {SL : SqliteLaws SQ} {PS : PySets}.
Local Notation kgraph := (KnowledgeGraph X).
Implicit Types g : kgraph.

(** What the topology says the index should hold for a node. *)
Definition wanted_content g (n : Node) : option content :=
  match (if retain_vectors g then node_vectors (_store g) !! n_id n else None) with
  | Some v => Some (Vector v)
  | None => if negb (vector_only g) && negb (is_blank (n_label n)) then Some (Text (n_label n)) else None
  end.

Lemma retained_lookup g x :
  get_item x (if retain_vectors g then put_items [] (iter_node_vectors (_store g)) else [])
  = if retain_vectors g then node_vectors (_store g) !! x else None.
Proof.
  destruct (retain_vectors g); [|done]. unfold iter_node_vectors. set (t := node_vectors (_store g)).
  destruct (put_items_spec (select key_column W_all t) []) as [Hnd Hin]; [constructor| |].
  { cbn [app]. intros [k v] [k' v'] [H1 _]%elem_of_select [H2 _]%elem_of_select. cbn in *. intros ->. by simplify_eq. }
  apply option_eq. intros v. rewrite get_item_elem, Hin by done. cbn [app]. rewrite elem_of_select. cbn. tauto.
Qed.

Definition doc_id_of (n : Node) : string := _NODE_PREFIX +:+ n_id n.
Definition text_docs g (ns : list Node) : list (string * string * meta) :=
  omap (λ n, pick_text (wanted_content g n) (doc_id_of n) (node_metadata n)) ns.
Definition vector_docs g (ns : list Node) : list (list spec_float * string * meta) :=
  omap (λ n, pick_vector (wanted_content g n) (doc_id_of n) (node_metadata n)) ns.
Definition lost g (ns : list Node) : list string := omap (λ n, pick_none (wanted_content g n) (doc_id_of n)) ns.

Lemma rebuild_nodes g ns r :
  fold_left (rebuild_node (vector_only g) (if retain_vectors g then put_items [] (iter_node_vectors (_store g)) else [])) ns r
  = Rebuild (rb_labels r ++ text_docs g ns) (rb_vectors r ++ vector_docs g ns) (rb_unrebuildable r + Z.of_nat (length (lost g ns))).
Proof.
  revert r; induction ns as [|n ns IH]; intros r; cbn [fold_left].
  { unfold text_docs, vector_docs, lost. cbn. rewrite !app_nil_r, Z.add_0_r. by destruct r. }
  rewrite IH. unfold rebuild_node. rewrite retained_lookup. unfold text_docs, vector_docs, lost.
  cbn [omap list_omap]. assert (wanted_content g n = wanted_content g n) as Hw by done. revert Hw.
  unfold wanted_content at 1.
  destruct (if retain_vectors g then node_vectors (_store g) !! n_id n else None) as [v|];
    [|destruct (negb (vector_only g) && negb (is_blank (n_label n)))];
    intros <-; cbn [pick_text pick_vector pick_none rb_labels rb_vectors rb_unrebuildable]; rewrite <-?(assoc_L (++));
    cbn [app length]; [done..|f_equal; lia].
Qed.

(** All documents written, by id. *)
Definition rebuilt g (ns : list Node) : list (string * (content * meta)) :=
  map text_entry (text_docs g ns) ++ map vector_entry (vector_docs g ns).

Lemma elem_of_rebuilt g ns e : e ∈ rebuilt g ns ↔
  ∃ n c, n ∈ ns ∧ wanted_content g n = Some c ∧ e = (doc_id_of n, (c, node_metadata n)).
Proof.
  unfold rebuilt. rewrite elem_of_app, !list_elem_of_fmap. split.
  - intros [(d & -> & (n & Hn & Hd)%list_elem_of_omap)|(d & -> & (n & Hn & Hd)%list_elem_of_omap)];
      destruct (wanted_content g n) as [[s|v]|] eqn:E; try done; injection Hd as <-; by eexists n, _.
  - intros (n & [s|v] & Hn & Hc & ->); [left; exists (s, doc_id_of n, node_metadata n)|right; exists (v, doc_id_of n, node_metadata n)];
      (split; [done|]); apply list_elem_of_omap; exists n; by rewrite Hc.
Qed.

Lemma rebuilt_keys g ns : ∃ rest, (rebuilt g ns).*1 ++ rest ≡ₚ map doc_id_of ns.
Proof.
  induction ns as [|n ns [rest IH]]; [by exists []|]. unfold rebuilt, text_docs, vector_docs in *. cbn [omap list_omap map].
  destruct (wanted_content g n) as [[s|v]|]; cbn [pick_text pick_vector map app].
  - exists rest. cbn. by rewrite IH.
  - exists rest. rewrite <-Permutation_middle. cbn. by rewrite IH.
  - exists (doc_id_of n :: rest). rewrite <-Permutation_middle. by rewrite IH.
Qed.

Lemma rebuilt_NoDup g ns : NoDup (map n_id ns) → NoDup (rebuilt g ns).*1.
Proof.
  intros Hnd. destruct (rebuilt_keys g ns) as [rest Hp]. apply (NoDup_app (rebuilt g ns).*1 rest). rewrite Hp.
  replace (map doc_id_of ns) with (map (λ x, _NODE_PREFIX +:+ x) (map n_id ns)) by (by rewrite map_map).
  apply (NoDup_fmap_2_strong (λ x, _NODE_PREFIX +:+ x)); [|done]. intros x y _ _. apply sapp_inj_l.
Qed.

(** The loop that drops orphans. *)
Lemma drop_orphans_run wanted ids removed g : Forall (λ x, is_blank x = false) (List.filter (λ x, negb (bool_decide (x ∈ wanted))) ids) →
  ∃ n g', drop_orphans wanted ids removed g = (Ok n, g') ∧ same_but_docs g g' ∧
    ∀ id, docs (_db g') !! id = if bool_decide (id ∈ ids ∧ id ∉ wanted) then None else docs (_db g) !! id.
Proof.
  revert removed g. induction ids as [|x ids IH]; intros removed g HF; cbn [drop_orphans List.filter] in *.
  { exists removed, g. split; [done|]. split; [apply same_but_docs_refl|]. intros id.
    rewrite bool_decide_eq_false_2 by (intros [?%elem_of_nil _]; done). done. }
  case_bool_decide as Hx; cbn [negb] in HF.
  - destruct (IH removed g HF) as (n & g' & H & Hs & Hd). exists n, g'. split; [done|]. split; [done|].
    intros id. rewrite Hd. erewrite bool_decide_ext; [done|]. set_solver.
  - apply Forall_cons in HF as [Hb HF]. destruct (remove_doc_run x g Hb) as (g1 & H1 & Hst & Hd1 & Hf1).
    destruct (IH (removed + 1) g1 HF) as (n & g' & H & Hs & Hd). exists n, g'. unfold mbind, st_bind. rewrite H1.
    split; [done|]. split; [by apply (same_but_docs_trans g g1)|]. intros id. rewrite Hd, Hd1.
    destruct (decide (id = x)) as [->|Hne].
    + rewrite lookup_delete_eq, (bool_decide_eq_true_2 (x ∈ x :: ids ∧ _)) by set_solver.
      match goal with |- (if ?b then _ else _) = _ => by destruct b end.
    + rewrite lookup_delete_ne by done. erewrite bool_decide_ext; [done|]. set_solver.
Qed.
(** Listing a kind and dropping what is not wanted of it. *)
Lemma drop_kind_run kind (wanted : gset string) removed g : (∀ id dd, docs (_db g) !! id = Some dd → is_blank id = false) →
  ∃ ids n g', lode_list_documents (kind_filter kind) (_db g) = Ok ids ∧
    drop_orphans wanted ids removed g = (Ok n, g') ∧ same_but_docs g g' ∧
    ∀ id dd, docs (_db g') !! id = Some dd ↔
      docs (_db g) !! id = Some dd ∧ (doc_metadata dd !! "kind" = Some kind → id ∈ wanted).
Proof.
  intros Hb. destruct (list_law kind (_db g)) as (ids & Hl & _ & Hids).
  destruct (drop_orphans_run wanted ids removed g) as (n & g' & H & Hs & Hd).
  { apply Forall_forall. intros x Hx. apply list_elem_of_In, filter_In in Hx as [Hx _].
    apply list_elem_of_In, Hids in Hx as (dd & Hdd & _). by eapply Hb. }
  exists ids, n, g'. split; [done|]. split; [done|]. split; [done|]. intros id dd. rewrite Hd. case_bool_decide as Ho.
  - split; [done|]. intros [Hdd Hk]. destruct Ho as [(dd' & Hdd' & Hk')%Hids Hnw]. rewrite Hdd in Hdd'.
    injection Hdd' as <-. destruct Hnw. apply Hk, Hk'.
  - split; [|by intros [? _]]. intros Hdd. split; [done|]. intros Hk.
    destruct (decide (id ∈ wanted)) as [Hi|Hi]; [done|]. destruct Ho. split; [|done]. apply Hids. eauto.
Qed.

Lemma wanted_ids {A} (prefix : string) (get : string * A → column → string) (t : gmap string A) id :
  id ∈ (list_to_set (map (λ r, prefix +:+ r.1) (select get W_all t)) : gset string)
  ↔ ∃ x, id = prefix +:+ x ∧ is_Some (t !! x).
Proof.
  rewrite elem_of_list_to_set, list_elem_of_fmap. split.
  - intros ([y r] & -> & [Hr _]%elem_of_select). exists y. by split; [|exists r].
  - intros (y & -> & r & Hr). exists (y, r). split; [done|]. by apply elem_of_select.
Qed.

(** The nodes the loop reads. *)
Definition stored_nodes g : list Node := map node_of (select key_column W_all (nodes (_store g))).

Lemma stored_nodes_spec g n : Topology.wf (_store g) →
  n ∈ stored_nodes g ↔ get_node (n_id n) g = Ok (Some n).
Proof.
  intros Hwf. unfold get_node. rewrite get_node_wf by done. unfold stored_nodes. rewrite list_elem_of_fmap. split.
  - intros ([x r] & -> & [Hr _]%elem_of_select). by exists r.
  - intros (r & Hr & ->). exists (n_id n, r). split; [done|]. by apply elem_of_select.
Qed.

Lemma stored_nodes_ids g : map n_id (stored_nodes g) = all_node_ids (_store g).
Proof. unfold stored_nodes, all_node_ids. rewrite map_map. done. Qed.

Lemma stored_nodes_NoDup g : NoDup (map n_id (stored_nodes g)).
Proof. rewrite stored_nodes_ids. apply select_keys_NoDup. Qed.

(** The two writes of the loop, as one. *)
Lemma rebuild_writes g0 g ns : NoDup (map n_id ns) →
  Forall (λ n, ∀ c, wanted_content g0 n = Some c → accepts (_db g) c = true) ns →
  ∃ g', (_ ← unless_empty (text_docs g0 ns) (λ l, on_db (lode_add_many l));
         unless_empty (vector_docs g0 ns) (λ l, on_db (lode_add_vectors_many l))) g = (Ok tt, g') ∧
    same_but_docs g g' ∧ docs (_db g') = index_all (rebuilt g0 ns) (docs (_db g)).
Proof.
  intros Hnd Hacc. pose proof (rebuilt_NoDup g0 ns Hnd) as Hk. unfold rebuilt in Hk. rewrite fmap_app in Hk.
  apply NoDup_app in Hk as (Hk1 & _ & Hk2).
  assert (∀ e, e ∈ rebuilt g0 ns → is_blank e.1 = false ∧ accepts (_db g) e.2.1 = true) as He.
  { intros e (n & c & Hn & Hc & ->)%elem_of_rebuilt. split; [done|]. rewrite Forall_forall in Hacc. by apply (Hacc n). }
  destruct (write_unless_empty text_entry lode_add_many (text_docs g0 ns) g add_many_writes Hk1) as (g1 & H1 & Hs1 & Hd1).
  { apply Forall_forall. intros e Hin. apply He. unfold rebuilt. set_solver. }
  destruct (write_unless_empty vector_entry lode_add_vectors_many (vector_docs g0 ns) g1 add_vectors_many_writes Hk2)
    as (g2 & H2 & Hs2 & Hd2).
  { apply Forall_forall. intros e Hin. destruct Hs1 as (_ & -> & _). apply He. unfold rebuilt. set_solver. }
  exists g2. unfold mbind, st_bind. rewrite H1, H2. split; [done|]. split; [by apply (same_but_docs_trans g g1)|].
  rewrite Hd2, Hd1. unfold rebuilt, index_all. by rewrite fold_left_app.
Qed.

Lemma index_all_rebuilt g ns m n c : NoDup (map n_id ns) → n ∈ ns → wanted_content g n = Some c →
  index_all (rebuilt g ns) m !! doc_id_of n = Some (indexed c (node_metadata n)).
Proof.
  intros Hnd Hn Hc. rewrite index_all_assign. apply assign_all_in.
  - pose proof (rebuilt_NoDup g ns Hnd) as H. revert H. generalize (rebuilt g ns). intros l.
    replace ((map (λ e, (e.1, Some (indexed e.2.1 e.2.2))) l).*1) with (l.*1); [done|].
    induction l as [|e l IH]; [done|]. cbn. by f_equal.
  - apply list_elem_of_fmap. exists (doc_id_of n, (c, node_metadata n)). split; [done|].
    apply elem_of_rebuilt. by exists n, c.
Qed.

(** The edge half: only documents of stored edges stay. *)
Definition drop_edge_orphans (d : TopologyStore) (removed : Z) : st kgraph Z :=
  es ← st_lift (iter_edges d);
  let wanted_edge_docs := list_to_set (map (λ e, _EDGE_PREFIX +:+ e_id e) es) in
  edge_docs ← st_read (λ g, lode_list_documents (kind_filter "edge") (_db g));
  drop_orphans wanted_edge_docs edge_docs removed.

Lemma drop_edge_orphans_run d g removed : Topology.wf d → (∀ id dd, docs (_db g) !! id = Some dd → is_blank id = false) →
  ∃ n g', drop_edge_orphans d removed g = (Ok n, g') ∧ same_but_docs g g' ∧
    (∀ id dd, docs (_db g') !! id = Some dd ↔ docs (_db g) !! id = Some dd ∧
       (doc_metadata dd !! "kind" = Some "edge" → ∃ y, id = _EDGE_PREFIX +:+ y ∧ is_Some (edges d !! y))).
Proof.
  intros Hwf Hb. unfold drop_edge_orphans, mbind, st_bind, st_lift, st_read. unfold iter_edges. rewrite edge_rows_wf by done.
  rewrite map_map. destruct (drop_kind_run "edge" (list_to_set (map (λ r, _EDGE_PREFIX +:+ e_id (edge_of r)) (select edge_column W_all (edges d))))
    removed g Hb) as (ids & n & g' & Hl & H & Hs & Hd).
  rewrite Hl. exists n, g'. split; [done|]. split; [done|]. intros id dd. rewrite Hd. by rewrite (wanted_ids _ edge_column).
Qed.

(** [reindex] as its three stages. *)
Lemma reindex_run g : read_only g = false → Topology.wf (_store g) →
  (∀ id dd, docs (_db g) !! id = Some dd → is_blank id = false) →
  Forall (λ n, ∀ c, wanted_content g n = Some c → accepts (_db g) c = true) (stored_nodes g) →
  ∃ removed g1 g2 g', let ns := stored_nodes g in
    reindex g = (Ok (Counts (Z.of_nat (length (text_docs g ns)) + Z.of_nat (length (vector_docs g ns)))
                       (Z.of_nat (length (text_docs g ns))) (Z.of_nat (length (vector_docs g ns)))
                       (Z.of_nat (length (lost g ns))) removed), g') ∧
    same_but_docs g g' ∧
    (∀ id dd, docs (_db g1) !! id = Some dd ↔ docs (_db g) !! id = Some dd ∧
       (doc_metadata dd !! "kind" = Some "node" → ∃ x, id = _NODE_PREFIX +:+ x ∧ is_Some (nodes (_store g) !! x))) ∧
    docs (_db g2) = index_all (rebuilt g ns) (docs (_db g1)) ∧
    (∀ id dd, docs (_db g') !! id = Some dd ↔ docs (_db g2) !! id = Some dd ∧
       (index_edges g = true → doc_metadata dd !! "kind" = Some "edge" →
        ∃ y, id = _EDGE_PREFIX +:+ y ∧ is_Some (edges (_store g) !! y))).
Proof.
  intros Hro Hwf Hb Hacc. unfold reindex. unfold mbind at 1, st_bind at 1, _require_writable. rewrite Hro.
  unfold mbind at 1, st_bind at 1, st_read at 1. unfold all_node_ids. rewrite map_map.
  destruct (drop_kind_run "node" (list_to_set (map (λ r, _NODE_PREFIX +:+ r.1) (select key_column W_all (nodes (_store g))))) 0 g Hb)
    as (ids & n0 & g1 & Hl & H1 & Hs1 & Hd1). rewrite Hl.
  unfold mbind at 1, st_bind at 1. rewrite H1.
  unfold mbind at 1, st_bind at 1, st_lift at 1, iter_nodes. rewrite node_rows_wf by done. fold (stored_nodes g).
  rewrite rebuild_nodes. cbn [rb_labels rb_vectors rb_unrebuildable app].
  destruct (rebuild_writes g g1 (stored_nodes g) (stored_nodes_NoDup g)) as (g2 & H2 & Hs2 & Hd2).
  { eapply Forall_impl; [exact Hacc|]. intros n Hn c Hc. destruct Hs1 as (_ & -> & _). by apply Hn. }
  unfold mbind at 1, st_bind at 1 in H2. unfold mbind at 1, st_bind at 1.
  destruct (unless_empty (text_docs g (stored_nodes g)) _ g1) as [[[]|e] gm] eqn:Em; [|done].
  unfold mbind at 1, st_bind at 1. rewrite H2. pose proof (same_but_docs_trans _ _ _ Hs1 Hs2) as Hs12.
  assert (∀ id dd, docs (_db g1) !! id = Some dd ↔ docs (_db g) !! id = Some dd ∧
       (doc_metadata dd !! "kind" = Some "node" → ∃ x, id = _NODE_PREFIX +:+ x ∧ is_Some (nodes (_store g) !! x))) as Hg1.
  { intros id dd. rewrite Hd1. by rewrite (wanted_ids _ key_column). }
  assert (∀ id dd, docs (_db g2) !! id = Some dd → is_blank id = false) as Hb2.
  { intros id dd Hdd. rewrite Hd2 in Hdd. apply index_all_lookup in Hdd as [[Hdd _]%Hg1|(e & He & -> & _)]; [by eapply Hb|].
    by apply elem_of_rebuilt in He as (n & c & _ & _ & ->). }
  destruct (index_edges g) eqn:Hie.
  - fold (drop_edge_orphans (_store g) n0). destruct (drop_edge_orphans_run (_store g) g2 n0 Hwf Hb2) as (n & g' & H3 & Hs3 & Hd3).
    unfold mbind at 1, st_bind at 1. rewrite H3. exists n, g1, g2, g'. split; [done|].
    split; [by apply (same_but_docs_trans g g2)|]. split; [exact Hg1|]. split; [done|].
    intros id dd. rewrite Hd3. naive_solver.
  - exists n0, g1, g2, g2. split; [done|]. split; [done|]. split; [exact Hg1|]. split; [done|]. naive_solver.
Qed.
End rebuild.

(** ** Claims *)

Inductive kg_op :=
| AddNode (i : node_item) | AddEdge (i : edge_item) | AddNodes (items : list node_item) | AddEdges (items : list edge_item)
| DelNode (node_id : string) | DelEdge (edge_id : string).

Definition op_ok (o : kg_op) : Prop :=
  match o with
  | AddNode i => item_ok i
  | AddEdge i => edge_item_ok i
  | AddNodes items => Forall item_ok items
  | AddEdges items => Forall edge_item_ok items
  | _ => True
  end.

(** The state after an operation, whether it returned or raised. *)
Definition step {X} {LI : LodeIndex X} {SQ : Sqlite} (g : KnowledgeGraph X) (o : kg_op) : KnowledgeGraph X :=
  match o with
  | AddNode i => (add_node i g).2
  | AddEdge i => (add_edge i g).2
  | AddNodes items => (add_nodes items g).2
  | AddEdges items => (add_edges items g).2
  | DelNode x => (remove_node x g).2
  | DelEdge y => (remove_edge y g).2
  end.

(** C4: Whatever is added or removed, one by one or in batches, and whichever calls raise half
    way (a refused vector, a refused text, a read-only graph), the index never holds a document
    whose node or edge is not in the topology, and the topology stays well formed. *)
Theorem index_never_dangles {X} {LI : LodeIndex X} {LL : LodeIndexLaws X} {SQ : Sqlite} {SL : SqliteLaws SQ}
    (ops : list kg_op) (g : KnowledgeGraph X) : synced g → Forall op_ok ops → synced (fold_left step ops g).
Proof.
  intros Hg HF. revert g Hg. induction HF as [|o ops Ho _ IH]; intros g Hg; [done|]. cbn [fold_left]. apply IH.
  destruct o; cbn [step op_ok] in *; eauto using add_node_synced, add_edge_synced, add_nodes_synced, add_edges_synced,
    remove_node_synced, remove_edge_synced.
Qed.

Definition empty_graph : KnowledgeGraph (gmap string document) := KG empty_store ∅ true false true false.
Definition node_a : node_item := NodeItem (Some "a") "" "T" "label" None None.
Definition node_b : node_item := NodeItem (Some "b") "" "T" "" None (Some [S754_zero false]).
Definition edge_ab : edge_item := EdgeItem "a" "r" "b" None None (Some "a to b") None.

Lemma empty_graph_synced : synced empty_graph.
Proof. split; [split_and!; [apply map_Forall_empty..|set_solver]|]. intros id dd H.
  change ((∅ : gmap string document) !! id = Some dd) in H. by rewrite lookup_empty in H.
Qed.

Lemma index_never_dangles_witness :
  let ops := [AddNodes [node_a; node_b]; AddEdge edge_ab; DelNode "a"] in
  let g := fold_left (@step _ map_index plain_sqlite) ops empty_graph in
  synced g ∧ dom (docs (_db g)) = {["n:b"]}.
Proof.
  split.
  - apply (@index_never_dangles _ map_index map_index_laws plain_sqlite plain_sqlite_laws); [apply empty_graph_synced|].
    repeat constructor.
  - apply (bool_decide_unpack _). vm_compute. exact I.
Defined.

(** A batch of nodes with distinct ids ends exactly like adding the nodes one by one: the
    same ids returned, the same topology and retained vectors, the same documents in the index,
    although the batch writes removals, texts and vectors in three separate rounds. *)
Theorem add_nodes_like_add_node {X} {LI : LodeIndex X} {LL : LodeIndexLaws X}
    (items : list node_item) (g : KnowledgeGraph X) :
  read_only g = false → NoDup (map node_id_of items) → Forall (takes g) items →
  ∃ g1 g2, add_nodes items g = (Ok (map node_id_of items), g1) ∧ add_each items g = (Ok (map node_id_of items), g2) ∧
    _store g1 = _store g2 ∧ docs (_db g1) = docs (_db g2).
Proof.
  intros Hro Hnd HF. destruct (add_nodes_run items g Hro Hnd HF) as (g1 & H1 & (S1 & _) & D1).
  destruct (add_each_run items g Hro HF) as (g2 & H2 & (S2 & _) & D2).
  exists g1, g2. split_and!; [done..| |]; congruence.
Qed.

Lemma add_nodes_like_add_node_witness :
  ∃ g1 g2, @add_nodes _ map_index [node_a; node_b] empty_graph = (Ok ["a"; "b"], g1) ∧
    @add_each _ map_index [node_a; node_b] empty_graph = (Ok ["a"; "b"], g2) ∧
    _store g1 = _store g2 ∧ docs (_db g1) = docs (_db g2).
Proof.
  apply (@add_nodes_like_add_node _ map_index map_index_laws [node_a; node_b] empty_graph).
  - reflexivity.
  - apply (bool_decide_unpack _). vm_compute. exact I.
  - repeat constructor; intros c [= <-]; reflexivity.
Defined.

(** When one batch names a node twice, the last mention wins in the topology but not in the
    index: an id given first with a vector and then with a label keeps the vector document, and
    its retained vector, where adding the two one after the other indexes the label. *)
Theorem duplicate_in_batch_diverges :
  let first := NodeItem (Some "a") "" "" "" None (Some [S754_zero false]) in
  let last := NodeItem (Some "a") "" "" "label" None None in
  let batch := (@add_nodes _ map_index [first; last] empty_graph).2 in
  let single := (@add_each _ map_index [first; last] empty_graph).2 in
  nodes (_store batch) = nodes (_store single) ∧
  doc_content <$> docs (_db batch) !! "n:a" = Some (Vector [S754_zero false]) ∧
  doc_content <$> docs (_db single) !! "n:a" = Some (Text "label") ∧
  node_vectors (_store batch) !! "a" = Some [S754_zero false] ∧ node_vectors (_store single) !! "a" = None.
Proof. vm_compute. split_and!; reflexivity. Qed.

(** Without an explicit id the edge id joins source, relation and target with colons, so two
    different triples can get one id and the second edge replaces the first. *)
Theorem derived_edge_ids_collide :
  let e1 := EdgeItem "a:b" "c" "d" None None None None in
  let e2 := EdgeItem "a" "b:c" "d" None None None None in
  edge_id_of e1 = edge_id_of e2 ∧
  map e_src <$> @list_edges _ plain_sqlite (fold_left (@step _ map_index plain_sqlite) [AddEdge e1; AddEdge e2] empty_graph) = Ok ["a"].
Proof. vm_compute. split; reflexivity. Qed.

(** C17: [reindex] rebuilds the index from the topology, whatever state the index was left in: every
    node that can be rebuilt has exactly the document its retained vector or label gives, no
    node document (and, when edges are indexed, no edge document) of an entity that is gone
    remains, the topology is untouched and every stored node is counted once. *)
Theorem reindex_rebuilds {X} {LI : LodeIndex X} {LL : LodeIndexLaws X} {SQ : Sqlite} {SL : SqliteLaws SQ}
    (g : KnowledgeGraph X) :
  read_only g = false → Topology.wf (_store g) → (∀ id dd, docs (_db g) !! id = Some dd → is_blank id = false) →
  (∀ n c, get_node (n_id n) g = Ok (Some n) → wanted_content g n = Some c → accepts (_db g) c = true) →
  ∃ counts g', reindex g = (Ok counts, g') ∧ _store g' = _store g ∧
    (∀ n c, get_node (n_id n) g = Ok (Some n) → wanted_content g n = Some c →
       docs (_db g') !! (_NODE_PREFIX +:+ n_id n) = Some (indexed c (node_metadata n))) ∧
    (∀ id dd, docs (_db g') !! id = Some dd → doc_metadata dd !! "kind" = Some "node" →
       ∃ x, id = _NODE_PREFIX +:+ x ∧ is_Some (nodes (_store g) !! x)) ∧
    (∀ id dd, docs (_db g') !! id = Some dd → index_edges g = true → doc_metadata dd !! "kind" = Some "edge" →
       ∃ y, id = _EDGE_PREFIX +:+ y ∧ is_Some (edges (_store g) !! y)) ∧
    reindexed_nodes counts + unrebuildable counts = node_count (_store g).
Proof.
  intros Hro Hwf Hb Hacc. destruct (reindex_run g Hro Hwf Hb) as (removed & g1 & g2 & g' & Hr & Hs & Hd1 & Hd2 & Hd').
  { apply Forall_forall. intros n Hn%(stored_nodes_spec g n Hwf) c. by apply Hacc. }
  cbn zeta in *. eexists _, g'. split; [exact Hr|]. split; [by destruct Hs|]. split_and!.
  - intros n c Hn%(stored_nodes_spec g n Hwf) Hc. apply Hd'. rewrite Hd2.
    rewrite (index_all_rebuilt g (stored_nodes g) (docs (_db g1)) n c (stored_nodes_NoDup g) Hn Hc). split; [done|].
    intros _ Hk. cbn in Hk. destruct (node_metadata_facts n) as [Hk' _]. congruence.
  - intros id dd [Hdd _]%Hd' Hk. rewrite Hd2 in Hdd.
    apply index_all_lookup in Hdd as [[_ Hdd]%Hd1|(e & (n & c & Hn & _ & ->)%elem_of_rebuilt & -> & _)]; [by apply Hdd|].
    exists (n_id n). split; [done|]. apply (stored_nodes_spec g n Hwf), get_node_wf in Hn as (r & Hr' & _); [|done].
    by exists r.
  - intros id dd [_ H]%Hd' Hie Hk. by apply H.
  - cbn [reindexed_nodes unrebuildable]. unfold node_count, text_docs, vector_docs, lost.
    assert (length (stored_nodes g) = size (nodes (_store g))) as <-.
    { unfold stored_nodes, select. rewrite length_map, (row_order_perm _ W_all). cbn [holds].
      rewrite <-length_map_to_list. f_equal.
      generalize (map_to_list (nodes (_store g))). intros l. induction l as [|x l IH]; [done|]. cbn. by f_equal. }
    clear. induction (stored_nodes g) as [|n ns IH]; [done|]. cbn [omap list_omap].
    destruct (wanted_content g n) as [[]|]; cbn [pick_text pick_vector pick_none length]; lia.
Qed.

(** Under the invariant, a semantic search answers with one stored node per hit, in the order and
    with the scores of the hits, each the node the hit's document was written for: no hit is
    lost and no document of an edge is taken for a node. *)
Theorem semantic_nodes_answer_hits {X} {LI : LodeIndex X} {LL : LodeIndexLaws X} {SQ : Sqlite} {SL : SqliteLaws SQ}
    (query : option string) (embedding : option (list spec_float)) (k : Z) (node_type : option string)
    (filter : option pydict) (mode : option string) (g : KnowledgeGraph X) (hits : list LodeSearchHit) :
  synced g → _search_index query embedding k "node" node_type filter mode g = Ok hits →
  ∃ out, semantic_nodes query embedding k node_type filter mode g = Ok out ∧
    Forall2 (λ h sn, sn.1 = hit_score h ∧ hit_id h = _NODE_PREFIX +:+ n_id sn.2 ∧
                     get_node (n_id sn.2) g = Ok (Some sn.2)) hits out.
Proof.
  intros Hg Hh. pose proof Hg as [Hwf _]. unfold semantic_nodes. rewrite Hh. unfold mbind, result_bind.
  destruct (nodes_by_id (map (hit_entity "node_id" _NODE_PREFIX) hits) (_store g) Hwf) as (ns & Hns & _ & Hget).
  rewrite Hns. eexists. split; [done|]. apply search_index_hits in Hh.
  apply (omap_hits _ (λ x, get_item x (put_items [] (map (λ n, (n_id n, n)) ns)))
    (λ h n, hit_id h = _NODE_PREFIX +:+ n_id n ∧ get_node (n_id n) g = Ok (Some n))).
  apply Forall_forall. intros h Hin. rewrite Forall_forall in Hh. destruct (hit_node g h Hg (Hh h Hin)) as [Hid [r Hr]].
  exists (node_of (hit_entity "node_id" _NODE_PREFIX h, r)).
  assert (Topology.get_node (hit_entity "node_id" _NODE_PREFIX h) (_store g)
    = Ok (Some (node_of (hit_entity "node_id" _NODE_PREFIX h, r)))) as Hn by (apply get_node_wf; [done|]; by exists r).
  split; [|by split]. apply Hget. split; [|done]. apply list_elem_of_fmap. by exists h.
Qed.

Definition stale_graph : KnowledgeGraph (gmap string document) :=
  KG sample_store (<["n:gone" := Document (Text "x") (<["kind" := "node"]> ∅)]> ∅) true false true false.

Lemma reindex_rebuilds_witness :
  ∃ counts g', @reindex _ map_index plain_sqlite stale_graph = (Ok counts, g') ∧
    docs (_db g') !! "n:a" = Some (indexed (Vector []) (node_metadata (MkNode "a" "" "" (PDict [])))) ∧
    reindexed_nodes counts + unrebuildable counts = 2.
Proof.
  destruct (@reindex_rebuilds _ map_index map_index_laws plain_sqlite plain_sqlite_laws stale_graph)
    as (counts & g' & Hr & _ & Hn & _ & _ & Hc).
  - reflexivity.
  - apply sample_store_wf.
  - intros id dd H. change ((<["n:gone" := Document (Text "x") (<["kind" := "node"]> ∅)]> (∅ : gmap string document)) !! id = Some dd) in H.
    apply lookup_insert_Some in H as [[<- _]|[_ H]]; [reflexivity|]. by rewrite lookup_empty in H.
  - intros n c _. unfold wanted_content. cbn [retain_vectors stale_graph].
    destruct (node_vectors _ !! _) as [v|]; [by intros [= <-]|]. cbn [vector_only stale_graph negb andb].
    destruct (is_blank (n_label n)) eqn:E; [done|]. intros [= <-]. cbn. by rewrite E.
  - exists counts, g'. split; [exact Hr|]. split; [|exact Hc].
    apply (Hn (MkNode "a" "" "" (PDict [])) (Vector [])); vm_compute; reflexivity.
Defined.

Definition searched_graph : KnowledgeGraph (gmap string document) :=
  (@add_nodes _ map_index [node_a; node_b] empty_graph).2.

Definition searched_hits : list LodeSearchHit :=
  [Hit (S754_zero false) "n:a" (node_metadata (node_of_item node_a)); Hit (S754_zero false) "n:b" (node_metadata (node_of_item node_b))].

Lemma semantic_nodes_answer_hits_witness :
  ∃ out, @semantic_nodes _ map_index plain_sqlite (Some "q") None 5 (Some "T") None None searched_graph = Ok out ∧
    Forall2 (λ h sn, sn.1 = hit_score h ∧ hit_id h = _NODE_PREFIX +:+ n_id sn.2 ∧
                     get_node (n_id sn.2) searched_graph = Ok (Some sn.2)) searched_hits out.
Proof.
  destruct (@semantic_nodes_answer_hits _ map_index map_index_laws plain_sqlite plain_sqlite_laws
    (Some "q") None 5 (Some "T") None None searched_graph searched_hits) as (out & H1 & H2).
  - apply (@add_nodes_synced _ map_index map_index_laws plain_sqlite plain_sqlite_laws [node_a; node_b]); [by repeat constructor|apply empty_graph_synced].
  - vm_compute. reflexivity.
  - exists out. split; [exact H1|exact H2].
Defined.
