(* ===== verification/VectorBoundary.v ===== *)
(** * Vectors at the SDK boundary

    The checks every caller-supplied embedding passes before it reaches the native core
    ([local/db.py]: [_finite_float_vector], [_prepare_vector], [_prepare_vector_matrix],
    [_l2_normalize_wide]). A batch is a list of rows of doubles. Element-wise operations are
    IEEE operations; NumPy does not promise the order of a reduction, so sums and
    [math.hypot] are the class [Reductions]. *)

From Stdlib Require Import Ascii String ZArith Lia SpecFloat.
From stdpp Require Import base strings gmap sets list.
From S2P Require Import Prelude Numbers PyVal Topology.

Local Open Scope Z_scope.

(** [einsum("ij,ij->i", m, m)] on a row, [np.square(row).sum()] and [math.hypot( *row )]. *)
Class Reductions := { row_dot : list spec_float → spec_float; square_sum : list spec_float → spec_float;
                      math_hypot : list spec_float → spec_float }.

Definition is_zero (f : spec_float) : bool := match f with S754_zero _ => true | _ => false end.

(** A sum of squares of zeros is zero. *)
Class ReductionLaws (R : Reductions) : Prop :=
  { row_dot_zero l : forallb is_zero l = true → is_zero (row_dot l) = true }.

Definition fabs (f : spec_float) : spec_float := SFabs f.
Definition fsqrt (f : spec_float) : spec_float := SFsqrt prec64 emax64 f.

(** [row.max()] of absolute values. *)
Definition row_max (l : list spec_float) : spec_float :=
  fold_left (λ a b, if fltb a b then b else a) l (S754_zero false).

Section boundary.
Context {R : Reductions}.

Definition zero_vector {A} : result A :=
  raise ValueError "cannot normalize a zero vector; pass normalize=False to store it as-is".

(** One row of [scaled] and of [unit]. *)
Definition unit_row (row : list spec_float) (scale : spec_float) : list spec_float :=
  let scaled := map (λ x, fdiv x scale) row in
  let norm := fsqrt (square_sum scaled) in
  map (λ x, to_float32 (fdiv x norm)) scaled.

Definition _l2_normalize_wide (wide : list (list spec_float)) : result (list (list spec_float)) :=
  let scales := map (λ row, row_max (map fabs row)) wide in
  if existsb is_zero scales then zero_vector
  else Ok (map (λ rs, unit_row rs.1 rs.2) (zip wide scales)).

(** A row of [matrix / norms[:, None]]. *)
Definition divide_row (row : list spec_float) (norm : spec_float) : list spec_float :=
  map (λ x, to_float32 (fdiv x norm)) row.

(** [np.ascontiguousarray] refuses rows of different lengths. *)
Definition ragged (vectors : list (list spec_float)) : bool :=
  match vectors with
  | [] => false
  | r :: rs => negb (forallb (λ r', Nat.eqb (length r') (length r)) rs)
  end.

Definition _prepare_vector_matrix (vectors : list (list spec_float)) (dim : nat) (normalize : bool)
    : result (list (list spec_float)) :=
  if ragged vectors then raise ValueError "vectors must be sequences of numbers"
  else
    let matrix := map (map to_float32) vectors in
    if forallb (λ r, Nat.eqb (length r) 0) matrix then raise ValueError "vectors must be a non-empty batch"
    else if negb (forallb (λ r, Nat.eqb (length r) dim) matrix)
    then raise ValueError ("each vector must have dimension " +:+ Z_str (Z.of_nat dim))
    else if negb (forallb (forallb is_finite) matrix)
    then if negb (forallb (forallb is_finite) vectors) then raise ValueError "vector must contain only finite values"
         else if normalize then _l2_normalize_wide vectors else Ok matrix
    else if normalize
    then let norms := map (λ r, fsqrt (row_dot r)) matrix in
         if existsb is_zero norms then _l2_normalize_wide vectors
         else Ok (map (λ rn, divide_row rn.1 rn.2) (zip matrix norms))
    else Ok matrix.

Definition _finite_float_vector (vector : list spec_float) (normalize : bool) (dim : option nat)
    : result (list spec_float) :=
  if match dim with Some d => negb (Nat.eqb (length vector) d) | None => false end
  then raise ValueError ("vector must have dimension " +:+ Z_str (Z.of_nat (default 0%nat dim)) +:+ ", got "
                           +:+ Z_str (Z.of_nat (length vector)))
  else if bool_decide (dim = None) && Nat.eqb (length vector) 0 then raise ValueError "vector must be non-empty"
  else if negb (forallb is_finite vector) then raise ValueError "vector must contain only finite values"
  else if normalize
  then let norm := math_hypot vector in
       if is_zero norm then zero_vector
       else if negb (is_finite norm) then raise ValueError "vector norm overflows; scale the vector down first"
       else Ok (map (λ x, fdiv x norm) vector)
  else Ok vector.

Definition _prepare_vector (vector : list spec_float) (dim : nat) (normalize : bool) : result (list spec_float) :=
  _finite_float_vector vector normalize (Some dim).
End boundary.

(** ** Lemmas *)

Lemma finite_float32 f : is_finite (to_float32 f) = true → is_finite f = true.
Proof. by destruct f. Qed.

Lemma zero_float32 f : is_zero f = true → is_zero (to_float32 f) = true.
Proof. by destruct f. Qed.

Lemma fsqrt_zero f : is_zero f = true → is_zero (fsqrt f) = true.
Proof. by destruct f. Qed.

(** The largest absolute value of finite numbers is zero only when all are. *)
Lemma row_max_zero l : forallb is_finite l = true → is_zero (row_max (map fabs l)) = forallb is_zero l.
Proof.
  unfold row_max. assert (∀ acc, (acc = S754_zero false ∨ ∃ m e, acc = S754_finite false m e) →
    forallb is_finite l = true →
    is_zero (fold_left (λ a b, if fltb a b then b else a) (map fabs l) acc) = is_zero acc && forallb is_zero l) as H.
  { induction l as [|x l IH]; intros acc Hacc Hf; cbn [map fold_left forallb]; [by rewrite andb_true_r|].
    cbn [forallb] in Hf. apply andb_prop in Hf as [Hx Hf]. destruct x as [s| | |s m e]; [|done..|].
    - cbn [fabs SFabs is_zero andb]. replace (if fltb acc (S754_zero false) then _ else acc) with acc; [by apply IH|].
      by destruct Hacc as [->|(m & e & ->)].
    - cbn [fabs SFabs is_zero andb]. rewrite andb_false_r.
      destruct (fltb acc (S754_finite false m e)) eqn:E.
      + rewrite IH; [done| |done]. right. eauto.
      + rewrite IH by done. destruct Hacc as [->|(m' & e' & ->)]; [done|]. done. }
  intros Hf. rewrite H by auto. done.
Qed.

Lemma forallb_map_length {A B} (f : A → B) (n : nat) (l : list (list A)) :
  forallb (λ r, Nat.eqb (length r) n) (map (map f) l) = forallb (λ r, Nat.eqb (length r) n) l.
Proof. induction l as [|r l IH]; [done|]. cbn. by rewrite length_map, IH. Qed.

Lemma finite_batch (vectors : list (list spec_float)) :
  forallb (forallb is_finite) (map (map to_float32) vectors) = true → forallb (forallb is_finite) vectors = true.
Proof.
  rewrite !forallb_forall. intros H r Hr. specialize (H _ (in_map _ _ _ Hr)). rewrite forallb_forall in *.
  intros x Hx. apply finite_float32, H, in_map, Hx.
Qed.

(** The scalar boundary: every error is a [ValueError], every result has the dimension asked for
    and comes from a finite vector. *)
Lemma scalar_boundary `{Reductions} v normalize dim : match _prepare_vector v dim normalize with
  | Ok w => length w = dim ∧ length v = dim ∧ forallb is_finite v = true
  | Err e => exn_class e = ValueError end.
Proof.
  unfold _prepare_vector, _finite_float_vector. destruct (Nat.eqb_spec (length v) dim) as [E|E]; [|done]. cbn [negb].
  rewrite bool_decide_false by done. cbn [andb]. destruct (forallb is_finite v); [|done]. cbn [negb].
  destruct normalize; [|done]. destruct (is_zero _); [done|]. destruct (is_finite (math_hypot v)); [|done].
  cbn [negb]. by rewrite length_map.
Qed.

(** ** Claims *)

(** A row that normalization can take. *)
Definition acceptable (dim : nat) (row : list spec_float) : bool :=
  Nat.eqb (length row) dim && forallb is_finite row && negb (forallb is_zero row).

Section accepts.
Context {R : Reductions} {RL : ReductionLaws R}.

(** Scaling each row by its own factor keeps the shape. *)
Lemma scale_rows_shape {B} (f : list spec_float → B → list spec_float) (rows : list (list spec_float)) (ss : list B) dim :
  length ss = length rows → (∀ r x, length (f r x) = length r) →
  forallb (λ r, Nat.eqb (length r) dim) rows = true →
  length (map (λ rs, f rs.1 rs.2) (zip rows ss)) = length rows
  ∧ Forall (λ r, length r = dim) (map (λ rs, f rs.1 rs.2) (zip rows ss)).
Proof.
  intros Hl Hf. revert ss Hl; induction rows as [|r rows IH]; intros [|x ss] Hl; [done..|].
  cbn [forallb]. intros [Hr%Nat.eqb_eq Hd]%andb_prop. injection Hl as Hl. destruct (IH ss Hl Hd) as [H1 H2].
  cbn. split; [by rewrite H1|]. constructor; [|done]. by rewrite Hf.
Qed.

Lemma wide_accepts (vectors : list (list spec_float)) dim : forallb (forallb is_finite) vectors = true →
  forallb (λ r, Nat.eqb (length r) dim) vectors = true →
  if forallb (λ r, negb (forallb is_zero r)) vectors
  then ∃ m, _l2_normalize_wide vectors = Ok m ∧ length m = length vectors ∧ Forall (λ r, length r = dim) m
  else ∃ e, _l2_normalize_wide vectors = Err e ∧ exn_class e = ValueError.
Proof.
  intros Hf Hd. unfold _l2_normalize_wide. set (ss := map (λ row, row_max (map fabs row)) vectors).
  assert (existsb is_zero ss = negb (forallb (λ r, negb (forallb is_zero r)) vectors)) as ->.
  { subst ss. clear Hd. induction vectors as [|r vectors IH]; [done|]. cbn [map existsb forallb] in *.
    apply andb_prop in Hf as [Hr Hf]. rewrite row_max_zero, IH by done. by destruct (forallb is_zero r). }
  destruct (forallb (λ r, negb (forallb is_zero r)) vectors); cbn [negb]; [|by eexists].
  eexists. split; [done|]. apply scale_rows_shape; [|intros; unfold unit_row; by rewrite !length_map|done].
  subst ss. by rewrite length_map.
Qed.

Lemma not_ragged dim vectors : forallb (λ r, Nat.eqb (length r) dim) vectors = true → ragged vectors = false.
Proof.
  destruct vectors as [|r rs]; [done|]. cbn. intros [Hr Hrs]%andb_prop. apply Nat.eqb_eq in Hr as ->. by rewrite Hrs.
Qed.

(** The row a caller's row becomes on each path, and when the float32 path can take it. *)
Definition wide_row (row : list spec_float) : list spec_float := unit_row row (row_max (map fabs row)).
Definition narrow_norm (row : list spec_float) : spec_float := fsqrt (row_dot (map to_float32 row)).
Definition narrow_row (row : list spec_float) : list spec_float := divide_row (map to_float32 row) (narrow_norm row).
Definition narrow (row : list spec_float) : bool :=
  forallb is_finite (map to_float32 row) && negb (is_zero (narrow_norm row)).

Lemma zip_map_rows {A B C} (g : A → B) (f : A → B → C) (l : list A) :
  map (λ ab, f ab.1 ab.2) (zip l (map g l)) = map (λ a, f a (g a)) l.
Proof. induction l as [|a l IH]; [done|]. cbn. by rewrite <-IH. Qed.

Lemma zip_map_l {A B C} (g : A → C) (l : list A) (m : list B) :
  zip (map g l) m = map (λ ab, (g ab.1, ab.2)) (zip l m).
Proof. revert m; induction l as [|a l IH]; intros [|b m]; [done..|]. cbn. by rewrite <-IH. Qed.

(** The normalizing branch, on a batch of the right shape. *)
Lemma normalize_accepts (vectors : list (list spec_float)) : forallb (forallb is_finite) vectors = true →
  let norms := map (λ r, fsqrt (row_dot (map to_float32 r))) vectors in
  existsb is_zero norms = false → forallb (λ r, negb (forallb is_zero r)) vectors = true.
Proof.
  intros Hf. cbn zeta. induction vectors as [|r vectors IH]; [done|]. cbn [map existsb forallb] in *.
  apply andb_prop in Hf as [Hr Hf]. intros [H1 H2]%orb_false_iff. rewrite IH by done. rewrite andb_true_r.
  destruct (forallb is_zero r) eqn:E; [|done]. exfalso. rewrite fsqrt_zero in H1; [done|]. apply row_dot_zero.
  rewrite forallb_forall in E |- *. intros x (y & <- & Hy)%in_map_iff. apply zero_float32. auto.
Qed.

Lemma acceptable_all dim vectors : forallb (acceptable dim) vectors =
  forallb (λ r, Nat.eqb (length r) dim) vectors && forallb (forallb is_finite) vectors
    && forallb (λ r, negb (forallb is_zero r)) vectors.
Proof.
  induction vectors as [|r vectors IH]; [done|]. cbn [forallb]. rewrite IH. unfold acceptable.
  destruct (Nat.eqb _ _), (forallb is_finite r), (forallb is_zero r); cbn [andb negb]; rewrite ?andb_true_r, ?andb_false_r; done.
Qed.

Lemma prepare_cases (vectors : list (list spec_float)) (dim : nat) :
  if negb (bool_decide (vectors = [])) && (0 <? dim)%nat && forallb (acceptable dim) vectors
  then ∃ m, _prepare_vector_matrix vectors dim true = Ok m ∧ length m = length vectors
         ∧ Forall (λ r, length r = dim) m
  else ∃ e, _prepare_vector_matrix vectors dim true = Err e ∧ exn_class e = ValueError.
Proof.
  unfold _prepare_vector_matrix. rewrite acceptable_all.
  destruct (ragged vectors) eqn:Hrag.
  { destruct (forallb (λ r, Nat.eqb (length r) dim) vectors) eqn:E; [by rewrite (not_ragged dim) in Hrag|].
    cbn [andb]. rewrite !andb_false_r. by eexists. }
  rewrite (forallb_map_length to_float32 0), (forallb_map_length to_float32 dim).
  destruct (forallb (λ r, Nat.eqb (length r) 0) vectors) eqn:E0.
  { replace (_ && _) with false; [by eexists|]. symmetry. destruct vectors as [|r vectors]; [done|].
    cbn [forallb] in *. apply andb_prop in E0 as [Hr%Nat.eqb_eq _]. rewrite Hr.
    destruct dim; [done|]. done. }
  assert (bool_decide (vectors = []) = false) as -> by (apply bool_decide_eq_false; by intros ->).
  destruct (forallb (λ r, Nat.eqb (length r) dim) vectors) eqn:Hd; cbn [negb andb];
    [|rewrite andb_false_r; by eexists].
  assert ((0 <? dim)%nat = true) as ->.
  { apply Nat.ltb_lt. destruct dim; [|lia]. by rewrite Hd in E0. }
  cbn [andb]. pose proof (finite_batch vectors) as Hfin.
  pose proof (λ H, wide_accepts vectors dim H Hd) as Hw.
  destruct (forallb (forallb is_finite) (map (map to_float32) vectors)); cbn [negb].
  - assert (forallb (forallb is_finite) vectors = true) as Hv by auto. rewrite Hv. cbn [andb]. rewrite map_map. destruct (existsb is_zero _) eqn:En; [by apply Hw|].
    rewrite (normalize_accepts vectors) by done. eexists. split; [done|].
    rewrite <-(length_map (map to_float32) vectors).
    apply scale_rows_shape; [by rewrite !length_map|intros; unfold divide_row; by rewrite length_map|].
    by rewrite forallb_map_length.
  - destruct (forallb (forallb is_finite) vectors); cbn [negb andb]; [by apply Hw|by eexists].
Qed.

(** Rows are normalized one by one, all in float32 or all in float64. *)
Lemma prepare_rows vectors dim m : _prepare_vector_matrix vectors dim true = Ok m →
  m = map wide_row vectors ∨ (m = map narrow_row vectors ∧ Forall (λ r, narrow r = true) vectors).
Proof.
  assert (∀ m, _l2_normalize_wide vectors = Ok m → m = map wide_row vectors) as Hw.
  { intros m'. unfold _l2_normalize_wide. destruct (existsb is_zero _); [done|]. intros [= <-].
    apply (zip_map_rows (λ row, row_max (map fabs row)) unit_row). }
  unfold _prepare_vector_matrix. destruct (ragged vectors); [done|]. destruct (forallb _ (map _ vectors)); [done|].
  destruct (negb (forallb _ (map _ vectors))); [done|].
  destruct (forallb (forallb is_finite) (map (map to_float32) vectors)) eqn:Ef; cbn [negb].
  - destruct (existsb is_zero _) eqn:Ez; [by left; apply Hw|]. intros [= <-]. right. rewrite map_map in Ez. split.
    + rewrite map_map, <-(zip_map_rows narrow_norm (λ r n, divide_row (map to_float32 r) n)).
      by rewrite zip_map_l, map_map.
    + apply Forall_forall. intros r Hr%list_elem_of_In. unfold narrow. apply andb_true_iff. split.
      * rewrite forallb_forall in Ef. by apply Ef, in_map.
      * destruct (is_zero (narrow_norm r)) eqn:E; [|done]. exfalso. apply not_true_iff_false in Ez. apply Ez, existsb_exists.
        exists (narrow_norm r). split; [|done]. by apply (in_map narrow_norm).
  - destruct (negb _); [done|]. by left; apply Hw.
Qed.

(** C18: The batch boundary for normalized vectors accepts exactly the non-empty batches whose rows
    have the index dimension, finite components and a nonzero component: components beyond the
    float32 range and rows that underflow to zero in float32 are accepted too, and everything
    else is a [ValueError]. The result has the shape of the batch; its rows are normalized
    independently, in float64 throughout or in float32 throughout. *)
Theorem vector_boundary_exact (vectors : list (list spec_float)) (dim : nat) :
  if negb (bool_decide (vectors = [])) && (0 <? dim)%nat && forallb (acceptable dim) vectors
  then ∃ m, _prepare_vector_matrix vectors dim true = Ok m ∧ length m = length vectors
         ∧ Forall (λ r, length r = dim) m ∧ (m = map wide_row vectors ∨ m = map narrow_row vectors)
  else ∃ e, _prepare_vector_matrix vectors dim true = Err e ∧ exn_class e = ValueError.
Proof.
  pose proof (prepare_cases vectors dim) as H. destruct (_ && _ && _); [|done]. destruct H as (m & Hm & Hl & Hd).
  exists m. split_and!; [done..|]. apply prepare_rows in Hm as [?|[? _]]; auto.
Qed.
End accepts.

(** The reductions computed from left to right. *)
Definition sum_squares (l : list spec_float) : spec_float :=
  fold_left (λ acc x, fadd acc (fmul x x)) l (S754_zero false).
Definition plain_reductions : Reductions :=
  {| row_dot := sum_squares; square_sum := sum_squares; math_hypot := λ l, fsqrt (sum_squares l) |}.

Lemma plain_reduction_laws : ReductionLaws plain_reductions.
Proof.
  split. cbn [row_dot plain_reductions]. unfold sum_squares. intros l.
  assert (is_zero (S754_zero false) = true) as Hz by done. revert Hz.
  generalize (S754_zero false). induction l as [|x l IH]; intros acc Hacc H; [done|]. cbn [forallb fold_left] in *.
  apply andb_prop in H as [Hx H]. apply IH; [|done]. destruct acc, x; try done. by destruct s, s0.
Qed.

(** [[0.1, 1.5]] and a vector whose components are finite in float64 only. *)
Definition row_a : list spec_float := [S754_finite false 7205759403792794 (-56); S754_finite false 6755399441055744 (-52)].
Definition row_b : list spec_float := [float_of_Z (2 ^ 200); S754_zero true].

(** The path is chosen for the whole batch, so a row may be normalized to different bits when
    it is added with a vector beyond the float32 range. *)
Lemma batch_mate_changes_row :
  match @_prepare_vector_matrix plain_reductions [row_a] 2 true,
        @_prepare_vector_matrix plain_reductions [row_a; row_b] 2 true with
  | Ok [r], Ok [r'; _] => r ≠ r'
  | _, _ => False
  end.
Proof. vm_compute. done. Qed.

Lemma vector_boundary_exact_witness :
  ∃ m, @_prepare_vector_matrix plain_reductions [row_a; row_b] 2 true = Ok m ∧ length m = 2%nat
     ∧ Forall (λ r, length r = 2%nat) m
     ∧ (m = map (@wide_row plain_reductions) [row_a; row_b] ∨ m = map (@narrow_row plain_reductions) [row_a; row_b]).
Proof. exact (@vector_boundary_exact plain_reductions plain_reduction_laws [row_a; row_b] 2). Defined.
