(* ===== verification/LocalOpen.v ===== *)
(** * Opening a local database

    [local/db.py]: the keyword arguments that shape an index ([AnnOptions], [RescoreOptions] and
    their resolvers), the identity a path was written with ([_persisted_index_identity], read
    from the generation its commit manifest names) and the checks made before a handle serves or
    mutates ([_validate_native_index_identity], [_validate_reopen_rescore_options], the
    [_finalize_open] of [_maybe_init_native_vector_engine]). The native engine that is being
    opened is the class [NativeOpen]. *)

From Stdlib Require Import Ascii String ZArith Lia SpecFloat.
From stdpp Require Import base strings gmap sets list.
From S2P Require Import Prelude Numbers PyVal Bytes Json FileSys CommitManifest EngineCore.

Local Open Scope Z_scope.

(** ** Approximate search and rescore options *)

Record AnnOptions := MkAnn { an_algorithm : string; an_clusters : option Z; an_nprobe : option Z }.
Record RescoreOptions := MkRescore { rs_mode : string; rs_dtype : option string; rs_oversample : option spec_float }.

(** [ann=] and [rescore=]: nothing, a name, or the structured form. *)
Inductive ann_arg := AnnNone | AnnName (algorithm : string) | AnnStructured (o : AnnOptions).
Inductive rescore_arg := RescoreNone | RescoreName (mode : string) | RescoreStructured (o : RescoreOptions).

Definition opt_entry {A} (key : string) (f : A → pyval) (v : option A) : pydict :=
  match v with Some x => [(PStr key, f x)] | None => [] end.

Definition ann_to_core_dict (o : AnnOptions) : pydict :=
  (PStr "algorithm", PStr (an_algorithm o))
    :: opt_entry "clusters" PInt (an_clusters o) ++ opt_entry "nprobe" PInt (an_nprobe o).

Definition given {A} (v : option A) : bool := match v with Some _ => true | None => false end.

(** [if v is not None and int(v) < 1: raise]. *)
Definition positive (name : string) (v : option Z) : result unit :=
  match v with
  | Some x => if x <? 1 then raise ValueError (name +:+ " must be a positive integer") else Ok tt
  | None => Ok tt
  end.

Definition _resolve_ann_options (ann : ann_arg) (clusters nprobe : option Z) : result (option pydict) :=
  match ann with
  | AnnStructured o =>
      if given clusters || given nprobe
      then raise ValueError "pass ANN tuning via AnnOptions(...) or ann_clusters/ann_nprobe, not both"
      else Ok (Some (ann_to_core_dict o))
  | AnnNone =>
      if given clusters || given nprobe then raise ValueError "ann_clusters/ann_nprobe require ann= to be set"
      else Ok None
  | AnnName algorithm =>
      _ ← positive "ann_clusters" clusters;
      _ ← positive "ann_nprobe" nprobe;
      Ok (Some ((PStr "algorithm", PStr algorithm) :: opt_entry "clusters" PInt clusters ++ opt_entry "nprobe" PInt nprobe))
  end.

Definition rescore_to_core_dict (o : RescoreOptions) : pydict :=
  (PStr "mode", PStr (rs_mode o))
    :: opt_entry "dtype" PStr (rs_dtype o) ++ opt_entry "oversample" PFloat (rs_oversample o).

Definition _validate_rescore_oversample (oversample : spec_float) : result spec_float :=
  if negb (is_finite oversample) || fltb oversample (float_of_Z 1)
  then raise ValueError "rescore_oversample must be finite and at least 1.0"
  else Ok oversample.

Definition _resolve_rescore_options (rescore : rescore_arg) (dtype : option string) (oversample : option spec_float)
    : result (option pydict) :=
  match rescore with
  | RescoreStructured o =>
      if given dtype || given oversample
      then raise ValueError "pass rescore tuning via RescoreOptions(...) or rescore_dtype/rescore_oversample, not both"
      else Ok (Some (rescore_to_core_dict o))
  | RescoreNone =>
      if given dtype || given oversample
      then raise ValueError "rescore_dtype/rescore_oversample require rescore= to be set"
      else Ok None
  | RescoreName mode =>
      over ← (match oversample with Some x => y ← _validate_rescore_oversample x; Ok (Some y) | None => Ok None end);
      Ok (Some ((PStr "mode", PStr mode) :: opt_entry "dtype" PStr dtype ++ opt_entry "oversample" PFloat over))
  end.

Definition asked_rescore (r : rescore_arg) : bool := match r with RescoreNone => false | _ => true end.

Definition _validate_reopen_rescore_options (persisted : option pydict) (requested_rescore : rescore_arg)
    (requested_dtype : option string) (requested_oversample : option spec_float) : result unit :=
  match persisted with
  | None =>
      if asked_rescore requested_rescore || given requested_dtype || given requested_oversample
      then raise ValueError ("this store was created without rescore; original vectors were discarded "
        +:+ "at first ingest, so rescore cannot be retro-enabled. Rebuild the store with rescore='original'.")
      else Ok tt
  | Some p =>
      let '(expected_mode, expected_dtype) :=
        match requested_rescore with
        | RescoreStructured o =>
            (Some (rs_mode o), match rs_dtype o with Some d => Some d | None => requested_dtype end)
        | RescoreName m => (Some m, requested_dtype)
        | RescoreNone => (None, requested_dtype)
        end in
      mode ← py_get (PDict p) "mode" (PStr "original");
      if match expected_mode with Some m => negb (bool_decide (m = py_str mode)) | None => false end
      then raise ValueError "rescore mode does not match the persisted store; rebuild the store to change it"
      else
        dtype ← py_get (PDict p) "dtype" PNone;
        let persisted_dtype := py_str (py_or dtype (PStr "float16")) in
        if match expected_dtype with Some d => negb (bool_decide (d = persisted_dtype)) | None => false end
        then raise ValueError "rescore_dtype does not match the persisted store; rebuild the store to change it"
        else Ok tt
  end.

(** ** The identity of an index *)

Record index_identity := Identity
  { native_dim : Z; model : string; provider : string; task : string; storage_profile : string; bit_width : Z }.

Global Instance index_identity_eq_dec : EqDecision index_identity.
Proof. solve_decision. Defined.

Definition identity_of_state (st : ClientIndexState) : index_identity :=
  Identity (cs_dim st) (cs_model st) (cs_provider st) (cs_task st) (cs_profile st) (cs_bits st).

Inductive id_value := IdInt (z : Z) | IdStr (s : string).
Global Instance id_value_eq_dec : EqDecision id_value.
Proof. solve_decision. Defined.
Definition id_repr (v : id_value) : string := match v with IdInt z => Z_str z | IdStr s => str_repr s end.

(** The creation payload: the identity with the names of the index. *)
Definition _native_vector_index_options (index_id index_key client_id_hash name route_profile : string)
    (i : index_identity) (ann rescore : option pydict) : pydict :=
  [(PStr "index_id", PStr index_id); (PStr "index_key", PStr index_key); (PStr "client_id_hash", PStr client_id_hash);
   (PStr "name", PStr name); (PStr "model", PStr (model i)); (PStr "provider", PStr (provider i));
   (PStr "task", PStr (task i)); (PStr "route_profile", PStr route_profile);
   (PStr "storage_profile", PStr (storage_profile i)); (PStr "vector_dim", PInt (native_dim i));
   (PStr "bit_width", PInt (bit_width i))]
  ++ opt_entry "ann" PDict ann ++ opt_entry "rescore" PDict rescore.

(** [except (OSError, ValueError)]. *)
Definition is_os_error (e : exn) : bool :=
  match exn_class e with OSError | FileNotFoundError => true | _ => false end.

Section identity.
Variable directory : path.

(** The state header of the generation a manifest names; an unreadable one is skipped. *)
Definition read_state_payload (base : path) : io (option pyval) := λ s,
  let o := (text ← read_text base; lift (loads text)) s in
  match value o with
  | Ok payload => Out (trace o) (final o) (Ok (Some payload))
  | Err e => Out (trace o) (final o) (if is_os_error e || is_value_error e then Ok None else Err e)
  end.

Fixpoint first_identity (commits : list string) : io (option index_identity) :=
  match commits with
  | [] => mret None
  | name :: commits =>
      manifest ← read_commit_manifest (pjoin directory name);
      match manifest with
      | None => first_identity commits
      | Some body =>
          let key := str_take (slen name - slen COMMIT_MANIFEST_SUFFIX) name in
          epochv ← lift (py_index (PDict body) "base_epoch");
          epoch ← lift (py_int epochv);
          payload ← read_state_payload (base_json_path directory key epoch);
          match payload with
          | None => first_identity commits
          | Some payload => st ← lift (state_from_payload payload); mret (Some (identity_of_state st))
          end
      end
  end.

Definition _persisted_index_identity : io (option index_identity) :=
  commits ← glob_suffix directory COMMIT_MANIFEST_SUFFIX;
  first_identity commits.

(** One turn of the loop over [(label, persisted_value, expected_value)]; the values are
    integers or strings. *)
Definition check_entry (t : string * id_value * id_value) : result unit :=
  let '(label, persisted, expected) := t in
  if bool_decide (persisted = expected) then Ok tt
  else raise RuntimeError ("persisted index " +:+ label +:+ " " +:+ id_repr persisted
    +:+ " does not match the opened index " +:+ label +:+ " " +:+ id_repr expected
    +:+ "; reopen with the same model / embedder / vector_dim / bit_width it was written with").

Definition identity_entries (persisted options : index_identity) : list (string * id_value * id_value) :=
  [("dimension", IdInt (native_dim persisted), IdInt (native_dim options));
   ("model", IdStr (model persisted), IdStr (model options));
   ("provider", IdStr (provider persisted), IdStr (provider options));
   ("task", IdStr (task persisted), IdStr (task options));
   ("storage profile", IdStr (storage_profile persisted), IdStr (storage_profile options));
   ("bit_width", IdInt (bit_width persisted), IdInt (bit_width options))].

Definition _validate_native_index_identity (options : index_identity) : io unit :=
  persisted ← _persisted_index_identity;
  match persisted with
  | None => mret tt
  | Some p => lift (foldR (λ _ t, check_entry t) tt (identity_entries p options))
  end.

(** A log another mode left behind: [any(p.is_file() and p.stat().st_size > 0)] over [*.wal]. *)
Definition _has_leftover_wal : io bool :=
  names ← glob_suffix directory ".wal";
  sizes ← mapIO (λ n, file_size (pjoin directory n)) names;
  mret (existsb (λ z, 0 <? z) sizes).
End identity.

(** ** Opening *)

(** The handle of an engine that was just opened: whether the index exists ([stats] answers),
    the rescore entry of its durable options, and the calls [_finalize_open] makes. *)
Class NativeOpen (E : Type) := {
  open_stats : E → result pyval;
  open_rescore : E → result (option pydict);
  open_create : pydict → st E unit;
  open_persist : st E unit;
  open_overrides : option Z → option spec_float → st E unit;
  open_close : st E unit }.

(** What the constructor asked for. *)
Record open_request := Request
  { rq_read_only : bool; rq_identity : index_identity; rq_options : pydict; rq_ann : option pydict;
    rq_ann_nprobe : option Z; rq_rescore : rescore_arg; rq_dtype : option string; rq_oversample : option spec_float }.

Section opening.
Context {E : Type} {NO : NativeOpen E}.
Variables (directory : path) (disk : fsys) (rq : open_request).

Definition _apply_session_overrides (ann_nprobe : option Z) (rescore_oversample : option spec_float) : st E unit :=
  if negb (given ann_nprobe) && negb (given rescore_oversample) then mret tt
  else open_overrides ann_nprobe rescore_oversample.

(** The checks and overrides of an index that exists, given its persisted rescore entry. *)
Definition adopt_index (persisted : option pydict) : st E unit :=
  _ ← st_lift (_validate_reopen_rescore_options persisted (rq_rescore rq) (rq_dtype rq) (rq_oversample rq));
  _apply_session_overrides (rq_ann_nprobe rq) (rq_oversample rq).

Definition create_index : st E unit :=
  if given (rq_ann_nprobe rq) && negb (given (rq_ann rq))
  then st_lift (raise ValueError "ann_nprobe requires ann= when creating a store")
  else if negb (asked_rescore (rq_rescore rq)) && (given (rq_dtype rq) || given (rq_oversample rq))
  then st_lift (raise ValueError "rescore_dtype/rescore_oversample require rescore= when creating a store")
  else _ ← open_create (rq_options rq); open_persist.

(** [except Exception: return handle] around reading the options. *)
Definition adopt_if_listed : st E unit := λ e,
  match open_rescore e with Err _ => (Ok tt, e) | Ok persisted => adopt_index persisted e end.

Definition finalize_body : st E unit := λ e,
  let validated := st_lift (value (_validate_native_index_identity directory (rq_identity rq) disk)) in
  if rq_read_only rq
  then (_ ← validated; adopt_if_listed) e
  else match open_stats e with
       | Err _ => create_index e
       | Ok _ => (_ ← validated; persisted ← st_read open_rescore; adopt_index persisted) e
       end.

(** A failure closes the engine, whatever closing says, and propagates. *)
Definition _finalize_open : st E unit := λ e,
  match finalize_body e with
  | (Ok _, e') => (Ok tt, e')
  | (Err x, e') => (Err x, (open_close e').2)
  end.
End opening.

(** ** Lemmas *)

Lemma pure_read_state base : pure_io (read_state_payload base).
Proof.
  intros s. unfold read_state_payload. assert (pure_io (text ← read_text base; lift (loads text))) as Hp.
  { apply pure_bind; [apply pure_read_text|]. intros t. apply pure_lift. }
  destruct (Hp s) as [Ht Hf]. destruct (value _); cbn [trace final]; by rewrite Ht, Hf.
Qed.

Lemma read_state_run base s raw text payload : content s base = Some raw → utf8_decode raw = Ok text →
  loads text = Ok payload → read_state_payload base s = Out [] s (Ok (Some payload)).
Proof.
  intros Hc Hd Hl. unfold read_state_payload.
  assert ((text ← read_text base; lift (loads text)) s = Out [] s (Ok payload)) as ->; [|done].
  rewrite (read_text_run _ _ _ _ Hc), Hd. unfold lift. by rewrite Hl.
Qed.

(** The checks pass exactly when the identities are the same. *)
Lemma check_entries l : if forallb (λ t : string * id_value * id_value, bool_decide (t.1.2 = t.2)) l
  then foldR (λ _ t, check_entry t) tt l = Ok tt
  else ∃ e, foldR (λ _ t, check_entry t) tt l = Err e ∧ exn_class e = RuntimeError.
Proof.
  induction l as [|[[lb a] b] l IH]; [done|]. cbn [forallb foldR check_entry fst snd].
  destruct (bool_decide (a = b)); [exact IH|]. cbn [andb]. unfold raise. cbn [mbind result_bind]. by eexists.
Qed.

Lemma identity_entries_spec p o :
  forallb (λ t : string * id_value * id_value, bool_decide (t.1.2 = t.2)) (identity_entries p o) = bool_decide (p = o).
Proof.
  apply Bool.eq_iff_eq_true. rewrite bool_decide_eq_true. destruct p, o. cbn [identity_entries forallb fst snd
    native_dim model provider task storage_profile bit_width]. rewrite !andb_true_iff, !bool_decide_eq_true.
  split; [by intros ([= ->] & [= ->] & [= ->] & [= ->] & [= ->] & [= ->] & _)|by intros [= -> -> -> -> -> ->]].
Qed.

Lemma validate_identity d o s r : _persisted_index_identity d s = Out [] s r →
  value (_validate_native_index_identity d o s) = match r with
    | Ok (Some p) => foldR (λ _ t, check_entry t) tt (identity_entries p o)
    | Ok None => Ok tt
    | Err e => Err e
    end.
Proof.
  intros Hr. unfold _validate_native_index_identity. destruct r as [r|e].
  - rewrite (bind_run_pure _ _ _ _ Hr). by destruct r.
  - by rewrite (bind_run_err _ _ _ _ _ _ Hr).
Qed.

Lemma pure_first_identity d l : pure_io (first_identity d l).
Proof.
  induction l as [|n l IH]; cbn [first_identity]; [apply pure_ret|]. apply pure_bind.
  { intros s. by rewrite read_commit_run. }
  intros [body|]; [|done]. apply pure_bind; [apply pure_lift|]. intros v. apply pure_bind; [apply pure_lift|]. intros ep.
  apply pure_bind; [apply pure_read_state|]. intros [p|]; [|done]. apply pure_bind; [apply pure_lift|]. intros st. apply pure_ret.
Qed.

Lemma persisted_run d s : _persisted_index_identity d s = Out [] s (value (_persisted_index_identity d s)).
Proof. apply pure_run, pure_bind; [apply pure_gets|]. apply pure_first_identity. Qed.

(** The identity of a path whose first commit manifest names a readable generation. *)
Lemma committed_identity d s name rest body epoch raw text payload st :
  listed s d COMMIT_MANIFEST_SUFFIX = name :: rest →
  parse_commit (content s (pjoin d name)) = Ok (Some body) →
  (v ← py_index (PDict body) "base_epoch"; py_int v) = Ok epoch →
  content s (base_json_path d (str_take (slen name - slen COMMIT_MANIFEST_SUFFIX) name) epoch) = Some raw →
  utf8_decode raw = Ok text → loads text = Ok payload → state_from_payload payload = Ok st →
  value (_persisted_index_identity d s) = Ok (Some (identity_of_state st)).
Proof.
  intros Hl Hb Hep Hc Hd Hp Hst. unfold _persisted_index_identity. unfold listed in Hl.
  rewrite (bind_run_pure _ _ s (name :: rest)) by (unfold glob_suffix, gets in *; cbn [value] in Hl; by rewrite Hl).
  cbn [first_identity].
  rewrite (bind_run_pure _ _ s (Some body)) by (by rewrite read_commit_run, Hb). cbv zeta beta iota.
  apply bind_Ok in Hep as (v & Hv & Hep). rewrite lift_bind_run, Hv. cbv beta iota. rewrite lift_bind_run, Hep. cbv beta iota.
  erewrite bind_run_pure by (by eapply read_state_run). cbv beta iota. by rewrite lift_bind_run, Hst.
Qed.

Lemma overrides_run {E} {NO : NativeOpen E} (n : option Z) (o : option spec_float) (e : E) :
  _apply_session_overrides n o e = (Ok tt, e) ∨ _apply_session_overrides n o e = open_overrides n o e.
Proof. unfold _apply_session_overrides. destruct (_ && _); auto. Qed.

(** The outcome of opening an existing index, whose persisted identity is [p]. *)
Lemma finalize_existing {E} {NO : NativeOpen E} d s rq (e : E) p :
  value (_persisted_index_identity d s) = Ok (Some p) →
  rq_read_only rq = true ∨ is_Ok (open_stats e) →
  if bool_decide (p = rq_identity rq)
  then _finalize_open d s rq e = _finalize_open d (FSys ∅ ∅) rq e
  else ∃ x, _finalize_open d s rq e = (Err x, (open_close e).2) ∧ exn_class x = RuntimeError.
Proof.
  intros Hp Hex. pose proof (persisted_run d s) as Hrun. rewrite Hp in Hrun.
  pose proof (check_entries (identity_entries p (rq_identity rq))) as Hc. rewrite identity_entries_spec in Hc.
  unfold _finalize_open, finalize_body. rewrite (validate_identity _ _ _ _ Hrun).
  assert (value (_validate_native_index_identity d (rq_identity rq) (FSys ∅ ∅)) = Ok tt) as -> by done.
  case_bool_decide as Heq.
  - by rewrite Hc.
  - destruct Hc as (x & Hx & Hk). rewrite Hx. exists x. split; [|done].
    destruct Hex as [-> |[v Hv]]; [done|]. destruct (rq_read_only rq); [done|]. by rewrite Hv.
Qed.

(** What opening an existing index can do to the engine: at most install the session overrides,
    and close it when the open fails. It never creates, persists or changes the index. *)
Lemma finalize_existing_engine {E} {NO : NativeOpen E} d s rq (e : E) :
  rq_read_only rq = true ∨ is_Ok (open_stats e) →
  ∃ e1, (e1 = e ∨ e1 = (open_overrides (rq_ann_nprobe rq) (rq_oversample rq) e).2) ∧
    (_finalize_open d s rq e = (Ok tt, e1) ∨ ∃ x, _finalize_open d s rq e = (Err x, (open_close e1).2)).
Proof.
  intros Hex.
  assert (∀ persisted, ∃ e1, (e1 = e ∨ e1 = (open_overrides (rq_ann_nprobe rq) (rq_oversample rq) e).2) ∧
    (adopt_index rq persisted e).2 = e1) as Hadopt.
  { intros persisted. unfold adopt_index, mbind, st_bind, st_lift.
    destruct (_validate_reopen_rescore_options _ _ _ _) as [[]|x]; [|by eauto].
    destruct (overrides_run (rq_ann_nprobe rq) (rq_oversample rq) e) as [-> | ->]; eauto. }
  unfold _finalize_open.
  assert (∃ e1, (e1 = e ∨ e1 = (open_overrides (rq_ann_nprobe rq) (rq_oversample rq) e).2) ∧
    (finalize_body d s rq e).2 = e1) as (e1 & He1 & Hb).
  { unfold finalize_body, mbind, st_bind, st_lift, st_read, adopt_if_listed.
    destruct (value _) as [[]|x]; destruct (rq_read_only rq); [| | by eauto | ].
    - destruct (open_rescore e) as [persisted|]; [apply Hadopt|by eauto].
    - destruct Hex as [? |[v ->]]; [done|]. destruct (open_rescore e) as [persisted|]; [apply Hadopt|by eauto].
    - destruct Hex as [? |[v ->]]; [done|]. by eauto. }
  exists e1. split; [done|]. destruct (finalize_body d s rq e) as [[[]|x] e']; cbn in Hb; subst e'; eauto.
Qed.

(** ** Claims *)

(** C10: Reopening a path is guarded by what is on disk. When the first commit manifest of the
    directory names a readable generation, opening a handle over the existing index with another
    dimension, model, provider, task, storage profile or bit width is a [RuntimeError] that only
    closes the engine; and with any outcome the open neither creates, persists nor changes the
    index: at most it installs the session overrides. *)
Theorem reopen_identity_guard {E} {NO : NativeOpen E} d s rq (e : E) name rest body epoch raw text payload st :
  listed s d COMMIT_MANIFEST_SUFFIX = name :: rest →
  value (read_commit_manifest (pjoin d name) s) = Ok (Some body) →
  (v ← py_index (PDict body) "base_epoch"; py_int v) = Ok epoch →
  content s (base_json_path d (str_take (slen name - slen COMMIT_MANIFEST_SUFFIX) name) epoch) = Some raw →
  utf8_decode raw = Ok text → loads text = Ok payload → state_from_payload payload = Ok st →
  rq_read_only rq = true ∨ is_Ok (open_stats e) →
  (identity_of_state st ≠ rq_identity rq →
     ∃ x, _finalize_open d s rq e = (Err x, (open_close e).2) ∧ exn_class x = RuntimeError) ∧
  ∃ e1, (e1 = e ∨ e1 = (open_overrides (rq_ann_nprobe rq) (rq_oversample rq) e).2) ∧
    (_finalize_open d s rq e = (Ok tt, e1) ∨ ∃ x, _finalize_open d s rq e = (Err x, (open_close e1).2)).
Proof.
  intros Hl Hb Hep Hc Hd Hp Hst Hex. rewrite read_commit_run in Hb. split; [|by apply finalize_existing_engine].
  intros Hne. pose proof (finalize_existing d s rq e _ (committed_identity _ _ _ _ _ _ _ _ _ _ Hl Hb Hep Hc Hd Hp Hst) Hex) as H.
  by rewrite bool_decide_false in H.
Qed.

(** An engine that records the calls made on it. *)
Definition recorder : NativeOpen (list string) :=
  {| open_stats := λ _, Ok PNone; open_rescore := λ _, Ok None;
     open_create := λ _ e, (Ok tt, e ++ ["create"]); open_persist := λ e, (Ok tt, e ++ ["persist"]);
     open_overrides := λ _ _ e, (Ok tt, e ++ ["overrides"]); open_close := λ e, (Ok tt, e ++ ["close"]) |}.

Definition wider_request : open_request :=
  Request false (Identity 3 "m" "p" "t" "turbovec_direct" 4) [] None (Some 7) RescoreNone None None.

Lemma reopen_identity_guard_witness :
  ∃ x, @_finalize_open _ recorder ["data"] audit_disk wider_request [] = (Err x, ["close"]) ∧ exn_class x = RuntimeError.
Proof.
  eapply (proj1 (@reopen_identity_guard _ recorder ["data"] audit_disk wider_request [] _ _ _ _ _ _ _ _
    ltac:(vm_compute; reflexivity) ltac:(vm_compute; reflexivity) ltac:(vm_compute; reflexivity)
    ltac:(vm_compute; reflexivity) ltac:(vm_compute; reflexivity) ltac:(vm_compute; reflexivity)
    ltac:(vm_compute; reflexivity) (or_intror (ex_intro _ PNone eq_refl)))).
  vm_compute. discriminate.
Defined.
