(* ===== verification/LocalDb.v ===== *)
(** * The local database

    [local/db.py]: the verbs of [LodeDB] over the native core. The handle's configuration is fixed
    when it opens ([LodeConfig]); its state ([LodeDB]) is the engine, the recorded fallback
    reason and the auto-id counter. The compiled engine is the class [NativeEngine], the calls of
    [NativeCoreEngineHandle] with their JSON payloads as Python values; what the SDK relies on is
    [NativeLaws]. The embedding model is the record [EmbeddingBackend]. Against these laws the
    database is shown to be an index as the knowledge graph wants one ([LodeIndexLaws]). *)

From Stdlib Require Import Ascii String ZArith Lia SpecFloat.
From stdpp Require Import base strings gmap sets list.
From S2P Require Import Prelude Numbers PyVal Json Predicate EngineCore RouteRegistry Topology KnowledgeGraph GraphSync VectorBoundary.

Local Open Scope Z_scope.

(** ** Documents and coercions at the boundary *)

Record EngineDocument := EngineDoc { ed_id : string; ed_text : string; ed_metadata : meta }.
Record EngineVectorDocument := EngineVec
  { ev_id : string; ev_vector : list spec_float; ev_metadata : meta; ev_text : option string }.

(** One entry of the sidecar that goes with a matrix. *)
Record sidecar_entry := Sidecar { sc_id : string; sc_metadata : meta; sc_text : option string }.

Definition coerce_step (coerced : meta) (kv : pyval * pyval) : result meta :=
  match kv.1 with
  | PStr key =>
      match kv.2 with
      | PBool b => Ok (<[key := if b then "true" else "false"]> coerced)
      | PStr _ | PInt _ | PFloat _ => Ok (<[key := py_str kv.2]> coerced)
      | _ => raise ValueError ("metadata value for " +:+ str_repr key +:+ " must be a string, number, or bool")
      end
  | _ => raise ValueError "metadata keys must be strings"
  end.

Definition _coerce_metadata (metadata : pyval) : result meta :=
  match metadata with
  | PNone => Ok ∅
  | _ => items ← py_items metadata; foldR coerce_step ∅ items
  end.

Definition _coerce_optional_text (value : pyval) : result (option string) :=
  match value with
  | PNone => Ok None
  | PStr s => Ok (Some s)
  | _ => raise ValueError "vector document 'text' must be a string when provided"
  end.

Definition structured_keys : list string := ["metadata"; "document_ids"].
Definition given_key (k : string) (d : pydict) : bool := bool_decide (is_Some (dict_get k d)).
Definition is_structured (d : pydict) : bool :=
  forallb (λ kv, existsb (λ k, key_is k kv) structured_keys) d
  && existsb (λ k, given_key k d) structured_keys.

Definition _normalize_filter (filter : pyval) : result (option pydict) :=
  match filter with
  | PNone => Ok None
  | PDict d =>
      if is_structured d then
        md ← (match dict_get "metadata" d with
              | Some m => c ← coerce_sdk_filter m; Ok [(PStr "metadata", c)]
              | None => Ok []
              end);
        ids ← (match dict_get "document_ids" d with
               | Some v => l ← py_iter v; Ok [(PStr "document_ids", PList l)]
               | None => Ok []
               end);
        Ok (Some (md ++ ids))
      else c ← coerce_sdk_filter filter; Ok (Some [(PStr "metadata", c)])
  | _ => raise ValueError "filter must be a mapping"
  end.

(** ** The native engine *)

(** The calls the database makes; [arrays] is absent when the engine lacks the array query. *)
Record native_arrays := Arrays
  { na_scores : list spec_float; na_ids : list string; na_metadata : list pydict; na_k : nat }.

(** A JSON object of the engine, with the text it came from ([NativeCorePayload]). *)
Record NativeCorePayload := Payload { np_value : pydict; native_json : string }.

Class NativeEngine (E : Type) := {
  prepare_text_upsert : list EngineDocument → bool → bool → Z → st E NativeCorePayload;
  apply_text_upsert : NativeCorePayload → list (list spec_float) → st E unit;
  upsert_vectors : list EngineVectorDocument → st E unit;
  upsert_vectors_matrix : list (list spec_float) → list sidecar_entry → st E unit;
  delete_documents : list string → st E pyval;
  update_document_payload : string → option meta → option string → bool → st E unit;
  query_vector : list spec_float → Z → option pydict → E → result pyval;
  query_vectors_batch : list (list spec_float) → Z → option pydict → E → result (list pyval);
  query_vectors_batch_arrays :
    option (list (list spec_float) → Z → option pydict → bool → E → result (option native_arrays));
  search_text : string → string → option (list spec_float) → Z → option pydict → E → result pyval;
  search_text_batch : list string → string → option (list (list spec_float)) → Z → option pydict → E → result (list pyval);
  get_document_text : string → E → result (option string);
  get_document_texts : list string → E → result (list (string * string));
  native_get_document : string → E → result (option pydict);
  native_list_documents : option pydict → option string → option Z → E → result (list pydict);
  native_stats : E → result pyval;
  engine_persist : st E unit }.

Record EmbeddingBackend := Backend
  { embed_documents : list string → result (list (list spec_float));
    embed_query : string → result (list spec_float) }.

(** ** The handle *)

Record LodeConfig := Config
  { cf_read_only : bool; cf_store_text : bool; cf_index_text : bool; cf_vector_only : bool;
    cf_vector_dim : nat; cf_chunk_limit : Z; cf_commit_mode : CommitMode; cf_backend : option EmbeddingBackend }.

Record LodeDB (E : Type) := Db { db_engine : E; db_fallback_reason : string; db_auto_ids : Z }.
Arguments Db {E} _ _ _.
Arguments db_engine {E} _.
Arguments db_fallback_reason {E} _.
Arguments db_auto_ids {E} _.

(** The random part of the [n]-th automatic id, [secrets.token_hex(8)]. *)
Class Secrets := token_hex : Z → string.

(** A list comprehension whose body acts on the state. *)
Section mapS.
Context {S A B : Type} (f : A → st S B).
Fixpoint mapS (l : list A) : st S (list B) :=
  match l with
  | [] => mret []
  | x :: l => y ← f x; ys ← mapS l; mret (y :: ys)
  end.
End mapS.

(** ** Search modes *)

Definition LEXICAL_SEARCH_MODES : list string := ["hybrid"; "lexical"].
Definition SEARCH_MODES : list string := "vector" :: LEXICAL_SEARCH_MODES.

Definition lexical_source (c : LodeConfig) : bool := cf_index_text c || cf_store_text c.

(** The gates on a canonical mode. *)
Definition gate_mode (c : LodeConfig) (value : string) : result string :=
  if cf_vector_only c && str_in value ["vector"; "hybrid"]
  then raise VectorOnlyIndexError ("mode=" +:+ str_repr value +:+ " needs to embed the query text, which a vector-only index "
    +:+ "cannot do; use search_by_vector(...) for vector similarity, or mode=" +:+ String dquote "lexical" +:+ String dquote ""
    +:+ " for keyword search over retained text")
  else if str_in value LEXICAL_SEARCH_MODES && negb (lexical_source c)
  then raise ValueError ("mode=" +:+ str_repr value +:+ " requires a lexical source: open LodeDB with "
    +:+ "index_text=True (persists the BM25 postings, durable across reopens) "
    +:+ "or store_text=True (the BM25 index is rebuilt from the retained raw text)")
  else Ok value.

Definition _resolve_mode (c : LodeConfig) (mode : pyval) : result string :=
  match mode with
  | PNone =>
      if cf_vector_only c then gate_mode c "lexical"
      else if lexical_source c then Ok "hybrid"
      else Ok "vector"
  | PStr m =>
      let lowered := str_lower (str_strip m) in
      let value := if bool_decide (lowered = "") then "vector" else lowered in
      if negb (str_in value SEARCH_MODES)
      then raise ValueError ("mode must be one of: " +:+ str_join ", " (sort_by str_leb SEARCH_MODES))
      else gate_mode c value
  | _ => raise ValueError "mode must be a string"
  end.

(** ** Hydrating native answers *)

Record SearchHit := MkHit { sh_score : spec_float; sh_id : string; sh_metadata : pydict }.

Definition hit_from_row (row : pyval) : result SearchHit :=
  match row with
  | PDict _ =>
      sv ← py_index row "score"; score ← py_float sv;
      idv ← py_index row "document_id";
      mv ← py_get row "metadata" (PDict []); metadata ← py_dict mv;
      Ok (MkHit score (py_str idv) metadata)
  | _ => raise RuntimeError "invalid native response: hit row must be an object"
  end.

Definition _hits_from_native_rows (rows : pyval) : result (list SearchHit) :=
  match rows with
  | PList l => mapR hit_from_row l
  | _ => raise RuntimeError "invalid native response: hits must be a list"
  end.

Definition list_get {A} (l : list A) (i : nat) : result A :=
  match l !! i with Some x => Ok x | None => raise IndexError "list index out of range" end.

Definition array_hit (a : native_arrays) (i : nat) : result SearchHit :=
  score ← list_get (na_scores a) i;
  id ← list_get (na_ids a) i;
  Ok (MkHit score id (default [] (na_metadata a !! i))).

Definition _hits_from_native_arrays (a : native_arrays) (query_count : nat) : result (list (list SearchHit)) :=
  if Nat.eqb (na_k a) 0 then Ok (replicate query_count [])
  else mapR (λ q, mapR (λ offset, array_hit a (q * na_k a + offset)) (seq 0 (na_k a))) (seq 0 query_count).

Definition _public_document_record (record : pydict) : result pydict :=
  metadata ← py_get (PDict record) "metadata" (PDict []);
  idv ← py_get (PDict record) "document_id" (PStr "");
  countv ← py_get (PDict record) "chunk_count" (PInt 0);
  count ← py_int (py_or countv (PInt 0));
  hash ← py_get (PDict record) "content_hash" (PStr "");
  Ok [(PStr "id", PStr (py_str idv)); (PStr "metadata", match metadata with PDict d => PDict d | _ => PDict [] end);
      (PStr "chunk_count", PInt count); (PStr "content_hash", PStr (py_str hash))].

Section db.
Context {E : Type} {NE : NativeEngine E} {R : Reductions} {TH : Secrets}.
Variable c : LodeConfig.
Local Notation db := (LodeDB E).

Definition with_engine (d : db) (e : E) : db := Db e (db_fallback_reason d) (db_auto_ids d).

(** [try: ... except Exception: record the reason; raise RuntimeError(msg)] around engine calls. *)
Definition guarded {A} (reason msg : string) (m : st E A) : st db A := λ d,
  match m (db_engine d) with
  | (Ok a, e) => (Ok a, with_engine d e)
  | (Err _, e) => (raise RuntimeError msg, Db e reason (db_auto_ids d))
  end.

Definition _require_writable : st db unit :=
  st_lift (if cf_read_only c
           then raise ReadOnlyError "this LodeDB handle is read-only; open without read_only=True to modify it"
           else Ok tt).

Definition _require_text_capable : st db unit :=
  st_lift (if cf_vector_only c
           then raise VectorOnlyIndexError ("this index is vector-only (no embedding model); use add_vectors / "
                  +:+ "add_vectors_many / search_by_vector / search_many_by_vector")
           else Ok tt).

Definition _next_auto_id : st db string := λ d,
  let n := db_auto_ids d + 1 in
  (Ok ("doc-" +:+ token_hex n +:+ "-" +:+ Z_str n), Db (db_engine d) (db_fallback_reason d) n).

(** [str(id) if id is not None else self._next_auto_id()]. *)
Definition document_id_of (id : pyval) : st db string :=
  match id with PNone => _next_auto_id | _ => mret (py_str id) end.

(** ** Mutations of the native core *)

Definition _native_should_persist_after_mutation : bool :=
  negb (cf_read_only c) && match cf_commit_mode c with Generation => true | Wal => false end.

(** [if should_persist: engine.persist()]. *)
Definition persist_after : st E unit :=
  if _native_should_persist_after_mutation then engine_persist else mret tt.

Definition _native_upsert_vectors (documents : list EngineVectorDocument) : st db unit :=
  match documents with
  | [] => mret tt
  | _ => guarded "native_core_upsert_failed" "native core vector upsert failed"
           (_ ← upsert_vectors documents; persist_after)
  end.

Definition _native_upsert_vectors_matrix (matrix : list (list spec_float)) (sidecar : list sidecar_entry) : st db unit :=
  match sidecar with
  | [] => mret tt
  | _ => guarded "native_core_upsert_failed" "native core vector upsert failed"
           (_ ← upsert_vectors_matrix matrix sidecar; persist_after)
  end.

(** [str(chunk.get("text", "")) for chunk in plan.get("chunks_to_embed", [])]. *)
Definition chunks_to_embed (plan : pydict) : result (list string) :=
  v ← py_get (PDict plan) "chunks_to_embed" (PList []);
  chunks ← py_iter v;
  mapR (λ chunk, t ← py_get chunk "text" (PStr ""); Ok (py_str t)) chunks.

Definition embed_and_apply (backend : EmbeddingBackend) (documents : list EngineDocument) : st E unit :=
  plan ← prepare_text_upsert documents (cf_store_text c) (cf_index_text c) (cf_chunk_limit c);
  chunks ← st_lift (chunks_to_embed (np_value plan));
  embeddings ← st_lift (match chunks with [] => Ok [] | _ => embed_documents backend chunks end);
  _ ← apply_text_upsert plan embeddings;
  persist_after.

Definition _native_upsert_text_documents (documents : list EngineDocument) : st db unit :=
  match documents with
  | [] => mret tt
  | _ =>
      match cf_backend c with
      | None => st_lift (raise RuntimeError "native text upsert requires an embedding backend")
      | Some backend =>
          guarded "native_core_text_upsert_failed" "native core text upsert failed" (embed_and_apply backend documents)
      end
  end.

Definition _native_delete_documents (document_ids : list string) : st db pyval :=
  match document_ids with
  | [] => mret (dict_of [("documents_deleted", PInt 0)])
  | _ => guarded "native_core_delete_failed" "native core vector delete failed"
           (response ← delete_documents document_ids; _ ← persist_after; mret response)
  end.

Definition _native_update_document_payload (document_id : string) (metadata : pyval) (text : option string)
    (clear_text : bool) : st db unit :=
  guarded "native_core_payload_update_failed" "native core payload update failed"
    (md ← st_lift (match metadata with PNone => Ok None | _ => m ← _coerce_metadata metadata; Ok (Some m) end);
     _ ← update_document_payload document_id md text clear_text;
     persist_after).

(** ** Reads of the native core *)

(** [payload.get("hits", [])], hydrated. *)
Definition hits_of_payload (payload : pyval) : result (list SearchHit) :=
  rows ← py_get payload "hits" (PList []); _hits_from_native_rows rows.

Definition _native_search_by_vector (vector : list spec_float) (k : Z) (filter : option pydict) : st db (list SearchHit) :=
  payload ← guarded "native_core_query_failed" "native core vector query failed"
              (st_read (query_vector vector k filter));
  st_lift (hits_of_payload payload).

(** The array path answers with hits, the batch path with payloads still to be hydrated. *)
Definition batch_answer (vectors : list (list spec_float)) (k : Z) (filter : option pydict)
    : st E (list (list SearchHit) + list pyval) := λ e,
  let batch := (l ← query_vectors_batch vectors k filter e; Ok (inr l)) in
  (match query_vectors_batch_arrays with
   | Some arrays_query =>
       arrays ← arrays_query vectors k filter true e;
       match arrays with
       | Some a => rows ← _hits_from_native_arrays a (length vectors); Ok (inl rows)
       | None => batch
       end
   | None => batch
   end, e).

Definition _native_search_many_by_vector (vectors : list (list spec_float)) (k : Z) (filter : option pydict)
    : st db (list (list SearchHit)) :=
  answer ← guarded "native_core_batch_query_failed" "native core vector batch query failed" (batch_answer vectors k filter);
  st_lift (match answer with inl rows => Ok rows | inr payloads => mapR hits_of_payload payloads end).

(** The query embedding the modes that scan vectors need. *)
Definition embed_queries (mode : string) (queries : list string) : result (option (list (list spec_float))) :=
  if str_in mode ["vector"; "hybrid"] then
    match cf_backend c with
    | None => raise RuntimeError "native text query requires an embedding backend"
    | Some b => l ← mapR (embed_query b) queries; Ok (Some l)
    end
  else Ok None.

Definition _native_search_text (query : string) (k : Z) (filter : option pydict) (mode : string) : st db (list SearchHit) :=
  payload ← guarded "native_core_text_query_failed" "native core text query failed"
    (embeddings ← st_lift (embed_queries mode [query]);
     st_read (search_text query mode (embeddings ≫= head) k filter));
  st_lift (hits_of_payload payload).

Definition _native_search_text_batch (queries : list string) (k : Z) (filter : option pydict) (mode : string)
    : st db (list (list SearchHit)) :=
  payloads ← guarded "native_core_text_batch_query_failed" "native core text batch query failed"
    (embeddings ← st_lift (embed_queries mode queries);
     st_read (search_text_batch queries mode embeddings k filter));
  st_lift (mapR hits_of_payload payloads).

Definition document_read {A} (reason : string) (f : E → result A) : st db A :=
  guarded reason "native core document read failed" (st_read f).
Definition _native_get_text (id : string) : st db (option string) :=
  document_read "native_core_get_text_failed" (get_document_text id).
Definition _native_get_texts (ids : list string) : st db (list (string * string)) :=
  document_read "native_core_get_texts_failed" (get_document_texts ids).
Definition _native_get_document (id : string) : st db (option pydict) :=
  document_read "native_core_get_document_failed" (native_get_document id).
Definition _native_list_documents (filter : option pydict) (after : option string) (limit : option Z) : st db (list pydict) :=
  document_read "native_core_list_documents_failed" (native_list_documents filter after limit).
Definition _native_stats : st db pyval :=
  guarded "native_core_stats_failed" "native core stats failed" (st_read native_stats).

Definition _native_persist : st db unit :=
  if cf_read_only c then mret tt
  else guarded "native_core_write_persist_failed" "native core persist failed" engine_persist.

(** ** The verbs *)

(** [not isinstance(v, str) or not v.strip()]. *)
Definition nonblank (v : pyval) (msg : string) : result string :=
  match v with PStr s => if is_blank s then raise ValueError msg else Ok s | _ => raise ValueError msg end.

Definition add (text id metadata : pyval) : st db string :=
  _ ← _require_writable;
  _ ← _require_text_capable;
  t ← st_lift (nonblank text "text must be a non-empty string");
  document_id ← document_id_of id;
  m ← st_lift (_coerce_metadata metadata);
  _ ← _native_upsert_text_documents [EngineDoc document_id t m];
  mret document_id.

(** One mapping of a batch; an absent entry is [None], as [item.get] gives. *)
Record text_item := TextItem { ti_text : pyval; ti_id : pyval; ti_metadata : pyval }.
Record vector_item := VectorItem
  { vi_vector : option (list spec_float); vi_id : pyval; vi_metadata : pyval; vi_text : pyval }.

Definition text_document (item : text_item) : st db EngineDocument :=
  t ← st_lift (nonblank (ti_text item) "each document needs a non-empty 'text'");
  document_id ← document_id_of (ti_id item);
  m ← st_lift (_coerce_metadata (ti_metadata item));
  mret (EngineDoc document_id t m).

Definition add_many (documents : list text_item) : st db (list string) :=
  _ ← _require_writable;
  _ ← _require_text_capable;
  payload ← mapS text_document documents;
  _ ← _native_upsert_text_documents payload;
  mret (map ed_id payload).

(** [_prepare_vector_matrix([vector], ...)[0]]. *)
Definition prepare_one (vector : list spec_float) (normalize : bool) : result (list spec_float) :=
  matrix ← _prepare_vector_matrix [vector] (cf_vector_dim c) normalize;
  list_get matrix 0.

Definition add_vectors (vector : list spec_float) (id metadata text : pyval) (normalize : bool) : st db string :=
  _ ← _require_writable;
  document_id ← document_id_of id;
  prepared ← st_lift (prepare_one vector normalize);
  m ← st_lift (_coerce_metadata metadata);
  t ← st_lift (_coerce_optional_text text);
  _ ← _native_upsert_vectors [EngineVec document_id prepared m t];
  mret document_id.

Definition vector_row (item : vector_item) : st db (list spec_float * sidecar_entry) :=
  v ← st_lift (match vi_vector item with Some v => Ok v | None => raise ValueError "each document needs a 'vector'" end);
  document_id ← document_id_of (vi_id item);
  m ← st_lift (_coerce_metadata (vi_metadata item));
  t ← st_lift (_coerce_optional_text (vi_text item));
  mret (v, Sidecar document_id m t).

Definition add_vectors_many (documents : list vector_item) (normalize : bool) : st db (list string) :=
  _ ← _require_writable;
  rows ← mapS vector_row documents;
  match rows with
  | [] => mret []
  | _ =>
      matrix ← st_lift (_prepare_vector_matrix (map fst rows) (cf_vector_dim c) normalize);
      _ ← _native_upsert_vectors_matrix matrix (map snd rows);
      mret (map (λ r, sc_id r.2) rows)
  end.

Definition positive_k (k : Z) : st db unit := st_lift (if k <=? 0 then raise ValueError "k must be positive" else Ok tt).

Definition search (query : pyval) (k : Z) (filter mode : pyval) : st db (list SearchHit) :=
  q ← st_lift (nonblank query "query must be a non-empty string");
  _ ← positive_k k;
  resolved ← st_lift (_resolve_mode c mode);
  f ← st_lift (_normalize_filter filter);
  _native_search_text q k f resolved.

Definition search_many (queries : pyval) (k : Z) (filter mode : pyval) : st db (list (list SearchHit)) :=
  qs ← st_lift (match queries with
                | PList (q :: l) => mapR (λ v, nonblank v "each query must be a non-empty string") (q :: l)
                | _ => raise ValueError "queries must be a non-empty list of strings"
                end);
  _ ← positive_k k;
  resolved ← st_lift (_resolve_mode c mode);
  f ← st_lift (_normalize_filter filter);
  _native_search_text_batch qs k f resolved.

Definition search_by_vector (vector : list spec_float) (k : Z) (filter : pyval) (normalize : bool) : st db (list SearchHit) :=
  _ ← positive_k k;
  prepared ← st_lift (prepare_one vector normalize);
  f ← st_lift (_normalize_filter filter);
  _native_search_by_vector prepared k f.

Definition search_many_by_vector (vectors : list (list spec_float)) (k : Z) (filter : pyval) (normalize : bool)
    : st db (list (list SearchHit)) :=
  _ ← positive_k k;
  matrix ← st_lift (_prepare_vector_matrix vectors (cf_vector_dim c) normalize);
  f ← st_lift (_normalize_filter filter);
  _native_search_many_by_vector matrix k f.

(** [int(response.get(key, 0) or 0)]. *)
Definition count_of (key : string) (response : pyval) : result Z :=
  v ← py_get response key (PInt 0); py_int (py_or v (PInt 0)).

Definition remove_many (ids : list pyval) : st db Z :=
  _ ← _require_writable;
  document_ids ← st_lift (mapR (λ v, nonblank v "ids must contain only non-empty strings") ids);
  match document_ids with
  | [] => mret 0
  | _ => response ← _native_delete_documents document_ids; st_lift (count_of "documents_deleted" response)
  end.

Definition remove (id : pyval) : st db bool := n ← remove_many [id]; mret (0 <? n).

Definition _update_document_payload (id metadata : pyval) (text : option string) (clear_text : bool) : st db unit :=
  _ ← _require_writable;
  i ← st_lift (nonblank id "id must be a non-empty string");
  _native_update_document_payload i metadata text clear_text.

Definition require_stored_text : st db unit :=
  st_lift (if cf_store_text c then Ok tt
           else raise ValueError "raw text retrieval requires opening LodeDB with store_text=True").

Definition get_text (id : pyval) : st db (option string) :=
  i ← st_lift (nonblank id "id must be a non-empty string");
  _ ← require_stored_text;
  _native_get_text i.

Definition get_texts (ids : pyval) : st db (list (string * string)) :=
  l ← st_lift (match ids with
               | PList l => mapR (λ v, nonblank v "each id must be a non-empty string") l
               | _ => raise ValueError "ids must be a list of strings"
               end);
  _ ← require_stored_text;
  match l with [] => mret [] | _ => _native_get_texts l end.

Definition get_document (id : pyval) : st db (option pydict) :=
  i ← st_lift (nonblank id "id must be a non-empty string");
  record ← _native_get_document i;
  match record with
  | None => mret None
  | Some r => p ← st_lift (_public_document_record r); mret (Some p)
  end.

Definition list_documents (filter : pyval) (after : option string) (limit : option Z) : st db (list pydict) :=
  f ← st_lift (_normalize_filter filter);
  records ← _native_list_documents f after limit;
  st_lift (mapR _public_document_record records).

Definition persist : st db pyval := _ ← _native_persist; _native_stats.

Definition count (filter : pyval) : st db Z :=
  match filter with
  | PNone => stats ← _native_stats; st_lift (count_of "document_count" stats)
  | _ =>
      f ← st_lift (_normalize_filter filter);
      records ← _native_list_documents f None None;
      mret (Z.of_nat (length records))
  end.
End db.

(** ** What the database relies on *)

(** A document as the engine keeps it: the text it retains, the metadata. *)
Record native_doc := NDoc { nd_text : option string; nd_metadata : meta }.

(** The documents of an engine, and the coordinates it takes ([first_invalid_coord]). *)
Class NativeView (E : Type) := { collection : E → gmap string native_doc; coord_ok : spec_float → bool }.

Definition put_texts (store_text : bool) (l : list EngineDocument) (m : gmap string native_doc) : gmap string native_doc :=
  fold_left (λ m d, <[ed_id d := NDoc (if store_text then Some (ed_text d) else None) (ed_metadata d)]> m) l m.
Definition put_sidecars (store_text : bool) (l : list sidecar_entry) (m : gmap string native_doc) : gmap string native_doc :=
  fold_left (λ m s, <[sc_id s := NDoc (if store_text then sc_text s else None) (sc_metadata s)]> m) l m.
Definition sidecar_of (d : EngineVectorDocument) : sidecar_entry := Sidecar (ev_id d) (ev_metadata d) (ev_text d).

(** A metadata object of the engine: string keys, string values. *)
Definition dict_meta (d : pydict) : meta :=
  list_to_map (omap (λ kv, match kv with (PStr k, PStr v) => Some (k, v) | _ => None end) d).
Definition meta_dict (m : meta) : pydict := map (λ kv, (PStr kv.1, PStr kv.2)) (items_sorted m).

Section laws.
Context {E : Type} {NE : NativeEngine E} {NV : NativeView E}.

(** The filters the engine is given: those a coercion yields. *)
Definition wire_filter (f : pyval) : Prop := ∃ n, Predicate.wf 0 n = true ∧ f = enc n.

(** A row of a search answer, and a document record. *)
Definition row_ok (e : E) (f : pyval) (row : pyval) : Prop :=
  ∃ r s id d md, row = PDict r ∧ dict_get "score" r = Some (PFloat s) ∧ dict_get "document_id" r = Some (PStr id) ∧
    dict_get "metadata" r = Some (PDict md) ∧ dict_meta md = nd_metadata d ∧
    collection e !! id = Some d ∧ matches_metadata_filter (nd_metadata d) f = Ok true.
Definition hits_ok (e : E) (f : pyval) (payload : pyval) : Prop :=
  ∃ p rows, payload = PDict p ∧ dict_get "hits" p = Some (PList rows) ∧ Forall (row_ok e f) rows.
Definition record_ok (e : E) (id : string) (r : pydict) : Prop :=
  ∃ d md n h, collection e !! id = Some d ∧ dict_get "document_id" r = Some (PStr id) ∧
    dict_get "metadata" r = Some (PDict md) ∧ dict_meta md = nd_metadata d ∧
    dict_get "chunk_count" r = Some (PInt n) ∧ dict_get "content_hash" r = Some (PStr h).

(** An upsert applies its documents in order, up to the one that fails when it fails. *)
Definition upserts {A} (put : list A → gmap string native_doc → gmap string native_doc) (l : list A)
    (e : E) (out : result unit * E) : Prop :=
  (∃ n, collection out.2 = put (take n l) (collection e)) ∧ (out.1 = Ok tt → collection out.2 = put l (collection e)).

Definition vector_ok (dim : nat) (v : list spec_float) : Prop := length v = dim ∧ forallb coord_ok v = true.

Class NativeLaws (c : LodeConfig) : Prop := {
  persist_law e : ∃ e', engine_persist e = (Ok tt, e') ∧ collection e' = collection e;
  prepare_keeps l e : collection (prepare_text_upsert l (cf_store_text c) (cf_index_text c) (cf_chunk_limit c) e).2 = collection e;
  prepare_law l e : 0 < cf_chunk_limit c →
    Forall (λ d, is_blank (ed_id d) = false ∧ is_blank (ed_text d) = false) l →
    ∃ plan e' chunks, prepare_text_upsert l (cf_store_text c) (cf_index_text c) (cf_chunk_limit c) e = (Ok plan, e') ∧
      chunks_to_embed (np_value plan) = Ok chunks;
  apply_law l e plan e' embeddings :
    prepare_text_upsert l (cf_store_text c) (cf_index_text c) (cf_chunk_limit c) e = (Ok plan, e') →
    upserts (put_texts (cf_store_text c)) l e' (apply_text_upsert plan embeddings e') ∧
    (NoDup (map ed_id l) → (∃ chunks, chunks_to_embed (np_value plan) = Ok chunks ∧ length embeddings = length chunks) →
     Forall (vector_ok (cf_vector_dim c)) embeddings → (apply_text_upsert plan embeddings e').1 = Ok tt);
  vectors_law l e :
    upserts (put_sidecars (cf_store_text c)) (map sidecar_of l) e (upsert_vectors l e) ∧
    (Forall (λ d, is_blank (ev_id d) = false ∧ vector_ok (cf_vector_dim c) (ev_vector d)) l → (upsert_vectors l e).1 = Ok tt);
  matrix_law m l e : length m = length l →
    upserts (put_sidecars (cf_store_text c)) l e (upsert_vectors_matrix m l e) ∧
    (Forall (λ s, is_blank (sc_id s) = false) l → Forall (vector_ok (cf_vector_dim c)) m → (upsert_vectors_matrix m l e).1 = Ok tt);
  delete_law id e : is_blank id = false → ∃ p e', delete_documents [id] e = (Ok (PDict p), e') ∧
    dict_get "documents_deleted" p = Some (PInt (if bool_decide (is_Some (collection e !! id)) then 1 else 0)) ∧
    collection e' = delete id (collection e);
  get_text_law id e : get_document_text id e = Ok (collection e !! id ≫= nd_text);
  get_texts_law ids e : ∃ l, get_document_texts ids e = Ok l ∧ NoDup l.*1 ∧
    ∀ id, get_item id l = if decide (id ∈ ids) then collection e !! id ≫= nd_text else None;
  stats_law e : ∃ p, native_stats e = Ok (PDict p) ∧ dict_get "document_count" p = Some (PInt (Z.of_nat (size (collection e))));
  get_document_law id e : ∃ r, native_get_document id e = Ok r ∧
    match r with Some r => record_ok e id r | None => collection e !! id = None end;
  list_law f e : wire_filter f → (∀ id d, collection e !! id = Some d → is_Ok (matches_metadata_filter (nd_metadata d) f)) →
    ∃ records ids, native_list_documents (Some [(PStr "metadata", f)]) None None e = Ok records ∧
      Forall2 (record_ok e) ids records ∧ NoDup ids ∧
      ∀ id, id ∈ ids ↔ ∃ d, collection e !! id = Some d ∧ matches_metadata_filter (nd_metadata d) f = Ok true;
  query_law v k f e p : wire_filter f → query_vector v k (Some [(PStr "metadata", f)]) e = Ok p → hits_ok e f p;
  search_law_text q mode emb k f e p : wire_filter f → search_text q mode emb k (Some [(PStr "metadata", f)]) e = Ok p → hits_ok e f p }.

(** The embedding model answers one vector of the index dimension per text. *)
Definition embeds (c : LodeConfig) (b : EmbeddingBackend) : Prop :=
  ∀ l, ∃ embeddings, embed_documents b l = Ok embeddings ∧ length embeddings = length l ∧
    Forall (vector_ok (cf_vector_dim c)) embeddings.

(** A handle that can write. *)
Record writable_config (c : LodeConfig) : Prop := {
  wc_writable : cf_read_only c = false;
  wc_dim : (0 < cf_vector_dim c)%nat;
  wc_limit : 0 < cf_chunk_limit c;
  wc_backend : cf_vector_only c = false → ∃ b, cf_backend c = Some b ∧ embeds c b }.
End laws.
Arguments NativeLaws E {_ _} c.

(** ** The database as the graph's index *)

Section index.
Context {E : Type} {NE : NativeEngine E} {NV : NativeView E} {R : Reductions} {TH : Secrets}.
Variable c : LodeConfig.

(** Normalization may take either float path, depending on the batch: both must give
    coordinates the engine takes. *)
Definition takes_vector (v : list spec_float) : bool :=
  acceptable (cf_vector_dim c) v && forallb coord_ok (wide_row v)
  && (negb (narrow v) || forallb coord_ok (narrow_row v)).

Definition hit_of (h : SearchHit) : LodeSearchHit := Hit (sh_score h) (sh_id h) (dict_meta (sh_metadata h)).
Definition opt_str (o : option string) : pyval := match o with Some s => PStr s | None => PNone end.
Definition doc_of (d : native_doc) : document := Document (Text "") (nd_metadata d).

Definition text_mapping (t : string * string * meta) : text_item :=
  TextItem (PStr t.1.1) (PStr t.1.2) (PDict (meta_dict t.2)).
Definition vector_mapping (t : list spec_float * string * meta) : vector_item :=
  VectorItem (Some t.1.1) (PStr t.1.2) (PDict (meta_dict t.2)) PNone.

(** The calls the graph makes on its [LodeDB], contents forgotten: the engine may keep no text,
    and the stored vector is the normalized one. *)
Definition local_index : LodeIndex (LodeDB E) := {|
  docs := λ x, doc_of <$> collection (db_engine x);
  accepts := λ _ ct, match ct with
                     | Text t => negb (cf_vector_only c) && negb (is_blank t)
                     | Vector v => takes_vector v
                     end;
  stored := λ _, Text "";
  lode_add := λ text id m, _ ← add c (PStr text) (PStr id) (PDict (meta_dict m)); mret tt;
  lode_add_vectors := λ v id m, _ ← add_vectors c v (PStr id) (PDict (meta_dict m)) PNone true; mret tt;
  lode_add_many := λ l, _ ← add_many c (map text_mapping l); mret tt;
  lode_add_vectors_many := λ l, _ ← add_vectors_many c (map vector_mapping l) true; mret tt;
  lode_remove := λ id, remove c (PStr id);
  lode_list_documents := λ f x,
    records ← (list_documents f None None x).1;
    mapR (λ r, v ← py_index (PDict r) "id"; Ok (py_str v)) records;
  lode_search := λ q k f mode x, hits ← (search c (PStr q) k f (opt_str mode) x).1; Ok (map hit_of hits);
  lode_search_by_vector := λ v k f x, hits ← (search_by_vector c v k f true x).1; Ok (map hit_of hits);
  lode_count := λ x, match (count PNone x).1 with Ok n => n | Err _ => 0 end |}.
End index.

(** ** Lemmas *)

(** *** Metadata across the boundary *)

Lemma fold_insert_union {A} (l : list (string * A)) (acc : gmap string A) : NoDup l.*1 →
  fold_left (λ m kv, <[kv.1 := kv.2]> m) l acc = list_to_map l ∪ acc.
Proof.
  revert acc; induction l as [|[k v] l IH]; intros acc Hnd; [cbn; by rewrite (left_id_L ∅ (∪))|].
  cbn in Hnd |- *. apply NoDup_cons in Hnd as [Hk Hnd]. rewrite IH by done.
  rewrite <-insert_union_l. symmetry. apply insert_union_r. by apply not_elem_of_list_to_map_1.
Qed.

Lemma fold_put_union {A B} (key : B → string) (val : B → A) (l : list B) (acc : gmap string A) : NoDup (map key l) →
  fold_left (λ m x, <[key x := val x]> m) l acc = list_to_map (map (λ x, (key x, val x)) l) ∪ acc.
Proof.
  intros Hnd. rewrite <-fold_insert_union.
  - generalize acc. induction l as [|x l IH]; intros a; [done|]. cbn [map fold_left fst snd]. apply IH. cbn in Hnd. by apply NoDup_cons in Hnd as [_ ?].
  - by rewrite <-list_fmap_compose.
Qed.

Definition text_doc (store_text : bool) (d : EngineDocument) : native_doc :=
  NDoc (if store_text then Some (ed_text d) else None) (ed_metadata d).
Definition sidecar_doc (store_text : bool) (s : sidecar_entry) : native_doc :=
  NDoc (if store_text then sc_text s else None) (sc_metadata s).

(** What is found after a batch of documents with distinct ids. *)
Lemma lookup_put_texts b l (m : gmap string native_doc) : NoDup (map ed_id l) → ∀ d, d ∈ l →
  put_texts b l m !! ed_id d = Some (text_doc b d).
Proof.
  intros Hnd d Hd. unfold put_texts. rewrite (fold_put_union ed_id (text_doc b)) by done.
  apply lookup_union_Some_l, elem_of_list_to_map; [by rewrite <-list_fmap_compose|]. apply list_elem_of_fmap. by exists d.
Qed.
Lemma lookup_put_sidecars b l (m : gmap string native_doc) : NoDup (map sc_id l) → ∀ s, s ∈ l →
  put_sidecars b l m !! sc_id s = Some (sidecar_doc b s).
Proof.
  intros Hnd d Hd. unfold put_sidecars. rewrite (fold_put_union sc_id (sidecar_doc b)) by done.
  apply lookup_union_Some_l, elem_of_list_to_map; [by rewrite <-list_fmap_compose|]. apply list_elem_of_fmap. by exists d.
Qed.

Lemma coerce_strings l acc : foldR coerce_step acc (map (λ kv : string * string, (PStr kv.1, PStr kv.2)) l)
  = Ok (fold_left (λ m kv, <[kv.1 := kv.2]> m) l acc).
Proof. revert acc; induction l as [|[k v] l IH]; intros acc; [done|]. cbn. apply IH. Qed.

Lemma items_sorted_NoDup {A} (m : gmap string A) : NoDup (items_sorted m).*1.
Proof. rewrite items_sorted_perm. apply NoDup_fst_map_to_list. Qed.

Lemma coerce_meta_dict m : _coerce_metadata (PDict (meta_dict m)) = Ok m.
Proof.
  unfold _coerce_metadata, meta_dict. cbn [py_items mbind result_bind]. rewrite coerce_strings.
  f_equal. etransitivity; [apply (fold_insert_union (items_sorted m)), items_sorted_NoDup|].
  by rewrite (right_id_L ∅ (∪)), list_to_map_items_sorted.
Qed.

(** *** Running the monad *)

Section runs.
Context {E : Type} {NE : NativeEngine E} {NV : NativeView E} {R : Reductions} {TH : Secrets}.
Local Notation db := (LodeDB E).
Implicit Types x : db.

Lemma mapS_pure {S A B C} (h : C → A) (f : A → st S B) (g : C → result B) l s :
  (∀ a, f (h a) s = (g a, s)) → mapS f (map h l) s = (mapR g l, s).
Proof.
  intros H. induction l as [|a l IH]; [done|]. cbn [map mapS mapR]. unfold mbind at 1, st_bind. rewrite H.
  destruct (g a) as [b|]; [|done]. unfold mbind at 1, st_bind. rewrite IH.
  cbn [mbind result_bind]. by destruct (mapR g l).
Qed.

Lemma st_bind_run {S A B} (m : st S A) (k : A → st S B) s :
  (m ≫= k) s = match m s with (Ok a, s') => k a s' | (Err e, s') => (Err e, s') end.
Proof. done. Qed.

(** A call that stays within the engine leaves the rest of the handle. *)
Lemma guarded_run {A} reason msg (m : st E A) x : let out := m (db_engine x) in
  ∃ x', guarded reason msg m x = (match out.1 with Ok a => Ok a | Err _ => raise RuntimeError msg end, x') ∧
    db_engine x' = out.2 ∧ db_auto_ids x' = db_auto_ids x.
Proof. unfold guarded. destruct (m (db_engine x)) as [[a|e] e']; cbn; by eexists. Qed.

(** *** Writes *)

Context (c : LodeConfig) {NL : NativeLaws E c}.

Lemma persist_after_run e : ∃ e', persist_after c e = (Ok tt, e') ∧ collection e' = collection e.
Proof.
  unfold persist_after. destruct (_native_should_persist_after_mutation c); [apply persist_law|]. by exists e.
Qed.

(** An upsert followed by the publication of a generation. *)
Lemma upserts_persist {A} (put : list A → _ → _) l (m : st E unit) e : upserts put l e (m e) →
  let out := (_ ← m; persist_after c) e in upserts put l e out ∧ (out.1 = Ok tt ↔ (m e).1 = Ok tt).
Proof.
  intros [Hn Hok]. cbv zeta. unfold mbind, st_bind. destruct (m e) as [[[]|x] e1]; [|done].
  destruct (persist_after_run e1) as (e2 & -> & H2). split; [|done]. unfold upserts. cbn [fst snd] in *. rewrite H2. by split.
Qed.

Lemma embed_and_apply_run b l e :
  let out := embed_and_apply c b l e in
  upserts (put_texts (cf_store_text c)) l e out ∧
  (0 < cf_chunk_limit c → embeds c b → NoDup (map ed_id l) →
   Forall (λ d, is_blank (ed_id d) = false ∧ is_blank (ed_text d) = false) l → out.1 = Ok tt).
Proof.
  cbv zeta. unfold embed_and_apply. rewrite st_bind_run.
  pose proof (prepare_keeps l e) as Hkeep. pose proof (prepare_law l e) as Hprep.
  destruct (prepare_text_upsert l _ _ _ e) as [[plan|err] e1] eqn:Eprep; cbn [snd] in Hkeep.
  2: { split; [|intros H1 _ _ H2; destruct (Hprep H1 H2) as (? & ? & ? & ? & _); done].
       split; [exists 0%nat; exact Hkeep|done]. }
  unfold upserts. rewrite <-Hkeep. fold (upserts (put_texts (cf_store_text c)) l e1 
    ((chunks ← st_lift (chunks_to_embed (np_value plan));
      embeddings ← st_lift (match chunks with [] => Ok [] | _ => embed_documents b chunks end);
      _ ← apply_text_upsert plan embeddings; persist_after c) e1)).
  rewrite st_bind_run. change (st_lift (chunks_to_embed (np_value plan)) e1) with (chunks_to_embed (np_value plan), e1).
  destruct (chunks_to_embed (np_value plan)) as [chunks|err] eqn:Ech.
  2: { split; [by split; [exists 0%nat|]|]. intros H1 _ _ H2. destruct (Hprep H1 H2) as (? & ? & ? & [= -> ->] & ?). congruence. }
  rewrite st_bind_run.
  set (emb := match chunks with [] => Ok [] | _ => embed_documents b chunks end).
  change (st_lift emb e1) with (emb, e1).
  assert (embeds c b → ∃ embs, emb = Ok embs ∧ length embs = length chunks ∧ Forall (vector_ok (cf_vector_dim c)) embs) as Hemb.
  { intros Hb. unfold emb. destruct chunks as [|ch chunks]; [by exists []|]. apply Hb. }
  destruct emb as [embs|err].
  2: { split; [by split; [exists 0%nat|]|]. intros _ Hb. by destruct (Hemb Hb) as (? & ? & _). }
  destruct (apply_law l e plan e1 embs Eprep) as [Hup Hok].
  destruct (upserts_persist _ _ _ _ Hup) as [Hup' Hiff]. split; [exact Hup'|].
  intros _ Hb Hnd _. apply Hiff, Hok; [done| |]; destruct (Hemb Hb) as (? & [= <-] & ? & ?); [by eauto|done].
Qed.

Lemma upsert_text_run l x :
  let out := _native_upsert_text_documents c l x in
  (∃ n, collection (db_engine out.2) = put_texts (cf_store_text c) (take n l) (collection (db_engine x))) ∧
  (out.1 = Ok tt → collection (db_engine out.2) = put_texts (cf_store_text c) l (collection (db_engine x))) ∧
  (writable_config c → cf_vector_only c = false → NoDup (map ed_id l) →
   Forall (λ d, is_blank (ed_id d) = false ∧ is_blank (ed_text d) = false) l → out.1 = Ok tt).
Proof.
  cbv zeta. unfold _native_upsert_text_documents. destruct l as [|d l]; [split; [by exists 0%nat|done]|].
  destruct (cf_backend c) as [b|] eqn:Eb.
  2: { split; [by exists 0%nat|]. split; [done|]. intros [_ _ _ H] Hv. destruct (H Hv) as (b & Hb & _). congruence. }
  destruct (guarded_run "native_core_text_upsert_failed" "native core text upsert failed" (embed_and_apply c b (d :: l)) x)
    as (x' & -> & He & _). cbn [fst snd]. rewrite He.
  destruct (embed_and_apply_run b (d :: l) (db_engine x)) as [[Hn Hf] Hok]. split; [exact Hn|].
  destruct (embed_and_apply c b (d :: l) (db_engine x)) as [[[]|err] e1]; cbn [fst snd] in *; [by split; [intros _; apply Hf|]|].
  split; [done|]. intros [_ _ Hl Hw] Hv Hnd HF. destruct (Hw Hv) as (b' & Hb' & Hemb).
  assert (b' = b) as -> by congruence. by pose proof (Hok Hl Hemb Hnd HF).
Qed.

Lemma vectors_run l x (m : st E unit) : upserts (put_sidecars (cf_store_text c)) l (db_engine x) (m (db_engine x)) →
  let out := guarded "native_core_upsert_failed" "native core vector upsert failed" (_ ← m; persist_after c) x in
  (∃ n, collection (db_engine out.2) = put_sidecars (cf_store_text c) (take n l) (collection (db_engine x))) ∧
  (out.1 = Ok tt → collection (db_engine out.2) = put_sidecars (cf_store_text c) l (collection (db_engine x))) ∧
  ((m (db_engine x)).1 = Ok tt → out.1 = Ok tt).
Proof.
  intros Hup. cbv zeta. destruct (guarded_run "native_core_upsert_failed" "native core vector upsert failed"
    (_ ← m; persist_after c) x) as (x' & -> & He & _). cbn [fst snd]. rewrite He.
  destruct (upserts_persist _ _ _ _ Hup) as [[Hn Hf] Hiff]. split; [exact Hn|].
  destruct ((_ ← m; persist_after c) (db_engine x)) as [[[]|err] e1]; cbn [fst snd] in *; [by split; [intros _; apply Hf|]|].
  split; [done|]. intros H. by apply Hiff in H.
Qed.
End runs.

(** *** The interface of the graph *)

Section implements.
Context {E : Type} {NE : NativeEngine E} {NV : NativeView E} {R : Reductions} {TH : Secrets}.
Context (c : LodeConfig) {NL : NativeLaws E c} {WC : writable_config c} {RL : ReductionLaws R}.
Local Notation db := (LodeDB E).
Local Existing Instance local_index.
Implicit Types x : db.

Definition to_doc (t : string * string * meta) : EngineDocument := EngineDoc t.1.2 t.1.1 t.2.
Definition to_sidecar (t : list spec_float * string * meta) : sidecar_entry := Sidecar t.1.2 t.2 None.

Lemma docs_put_texts b l (m : gmap string native_doc) :
  doc_of <$> put_texts b (map to_doc l) m = @index_all _ (local_index c) (map text_entry l) (doc_of <$> m).
Proof.
  revert m; induction l as [|t l IH]; intros m; [done|]. unfold put_texts, index_all in *. cbn [map fold_left].
  rewrite IH. by rewrite fmap_insert.
Qed.
Lemma docs_put_sidecars b l (m : gmap string native_doc) :
  doc_of <$> put_sidecars b (map to_sidecar l) m = @index_all _ (local_index c) (map vector_entry l) (doc_of <$> m).
Proof.
  revert m; induction l as [|t l IH]; intros m; [done|]. unfold put_sidecars, index_all in *. cbn [map fold_left].
  rewrite IH. by rewrite fmap_insert.
Qed.

Lemma docs_eq x : @docs _ (local_index c) x = doc_of <$> collection (db_engine x).
Proof. done. Qed.

(** What [writes] asks of one run. *)
Definition written (l : list (string * (content * meta))) x (out : result unit * db) : Prop :=
  (∃ n, @docs _ (local_index c) out.2 = @index_all _ (local_index c) (take n l) (@docs _ (local_index c) x)) ∧
  (out.1 = Ok tt → @docs _ (local_index c) out.2 = @index_all _ (local_index c) l (@docs _ (local_index c) x)) ∧
  (l ≠ [] → NoDup l.*1 → Forall (λ e, is_blank e.1 = false ∧ @accepts _ (local_index c) x e.2.1 = true) l → out.1 = Ok tt).

Lemma written_writes (w : st db unit) l : (∀ x, written l x (w x)) → @writes _ (local_index c) w l.
Proof.
  intros H x. destruct (H x) as (H1 & H2 & H3). destruct (w x) as [r x']. exists r, x'. by split_and!.
Qed.

Lemma refused l x e : l = [] ∨ ¬ Forall (λ e, is_blank e.1 = false ∧ @accepts _ (local_index c) x e.2.1 = true) l →
  written l x (Err e, x).
Proof. intros H. split; [by exists 0%nat|]. split; [done|]. by destruct H. Qed.

Lemma text_written l x : cf_vector_only c = false → Forall (λ t : string * string * meta, is_blank t.1.1 = false) l →
  written (map text_entry l) x (_native_upsert_text_documents c (map to_doc l) x).
Proof.
  intros Hv HF. destruct (upsert_text_run c (map to_doc l) x) as ((n & Hn) & Hf & Hok).
  destruct (_native_upsert_text_documents c (map to_doc l) x) as [r x']. cbn [fst snd] in *. split; [|split].
  - exists n. rewrite !docs_eq. cbn [snd]. by rewrite Hn, !firstn_map, docs_put_texts.
  - intros H. rewrite !docs_eq. cbn [snd]. by rewrite Hf, docs_put_texts.
  - cbn [fst]. intros _ Hnd Ha. apply Hok; [done|done| |].
    + revert Hnd. rewrite map_map. by rewrite <-list_fmap_compose.
    + apply Forall_map. rewrite Forall_map in Ha. rewrite Forall_forall in *. intros t Ht.
      split; [by apply (Ha t)|by apply HF].
Qed.

Lemma nonblank_str s msg : nonblank (PStr s) msg = if is_blank s then raise ValueError msg else Ok s.
Proof. done. Qed.

Lemma lift_run {S A B} (r : result A) (k : A → st S B) s :
  (st_lift r ≫= k) s = match r with Ok a => k a s | Err e => (Err e, s) end.
Proof. by destruct r. Qed.

Lemma writable_run {B} (k : unit → st db B) x : (_require_writable c ≫= k) x = k tt x.
Proof. unfold _require_writable. by rewrite lift_run, (wc_writable c WC). Qed.

(** The texts of a batch, checked. *)
Definition checked_text (t : string * string * meta) : result EngineDocument :=
  if is_blank t.1.1 then raise ValueError "each document needs a non-empty 'text'" else Ok (to_doc t).

Lemma text_document_run t x : text_document (text_mapping t) x = (checked_text t, x).
Proof.
  unfold text_document, text_mapping, checked_text. cbn [ti_text ti_id ti_metadata]. rewrite lift_run. unfold nonblank.
  destruct (is_blank t.1.1); [done|]. rewrite st_bind_run. cbn [document_id_of mret st_ret py_str].
  by rewrite lift_run, coerce_meta_dict.
Qed.

Lemma checked_texts l : match mapR checked_text l with
  | Ok ds => ds = map to_doc l ∧ Forall (λ t : string * string * meta, is_blank t.1.1 = false) l
  | Err _ => Exists (λ t : string * string * meta, is_blank t.1.1 = true) l
  end.
Proof.
  induction l as [|t l IH]; [by split|]. cbn [mapR]. destruct (checked_text t) as [d|] eqn:Ed; cbn [mbind result_bind]; unfold checked_text in Ed;
    destruct (is_blank t.1.1) eqn:Eb; try done; [|by left]. injection Ed as <-. destruct (mapR checked_text l); [|by right].
  destruct IH as [-> IH]. cbn. auto.
Qed.

Lemma add_many_written l x : written (map text_entry l) x ((_ ← add_many c (map text_mapping l); mret tt) x).
Proof.
  unfold add_many. rewrite st_bind_run, writable_run. unfold _require_text_capable. rewrite lift_run.
  destruct (cf_vector_only c) eqn:Ev.
  { apply refused. destruct l as [|t l]; [by left|right]. intros [[_ H] _]%Forall_cons. cbn in H. by rewrite Ev in H. }
  rewrite st_bind_run, (mapS_pure _ _ checked_text) by (intros; apply text_document_run).
  pose proof (checked_texts l) as Hc. destruct (mapR checked_text l) as [ds|e].
  - destruct Hc as [-> HF]. pose proof (text_written l x Ev HF) as Hw. rewrite st_bind_run.
    by destruct (_native_upsert_text_documents c (map to_doc l) x) as [[[]|e] x'].
  - apply refused. right. rewrite Forall_map. intros HF. apply Exists_exists in Hc as (t & Ht & Hb).
    rewrite Forall_forall in HF. destruct (HF t Ht) as [_ Ha]. cbn in Ha. by rewrite Hb, andb_false_r in Ha.
Qed.

Lemma add_written text id m x :
  written [(id, (Text text, m))] x ((_ ← add c (PStr text) (PStr id) (PDict (meta_dict m)); mret tt) x).
Proof.
  unfold add. rewrite st_bind_run, writable_run. unfold _require_text_capable. rewrite lift_run.
  destruct (cf_vector_only c) eqn:Ev.
  { apply refused. right. intros [[_ H] _]%Forall_cons. cbn in H. by rewrite Ev in H. }
  rewrite lift_run. unfold nonblank. destruct (is_blank text) eqn:Eb.
  { apply refused. right. intros [[_ H] _]%Forall_cons. cbn in H. by rewrite Eb, andb_false_r in H. }
  rewrite st_bind_run. cbn [document_id_of mret st_ret py_str]. rewrite lift_run, coerce_meta_dict, st_bind_run.
  pose proof (text_written [(text, id, m)] x Ev ltac:(by repeat constructor)) as Hw.
  cbn [map] in Hw. unfold to_doc in Hw. cbn [fst snd] in Hw.
  by destruct (_native_upsert_text_documents c _ x) as [[[]|e] x'].
Qed.

(** *** Vectors *)

Lemma takes_vector_acceptable vs : Forall (λ v, takes_vector c v = true) vs → forallb (acceptable (cf_vector_dim c)) vs = true.
Proof.
  intros HF. apply forallb_forall. intros v Hv%list_elem_of_In. rewrite Forall_forall in HF. specialize (HF v Hv).
  unfold takes_vector in HF. by apply andb_prop in HF as [[? _]%andb_prop _].
Qed.

(** A batch of vectors the engine takes is prepared to rows the engine takes. *)
Lemma prepared_rows vs m : _prepare_vector_matrix vs (cf_vector_dim c) true = Ok m →
  length m = length vs ∧ (Forall (λ v, takes_vector c v = true) vs → Forall (vector_ok (cf_vector_dim c)) m).
Proof.
  intros Hm. pose proof (prepare_cases vs (cf_vector_dim c)) as Hc. destruct (_ && _ && _).
  2: { destruct Hc as (e & He & _). congruence. }
  destruct Hc as (m' & Hm' & Hl & Hd). assert (m' = m) as -> by congruence. split; [done|]. intros HF.
  rewrite Forall_forall in HF, Hd |- *. intros r Hr. split; [by apply Hd|].
  destruct (prepare_rows _ _ _ Hm) as [-> |[-> Hn]]; apply list_elem_of_In, in_map_iff in Hr as (v & <- & Hv%list_elem_of_In);
    specialize (HF v Hv); unfold takes_vector in HF; apply andb_prop in HF as [[_ Hw]%andb_prop Hnr]; [done|].
  rewrite Forall_forall in Hn. by rewrite (Hn v Hv) in Hnr.
Qed.

Lemma prepared_ok vs : vs ≠ [] → Forall (λ v, takes_vector c v = true) vs →
  is_Ok (_prepare_vector_matrix vs (cf_vector_dim c) true).
Proof.
  intros Hne HF. pose proof (prepare_cases vs (cf_vector_dim c)) as Hc. rewrite (takes_vector_acceptable vs HF) in Hc.
  rewrite bool_decide_false, (proj2 (Nat.ltb_lt _ _) (wc_dim c WC)) in Hc by done.
  destruct Hc as (m & Hm & _). by exists m.
Qed.

(** A call that stores sidecars, seen from the graph. *)
Lemma sidecars_written l x (out : result unit * db) (P : Prop) :
  (∃ n, collection (db_engine out.2) = put_sidecars (cf_store_text c) (take n (map to_sidecar l)) (collection (db_engine x))) ∧
  (out.1 = Ok tt → collection (db_engine out.2) = put_sidecars (cf_store_text c) (map to_sidecar l) (collection (db_engine x))) ∧
  (P → out.1 = Ok tt) →
  (Forall (λ t, is_blank t.1.2 = false ∧ takes_vector c t.1.1 = true) l → P) →
  written (map vector_entry l) x out.
Proof.
  intros ((n & Hn) & Hf & Hok) HP. split; [|split].
  - exists n. rewrite !docs_eq, Hn. by rewrite !firstn_map, docs_put_sidecars.
  - intros H. rewrite !docs_eq, Hf by done. by rewrite docs_put_sidecars.
  - intros _ _ HF. apply Hok, HP. by rewrite Forall_map in HF.
Qed.

Lemma add_vectors_written v id m x :
  written [(id, (Vector v, m))] x ((_ ← add_vectors c v (PStr id) (PDict (meta_dict m)) PNone true; mret tt) x).
Proof.
  unfold add_vectors. rewrite st_bind_run, writable_run, st_bind_run. cbn [document_id_of mret st_ret py_str].
  rewrite lift_run. unfold prepare_one. destruct (_prepare_vector_matrix [v] (cf_vector_dim c) true) as [mx|e] eqn:Ep.
  2: { apply refused. right. intros [[_ H] _]%Forall_cons. cbn in H.
       destruct (prepared_ok [v]) as [m' Hm']; [done|by repeat constructor|congruence]. }
  destruct (prepared_rows _ _ Ep) as [Hl Hr]. destruct mx as [|row [|]]; [done| |done]. cbn [mbind result_bind list_get lookup list_lookup].
  rewrite lift_run, coerce_meta_dict, lift_run. cbn [_coerce_optional_text]. rewrite st_bind_run. cbn [_native_upsert_vectors].
  destruct (vectors_law [EngineVec id row m None] (db_engine x)) as [Hup Hok].
  pose proof (vectors_run c _ x (upsert_vectors [EngineVec id row m None]) Hup) as Hrun. cbv zeta in Hrun.
  set (out := guarded _ _ _ x) in *. assert (written (map vector_entry [(v, id, m)]) x out) as Hw.
  { eapply sidecars_written; [exact Hrun|]. intros [[Hb Ht] _]%Forall_cons. apply Hok. constructor; [|constructor].
    split; [exact Hb|]. assert (Forall (vector_ok (cf_vector_dim c)) [row]) as Hrow by (apply Hr; by repeat constructor).
    by apply Forall_cons in Hrow as [? _]. }
  by destruct out as [[[]|e] x'].
Qed.

Lemma vector_row_run t x : vector_row (vector_mapping t) x = (Ok (t.1.1, to_sidecar t), x).
Proof.
  unfold vector_row, vector_mapping. cbn [vi_vector vi_id vi_metadata vi_text]. rewrite lift_run, st_bind_run.
  cbn [document_id_of mret st_ret py_str]. by rewrite lift_run, coerce_meta_dict, lift_run.
Qed.

Lemma add_vectors_many_written l x :
  written (map vector_entry l) x ((_ ← add_vectors_many c (map vector_mapping l) true; mret tt) x).
Proof.
  unfold add_vectors_many. rewrite st_bind_run, writable_run, st_bind_run.
  rewrite (mapS_pure _ _ (λ t, Ok (t.1.1, to_sidecar t))) by (intros; apply vector_row_run). rewrite mapR_total.
  destruct (map (λ t, (t.1.1, to_sidecar t)) l) as [|r0 rs] eqn:Er.
  { apply map_eq_nil in Er as ->. split; [by exists 0%nat|done]. }
  assert (map fst (r0 :: rs) = map (λ t, t.1.1) l) as Hf by (rewrite <-Er; apply map_map).
  assert (map snd (r0 :: rs) = map to_sidecar l) as Hs by (rewrite <-Er; apply map_map).
  assert (l ≠ []) as Hne by (by intros ->). clear Er.
  rewrite lift_run, Hf. destruct (_prepare_vector_matrix _ (cf_vector_dim c) true) as [mx|e] eqn:Ep.
  2: { apply refused. right. rewrite Forall_map. intros HF. destruct (prepared_ok (map (λ t, t.1.1) l)) as [m' Hm'];
       [by destruct l| |congruence]. apply Forall_map. eapply Forall_impl; [exact HF|]. by intros ? [_ ?]. }
  destruct (prepared_rows _ _ Ep) as [Hl Hr]. rewrite st_bind_run, Hs.
  destruct (matrix_law mx (map to_sidecar l) (db_engine x)) as [Hup Hok]; [by rewrite Hl, !length_map|].
  pose proof (vectors_run c _ x (upsert_vectors_matrix mx (map to_sidecar l)) Hup) as Hrun. cbv zeta in Hrun.
  assert (_native_upsert_vectors_matrix c mx (map to_sidecar l) = guarded "native_core_upsert_failed"
    "native core vector upsert failed" (_ ← upsert_vectors_matrix mx (map to_sidecar l); persist_after c)) as ->.
  { by destruct l. }
  set (out := guarded _ _ _ x) in *. assert (written (map vector_entry l) x out) as Hw.
  { eapply sidecars_written; [exact Hrun|]. intros HF. apply Hok; [|apply Hr]; apply Forall_map;
      (eapply Forall_impl; [exact HF|]; by intros ? [? ?]). }
  by destruct out as [[[]|e] x'].
Qed.

Lemma remove_collection_run id x : is_blank id = false → ∃ x',
  remove c (PStr id) x = (Ok (bool_decide (is_Some (collection (db_engine x) !! id))), x') ∧
  collection (db_engine x') = delete id (collection (db_engine x)).
Proof.
  intros Hb. unfold remove, remove_many. rewrite st_bind_run, writable_run. cbn [mapR]. rewrite nonblank_str, Hb.
  rewrite lift_run. cbn [mbind result_bind]. rewrite st_bind_run. cbn [_native_delete_documents].
  destruct (delete_law id (db_engine x) Hb) as (p & e1 & Hdel & Hp & Hc). destruct (persist_after_run c e1) as (e2 & Hper & Hc2).
  destruct (guarded_run "native_core_delete_failed" "native core vector delete failed"
    (response ← delete_documents [id]; _ ← persist_after c; mret response) x) as (x' & -> & He & _).
  rewrite st_bind_run, Hdel, st_bind_run, Hper in He |- *. cbn [fst snd mret st_ret] in He |- *.
  exists x'. rewrite He, Hc2, Hc. split; [|done].
  unfold count_of, py_get. rewrite Hp. unfold st_lift. cbn [mbind result_bind]. do 2 f_equal.
  destruct (collection (db_engine x) !! id); [by rewrite bool_decide_true by (by eexists)|].
  by rewrite bool_decide_false by (by intros [? ?]).
Qed.

Lemma remove_run id x : is_blank id = false → ∃ x', remove c (PStr id) x = (Ok (bool_decide (is_Some (@docs _ (local_index c) x !! id))), x') ∧
  @docs _ (local_index c) x' = delete id (@docs _ (local_index c) x).
Proof.
  intros Hb. destruct (remove_collection_run id x Hb) as (x' & -> & Hc). exists x'. rewrite !docs_eq, Hc, fmap_delete, lookup_fmap.
  split; [|done]. do 2 f_equal. apply bool_decide_ext. by rewrite fmap_is_Some.
Qed.

(** *** Reads *)

Lemma normalize_flat f : flat_filter f = true →
  _normalize_filter f = (v ← coerce_sdk_filter f; Ok (Some [(PStr "metadata", v)])).
Proof.
  destruct f as [| | | | | | |d|]; try done. cbn [flat_filter _normalize_filter]. intros H.
  assert (is_structured d = false) as ->; [|done]. apply andb_false_iff. left. apply not_true_iff_false.
  rewrite forallb_forall. apply existsb_exists in H as (kv & Hin & Hkv). intros Hall. specialize (Hall kv Hin).
  apply andb_prop in Hkv as [H1 H2]. cbn in Hall. by destruct (key_is "metadata" kv), (key_is "document_ids" kv).
Qed.

Lemma coerced_wire f f' : coerce_sdk_filter f = Ok f' → wire_filter f'.
Proof. intros (n & -> & Hn)%walk_sound. by exists n. Qed.

Lemma record_hydrates e id r : record_ok e id r →
  ∃ p, _public_document_record r = Ok p ∧ (v ← py_index (PDict p) "id"; Ok (py_str v)) = Ok id.
Proof.
  intros (d & md & n & h & _ & Hid & Hmd & _ & Hn & Hh). unfold _public_document_record, py_get.
  rewrite Hmd, Hid, Hn, Hh. cbn [mbind result_bind].
  assert (py_int (py_or (PInt n) (PInt 0)) = Ok n) as -> by (unfold py_or; cbn; by destruct (Z.eqb_spec n 0) as [-> |]).
  cbn [mbind result_bind]. by eexists.
Qed.

Lemma list_run kind x : ∃ ids, @lode_list_documents _ (local_index c) (kind_filter kind) x = Ok ids ∧ NoDup ids ∧
  ∀ id, id ∈ ids ↔ ∃ d, @docs _ (local_index c) x !! id = Some d ∧ doc_metadata d !! "kind" = Some kind.
Proof.
  destruct (list_law (kind_filter kind) (db_engine x)) as (records & ids & Hl & HF & Hnd & Hin).
  { by exists (FNode [FScalar "kind" kind]). }
  { intros id d _. rewrite kind_filter_matches. by eexists. }
  exists ids. split; [|split; [done|]].
  - cbn [lode_list_documents local_index]. unfold list_documents. rewrite normalize_flat, coerce_kind by done.
    cbn [mbind result_bind]. rewrite lift_run, st_bind_run. unfold _native_list_documents, document_read.
    destruct (guarded_run "native_core_list_documents_failed" "native core document read failed"
      (st_read (native_list_documents (Some [(PStr "metadata", kind_filter kind)]) None None)) x) as (x' & -> & _).
    unfold st_read at 1. rewrite Hl. cbn [fst]. unfold st_lift. cbn [fst].
    clear -HF. induction HF as [|id r ids records Hr _ IH]; [done|]. destruct (record_hydrates _ _ _ Hr) as (p & Hp & Hi).
    cbn [mapR]. rewrite Hp. cbn [mbind result_bind]. destruct (mapR _public_document_record records) as [ps|e]; [|done].
    cbn [mbind result_bind mapR] in *. by rewrite Hi, IH.
  - intros id. rewrite Hin, docs_eq, lookup_fmap. split.
    + intros (d & Hd & Hm). rewrite Hd. exists (doc_of d). split; [done|]. rewrite kind_filter_matches in Hm.
      injection Hm as Hm. by apply bool_decide_eq_true_1 in Hm.
    + intros (dd & (d & Hd & ->)%fmap_Some & Hk). exists d. split; [done|]. rewrite kind_filter_matches.
      f_equal. apply bool_decide_eq_true. exact Hk.
Qed.

Lemma hits_hydrate (e : E) f p hits : hits_ok e f p → hits_of_payload p = Ok hits →
  Forall (λ h, ∃ d, collection e !! sh_id h = Some d ∧ dict_meta (sh_metadata h) = nd_metadata d ∧
                    matches_metadata_filter (nd_metadata d) f = Ok true) hits.
Proof.
  intros (pd & rows & -> & Hh & HF). unfold hits_of_payload, py_get. rewrite Hh. cbn [mbind result_bind _hits_from_native_rows].
  intros H%mapR_Ok. clear Hh pd. revert HF. induction H as [|row h rows hits Hrow _ IH]; intros HF; [constructor|].
  apply Forall_cons in HF as [Hr HF]. constructor; [|by apply IH].
  destruct Hr as (r & sc & id & d & md & -> & Hs & Hid & Hmd & Hm & Hc & Hf). cbn [hit_from_row] in Hrow.
  unfold py_index, py_get in Hrow. rewrite Hs, Hid, Hmd in Hrow. cbn in Hrow. injection Hrow as <-. by exists d.
Qed.

(** A successful read through the engine. *)
Lemma guarded_read_Ok {A B} reason msg (q : E → result A) (k : A → result B) x b :
  (a ← guarded reason msg (st_read q); st_lift (k a)) x = b → ∀ y, b.1 = Ok y →
  ∃ a, q (db_engine x) = Ok a ∧ k a = Ok y.
Proof.
  intros <- y. rewrite st_bind_run. destruct (guarded_run reason msg (st_read q) x) as (x' & -> & _).
  unfold st_read. cbn [fst]. destruct (q (db_engine x)) as [a|]; [|done]. cbn. eauto.
Qed.

Lemma found_hits f f' x hits : coerce_sdk_filter f = Ok f' →
  Forall (λ h, ∃ d, collection (db_engine x) !! sh_id h = Some d ∧ dict_meta (sh_metadata h) = nd_metadata d ∧
                    matches_metadata_filter (nd_metadata d) f' = Ok true) hits →
  Forall (@hit_ok _ (local_index c) f x) (map hit_of hits).
Proof.
  intros Hf HF. apply Forall_map. eapply Forall_impl; [exact HF|]. intros h (d & Hd & Hm & Ht).
  exists (doc_of d), f'. rewrite docs_eq, lookup_fmap. cbn [hit_of hit_id hit_metadata]. by rewrite Hd.
Qed.

Lemma search_run q k f mode x hits : flat_filter f = true →
  @lode_search _ (local_index c) q k f mode x = Ok hits → Forall (@hit_ok _ (local_index c) f x) hits.
Proof.
  intros Hflat H. cbn [lode_search local_index] in H. apply bind_Ok in H as (hs & H & [= <-]).
  unfold search in H. rewrite lift_run in H. destruct (nonblank _ _) as [q'|]; [|done].
  unfold positive_k in H. rewrite lift_run in H. destruct (k <=? 0); [done|].
  rewrite lift_run in H. destruct (_resolve_mode c _) as [m|]; [|done]. rewrite lift_run, normalize_flat in H by done.
  destruct (coerce_sdk_filter f) as [f'|] eqn:Ef; [|done]. cbn [mbind result_bind] in H.
  unfold _native_search_text in H. rewrite st_bind_run in H.
  set (call := (embeddings ← st_lift (embed_queries c m [q']); _)) in H.
  destruct (guarded_run "native_core_text_query_failed" "native core text query failed" call x) as (x' & Hg & _).
  rewrite Hg in H. unfold call in H. rewrite lift_run in H. destruct (embed_queries c m [q']) as [emb|]; [|done].
  unfold st_read in H. cbn [fst] in H. destruct (search_text q' m _ k _ (db_engine x)) as [p|] eqn:Ep; [|done].
  eapply found_hits; [exact Ef|]. eapply hits_hydrate; [by eapply search_law_text; [eapply coerced_wire|]|exact H].
Qed.

Lemma search_vector_run v k f x hits : flat_filter f = true →
  @lode_search_by_vector _ (local_index c) v k f x = Ok hits → Forall (@hit_ok _ (local_index c) f x) hits.
Proof.
  intros Hflat H. cbn [lode_search_by_vector local_index] in H. apply bind_Ok in H as (hs & H & [= <-]).
  unfold search_by_vector, positive_k in H. rewrite lift_run in H. destruct (k <=? 0); [done|].
  rewrite lift_run in H. destruct (prepare_one c v true) as [row|]; [|done]. rewrite lift_run, normalize_flat in H by done.
  destruct (coerce_sdk_filter f) as [f'|] eqn:Ef; [|done]. cbn [mbind result_bind] in H.
  eapply guarded_read_Ok in H as (p & Hp & Hh); [|reflexivity]. eapply found_hits; [exact Ef|].
  eapply hits_hydrate; [by eapply query_law; [eapply coerced_wire|]|exact Hh].
Qed.

(** Reading one text. *)
Lemma get_text_run id x : is_blank id = false → cf_store_text c = true →
  (get_text c (PStr id) x).1 = Ok (collection (db_engine x) !! id ≫= nd_text).
Proof.
  intros Hb Hs. unfold get_text. rewrite lift_run, nonblank_str, Hb. unfold require_stored_text. rewrite Hs, lift_run.
  unfold _native_get_text, document_read. destruct (guarded_run "native_core_get_text_failed"
    "native core document read failed" (st_read (get_document_text id)) x) as (x' & -> & _).
  unfold st_read. by rewrite get_text_law.
Qed.

Lemma get_document_run id d x : is_blank id = false → collection (db_engine x) !! id = Some d →
  ∃ p md, (get_document (PStr id) x).1 = Ok (Some p) ∧ dict_get "id" p = Some (PStr id) ∧
    dict_get "metadata" p = Some (PDict md) ∧ dict_meta md = nd_metadata d.
Proof.
  intros Hb Hd. unfold get_document. rewrite lift_run, nonblank_str, Hb, st_bind_run. unfold _native_get_document, document_read.
  destruct (guarded_run "native_core_get_document_failed" "native core document read failed"
    (st_read (native_get_document id)) x) as (x' & -> & _). unfold st_read.
  destruct (get_document_law id (db_engine x)) as (r & -> & Hr). cbn [fst]. destruct r as [r|]; [|congruence].
  destruct Hr as (d' & md & n & h & Hd' & Hid & Hmd & Hm & Hn & Hh). assert (d' = d) as -> by congruence.
  rewrite lift_run. unfold _public_document_record, py_get. rewrite Hmd, Hid, Hn, Hh. cbn [mbind result_bind].
  assert (py_int (py_or (PInt n) (PInt 0)) = Ok n) as -> by (unfold py_or; cbn; by destruct (Z.eqb_spec n 0) as [-> |]).
  cbn [mbind result_bind]. by eexists _, md.
Qed.

(** What a batch of mappings stores, whatever its metadata and texts. *)
Definition reads_as_text (it : text_item) (d : EngineDocument) : Prop :=
  ti_text it = PStr (ed_text d) ∧ ti_id it = PStr (ed_id d) ∧ _coerce_metadata (ti_metadata it) = Ok (ed_metadata d).
Definition reads_as_vector (it : vector_item) (r : list spec_float * sidecar_entry) : Prop :=
  vi_vector it = Some r.1 ∧ vi_id it = PStr (sc_id r.2) ∧ _coerce_metadata (vi_metadata it) = Ok (sc_metadata r.2) ∧
  _coerce_optional_text (vi_text it) = Ok (sc_text r.2).

Lemma mapS_run {S A B} (f : A → st S B) l ys s : Forall2 (λ a b, ∀ s, f a s = (Ok b, s)) l ys → mapS f l s = (Ok ys, s).
Proof.
  induction 1 as [|a b l ys Ha _ IH]; [done|]. cbn [mapS]. by rewrite st_bind_run, Ha, st_bind_run, IH.
Qed.

Lemma add_many_run items docs x : cf_vector_only c = false → Forall2 reads_as_text items docs →
  Forall (λ d, is_blank (ed_id d) = false ∧ is_blank (ed_text d) = false) docs → NoDup (map ed_id docs) →
  ∃ x', add_many c items x = (Ok (map ed_id docs), x') ∧
    collection (db_engine x') = put_texts (cf_store_text c) docs (collection (db_engine x)).
Proof.
  intros Hv HF Hb Hnd. unfold add_many. rewrite writable_run. unfold _require_text_capable. rewrite Hv, lift_run, st_bind_run.
  rewrite (mapS_run _ items docs).
  2: { induction HF as [|it d items docs (Ht & Hi & Hm) HF IH]; [constructor|]. apply Forall_cons in Hb as [[_ Hbt] Hb].
       apply NoDup_cons in Hnd as [_ Hnd]. constructor; [|by apply IH]. intros s. unfold text_document.
       rewrite Ht, lift_run, nonblank_str, Hbt, st_bind_run, Hi. cbn [document_id_of mret st_ret py_str].
       rewrite lift_run, Hm. by destruct d. }
  rewrite st_bind_run. destruct (upsert_text_run c docs x) as (_ & Hf & Hok). specialize (Hok WC Hv Hnd Hb).
  specialize (Hf Hok). destruct (_native_upsert_text_documents c docs x) as [r x']. cbn [fst snd] in *. subst r. by exists x'.
Qed.

Lemma add_vectors_many_run items rows x : rows ≠ [] → Forall2 reads_as_vector items rows →
  Forall (λ r, is_blank (sc_id r.2) = false ∧ takes_vector c r.1 = true) rows →
  ∃ x', add_vectors_many c items true x = (Ok (map (λ r, sc_id r.2) rows), x') ∧
    collection (db_engine x') = put_sidecars (cf_store_text c) (map snd rows) (collection (db_engine x)).
Proof.
  intros Hne HF Hb. unfold add_vectors_many. rewrite writable_run, st_bind_run. rewrite (mapS_run _ items rows).
  2: { eapply Forall2_impl; [exact HF|]. intros it [v sc] (Hv & Hi & Hm & Ht) s. unfold vector_row.
       rewrite Hv, lift_run, st_bind_run, Hi. cbn [document_id_of mret st_ret py_str]. rewrite lift_run, Hm, lift_run, Ht. by destruct sc. }
  destruct rows as [|r0 rs] eqn:Er; [done|]. rewrite <-Er in *. clear Er HF.
  destruct (prepared_ok (map fst rows)) as [mx Hmx].
  { by destruct rows. }
  { apply Forall_map. eapply Forall_impl; [exact Hb|]. by intros ? [_ ?]. }
  rewrite lift_run, Hmx, st_bind_run. destruct (prepared_rows _ _ Hmx) as [Hl Hr].
  destruct (matrix_law mx (map snd rows) (db_engine x)) as [Hup Hok]; [by rewrite Hl, !length_map|].
  pose proof (vectors_run c _ x (upsert_vectors_matrix mx (map snd rows)) Hup) as (_ & Hf & Hok').
  assert (_native_upsert_vectors_matrix c mx (map snd rows) = guarded "native_core_upsert_failed"
    "native core vector upsert failed" (_ ← upsert_vectors_matrix mx (map snd rows); persist_after c)) as -> by (by destruct rows).
  assert ((upsert_vectors_matrix mx (map snd rows) (db_engine x)).1 = Ok tt) as H1.
  { apply Hok; [|apply Hr]; apply Forall_map; (eapply Forall_impl; [exact Hb|]; by intros ? [? ?]). }
  specialize (Hok' H1). specialize (Hf Hok'). destruct (guarded _ _ _ x) as [r x']. cbn [fst snd] in *. subst r. by exists x'.
Qed.

(** Reading several texts, and the count. *)
Lemma get_texts_run ids x : Forall (λ id, is_blank id = false) ids → cf_store_text c = true →
  ∃ l x', get_texts c (PList (map PStr ids)) x = (Ok l, x') ∧ db_engine x' = db_engine x ∧ NoDup l.*1 ∧
    ∀ id, get_item id l = if decide (id ∈ ids) then collection (db_engine x) !! id ≫= nd_text else None.
Proof.
  intros Hb Hs. unfold get_texts. rewrite lift_run, mapR_map.
  rewrite (mapR_ext _ (λ s : string, Ok s)).
  2: { eapply Forall_impl; [exact Hb|]. intros s Hi. by rewrite nonblank_str, Hi. }
  rewrite mapR_total, map_id. unfold require_stored_text. rewrite Hs, lift_run. destruct ids as [|i ids].
  { exists [], x. split; [done|]. split; [done|]. split; [constructor|]. intros id. by rewrite decide_False by (apply not_elem_of_nil). }
  unfold _native_get_texts, document_read. destruct (guarded_run "native_core_get_texts_failed"
    "native core document read failed" (st_read (get_document_texts (i :: ids))) x) as (x' & -> & He & _).
  destruct (get_texts_law (i :: ids) (db_engine x)) as (l & Hl & Hnd & Hget). unfold st_read in *. rewrite Hl in *.
  by exists l, x'.
Qed.

Lemma count_run x : ∃ x', count PNone x = (Ok (Z.of_nat (size (collection (db_engine x)))), x') ∧ db_engine x' = db_engine x.
Proof.
  unfold count. rewrite st_bind_run. unfold _native_stats. destruct (guarded_run "native_core_stats_failed"
    "native core stats failed" (st_read native_stats) x) as (x' & -> & He & _).
  destruct (stats_law (db_engine x)) as (p & Hp & Hn). unfold st_read in *. rewrite Hp in *. cbn [fst snd] in *.
  exists x'. split; [|done]. unfold st_lift, count_of, py_get. rewrite Hn. cbn [mbind result_bind]. f_equal.
  unfold py_or. cbn. by destruct (size (collection (db_engine x))).
Qed.

(** A text that is added is one write. *)
Lemma add_run text id metadata m x : cf_vector_only c = false → is_blank text = false → is_blank id = false →
  _coerce_metadata metadata = Ok m →
  ∃ x', add c (PStr text) (PStr id) metadata x = (Ok id, x') ∧
    collection (db_engine x') = <[id := NDoc (if cf_store_text c then Some text else None) m]> (collection (db_engine x)).
Proof.
  intros Hv Hb Hi Hm. unfold add. rewrite writable_run. unfold _require_text_capable.
  rewrite Hv, lift_run, lift_run, nonblank_str, Hb, st_bind_run. cbn [document_id_of mret st_ret py_str].
  rewrite lift_run, Hm, st_bind_run.
  destruct (upsert_text_run c [EngineDoc id text m] x) as (_ & Hf & Hok).
  specialize (Hok WC Hv (NoDup_singleton _) ltac:(by repeat constructor)). specialize (Hf Hok).
  destruct (_native_upsert_text_documents c _ x) as [r x']. cbn [fst snd] in *. subst r. by exists x'.
Qed.

(** C13: What is added is what is read. On a text handle that retains text, adding a non-blank
    text under a non-blank id succeeds with that id; afterwards [get_text] returns exactly that
    text, [get_document] the coerced metadata, and the text of every other id is unchanged. *)
Theorem add_get_roundtrip (text id : string) (metadata : pyval) (m : meta) x :
  cf_vector_only c = false → cf_store_text c = true → is_blank text = false → is_blank id = false →
  _coerce_metadata metadata = Ok m →
  ∃ x', add c (PStr text) (PStr id) metadata x = (Ok id, x') ∧
    (get_text c (PStr id) x').1 = Ok (Some text) ∧
    (∃ p md, (get_document (PStr id) x').1 = Ok (Some p) ∧ dict_get "id" p = Some (PStr id) ∧
       dict_get "metadata" p = Some (PDict md) ∧ dict_meta md = m) ∧
    ∀ other, is_blank other = false → other ≠ id → (get_text c (PStr other) x').1 = (get_text c (PStr other) x).1.
Proof.
  intros Hv Hs Hb Hi Hm. destruct (add_run text id metadata m x Hv Hb Hi Hm) as (x' & Hrun & Hf). exists x'. split; [done|].
  rewrite Hs in Hf. split; [|split].
  - rewrite get_text_run, Hf, lookup_insert_eq by done. done.
  - destruct (get_document_run id (NDoc (Some text) m) x' Hi) as (p & md & ? & ? & ? & ?); [by rewrite Hf, lookup_insert_eq|].
    by exists p, md.
  - intros other Ho Hne. rewrite !get_text_run, Hf, lookup_insert_ne by done. done.
Qed.

(** C3: A writable handle is the index the knowledge graph relies on: adds and batched adds write
    their documents in order and succeed on acceptable input, removal removes and reports
    exactly, listing by kind is exact, and every search hit, hydrated from the engine's answer,
    is a stored document that satisfies the coerced filter. *)
Theorem local_db_implements_index : @LodeIndexLaws (LodeDB E) (local_index c).
Proof.
  constructor.
  - intros text id m. apply written_writes. intros x. apply add_written.
  - intros v id m. apply written_writes. intros x. apply add_vectors_written.
  - intros l. apply written_writes. intros x. apply add_many_written.
  - intros l. apply written_writes. intros x. apply add_vectors_many_written.
  - intros id x Hb. destruct (remove_run id x Hb) as (x' & ? & ?). by exists x'.
  - apply list_run.
  - intros query k f mode x hits. apply search_run.
  - intros v k f x hits. apply search_vector_run.
Qed.
End implements.

(** ** An engine to evaluate with *)

(** The documents and the batch a plan was prepared for. *)
Record toy_engine := Toy { toy_docs : gmap string native_doc; toy_batch : list EngineDocument }.

Definition toy_row (e : string * native_doc) : pyval :=
  dict_of [("score", PFloat (S754_zero false)); ("document_id", PStr e.1); ("metadata", PDict (meta_dict (nd_metadata e.2)))].
Definition toy_record (e : string * native_doc) : pydict :=
  [(PStr "document_id", PStr e.1); (PStr "metadata", PDict (meta_dict (nd_metadata e.2)));
   (PStr "chunk_count", PInt 1); (PStr "content_hash", PStr "")].

(** The documents a filter selects, in id order. *)
Definition toy_select (filter : option pydict) (e : toy_engine) : list (string * native_doc) :=
  match filter with
  | Some [(_, f)] =>
      List.filter (λ d, match matches_metadata_filter (nd_metadata d.2) f with Ok b => b | Err _ => false end)
        (items_sorted (toy_docs e))
  | _ => items_sorted (toy_docs e)
  end.
Definition toy_hits (k : Z) (filter : option pydict) (e : toy_engine) : pyval :=
  dict_of [("hits", PList (map toy_row (take (Z.to_nat k) (toy_select filter e))))].

Section toy.
Variable store : bool.

Definition toy_put (l : list sidecar_entry) : st toy_engine unit := λ e,
  (Ok tt, Toy (put_sidecars store l (toy_docs e)) (toy_batch e)).

Definition toy_native : NativeEngine toy_engine := {|
  prepare_text_upsert := λ l _ _ _ e,
    (Ok (Payload [(PStr "chunks_to_embed", PList (map (λ d, dict_of [("text", PStr (ed_text d))]) l))] ""), Toy (toy_docs e) l);
  apply_text_upsert := λ _ _ e, (Ok tt, Toy (put_texts store (toy_batch e) (toy_docs e)) []);
  upsert_vectors := λ l, toy_put (map sidecar_of l);
  upsert_vectors_matrix := λ _ l, toy_put l;
  delete_documents := λ ids e,
    (Ok (dict_of [("documents_deleted", PInt (Z.of_nat (length (List.filter (λ i, bool_decide (is_Some (toy_docs e !! i))) ids))))]),
     Toy (foldr delete (toy_docs e) ids) (toy_batch e));
  update_document_payload := λ _ _ _ _ e, (Ok tt, e);
  query_vector := λ _ k f e, Ok (toy_hits k f e);
  query_vectors_batch := λ l k f e, Ok (map (λ _, toy_hits k f e) l);
  query_vectors_batch_arrays := None;
  search_text := λ _ _ _ k f e, Ok (toy_hits k f e);
  search_text_batch := λ l _ _ k f e, Ok (map (λ _, toy_hits k f e) l);
  get_document_text := λ i e, Ok (toy_docs e !! i ≫= nd_text);
  get_document_texts := λ l e, Ok (omap (λ i, pair i <$> (toy_docs e !! i ≫= nd_text)) (remove_dups l));
  native_get_document := λ i e, Ok ((λ d, toy_record (i, d)) <$> toy_docs e !! i);
  native_list_documents := λ f _ _ e, Ok (map toy_record (toy_select f e));
  native_stats := λ e, Ok (dict_of [("document_count", PInt (Z.of_nat (size (toy_docs e))))]);
  engine_persist := λ e, (Ok tt, e) |}.
End toy.
Definition toy_view : NativeView toy_engine := {| collection := toy_docs; coord_ok := is_finite |}.

Lemma dict_meta_dict m : dict_meta (meta_dict m) = m.
Proof.
  unfold dict_meta, meta_dict. transitivity (list_to_map (items_sorted m) : meta); [|apply list_to_map_items_sorted].
  f_equal. generalize (items_sorted m). intros l. induction l as [|[k v] l IH]; [done|]. cbn. f_equal. exact IH.
Qed.

Lemma elem_of_toy_select f e x : x ∈ toy_select (Some [(PStr "metadata", f)]) e ↔
  toy_docs e !! x.1 = Some x.2 ∧ matches_metadata_filter (nd_metadata x.2) f = Ok true.
Proof.
  cbn [toy_select]. rewrite list_elem_of_In, filter_In, <-list_elem_of_In. destruct x as [k d]. rewrite elem_of_items_sorted.
  cbn. destruct (matches_metadata_filter (nd_metadata d) f) as [b|]; naive_solver.
Qed.

Lemma toy_select_NoDup f e : NoDup (toy_select f e).*1.
Proof.
  assert (NoDup (items_sorted (toy_docs e)).*1) as H by apply items_sorted_NoDup.
  destruct f as [[|[k v] [|]]|]; cbn [toy_select]; try exact H. eapply sublist_NoDup; [exact H|]. clear H.
  generalize (items_sorted (toy_docs e)). intros l. induction l as [|x l IH]; cbn; [constructor|].
  destruct (match _ with Ok b => b | Err _ => false end); cbn; by constructor.
Qed.

Lemma toy_hits_ok k f e : @hits_ok _ toy_view e f (toy_hits k (Some [(PStr "metadata", f)]) e).
Proof.
  eexists _, _. split; [reflexivity|]. split; [reflexivity|]. apply Forall_map, Forall_forall. intros x Hx.
  assert (x ∈ toy_select (Some [(PStr "metadata", f)]) e) as [H1 H2]%elem_of_toy_select.
  { rewrite <-(take_drop (Z.to_nat k)). set_solver. }
  eexists _, _, x.1, x.2, (meta_dict (nd_metadata x.2)). split_and!; try reflexivity; [apply dict_meta_dict|done|done].
Qed.

Lemma toy_upserts store l e : @upserts _ toy_view _ (put_sidecars store) l e (toy_put store l e).
Proof. split; [exists (length l); by rewrite firstn_all|done]. Qed.

Lemma toy_chunks l : chunks_to_embed [(PStr "chunks_to_embed", PList (map (λ d, dict_of [("text", PStr (ed_text d))]) l))]
  = Ok (map ed_text l).
Proof.
  unfold chunks_to_embed. set (chunks := map _ l).
  change (py_get _ "chunks_to_embed" _) with (Ok (PList chunks)). cbn [mbind result_bind py_iter]. unfold chunks.
  rewrite mapR_map. apply (mapR_total ed_text).
Qed.

Lemma toy_texts ids e : let l := omap (λ i, pair i <$> (toy_docs e !! i ≫= nd_text)) (remove_dups ids) in
  NoDup l.*1 ∧ ∀ id, get_item id l = if decide (id ∈ ids) then toy_docs e !! id ≫= nd_text else None.
Proof.
  cbv zeta. pose proof (NoDup_remove_dups ids) as Hnd. pose proof (elem_of_remove_dups ids) as Hin.
  set (f := λ i, pair i <$> (toy_docs e !! i ≫= nd_text)).
  assert (∀ l, (omap f l).*1 ⊆ l) as Hsub.
  { intros l k ([k' t] & -> & (i & Hi & Hf)%list_elem_of_omap)%list_elem_of_fmap. unfold f in Hf.
    by apply fmap_Some in Hf as (t' & _ & [= -> ->]). }
  assert (NoDup (omap f (remove_dups ids)).*1) as Hk.
  { clear Hin. induction Hnd as [|i l Hi _ IH]; [constructor|]. cbn. unfold f at 1. destruct (toy_docs e !! i ≫= nd_text); [|exact IH].
    cbn. constructor; [by intros ?%Hsub|exact IH]. }
  split; [done|]. intros id. apply option_eq. intros t. rewrite get_item_elem by done. rewrite list_elem_of_omap.
  unfold f. split.
  - intros (i & Hi & (t' & Ht & [= -> ->])%fmap_Some). apply Hin in Hi. by rewrite decide_True.
  - case_decide as Hd; [|done]. intros Ht. exists id. split; [by apply Hin|]. by rewrite Ht.
Qed.

Lemma toy_laws c : @NativeLaws _ (toy_native (cf_store_text c)) toy_view c.
Proof.
  split.
  - intros e. by exists e.
  - done.
  - intros l e _ _. eexists _, _, _. split; [reflexivity|]. apply toy_chunks.
  - intros l e plan e' embs [= <- <-]. split; [|done]. split; [exists (length l); by rewrite firstn_all|done].
  - intros l e. split; [apply toy_upserts|done].
  - intros m l e _. split; [apply toy_upserts|done].
  - intros id e _. eexists _, _. split; [reflexivity|]. split; [|done].
    change (@collection _ toy_view e) with (toy_docs e). cbn. by destruct (toy_docs e !! id).
  - done.
  - intros ids e. eexists. split; [reflexivity|]. apply toy_texts.
  - intros e. eexists. split; reflexivity.
  - intros id e. eexists. split; [reflexivity|]. destruct (toy_docs e !! id) as [d|] eqn:Ed; [|exact Ed]. cbn.
    exists d, (meta_dict (nd_metadata d)), 1, "". split_and!; try done. apply dict_meta_dict.
  - intros f e _ _. eexists _, (toy_select (Some [(PStr "metadata", f)]) e).*1. split; [reflexivity|]. split; [|split].
    + apply Forall2_fmap, Forall_Forall2_diag, Forall_forall. intros x [Hx _]%elem_of_toy_select.
      exists x.2, (meta_dict (nd_metadata x.2)), 1, "". split_and!; try done. apply dict_meta_dict.
    + apply toy_select_NoDup.
    + intros id. rewrite list_elem_of_fmap. split.
      * intros (x & -> & [Hx Hm]%elem_of_toy_select). by exists x.2.
      * intros (d & Hd & Hm). exists (id, d). split; [done|]. by apply elem_of_toy_select.
  - intros v k f e p _ [= <-]. apply toy_hits_ok.
  - intros q mode emb k f e p _ [= <-]. apply toy_hits_ok.
Qed.

(** A two-dimensional handle that embeds every text to the same unit vector. *)
Definition unit_vector : list spec_float := [float_of_Z 1; S754_zero false].
Definition toy_backend : EmbeddingBackend := Backend (λ l, Ok (map (λ _, unit_vector) l)) (λ _, Ok unit_vector).
Definition toy_config : LodeConfig := Config false true true false 2 900 Generation (Some toy_backend).
Definition toy_secrets : Secrets := λ _, "00".

Lemma toy_writable : @writable_config _ toy_view toy_config.
Proof.
  split; [done|cbn; lia|done|]. intros _. exists toy_backend. split; [done|]. intros l.
  exists (map (λ _, unit_vector) l). split; [done|]. split; [by rewrite length_map|]. apply Forall_map, Forall_forall. done.
Qed.

Lemma local_db_implements_index_witness :
  @LodeIndexLaws (LodeDB toy_engine) (@local_index _ (toy_native true) toy_view plain_reductions toy_secrets toy_config).
Proof.
  exact (@local_db_implements_index toy_engine (toy_native true) toy_view plain_reductions toy_secrets toy_config
    (toy_laws toy_config) toy_writable plain_reduction_laws).
Defined.

Lemma add_get_roundtrip_witness :
  let x := Db (Toy ∅ []) "" 0 in
  let metadata := dict_of [("year", PInt 2020); ("draft", PBool false)] in
  ∃ x', @add _ (toy_native true) toy_secrets toy_config (PStr "fox") (PStr "a") metadata x = (Ok "a", x') ∧
    (@get_text _ (toy_native true) toy_config (PStr "a") x').1 = Ok (Some "fox") ∧
    (∃ p md, (@get_document _ (toy_native true) (PStr "a") x').1 = Ok (Some p) ∧ dict_get "id" p = Some (PStr "a") ∧
       dict_get "metadata" p = Some (PDict md) ∧ dict_meta md = <["draft" := "false"]> (<["year" := "2020"]> ∅)) ∧
    ∀ other, is_blank other = false → other ≠ "a" →
      (@get_text _ (toy_native true) toy_config (PStr other) x').1 = (@get_text _ (toy_native true) toy_config (PStr other) x).1.
Proof.
  apply (@add_get_roundtrip toy_engine (toy_native true) toy_view toy_secrets toy_config
    (toy_laws toy_config) toy_writable "fox" "a"); reflexivity.
Defined.

(** ** Read-only handles *)

(** A call on the handle. *)
Inductive verb :=
| VAdd (text id metadata : pyval) | VAddMany (l : list text_item)
| VAddVectors (v : list spec_float) (id metadata text : pyval) (normalize : bool)
| VAddVectorsMany (l : list vector_item) (normalize : bool)
| VRemove (id : pyval) | VRemoveMany (ids : list pyval)
| VUpdate (id metadata : pyval) (text : option string) (clear : bool)
| VPersist
| VSearch (query : pyval) (k : Z) (filter mode : pyval) | VSearchMany (queries : pyval) (k : Z) (filter mode : pyval)
| VSearchVector (v : list spec_float) (k : Z) (filter : pyval) (normalize : bool)
| VSearchVectors (l : list (list spec_float)) (k : Z) (filter : pyval) (normalize : bool)
| VGetText (id : pyval) | VGetTexts (ids : pyval) | VGetDocument (id : pyval)
| VList (filter : pyval) (after : option string) (limit : option Z) | VCount (filter : pyval).

Definition mutates (v : verb) : bool :=
  match v with
  | VAdd _ _ _ | VAddMany _ | VAddVectors _ _ _ _ _ | VAddVectorsMany _ _ | VRemove _ | VRemoveMany _ | VUpdate _ _ _ _ => true
  | _ => false
  end.

Section read_only.
Context {E : Type} {NE : NativeEngine E} {R : Reductions} {TH : Secrets}.
Variable c : LodeConfig.
Local Notation db := (LodeDB E).

(** The call, its answer forgotten. *)
Definition discard {A} (m : st db A) : st db unit := _ ← m; mret tt.
Definition call (v : verb) : st db unit :=
  match v with
  | VAdd t i m => discard (add c t i m)
  | VAddMany l => discard (add_many c l)
  | VAddVectors v i m t n => discard (add_vectors c v i m t n)
  | VAddVectorsMany l n => discard (add_vectors_many c l n)
  | VRemove i => discard (remove c i)
  | VRemoveMany l => discard (remove_many c l)
  | VUpdate i m t cl => discard (_update_document_payload c i m t cl)
  | VPersist => discard (persist c)
  | VSearch q k f m => discard (search c q k f m)
  | VSearchMany q k f m => discard (search_many c q k f m)
  | VSearchVector v k f n => discard (search_by_vector c v k f n)
  | VSearchVectors l k f n => discard (search_many_by_vector c l k f n)
  | VGetText i => discard (get_text c i)
  | VGetTexts l => discard (get_texts c l)
  | VGetDocument i => discard (get_document i)
  | VList f a l => discard (list_documents f a l)
  | VCount f => discard (count f)
  end.

(** The engine is left alone. *)
Definition keeps_engine {A} (m : st db A) : Prop := ∀ x, db_engine (m x).2 = db_engine x.

Lemma ke_lift {A} (r : result A) : keeps_engine (st_lift r).
Proof. done. Qed.
Lemma ke_ret {A} (a : A) : keeps_engine (mret a).
Proof. done. Qed.
Lemma ke_bind {A B} (m : st db A) (k : A → st db B) : keeps_engine m → (∀ a, keeps_engine (k a)) → keeps_engine (m ≫= k).
Proof.
  intros Hm Hk x. unfold mbind, st_bind. specialize (Hm x). destruct (m x) as [[a|e] x']; [|exact Hm].
  rewrite Hk. exact Hm.
Qed.
Lemma ke_guarded {A} reason msg (m : st E A) : (∀ e, (m e).2 = e) → keeps_engine (guarded reason msg m).
Proof. intros Hm x. unfold guarded. specialize (Hm (db_engine x)). by destruct (m (db_engine x)) as [[a|err] e']. Qed.
Lemma ke_read {A} reason msg (q : E → result A) : keeps_engine (guarded reason msg (st_read q)).
Proof. by apply ke_guarded. Qed.
End read_only.

(** Walk through a verb that only reads. *)
Ltac keep_engine :=
  repeat first
    [ apply ke_lift | apply ke_ret | apply ke_read | apply ke_bind; [|intros ?]
    | match goal with |- keeps_engine (match ?x with _ => _ end) => destruct x end
    | apply ke_guarded; intros ?; rewrite ?lift_run; by repeat case_match ].

Section read_only_calls.
Context {E : Type} {NE : NativeEngine E} {R : Reductions} {TH : Secrets}.
Variable c : LodeConfig.

Lemma reads_keep_engine v : cf_read_only c = true → mutates v = false → keeps_engine (@call E _ _ _ c v).
Proof.
  intros Hro Hv. destruct v; try done; cbn [call];
    unfold discard, persist, _native_persist, _native_stats, search, _native_search_text, search_many,
      _native_search_text_batch, search_by_vector, _native_search_by_vector, search_many_by_vector,
      _native_search_many_by_vector, get_text, _native_get_text, get_texts, _native_get_texts, get_document,
      _native_get_document, list_documents, _native_list_documents, count, document_read, positive_k, require_stored_text;
    rewrite ?Hro; keep_engine.
Qed.

Lemma mutators_refused v x : cf_read_only c = true → mutates v = true →
  ∃ e, @call E _ _ _ c v x = (Err e, x) ∧ exn_class e = ReadOnlyError.
Proof.
  intros Hro Hv. destruct v; try done; cbn [call]; unfold discard, remove; rewrite ?st_bind_run;
    unfold add, add_many, add_vectors, add_vectors_many, remove_many, _update_document_payload, LocalDb._require_writable;
    rewrite ?st_bind_run, Hro; cbn; by eexists.
Qed.

(** C14: A read-only handle never changes the store. Whatever sequence of verbs is called on it,
    the engine's state is the one it was opened with, and every mutating verb, whatever its
    arguments, is a [ReadOnlyError] that leaves the whole handle unchanged. *)
Theorem read_only_never_writes (l : list verb) (x : LodeDB E) : cf_read_only c = true →
  db_engine (fold_left (λ x v, (call c v x).2) l x) = db_engine x ∧
  ∀ v, mutates v = true → ∃ e, call c v x = (Err e, x) ∧ exn_class e = ReadOnlyError.
Proof.
  intros Hro. split; [|intros v; by apply mutators_refused]. revert x; induction l as [|v l IH]; intros x; [done|].
  cbn [fold_left]. rewrite IH. destruct (mutates v) eqn:Em; [|by apply reads_keep_engine].
  by destruct (mutators_refused v x Hro Em) as (e & -> & _).
Qed.
End read_only_calls.

Lemma read_only_never_writes_witness :
  let c := Config true true true false 2 900 Wal (Some toy_backend) in
  let x := Db (Toy {[ "a" := NDoc (Some "fox") ∅ ]} []) "" 0 in
  db_engine (fold_left (λ x v, (@call _ (toy_native true) plain_reductions toy_secrets c v x).2)
    [VAdd (PStr "t") PNone PNone; VSearch (PStr "q") 3 PNone PNone; VRemove (PStr "a"); VPersist] x) = db_engine x.
Proof.
  exact (proj1 (@read_only_never_writes _ (toy_native true) plain_reductions toy_secrets
    (Config true true true false 2 900 Wal (Some toy_backend))
    [VAdd (PStr "t") PNone PNone; VSearch (PStr "q") 3 PNone PNone; VRemove (PStr "a"); VPersist]
    (Db (Toy {[ "a" := NDoc (Some "fox") ∅ ]} []) "" 0) eq_refl)).
Defined.

(** ** The two forms of a batch answer *)

(** The JSON row of one slot of the flat arrays; metadata the engine did not send is left out. *)
Definition array_row (a : native_arrays) (i : nat) : pyval :=
  PDict ([(PStr "score", PFloat (default (S754_zero false) (na_scores a !! i)));
          (PStr "document_id", PStr (default "" (na_ids a !! i)))]
         ++ match na_metadata a !! i with Some m => [(PStr "metadata", PDict m)] | None => [] end).
Definition array_payload (a : native_arrays) (q : nat) : pyval :=
  dict_of [("hits", PList (map (λ o, array_row a (q * na_k a + o)) (seq 0 (na_k a))))].

Lemma array_hit_row a (i : nat) : (i < length (na_scores a))%nat → (i < length (na_ids a))%nat → array_hit a i = hit_from_row (array_row a i).
Proof.
  intros [s Hs]%lookup_lt_is_Some_2 [d Hd]%lookup_lt_is_Some_2. unfold array_hit, list_get, array_row. rewrite Hs, Hd.
  by destruct (na_metadata a !! i).
Qed.

(** The near-zero-copy answer and the JSON answer hydrate to the same hits: whenever the flat
    score and id arrays hold a full row of [k] hits per query, reading hits from the arrays gives
    what reading them from the corresponding JSON rows gives, query by query, with empty rows
    when nothing was found and empty metadata when none was sent. *)
Theorem arrays_hydrate_like_rows (a : native_arrays) (query_count : nat) :
  length (na_scores a) = (query_count * na_k a)%nat → length (na_ids a) = (query_count * na_k a)%nat →
  _hits_from_native_arrays a query_count = mapR hits_of_payload (map (array_payload a) (seq 0 query_count)).
Proof.
  intros Hs Hi. rewrite mapR_map. unfold _hits_from_native_arrays. destruct (Nat.eqb_spec (na_k a) 0) as [Hk|Hk].
  - transitivity (mapR (λ _, Ok (@nil SearchHit)) (seq 0 query_count)).
    + rewrite (mapR_total (λ _, [])). f_equal. generalize 0%nat. clear Hs Hi. induction query_count as [|n IH]; intros i; [done|].
      cbn. f_equal. apply IH.
    + apply mapR_ext, Forall_forall. intros q _. unfold hits_of_payload, array_payload. by rewrite Hk.
  - apply mapR_ext, Forall_forall. intros q Hq%elem_of_seq. unfold hits_of_payload, array_payload.
    change (py_get _ "hits" _) with (Ok (PList (map (λ o, array_row a (q * na_k a + o)) (seq 0 (na_k a))))).
    cbn [mbind result_bind _hits_from_native_rows]. rewrite mapR_map. apply mapR_ext, Forall_forall. intros o Ho%elem_of_seq.
    apply array_hit_row; rewrite ?Hs, ?Hi; nia.
Qed.

Lemma arrays_hydrate_like_rows_witness :
  let a := Arrays [float_of_Z 3; float_of_Z 2; float_of_Z 5; float_of_Z 1] ["a"; "b"; "c"; "a"] [[(PStr "t", PStr "x")]] 2 in
  _hits_from_native_arrays a 2 = mapR hits_of_payload (map (array_payload a) (seq 0 2)).
Proof. apply arrays_hydrate_like_rows; reflexivity. Defined.

(** ** Search modes and automatic ids *)

(** A resolved mode can run on the handle; the default raises only on a vector-only handle with
    no lexical source. *)
Lemma resolve_mode_runnable c mode : match _resolve_mode c mode with
  | Ok m => m ∈ SEARCH_MODES ∧ (m ∈ ["vector"; "hybrid"] → cf_vector_only c = false) ∧
            (m ∈ LEXICAL_SEARCH_MODES → lexical_source c = true)
  | Err e => (exn_class e = ValueError ∨ exn_class e = VectorOnlyIndexError) ∧
             (mode = PNone → cf_vector_only c = true ∧ lexical_source c = false)
  end.
Proof.
  assert (∀ m, m ∈ SEARCH_MODES → match gate_mode c m with
    | Ok m' => m' = m ∧ (m ∈ ["vector"; "hybrid"] → cf_vector_only c = false) ∧ (m ∈ LEXICAL_SEARCH_MODES → lexical_source c = true)
    | Err e => exn_class e = ValueError ∨ exn_class e = VectorOnlyIndexError end) as Hg.
  { intros m _. unfold gate_mode, str_in. destruct (cf_vector_only c), (lexical_source c); case_bool_decide; cbn; try (by right);
      try case_bool_decide; cbn; try (by left); by split_and!. }
  destruct mode as [|b|z|f|s|l|l|d|]; cbn [_resolve_mode]; try (by split; [left|]).
  - destruct (cf_vector_only c) eqn:Ev.
    + specialize (Hg "lexical" ltac:(set_solver)). unfold gate_mode in *. rewrite Ev in *.
      change (str_in "lexical" ["vector"; "hybrid"]) with false in *. change (str_in "lexical" LEXICAL_SEARCH_MODES) with true in *.
      cbn [andb] in *. destruct (lexical_source c) eqn:El; cbn [negb] in *; [|by auto]. destruct Hg as (_ & H & ?).
      split; [set_solver|]. by split.
    + destruct (lexical_source c) eqn:El; split; [set_solver|by split|set_solver|]. split; [done|].
      intros H. unfold LEXICAL_SEARCH_MODES in H. set_solver.
  - set (v := if bool_decide _ then _ else _). destruct (str_in v SEARCH_MODES) eqn:Ev; cbn [negb]; [|by split; [left|]].
    specialize (Hg v (bool_decide_eq_true_1 _ Ev)). destruct (gate_mode c v) as [m|e]; [|by split].
    destruct Hg as (-> & ? & ?). split; [by apply bool_decide_eq_true_1 in Ev|done].
Qed.
