(* ===== verification/StableIds.v ===== *)
(** * Stable vector ids

    [engine/turbovec_index.py]: the 64-bit id of a chunk in the vector index
    ([_stable_uint64_for_text], [stable_uint64_ids_for_chunk_ids]) and the dispatch name inferred
    from CPU flags ([turbovec_native_backend_from_flags]). The repair loop is given two probes
    more than there are ids in use, which is proved to be enough below [2^64 - 1] ids. *)

From Stdlib Require Import Ascii String ZArith Lia.
From stdpp Require Import base strings gmap sets list.
From S2P Require Import Prelude Bytes.

Local Open Scope Z_scope.

Definition two64 : Z := 18446744073709551616.

(** [hashlib.sha256(data).digest()]. *)
Definition sha256_digest (data : bytes) : list ascii :=
  let s := sha256_state (chars data) in
  concat (map (λ w, reverse (le_bytes 4 w)) [h_a s; h_b s; h_c s; h_d s; h_e s; h_f s; h_g s; h_h s]).

(** [int.from_bytes(b, byteorder="little", signed=False)]. *)
Definition from_little (l : list ascii) : Z := Z.of_N (le_value l).

Definition _stable_uint64_for_text (value : string) : Z :=
  from_little (take 8 (sha256_digest (utf8_encode value))).

(** [while candidate == 0 or candidate in used: candidate = (candidate + 1) & 0xFFFFFFFFFFFFFFFF]. *)
Fixpoint repair (fuel : nat) (used : gset Z) (candidate : Z) : option Z :=
  match fuel with
  | O => None
  | S fuel =>
      if bool_decide (candidate = 0) || bool_decide (candidate ∈ used)
      then repair fuel used (Z.land (candidate + 1) (two64 - 1))
      else Some candidate
  end.

Fixpoint assign_ids (used : gset Z) (chunk_ids : list string) : option (list Z) :=
  match chunk_ids with
  | [] => Some []
  | chunk_id :: chunk_ids =>
      candidate ← repair (size used + 2) used (_stable_uint64_for_text chunk_id);
      ids ← assign_ids ({[candidate]} ∪ used) chunk_ids;
      Some (candidate :: ids)
  end.

Definition stable_uint64_ids_for_chunk_ids (chunk_ids : list string) : option (list Z) := assign_ids ∅ chunk_ids.

Definition turbovec_native_backend_from_flags (cpu_flags : list string) : string :=
  if str_in "avx512bw" cpu_flags && str_in "avx512f" cpu_flags then "avx512bw"
  else if str_in "avx2" cpu_flags then "avx2"
  else if str_in "neon" cpu_flags then "neon"
  else "scalar".

(** ** Lemmas *)

Lemma from_little_bound l : 0 <= from_little l < 256 ^ Z.of_nat (length l).
Proof.
  unfold from_little. induction l as [|b l IH]; [done|]. cbn [le_value fold_right length].
  rewrite Nat2Z.inj_succ, Z.pow_succ_r by lia. pose proof (ord_bound b). fold (le_value l). lia.
Qed.

Lemma stable_bound s : 0 <= _stable_uint64_for_text s < two64.
Proof.
  unfold _stable_uint64_for_text. pose proof (from_little_bound (take 8 (sha256_digest (utf8_encode s)))) as H.
  assert (256 ^ Z.of_nat (length (take 8 (sha256_digest (utf8_encode s)))) <= two64); [|lia].
  change two64 with (256 ^ 8). apply Z.pow_le_mono_r; [lia|]. rewrite length_take. lia.
Qed.

Lemma land_mod z : Z.land z (two64 - 1) = z mod two64.
Proof. change (two64 - 1) with (Z.ones 64). change two64 with (2 ^ 64). by apply Z.land_ones. Qed.

(** Bad candidates in a row. *)
Lemma repair_None fuel used c : repair fuel used c = None → 0 <= c < two64 →
  ∀ i, (i < fuel)%nat → (c + Z.of_nat i) mod two64 ∈ {[0]} ∪ used.
Proof.
  revert c; induction fuel as [|fuel IH]; intros c H Hc i Hi; [lia|]. cbn [repair] in H.
  destruct (bool_decide (c = 0) || bool_decide (c ∈ used)) eqn:E; [|done].
  assert (c ∈ ({[0]} ∪ used : gset Z)) as Hbad.
  { apply orb_prop in E as [E|E]; apply bool_decide_eq_true_1 in E; set_solver. }
  destruct i as [|i]; [rewrite Z.add_0_r, Z.mod_small by lia; done|].
  rewrite land_mod in H. specialize (IH _ H (Z.mod_pos_bound (c + 1) two64 ltac:(done)) i ltac:(lia)).
  rewrite Zplus_mod_idemp_l in IH. by replace (c + Z.of_nat (S i)) with (c + 1 + Z.of_nat i) by lia.
Qed.

(** More probes than bad values find a good one. *)
Lemma repair_total used c : Z.of_nat (size used) < two64 - 1 → 0 <= c < two64 → is_Some (repair (size used + 2) used c).
Proof.
  intros Hs Hc. destruct (repair (size used + 2) used c) eqn:E; [done|]. exfalso.
  pose proof (repair_None _ _ _ E Hc) as Hbad. set (l := map (λ i, (c + Z.of_nat i) mod two64) (seq 0 (size used + 2))).
  assert (NoDup l) as Hnd.
  { apply NoDup_fmap_2_strong; [|apply NoDup_seq]. intros i j Hi%elem_of_seq Hj%elem_of_seq Hij.
    pose proof (Z.div_mod (c + Z.of_nat i) two64 ltac:(done)). pose proof (Z.div_mod (c + Z.of_nat j) two64 ltac:(done)).
    unfold two64 in *. nia. }
  assert (list_to_set l ⊆ ({[0]} ∪ used : gset Z)) as Hsub.
  { intros z. rewrite elem_of_list_to_set. intros (i & -> & Hi%elem_of_seq)%list_elem_of_fmap. apply Hbad. lia. }
  apply subseteq_size in Hsub. rewrite size_list_to_set in Hsub by done. unfold l in Hsub. rewrite length_map, length_seq in Hsub.
  pose proof (size_union_alt ({[0]} : gset Z) used) as Hu. pose proof (subseteq_size (used ∖ {[0]}) used ltac:(set_solver)).
  rewrite size_singleton in Hu. lia.
Qed.

Lemma repair_Some fuel used c z : repair fuel used c = Some z → 0 <= c < two64 → 0 < z < two64 ∧ z ∉ used.
Proof.
  revert c; induction fuel as [|fuel IH]; intros c H Hc; [done|]. cbn [repair] in H.
  destruct (bool_decide (c = 0) || bool_decide (c ∈ used)) eqn:E.
  - rewrite land_mod in H. by apply (IH _ H), Z.mod_pos_bound.
  - injection H as <-. apply orb_false_iff in E as [E1%bool_decide_eq_false_1 E2%bool_decide_eq_false_1]. split; [lia|done].
Qed.

Lemma assign_ids_spec used l : Z.of_nat (size used + length l) < two64 → ∃ ids, assign_ids used l = Some ids ∧
  length ids = length l ∧ NoDup ids ∧ Forall (λ z, 0 < z < two64 ∧ z ∉ used) ids.
Proof.
  revert used; induction l as [|s l IH]; intros used Hs; [exists []; by repeat constructor|]. cbn [assign_ids length] in *.
  destruct (repair_total used (_stable_uint64_for_text s) ltac:(lia) (stable_bound s)) as [z Hz]. rewrite Hz.
  cbn [mbind option_bind]. destruct (repair_Some _ _ _ _ Hz (stable_bound s)) as [Hb Hn].
  assert (size ({[z]} ∪ used : gset Z) = S (size used)) as Hsz by (rewrite size_union, size_singleton by set_solver; done).
  destruct (IH ({[z]} ∪ used)) as (ids & -> & Hl & Hnd & HF); [rewrite Hsz; lia|]. exists (z :: ids). split; [done|].
  split; [cbn; by rewrite Hl|]. split.
  - constructor; [|done]. intros Hin. rewrite Forall_forall in HF. destruct (HF z Hin) as [_ H]. set_solver.
  - constructor; [done|]. eapply Forall_impl; [exact HF|]. intros y [? ?]. split; [done|]. set_solver.
Qed.

(** Ids already assigned do not depend on the chunks that follow. *)
Lemma assign_ids_app used l1 l2 ids : assign_ids used (l1 ++ l2) = Some ids →
  assign_ids used l1 = Some (take (length l1) ids).
Proof.
  revert used ids; induction l1 as [|s l1 IH]; intros used ids H; [done|]. cbn [app assign_ids] in *.
  destruct (repair _ used _) as [z|]; [|done]. cbn [mbind option_bind] in *.
  destruct (assign_ids ({[z]} ∪ used) (l1 ++ l2)) as [ids'|] eqn:E; [|done]. injection H as <-.
  by rewrite (IH _ _ E).
Qed.

(** A free nonzero hash is kept. *)
Lemma assign_ids_keep used l1 s l2 ids : assign_ids used (l1 ++ s :: l2) = Some ids →
  _stable_uint64_for_text s ≠ 0 → _stable_uint64_for_text s ∉ used → _stable_uint64_for_text s ∉ take (length l1) ids →
  ids !! length l1 = Some (_stable_uint64_for_text s).
Proof.
  intros H Hz. revert used ids H; induction l1 as [|s' l1 IH]; intros used ids H Hu Hi; cbn [app assign_ids length] in *.
  - rewrite Nat.add_comm in H. cbn [Nat.add repair] in H. rewrite !bool_decide_false in H by done. cbn [orb mbind option_bind] in H.
    destruct (assign_ids _ l2) as [ids'|]; [|done]. by injection H as <-.
  - destruct (repair _ used _) as [z|]; [|done]. cbn [mbind option_bind] in H.
    destruct (assign_ids _ (l1 ++ s :: l2)) as [ids'|] eqn:E; [|done]. injection H as <-. cbn in Hi |- *.
    apply (IH _ _ E); set_solver.
Qed.

(** ** Claims *)

(** C22: Id assignment always ends and never aliases: for every batch of fewer than [2^64] chunk
    ids the collision repair terminates and yields one id per chunk, all distinct, all nonzero
    and within 64 bits; a chunk whose hash is nonzero and not taken by an earlier chunk keeps
    its hash; and the ids of a prefix do not depend on what follows. *)
Theorem stable_ids_assigned (chunk_ids : list string) : Z.of_nat (length chunk_ids) < two64 →
  ∃ ids, stable_uint64_ids_for_chunk_ids chunk_ids = Some ids ∧ length ids = length chunk_ids ∧ NoDup ids ∧
    Forall (λ z, 0 < z < two64) ids ∧
    (∀ l1 s l2, chunk_ids = l1 ++ s :: l2 → _stable_uint64_for_text s ≠ 0 →
       _stable_uint64_for_text s ∉ take (length l1) ids → ids !! length l1 = Some (_stable_uint64_for_text s)) ∧
    ∀ n, stable_uint64_ids_for_chunk_ids (take n chunk_ids) = Some (take n ids).
Proof.
  intros Hl. destruct (assign_ids_spec ∅ chunk_ids) as (ids & Hids & Hlen & Hnd & HF); [by rewrite size_empty|].
  exists ids. split; [exact Hids|]. split; [exact Hlen|]. split; [exact Hnd|]. split; [|split].
  - eapply Forall_impl; [exact HF|]. by intros z [? _].
  - intros l1 s l2 -> Hz Hi. apply (assign_ids_keep ∅ l1 s l2); [exact Hids|exact Hz|apply not_elem_of_empty|exact Hi].
  - intros n. unfold stable_uint64_ids_for_chunk_ids. rewrite (assign_ids_app ∅ (take n chunk_ids) (drop n chunk_ids) ids).
    + f_equal. rewrite length_take. destruct (Nat.le_gt_cases n (length chunk_ids)); [by rewrite Nat.min_l|].
      rewrite Nat.min_r, !firstn_all2 by lia. done.
    + by rewrite take_drop.
Qed.

Lemma stable_ids_assigned_witness :
  ∃ ids, stable_uint64_ids_for_chunk_ids ["a"; "b"; "a"] = Some ids ∧ length ids = 3%nat ∧ NoDup ids.
Proof.
  destruct (stable_ids_assigned ["a"; "b"; "a"] eq_refl) as (ids & H1 & H2 & H3 & _). exists ids.
  exact (conj H1 (conj H2 H3)).
Defined.
