(* ===== verification/LocalInit.v ===== *)
(** * The constructor of a local database

    [local/presets.py], the constructor [LodeDB.__init__] and the opening of the native engine
    ([_maybe_init_native_vector_engine]) of [local/db.py]: which index a set of arguments asks
    for, which arguments contradict each other, and what opening does before and after
    [_finalize_open] of [LocalOpen.v]. Building the embedding model of a preset
    ([local/backends.py]) and opening the compiled engine are parameters. *)

From Stdlib Require Import Ascii String ZArith Lia SpecFloat.
From stdpp Require Import base strings gmap sets list.
From S2P Require Import Prelude Numbers PyVal Bytes Json FileSys CommitManifest RouteRegistry EngineCore LocalOpen LocalDb.

Local Open Scope Z_scope.

(** ** Presets *)

Record LocalModelPreset := Preset
  { lp_name : string; lp_route_profile : string; lp_query_prefix : string; lp_document_prefix : string;
    lp_description : string; lp_pooling : string; lp_multimodal : bool }.

Definition BGE_BASE_QUERY_PREFIX : string := "Represent this sentence for searching relevant passages: ".
Definition E5_QUERY_PREFIX : string := "query: ".
Definition E5_DOCUMENT_PREFIX : string := "passage: ".

Definition LOCAL_MODEL_PRESETS : list (string * LocalModelPreset) :=
  [("minilm", Preset "minilm" MINILM_TURBOVEC_ROUTE_PROFILE "" ""
      "Fast default: all-MiniLM-L6-v2, 384-dim, 4-bit TurboVec." "mean" false);
   ("bge", Preset "bge" BGE_TURBOVEC_ROUTE_PROFILE BGE_BASE_QUERY_PREFIX ""
      "Quality: BAAI/bge-base-en-v1.5, 768-dim, 4-bit TurboVec." "cls" false);
   ("e5-small", Preset "e5-small" E5_SMALL_TURBOVEC_ROUTE_PROFILE E5_QUERY_PREFIX E5_DOCUMENT_PREFIX
      "Multilingual: intfloat/multilingual-e5-small, 384-dim, 4-bit TurboVec. Same index shape as minilm." "mean" false);
   ("clip", Preset "clip" CLIP_TURBOVEC_ROUTE_PROFILE "" ""
      "Image + text: sentence-transformers/clip-ViT-B-32, 512-dim, 4-bit TurboVec. Needs the [image] extra for image input."
      "mean" true)].

Definition preset_policy (p : LocalModelPreset) : result EngineRoutePolicy := route_policy_for_profile (lp_route_profile p).

(** [int(self.route_policy.turbovec_bit_width or 4)]. *)
Definition turbovec_bit_width (p : LocalModelPreset) : result Z :=
  policy ← preset_policy p;
  Ok (match pl_bits policy with Some b => if b =? 0 then 4 else b | None => 4 end).

(** [(model or "").strip().lower()]. *)
Definition preset_key (model : pyval) : result string :=
  match py_or model (PStr "") with PStr s => Ok (str_lower (str_strip s)) | v => no_attr v "strip" end.

Definition resolve_preset (model : pyval) : result LocalModelPreset :=
  key ← preset_key model;
  match get_item key LOCAL_MODEL_PRESETS with
  | Some p => Ok p
  | None => raise ValueError ("unknown local model preset " +:+ py_repr model +:+ "; choose one of: "
              +:+ str_join ", " (sort_by str_leb (map fst LOCAL_MODEL_PRESETS)))
  end.

Definition VECTOR_ONLY_ROUTE_PROFILE : string := "vector-only".
Definition CUSTOM_EMBEDDER_ROUTE_PROFILE : string := "custom-embedder".

Definition template_for (native_dim bit_width : Z) : string :=
  "direct_turbovec_full" +:+ Z_str native_dim +:+ "_bw" +:+ Z_str bit_width.

Definition vector_only_route_policy (native_dim bit_width : Z) : EngineRoutePolicy :=
  Policy VECTOR_ONLY_ROUTE_PROFILE "External vectors (bring-your-own)"
    "caller-supplied embeddings; no internal embedding model" "external" "external" "vector-only" native_dim
    (template_for native_dim bit_width) false "turbovec_direct" (Some bit_width).

Definition custom_embedder_route_policy (native_dim bit_width : Z) (model_identity : string) : EngineRoutePolicy :=
  Policy CUSTOM_EMBEDDER_ROUTE_PROFILE "Custom embedder (user-supplied)"
    "caller-supplied embedding backend; no built-in preset model" model_identity "external" "custom-embedder" native_dim
    (template_for native_dim bit_width) false "turbovec_direct" (Some bit_width).

(** ** Arguments *)

(** A caller's embedding backend: its [native_dim] (0 where it has none), its
    [required_model_name] and its methods. *)
Record embedder := Embedder { em_native_dim : pyval; em_model_name : option string; em_methods : EmbeddingBackend }.

(** The keyword arguments that reach the index; those that only tune the embedding model are
    part of building it. *)
Record init_args := Init
  { ia_model : pyval; ia_vector_dim : pyval; ia_embedder : option embedder; ia_bit_width : pyval;
    ia_chunk_character_limit : pyval; ia_store_text : pyval; ia_index_text : pyval;
    ia_ann : ann_arg; ia_ann_clusters : option Z; ia_ann_nprobe : option Z;
    ia_rescore : rescore_arg; ia_rescore_dtype : option string; ia_rescore_oversample : option spec_float;
    ia_compression : bool; ia_read_only : bool; ia_durability : option string; ia_commit_mode : option string;
    ia_embedding_backend : option EmbeddingBackend }.

(** [LodeDB(path)] with nothing else. *)
Definition default_args : init_args :=
  Init (PStr "minilm") PNone None PNone (PInt 900) (PBool true) PNone AnnNone None None RescoreNone None None
    true false None None None.

(** What the arguments ask for, before anything is opened. *)
Record resolved := Resolved
  { rv_config : LodeConfig; rv_policy : EngineRoutePolicy; rv_bit_width : Z; rv_fsync : bool; rv_compression : bool;
    rv_ann : option pydict; rv_rescore : option pydict }.

Definition is_none (v : pyval) : bool := match v with PNone => true | _ => false end.

(** [ann_nprobe if ann_nprobe is not None else ann.nprobe if isinstance(ann, AnnOptions) else None]. *)
Definition requested_nprobe (a : init_args) : option Z :=
  match ia_ann_nprobe a, ia_ann a with
  | Some n, _ => Some n
  | None, AnnStructured o => an_nprobe o
  | None, _ => None
  end.
Definition requested_oversample (a : init_args) : option spec_float :=
  match ia_rescore_oversample a, ia_rescore a with
  | Some x, _ => Some x
  | None, RescoreStructured o => rs_oversample o
  | None, _ => None
  end.

Definition resolve_ann (a : init_args) : result (option pydict) :=
  match ia_ann a, ia_ann_clusters a, ia_ann_nprobe a with
  | AnnNone, None, Some n => if n <? 1 then raise ValueError "ann_nprobe must be a positive integer" else Ok None
  | ann, clusters, nprobe => _resolve_ann_options ann clusters nprobe
  end.

Definition resolve_rescore (a : init_args) : result (option pydict) :=
  match ia_rescore a with
  | RescoreNone =>
      if given (ia_rescore_dtype a) || given (ia_rescore_oversample a)
      then match ia_rescore_oversample a with
           | Some x => _ ← _validate_rescore_oversample x; Ok None
           | None => Ok None
           end
      else _resolve_rescore_options RescoreNone None None
  | r => _resolve_rescore_options r (ia_rescore_dtype a) (ia_rescore_oversample a)
  end.

(** [None], or [int(bit_width)] where it is 2 or 4. *)
Definition explicit_bit_width (bit_width : pyval) : result (option Z) :=
  if is_none bit_width then Ok None
  else
    b ← py_int bit_width;
    if (b =? 2) || (b =? 4) then Ok (Some b) else raise ValueError ("bit_width must be 2 or 4, got " +:+ py_repr bit_width).

(** ** Which index the arguments name *)

Section init.
Context (environ : gmap string string) (build_backend : LocalModelPreset → result EmbeddingBackend).

(** The three branches of the constructor: the policy, the dimension where it is the caller's,
    and the backend. *)
Definition choose_vectors (a : init_args) (bits : Z) : result (EngineRoutePolicy * Z * option EmbeddingBackend) :=
  if given (ia_embedding_backend a) then raise ValueError "vector_dim and _embedding_backend are mutually exclusive"
  else
    dim ← py_int (ia_vector_dim a);
    if (1 <=? dim) && (dim <=? 65536) then Ok (vector_only_route_policy dim bits, dim, None)
    else raise ValueError "vector_dim must be between 1 and 65536".

Definition no_identity : string :=
  "embedder must set a non-empty required_model_name: a public, non-secret identifier for the model that produced the vectors. "
  +:+ "It is pinned into the index header and re-enforced on reopen, so a same-dimension different-model backend is rejected "
  +:+ "rather than scored. Identity-free fixtures belong on the internal _embedding_backend hook.".

Definition choose_embedder (e : embedder) (bits : Z) : result (EngineRoutePolicy * Z * option EmbeddingBackend) :=
  dim ← py_int (em_native_dim e);
  if dim <=? 0 then raise ValueError "embedder must expose a positive native_dim"
  else match em_model_name e with
       | Some (String _ _ as name) => Ok (custom_embedder_route_policy dim bits name, dim, Some (em_methods e))
       | _ => raise ValueError no_identity
       end.

Definition choose_preset (a : init_args) (explicit : option Z) : result (EngineRoutePolicy * Z * option EmbeddingBackend) :=
  p ← resolve_preset (ia_model a);
  width ← turbovec_bit_width p;
  if match explicit with Some b => negb (b =? width) | None => false end
  then raise ValueError ("model " +:+ py_repr (ia_model a) +:+ " is a " +:+ Z_str width +:+ "-bit preset; "
         +:+ "bit_width is only configurable for a vector_dim= or embedder= index")
  else
    backend ← (match ia_embedding_backend a with Some b => Ok b | None => build_backend p end);
    policy ← preset_policy p;
    Ok (policy, pl_dim policy, Some backend).

Definition resolve_init (a : init_args) : result resolved :=
  let store_text := truthy (ia_store_text a) in
  let index_text := if is_none (ia_index_text a) then store_text else truthy (ia_index_text a) in
  ann ← resolve_ann a;
  rescore ← resolve_rescore a;
  chunk_limit ← py_int (ia_chunk_character_limit a);
  explicit ← explicit_bit_width (ia_bit_width a);
  let bits := default 4 explicit in
  fsync ← (match ia_durability a with None => durability_from_env environ | d => normalize_durability d end);
  mode ← (match ia_commit_mode a with None => commit_mode_from_env environ | m => parse_commit_mode m end);
  let vector_only := negb (is_none (ia_vector_dim a)) in
  if given (ia_embedder a) && vector_only then raise ValueError "embedder and vector_dim are mutually exclusive"
  else if given (ia_embedder a) && given (ia_embedding_backend a)
  then raise ValueError "embedder and _embedding_backend are mutually exclusive"
  else
    '(policy, dim, backend) ← (if vector_only then choose_vectors a bits
      else match ia_embedder a with Some e => choose_embedder e bits | None => choose_preset a explicit end);
    Ok (Resolved (Config (ia_read_only a) store_text index_text vector_only (Z.to_nat dim) chunk_limit mode backend)
          policy bits fsync (ia_compression a) ann rescore).

(** The identity the index is created with, and checked against. *)
Definition resolved_identity (r : resolved) : index_identity :=
  Identity (Z.of_nat (cf_vector_dim (rv_config r))) (pl_model (rv_policy r)) (pl_provider (rv_policy r))
    (pl_task (rv_policy r)) (pl_backend (rv_policy r)) (rv_bit_width r).
End init.

(** ** Opening the engine *)

Record engine_options := EngineOptions
  { eo_read_only : bool; eo_fsync : bool; eo_commit_mode : CommitMode; eo_store_text : bool; eo_index_text : bool;
    eo_chunk_character_limit : Z; eo_compression : bool }.

(** The compiled engine at a directory: opening it, and the states the disk goes through while
    it reaches a state. *)
Class NativeHost (E : Type) := {
  open_engine : path → engine_options → io E;
  host_writes : path → E → fsys → list fsys }.

Definition _LOCAL_INDEX_ID : string := "default".
Definition _LOCAL_CLIENT_ID_HASH : string := sha256_text "lodedb-local".
Definition _NATIVE_WRITER_LOCK_CONTENTION_MARKER : string := "holds the lodedb lock".

Definition _is_writer_lock_contention (e : exn) : bool := str_contains _NATIVE_WRITER_LOCK_CONTENTION_MARKER (exn_msg e).

Definition exn_repr (e : exn) : string := class_name e +:+ "(" +:+ str_repr (exn_msg e) +:+ ")".

Section open.
Context {E : Type} {NO : NativeOpen E} {NH : NativeHost E}.
Context (environ : gmap string string) (build_backend : LocalModelPreset → result EmbeddingBackend).

(** A call on the engine of a directory. *)
Definition on_engine {A} (d : path) (m : fsys → st E A) (e : E) : io (result A * E) := λ s,
  let out := m s e in
  let l := host_writes d out.2 s in
  Out l (List.last l s) (Ok out).

Definition options_of (r : resolved) : engine_options :=
  let c := rv_config r in
  EngineOptions (cf_read_only c) (rv_fsync r) (cf_commit_mode c) (cf_store_text c) (cf_index_text c)
    (cf_chunk_limit c) (rv_compression r).

Definition request_of (a : init_args) (r : resolved) : open_request :=
  Request (ia_read_only a) (resolved_identity r)
    (_native_vector_index_options _LOCAL_INDEX_ID (index_state_key_for_client_hash _LOCAL_CLIENT_ID_HASH _LOCAL_INDEX_ID)
       _LOCAL_CLIENT_ID_HASH "lodedb-local" (pl_profile (rv_policy r)) (resolved_identity r) (rv_ann r) (rv_rescore r))
    (rv_ann r) (requested_nprobe a) (ia_rescore a) (ia_rescore_dtype a) (requested_oversample a).

(** [_finalize_open(handle)]: a failure has closed the engine. *)
Definition finalized (d : path) (rq : open_request) (e : E) : io E :=
  out ← on_engine d (λ s, _finalize_open d s rq) e;
  _ ← lift out.1;
  mret out.2.

Definition in_wal_mode (o : engine_options) : engine_options :=
  EngineOptions (eo_read_only o) (eo_fsync o) Wal (eo_store_text o) (eo_index_text o) (eo_chunk_character_limit o)
    (eo_compression o).

(** Folding a log that a crash in WAL mode left behind, by a transient open in that mode. *)
Definition recover_wal (d : path) (o : engine_options) : io unit :=
  leftover ← (match eo_commit_mode o with Wal => mret false | Generation => _has_leftover_wal d end);
  if (leftover : bool)
  then recovery ← open_engine d (in_wal_mode o);
       out ← on_engine d (λ _, open_close) recovery;
       lift out.1
  else mret tt.

Definition _open (d : path) (o : engine_options) (rq : open_request) : io E :=
  if eo_read_only o then e ← open_engine d o; finalized d rq e
  else _ ← recover_wal d o; e ← open_engine d o; finalized d rq e.

Definition open_elsewhere (d : path) : string :=
  "LodeDB at " +:+ str_join "/" (reverse d) +:+ " is already open by another process "
  +:+ "(LodeDB is single-writer per path); close the other handle, or raise LODEDB_PERSIST_LOCK_TIMEOUT to wait longer.".

Definition translate_open_error (d : path) (x : exn) : exn :=
  if _is_writer_lock_contention x then Exn ConcurrentWriterError (open_elsewhere d)
  else if is_value_error x then x
  else Exn RuntimeError ("failed to initialize native core: " +:+ exn_repr x).

Definition _maybe_init_native_vector_engine (d : path) (o : engine_options) (rq : open_request) : io E :=
  r ← attempt (_open d o rq);
  lift (match r with Ok e => Ok e | Err x => Err (translate_open_error d x) end).

(** [LodeDB(path, ...)]. *)
Definition LodeDB_init (d : path) (a : init_args) : io (LodeConfig * LodeDB E) :=
  r ← lift (resolve_init environ build_backend a);
  _ ← (if ia_read_only a
       then found ← is_dir d;
            if (found : bool) then mret tt
            else fail FileNotFoundError ("LodeDB(read_only=True) requires an existing directory: " +:+ str_join "/" (reverse d))
       else mkdir_p d);
  e ← _maybe_init_native_vector_engine d (options_of r) (request_of a r);
  mret (rv_config r, Db e "" 0).
End open.

Example presets_are_known : map (λ n, lp_name <$> resolve_preset (PStr n)) [" MiniLM "; "bge"; "E5-Small"; "clip"]
  = [Ok "minilm"; Ok "bge"; Ok "e5-small"; Ok "clip"].
Proof. reflexivity. Qed.

(** ** What the arguments pin down *)

(** What a set of arguments asks for: a preset, a dimension and a width, or a caller's model. *)
Inductive index_kind :=
| PresetKind (name : string)
| VectorKind (dim bits : Z)
| CustomKind (model : string) (dim bits : Z).

Definition kind_of (a : init_args) : result index_kind :=
  explicit ← explicit_bit_width (ia_bit_width a);
  if negb (is_none (ia_vector_dim a)) then dim ← py_int (ia_vector_dim a); Ok (VectorKind dim (default 4 explicit))
  else match ia_embedder a with
       | Some e => dim ← py_int (em_native_dim e); Ok (CustomKind (default "" (em_model_name e)) dim (default 4 explicit))
       | None => p ← resolve_preset (ia_model a); Ok (PresetKind (lp_name p))
       end.

Definition kind_identity (k : index_kind) : index_identity :=
  match k with
  | PresetKind name =>
      match get_item name LOCAL_MODEL_PRESETS with
      | Some p => match preset_policy p with
                  | Ok pol => Identity (pl_dim pol) (pl_model pol) (pl_provider pol) (pl_task pol) (pl_backend pol) 4
                  | Err _ => Identity 0 "" "" "" "" 0
                  end
      | None => Identity 0 "" "" "" "" 0
      end
  | VectorKind dim bits => Identity dim "external" "external" "vector-only" "turbovec_direct" bits
  | CustomKind model dim bits => Identity dim model "external" "custom-embedder" "turbovec_direct" bits
  end.

(** What holds of every entry of the table. *)
Lemma preset_ind (P : string → LocalModelPreset → Prop) key p :
  Forall (λ kp, P kp.1 kp.2) LOCAL_MODEL_PRESETS → get_item key LOCAL_MODEL_PRESETS = Some p → P key p.
Proof.
  intros HP H. apply get_item_elem in H; [|apply (bool_decide_eq_true_1 (NoDup _)); vm_compute; reflexivity].
  rewrite Forall_forall in HP. by apply (HP (key, p)).
Qed.

Lemma preset_known key p : get_item key LOCAL_MODEL_PRESETS = Some p →
  get_item (lp_name p) LOCAL_MODEL_PRESETS = Some p ∧ turbovec_bit_width p = Ok 4 ∧
  ∃ policy, preset_policy p = Ok policy ∧ 0 < pl_dim policy.
Proof.
  revert key p. refine (λ key p, preset_ind (λ _ p, _) key p _). unfold LOCAL_MODEL_PRESETS at 1.
  repeat (apply Forall_cons; split; [split; [reflexivity|split; [reflexivity|eexists; split; [reflexivity|done]]]|]). constructor.
Qed.

Lemma resolve_preset_known m p : resolve_preset m = Ok p →
  get_item (lp_name p) LOCAL_MODEL_PRESETS = Some p ∧ turbovec_bit_width p = Ok 4 ∧
  ∃ policy, preset_policy p = Ok policy ∧ 0 < pl_dim policy.
Proof.
  intros (key & _ & H)%bind_Ok. destruct (get_item key LOCAL_MODEL_PRESETS) eqn:E; [|done].
  injection H as ->. by apply preset_known in E.
Qed.

Lemma explicit_width v b : explicit_bit_width v = Ok b → default 4 b = 2 ∨ default 4 b = 4.
Proof.
  unfold explicit_bit_width. destruct (is_none v); [intros [= <-]; by right|].
  intros (z & _ & H)%bind_Ok. destruct (_ || _) eqn:E; [|done]. injection H as <-. cbn. lia.
Qed.

Section pins.
Context (environ : gmap string string) (build_backend : LocalModelPreset → result EmbeddingBackend).

(** The kinds accepted arguments have. *)
Definition good_kind (k : index_kind) : Prop :=
  match k with
  | PresetKind name => ∃ p, get_item name LOCAL_MODEL_PRESETS = Some p ∧ lp_name p = name
  | VectorKind dim _ | CustomKind _ dim _ => 0 < dim
  end.

Lemma choose_kind a explicit pol dim back : explicit_bit_width (ia_bit_width a) = Ok explicit →
  (if negb (is_none (ia_vector_dim a)) then choose_vectors a (default 4 explicit)
   else match ia_embedder a with Some e => choose_embedder e (default 4 explicit) | None => choose_preset build_backend a explicit end)
    = Ok (pol, dim, back) →
  ∃ k, kind_of a = Ok k ∧ good_kind k ∧ 0 < dim ∧
    Identity dim (pl_model pol) (pl_provider pol) (pl_task pol) (pl_backend pol) (default 4 explicit) = kind_identity k.
Proof.
  intros He. unfold kind_of. rewrite He. cbn [mbind result_bind]. destruct (is_none (ia_vector_dim a)); cbn [negb].
  - destruct (ia_embedder a) as [e|].
    + unfold choose_embedder. intros (d & Hd & H)%bind_Ok. rewrite Hd. destruct (d <=? 0) eqn:Hp; [done|].
      destruct (em_model_name e) as [[|c s]|]; [done| |done]. injection H as <- <- _.
      eexists. split; [reflexivity|]. cbn. split_and!; [lia|lia|done].
    + unfold choose_preset. intros (p & Hp & (w & Hw & H)%bind_Ok)%bind_Ok. rewrite Hp. cbn [mbind result_bind].
      destruct (resolve_preset_known _ _ Hp) as (Hk & Hw' & pol' & Hpol & Hdim). rewrite Hw in Hw'. injection Hw' as ->.
      destruct (match explicit with Some b => negb (b =? 4) | None => false end) eqn:Ex; [done|].
      apply bind_Ok in H as (bk & _ & H). rewrite Hpol in H. cbn in H. injection H as <- <- _.
      eexists. split; [reflexivity|]. cbn [good_kind kind_identity]. rewrite Hk, Hpol.
      split_and!; [by exists p|done|].
      destruct explicit as [b|]; [|done]. cbn. apply negb_false_iff, Z.eqb_eq in Ex. by subst.
  - unfold choose_vectors. destruct (given _); [done|]. intros (d & Hd & H)%bind_Ok. rewrite Hd.
    destruct ((1 <=? d) && (d <=? 65536)) eqn:Hr; [|done]. injection H as <- <- _.
    eexists. split; [reflexivity|]. cbn. split_and!; [lia|lia|done].
Qed.

Lemma resolved_kind a r : resolve_init environ build_backend a = Ok r →
  ∃ k, kind_of a = Ok k ∧ good_kind k ∧ resolved_identity r = kind_identity k ∧ cf_read_only (rv_config r) = ia_read_only a.
Proof.
  unfold resolve_init. intros (ann & _ & (rs & _ & (cl & _ & (ex & Hex & (fs & _ & (md & _ & H)%bind_Ok)%bind_Ok)%bind_Ok)%bind_Ok)%bind_Ok)%bind_Ok.
  cbv zeta in H. destruct (given (ia_embedder a) && _); [done|]. destruct (given (ia_embedder a) && _); [done|].
  apply bind_Ok in H as ([[pol dim] back] & Hc & H). injection H as <-.
  destruct (choose_kind _ _ _ _ _ Hex Hc) as (k & Hk & Hg & Hd & Hi). exists k. split_and!; [done|done| |done].
  unfold resolved_identity. cbn. rewrite Z2Nat.id by lia. exact Hi.
Qed.

(** What identifies a preset: its model, under the task of the direct routes. *)
Lemma preset_models n p : get_item n LOCAL_MODEL_PRESETS = Some p →
  let i := kind_identity (PresetKind n) in
  (n, model i) ∈ [("minilm", "sentence-transformers/all-MiniLM-L6-v2"); ("bge", "BAAI/bge-base-en-v1.5");
    ("e5-small", "intfloat/multilingual-e5-small"); ("clip", "sentence-transformers/clip-ViT-B-32")] ∧ task i = "direct-turbovec".
Proof.
  revert n p. refine (λ n p, preset_ind (λ n _, _) n p _). unfold LOCAL_MODEL_PRESETS at 1.
  repeat (apply Forall_cons; split; [split; [apply (bool_decide_eq_true_1 (_ ∈ _)); vm_compute; reflexivity|reflexivity]|]). constructor.
Qed.

(** Distinct kinds have distinct identities. *)
Lemma kind_identity_inj k k' : good_kind k → good_kind k' → kind_identity k = kind_identity k' → k = k'.
Proof.
  assert (∀ n j, good_kind (PresetKind n) → kind_identity (PresetKind n) = j → task j ≠ "direct-turbovec" → False) as Hno.
  { intros n j (p & Hn & _) <- Ht. by apply Ht, (preset_models n p). }
  intros Hg Hg' Heq. destruct k as [n|d b|m d b], k' as [n'|d' b'|m' d' b'].
  - destruct Hg as (p & Hn & _), Hg' as (p' & Hn' & _).
    apply preset_models in Hn as [Hn _], Hn' as [Hn' _]. rewrite <- Heq in Hn'. f_equal. clear Heq.
    revert Hn Hn'. generalize (model (kind_identity (PresetKind n))). intros m Hn Hn'.
    rewrite !elem_of_cons in Hn, Hn'. destruct Hn as [[= -> ->]|[[= -> ->]|[[= -> ->]|[[= -> ->]|[]%elem_of_nil]]]];
      destruct Hn' as [?|[?|[?|[?|[]%elem_of_nil]]]]; congruence.
  - by destruct (Hno _ _ Hg Heq).
  - by destruct (Hno _ _ Hg Heq).
  - by destruct (Hno _ _ Hg' (eq_sym Heq)).
  - by injection Heq as -> ->.
  - done.
  - by destruct (Hno _ _ Hg' (eq_sym Heq)).
  - done.
  - by injection Heq as -> -> ->.
Qed.
End pins.

(** ** Reopening *)

(** What the engine does to a path whose index is committed: it keeps the identity of the
    committed generation, in every state it writes; and an engine opened there lists the index. *)
Class NativeHostLaws (E : Type) {NO : NativeOpen E} {NH : NativeHost E} : Prop := {
  open_keeps d o s i : value (_persisted_index_identity d s) = Ok (Some i) →
    value (_persisted_index_identity d (final (open_engine d o s))) = Ok (Some i);
  writes_keep d e s i : value (_persisted_index_identity d s) = Ok (Some i) →
    Forall (λ t, value (_persisted_index_identity d t) = Ok (Some i)) (host_writes d e s);
  opened_lists d o s i e : value (_persisted_index_identity d s) = Ok (Some i) → value (open_engine d o s) = Ok e →
    is_Ok (open_stats e) ∧ is_Ok (open_rescore e) }.

Section reopen.
Context {E : Type} {NO : NativeOpen E} {NH : NativeHost E} {NL : NativeHostLaws E}.
Context (environ : gmap string string) (build_backend : LocalModelPreset → result EmbeddingBackend).
Variables (d : path) (i : index_identity).

Definition committed (s : fsys) : Prop := value (_persisted_index_identity d s) = Ok (Some i).

Lemma on_engine_committed {A} (m : fsys → st E A) e s : committed s → committed (final (on_engine d m e s)).
Proof.
  intros Hs. unfold on_engine. cbv zeta. cbn [final]. pose proof (writes_keep d (m s e).2 s i Hs) as Hw.
  destruct (host_writes d (m s e).2 s) as [|t l _] using rev_ind; [done|]. rewrite List.last_last. apply Forall_app in Hw as [_ Hw]. by apply Forall_cons in Hw as [? _].
Qed.

(** [_finalize_open] on a committed path: the identity guard decides, where no options are asked for. *)
Lemma finalize_committed rq e s : committed s → is_Ok (open_stats e) → is_Ok (open_rescore e) →
  (rq_identity rq ≠ i → ∃ x, (_finalize_open d s rq e).1 = Err x ∧ exn_class x = RuntimeError) ∧
  (rq_identity rq = i → rq_rescore rq = RescoreNone → rq_dtype rq = None → rq_oversample rq = None → rq_ann_nprobe rq = None →
     (_finalize_open d s rq e).1 = Ok tt).
Proof.
  intros Hs [st Hst] [rsc Hr]. pose proof (validate_identity d (rq_identity rq) s _ (persisted_run d s)) as Hv.
  unfold committed in Hs. rewrite Hs in Hv. pose proof (check_entries (identity_entries i (rq_identity rq))) as Hc.
  rewrite identity_entries_spec in Hc. unfold _finalize_open, finalize_body. cbv zeta. rewrite Hv. split.
  - intros Hne. rewrite bool_decide_eq_false_2 in Hc by done. destruct Hc as (x & Hx & Hk). rewrite Hx. exists x.
    rewrite Hst. destruct (rq_read_only rq); cbn; done.
  - intros Hi Hn1 Hn2 Hn3 Hn4. rewrite bool_decide_eq_true_2 in Hc by (by rewrite Hi). rewrite Hc, Hst.
    assert (∀ p, adopt_index rq p e = (Ok tt, e)) as Ha.
    { intros p. unfold adopt_index, _apply_session_overrides. rewrite Hn1, Hn2, Hn3, Hn4. by destruct p. }
    destruct (rq_read_only rq).
    + unfold mbind, st_bind, st_lift, adopt_if_listed. rewrite Hr. by rewrite Ha.
    + unfold mbind, st_bind, st_lift, st_read. rewrite Hr. by rewrite Ha.
Qed.

Lemma finalized_committed rq e s : committed s → is_Ok (open_stats e) → is_Ok (open_rescore e) →
  (rq_identity rq ≠ i → ∃ x, value (finalized d rq e s) = Err x ∧ exn_class x = RuntimeError) ∧
  (rq_identity rq = i → rq_rescore rq = RescoreNone → rq_dtype rq = None → rq_oversample rq = None → rq_ann_nprobe rq = None →
     is_Ok (value (finalized d rq e s))).
Proof.
  intros Hs Hst Hr. destruct (finalize_committed rq e s Hs Hst Hr) as [Hno Hyes].
  assert (value (finalized d rq e s) = match (_finalize_open d s rq e).1 with Ok _ => Ok (_finalize_open d s rq e).2 | Err x => Err x end) as ->.
  { unfold finalized, mbind, io_bind, on_engine, lift. cbn. by destruct (_finalize_open d s rq e).1. }
  split.
  - intros Hne. destruct (Hno Hne) as (x & -> & Hx). eauto.
  - intros. rewrite Hyes by done. by eexists.
Qed.

(** The whole [_open], where the lock is free: in the mode of the log, or read-only. *)
Lemma open_committed o rq s : committed s → (∀ o t, committed t → is_Ok (value (open_engine d o t))) →
  eo_read_only o = true ∨ eo_commit_mode o = Wal →
  (rq_identity rq ≠ i → ∃ x, value (_open d o rq s) = Err x ∧ exn_class x = RuntimeError) ∧
  (rq_identity rq = i → rq_rescore rq = RescoreNone → rq_dtype rq = None → rq_oversample rq = None → rq_ann_nprobe rq = None →
     is_Ok (value (_open d o rq s))).
Proof.
  intros Hs Hopen Hmode. destruct (Hopen o s Hs) as [e He].
  pose proof (open_keeps d o s i Hs) as Hs'. destruct (opened_lists d o s i e Hs He) as [Hst Hr].
  assert (value (_open d o rq s) = value (finalized d rq e (final (open_engine d o s)))) as ->.
  { unfold _open, recover_wal. destruct Hmode as [-> | ->].
    - unfold mbind, io_bind. by rewrite He.
    - destruct (eo_read_only o); unfold mbind, io_bind; cbn; by rewrite He. }
  by apply finalized_committed.
Qed.
End reopen.

(** C29: a committed path opens with exactly the arguments that name the index it was created with. Where the
    compiled engine opens the path (so the lock is free), the open is read-only or commits to the log, and neither
    rescoring nor a probe count is asked for, [LodeDB(path, ...)] succeeds if and only if the
    arguments name the same preset, the same vector dimension and bit width, or the same custom model,
    dimension and bit width as those the path was created with; otherwise it raises [RuntimeError] (or its
    subclass for lock contention). Every preset and width stays apart from every other kind. The flags
    [store_text] and [index_text] are no part of the kind: they may differ from those the path was written
    with, although the documentation says they must match ([text_flags_not_compared]). *)
Theorem opens_with_same_kind {E : Type} {NO : NativeOpen E} {NH : NativeHost E} {NL : NativeHostLaws E}
    environ build_backend d (a b : init_args) (ra rb : resolved) s :
  resolve_init environ build_backend a = Ok ra → resolve_init environ build_backend b = Ok rb →
  value (_persisted_index_identity d s) = Ok (Some (resolved_identity ra)) → dir_exists s d = true →
  (∀ o t, value (_persisted_index_identity d t) = Ok (Some (resolved_identity ra)) → is_Ok (value (open_engine d o t))) →
  ia_read_only b = true ∨ cf_commit_mode (rv_config rb) = Wal →
  ia_rescore b = RescoreNone → ia_rescore_dtype b = None → requested_oversample b = None → requested_nprobe b = None →
  (kind_of b = kind_of a → is_Ok (value (LodeDB_init environ build_backend d b s))) ∧
  (kind_of b ≠ kind_of a → ∃ x, value (LodeDB_init environ build_backend d b s) = Err x ∧
     (exn_class x = RuntimeError ∨ exn_class x = ConcurrentWriterError)).
Proof.
  intros Ha Hb Hp Hd Hopen Hmode Hn1 Hn2 Hn3 Hn4.
  destruct (resolved_kind _ _ _ _ Ha) as (k & Hk & Hg & Hi & _), (resolved_kind _ _ _ _ Hb) as (k' & Hk' & Hg' & Hi' & Hro).
  assert (eo_read_only (options_of rb) = true ∨ eo_commit_mode (options_of rb) = Wal) as Hm by (cbn; by rewrite Hro).
  destruct (open_committed d (resolved_identity ra) (options_of rb) (request_of b rb) s Hp Hopen Hm) as [Hno Hyes].
  assert (value (LodeDB_init environ build_backend d b s) =
    match value (_open d (options_of rb) (request_of b rb) s) with
    | Ok e => Ok (rv_config rb, Db e "" 0) | Err x => Err (translate_open_error d x) end) as ->.
  { unfold LodeDB_init. rewrite Hb. unfold mbind, io_bind, is_dir, gets, mkdir_p. cbn.
    destruct (ia_read_only b); cbn; rewrite Hd; cbn; unfold _maybe_init_native_vector_engine, mbind, io_bind, attempt; cbn;
      destruct (value (_open d (options_of rb) (request_of b rb) s)); done. }
  rewrite Hk, Hk'. split.
  - intros [= ->]. destruct Hyes as [e ->]; [|done..|by eexists]. change (rq_identity _) with (resolved_identity rb). congruence.
  - intros Hne. destruct Hno as (x & -> & Hx).
    { change (rq_identity _) with (resolved_identity rb). intros Heq. apply Hne. f_equal.
      apply (kind_identity_inj _ _ Hg' Hg). congruence. }
    eexists. split; [done|]. unfold translate_open_error. destruct (_is_writer_lock_contention x); [by right|].
    unfold is_value_error. rewrite Hx. by left.
Qed.

(** An engine that writes nothing, over a path created for vectors of dimension 8. *)
Definition quiet_host : NativeHost (list string) := {| open_engine := λ _ _, mret []; host_writes := λ _ _ _, [] |}.

Lemma quiet_laws : @NativeHostLaws _ recorder quiet_host.
Proof.
  split.
  - intros d o s i H. exact H.
  - constructor.
  - intros d o s i e _ [= <-]. split; eexists; reflexivity.
Qed.

Definition vector_args : init_args :=
  Init PNone (PInt 8) None PNone (PInt 900) (PBool true) PNone AnnNone None None RescoreNone None None true false None None None.

Definition vector_disk : fsys :=
  FSys (<[ commit_manifest_path ["data"] sample_hash := File (document_bytes (build_commit_body sample_hash 3 2 0 0 None None None None)) true ]>
       {[ base_json_path ["data"] sample_hash 2 := File (utf8_encode (of_chars (json_text compact 0
          (dict_of [("schema_version", PInt 1); ("index_key", PStr sample_hash); ("model", PStr "external"); ("provider", PStr "external");
                    ("task", PStr "vector-only"); ("native_dim", PInt 8); ("storage_profile", PStr "turbovec_direct")])))) true ]}) {[ ["data"] ]}.

(** The same arguments, keeping no text. *)
Definition textless_args : init_args :=
  Init PNone (PInt 8) None PNone (PInt 900) (PBool false) (PBool false) AnnNone None None RescoreNone None None true false None None None.

Definition no_model (p : LocalModelPreset) : result EmbeddingBackend := Ok (Backend (λ _, Ok []) (λ _, Ok [])).

Lemma opens_with_same_kind_witness :
  is_Ok (value (@LodeDB_init _ recorder quiet_host ∅ no_model ["data"] vector_args vector_disk)) ∧
  ∃ x, value (@LodeDB_init _ recorder quiet_host ∅ no_model ["data"] default_args vector_disk) = Err x ∧
    (exn_class x = RuntimeError ∨ exn_class x = ConcurrentWriterError).
Proof.
  split.
  - refine (proj1 (@opens_with_same_kind _ recorder quiet_host quiet_laws ∅ no_model ["data"] vector_args vector_args _ _ vector_disk
      eq_refl eq_refl _ _ _ _ eq_refl eq_refl eq_refl eq_refl) eq_refl); [vm_compute; reflexivity|reflexivity|eauto|by right].
    intros o t _. by eexists.
  - refine (proj2 (@opens_with_same_kind _ recorder quiet_host quiet_laws ∅ no_model ["data"] vector_args default_args _ _ vector_disk
      eq_refl eq_refl _ _ _ _ eq_refl eq_refl eq_refl eq_refl) _); [vm_compute; reflexivity|reflexivity| |by right|by vm_compute].
    intros o t _. by eexists.
Defined.

(** A path written with its texts reopens without them. *)
Example text_flags_not_compared :
  let open a := (λ r, (cf_store_text r.1, cf_index_text r.1)) <$> value (@LodeDB_init _ recorder quiet_host ∅ no_model ["data"] a vector_disk) in
  open vector_args = Ok (true, true) ∧ open textless_args = Ok (false, false).
Proof. by vm_compute. Qed.
