(* ===== verification/HandleLife.v ===== *)
(** * The life of a native handle

    [local/db.py]: the proxy that routes every call to the worker thread the engine was opened on
    ([_ThreadConfinedNativeEngine]), closing and discarding ([_shutdown_native]), the finalizer
    of a handle that was never closed ([_shutdown_native_engine]) and the hook at interpreter exit
    ([_close_open_native_dbs_at_exit]). The compiled engine must be used and released on one
    thread only; [handle_life] records who holds it and [hl_log] on which thread it is touched.
    The operations are atomic: callers hold the operation lock, the worker runs one task at a time,
    and a finalizer runs when no call is under way. A task a finalizer gave up waiting for may run
    later, at any time. *)

From Stdlib Require Import Ascii String ZArith Lia SpecFloat.
From stdpp Require Import base strings list.
From S2P Require Import Prelude LocalDb.

Definition thread := nat.

(** What happens to the compiled engine, and on which thread. [Dropped] is its release. *)
Inductive engine_event := Called (t : thread) | Closed (t : thread) | Discarded (t : thread) | Dropped (t : thread).
Definition event_thread (e : engine_event) : thread :=
  match e with Called t | Closed t | Discarded t | Dropped t => t end.

Record handle_life := Life
  { hl_worker : thread;             (* the only thread of the executor *)
    hl_home : option thread;        (* [_native_engine_thread_id] *)
    hl_executor : bool;             (* [_native_executor] is set, and the proxy with it *)
    hl_accepts : bool;              (* the executor was not shut down *)
    hl_finalizer : bool;            (* [_native_finalizer] is alive *)
    hl_holder : bool;               (* the shared one-element holder is not empty *)
    hl_leaked : bool;               (* the engine is in [_LEAKED_NATIVE_ENGINES] *)
    hl_pending : nat;               (* [_drop_on_worker] submitted and not yet run *)
    hl_log : list engine_event }.

(** A handle as [_maybe_init_native_vector_engine] leaves it. *)
Definition opened_handle (w : thread) : handle_life := Life w (Some w) true true true true false 0 [].

Definition note_event (e : engine_event) (l : handle_life) : handle_life :=
  Life (hl_worker l) (hl_home l) (hl_executor l) (hl_accepts l) (hl_finalizer l) (hl_holder l) (hl_leaked l) (hl_pending l)
    (hl_log l ++ [e]).
Definition set_holder (b : bool) (l : handle_life) : handle_life :=
  Life (hl_worker l) (hl_home l) (hl_executor l) (hl_accepts l) (hl_finalizer l) b (hl_leaked l) (hl_pending l) (hl_log l).
Definition set_pending (n : nat) (l : handle_life) : handle_life :=
  Life (hl_worker l) (hl_home l) (hl_executor l) (hl_accepts l) (hl_finalizer l) (hl_holder l) (hl_leaked l) n (hl_log l).
Definition stop_executor (l : handle_life) : handle_life :=
  Life (hl_worker l) (hl_home l) (hl_executor l) false (hl_finalizer l) (hl_holder l) (hl_leaked l) (hl_pending l) (hl_log l).
(** [finalizer.detach()], or the finalizer having been called. *)
Definition detach (l : handle_life) : handle_life :=
  Life (hl_worker l) (hl_home l) (hl_executor l) (hl_accepts l) false (hl_holder l) (hl_leaked l) (hl_pending l) (hl_log l).
(** [_native_vector_engine = None], [_native_executor = None]. *)
Definition forget (l : handle_life) : handle_life :=
  Life (hl_worker l) (hl_home l) false (hl_accepts l) (hl_finalizer l) (hl_holder l) (hl_leaked l) (hl_pending l) (hl_log l).
(** [_LEAKED_NATIVE_ENGINES.extend(holder); holder.clear()]. *)
Definition park (l : handle_life) : handle_life :=
  Life (hl_worker l) (hl_home l) (hl_executor l) (hl_accepts l) (hl_finalizer l) false (hl_holder l || hl_leaked l) (hl_pending l) (hl_log l).

Definition on_home (t : thread) (l : handle_life) : bool := bool_decide (hl_home l = Some t).

(** ** Calls *)

(** [executor.submit(f).result()], and [f] inline on the worker itself. *)
Definition _run {A} (t : thread) (f : thread → st handle_life A) : st handle_life A := λ l,
  if on_home t l then f t l
  else if hl_accepts l then f (hl_worker l) l
  else (raise RuntimeError "cannot schedule new futures after shutdown", l).

(** A method of the engine, called through the proxy; [answer] is what the engine answers. *)
Definition engine_call {A} (answer : result A) (t : thread) : st handle_life A := λ l,
  if negb (hl_executor l) then (raise AttributeError "'NoneType' object has no attribute", l)
  else if hl_holder l then _run t (λ t l, (answer, note_event (Called t) l)) l
  else (raise IndexError "list index out of range", l).

(** ** Closing *)

(** [engine = holder.pop()], closed or discarded, its compiled half released whatever that says. *)
Definition _close_on_worker (persist : bool) (answer : result unit) (t : thread) : st handle_life unit := λ l,
  if hl_holder l
  then (answer, note_event (Dropped t) (note_event ((if persist then Closed else Discarded) t) (set_holder false l)))
  else (Ok tt, l).

Definition shutdown_failed (persist : bool) : string :=
  "native core " +:+ (if persist then "close" else "discard") +:+ " failed".

(** [holder.pop()] of the finalizer: the engine goes unless something else still holds it. *)
Definition _drop_on_worker (t : thread) (l : handle_life) : handle_life :=
  if hl_holder l then (if hl_leaked l then id else note_event (Dropped t)) (set_holder false l) else l.

(** What the worker has left runs before [shutdown(wait=True)] returns. *)
Fixpoint drain (n : nat) (l : handle_life) : handle_life :=
  match n with O => set_pending 0 l | S n => drain n (_drop_on_worker (hl_worker l) l) end.

Definition _shutdown_native (persist : bool) (answer : result unit) (t : thread) : st handle_life unit := λ l,
  if negb (hl_executor l) then (Ok tt, l)
  else
    let on_worker := on_home t l in
    let out := _run t (_close_on_worker persist answer) (forget (detach l)) in
    let l := stop_executor out.2 in
    let l := if on_worker then l else drain (hl_pending l) l in
    (match out.1 with Ok _ => Ok tt | Err _ => raise RuntimeError (shutdown_failed persist) end, l).

Definition close := _shutdown_native true.
Definition discard := _shutdown_native false.

(** ** The finalizer of a handle nobody closed *)

(** What becomes of the task the finalizer submits: it runs, it is not done within the wait, or
    the executor refuses it. *)
Inductive submission := Ran | Late | Refused.

Definition submit_drop (how : submission) (l : handle_life) : handle_life :=
  match (if hl_accepts l then how else Refused) with
  | Ran => _drop_on_worker (hl_worker l) l
  | Late => park (set_pending (S (hl_pending l)) l)
  | Refused => park l
  end.

Definition _shutdown_native_engine (finalizing : bool) (how : submission) (t : thread) (l : handle_life) : handle_life :=
  if negb (hl_holder l) then l
  else if on_home t l then stop_executor (_drop_on_worker t l)
  else match hl_home l with
       | None => park l
       | Some _ =>
           if finalizing
           then (match (if hl_accepts l then how else Refused) with
                 | Refused => park l
                 | _ => set_pending (S (hl_pending l)) l
                 end)
           else stop_executor (submit_drop how l)
       end.

(** [weakref.finalize] calls it once, unless it was detached. *)
Definition collected (finalizing : bool) (how : submission) (t : thread) (l : handle_life) : handle_life :=
  if hl_finalizer l then _shutdown_native_engine finalizing how t (detach l) else l.

(** The worker gets to a task that was left to it. *)
Definition worker_turn (l : handle_life) : handle_life :=
  match hl_pending l with O => l | S n => _drop_on_worker (hl_worker l) (set_pending n l) end.

(** ** Interpreter exit *)

(** An open handle with its [discard_at_exit], and what its engine answers when it is closed. *)
Record open_handle := OpenHandle { oh_discard : bool; oh_answer : result unit; oh_life : handle_life }.

Definition close_at_exit (t : thread) (h : open_handle) : open_handle :=
  OpenHandle (oh_discard h) (oh_answer h) ((if oh_discard h then discard else close) (oh_answer h) t (oh_life h)).2.
Definition _close_open_native_dbs_at_exit (t : thread) (dbs : list open_handle) : list open_handle := map (close_at_exit t) dbs.

(** Where the hook is armed: before the workers are joined, at exit, or not yet. *)
Inductive exit_hook := BeforeJoin | AtExit.
Definition _register_early_native_atexit (register : option (result unit)) (armed : list exit_hook * bool) : list exit_hook * bool :=
  if armed.2 then armed
  else match register with
       | Some (Ok _) => (armed.1 ++ [BeforeJoin], true)
       | Some (Err e) => if bool_decide (exn_class e = RuntimeError) then (armed.1 ++ [AtExit], true) else (armed.1, true)
       | None => (armed.1 ++ [AtExit], true)
       end.

(** ** A life *)

Inductive life_op :=
| OpCall (t : thread) (answer : result unit)
| OpShutdown (t : thread) (persist : bool) (answer : result unit)
| OpCollect (t : thread) (finalizing : bool) (how : submission)
| OpWorker.

Definition perform (o : life_op) (l : handle_life) : handle_life :=
  match o with
  | OpCall t answer => (engine_call answer t l).2
  | OpShutdown t persist answer => (_shutdown_native persist answer t l).2
  | OpCollect t finalizing how => collected finalizing how t l
  | OpWorker => worker_turn l
  end.
Definition live (ops : list life_op) (l : handle_life) : handle_life := fold_left (λ l o, perform o l) ops l.

(** The events of an engine: calls, then at most one ending. *)
Inductive ending := StillOpen | ClosedDown | ThrownAway | LetGo.
Definition ending_events (w : thread) (e : ending) : list engine_event :=
  match e with
  | StillOpen => []
  | ClosedDown => [Closed w; Dropped w]
  | ThrownAway => [Discarded w; Dropped w]
  | LetGo => [Dropped w]
  end.

(** ** The engine stays on its thread *)

(** Where the engine is: one place holds it until it is released, and what is released left the
    log with one ending. *)
Definition life_ok (w : thread) (l : handle_life) : Prop :=
  hl_worker l = w ∧ hl_home l = Some w ∧ (hl_holder l = true → hl_leaked l = false) ∧
  ∃ n e, hl_log l = replicate n (Called w) ++ ending_events w e ∧
         (e = StillOpen ↔ hl_holder l || hl_leaked l = true).

Lemma open_life_ok w : life_ok w (opened_handle w).
Proof. split_and!; [done..|]. by exists 0%nat, StillOpen. Qed.

(** Changes that move neither the engine nor the log. *)
Definition same_engine (l l' : handle_life) : Prop :=
  hl_worker l' = hl_worker l ∧ hl_home l' = hl_home l ∧ hl_holder l' = hl_holder l ∧ hl_leaked l' = hl_leaked l ∧ hl_log l' = hl_log l.
Lemma life_ok_same w l l' : same_engine l l' → life_ok w l → life_ok w l'.
Proof. intros (H1 & H2 & H3 & H4 & H5) H. unfold life_ok in *. by rewrite H1, H2, H3, H4, H5. Qed.
Lemma same_engine_refl l : same_engine l l.
Proof. done. Qed.

Lemma call_ok w l : life_ok w l → hl_holder l = true → life_ok w (note_event (Called w) l).
Proof.
  intros (Hw & Hh & Hx & n & e & Hl & He) Hold. split_and!; [done..|]. exists (S n), StillOpen.
  assert (e = StillOpen) as -> by (apply He; by rewrite Hold). cbn [note_event hl_log hl_holder hl_leaked ending_events] in *.
  rewrite Hl, !(right_id_L [] (++)). split; [by rewrite replicate_S_end|exact He].
Qed.

(** The engine leaves its holder for good. *)
Definition endings (l : list engine_event) (h : handle_life) : handle_life := fold_left (λ h ev, note_event ev h) l h.
Lemma ends_ok w l e : life_ok w l → hl_holder l = true → e ≠ StillOpen →
  life_ok w (endings (ending_events w e) (set_holder false l)).
Proof.
  intros (Hw & Hh & Hx & n & e' & Hl & He) Hold Hne. specialize (Hx Hold).
  assert (e' = StillOpen) as -> by (apply He; by rewrite Hold). cbn [ending_events] in Hl. rewrite (right_id_L [] (++)) in Hl.
  destruct e; [done| | |]; (split_and!; [done..|]); cbn; rewrite Hl, Hx, <-?(assoc_L (++)).
  - by exists n, ClosedDown.
  - by exists n, ThrownAway.
  - by exists n, LetGo.
Qed.

Lemma drop_ok w l : life_ok w l → life_ok w (_drop_on_worker w l).
Proof.
  intros H. unfold _drop_on_worker. destruct (hl_holder l) eqn:Hold; [|done].
  destruct H as (Hw & Hh & Hx & H). rewrite (Hx Hold). by apply (ends_ok w l LetGo).
Qed.
Lemma drop_same w l : same_engine l (_drop_on_worker w l) ∨ hl_holder l = true.
Proof. unfold _drop_on_worker. destruct (hl_holder l); [by right|by left]. Qed.

Lemma pending_ok w n l : life_ok w l → life_ok w (set_pending n l).
Proof. by apply life_ok_same. Qed.
Lemma drain_ok w n l : life_ok w l → life_ok w (drain n l).
Proof.
  revert l; induction n as [|n IH]; intros l H; cbn [drain]; [by apply pending_ok|]. apply IH.
  pose proof H as (Hw & _). rewrite Hw. by apply drop_ok.
Qed.
Lemma park_ok w l : life_ok w l → life_ok w (park l).
Proof.
  intros (Hw & Hh & Hx & n & e & Hl & He). split_and!; [done..|]. exists n, e. split; [done|]. by rewrite He.
Qed.

(** A task of the caller runs on the worker, or not at all. *)
Lemma run_ok {A} w t (f : thread → st handle_life A) l : life_ok w l → life_ok w (f w l).2 → life_ok w (_run t f l).2.
Proof.
  intros H Hf. unfold _run, on_home. pose proof H as (Hw & Hh & _). rewrite Hh, Hw. case_bool_decide as Ht.
  - injection Ht as <-. exact Hf.
  - by destruct (hl_accepts l).
Qed.

Lemma close_ok w persist answer l : life_ok w l → life_ok w (_close_on_worker persist answer w l).2.
Proof.
  intros H. unfold _close_on_worker. destruct (hl_holder l) eqn:Hold; [|done].
  destruct persist; [by apply (ends_ok w l ClosedDown)|by apply (ends_ok w l ThrownAway)].
Qed.

Lemma shutdown_ok w persist answer t l : life_ok w l → life_ok w (_shutdown_native persist answer t l).2.
Proof.
  intros H. unfold _shutdown_native. destruct (hl_executor l); [|done]. cbn [negb].
  assert (life_ok w (forget (detach l))) as H' by (by apply (life_ok_same w l)).
  pose proof (run_ok w t (_close_on_worker persist answer) _ H' (close_ok w persist answer _ H')) as Hr.
  destruct (_run t _ _) as [r l']. cbn [snd] in *.
  assert (life_ok w (stop_executor l')) as Hs by (by apply (life_ok_same w l')).
  destruct (on_home t l); [done|]. by apply drain_ok.
Qed.

Lemma submit_ok w how l : life_ok w l → life_ok w (submit_drop how l).
Proof.
  intros H. unfold submit_drop. destruct (if hl_accepts l then how else Refused).
  - pose proof H as (Hw & _). rewrite Hw. by apply drop_ok.
  - by apply park_ok, pending_ok.
  - by apply park_ok.
Qed.

Lemma collected_ok w finalizing how t l : life_ok w l → life_ok w (collected finalizing how t l).
Proof.
  intros H0. unfold collected. destruct (hl_finalizer l); [|done].
  assert (life_ok w (detach l)) as H by (by apply (life_ok_same w l)). revert H. generalize (detach l). clear l H0. intros l H.
  unfold _shutdown_native_engine, on_home. destruct (hl_holder l); [|done]. cbn [negb]. case_bool_decide as Ht.
  - apply (life_ok_same w (_drop_on_worker t l)); [done|]. pose proof H as (_ & Hh & _).
    rewrite Hh in Ht. injection Ht as <-. by apply drop_ok.
  - destruct (hl_home l); [|by apply park_ok]. destruct finalizing.
    + destruct (if hl_accepts l then how else Refused); [by apply pending_ok..|by apply park_ok].
    + apply (life_ok_same w (submit_drop how l)); [done|]. by apply submit_ok.
Qed.

Lemma perform_ok w o l : life_ok w l → life_ok w (perform o l).
Proof.
  intros H. destruct o as [t answer|t persist answer|t finalizing how|]; cbn [perform].
  - unfold engine_call. destruct (hl_executor l), (hl_holder l) eqn:Hold; cbn [negb]; try done.
    apply run_ok; [done|]. by apply call_ok.
  - by apply shutdown_ok.
  - by apply collected_ok.
  - unfold worker_turn. destruct (hl_pending l) as [|n]; [done|]. pose proof H as (Hw & _). rewrite Hw.
    by apply drop_ok, pending_ok.
Qed.

Lemma live_ok w ops l : life_ok w l → life_ok w (live ops l).
Proof. revert l; induction ops as [|o ops IH]; intros l H; [done|]. by apply IH, perform_ok. Qed.

(** *** Shutting down *)

(** After [close] or [discard] the handle answers nothing more, and nothing but the list of leaked
    engines can still hold the engine. *)
Definition shut (l : handle_life) : Prop := hl_executor l = false ∧ hl_accepts l = false ∧ hl_finalizer l = false.

Lemma drain_shut n l : shut l → shut (drain n l).
Proof. revert l; induction n as [|n IH]; intros l H; [done|]. apply IH. unfold _drop_on_worker. by repeat case_match. Qed.

Lemma shutdown_shut persist answer t l : hl_executor l = true → shut (_shutdown_native persist answer t l).2.
Proof.
  intros H. unfold _shutdown_native. rewrite H. cbn [negb].
  assert (∀ l', (_run t (_close_on_worker persist answer) (forget (detach l))).2 = l' → hl_executor l' = false ∧ hl_finalizer l' = false) as Hr.
  { intros l' <-. unfold _run, _close_on_worker. by repeat case_match. }
  destruct (_run t _ _) as [r l']. cbn [snd] in *. destruct (Hr l' eq_refl) as [H1 H2].
  destruct (on_home t l); [done|]. by apply drain_shut.
Qed.

(** A handle that can still be closed: its engine is in its holder, and the worker takes tasks. *)
Lemma shutdown_releases w persist answer t l : life_ok w l → hl_holder l = true → hl_executor l = true → hl_accepts l = true →
  ∃ n, (_shutdown_native persist answer t l).1 =
         (match answer with Ok _ => Ok tt | Err _ => raise RuntimeError (shutdown_failed persist) end) ∧
       hl_log (_shutdown_native persist answer t l).2
         = replicate n (Called w) ++ ending_events w (if persist then ClosedDown else ThrownAway) ∧
       hl_log l = replicate n (Called w).
Proof.
  intros (Hw & Hh & Hx & n & e & Hl & He) Hold Hex Ha. exists n. specialize (Hx Hold).
  assert (e = StillOpen) as -> by (apply He; by rewrite Hold). cbn [ending_events] in Hl. rewrite (right_id_L [] (++)) in Hl.
  assert (∀ l', hl_holder l' = false → ∀ k, hl_log (drain k l') = hl_log l') as Hdrain.
  { intros l' Hl' k. induction k as [|k IH]; [done|]. cbn [drain]. unfold _drop_on_worker. by rewrite Hl'. }
  unfold _shutdown_native, _run. rewrite Hex. cbn [negb].
  change (on_home t (forget (detach l))) with (on_home t l). change (hl_accepts (forget (detach l))) with (hl_accepts l). rewrite Ha.
  unfold on_home. rewrite Hh. case_bool_decide as Ht; [injection Ht as <-|];
    unfold _close_on_worker; cbn -[drain replicate]; rewrite ?Hold, ?Hw; (split_and!; [by destruct answer| |done]);
    rewrite ?Hdrain by done; cbn -[replicate]; rewrite Hl; by destruct persist; rewrite <-?(assoc_L (++)).
Qed.

(** Nothing happens to a handle that was shut and whose holder is empty. *)
Lemma quiet o l : hl_executor l = false → hl_holder l = false →
  let l' := perform o l in hl_executor l' = false ∧ hl_holder l' = false ∧ hl_log l' = hl_log l.
Proof.
  intros Hx Hh. destruct o as [t answer|t persist answer|t finalizing how|]; cbn [perform].
  - unfold engine_call. by rewrite Hx.
  - unfold _shutdown_native. by rewrite Hx.
  - unfold collected, _shutdown_native_engine. destruct (hl_finalizer l); [|done]. cbn [hl_holder detach]. by rewrite Hh.
  - unfold worker_turn, _drop_on_worker. destruct (hl_pending l); [done|]. cbn [hl_holder set_pending]. by rewrite Hh.
Qed.
Lemma quiet_life ops l : hl_executor l = false → hl_holder l = false →
  hl_executor (live ops l) = false ∧ hl_log (live ops l) = hl_log l.
Proof.
  revert l; induction ops as [|o ops IH]; intros l Hx Hh; [done|]. destruct (quiet o l Hx Hh) as (Hx' & Hh' & Hl).
  destruct (IH _ Hx' Hh') as [H1 H2]. split; [exact H1|]. cbn [live fold_left]. rewrite <-Hl. exact H2.
Qed.

Lemma events_on_thread w n e ev : ev ∈ replicate n (Called w) ++ ending_events w e → event_thread ev = w.
Proof.
  rewrite elem_of_app. intros [H|H]; [by apply elem_of_replicate in H as [-> _]|].
  destruct e; cbn in H; repeat (apply elem_of_cons in H as [->|H]; [done|]); by apply not_elem_of_nil in H.
Qed.

(** C15: whatever threads call, close, discard or collect a handle, in whatever order, whether tasks left to
    the worker run, come late or are refused, the compiled engine is touched and released on the
    thread it was opened on only; it is released at most once, after at most one close or discard, and is not touched after that; and
    as long as it is not released something still holds it. Closing an open handle closes the engine and releases it,
    discarding it never closes it, an error of the engine is reported after that, and the handle then refuses
    every call, whatever happens to it. *)
Theorem engine_stays_on_its_thread (w : thread) (ops : list life_op) : let l := live ops (opened_handle w) in
  (∀ ev, ev ∈ hl_log l → event_thread ev = w) ∧
  (∃ n e, hl_log l = replicate n (Called w) ++ ending_events w e ∧ (e = StillOpen ↔ hl_holder l || hl_leaked l = true)) ∧
  (∀ t persist answer, hl_executor l = true → hl_accepts l = true → hl_holder l = true →
     let out := _shutdown_native persist answer t l in
     out.1 = (match answer with Ok _ => Ok tt | Err _ => raise RuntimeError (shutdown_failed persist) end) ∧
     hl_log out.2 = hl_log l ++ (if persist then [Closed w; Dropped w] else [Discarded w; Dropped w]) ∧
     ∀ later, hl_log (live later out.2) = hl_log out.2 ∧
       ∀ t' (value : result unit), (engine_call value t' (live later out.2)).1
         = raise AttributeError "'NoneType' object has no attribute").
Proof.
  cbv zeta. pose proof (live_ok w ops _ (open_life_ok w)) as H. set (l := live ops (opened_handle w)) in *.
  destruct (H) as (_ & _ & _ & n & e & Hl & He). split_and!.
  - intros ev. rewrite Hl. apply events_on_thread.
  - by exists n, e.
  - intros t persist answer Hx Ha Hh. destruct (shutdown_releases w persist answer t l H Hh Hx Ha) as (m & H1 & H2 & H3).
    split; [exact H1|]. split; [rewrite H2, H3; by destruct persist|].
    pose proof (shutdown_ok w persist answer t l H) as (_ & _ & _ & m' & e' & Hl' & He').
    destruct (shutdown_shut persist answer t l Hx) as (Hx' & _ & _).
    assert (hl_holder (_shutdown_native persist answer t l).2 = false) as Hh'.
    { destruct (hl_holder (_shutdown_native persist answer t l).2) eqn:E; [|done]. assert (e' = StillOpen) as -> by by apply He'.
      assert (Dropped w ∈ hl_log (_shutdown_native persist answer t l).2) as Hin
        by (rewrite H2; destruct persist; apply elem_of_app; right; repeat constructor).
      rewrite Hl', elem_of_app in Hin. destruct Hin as [Hin|Hin]; [by apply elem_of_replicate in Hin as [? _]|by apply not_elem_of_nil in Hin]. }
    intros later. destruct (quiet_life later _ Hx' Hh') as [Hq1 Hq2]. split; [exact Hq2|].
    intros t' value. unfold engine_call. by rewrite Hq1.
Qed.

Lemma engine_stays_on_its_thread_witness : let l := live [OpCall 5 (Ok tt); OpCall 1 (Ok tt)] (opened_handle 1) in
  let out := _shutdown_native false (raise OSError "disk") 6 l in
  out.1 = raise RuntimeError "native core discard failed" ∧ hl_log out.2 = [Called 1; Called 1] ++ [Discarded 1; Dropped 1].
Proof.
  destruct (@engine_stays_on_its_thread 1%nat [OpCall 5 (Ok tt); OpCall 1 (Ok tt)]) as (_ & _ & H).
  destruct (H 6%nat false (raise OSError "disk") eq_refl eq_refl eq_refl) as (H1 & H2 & _). by split.
Defined.

(** The hook at interpreter exit leaves no handle open; what is to be discarded is never closed. *)
Theorem exit_leaves_no_handle_open (t : thread) (dbs : list open_handle) :
  Forall (λ h, hl_executor (oh_life h) = true) dbs →
  Forall (λ h, shut (oh_life h)) (_close_open_native_dbs_at_exit t dbs).
Proof.
  intros H. apply Forall_map. eapply Forall_impl; [exact H|]. intros h Hx. unfold close_at_exit. cbn [oh_life].
  destruct (oh_discard h); by apply shutdown_shut.
Qed.

(** ** On concrete data *)

(** Thread 2 calls and closes an engine opened on thread 1; a second close does nothing. *)
Example closed_from_afar : hl_log (live [OpCall 2 (Ok tt); OpShutdown 2 true (Ok tt); OpShutdown 3 false (Ok tt); OpWorker] (opened_handle 1))
  = [Called 1; Closed 1; Dropped 1].
Proof. reflexivity. Qed.
(** A finalizer that does not wait long enough parks the engine: the worker then finds nothing to release. *)
Example late_drop_is_parked : let l := live [OpCollect 7 false Late; OpWorker] (opened_handle 1) in
  hl_log l = [] ∧ hl_leaked l = true ∧ hl_holder l = false.
Proof. by vm_compute. Qed.
(** At interpreter exit the worker is given the task and may still release the engine. *)
Example exit_drop_runs : hl_log (live [OpCall 4 (Ok tt); OpCollect 7 true Ran; OpWorker] (opened_handle 1)) = [Called 1; Dropped 1].
Proof. reflexivity. Qed.
Example armed_once : _register_early_native_atexit (Some (Ok tt)) (_register_early_native_atexit (Some (raise RuntimeError "finalizing")) ([], false))
  = ([AtExit], true).
Proof. reflexivity. Qed.
