(* ===== verification/NativeAdapter.v ===== *)
(** * The native adapter

    [engine/native_adapter.py]: the calls on the compiled extension, which takes and answers JSON text and
    float32 arrays. The extension is the class [CoreEngine] (and [CoreAppender], [CoreCheckpointer]); the
    modules below are the handles of the source, method by method. What the extension promises about the
    text it is given is [CoreLaws]; against it the handle of an engine with the array calls is shown to be
    the engine LocalDb.v is proved against. *)

From Stdlib Require Import Ascii String ZArith Lia SpecFloat.
From stdpp Require Import base strings gmap sets list.
From S2P Require Import Prelude Numbers PyVal Json FileSys Predicate Topology EngineCore LocalOpen LocalDb LocalInit.

Local Open Scope Z_scope.

(** [json.dumps(payload, sort_keys=True, separators=(",", ":"))] *)
Definition _dumps (payload : pyval) : result string := dumps tight payload.
Definition dump_opt (payload : option pyval) : result (option string) :=
  match payload with None => Ok None | Some v => text ← _dumps v; Ok (Some text) end.

(** [np.ascontiguousarray(rows, dtype=np.float32)] *)
Definition f32_row : list spec_float → list spec_float := map to_float32.
Definition np_matrix (rows : list (list spec_float)) : result (list (list spec_float)) :=
  match rows with
  | [] => Ok []
  | r :: rs =>
      if forallb (λ q, Nat.eqb (length q) (length r)) rs then Ok (map f32_row rows)
      else raise ValueError "setting an array element with a sequence. The requested array has an inhomogeneous shape."
  end.

(** ** The compiled extension *)

(** Methods the source looks up with [getattr] are options. *)
Class CoreEngine (X : Type) := {
  core_create_index : string → Z → Z → st X unit;
  core_create_index_with_options : string → st X unit;
  core_index_options : string → X → result string;
  core_set_session_overrides : string → option Z → option spec_float → st X unit;
  core_upsert_vectors : string → string → st X string;
  core_upsert_vectors_array : option (string → list (list spec_float) → string → st X string);
  core_delete_documents : string → string → st X string;
  core_update_document_payload : string → string → option string → option string → st X string;
  core_upsert_multivector : string → list (list spec_float) → bytes → string → st X string;
  core_query_multivector : string → list (list spec_float) → Z → option string → X → result string;
  core_query_vector : string → string → Z → option string → X → result string;
  core_query_vector_array : option (string → list spec_float → Z → option string → X → result string);
  core_query_vectors_batch : string → string → Z → option string → X → result string;
  core_query_vectors_batch_array : option (string → list (list spec_float) → Z → option string → X → result string);
  core_query_vectors_batch_array_out :
    option (string → list (list spec_float) → Z → option string → bool → X → result (list spec_float * list string * string * Z));
  core_prepare_text_upsert : string → string → bool → bool → Z → st X string;
  core_apply_text_upsert : string → string → spec_float → st X string;
  core_apply_text_upsert_array : option (string → list (list spec_float) → spec_float → st X string);
  core_prepare_query_text : string → string → X → result string;
  core_search_embedded_text : string → string → option string → Z → option string → X → result string;
  core_search_embedded_text_array : option (string → string → list spec_float → Z → option string → X → result string);
  core_search_embedded_text_batch : string → string → option (list (list spec_float)) → Z → option string → X → result string;
  core_stats : string → X → result string;
  core_get_document_text : string → string → X → result string;
  core_get_document_texts : string → string → X → result string;
  core_get_vectors : string → string → X → result string;
  core_get_document : string → string → X → result string;
  core_list_documents : string → option string → option string → option Z → X → result string;
  core_persist : st X unit;
  core_ann_warm : string → st X bool;
  core_compact : string → st X unit;
  core_refresh : st X unit;
  core_applied_lsn : string → X → result Z;
  core_fold_wal_segment : string → bytes → Z → st X Z;
  core_close : st X unit;
  core_discard : st X unit }.

Class CoreAppender (A : Type) := {
  raw_append_vectors : string → st A Z;
  raw_append_deletes : string → st A Z;
  raw_prepare_documents : string → st A string;
  raw_append_embedded_documents : string → string → st A Z }.

Class CoreCheckpointer (K : Type) := { raw_checkpoint : st K Z }.

(** The hidden module. *)
Class CoreModule (X A K : Type) := {
  new_core_engine : X;
  core_engine_open : string → io X;
  core_engine_open_readonly : string → string → io X;
  core_appender_open : string → io A;
  core_checkpointer_open : string → io K;
  native_cuda_runtime_available : bool;
  native_core_abi_version : Z;
  native_core_version : string;
  round_trip_core_json : string → string → result string }.

(** ** Payloads *)

Definition metadata_payload (m : meta) : pyval := PDict (meta_dict m).
Definition opt_text (t : option string) : pyval := match t with Some s => PStr s | None => PNone end.
Definition floats (v : list spec_float) : pyval := PList (map PFloat v).
Definition strings (l : list string) : pyval := PList (map PStr l).

Record EngineQuery := Query
  { eq_text : string; eq_top_k : Z; eq_filter : option pydict; eq_include : list string; eq_route_drifted : bool; eq_route_failed : bool;
    eq_high_risk : bool; eq_mode : string; eq_embedding : option (list spec_float) }.
Record EngineResponse := Response { er_status_code : Z; er_body : pydict }.
Record NativeCoreError := CoreErr { ne_code : string; ne_message : string }.

Module NativeCoreAdapter.
Definition document_payload (d : EngineDocument) : pyval :=
  dict_of [("document_id", PStr (ed_id d)); ("text", PStr (ed_text d)); ("metadata", metadata_payload (ed_metadata d))].

Definition vector_document_payload (d : EngineVectorDocument) : pyval :=
  dict_of [("document_id", PStr (ev_id d)); ("vector", floats (ev_vector d)); ("metadata", metadata_payload (ev_metadata d));
           ("text", opt_text (ev_text d))].

Definition query_payload (q : EngineQuery) : pyval :=
  dict_of [("text", PStr (eq_text q)); ("top_k", PInt (eq_top_k q));
           ("filter", match eq_filter q with Some d => PDict d | None => PNone end);
           ("include", strings (eq_include q)); ("mode", PStr (eq_mode q));
           ("embedding", match eq_embedding q with Some v => floats v | None => PNone end)].

Definition document_json (d : EngineDocument) : result string := dumps tight (document_payload d).
Definition vector_document_json (d : EngineVectorDocument) : result string := dumps tight (vector_document_payload d).
Definition query_json (q : EngineQuery) : result string := dumps tight (query_payload q).

(** The keyword arguments of an open. *)
Record open_args := OpenArgs
  { oa_path : path; oa_read_only : bool; oa_durability : string; oa_commit_mode : string; oa_store_text : bool;
    oa_index_text : bool; oa_chunk_character_limit : Z; oa_compression : bool; oa_acquire_writer_lock : bool }.

Definition open_options_payload (a : open_args) : pyval :=
  dict_of [("path", PStr (str_join "/" (reverse (oa_path a)))); ("read_only", PBool (oa_read_only a));
           ("durability", PStr (oa_durability a)); ("commit_mode", PStr (oa_commit_mode a));
           ("store_text", PBool (oa_store_text a)); ("index_text", PBool (oa_index_text a));
           ("compress_text", PBool (oa_compression a)); ("chunk_character_limit", PInt (oa_chunk_character_limit a));
           ("acquire_writer_lock", PBool (oa_acquire_writer_lock a && negb (oa_read_only a)))].

Definition index_create_options_payload (index_id index_key client_id_hash name model provider task route_profile storage_profile : string)
    (vector_dim bit_width : Z) : pyval :=
  dict_of [("index_id", PStr index_id); ("index_key", PStr index_key); ("client_id_hash", PStr client_id_hash); ("name", PStr name);
           ("model", PStr model); ("provider", PStr provider); ("task", PStr task); ("route_profile", PStr route_profile);
           ("storage_profile", PStr storage_profile); ("vector_dim", PInt vector_dim); ("bit_width", PInt bit_width)].

Definition response_from_native (status_code : Z) (payload : pydict) : EngineResponse := Response status_code payload.

Definition response_from_error (error : NativeCoreError) : EngineResponse :=
  let status_code := if bool_decide (ne_code error = "NOT_FOUND") then 404 else 400 in
  let status_code := if str_in (ne_code error) ["CORRUPT_STORE"; "INTERNAL"] then 500 else status_code in
  Response status_code [(PStr "status", PStr "error"); (PStr "error", PStr (ne_message error)); (PStr "native_core_error", PStr (ne_code error))].

Section adapter.
Context {X A K : Type} {CM : CoreModule X A K}.
(** Whether the extension can be imported. *)
Context (importable : bool).

Definition _require_module : result unit :=
  if importable then Ok tt else raise RuntimeError "native core extension is not available".
Definition available : bool := importable.
Definition version : string := if importable then native_core_version else "".
Definition abi_version : Z := if importable then native_core_abi_version else 0.
Definition cuda_runtime_available : bool := importable && native_cuda_runtime_available.

Definition round_trip (type_name : string) (payload : pydict) : result pyval :=
  _ ← _require_module;
  encoded ← dumps tight (PDict payload);
  text ← round_trip_core_json type_name encoded;
  loads text.

Definition new_engine : result X := _ ← _require_module; Ok new_core_engine.

Definition open_engine (a : open_args) : io X :=
  _ ← lift _require_module;
  options ← lift (_dumps (open_options_payload a));
  core_engine_open options.

Definition open_readonly_engine (a : open_args) : io X :=
  _ ← lift _require_module;
  options ← lift (_dumps (open_options_payload
    (OpenArgs (oa_path a) true (oa_durability a) (oa_commit_mode a) (oa_store_text a) (oa_index_text a)
       (oa_chunk_character_limit a) (oa_compression a) true)));
  core_engine_open_readonly (str_join "/" (reverse (oa_path a))) options.

(** The log is all an appender writes, so the commit mode is WAL; [compression] keeps its default. *)
Definition open_appender (p : path) (durability : string) (store_text index_text acquire_writer_lock : bool)
    (chunk_character_limit : Z) : io A :=
  _ ← lift _require_module;
  options ← lift (_dumps (open_options_payload
    (OpenArgs p false durability "wal" store_text index_text chunk_character_limit true acquire_writer_lock)));
  core_appender_open options.

Definition open_checkpointer (p : path) (durability : string) (store_text index_text : bool) (chunk_character_limit : Z) : io K :=
  _ ← lift _require_module;
  options ← lift (_dumps (open_options_payload
    (OpenArgs p false durability "wal" store_text index_text chunk_character_limit true false)));
  core_checkpointer_open options.
End adapter.
End NativeCoreAdapter.

(** ** The engine handle *)

Definition sidecar_payload (s : sidecar_entry) : pyval :=
  dict_of [("document_id", PStr (sc_id s)); ("metadata", metadata_payload (sc_metadata s)); ("text", opt_text (sc_text s))].

(** A document with its patch matrix. *)
Record multivector_document := Multivector
  { mv_id : string; mv_vector : list spec_float; mv_metadata : meta; mv_dtype : string; mv_patch_count : Z; mv_patch_bytes : bytes }.
Definition multivector_payload (d : multivector_document) : pyval :=
  dict_of [("document_id", PStr (mv_id d)); ("metadata", metadata_payload (mv_metadata d)); ("dtype", PStr (mv_dtype d));
           ("patch_count", PInt (mv_patch_count d)); ("nbytes", PInt (Z.of_nat (slen (mv_patch_bytes d))))].

Definition non_object {A} : result A := raise RuntimeError "native core returned a non-object JSON payload".
Definition _loads (payload : string) : result pydict := value ← loads payload; match value with PDict d => Ok d | _ => non_object end.
Definition _loads_native_payload (payload : string) : result NativeCorePayload := d ← _loads payload; Ok (Payload d payload).
(** A list of objects. *)
Definition loads_list (what payload : string) : result (list pydict) :=
  value ← loads payload;
  match value with
  | PList l => mapR py_dict l
  | _ => raise RuntimeError ("native core returned a non-list " +:+ what)
  end.

Definition filter_json (filter : option pydict) : result (option string) := dump_opt (PDict <$> filter).

Module NativeCoreEngineHandle.
Section handle.
Context {X : Type} {CE : CoreEngine X}.

(** A call that changes the engine, and the object it answers. *)
Definition answered (m : st X string) : st X pydict := raw ← m; st_lift (_loads raw).

Definition create_index (index_id : string) (vector_dim bit_width : Z) : st X unit := core_create_index index_id vector_dim bit_width.
Definition create_index_with_options (options : pydict) : st X unit :=
  text ← st_lift (_dumps (PDict options)); core_create_index_with_options text.
Definition index_options (index_id : string) (e : X) : result pydict := raw ← core_index_options index_id e; _loads raw.
Definition set_session_overrides (index_id : string) (ann_nprobe : option Z) (rescore_oversample : option spec_float) : st X unit :=
  core_set_session_overrides index_id ann_nprobe rescore_oversample.

Definition upsert_vectors_json (index_id : string) (documents : list EngineVectorDocument) : st X pydict :=
  text ← st_lift (_dumps (PList (map NativeCoreAdapter.vector_document_payload documents)));
  answered (core_upsert_vectors index_id text).

Definition upsert_vectors (index_id : string) (documents : list EngineVectorDocument) : st X pydict :=
  match core_upsert_vectors_array, documents with
  | Some array_upsert, _ :: _ =>
      matrix ← st_lift (np_matrix (map ev_vector documents));
      text ← st_lift (_dumps (PList (map (λ d, sidecar_payload (sidecar_of d)) documents)));
      answered (array_upsert index_id matrix text)
  | _, _ => upsert_vectors_json index_id documents
  end.

(** [zip(sidecar, rows, strict=True)] *)
Definition zip_documents (sidecar : list sidecar_entry) (rows : list (list spec_float)) : result (list EngineVectorDocument) :=
  if Nat.eqb (length sidecar) (length rows)
  then Ok (zip_with (λ s row, EngineVec (sc_id s) row (sc_metadata s) (sc_text s)) sidecar rows)
  else raise ValueError "zip() argument 2 has a different length than argument 1".

Definition upsert_vectors_matrix (index_id : string) (matrix : list (list spec_float)) (sidecar : list sidecar_entry) : st X pydict :=
  match core_upsert_vectors_array with
  | Some array_upsert =>
      text ← st_lift (_dumps (PList (map sidecar_payload sidecar)));
      answered (array_upsert index_id (map f32_row matrix) text)
  | None => documents ← st_lift (zip_documents sidecar matrix); upsert_vectors index_id documents
  end.

Definition delete_documents (index_id : string) (document_ids : list string) : st X pydict :=
  text ← st_lift (_dumps (strings document_ids));
  answered (core_delete_documents index_id text).

Definition update_document_payload (index_id document_id : string) (metadata : option meta) (text : option string) (clear_text : bool)
    : st X pydict :=
  metadata_json ← st_lift (dump_opt (metadata_payload <$> metadata));
  text_json ← st_lift (dump_opt (if clear_text then Some PNone else PStr <$> text));
  answered (core_update_document_payload index_id document_id metadata_json text_json).

Definition upsert_multivector (index_id : string) (documents : list multivector_document) : st X pydict :=
  matrix ← st_lift (np_matrix (map mv_vector documents));
  text ← st_lift (_dumps (PList (map multivector_payload documents)));
  answered (core_upsert_multivector index_id matrix (str_join "" (map mv_patch_bytes documents)) text).

Definition query_multivector (index_id : string) (query : list (list spec_float)) (top_k : Z) (filter : option pydict) (e : X) : result pydict :=
  matrix ← np_matrix query;
  f ← filter_json filter;
  raw ← core_query_multivector index_id matrix top_k f e;
  _loads raw.

Definition query_vector (index_id : string) (vector : list spec_float) (top_k : Z) (filter : option pydict) (e : X) : result pydict :=
  f ← filter_json filter;
  raw ← match core_query_vector_array with
        | Some array_query => array_query index_id (f32_row vector) top_k f e
        | None => text ← _dumps (floats vector); core_query_vector index_id text top_k f e
        end;
  _loads raw.

Definition query_vectors_batch (index_id : string) (vectors : list (list spec_float)) (top_k : Z) (filter : option pydict) (e : X)
    : result (list pydict) :=
  f ← filter_json filter;
  match core_query_vectors_batch_array, vectors with
  | Some _, [] => Ok []
  | Some array_batch, _ =>
      matrix ← np_matrix vectors;
      raw ← array_batch index_id matrix top_k f e;
      loads_list "JSON payload" raw
  | None, _ =>
      text ← _dumps (PList (map floats vectors));
      raw ← core_query_vectors_batch index_id text top_k f e;
      loads_list "JSON payload" raw
  end.

(** Scores, ids, metadata and the hits per query; nothing where the caller has to use the JSON path. *)
Definition query_vectors_batch_arrays (index_id : string) (vectors : list (list spec_float)) (top_k : Z) (filter : option pydict)
    (want_metadata : bool) (e : X) : result (option (list spec_float * list string * list pyval * Z)) :=
  match core_query_vectors_batch_array_out with
  | None => Ok None
  | Some array_out =>
      matrix ← np_matrix vectors;
      match matrix with
      | [] => Ok None
      | _ =>
          f ← filter_json filter;
          out ← array_out index_id matrix top_k f want_metadata e;
          let '(scores, ids, metadata_json, k) := out in
          metadata ← (if want_metadata && negb (bool_decide (metadata_json = ""))
                      then v ← loads metadata_json; py_iter v else Ok []);
          Ok (Some (scores, ids, metadata, k))
      end
  end.

Definition prepare_text_upsert (index_id : string) (documents : list EngineDocument) (store_text index_text : bool)
    (chunk_character_limit : Z) : st X NativeCorePayload :=
  text ← st_lift (_dumps (PList (map NativeCoreAdapter.document_payload documents)));
  plan_json ← core_prepare_text_upsert index_id text store_text index_text chunk_character_limit;
  st_lift (_loads_native_payload plan_json).

(** A plan of the engine is sent back as the text it came from. *)
Definition apply_text_upsert (plan : NativeCorePayload) (embeddings : list (list spec_float)) (embedding_time_ms : spec_float) : st X pydict :=
  match core_apply_text_upsert_array with
  | Some array_apply =>
      matrix ← st_lift (np_matrix embeddings);
      answered (array_apply (native_json plan) matrix embedding_time_ms)
  | None =>
      text ← st_lift (_dumps (PList (map floats embeddings)));
      answered (core_apply_text_upsert (native_json plan) text embedding_time_ms)
  end.

Definition prepare_query_text (query mode : string) (e : X) : result NativeCorePayload :=
  raw ← core_prepare_query_text query mode e; _loads_native_payload raw.

Definition _search_embedded_text_json (index_id query_plan_json : string) (query_embedding : option (list spec_float)) (top_k : Z)
    (filter : option pydict) (e : X) : result pydict :=
  match query_embedding, core_search_embedded_text_array with
  | Some v, Some array_search =>
      f ← filter_json filter;
      raw ← array_search index_id query_plan_json (f32_row v) top_k f e;
      _loads raw
  | _, _ =>
      q ← dump_opt (floats <$> query_embedding);
      f ← filter_json filter;
      raw ← core_search_embedded_text index_id query_plan_json q top_k f e;
      _loads raw
  end.

Definition search_embedded_text (index_id : string) (query_plan : NativeCorePayload) (query_embedding : option (list spec_float))
    (top_k : Z) (filter : option pydict) (e : X) : result pydict :=
  _search_embedded_text_json index_id (native_json query_plan) query_embedding top_k filter e.

Definition query_plan (query mode : string) : pyval :=
  dict_of [("query", PStr query); ("mode", PStr mode); ("query_tokens", PList []); ("requires_embedding", PBool (str_in mode ["vector"; "hybrid"]))].

Definition search_text (index_id query mode : string) (query_embedding : option (list spec_float)) (top_k : Z) (filter : option pydict)
    (e : X) : result pydict :=
  query_plan_json ← _dumps (query_plan query mode);
  _search_embedded_text_json index_id query_plan_json query_embedding top_k filter e.

Definition search_text_batch (index_id : string) (queries : list string) (mode : string) (query_embeddings : option (list (list spec_float)))
    (top_k : Z) (filter : option pydict) (e : X) : result (list pydict) :=
  plans_json ← _dumps (PList (map (λ q, query_plan q mode) queries));
  f ← filter_json filter;
  matrix ← match query_embeddings with Some m => m' ← np_matrix m; Ok (Some m') | None => Ok None end;
  payload ← core_search_embedded_text_batch index_id plans_json matrix top_k f e;
  loads_list "batch text payload" payload.

Definition stats (index_id : string) (e : X) : result pydict := raw ← core_stats index_id e; _loads raw.

Definition get_document_text (index_id document_id : string) (e : X) : result (option string) :=
  raw ← core_get_document_text index_id document_id e;
  value ← loads raw;
  match value with
  | PNone => Ok None
  | PStr s => Ok (Some s)
  | _ => raise RuntimeError "native core returned a non-string document text payload"
  end.

Definition get_document_texts (index_id : string) (document_ids : list string) (e : X) : result (list (string * string)) :=
  text ← _dumps (strings document_ids);
  raw ← core_get_document_texts index_id text e;
  value ← loads raw;
  match value with
  | PDict d => Ok (map (λ kv, (py_str kv.1, py_str kv.2)) d)
  | _ => raise RuntimeError "native core returned a non-object text map payload"
  end.

Definition get_vectors (index_id : string) (ids : list string) (e : X) : result (list pydict) :=
  text ← _dumps (strings ids);
  raw ← core_get_vectors index_id text e;
  loads_list "vector payload" raw.

Definition get_document (index_id document_id : string) (e : X) : result (option pydict) :=
  raw ← core_get_document index_id document_id e;
  value ← loads raw;
  match value with
  | PNone => Ok None
  | PDict d => Ok (Some d)
  | _ => raise RuntimeError "native core returned a non-object document payload"
  end.

Definition list_documents (index_id : string) (filter : option pydict) (after : option string) (limit : option Z) (e : X)
    : result (list pydict) :=
  f ← filter_json filter;
  raw ← core_list_documents index_id f after limit e;
  loads_list "document payload" raw.

Definition persist : st X unit := core_persist.
Definition ann_warm (index_id : string) : st X bool := core_ann_warm index_id.
Definition compact (index_id : string) : st X unit := core_compact index_id.
Definition refresh : st X unit := core_refresh.
Definition applied_lsn (index_id : string) (e : X) : result Z := core_applied_lsn index_id e.
Definition fold_wal_segment (index_id : string) (segment : bytes) (first_lsn : Z) : st X Z := core_fold_wal_segment index_id segment first_lsn.
Definition close : st X unit := core_close.
Definition discard : st X unit := core_discard.
End handle.
End NativeCoreEngineHandle.

(** ** The appender and checkpointer handles *)

Module NativeCoreAppenderHandle.
Section handle.
Context {A : Type} {CA : CoreAppender A}.

Definition append_vectors (documents : list EngineVectorDocument) : st A Z :=
  text ← st_lift (_dumps (PList (map NativeCoreAdapter.vector_document_payload documents)));
  raw_append_vectors text.
Definition append_deletes (document_ids : list string) : st A Z :=
  text ← st_lift (_dumps (strings document_ids)); raw_append_deletes text.

(** [NativeCorePayload(json.loads(plan_json), native_json=plan_json)] *)
Definition prepare_documents (documents : list EngineDocument) : st A NativeCorePayload :=
  text ← st_lift (_dumps (PList (map NativeCoreAdapter.document_payload documents)));
  plan_json ← raw_prepare_documents text;
  st_lift (v ← loads plan_json; d ← py_dict v; Ok (Payload d plan_json)).
Definition append_embedded_documents (plan : NativeCorePayload) (embeddings : list (list spec_float)) : st A Z :=
  text ← st_lift (_dumps (PList (map floats embeddings)));
  raw_append_embedded_documents (native_json plan) text.
End handle.
End NativeCoreAppenderHandle.

Module NativeCoreCheckpointerHandle.
Section handle.
Context {K : Type} {CK : CoreCheckpointer K}.

(** The handle is gone once closed. *)
Definition checkpoint : st (option K) Z := λ k,
  match k with
  | None => (raise RuntimeError "checkpointer is closed", None)
  | Some k => let '(r, k') := raw_checkpoint k in (r, Some k')
  end.
Definition close : st (option K) unit := λ _, (Ok tt, None).
End handle.
End NativeCoreCheckpointerHandle.

(** ** The engine of the local database *)

Section instance.
Context {X : Type} {CE : CoreEngine X}.
(** The measured time that goes with a batch of embeddings. *)
Context (embedding_time_ms : spec_float).
Local Notation index := _LOCAL_INDEX_ID.

(** The array answer as the database reads it. *)
Definition arrays_of (a : list spec_float * list string * list pyval * Z) : result native_arrays :=
  let '(scores, ids, metadata, k) := a in
  metadata ← mapR py_dict metadata; Ok (Arrays scores ids metadata (Z.to_nat k)).

Definition void (m : st X pydict) : st X unit := _ ← m; mret tt.

Definition adapter_engine : NativeEngine X := {|
  LocalDb.prepare_text_upsert := NativeCoreEngineHandle.prepare_text_upsert index;
  LocalDb.apply_text_upsert := λ plan embeddings, void (NativeCoreEngineHandle.apply_text_upsert plan embeddings embedding_time_ms);
  LocalDb.upsert_vectors := λ documents, void (NativeCoreEngineHandle.upsert_vectors index documents);
  LocalDb.upsert_vectors_matrix := λ matrix sidecar, void (NativeCoreEngineHandle.upsert_vectors_matrix index matrix sidecar);
  LocalDb.delete_documents := λ ids, d ← NativeCoreEngineHandle.delete_documents index ids; mret (PDict d);
  LocalDb.update_document_payload := λ id metadata text clear,
    void (NativeCoreEngineHandle.update_document_payload index id metadata text clear);
  LocalDb.query_vector := λ v k f e, PDict <$> NativeCoreEngineHandle.query_vector index v k f e;
  LocalDb.query_vectors_batch := λ v k f e, map PDict <$> NativeCoreEngineHandle.query_vectors_batch index v k f e;
  LocalDb.query_vectors_batch_arrays := Some (λ v k f want e,
    a ← NativeCoreEngineHandle.query_vectors_batch_arrays index v k f want e;
    match a with Some a => a ← arrays_of a; Ok (Some a) | None => Ok None end);
  LocalDb.search_text := λ q mode emb k f e, PDict <$> NativeCoreEngineHandle.search_text index q mode emb k f e;
  LocalDb.search_text_batch := λ qs mode emb k f e, map PDict <$> NativeCoreEngineHandle.search_text_batch index qs mode emb k f e;
  LocalDb.get_document_text := NativeCoreEngineHandle.get_document_text index;
  LocalDb.get_document_texts := NativeCoreEngineHandle.get_document_texts index;
  LocalDb.native_get_document := NativeCoreEngineHandle.get_document index;
  LocalDb.native_list_documents := NativeCoreEngineHandle.list_documents index;
  LocalDb.native_stats := λ e, PDict <$> NativeCoreEngineHandle.stats index e;
  LocalDb.engine_persist := NativeCoreEngineHandle.persist |}.
End instance.

(** ** What the extension promises *)

(** How the extension reads the objects it is sent. *)
Definition read_meta (v : pyval) : option meta := match v with PDict d => Some (dict_meta d) | _ => None end.
Definition read_str (v : pyval) : option string := match v with PStr s => Some s | _ => None end.
Definition read_opt_text (v : pyval) : option (option string) := match v with PNone => Some None | PStr s => Some (Some s) | _ => None end.

Definition read_document (v : pyval) : option EngineDocument :=
  match v with
  | PDict d => id ← dict_get "document_id" d ≫= read_str; text ← dict_get "text" d ≫= read_str;
               metadata ← dict_get "metadata" d ≫= read_meta; Some (EngineDoc id text metadata)
  | _ => None
  end.
Definition read_sidecar (v : pyval) : option sidecar_entry :=
  match v with
  | PDict d => id ← dict_get "document_id" d ≫= read_str; metadata ← dict_get "metadata" d ≫= read_meta;
               text ← dict_get "text" d ≫= read_opt_text; Some (Sidecar id metadata text)
  | _ => None
  end.

Definition read_list {T} (read : pyval → option T) (text : string) : option (list T) :=
  match loads text with Ok (PList l) => mapM read l | _ => None end.
(** The metadata filter of a filter text. *)
Definition read_filter (text : string) : option pyval :=
  match loads text with Ok (PDict d) => dict_get "metadata" d | _ => None end.

(** The answer is an object. *)
Definition object (r : result string) : Prop := ∃ t d, r = Ok t ∧ loads t = Ok (PDict d).
Definition object_is (r : result string) (P : pydict → Prop) : Prop := ∃ t d, r = Ok t ∧ loads t = Ok (PDict d) ∧ P d.

Section laws.
Context {X : Type} {CE : CoreEngine X} {NV : NativeView X}.
Context (c : LodeConfig) (embedding_time_ms : spec_float).
Local Notation index := _LOCAL_INDEX_ID.
Local Notation prepare text e := (core_prepare_text_upsert index text (cf_store_text c) (cf_index_text c) (cf_chunk_limit c) e).

(** Documents are applied in order, up to the one that fails when it fails. *)
Definition core_upserts {T} (put : list T → gmap string native_doc → gmap string native_doc) (l : list T) (e : X) (out : result string * X) : Prop :=
  (∃ n, collection out.2 = put (take n l) (collection e)) ∧ (is_Ok out.1 → collection out.2 = put l (collection e)).

Class CoreLaws : Prop := {
  coord_float32 f : coord_ok f = true → coord_ok (to_float32 f) = true;
  core_persist_law e : ∃ e', core_persist e = (Ok tt, e') ∧ collection e' = collection e;
  core_prepare_keeps text e : collection (prepare text e).2 = collection e;
  core_prepare_law text l e : read_list read_document text = Some l → 0 < cf_chunk_limit c →
    Forall (λ d, is_blank (ed_id d) = false ∧ is_blank (ed_text d) = false) l →
    object_is (prepare text e).1 (λ plan, is_Ok (chunks_to_embed plan));
  (** An engine with the array calls. *)
  core_apply_array : ∃ call, core_apply_text_upsert_array = Some call ∧
    ∀ text l plan_text plan e e' embeddings, read_list read_document text = Some l → prepare text e = (Ok plan_text, e') →
      loads plan_text = Ok (PDict plan) →
      core_upserts (put_texts (cf_store_text c)) l e' (call plan_text embeddings embedding_time_ms e') ∧
      (NoDup (map ed_id l) → (∃ chunks, chunks_to_embed plan = Ok chunks ∧ length embeddings = length chunks) →
       Forall (vector_ok (cf_vector_dim c)) embeddings → object (call plan_text embeddings embedding_time_ms e').1);
  core_upsert_array : ∃ call, core_upsert_vectors_array = Some call ∧
    ∀ matrix text l e, read_list read_sidecar text = Some l → length matrix = length l →
      core_upserts (put_sidecars (cf_store_text c)) l e (call index matrix text e) ∧
      (Forall (λ s, is_blank (sc_id s) = false) l → Forall (vector_ok (cf_vector_dim c)) matrix → object (call index matrix text e).1);
  (** No documents are none in either call. *)
  core_upsert_nothing text e : read_list Some text = Some [] →
    collection (core_upsert_vectors index text e).2 = collection e ∧ object (core_upsert_vectors index text e).1;
  core_delete_law text id e : read_list read_str text = Some [id] → is_blank id = false →
    object_is (core_delete_documents index text e).1
      (λ p, dict_get "documents_deleted" p = Some (PInt (if bool_decide (is_Some (collection e !! id)) then 1 else 0))) ∧
    collection (core_delete_documents index text e).2 = delete id (collection e);
  core_text_law id e : ∃ t, core_get_document_text index id e = Ok t ∧ loads t = Ok (opt_text (collection e !! id ≫= nd_text));
  core_texts_law text ids e : read_list read_str text = Some ids →
    ∃ t l, core_get_document_texts index text e = Ok t ∧ loads t = Ok (dict_of (map (λ kv, (kv.1, PStr kv.2)) l)) ∧ NoDup l.*1 ∧
      ∀ id, get_item id l = if decide (id ∈ ids) then collection e !! id ≫= nd_text else None;
  core_stats_law e : object_is (core_stats index e) (λ p, dict_get "document_count" p = Some (PInt (Z.of_nat (size (collection e)))));
  core_document_law id e : ∃ t, core_get_document index id e = Ok t ∧
    ((loads t = Ok PNone ∧ collection e !! id = None) ∨ ∃ r, loads t = Ok (PDict r) ∧ record_ok e id r);
  core_list_law ft f e : read_filter ft = Some f → (∀ id d, collection e !! id = Some d → is_Ok (matches_metadata_filter (nd_metadata d) f)) →
    ∃ t records ids, core_list_documents index (Some ft) None None e = Ok t ∧ loads t = Ok (PList (map PDict records)) ∧
      Forall2 (record_ok e) ids records ∧ NoDup ids ∧
      ∀ id, id ∈ ids ↔ ∃ d, collection e !! id = Some d ∧ matches_metadata_filter (nd_metadata d) f = Ok true;
  core_query_array : ∃ call, core_query_vector_array = Some call ∧
    ∀ v k ft f e t p, read_filter ft = Some f → call index v k (Some ft) e = Ok t → loads t = Ok (PDict p) → hits_ok e f (PDict p);
  core_search_array : ∃ call, core_search_embedded_text_array = Some call ∧
    ∀ plan v k ft f e t p, read_filter ft = Some f → call index plan v k (Some ft) e = Ok t → loads t = Ok (PDict p) → hits_ok e f (PDict p);
  core_search_law plan k ft f e t p : read_filter ft = Some f → core_search_embedded_text index plan None k (Some ft) e = Ok t →
    loads t = Ok (PDict p) → hits_ok e f (PDict p) }.
End laws.
Arguments CoreLaws X {_ _} c embedding_time_ms.

(** ** What goes through the text *)

Lemma dumps_loads v : json_ok v = true → ∃ text, _dumps v = Ok text ∧ loads text = Ok (canon v).
Proof. intros Hv. eexists. split; [by apply dumps_ok|]. by apply loads_text. Qed.

Lemma meta_dict_ok m : json_ok (PDict (meta_dict m)) = true.
Proof.
  unfold meta_dict. apply json_ok_dict_intro.
  - unfold str_keyed. apply forallb_forall. by intros ? (x & <- & _)%in_map_iff.
  - unfold keys_of. rewrite map_map. cbn [fst key_text]. apply items_sorted_NoDup.
  - apply Forall_forall. by intros ? (x & -> & _)%list_elem_of_fmap.
Qed.

Lemma canon_meta_dict m : canon_items (meta_dict m) = meta_dict m.
Proof.
  unfold canon_items, meta_dict. rewrite map_map. cbn [fst snd key_text canon].
  rewrite (sort_by_map key_leb key_leb (λ kv, (kv.1, PStr kv.2)) (items_sorted m)) by done.
  rewrite (sort_by_id key_leb); [by rewrite map_map|]. apply (sort_by_sorted key_leb); [apply key_leb_total|apply key_leb_trans].
Qed.

Lemma read_meta_dict m : read_meta (canon (metadata_payload m)) = Some m.
Proof. unfold metadata_payload. rewrite canon_dict, canon_meta_dict. cbn. by rewrite dict_meta_dict. Qed.

(** An object written with string keys. *)
Lemma object_ok (l : list (string * pyval)) : NoDup l.*1 → Forall (λ kv, json_ok kv.2 = true) l → json_ok (dict_of l) = true.
Proof.
  intros Hnd HF. unfold dict_of. apply json_ok_dict_intro.
  - unfold str_keyed. apply forallb_forall. by intros ? (x & <- & _)%in_map_iff.
  - unfold keys_of. by rewrite map_map.
  - by apply Forall_map.
Qed.

Lemma object_get (l : list (string * pyval)) : json_ok (dict_of l) = true →
  ∃ d, canon (dict_of l) = PDict d ∧ ∀ k, dict_get k d = canon <$> get_item k l.
Proof.
  intros Hok. unfold dict_of in *. rewrite canon_dict. eexists. split; [done|]. intros k. rewrite dict_get_canon by done. f_equal.
  unfold dict_get, get_item, key_is. clear Hok. induction l as [|[k' v] l IH]; [done|]. cbn. by destruct (bool_decide (k' = k)).
Qed.

Ltac object_ok := apply object_ok; [by apply (bool_decide_unpack _); vm_compute|repeat constructor; try done; try apply meta_dict_ok].

Lemma opt_text_read t : json_ok (opt_text t) = true ∧ read_opt_text (canon (opt_text t)) = Some t.
Proof. by destruct t. Qed.

Lemma document_through d : json_ok (NativeCoreAdapter.document_payload d) = true ∧ read_document (canon (NativeCoreAdapter.document_payload d)) = Some d.
Proof.
  assert (json_ok (NativeCoreAdapter.document_payload d) = true) as Hok by object_ok. split; [done|].
  unfold NativeCoreAdapter.document_payload in *. destruct (object_get _ Hok) as (p & -> & Hp). cbn [read_document]. rewrite !Hp.
  change (get_item "document_id" _) with (Some (PStr (ed_id d))). change (get_item "text" _) with (Some (PStr (ed_text d))).
  change (get_item "metadata" _) with (Some (metadata_payload (ed_metadata d))).
  cbn [fmap option_fmap option_map mbind option_bind canon read_str]. rewrite read_meta_dict. by destruct d.
Qed.

Lemma sidecar_through s : json_ok (sidecar_payload s) = true ∧ read_sidecar (canon (sidecar_payload s)) = Some s.
Proof.
  destruct (opt_text_read (sc_text s)) as [Ht Hr].
  assert (json_ok (sidecar_payload s) = true) as Hok by object_ok. split; [done|].
  unfold sidecar_payload in *. destruct (object_get _ Hok) as (p & -> & Hp). cbn [read_sidecar]. rewrite !Hp.
  change (get_item "document_id" _) with (Some (PStr (sc_id s))). change (get_item "text" _) with (Some (opt_text (sc_text s))).
  change (get_item "metadata" _) with (Some (metadata_payload (sc_metadata s))).
  cbn [fmap option_fmap option_map mbind option_bind canon read_str]. rewrite read_meta_dict, Hr. by destruct s.
Qed.

(** A list of objects, sent and read. *)
Lemma list_through_in {S T} (payload : S → pyval) (read : pyval → option T) (f : S → T) l :
  Forall (λ x, json_ok (payload x) = true ∧ read (canon (payload x)) = Some (f x)) l →
  ∃ text, _dumps (PList (map payload l)) = Ok text ∧ read_list read text = Some (map f l).
Proof.
  intros H. destruct (dumps_loads (PList (map payload l))) as (text & Hd & Hl).
  { cbn [json_ok]. apply forallb_forall. intros ? (x & <- & Hx%list_elem_of_In)%in_map_iff. rewrite Forall_forall in H. by apply H. }
  exists text. split; [done|]. unfold read_list. rewrite Hl. cbn [canon]. rewrite map_map. apply mapM_Some.
  clear Hd Hl. induction H as [|x l Hx _ IH]; cbn [map]; constructor; [apply Hx|done].
Qed.

Lemma list_through {S T} (payload : S → pyval) (read : pyval → option T) (f : S → T) l :
  (∀ x, json_ok (payload x) = true ∧ read (canon (payload x)) = Some (f x)) →
  ∃ text, _dumps (PList (map payload l)) = Ok text ∧ read_list read text = Some (map f l).
Proof. intros H. apply list_through_in, Forall_forall. auto. Qed.

Lemma strings_through l : ∃ text, _dumps (strings l) = Ok text ∧ read_list read_str text = Some l.
Proof. destruct (list_through PStr read_str id l) as (t & H1 & H2); [done|]. rewrite map_id in H2. by exists t. Qed.

(** *** A filter as the extension reads it: its keys sorted, its tuples lists *)

Lemma cond_operand_canon c : json_ok (cond_operand c) = true ∧ canon (cond_operand c) = match c with CIn vs | CNin vs => PList (map PStr vs) | _ => cond_operand c end.
Proof.
  assert (∀ vs, forallb json_ok (map PStr vs) = true) as Hs by (intros vs; apply forallb_forall; by intros ? (x & <- & _)%in_map_iff).
  destruct c; cbn; rewrite ?Hs, ?map_map; done.
Qed.

Lemma canon_cond_computes field c : ∃ p, compile_operator (PStr field) (PStr (cond_key c)) (canon (cond_operand c)) = Ok p ∧
  computes p (λ m, cond_holds (m !! field) c).
Proof.
  destruct (compile_cond_computes field c) as (p & Hp & Hc). destruct (cond_operand_canon c) as [_ ->]. exists p. split; [|done].
  destruct c; exact Hp.
Qed.

Lemma canon_map {T} (key : T → string) (val : T → pyval) l :
  ∃ l', l' ≡ₚ l ∧ canon_items (map (λ x, (PStr (key x), val x)) l) = map (λ x, (PStr (key x), canon (val x))) l'.
Proof.
  exists (sort_by (λ x y, str_leb (key x) (key y)) l). split; [apply sort_by_perm|]. unfold canon_items. rewrite map_map. cbn [fst snd key_text].
  rewrite (sort_by_map (λ x y, str_leb (key x) (key y)) key_leb (λ x, (key x, canon (val x)))) by done. by rewrite map_map.
Qed.

Lemma forallb_perm {T} (f : T → bool) l l' : l ≡ₚ l' → forallb f l = forallb f l'.
Proof. intros H. apply eq_iff_eq_true. rewrite !forallb_forall. by setoid_rewrite <-list_elem_of_In; setoid_rewrite H. Qed.

Lemma enc_ok n d : Predicate.wf d n = true → json_ok (enc n) = true.
Proof.
  revert n d. refine (fnode_deep_ind (λ n, ∀ d, Predicate.wf d n = true → json_ok (enc n) = true)
    (λ e, ∀ d, wf_entry d e = true → json_ok (enc_spec e) = true) _ _ _ _ _ _).
  - intros es IH d Hw. cbn [Predicate.wf] in Hw. do 3 (apply andb_prop in Hw as [Hw ?]). cbn [enc]. apply json_ok_dict_intro.
    + unfold str_keyed. apply forallb_forall. by intros ? (x & <- & _)%in_map_iff.
    + unfold keys_of. rewrite map_map. by apply bool_decide_eq_true_1 in H0.
    + rewrite Forall_forall in IH. rewrite forallb_forall in H. apply Forall_forall. intros ? (e & -> & He)%list_elem_of_fmap.
      eapply IH; [done|]. by apply H, list_elem_of_In.
  - intros ns IH d Hw. cbn [wf_entry] in Hw. apply andb_prop in Hw as [_ Hw]. cbn [enc_spec json_ok]. apply forallb_forall.
    intros ? (n & <- & Hn)%in_map_iff. rewrite Forall_forall in IH. rewrite forallb_forall in Hw. eapply IH; [by apply list_elem_of_In|by apply Hw].
  - intros ns IH d Hw. cbn [wf_entry] in Hw. apply andb_prop in Hw as [_ Hw]. cbn [enc_spec json_ok]. apply forallb_forall.
    intros ? (n & <- & Hn)%in_map_iff. rewrite Forall_forall in IH. rewrite forallb_forall in Hw. eapply IH; [by apply list_elem_of_In|by apply Hw].
  - intros n IH d Hw. by eapply IH.
  - done.
  - intros f cs d Hw. cbn [wf_entry] in Hw. do 3 (apply andb_prop in Hw as [Hw ?]). cbn [enc_spec]. apply json_ok_dict_intro.
    + unfold str_keyed. apply forallb_forall. by intros ? (x & <- & _)%in_map_iff.
    + unfold keys_of. rewrite map_map. by apply bool_decide_eq_true_1 in H0.
    + apply Forall_forall. intros ? (e & -> & He)%list_elem_of_fmap. apply cond_operand_canon.
Qed.

Lemma compile_canon n d : Predicate.wf d n = true → ∃ p, compile_node (canon (enc n)) = Ok p ∧ computes p (λ m, sat m n).
Proof.
  revert n d. refine (fnode_deep_ind (λ n, ∀ d, Predicate.wf d n = true → ∃ p, compile_node (canon (enc n)) = Ok p ∧ computes p (λ m, sat m n))
    (λ e, ∀ d, wf_entry d e = true → ∃ p, compile_entry (PStr (entry_key e), canon (enc_spec e)) = Ok p ∧ computes p (λ m, sat_entry m e)) _ _ _ _ _ _).
  - intros es IH d Hw. cbn [Predicate.wf] in Hw. do 3 (apply andb_prop in Hw as [Hw ?]). cbn [enc]. rewrite canon_dict, compile_node_dict.
    destruct (canon_map entry_key enc_spec es) as (es' & Hp & ->). rewrite mapR_map.
    destruct (mapR_exists (λ e, compile_entry (PStr (entry_key e), canon (enc_spec e))) (λ e p, computes p (λ m, sat_entry m e)) es') as (ps & Hps & HF).
    2: { exists (compile_all ps). rewrite Hps. split; [done|]. intros m. rewrite (compile_all_computes sat_entry es' ps HF). cbn [sat].
         by rewrite (forallb_perm _ _ _ Hp). }
    rewrite Forall_forall in IH |- *. intros e He. rewrite Hp in He. eapply IH; [done|]. rewrite forallb_forall in H. by apply H, list_elem_of_In.
  - intros ns IH d Hw. cbn [wf_entry] in Hw. apply andb_prop in Hw as [_ Hw].
    destruct (mapR_exists (λ n, compile_node (canon (enc n))) (λ n p, computes p (λ m, sat m n)) ns) as (ps & Hps & HF); [by eapply Forall_wf_impl|].
    exists (compile_all ps). unfold compile_entry. simpl in *. rewrite map_map, mapR_map, Hps. split; [done|]. by apply compile_all_computes.
  - intros ns IH d Hw. cbn [wf_entry] in Hw. apply andb_prop in Hw as [_ Hw].
    destruct (mapR_exists (λ n, compile_node (canon (enc n))) (λ n p, computes p (λ m, sat m n)) ns) as (ps & Hps & HF); [by eapply Forall_wf_impl|].
    exists (compile_any ps). unfold compile_entry. simpl in *. rewrite map_map, mapR_map, Hps. split; [done|]. intros m. by apply any_of_computes.
  - intros n IH d Hw. cbn [wf_entry] in Hw. destruct (IH _ Hw) as (p & Hp & Hc).
    exists (compile_not p). unfold compile_entry. simpl. rewrite Hp. split; [done|]. intros m. unfold compile_not. by rewrite Hc.
  - intros f v d Hw. cbn [wf_entry] in Hw. cbn [entry_key enc_spec canon]. unfold compile_entry. destruct (compile_field_key f (PStr v) Hw) as (-> & -> & ->).
    eexists. split; [reflexivity|]. intros m. cbn [snd fst stored_at sat_entry]. by rewrite stored_eq_spec.
  - intros f cs d Hw. cbn [wf_entry] in Hw. do 3 (apply andb_prop in Hw as [Hw ?]). cbn [entry_key enc_spec]. rewrite canon_dict.
    destruct (canon_map cond_key cond_operand cs) as (cs' & Hp & E). change (map enc_cond cs) with (map (λ x, (PStr (cond_key x), cond_operand x)) cs).
    rewrite E. unfold compile_entry. destruct (compile_field_key f (PDict (map (λ x, (PStr (cond_key x), canon (cond_operand x))) cs')) Hw) as (-> & -> & ->).
    cbn [fst snd compile_field]. rewrite mapR_map.
    destruct (mapR_exists (λ c, compile_operator (PStr f) (PStr (cond_key c)) (canon (cond_operand c))) (λ c p, computes p (λ m, cond_holds (m !! f) c)) cs') as (ps & Hps & HF).
    { apply Forall_forall. intros c _. apply canon_cond_computes. }
    exists (compile_all ps). cbn [fst snd] in Hps |- *. rewrite Hps. split; [done|]. intros m.
    rewrite (compile_all_computes (λ m c, cond_holds (m !! f) c) cs' ps HF). cbn [sat_entry]. by rewrite (forallb_perm _ _ _ Hp).
Qed.

(** The extension is asked about the same documents. *)
Lemma canon_filter_matches f m : wire_filter f → matches_metadata_filter m (canon f) = matches_metadata_filter m f ∧ is_Ok (matches_metadata_filter m f).
Proof.
  intros (n & Hw & ->). destruct (compile_canon n 0 Hw) as (p & Hp & Hc). destruct (compile_enc n 0 Hw) as (q & Hq & Hd).
  unfold matches_metadata_filter. rewrite Hp, Hq. cbn [mbind result_bind]. rewrite Hc, Hd. split; [done|by eexists].
Qed.

Lemma filter_through f : wire_filter f → ∃ text, filter_json (Some [(PStr "metadata", f)]) = Ok (Some text) ∧ read_filter text = Some (canon f).
Proof.
  intros (n & Hw & ->). pose proof (enc_ok n 0 Hw) as Hok. destruct (dumps_loads (PDict [(PStr "metadata", enc n)])) as (text & Hd & Hl).
  { apply json_ok_dict_intro; [done|apply NoDup_singleton|by repeat constructor]. }
  exists text. unfold filter_json, read_filter. cbn [fmap option_fmap option_map dump_opt]. rewrite Hd, Hl. split; [done|].
  rewrite canon_dict, dict_get_canon; [done|]. apply json_ok_dict_intro; [done|apply NoDup_singleton|by repeat constructor].
Qed.

(** ** The adapter implements the engine of the database *)

Section implements.
Context {X : Type} {CE : CoreEngine X} {NV : NativeView X}.
Context (c : LodeConfig) (time : spec_float) {CL : CoreLaws X c time}.
Local Notation index := _LOCAL_INDEX_ID.
Local Notation AE := (adapter_engine time).

Lemma matrix_shape dim rows : Forall (λ v, length v = dim) rows → np_matrix rows = Ok (map f32_row rows).
Proof.
  intros H. unfold np_matrix. destruct rows as [|r rs]; [done|]. apply Forall_cons in H as [Hr H].
  assert (forallb (λ q, Nat.eqb (length q) (length r)) rs = true) as ->; [|done].
  apply forallb_forall. intros q Hq%list_elem_of_In. rewrite Forall_forall in H. by rewrite (H q Hq), Hr, Nat.eqb_refl.
Qed.
Lemma matrix_length rows m : np_matrix rows = Ok m → length m = length rows ∧ m = map f32_row rows.
Proof. unfold np_matrix. destruct rows as [|r rs]; [by intros [= <-]|]. destruct (forallb _ _); [|done]. intros [= <-]. cbn. by rewrite length_map. Qed.

Lemma vectors_float32 rows : Forall (vector_ok (cf_vector_dim c)) rows → Forall (vector_ok (cf_vector_dim c)) (map f32_row rows).
Proof.
  intros H. apply Forall_map. eapply Forall_impl; [exact H|]. intros v [Hl Hv]. unfold f32_row. split; [by rewrite length_map|].
  rewrite forallb_forall in Hv |- *. intros f (g & <- & Hg)%in_map_iff. apply (@coord_float32 X CE NV c time CL), Hv, Hg.
Qed.

Lemma vectors_shape rows : Forall (vector_ok (cf_vector_dim c)) rows → np_matrix rows = Ok (map f32_row rows).
Proof. intros H. apply (matrix_shape (cf_vector_dim c)). eapply Forall_impl; [exact H|]. by intros v [? _]. Qed.

(** A call on the extension as an upsert of the handle. *)
Lemma answered_upserts {T} (put : list T → gmap string native_doc → gmap string native_doc) l e (m : st X string) :
  core_upserts put l e (m e) → upserts put l e (void (NativeCoreEngineHandle.answered m) e).
Proof.
  intros [Hn Hok]. unfold upserts, void, NativeCoreEngineHandle.answered, mbind, st_bind. destruct (m e) as [[t|x] e']; cbn [fst snd] in *; [|done].
  unfold st_lift. cbn [fst snd]. destruct (_loads t); cbn; (split; [exact Hn|]); intros _; apply Hok; by eexists.
Qed.

Lemma answered_object e (m : st X string) : object (m e).1 → ∃ d, NativeCoreEngineHandle.answered m e = (Ok d, (m e).2).
Proof.
  intros (t & d & Ht & Hl). unfold NativeCoreEngineHandle.answered, mbind, st_bind. destruct (m e) as [r e']. cbn [fst snd] in *. subst r.
  unfold st_lift, _loads. rewrite Hl. by exists d.
Qed.
Lemma void_object e (m : st X string) : object (m e).1 → (void (NativeCoreEngineHandle.answered m) e).1 = Ok tt.
Proof. intros H. destruct (answered_object e m H) as (d & Hd). unfold void, mbind, st_bind. by rewrite Hd. Qed.

(** An upsert that fails before the call. *)
Lemma upserts_refused {T} (put : list T → gmap string native_doc → gmap string native_doc) l (e : X) x : put [] (collection e) = collection e →
  upserts put l e (Err x, e).
Proof. intros H. split; [|done]. exists 0%nat. by symmetry. Qed.
Lemma upserts_done {T} (put : list T → gmap string native_doc → gmap string native_doc) (e : X) out : put [] (collection e) = collection e →
  collection out.2 = collection e → upserts put [] e out.
Proof. intros H Hc. split; [exists 0%nat|intros _]; rewrite Hc; by symmetry. Qed.

Lemma void_lift {T} (r : result T) (k : T → st X pydict) e :
  void (x ← st_lift r; k x) e = match r with Ok a => void (k a) e | Err x => (Err x, e) end.
Proof. by destruct r. Qed.

Lemma vectors_implemented l e :
  upserts (put_sidecars (cf_store_text c)) (map sidecar_of l) e (@LocalDb.upsert_vectors X AE l e) ∧
  (Forall (λ d, is_blank (ev_id d) = false ∧ vector_ok (cf_vector_dim c) (ev_vector d)) l → (@LocalDb.upsert_vectors X AE l e).1 = Ok tt).
Proof.
  destruct (@core_upsert_array X CE NV c time CL) as (call & Hcall & Hlaw).
  change (@LocalDb.upsert_vectors X AE l) with (void (NativeCoreEngineHandle.upsert_vectors index l)).
  unfold NativeCoreEngineHandle.upsert_vectors. rewrite Hcall. destruct l as [|d l].
  - unfold NativeCoreEngineHandle.upsert_vectors_json. destruct (list_through (λ _ : Empty_set, PNone) Some (λ _, PNone) []) as (text & Hd & Hr); [by intros []|].
    cbn [map] in Hd |- *. destruct (@core_upsert_nothing X CE NV c time CL text e Hr) as [Hc Ho].
    assert (void (text ← st_lift (_dumps (PList [])); NativeCoreEngineHandle.answered (core_upsert_vectors index text)) e =
      void (NativeCoreEngineHandle.answered (core_upsert_vectors index text)) e) as -> by (by rewrite Hd).
    split; [|intros _; by apply void_object]. apply upserts_done; [done|]. destruct (answered_object _ _ Ho) as (p & Hp).
    unfold void. rewrite st_bind_run, Hp. exact Hc.
  - set (docs := d :: l). rewrite void_lift. destruct (np_matrix (map ev_vector docs)) as [m|x] eqn:Em.
    2: { split; [by apply upserts_refused|]. intros H. rewrite vectors_shape in Em; [done|]. apply Forall_map. eapply Forall_impl; [exact H|]. by intros ? [_ ?]. }
    destruct (list_through (λ d, sidecar_payload (sidecar_of d)) read_sidecar sidecar_of docs) as (text & Hd & Hr); [intros s; apply sidecar_through|].
    rewrite void_lift, Hd. apply matrix_length in Em as [Hm Hmf].
    destruct (Hlaw m text (map sidecar_of docs) e Hr) as [Hup Hok]; [by rewrite Hm, !length_map|].
    split; [exact (answered_upserts _ _ _ (call index m text) Hup)|]. intros H. apply (void_object e (call index m text)), Hok.
    + apply Forall_map. eapply Forall_impl; [exact H|]. by intros ? [? _].
    + subst m. apply vectors_float32, Forall_map. eapply Forall_impl; [exact H|]. by intros ? [_ ?].
Qed.

Lemma matrix_implemented m l e : length m = length l →
  upserts (put_sidecars (cf_store_text c)) l e (@LocalDb.upsert_vectors_matrix X AE m l e) ∧
  (Forall (λ s, is_blank (sc_id s) = false) l → Forall (vector_ok (cf_vector_dim c)) m → (@LocalDb.upsert_vectors_matrix X AE m l e).1 = Ok tt).
Proof.
  intros Hlen. destruct (@core_upsert_array X CE NV c time CL) as (call & Hcall & Hlaw).
  change (@LocalDb.upsert_vectors_matrix X AE m l) with (void (NativeCoreEngineHandle.upsert_vectors_matrix index m l)).
  unfold NativeCoreEngineHandle.upsert_vectors_matrix. rewrite Hcall, void_lift.
  destruct (list_through sidecar_payload read_sidecar id l) as (text & Hd & Hr); [intros s; apply sidecar_through|]. rewrite map_id in Hr. rewrite Hd.
  destruct (Hlaw (map f32_row m) text l e Hr) as [Hup Hok]; [by rewrite length_map|].
  split; [exact (answered_upserts _ _ _ _ Hup)|]. intros Hi Hv. apply void_object, Hok; [done|]. by apply vectors_float32.
Qed.

(** The run of a prepared upsert. *)
Lemma prepare_run l e : ∃ text, read_list read_document text = Some l ∧
  let out := core_prepare_text_upsert index text (cf_store_text c) (cf_index_text c) (cf_chunk_limit c) e in
  @LocalDb.prepare_text_upsert X AE l (cf_store_text c) (cf_index_text c) (cf_chunk_limit c) e =
    (plan_json ← out.1; _loads_native_payload plan_json, out.2).
Proof.
  destruct (list_through NativeCoreAdapter.document_payload read_document id l) as (text & Hd & Hr); [intros d; apply document_through|].
  rewrite map_id in Hr. exists text. split; [done|]. cbv zeta.
  change (@LocalDb.prepare_text_upsert X AE) with (@NativeCoreEngineHandle.prepare_text_upsert X CE index).
  unfold NativeCoreEngineHandle.prepare_text_upsert. rewrite lift_run, Hd, st_bind_run.
  by destruct (core_prepare_text_upsert index text _ _ _ e) as [[t|x] e'].
Qed.

Lemma loads_payload t plan : _loads_native_payload t = Ok plan ↔ loads t = Ok (PDict (np_value plan)) ∧ native_json plan = t.
Proof.
  unfold _loads_native_payload, _loads. destruct (loads t) as [v|]; cbn [mbind result_bind]; [|naive_solver].
  destruct plan as [d j]. split; [|intros [[= ->] <-]; done]. destruct v; try done. cbn. by intros [= <- <-].
Qed.

Lemma apply_implemented l e plan e' embeddings :
  @LocalDb.prepare_text_upsert X AE l (cf_store_text c) (cf_index_text c) (cf_chunk_limit c) e = (Ok plan, e') →
  upserts (put_texts (cf_store_text c)) l e' (@LocalDb.apply_text_upsert X AE plan embeddings e') ∧
  (NoDup (map ed_id l) → (∃ chunks, chunks_to_embed (np_value plan) = Ok chunks ∧ length embeddings = length chunks) →
   Forall (vector_ok (cf_vector_dim c)) embeddings → (@LocalDb.apply_text_upsert X AE plan embeddings e').1 = Ok tt).
Proof.
  intros Hprep. destruct (prepare_run l e) as (text & Hr & Hrun). cbv zeta in Hrun. rewrite Hrun in Hprep.
  destruct (core_prepare_text_upsert index text _ _ _ e) as [[t|x] e1] eqn:Ep; [|done]. cbn [fst snd mbind result_bind] in Hprep.
  injection Hprep as Hp <-. apply loads_payload in Hp as [Hl Hj]. destruct (@core_apply_array X CE NV c time CL) as (call & Hcall & Hlaw).
  change (@LocalDb.apply_text_upsert X AE plan embeddings) with (void (NativeCoreEngineHandle.apply_text_upsert plan embeddings time)).
  unfold NativeCoreEngineHandle.apply_text_upsert. rewrite Hcall, void_lift, Hj.
  destruct (np_matrix embeddings) as [m|x] eqn:Em.
  2: { split; [by apply upserts_refused|]. intros _ _ H. by rewrite vectors_shape in Em. }
  apply matrix_length in Em as [Hm ->]. destruct (Hlaw text l t (np_value plan) e e1 (map f32_row embeddings) Hr Ep Hl) as [Hup Hok].
  split; [exact (answered_upserts _ _ _ _ Hup)|]. intros Hnd (chunks & Hc & Hlen) Hv. apply void_object, Hok; [done| |by apply vectors_float32].
  exists chunks. by rewrite length_map.
Qed.

Lemma delete_implemented id e : is_blank id = false → ∃ p e', @LocalDb.delete_documents X AE [id] e = (Ok (PDict p), e') ∧
  dict_get "documents_deleted" p = Some (PInt (if bool_decide (is_Some (collection e !! id)) then 1 else 0)) ∧ collection e' = delete id (collection e).
Proof.
  intros Hb. destruct (strings_through [id]) as (text & Hd & Hr). destruct (@core_delete_law X CE NV c time CL text id e Hr Hb) as [(t & p & Ht & Hl & Hp) Hc].
  exists p, (core_delete_documents index text e).2. split; [|done].
  change (@LocalDb.delete_documents X AE [id] e) with ((d ← NativeCoreEngineHandle.delete_documents index [id]; mret (PDict d)) e).
  unfold NativeCoreEngineHandle.delete_documents. rewrite st_bind_run, lift_run, Hd. unfold NativeCoreEngineHandle.answered. rewrite st_bind_run.
  destruct (core_delete_documents index text e) as [r e']. cbn [fst snd] in *. subst r. unfold st_lift, _loads. by rewrite Hl.
Qed.

Lemma texts_implemented ids e : ∃ l, @LocalDb.get_document_texts X AE ids e = Ok l ∧ NoDup l.*1 ∧
  ∀ id, get_item id l = if decide (id ∈ ids) then collection e !! id ≫= nd_text else None.
Proof.
  destruct (strings_through ids) as (text & Hd & Hr). destruct (@core_texts_law X CE NV c time CL text ids e Hr) as (t & l & Ht & Hl & Hnd & Hg).
  exists l. split; [|done]. change (@LocalDb.get_document_texts X AE) with (@NativeCoreEngineHandle.get_document_texts X CE index).
  unfold NativeCoreEngineHandle.get_document_texts. rewrite Hd. cbn [mbind result_bind]. rewrite Ht. cbn [mbind result_bind]. rewrite Hl. cbn [mbind result_bind dict_of].
  f_equal. rewrite !map_map. cbn. rewrite <-(map_id l) at 2. apply map_ext. by intros [].
Qed.

(** Rows the extension selected by the filter it read, selected by the filter it was sent. *)
Lemma hits_canon e f p : wire_filter f → hits_ok e (canon f) p → hits_ok e f p.
Proof.
  intros Hw (d & rows & -> & Hh & HF). exists d, rows. split; [done|]. split; [done|]. eapply Forall_impl; [exact HF|].
  intros row (r & s & id & nd & md & Hr). exists r, s, id, nd, md. by rewrite (proj1 (canon_filter_matches f (nd_metadata nd) Hw)) in Hr.
Qed.

Lemma query_implemented v k f e p : wire_filter f → @LocalDb.query_vector X AE v k (Some [(PStr "metadata", f)]) e = Ok p → hits_ok e f p.
Proof.
  intros Hw H. change (@LocalDb.query_vector X AE v k (Some [(PStr "metadata", f)]) e) with
    (PDict <$> NativeCoreEngineHandle.query_vector index v k (Some [(PStr "metadata", f)]) e) in H.
  destruct (filter_through f Hw) as (ft & Hd & Hr). destruct (@core_query_array X CE NV c time CL) as (call & Hcall & Hlaw).
  unfold NativeCoreEngineHandle.query_vector in H. rewrite Hd, Hcall in H. cbn [mbind result_bind] in H.
  apply fmap_Ok in H as (d & (t & Ht & Hl)%bind_Ok & ->). apply hits_canon; [done|]. eapply Hlaw; [exact Hr|exact Ht|].
  unfold _loads in Hl. apply bind_Ok in Hl as (w & Hw' & Hl). destruct w; try done. by injection Hl as ->.
Qed.

Lemma search_implemented q mode emb k f e p : wire_filter f →
  @LocalDb.search_text X AE q mode emb k (Some [(PStr "metadata", f)]) e = Ok p → hits_ok e f p.
Proof.
  intros Hw H. change (@LocalDb.search_text X AE q mode emb k (Some [(PStr "metadata", f)]) e) with
    (PDict <$> NativeCoreEngineHandle.search_text index q mode emb k (Some [(PStr "metadata", f)]) e) in H.
  destruct (filter_through f Hw) as (ft & Hd & Hr). destruct (@core_search_array X CE NV c time CL) as (call & Hcall & Hlaw).
  unfold NativeCoreEngineHandle.search_text, NativeCoreEngineHandle._search_embedded_text_json in H. rewrite Hcall in H.
  apply fmap_Ok in H as (d & (plan & _ & H)%bind_Ok & ->). apply hits_canon; [done|].
  assert (∀ t, _loads t = Ok d → loads t = Ok (PDict d)) as Hloads.
  { intros t (w & Hw' & Hl)%bind_Ok. destruct w; try done. by injection Hl as ->. }
  destruct emb as [v|]; rewrite Hd in H; cbn [mbind result_bind fmap option_fmap option_map dump_opt] in H; apply bind_Ok in H as (t & Ht & Hl).
  - eapply Hlaw; [exact Hr|exact Ht|by apply Hloads].
  - eapply (@core_search_law X CE NV c time CL); [exact Hr|exact Ht|by apply Hloads].
Qed.

Lemma list_implemented f e : wire_filter f → ∃ records ids,
  @LocalDb.native_list_documents X AE (Some [(PStr "metadata", f)]) None None e = Ok records ∧
  Forall2 (record_ok e) ids records ∧ NoDup ids ∧
  ∀ id, id ∈ ids ↔ ∃ d, collection e !! id = Some d ∧ matches_metadata_filter (nd_metadata d) f = Ok true.
Proof.
  intros Hw. destruct (filter_through f Hw) as (ft & Hd & Hr).
  destruct (@core_list_law X CE NV c time CL ft (canon f) e Hr) as (t & records & ids & Ht & Hl & HF & Hnd & Hin).
  { intros id d _. destruct (canon_filter_matches f (nd_metadata d) Hw) as [-> H]. exact H. }
  exists records, ids. split; [|split; [done|split; [done|]]].
  - change (@LocalDb.native_list_documents X AE) with (@NativeCoreEngineHandle.list_documents X CE index).
    unfold NativeCoreEngineHandle.list_documents. rewrite Hd. cbn [mbind result_bind]. rewrite Ht. cbn [mbind result_bind]. unfold loads_list. rewrite Hl.
    cbn [mbind result_bind]. rewrite mapR_map. etransitivity; [exact (mapR_total id records)|]. by rewrite map_id.
  - intros id. rewrite Hin. split; intros (d & Hd' & Hm); exists d; (split; [done|]); by rewrite (proj1 (canon_filter_matches f (nd_metadata d) Hw)) in *.
Qed.

(** Rows of two lengths. *)
Definition unequal_rows (rows : list (list spec_float)) : Prop := ∃ r r', r ∈ rows ∧ r' ∈ rows ∧ length r ≠ length r'.

Lemma unequal_refused rows : unequal_rows rows → ∃ x, np_matrix rows = Err x ∧ exn_class x = ValueError.
Proof.
  intros (a & b & Ha & Hb & Hne). destruct rows as [|r rs]; [by apply elem_of_nil in Ha|]. cbn [np_matrix].
  destruct (forallb _ rs) eqn:E; [|by eexists]. exfalso. apply Hne. rewrite forallb_forall in E.
  assert (∀ q, q ∈ r :: rs → length q = length r) as Hall.
  { intros q [->|Hq]%elem_of_cons; [done|]. by apply Nat.eqb_eq, E, list_elem_of_In. }
  by rewrite (Hall a Ha), (Hall b Hb).
Qed.

(** An answer that is read as an object. *)
Definition says_object (answer : result string) (p : pydict) : Prop := ∃ t, answer = Ok t ∧ loads t = Ok (PDict p).

Lemma loads_object t p : _loads t = Ok p ↔ loads t = Ok (PDict p).
Proof. unfold _loads. destruct (loads t) as [v|]; cbn [mbind result_bind]; [|naive_solver]. destruct v; naive_solver. Qed.

Lemma answered_Ok (m : st X string) e p e' : NativeCoreEngineHandle.answered m e = (Ok p, e') → says_object (m e).1 p.
Proof.
  unfold NativeCoreEngineHandle.answered. rewrite st_bind_run. destruct (m e) as [[t|] e1]; [|done]. unfold st_lift.
  intros [= H _]. exists t. split; [done|]. by apply loads_object.
Qed.

(** What the adapter does not let through: rows of two lengths do not reach the extension, and what it answers is
    a result only where it is an object, or a list of what [dict] takes. *)
Record adapter_refuses : Prop := {
  ragged_vectors l e : unequal_rows (map ev_vector l) →
    ∃ x, @LocalDb.upsert_vectors X AE l e = (Err x, e) ∧ exn_class x = ValueError;
  ragged_embeddings plan m e : unequal_rows m →
    ∃ x, @LocalDb.apply_text_upsert X AE plan m e = (Err x, e) ∧ exn_class x = ValueError;
  upsert_answers_object l e : l ≠ [] → (@LocalDb.upsert_vectors X AE l e).1 = Ok tt →
    ∃ call m text p, core_upsert_vectors_array = Some call ∧ says_object (call index m text e).1 p;
  apply_answers_object plan m e : (@LocalDb.apply_text_upsert X AE plan m e).1 = Ok tt →
    ∃ call p, core_apply_text_upsert_array = Some call ∧ says_object (call (native_json plan) (map f32_row m) time e).1 p;
  delete_answers_object ids e v e' : @LocalDb.delete_documents X AE ids e = (Ok v, e') →
    ∃ text p, v = PDict p ∧ says_object (core_delete_documents index text e).1 p;
  stats_answer_object e v : @LocalDb.native_stats X AE e = Ok v → ∃ p, v = PDict p ∧ says_object (core_stats index e) p;
  query_answers_object v k f e a : @LocalDb.query_vector X AE v k f e = Ok a →
    ∃ call text p, core_query_vector_array = Some call ∧ a = PDict p ∧ says_object (call index (f32_row v) k text e) p;
  listing_answers_objects f a n e records : @LocalDb.native_list_documents X AE f a n e = Ok records →
    ∃ text t items, core_list_documents index text a n e = Ok t ∧ loads t = Ok (PList items) ∧ mapR py_dict items = Ok records }.

Lemma void_Ok (m : st X pydict) e : (void m e).1 = Ok tt → ∃ p, m e = (Ok p, (m e).2).
Proof. unfold void. rewrite st_bind_run. destruct (m e) as [[p|] e']; [by exists p|done]. Qed.

Lemma lift_refused {A B} (r : result A) (k : A → st X B) e : (∃ x, r = Err x ∧ exn_class x = ValueError) →
  ∃ x, (a ← st_lift r; k a) e = (Err x, e) ∧ exn_class x = ValueError.
Proof. intros (x & -> & Hx). by exists x. Qed.

Lemma refusals : adapter_refuses.
Proof.
  split.
  - intros l e H. destruct (@core_upsert_array X CE NV c time CL) as (call & Hcall & _).
    change (@LocalDb.upsert_vectors X AE l) with (void (NativeCoreEngineHandle.upsert_vectors index l)).
    unfold NativeCoreEngineHandle.upsert_vectors. rewrite Hcall. apply unequal_refused in H as (x & Hx & Hk).
    destruct l as [|d l]; [done|]. exists x. by rewrite void_lift, Hx.
  - intros plan m e H. destruct (@core_apply_array X CE NV c time CL) as (call & Hcall & _).
    change (@LocalDb.apply_text_upsert X AE plan m) with (void (NativeCoreEngineHandle.apply_text_upsert plan m time)).
    unfold NativeCoreEngineHandle.apply_text_upsert. rewrite Hcall. apply unequal_refused in H as (x & Hx & Hk).
    exists x. by rewrite void_lift, Hx.
  - intros l e Hne H. destruct (@core_upsert_array X CE NV c time CL) as (call & Hcall & _). apply void_Ok in H as (p & H).
    change (NativeCoreEngineHandle.upsert_vectors index l e = (Ok p, (NativeCoreEngineHandle.upsert_vectors index l e).2)) in H.
    unfold NativeCoreEngineHandle.upsert_vectors in H. rewrite Hcall in H. destruct l as [|d l]; [done|].
    rewrite lift_run in H. destruct (np_matrix _) as [m|]; [|done]. rewrite lift_run in H. destruct (_dumps _) as [text|]; [|done].
    apply answered_Ok in H. by exists call, m, text, p.
  - intros plan m e H. destruct (@core_apply_array X CE NV c time CL) as (call & Hcall & _). apply void_Ok in H as (p & H).
    change (NativeCoreEngineHandle.apply_text_upsert plan m time e = (Ok p, (NativeCoreEngineHandle.apply_text_upsert plan m time e).2)) in H.
    unfold NativeCoreEngineHandle.apply_text_upsert in H. rewrite Hcall, lift_run in H. destruct (np_matrix m) as [m'|] eqn:Em; [|done].
    apply matrix_length in Em as [_ ->]. apply answered_Ok in H. by exists call, p.
  - intros ids e v e' H. change ((d ← NativeCoreEngineHandle.delete_documents index ids; mret (PDict d)) e = (Ok v, e')) in H.
    unfold NativeCoreEngineHandle.delete_documents in H. rewrite st_bind_run, lift_run in H. destruct (_dumps _) as [text|]; [|done].
    destruct (NativeCoreEngineHandle.answered _ e) as [[p|] e1] eqn:E; [|done]. injection H as <- <-. apply answered_Ok in E. by exists text, p.
  - intros e v H. change (PDict <$> NativeCoreEngineHandle.stats index e = Ok v) in H. unfold NativeCoreEngineHandle.stats in H.
    destruct (core_stats index e) as [t|]; [|done]. cbn [mbind result_bind] in H. destruct (_loads t) as [p|] eqn:E; [|done]. injection H as <-.
    exists p. split; [done|]. exists t. split; [done|]. by apply loads_object.
  - intros v k f e a H. change (PDict <$> NativeCoreEngineHandle.query_vector index v k f e = Ok a) in H.
    unfold NativeCoreEngineHandle.query_vector in H. destruct (@core_query_array X CE NV c time CL) as (call & Hcall & _). rewrite Hcall in H.
    destruct (filter_json f) as [ft|]; [|done]. cbn [mbind result_bind] in H. destruct (call index (f32_row v) k ft e) as [t|] eqn:Ec; [|done].
    cbn [mbind result_bind] in H. destruct (_loads t) as [p|] eqn:E; [|done]. injection H as <-. exists call, ft, p. split; [done|]. split; [done|].
    exists t. split; [done|]. by apply loads_object.
  - intros f a n e records H. change (NativeCoreEngineHandle.list_documents index f a n e = Ok records) in H.
    unfold NativeCoreEngineHandle.list_documents in H. destruct (filter_json f) as [ft|]; [|done]. cbn [mbind result_bind] in H.
    destruct (core_list_documents index ft a n e) as [t|] eqn:Ec; [|done]. cbn [mbind result_bind] in H. unfold loads_list in H.
    destruct (loads t) as [v|] eqn:El; [|done]. cbn [mbind result_bind] in H. destruct v as [| | | | |vs| | |]; try done. by exists ft, t, vs.
Qed.

End implements.

(** ** An extension to evaluate with *)

(** It accepts every coordinate: rounding to float32 can overflow a finite one. *)
Definition json_view : NativeView toy_engine := {| collection := toy_docs; coord_ok _ := true |}.
Definition unreadable {A} : result A := raise ValueError "invalid JSON payload".
Definition ok_answer : result string := _dumps (dict_of [("status", PStr "ok")]).

Section json_core.
Variable store : bool.

(** Decode the text, change the documents, answer an object. *)
Definition json_put {T} (read : pyval → option T) (put : list T → gmap string native_doc → gmap string native_doc) (text : string) : st toy_engine string :=
  λ e, match read_list read text with Some l => (ok_answer, Toy (put l (toy_docs e)) (toy_batch e)) | None => (unreadable, e) end.
Definition json_select (filter : option string) (e : toy_engine) (answer : option pydict → pyval) : result string :=
  match filter with
  | None => _dumps (answer None)
  | Some text => match read_filter text with Some f => _dumps (answer (Some [(PStr "metadata", f)])) | None => unreadable end
  end.
Definition json_hits (k : Z) (filter : option string) (e : toy_engine) : result string := json_select filter e (λ f, toy_hits k f e).

Definition json_core : CoreEngine toy_engine := {|
  core_create_index _ _ _ := mret tt; core_create_index_with_options _ := mret tt; core_index_options _ _ := ok_answer;
  core_set_session_overrides _ _ _ := mret tt;
  core_upsert_vectors _ text := json_put Some (λ _ m, m) text;
  core_upsert_vectors_array := Some (λ _ _ text, json_put read_sidecar (put_sidecars store) text);
  core_delete_documents _ text := λ e,
    match read_list read_str text with
    | Some ids =>
        (_dumps (dict_of [("documents_deleted", PInt (Z.of_nat (length (List.filter (λ i, bool_decide (is_Some (toy_docs e !! i))) ids))))]),
         Toy (foldr delete (toy_docs e) ids) (toy_batch e))
    | None => (unreadable, e)
    end;
  core_update_document_payload _ _ _ _ := λ e, (ok_answer, e);
  core_upsert_multivector _ _ _ _ := λ e, (ok_answer, e);
  core_query_multivector _ _ k f e := json_hits k f e;
  core_query_vector _ _ k f e := json_hits k f e;
  core_query_vector_array := Some (λ _ _ k f e, json_hits k f e);
  core_query_vectors_batch _ _ _ _ _ := _dumps (PList []);
  core_query_vectors_batch_array := None;
  core_query_vectors_batch_array_out := None;
  core_prepare_text_upsert _ text _ _ _ := λ e,
    match read_list read_document text with
    | Some l => (_dumps (dict_of [("chunks_to_embed", PList (map (λ d, dict_of [("text", PStr (ed_text d))]) l))]), Toy (toy_docs e) l)
    | None => (unreadable, e)
    end;
  core_apply_text_upsert _ _ _ := λ e, (ok_answer, e);
  core_apply_text_upsert_array := Some (λ _ _ _ e, (ok_answer, Toy (put_texts store (toy_batch e) (toy_docs e)) []));
  core_prepare_query_text _ _ _ := ok_answer;
  core_search_embedded_text _ _ _ k f e := json_hits k f e;
  core_search_embedded_text_array := Some (λ _ _ _ k f e, json_hits k f e);
  core_search_embedded_text_batch _ _ _ _ _ _ := _dumps (PList []);
  core_stats _ e := _dumps (dict_of [("document_count", PInt (Z.of_nat (size (toy_docs e))))]);
  core_get_document_text _ i e := _dumps (opt_text (toy_docs e !! i ≫= nd_text));
  core_get_document_texts _ text e :=
    match read_list read_str text with
    | Some ids => _dumps (dict_of (map (λ kv, (kv.1, PStr kv.2)) (sort_by key_leb (omap (λ i, pair i <$> (toy_docs e !! i ≫= nd_text)) (remove_dups ids)))))
    | None => unreadable
    end;
  core_get_vectors _ _ _ := _dumps (PList []);
  core_get_document _ i e := _dumps (match toy_docs e !! i with Some d => PDict (toy_record (i, d)) | None => PNone end);
  core_list_documents _ f _ _ e := json_select f e (λ f, PList (map (λ x, PDict (toy_record x)) (toy_select f e)));
  core_persist := λ e, (Ok tt, e); core_ann_warm _ := mret true; core_compact _ := mret tt; core_refresh := mret tt;
  core_applied_lsn _ _ := Ok 0; core_fold_wal_segment _ _ _ := mret 0; core_close := mret tt; core_discard := mret tt |}.
End json_core.

(** What the engine answers, as it is read. *)
Lemma said v : json_ok v = true → ∃ t, _dumps v = Ok t ∧ loads t = Ok (canon v).
Proof. apply dumps_loads. Qed.

Lemma ok_object : object ok_answer.
Proof. destruct (said (dict_of [("status", PStr "ok")])) as (t & H1 & H2); [reflexivity|]. exists t. eexists. split; [exact H1|exact H2]. Qed.

Lemma json_put_upserts {T} (read : pyval → option T) put text l e : read_list read text = Some l →
  @core_upserts toy_engine json_view T put l e (json_put read put text e).
Proof. intros H. unfold json_put. rewrite H. split; [exists (length l); cbn; by rewrite firstn_all|done]. Qed.

Lemma toy_row_ok (e : toy_engine) f x : toy_docs e !! x.1 = Some x.2 → matches_metadata_filter (nd_metadata x.2) f = Ok true →
  json_ok (toy_row x) = true ∧ @row_ok _ json_view e f (canon (toy_row x)).
Proof.
  intros Hd Hm. assert (json_ok (toy_row x) = true) as Hok by object_ok. split; [done|]. unfold toy_row in *.
  destruct (object_get _ Hok) as (r & -> & Hr). exists r, (S754_zero false), x.1, x.2, (meta_dict (nd_metadata x.2)). rewrite !Hr.
  split; [done|]. split; [reflexivity|]. split; [reflexivity|]. split; [|split; [apply dict_meta_dict|done]].
  change (get_item "metadata" _) with (Some (PDict (meta_dict (nd_metadata x.2)))). cbn [fmap option_fmap option_map].
  by rewrite canon_dict, canon_meta_dict.
Qed.

Lemma toy_record_ok (e : toy_engine) x : toy_docs e !! x.1 = Some x.2 →
  json_ok (PDict (toy_record x)) = true ∧ ∃ r, canon (PDict (toy_record x)) = PDict r ∧ @record_ok _ json_view e x.1 r.
Proof.
  intros Hd. change (PDict (toy_record x)) with (dict_of [("document_id", PStr x.1); ("metadata", PDict (meta_dict (nd_metadata x.2))); ("chunk_count", PInt 1); ("content_hash", PStr "")]).
  assert (json_ok (dict_of [("document_id", PStr x.1); ("metadata", PDict (meta_dict (nd_metadata x.2))); ("chunk_count", PInt 1); ("content_hash", PStr "")]) = true) as Hok by object_ok.
  split; [done|]. destruct (object_get _ Hok) as (r & -> & Hr). exists r. split; [done|]. exists x.2, (meta_dict (nd_metadata x.2)), 1, "". rewrite !Hr.
  split; [done|]. split; [reflexivity|]. split; [|split; [apply dict_meta_dict|done]].
  change (get_item "metadata" _) with (Some (PDict (meta_dict (nd_metadata x.2)))). cbn [fmap option_fmap option_map].
  by rewrite canon_dict, canon_meta_dict.
Qed.

Lemma json_hits_ok k ft f (e : toy_engine) t p : read_filter ft = Some f → json_hits k (Some ft) e = Ok t → loads t = Ok (PDict p) →
  @hits_ok _ json_view e f (PDict p).
Proof.
  intros Hf Ht Hl. unfold json_hits, json_select in Ht. rewrite Hf in Ht.
  set (rows := take (Z.to_nat k) (toy_select (Some [(PStr "metadata", f)]) e)).
  change (toy_hits k (Some [(PStr "metadata", f)]) e) with (dict_of [("hits", PList (map toy_row rows))]) in Ht.
  assert (Forall (λ x, json_ok (toy_row x) = true ∧ @row_ok _ json_view e f (canon (toy_row x))) rows) as HF.
  { apply Forall_forall. intros x Hx. assert (x ∈ toy_select (Some [(PStr "metadata", f)]) e) as [H1 H2]%elem_of_toy_select.
    { rewrite <-(take_drop (Z.to_nat k)). set_solver. } by apply toy_row_ok. }
  assert (json_ok (dict_of [("hits", PList (map toy_row rows))]) = true) as Hok.
  { apply object_ok; [apply NoDup_singleton|]. repeat constructor. cbn [snd json_ok]. apply forallb_forall. intros ? (x & <- & Hx%list_elem_of_In)%in_map_iff.
    rewrite Forall_forall in HF. apply (HF x Hx). }
  destruct (said _ Hok) as (t' & Ht' & Hl'). rewrite Ht' in Ht. injection Ht as <-. rewrite Hl' in Hl.
  destruct (object_get _ Hok) as (d & Hd & Hget). rewrite Hd in Hl. injection Hl as <-. exists d, (map canon (map toy_row rows)).
  split; [done|]. split; [by rewrite Hget|]. rewrite map_map. apply Forall_map. eapply Forall_impl; [exact HF|]. by intros x [_ ?].
Qed.

Lemma toy_texts_sorted ids (e : toy_engine) : let l := sort_by key_leb (omap (λ i, pair i <$> (toy_docs e !! i ≫= nd_text)) (remove_dups ids)) in
  NoDup l.*1 ∧ (∀ id, get_item id l = if decide (id ∈ ids) then toy_docs e !! id ≫= nd_text else None) ∧
  json_ok (dict_of (map (λ kv, (kv.1, PStr kv.2)) l)) = true ∧ canon (dict_of (map (λ kv, (kv.1, PStr kv.2)) l)) = dict_of (map (λ kv, (kv.1, PStr kv.2)) l).
Proof.
  intros l. destruct (toy_texts ids e) as [Hnd Hg]. set (l0 := omap _ _) in Hnd, Hg. assert (l ≡ₚ l0) as Hp by apply sort_by_perm.
  assert (NoDup l.*1) as Hnd' by by rewrite Hp. split; [done|]. split; [|split].
  - intros id. rewrite <-Hg. apply option_eq. intros v. rewrite !get_item_elem by done. by rewrite Hp.
  - apply object_ok; [by rewrite <-list_fmap_compose|]. apply Forall_map, Forall_forall. done.
  - unfold dict_of. rewrite canon_dict. f_equal. unfold canon_items. rewrite !map_map. cbn [fst snd key_text canon].
    rewrite (sort_by_map key_leb key_leb (λ kv, (kv.1, PStr kv.2)) l) by done. rewrite (sort_by_id key_leb); [by rewrite map_map|].
    apply (sort_by_sorted key_leb); [apply key_leb_total|apply key_leb_trans].
Qed.

Lemma json_core_laws c : @CoreLaws _ (json_core (cf_store_text c)) json_view c (S754_zero false).
Proof.
  split.
  - done.
  - intros e. by exists e.
  - intros text e. cbn. by destruct (read_list read_document text).
  - intros text l e Hr _ _. cbn. rewrite Hr. cbn [fst]. set (plan := [("chunks_to_embed", _)]).
    assert (json_ok (dict_of plan) = true) as Hok.
    { apply object_ok; [apply NoDup_singleton|]. repeat constructor. cbn. apply forallb_forall. by intros ? (d & <- & _)%in_map_iff. }
    destruct (said _ Hok) as (t & Ht & Hl). destruct (object_get _ Hok) as (d & Hd & Hg). exists t, d. rewrite <-Hd. split; [done|]. split; [done|].
    unfold chunks_to_embed, py_get. rewrite Hg. change (get_item "chunks_to_embed" plan) with (Some (PList (map (λ d, dict_of [("text", PStr (ed_text d))]) l))).
    cbn [fmap option_fmap option_map canon mbind result_bind py_iter]. rewrite map_map, mapR_map. exists (map ed_text l). apply (mapR_total ed_text).
  - eexists. split; [reflexivity|]. intros text l plan_text plan e e' embeddings Hr Hp _. cbn in Hp. rewrite Hr in Hp. injection Hp as _ <-.
    split; [|intros _ _ _; apply ok_object]. split; [exists (length l); cbn; by rewrite firstn_all|done].
  - eexists. split; [reflexivity|]. intros m text l e Hr _. split; [by apply json_put_upserts|]. intros _ _. unfold json_put. rewrite Hr. apply ok_object.
  - intros text e Hr. cbn. unfold json_put. rewrite Hr. split; [done|apply ok_object].
  - intros text id e Hr _. cbn. rewrite Hr. cbn [fst snd]. split; [|done]. set (n := Z.of_nat _).
    assert (json_ok (dict_of [("documents_deleted", PInt n)]) = true) as Hok by reflexivity.
    destruct (said _ Hok) as (t & Ht & Hl). destruct (object_get _ Hok) as (d & Hd & Hg). exists t, d. rewrite <-Hd, Hg. split; [done|]. split; [done|].
    unfold n. cbn. by destruct (toy_docs e !! id).
  - intros id e. destruct (opt_text_read (toy_docs e !! id ≫= nd_text)) as [Hok _]. destruct (said _ Hok) as (t & Ht & Hl). exists t. split; [exact Ht|].
    rewrite Hl. change (@collection _ json_view e) with (toy_docs e). by destruct (toy_docs e !! id ≫= nd_text).
  - intros text ids e Hr. cbn. rewrite Hr. destruct (toy_texts_sorted ids e) as (Hnd & Hg & Hok & Hc). destruct (said _ Hok) as (t & Ht & Hl).
    eexists t, _. split; [exact Ht|]. rewrite Hl, Hc. done.
  - intros e. assert (json_ok (dict_of [("document_count", PInt (Z.of_nat (size (toy_docs e))))]) = true) as Hok by reflexivity.
    destruct (said _ Hok) as (t & Ht & Hl). destruct (object_get _ Hok) as (d & Hd & Hg). exists t, d. rewrite <-Hd, Hg. done.
  - intros id e. cbn. destruct (toy_docs e !! id) as [d|] eqn:Ed.
    + destruct (toy_record_ok e (id, d) Ed) as (Hok & r & Hr & Hrec). destruct (said _ Hok) as (t & Ht & Hl). exists t. split; [exact Ht|]. right.
      exists r. by rewrite Hl, Hr.
    + destruct (said PNone) as (t & Ht & Hl); [done|]. exists t. split; [exact Ht|]. by left.
  - intros ft f e Hf _. cbn. unfold json_select. rewrite Hf. set (sel := toy_select (Some [(PStr "metadata", f)]) e).
    assert (Forall (λ x, json_ok (PDict (toy_record x)) = true ∧ ∃ r, canon (PDict (toy_record x)) = PDict r ∧ @record_ok _ json_view e x.1 r) sel) as HF.
    { apply Forall_forall. intros x [Hx _]%elem_of_toy_select. by apply toy_record_ok. }
    assert (json_ok (PList (map (λ x, PDict (toy_record x)) sel)) = true) as Hok.
    { cbn [json_ok]. apply forallb_forall. intros ? (x & <- & Hx%list_elem_of_In)%in_map_iff. rewrite Forall_forall in HF. apply (HF x Hx). }
    destruct (said _ Hok) as (t & Ht & Hl). exists t, (map (λ x, canon_items (toy_record x)) sel), sel.*1. split; [exact Ht|].
    rewrite Hl. cbn [canon]. rewrite !map_map. split; [done|]. split; [|split; [apply toy_select_NoDup|]].
    + apply Forall2_fmap, Forall_Forall2_diag. eapply Forall_impl; [exact HF|]. intros x (_ & r & Hr & Hrec). rewrite canon_dict in Hr. injection Hr as ->. exact Hrec.
    + intros id. rewrite list_elem_of_fmap. split.
      * intros (x & -> & [Hx Hm]%elem_of_toy_select). by exists x.2.
      * intros (d & Hd & Hm). exists (id, d). split; [done|]. by apply elem_of_toy_select.
  - eexists. split; [reflexivity|]. intros v k ft f e t p. apply json_hits_ok.
  - eexists. split; [reflexivity|]. intros plan v k ft f e t p. apply json_hits_ok.
  - intros plan k ft f e t p. apply json_hits_ok.
Qed.

