(* ===== verification/LocalVerbs.v ===== *)
(** * The other verbs of the local database

    [local/db.py], beside [LocalDb.v]: embedding texts without storing them, searches answered
    with flat arrays, the image verbs with their counters, stored vectors, compaction, refresh and
    statistics, and the alternate constructors. The engine's calls are the class [NativeUpkeep], which the handle of
    [NativeAdapter.v] implements; what an embedder of images offers is [ImageModel]; NumPy's mean
    and norm are [Pooling]. *)

From Stdlib Require Import Ascii String ZArith Lia SpecFloat.
From stdpp Require Import base strings gmap sets list.
From S2P Require Import Prelude Numbers PyVal Bytes Json FileSys Predicate Topology EngineCore RouteRegistry VectorBoundary LocalOpen LocalDb LocalInit.
From S2P Require NativeAdapter.

Local Open Scope Z_scope.

(** ** Embedding texts *)

(** [np.asarray(rows, dtype=float64).mean(axis=0)], which fails on ragged rows, and [np.linalg.norm]. *)
Class Pooling := { mean_rows : list (list spec_float) → result (list spec_float); vector_norm : list spec_float → spec_float }.

Section embed.
Context {P : Pooling}.
Variable c : LodeConfig.

(** What is sent for one text: its chunks, and the text itself when there is one. *)
Definition text_pieces (text : string) : result (list string) :=
  chunks ← chunk_text text (cf_chunk_limit c);
  Ok (if Nat.eqb (length chunks) 1 then [text] else chunks).

(** The part of the batch that belongs to each text. *)
Fixpoint offsets (start : nat) (pieces : list (list string)) : list (nat * nat) :=
  match pieces with
  | [] => []
  | p :: pieces => (start, (start + length p)%nat) :: offsets (start + length p) pieces
  end.

Definition pooled_embedding (vectors : list (list spec_float)) (span : nat * nat) : result (list spec_float) :=
  let count := (span.2 - span.1)%nat in
  if Nat.eqb count 1 then list_get vectors span.1
  else
    pooled ← mean_rows (take count (drop span.1 vectors));
    let norm := vector_norm pooled in
    if is_zero norm then raise ValueError "mean-pooled embedding has zero norm"
    else Ok (map (λ x, fdiv x norm) pooled).

Definition texts_to_embed (texts : pyval) : result (list string) :=
  match texts with
  | PList (t :: ts) => mapR (λ v, nonblank v "each text must be a non-empty string") (t :: ts)
  | _ => raise ValueError "texts must be a non-empty list of strings"
  end.

Definition embed_texts {E} (texts : pyval) : st (LodeDB E) (list (list spec_float)) :=
  _ ← _require_text_capable c;
  l ← st_lift (texts_to_embed texts);
  backend ← st_lift (match cf_backend c with
                     | Some b => Ok b
                     | None => raise RuntimeError "text embedding requires an embedding backend"
                     end);
  pieces ← st_lift (mapR text_pieces l);
  vectors ← st_lift (embed_documents backend (concat pieces));
  st_lift (mapR (pooled_embedding vectors) (offsets 0 pieces)).
End embed.

(** ** Searches answered with arrays *)

Record arrays_answer := ArraysAnswer
  { aa_scores : list (list spec_float); aa_ids : list (list string); aa_metadata : option (list (list pydict)); aa_k : nat }.

(** [_nest]: rows of [k] of a flat list. *)
Definition nest {A} (nq k : nat) (flat : list A) : list (list A) :=
  if Nat.eqb k 0 then replicate nq [] else map (λ q, take k (drop (q * k) flat)) (seq 0 nq).

Definition reshape (nq k : nat) (scores : list spec_float) : result (list (list spec_float)) :=
  if Nat.eqb (length scores) (nq * k) then Ok (nest nq k scores) else raise ValueError "cannot reshape array".

Section arrays.
Context {E : Type} {NE : NativeEngine E} {R : Reductions}.
Variable c : LodeConfig.
Local Notation db := (LodeDB E).

Definition _native_search_many_by_vector_arrays (matrix : list (list spec_float)) (k : Z) (filter : option pydict)
    (want_metadata : bool) : st db native_arrays :=
  match query_vectors_batch_arrays with
  | None => st_lift (raise RuntimeError "native core lacks the arrays vector-batch query")
  | Some arrays_query =>
      arrays ← guarded "native_core_batch_query_failed" "native core vector batch query failed"
                 (st_read (arrays_query matrix k filter want_metadata));
      st_lift (match arrays with
               | Some a => Ok a
               | None => raise RuntimeError "native core arrays vector-batch query is unavailable"
               end)
  end.

Definition search_many_by_vector_arrays (vectors : list (list spec_float)) (k : Z) (filter : pyval) (normalize include_metadata : bool)
    : st db arrays_answer :=
  _ ← positive_k k;
  matrix ← st_lift (_prepare_vector_matrix vectors (cf_vector_dim c) normalize);
  f ← st_lift (_normalize_filter filter);
  a ← _native_search_many_by_vector_arrays matrix k f include_metadata;
  scores ← st_lift (reshape (length matrix) (na_k a) (map to_float32 (na_scores a)));
  let rows {A} (flat : list A) := nest (length matrix) (na_k a) flat in
  mret (ArraysAnswer scores (rows (na_ids a)) (if include_metadata then Some (rows (na_metadata a)) else None) (na_k a)).
End arrays.

(** ** Images *)

(** The image side of an embedding backend; text-only backends have no [embed_images]. [encode_seconds] is
    what the clock shows for the [n]-th encoding. *)
Class ImageModel (I : Type) := {
  embed_images : option (list I → result (list (list spec_float)));
  image_batch_size : pyval;
  encode_clock : Z → spec_float }.

Record image_counters := Counters
  { images_embedded : Z; encode_calls : Z; encode_seconds : spec_float; encode_failures : Z }.
Inductive image_phase := Ingest | Query.

(** A handle with its [_image_metrics]. *)
Record image_db (E : Type) := ImageDb { im_db : LodeDB E; im_ingest : image_counters; im_query : image_counters }.
Arguments ImageDb {E} _ _ _.
Arguments im_db {E} _.
Arguments im_ingest {E} _.
Arguments im_query {E} _.

Definition zero_counters : image_counters := Counters 0 0 (S754_zero false) 0.

Record image_item (I : Type) := ImageItem { ii_image : option I; ii_id : pyval; ii_metadata : pyval; ii_text : pyval }.
Arguments ImageItem {I} _ _ _ _.
Arguments ii_image {I} _.
Arguments ii_id {I} _.
Arguments ii_metadata {I} _.
Arguments ii_text {I} _.

Section images.
Context {E I : Type} {NE : NativeEngine E} {R : Reductions} {TH : Secrets} {IM : ImageModel I}.
Variable c : LodeConfig.
Local Notation idb := (image_db E).

Definition on_db {A} (m : st (LodeDB E) A) : st idb A := λ d,
  let out := m (im_db d) in (out.1, ImageDb out.2 (im_ingest d) (im_query d)).

Definition counters_of (phase : image_phase) (d : idb) : image_counters :=
  match phase with Ingest => im_ingest d | Query => im_query d end.
Definition set_counters (phase : image_phase) (m : image_counters) (d : idb) : idb :=
  match phase with Ingest => ImageDb (im_db d) m (im_query d) | Query => ImageDb (im_db d) (im_ingest d) m end.

Definition failed_encode (m : image_counters) : image_counters :=
  Counters (images_embedded m) (encode_calls m) (encode_seconds m) (encode_failures m + 1).
Definition counted_encode (n : nat) (m : image_counters) : image_counters :=
  Counters (images_embedded m + Z.of_nat n) (encode_calls m + 1) (fadd (encode_seconds m) (encode_clock (encode_calls m))) (encode_failures m).

Definition _image_backend : st idb (list I → result (list (list spec_float))) :=
  st_lift (match cf_backend c, embed_images with
           | Some _, Some f => Ok f
           | _, _ => raise ImageEmbeddingUnsupportedError ("this index cannot embed images; open LodeDB with model='clip' "
               +:+ "(install the extra: pip install 'lodedb[image]'), or pass a custom embedder= that exposes embed_images")
           end).

Definition _embed_images_tracked (backend : list I → result (list (list spec_float))) (phase : image_phase) (images : list I)
    : st idb (list (list spec_float)) := λ d,
  let m := counters_of phase d in
  match backend images with
  | Err e => (Err e, set_counters phase (failed_encode m) d)
  | Ok vectors => (Ok vectors, set_counters phase (counted_encode (length images) m) d)
  end.

(** [tuple[0]]. *)
Definition first_vector (vectors : list (list spec_float)) : st idb (list spec_float) :=
  st_lift (match vectors with v :: _ => Ok v | [] => raise IndexError "tuple index out of range" end).

Definition add_image (image : I) (id metadata text : pyval) : st idb string :=
  _ ← on_db (_require_writable c);
  backend ← _image_backend;
  _ ← st_lift (_coerce_metadata metadata);
  _ ← st_lift (_coerce_optional_text text);
  vectors ← _embed_images_tracked backend Ingest [image];
  vector ← first_vector vectors;
  on_db (add_vectors c vector id metadata text true).

(** One checked item: its image, and what is stored beside its vector. *)
Definition checked_image (item : image_item I) : st idb (I * sidecar_entry) :=
  image ← st_lift (match ii_image item with Some i => Ok i | None => raise ValueError "each document needs an 'image'" end);
  document_id ← on_db (document_id_of (ii_id item));
  m ← st_lift (_coerce_metadata (ii_metadata item));
  t ← st_lift (_coerce_optional_text (ii_text item));
  mret (image, Sidecar document_id m t).

Definition image_batch : result nat :=
  n ← py_int (py_or image_batch_size (PInt 16)); Ok (Z.to_nat (Z.max 1 n)).

Definition image_document (normalize : bool) (vectors : list (list spec_float)) (row : nat * sidecar_entry)
    : result EngineVectorDocument :=
  v ← list_get vectors row.1;
  prepared ← _prepare_vector v (cf_vector_dim c) normalize;
  Ok (EngineVec (sc_id row.2) prepared (sc_metadata row.2) (sc_text row.2)).

(** [documents] is [None] when it is not a list. *)
Definition add_images (documents : option (list (image_item I))) (normalize : bool) : st idb (list string) :=
  _ ← on_db (_require_writable c);
  backend ← _image_backend;
  items ← st_lift (match documents with Some l => Ok l | None => raise ValueError "documents must be a list" end);
  rows ← mapS checked_image items;
  match rows with
  | [] => mret []
  | _ =>
      n ← st_lift image_batch;
      vectors ← mapS (_embed_images_tracked backend Ingest) (batches n (map fst rows));
      payload ← st_lift (mapR (image_document normalize (concat vectors)) (zip (seq 0 (length rows)) (map snd rows)));
      _ ← on_db (_native_upsert_vectors c payload);
      mret (map (λ r, sc_id r.2) rows)
  end.

Definition search_by_image (image : I) (k : Z) (filter : pyval) : st idb (list SearchHit) :=
  _ ← on_db (positive_k k);
  backend ← _image_backend;
  vectors ← _embed_images_tracked backend Query [image];
  vector ← first_vector vectors;
  on_db (search_by_vector c vector k filter true).
End images.

(** ** Upkeep *)

Class NativeUpkeep (E : Type) := {
  get_vector_rows : list string → E → result (list pydict);
  ann_warm : st E bool;
  compact_index : st E unit;
  refresh_view : st E unit;
  applied : E → result Z }.

(** The calls of the adapter's handle. *)
Definition adapter_upkeep {X} {CE : NativeAdapter.CoreEngine X} : NativeUpkeep X := {|
  get_vector_rows := NativeAdapter.NativeCoreEngineHandle.get_vectors _LOCAL_INDEX_ID;
  ann_warm := NativeAdapter.NativeCoreEngineHandle.ann_warm _LOCAL_INDEX_ID;
  compact_index := NativeAdapter.NativeCoreEngineHandle.compact _LOCAL_INDEX_ID;
  refresh_view := NativeAdapter.NativeCoreEngineHandle.refresh;
  applied := NativeAdapter.NativeCoreEngineHandle.applied_lsn _LOCAL_INDEX_ID |}.

Record LodeStoredVector := StoredVector { sv_document_id : string; sv_chunk_id : string; sv_vector : list spec_float }.

Section upkeep.
Context {E : Type} {NE : NativeEngine E} {NU : NativeUpkeep E}.
Context (c : LodeConfig) (version : pyval) (abi_version : pyval).
Local Notation db := (LodeDB E).

(** A call that is not guarded: the engine's own error propagates. *)
Definition unguarded {A} (m : st E A) : st db A := λ d, let out := m (db_engine d) in (out.1, with_engine d out.2).

Definition get (id : pyval) : st db (option string) := get_text c id.

Definition stored_vector (row : pydict) : result LodeStoredVector :=
  d ← py_index (PDict row) "document_id";
  k ← py_index (PDict row) "chunk_id";
  v ← py_index (PDict row) "vector";
  values ← py_iter v;
  vector ← mapR py_float values;
  Ok (StoredVector (py_str d) (py_str k) vector).

Definition _native_get_vectors (ids : list string) : st db (list pydict) :=
  guarded "native_core_get_vectors_failed" "native core vector read failed" (st_read (get_vector_rows ids)).

Definition get_vectors (ids : pyval) : st db (list LodeStoredVector) :=
  l ← st_lift (match ids with
               | PList l => mapR (λ v, nonblank v "each id must be a non-empty string") l
               | _ => raise ValueError "ids must be a list of strings"
               end);
  match l with
  | [] => mret []
  | _ => rows ← _native_get_vectors l; st_lift (mapR stored_vector rows)
  end.

Definition compact : st db pydict :=
  _ ← _require_writable c;
  warmed ← unguarded ann_warm;
  _ ← unguarded compact_index;
  _ ← _native_persist c;
  mret [(PStr "ann_warmed", PBool warmed); (PStr "base_rewritten", PBool true)].

Definition refresh : st db unit := unguarded refresh_view.
Definition applied_lsn : st db Z := unguarded (st_read applied).

(** Status of the handle; an engine that cannot tell its statistics has none. *)
Definition _native_core_stats : st db pydict := λ d,
  let out := _native_stats d in
  let stats := match out.1 with Ok v => v | Err _ => PDict [] end in
  let writes := negb (cf_read_only c) in
  (count ← count_of "document_count" stats;
   Ok [(PStr "mode", PStr "on"); (PStr "write_mode", PStr (if writes then "on" else "off"));
       (PStr "version", version); (PStr "abi_version", abi_version); (PStr "enabled", PBool true); (PStr "covered", PBool true);
       (PStr "fallback_reason", PStr (db_fallback_reason out.2)); (PStr "document_count", PInt count);
       (PStr "write_through", PBool writes)], out.2).

Definition counters_dict (m : image_counters) : pyval :=
  dict_of [("images_embedded", PInt (images_embedded m)); ("encode_calls", PInt (encode_calls m));
           ("encode_seconds", PFloat (encode_seconds m)); ("encode_failures", PInt (encode_failures m))].

Definition stats : st (image_db E) pydict :=
  v ← on_db _native_stats;
  d ← st_lift (py_dict v);
  images ← st_read (λ s, Ok (dict_of [("ingest", counters_dict (im_ingest s)); ("query", counters_dict (im_query s))]));
  let d := dict_set "image_embedding" images d in
  core ← on_db _native_core_stats;
  let d := dict_set "native_core" (PDict core) d in
  n ← st_lift (count_of "document_count" (PDict d));
  mret (dict_set "document_count" (PInt n) d).
End upkeep.

(** ** Constructors *)

Definition CLOUD_TARGET_SCHEME : string := "orecloud://".

(** Where [LodeDB(path, **kwargs)] goes: a managed store when the path names one, else local. *)
Definition cloud_target (path kw_path : pyval) : option string :=
  match (match path with PNone => kw_path | _ => path end) with
  | PStr t => if startswith CLOUD_TARGET_SCHEME t then Some t else None
  | _ => None
  end.

(** [read_only=True] beside the other arguments. *)
Definition read_only_args (a : init_args) : init_args :=
  Init (ia_model a) (ia_vector_dim a) (ia_embedder a) (ia_bit_width a) (ia_chunk_character_limit a) (ia_store_text a) (ia_index_text a)
    (ia_ann a) (ia_ann_clusters a) (ia_ann_nprobe a) (ia_rescore a) (ia_rescore_dtype a) (ia_rescore_oversample a)
    (ia_compression a) true (ia_durability a) (ia_commit_mode a) (ia_embedding_backend a).
Definition byo_args (vector_dim bit_width : pyval) (a : init_args) : init_args :=
  Init (ia_model a) vector_dim (ia_embedder a) bit_width (ia_chunk_character_limit a) (ia_store_text a) (ia_index_text a)
    (ia_ann a) (ia_ann_clusters a) (ia_ann_nprobe a) (ia_rescore a) (ia_rescore_dtype a) (ia_rescore_oversample a)
    (ia_compression a) (ia_read_only a) (ia_durability a) (ia_commit_mode a) (ia_embedding_backend a).

Section constructors.
Context {E : Type} {NO : NativeOpen E} {NH : NativeHost E}.
Context (environ : gmap string string) (build_backend : LocalModelPreset → result EmbeddingBackend).

Definition open_readonly (d : path) (a : init_args) : io (LodeConfig * LodeDB E) := LodeDB_init environ build_backend d (read_only_args a).
Definition open_vector_store (d : path) (vector_dim bit_width : pyval) (a : init_args) : io (LodeConfig * LodeDB E) :=
  LodeDB_init environ build_backend d (byo_args vector_dim bit_width a).
End constructors.

(** ** Lemmas *)

Lemma mapR_app {A B} (f : A → result B) l k ys : mapR f (l ++ k) = Ok ys ↔
  ∃ y1 y2, mapR f l = Ok y1 ∧ mapR f k = Ok y2 ∧ ys = y1 ++ y2.
Proof.
  rewrite !mapR_Ok. split; [intros (y1 & y2 & ?%mapR_Ok & ?%mapR_Ok & ->)%Forall2_app_inv_l; eauto|].
  intros (y1 & y2 & ?%mapR_Ok & ?%mapR_Ok & ->). by apply Forall2_app.
Qed.

Lemma mapR_concat {A B} (f : A → result B) ls ys : mapR f (concat ls) = Ok ys ↔
  ∃ yss, mapR (mapR f) ls = Ok yss ∧ ys = concat yss.
Proof.
  revert ys; induction ls as [|l ls IH]; intros ys; cbn [concat].
  - cbn. split; [intros [= <-]; by exists []|]. by intros (? & [= <-] & ->).
  - rewrite mapR_app. split.
    + intros (y1 & y2 & H1 & (yss & H2 & ->)%IH & ->). exists (y1 :: yss). split; [|done]. cbn [mapR]. by rewrite H1, H2.
    + intros (yss & H & ->). apply mapR_Ok, Forall2_cons_inv_l in H as (y1 & yss' & H1 & H2 & ->). exists y1, (concat yss').
      split; [done|]. split; [|done]. apply IH. exists yss'. split; [|done]. by apply mapR_Ok.
Qed.

Section embed_lemmas.
Context {P : Pooling} (c : LodeConfig).

(** A pooled embedding sees its own part of the batch. *)
Lemma pooled_part pre vs rest : pooled_embedding (pre ++ vs ++ rest) (length pre, (length pre + length vs)%nat)
  = pooled_embedding vs (0%nat, length vs).
Proof.
  unfold pooled_embedding, list_get. cbn [fst snd]. rewrite Nat.sub_0_r, Nat.add_comm, Nat.add_sub, drop_app_length. cbn [drop].
  destruct (Nat.eqb_spec (length vs) 1) as [E|E].
  - rewrite lookup_app_r, Nat.sub_diag by lia. by rewrite lookup_app_l by lia.
  - by rewrite take_app_length, firstn_all.
Qed.

Lemma pooled_parts pieces vss pre : Forall2 (λ (p : list string) (vs : list (list spec_float)), length vs = length p) pieces vss →
  mapR (pooled_embedding (pre ++ concat vss)) (offsets (length pre) pieces)
    = mapR (λ vs, pooled_embedding vs (0%nat, length vs)) vss.
Proof.
  intros H. revert pre. induction H as [|p vs pieces vss Hl _ IH]; intros pre; [done|]. cbn [offsets mapR concat].
  rewrite <-Hl, pooled_part. destruct (pooled_embedding vs (0%nat, length vs)) as [e|]; [|done]. cbn [mbind result_bind].
  rewrite (assoc_L (++)), <-length_app. by rewrite IH.
Qed.

(** What one text embeds to. *)
Definition embed_one (f : string → result (list spec_float)) (text : string) : result (list spec_float) :=
  t ← nonblank (PStr text) "each text must be a non-empty string";
  pieces ← text_pieces c t;
  vs ← mapR f pieces;
  pooled_embedding vs (0%nat, length vs).

Lemma nonblanks l ts : mapR (λ v, nonblank v "each text must be a non-empty string") (map PStr l) = Ok ts ↔
  ts = l ∧ Forall (λ t, is_blank t = false) l.
Proof.
  rewrite mapR_map, mapR_Ok. split.
  - induction 1 as [|t t' l ts Ht _ [-> IH]]; [done|]. rewrite nonblank_str in Ht. destruct (is_blank t) eqn:E; [done|].
    injection Ht as <-. by split; [|constructor].
  - intros [-> H]. induction H as [|t l Ht _ IH]; constructor; [|done]. by rewrite nonblank_str, Ht.
Qed.

(** One run over a batch, its steps related text by text. *)
Lemma batch_steps f l es : Forall2 (λ t e, embed_one f t = Ok e) l es ↔
  Forall (λ t, is_blank t = false) l ∧ ∃ pieces vss, mapR (text_pieces c) l = Ok pieces ∧ mapR (mapR f) pieces = Ok vss ∧
    mapR (λ vs, pooled_embedding vs (0%nat, length vs)) vss = Ok es.
Proof.
  split.
  - induction 1 as [|t e l es Ht _ (Hb & pieces & vss & H1 & H2 & H3)]; [by split; [|exists [], []]|].
    unfold embed_one in Ht. rewrite nonblank_str in Ht. destruct (is_blank t) eqn:E; [done|]. cbn [mbind result_bind] in Ht.
    destruct (text_pieces c t) as [p|] eqn:Ep; [|done]. cbn [mbind result_bind] in Ht.
    destruct (mapR f p) as [vs|] eqn:Ev; [|done]. cbn [mbind result_bind] in Ht.
    split; [by constructor|]. exists (p :: pieces), (vs :: vss). cbn [mapR]. by rewrite Ep, H1, Ev, H2, Ht, H3.
  - intros (Hb & pieces & vss & H1%mapR_Ok & H2%mapR_Ok & H3%mapR_Ok). revert es vss H2 H3. induction H1 as [|t p l pieces Ht _ IH]; intros es vss H2 H3.
    { inversion H2; subst. inversion H3; subst. constructor. }
    apply Forall2_cons_inv_l in H2 as (vs & vss' & Hv & H2 & ->). apply Forall2_cons_inv_l in H3 as (e & es' & He & H3 & ->).
    apply Forall_cons in Hb as [Hb Hbs]. constructor; [|by eapply IH]. unfold embed_one. rewrite nonblank_str, Hb. cbn [mbind result_bind].
    rewrite Ht. cbn [mbind result_bind]. by rewrite Hv.
Qed.

Lemma embed_texts_run {E} b f l es (x x' : LodeDB E) : cf_vector_only c = false → cf_backend c = Some b →
  (∀ l, embed_documents b l = mapR f l) → l ≠ [] →
  embed_texts c (PList (map PStr l)) x = (Ok es, x') ↔ x' = x ∧ Forall2 (λ t e, embed_one f t = Ok e) l es.
Proof.
  intros Hv Hb Hf Hl. rewrite batch_steps. unfold embed_texts, _require_text_capable. rewrite Hv, Hb, !lift_run.
  assert (texts_to_embed (PList (map PStr l)) = mapR (λ v, nonblank v "each text must be a non-empty string") (map PStr l)) as -> by by destruct l.
  destruct (mapR _ (map PStr l)) as [ts|e] eqn:Ets.
  2: { split; [done|]. intros (_ & Hbl & _). assert (mapR (λ v, nonblank v "each text must be a non-empty string") (map PStr l) = Ok l) by (by apply nonblanks). congruence. }
  apply nonblanks in Ets as [-> Hbl]. rewrite !lift_run.
  destruct (mapR (text_pieces c) l) as [pieces|e]; [|split; [done|by intros (_ & _ & ? & ? & ? & _)]].
  rewrite lift_run, Hf. destruct (mapR f (concat pieces)) as [vs|e] eqn:Evs.
  - apply mapR_concat in Evs as (vss & Hvss & ->).
    assert (Forall2 (λ (p : list string) (vs : list (list spec_float)), length vs = length p) pieces vss) as Hlen.
    { apply mapR_Ok in Hvss. eapply Forall2_impl; [exact Hvss|]. intros p vs Hp. by apply mapR_length in Hp. }
    pose proof (pooled_parts pieces vss [] Hlen) as Hp. cbn [app length] in Hp. unfold st_lift. rewrite Hp.
    split.
    + intros [= He ->]. split; [done|]. split; [done|]. by exists pieces, vss.
    + intros (-> & _ & p' & v' & [= <-] & H2 & H3). assert (v' = vss) as -> by congruence. by rewrite H3.
  - split; [done|]. intros (_ & _ & p' & v' & [= <-] & H2 & _).
    assert (mapR f (concat pieces) = Ok (concat v')) as H by (apply mapR_concat; by exists v'). congruence.
Qed.
End embed_lemmas.

(** C21: embedding a batch is embedding its texts one by one. For an embedding model that
    treats texts independently, [embed_texts] answers a batch exactly when it answers every text
    of it alone, with the same vectors in the same order: joining the chunks of all texts in one
    call and cutting the answer by offsets mixes nothing up, whatever the lengths of the texts and
    however they are pooled. It changes nothing in the handle. *)
Theorem embeds_each_text {E} {P : Pooling} (c : LodeConfig) (b : EmbeddingBackend) (f : string → result (list spec_float))
    (l : list string) (es : list (list spec_float)) (x x' : LodeDB E) :
  cf_vector_only c = false → cf_backend c = Some b → (∀ l, embed_documents b l = mapR f l) → l ≠ [] →
  embed_texts c (PList (map PStr l)) x = (Ok es, x') ↔
    x' = x ∧ Forall2 (λ t e, embed_texts c (PList [PStr t]) x = (Ok [e], x)) l es.
Proof.
  intros Hv Hb Hf Hl. rewrite (embed_texts_run c b f) by done. apply and_iff_compat_l.
  split; (intros H; eapply Forall2_impl; [exact H|]; intros t e).
  - intros He. apply (embed_texts_run c b f [t]); [done..|]. by repeat constructor.
  - intros He. apply (embed_texts_run c b f [t]) in He as [_ He]; [|done..]. by inversion He.
Qed.

(** ** Arrays and hits *)

Lemma slice_seq {A} (d : A) (l : list A) b k : (b + k ≤ length l)%nat →
  map (λ o, default d (l !! (b + o)%nat)) (seq 0 k) = take k (drop b l).
Proof.
  intros Hl. apply list_eq. intros i. rewrite list_lookup_fmap. destruct (decide (i < k)%nat) as [Hi|Hi].
  - rewrite lookup_seq_lt, lookup_take_lt, lookup_drop by done. cbn. destruct (lookup_lt_is_Some_2 l (b + i)%nat) as [y ->]; [lia|done].
  - rewrite lookup_take_ge by lia. by rewrite lookup_seq_ge by lia.
Qed.

Definition full_rows (nq : nat) (a : native_arrays) : Prop :=
  length (na_scores a) = (nq * na_k a)%nat ∧ length (na_ids a) = (nq * na_k a)%nat ∧ length (na_metadata a) = (nq * na_k a)%nat.

Lemma nest_rows {A} (d : A) nq k (l : list A) : length l = (nq * k)%nat →
  nest nq k l = map (λ q, map (λ o, default d (l !! (q * k + o)%nat)) (seq 0 k)) (seq 0 nq).
Proof.
  intros Hl. unfold nest. destruct (Nat.eqb_spec k 0) as [->|Hk].
  - cbn. clear Hl. generalize 0%nat. induction nq as [|n IH]; intros i; [done|]. cbn. f_equal. apply IH.
  - apply map_ext_in. intros q Hq%in_seq. symmetry. apply slice_seq. nia.
Qed.

(** The hits read from the arrays, and their columns. *)
Lemma hits_columns nq a : full_rows nq a → ∃ hits, _hits_from_native_arrays a nq = Ok hits ∧
  map (map sh_score) hits = nest nq (na_k a) (na_scores a) ∧ map (map sh_id) hits = nest nq (na_k a) (na_ids a) ∧
  map (map sh_metadata) hits = nest nq (na_k a) (na_metadata a).
Proof.
  intros (Hs & Hi & Hm). rewrite (nest_rows (S754_zero false)), (nest_rows ""), (nest_rows []) by done.
  set (hit i := MkHit (default (S754_zero false) (na_scores a !! i)) (default "" (na_ids a !! i)) (default [] (na_metadata a !! i))).
  exists (map (λ q, map (λ o, hit (q * na_k a + o)%nat) (seq 0 (na_k a))) (seq 0 nq)). split; [|by rewrite !map_map;
    split_and!; apply map_ext; intros q; rewrite map_map].
  unfold _hits_from_native_arrays. destruct (Nat.eqb_spec (na_k a) 0) as [Hk|Hk].
  - rewrite Hk. cbn [seq map]. f_equal. clear. generalize 0%nat. induction nq as [|n IH]; intros i; [done|]. cbn. f_equal. apply IH.
  - rewrite <-mapR_total. apply mapR_ext, Forall_forall. intros q Hq%elem_of_seq. rewrite <-mapR_total.
    apply mapR_ext, Forall_forall. intros o Ho%elem_of_seq. unfold array_hit, list_get, hit.
    destruct (lookup_lt_is_Some_2 (na_scores a) (q * na_k a + o)%nat) as [s ->]; [nia|].
    by destruct (lookup_lt_is_Some_2 (na_ids a) (q * na_k a + o)%nat) as [d ->]; [nia|].
Qed.

(** The array answer is the hit answer in columns: for an engine that answers full rows of 32-bit
    scores, the scores, ids and metadata of [search_many_by_vector_arrays] are those of the hits
    [search_many_by_vector] gives for the same queries. *)
Theorem arrays_are_the_hits {E} {NE : NativeEngine E} {R : Reductions} (c : LodeConfig) q vectors m k filter f normalize a (x : LodeDB E) :
  query_vectors_batch_arrays = Some q → 0 < k → _prepare_vector_matrix vectors (cf_vector_dim c) normalize = Ok m →
  _normalize_filter filter = Ok f → q m k f true (db_engine x) = Ok (Some a) →
  full_rows (length m) a → map to_float32 (na_scores a) = na_scores a →
  ∃ hits x1 x2, search_many_by_vector c vectors k filter normalize x = (Ok hits, x1) ∧
    search_many_by_vector_arrays c vectors k filter normalize true x =
      (Ok (ArraysAnswer (map (map sh_score) hits) (map (map sh_id) hits) (Some (map (map sh_metadata) hits)) (na_k a)), x2).
Proof.
  intros Hq Hk Hm Hf Ha Hr H32. destruct (hits_columns _ _ Hr) as (hits & Hh & H1 & H2 & H3). exists hits.
  unfold search_many_by_vector, search_many_by_vector_arrays, positive_k. destruct (Z.leb_spec k 0); [lia|].
  rewrite Hm, Hf, !lift_run. unfold _native_search_many_by_vector, _native_search_many_by_vector_arrays, batch_answer. rewrite Hq.
  unfold guarded. rewrite !st_bind_run. unfold st_read. rewrite Ha. cbn [mbind result_bind]. rewrite Hh. eexists _, _.
  split; [reflexivity|]. cbn [fst snd]. unfold st_lift at 1. rewrite !st_bind_run. unfold st_lift, reshape.
  destruct Hr as (Hs & _). rewrite H32, Hs, Nat.eqb_refl. unfold mret, st_ret. by rewrite H1, H2, H3.
Qed.

(** ** Images *)

Section image_lemmas.
Context {E I : Type} {NE : NativeEngine E} {NV : NativeView E} {R : Reductions} {TH : Secrets} {IM : ImageModel I}.
Context (c : LodeConfig) {NL : NativeLaws E c} {WC : writable_config c}.
Context (b : EmbeddingBackend) (g : list I → result (list (list spec_float))) (f : I → result (list spec_float)).
Hypothesis Hb : cf_backend c = Some b.
Hypothesis Hg : embed_images = Some g.
(** The model treats images independently. *)
Hypothesis Hf : ∀ l, g l = mapR f l.
Local Notation idb := (image_db E).
Implicit Types d : idb.

(** What one item stores: its prepared vector and its sidecar entry. *)
Definition reads_as_image (normalize : bool) (item : image_item I) (r : (I * list spec_float) * sidecar_entry) : Prop :=
  ii_image item = Some r.1.1 ∧ (v ← f r.1.1; _prepare_vector v (cf_vector_dim c) normalize) = Ok r.1.2 ∧
  ii_id item = PStr (sc_id r.2) ∧ _coerce_metadata (ii_metadata item) = Ok (sc_metadata r.2) ∧
  _coerce_optional_text (ii_text item) = Ok (sc_text r.2).

Definition row_document (r : (I * list spec_float) * sidecar_entry) : EngineVectorDocument :=
  EngineVec (sc_id r.2) r.1.2 (sc_metadata r.2) (sc_text r.2).

Lemma on_db_run {A B} (m : st (LodeDB E) A) (k : A → st idb B) d : (on_db m ≫= k) d =
  match m (im_db d) with (Ok a, x) => k a (ImageDb x (im_ingest d) (im_query d)) | (Err e, x) => (Err e, ImageDb x (im_ingest d) (im_query d)) end.
Proof. rewrite st_bind_run. unfold on_db. by destruct (m (im_db d)) as [[a|e] x]. Qed.

Lemma checked_image_run normalize (item : image_item I) r d : reads_as_image normalize item r → checked_image item d = (Ok (r.1.1, r.2), d).
Proof.
  intros (Hi & _ & Hid & Hm & Ht). unfold checked_image. rewrite Hi, lift_run, Hid, on_db_run. cbn [document_id_of mret st_ret py_str].
  rewrite lift_run, Hm, lift_run, Ht. by destruct d, r as [? []].
Qed.

(** Batches that encode, and the counters they leave. *)
Lemma tracked_run bs vss d : mapR (mapR f) bs = Ok vss → ∃ d', mapS (_embed_images_tracked g Ingest) bs d = (Ok vss, d') ∧
  im_db d' = im_db d ∧ im_query d' = im_query d ∧
  images_embedded (im_ingest d') = images_embedded (im_ingest d) + Z.of_nat (length (concat bs)) ∧
  encode_calls (im_ingest d') = encode_calls (im_ingest d) + Z.of_nat (length bs) ∧
  encode_failures (im_ingest d') = encode_failures (im_ingest d).
Proof.
  revert vss d; induction bs as [|l bs IH]; intros vss d H.
  - injection H as <-. exists d. split_and!; try done; cbn; lia.
  - apply mapR_Ok, Forall2_cons_inv_l in H as (vs & vss' & Hvs & H%mapR_Ok & ->).
    cbn [mapS]. rewrite st_bind_run. unfold _embed_images_tracked at 1. rewrite Hf, Hvs.
    destruct (IH vss' (set_counters Ingest (counted_encode (length l) (counters_of Ingest d)) d) H) as (d' & Hrun & H1 & H2 & H3 & H4 & H5).
    rewrite st_bind_run, Hrun. exists d'. cbn [concat length]. rewrite length_app. cbn in *. split_and!; [done..|lia|lia|done].
Qed.

Lemma payload_run normalize vs rows pre : Forall2 (λ v r, _prepare_vector v (cf_vector_dim c) normalize = Ok r.1.2) vs rows →
  mapR (image_document c normalize (pre ++ vs)) (zip (seq (length pre) (length rows)) (map snd rows)) = Ok (map row_document rows).
Proof.
  intros H. revert pre. induction H as [|v r vs rows Hv _ IH]; intros pre; [done|]. cbn [length seq map zip zip_with mapR].
  assert (image_document c normalize (pre ++ v :: vs) (length pre, r.2) = Ok (row_document r)) as ->.
  { unfold image_document, list_get. cbn [fst snd]. rewrite (list_lookup_middle pre vs v (length pre) eq_refl).
    cbn [mbind result_bind]. by rewrite Hv. }
  cbn [mbind result_bind]. specialize (IH (pre ++ [v])). rewrite length_app, <-(assoc_L (++)) in IH. cbn [length] in IH.
  rewrite Nat.add_1_r in IH. cbn [app] in IH. by rewrite IH.
Qed.

Lemma embedded_rows normalize items rows : Forall2 (reads_as_image normalize) items rows →
  ∃ vs, mapR f (map (λ r, r.1.1) rows) = Ok vs ∧ Forall2 (λ v r, _prepare_vector v (cf_vector_dim c) normalize = Ok r.1.2) vs rows.
Proof.
  induction 1 as [|item r items rows (_ & Hr & _) _ (vs & Hvs & HF)]; [by exists []|]. cbn [map mapR].
  destruct (f r.1.1) as [v|] eqn:Ev; [|done]. cbn [mbind result_bind] in *. rewrite Hvs. exists (v :: vs). by split; [|constructor].
Qed.

Lemma writable_image_run {B} (k : unit → st idb B) d : (on_db (_require_writable c) ≫= k) d = k tt d.
Proof. rewrite on_db_run. unfold _require_writable. rewrite (wc_writable c WC). by destruct d. Qed.

(** What is stored does not depend on how the model batches. *)
Lemma added_images_run normalize items rows d : rows ≠ [] → Forall2 (reads_as_image normalize) items rows →
  Forall (λ r, is_blank (sc_id r.2) = false ∧ vector_ok (cf_vector_dim c) r.1.2) rows → is_Ok (@image_batch I IM) →
  ∃ d' n, add_images c (Some items) normalize d = (Ok (map (λ r, sc_id r.2) rows), d') ∧ image_batch = Ok n ∧
    collection (db_engine (im_db d')) = put_sidecars (cf_store_text c) (map snd rows) (collection (db_engine (im_db d))) ∧
    images_embedded (im_ingest d') = images_embedded (im_ingest d) + Z.of_nat (length rows) ∧
    encode_calls (im_ingest d') = encode_calls (im_ingest d) + Z.of_nat ((length rows + n - 1) / n) ∧
    encode_failures (im_ingest d') = encode_failures (im_ingest d) ∧ im_query d' = im_query d.
Proof.
  intros Hne HF Hok [n Hn]. unfold add_images. rewrite writable_image_run. unfold _image_backend. rewrite Hb, Hg, !lift_run, st_bind_run.
  rewrite (mapS_run _ items (map (λ r, (r.1.1, r.2)) rows)).
  2: { apply Forall2_fmap_r. eapply Forall2_impl; [exact HF|]. intros item r Hr s. by eapply checked_image_run. }
  assert (∃ r0 rs, map (λ r : I * list spec_float * sidecar_entry, (r.1.1, r.2)) rows = r0 :: rs) as (r0 & rs & Er) by (destruct rows; [done|by eexists _, _]).
  rewrite Er. rewrite <-Er. rewrite Hn, lift_run, st_bind_run, !map_map, length_map.
  destruct (embedded_rows _ _ _ HF) as (vs & Hvs & HP). cbn [fst snd].
  change (map (λ x, x.1.1) rows) with (map (λ r : I * list spec_float * sidecar_entry, r.1.1) rows).
  assert (0 < n)%nat as Hpos.
  { unfold image_batch in Hn. destruct (py_int _) as [z|]; [|done]. injection Hn as <-. lia. }
  set (bs := batches n _). assert (concat bs = map (λ r, r.1.1) rows) as Hcat by (by apply concat_batches).
  rewrite <-Hcat in Hvs. apply mapR_concat in Hvs as (vss & Hvss & ->).
  destruct (tracked_run _ _ d Hvss) as (d1 & -> & H1 & H2 & H3 & H4 & H5). rewrite lift_run.
  pose proof (payload_run normalize (concat vss) rows [] HP) as Hpay. cbn [app length] in Hpay. change (map (λ x, x.2) rows) with (map snd rows). rewrite Hpay, on_db_run.
  destruct (vectors_law (map row_document rows) (db_engine (im_db d1))) as [Hup Hfine].
  assert ((upsert_vectors (map row_document rows) (db_engine (im_db d1))).1 = Ok tt) as Hup1.
  { apply Hfine, Forall_map. eapply Forall_impl; [exact Hok|]. by intros [[] []]. }
  pose proof (vectors_run c _ (im_db d1) (upsert_vectors (map row_document rows)) Hup) as (_ & Hc & Hgood).
  assert (_native_upsert_vectors c (map row_document rows) = guarded "native_core_upsert_failed"
    "native core vector upsert failed" (_ ← upsert_vectors (map row_document rows); persist_after c)) as -> by (by destruct rows).
  specialize (Hgood Hup1). specialize (Hc Hgood). destruct (guarded _ _ _ (im_db d1)) as [r x']. cbn [fst snd] in *. subst r.
  eexists _, n. split; [by rewrite ?map_map|]. split; [done|]. cbn [im_db im_ingest im_query]. rewrite Hc, H1.
  rewrite H3, H4, H5, Hcat, length_map. split_and!; try done.
  - f_equal. rewrite map_map. apply map_ext. by intros [[] []].
  - unfold bs, batches. by rewrite !length_map, length_seq.
Qed.

(** *** A bad image *)

Lemma mapS_keeps {A B} (P : idb → idb → Prop) (m : A → st idb B) l d : (∀ d, P d d) → (∀ d1 d2 d3, P d1 d2 → P d2 d3 → P d1 d3) →
  (∀ a d, P d (m a d).2) → P d (mapS m l d).2.
Proof.
  intros Hr Ht Hm. revert d; induction l as [|a l IH]; intros d; [apply Hr|]. cbn [mapS]. rewrite st_bind_run.
  specialize (Hm a d). destruct (m a d) as [[y|e] d1]; [|done]. rewrite st_bind_run. specialize (IH d1).
  destruct (mapS m l d1) as [[ys|e] d2]; by eapply Ht.
Qed.

Definition same_db d d' : Prop := db_engine (im_db d') = db_engine (im_db d).
Lemma same_db_trans d1 d2 d3 : same_db d1 d2 → same_db d2 d3 → same_db d1 d3.
Proof. unfold same_db. congruence. Qed.

Lemma checked_image_keeps (item : image_item I) d : same_db d (checked_image item d).2.
Proof.
  unfold checked_image, same_db. destruct (ii_image item); rewrite lift_run; [|done]. rewrite on_db_run.
  unfold document_id_of, _next_auto_id. destruct (ii_id item); cbn [mret st_ret]; rewrite lift_run;
    (destruct (_coerce_metadata (ii_metadata item)); [rewrite lift_run; by destruct (_coerce_optional_text (ii_text item))|done]).
Qed.

Lemma checked_images (items : list (image_item I)) rows d : (mapS checked_image items d).1 = Ok rows → Forall2 (λ item r, ii_image item = Some r.1) items rows.
Proof.
  revert rows d; induction items as [|item items IH]; intros rows d; [intros [= <-]; constructor|]. cbn [mapS]. rewrite st_bind_run.
  destruct (checked_image item d) as [[r|e] d1] eqn:Er; [|done]. rewrite st_bind_run. specialize (IH).
  destruct (mapS checked_image items d1) as [[rs|e] d2] eqn:Ers; [|done]. intros [= <-]. constructor; [|eapply IH; by rewrite Ers].
  unfold checked_image in Er. destruct (ii_image item) as [i|]; rewrite lift_run in Er; [|done]. rewrite on_db_run in Er.
  destruct (document_id_of (ii_id item) (im_db d)) as [[id|] x]; [|done]. rewrite lift_run in Er.
  destruct (_coerce_metadata (ii_metadata item)); [|done]. rewrite lift_run in Er. destruct (_coerce_optional_text (ii_text item)); [|done].
  by injection Er as <- <-.
Qed.

Lemma tracked_fails bs d : (∃ e, mapR (mapR f) bs = Err e) → ∃ e d', mapS (_embed_images_tracked g Ingest) bs d = (Err e, d') ∧ same_db d d'.
Proof.
  intros [e H]. pose proof (mapS_keeps same_db (_embed_images_tracked g Ingest) bs d) as Hk.
  assert (∃ e', (mapS (_embed_images_tracked g Ingest) bs d).1 = Err e') as [e' He'].
  { clear Hk. revert d; induction bs as [|l bs IH]; intros d; [done|]. cbn [mapR mapS] in *. rewrite st_bind_run.
    unfold _embed_images_tracked at 1. rewrite Hf. destruct (mapR f l) as [vs|]; [|by eexists]. cbn [mbind result_bind] in H. rewrite st_bind_run.
    destruct (mapR (mapR f) bs) as [|e1]; [done|]. injection H as ->.
    destruct (IH eq_refl (set_counters Ingest (counted_encode (length l) (counters_of Ingest d)) d)) as [e2 He2].
    destruct (mapS _ bs _) as [[]]; cbn in He2; [done|]. by eexists. }
  destruct (mapS _ bs d) as [r d'] eqn:E'. cbn [fst snd] in *. subst r. exists e', d'. split; [done|]. apply Hk; [done|by apply same_db_trans|].
  intros l s. unfold _embed_images_tracked, same_db. by destruct (g l).
Qed.

(** One image that does not encode refuses the whole call before anything is written. *)
Lemma bad_image_run normalize items item i d : item ∈ items → ii_image item = Some i → (∃ e, f i = Err e) →
  ∃ e d', add_images c (Some items) normalize d = (Err e, d') ∧ same_db d d'.
Proof.
  intros Hin Hi [e He]. unfold add_images. rewrite writable_image_run. unfold _image_backend. rewrite Hb, Hg, !lift_run, st_bind_run.
  pose proof (mapS_keeps same_db checked_image items d ltac:(done) same_db_trans (λ a d, checked_image_keeps a d)) as Hk.
  pose proof (checked_images items) as Hc. destruct (mapS checked_image items d) as [[rows|e1] d1] eqn:Er; [|by eexists _, _].
  specialize (Hc rows d). rewrite Er in Hc. specialize (Hc eq_refl). cbn [snd] in Hk.
  assert (i ∈ map fst rows) as Hir.
  { apply list_elem_of_lookup_1 in Hin as [j Hj]. apply (Forall2_lookup_l _ _ _ _ _ Hc) in Hj as (r & Hr & Hir).
    apply list_elem_of_fmap. exists r. split; [congruence|]. by eapply list_elem_of_lookup_2. }
  destruct rows as [|r rs] eqn:Erows; [by apply not_elem_of_nil in Hir|]. rewrite <-Erows in *.
  destruct (@image_batch I IM) as [n|e2] eqn:En; rewrite lift_run; [|by eexists _, _].
  assert (0 < n)%nat as Hpos.
  { unfold image_batch in En. destruct (py_int _) as [z|]; [|done]. injection En as <-. lia. }
  destruct (tracked_fails (batches n (map fst rows)) d1) as (e3 & d2 & Hrun & Hd2).
  { destruct (mapR (mapR f) (batches n (map fst rows))) as [vss|e3] eqn:Ev; [|by eexists].
    assert (mapR f (concat (batches n (map fst rows))) = Ok (concat vss)) as H by (apply mapR_concat; by eexists).
    rewrite concat_batches in H by done. apply mapR_Ok in H. apply list_elem_of_lookup_1 in Hir as [j Hj].
    apply (Forall2_lookup_l _ _ _ _ _ H) in Hj as (v & _ & Hv). congruence. }
  rewrite st_bind_run, Hrun. exists e3, d2. split; [done|]. by eapply same_db_trans.
Qed.
End image_lemmas.

(** Images are stored or refused as a whole batch: whatever batch size the model asks for, valid items are all stored,
    in order, each under its own id with its own prepared vector, metadata and caption, and the ingest
    counters grow by the images and by one call per batch, the query counters by nothing; one image
    that does not encode refuses the call with nothing written to the engine. *)
Theorem images_stored_or_refused {E I} {NE : NativeEngine E} {NV : NativeView E} {R : Reductions} {TH : Secrets} {IM : ImageModel I}
    (c : LodeConfig) {NL : NativeLaws E c} {WC : writable_config c} b g f normalize (items : list (image_item I)) (d : image_db E) :
  cf_backend c = Some b → embed_images = Some g → (∀ l, g l = mapR f l) → is_Ok (@image_batch I IM) →
  (∀ rows, rows ≠ [] → Forall2 (reads_as_image c f normalize) items rows →
     Forall (λ r, is_blank (sc_id r.2) = false ∧ vector_ok (cf_vector_dim c) r.1.2) rows →
     ∃ d' n, add_images c (Some items) normalize d = (Ok (map (λ r, sc_id r.2) rows), d') ∧ image_batch = Ok n ∧
       collection (db_engine (im_db d')) = put_sidecars (cf_store_text c) (map snd rows) (collection (db_engine (im_db d))) ∧
       images_embedded (im_ingest d') = images_embedded (im_ingest d) + Z.of_nat (length rows) ∧
       encode_calls (im_ingest d') = encode_calls (im_ingest d) + Z.of_nat ((length rows + n - 1) / n) ∧
       encode_failures (im_ingest d') = encode_failures (im_ingest d) ∧ im_query d' = im_query d) ∧
  (∀ item i, item ∈ items → ii_image item = Some i → (∃ e, f i = Err e) →
     ∃ e d', add_images c (Some items) normalize d = (Err e, d') ∧ db_engine (im_db d') = db_engine (im_db d)).
Proof.
  intros Hb Hg Hf Hn. split.
  - intros rows Hne HF Hok. by eapply added_images_run.
  - intros item i. by eapply bad_image_run.
Qed.

(** ** Constructors *)

(** Only a string with the scheme leaves the local path; a store id alone is a relative path. *)
Example cloud_targets : map (λ p, cloud_target p PNone) [PStr "orecloud://a/b/c"; PStr "user-42"; PStr "/data/orecloud://x"; PNone]
  = [Some "orecloud://a/b/c"; None; None; None].
Proof. by vm_compute. Qed.

(** What the alternate constructors resolve to: a reader, and an index without a model. *)
Lemma readonly_resolves environ build_backend a r : resolve_init environ build_backend (read_only_args a) = Ok r →
  cf_read_only (rv_config r) = true.
Proof. unfold resolve_init. intros H. res_cases H; done. Qed.
Lemma vector_store_resolves environ build_backend a dim bits r : dim ≠ PNone →
  resolve_init environ build_backend (byo_args dim bits a) = Ok r →
  cf_vector_only (rv_config r) = true ∧ cf_backend (rv_config r) = None.
Proof. 
  intros Hd. unfold resolve_init. assert (is_none (ia_vector_dim (byo_args dim bits a)) = false) as -> by by destruct dim.
  cbn [negb]. intros H. res_cases H; cbn [rv_config cf_vector_only cf_backend] in *.
  all: match goal with H : choose_vectors _ _ = Ok _ |- _ => unfold choose_vectors in H; res_cases H end; by split.
Qed.

(** ** On concrete data *)

(** Two texts, the first of three chunks: its pieces are pooled, the other is answered as it is. *)
Definition demo_pooling : Pooling := {|
  mean_rows := λ rows, match rows with r :: _ => Ok r | [] => raise ValueError "ragged" end; vector_norm := λ v, float_of_Z 2 |}.
Definition length_backend : EmbeddingBackend :=
  Backend (mapR (λ s, Ok [float_of_Z (Z.of_nat (slen s))])) (λ s, Ok [float_of_Z (Z.of_nat (slen s))]).
Definition small_config : LodeConfig := Config false true true false 1 3 Generation (Some length_backend).

Lemma embeds_each_text_witness : let x := Db (Toy ∅ []) "" 0 in
  @embed_texts demo_pooling small_config _ (PList (map PStr ["abcdefgh"; " ox "])) x = (Ok [[fdiv (float_of_Z 3) (float_of_Z 2)]; [float_of_Z 4]], x).
Proof.
  refine (proj2 (@embeds_each_text toy_engine demo_pooling small_config length_backend _ ["abcdefgh"; " ox "] _ _ _ eq_refl eq_refl (λ _, eq_refl) _) _);
    [done|]. split; [done|]. by repeat constructor.
Defined.

(** The two image verbs normalize differently: a vector whose norm is beyond the range of doubles is stored
    by [add_image], by way of the vector matrix, and refused by [add_images]. *)
Example batched_image_refused : let v := [float_of_Z (17 * 10 ^ 307); float_of_Z (17 * 10 ^ 307)] in
  is_Ok (@prepare_one plain_reductions toy_config v true) ∧
  @_prepare_vector plain_reductions v 2 true = raise ValueError "vector norm overflows; scale the vector down first".
Proof. vm_compute. split; [by eexists|done]. Qed.
