(* ===== verification/Serving.v ===== *)
(** * Servers

    [local/server.py], the HTTP handler over one open handle, and [local/mcp_server.py], the tools of
    the assistant server. A request is a path, its content length and the bytes of its body; handling it
    either answers with a status and a body, or raises, and the client gets no answer. The address
    classes of [ipaddress] are the class [Addresses]; the sockets and the tool protocol are left out. *)

From Stdlib Require Import Ascii String ZArith Lia SpecFloat.
From stdpp Require Import base strings gmap sets list.
From S2P Require Import Prelude Numbers PyVal Bytes Json FileSys Predicate Topology EngineCore RouteRegistry VectorBoundary LocalOpen LocalDb LocalInit LocalVerbs.

Local Open Scope Z_scope.

(** ** The HTTP handler *)

Record http_request := HttpRequest { rq_path : string; rq_length : option string; rq_body : string }.
Record http_response := HttpResponse { rs_status : Z; rs_body : string }.

Definition _MAX_BODY_BYTES : Z := 64 * 1024 * 1024.

Definition _send (status : Z) (payload : pydict) : result http_response :=
  text ← dumps unsorted (PDict payload);
  Ok (HttpResponse status (utf8_encode text)).

Definition error_payload (msg : string) : pydict := [(PStr "error", PStr msg)].

(** [int(self.headers.get("Content-Length", 0) or 0)] bytes of JSON. *)
Definition _read_json (rq : http_request) : result pyval :=
  length ← (match rq_length rq with
            | None | Some EmptyString => Ok 0
            | Some s => py_int (PStr s)
            end);
  if length <=? 0 then Ok (PDict [])
  else if _MAX_BODY_BYTES <? length then raise ValueError "request body too large"
  else text ← utf8_decode (str_take (Z.to_nat length) (rq_body rq)); loads text.

Section handler.
Context {E : Type} {NE : NativeEngine E} {TH : Secrets} {P : Pooling}.
Variable c : LodeConfig.
Context (version abi_version : pyval).
Local Notation idb := (image_db E).

Definition send (status : Z) (payload : pydict) : st idb http_response := st_lift (_send status payload).
Definition document_count : st idb Z := on_db (count PNone).

Definition post_add (payload : pyval) : st idb http_response :=
  text ← st_lift (py_index payload "text");
  id ← st_lift (py_get payload "id" PNone);
  metadata ← st_lift (py_get payload "metadata" PNone);
  doc_id ← on_db (add c text id metadata);
  n ← document_count;
  send 200 [(PStr "id", PStr doc_id); (PStr "count", PInt n)].

(** The texts of an embedding request. *)
Definition embedding_texts (raw_input : pyval) : result (list pyval) :=
  texts ← (match raw_input with
           | PStr _ => Ok [raw_input]
           | PList l => Ok l
           | _ => raise ValueError "input must be a string or a non-empty list of strings"
           end);
  match texts with
  | [] => raise ValueError "input must be a non-empty list of strings"
  | _ => _ ← mapR (λ t, nonblank t "each input item must be a non-empty string") texts; Ok texts
  end.

Definition check_dimensions (payload : pydict) : result unit :=
  match dict_get "dimensions" payload with
  | None => Ok tt
  | Some (PInt n) =>
      if bool_decide (n = Z.of_nat (cf_vector_dim c)) then Ok tt
      else raise ValueError ("dimensions " +:+ Z_str n +:+ " does not match active model dimension " +:+ Z_str (Z.of_nat (cf_vector_dim c)))
  | Some _ => raise ValueError "dimensions must be an integer"
  end.

Definition embedding_entry (ie : nat * list spec_float) : pyval :=
  dict_of [("object", PStr "embedding"); ("index", PInt (Z.of_nat ie.1)); ("embedding", PList (map PFloat ie.2))].

Definition text_length (t : pyval) : Z := match t with PStr s => Z.of_nat (slen s) | _ => 0 end.

Definition post_embeddings (payload : pyval) : st idb http_response :=
  d ← st_lift (match payload with PDict d => Ok d | _ => raise ValueError "JSON body must be an object" end);
  _ ← st_lift (match dict_get "encoding_format" d with
               | None => Ok tt
               | Some (PStr s) => if bool_decide (s = "float") then Ok tt
                                  else raise ValueError ("encoding_format must be " +:+ String dquote "float" +:+ String dquote "")
               | Some _ => raise ValueError ("encoding_format must be " +:+ String dquote "float" +:+ String dquote "")
               end);
  raw_input ← st_lift (py_index payload "input");
  texts ← st_lift (embedding_texts raw_input);
  model ← st_lift (py_index payload "model");
  name ← st_lift (match model with PStr s => Ok s | _ => raise ValueError "model must be a string" end);
  _ ← st_lift (check_dimensions d);
  embeddings ← on_db (embed_texts c (PList texts));
  let estimated_tokens := foldr Z.add 0 (map text_length texts) / 4 in
  send 200 [(PStr "object", PStr "list");
            (PStr "data", PList (map embedding_entry (zip (seq 0 (length embeddings)) embeddings)));
            (PStr "model", PStr name);
            (PStr "usage", dict_of [("prompt_tokens", PInt estimated_tokens); ("total_tokens", PInt estimated_tokens)])].

Definition hit_entry (h : SearchHit) : pyval :=
  dict_of [("score", PFloat (sh_score h)); ("id", PStr (sh_id h)); ("metadata", PDict (sh_metadata h))].

Definition post_search (payload : pyval) : st idb http_response :=
  query ← st_lift (py_index payload "query");
  kv ← st_lift (py_get payload "k" (PInt 10));
  k ← st_lift (py_int kv);
  filter ← st_lift (py_get payload "filter" PNone);
  hits ← on_db (search c query k filter PNone);
  send 200 [(PStr "results", PList (map hit_entry hits))].

Definition post_remove (payload : pyval) : st idb http_response :=
  id ← st_lift (py_index payload "id");
  removed ← on_db (remove c id);
  n ← document_count;
  send 200 [(PStr "removed", PBool removed); (PStr "count", PInt n)].

Definition post_get (payload : pyval) : st idb http_response :=
  id ← st_lift (py_index payload "id");
  text ← on_db (get c id);
  match text with
  | None => send 404 (error_payload "document not found")
  | Some t => send 200 [(PStr "id", id); (PStr "text", PStr t)]
  end.

Definition route_post (path : string) (payload : pyval) : st idb http_response :=
  if bool_decide (path = "/add") then post_add payload
  else if str_in path ["/embeddings"; "/v1/embeddings"] then post_embeddings payload
  else if bool_decide (path = "/search") then post_search payload
  else if bool_decide (path = "/remove") then post_remove payload
  else if bool_decide (path = "/get") then post_get payload
  else send 404 (error_payload "not found").

(** The [except] clauses: what they do not name goes to the server loop, which closes the connection. *)
Definition error_answer (e : exn) : result http_response :=
  match exn_class e with
  | KeyError => _send 400 (error_payload ("missing field: " +:+ exn_msg e))
  | ModuleNotFoundError => _send 501 (error_payload (exn_msg e))
  | VectorOnlyIndexError => _send 400 (error_payload (exn_msg e))
  | _ => if is_value_error e then _send 400 (error_payload (exn_msg e)) else Err e
  end.

Definition with_answers (m : st idb http_response) : st idb http_response := λ d,
  match m d with (Ok r, d') => (Ok r, d') | (Err e, d') => (error_answer e, d') end.

Definition do_POST (rq : http_request) : st idb http_response :=
  match _read_json rq with
  | Ok payload => with_answers (route_post (rq_path rq) payload)
  | Err e => if is_value_error e then send 400 (error_payload "invalid JSON body") else st_lift (Err e)
  end.

Definition do_GET (rq : http_request) : st idb http_response :=
  if bool_decide (rq_path rq = "/healthz") then send 200 [(PStr "status", PStr "ok")]
  else if bool_decide (rq_path rq = "/stats") then s ← stats c version abi_version; send 200 s
  else send 404 (error_payload "not found").

Inductive http_method := GET | POST.

(** The server loop: a handler that raises leaves its request without an answer, and the next is served. *)
Definition serve_one (rq : http_method * http_request) : st idb (option http_response) := λ d,
  match (match rq.1 with GET => do_GET | POST => do_POST end) rq.2 d with
  | (Ok r, d') => (Ok (Some r), d')
  | (Err _, d') => (Ok None, d')
  end.
Definition served : list (http_method * http_request) → st idb (list (option http_response)) := mapS serve_one.
End handler.

(** *** Starting the server *)

(** [ipaddress.ip_address]: what an address is, or that the text is none. *)
Record address := Address { is_unspecified : bool; is_loopback : bool; is_private : bool }.
Class Addresses := ip_address : string → option address.

Definition is_private_bind_host {A : Addresses} (host : string) : bool :=
  match ip_address host with
  | None => bool_decide (host = "localhost")
  | Some a => if is_unspecified a then false else is_loopback a || is_private a
  end.

Definition serve_args (model : string) (store_text : bool) (durability commit_mode : option string) : init_args :=
  Init (PStr model) PNone None PNone (PInt 900) (PBool store_text) PNone AnnNone None None RescoreNone None None
    true false durability commit_mode None.

(** Opening the handle the server runs on; nothing is opened for a public address. *)
Definition serve_local {A : Addresses} {E} {NO : NativeOpen E} {NH : NativeHost E} (environ : gmap string string)
    (build_backend : LocalModelPreset → result EmbeddingBackend) (d : path) (host model : string) (store_text : bool)
    (durability commit_mode : option string) : io (LodeConfig * image_db E) :=
  if negb (is_private_bind_host host) then fail ValueError "LodeDB local server host must be loopback or private network"
  else out ← LodeDB_init environ build_backend d (serve_args model store_text durability commit_mode);
       mret (out.1, ImageDb out.2 zero_counters zero_counters).

(** ** The tools of the assistant server *)

Section tools.
Context {E : Type} {NE : NativeEngine E} {TH : Secrets}.
Variable c : LodeConfig.
Context (version abi_version : pyval).
Local Notation idb := (image_db E).

Definition mcp_add (text id metadata : pyval) : st idb pyval :=
  doc_id ← on_db (add c text id metadata);
  n ← document_count;
  mret (dict_of [("id", PStr doc_id); ("count", PInt n)]).

Definition opt_val (t : option string) : pyval := match t with Some s => PStr s | None => PNone end.

Definition mcp_row (include_text : bool) (h : SearchHit) : st idb pyval :=
  if include_text
  then text ← on_db (get c (PStr (sh_id h)));
       mret (dict_of [("score", PFloat (sh_score h)); ("id", PStr (sh_id h)); ("metadata", PDict (sh_metadata h)); ("text", opt_val text)])
  else mret (hit_entry h).

Definition mcp_search (query : pyval) (k : Z) (filter : pyval) (mode : string) (include_text : bool) : st idb pyval :=
  hits ← on_db (search c query k filter (PStr mode));
  rows ← mapS (mcp_row include_text) hits;
  mret (PList rows).

Definition mcp_get (id : pyval) : st idb pyval :=
  text ← on_db (get c id);
  mret (dict_of [("id", id); ("found", PBool (match text with Some _ => true | None => false end)); ("text", opt_val text)]).

Definition mcp_remove (id : pyval) : st idb pyval :=
  removed ← on_db (remove c id);
  n ← document_count;
  mret (dict_of [("removed", PBool removed); ("count", PInt n)]).

Definition mcp_stats : st idb pyval := s ← stats c version abi_version; mret (PDict s).

Definition _default_search_mode : string := if cf_store_text c || cf_index_text c then "hybrid" else "vector".

Inductive mcp_call :=
| lodedb_add (text id metadata : pyval)
| lodedb_search (query : pyval) (k : Z) (filter : pyval)
| lodedb_get (id : pyval)
| lodedb_remove (id : pyval)
| lodedb_stats.

(** The tools [build_mcp_server] registers; a tool it leaves out cannot be called. *)
Definition include_text (exclude_text : bool) : bool := cf_store_text c && negb exclude_text.
Definition call_tool (exclude_text : bool) (t : mcp_call) : option (st idb pyval) :=
  match t with
  | lodedb_add text id metadata => Some (mcp_add text id metadata)
  | lodedb_search q k f => Some (mcp_search q k f _default_search_mode (include_text exclude_text))
  | lodedb_get id => if include_text exclude_text then Some (mcp_get id) else None
  | lodedb_remove id => Some (mcp_remove id)
  | lodedb_stats => Some mcp_stats
  end.
End tools.

(** [LODEDB_EMBEDDING_THREADS]. *)
Definition _embedding_threads_from_env (environ : gmap string string) : result (option Z) :=
  match environ !! "LODEDB_EMBEDDING_THREADS" with
  | None => Ok None
  | Some raw =>
      if is_blank raw then Ok None
      else match py_int (PStr raw) with
           | Err _ => raise ValueError "LODEDB_EMBEDDING_THREADS must be an integer"
           | Ok n => if n <=? 0 then raise ValueError "LODEDB_EMBEDDING_THREADS must be a positive integer" else Ok (Some n)
           end
  end.

(** What [main] passes on. *)
Definition mcp_main_args (environ : gmap string string) : result (string * string * option Z) :=
  threads ← _embedding_threads_from_env environ;
  Ok (default "./data" (environ !! "LODEDB_PATH"), default "minilm" (environ !! "LODEDB_MODEL"), threads).

(** ** Requests and answers as JSON *)

(** A client: the text of a value, and its length. *)
Definition request_json (path : string) (v : pyval) : http_request :=
  let body := utf8_encode (of_chars (json_text unsorted 0 v)) in
  HttpRequest path (Some (Z_str (Z.of_nat (slen body)))) body.
(** ... which reads an answer back. *)
Definition answer_json (r : http_response) : result pyval := text ← utf8_decode (rs_body r); loads text.

Lemma utf8_encode_nonempty s : s ≠ "" → (0 < slen (utf8_encode s))%nat.
Proof.
  intros Hs. destruct (utf8_encode s) as [|a b] eqn:E; [|cbn; lia]. pose proof (utf8_decode_encode s) as H.
  rewrite E in H. by injection H as <-.
Qed.

Lemma length_header z : (match Z_str z with EmptyString => Ok 0 | s => py_int (PStr s) end) = Ok z.
Proof.
  pose proof (parse_int_Z_str z) as H. destruct (Z_str z) as [|a s]; [done|]. cbn [py_int]. by rewrite H.
Qed.

Lemma request_read path v : json_ok v = true → Z.of_nat (slen (rq_body (request_json path v))) ≤ _MAX_BODY_BYTES →
  _read_json (request_json path v) = Ok (jsonify v).
Proof.
  intros Hv Hmax. destruct (loads_dumps_unsorted v Hv) as [_ Hl]. unfold request_json in *. cbn [rq_body] in Hmax.
  set (text := of_chars (json_text unsorted 0 v)) in *. unfold _read_json. cbn [rq_length rq_body].
  assert (text ≠ "") as Hne by (intros Ht; by rewrite Ht in Hl).
  pose proof (utf8_encode_nonempty text Hne) as Hpos. set (b := utf8_encode text) in *.
  pose proof (length_header (Z.of_nat (slen b))) as Hh.
  destruct (Z_str (Z.of_nat (slen b))) as [|a s]; [injection Hh as Hh; lia|]. rewrite Hh. cbn [mbind result_bind].
  destruct (Z.leb_spec (Z.of_nat (slen b)) 0); [lia|]. destruct (Z.ltb_spec _MAX_BODY_BYTES (Z.of_nat (slen b))); [lia|].
  rewrite Nat2Z.id, str_take_ge by done. unfold b. rewrite utf8_decode_encode. exact Hl.
Qed.

Lemma send_answer status p : json_ok (PDict p) = true → ∃ r, _send status p = Ok r ∧ rs_status r = status ∧
  answer_json r = Ok (jsonify (PDict p)).
Proof.
  intros Hp. destruct (loads_dumps_unsorted _ Hp) as [Hd Hl]. unfold _send. rewrite Hd. eexists. split; [reflexivity|].
  split; [done|]. unfold answer_json. cbn [rs_body]. by rewrite utf8_decode_encode.
Qed.

Section handler_lemmas.
Context {E : Type} {NE : NativeEngine E} {NV : NativeView E} {TH : Secrets} {P : Pooling}.
Context (c : LodeConfig) {NL : NativeLaws E c} {WC : writable_config c} (version abi_version : pyval).
Local Notation idb := (image_db E).
Implicit Types d : idb.

Lemma document_count_run d : ∃ d', document_count d = (Ok (Z.of_nat (size (collection (db_engine (im_db d))))), d') ∧
  db_engine (im_db d') = db_engine (im_db d).
Proof.
  unfold document_count, on_db. destruct (count_run c (im_db d)) as (x' & -> & Hx). by eexists.
Qed.

(** *** Round trip *)

Lemma post_add_run p text id m d : cf_vector_only c = false → is_blank text = false → is_blank id = false →
  dict_get "text" p = Some (PStr text) → dict_get "id" p = Some (PStr id) →
  _coerce_metadata (default PNone (dict_get "metadata" p)) = Ok m →
  ∃ d' r, post_add c (PDict p) d = (Ok r, d') ∧ rs_status r = 200 ∧
    collection (db_engine (im_db d')) = <[id := NDoc (if cf_store_text c then Some text else None) m]> (collection (db_engine (im_db d))) ∧
    answer_json r = Ok (dict_of [("id", PStr id); ("count", PInt (Z.of_nat (size (collection (db_engine (im_db d'))))))]).
Proof.
  intros Hv Ht Hi Hpt Hpi Hm. unfold post_add, py_index, py_get. rewrite Hpt, Hpi, !lift_run.
  destruct (add_run c (WC := WC) text id (default PNone (dict_get "metadata" p)) m (im_db d) Hv Ht Hi Hm) as (x & Hrun & Hc).
  rewrite on_db_run. replace (match dict_get "metadata" p with Some x => x | None => PNone end) with (default PNone (dict_get "metadata" p))
    by by destruct (dict_get "metadata" p).
  rewrite Hrun, st_bind_run. destruct (document_count_run (ImageDb x (im_ingest d) (im_query d))) as (d' & -> & Hd'). cbn [im_db] in Hd'.
  destruct (send_answer 200 [(PStr "id", PStr id); (PStr "count", PInt (Z.of_nat (size (collection (db_engine x)))))]) as (r & Hr & Hs & Ha); [done|].
  unfold send, st_lift. cbn [im_db]. rewrite Hr. exists d', r. by rewrite Hd'.
Qed.

Lemma post_get_run p id text d : cf_store_text c = true → is_blank id = false → dict_get "id" p = Some (PStr id) →
  collection (db_engine (im_db d)) !! id ≫= nd_text = Some text →
  ∃ d' r, post_get c (PDict p) d = (Ok r, d') ∧ rs_status r = 200 ∧ answer_json r = Ok (dict_of [("id", PStr id); ("text", PStr text)]).
Proof.
  intros Hs Hi Hp Hc. unfold post_get, py_index. rewrite Hp, lift_run, on_db_run. unfold get.
  pose proof (get_text_run c id (im_db d) Hi Hs) as Hg. destruct (get_text c (PStr id) (im_db d)) as [r x]. cbn [fst] in Hg. subst r.
  rewrite Hc. destruct (send_answer 200 [(PStr "id", PStr id); (PStr "text", PStr text)]) as (r & Hr & H1 & H2); [done|].
  unfold send, st_lift. rewrite Hr. by eexists _, r.
Qed.
End handler_lemmas.

(** C19: what is added over HTTP is read back over HTTP, byte for byte: the answer to [POST /add] tells the id and
    the new count, and the answer to [POST /get] that follows carries exactly the text that was sent. *)
Theorem http_add_get_roundtrip {E} {NE : NativeEngine E} {NV : NativeView E} {TH : Secrets} {P : Pooling}
    (c : LodeConfig) {NL : NativeLaws E c} {WC : writable_config c} (version abi_version : pyval)
    (text id : string) (metadata : pydict) (m : meta) (d : image_db E) :
  let add_rq := request_json "/add" (dict_of [("text", PStr text); ("id", PStr id); ("metadata", PDict metadata)]) in
  let get_rq := request_json "/get" (dict_of [("id", PStr id)]) in
  cf_vector_only c = false → cf_store_text c = true → is_blank text = false → is_blank id = false →
  json_ok (PDict metadata) = true → _coerce_metadata (jsonify (PDict metadata)) = Ok m →
  Z.of_nat (slen (rq_body add_rq)) ≤ _MAX_BODY_BYTES → Z.of_nat (slen (rq_body get_rq)) ≤ _MAX_BODY_BYTES →
  ∃ d' r1 r2, served c version abi_version [(POST, add_rq); (POST, get_rq)] d = (Ok [Some r1; Some r2], d') ∧
    rs_status r1 = 200 ∧ rs_status r2 = 200 ∧
    (∃ n, answer_json r1 = Ok (dict_of [("id", PStr id); ("count", PInt n)])) ∧
    answer_json r2 = Ok (dict_of [("id", PStr id); ("text", PStr text)]).
Proof.
  intros add_rq get_rq Hv Hs Ht Hi Hj Hm H1 H2.
  assert (_read_json add_rq =
    Ok (PDict [(PStr "text", PStr text); (PStr "id", PStr id); (PStr "metadata", jsonify (PDict metadata))])) as Hr1.
  { unfold add_rq. rewrite request_read; [done| |done]. apply json_ok_dict_intro; [done|vm_compute keys_of; repeat constructor; set_solver|].
    by repeat constructor. }
  assert (_read_json get_rq = Ok (PDict [(PStr "id", PStr id)])) as Hr2 by by (unfold get_rq; rewrite request_read).
  destruct (post_add_run c (WC := WC) [(PStr "text", PStr text); (PStr "id", PStr id); (PStr "metadata", jsonify (PDict metadata))] text id m d)
    as (d1 & r1 & Hp1 & Hs1 & Hc1 & Ha1); [done..|].
  destruct (post_get_run c [(PStr "id", PStr id)] id text d1) as (d2 & r2 & Hp2 & Hs2 & Ha2); [done|done|done| |].
  { rewrite Hc1, lookup_insert_eq, Hs. done. }
  exists d2, r1, r2. split; [|by eauto].
  assert (serve_one c version abi_version (POST, add_rq) d = (Ok (Some r1), d1)) as Ho1.
  { unfold serve_one, do_POST, with_answers. cbn [fst snd]. rewrite Hr1. change (route_post c (rq_path add_rq)) with (post_add c). by rewrite Hp1. }
  assert (serve_one c version abi_version (POST, get_rq) d1 = (Ok (Some r2), d2)) as Ho2.
  { unfold serve_one, do_POST, with_answers. cbn [fst snd]. rewrite Hr2. change (route_post c (rq_path get_rq)) with (post_get c). by rewrite Hp2. }
  unfold served. cbn [mapS]. by rewrite st_bind_run, Ho1, st_bind_run, st_bind_run, Ho2.
Qed.

(** *** Refusals *)

Section refusals.
Context {E : Type} {NE : NativeEngine E} {NV : NativeView E} {TH : Secrets} {P : Pooling}.
Context (c : LodeConfig).
Local Notation db := (LodeDB E).
Local Notation idb := (image_db E).

(** A verb that raises anything but the engine's [RuntimeError] has not touched the engine. *)
Definition clean {A} (m : st db A) : Prop := ∀ x e x', m x = (Err e, x') → exn_class e = RuntimeError ∨ db_engine x' = db_engine x.

Lemma clean_keeps {A} (m : st db A) : keeps_engine m → clean m.
Proof. intros Hm x e x' H. right. specialize (Hm x). by rewrite H in Hm. Qed.
Lemma clean_guarded {A} reason msg (m : st E A) : clean (guarded reason msg m).
Proof. intros x e x'. unfold guarded. destruct (m (db_engine x)) as [[a|e1] e2]; [done|]. intros [= <- <-]. by left. Qed.
Lemma clean_then {A B} (m : st db A) (k : A → st db B) : keeps_engine m → (∀ a, clean (k a)) → clean (m ≫= k).
Proof.
  intros Hm Hk x e x'. rewrite st_bind_run. specialize (Hm x). destruct (m x) as [[a|e1] x1]; [|intros [= <- <-]; by right].
  intros H. destruct (Hk a x1 e x' H) as [?|Hx]; [by left|right]. by rewrite Hx.
Qed.
Lemma clean_last {A B} (m : st db A) (f : A → B) : clean m → clean (a ← m; mret (f a)).
Proof.
  intros Hm x e x'. rewrite st_bind_run. specialize (Hm x). destruct (m x) as [[a|e1] x1]; [done|]. intros [= <- <-]. by apply Hm.
Qed.

Lemma document_id_keeps id : keeps_engine (document_id_of (E := E) id).
Proof. unfold document_id_of, _next_auto_id. by destruct id. Qed.
Lemma add_clean text id metadata : clean (add c text id metadata).
Proof.
  unfold add, LocalDb._require_writable, _require_text_capable. apply clean_then; [apply ke_lift|intros _]. apply clean_then; [apply ke_lift|intros _].
  apply clean_then; [apply ke_lift|intros t]. apply clean_then; [apply document_id_keeps|intros i].
  apply clean_then; [apply ke_lift|intros m]. apply (clean_last _ (λ _, i)).
  unfold _native_upsert_text_documents. destruct (cf_backend c); [apply clean_guarded|apply clean_keeps, ke_lift].
Qed.

(** The engine is left alone by a request. *)
Definition untouched {A} (m : st idb A) : Prop := ∀ d, db_engine (im_db (m d).2) = db_engine (im_db d).
Lemma untouched_lift {A} (r : result A) : untouched (st_lift r).
Proof. done. Qed.
Lemma untouched_bind {A B} (m : st idb A) (k : A → st idb B) : untouched m → (∀ a, untouched (k a)) → untouched (m ≫= k).
Proof. intros Hm Hk d. rewrite st_bind_run. specialize (Hm d). destruct (m d) as [[a|e] d1]; [|done]. by rewrite (Hk a d1). Qed.
Lemma untouched_db {A} (m : st db A) : keeps_engine m → untouched (on_db m).
Proof. intros Hm d. apply Hm. Qed.

Lemma search_keeps q k f mode : keeps_engine (search c q k f mode).
Proof. unfold search, positive_k, _native_search_text. keep_engine. Qed.
Lemma get_keeps id : keeps_engine (get c id).
Proof. unfold get, get_text, require_stored_text, _native_get_text, document_read. keep_engine. Qed.
Lemma embed_keeps texts : keeps_engine (E := E) (embed_texts c texts).
Proof. unfold embed_texts, _require_text_capable. keep_engine. Qed.

Lemma reading_routes payload : untouched (post_search c payload) ∧ untouched (post_get c payload) ∧ untouched (post_embeddings c payload).
Proof.
  split_and!; unfold post_search, post_get, post_embeddings, send;
    repeat first [apply untouched_lift | apply untouched_bind; [|intros ?]
      | apply untouched_db; first [apply search_keeps|apply get_keeps|apply embed_keeps]
      | match goal with |- untouched (match ?x with _ => _ end) => destruct x end].
Qed.

Context {NL : NativeLaws E c} {WC : writable_config c}.
Definition same_docs (d d' : idb) : Prop := collection (db_engine (im_db d')) = collection (db_engine (im_db d)).

(** A request is done, or it leaves the documents alone, or the engine failed. *)
Definition done_or_clean (d : idb) (out : result http_response * idb) : Prop :=
  match out.1 with
  | Ok r => rs_status r = 200 ∨ same_docs d out.2
  | Err e => exn_class e = RuntimeError ∨ same_docs d out.2
  end.

Lemma untouched_clean (m : st idb http_response) d : untouched m → done_or_clean d (m d).
Proof.
  intros Hm. unfold done_or_clean, same_docs. rewrite Hm. by destruct (m d).1; right.
Qed.

Lemma send_done status p (d : idb) : json_ok (PDict p) = true → ∃ r, send status p d = (Ok r, d) ∧ rs_status r = status.
Proof.
  intros Hp. destruct (send_answer status p Hp) as (r & Hr & Hs & _). exists r. unfold send, st_lift. by rewrite Hr.
Qed.

(** A verb, the count and the answer. *)
Lemma counted_done {A} (m : st db A) (f : A → Z → pydict) d : (∀ a n, json_ok (PDict (f a n)) = true) →
  (∀ e x, m (im_db d) = (Err e, x) → exn_class e = RuntimeError ∨ collection (db_engine x) = collection (db_engine (im_db d))) →
  done_or_clean d ((a ← on_db m; n ← document_count; send 200 (f a n)) d).
Proof.
  intros Hf Hm. rewrite on_db_run. destruct (m (im_db d)) as [[a|e] x]; [|by apply Hm]. rewrite st_bind_run.
  destruct (document_count_run c (ImageDb x (im_ingest d) (im_query d))) as (d1 & -> & _).
  destruct (send_done 200 (f a (Z.of_nat (size (collection (db_engine x))))) d1) as (r & Hr & Hs); [apply Hf|]. cbn [im_db]. rewrite Hr.
  by left.
Qed.

Lemma remove_refuses id (x : db) e x' : remove c id x = (Err e, x') → x' = x.
Proof.
  intros H. destruct (nonblank id "ids must contain only non-empty strings") as [s|e1] eqn:Es.
  - assert (id = PStr s ∧ is_blank s = false) as [-> Hb].
    { unfold nonblank in Es. destruct id; try done. destruct (is_blank s0) eqn:?; [done|]. by injection Es as ->. }
    destruct (remove_collection_run c (WC := WC) s x Hb) as (x1 & Hrun & _). congruence.
  - unfold remove, remove_many in H. rewrite st_bind_run, writable_run in H by done. cbn [mapR] in H. rewrite Es in H.
    rewrite lift_run in H. cbn [mbind result_bind] in H. by injection H as <- <-.
Qed.

Lemma route_clean path payload d : done_or_clean d (route_post c path payload d).
Proof.
  destruct (reading_routes payload) as (Hs & Hg & He). unfold route_post. repeat case_match.
  - unfold post_add. destruct (py_index payload "text") as [text|]; rewrite lift_run; [|by right].
    destruct (py_get payload "id" PNone) as [id|]; rewrite lift_run; [|by right].
    destruct (py_get payload "metadata" PNone) as [metadata|]; rewrite lift_run; [|by right].
    apply (counted_done (add c text id metadata) (λ i n, [(PStr "id", PStr i); (PStr "count", PInt n)])); [done|].
    intros e x Hx. destruct (add_clean text id metadata _ _ _ Hx) as [?|Hx']; [by left|right]. by rewrite Hx'.
  - by apply untouched_clean.
  - by apply untouched_clean.
  - unfold post_remove. destruct (py_index payload "id") as [id|]; rewrite lift_run; [|by right].
    apply (counted_done (remove c id) (λ b n, [(PStr "removed", PBool b); (PStr "count", PInt n)])); [done|].
    intros e x Hx. right. by rewrite (remove_refuses _ _ _ _ Hx).
  - by apply untouched_clean.
  - destruct (send_done 404 (error_payload "not found") d) as (r & -> & _); [done|]. by right.
Qed.
End refusals.

(** What the [except] clauses let through. *)
Lemma error_answer_Err e e' : error_answer e = Err e' →
  e' = e ∧ is_value_error e = false ∧ exn_class e ∉ [KeyError; ModuleNotFoundError; VectorOnlyIndexError].
Proof.
  assert (∀ n msg, ∃ r, _send n (error_payload msg) = Ok r) as Hsend
    by (intros n msg; destruct (send_answer n (error_payload msg)) as (r & ? & _); [done|by exists r]).
  unfold error_answer. destruct (Hsend 400 ("missing field: " +:+ exn_msg e)) as [r1 ->], (Hsend 501 (exn_msg e)) as [r2 ->],
    (Hsend 400 (exn_msg e)) as [r3 ->].
  destruct (is_value_error e) eqn:Ev, (exn_class e) eqn:Ec; try done; intros [= <-]; split_and!; try done; set_solver.
Qed.
Lemma runtime_unanswered e : exn_class e = RuntimeError → error_answer e = Err e.
Proof. intros Hc. unfold error_answer, is_value_error. by rewrite Hc. Qed.

(** Whatever is wrong with a body is a [ValueError]. *)
Lemma read_json_errors rq e : _read_json rq = Err e → is_value_error e = true.
Proof.
  unfold _read_json. set (len := match rq_length rq with None | Some EmptyString => Ok 0 | Some s => py_int (PStr s) end).
  assert (∀ e, len = Err e → is_value_error e = true) as Hlen.
  { intros e1. unfold len, py_int. destruct (rq_length rq) as [[|a s]|]; [done| |done]. destruct (parse_int _); [done|]. by intros [= <-]. }
  destruct len as [n|e1]; [|intros [= <-]; by apply Hlen]. cbn [mbind result_bind]. destruct (n <=? 0); [done|].
  destruct (_MAX_BODY_BYTES <? n); [by intros [= <-]|]. unfold utf8_decode. destruct (utf8_decode_chars _); [|by intros [= <-]].
  cbn [mbind result_bind]. unfold loads. destruct (parse_value _ _) as [[v r]|]; [|by intros [= <-]]. destruct (skip_ws r); [done|by intros [= <-]].
Qed.

(** C20: a request that is refused changes nothing. Whatever the path, the headers and the bytes of a
    [POST] request, an answer with any status but 200 (a body that is too long, not UTF-8 or not JSON, an unknown path,
    a missing field, a value of the wrong form, a document that is not there) leaves the documents of the store as they
    were; a body that cannot be read is always answered with 400; what is left without an answer is an error
    outside the classes the handler names, and it has changed nothing either unless the engine itself failed. *)
Theorem refused_requests_change_nothing {E} {NE : NativeEngine E} {NV : NativeView E} {TH : Secrets} {P : Pooling}
    (c : LodeConfig) {NL : NativeLaws E c} {WC : writable_config c} (rq : http_request) (d : image_db E) :
  (∀ e, _read_json rq = Err e → ∃ r, do_POST c rq d = (Ok r, d) ∧ rs_status r = 400) ∧
  match do_POST c rq d with
  | (Ok r, d') => rs_status r = 200 ∨ collection (db_engine (im_db d')) = collection (db_engine (im_db d))
  | (Err e, d') =>
      is_value_error e = false ∧ exn_class e ∉ [KeyError; ModuleNotFoundError; VectorOnlyIndexError] ∧
      (exn_class e = RuntimeError ∨ collection (db_engine (im_db d')) = collection (db_engine (im_db d)))
  end.
Proof.
  assert (∀ e, _read_json rq = Err e → ∃ r, do_POST c rq d = (Ok r, d) ∧ rs_status r = 400) as H400.
  { intros e He. unfold do_POST. rewrite He, (read_json_errors _ _ He). by apply send_done. }
  split; [exact H400|]. destruct (_read_json rq) as [payload|e] eqn:Erq.
  2: { destruct (H400 e eq_refl) as (r & -> & _). by right. }
  unfold do_POST, with_answers. rewrite Erq. pose proof (route_clean c (WC := WC) (rq_path rq) payload d) as Hroute.
  unfold done_or_clean, same_docs in Hroute. destruct (route_post c (rq_path rq) payload d) as [[r|e] d']; cbn [fst snd] in Hroute; [exact Hroute|].
  destruct (error_answer e) as [r|e'] eqn:Ee.
  - right. destruct Hroute as [Hc|]; [|done]. apply runtime_unanswered in Hc. congruence.
  - by apply error_answer_Err in Ee as (-> & ? & ?).
Qed.

(** *** What a redacted tool server shows *)

(** With text excluded, or not retained, no tool reads a text: a search answers scores, ids and metadata. *)
Lemma redacted_rows {E} {NE : NativeEngine E} c (hits : list SearchHit) (d : image_db E) :
  mapS (mcp_row c false) hits d = (Ok (map hit_entry hits), d).
Proof.
  induction hits as [|h l IH]; [done|]. cbn [mapS]. rewrite st_bind_run.
  change (mcp_row c false h d) with (@Ok pyval (hit_entry h), d). cbn beta iota. by rewrite st_bind_run, IH.
Qed.

Theorem redacted_server_keeps_texts {E} {NE : NativeEngine E} {TH : Secrets} (c : LodeConfig) version abi_version
    (exclude_text : bool) (d : image_db E) : cf_store_text c = false ∨ exclude_text = true →
  (∀ id, call_tool c version abi_version exclude_text (lodedb_get id) = None) ∧
  ∀ q k f m v d', call_tool c version abi_version exclude_text (lodedb_search q k f) = Some m → m d = (Ok v, d') →
    ∃ hits x, search c q k f (PStr (_default_search_mode c)) (im_db d) = (Ok hits, x) ∧ v = PList (map hit_entry hits).
Proof.
  intros H. assert (include_text c exclude_text = false) as Hi by (unfold include_text; destruct H as [-> | ->]; by rewrite ?andb_false_r).
  split; [intros id; cbn [call_tool]; by rewrite Hi|]. intros q k f m v d' [= <-]. rewrite Hi. unfold mcp_search. rewrite on_db_run.
  destruct (search c q k f _ (im_db d)) as [[hits|e] x]; [|done]. rewrite st_bind_run, redacted_rows. intros [= <- _]. by exists hits, x.
Qed.

(** ** On concrete data *)

Definition demo_db : image_db toy_engine := ImageDb (Db (Toy ∅ []) "" 0) zero_counters zero_counters.

Lemma http_add_get_roundtrip_witness :
  let add_rq := request_json "/add" (dict_of [("text", PStr "fox"); ("id", PStr "a"); ("metadata", PDict [(PStr "year", PInt 2020)])]) in
  let get_rq := request_json "/get" (dict_of [("id", PStr "a")]) in
  ∃ d' r1 r2, @served _ (toy_native true) toy_secrets demo_pooling toy_config PNone PNone [(POST, add_rq); (POST, get_rq)] demo_db
      = (Ok [Some r1; Some r2], d') ∧ rs_status r1 = 200 ∧ rs_status r2 = 200 ∧
    (∃ n, answer_json r1 = Ok (dict_of [("id", PStr "a"); ("count", PInt n)])) ∧
    answer_json r2 = Ok (dict_of [("id", PStr "a"); ("text", PStr "fox")]).
Proof.
  apply (@http_add_get_roundtrip _ (toy_native true) toy_view toy_secrets demo_pooling toy_config (toy_laws toy_config) toy_writable
    PNone PNone "fox" "a" [(PStr "year", PInt 2020)] (<["year" := "2020"]> ∅)); by vm_compute.
Defined.

Lemma refused_requests_change_nothing_witness :
  let rq := HttpRequest "/add" (Some "7") "{'text'" in
  ∃ r, @do_POST _ (toy_native true) toy_secrets demo_pooling toy_config rq demo_db = (Ok r, demo_db) ∧ rs_status r = 400.
Proof.
  destruct (@refused_requests_change_nothing _ (toy_native true) toy_view toy_secrets demo_pooling toy_config (toy_laws toy_config)
    toy_writable (HttpRequest "/add" (Some "7") "{'text'") demo_db) as [H _].
  by apply (H (Exn JSONDecodeError "Expecting value")).
Defined.

(** A body that is JSON but no object: the embeddings route says so, the others raise and the client gets no answer. *)
Example list_body_gets_no_answer :
  let rq path := HttpRequest path (Some "2") "[]" in
  let answer path := option_map rs_status <$> (@serve_one _ (toy_native true) toy_secrets demo_pooling toy_config PNone PNone
                       (POST, rq path) demo_db).1 in
  map answer ["/add"; "/search"; "/remove"; "/get"; "/embeddings"; "/nowhere"] = [Ok None; Ok None; Ok None; Ok None; Ok (Some 400); Ok (Some 404)].
Proof. by vm_compute. Qed.

Example bind_hosts : let A : Addresses := λ s, if bool_decide (s = "127.0.0.1") then Some (Address false true true)
    else if bool_decide (s = "0.0.0.0") then Some (Address true false true) else None in
  map is_private_bind_host ["127.0.0.1"; "0.0.0.0"; "localhost"; "example.org"] = [true; false; true; false].
Proof. by vm_compute. Qed.

Example embedding_threads : map (λ v, _embedding_threads_from_env {[ "LODEDB_EMBEDDING_THREADS" := v ]}) [" 4 "; " "; "0"; "many"]
  = [Ok (Some 4); Ok None; raise ValueError "LODEDB_EMBEDDING_THREADS must be a positive integer";
     raise ValueError "LODEDB_EMBEDDING_THREADS must be an integer"].
Proof. by vm_compute. Qed.
