(* ===== verification/Ingest.v ===== *)
(** * Ingest through the log

    [local/appender.py], [local/checkpointer.py] and [local/segments.py]: writers that log records beside a
    store without opening it, the process that folds the log, and the segment files of out-of-band
    producers. The log itself is the compiled engine's: the appender and checkpointer drive the handles of
    NativeAdapter.v, the segments the codec of the extension. What reaches the log is checked here, and the
    log of a run of appends, once folded, is compared with the verbs of LocalDb.v on the same documents. *)

From Stdlib Require Import Ascii String ZArith Lia SpecFloat.
From stdpp Require Import base strings gmap sets list.
From S2P Require Import Prelude Numbers PyVal Bytes Json FileSys Predicate Topology EngineCore VectorBoundary LocalOpen LocalDb LocalInit.
From S2P Require Import NativeAdapter.

Local Open Scope Z_scope.

Definition path_text (p : path) : string := str_join "/" (reverse p).

(** [value is None or not str(value).strip()] raises, [str(value)] otherwise. *)
Definition required (v : pyval) (msg : string) : result string :=
  match v with
  | PNone => raise ValueError msg
  | _ => if is_blank (py_str v) then raise ValueError msg else Ok (py_str v)
  end.

(** ** The appender *)

(** The handle is gone once closed. *)
Record Appender (A : Type) := MkAppender { ap_handle : option A; ap_embedder : option EmbeddingBackend; ap_path : path }.
Arguments MkAppender {A} _ _ _.
Arguments ap_handle {A} _.
Arguments ap_embedder {A} _.
Arguments ap_path {A} _.

Definition appender_contention (p : path) : exn :=
  Exn ConcurrentWriterError ("appender at " +:+ path_text p +:+ " could not take the lodedb lock (held by "
    +:+ "an exclusive writer or a checkpointer's fold); retry the append, or raise LODEDB_PERSIST_LOCK_TIMEOUT to wait longer.").

Definition appender_open_contention (p : path) : exn :=
  Exn ConcurrentWriterError ("appender at " +:+ path_text p +:+ " could not take the lodedb lock (held by an "
    +:+ "exclusive writer, or by another appender on Windows); close the other handle, or raise LODEDB_PERSIST_LOCK_TIMEOUT to wait longer.").

(** [except ValueError] with the contention test. *)
Definition remap (contended : exn → bool) (to : exn) (x : exn) : exn := if is_value_error x && contended x then to else x.

Section appender.
Context {A : Type} {CA : CoreAppender A} {R : Reductions}.

(** A call on the handle that [_require_open] gives. *)
Definition on_appender {T} (m : st A T) : st (Appender A) T := λ a,
  match ap_handle a with
  | Some h => let out := m h in (out.1, MkAppender (Some out.2) (ap_embedder a) (ap_path a))
  | None => (raise RuntimeError "appender is closed", a)
  end.

Definition _require_open : st (Appender A) unit := on_appender (mret tt).

Definition _require_embedder : st (Appender A) EmbeddingBackend := λ a,
  (match ap_embedder a with
   | Some e => Ok e
   | None => raise RuntimeError "text append requires opening the appender with an embedder= backend"
   end, a).

(** The append itself takes the lock. *)
Definition _logged (call : st A Z) : st (Appender A) Z := λ a,
  let out := on_appender call a in
  (match out.1 with Ok n => Ok n | Err x => Err (remap _is_writer_lock_contention (appender_contention (ap_path a)) x) end, out.2).

Definition appended_vector (normalize : bool) (item : vector_item) : result EngineVectorDocument :=
  v ← (match vi_vector item with Some v => Ok v | None => raise ValueError "each document needs a 'vector'" end);
  document_id ← required (vi_id item) "each document needs a non-empty 'id'";
  vector ← _finite_float_vector v normalize None;
  m ← _coerce_metadata (vi_metadata item);
  t ← _coerce_optional_text (vi_text item);
  Ok (EngineVec document_id vector m t).

Definition some_of {T} (l : list T) (msg : string) : result unit := match l with [] => raise ValueError msg | _ => Ok tt end.

Definition append_many (documents : list vector_item) (normalize : bool) : st (Appender A) Z :=
  prepared ← st_lift (mapR (appended_vector normalize) documents);
  _ ← st_lift (some_of prepared "append_many requires at least one document");
  _logged (NativeCoreAppenderHandle.append_vectors prepared).

Definition append (vector : list spec_float) (id metadata text : pyval) (normalize : bool) : st (Appender A) Z :=
  append_many [VectorItem (Some vector) id metadata text] normalize.

(** [[ids] if isinstance(ids, str) else [str(i) for i in ids]] *)
Definition id_list (ids : pyval) : result (list string) :=
  match ids with PStr s => Ok [s] | _ => l ← py_iter ids; Ok (map py_str l) end.

Definition append_delete (ids : pyval) : st (Appender A) Z :=
  document_ids ← st_lift (id_list ids);
  _ ← st_lift (some_of document_ids "delete requires at least one id");
  _logged (NativeCoreAppenderHandle.append_deletes document_ids).

Definition appended_text (item : text_item) : result EngineDocument :=
  t ← required (ti_text item) "each document needs a non-empty 'text'";
  document_id ← required (ti_id item) "each document needs a non-empty 'id'";
  m ← _coerce_metadata (ti_metadata item);
  Ok (EngineDoc document_id t m).

Definition append_text_many (documents : list text_item) : st (Appender A) Z :=
  embedder ← _require_embedder;
  _ ← _require_open;
  prepared ← st_lift (mapR appended_text documents);
  _ ← st_lift (some_of prepared "append_text_many requires at least one document");
  plan ← on_appender (NativeCoreAppenderHandle.prepare_documents prepared);
  chunks ← st_lift (chunks_to_embed (np_value plan));
  embeddings ← st_lift (match chunks with [] => Ok [] | _ => embed_documents embedder chunks end);
  _logged (NativeCoreAppenderHandle.append_embedded_documents plan embeddings).

Definition append_text (text id metadata : pyval) : st (Appender A) Z := append_text_many [TextItem text id metadata].

Definition appender_close : st (Appender A) unit := λ a, (Ok tt, MkAppender None (ap_embedder a) (ap_path a)).
End appender.

Definition native_durability (fsync : bool) : string := if fsync then "fsync" else "relaxed".

Section open.
Context {X A K : Type} {CM : CoreModule X A K}.
Context (importable : bool).

Definition appender_open (p : path) (durability : string) (store_text index_text acquire_writer_lock : bool)
    (embedder : option EmbeddingBackend) (chunk_character_limit : Z) : io (Appender A) :=
  fsync ← lift (normalize_durability (Some durability));
  if negb (NativeCoreAdapter.available importable) then fail RuntimeError "native core extension is not available"
  else
    r ← attempt (NativeCoreAdapter.open_appender importable p (native_durability fsync) store_text index_text acquire_writer_lock
                   chunk_character_limit);
    lift (match r with
          | Ok h => Ok (MkAppender (Some h) embedder p)
          | Err x => Err (remap _is_writer_lock_contention (appender_open_contention p) x)
          end).
End open.

(** ** The checkpointer *)

Definition _CHECKPOINTER_LEASE_CONTENTION_MARKER : string := "lodedb checkpointer lease".

Definition _is_checkpointer_contention (x : exn) : bool :=
  str_contains _CHECKPOINTER_LEASE_CONTENTION_MARKER (exn_msg x) || _is_writer_lock_contention x.

Definition checkpointer_open_contention (p : path) : exn :=
  Exn ConcurrentWriterError ("checkpointer at " +:+ path_text p +:+ " could not start (another checkpointer holds "
    +:+ "the lease, or a writer holds the lodedb lock); close the other handle, or raise LODEDB_PERSIST_LOCK_TIMEOUT to wait longer.").

Definition checkpointer_contention (p : path) : exn :=
  Exn ConcurrentWriterError ("checkpointer at " +:+ path_text p +:+ " could not take the lodedb lock to fold "
    +:+ "(held by an exclusive writer); retry, or raise LODEDB_PERSIST_LOCK_TIMEOUT to wait longer.").

(** The handle of the adapter, which can itself be closed. *)
Record Checkpointer (K : Type) := MkCheckpointer { ck_handle : option (option K); ck_path : path }.
Arguments MkCheckpointer {K} _ _.
Arguments ck_handle {K} _.
Arguments ck_path {K} _.

Section checkpointer.
Context {K : Type} {CK : CoreCheckpointer K}.

Definition checkpoint : st (Checkpointer K) Z := λ c,
  match ck_handle c with
  | Some h =>
      let out := NativeCoreCheckpointerHandle.checkpoint h in
      (match out.1 with Ok n => Ok n | Err x => Err (remap _is_writer_lock_contention (checkpointer_contention (ck_path c)) x) end,
       MkCheckpointer (Some out.2) (ck_path c))
  | None => (raise RuntimeError "checkpointer is closed", c)
  end.

Definition checkpointer_close : st (Checkpointer K) unit := λ c,
  match ck_handle c with
  | Some h => let out := NativeCoreCheckpointerHandle.close h in (out.1, MkCheckpointer None (ck_path c))
  | None => (Ok tt, c)
  end.
End checkpointer.

Section checkpointer_open.
Context {X A K : Type} {CM : CoreModule X A K}.
Context (importable : bool).

Definition checkpointer_open (p : path) (durability : string) (store_text index_text : bool) (chunk_character_limit : Z) : io (Checkpointer K) :=
  fsync ← lift (normalize_durability (Some durability));
  if negb (NativeCoreAdapter.available importable) then fail RuntimeError "native core extension is not available"
  else
    r ← attempt (NativeCoreAdapter.open_checkpointer importable p (native_durability fsync) store_text index_text chunk_character_limit);
    lift (match r with
          | Ok h => Ok (MkCheckpointer (Some (Some h)) p)
          | Err x => Err (remap _is_checkpointer_contention (checkpointer_open_contention p) x)
          end).
End checkpointer_open.

(** ** Segments *)

(** The codec of the extension. *)
Class SegmentCodec := {
  plan_segment_documents : string → bool → bool → Z → result string;
  build_embedded_documents_payload : string → list (list spec_float) → Z → result string;
  encode_wal_segment : string → result bytes;
  decode_wal_segment : bytes → result string }.

Section segments.
Context {SC : SegmentCodec}.

(** The loop over the documents, with the ids seen so far. *)
Fixpoint planned_documents (seen : gset string) (documents : list text_item) : result (list EngineDocument) :=
  match documents with
  | [] => Ok []
  | item :: documents =>
      t ← required (ti_text item) "each document needs a non-empty 'text'";
      document_id ← required (ti_id item) "each document needs a non-empty 'id'";
      _ ← (if bool_decide (document_id ∈ seen)
           then raise ValueError ("duplicate document id in one plan: " +:+ str_repr document_id) else Ok tt);
      m ← _coerce_metadata (ti_metadata item);
      rest ← planned_documents ({[ document_id ]} ∪ seen) documents;
      Ok (EngineDoc document_id t m :: rest)
  end.

Definition plan_documents (documents : list text_item) (store_text index_text : bool) (chunk_character_limit : Z) : result pydict :=
  prepared ← planned_documents ∅ documents;
  _ ← some_of prepared "plan_documents requires at least one document";
  text ← dumps unsorted (PList (map NativeCoreAdapter.document_payload prepared));
  plan_json ← plan_segment_documents text store_text index_text chunk_character_limit;
  plan ← loads plan_json;
  match plan with PDict d => Ok d | _ => raise RuntimeError "native core returned a non-object ingest plan" end.

Definition record (op : string) (payload : pyval) : pydict := [(PStr "op", PStr op); (PStr "payload", payload)].

Definition build_embedded_documents_record (plan : pydict) (embeddings : list (list spec_float)) (vector_dim : Z) : result pydict :=
  matrix ← np_matrix embeddings;
  text ← dumps unsorted (PDict plan);
  payload_json ← build_embedded_documents_payload text matrix vector_dim;
  payload ← loads payload_json;
  Ok (record "apply_embedded_documents" payload).

Definition delete_documents_record (ids : pyval) : result pydict :=
  document_ids ← id_list ids;
  _ ← some_of document_ids "delete_documents_record requires at least one document id";
  _ ← (if existsb is_blank document_ids then raise ValueError "document ids must be non-empty" else Ok tt);
  Ok (record "delete_documents" (dict_of [("document_ids", strings document_ids)])).

Definition encode_segment (records : list pydict) : result bytes :=
  text ← dumps unsorted (PList (map PDict records)); encode_wal_segment text.

Definition decode_segment (data : bytes) : result (list pydict) :=
  text ← decode_wal_segment data; loads_list "segment decode" text.
End segments.

Section fold.
Context {X : Type} {CE : CoreEngine X}.
Variable c : LodeConfig.

(** In memory only: nothing is persisted, nothing is caught. *)
Definition fold_segment (data : bytes) (first_lsn : Z) : st (LodeDB X) Z :=
  _ ← _require_writable c;
  (λ db, let out := NativeCoreEngineHandle.fold_wal_segment _LOCAL_INDEX_ID data first_lsn (db_engine db) in (out.1, with_engine db out.2))
    : st (LodeDB X) Z.
End fold.

(** ** The log *)

(** What the log gets from one append: the text the extension is sent. *)
Inductive log_entry := LogVectors (documents : string) | LogDeletes (ids : string) | LogTexts (plan embeddings : string).

(** A record of the log: the texts of its documents are in it only where the appender was opened with
    [store_text]; the default of [Appender.open] is not to. *)
Record log_item := Logged { lg_texts : bool; lg_entry : log_entry }.

(** The records an appender has logged, whether they keep the texts, and the documents a plan was made for. *)
Class AppendLog (A : Type) := { logged : A → list log_item; retains : A → bool; plan_of : string → option (list EngineDocument) }.

Section append_laws.
Context {A : Type} {CA : CoreAppender A} {AL : AppendLog A}.

(** One record, or none when the append fails. *)
Definition logs (e : log_entry) (a : A) (out : result Z * A) : Prop :=
  logged out.2 = logged a ++ match out.1 with Ok _ => [Logged (retains a) e] | Err _ => [] end ∧ retains out.2 = retains a.

Class AppenderLaws : Prop := {
  vectors_log text a : logs (LogVectors text) a (raw_append_vectors text a);
  deletes_log text a : logs (LogDeletes text) a (raw_append_deletes text a);
  texts_log plan embeddings a : logs (LogTexts plan embeddings) a (raw_append_embedded_documents plan embeddings a);
  plan_log text a : logged (raw_prepare_documents text a).2 = logged a ∧ retains (raw_prepare_documents text a).2 = retains a;
  plan_law text l a plan : read_list read_document text = Some l → (raw_prepare_documents text a).1 = Ok plan → plan_of plan = Some l }.
End append_laws.
Arguments AppenderLaws A {_ _}.

(** An appender keeps texts where its options say [store_text]. *)
Class OpenPolicy (X A K : Type) {CM : CoreModule X A K} {AL : AppendLog A} : Prop := {
  open_policy text d b s h : value (core_appender_open text s) = Ok h → loads text = Ok (PDict d) →
    dict_get "store_text" d = Some (PBool b) → retains h = b }.

Lemma opened_appender_retains {X A K : Type} {CM : CoreModule X A K} {AL : AppendLog A} {OP : OpenPolicy X A K} importable p durability
    store_text index_text lock embedder limit s a h :
  value (appender_open importable p durability store_text index_text lock embedder limit s) = Ok a → ap_handle a = Some h →
  retains h = store_text.
Proof.
  unfold appender_open. intros H Hh. apply io_bind_Ok in H as (fsync & _ & H & _). destruct (negb _); [done|].
  apply io_bind_Ok in H as (r & Hr & H & _). cbn [attempt value] in Hr. injection Hr as <-.
  cbn [lift value] in H. destruct (value _) as [h'|x] eqn:E; [|done]. injection H as <-. injection Hh as <-.
  unfold NativeCoreAdapter.open_appender in E. apply io_bind_Ok in E as (u & _ & E & _). apply io_bind_Ok in E as (text & Ht & E & _). cbn [lift value] in Ht.
  set (args := NativeCoreAdapter.OpenArgs _ _ _ _ _ _ _ _ _) in Ht. assert (json_ok (NativeCoreAdapter.open_options_payload args) = true) as Hok by object_ok.
  destruct (dumps_loads _ Hok) as (text' & Ht' & Hl). assert (text' = text) as -> by congruence.
  unfold NativeCoreAdapter.open_options_payload in *. destruct (object_get _ Hok) as (d & Hd & Hg). rewrite Hd in Hl. apply (open_policy text d store_text _ _ E Hl). by rewrite Hg.
Qed.

Inductive append_call :=
| AppendMany (documents : list vector_item) (normalize : bool)
| AppendTexts (documents : list text_item)
| AppendDelete (ids : pyval).

Section runs.
Context {A : Type} {CA : CoreAppender A} {AL : AppendLog A} {R : Reductions}.

Definition run_call (call : append_call) : st (Appender A) Z :=
  match call with
  | AppendMany documents normalize => append_many documents normalize
  | AppendTexts documents => append_text_many documents
  | AppendDelete ids => append_delete ids
  end.

(** Calls one after the other, whatever they answer. *)
Fixpoint run_calls (calls : list append_call) (a : Appender A) : list (result Z) * Appender A :=
  match calls with
  | [] => ([], a)
  | call :: calls => let out := run_call call a in let rest := run_calls calls out.2 in (out.1 :: rest.1, rest.2)
  end.

(** The embeddings a plan asks for. *)
Definition plan_embedded (embedder : option EmbeddingBackend) (plan : string) (rows : list (list spec_float)) : Prop :=
  ∃ b v d chunks, embedder = Some b ∧ loads plan = Ok v ∧ py_dict v = Ok d ∧ chunks_to_embed d = Ok chunks ∧
    match chunks with [] => rows = [] | _ => embed_documents b chunks = Ok rows end.

(** The record a call stands for: its whole batch, every document checked. *)
Definition entry_of (embedder : option EmbeddingBackend) (call : append_call) (e : log_entry) : Prop :=
  match call with
  | AppendMany documents normalize => ∃ prepared text, mapR (appended_vector normalize) documents = Ok prepared ∧ prepared ≠ [] ∧
      _dumps (PList (map NativeCoreAdapter.vector_document_payload prepared)) = Ok text ∧ e = LogVectors text
  | AppendTexts documents => ∃ prepared plan rows text, mapR appended_text documents = Ok prepared ∧ prepared ≠ [] ∧
      plan_of plan = Some prepared ∧ plan_embedded embedder plan rows ∧ _dumps (PList (map floats rows)) = Ok text ∧ e = LogTexts plan text
  | AppendDelete ids => ∃ l text, id_list ids = Ok l ∧ l ≠ [] ∧ _dumps (strings l) = Ok text ∧ e = LogDeletes text
  end.

Definition contended (x : exn) : bool := is_value_error x && _is_writer_lock_contention x.

(** What a call answers and what it leaves in the log. *)
Definition answers (embedder : option EmbeddingBackend) (call : append_call) (r : result Z) (e : option log_entry) : Prop :=
  match r with
  | Ok _ => ∃ x, e = Some x ∧ entry_of embedder call x
  | Err x => e = None ∧
      match call with AppendTexts _ => True | _ => (∃ y, entry_of embedder call y) → contended x = false end
  end.

Context {L : AppenderLaws A}.

Lemma remap_contention p x : contended (remap _is_writer_lock_contention (appender_contention p) x) = false.
Proof. unfold remap, contended. destruct (is_value_error x && _is_writer_lock_contention x) eqn:E; [done|exact E]. Qed.

(** An append on an open appender. *)
Definition appends (a : Appender A) (h : A) (ok : log_entry → Prop) (out : result Z * Appender A) : Prop :=
  ∃ h', out.2 = MkAppender (Some h') (ap_embedder a) (ap_path a) ∧
    match out.1 with
    | Ok _ => ∃ e, logged h' = logged h ++ [Logged (retains h) e] ∧ ok e
    | Err x => logged h' = logged h
    end ∧ retains h' = retains h.

Lemma logged_run (call : st A Z) a h e : ap_handle a = Some h → logs e h (call h) →
  appends a h (λ e', e' = e) (_logged call a) ∧ (∀ x, (_logged call a).1 = Err x → contended x = false).
Proof.
  intros Ha Hl. unfold _logged, on_appender. rewrite Ha. unfold logs in Hl. destruct (call h) as [[n|x] h']; cbn [fst snd] in *; destruct Hl as [Hl Hret].
  - split; [|done]. exists h'. split; [done|]. split; [by exists e|done].
  - split; [|intros y [= <-]; apply remap_contention]. exists h'. split; [done|]. split; [|done]. cbn. by rewrite Hl, app_nil_r.
Qed.

(** A text sent under the lock. *)
Lemma send_run (r : result string) (raw : string → st A Z) (entry : string → log_entry) a h : ap_handle a = Some h →
  (∀ t e, logs (entry t) e (raw t e)) →
  appends a h (λ e, ∃ t, r = Ok t ∧ e = entry t) (_logged (t ← st_lift r; raw t) a) ∧
  (∀ x, (_logged (t ← st_lift r; raw t) a).1 = Err x → contended x = false).
Proof.
  intros Ha Hraw. destruct r as [t|y].
  - destruct (logged_run (t ← st_lift (Ok t); raw t) a h (entry t) Ha (Hraw t h)) as [(h' & Ho & Hr & Hret) Hc]. split; [|done].
    exists h'. split; [done|]. split; [|done]. destruct (_logged _ a).1; [|done]. destruct Hr as (e & Hl & ->). exists (entry t). split; [done|]. by exists t.
  - destruct (logged_run (t ← st_lift (Err y); raw t) a h (entry "") Ha) as [(h' & Ho & Hr & Hret) Hc]; [unfold logs; by rewrite app_nil_r|]. split; [|done].
    exists h'. split; [done|]. split; [|done]. unfold _logged, on_appender in Hr |- *. rewrite Ha in Hr |- *. exact Hr.
Qed.

Lemma appends_mono a h (P Q : log_entry → Prop) out : (∀ e, P e → Q e) → appends a h P out → appends a h Q out.
Proof.
  intros H (h' & Ho & Hr & Hret). exists h'. split; [done|]. split; [|done]. destruct out.1; [|done]. destruct Hr as (e & He & Hp). exists e. auto.
Qed.

(** A step before the append that fails leaves the log alone. *)
Lemma refused_appends (P : log_entry → Prop) a h x : ap_handle a = Some h → appends a h P (Err x, a).
Proof. intros Ha. exists h. split; [|by split]. destruct a. cbn in *. by subst. Qed.

Lemma append_many_run documents normalize a h : ap_handle a = Some h → let out := append_many documents normalize a in
  appends a h (entry_of (ap_embedder a) (AppendMany documents normalize)) out ∧
  ∀ x, out.1 = Err x → (∃ y, entry_of (ap_embedder a) (AppendMany documents normalize) y) → contended x = false.
Proof.
  intros Ha. cbv zeta. unfold append_many. rewrite lift_run. cbn [entry_of].
  destruct (mapR (appended_vector normalize) documents) as [l|x] eqn:Em.
  2: { split; [by apply refused_appends|]. intros ? _ (? & ? & ? & Hx & _). congruence. }
  destruct l as [|d l].
  { split; [by apply refused_appends|]. intros ? _ (? & ? & ? & Hx & Hn & _). congruence. }
  rewrite lift_run. cbn [some_of].
  destruct (send_run (_dumps (PList (map NativeCoreAdapter.vector_document_payload (d :: l)))) raw_append_vectors LogVectors a h Ha) as [Hs Hc].
  { apply vectors_log. }
  split; [|intros x Hx _; by apply Hc]. eapply appends_mono; [|exact Hs]. intros e (t & Ht & ->). exists (d :: l), t. by split_and!.
Qed.

Lemma append_delete_run ids a h : ap_handle a = Some h → let out := append_delete ids a in
  appends a h (entry_of (ap_embedder a) (AppendDelete ids)) out ∧
  ∀ x, out.1 = Err x → (∃ y, entry_of (ap_embedder a) (AppendDelete ids) y) → contended x = false.
Proof.
  intros Ha. cbv zeta. unfold append_delete. rewrite lift_run. cbn [entry_of]. destruct (id_list ids) as [l|x] eqn:Em.
  2: { split; [by apply refused_appends|]. intros ? _ (? & ? & ? & Hx & _). congruence. }
  destruct l as [|i l].
  { split; [by apply refused_appends|]. intros ? _ (? & ? & ? & Hx & Hn & _). congruence. }
  rewrite lift_run. cbn [some_of].
  destruct (send_run (_dumps (strings (i :: l))) raw_append_deletes LogDeletes a h Ha) as [Hs Hc]; [apply deletes_log|].
  split; [|intros x Hx _; by apply Hc]. eapply appends_mono; [|exact Hs]. intros e (t & Ht & ->). exists (i :: l), t. by split_and!.
Qed.

(** Preparing a plan logs nothing. *)
Lemma prepare_plan_run docs a h : ap_handle a = Some h → let out := on_appender (NativeCoreAppenderHandle.prepare_documents docs) a in
  (∃ h', out.2 = MkAppender (Some h') (ap_embedder a) (ap_path a) ∧ logged h' = logged h ∧ retains h' = retains h) ∧
  ∀ plan, out.1 = Ok plan → plan_of (native_json plan) = Some docs ∧ ∃ v, loads (native_json plan) = Ok v ∧ py_dict v = Ok (np_value plan).
Proof.
  intros Ha. cbv zeta. unfold on_appender, NativeCoreAppenderHandle.prepare_documents. rewrite Ha, lift_run.
  destruct (list_through NativeCoreAdapter.document_payload read_document id docs) as (text & Hd & Hr); [intros d; apply document_through|].
  rewrite map_id in Hr. rewrite Hd, st_bind_run. destruct (plan_log text h) as [Hlog Hret]. pose proof (plan_law text docs h) as Hplan.
  destruct (raw_prepare_documents text h) as [[t|x] h'] eqn:E; cbn [fst snd] in *; [|split; [by exists h'|done]].
  unfold st_lift. cbn [fst snd]. split; [by exists h'|]. intros plan (v & Hv & (d & Hpd & [= <-])%bind_Ok)%bind_Ok. cbn. split; [by apply Hplan|].
  by exists v.
Qed.
Lemma require_open_run (a : Appender A) h : ap_handle a = Some h → _require_open a = (Ok tt, a).
Proof. intros Ha. unfold _require_open, on_appender. rewrite Ha. destruct a. cbn in *. by subst. Qed.

Lemma appends_from a a' h h' (P : log_entry → Prop) out : a' = MkAppender (Some h') (ap_embedder a) (ap_path a) →
  logged h' = logged h ∧ retains h' = retains h → appends a' h' P out → appends a h P out.
Proof. intros -> [Hl Hret] (h1 & Ho & Hr). exists h1. split; [exact Ho|]. by rewrite <-Hl, <-Hret. Qed.

Lemma append_text_many_run documents a h : ap_handle a = Some h →
  appends a h (entry_of (ap_embedder a) (AppendTexts documents)) (append_text_many documents a).
Proof.
  intros Ha. unfold append_text_many. rewrite st_bind_run. unfold _require_embedder. destruct (ap_embedder a) as [b|] eqn:Eb; [|by apply refused_appends].
  rewrite st_bind_run, (require_open_run a h Ha), lift_run. destruct (mapR appended_text documents) as [l|x] eqn:Em; [|by apply refused_appends].
  rewrite lift_run. destruct l as [|d l]; [by apply refused_appends|]. cbn [some_of]. rewrite st_bind_run.
  destruct (prepare_plan_run (d :: l) a h Ha) as [(h' & Hs & Hl) Hp]. destruct (on_appender _ a) as [r a1]. cbn [fst snd] in Hs, Hp.
  assert (∀ x, appends a h (entry_of (Some b) (AppendTexts documents)) (Err x, a1)) as Hfail.
  { intros x. eapply appends_from; [exact Hs|exact Hl|]. by apply refused_appends; subst a1. }
  destruct r as [plan|x]; [|apply Hfail]. destruct (Hp plan eq_refl) as (Hplan & v & Hv & Hd). rewrite lift_run.
  destruct (chunks_to_embed (np_value plan)) as [chunks|x] eqn:Ec; [|apply Hfail]. rewrite lift_run.
  destruct (match chunks with [] => Ok [] | _ :: _ => embed_documents b chunks end) as [rows|x] eqn:Ee; [|apply Hfail].
  eapply appends_from; [exact Hs|exact Hl|]. assert (ap_handle a1 = Some h') as Ha1 by (by subst a1).
  destruct (send_run (_dumps (PList (map floats rows))) (raw_append_embedded_documents (native_json plan)) (LogTexts (native_json plan)) a1 h' Ha1)
    as [Hsend _]; [apply texts_log|].
  eapply appends_mono; [|exact Hsend]. intros e (t & Ht & ->). exists (d :: l), (native_json plan), rows, t. split_and!; try done.
  exists b, v, (np_value plan), chunks. split_and!; try done. destruct chunks; [by injection Ee as <-|done].
Qed.

Lemma run_call_answers call a h : ap_handle a = Some h → let out := run_call call a in
  ∃ h' e, out.2 = MkAppender (Some h') (ap_embedder a) (ap_path a) ∧ logged h' = logged h ++ map (Logged (retains h)) (option_list e) ∧
    retains h' = retains h ∧ answers (ap_embedder a) call out.1 e.
Proof.
  intros Ha. cbv zeta. assert (∀ out : result Z * Appender A, appends a h (entry_of (ap_embedder a) call) out →
    (∀ x, out.1 = Err x → match call with AppendTexts _ => True | _ => (∃ y, entry_of (ap_embedder a) call y) → contended x = false end) →
    ∃ h' e, out.2 = MkAppender (Some h') (ap_embedder a) (ap_path a) ∧ logged h' = logged h ++ map (Logged (retains h)) (option_list e) ∧
      retains h' = retains h ∧ answers (ap_embedder a) call out.1 e) as H.
  { intros [[n|x] a'] (h' & Ho & Hr & Hret) Hc; cbn [fst snd] in *.
    - destruct Hr as (e & Hl & He). exists h', (Some e). split; [done|]. split; [exact Hl|]. split; [done|]. by exists e.
    - exists h', None. split; [done|]. split; [by rewrite Hr, app_nil_r|]. split; [done|]. split; [done|]. by apply Hc. }
  destruct call as [documents normalize|documents|ids]; cbn [run_call].
  - destruct (append_many_run documents normalize a h Ha) as [H1 H2]. by apply H.
  - apply H; [by apply append_text_many_run|done].
  - destruct (append_delete_run ids a h Ha) as [H1 H2]. by apply H.
Qed.

Lemma calls_logged (calls : list append_call) (a : Appender A) (h : A) : ap_handle a = Some h →
  let out := run_calls calls a in
  ∃ h' es, ap_handle out.2 = Some h' ∧ logged h' = logged h ++ map (Logged (retains h)) (omap id es) ∧ retains h' = retains h ∧
    Forall3 (answers (ap_embedder a)) calls out.1 es.
Proof.
  cbv zeta. revert a h. induction calls as [|call calls IH]; intros a h Ha.
  - exists h, []. cbn. rewrite app_nil_r. split; [done|]. split; [done|]. split; [done|]. constructor.
  - destruct (run_call_answers call a h Ha) as (h1 & e & Hs & Hl & Hret & Hans). cbn [run_calls fst snd].
    destruct (IH (run_call call a).2 h1) as (h' & es & Hh & Hl' & Hret' & HF); [by rewrite Hs|].
    exists h', (e :: es). split; [done|]. split; [|split; [congruence|]].
    + rewrite Hl', Hl, Hret, <-app_assoc. f_equal. by destruct e.
    + constructor; [exact Hans|]. rewrite Hs in HF |- *. exact HF.
Qed.

(** Whatever is asked of an open appender, the log grows by exactly one record for every call that
    succeeds, made from its whole batch with every document checked, and by nothing for a call that fails:
    no partial batch, no unchecked document, no record without its call. A checked batch that meets a held
    lock fails with the stable contention error, never with the raw one. *)
Theorem appends_log_checked_batches (calls : list append_call) (a : Appender A) (h : A) : ap_handle a = Some h →
  let out := run_calls calls a in
  ∃ h' es, ap_handle out.2 = Some h' ∧ logged h' = logged h ++ map (Logged (retains h)) (omap id es) ∧ retains h' = retains h ∧
    Forall3 (answers (ap_embedder a)) calls out.1 es.
Proof. apply calls_logged. Qed.
End runs.

(** ** Appending and folding is writing *)

(** A record of the log, read. *)
Inductive log_record := RVectors (l : list sidecar_entry) | RDeletes (ids : list string) | RTexts (l : list EngineDocument).

Definition read_entry {A} {AL : AppendLog A} (e : log_entry) : option log_record :=
  match e with
  | LogVectors text => RVectors <$> read_list read_sidecar text
  | LogDeletes text => RDeletes <$> read_list read_str text
  | LogTexts plan _ => RTexts <$> plan_of plan
  end.

Definition apply_record (store_text : bool) (m : gmap string native_doc) (r : log_record) : gmap string native_doc :=
  match r with
  | RVectors l => put_sidecars store_text l m
  | RDeletes ids => foldl (λ m id, delete id m) m ids
  | RTexts l => put_texts store_text l m
  end.

(** The writable open that folds a log into the collection, record by record. *)
Class LogFold (X : Type) := { fold_log : list log_item → X → X }.

(** The records of a log, each with whether its texts are in it. *)
Definition read_items {A} {AL : AppendLog A} (l : list log_item) : option (list (bool * log_record)) :=
  mapM (λ i, r ← read_entry (lg_entry i); Some (lg_texts i, r)) l.

(** A store that keeps texts keeps those that reached the log. *)
Definition fold_records (store_text : bool) (m : gmap string native_doc) (rs : list (bool * log_record)) : gmap string native_doc :=
  foldl (λ m r, apply_record (store_text && r.1) m r.2) m rs.

(** Records apart from their texts, and the texts that were there before. *)
Lemma put_metadata {T} (key : T → string) (doc doc' : T → native_doc) l (m m' : gmap string native_doc) : (∀ t, nd_metadata (doc t) = nd_metadata (doc' t)) →
  nd_metadata <$> m = nd_metadata <$> m' →
  nd_metadata <$> fold_left (λ m t, <[key t := doc t]> m) l m = nd_metadata <$> fold_left (λ m t, <[key t := doc' t]> m) l m'.
Proof.
  intros Hd. revert m m'. induction l as [|t l IH]; intros m m' H; cbn [fold_left]; [done|]. apply IH. by rewrite !fmap_insert, Hd, H.
Qed.

Lemma apply_metadata b b' r (m m' : gmap string native_doc) : nd_metadata <$> m = nd_metadata <$> m' →
  nd_metadata <$> apply_record b m r = nd_metadata <$> apply_record b' m' r.
Proof.
  intros H. destruct r as [l|ids|l]; cbn [apply_record].
  - by apply (put_metadata sc_id (λ s, NDoc (if b then sc_text s else None) (sc_metadata s)) (λ s, NDoc (if b' then sc_text s else None) (sc_metadata s))).
  - revert m m' H. induction ids as [|i ids IH]; intros m m' H; cbn [foldl]; [done|]. apply IH. by rewrite !fmap_delete, H.
  - by apply (put_metadata ed_id (λ d, NDoc (if b then Some (ed_text d) else None) (ed_metadata d))
      (λ d, NDoc (if b' then Some (ed_text d) else None) (ed_metadata d))).
Qed.

Lemma put_textless {T} (key : T → string) (doc : T → native_doc) l (m : gmap string native_doc) id d : (∀ t, nd_text (doc t) = None) →
  fold_left (λ m t, <[key t := doc t]> m) l m !! id = Some d → nd_text d ≠ None → m !! id = Some d.
Proof.
  intros Hd. revert m. induction l as [|t l IH]; intros m H Hn; cbn [fold_left] in H; [done|]. apply IH in H; [|done].
  apply lookup_insert_Some in H as [[_ <-]|[_ H]]; [by rewrite Hd in Hn|done].
Qed.

Lemma apply_textless r (m : gmap string native_doc) id d : apply_record false m r !! id = Some d → nd_text d ≠ None → m !! id = Some d.
Proof.
  destruct r as [l|ids|l]; cbn [apply_record]; intros H Hn.
  - by eapply (put_textless sc_id (λ s, NDoc None (sc_metadata s))).
  - revert m H. induction ids as [|i ids IH]; intros m H; cbn [foldl] in H; [done|]. apply IH in H. by apply lookup_delete_Some in H as [_ ?].
  - by eapply (put_textless ed_id (λ d, NDoc None (ed_metadata d))).
Qed.

(** A log whose records all keep their texts, or all do not. *)
Lemma fold_records_same b k rs m : fold_records b m (map (pair k) rs) = foldl (apply_record (b && k)) m rs.
Proof. unfold fold_records. revert m. induction rs as [|r rs IH]; intros m; cbn; [done|]. apply IH. Qed.

Lemma records_metadata b b' rs : ∀ m m' : gmap string native_doc, nd_metadata <$> m = nd_metadata <$> m' →
  nd_metadata <$> foldl (apply_record b) m rs = nd_metadata <$> foldl (apply_record b') m' rs.
Proof. induction rs as [|r rs IH]; intros m m' H; cbn [foldl]; [done|]. by apply IH, apply_metadata. Qed.

Lemma records_textless rs : ∀ (m : gmap string native_doc) id d, foldl (apply_record false) m rs !! id = Some d → nd_text d ≠ None → m !! id = Some d.
Proof. induction rs as [|r rs IH]; intros m id d H Hn; cbn [foldl] in H; [done|]. eapply apply_textless; [|done]. by eapply IH. Qed.

Lemma read_items_same {A} {AL : AppendLog A} k es rs : mapM read_entry es = Some rs → read_items (map (Logged k) es) = Some (map (pair k) rs).
Proof.
  unfold read_items. revert rs. induction es as [|e es IH]; intros rs H; cbn in H |- *; [by injection H as <-|].
  destruct (read_entry e) as [x|]; [|done]. cbn in H |- *. destruct (mapM read_entry es) as [xs|]; [|done]. injection H as <-.
  rewrite (IH xs eq_refl). done.
Qed.

Section folding.
Context {X A : Type} {NE : NativeEngine X} {NV : NativeView X} {CA : CoreAppender A} {AL : AppendLog A} {LF : LogFold X}.
Context {R : Reductions} {TH : Secrets} (c : LodeConfig).

Class FoldLaws : Prop := {
  fold_law items rs e : read_items items = Some rs → collection (fold_log items e) = fold_records (cf_store_text c) (collection e) rs }.

(** The same call on an open database. *)
Definition run_verb (call : append_call) : st (LodeDB X) unit :=
  match call with
  | AppendMany documents normalize => _ ← add_vectors_many c documents normalize; mret tt
  | AppendTexts documents => _ ← add_many c documents; mret tt
  | AppendDelete ids => _ ← remove c ids; mret tt
  end.

Fixpoint run_verbs (calls : list append_call) : st (LodeDB X) unit :=
  match calls with [] => mret tt | call :: calls => _ ← run_verb call; run_verbs calls end.

(** Batches both ways accept: string ids and texts, vectors of the dimension of the index whose unit
    form prints, ids not repeated where the texts are chunked together. *)
Definition ingestible (call : append_call) : Prop :=
  match call with
  | AppendMany documents normalize => normalize = true ∧ ∃ rows, rows ≠ [] ∧ Forall2 reads_as_vector documents rows ∧
      Forall (λ r, is_blank (sc_id r.2) = false ∧ takes_vector c r.1 = true) rows ∧
      ∀ prepared, mapR (appended_vector true) documents = Ok prepared → Forall (λ d, forallb float_json_ok (ev_vector d) = true) prepared
  | AppendTexts documents => cf_vector_only c = false ∧ ∃ docs, Forall2 reads_as_text documents docs ∧
      Forall (λ d, is_blank (ed_id d) = false ∧ is_blank (ed_text d) = false) docs ∧ NoDup (map ed_id docs)
  | AppendDelete ids => ∃ id, ids = PStr id ∧ is_blank id = false
  end.

Context {NL : NativeLaws X c} {WC : writable_config c} {RL : ReductionLaws R} {L : AppenderLaws A} {FL : FoldLaws}.

Lemma vector_through d : forallb float_json_ok (ev_vector d) = true →
  json_ok (NativeCoreAdapter.vector_document_payload d) = true ∧
  read_sidecar (canon (NativeCoreAdapter.vector_document_payload d)) = Some (sidecar_of d).
Proof.
  intros Hf. destruct (opt_text_read (ev_text d)) as [Ht Hr].
  assert (json_ok (floats (ev_vector d)) = true) as Hv.
  { unfold floats. cbn [json_ok]. apply forallb_forall. intros ? (f & <- & Hin)%in_map_iff. rewrite forallb_forall in Hf. by apply Hf. }
  assert (json_ok (NativeCoreAdapter.vector_document_payload d) = true) as Hok by object_ok. split; [done|].
  unfold NativeCoreAdapter.vector_document_payload in *. destruct (object_get _ Hok) as (p & -> & Hp). cbn [read_sidecar]. rewrite !Hp.
  change (get_item "document_id" _) with (Some (PStr (ev_id d))). change (get_item "text" _) with (Some (opt_text (ev_text d))).
  change (get_item "metadata" _) with (Some (metadata_payload (ev_metadata d))).
  cbn [fmap option_fmap option_map mbind option_bind canon read_str]. rewrite read_meta_dict, Hr. by destruct d.
Qed.

(** A checked batch keeps the ids, metadata and texts. *)
Lemma checked_sidecars documents rows prepared : Forall2 reads_as_vector documents rows → mapR (appended_vector true) documents = Ok prepared →
  map sidecar_of prepared = map snd rows.
Proof.
  intros HF. revert prepared. induction HF as [|it [v s] items rows (Hv & Hi & Hm & Ht) HF IH]; intros prepared Hp; cbn [mapR] in Hp.
  { by injection Hp as <-. }
  apply bind_Ok in Hp as (d & Hd & (ds & Hds & [= <-])%bind_Ok). cbn [map]. rewrite (IH ds Hds). f_equal.
  unfold appended_vector in Hd. cbn [fst snd] in *. rewrite Hv, Hi, Hm, Ht in Hd. cbn [mbind result_bind] in Hd.
  apply bind_Ok in Hd as (i & Hi' & (w & _ & [= <-])%bind_Ok). unfold required in Hi'. destruct (is_blank _); [done|]. injection Hi' as <-. by destruct s.
Qed.

Lemma checked_texts_read documents docs prepared : Forall2 reads_as_text documents docs → mapR appended_text documents = Ok prepared → prepared = docs.
Proof.
  intros HF. revert prepared. induction HF as [|it d items docs (Ht & Hi & Hm) HF IH]; intros prepared Hp; cbn [mapR] in Hp.
  { by injection Hp as <-. }
  apply bind_Ok in Hp as (d' & Hd & (ds & Hds & [= <-])%bind_Ok). rewrite (IH ds Hds). f_equal. unfold appended_text in Hd. rewrite Ht, Hi, Hm in Hd.
  apply bind_Ok in Hd as (t & Ht' & (i & Hi' & [= <-])%bind_Ok). unfold required in *. cbn [py_str] in *.
  destruct (is_blank (ed_text d)); [done|]. destruct (is_blank (ed_id d)); [done|]. injection Ht' as <-. injection Hi' as <-. by destruct d.
Qed.
(** One call, both ways. *)
Lemma folds_like_verb embedder call e : ingestible call → entry_of embedder call e → ∃ r, read_entry e = Some r ∧
  ∀ x, ∃ x', run_verb call x = (Ok tt, x') ∧ collection (db_engine x') = apply_record (cf_store_text c) (collection (db_engine x)) r.
Proof.
  destruct call as [documents normalize|documents|ids]; cbn [ingestible entry_of run_verb].
  - intros (-> & rows & Hne & Hrows & Hok & Hf) (prepared & text & Hp & _ & Ht & ->).
    destruct (list_through_in NativeCoreAdapter.vector_document_payload read_sidecar sidecar_of prepared) as (text' & Ht' & Hr).
    { eapply Forall_impl; [by apply Hf|]. apply vector_through. }
    assert (text' = text) as -> by congruence. exists (RVectors (map snd rows)). cbn [read_entry apply_record].
    rewrite Hr, (checked_sidecars documents rows prepared) by done. split; [done|]. intros x.
    destruct (add_vectors_many_run c (NL:=NL) (WC:=WC) (RL:=RL) documents rows x Hne Hrows Hok) as (x' & Hx & Hc).
    exists x'. by rewrite st_bind_run, Hx.
  - intros (Hv & docs & Hdocs & Hb & Hnd) (prepared & plan & rows & text & Hp & _ & Hplan & _ & _ & ->).
    rewrite (checked_texts_read documents docs prepared) in Hplan by done. exists (RTexts docs). cbn [read_entry apply_record].
    rewrite Hplan. split; [done|]. intros x. destruct (add_many_run c (NL:=NL) (WC:=WC) documents docs x Hv Hdocs Hb Hnd) as (x' & Hx & Hc).
    exists x'. by rewrite st_bind_run, Hx.
  - intros (id & -> & Hb) (l & text & [= <-] & _ & Ht & ->). destruct (strings_through [id]) as (text' & Ht' & Hr).
    assert (text' = text) as -> by congruence. exists (RDeletes [id]). cbn [read_entry apply_record foldl]. rewrite Hr. split; [done|].
    intros x. destruct (remove_collection_run c (NL:=NL) (WC:=WC) id x Hb) as (x' & Hx & Hc). exists x'. by rewrite st_bind_run, Hx.
Qed.

(** The whole run, both ways. *)
Lemma folds_like_verbs embedder calls rs es : Forall ingestible calls → Forall is_Ok rs → Forall3 (answers embedder) calls rs es →
  ∃ records, mapM read_entry (omap id es) = Some records ∧
  ∀ x, ∃ x', run_verbs calls x = (Ok tt, x') ∧ collection (db_engine x') = foldl (apply_record (cf_store_text c)) (collection (db_engine x)) records.
Proof.
  intros Hi Hok HF. induction HF as [|call r e calls rs es Hans HF IH]; cbn [run_verbs].
  { exists []. split; [done|]. intros x. by exists x. }
  apply Forall_cons in Hi as [Hi His]. apply Forall_cons in Hok as [[n ->] Hoks]. destruct Hans as (y & -> & Hy).
  destruct (folds_like_verb embedder call y Hi Hy) as (rec & Hrec & Hverb). destruct (IH His Hoks) as (recs & Hrecs & Hverbs).
  exists (rec :: recs). cbn. rewrite Hrec, Hrecs. split; [done|]. intros x. destruct (Hverb x) as (x1 & Hx1 & Hc1).
  destruct (Hverbs x1) as (x2 & Hx2 & Hc2). exists x2. rewrite st_bind_run, Hx1. split; [exact Hx2|]. by rewrite Hc2, Hc1.
Qed.

(** C32: batches of vectors, texts and deletions appended to the log of a store, once folded into an engine
    by the next writable open, leave the documents that the same calls on an open database leave: the same ids and
    metadata, and the same retained texts where the appender was opened to keep them or the store keeps none. An
    appender opened without [store_text], the default, adds no text to any store. No call of the database fails
    where the appends did not. The batches are those both ways take ([ingestible]): normalized vectors of the
    dimension of the index, nonblank string ids and texts, texts only where the database embeds, no id twice in a batch of
    texts, one id per deletion. *)
Theorem fold_of_appends_is_writes (calls : list append_call) (a : Appender A) (h : A) (x : LodeDB X) (e : X) :
  Forall ingestible calls → ap_handle a = Some h → Forall is_Ok (run_calls calls a).1 → collection e = collection (db_engine x) →
  ∃ h' es x', ap_handle (run_calls calls a).2 = Some h' ∧ logged h' = logged h ++ es ∧ run_verbs calls x = (Ok tt, x') ∧
    let folded := collection (fold_log es e) in
    nd_metadata <$> folded = nd_metadata <$> collection (db_engine x') ∧
    (retains h = true ∨ cf_store_text c = false → folded = collection (db_engine x')) ∧
    (retains h = false → ∀ id d, folded !! id = Some d → nd_text d ≠ None → collection e !! id = Some d).
Proof.
  intros Hi Ha Hok He. destruct (calls_logged calls a h Ha) as (h' & es & Hh & Hl & _ & HF).
  destruct (folds_like_verbs _ calls _ es Hi Hok HF) as (recs & Hrecs & Hrun). destruct (Hrun x) as (x' & Hx & Hc).
  exists h', (map (Logged (retains h)) (omap id es)), x'. split; [done|]. split; [done|]. split; [done|]. cbv zeta.
  rewrite (fold_law _ _ e (read_items_same (retains h) _ _ Hrecs)), fold_records_same, He, Hc. split; [by apply records_metadata|]. split.
  - by intros [->| ->]; rewrite ?andb_true_r.
  - intros -> id d. rewrite andb_false_r. apply records_textless.
Qed.
End folding.

(** ** Plans and folds *)

Lemma required_Ok v msg s : required v msg = Ok s → is_blank s = false ∧ s = py_str v.
Proof. unfold required. destruct v; try done; (destruct (is_blank _) eqn:E; [done|]; by intros [= <-]). Qed.

(** The documents of a segment plan are those of an appender's batch, provided no id comes twice. *)
Lemma planned_documents_exact items : ∀ seen docs, planned_documents seen items = Ok docs ↔
  mapR appended_text items = Ok docs ∧ NoDup (map ed_id docs) ∧ Forall (λ d, ed_id d ∉ seen) docs.
Proof.
  induction items as [|item items IH]; intros seen docs; cbn [planned_documents mapR].
  { split; [intros [= <-]; split_and!; [done|constructor|constructor]|by intros [[= <-] _]]. }
  unfold appended_text at 2. destruct (required (ti_text item) _) as [t|]; cbn [mbind result_bind]; [|by split; [|intros [? _]]].
  destruct (required (ti_id item) _) as [i|]; cbn [mbind result_bind]; [|by split; [|intros [? _]]]. case_bool_decide as Hseen; cbn [mbind result_bind].
  { split; [done|]. intros (H & _ & HF). destruct (_coerce_metadata _) as [m|]; cbn [mbind result_bind] in H; [|done].
    apply bind_Ok in H as (rest & _ & [= <-]). by apply Forall_cons in HF as [? _]. }
  destruct (_coerce_metadata (ti_metadata item)) as [m|]; cbn [mbind result_bind]; [|by split; [|intros [? _]]]. split.
  - intros (rest & (Hr & Hnd & HF)%IH & [= <-])%bind_Ok. rewrite Hr. split; [done|]. cbn [map]. split.
    + apply NoDup_cons. split; [|done]. intros (d & Hd & Hin)%list_elem_of_fmap. rewrite Forall_forall in HF. apply (HF d Hin). apply elem_of_union_l, elem_of_singleton. by symmetry.
    + constructor; [done|]. eapply Forall_impl; [exact HF|]. intros d Hd Hin. by apply Hd, elem_of_union_r.
  - intros ((rest & Hr & [= <-])%bind_Ok & [Hi Hnd]%NoDup_cons & [_ HF]%Forall_cons). assert (planned_documents ({[i]} ∪ seen) items = Ok rest) as ->; [|done].
    apply IH. split; [done|]. split; [done|]. apply Forall_forall. intros d Hd. rewrite Forall_forall in HF. specialize (HF d Hd).
    intros [E%elem_of_singleton|?]%elem_of_union; [|done]. apply Hi, list_elem_of_fmap. exists d. by rewrite E.
Qed.

(** A checkpoint never lets the raw contention out, and a closed checkpointer folds nothing. *)
Lemma checkpoint_contained {K} {CK : CoreCheckpointer K} (k : Checkpointer K) x : (checkpoint k).1 = Err x → contended x = false.
Proof.
  unfold checkpoint. destruct (ck_handle k) as [h|]; [|by intros [= <-]]. cbn [fst]. destruct (NativeCoreCheckpointerHandle.checkpoint h).1 as [n|y]; [done|].
  intros [= <-]. unfold remap, contended. destruct (is_value_error y && _is_writer_lock_contention y) eqn:E; [done|exact E].
Qed.

Lemma closed_checkpointer_refuses {K} {CK : CoreCheckpointer K} (k : Checkpointer K) :
  let k' := (checkpointer_close k).2 in checkpoint k' = (raise RuntimeError "checkpointer is closed", k') ∧ checkpointer_close k' = (Ok tt, k').
Proof. destruct k as [[h|] p]; done. Qed.

(** ** A log to evaluate with *)

(** Whether it keeps texts, and its records. *)
Definition toy_log : Type := bool * list log_entry.
Definition toy_append (e : log_entry) : st toy_log Z := λ l, (Ok (Z.of_nat (length l.2) + 1), (l.1, l.2 ++ [e])).

Definition toy_plan (text : string) : result string :=
  match read_list read_document text with
  | Some docs => _dumps (dict_of [("chunks_to_embed", PList (map (λ d, dict_of [("text", PStr (ed_text d))]) docs)); ("documents", PStr text)])
  | None => unreadable
  end.

#[local] Instance toy_appender : CoreAppender toy_log := {|
  raw_append_vectors text := toy_append (LogVectors text); raw_append_deletes text := toy_append (LogDeletes text);
  raw_prepare_documents text := λ l, (toy_plan text, l);
  raw_append_embedded_documents plan embeddings := toy_append (LogTexts plan embeddings) |}.

#[local] Instance toy_append_log : AppendLog toy_log := {|
  logged l := map (Logged l.1) l.2; retains l := l.1;
  plan_of plan := match loads plan with
                  | Ok (PDict d) => match dict_get "documents" d with Some (PStr text) => read_list read_document text | _ => None end
                  | _ => None
                  end |}.

#[local] Instance toy_fold : LogFold toy_engine := {|
  fold_log items e := match read_items items with Some rs => Toy (fold_records true (toy_docs e) rs) [] | None => e end |}.

(** An extension whose appenders take the option they are opened with. *)
#[local] Instance toy_module : CoreModule unit toy_log unit := {|
  new_core_engine := tt; core_engine_open _ := mret tt; core_engine_open_readonly _ _ := mret tt; core_checkpointer_open _ := mret tt;
  core_appender_open text := v ← lift (loads text); b ← lift (py_get v "store_text" PNone); mret (truthy b, []);
  native_cuda_runtime_available := false; native_core_abi_version := 1; native_core_version := "0"; round_trip_core_json _ t := Ok t |}.

Lemma toy_open_policy : OpenPolicy unit toy_log unit.
Proof.
  split. intros text d b s h H Hl Hd. cbn [core_appender_open toy_module] in H. apply io_bind_Ok in H as (v & Hv & H & _). cbn [lift value] in Hv.
  assert (v = PDict d) as -> by congruence. apply io_bind_Ok in H as (w & Hw & H & _). cbn [lift value] in Hw. unfold py_get in Hw. rewrite Hd in Hw.
  injection Hw as <-. injection H as <-. by destruct b.
Qed.

Lemma toy_appender_laws : AppenderLaws toy_log.
Proof.
  split; try done; [intros ? l|intros ? l|intros ? ? l|]; [split; [by cbn; rewrite map_app|done]..|]. intros text l a plan Hr. cbn. unfold toy_plan. rewrite Hr. intros Hp.
  assert (json_ok (dict_of [("chunks_to_embed", PList (map (λ d, dict_of [("text", PStr (ed_text d))]) l)); ("documents", PStr text)]) = true) as Hok.
  { apply object_ok; [by apply (bool_decide_unpack _); vm_compute|]. repeat constructor. cbn. apply forallb_forall. by intros ? (d & <- & _)%in_map_iff. }
  destruct (said _ Hok) as (t & Ht & Hl). rewrite Ht in Hp. injection Hp as <-. rewrite Hl. destruct (object_get _ Hok) as (d & -> & Hg).
  rewrite Hg. change (get_item "documents" _) with (Some (PStr text)). exact Hr.
Qed.

Lemma toy_fold_laws : @FoldLaws toy_engine toy_log toy_view _ _ toy_config.
Proof. split. intros items rs e H. cbn. by rewrite H. Qed.

Definition demo_calls : list append_call :=
  [AppendMany [VectorItem (Some unit_vector) (PStr "v") PNone (PStr "caption")] true;
   AppendTexts [TextItem (PStr "hello") (PStr "t") (dict_of [("lang", PStr "en")])];
   AppendDelete (PStr "v")].
Definition demo_appender (keeps : bool) : Appender toy_log := MkAppender (Some (keeps, [])) (Some toy_backend) [].

Lemma demo_ingestible : Forall (@ingestible _ toy_view plain_reductions toy_config) demo_calls.
Proof.
  apply Forall_cons_2; [|apply Forall_cons_2; [|apply Forall_singleton]].
  - split; [done|]. exists [(unit_vector, Sidecar "v" ∅ (Some "caption"))]. split; [done|]. split; [by repeat constructor|]. split.
    + repeat constructor.
    + intros prepared Hp. vm_compute in Hp. injection Hp as <-. repeat constructor.
  - split; [done|]. exists [EngineDoc "t" "hello" (<["lang" := "en"]> ∅)]. split; [by repeat constructor|]. split; [by repeat constructor|]. apply NoDup_singleton.
  - by exists "v".
Qed.

(** Both ways with an appender that keeps texts, and with one that does not. *)
Lemma fold_of_appends_is_writes_witness :
  let run keeps := @run_calls toy_log toy_appender plain_reductions demo_calls (demo_appender keeps) in
  let verbs := @run_verbs _ (toy_native true) plain_reductions toy_secrets toy_config demo_calls (Db (Toy ∅ []) "" 0) in
  (∃ h' es x', ap_handle (run true).2 = Some h' ∧ logged h' = es ∧ verbs = (Ok tt, x') ∧
     toy_docs (fold_log es (Toy ∅ [])) = toy_docs (db_engine x')) ∧
  (∃ h' es x', ap_handle (run false).2 = Some h' ∧ logged h' = es ∧ verbs = (Ok tt, x') ∧
     nd_metadata <$> toy_docs (fold_log es (Toy ∅ [])) = nd_metadata <$> toy_docs (db_engine x') ∧
     ∀ id d, toy_docs (fold_log es (Toy ∅ [])) !! id = Some d → nd_text d ≠ None → (∅ : gmap string native_doc) !! id = Some d).
Proof.
  split.
  - destruct (@fold_of_appends_is_writes _ _ (toy_native true) toy_view _ _ _ plain_reductions toy_secrets toy_config
      (toy_laws toy_config) toy_writable plain_reduction_laws toy_appender_laws toy_fold_laws demo_calls (demo_appender true) (true, [])
      (Db (Toy ∅ []) "" 0) (Toy ∅ []) demo_ingestible eq_refl
      (Forall_cons_2 _ _ _ (ex_intro _ _ eq_refl) (Forall_cons_2 _ _ _ (ex_intro _ _ eq_refl) (Forall_cons_2 _ _ _ (ex_intro _ _ eq_refl) (Forall_nil_2 _)))) eq_refl)
      as (h' & es & x' & Hh & Hl & Hx & _ & Hm & _).
    exists h', es, x'. split; [exact Hh|]. split; [exact Hl|]. split; [exact Hx|]. exact (Hm (or_introl eq_refl)).
  - destruct (@fold_of_appends_is_writes _ _ (toy_native true) toy_view _ _ _ plain_reductions toy_secrets toy_config
      (toy_laws toy_config) toy_writable plain_reduction_laws toy_appender_laws toy_fold_laws demo_calls (demo_appender false) (false, [])
      (Db (Toy ∅ []) "" 0) (Toy ∅ []) demo_ingestible eq_refl
      (Forall_cons_2 _ _ _ (ex_intro _ _ eq_refl) (Forall_cons_2 _ _ _ (ex_intro _ _ eq_refl) (Forall_cons_2 _ _ _ (ex_intro _ _ eq_refl) (Forall_nil_2 _)))) eq_refl)
      as (h' & es & x' & Hh & Hl & Hx & Hm & _ & Ht).
    exists h', es, x'. split; [exact Hh|]. split; [exact Hl|]. split; [exact Hx|]. split; [exact Hm|]. exact (Ht eq_refl).
Defined.

(** Opened with [store_text=False], its default in the code, an appender logs no text. *)
Example default_appender_retains_nothing :
  (λ a : Appender toy_log, retains <$> ap_handle a) <$>
    value (appender_open true ["store"] "fast" false false true None 900 (FSys ∅ ∅)) = Ok (Some false).
Proof. by vm_compute. Qed.

(** An empty batch and one with a blank id are refused, a deletion is logged. *)
Lemma appends_log_checked_batches_witness :
  let calls := [AppendMany [] true; AppendDelete (PList [PStr "a"; PStr "b"]); AppendMany [VectorItem (Some unit_vector) (PStr " ") PNone PNone] true] in
  let out := @run_calls toy_log toy_appender plain_reductions calls (demo_appender true) in
  ∃ h' es, ap_handle out.2 = Some h' ∧ logged h' = map (Logged true) (omap id es) ∧ retains h' = true ∧ Forall3 (@answers toy_log toy_append_log plain_reductions (Some toy_backend)) calls out.1 es.
Proof. exact (@appends_log_checked_batches _ _ _ plain_reductions toy_appender_laws _ (demo_appender true) (true, []) eq_refl). Defined.

(** Two documents with one id: an appender takes the batch, a plan of a segment refuses it. *)
Example duplicate_ids_refused_in_segments :
  let items := [TextItem (PStr "one") (PStr "a") PNone; TextItem (PStr "two") (PStr "a") PNone] in
  planned_documents ∅ items = raise ValueError "duplicate document id in one plan: 'a'" ∧ is_Ok (mapR appended_text items).
Proof. split; [vm_compute; reflexivity|by eexists]. Qed.
