(* ===== verification/Temporal.v ===== *)
(** * The bi-temporal knowledge graph

    [graph/temporal.py]: the marshalling around the native bi-temporal graph, the class [TemporalNative].
    Property mappings go to the graph as JSON text and come back parsed, reads are made in a temporal frame
    given as [None], a keyword, an instant or a pair of instants. What the graph keeps and which facts a
    frame shows is the extension's. *)

From Stdlib Require Import Ascii String ZArith Lia SpecFloat.
From stdpp Require Import base strings gmap sets list.
From S2P Require Import Prelude Numbers PyVal Json FileSys LocalDb NativeAdapter.

Local Open Scope Z_scope.

(** ** Embedders *)

(** [dimension] is a value or a method. *)
Inductive dimension_attr := DimValue (v : pyval) | DimMethod (call : result pyval).
Record Embedder := MkEmbedder { em_dimension : option dimension_attr; em_embed : list string → string → result (list (list spec_float)) }.

Definition _resolve_dimension (embedder : option Embedder) (vector_dim : option pyval) : result Z :=
  embedder_dim ← (match embedder ≫= em_dimension with
                  | Some (DimValue v) => z ← py_int v; Ok (Some z)
                  | Some (DimMethod call) => v ← call; z ← py_int v; Ok (Some z)
                  | None => Ok None
                  end);
  match vector_dim with
  | Some v =>
      requested ← py_int v;
      match embedder_dim with
      | Some d =>
          if d =? requested then Ok requested
          else raise ValueError ("embedder dimension " +:+ Z_str d +:+ " does not match vector_dim " +:+ Z_str requested)
      | None => Ok requested
      end
  | None => Ok (default 384 embedder_dim)
  end.

(** ** Records *)

Definition _dumps (properties : option pydict) : result (option string) :=
  match properties with
  | None => Ok None
  | Some d => text ← dumps unsorted (PDict d); Ok (Some text)
  end.

(** A text that is not JSON counts as no properties. *)
Definition parsed_properties (raw : string) : pyval :=
  if bool_decide (raw = "") || bool_decide (raw = "null") then PDict []
  else match loads raw with Ok v => v | Err _ => PDict [] end.

Definition _parse_record (record : option pydict) : option pydict :=
  match record with
  | None => None
  | Some d =>
      Some (match dict_get "properties" d with
            | Some (PStr raw) => dict_set "properties" (parsed_properties raw) d
            | _ => d
            end)
  end.

Definition _parse_records (records : list (option pydict)) : list (option pydict) := map _parse_record records.

Definition _parse_property_versions (records : list pydict) : result (list pydict) :=
  mapR (λ d, match dict_get "value" d with
             | Some (PStr raw) => v ← loads raw; Ok (dict_set "value" v d)
             | _ => Ok d
             end) records.

(** ** Frames *)

(** The event time, the two flags and the transaction time. *)
Definition wire_frame : Type := option Z * bool * bool * option Z.

Definition _as_of (as_of : pyval) : result wire_frame :=
  match as_of with
  | PNone => Ok (None, false, false, None)
  | PBool _ =>
      raise TypeError ("as_of must be None, an int (epoch ms), or 'all'/'history', not bool: " +:+ py_repr as_of)
  | PStr s =>
      if str_in (str_lower s) ["all"; "history"] then Ok (None, true, false, None)
      else if str_in (str_lower s) ["now_valid"; "strict"] then Ok (None, false, true, None)
      else raise ValueError ("as_of string must be 'all'/'history' or 'now_valid'/'strict', got " +:+ py_repr as_of)
  | PTuple [valid_at; known_at] =>
      v ← py_int valid_at; k ← py_int known_at; Ok (Some v, false, false, Some k)
  | PTuple _ => raise ValueError "a bi-temporal as_of tuple must contain (valid_at_ms, known_at_ms)"
  | _ => v ← py_int as_of; Ok (Some v, false, false, None)
  end.

Definition _predicate (predicate : option pydict) : result (option string) := _dumps predicate.

(** ** The native graph *)

(** The calls of the extension; a frame stands for its four arguments. *)
Class TemporalNative (G : Type) := {
  native_graph : option string → Z → option Embedder → bool → bool → result G;
  g_add_episode : string → string → Z → option string → list string → option string → st G string;
  g_get_episode : string → G → result (option pydict);
  g_episodes : G → result (list (option pydict));
  g_facts_by_episode : string → G → result (list (option pydict));
  g_remove_episode : string → st G bool;
  g_upsert_entity : string → string → string → option string → option Z → option Z → option string → st G string;
  g_upsert_entity_vec : string → string → string → list spec_float → option string → option Z → option Z → option string → st G string;
  g_get_entity : string → G → result (option pydict);
  g_entity_property_history : string → option string → G → result (list pydict);
  g_entities : option string → wire_frame → G → result (list (option pydict));
  g_remove_entity : string → st G bool;
  g_add_fact : string → string → string → string → option string → list string → option Z → list string → option string → st G string;
  g_add_fact_vec : string → string → string → string → list spec_float → option string → list string → option Z → list string →
    option string → st G string;
  g_invalidate_fact : string → option Z → st G bool;
  g_get_fact : string → G → result (option pydict);
  g_remove_fact : string → st G bool;
  g_neighbors : string → string → option string → wire_frame → G → result (list (option pydict));
  g_k_hop : list string → Z → string → wire_frame → option string → G → result pydict;
  g_semantic_entities : option string → option (list spec_float) → Z → option string → wire_frame → option string → G →
    result (list (spec_float * option pydict));
  g_semantic_facts : option string → option (list spec_float) → Z → option string → wire_frame → option string → G →
    result (list (spec_float * option pydict));
  g_search_subgraph : option string → option (list spec_float) → Z → Z → string → option string → option string → wire_frame →
    option string → string → G → result pydict;
  g_resolve_entity : string → Z → option string → G → result (list (spec_float * option pydict));
  g_history : string → G → result (list (option pydict));
  g_reindex : st G pydict;
  g_stats : G → result pydict;
  g_persist : st G unit }.

(** The rankings of the extension. *)
Class TemporalRanking := {
  native_rrf : list (list string) → spec_float → list (string * spec_float);
  native_mmr : list spec_float → list (string * list spec_float) → spec_float → list string;
  native_node_distance : list string → list (string * Z) → list string;
  native_episode_mentions : list string → list (string * Z) → list string }.

Definition rrf `{TemporalRanking} (ranked_lists : list (list string)) (k : spec_float) : list (string * spec_float) := native_rrf ranked_lists k.
Definition maximal_marginal_relevance `{TemporalRanking} (query : list spec_float) (candidates : list (string * list spec_float))
    (lambda : spec_float) : list string := native_mmr query candidates lambda.
Definition node_distance_reranker `{TemporalRanking} (ids : list string) (distances : list (string * Z)) : list string :=
  native_node_distance ids distances.
Definition episode_mentions_reranker `{TemporalRanking} (ids : list string) (mention_counts : list (string * Z)) : list string :=
  native_episode_mentions ids mention_counts.

Definition parse_value (v : pyval) : result pyval :=
  match v with
  | PNone => Ok PNone
  | PDict d => Ok (match _parse_record (Some d) with Some d => PDict d | None => PNone end)
  | _ => no_attr v "get"
  end.

Definition _parse_subgraph (sub : pydict) : result pydict :=
  let part key := (v ← py_get (PDict sub) key (PList []); l ← py_iter v; l ← mapR parse_value l; Ok (PList l)) in
  entities ← part "entities";
  facts ← part "facts";
  seeds ← py_get (PDict sub) "seeds" (PList []);
  Ok [(PStr "entities", entities); (PStr "facts", facts); (PStr "seeds", seeds)].

Definition parsed_hits (hits : list (spec_float * option pydict)) : list (spec_float * option pydict) :=
  map (λ h, (h.1, _parse_record h.2)) hits.

Module TemporalKnowledgeGraph.
Section graph.
Context {G : Type} {TN : TemporalNative G}.

Definition init (path : option string) (embedder : option Embedder) (vector_dim : option pyval) (index_facts index_text : bool) : result G :=
  dim ← _resolve_dimension embedder vector_dim;
  native_graph path dim embedder index_facts index_text.

Definition add_episode (source body : string) (occurred_at : Z) (properties : option pydict) (mentions : list string) (id : option string)
    : st G string :=
  p ← st_lift (_dumps properties); g_add_episode source body occurred_at p mentions id.
Definition get_episode (id : string) : st G (option pydict) := r ← st_read (g_get_episode id); mret (_parse_record r).
Definition episodes : st G (list (option pydict)) := l ← st_read g_episodes; mret (_parse_records l).
Definition facts_by_episode (id : string) : st G (list (option pydict)) := l ← st_read (g_facts_by_episode id); mret (_parse_records l).
Definition remove_episode (id : string) : st G bool := g_remove_episode id.

Definition upsert_entity (id type label : string) (properties : option pydict) (valid_at invalid_at : option Z) (property_sources : option pydict)
    : st G string :=
  p ← st_lift (_dumps properties); s ← st_lift (_dumps property_sources);
  g_upsert_entity id type label p valid_at invalid_at s.
Definition upsert_entity_vec (id type label : string) (embedding : list spec_float) (properties : option pydict) (valid_at invalid_at : option Z)
    (property_sources : option pydict) : st G string :=
  p ← st_lift (_dumps properties); s ← st_lift (_dumps property_sources);
  g_upsert_entity_vec id type label embedding p valid_at invalid_at s.
Definition get_entity (id : string) : st G (option pydict) := r ← st_read (g_get_entity id); mret (_parse_record r).
Definition entity_property_history (id : string) (key : option string) : st G (list pydict) :=
  l ← st_read (g_entity_property_history id key); st_lift (_parse_property_versions l).
Definition entities (type : option string) (as_of : pyval) : st G (list (option pydict)) :=
  f ← st_lift (_as_of as_of); l ← st_read (g_entities type f); mret (_parse_records l).
Definition remove_entity (id : string) : st G bool := g_remove_entity id.

Definition add_fact (src relation dst fact : string) (properties : option pydict) (episodes : list string) (valid_at : option Z)
    (invalidates : list string) (id : option string) : st G string :=
  p ← st_lift (_dumps properties); g_add_fact src relation dst fact p episodes valid_at invalidates id.
Definition add_fact_vec (src relation dst fact : string) (embedding : list spec_float) (properties : option pydict) (episodes : list string)
    (valid_at : option Z) (invalidates : list string) (id : option string) : st G string :=
  p ← st_lift (_dumps properties); g_add_fact_vec src relation dst fact embedding p episodes valid_at invalidates id.
Definition invalidate_fact (id : string) (invalid_at : option Z) : st G bool := g_invalidate_fact id invalid_at.
Definition get_fact (id : string) : st G (option pydict) := r ← st_read (g_get_fact id); mret (_parse_record r).
Definition remove_fact (id : string) : st G bool := g_remove_fact id.

Definition neighbors (id direction : string) (relation : option string) (as_of : pyval) : st G (list (option pydict)) :=
  f ← st_lift (_as_of as_of); l ← st_read (g_neighbors id direction relation f); mret (_parse_records l).

(** A string is one seed. *)
Definition seed_ids (seeds : string + list string) : list string := match seeds with inl s => [s] | inr l => l end.
Definition k_hop (seeds : string + list string) (k : Z) (direction : string) (as_of : pyval) (predicate : option pydict) : st G pydict :=
  f ← st_lift (_as_of as_of);
  p ← st_lift (_predicate predicate);
  sub ← st_read (g_k_hop (seed_ids seeds) k direction f p);
  st_lift (_parse_subgraph sub).

Definition semantic_entities (query : option string) (embedding : option (list spec_float)) (k : Z) (type : option string) (as_of : pyval)
    (predicate : option pydict) : st G (list (spec_float * option pydict)) :=
  f ← st_lift (_as_of as_of);
  p ← st_lift (_predicate predicate);
  hits ← st_read (g_semantic_entities query embedding k type f p);
  mret (parsed_hits hits).
Definition semantic_facts (query : option string) (embedding : option (list spec_float)) (k : Z) (relation : option string) (as_of : pyval)
    (predicate : option pydict) : st G (list (spec_float * option pydict)) :=
  f ← st_lift (_as_of as_of);
  p ← st_lift (_predicate predicate);
  hits ← st_read (g_semantic_facts query embedding k relation f p);
  mret (parsed_hits hits).
Definition search_subgraph (query : option string) (embedding : option (list spec_float)) (k hops : Z) (direction : string)
    (type relation : option string) (as_of : pyval) (predicate : option pydict) (seed_kind : string) : st G pydict :=
  f ← st_lift (_as_of as_of);
  p ← st_lift (_predicate predicate);
  sub ← st_read (g_search_subgraph query embedding k hops direction type relation f p seed_kind);
  st_lift (_parse_subgraph sub).
Definition resolve_entity (name : string) (k : Z) (predicate : option pydict) : st G (list (spec_float * option pydict)) :=
  p ← st_lift (_predicate predicate); hits ← st_read (g_resolve_entity name k p); mret (parsed_hits hits).
Definition history (entity_id : string) : st G (list (option pydict)) := l ← st_read (g_history entity_id); mret (_parse_records l).

Definition reindex : st G pydict := g_reindex.
Definition stats : st G pydict := st_read g_stats.
Definition persist : st G unit := g_persist.
End graph.
End TemporalKnowledgeGraph.

(** ** Frames *)

Inductive temporal_frame := Current | AllTime | StrictNow | ValidAt (ms : Z) | ValidKnown (ms known_at : Z).

Definition wire (f : temporal_frame) : wire_frame :=
  match f with
  | Current => (None, false, false, None)
  | AllTime => (None, true, false, None)
  | StrictNow => (None, false, true, None)
  | ValidAt ms => (Some ms, false, false, None)
  | ValidKnown ms known_at => (Some ms, false, false, Some known_at)
  end.

Lemma wire_inj f f' : wire f = wire f' → f = f'.
Proof. by destruct f, f'; intros [=]; subst. Qed.

(** Every argument is one frame or an error, every frame has an argument. *)
Lemma as_of_is_a_frame v w : _as_of v = Ok w → ∃ f, w = wire f.
Proof.
  assert (∀ r : result Z, (z ← r; Ok (Some z, false, false, None) : result wire_frame) = Ok w → ∃ f, w = wire f) as H.
  { intros r (z & _ & [= <-])%bind_Ok. by exists (ValidAt z). }
  destruct v as [| | | |s|l|l|d|t]; cbn [_as_of]; try apply H; try done.
  - intros [= <-]. by exists Current.
  - case_match; [intros [= <-]; by exists AllTime|]. case_match; [intros [= <-]; by exists StrictNow|done].
  - destruct l as [|x [|y [|]]]; try done. intros (a & _ & (b & _ & [= <-])%bind_Ok)%bind_Ok. by exists (ValidKnown a b).
Qed.

Lemma every_frame_given f : ∃ v, _as_of v = Ok (wire f).
Proof.
  destruct f as [| | |ms|ms k]; [by exists PNone|by exists (PStr "all")|by exists (PStr "strict")|by exists (PInt ms)|].
  by exists (PTuple [PInt ms; PInt k]).
Qed.

(** A boolean is no instant on its own, but is one inside a pair. *)
Example bool_in_a_pair : (∃ e, _as_of (PBool true) = Err e) ∧ _as_of (PTuple [PBool true; PBool false]) = Ok (wire (ValidKnown 1 0)).
Proof. split; [by eexists|reflexivity]. Qed.

(** ** Writes and the properties of facts *)

Record fact_args := FactArgs
  { fa_src : string; fa_relation : string; fa_dst : string; fa_fact : string; fa_properties : option pydict; fa_episodes : list string;
    fa_valid_at : option Z; fa_invalidates : list string; fa_id : option string }.

(** The calls that add to the graph or close what is there. *)
Inductive temporal_write :=
| AddFact (a : fact_args)
| AddFactVec (a : fact_args) (embedding : list spec_float)
| InvalidateFact (id : string) (invalid_at : option Z)
| UpsertEntity (id type label : string) (properties : option pydict) (valid_at invalid_at : option Z) (property_sources : option pydict)
| AddEpisode (source body : string) (occurred_at : Z) (properties : option pydict) (mentions : list string) (id : option string).

(** Numbers the extension holds: integers of 64 bits, signed or not, and the floats that its reader gives back as they
    were written, which [WireFloats] tells; a larger integer becomes a float there. *)
Class WireFloats := reads_back : spec_float → bool.
Definition in_64_bits (z : Z) : bool := (- 2 ^ 63 <=? z) && (z <? 2 ^ 64).
Fixpoint wire_exact `{WireFloats} (v : pyval) : bool :=
  match v with
  | PInt z => in_64_bits z
  | PFloat f => reads_back f
  | PList l | PTuple l => forallb wire_exact l
  | PDict d => forallb (λ kv, wire_exact kv.2) d
  | _ => true
  end.

Section writes.
Context {G : Type} {TN : TemporalNative G} {WF : WireFloats}.

(** The id of the fact a write adds. *)
Definition run_write (w : temporal_write) : st G (option string) :=
  match w with
  | AddFact a => i ← TemporalKnowledgeGraph.add_fact (fa_src a) (fa_relation a) (fa_dst a) (fa_fact a) (fa_properties a) (fa_episodes a)
                       (fa_valid_at a) (fa_invalidates a) (fa_id a); mret (Some i)
  | AddFactVec a v => i ← TemporalKnowledgeGraph.add_fact_vec (fa_src a) (fa_relation a) (fa_dst a) (fa_fact a) v (fa_properties a)
                            (fa_episodes a) (fa_valid_at a) (fa_invalidates a) (fa_id a); mret (Some i)
  | InvalidateFact i at_ms => _ ← TemporalKnowledgeGraph.invalidate_fact i at_ms; mret None
  | UpsertEntity i ty label p va ia s => _ ← TemporalKnowledgeGraph.upsert_entity i ty label p va ia s; mret None
  | AddEpisode source body at_ms p m i => _ ← TemporalKnowledgeGraph.add_episode source body at_ms p m i; mret None
  end.
Definition run_writes : list temporal_write → st G (list (option string)) := mapS run_write.

Definition write_properties (w : temporal_write) : option pydict :=
  match w with AddFact a | AddFactVec a _ => fa_properties a | _ => None end.

(** The properties of a fact as the graph keeps them: a text that reads as [v]. *)
Definition holds_properties (i : string) (v : pyval) (g : G) : Prop :=
  ∃ r t, g_get_fact i g = Ok (Some r) ∧ dict_get "properties" r = Some (PStr t) ∧ loads t = Ok v.
(** The properties of facts other than [except] stay. *)
Definition kept (except : option string) (g g' : G) : Prop := ∀ i v, holds_properties i v g → except ≠ Some i → holds_properties i v g'.

(** What an addition promises of the text it is given. *)
Definition adds_text (p : option string) (i : string) (g' : G) : Prop :=
  ∀ t v, p = Some t → loads t = Ok v → json_ok v = true → wire_exact v = true → holds_properties i (canon v) g'.

(** Facts are invalidated, never rewritten, by anything but a removal. The extension reads the text of properties and
    writes it again, its keys sorted. *)
Class TemporalLaws : Prop := {
  add_fact_law s rel d f p eps va inv id g i g' : g_add_fact s rel d f p eps va inv id g = (Ok i, g') → kept (Some i) g g' ∧ adds_text p i g';
  add_fact_vec_law s rel d f v p eps va inv id g i g' : g_add_fact_vec s rel d f v p eps va inv id g = (Ok i, g') →
    kept (Some i) g g' ∧ adds_text p i g';
  invalidate_law i at_ms g : kept None g (g_invalidate_fact i at_ms g).2;
  upsert_entity_law i ty label p va ia s g : kept None g (g_upsert_entity i ty label p va ia s g).2;
  add_episode_law source body at_ms p m i g : kept None g (g_add_episode source body at_ms p m i g).2 }.

Context {L : TemporalLaws}.

Lemma wire_exact_jsonify v : wire_exact (jsonify v) = wire_exact v.
Proof.
  revert v. refine (pyval_deep_ind _ _ _ _ _ _ _ _ _ _); try done.
  - intros l IH. cbn [jsonify wire_exact]. induction IH as [|x l Hx _ IH]; [done|]. cbn [map forallb]. by rewrite Hx, IH.
  - intros l IH. cbn [jsonify wire_exact]. induction IH as [|x l Hx _ IH]; [done|]. cbn [map forallb]. by rewrite Hx, IH.
  - intros d IH. cbn [jsonify wire_exact]. induction IH as [|x d [_ Hx] _ IH]; [done|]. cbn [map forallb snd]. by rewrite Hx, IH.
Qed.

(** The properties a write gives its fact, as the graph will hold them. *)
Definition gives (w : temporal_write) (i : option string) (g' : G) : Prop :=
  ∀ p, write_properties w = Some p → json_ok (PDict p) = true → wire_exact (PDict p) = true →
    ∃ j, i = Some j ∧ holds_properties j (canon (PDict p)) g'.

Lemma adds_properties p t i g' : _dumps (Some p) = Ok t → adds_text t i g' → json_ok (PDict p) = true → wire_exact (PDict p) = true →
  holds_properties i (canon (PDict p)) g'.
Proof.
  cbn [_dumps]. intros (x & Hx & [= <-])%bind_Ok Ht Hok Hw. destruct (loads_dumps_unsorted _ Hok) as [Hd Hl]. rewrite Hd in Hx. injection Hx as <-.
  rewrite <-canon_jsonify by done. apply (Ht _ _ eq_refl Hl); [by apply json_ok_jsonify|by rewrite wire_exact_jsonify].
Qed.

(** An addition, whichever of the two. *)
Lemma run_add_kept p (k : option string → st G string) g i g' :
  (∀ t g i g', k t g = (Ok i, g') → kept (Some i) g g' ∧ adds_text t i g') →
  (x ← (t ← st_lift (_dumps p); k t); mret (Some x)) g = (Ok i, g') →
  kept i g g' ∧ ∀ q, p = Some q → json_ok (PDict q) = true → wire_exact (PDict q) = true → ∃ j, i = Some j ∧ holds_properties j (canon (PDict q)) g'.
Proof.
  intros law H. rewrite st_bind_run, lift_run in H. destruct (_dumps p) as [t|] eqn:Ed; [|done]. destruct (k t g) as [[j|] g1] eqn:Ek; [|done].
  injection H as <- <-. destruct (law t g j g1 Ek) as [Hk Hp]. split; [exact Hk|]. intros q -> Hok Hw. exists j. split; [done|].
  by eapply adds_properties.
Qed.

Lemma run_write_kept w g i g' : run_write w g = (Ok i, g') → kept i g g' ∧ gives w i g'.
Proof.
  unfold gives. destruct w as [a|a v|j at_ms|j ty label p va ia s|source body at_ms p m j]; cbn [run_write write_properties].
  - apply run_add_kept. intros. by eapply add_fact_law.
  - apply run_add_kept. intros. by eapply add_fact_vec_law.
  - unfold TemporalKnowledgeGraph.invalidate_fact. rewrite st_bind_run. pose proof (invalidate_law j at_ms g) as Hk.
    destruct (g_invalidate_fact j at_ms g) as [[b|] g1]; [|done]. by intros [= <- <-].
  - unfold TemporalKnowledgeGraph.upsert_entity. rewrite st_bind_run, lift_run. destruct (_dumps p) as [t|]; [|done]. rewrite lift_run.
    destruct (_dumps s) as [u|]; [|done]. pose proof (upsert_entity_law j ty label t va ia u g) as Hk.
    destruct (g_upsert_entity j ty label t va ia u g) as [[b|] g1]; [|done]. by intros [= <- <-].
  - unfold TemporalKnowledgeGraph.add_episode. rewrite st_bind_run, lift_run. destruct (_dumps p) as [t|]; [|done].
    pose proof (add_episode_law source body at_ms t m j g) as Hk. destruct (g_add_episode source body at_ms t m j g) as [[b|] g1]; [|done].
    by intros [= <- <-].
Qed.

Lemma run_writes_cons w ws g ids g' : run_writes (w :: ws) g = (Ok ids, g') →
  ∃ i js g1, ids = i :: js ∧ run_write w g = (Ok i, g1) ∧ run_writes ws g1 = (Ok js, g').
Proof.
  unfold run_writes. cbn [mapS]. rewrite st_bind_run. destruct (run_write w g) as [[i|] g1]; [|done]. rewrite st_bind_run.
  destruct (mapS run_write ws g1) as [[js|] g2] eqn:E; [|done]. intros [= <- <-]. by exists i, js, g1.
Qed.

Lemma run_writes_kept ws : ∀ g ids g' i v, run_writes ws g = (Ok ids, g') → holds_properties i v g → Some i ∉ ids → holds_properties i v g'.
Proof.
  induction ws as [|w ws IH]; intros g ids g' i v H Hi Hni; [by injection H as <- <-|].
  apply run_writes_cons in H as (j & js & g1 & -> & Hw & H). apply not_elem_of_cons in Hni as [Hne Hni].
  eapply IH; [exact H| |exact Hni]. destruct (run_write_kept w g j g1 Hw) as [Hk _]. apply Hk; [exact Hi|congruence].
Qed.

(** A text that reads as an object is read as that object. *)
Lemma parsed_object t d : loads t = Ok (PDict d) → parsed_properties t = PDict d.
Proof.
  intros Ht. unfold parsed_properties. rewrite bool_decide_false by (intros ->; by vm_compute in Ht).
  rewrite bool_decide_false by (intros ->; by vm_compute in Ht). by rewrite Ht.
Qed.

(** C38: through any run of additions, upserts, episodes and invalidations, every fact added with properties whose
    numbers the extension holds exactly reads back with them, keys sorted, tuples as lists: contradicting a fact closes
    it and leaves what it said. *)
Theorem facts_keep_properties (ws : list temporal_write) (g g' : G) (ids : list (option string)) (n : nat) (w : temporal_write)
    (p : pydict) (i : string) :
  run_writes ws g = (Ok ids, g') → NoDup (omap id ids) → ws !! n = Some w → write_properties w = Some p →
  json_ok (PDict p) = true → wire_exact (PDict p) = true → ids !! n = Some (Some i) →
  ∃ r, TemporalKnowledgeGraph.get_fact i g' = (Ok (Some r), g') ∧ dict_get "properties" r = Some (canon (PDict p)).
Proof.
  intros Hrun Hnd Hw Hp Hok Hx Hi.
  assert (holds_properties i (canon (PDict p)) g') as (r & t & Hr & Ht & Hl).
  { revert g ids n Hrun Hnd Hw Hi. induction ws as [|w0 ws IH]; intros g ids n Hrun Hnd Hw Hi; [done|].
    apply run_writes_cons in Hrun as (j & js & g1 & -> & Hw0 & Hrun). destruct n as [|n]; cbn in Hw, Hi.
    - injection Hw as ->. injection Hi as ->. destruct (run_write_kept w g _ g1 Hw0) as [_ Hk].
      destruct (Hk p Hp Hok Hx) as (j & [= <-] & Hj). eapply run_writes_kept; [exact Hrun|exact Hj|].
      cbn in Hnd. apply NoDup_cons in Hnd as [Hni _]. intros Hin. apply Hni, list_elem_of_omap. by exists (Some i).
    - eapply IH; [exact Hrun| |exact Hw|exact Hi]. destruct j; [|exact Hnd]. by apply NoDup_cons in Hnd as [_ ?]. }
  exists (dict_set "properties" (parsed_properties t) r). unfold TemporalKnowledgeGraph.get_fact. rewrite st_bind_run. unfold st_read. rewrite Hr.
  cbn [_parse_record]. rewrite Ht. split; [done|]. rewrite canon_dict in Hl |- *. by rewrite dict_get_set_eq, (parsed_object t _ Hl).
Qed.
End writes.

(** ** A graph to evaluate with *)

Local Notation toy_graph := (gmap string pydict).

Definition toy_fact_id (id : option string) (g : toy_graph) : string :=
  match id with Some i => i | None => "fact-" +:+ Z_str (Z.of_nat (size g)) end.
(** The text is read and written again, its keys sorted. *)
Definition toy_text (p : option string) : result string := match p with Some t => v ← loads t; NativeAdapter._dumps v | None => Ok "null" end.
Definition toy_fact (fact text : string) (invalid_at : pyval) : pydict :=
  [(PStr "fact", PStr fact); (PStr "properties", PStr text); (PStr "invalid_at", invalid_at)].
Definition toy_close (at_ms : pyval) (i : string) (g : toy_graph) : toy_graph := alter (dict_set "invalid_at" at_ms) i g.
Definition toy_add (fact : string) (p : option string) (invalidates : list string) (id : option string) : st toy_graph string := λ g,
  match toy_text p with
  | Ok text => let i := toy_fact_id id g in (Ok i, <[i := toy_fact fact text PNone]> (foldr (toy_close (PInt 0)) g invalidates))
  | Err e => (Err e, g)
  end.
Definition toy_nothing {T} : toy_graph → result T := λ _, raise RuntimeError "not kept".
Definition toy_ok {T} (t : T) : st toy_graph T := λ g, (Ok t, g).

#[local] Instance toy_floats : WireFloats := λ _, true.
#[local] Instance toy_temporal : TemporalNative toy_graph := {|
  native_graph _ _ _ _ _ := Ok ∅;
  g_add_episode _ _ _ _ _ _ := toy_ok "episode"; g_get_episode _ := toy_nothing; g_episodes _ := Ok [];
  g_facts_by_episode _ _ := Ok []; g_remove_episode _ := toy_ok false;
  g_upsert_entity i _ _ _ _ _ _ := toy_ok i; g_upsert_entity_vec i _ _ _ _ _ _ _ := toy_ok i;
  g_get_entity _ _ := Ok None; g_entity_property_history _ _ _ := Ok []; g_entities _ _ _ := Ok []; g_remove_entity _ := toy_ok false;
  g_add_fact _ _ _ fact p _ _ inv id := toy_add fact p inv id; g_add_fact_vec _ _ _ fact _ p _ _ inv id := toy_add fact p inv id;
  g_invalidate_fact i at_ms := λ g, (Ok true, toy_close (match at_ms with Some z => PInt z | None => PInt 0 end) i g);
  g_get_fact i g := Ok (g !! i); g_remove_fact i := λ g, (Ok true, delete i g);
  g_neighbors _ _ _ _ _ := Ok []; g_k_hop _ _ _ _ _ _ := Ok []; g_semantic_entities _ _ _ _ _ _ _ := Ok [];
  g_semantic_facts _ _ _ _ _ _ _ := Ok []; g_search_subgraph _ _ _ _ _ _ _ _ _ _ _ := Ok []; g_resolve_entity _ _ _ _ := Ok [];
  g_history _ _ := Ok []; g_reindex := toy_ok []; g_stats _ := Ok []; g_persist := toy_ok tt |}.

Lemma toy_close_keeps v i g j x : holds_properties j x g → holds_properties j x (toy_close v i g).
Proof.
  intros (r & t & [= Hr] & Ht & Hl). unfold holds_properties, toy_close. cbn. destruct (decide (j = i)) as [->|Hne].
  - exists (dict_set "invalid_at" v r), t. rewrite lookup_alter_eq, Hr. split; [done|]. by rewrite dict_get_set_ne by done.
  - exists r, t. by rewrite lookup_alter_ne, Hr by done.
Qed.

Lemma toy_add_law fact p inv id g i g' : toy_add fact p inv id g = (Ok i, g') → kept (Some i) g g' ∧ adds_text p i g'.
Proof.
  unfold toy_add. destruct (toy_text p) as [text|] eqn:Et; [|done]. intros [= <- <-]. set (i := toy_fact_id id g). split.
  - intros j x Hj Hne. assert (holds_properties j x (foldr (toy_close (PInt 0)) g inv)) as (r & t & [= Hr] & Ht).
    { induction inv as [|k inv IH]; [done|]. by apply toy_close_keeps. }
    exists r, t. cbn. by rewrite lookup_insert_ne, Hr by congruence.
  - intros t v -> Hl Hok _. cbn [toy_text] in Et. rewrite Hl in Et. destruct (dumps_loads v Hok) as (t' & Hd & Hl').
    unfold mbind, result_bind in Et. rewrite Hd in Et. injection Et as <-. exists (toy_fact fact t' PNone), t'. cbn. by rewrite lookup_insert_eq.
Qed.

Lemma toy_temporal_laws : TemporalLaws (G := toy_graph).
Proof.
  split; [intros s rel d f p eps va inv id g i g' H; exact (toy_add_law _ _ _ _ _ _ _ H)|intros s rel d f v p eps va inv id g i g' H; exact (toy_add_law _ _ _ _ _ _ _ H)| | |].
  - intros i at_ms g j t Hj _. by apply toy_close_keeps.
  - intros i ty label p va ia s g j t Hj _. exact Hj.
  - intros source body at_ms p m i g j t Hj _. exact Hj.
Qed.

Definition demo_properties : pydict := [(PStr "span", PTuple [PInt 1; PInt 9]); (PStr "from", PStr "cv")].
Definition demo_fact (fact : string) (invalidates : list string) (p : option pydict) : temporal_write :=
  AddFact (FactArgs "alice" "works_at" "acme" fact p [] (Some 1000) invalidates (Some fact)).

(** The second fact contradicts the first. *)
Definition demo_writes : list temporal_write :=
  [demo_fact "at acme" [] (Some demo_properties); UpsertEntity "acme" "Org" "Acme" None None None None; demo_fact "at globex" ["at acme"] None].

Lemma facts_keep_properties_witness :
  let g' := (run_writes demo_writes (∅ : toy_graph)).2 in
  ∃ r, TemporalKnowledgeGraph.get_fact "at acme" g' = (Ok (Some r), g') ∧
    dict_get "properties" r = Some (dict_of [("from", PStr "cv"); ("span", PList [PInt 1; PInt 9])]).
Proof.
  apply (@facts_keep_properties _ _ _ toy_temporal_laws demo_writes ∅ _ [Some "at acme"; None; Some "at globex"] 0
    (demo_fact "at acme" [] (Some demo_properties)) demo_properties "at acme").
  - vm_compute. reflexivity.
  - by apply (bool_decide_unpack _); vm_compute.
  - reflexivity.
  - reflexivity.
  - vm_compute. reflexivity.
  - vm_compute. reflexivity.
  - reflexivity.
Defined.
