(* ===== verification/MigrateReport.v ===== *)
(** * Migration reports: what may appear in them

    [local/migrate/report.py]: fingerprints of ids and locations, the redaction of connection
    strings, the gate on remote sources, the guard against payload keys in a report and the
    choice of a sample. *)

From Stdlib Require Import Ascii String ZArith Lia SpecFloat.
From stdpp Require Import base strings gmap sets list.
From S2P Require Import Prelude Numbers PyVal Bytes.

(** ** Fingerprints *)

Definition hash_id (value : string) : string :=
  str_take 16 (sha256_hex (utf8_encode ("lodedb-migrate-id" +:+ String (chr 0) value))).

Definition hash_ids (values : list string) : list string := map hash_id values.

Definition fingerprint_text (value : string) : string :=
  str_take 16 (sha256_hex (utf8_encode ("lodedb-migrate-loc" +:+ String (chr 0) value))).

(** ** Connection strings *)

Definition is_alpha (c : ascii) : bool := in_range 65 90 c || in_range 97 122 c.

(** [[a-zA-Z0-9+.\-]]. *)
Definition scheme_char (c : ascii) : bool :=
  is_alpha c || is_digit c || str_in (String c "") ["+"; "."; "-"].

(** [_URL_RE.match(value)]: the scheme and what follows the match. *)
Definition _URL_RE (value : string) : option (string * string) :=
  match chars value with
  | c :: l =>
      if is_alpha c then
        let scheme := of_chars (c :: take_while scheme_char l) in
        let rest := of_chars (drop_while scheme_char l) in
        if startswith "://" rest then Some (scheme, str_drop 3 rest) else None
      else None
  | [] => None
  end.

Definition _LOCAL_HOSTS : list string := ["localhost"; "127.0.0.1"; "::1"; "0.0.0.0"; ""].

Definition redact_connection_string (value : string) : string :=
  match _URL_RE value with
  | None => value
  | Some (scheme, _) => scheme +:+ "://<redacted>"
  end.

(** The part after the last [c], all of it when there is none. *)
Definition after_last (c : ascii) (s : string) : string :=
  of_chars (reverse (take_while (λ x, negb (bool_decide (x = c))) (reverse (chars s)))).

(** The part before the first character of a set. *)
Definition before_any (l : list ascii) (s : string) : string :=
  of_chars (take_while (λ x, negb (existsb (λ c, bool_decide (x = c)) l)) (chars s)).

Definition nonempty (s : string) : option string := if bool_decide (s = "") then None else Some s.

Definition connection_host (value : string) : option string :=
  match _URL_RE value with
  | None => None
  | Some (_, rest) =>
      let authority := before_any ["/"; "?"; "#"]%char rest in
      let authority := after_last "@" authority in
      let plain := nonempty (before_any [":"%char] authority) in
      if startswith "[" authority then
        match split_once_chars "]" (chars authority) with
        | (host, Some _) => Some (str_drop 1 (of_chars host))
        | (_, None) => plain
        end
      else plain
  end.

Definition is_local_source (value : string) : bool :=
  match connection_host value with
  | None => true
  | Some host => str_in (str_lower host) _LOCAL_HOSTS
  end.

(** ** The payload guard *)

Definition banned_keys : list string :=
  ["text"; "texts"; "page_content"; "content"; "document"; "documents"; "vector"; "vectors"; "embedding";
   "embeddings"; "payload"; "payloads"; "query"; "queries"; "password"; "secret"; "token"; "api_key";
   "connection_string"; "dsn"].

Definition is_banned (key : pyval) : bool :=
  match key with PStr k => str_in (str_lower k) banned_keys | _ => false end.

Section walk.
Variable where_ : string.

Definition leak {A} (key : pyval) (at_path : string) : result A :=
  raise ValueError (where_ +:+ " leaked a non-payload-free key " +:+ py_repr key +:+ " at "
    +:+ (if bool_decide (at_path = "") then "<root>" else at_path)).

Fixpoint _walk (node : pyval) (at_path : string) : result unit :=
  match node with
  | PDict d =>
      _ ← mapR (λ kv,
        if is_banned kv.1 then leak kv.1 at_path
        else _walk kv.2 (if bool_decide (at_path = "") then py_str kv.1 else at_path +:+ "." +:+ py_str kv.1)) d;
      Ok tt
  | PList l | PTuple l =>
      _ ← foldR (λ index child, _ ← _walk child (at_path +:+ "[" +:+ Z_str index +:+ "]"); Ok (index + 1)%Z) 0%Z l;
      Ok tt
  | _ => Ok tt
  end.

Definition assert_payload_free (report : pyval) : result unit := _walk report "".
End walk.

(** ** Samples *)

Definition sample_step (step : spec_float) (count : Z) (acc : list Z * gset Z) (k : nat)
    : result (list Z * gset Z) :=
  index ← float_trunc (fmul (float_of_Z (Z.of_nat k)) step);
  let index := if (count <=? index)%Z then (count - 1)%Z else index in
  if decide (index ∈ acc.2) then Ok acc else Ok (acc.1 ++ [index], {[index]} ∪ acc.2).

Definition sample_indices (count limit : Z) : result (list Z) :=
  if ((count <=? 0) || (limit <=? 0))%Z then Ok []
  else if (count <=? limit)%Z then Ok (map Z.of_nat (seq 0 (Z.to_nat count)))
  else
    c ← py_float (PInt count);
    l ← py_float (PInt limit);
    acc ← foldR (sample_step (fdiv c l) count) ([], ∅) (seq 0 (Z.to_nat limit));
    Ok acc.1.

Definition take_sample (values : list string) (limit : Z) : result (list string) :=
  (λ indices : list Z, omap (λ i, values !! Z.to_nat i) indices) <$> sample_indices (Z.of_nat (length values)) limit.

Example redact_dsn : redact_connection_string "postgresql://user:pw@db.example.com:5432/app" = "postgresql://<redacted>".
Proof. reflexivity. Qed.
Example hosts : map connection_host ["postgresql://user:pw@db.example.com:5432/app"; "postgresql://[::1]:5432/app"; "./data"; "postgresql:///app"]
  = [Some "db.example.com"; Some "::1"; None; None].
Proof. reflexivity. Qed.
Example remote_gate : map is_local_source ["postgresql://localhost:5432/app"; "./data"; "postgresql://prod.db.example.com/app"]
  = [true; true; false].
Proof. reflexivity. Qed.
Example sampled : sample_indices 10 3 = Ok [0; 3; 6]%Z. Proof. vm_compute. reflexivity. Qed.
Example walked : assert_payload_free "report" (dict_of [("a", PList [dict_of [("Text", PNone)]])])
  = raise ValueError "report leaked a non-payload-free key 'Text' at a[0]".
Proof. vm_compute. reflexivity. Qed.

(** ** What the guard guarantees *)

(** A key of a dictionary at any depth, through lists and tuples. *)
Inductive holds_key : pyval → pyval → Prop :=
| holds_here k v d : (k, v) ∈ d → holds_key k (PDict d)
| holds_dict n k v d : (k, v) ∈ d → holds_key n v → holds_key n (PDict d)
| holds_list n v l : v ∈ l → holds_key n v → holds_key n (PList l)
| holds_tuple n v l : v ∈ l → holds_key n v → holds_key n (PTuple l).

Definition leaks (v : pyval) : Prop := ∃ k, is_banned k = true ∧ holds_key k v.

Definition guarded_by (w : string) (v : pyval) : Prop := ∀ at_path,
  (_walk w v at_path = Ok tt ∧ ¬ leaks v) ∨ (∃ msg, _walk w v at_path = raise ValueError msg) ∧ leaks v.

Lemma guard_dict w d : Forall (λ kv, guarded_by w kv.2) d → guarded_by w (PDict d).
Proof.
  intros Hd at_path. cbn [_walk].
  match goal with |- context [mapR ?f d] => set (g := f) end.
  assert ((∃ ys, mapR g d = Ok ys ∧ ∀ kv, kv ∈ d → is_banned kv.1 = false ∧ ¬ leaks kv.2) ∨
    (∃ msg, mapR g d = raise ValueError msg) ∧ ∃ kv, kv ∈ d ∧ (is_banned kv.1 = true ∨ leaks kv.2)) as [(ys & -> & Hok)|[(msg & ->) (kv & Hkv & Hl)]].
  { induction Hd as [|[k v] d Hv _ IH]; [left; exists []; split; [done|]; intros ? []%elem_of_nil|].
    cbn [mapR]. assert (g (k, v) = if is_banned k then leak w k at_path
      else _walk w v (if bool_decide (at_path = "") then py_str k else at_path +:+ "." +:+ py_str k)) as -> by done.
    cbn [snd] in Hv. destruct (is_banned k) eqn:Hb.
    { right. split; [eexists; reflexivity|]. exists (k, v). split; [by left|by left]. }
    destruct (Hv (if bool_decide (at_path = "") then py_str k else at_path +:+ "." +:+ py_str k))
      as [[-> Hv']|[(msg & ->) Hl]].
    2: { right. split; [eexists; reflexivity|]. exists (k, v). split; [by left|by right]. }
    destruct IH as [(ys & -> & Hok)|[(msg & ->) (kv & Hkv & Hl)]].
    - left. eexists. split; [reflexivity|]. intros kv [->|Hkv]%elem_of_cons; [done|by apply Hok].
    - right. split; [eexists; reflexivity|]. exists kv. split; [by right|done]. }
  - left. split; [done|]. intros (n & Hn & Hin). inversion Hin as [k v d' H|n' k v d' H Hh| |]; subst.
    + destruct (Hok _ H) as [Hb _]. cbn [fst] in Hb. congruence.
    + destruct (Hok _ H) as [_ Hb]. apply Hb. by exists n.
  - right. split; [eexists; reflexivity|]. destruct kv as [k v], Hl as [Hl|(n & Hn & Hh)]; cbn [fst snd] in *.
    + exists k. split; [done|by eapply holds_here].
    + exists n. split; [done|by eapply holds_dict].
Qed.

Lemma walk_elems w at_path l : Forall (guarded_by w) l → ∀ i,
  let out := foldR (λ index child, _ ← _walk w child (at_path +:+ "[" +:+ Z_str index +:+ "]"); Ok (index + 1)%Z) i l in
  ((∃ j, out = Ok j) ∧ ∀ v, v ∈ l → ¬ leaks v) ∨ (∃ msg, out = raise ValueError msg) ∧ ∃ v, v ∈ l ∧ leaks v.
Proof.
  intros Hl. induction Hl as [|v l Hv _ IH]; intros i; cbn [foldR].
  { left. split; [by eexists|]. intros ? []%elem_of_nil. }
  destruct (Hv (at_path +:+ "[" +:+ Z_str i +:+ "]")) as [[-> Hn]|[(msg & ->) Hk]].
  2: { right. split; [eexists; reflexivity|]. exists v. split; [by left|done]. }
  destruct (IH (i + 1)%Z) as [[(j & Hj) Hok]|[(msg & Hj) (x & Hx & Hk)]].
  - left. split; [by exists j|]. intros x [->|Hx]%elem_of_cons; [done|by apply Hok].
  - right. split; [by exists msg|]. exists x. split; [by right|done].
Qed.

Lemma walk_guarded w v : guarded_by w v.
Proof.
  induction v as [|b|z|f|s|l Hl|l Hl|d Hd|t] using pyval_deep_ind.
  1-5,9: intros at_path; left; split; [done|]; intros (k & _ & Hk); inversion Hk.
  1,2: intros at_path; cbn [_walk]; destruct (walk_elems w at_path l Hl 0) as [[(j & ->) Hok]|[(msg & ->) (x & Hx & k & Hk & Hh)]];
    [left; split; [done|]; intros (k & Hk & Hin); inversion Hin; subst; by eapply Hok; [|exists k]
    |right; split; [by exists msg|]; exists k; split; [done|eauto using holds_list, holds_tuple]].
  apply guard_dict, (Forall_impl _ _ _ Hd). by intros kv [_ H].
Qed.

(** A report passes exactly when no string key at any depth is a banned one in any case; a
    refusal is a [ValueError]. *)
Lemma payload_guard_exact w v :
  (assert_payload_free w v = Ok tt ∧ ¬ leaks v) ∨ (∃ msg, assert_payload_free w v = raise ValueError msg) ∧ leaks v.
Proof. apply walk_guarded. Qed.
