(* ===== verification/MigrateSources.v ===== *)
(** * Migration sources

    [local/migrate/sources/]: the uniform row stream ([base.py]) and the importers that produce
    it. A PostgreSQL connection ([pgvector.py]) is what it answers to a statement; a Qdrant client
    ([mem0_qdrant.py]) what it answers to a scroll; a LlamaIndex docstore its nodes; the LangChain
    loader its result. Every statement a source runs is a [SELECT]. *)

From Stdlib Require Import Ascii String ZArith Lia SpecFloat Sorted.
From stdpp Require Import base strings gmap sets list sorting.
From S2P Require Import Prelude Numbers PyVal Bytes Json MigrateReport MigratePlan.

Local Open Scope Z_scope.

(** ** Rows *)

Record ExportedRow := Row
  { er_id : string; er_text : option string; er_metadata : pydict; er_vector : option (list spec_float);
    er_ref_doc_id : option string; er_raw_payload : option pydict }.

(** What an iterator yields, and the exception that ends it early. *)
Record stream := Stream { st_rows : list ExportedRow; st_failure : option exn }.

Record SourceExport := Export
  { se_framework : option string; se_provider : string; se_mode : string; se_location : string;
    se_vector_dim : option Z; se_count : option Z; se_warnings : list string; se_rows : stream }.

(** The generator's body over the elements of a list: what it yields for each of them. *)
Definition yield_step {A} (f : A → result (list ExportedRow)) (acc : stream) (x : A) : stream :=
  match st_failure acc with
  | Some _ => acc
  | None => match f x with Ok rows => Stream (st_rows acc ++ rows) None | Err e => Stream (st_rows acc) (Some e) end
  end.
Definition yields {A} (f : A → result (list ExportedRow)) (l : list A) : stream :=
  fold_left (yield_step f) l (Stream [] None).

Definition then_yields (a b : stream) : stream :=
  match st_failure a with Some _ => a | None => Stream (st_rows a ++ st_rows b) (st_failure b) end.

(** [[float(c) for c in components]], [None] on a [TypeError] or a [ValueError]. *)
Definition floats_or_none (components : result (list pyval)) : result (option (list spec_float)) :=
  match l ← components; mapR py_float l with
  | Ok out => Ok (Some out)
  | Err e => if bool_decide (exn_class e = TypeError ∨ exn_class e = ValueError) then Ok None else Err e
  end.

(** ** A pgvector table *)

Definition _EXPORT_BATCH : Z := 500.
Definition _DEFAULT_ID_COLUMNS : list string := ["id"; "uuid"; "custom_id"; "pk"].
Definition _DEFAULT_TEXT_COLUMNS : list string := ["text"; "content"; "document"; "chunk"; "body"; "page_content"].
Definition _DEFAULT_VECTOR_COLUMNS : list string := ["embedding"; "vector"; "embeddings"; "vec"].
Definition _DEFAULT_METADATA_COLUMNS : list string := ["metadata"; "cmetadata"; "meta"; "payload"].

(** [_IDENT_RE.match(part)]; the final [$] also matches before a newline that ends the text. *)
Definition ident_char (c : ascii) : bool := is_alpha c || is_digit c || str_in (String c "") ["_"; "$"].
Definition _IDENT_RE (part : string) : bool :=
  match chars part with
  | c :: l =>
      (is_alpha c || bool_decide (c = "_"%char))
      && match drop_while ident_char l with [] => true | [d] => bool_decide (d = newline) | _ => false end
  | [] => false
  end.

Definition in_quotes (s : string) : string := String dquote (s +:+ String dquote "").

Definition _quote_ident (name : string) : result string :=
  let parts := str_split_char "."%char name in
  if forallb _IDENT_RE parts then Ok (str_join "." (map in_quotes parts))
  else raise SourceExportError ("unsafe SQL identifier " +:+ str_repr name).

(** [schema.table] at the first dot. *)
Definition _split_schema_table (table : string) : string * string :=
  match split_once_chars "."%char (chars table) with
  | (schema, Some name) => (of_chars schema, of_chars name)
  | (_, None) => ("public", table)
  end.

(** A connection: the rows it answers to a statement and its parameters. *)
Definition connection : Type := string → list pyval → result (list (list pyval)).

Definition column (row : list pyval) (i : nat) : result pyval :=
  match row !! i with Some v => Ok v | None => raise IndexError "tuple index out of range" end.

Definition _table_columns (conn : connection) (table : string) : result (list (string * string)) :=
  let '(schema, name) := _split_schema_table table in
  rows ← conn ("SELECT column_name, data_type FROM information_schema.columns "
                 +:+ "WHERE table_schema = %s AND table_name = %s") [PStr schema; PStr name];
  match rows with
  | [] => raise SourceExportError ("table " +:+ str_repr table +:+ " was not found (or has no columns)")
  | _ => foldR (λ d r, k ← column r 0; v ← column r 1; Ok (put_item (py_str k) (py_str v) d)) [] rows
  end.

Record resolved_columns := Resolved { rc_id : string; rc_text : option string; rc_vector : string; rc_metadata : option string }.

Record column_args := Columns
  { ca_id : option string; ca_text : option string; ca_vector : option string; ca_metadata : option string }.

(** [pick] without [required]. *)
Definition pick (names : list string) (explicit : option string) (candidates : list string) (what : string)
    : result (option string) :=
  match explicit with
  | Some e => if str_in e names then Ok (Some e)
              else raise SourceExportError (what +:+ " column " +:+ str_repr e +:+ " is not in table columns")
  | None => Ok (List.find (λ c, str_in c names) candidates)
  end.

Definition pick_required (names : list string) (explicit : option string) (candidates : list string) (what : string)
    : result string :=
  c ← pick names explicit candidates what;
  match c with
  | Some c => Ok c
  | None => raise SourceExportError ("could not auto-detect the " +:+ what +:+ " column; pass --" +:+ what +:+ "-column")
  end.

Definition _resolve_columns (columns : list (string * string)) (a : column_args) : result resolved_columns :=
  let names := map fst columns in
  vector ← pick_required names (ca_vector a) _DEFAULT_VECTOR_COLUMNS "vector";
  id_col ← pick_required names (ca_id a) _DEFAULT_ID_COLUMNS "id";
  text ← pick names (ca_text a) _DEFAULT_TEXT_COLUMNS "text";
  metadata ← pick names (ca_metadata a) _DEFAULT_METADATA_COLUMNS "metadata";
  Ok (Resolved id_col text vector metadata).

(** [value.strip(set)]. *)
Definition strip_set (set : list ascii) (s : string) : string :=
  let inside c := existsb (λ x, bool_decide (c = x)) set in
  of_chars (reverse (drop_while inside (reverse (drop_while inside (chars s))))).

Definition _coerce_pg_vector (value : pyval) (dim : option Z) : result (option (list spec_float)) :=
  out ← (match value with
         | PList l | PTuple l => floats_or_none (Ok l)
         | PStr s =>
             let stripped := str_strip (strip_set ["["; "]"]%char (str_strip s)) in
             if bool_decide (stripped = "") then Ok None
             else floats_or_none (Ok (map PStr (str_split_char ","%char stripped)))
         | _ => Ok None
         end);
  Ok match out, dim with
     | Some l, Some n => if Z.of_nat (length l) =? n then Some l else None
     | _, _ => out
     end.

(** A metadata column. *)
Definition coerce_pg_metadata (value : pyval) : pydict :=
  match value with
  | PDict d => d
  | PStr s => match loads s with Ok (PDict d) => d | _ => [] end
  | _ => []
  end.

(** [isinstance(v, int)], as the number. *)
Definition as_number (v : pyval) : option Z :=
  match v with PInt z => Some z | PBool b => Some (if b then 1 else 0) | _ => None end.

(** The dimension of one stored vector. *)
Definition sampled_dimension (conn : connection) (table vector_column : string) : result (option Z) :=
  v ← _quote_ident vector_column;
  t ← _quote_ident table;
  rows ← conn ("SELECT " +:+ v +:+ " FROM " +:+ t +:+ " " +:+ "WHERE " +:+ v +:+ " IS NOT NULL LIMIT 1") [];
  match rows with
  | [] | [] :: _ | (PNone :: _) :: _ => Ok None
  | (x :: _) :: _ =>
      measured ← _coerce_pg_vector x None;
      Ok match measured with Some (y :: l) => Some (Z.of_nat (length (y :: l))) | _ => None end
  end.

Definition _vector_dimension (conn : connection) (table vector_column : string) : result (option Z) :=
  let '(schema, name) := _split_schema_table table in
  let row := match conn ("SELECT a.atttypmod FROM pg_attribute a " +:+ "JOIN pg_class c ON c.oid = a.attrelid "
                           +:+ "JOIN pg_namespace n ON n.oid = c.relnamespace "
                           +:+ "WHERE n.nspname = %s AND c.relname = %s AND a.attname = %s")
                          [PStr schema; PStr name; PStr vector_column] with
             | Ok (r :: _) => Some r
             | _ => None
             end in
  declared ← (match row with Some r => v ← column r 0; Ok (as_number v) | None => Ok None end);
  match declared with
  | Some n => if 0 <? n then Ok (Some n) else sampled_dimension conn table vector_column
  | None => sampled_dimension conn table vector_column
  end.

Definition _row_count (conn : connection) (table : string) : result (option Z) :=
  t ← _quote_ident table;
  match conn ("SELECT COUNT(*) FROM " +:+ t) [] with
  | Ok ((v :: _) :: _) => Ok (as_number v)
  | _ => Ok None
  end.

(** The fields a [PgVectorExport] keeps. *)
Record pg_export := PgExport { pg_conn : connection; pg_table : string; pg_cols : resolved_columns; pg_dim : Z }.

Record pg_args := PgArgs { pa_dsn : string; pg_of_table : string; pg_columns : column_args;
  pg_vector_dim : option Z; pg_allow_remote : bool }.

Section pgvector.
Variable connect : string → result connection.

Definition PgVectorExport (a : pg_args) : result (pg_export * (option Z * list string)) :=
  if negb (is_local_source (pa_dsn a)) && negb (pg_allow_remote a)
  then raise SourceExportError ("refusing to connect to a non-local Postgres host without an explicit override; "
         +:+ "re-run with --allow-remote-source after confirming the host is safe to read")
  else
    let c := pg_columns a in
    let given := omap id [Some (pg_of_table a); ca_id c; ca_text c; ca_vector c; ca_metadata c] in
    _ ← mapR _quote_ident given;
    conn ← connect (pa_dsn a);
    columns ← _table_columns conn (pg_of_table a);
    resolved ← _resolve_columns columns c;
    dim ← (match pg_vector_dim a with
           | Some n => if n =? 0 then _vector_dimension conn (pg_of_table a) (rc_vector resolved) else Ok (Some n)
           | None => _vector_dimension conn (pg_of_table a) (rc_vector resolved)
           end);
    match dim with
    | None => raise SourceExportError ("could not determine the vector dimension of " +:+ pg_of_table a +:+ "."
                +:+ rc_vector resolved +:+ "; " +:+ "pass --vector-dim")
    | Some dim =>
        count ← _row_count conn (pg_of_table a);
        Ok (PgExport conn (pg_of_table a) resolved dim,
            (count, match rc_text resolved with
                    | None => ["no text column detected; rows export as vector-preserve without payload text "
                                 +:+ "(pass --text-column to retain text, or migrate vector-only)"]
                    | Some _ => []
                    end))
    end.
End pgvector.

Section keyset.
Variable x : pg_export.

Definition select_list : list string :=
  [rc_id (pg_cols x); rc_vector (pg_cols x)]
  ++ omap id [rc_text (pg_cols x) ≫= nonempty; rc_metadata (pg_cols x) ≫= nonempty].

(** The statement for the first page and the one for the page after an id. *)
Definition page_sql (first : bool) : result string :=
  quoted ← mapR _quote_ident select_list;
  table ← _quote_ident (pg_table x);
  id_q ← _quote_ident (rc_id (pg_cols x));
  Ok ("SELECT " +:+ str_join ", " quoted +:+ " FROM " +:+ table
        +:+ (if first then " ORDER BY " else " WHERE " +:+ id_q +:+ " > %s " +:+ "ORDER BY ")
        +:+ id_q +:+ " LIMIT %s").

Definition pg_row (row : list pyval) : result ExportedRow :=
  raw_id ← column row 0;
  text ← (match rc_text (pg_cols x) ≫= nonempty with Some _ => column row 2 | None => Ok PNone end);
  let offset := if bool_decide (is_Some (rc_text (pg_cols x) ≫= nonempty)) then 3%nat else 2%nat in
  metadata ← (match rc_metadata (pg_cols x) ≫= nonempty with
              | Some _ => v ← column row offset; Ok (coerce_pg_metadata v)
              | None => Ok []
              end);
  v ← column row 1;
  vector ← _coerce_pg_vector v (Some (pg_dim x));
  Ok (Row (py_str raw_id) (match text with PStr s => Some s | _ => None end) metadata vector None None).

(** One page: the rows it yields, and the id to go on after; [None] when the table is exhausted. *)
Definition page (last_id : pyval) : stream * option pyval :=
  let rows := (sql ← page_sql (match last_id with PNone => true | _ => false end);
               pg_conn x sql (match last_id with PNone => [PInt _EXPORT_BATCH] | v => [v; PInt _EXPORT_BATCH] end)) in
  match rows with
  | Err e => (Stream [] (Some e), None)
  | Ok rows =>
      let out := yields (λ row, r ← pg_row row; Ok [r]) rows in
      match st_failure out, last rows with
      | None, Some row =>
          (out, if Z.of_nat (length rows) <? _EXPORT_BATCH then None else row !! 0%nat)
      | _, _ => (out, None)
      end
  end.

(** The [while True] of [iter_rows], for at most [fuel] pages. *)
Fixpoint pages (fuel : nat) (last_id : pyval) : option stream :=
  match fuel with
  | O => None
  | S fuel =>
      match page last_id with
      | (out, None) => Some out
      | (out, Some id) => then_yields out <$> pages fuel id
      end
  end.

Definition pg_iter_rows (fuel : nat) : option stream := pages fuel PNone.
End keyset.

(** The export of an opened table. *)
Definition pg_source (a : pg_args) (x : pg_export) (count : option Z) (warns : list string) (rows : stream) : SourceExport :=
  Export None "pgvector" MODE_VECTOR_PRESERVE (redact_connection_string (pa_dsn a)) (Some (pg_dim x)) count warns rows.

(** ** The keyset pages cover the table *)

Lemma then_yields_assoc a b c : then_yields (then_yields a b) c = then_yields a (then_yields b c).
Proof.
  unfold then_yields. destruct (st_failure a) as [e|] eqn:Ea; [by rewrite Ea|]. cbn [st_failure st_rows].
  destruct (st_failure b) as [e|] eqn:Eb; [by rewrite Eb|]. cbn [st_failure st_rows]. by rewrite (assoc_L (++)).
Qed.

Lemma yield_step_then {A} (f : A → result (list ExportedRow)) acc y :
  yield_step f acc y = then_yields acc (yield_step f (Stream [] None) y).
Proof.
  unfold yield_step, then_yields. destruct (st_failure acc); [done|]. cbn [st_failure st_rows].
  destruct (f y); cbn [st_failure st_rows]; [done|by rewrite app_nil_r].
Qed.

Lemma yields_from {A} (f : A → result (list ExportedRow)) l acc :
  fold_left (yield_step f) l acc = then_yields acc (yields f l).
Proof.
  unfold yields. revert acc. induction l as [|y l IH]; intros acc; cbn [fold_left].
  - unfold then_yields. destruct acc as [rows [e|]]; [done|]. cbn. by rewrite app_nil_r.
  - rewrite IH, (IH (yield_step f (Stream [] None) y)), (yield_step_then f acc). apply then_yields_assoc.
Qed.

Lemma yields_app {A} (f : A → result (list ExportedRow)) l1 l2 :
  yields f (l1 ++ l2) = then_yields (yields f l1) (yields f l2).
Proof. unfold yields at 1. by rewrite fold_left_app, yields_from. Qed.

Section complete.
Variables (x : pg_export) (first_sql next_sql : string) (lt : pyval → pyval → bool).
Hypotheses (Hfirst : page_sql x true = Ok first_sql) (Hnext : page_sql x false = Ok next_sql).

(** The rows of the table in the order of their id column. *)
Variable rows : list (pyval * list pyval).
Definition sql_row (r : pyval * list pyval) : list pyval := r.1 :: r.2.

(** What the server answers to the two statements: the first rows in id order, and the first
    ones whose id is greater than that of a row. *)
Record keyset_server : Prop := {
  server_first : pg_conn x first_sql [PInt _EXPORT_BATCH] = Ok (map sql_row (take 500 rows));
  server_next : ∀ r, r ∈ rows → pg_conn x next_sql [r.1; PInt _EXPORT_BATCH]
    = Ok (map sql_row (take 500 (List.filter (λ r', lt r.1 r'.1) rows))) }.

(** The id is a key: no null, strictly increasing in the order of the server. *)
Definition id_is_key : Prop :=
  StronglySorted (λ a b, lt a.1 b.1 = true) rows ∧ Forall (λ r, r.1 ≠ PNone) rows ∧
  (∀ a, lt a a = false) ∧ (∀ a b, lt a b = true → lt b a = false).

Local Notation export := (yields (λ row, r ← pg_row x row; Ok [r])).

Lemma after_key l1 r l2 : id_is_key → rows = l1 ++ r :: l2 → List.filter (λ r', lt r.1 r'.1) rows = l2.
Proof.
  intros (Hs & _ & Hirr & Hasym) Hrows. rewrite Hrows in Hs |- *. clear Hrows.
  induction l1 as [|a l1 IH]; cbn [app List.filter] in *.
  - rewrite Hirr. apply StronglySorted_inv in Hs as [_ Hs]. induction Hs as [|b l Hb _ IH]; [done|].
    cbn [List.filter]. rewrite Hb. f_equal. exact IH.
  - apply StronglySorted_inv in Hs as [Hs Ha]. rewrite Forall_app, Forall_cons in Ha.
    rewrite (Hasym a.1 r.1) by apply Ha. by apply IH.
Qed.

(** One page over what is left of the table. *)
Lemma page_out sql params last_id rest : page_sql x match last_id with PNone => true | _ => false end = Ok sql →
  params = match last_id with PNone => [PInt _EXPORT_BATCH] | v => [v; PInt _EXPORT_BATCH] end →
  pg_conn x sql params = Ok (map sql_row (take 500 rest)) →
  page x last_id = (export (map sql_row (take 500 rest)),
    match st_failure (export (map sql_row (take 500 rest))), last (take 500 rest) with
    | None, Some r => if (length rest <? 500)%nat then None else Some r.1
    | _, _ => None
    end).
Proof.
  intros Hsql -> Hrows. unfold page. rewrite Hsql. cbn [mbind result_bind]. rewrite Hrows.
  rewrite fmap_last. destruct (st_failure _); [done|]. destruct (last (take 500 rest)) as [r|]; [|done]. cbn [fmap option_fmap option_map].
  rewrite length_map, length_take. f_equal. unfold _EXPORT_BATCH.
  destruct (Nat.ltb_spec (length rest) 500) as [H|H], (Z.ltb_spec (Z.of_nat (500 `min` length rest)) 500); try lia; done.
Qed.

Definition resumes (fuel : nat) : Prop := ∀ l1 r l2, rows = l1 ++ r :: l2 →
  (length l2 < 500 * fuel)%nat → pages x fuel r.1 = Some (export (map sql_row l2)).

Lemma page_then fuel sql params last_id l1 rest : resumes fuel → rows = l1 ++ rest → (length rest < 500 * S fuel)%nat →
  page_sql x match last_id with PNone => true | _ => false end = Ok sql →
  params = match last_id with PNone => [PInt _EXPORT_BATCH] | v => [v; PInt _EXPORT_BATCH] end →
  pg_conn x sql params = Ok (map sql_row (take 500 rest)) →
  pages x (S fuel) last_id = Some (export (map sql_row rest)).
Proof.
  intros IH Hrows Hn Hsql Hp Hc. cbn [pages]. rewrite (page_out sql params last_id rest Hsql Hp Hc).
  set (out := export (map sql_row (take 500 rest))).
  assert (export (map sql_row rest) = then_yields out (export (map sql_row (drop 500 rest)))) as ->
    by (unfold out; by rewrite <-yields_app, <-map_app, take_drop).
  assert (st_failure out = None → drop 500 rest = [] → then_yields out (export (map sql_row (drop 500 rest))) = out) as Hend.
  { intros Eo ->. unfold then_yields. rewrite Eo. destruct out as [o f]. cbn in *. subst f. by rewrite app_nil_r. }
  destruct (st_failure out) as [e|] eqn:Eo; [unfold then_yields; by rewrite Eo|].
  destruct (last (take 500 rest)) as [r'|] eqn:El.
  - destruct (Nat.ltb_spec (length rest) 500) as [Hlt|Hge]; [by rewrite Hend by (done || (apply drop_ge; lia))|].
    apply last_Some in El as (l' & El). rewrite (IH (l1 ++ l') r' (drop 500 rest)); [done| |].
    + rewrite Hrows, <-(assoc_L (++)), (cons_middle r'), (assoc_L (++) l'), <-El, take_drop. done.
    + rewrite length_drop. lia.
  - apply last_None in El. assert (rest = []) as -> by (by destruct rest). by rewrite Hend.
Qed.

Lemma resumes_all fuel : keyset_server → id_is_key → resumes fuel.
Proof using Hnext.
  intros Hsrv Hkey. induction fuel as [|fuel IH]; intros l1 r l2 Hrows Hn; [lia|].
  assert (r.1 ≠ PNone) as Hr.
  { destruct Hkey as (_ & HF & _). rewrite Hrows, Forall_app, Forall_cons in HF. apply HF. }
  apply (page_then fuel next_sql [r.1; PInt _EXPORT_BATCH] r.1 (l1 ++ [r]) l2); try done.
  - by rewrite <-(assoc_L (++)).
  - by destruct (r.1).
  - by destruct (r.1).
  - rewrite (server_next Hsrv), (after_key l1 r l2); [done..|]. rewrite Hrows. apply elem_of_app. right. by left.
Qed.

Lemma yields_one (f : list pyval → result ExportedRow) l out : mapR f l = Ok out →
  yields (λ y, r ← f y; Ok [r]) l = Stream out None.
Proof.
  revert out. induction l as [|y l IH] using rev_ind; intros out H; [by injection H as <-|].
  apply mapR_Ok, Forall2_app_inv_l in H as (o1 & o2 & H1 & H2 & ->). apply mapR_Ok in H1.
  inversion H2 as [|? r ? ? Hr H3]; subst. inversion H3; subst.
  rewrite yields_app, (IH o1 H1). unfold yields. cbn [fold_left]. unfold yield_step. cbn [st_failure st_rows].
  rewrite Hr. done.
Qed.
End complete.

(** C36: Keyset pagination ends and covers the table: when the server answers the two statements
    with the first 500 rows in id order, and with those after the id of a row, and the id is a key (never
    null, strictly ordered), one page more than the full ones exports every row exactly once, in
    id order, and the stream ends without an exception. *)
Theorem keyset_export_complete x first_sql next_sql lt rows out fuel :
  page_sql x true = Ok first_sql → page_sql x false = Ok next_sql →
  keyset_server x first_sql next_sql lt rows → id_is_key lt rows →
  mapR (pg_row x) (map sql_row rows) = Ok out → (length rows < 500 * fuel)%nat →
  pg_iter_rows x fuel = Some (Stream out None).
Proof.
  intros Hf Hn Hsrv Hkey Hout Hfuel. rewrite <-(yields_one (pg_row x) (map sql_row rows) out Hout).
  destruct fuel as [|fuel]; [lia|]. unfold pg_iter_rows.
  apply (page_then x rows fuel first_sql [PInt _EXPORT_BATCH] PNone [] rows); try done.
  - by apply (resumes_all x first_sql next_sql lt Hn).
  - by rewrite (server_first _ _ _ _ _ Hsrv).
Qed.

(** A table of two columns whose server compares the ids as numbers. *)
Definition int_lt (a b : pyval) : bool := match a, b with PInt a, PInt b => a <? b | _, _ => false end.
Definition demo_server (rows : list (pyval * list pyval)) : connection := λ sql params,
  match params with
  | [id; _] => Ok (map sql_row (take 500%nat (List.filter (λ r, int_lt id r.1) rows)))
  | _ => Ok (map sql_row (take 500%nat rows))
  end.
(** An identifier between double quotes. *)
Definition quoted_name (n : string) : string := String (chr 34) n +:+ String (chr 34) "".
Definition demo_export (rows : list (pyval * list pyval)) : pg_export :=
  PgExport (demo_server rows) "docs" (Resolved "id" None "embedding" None) 2.
Definition demo_rows (ids : list pyval) : list (pyval * list pyval) :=
  map (λ i, (i, [PList [PInt 1; PInt 0]])) ids.
Definition numbered (n : nat) : list pyval := map (λ i, PInt (Z.of_nat i)) (seq 0 n).

Lemma numbered_key n : id_is_key int_lt (demo_rows (numbered n)).
Proof.
  split_and!.
  - unfold demo_rows, numbered. rewrite map_map. generalize O. induction n as [|n IH]; intros k; cbn [seq map]; constructor; [apply IH|].
    apply Forall_forall. intros y (i & -> & Hi)%list_elem_of_fmap. apply elem_of_seq in Hi. cbn. lia.
  - apply Forall_forall. by intros y (i & -> & (j & -> & _)%list_elem_of_fmap)%list_elem_of_fmap.
  - intros []; try done. cbn. lia.
  - intros [] []; try done. cbn. lia.
Qed.

Definition exported (i : nat) : ExportedRow :=
  Row (Z_str (Z.of_nat i)) None [] (Some [float_of_Z 1; float_of_Z 0]) None None.

Lemma keyset_export_complete_witness :
  pg_iter_rows (demo_export (demo_rows (numbered 501))) 2 = Some (Stream (map exported (seq 0 501)) None).
Proof.
  refine (keyset_export_complete (demo_export (demo_rows (numbered 501))) _ _ int_lt (demo_rows (numbered 501)) _ 2
    eq_refl eq_refl _ (numbered_key 501) _ _).
  - split; [reflexivity|]. intros r _. reflexivity.
  - vm_compute. reflexivity.
  - vm_compute. lia.
Defined.

(** The two statements of a table, whose order and comparison the server is trusted with. *)
Example page_statements : let x := demo_export [] in
  page_sql x true = Ok ("SELECT " +:+ quoted_name "id" +:+ ", " +:+ quoted_name "embedding" +:+ " FROM " +:+ quoted_name "docs"
    +:+ " ORDER BY " +:+ quoted_name "id" +:+ " LIMIT %s") ∧
  page_sql x false = Ok ("SELECT " +:+ quoted_name "id" +:+ ", " +:+ quoted_name "embedding" +:+ " FROM " +:+ quoted_name "docs"
    +:+ " WHERE " +:+ quoted_name "id" +:+ " > %s ORDER BY " +:+ quoted_name "id" +:+ " LIMIT %s").
Proof. split; vm_compute; reflexivity. Qed.

(** A null id that ends a full page sends the loop back to the first page: it never ends. *)
Lemma null_id_never_ends x sql rows r out fuel : page_sql x true = Ok sql →
  pg_conn x sql [PInt _EXPORT_BATCH] = Ok rows → length rows = 500%nat → last rows = Some (PNone :: r) →
  mapR (pg_row x) rows = Ok out → pg_iter_rows x fuel = None.
Proof.
  intros Hsql Hc Hlen Hlast Hout. unfold pg_iter_rows. induction fuel as [|fuel IH]; [done|]. cbn [pages].
  assert (page x PNone = (Stream out None, Some PNone)) as ->; [|by rewrite IH].
  unfold page. rewrite Hsql. cbn [mbind result_bind]. rewrite Hc, (yields_one _ _ _ Hout), Hlast, Hlen. done.
Qed.

(** Of two rows with the same id on the two sides of a page boundary the second is never read. *)
Lemma duplicate_id_is_dropped :
  let ids := numbered 500 ++ [PInt 499] in
  option_map (λ s, length (st_rows s)) (pg_iter_rows (demo_export (demo_rows ids)) 3) = Some 500%nat ∧ length ids = 501%nat.
Proof. vm_compute. done. Qed.

(** An accepted identifier holds no quote and no blank but a final newline, so the quoted form
    cannot end early. *)
Lemma ident_plain part : _IDENT_RE part = true → dquote ∉ chars part.
Proof.
  unfold _IDENT_RE. destruct (chars part) as [|c l]; [done|]. intros [Hc Hl]%andb_prop.
  assert (∀ d, ident_char d = true → d ≠ dquote) as Hid by (by intros d H ->).
  apply not_elem_of_cons. split.
  - intros <-. done.
  - rewrite <-(take_drop_while ident_char l). apply not_elem_of_app. split.
    + pose proof (forallb_take_while ident_char l) as H. rewrite forallb_forall in H.
      intros Hin%list_elem_of_In%H%Hid. done.
    + destruct (drop_while ident_char l) as [|d [|]]; [apply not_elem_of_nil| |done].
      apply bool_decide_eq_true_1 in Hl as ->. by rewrite list_elem_of_singleton.
Qed.

Lemma quote_ident_safe name q : _quote_ident name = Ok q →
  ∃ parts, q = str_join "." (map in_quotes parts) ∧ Forall (λ p, dquote ∉ chars p) parts.
Proof.
  unfold _quote_ident. destruct (forallb _ _) eqn:H; intros [= <-]. eexists. split; [done|].
  rewrite forallb_forall in H. apply Forall_forall. intros p Hp%list_elem_of_In%H. by apply ident_plain.
Qed.

(** ** LangChain *)

(** One entry of the store map; anything but a dictionary is passed over. *)
Definition langchain_row (kv : pyval * pyval) : list ExportedRow :=
  match kv.2 with
  | PDict entry =>
      let get k := match dict_get k entry with Some v => v | None => PNone end in
      let metadata := py_or (get "metadata") (PDict []) in
      [Row (py_str (py_or (get "id") kv.1)) (match get "text" with PStr s => Some s | _ => None end)
         (match metadata with PDict d => d | _ => [] end) None None None]
  | _ => []
  end.

Definition langchain_iter_rows (store_map : pydict) : stream := yields (λ kv, Ok (langchain_row kv)) store_map.

Definition is_lc (v : pyval) : bool :=
  match v with PDict d => bool_decide (is_Some (dict_get "lc" d)) | _ => false end.

(** Over the text of the file, [None] when it cannot be read. *)
Definition _load_store_map_from_json (save_path : string) (text : option string) : result pydict :=
  let unreadable {A} : result A := raise SourceExportError ("could not read the dump file " +:+ save_path) in
  match text with
  | None => unreadable
  | Some t =>
      match loads t with
      | Err _ => unreadable
      | Ok data =>
          let data := match data with
            | PDict d => match dict_get "store" d with Some (PDict s) => PDict s | _ => data end
            | _ => data
            end in
          match data with
          | PDict d =>
              if existsb (λ kv, is_lc kv.2) d
              then raise SourceExportError ("this dump uses LangChain object serialization; install lodedb[langchain] so the "
                     +:+ "file can be loaded by langchain-core")
              else Ok d
          | _ => raise SourceExportError "dump file is not an InMemoryVectorStore store mapping"
          end
      end
  end.

(** [loader]: [None] without langchain-core, else what [InMemoryVectorStore.load] gives, as the
    [store] attribute of the object it returns. *)
Definition _load_store_map (path : string) (file : option (option string)) (loader : option (result pyval)) : result pydict :=
  match file with
  | None => raise SourceExportError ("LangChain InMemoryVectorStore save file not found: " +:+ path)
  | Some text =>
      match loader with
      | None => _load_store_map_from_json path text
      | Some (Err e) =>
          match _load_store_map_from_json path text with
          | Err e' =>
              if bool_decide (exn_class e' = SourceExportError)
              then raise SourceExportError ("could not load the LangChain InMemoryVectorStore at " +:+ path +:+ ": " +:+ exn_msg e)
              else Err e'
          | ok => ok
          end
      | Some (Ok (PDict d)) => Ok d
      | Some (Ok _) => raise SourceExportError "loaded InMemoryVectorStore has no usable 'store' mapping"
      end
  end.

Definition LangChainInMemoryExport (path : string) (file : option (option string)) (loader : option (result pyval))
    : result SourceExport :=
  store_map ← _load_store_map path file loader;
  Ok (Export (Some "langchain") "in-memory" MODE_TEXT_REPLAY path None (Some (Z.of_nat (length store_map))) []
        (langchain_iter_rows store_map)).

(** ** LlamaIndex *)

(** A node of the docstore: [get_content] is a call of the library. *)
Record text_node := Node
  { tn_id : pyval; tn_content : result pyval; tn_metadata : option pydict; tn_ref_doc_id : option string }.

Definition llama_row (node : text_node) : ExportedRow :=
  let text := match tn_content node with Ok v => v | Err _ => PNone end in
  let metadata := match tn_metadata node with Some d => d | None => [] end in
  Row (py_str (tn_id node)) (if negb (truthy text) || is_blank (py_str text) then None else Some (py_str text))
    metadata None (tn_ref_doc_id node) None.

Definition LlamaIndexSimpleExport (persist_dir : string) (nodes : list text_node) : SourceExport :=
  Export (Some "llama-index") "simple" MODE_TEXT_REPLAY persist_dir None (Some (Z.of_nat (length nodes))) []
    (yields (λ n, Ok [llama_row n]) nodes).

(** ** mem0 over Qdrant *)

Record point := Point { pt_id : pyval; pt_vector : pyval; pt_payload : option pydict }.

Definition _coerce_vector (vector : pyval) : result (option (list spec_float)) :=
  match vector with
  | PNone => Ok None
  | PDict [] => Ok None
  | PDict ((_, v) :: _) => floats_or_none (py_iter v)
  | v => floats_or_none (py_iter v)
  end.

Definition qdrant_row (p : point) : result (list ExportedRow) :=
  vector ← _coerce_vector (pt_vector p);
  Ok [Row (py_str (pt_id p)) None [] vector None (Some match pt_payload p with Some d => d | None => [] end)].

Section qdrant.
(** The client: the page at an offset and the offset of the next one, [None] at both ends. *)
Variable scroll : option pyval → result (list point * option pyval).

Fixpoint scroll_pages (fuel : nat) (offset : option pyval) : option stream :=
  match fuel with
  | O => None
  | S fuel =>
      match scroll offset with
      | Err e => Some (Stream [] (Some e))
      | Ok (points, next) =>
          let out := yields qdrant_row points in
          match st_failure out, next with
          | None, Some _ => then_yields out <$> scroll_pages fuel next
          | _, _ => Some out
          end
      end
  end.

(** The collection as the client pages it: every page but the last names the next one. *)
Inductive paged : option pyval → list point → nat → Prop :=
| paged_last off l : scroll off = Ok (l, None) → paged off l 1
| paged_next off l nxt rest n : scroll off = Ok (l, Some nxt) → paged (Some nxt) rest n → paged off (l ++ rest) (S n).

Lemma scroll_covers off l n : paged off l n → ∀ fuel, (n ≤ fuel)%nat → scroll_pages fuel off = Some (yields qdrant_row l).
Proof.
  induction 1 as [off l Hs|off l nxt rest n Hs _ IH]; intros [|fuel] Hle; try lia; cbn [scroll_pages]; rewrite Hs.
  - by destruct (st_failure _).
  - rewrite yields_app. destruct (st_failure (yields qdrant_row l)) as [e|] eqn:E.
    + unfold then_yields. by rewrite E.
    + rewrite (IH fuel) by lia. done.
Qed.
End qdrant.
