(* ===== verification/Adapters.v ===== *)
(** * Framework adapters

    [local/integrations/langchain.py], [llama_index.py] and [mem0.py]: the vector stores those
    frameworks are given, over the verbs of [LodeDB]. The frameworks' own types are records with
    the fields the adapters read or fill. *)

From Stdlib Require Import Ascii String ZArith Lia SpecFloat.
From stdpp Require Import base strings gmap sets list.
From S2P Require Import Prelude Numbers PyVal Bytes Json Predicate Lexical LexicalIndex RouteRegistry Topology KnowledgeGraph GraphSync VectorBoundary LocalDb.

Local Open Scope Z_scope.

Definition not_implemented {A} (msg : string) : result A := raise NotImplementedError msg.

(** [l[i]]. *)
Definition nth_item {A} (l : list A) (i : nat) : result A :=
  match l !! i with Some x => Ok x | None => raise IndexError "list index out of range" end.

(** ** LangChain *)

(** A LangChain document. *)
Record Document := LcDocument { page_content : string; lc_metadata : pydict }.

(** The adapter: the handle and the text cache of the session. *)
Record langchain_store (E : Type) := LangChain { lc_db : LodeDB E; lc_texts : gmap string string }.
Arguments LangChain {E} _ _.
Arguments lc_db {E} _.
Arguments lc_texts {E} _.

Section langchain.
Context {E : Type} {NE : NativeEngine E} {R : Reductions} {TH : Secrets}.
Variable c : LodeConfig.
Local Notation store := (langchain_store E).

(** A call on the wrapped handle. *)
Definition lc_call {A} (m : st (LodeDB E) A) : st store A := λ s,
  let out := m (lc_db s) in (out.1, LangChain out.2 (lc_texts s)).

Definition lc_item (metadatas : list (option pydict)) (ids : option (list string)) (it : nat * string) : result text_item :=
  id ← (match ids with Some (i :: l) => s ← nth_item (i :: l) it.1; Ok (PStr s) | _ => Ok PNone end);
  metadata ← nth_item metadatas it.1;
  Ok (TextItem (PStr it.2) id (PDict match metadata with Some d => d | None => [] end)).

Definition add_texts (texts : list string) (metadatas : option (list (option pydict))) (ids : option (list string))
    : st store (list string) :=
  let metadatas := match metadatas with Some l => l | None => replicate (length texts) None end in
  items ← st_lift (mapR (lc_item metadatas ids) (imap pair texts));
  assigned ← lc_call (add_many c items);
  _ ← st_update (λ s, LangChain (lc_db s) (fold_left (λ m kv, <[kv.1 := kv.2]> m) (combine assigned texts) (lc_texts s)));
  mret assigned.

Definition lc_document (hit : SearchHit) : st store (Document * spec_float) :=
  cached ← st_read (λ s, Ok (lc_texts s !! sh_id hit));
  page ← (match cached with
          | Some p => mret (Some p)
          | None => if cf_store_text c then lc_call (get_text c (PStr (sh_id hit))) else mret None
          end);
  mret (LcDocument (match page with Some p => p | None => "" end) (dict_set "id" (PStr (sh_id hit)) (sh_metadata hit)),
        sh_score hit).

Definition similarity_search_with_score (query : pyval) (k : Z) (filter : pyval) : st store (list (Document * spec_float)) :=
  hits ← lc_call (search c query k filter PNone);
  mapS lc_document hits.

Definition similarity_search (query : pyval) (k : Z) (filter : pyval) : st store (list Document) :=
  l ← similarity_search_with_score query k filter; mret (map fst l).

Definition lc_delete (ids : list string) : st store bool :=
  match ids with
  | [] => mret false
  | _ =>
      results ← mapS (λ id, lc_call (remove c (PStr id))) ids;
      _ ← st_update (λ s, LangChain (lc_db s) (foldr delete (lc_texts s) ids));
      mret (forallb id results)
  end.
End langchain.

(** ** LlamaIndex *)

Definition _REF_DOC_KEY : string := "_lodedb_ref_doc_id".

(** A node, with the document its [SOURCE] relationship names. *)
Record TextNode := LlNode { ln_id : string; ln_text : string; ln_metadata : pydict; ln_source : option string }.

Inductive VectorStoreQueryMode :=
| DEFAULT | HYBRID | SEMANTIC_HYBRID | SPARSE | TEXT_SEARCH | MMR | SVM | LOGISTIC_REGRESSION | LINEAR_REGRESSION.
Inductive FilterOperator := EQ | NE | GT | GTE | LT | LTE | IN | NIN | IS_EMPTY | CONTAINS | TEXT_MATCH
| TEXT_MATCH_INSENSITIVE | ANY | ALL.
Inductive FilterCondition := AND | OR | NOT.

Inductive MetadataFilters := Filters (filters : list filter_part) (condition : option FilterCondition)
with filter_part := Leaf (key : string) (op : FilterOperator) (value : pyval) | Sub (f : MetadataFilters).

Definition _MODE_TO_LODE (m : VectorStoreQueryMode) : option string :=
  match m with
  | DEFAULT => Some "vector"
  | HYBRID | SEMANTIC_HYBRID => Some "hybrid"
  | SPARSE | TEXT_SEARCH => Some "lexical"
  | _ => None
  end.

Definition _OP_TO_LODE (op : FilterOperator) : option string :=
  match op with
  | NE => Some "$ne" | GT => Some "$gt" | GTE => Some "$gte" | LT => Some "$lt" | LTE => Some "$lte"
  | IN => Some "$in" | NIN => Some "$nin" | _ => None
  end.

Definition ll_resolve_mode (m : VectorStoreQueryMode) : result string :=
  match _MODE_TO_LODE m with
  | Some s => Ok s
  | None => not_implemented ("LodeDBVectorStore does not support this query mode; supported modes are "
      +:+ "DEFAULT (vector), HYBRID/SEMANTIC_HYBRID (BM25 + RRF), and SPARSE/TEXT_SEARCH "
      +:+ "(lexical). MMR and learned modes need full-precision vectors LodeDB does not " +:+ "expose.")
  end.

Definition _translate_leaf (key : string) (op : FilterOperator) (value : pyval) : result pydict :=
  match op with
  | EQ => Ok [(PStr key, value)]
  | IS_EMPTY =>
      Ok [(PStr "$or", PList [PDict [(PStr key, PDict [(PStr "$exists", PBool false)])]; PDict [(PStr key, PStr "")]])]
  | _ =>
      match _OP_TO_LODE op with
      | Some lode_op => Ok [(PStr key, PDict [(PStr lode_op, value)])]
      | None => not_implemented ("LodeDBVectorStore does not support this filter operator; LodeDB metadata "
          +:+ "predicates have no substring/list match (CONTAINS / TEXT_MATCH / ANY / ALL).")
      end
  end.

(** The parts that translate to a nonempty node, combined by the condition. *)
Definition combine_parts (condition : option FilterCondition) (parts : list pydict) : pydict :=
  match List.filter (λ d : pydict, match d with [] => false | _ => true end) parts with
  | [] => []
  | kept =>
      let joined op := match kept with [d] => d | _ => [(PStr op, PList (map PDict kept))] end in
      match condition with
      | Some OR => joined "$or"
      | Some NOT => [(PStr "$not", PDict (joined "$or"))]
      | _ => joined "$and"
      end
  end.

Fixpoint _translate_filters (f : MetadataFilters) : result pydict :=
  match f with
  | Filters parts condition =>
      l ← mapR (λ p, match p with Leaf key op value => _translate_leaf key op value | Sub g => _translate_filters g end) parts;
      Ok (combine_parts condition l)
  end.

Record VectorStoreQuery := LlQuery
  { q_mode : VectorStoreQueryMode; q_str : option string; q_node_ids : option (list string);
    q_doc_ids : option (list string); q_filters : option MetadataFilters;
    q_similarity_top_k : option Z; q_hybrid_top_k : option Z; q_sparse_top_k : option Z }.

Definition translate_opt (f : option MetadataFilters) : result pydict :=
  match f with Some f => _translate_filters f | None => Ok [] end.

(** [out["metadata"] = ...; out["document_ids"] = ...; out or None], [None] for an empty filter. *)
Definition scoped_filter (metadata : pydict) (node_ids : option (list string)) : pyval :=
  let out := (match metadata with [] => [] | _ => [(PStr "metadata", PDict metadata)] end)
    ++ (match node_ids with Some (i :: l) => [(PStr "document_ids", PList (map PStr (i :: l)))] | _ => [] end) in
  match out with [] => PNone | _ => PDict out end.

Definition is_empty_list (l : option (list string)) : bool := match l with Some [] => true | _ => false end.

(** [None]: an id constraint was asked for and is empty. *)
Definition _build_query_filter (q : VectorStoreQuery) : result (option pyval) :=
  if is_empty_list (q_node_ids q) || is_empty_list (q_doc_ids q) then Ok None
  else
    metadata ← translate_opt (q_filters q);
    let metadata :=
      match q_doc_ids q with
      | Some (i :: l) =>
          let ref_clause := [(PStr _REF_DOC_KEY, PDict [(PStr "$in", PList (map PStr (i :: l)))])] in
          match metadata with [] => ref_clause | _ => [(PStr "$and", PList [PDict metadata; PDict ref_clause])] end
      | _ => metadata
      end in
    Ok (Some (scoped_filter metadata (q_node_ids q))).

Definition _enumeration_filter (node_ids : option (list string)) (filters : option MetadataFilters) : result (option pyval) :=
  if is_empty_list node_ids then Ok None
  else metadata ← translate_opt filters; Ok (Some (scoped_filter metadata node_ids)).

(** [int(a or default)]. *)
Definition or_k (a : option Z) (default : Z) : Z := match a with Some z => if z =? 0 then default else z | None => default end.

Definition _top_k (q : VectorStoreQuery) (lode_mode : string) : Z :=
  let base := or_k (q_similarity_top_k q) 1 in
  if bool_decide (lode_mode = "hybrid") then or_k (q_hybrid_top_k q) base
  else if bool_decide (lode_mode = "lexical") then or_k (q_sparse_top_k q) base
  else base.

Definition _build_node (node_id : string) (metadata : pydict) (text : option string) : TextNode :=
  LlNode node_id (match text with Some t => t | None => "" end) (dict_del _REF_DOC_KEY metadata)
    (match dict_get _REF_DOC_KEY metadata with Some PNone | None => None | Some v => Some (py_str v) end).

Definition record_id (record : pydict) : result string :=
  v ← py_index (PDict record) "id"; Ok (py_str v).
Definition record_metadata (record : pydict) : pydict :=
  match dict_get "metadata" record with Some (PDict d) => d | _ => [] end.

Section llama.
Context {E : Type} {NE : NativeEngine E} {R : Reductions} {TH : Secrets}.
Variable c : LodeConfig.
Local Notation db := (LodeDB E).

Definition ll_item (node : TextNode) : result text_item :=
  if is_blank (ln_text node)
  then raise ValueError ("node " +:+ str_repr (ln_id node) +:+ " has no text content; the LodeDB LlamaIndex "
         +:+ "adapter is text-path (LodeDB embeds text internally) and cannot index " +:+ "empty or non-text nodes")
  else
    let metadata := match ln_source node with Some ref => dict_set _REF_DOC_KEY (PStr ref) (ln_metadata node) | None => ln_metadata node end in
    Ok (TextItem (PStr (ln_text node)) (PStr (ln_id node)) (PDict metadata)).

Definition ll_add (nodes : list TextNode) : st db (list string) :=
  match nodes with
  | [] => mret []
  | _ => items ← st_lift (mapR ll_item nodes); _ ← add_many c items; mret (map ln_id nodes)
  end.

Definition remove_all (ids : list string) : st db unit := forS (λ id, _ ← remove c (PStr id); mret tt) ids.

Definition ll_delete (ref_doc_id : string) : st db unit :=
  records ← list_documents (PDict [(PStr _REF_DOC_KEY, PStr ref_doc_id)]) None None;
  ids ← st_lift (mapR record_id records);
  remove_all ids.

Definition delete_nodes (node_ids : option (list string)) (filters : option MetadataFilters) : st db unit :=
  match filters with
  | None => match node_ids with Some ids => remove_all ids | None => mret tt end
  | Some f =>
      flt ← st_lift (_enumeration_filter node_ids filters);
      match flt with
      | None => mret tt
      | Some flt =>
          records ← list_documents flt None None;
          targets ← st_lift (mapR record_id records);
          remove_all targets
      end
  end.

Definition _nodes_from_records (records : list pydict) : st db (list TextNode) :=
  ids ← st_lift (mapR record_id records);
  texts ← (match ids with [] => mret [] | _ => if cf_store_text c then get_texts c (PList (map PStr ids)) else mret [] end);
  mret (zip_with (λ r id, _build_node id (record_metadata r) (get_item id texts)) records ids).

Definition get_nodes (node_ids : option (list string)) (filters : option MetadataFilters) : st db (list TextNode) :=
  flt ← st_lift (_enumeration_filter node_ids filters);
  match flt with
  | None => mret []
  | Some flt =>
      records ← list_documents flt None None;
      nodes ← _nodes_from_records records;
      mret match node_ids with
           | Some (i :: l) =>
               let by_id := fold_left (λ m n, <[ln_id n := n]> m) nodes (∅ : gmap string TextNode) in
               omap (λ nid, by_id !! nid) (i :: l)
           | _ => nodes
           end
  end.

Definition ll_query (q : VectorStoreQuery) : st db (list (TextNode * spec_float)) :=
  lode_mode ← st_lift (ll_resolve_mode (q_mode q));
  query_str ← st_lift (match q_str q with
    | Some s => if is_blank s then raise ValueError ("LodeDBVectorStore is text-path (is_embedding_query=False) and needs "
                  +:+ "query.query_str; an embedding-only query was supplied.") else Ok s
    | None => raise ValueError ("LodeDBVectorStore is text-path (is_embedding_query=False) and needs "
                  +:+ "query.query_str; an embedding-only query was supplied.")
    end);
  flt ← st_lift (_build_query_filter q);
  match flt with
  | None => mret []
  | Some flt =>
      hits ← search c (PStr query_str) (_top_k q lode_mode) flt (PStr lode_mode);
      mapS (λ hit,
        text ← (if cf_store_text c then get_text c (PStr (sh_id hit)) else mret None);
        mret (_build_node (sh_id hit) (sh_metadata hit) text, sh_score hit)) hits
  end.
End llama.

(** ** mem0 *)

Definition _RAW_PAYLOAD_KEYS : list string := ["data"; "memory"; "text"; "text_lemmatized"; "document"; "raw_payload"].
Definition _OPERATOR_MAP : list (string * string) :=
  [("eq", "$eq"); ("ne", "$ne"); ("gt", "$gt"); ("gte", "$gte"); ("lt", "$lt"); ("lte", "$lte"); ("in", "$in"); ("nin", "$nin")].
Definition _UNSUPPORTED_FILTER_OPERATORS : list string := ["contains"; "icontains"].

Record LodeDBMem0Result := Mem0Result { mr_id : string; mr_score : option spec_float; mr_payload : pydict }.

(** [isinstance(value, (str, int, float, bool))]. *)
Definition is_scalar (v : pyval) : bool := match v with PStr _ | PInt _ | PFloat _ | PBool _ => true | _ => false end.

Definition key_among (l : list string) (key : pyval) : bool := match key with PStr s => str_in s l | _ => false end.

Definition _filterable_metadata (payload : pydict) : pydict :=
  fold_left (λ metadata kv,
    if key_among ("linked_memory_ids" :: _RAW_PAYLOAD_KEYS) kv.1 then metadata
    else if is_scalar kv.2 then dict_set (py_str kv.1) kv.2 metadata else metadata) payload [].

(** [default=str]: an object without a JSON form is written as its [str]. *)
Fixpoint with_default_str (v : pyval) : pyval :=
  match v with
  | PObj _ => PStr (py_str v)
  | PList l => PList (map with_default_str l)
  | PTuple l => PTuple (map with_default_str l)
  | PDict d => PDict (map (λ kv, (kv.1, with_default_str kv.2)) d)
  | _ => v
  end.

(** The keys of a payload are strings, as everywhere JSON is written here. *)
Definition _encode_payload (payload : pydict) : result string := dumps tight (with_default_str (PDict payload)).

Definition _decode_payload (raw : string) : pydict :=
  match loads raw with Ok (PDict d) => d | _ => [] end.

Definition _one_query_vector (vector : pyval) : result (list spec_float) :=
  match vector with
  | PList (first :: rest) | PTuple (first :: rest) =>
      match first with
      | PList l | PTuple l => mapR py_float l
      | _ => mapR py_float (first :: rest)
      end
  | _ => raise ValueError "query vector must be a non-empty list"
  end.

Definition _payload_keyword_text (payload : pydict) : string :=
  match List.find (λ k, match dict_get k payload with Some (PStr s) => negb (is_blank s) | _ => false end)
          ["text_lemmatized"; "data"; "memory"; "text"] with
  | Some k => match dict_get k payload with Some (PStr s) => s | _ => "" end
  | None => ""
  end.

Definition _filter_list (name : string) (value : pyval) : result (list pyval) :=
  match value with
  | PDict _ => Ok [value]
  | PList (v :: l) =>
      if forallb (λ x, match x with PDict _ => true | _ => false end) (v :: l) then Ok (v :: l)
      else raise ValueError (name +:+ " filter value must contain only dicts")
  | _ => raise ValueError (name +:+ " filter value must be a non-empty list of dicts")
  end.

Definition translate_operator (key : string) (translated : pydict) (kv : pyval * pyval) : result pydict :=
  if key_among _UNSUPPORTED_FILTER_OPERATORS kv.1
  then not_implemented ("mem0 filter operator " +:+ py_repr kv.1 +:+ " for field " +:+ str_repr key +:+ " is not supported by LodeDB")
  else
    match kv.1 with
    | PStr op =>
        match get_item op _OPERATOR_MAP with
        | Some lode_op => Ok (dict_set lode_op kv.2 translated)
        | None => raise ValueError ("unsupported mem0 filter operator " +:+ str_repr op +:+ " for field " +:+ str_repr key)
        end
    | op => raise ValueError ("unsupported mem0 filter operator " +:+ py_repr op +:+ " for field " +:+ str_repr key)
    end.

Definition _translate_filter_value (key : string) (value : pyval) : result pyval :=
  match value with
  | PStr s => if bool_decide (s = "*") then Ok (PDict [(PStr "$exists", PBool true)]) else Ok value
  | PList l => Ok (PDict [(PStr "$in", PList l)])
  | PDict d => t ← foldR (translate_operator key) [] d; Ok (PDict t)
  | _ => Ok value
  end.

(** One nested filter; the values that reach it are dictionaries. *)
Fixpoint _translate_filter_node (filters : pyval) : result pyval :=
  match filters with
  | PDict d =>
      let sub name value :=
        match value with
        | PDict e => x ← _translate_filter_node value; Ok [x]
        | PList l => _ ← _filter_list name value; mapR _translate_filter_node l
        | _ => _ ← _filter_list name value; Ok []
        end in
      out ← foldR (λ out kv,
        if key_among _RAW_PAYLOAD_KEYS kv.1
        then not_implemented ("mem0 filter field " +:+ py_repr kv.1 +:+ " is stored as retained payload text, not LodeDB metadata")
        else if key_among ["AND"; "$and"] kv.1 then parts ← sub "AND" kv.2; Ok (dict_set "$and" (PList parts) out)
        else if key_among ["OR"; "$or"] kv.1 then parts ← sub "OR" kv.2; Ok (dict_set "$or" (PList parts) out)
        else if key_among ["NOT"; "$not"] kv.1 then
          parts ← sub "NOT" kv.2;
          Ok (dict_set "$not" (match parts with [p] => p | _ => PDict [(PStr "$or", PList parts)] end) out)
        else v ← _translate_filter_value (py_str kv.1) kv.2; Ok (dict_set (py_str kv.1) v out)) [] d;
      Ok (PDict out)
  | _ => no_attr filters "items"
  end.

Definition _translate_mem0_filters (filters : option pydict) : result pyval :=
  match filters with Some (kv :: d) => _translate_filter_node (PDict (kv :: d)) | _ => Ok PNone end.

(** The settings of a store; the wrapped handle is the state. *)
Record mem0_config := Mem0Config { m0_dims : Z; m0_normalize : bool; m0_store_payloads : bool }.

Section mem0.
Context {E : Type} {NE : NativeEngine E} {R : Reductions} {TH : Secrets}.
(** [math.log], the iteration order of a set of terms, [uuid.uuid4()]. *)
Variables (log : spec_float → spec_float) (set_order : list string → list string) (uuid4 : nat → string).
Variables (c : LodeConfig) (m : mem0_config).
Local Notation db := (LodeDB E).

(** [try: m except ValueError: default]. *)
Definition or_value_error {A} (call : st db A) (default : A) : st db A := λ d,
  match call d with
  | (Err e, d') => if is_value_error e then (Ok default, d') else (Err e, d')
  | out => out
  end.

Definition mem0_document (t : list spec_float * string * pydict) : result vector_item :=
  text ← (if m0_store_payloads m then s ← _encode_payload t.2; Ok (PStr s) else Ok PNone);
  Ok (VectorItem (Some t.1.1) (PStr t.1.2) (PDict (_filterable_metadata t.2)) text).

Definition insert (vectors : list (list spec_float)) (payloads : option (list pydict)) (ids : option (list string)) : st db unit :=
  let ids := match ids with Some l => l | None => map uuid4 (seq 0 (length vectors)) end in
  let payloads := match payloads with Some l => l | None => map (λ _, []) vectors end in
  if negb (bool_decide (length vectors = length ids)) || negb (bool_decide (length vectors = length payloads))
  then st_lift (raise ValueError "vectors, payloads, and ids must have the same length")
  else
    documents ← st_lift (mapR mem0_document (combine (combine vectors ids) payloads));
    match documents with
    | [] => mret tt
    | _ => _ ← add_vectors_many c documents (m0_normalize m); mret tt
    end.

Definition payload_of (texts : list (string * string)) (by_id : gmap string pydict) (doc_id : string) : st db (string * pydict) :=
  match get_item doc_id texts with
  | Some raw => mret (doc_id, _decode_payload raw)
  | None =>
      record ← (match by_id !! doc_id with
                | Some (kv :: r) => mret (Some (kv :: r))
                | _ => get_document (PStr doc_id)
                end);
      mret (doc_id, match record with Some (kv :: r) => record_metadata (kv :: r) | _ => [] end)
  end.

Definition _payloads_for_ids (ids : list string) (records : list pydict) : st db (gmap string pydict) :=
  match ids with
  | [] => mret ∅
  | _ =>
      keyed ← st_lift (mapR (λ r, i ← record_id r; Ok (i, r)) records);
      let by_id := fold_left (λ a kv, <[kv.1 := kv.2]> a) keyed (∅ : gmap string pydict) in
      texts ← (if m0_store_payloads m then or_value_error (get_texts c (PList (map PStr ids))) [] else mret []);
      payloads ← mapS (payload_of texts by_id) ids;
      mret (fold_left (λ a kv, <[kv.1 := kv.2]> a) payloads (∅ : gmap string pydict))
  end.

Definition payload_at (payloads : gmap string pydict) (id : string) : pydict :=
  match payloads !! id with Some p => p | None => [] end.

Definition _results_from_hits (hits : list SearchHit) : st db (list LodeDBMem0Result) :=
  payloads ← _payloads_for_ids (map sh_id hits) [];
  mret (map (λ h, Mem0Result (sh_id h) (Some (sh_score h)) (payload_at payloads (sh_id h))) hits).

Definition mem0_search (vectors : pyval) (top_k : Z) (filters : option pydict) : st db (list LodeDBMem0Result) :=
  flt ← st_lift (_translate_mem0_filters filters);
  v ← st_lift (_one_query_vector vectors);
  hits ← search_by_vector c v top_k flt (m0_normalize m);
  _results_from_hits hits.

Definition search_batch (vectors_list : list pyval) (top_k : Z) (filters : option pydict) : st db (list (list LodeDBMem0Result)) :=
  flt ← st_lift (_translate_mem0_filters filters);
  vs ← st_lift (mapR _one_query_vector vectors_list);
  batches ← search_many_by_vector c vs top_k flt (m0_normalize m);
  mapS _results_from_hits batches.

Definition keyword_search (query : string) (top_k : Z) (filters : option pydict) : st db (list LodeDBMem0Result) :=
  if negb (m0_store_payloads m) then mret []
  else
    flt ← st_lift (_translate_mem0_filters filters);
    records ← list_documents flt None None;
    ids ← st_lift (mapR record_id records);
    payloads ← _payloads_for_ids ids records;
    let texts := List.filter (λ it : string * string, negb (bool_decide (it.2 = "")))
                   (map (λ i, (i, _payload_keyword_text (payload_at payloads i))) ids) in
    match texts with
    | [] => mret []
    | _ =>
        ranked ← st_lift (i ← Bm25_init (map fst texts) (map snd texts) None BM25_K1 BM25_B;
                          rank log set_order i query (Some top_k) None);
        mret (map (λ r, Mem0Result r.1 (Some r.2) (payload_at payloads r.1)) ranked)
    end.

Definition mem0_get (vector_id : string) : st db (option LodeDBMem0Result) :=
  record ← get_document (PStr vector_id);
  match record with
  | None => mret None
  | Some r =>
      payloads ← _payloads_for_ids [vector_id] [r];
      mret (Some (Mem0Result vector_id None (payload_at payloads vector_id)))
  end.

Definition mem0_delete (vector_id : string) : st db unit := _ ← remove c (PStr vector_id); mret tt.

Definition update (vector_id : string) (vector : option (list spec_float)) (payload : option pydict) : st db unit :=
  p ← (match payload with
       | Some p => mret p
       | None => current ← mem0_get vector_id; mret match current with Some r => mr_payload r | None => [] end
       end);
  text ← st_lift (if m0_store_payloads m then s ← _encode_payload p; Ok (Some s) else Ok None);
  let metadata := PDict (_filterable_metadata p) in
  match vector with
  | Some v =>
      _ ← add_vectors c v (PStr vector_id) metadata (match text with Some s => PStr s | None => PNone end) (m0_normalize m);
      mret tt
  | None => _update_document_payload c (PStr vector_id) metadata text false
  end.

Definition mem0_list (filters : option pydict) (top_k : option Z) : st db (list LodeDBMem0Result) :=
  flt ← st_lift (_translate_mem0_filters filters);
  all ← list_documents flt None None;
  let records := match top_k with Some k => take (slice_bound (Z.of_nat (length all)) k) all | None => all end in
  ids ← st_lift (mapR record_id records);
  payloads ← _payloads_for_ids ids records;
  mret (map (λ i, Mem0Result i None (payload_at payloads i)) ids).

Definition delete_col : st db unit :=
  records ← list_documents PNone None None;
  ids ← st_lift (mapR record_id records);
  forS (λ i, _ ← remove c (PStr i); mret tt) ids.
End mem0.

(** ** Payloads survive *)

Definition scalar_items (d : pydict) : Prop := Forall (λ kv, (∃ k, kv.1 = PStr k) ∧ is_scalar kv.2 = true) d.

Lemma dict_set_scalar k v d : is_scalar v = true → scalar_items d → scalar_items (dict_set k v d).
Proof.
  intros Hv. induction 1 as [|kv d [Hk Hs] Hd IH]; cbn [dict_set]; [by repeat constructor; [exists k|]|].
  destruct (key_is k kv); constructor; try done.
Qed.

Lemma filterable_scalar payload : scalar_items (_filterable_metadata payload).
Proof.
  unfold _filterable_metadata. assert (scalar_items []) as H by constructor. revert H. generalize (@nil (pyval * pyval)).
  induction payload as [|kv payload IH]; intros acc H; cbn [fold_left]; [done|]. apply IH.
  destruct (key_among _ _); [done|]. destruct (is_scalar kv.2) eqn:E; [by apply dict_set_scalar|done].
Qed.

Lemma scalar_coerces d : scalar_items d → is_Ok (_coerce_metadata (PDict d)).
Proof.
  unfold _coerce_metadata. cbn [py_items mbind result_bind]. generalize (∅ : meta).
  induction d as [|[k v] d IH]; intros acc H; cbn [foldR]; [by eexists|]. apply Forall_cons in H as [[[s Hs] Hv] H].
  cbn [fst snd] in *. subst k. unfold coerce_step at 1. cbn [fst snd]. destruct v; try done; by apply IH.
Qed.

Lemma default_str_id v : json_ok v = true → with_default_str v = v.
Proof.
  induction v as [| | | | |l IH|l IH|d IH|] using pyval_deep_ind; cbn [with_default_str json_ok]; try done.
  1,2: intros H; f_equal; induction IH as [|x l Hx _ IHl]; cbn [map forallb] in *; [done|];
    apply andb_prop in H as [? ?]; by rewrite Hx, IHl.
  intros [H _]%andb_prop. f_equal. induction IH as [|[k x] d [_ Hx] _ IHd]; cbn [map forallb] in *; [done|].
  apply andb_prop in H as [Hk ?]. cbn [fst snd] in *. destruct k; try done. by rewrite Hx, IHd.
Qed.

Lemma payload_codec payload : json_ok (PDict payload) = true →
  ∃ text, _encode_payload payload = Ok text ∧ _decode_payload text = canon_items payload.
Proof.
  intros Hok. unfold _encode_payload, _decode_payload. rewrite default_str_id, dumps_ok by done.
  eexists. split; [reflexivity|]. rewrite (loads_text tight) by done. by rewrite canon_dict.
Qed.

Lemma ke_get_document {E} {NE : NativeEngine E} v : keeps_engine (E := E) (get_document v).
Proof. unfold get_document, _native_get_document, document_read. keep_engine. Qed.

Section payloads.
Context {E : Type} {NE : NativeEngine E} {NV : NativeView E} {R : Reductions} {TH : Secrets}.
Context (c : LodeConfig) {NL : NativeLaws E c} {WC : writable_config c} {RL : ReductionLaws R}.
Variable uuid4 : nat → string.
Local Notation m := (Mem0Config (Z.of_nat (cf_vector_dim c)) true true).

(** One memory: its vector, its id, its payload. *)
Local Notation memory := (list spec_float * string * pydict)%type.
Definition memory_ok (t : memory) : Prop :=
  takes_vector c t.1.1 = true ∧ is_blank t.1.2 = false ∧ json_ok (PDict t.2) = true.

Lemma memory_document t : memory_ok t → ∃ item r, mem0_document m t = Ok item ∧ reads_as_vector item r ∧
  r.1 = t.1.1 ∧ sc_id r.2 = t.1.2 ∧ ∃ text, sc_text r.2 = Some text ∧ _decode_payload text = canon_items t.2.
Proof.
  intros (_ & _ & Hok). destruct (payload_codec _ Hok) as (text & He & Hd).
  destruct (scalar_coerces _ (filterable_scalar t.2)) as [md Hmd].
  eexists _, (t.1.1, Sidecar t.1.2 md (Some text)). unfold mem0_document. cbn [m0_store_payloads]. rewrite He.
  split; [reflexivity|]. split; [done|]. split; [done|]. split; [done|]. by exists text.
Qed.

(** Reading one memory whose payload is retained. *)
Lemma mem0_get_run id d text x : is_blank id = false → cf_store_text c = true →
  collection (db_engine x) !! id = Some d → nd_text d = Some text →
  (mem0_get c m id x).1 = Ok (Some (Mem0Result id None (_decode_payload text))).
Proof.
  intros Hb Hs Hd Ht. unfold mem0_get. rewrite st_bind_run.
  destruct (get_document_run c id d x Hb Hd) as (p & md & Hp & Hid & _).
  assert (db_engine (get_document (PStr id) x).2 = db_engine x) as He by apply ke_get_document.
  destruct (get_document (PStr id) x) as [r x1]. cbn [fst snd] in *. subst r.
  rewrite st_bind_run. unfold _payloads_for_ids. rewrite lift_run. cbn [mapR]. unfold record_id, py_index. rewrite Hid.
  cbn [mbind result_bind mret result_ret m0_store_payloads]. rewrite st_bind_run. unfold or_value_error.
  destruct (get_texts_run c [id] x1 ltac:(by repeat constructor) Hs) as (l & x2 & Hl & _ & _ & Hget). rewrite Hl.
  rewrite st_bind_run. cbn [mapS]. rewrite st_bind_run. unfold payload_of.
  rewrite (Hget id), decide_True, He, Hd by set_solver. cbn [mbind option_bind]. rewrite Ht.
  unfold payload_at, mbind, mret, st_bind, st_ret. cbn. by rewrite lookup_insert_eq.
Qed.

(** What mem0 stores is what it reads back. Inserting memories with distinct non-blank ids,
    acceptable vectors and payloads of JSON values succeeds, and each of them is then found under
    its id with its whole payload, list-valued and raw-text fields included. *)
Theorem mem0_payload_roundtrip (l : list memory) x : cf_store_text c = true → l ≠ [] → Forall memory_ok l →
  NoDup (map (λ t, t.1.2) l) →
  ∃ x', insert uuid4 c m (map (λ t, t.1.1) l) (Some (map snd l)) (Some (map (λ t, t.1.2) l)) x = (Ok tt, x') ∧
    ∀ t, t ∈ l → (mem0_get c m t.1.2 x').1 = Ok (Some (Mem0Result t.1.2 None (canon_items t.2))).
Proof.
  intros Hs Hne Hok Hnd. unfold insert. rewrite !length_map, !bool_decide_eq_true_2 by done. cbn [negb orb].
  assert (combine (combine (map (λ t, t.1.1) l) (map (λ t, t.1.2) l)) (map snd l) = l) as ->.
  { clear. induction l as [|[[v i] p] l IH]; [done|]. cbn. by rewrite IH. }
  assert (∃ items rows, mapR (mem0_document m) l = Ok items ∧ Forall2 reads_as_vector items rows ∧
    Forall2 (λ t r, r.1 = t.1.1 ∧ sc_id r.2 = t.1.2 ∧ ∃ text, sc_text r.2 = Some text ∧ _decode_payload text = canon_items t.2) l rows)
    as (items & rows & Hmap & Hread & Hrows).
  { clear Hne Hnd. induction Hok as [|t l Ht _ (items & rows & Hm & Hr & Hl)]; [by exists [], []|].
    destruct (memory_document t Ht) as (it & r & Hit & Hri & H1 & H2 & H3). exists (it :: items), (r :: rows).
    cbn [mapR]. rewrite Hit, Hm. split; [done|]. split; constructor; done. }
  rewrite lift_run, Hmap. destruct items as [|it its] eqn:Ei.
  { destruct l; [done|]. inversion Hread; subst. inversion Hrows. }
  rewrite <-Ei in *. clear Ei.
  assert (map (λ r, sc_id r.2) rows = map (λ t, t.1.2) l) as Hids.
  { clear -Hrows. induction Hrows as [|t r l rows (_ & H & _) _ IH]; [done|]. cbn. by rewrite H, IH. }
  rewrite st_bind_run. destruct (add_vectors_many_run c (WC := WC) items rows x) as (x' & Hrun & Hcol); [|done| |].
  { intros ->. by inversion Hrows; subst. }
  { clear -Hrows Hok. induction Hrows as [|t r l rows (H1 & H2 & _) _ IH]; [constructor|].
    apply Forall_cons in Hok as [(Hv & Hb & _) Hok]. constructor; [by rewrite H1, H2|by apply IH]. }
  cbn [m0_normalize]. rewrite Hrun. exists x'. split; [done|]. intros t Hin.
  apply list_elem_of_lookup_1 in Hin as [i Hi]. destruct (Forall2_lookup_l _ _ _ _ _ Hrows Hi) as (r & Hr & _ & Hid & text & Ht & Hdec).
  rewrite <-Hdec, <-Hid. apply (mem0_get_run _ (sidecar_doc (cf_store_text c) r.2)); [|done| |].
  - rewrite Hid. rewrite Forall_forall in Hok. apply (Hok t). by eapply list_elem_of_lookup_2.
  - rewrite Hcol. apply lookup_put_sidecars; [by rewrite map_map, Hids|]. apply list_elem_of_fmap. exists r.
    split; [done|]. by eapply list_elem_of_lookup_2.
  - unfold sidecar_doc. by rewrite Hs.
Qed.
End payloads.

Definition demo_payload : pydict :=
  [(PStr "user_id", PStr "u1"); (PStr "data", PStr "likes tea"); (PStr "linked_memory_ids", PList [PStr "m0"; PInt 7])].

Lemma mem0_payload_roundtrip_witness :
  let x := Db (Toy ∅ []) "" 0 in
  let cfg := Mem0Config (Z.of_nat (cf_vector_dim toy_config)) true true in
  ∃ x', @insert _ (toy_native true) plain_reductions toy_secrets (λ _, "") toy_config cfg [unit_vector]
      (Some [demo_payload]) (Some ["m1"]) x = (Ok tt, x') ∧
    ∀ t, t ∈ [(unit_vector, "m1", demo_payload)] →
      (@mem0_get _ (toy_native true) toy_config cfg t.1.2 x').1 = Ok (Some (Mem0Result t.1.2 None (canon_items t.2))).
Proof.
  apply (@mem0_payload_roundtrip toy_engine (toy_native true) toy_view plain_reductions toy_secrets toy_config
    (toy_laws toy_config) toy_writable plain_reduction_laws (λ _, "") [(unit_vector, "m1", demo_payload)]).
  - reflexivity.
  - done.
  - constructor; [|constructor]. split; [vm_compute; reflexivity|]. split; reflexivity.
  - apply NoDup_singleton.
Defined.

(** ** LlamaIndex filters keep their meaning *)

(** The values a filter compares with, as stored metadata has them. *)
Definition text_of (v : pyval) : string := match sdk_stringify v with Ok s => s | Err _ => "" end.
Definition texts_of (v : pyval) : list string := match v with PList l => map text_of l | _ => [] end.

(** The evaluator of LlamaIndex over string metadata: one comparison, and a group. *)
Definition leaf_holds (stored : option string) (op : FilterOperator) (v : pyval) : bool :=
  let ordered o := match stored with Some s => ord_holds o s (text_of v) | None => false end in
  let member := match stored with Some s => bool_decide (s ∈ texts_of v) | None => false end in
  match op with
  | EQ => bool_decide (stored = Some (text_of v))
  | NE => negb (bool_decide (stored = Some (text_of v)))
  | GT => ordered OpGt | GTE => ordered OpGe | LT => ordered OpLt | LTE => ordered OpLe
  | IN => member | NIN => negb member
  | IS_EMPTY => bool_decide (stored = None ∨ stored = Some "")
  | _ => false
  end.

Definition group_holds (condition : option FilterCondition) (bs : list bool) : bool :=
  match condition with
  | Some OR => existsb id bs
  | Some NOT => negb (existsb id bs)
  | _ => forallb id bs
  end.

(** [None] for a group without any comparison, which constrains nothing. *)
Fixpoint ll_holds (m : meta) (f : MetadataFilters) : option bool :=
  match f with
  | Filters parts condition =>
      match omap (λ p, match p with Leaf key op v => Some (leaf_holds (m !! key) op v) | Sub g => ll_holds m g end) parts with
      | [] => None
      | bs => Some (group_holds condition bs)
      end
  end.

(** A comparison the grammar takes: a field name, a supported operator, scalars. *)
Definition scalar_value (v : pyval) : bool := match v with PList _ | PTuple _ | PDict _ | PObj _ => false | _ => true end.
Definition leaf_ok (key : string) (op : FilterOperator) (v : pyval) : bool :=
  field_ok key
  && match op with
     | EQ | NE | GT | GTE | LT | LTE => scalar_value v
     | IN | NIN => match v with PList (x :: l) => forallb scalar_value (x :: l) | _ => false end
     | IS_EMPTY => true
     | _ => false
     end.

Fixpoint filters_ok (f : MetadataFilters) : bool :=
  match f with
  | Filters parts _ => forallb (λ p, match p with Leaf key op v => leaf_ok key op v | Sub g => filters_ok g end) parts
  end.

(** How deep the translation nests: two levels a group, one for an emptiness test. *)
Fixpoint filters_height (f : MetadataFilters) : Z :=
  match f with
  | Filters parts _ => 2 + fold_right Z.max 0 (map (λ p, match p with Leaf _ _ _ => 1 | Sub g => filters_height g end) parts)
  end.

Definition on_sub (P : MetadataFilters → Prop) (p : filter_part) : Prop :=
  match p with Sub g => P g | Leaf _ _ _ => True end.

Section filters_ind.
Variable P : MetadataFilters → Prop.
Hypothesis Hgroup : ∀ parts condition, Forall (on_sub P) parts → P (Filters parts condition).

Fixpoint filters_deep_ind (f : MetadataFilters) : P f :=
  match f with
  | Filters parts condition =>
      Hgroup parts condition
        ((fix go (l : list filter_part) : Forall (on_sub P) l :=
            match l with
            | [] => List.Forall_nil _
            | p :: l =>
                List.Forall_cons (on_sub P) p l
                  (match p return on_sub P p with Sub g => filters_deep_ind g | Leaf _ _ _ => I end) (go l)
            end) parts)
  end.
End filters_ind.

(** A translated part: a dictionary of one entry that coerces to a node with that meaning. *)
Definition means (depth : Z) (d : pydict) (g : meta → bool) : Prop :=
  d ≠ [] ∧ ∃ n, Predicate.walk sdk_stringify depth (PDict d) = Ok (enc n) ∧ Predicate.wf depth n = true ∧ ∀ m, sat m n = g m.

Lemma walk_single depth k spec v : depth <= MAX_DEPTH → is_blank k = false →
  (if str_in k LOGICAL_OPERATORS then walk_logical (Predicate.walk sdk_stringify (depth + 1)) k spec
   else if startswith "$" k then raise ValueError "" else walk_field sdk_stringify k spec) = Ok v →
  Predicate.walk sdk_stringify depth (PDict [(PStr k, spec)]) = Ok (PDict [(PStr k, v)]).
Proof.
  intros Hd Hb H. rewrite walk_dict by done. cbn [foldR]. unfold walk_entry. cbn [fst snd]. rewrite Hb.
  destruct (str_in k LOGICAL_OPERATORS); [by rewrite H|]. destruct (startswith "$" k); [done|]. by rewrite H.
Qed.

Lemma means_entry depth k spec e g : depth <= MAX_DEPTH → is_blank k = false → entry_key e = k →
  (if str_in k LOGICAL_OPERATORS then walk_logical (Predicate.walk sdk_stringify (depth + 1)) k spec
   else if startswith "$" k then raise ValueError "" else walk_field sdk_stringify k spec) = Ok (enc_spec e) →
  wf_entry depth e = true → (∀ m, sat_entry m e = g m) → means depth [(PStr k, spec)] g.
Proof.
  intros Hd Hb <- Hw Hwf Hg. split; [done|]. exists (FNode [e]). split_and!.
  - by apply walk_single.
  - apply wf_node_intro; [done..|apply NoDup_singleton|by constructor].
  - intros m. cbn [sat forallb]. by rewrite Hg, andb_true_r.
Qed.

Lemma scalar_text field v : scalar_value v = true → scalar sdk_stringify field v = Ok (PStr (text_of v)).
Proof. by destruct v. Qed.
Lemma scalars_text field l : forallb scalar_value l = true → mapR (scalar sdk_stringify field) l = Ok (map PStr (map text_of l)).
Proof.
  induction l as [|v l IH]; [done|]. cbn [forallb mapR map]. intros [Hv Hl]%andb_prop. by rewrite scalar_text, IH.
Qed.

Lemma means_ext depth d g g' : means depth d g → (∀ m, g m = g' m) → means depth d g'.
Proof. intros (Hd & n & Hw & Hwf & Hs) Hg. split; [done|]. exists n. split_and!; [done..|]. intros m. by rewrite Hs. Qed.

Lemma means_nodes depth ds gs : Forall2 (means depth) ds gs → ∃ ns,
  mapR (Predicate.walk sdk_stringify depth) (map PDict ds) = Ok (map enc ns) ∧ forallb (Predicate.wf depth) ns = true ∧
  length ns = length ds ∧ ∀ m, map (sat m) ns = map (λ g, g m) gs.
Proof.
  induction 1 as [|d g ds gs (_ & n & Hw & Hwf & Hs) _ (ns & Hws & Hwfs & Hl & Hss)]; [by exists []|].
  exists (n :: ns). cbn [map mapR forallb length]. rewrite Hw, Hws, Hwf, Hwfs, Hl. split_and!; try done.
  intros m. by rewrite Hs, Hss.
Qed.

Lemma means_list depth op (mk : list fnode → fentry) (agg : list bool → bool) ds gs :
  op = "$and" ∨ op = "$or" → (∀ ns, entry_key (mk ns) = op ∧ enc_spec (mk ns) = PList (map enc ns)) →
  (∀ ns, wf_entry depth (mk ns) = nonempty ns && forallb (Predicate.wf (depth + 1)) ns) →
  (∀ ns m, sat_entry m (mk ns) = agg (map (sat m) ns)) → depth <= MAX_DEPTH → ds ≠ [] →
  Forall2 (means (depth + 1)) ds gs → means depth [(PStr op, PList (map PDict ds))] (λ m, agg (map (λ g, g m) gs)).
Proof.
  intros Hop Hmk Hwf Hsat Hd Hne HF. destruct (means_nodes _ _ _ HF) as (ns & Hw & Hwfs & Hl & Hs).
  apply (means_entry _ _ _ (mk ns)); [done|by destruct Hop as [-> | ->]|apply Hmk| | |].
  - destruct (Hmk ns) as [_ ->]. destruct ds as [|d ds]; [done|]. cbn [map] in *. 
    transitivity (PList <$> mapR (Predicate.walk sdk_stringify (depth + 1)) (PDict d :: map PDict ds)); [|by rewrite Hw].
    destruct Hop as [-> | ->]; reflexivity.
  - rewrite Hwf, Hwfs. destruct ns; [by destruct ds|done].
  - intros m. by rewrite Hsat, Hs.
Qed.

Lemma forallb_map {A} (f : A → bool) l : forallb f l = forallb id (map f l).
Proof. induction l as [|a l IH]; [done|]. cbn. by rewrite IH. Qed.
Lemma existsb_map {A} (f : A → bool) l : existsb f l = existsb id (map f l).
Proof. induction l as [|a l IH]; [done|]. cbn. by rewrite IH. Qed.

Lemma means_and depth ds gs : depth <= MAX_DEPTH → ds ≠ [] → Forall2 (means (depth + 1)) ds gs →
  means depth [(PStr "$and", PList (map PDict ds))] (λ m, forallb id (map (λ g, g m) gs)).
Proof. intros. apply (means_list _ _ FAnd (forallb id)); try done; [by left|]. intros ns m. apply forallb_map. Qed.
Lemma means_or depth ds gs : depth <= MAX_DEPTH → ds ≠ [] → Forall2 (means (depth + 1)) ds gs →
  means depth [(PStr "$or", PList (map PDict ds))] (λ m, existsb id (map (λ g, g m) gs)).
Proof. intros. apply (means_list _ _ FOr (existsb id)); try done; [by right|]. intros ns m. apply existsb_map. Qed.

Lemma means_not depth d g : depth <= MAX_DEPTH → means (depth + 1) d g → means depth [(PStr "$not", PDict d)] (λ m, negb (g m)).
Proof.
  intros Hd (_ & n & Hw & Hwf & Hs). apply (means_entry _ _ _ (FNot n)); [done..| |done|].
  - exact Hw.
  - intros m. cbn [sat_entry]. by rewrite Hs.
Qed.

Lemma means_cond depth key c op v : field_ok key = true → depth <= MAX_DEPTH →
  str_in op COMPARISON_OPERATORS = true → op = cond_key c →
  validate_operand sdk_stringify key op v = Ok (cond_operand c) → cond_ok c = true →
  means depth [(PStr key, PDict [(PStr op, v)])] (λ m, cond_holds (m !! key) c).
Proof.
  intros Hk Hd Hop -> Hval Hc. destruct (field_ok_not_logical key Hk) as (Hl & Hb & Hs).
  apply (means_entry _ _ _ (FField key [c])); [lia|done|done| | |].
  - rewrite Hl, Hs, walk_field_dict. cbn [foldR]. unfold walk_op. cbn [fst snd]. by rewrite Hop, Hval.
  - cbn. by rewrite Hk, Hc.
  - intros m. cbn [sat_entry forallb]. apply andb_true_r.
Qed.

Lemma means_scalar depth key v : field_ok key = true → depth <= MAX_DEPTH → scalar_value v = true →
  means depth [(PStr key, v)] (λ m, bool_decide (m !! key = Some (text_of v))).
Proof.
  intros Hk Hd Hv. destruct (field_ok_not_logical key Hk) as (Hl & Hb & Hs).
  apply (means_entry _ _ _ (FScalar key (text_of v))); [lia|done|done| |done|done]. rewrite Hl, Hs. by destruct v.
Qed.

Lemma means_leaf depth key op v : leaf_ok key op v = true → depth + 1 <= MAX_DEPTH →
  ∃ d, _translate_leaf key op v = Ok d ∧ means depth d (λ m, leaf_holds (m !! key) op v).
Proof.
  intros [Hk Hv]%andb_prop Hd. assert (depth <= MAX_DEPTH) as Hd' by lia.
  destruct op; try done; cbn [_translate_leaf _OP_TO_LODE]; eexists; (split; [reflexivity|]).
  - by apply means_scalar.
  - apply (means_cond _ _ (CNe (text_of v))); try done. by apply scalar_text.
  - apply (means_cond _ _ (COrd OpGt (text_of v))); try done. by apply scalar_text.
  - apply (means_cond _ _ (COrd OpGe (text_of v))); try done. by apply scalar_text.
  - apply (means_cond _ _ (COrd OpLt (text_of v))); try done. by apply scalar_text.
  - apply (means_cond _ _ (COrd OpLe (text_of v))); try done. by apply scalar_text.
  - destruct v as [| | | | |[|y l]| | |]; try done. apply (means_cond _ _ (CIn (map text_of (y :: l)))); try done.
    change (validate_operand sdk_stringify key "$in" (PList (y :: l)))
      with (PTuple <$> mapR (scalar sdk_stringify key) (y :: l)). by rewrite scalars_text.
  - destruct v as [| | | | |[|y l]| | |]; try done.
    eapply means_ext; [apply (means_cond _ _ (CNin (map text_of (y :: l)))); try done|].
    + change (validate_operand sdk_stringify key "$nin" (PList (y :: l)))
        with (PTuple <$> mapR (scalar sdk_stringify key) (y :: l)). by rewrite scalars_text.
    + intros m. cbn [cond_holds leaf_holds texts_of]. by destruct (m !! key).
  - eapply means_ext.
    + apply (means_or _ [[(PStr key, PDict [(PStr "$exists", PBool false)])]; [(PStr key, PStr "")]]); [done..|].
      constructor; [by apply (means_cond _ _ (CExists false))|]. constructor; [by apply means_scalar|constructor].
    + intros m. cbn. destruct (m !! key) as [s|]; [|reflexivity].
      rewrite orb_false_r. apply bool_decide_ext. change (text_of (PStr "")) with "". naive_solver.
Qed.

Lemma means_group depth condition ks gs : ks ≠ [] → depth + 2 <= MAX_DEPTH →
  List.filter (λ d : pydict, match d with [] => false | _ => true end) ks = ks →
  (∀ depth', depth <= depth' <= depth + 2 → Forall2 (means depth') ks gs) →
  means depth (combine_parts condition ks) (λ m, group_holds condition (map (λ g, g m) gs)).
Proof.
  intros Hne Hd Hk HF. unfold combine_parts. rewrite Hk. destruct ks as [|k ks]; [done|].
  assert (∀ depth', depth <= depth' <= depth + 1 → ∀ op agg, (op = "$and" ∧ agg = forallb id) ∨ (op = "$or" ∧ agg = existsb id) →
    means depth' (match ks with [] => k | _ => [(PStr op, PList (map PDict (k :: ks)))] end) (λ m, agg (map (λ g, g m) gs))) as Hjoin.
  { intros depth' Hd' op agg Hop. destruct ks as [|k' ks].
    - specialize (HF depth' ltac:(lia)). inversion HF as [|? g ? ? Hg H0]; subst. inversion H0; subst.
      eapply means_ext; [exact Hg|]. intros m. cbn. destruct Hop as [[_ ->]|[_ ->]]; cbn; [by rewrite andb_true_r|by rewrite orb_false_r].
    - specialize (HF (depth' + 1) ltac:(lia)). destruct Hop as [[-> ->]|[-> ->]]; [apply means_and|apply means_or]; (done || lia). }
  destruct condition as [[]|]; cbn [group_holds].
  - apply Hjoin; [lia|by left].
  - apply Hjoin; [lia|by right].
  - apply means_not; [lia|]. apply Hjoin; [lia|by right].
  - apply Hjoin; [lia|by left].
Qed.

Definition translates (f : MetadataFilters) : Prop := filters_ok f = true → ∃ d, _translate_filters f = Ok d ∧
  ((d = [] ∧ ∀ m, ll_holds m f = None) ∨
   ∃ g, (∀ m, ll_holds m f = Some (g m)) ∧ ∀ depth, depth + filters_height f <= MAX_DEPTH → means depth d g).

Definition translate_part (p : filter_part) : result pydict :=
  match p with Leaf key op value => _translate_leaf key op value | Sub g => _translate_filters g end.
Definition part_holds (m : meta) (p : filter_part) : option bool :=
  match p with Leaf key op v => Some (leaf_holds (m !! key) op v) | Sub g => ll_holds m g end.
Definition part_height (p : filter_part) : Z := match p with Leaf _ _ _ => 1 | Sub g => filters_height g end.
Definition part_ok (p : filter_part) : bool := match p with Leaf key op v => leaf_ok key op v | Sub g => filters_ok g end.

Lemma parts_translate parts : Forall (on_sub translates) parts → forallb part_ok parts = true →
  ∃ ds ks gs, mapR translate_part parts = Ok ds ∧
    List.filter (λ d : pydict, match d with [] => false | _ => true end) ds = ks ∧
    (∀ m, omap (part_holds m) parts = map (λ g, g m) gs) ∧ length ks = length gs ∧
    ∀ depth, depth + fold_right Z.max 0 (map part_height parts) <= MAX_DEPTH → Forall2 (means depth) ks gs.
Proof.
  induction 1 as [|p parts Hp _ IH]; [intros _; by exists [], [], []|]. cbn [forallb]. intros [Hok Hoks]%andb_prop.
  destruct (IH Hoks) as (ds & ks & gs & Hds & Hks & Hgs & Hlen & HF).
  assert (∃ d, translate_part p = Ok d ∧ ((d = [] ∧ ∀ m, part_holds m p = None) ∨
    ∃ g, d ≠ [] ∧ (∀ m, part_holds m p = Some (g m)) ∧ ∀ depth, depth + part_height p <= MAX_DEPTH → means depth d g))
    as (d & Hd & Hcase).
  { destruct p as [key op v|f]; cbn [translate_part part_holds part_height part_ok on_sub] in *.
    - destruct (means_leaf (- 1) key op v Hok ltac:(done)) as (d & Hd & Hne & _). exists d. split; [done|]. right.
      exists (λ m, leaf_holds (m !! key) op v). split; [done|]. split; [done|]. intros depth Hdep.
      destruct (means_leaf depth key op v Hok Hdep) as (d' & Hd' & Hm). by assert (d' = d) as -> by congruence.
    - destruct (Hp Hok) as (d & Hd & [H|(g & Hg & Hm)]); exists d; (split; [done|]); [by left|]. right. exists g.
      split; [|done]. destruct (Hm (- filters_height f) ltac:(unfold MAX_DEPTH; lia)) as [? _]. done. }
  cbn [mapR]. rewrite Hd, Hds. destruct Hcase as [[-> Hn]|(g & Hne & Hg & Hm)].
  - exists ([] :: ds), ks, gs. split; [done|]. split; [done|]. split; [|split; [done|]].
    + intros m. cbn. by rewrite Hn.
    + intros depth Hdep. apply HF. cbn [map fold_right] in Hdep. lia.
  - exists (d :: ds), (d :: ks), (g :: gs). split; [done|]. split; [|split; [|split]].
    + cbn [List.filter]. rewrite Hks. by destruct d.
    + intros m. cbn. by rewrite Hg, Hgs.
    + cbn. by rewrite Hlen.
    + intros depth Hdep. cbn [map fold_right] in Hdep. constructor; [apply Hm; lia|apply HF; lia].
Qed.

Lemma filters_translate f : translates f.
Proof.
  induction f as [parts condition IH] using filters_deep_ind. intros Hok.
  destruct (parts_translate parts IH Hok) as (ds & ks & gs & Hds & Hks & Hgs & Hlen & HF).
  exists (combine_parts condition ds). cbn [_translate_filters]. change (mapR _ parts) with (mapR translate_part parts).
  rewrite Hds. split; [done|]. destruct gs as [|g gs].
  - left. destruct ks; [|done]. unfold combine_parts. rewrite Hks. split; [done|]. intros m. cbn [ll_holds].
    change (omap _ parts) with (omap (part_holds m) parts). by rewrite Hgs.
  - right. exists (λ m, group_holds condition (map (λ g, g m) (g :: gs))). split.
    + intros m. cbn [ll_holds]. change (omap _ parts) with (omap (part_holds m) parts). by rewrite Hgs.
    + intros depth Hdep. cbn [filters_height] in Hdep. change (map _ parts) with (map part_height parts) in Hdep.
      assert (List.filter (λ d : pydict, match d with [] => false | _ => true end) ks = ks) as Hfix.
      { subst ks. clear. induction ds as [|[|kv d] ds IH]; cbn; [done|done|]. by rewrite IH. }
      assert (combine_parts condition ds = combine_parts condition ks) as -> by (unfold combine_parts; by rewrite Hfix, Hks).
      assert (0 <= fold_right Z.max 0 (map part_height parts)) by (clear; induction parts; cbn; lia).
      apply means_group; [by intros ->|lia|done|]. intros depth' Hd'. apply HF. lia.
Qed.

(** The LlamaIndex filters keep their meaning: a filter with valid field names, supported
    operators and scalar values, nested within the grammar's depth, is translated without error;
    either it holds no comparison and translates to no filter, or the translation is coerced by
    the SDK and matches exactly the stored metadata that LlamaIndex's own evaluation accepts. *)
Theorem llama_filters_keep_meaning f : filters_ok f = true → filters_height f <= MAX_DEPTH →
  ∃ d, _translate_filters f = Ok d ∧
    ((d = [] ∧ ∀ m, ll_holds m f = None) ∨
     ∃ v, coerce_sdk_filter (PDict d) = Ok v ∧
       ∀ m, ∃ b, ll_holds m f = Some b ∧ matches_metadata_filter m v = Ok b).
Proof.
  intros Hok Hh. destruct (filters_translate f Hok) as (d & Hd & [H|(g & Hg & Hm)]); exists d; (split; [done|]); [by left|].
  right. destruct (Hm 0 ltac:(lia)) as (_ & n & Hw & Hwf & Hs). exists (enc n). split; [exact Hw|]. intros m. exists (g m).
  split; [done|]. destruct (compile_enc n 0 Hwf) as (p & Hp & Hc). unfold matches_metadata_filter. rewrite Hp.
  rewrite <-Hs. apply Hc.
Qed.

Definition demo_filters : MetadataFilters :=
  Filters [Leaf "topic" EQ (PStr "tea"); Sub (Filters [Leaf "year" GTE (PInt 2020); Leaf "draft" IS_EMPTY PNone] (Some NOT)); Sub (Filters [] None)]
    (Some OR).

Lemma llama_filters_keep_meaning_witness : ∃ d, _translate_filters demo_filters = Ok d ∧
    ((d = [] ∧ ∀ m, ll_holds m demo_filters = None) ∨
     ∃ v, coerce_sdk_filter (PDict d) = Ok v ∧
       ∀ m, ∃ b, ll_holds m demo_filters = Some b ∧ matches_metadata_filter m v = Ok b).
Proof. apply (llama_filters_keep_meaning demo_filters); [reflexivity|done]. Defined.
