(* ===== verification/DirTree.v ===== *)
(** * Directory trees

    What the standard library does to whole directories ([shutil.rmtree], [Path.rename],
    [shutil.move]) on the file system of [FileSys.v], with the lemmas that locate its effect. A
    path is the list of its components, the last one first, so what is below a directory are the
    paths it is a suffix of. *)

From Stdlib Require Import Ascii String ZArith Lia.
From stdpp Require Import base strings gmap sets list.
From S2P Require Import Prelude Numbers PyVal Bytes FileSys EngineCore LocalOpen.

(** ** Operations *)

Definition below (d p : path) : bool := bool_decide (d `suffix_of` p).

(** [shutil.rmtree(d)] removes the files one by one, then the directories; on anything but a
    directory it raises, which [ignore_errors] drops. *)
Definition without (ps : list path) (s : fsys) : fsys := fold_left (λ s p, drop_file p s) ps s.
Definition prune (d : path) (s : fsys) : fsys :=
  FSys (filter (λ kv, below d kv.1 = false) (files s)) (filter (λ p, below d p = false) (dirs s)).
Definition rmtree (d : path) (ignore_errors : bool) : io unit := λ s,
  if dir_exists s d then
    let ps := List.filter (below d) (map fst (map_to_list (files s))) in
    Out (map (λ k, without (take k ps) s) (seq 1 (length ps)) ++ [prune d s]) (prune d s) (Ok tt)
  else if ignore_errors then Out [] s (Ok tt)
  else Out [] s (raise OSError "[Errno 20] Not a directory").

(** [p] below [src] as a path below [dst]. *)
Definition reroot (src dst p : path) : path := take (length p - length src) p ++ dst.

(** The file system after the directory [src] became [dst]. *)
Definition move_tree (src dst : path) (s : fsys) : fsys :=
  FSys (list_to_map (map (λ kv, (reroot src dst kv.1, kv.2)) (List.filter (λ kv, below src kv.1) (map_to_list (files s))))
          ∪ filter (λ kv, below src kv.1 = false) (files s))
       (set_map (reroot src dst) (filter (λ p, below src p = true) (dirs s)) ∪ filter (λ p, below src p = false) (dirs s)).

(** Something strictly below a directory. *)
Definition occupied (d : path) (s : fsys) : bool :=
  existsb (λ p, below d p && negb (bool_decide (p = d))) (map fst (map_to_list (files s)) ++ elements (dirs s)).

(** [src.rename(dst)]: a directory replaces nothing or an empty directory, in one step. *)
Definition os_rename (src dst : path) : io unit := λ s,
  if negb (dir_exists s (parent dst)) then no_such_file dst s
  else if bool_decide (src ∈ dirs s) then
    if bool_decide (is_Some (files s !! dst)) then Out [] s (raise OSError "[Errno 20] Not a directory")
    else if occupied dst s then Out [] s (raise OSError "[Errno 39] Directory not empty")
    else if below src dst then Out [] s (raise OSError "[Errno 22] Invalid argument")
    else step (move_tree src dst s)
  else match files s !! src with
       | Some f => if dir_exists s dst then Out [] s (raise OSError "[Errno 21] Is a directory")
                   else step (put dst f (drop_file src s))
       | None => no_such_file src s
       end.

(** [shutil.move(src, dst)]: into [dst] when that is a directory. The copy it falls back to when
    the rename fails is for other devices and is not modelled: the rename's error stands. *)
Definition shutil_move (src dst : path) : io unit :=
  into ← is_dir dst;
  let real_dst := if (into : bool) then pname src :: dst else dst in
  taken ← path_exists real_dst;
  if into && taken then fail OSError "Destination path already exists" else os_rename src real_dst.

(** [try: a except OSError: b]. *)
Definition or_os_error (a b : io unit) : io unit := λ s,
  let o := a s in
  match value o with
  | Err e => if is_os_error e then let o' := b (final o) in Out (trace o ++ trace o') (final o') (value o') else o
  | Ok _ => o
  end.

(** ** What they leave alone *)

(** The content of a directory, by the path from it. *)
Definition tree (d : path) (s : fsys) (k : path) : option file := files s !! (k ++ d).

(** [t] differs from [s] only below [d], and in the directories above it. *)
Definition only_below (d : path) (s t : fsys) : Prop := ∀ p, below d p = false →
  files t !! p = files s !! p ∧ (below p d = false → p ∈ dirs t ↔ p ∈ dirs s).

(** The directory [d] is the same in [s] and [t]. *)
Definition same_at (d : path) (s t : fsys) : Prop := ∀ p, below d p = true →
  files t !! p = files s !! p ∧ (p ∈ dirs t ↔ p ∈ dirs s).

Lemma below_spec d p : below d p = true ↔ ∃ k, p = k ++ d.
Proof. unfold below. rewrite bool_decide_eq_true. done. Qed.
Lemma below_app d k : below d (k ++ d) = true.
Proof. apply below_spec. by exists k. Qed.

(** Siblings do not nest. *)
Lemma sibling_below n n' q k : n ≠ n' → below (n :: q) (k ++ n' :: q) = false.
Proof.
  intros Hne. apply not_true_is_false. intros (k' & H)%below_spec.
  replace (k ++ n' :: q) with ((k ++ [n']) ++ q) in H by (by rewrite <-(assoc_L (++))).
  replace (k' ++ n :: q) with ((k' ++ [n]) ++ q) in H by (by rewrite <-(assoc_L (++))).
  apply app_inv_tail, app_inj_tail in H as [_ ?]. done.
Qed.

(** What is below a directory is not above its sibling. *)
Lemma sibling_above n n' q p : n ≠ n' → below (n' :: q) p = true → below p (n :: q) = false.
Proof.
  intros Hne [k ->]%below_spec. apply not_true_is_false. intros (k' & H)%below_spec.
  pose proof (f_equal length H) as Hl. rewrite length_app, length_app in Hl. cbn in Hl.
  destruct k' as [|? k']; [|cbn in Hl; lia]. destruct k as [|? k]; [|cbn in Hl; lia]. cbn in H. congruence.
Qed.

Lemma only_below_refl d s : only_below d s s.
Proof. done. Qed.
Lemma only_below_trans d s t u : only_below d s t → only_below d t u → only_below d s u.
Proof.
  intros H1 H2 p Hp. destruct (H1 p Hp) as [F1 D1], (H2 p Hp) as [F2 D2]. split; [by rewrite F2|].
  intros Ha. by rewrite (D2 Ha), (D1 Ha).
Qed.
Lemma same_at_refl d s : same_at d s s.
Proof. done. Qed.
Lemma same_at_trans d s t u : same_at d s t → same_at d t u → same_at d s u.
Proof. intros H1 H2 p Hp. destruct (H1 p Hp) as [F1 D1], (H2 p Hp) as [F2 D2]. by rewrite F2, D2. Qed.
Lemma same_at_tree d s t k : same_at d s t → tree d t k = tree d s k.
Proof. intros H. apply H, below_app. Qed.

(** A change below one directory leaves its siblings alone. *)
Lemma only_below_same n n' q s t : n ≠ n' → only_below (n :: q) s t → same_at (n' :: q) s t.
Proof.
  intros Hne H p Hp. assert (below (n :: q) p = false) as Hb.
  { apply below_spec in Hp as [k ->]. by apply sibling_below. }
  destruct (H p Hb) as [F D]. split; [done|]. by eapply D, sibling_above.
Qed.

(** A change below a directory is one below any directory above that. *)
Lemma only_below_mono d d' s t : below d d' = true → only_below d' s t → only_below d s t.
Proof.
  intros [k Hk]%below_spec H p Hp. assert (below d' p = false) as Hp'.
  { apply not_true_is_false. intros [k' ->]%below_spec. rewrite Hk, (assoc_L (++)), below_app in Hp. done. }
  destruct (H p Hp') as [F D]. split; [done|]. intros Ha. apply D. apply not_true_is_false. intros Hs.
  unfold below in Hs, Ha, Hp. rewrite bool_decide_eq_true in Hs. rewrite bool_decide_eq_false in Ha, Hp.
  assert (d `suffix_of` d') as Hd by (by exists k). destruct (suffix_weak_total _ _ _ Hd Hs) as [?|?]; auto.
Qed.

Lemma without_files ps s p : files (without ps s) !! p = if decide (p ∈ ps) then None else files s !! p.
Proof.
  unfold without. revert s. induction ps as [|q ps IH]; intros s; cbn [fold_left].
  { by rewrite decide_False by apply not_elem_of_nil. }
  rewrite IH. case_decide as H1; [by rewrite decide_True by (by right)|]. cbn.
  destruct (decide (p = q)) as [->|Hne]; [by rewrite lookup_delete_eq, decide_True by (by left)|].
  rewrite lookup_delete_ne by done. rewrite decide_False; [done|]. by intros [?|?]%elem_of_cons.
Qed.

Lemma without_dirs ps s : dirs (without ps s) = dirs s.
Proof. unfold without. revert s. induction ps as [|q ps IH]; intros s; cbn [fold_left]; [done|]. by rewrite IH. Qed.

Lemma prune_only_below d s : only_below d s (prune d s).
Proof.
  intros p H. cbn. split.
  - apply option_eq. intros f. rewrite map_lookup_filter_Some. naive_solver.
  - intros _. rewrite elem_of_filter. naive_solver.
Qed.
Lemma without_only_below d ps s : Forall (λ p, below d p = true) ps → only_below d s (without ps s).
Proof.
  intros Hps p H. split; [|by rewrite without_dirs]. rewrite without_files. rewrite decide_False; [done|].
  intros Hin. rewrite Forall_forall in Hps. apply Hps in Hin. congruence.
Qed.

Lemma rmtree_runs d b s : runs (only_below d s) (rmtree d b) s (λ r t, only_below d s t ∧
  (r = Ok tt ∧ (dir_exists s d = true → ∀ k, tree d t k = None) ∨ b = false ∧ dir_exists s d = false)).
Proof.
  unfold rmtree, runs. destruct (dir_exists s d) eqn:Ed; [|destruct b; (split; [constructor|]; split; [done|]); [by left|by right]].
  pose proof (prune_only_below d s) as Hp. cbn [trace value final]. split.
  - apply Forall_app. split; [|constructor; [exact Hp|constructor]]. apply Forall_forall. intros t (k & -> & _)%list_elem_of_fmap.
    apply without_only_below, Forall_take, Forall_forall. intros p Hin.
    by apply list_elem_of_In, filter_In in Hin as [_ Hin].
  - split; [done|]. left. split; [done|]. intros _ k. unfold tree. cbn. apply map_lookup_filter_None. right.
    intros f _. cbn. by rewrite below_app.
Qed.

Lemma path_exists_run p s : path_exists p s = Out [] s (Ok (bool_decide (is_Some (files s !! p)) || dir_exists s p)).
Proof. reflexivity. Qed.

(** The directories above stay. *)
Lemma rmtree_keeps d b s p : below d p = false → dir_exists s p = true → dir_exists (final (rmtree d b s)) p = true.
Proof.
  intros Hb. unfold rmtree. destruct (dir_exists s d), b; try done; cbn [final]; unfold dir_exists; rewrite !bool_decide_eq_true;
    (intros [?|Hp]; [by left|right; cbn; by apply elem_of_filter]).
Qed.

Lemma reroot_app src dst k : reroot src dst (k ++ src) = k ++ dst.
Proof. unfold reroot. rewrite length_app. replace (length k + length src - length src) with (length k) by lia. by rewrite take_app_length. Qed.

(** Where the files of a moved directory are found, when nothing was at the destination. *)
Lemma move_tree_spec src dst s : (∀ k, tree dst s k = None) → (∀ p, below src p = true → below dst p = false) →
  (∀ k, tree dst (move_tree src dst s) k = tree src s k) ∧
  (∀ p, below src p = true → files (move_tree src dst s) !! p = None) ∧
  (∀ p, below src p = false → below dst p = false → files (move_tree src dst s) !! p = files s !! p).
Proof.
  intros Hfree Hdis.
  set (l := map (λ kv, (reroot src dst kv.1, kv.2)) (List.filter (λ kv, below src kv.1) (map_to_list (files s)))).
  assert (∀ p f, (p, f) ∈ l ↔ ∃ k, p = k ++ dst ∧ files s !! (k ++ src) = Some f) as Hl.
  { intros p f. unfold l. rewrite list_elem_of_In, in_map_iff. split.
    - intros ([q g] & [= <- <-] & [Hin Hb]%filter_In). cbn [fst snd] in *. apply list_elem_of_In, elem_of_map_to_list in Hin.
      apply below_spec in Hb as [k ->]. exists k. by rewrite reroot_app.
    - intros (k & -> & Hf). exists (k ++ src, f). cbn [fst snd]. rewrite reroot_app. split; [done|].
      apply filter_In. split; [by apply list_elem_of_In, elem_of_map_to_list|apply below_app]. }
  assert (∀ p, (list_to_map l : gmap path file) !! p = if below dst p then files s !! reroot dst src p else None) as Hlm.
  { intros p. destruct (below dst p) eqn:Hb.
    - apply below_spec in Hb as [k ->]. rewrite reroot_app. apply option_eq. intros f. split.
      + intros (k' & H & Hf)%elem_of_list_to_map_2%Hl. by apply app_inv_tail in H as ->.
      + intros Hf. apply elem_of_list_to_map_1'; [|apply Hl; by exists k].
        intros g (k' & H & Hg)%Hl. apply app_inv_tail in H as ->. congruence.
    - apply not_elem_of_list_to_map_1. intros ([q f] & -> & (k & Hk & _)%Hl)%list_elem_of_fmap. cbn in *. subst q.
      by rewrite below_app in Hb. }
  assert (∀ p, files (move_tree src dst s) !! p = if below dst p then files s !! reroot dst src p
    else if below src p then None else files s !! p) as Hall.
  { intros p. unfold move_tree. cbn [files]. fold l. destruct (below dst p) eqn:Hb.
    - destruct (files s !! reroot dst src p) as [f|] eqn:Ef.
      + apply lookup_union_Some_l. by rewrite Hlm, Hb.
      + rewrite lookup_union_r by (by rewrite Hlm, Hb). apply map_lookup_filter_None. left. apply below_spec in Hb as [k ->]. apply Hfree.
    - rewrite lookup_union_r by (by rewrite Hlm, Hb). destruct (below src p) eqn:Hs.
      + apply map_lookup_filter_None. right. intros f _. cbn. by rewrite Hs.
      + apply option_eq. intros f. rewrite map_lookup_filter_Some. cbn. naive_solver. }
  split_and!.
  - intros k. unfold tree. by rewrite Hall, below_app, reroot_app.
  - intros p Hs. by rewrite Hall, (Hdis p Hs), Hs.
  - intros p Hs Hd. by rewrite Hall, Hd, Hs.
Qed.

Lemma move_tree_dirs src dst s : (∀ p, below src p = true → below dst p = false) →
  (∀ p, below src p = true → p ∉ dirs (move_tree src dst s)) ∧
  (∀ p, below src p = false → below dst p = false → p ∈ dirs (move_tree src dst s) ↔ p ∈ dirs s) ∧
  (src ∈ dirs s → dst ∈ dirs (move_tree src dst s)).
Proof.
  intros Hdis. assert (∀ p, p ∈ dirs (move_tree src dst s) ↔
    (∃ k, p = k ++ dst ∧ k ++ src ∈ dirs s) ∨ below src p = false ∧ p ∈ dirs s) as Hall.
  { intros p. cbn [move_tree dirs]. rewrite elem_of_union, elem_of_map, elem_of_filter. apply or_iff_compat_r. split.
    - intros (q & -> & [[k ->]%below_spec Hq]%elem_of_filter). exists k. by rewrite reroot_app.
    - intros (k & -> & Hk). exists (k ++ src). rewrite reroot_app, elem_of_filter, below_app. done. }
  split_and!.
  - intros p Hs [(k & -> & _)|[Hn _]]%Hall; [|congruence]. apply Hdis in Hs. by rewrite below_app in Hs.
  - intros p Hs Hd. rewrite Hall. split; [|naive_solver]. intros [(k & -> & _)|[_ ?]]; [|done]. by rewrite below_app in Hd.
  - intros Hs. apply Hall. left. by exists [].
Qed.

Lemma unoccupied_tree d s : occupied d s = false → files s !! d = None → ∀ k, tree d s k = None.
Proof.
  intros Ho Hf k. unfold tree. destruct (files s !! (k ++ d)) as [f|] eqn:E; [|done]. exfalso.
  apply not_true_iff_false in Ho. apply Ho. unfold occupied. apply existsb_exists. exists (k ++ d). split.
  - apply in_or_app. left. apply in_map_iff. exists (k ++ d, f). split; [done|]. by apply list_elem_of_In, elem_of_map_to_list.
  - rewrite below_app. cbn. apply negb_true_iff, bool_decide_eq_false. intros H. rewrite H in E. congruence.
Qed.

Lemma occupied_spec d s : occupied d s = true ↔ ∃ p, below d p = true ∧ p ≠ d ∧ (is_Some (files s !! p) ∨ p ∈ dirs s).
Proof.
  unfold occupied. rewrite existsb_exists. split.
  - intros (p & Hin & [Hb Hne]%andb_prop). exists p. apply negb_true_iff, bool_decide_eq_false in Hne. split_and!; [done..|].
    apply list_elem_of_In, elem_of_app in Hin as [Hin|Hin]; [left|right; by apply elem_of_elements].
    apply list_elem_of_fmap in Hin as ([q f] & -> & Hq). apply elem_of_map_to_list in Hq. by exists f.
  - intros (p & Hb & Hne & Hin). exists p. split; [|by rewrite Hb, bool_decide_eq_false_2].
    apply list_elem_of_In, elem_of_app. destruct Hin as [[f Hf]|Hin]; [left|right; by apply elem_of_elements].
    apply list_elem_of_fmap. exists (p, f). split; [done|by apply elem_of_map_to_list].
Qed.

Lemma occupied_same d s t : same_at d s t → occupied d t = occupied d s.
Proof.
  intros H. apply eq_true_iff_eq. rewrite !occupied_spec. split; intros (p & Hb & Hne & Hin); exists p; destruct (H p Hb) as [F D];
    (split_and!; [done..|]); [rewrite <-F, <-D|rewrite F, D]; done.
Qed.

(** A program that changes nothing outside a directory. *)
Definition confined {A} (d : path) (m : io A) : Prop :=
  ∀ s, runs (only_below d s) m s (λ _ t, only_below d s t).

Create HintDb confined.

Lemma confined_pure {A} d (m : io A) : pure_io m → confined d m.
Proof. intros H s. unfold runs. rewrite (pure_run m s H). by split; [constructor|]. Qed.

Lemma confined_attempt {A} d (m : io A) : confined d m → confined d (attempt m).
Proof. intros Hm s. exact (Hm s). Qed.

Lemma confined_bind {A B} d (m : io A) (k : A → io B) : confined d m → (∀ a, confined d (k a)) → confined d (m ≫= k).
Proof.
  intros Hm Hk s. eapply runs_bind; [apply Hm| |done].
  intros a s' H. eapply runs_weaken; [apply Hk|intros t Ht; exact (only_below_trans _ _ _ _ H Ht)|intros r t Ht; exact (only_below_trans _ _ _ _ H Ht)].
Qed.

(** The same, with what the value satisfies. *)
Definition confined_post {A} (d : path) (m : io A) (P : A → Prop) : Prop :=
  confined d m ∧ ∀ s a, value (m s) = Ok a → P a.

Lemma confined_bind_post {A B} d (m : io A) (k : A → io B) P : confined_post d m P → (∀ a, P a → confined d (k a)) →
  confined d (m ≫= k).
Proof.
  intros [Hm HP] Hk s. eapply (runs_bind _ _ _ _ _ (λ r t, only_below d s t ∧ ∀ a, r = Ok a → P a)); [| |by intros e t [? _]].
  - destruct (Hm s) as [C Q]. split; [done|]. split; [done|apply HP].
  - intros a s' [H HPa]. eapply runs_weaken; [apply Hk, HPa; done|intros t Ht; exact (only_below_trans _ _ _ _ H Ht)|
      intros r t Ht; exact (only_below_trans _ _ _ _ H Ht)].
Qed.

Lemma confined_post_bind {A B} d (m : io A) (k : A → io B) P Q : confined_post d m P → (∀ a, P a → confined_post d (k a) Q) →
  confined_post d (m ≫= k) Q.
Proof.
  intros Hm Hk. split; [eapply confined_bind_post; [exact Hm|]; intros a Ha; by apply Hk|].
  intros s b. unfold mbind, io_bind. destruct (value (m s)) as [a|e] eqn:Ev; [|done]. cbn. intros Hb.
  destruct (Hk a) as [_ HQ]; [by eapply Hm|]. by eapply HQ.
Qed.

Lemma confined_post_ret {A} d (a : A) (P : A → Prop) : P a → confined_post d (mret a) P.
Proof. intros HP. split; [apply confined_pure, pure_ret|]. by intros s b [= <-]. Qed.

Lemma confined_post_foldIO {A S} d (f : S → A → io S) l (P : S → Prop) : (∀ x a, P x → confined_post d (f x a) P) →
  ∀ x, P x → confined_post d (foldIO f x l) P.
Proof. intros Hf. induction l as [|a l IH]; intros x Hx; cbn; [by apply confined_post_ret|]. eapply confined_post_bind; eauto. Qed.

Lemma confined_mono {A} d d' (m : io A) : below d d' = true → confined d' m → confined d m.
Proof. intros Hd Hm s. eapply runs_weaken; [apply Hm| |]; intros; eapply only_below_mono; eassumption. Qed.

Lemma confined_rmtree d b : confined d (rmtree d b).
Proof. intros s. eapply runs_weaken; [apply rmtree_runs|done|]. by intros r t [? _]. Qed.

Lemma ancestors_above p d : p ∈ ancestors d → below p d = true.
Proof.
  induction d as [|n d IH]; cbn; [set_solver|]. intros [->%elem_of_singleton|H]%elem_of_union.
  - apply below_spec. by exists [].
  - apply IH, below_spec in H as [k ->]. apply below_spec. by exists (n :: k).
Qed.
Lemma confined_mkdir d d' : below d' d = true → confined d (mkdir_p d').
Proof.
  intros Hd s. unfold runs, mkdir_p. destruct (dir_exists s d'); [by split; [constructor|]|].
  assert (only_below d s (FSys (files s) (ancestors d' ∪ dirs s))) as H; [|by split; [constructor; [|constructor]|]].
  intros p Hp. split; [done|]. intros Ha. cbn. split; [|set_solver]. intros [Hin|?]%elem_of_union; [|done]. exfalso.
  apply ancestors_above, below_spec in Hin as [k ->]. apply below_spec in Hd as [k' ->].
  rewrite (assoc_L (++)), below_app in Ha. done.
Qed.
#[export] Hint Resolve pure_ret pure_lift pure_path_exists : confined.
#[export] Hint Resolve confined_pure confined_rmtree : confined.
