(* ===== verification/Collection.v ===== *)
(** * Collections of spaces

    [local/collection.py]: a directory of sibling databases ("spaces") and the manifest that records
    how each one was created. Opening a space is the interface [SpaceHost], which the constructor of
    [LocalInit.v] has; the lock on the root is [FileLock.v], whose wait ends as the other processes
    let it; the name of a temporary file is the answer of [mkstemp]. *)

From Stdlib Require Import Ascii String ZArith Lia SpecFloat.
From stdpp Require Import base strings gmap sets list.
From S2P Require Import Prelude Numbers PyVal Bytes Json FileSys FileLock LocalOpen LocalDb LocalInit DirTree.

Local Open Scope Z_scope.

(** ** Equality of values *)

Definition float_is (f : spec_float) (z : Z) : bool :=
  match f with
  | S754_zero _ => z =? 0
  | S754_finite s m e =>
      let v := if s then Z.neg m else Z.pos m in
      if 0 <=? e then z =? v * 2 ^ e else z * 2 ^ (- e) =? v
  | _ => false
  end.

(** [v == w] for the values a configuration holds: scalars, numbers of different classes included,
    and lists of them. *)
Fixpoint py_eq (v w : pyval) : bool :=
  match v, w with
  | PNone, PNone => true
  | PStr a, PStr b => bool_decide (a = b)
  | PFloat f, PFloat g => feqb f g
  | PFloat f, PInt z | PInt z, PFloat f => float_is f z
  | PFloat f, PBool b | PBool b, PFloat f => float_is f (Z.b2z b)
  | PInt a, PInt b => a =? b
  | PBool a, PInt b | PInt b, PBool a => b =? Z.b2z a
  | PBool a, PBool b => eqb a b
  | PList l, PList l' | PTuple l, PTuple l' =>
      (fix go (l l' : list pyval) := match l, l' with
        | [], [] => true
        | x :: l, y :: l' => py_eq x y && go l l'
        | _, _ => false end) l l'
  | _, _ => false
  end.

(** ** Names and arguments *)

Definition _MANIFEST_NAME : string := "collection.json".
Definition _MANIFEST_VERSION : Z := 1.

Definition alnum (c : ascii) : bool := in_range 48 57 c || in_range 65 90 c || in_range 97 122 c.
Definition name_char (c : ascii) : bool := alnum c || bool_decide (c = "_"%char) || bool_decide (c = "-"%char).

(** [^[A-Za-z0-9][A-Za-z0-9_-]*$]: [$] also matches before a final line break. *)
Definition name_chars (l : list ascii) : bool :=
  match l with c :: l => alnum c && forallb name_char l | [] => false end.
Definition _SPACE_NAME_RE (s : string) : bool :=
  let l := chars s in
  name_chars l || match reverse l with c :: r => bool_decide (c = newline) && name_chars (reverse r) | [] => false end.

Definition _validate_name (name : pyval) : result string :=
  let bad := raise ValueError ("space name must match [A-Za-z0-9][A-Za-z0-9_-]* "
    +:+ "(letters, digits, '-', '_'; no path separators); got " +:+ py_repr name) in
  match name with PStr s => if _SPACE_NAME_RE s then Ok s else bad | _ => bad end.

(** The arguments of [space]; [None] is [_UNSET]. *)
Record space_request := SpaceRequest
  { sq_model : option pyval; sq_vector_dim : option pyval; sq_bit_width : option pyval; sq_embedder : option embedder;
    sq_store_text : option pyval; sq_index_text : option pyval }.

(** The keyword arguments a space is opened with. *)
Record space_kwargs := SpaceKw
  { sk_model : option pyval; sk_vector_dim : option pyval; sk_embedder : option embedder; sk_bit_width : option pyval;
    sk_store_text : pyval; sk_index_text : pyval }.

Definition _privacy_flags (store_text index_text : option pyval) : bool * bool :=
  let store := match store_text with None => true | Some v => truthy v end in
  (store, match index_text with None => store | Some v => truthy v end).

(** [vector_dim is not _UNSET and vector_dim is not None]. *)
Definition given_dim (v : option pyval) : option pyval := match v with Some PNone | None => None | Some d => Some d end.

Definition config_of (entries : list (string * pyval)) (bw : Z) (flags : bool * bool) : pydict :=
  map (λ kv, (PStr kv.1, kv.2)) (entries ++ [("bit_width", PInt bw); ("store_text", PBool flags.1); ("index_text", PBool flags.2)]).

Definition _new_space (q : space_request) : result (space_kwargs * pydict) :=
  explicit ← (match sq_bit_width q with None => Ok None | Some v => b ← py_int v; Ok (Some b) end);
  if match explicit with Some b => negb ((b =? 2) || (b =? 4)) | None => false end
  then raise ValueError ("bit_width must be 2 or 4, got " +:+ py_repr (default PNone (sq_bit_width q)))
  else
    let privacy := _privacy_flags (sq_store_text q) (sq_index_text q) in
    let kw model dim e bw := SpaceKw model dim e bw (PBool privacy.1) (PBool privacy.2) in
    let bw := default 4 explicit in
    match sq_embedder q with
    | Some e =>
        match em_model_name e with
        | Some (String _ _ as identity) =>
            Ok (kw None None (Some e) (Some (PInt bw)),
                config_of [("kind", PStr "custom"); ("model_identity", PStr identity)] bw privacy)
        | _ => raise ValueError ("embedder used as a collection space must declare a non-empty "
                 +:+ "required_model_name (recorded as the space's identity)")
        end
    | None =>
        match given_dim (sq_vector_dim q) with
        | Some dim =>
            Ok (kw None (Some dim) None (Some (PInt bw)), config_of [("kind", PStr "vector"); ("vector_dim", dim)] bw privacy)
        | None =>
            let model := default (PStr "minilm") (sq_model q) in
            p ← resolve_preset model;
            effective ← turbovec_bit_width p;
            if match explicit with Some b => negb (b =? effective) | None => false end
            then raise ValueError ("model " +:+ py_repr model +:+ " is a " +:+ Z_str effective +:+ "-bit preset; "
                   +:+ "bit_width is fixed by the preset")
            else Ok (kw (Some model) None None None,
                     config_of [("kind", PStr "preset"); ("model", model)] effective privacy)
        end
    end.

Section reopening.
Variables (name : string) (recorded : pydict).

Definition field (k : string) (default : pyval) : pyval := match dict_get k recorded with Some v => v | None => default end.

Definition conflict (key : string) (recorded_value requested : pyval) : result unit :=
  raise ValueError ("space " +:+ str_repr name +:+ " was created with " +:+ key +:+ "=" +:+ py_repr recorded_value
    +:+ "; reopen requested " +:+ key +:+ "=" +:+ py_repr requested).

Definition _check_flag (key : string) (value : option pyval) (default : bool) : result unit :=
  match value with
  | None => Ok tt
  | Some v => if py_eq (PBool (truthy v)) (field key (PBool default)) then Ok tt
              else conflict key (field key (PBool default)) (PBool (truthy v))
  end.

(** [if bit_width is not _UNSET and int(bit_width) != recorded["bit_width"]: raise]. *)
Definition check_width (v : option pyval) : result unit :=
  match v with
  | None => Ok tt
  | Some v =>
      b ← py_int v;
      w ← py_index (PDict recorded) "bit_width";
      if py_eq (PInt b) w then Ok tt else conflict "bit_width" w (PInt b)
  end.

(** [if value is not _UNSET and value != recorded[key]: raise]. *)
Definition check_same (key : string) (v : option pyval) : result unit :=
  match v with
  | None => Ok tt
  | Some v => w ← py_index (PDict recorded) key; if py_eq v w then Ok tt else conflict key w v
  end.

Definition space_is (what : string) : result unit := raise ValueError ("space " +:+ str_repr name +:+ " is a " +:+ what).

Definition _reopen_space (q : space_request) : result space_kwargs :=
  let kind := field "kind" (PStr "preset") in
  _ ← check_width (sq_bit_width q);
  _ ← _check_flag "store_text" (sq_store_text q) true;
  _ ← _check_flag "index_text" (sq_index_text q) false;
  let kw model dim e bw := SpaceKw model dim e bw (field "store_text" (PBool true)) (field "index_text" (PBool false)) in
  if py_eq kind (PStr "custom") then
    match sq_embedder q with
    | None => raise ValueError ("space " +:+ str_repr name +:+ " is a custom-embedder space (identity "
                +:+ py_repr (field "model_identity" PNone) +:+ "); reopen it with a matching embedder=")
    | Some e =>
        _ ← (if given (sq_model q) || given (given_dim (sq_vector_dim q))
             then space_is "custom-embedder space; pass embedder=, not model/vector_dim" else Ok tt);
        w ← py_index (PDict recorded) "bit_width";
        Ok (kw None None (Some e) (Some w))
    end
  else
    _ ← (if given (sq_embedder q) then space_is (py_str kind +:+ " space, not custom; do not pass embedder=") else Ok tt);
    if py_eq kind (PStr "vector") then
      _ ← check_same "vector_dim" (sq_vector_dim q);
      _ ← (if given (sq_model q) then space_is "vector-only space; do not pass model=" else Ok tt);
      d ← py_index (PDict recorded) "vector_dim";
      w ← py_index (PDict recorded) "bit_width";
      Ok (kw None (Some d) None (Some w))
    else
      _ ← check_same "model" (sq_model q);
      _ ← (if given (given_dim (sq_vector_dim q)) then space_is "preset space; do not pass vector_dim=" else Ok tt);
      m ← py_index (PDict recorded) "model";
      Ok (kw (Some m) None None None).
End reopening.

(** ** The manifest *)

Notation registry := (list (string * pydict)).

Definition manifest_path (d : path) : path := _MANIFEST_NAME :: d.

Definition manifest_payload (spaces : registry) : pyval :=
  dict_of [("version", PInt _MANIFEST_VERSION); ("spaces", dict_of (map (λ kc, (kc.1, PDict kc.2)) spaces))].

Definition corrupt (d : path) (what : string) : string :=
  "corrupt collection manifest" +:+ what +:+ ": " +:+ str_join "/" (reverse (manifest_path d)).

(** The registry in a parsed manifest; a payload that is no object is an empty one. *)
Definition registry_of (d : path) (payload : pyval) : result registry :=
  spaces ← (match payload with PDict _ => py_get payload "spaces" (PDict []) | _ => Ok (PDict []) end);
  match spaces with
  | PDict entries => foldR (λ acc kv, config ← py_dict kv.2; Ok (put_item (py_str kv.1) config acc)) [] entries
  | _ => raise ValueError (corrupt d " (spaces)")
  end.

Definition _load_manifest (d : path) : io registry :=
  found ← is_file (manifest_path d);
  if negb found then mret []
  else
    r ← attempt (text ← read_text (manifest_path d); lift (loads text));
    match r with
    | Ok payload => lift (registry_of d payload)
    | Err e => if is_os_error e || is_value_error e then fail ValueError (corrupt d "") else lift (Err e)
    end.

(** The temporary name [mkstemp] finds, and how the wait for the lock ends. *)
Class TempNames := temp_name : fsys → string.
Class LockWait := lock_wait : path → spec_float → fsys → result unit.

(** [LodeDB(path=..., read_only=..., **kwargs)] and [close]. *)
Class SpaceHost (H : Type) := { open_space : path → init_args → io H; close_space : H → io unit }.

Record collection (H : Type) := Collection
  { co_path : path; co_read_only : bool; co_durability : option string; co_fsync : bool;
    co_spaces : registry; co_open : list (string * H) }.
Arguments Collection {H} _ _ _ _ _ _.
Arguments co_path {H} _.
Arguments co_read_only {H} _.
Arguments co_durability {H} _.
Arguments co_fsync {H} _.
Arguments co_spaces {H} _.
Arguments co_open {H} _.

(** Other keyword arguments of [space], over the defaults; [durability] may be left out. *)
Record extra_kwargs := Extra { ex_args : init_args; ex_durability : option (option string) }.
Definition no_extras : extra_kwargs := Extra default_args None.

Section collection.
Context {H : Type} {SH : SpaceHost H} {TN : TempNames} {LW : LockWait}.
Variable environ : gmap string string.

Definition with_spaces (r : registry) (c : collection H) : collection H :=
  Collection (co_path c) (co_read_only c) (co_durability c) (co_fsync c) r (co_open c).
Definition with_open (o : list (string * H)) (c : collection H) : collection H :=
  Collection (co_path c) (co_read_only c) (co_durability c) (co_fsync c) (co_spaces c) o.

(** [LodeCollection(path, ...)]. *)
Definition LodeCollection (d : path) (read_only : bool) (durability : option string) : io (collection H) :=
  fsync ← lift (match durability with None => durability_from_env environ | v => normalize_durability v end);
  _ ← (if read_only
       then found ← is_dir d;
            if (found : bool) then mret tt
            else fail FileNotFoundError ("LodeCollection(read_only=True) requires an existing directory: " +:+ str_join "/" (reverse d))
       else mkdir_p d);
  spaces ← _load_manifest d;
  mret (Collection d read_only durability fsync spaces []).

Definition acquire_lock (d : path) (timeout : spec_float) : io unit :=
  _ ← open_sentinel d; (λ s, Out [] s (lock_wait d timeout s)) : io unit.

(** [mkstemp(dir=..., prefix=..., suffix=...)]: a new empty file. *)
Definition mkstemp (d : path) : io path := λ s,
  (_ ← write_bytes (temp_name s :: d) ""; mret (temp_name s :: d)) s.

(** The body of [_write_manifest] after the merge. *)
Definition publish_registry (d : path) (fsync : bool) (spaces : registry) : io unit :=
  body ← lift (dumps (indented 2) (manifest_payload spaces));
  tmp ← mkstemp d;
  after true (_ ← write_text tmp body; durable_replace tmp (manifest_path d) fsync) (unlink_ok tmp).

(** Read, merge and write under the lock; the merged registry stays in memory whatever follows. *)
Definition _write_manifest (c : collection H) : io (collection H * result unit) :=
  match lodedb_lock_timeout_from_env environ with
  | Err e => mret (c, Err e)
  | Ok timeout =>
      locked ← attempt (acquire_lock (co_path c) timeout);
      match locked with
      | Err e => mret (c, Err e)
      | Ok _ =>
          loaded ← attempt (_load_manifest (co_path c));
          match loaded with
          | Err e => mret (c, Err e)
          | Ok on_disk =>
              let merged := put_items on_disk (co_spaces c) in
              r ← attempt (publish_registry (co_path c) (co_fsync c) merged);
              mret (with_spaces merged c, r)
          end
      end
  end.

(** The arguments a space is opened with: [kwargs.setdefault("durability", ...)]. *)
Definition space_args (c : collection H) (kw : space_kwargs) (ex : extra_kwargs) : init_args :=
  let a := ex_args ex in
  Init (default (PStr "minilm") (sk_model kw)) (default PNone (sk_vector_dim kw)) (sk_embedder kw) (default PNone (sk_bit_width kw))
    (ia_chunk_character_limit a) (sk_store_text kw) (sk_index_text kw) (ia_ann a) (ia_ann_clusters a) (ia_ann_nprobe a)
    (ia_rescore a) (ia_rescore_dtype a) (ia_rescore_oversample a) (ia_compression a) (co_read_only c)
    (default (co_durability c) (ex_durability ex)) (ia_commit_mode a) (ia_embedding_backend a).

(** What is opened, before anything is: the kwargs, and the configuration where the space is new. *)
Definition plan_space (c : collection H) (name : pyval) (q : space_request) : result (string * space_kwargs * option pydict) :=
  safe ← _validate_name name;
  match get_item safe (co_spaces c) with
  | Some recorded => kw ← _reopen_space safe recorded q; Ok (safe, kw, None)
  | None =>
      if co_read_only c
      then raise FileNotFoundError ("space " +:+ py_repr name +:+ " does not exist in this collection (read-only): "
             +:+ str_join "/" (reverse (co_path c)))
      else '(kw, config) ← _new_space q; Ok (safe, kw, Some config)
  end.

Definition unpublished (name : pyval) : exn :=
  Exn RuntimeError ("failed to publish collection manifest for space " +:+ py_repr name +:+ "; "
    +:+ "rolled back (the space was not registered and its lock was released)").

(** [space(name, ...)]: the handle, and the collection it leaves. *)
Definition space (name : pyval) (q : space_request) (ex : extra_kwargs) (c : collection H) : io (collection H * result H) :=
  match plan_space c name q with
  | Err e => mret (c, Err e)
  | Ok (safe, kw, new_config) =>
      match get_item safe (co_open c) with
      | Some db => mret (c, Ok db)
      | None =>
          opened ← attempt (open_space (safe :: co_path c) (space_args c kw ex));
          match opened, new_config with
          | Err e, _ => mret (c, Err e)
          | Ok db, None => mret (with_open (put_item safe db (co_open c)) c, Ok db)
          | Ok db, Some config =>
              published ← _write_manifest (with_spaces (put_item safe config (co_spaces c)) c);
              match published.2 with
              | Ok _ => mret (with_open (put_item safe db (co_open c)) published.1, Ok db)
              | Err _ =>
                  _ ← attempt (close_space db);
                  mret (with_spaces (co_spaces c) published.1, Err (unpublished name))
              end
          end
      end
  end.

Definition spaces (c : collection H) : list string := sort_by str_leb (map fst (co_spaces c)).
Definition space_config (c : collection H) (name : pyval) : result (option pydict) :=
  safe ← _validate_name name; Ok (get_item safe (co_spaces c)).

(** [close]: the first handle that fails to close stops it. *)
Fixpoint close_all (l : list (string * H)) : io unit :=
  match l with [] => mret tt | kh :: l => _ ← close_space kh.2; close_all l end.
Definition close (c : collection H) : io (collection H * result unit) :=
  r ← attempt (close_all (co_open c));
  mret (match r with Ok _ => with_open [] c | Err _ => c end, r).
End collection.

(** ** Registries in memory and on disk *)

Definition good_registry (r : registry) : Prop := NoDup r.*1 ∧ Forall (λ kc, json_ok (PDict kc.2) = true) r.

(** What a registry reads back as: configurations with their keys sorted, tuples as lists. *)
Definition reads_as (r r' : registry) : Prop := NoDup r'.*1 ∧ ∀ k, get_item k r' = canon_items <$> get_item k r.

Lemma get_item_puts {A} k (l d : list (string * A)) : NoDup d.*1 → NoDup l.*1 →
  NoDup (put_items d l).*1 ∧ get_item k (put_items d l) = match get_item k l with Some v => Some v | None => get_item k d end.
Proof.
  revert d. induction l as [|[k' v] l IH]; intros d Hd; [done|]. cbn [fmap list_fmap fst]. intros [Hni Hl]%NoDup_cons.
  destruct (IH (put_item k' v d)) as [H1 H2]; [by apply put_item_NoDup|done|]. split; [done|].
  etransitivity; [exact H2|]. rewrite get_item_put. destruct (get_item k l) as [w|] eqn:E.
  - apply get_item_elem in E; [|done]. assert (get_item k ((k', v) :: l) = Some w) as ->; [|done].
    apply get_item_elem; [by constructor|by right].
  - unfold get_item in *. cbn. repeat case_bool_decide; simplify_eq; by rewrite ?E.
Qed.

Lemma good_put k config r : good_registry r → json_ok (PDict config) = true → good_registry (put_item k config r).
Proof.
  intros [Hnd Hok] Hc. split; [by apply put_item_NoDup|]. rewrite Forall_forall in Hok |- *. intros x Hx.
  apply elem_of_put_item in Hx as [->|[Hx _]]; [exact Hc|by apply Hok|done].
Qed.
Lemma good_puts l r : good_registry r → good_registry l → good_registry (put_items r l).
Proof.
  intros Hr [_ Hl]. revert r Hr. induction Hl as [|[k c] l Hc _ IH]; intros r Hr; [done|]. apply IH. by apply good_put.
Qed.

Lemma good_reads r r' : good_registry r → reads_as r r' → good_registry r'.
Proof.
  intros [Hnd Hok] [Hnd' Hr]. split; [done|]. apply Forall_forall. intros [k c] Hin.
  apply get_item_elem in Hin; [|done]. rewrite Hr in Hin. apply fmap_Some in Hin as (c' & Hc' & ->).
  apply get_item_elem in Hc'; [|done]. rewrite Forall_forall in Hok. cbn [snd].
  rewrite <-canon_dict. apply json_ok_canon. by apply (Hok (k, c')).
Qed.

Definition entries_of (r : registry) : pydict := map (λ kc, (PStr kc.1, PDict kc.2)) r.

Lemma payload_entries r : manifest_payload r = PDict [(PStr "version", PInt _MANIFEST_VERSION); (PStr "spaces", PDict (entries_of r))].
Proof. unfold manifest_payload, dict_of, entries_of. cbn. by rewrite map_map. Qed.

Lemma registry_entries_ok r : good_registry r → json_ok (PDict (entries_of r)) = true.
Proof.
  intros [Hnd Hok]. apply json_ok_dict_intro.
  - unfold str_keyed, entries_of. rewrite forallb_forall. by intros x (y & <- & _)%in_map_iff.
  - unfold keys_of, entries_of. rewrite map_map. exact Hnd.
  - apply Forall_map. eapply Forall_impl; [exact Hok|]. done.
Qed.

Lemma payload_ok r : good_registry r → json_ok (manifest_payload r) = true.
Proof.
  intros Hr. rewrite payload_entries. apply json_ok_dict_intro; [done| |].
  - apply (bool_decide_eq_true_1 (NoDup _)). vm_compute. reflexivity.
  - repeat constructor. cbn [snd]. by apply registry_entries_ok.
Qed.

Lemma put_fresh {A} k (v : A) d : k ∉ d.*1 → put_item k v d = d ++ [(k, v)].
Proof.
  induction d as [|[k' v'] d IH]; [done|]. cbn. intros Hni. rewrite bool_decide_eq_false_2 by set_solver. by rewrite IH by set_solver.
Qed.

(** Reading the entries of a canonical manifest back. *)
Lemma read_entries (l : registry) acc : NoDup (acc.*1 ++ l.*1) →
  foldR (λ acc kv, config ← py_dict kv.2; Ok (put_item (py_str kv.1) config acc)) acc (entries_of l) = Ok (acc ++ l).
Proof.
  revert acc. induction l as [|[k c] l IH]; intros acc Hnd; cbn; [by rewrite app_nil_r|].
  assert (put_item k c acc = acc ++ [(k, c)]) as ->.
  { apply put_fresh. intros Hin. apply NoDup_app in Hnd as (_ & Hd & _). apply (Hd k Hin). by left. }
  unfold entries_of in IH. cbn in IH. rewrite IH; [by rewrite <-app_assoc|]. rewrite fmap_app, <-app_assoc. exact Hnd.
Qed.

(** [json.loads] of a published manifest, through [_load_manifest]. *)
Lemma registry_reads d r : good_registry r → ∃ r', registry_of d (canon (manifest_payload r)) = Ok r' ∧ reads_as r r'.
Proof.
  intros Hr. pose proof (registry_entries_ok r Hr) as Hok. destruct (json_ok_dict _ Hok) as (Hs & Hnd & _).
  pose proof (canon_items_perm _ Hs) as Hperm.
  assert (∃ l : registry, canon_items (entries_of r) = entries_of l ∧ l ≡ₚ map (λ kc, (kc.1, canon_items kc.2)) r) as (l & Hl & Hp).
  { destruct (Permutation_map_inv (λ kc : string * pydict, (PStr kc.1, PDict kc.2)) (map (λ kc, (kc.1, canon_items kc.2)) r)
      (l1 := canon_items (entries_of r))) as (l & Hl & Hp); [|by exists l].
    rewrite Hperm. unfold entries_of. by rewrite !map_map. }
  assert (NoDup l.*1) as Hndl.
  { rewrite Hp. unfold entries_of, keys_of in Hnd. rewrite map_map in Hnd. rewrite <-list_fmap_compose. exact Hnd. }
  exists l. split.
  - rewrite payload_entries, canon_dict. unfold registry_of.
    assert (py_get (PDict (canon_items [(PStr "version", PInt _MANIFEST_VERSION); (PStr "spaces", PDict (entries_of r))])) "spaces" (PDict [])
      = Ok (PDict (entries_of l))) as ->.
    { cbn [py_get]. rewrite dict_get_canon; [change (Ok (canon (PDict (entries_of r))) = Ok (PDict (entries_of l))); by rewrite canon_dict, Hl|]. rewrite <-payload_entries. by apply payload_ok. }
    cbn [mbind result_bind]. by rewrite read_entries.
  - split; [done|]. intros k. apply option_eq. intros c. rewrite get_item_elem, Hp by done.
    rewrite fmap_Some. split.
    + intros ([k' c'] & [= -> ->] & Hin)%list_elem_of_fmap. exists c'. split; [|done]. apply get_item_elem; [apply Hr|done].
    + intros (c' & Hc' & ->). apply get_item_elem in Hc'; [|apply Hr]. apply list_elem_of_fmap. by exists (k, c').
Qed.

Definition manifest_text (r : registry) : string := of_chars (json_text (indented 2) 0 (manifest_payload r)).

Section disk.
Variable d : path.

(** The disk records a registry: its manifest is the text of that registry, or is not there while
    the registry is empty. *)
Definition records (s : fsys) (r : registry) : Prop :=
  good_registry r ∧ match files s !! manifest_path d with
                    | Some f => fdata f = utf8_encode (manifest_text r)
                    | None => r = []
                    end.

Lemma records_frame s t r : files t !! manifest_path d = files s !! manifest_path d → records s r → records t r.
Proof. unfold records. by intros ->. Qed.

Lemma load_records s r : records s r → ∃ r', _load_manifest d s = Out [] s (Ok r') ∧ reads_as r r'.
Proof.
  intros [Hr Hf]. unfold _load_manifest. rewrite (bind_run_pure _ _ _ _ (is_file_run s _)). unfold content.
  destruct (files s !! manifest_path d) as [f|] eqn:E; cbn [fmap option_fmap option_map].
  - rewrite bool_decide_eq_true_2 by (by eexists). cbn [negb].
    destruct (registry_reads d r Hr) as (r' & Hr' & Hreads). exists r'. split; [|done].
    assert (attempt (text ← read_text (manifest_path d); lift (loads text)) s = Out [] s (Ok (Ok (canon (manifest_payload r))))) as Ha.
    { unfold attempt. rewrite (read_text_run s (manifest_path d) (fdata f)) by (unfold content; by rewrite E).
      rewrite Hf, utf8_decode_encode. unfold lift, manifest_text. by rewrite (loads_text (indented 2)) by (by apply payload_ok). }
    rewrite (bind_run_pure _ _ _ _ Ha). unfold lift. by rewrite Hr'.
  - rewrite bool_decide_eq_false_2 by (by intros [? ?]). subst r. exists []. split; [done|]. split; [constructor|]. done.
Qed.
End disk.

(** ** Running the operations *)

Lemma runs_after {A} C (m : io A) h s (Q R : result A → fsys → Prop) : runs C m s R →
  (∀ r t, R r t → runs C h t (λ r' u, Q (match r' with Ok _ => r | Err e => Err e end) u)) → runs C (after true m h) s Q.
Proof.
  intros [HC HR] Hh. destruct (Hh _ _ HR) as [HC' HQ]. unfold runs, after.
  destruct (value (m s)); cbn; (split; [by apply Forall_app_2|exact HQ]).
Qed.

Lemma runs_attempt {A} C (m : io A) s (Q : result A → fsys → Prop) : runs C m s Q →
  runs C (attempt m) s (λ r t, ∃ r', r = Ok r' ∧ Q r' t).
Proof. intros [HC HQ]. split; [exact HC|]. by eexists. Qed.

(** A step that cannot raise, then the rest. *)
Lemma runs_then {A B} C (m : io A) (k : A → io B) s (P : A → fsys → Prop) Q :
  runs C m s (λ r t, ∃ a, r = Ok a ∧ P a t) → (∀ a t, P a t → runs C (k a) t Q) → runs C (m ≫= k) s Q.
Proof.
  intros Hm Hk. eapply runs_bind; [exact Hm| |by intros e t (a & ? & _)]. intros a t (a' & [= <-] & HP). by apply Hk.
Qed.

(** [mkstemp] does not answer with the name of the manifest. *)
Class TempLaws {TN : TempNames} : Prop := temp_apart s : temp_name s ≠ _MANIFEST_NAME.

(** What opening a space touches: its own directory, then and when it is closed. *)
Class SpaceLaws (H : Type) {SH : SpaceHost H} : Prop := {
  open_confined p a : confined p (open_space p a);
  close_confined p a s db : value (open_space p a s) = Ok db → confined p (close_space db) }.

Section runs.
Context {H : Type} {SH : SpaceHost H} {SL : SpaceLaws H} {TN : TempNames} {TL : TempLaws} {LW : LockWait}.
Context (environ : gmap string string) (d : path).

Notation rec := (records d).

Lemma temp_path_ne s : temp_name s :: d ≠ manifest_path d.
Proof. intros [= Heq]. by apply (temp_apart s). Qed.

Lemma manifest_publish_runs fsync s r0 r : rec s r0 → good_registry r → dir_exists s d = true →
  runs (λ t, rec t r0 ∨ rec t r) (publish_registry d fsync r) s (λ res t, res = Ok tt ∧ rec t r).
Proof.
  intros Hs Hr Hd. pose proof (temp_path_ne s) as Hne. set (tmp := temp_name s :: d) in *.
  assert (∀ t u, files u !! manifest_path d = files t !! manifest_path d → rec t r0 → rec u r0) as Hfr by (intros; by eapply records_frame).
  unfold publish_registry. eapply runs_pure; [unfold lift; by rewrite (dumps_ok (indented 2)) by (by apply payload_ok)|].
  fold (manifest_text r). eapply (runs_then _ _ _ _ (λ a t, a = tmp ∧ rec t r0 ∧ dir_exists t d = true)).
  { unfold runs, mkstemp. fold tmp. unfold mbind, io_bind, write_bytes. cbn [parent tail tmp]. change (parent tmp) with d. rewrite Hd.
    cbn [value trace final]. rewrite app_nil_r. split; [|eexists; split; [reflexivity|split; [done|split; [|by rewrite <-Hd]]]].
    - apply Forall_forall. intros t (n & -> & _)%list_elem_of_fmap. left. eapply Hfr; [|exact Hs]. cbn. by rewrite lookup_insert_ne.
    - eapply Hfr; [|exact Hs]. cbn. by rewrite lookup_insert_ne. }
  intros ? t (-> & Ht & Hdt). assert (parent tmp = d) as Hpar by done. clearbody tmp. clear Hs Hd s Hfr. rewrite <-Hpar in Hdt.
  eapply (runs_after _ _ _ _ _ (λ res u, res = Ok tt ∧ rec u r)).
  - eapply runs_bind; [eapply runs_weaken; [by apply write_bytes_runs| |intros ? u Hu; exact Hu]| |by intros ? u [? _]].
    + intros u [_ Hu]. left. eapply records_frame; [|exact Ht]. by apply Hu.
    + intros [] u [_ ->]. eapply runs_weaken.
      * apply (durable_replace_runs tmp (manifest_path d) fsync _ (File (utf8_encode (manifest_text r)) false)); [done|by apply lookup_insert_eq|by rewrite Hpar in Hdt].
      * intros v (_ & _ & [Hv|[Hv _]]).
        -- left. eapply records_frame; [|exact Ht]. rewrite Hv. cbn. by rewrite lookup_insert_ne.
        -- right. split; [done|]. by rewrite Hv.
      * intros ? v [-> ->]. split; [done|]. split; [done|]. cbn. by rewrite lookup_insert_eq.
  - intros ? u [-> Hu]. unfold runs, unlink_ok. destruct (files u !! tmp); cbn; [|by split; [constructor|]].
    assert (rec (drop_file tmp u) r) as Hu'; [|split; [apply Forall_cons; split; [by right|constructor]|by split]].
    eapply records_frame; [|exact Hu]. cbn. by rewrite lookup_delete_ne.
Qed.

Lemma acquire_runs timeout s r0 : rec s r0 →
  runs (λ t, rec t r0) (acquire_lock d timeout) s (λ _ t, rec t r0 ∧ dir_exists t d = true).
Proof.
  intros Hs. unfold acquire_lock, open_sentinel. assert (lock_path_for d ≠ manifest_path d) as Hne by done.
  eapply (runs_bind _ _ _ _ _ (λ r t, r = Ok tt ∧ rec t r0 ∧ dir_exists t d = true)); [| |by intros e t [? _]].
  - destruct (mkdir_p_run d s) as (tr & ds & Hm & _ & Hd & Htr).
    eapply (runs_bind _ _ _ _ _ (λ r t, r = Ok tt ∧ rec t r0 ∧ dir_exists t d = true)); [| |by intros e t [? _]].
    + unfold runs. rewrite Hm. cbn. split; [|done]. eapply Forall_impl; [exact Htr|]. intros t Ht. eapply records_frame; [|exact Hs]. by rewrite Ht.
    + intros [] t (_ & Ht & Hdt). eapply runs_pure; [apply is_file_run|]. destruct (bool_decide _); [by apply runs_ret|].
      eapply runs_weaken; [apply write_bytes_runs; exact Hdt| |].
      * intros u [_ Hu]. eapply records_frame; [|exact Ht]. by apply Hu.
      * intros r u [-> ->]. split_and!; [done| |done]. eapply records_frame; [|exact Ht]. cbn. by rewrite lookup_insert_ne.
  - intros [] t (_ & Ht & Hdt). by split; [constructor|].
Qed.

(** What a publication leaves in memory and on disk, from a disk that recorded [r0]. *)
Definition merged (r0 mem r : registry) : Prop := ∃ r0', reads_as r0 r0' ∧ r = put_items r0' mem.

Lemma manifest_write_runs (c : collection H) s r0 : co_path c = d → good_registry (co_spaces c) → rec s r0 →
  runs (λ t, rec t r0 ∨ ∃ r, merged r0 (co_spaces c) r ∧ rec t r) (_write_manifest environ c) s
    (λ res t, ∃ m r, res = Ok (with_spaces m c, r) ∧ match r with
      | Ok _ => merged r0 (co_spaces c) m ∧ rec t m
      | Err _ => rec t r0
      end).
Proof.
  intros Hd Hc Hs. unfold _write_manifest. rewrite Hd.
  assert (∀ e t, rec t r0 → runs (λ t, rec t r0 ∨ ∃ r, merged r0 (co_spaces c) r ∧ rec t r) (mret (c, Err e)) t
    (λ res t, ∃ m (r : result unit), res = Ok (with_spaces m c, r) ∧ match r with Ok _ => merged r0 (co_spaces c) m ∧ rec t m | Err _ => rec t r0 end)) as Hkeep.
  { intros e t Ht. apply runs_ret. exists (co_spaces c), (Err e). split; [by destruct c|done]. }
  destruct (lodedb_lock_timeout_from_env environ) as [timeout|e]; [|by apply Hkeep].
  eapply (runs_then _ _ _ _ (λ _ t, rec t r0 ∧ dir_exists t d = true)); [eapply runs_weaken; [apply runs_attempt, acquire_runs; exact Hs|by left|]|].
  { intros r t (r' & -> & Ht). by exists r'. }
  intros [[]|e] t [Ht Hdt]; [|by apply Hkeep].
  destruct (load_records d t r0 Ht) as (r0' & Hl & Hreads).
  eapply runs_pure; [unfold attempt; by rewrite Hl|]. cbn [value]. cbv beta iota zeta.
  assert (good_registry (put_items r0' (co_spaces c))) as Hgood by (apply good_puts; [apply (good_reads r0); [apply Ht|done]|done]).
  eapply (runs_then _ _ _ _ (λ r t, r = Ok tt ∧ rec t (put_items r0' (co_spaces c)))); [eapply runs_weaken; [apply runs_attempt, (manifest_publish_runs (co_fsync c) t r0 _ Ht Hgood Hdt)| |]|].
  - intros u [?|?]; [by left|]. right. eexists. split; [by exists r0'|done].
  - intros r u (r' & -> & -> & Hu). by exists (Ok tt).
  - intros r u [-> Hu]. apply runs_ret. eexists _, _. split; [reflexivity|]. split; [by exists r0'|exact Hu].
Qed.
End runs.

(** ** A recorded configuration determines how its space is opened *)

(** A dimension that a manifest can hold: JSON reads it back as it is. *)
Definition plain_dim (q : space_request) : Prop :=
  ∀ v, given_dim (sq_vector_dim q) = Some v → json_ok v = true ∧ canon v = v.

Definition with_embedder (e : option embedder) (kw : space_kwargs) : space_kwargs :=
  SpaceKw (sk_model kw) (sk_vector_dim kw) e (sk_bit_width kw) (sk_store_text kw) (sk_index_text kw).

(** A model whose preset is known is a string. *)
Lemma resolve_preset_str m p : resolve_preset m = Ok p → ∃ s, m = PStr s.
Proof.
  unfold resolve_preset, preset_key, py_or. destruct (truthy m) eqn:E; [|done].
  destruct m; try done. by eexists.
Qed.

Inductive created (q : space_request) : space_kwargs → pydict → Prop :=
| CreatedCustom e identity bw flags : sq_embedder q = Some e →
    created q (SpaceKw None None (Some e) (Some (PInt bw)) (PBool flags.1) (PBool flags.2))
      (config_of [("kind", PStr "custom"); ("model_identity", PStr identity)] bw flags)
| CreatedVector dim bw flags : sq_embedder q = None → given_dim (sq_vector_dim q) = Some dim →
    created q (SpaceKw None (Some dim) None (Some (PInt bw)) (PBool flags.1) (PBool flags.2))
      (config_of [("kind", PStr "vector"); ("vector_dim", dim)] bw flags)
| CreatedPreset model bw flags : sq_embedder q = None →
    created q (SpaceKw (Some (PStr model)) None None None (PBool flags.1) (PBool flags.2))
      (config_of [("kind", PStr "preset"); ("model", PStr model)] bw flags).

Lemma new_space_created q kw config : _new_space q = Ok (kw, config) → created q kw config.
Proof.
  unfold _new_space. intros (explicit & _ & H)%bind_Ok. destruct (match explicit with Some b => _ | None => false end); [done|].
  destruct (sq_embedder q) as [e|] eqn:Ee.
  - destruct (em_model_name e) as [[|ch s]|]; [done| |done]. injection H as <- <-. by apply (CreatedCustom q e _ _ (_privacy_flags (sq_store_text q) (sq_index_text q))).
  - destruct (given_dim (sq_vector_dim q)) as [dim|] eqn:Ed.
    + injection H as <- <-. by apply (CreatedVector q dim _ (_privacy_flags (sq_store_text q) (sq_index_text q))).
    + apply bind_Ok in H as (p & Hp & (w & _ & H)%bind_Ok). apply resolve_preset_str in Hp as [m Hm].
      destruct (match explicit with Some b => _ | None => false end); [done|]. rewrite Hm in H. injection H as <- <-. by apply (CreatedPreset q m _ (_privacy_flags (sq_store_text q) (sq_index_text q))).
Qed.

Lemma config_ok q kw config : plain_dim q → created q kw config → json_ok (PDict config) = true.
Proof.
  intros Hq [e identity bw flags _|dim bw flags _ Hd|m bw flags _]; [reflexivity| |reflexivity].
  destruct (Hq dim Hd) as [Hok _]. unfold config_of. cbn. by rewrite Hok.
Qed.

Lemma config_field_canon config k v : json_ok (PDict config) = true →
  field (canon_items config) k v = match dict_get k config with Some w => canon w | None => v end.
Proof. intros Hok. unfold field. rewrite dict_get_canon by done. by destruct (dict_get k config). Qed.

Lemma index_canon config k w : json_ok (PDict config) = true → dict_get k config = Some w →
  py_index (PDict (canon_items config)) k = Ok (canon w).
Proof. intros Hok Hk. cbn. rewrite dict_get_canon by done. by rewrite Hk. Qed.

(** What each entry of a fresh configuration holds. *)
Lemma created_entries q kw config : created q kw config →
  dict_get "store_text" config = Some (sk_store_text kw) ∧ dict_get "index_text" config = Some (sk_index_text kw) ∧
  canon (sk_store_text kw) = sk_store_text kw ∧ canon (sk_index_text kw) = sk_index_text kw ∧
  (∀ b, sk_bit_width kw = Some b → dict_get "bit_width" config = Some b ∧ canon b = b).
Proof. intros [e identity bw flags _|dim bw flags _ _|m bw flags _]; split_and!; try reflexivity; intros b [= <-]; split; reflexivity. Qed.

(** The last branches of [_reopen_space], on a recorded configuration. *)
Lemma reopen_rest name q kw config q' : plain_dim q → created q kw config →
  let rec := canon_items config in
  _reopen_space name rec q' =
    (_ ← check_width name rec (sq_bit_width q');
     _ ← _check_flag name rec "store_text" (sq_store_text q') true;
     _ ← _check_flag name rec "index_text" (sq_index_text q') false;
     match sk_embedder kw, sq_embedder q' with
     | Some _, None => raise ValueError ("space " +:+ str_repr name +:+ " is a custom-embedder space (identity "
                +:+ py_repr (field rec "model_identity" PNone) +:+ "); reopen it with a matching embedder=")
     | Some _, Some e => _ ← (if given (sq_model q') || given (given_dim (sq_vector_dim q'))
             then space_is name "custom-embedder space; pass embedder=, not model/vector_dim" else Ok tt);
        Ok (with_embedder (Some e) kw)
     | None, Some _ => space_is name (py_str (field rec "kind" (PStr "preset")) +:+ " space, not custom; do not pass embedder=") ≫= λ _, Ok kw
     | None, None =>
         match sk_vector_dim kw with
         | Some _ => _ ← check_same name rec "vector_dim" (sq_vector_dim q');
                     _ ← (if given (sq_model q') then space_is name "vector-only space; do not pass model=" else Ok tt); Ok kw
         | None => _ ← check_same name rec "model" (sq_model q');
                   _ ← (if given (given_dim (sq_vector_dim q')) then space_is name "preset space; do not pass vector_dim=" else Ok tt); Ok kw
         end
     end).
Proof.
  intros Hq Hc rec. pose proof (config_ok _ _ _ Hq Hc) as Hok. unfold _reopen_space.
  destruct (created_entries _ _ _ Hc) as (Hst & Hit & Hcs & Hci & Hb).
  assert (field rec "store_text" (PBool true) = sk_store_text kw ∧ field rec "index_text" (PBool false) = sk_index_text kw) as [-> ->].
  { unfold rec. rewrite !config_field_canon, Hst, Hit by done. by rewrite Hcs, Hci. }
  destruct (check_width _ _ _) as [[]|]; [cbn [mbind result_bind]|reflexivity].
  destruct (_check_flag _ _ "store_text" _ _) as [[]|]; [cbn [mbind result_bind]|reflexivity].
  destruct (_check_flag _ _ "index_text" _ _) as [[]|]; [cbn [mbind result_bind]|reflexivity].
  assert (∀ k w, dict_get k config = Some w → canon w = w → py_index (PDict rec) k = Ok w) as Hix.
  { intros k w Hk Hw. unfold rec. by rewrite (index_canon config k w) by done; rewrite Hw. }
  destruct Hc as [e identity bw flags _|dim bw flags _ Hd|m bw flags _]; unfold rec at 1; rewrite config_field_canon by done.
  - change (py_eq _ (PStr "custom")) with true. cbn [sk_embedder]. destruct (sq_embedder q') as [e'|]; [|reflexivity].
    rewrite (Hix "bit_width" (PInt bw) eq_refl eq_refl). reflexivity.
  - change (py_eq _ (PStr "custom")) with false. cbn [sk_embedder sk_vector_dim]. destruct (sq_embedder q') as [e'|]; [reflexivity|].
    change (py_eq _ (PStr "vector")) with true. cbn [given mbind result_bind].
    rewrite (Hix "vector_dim" dim eq_refl (proj2 (Hq dim Hd))), (Hix "bit_width" (PInt bw) eq_refl eq_refl). reflexivity.
  - change (py_eq _ (PStr "custom")) with false. cbn [sk_embedder sk_vector_dim]. destruct (sq_embedder q') as [e'|]; [reflexivity|].
    change (py_eq _ (PStr "vector")) with false. cbn [given mbind result_bind].
    rewrite (Hix "model" (PStr m) eq_refl eq_refl). reflexivity.
Qed.

(** Reopening gives the recorded kwargs or raises, whatever is asked for. *)
Lemma reopen_recorded name q kw config q' kw' : plain_dim q → created q kw config →
  _reopen_space name (canon_items config) q' = Ok kw' →
  kw' = with_embedder (sq_embedder q') kw ∧ (sq_embedder q' = None ↔ sk_embedder kw = None).
Proof.
  intros Hq Hc H. rewrite (reopen_rest _ _ _ _ _ Hq Hc) in H.
  apply bind_Ok in H as (? & _ & (? & _ & (? & _ & H)%bind_Ok)%bind_Ok).
  destruct (sk_embedder kw) as [e|] eqn:Ek, (sq_embedder q') as [e'|]; try done.
  - apply bind_Ok in H as (? & _ & [= <-]). done.
  - destruct (sk_vector_dim kw); apply bind_Ok in H as (? & _ & (? & _ & [= <-])%bind_Ok); (split; [|done]); rewrite <-Ek; by destruct kw.
Qed.

(** Asked for nothing but the embedder of a custom space, it does not raise. *)
Definition bare_request (e : option embedder) : space_request := SpaceRequest None None None e None None.

Lemma reopen_bare name q kw config : plain_dim q → created q kw config →
  _reopen_space name (canon_items config) (bare_request (sk_embedder kw)) = Ok kw.
Proof.
  intros Hq Hc. rewrite (reopen_rest _ _ _ _ _ Hq Hc). cbn. destruct (sk_embedder kw) as [e|] eqn:Ek; cbn.
  - rewrite <-Ek. by destruct kw.
  - by destruct (sk_vector_dim kw).
Qed.

(** ** Calls of [space] *)

Lemma name_not_manifest s : _SPACE_NAME_RE s = true → s ≠ _MANIFEST_NAME.
Proof. intros Hs ->. vm_compute in Hs. discriminate. Qed.

Section calls.
Context {H : Type} {SH : SpaceHost H} {SL : SpaceLaws H} {TN : TempNames} {TL : TempLaws} {LW : LockWait}.
Context (environ : gmap string string) (d : path).

Notation rec := (records d).

(** A handle on the root [d] with a registry that JSON can hold. *)
Definition open_ok (kh : string * H) : Prop := _SPACE_NAME_RE kh.1 = true ∧ confined (kh.1 :: d) (close_space kh.2).
Definition handle_ok (c : collection H) : Prop := co_path c = d ∧ good_registry (co_spaces c) ∧ Forall open_ok (co_open c).

Lemma put_open_ok k db l : Forall open_ok l → open_ok (k, db) → Forall open_ok (put_item k db l).
Proof.
  intros Hl Hk. induction Hl as [|[k' v'] l Hx Hl IH]; cbn; [by apply Forall_singleton|]. by case_bool_decide; constructor.
Qed.

Lemma space_dir_keeps safe s t r : _SPACE_NAME_RE safe = true → only_below (safe :: d) s t → rec s r → rec t r.
Proof.
  intros Hn Ht. apply records_frame. apply Ht. apply (sibling_below safe _MANIFEST_NAME d []). by apply name_not_manifest.
Qed.

Lemma plan_safe (c : collection H) name q safe kw new : plan_space c name q = Ok (safe, kw, new) → _SPACE_NAME_RE safe = true.
Proof.
  unfold plan_space. intros (s & Hs & Hp)%bind_Ok. assert (_SPACE_NAME_RE s = true) as Hre.
  { unfold _validate_name in Hs. destruct name; try done. destruct (_SPACE_NAME_RE _) eqn:E; [|done]. by injection Hs as <-. }
  destruct (get_item s (co_spaces c)).
  - apply bind_Ok in Hp as (k & _ & Hp). by injection Hp as <- _ _.
  - destruct (co_read_only c); [done|]. apply bind_Ok in Hp as ([k cf] & _ & Hp). by injection Hp as <- _ _.
Qed.

Lemma plan_created (c : collection H) name q safe kw config : plan_space c name q = Ok (safe, kw, Some config) →
  created q kw config ∧ get_item safe (co_spaces c) = None ∧ _validate_name name = Ok safe.
Proof.
  unfold plan_space. intros (s & Hs & Hp)%bind_Ok. destruct (get_item s (co_spaces c)) eqn:Eg.
  - by apply bind_Ok in Hp as (k & _ & Hp).
  - destruct (co_read_only c); [done|]. apply bind_Ok in Hp as ([k cf] & Hnew & Hp). injection Hp as <- <- <-.
    split; [by apply new_space_created|done].
Qed.

(** The registry a call publishes. *)
Definition published_by (c : collection H) (name : pyval) (q : space_request) (r0 r : registry) : Prop :=
  ∃ safe kw config, plan_space c name q = Ok (safe, kw, Some config) ∧ merged r0 (put_item safe config (co_spaces c)) r.

Definition may_be (c : collection H) name q (r0 : registry) (t : fsys) : Prop :=
  rec t r0 ∨ ∃ r, published_by c name q r0 r ∧ rec t r.

Lemma space_runs (c : collection H) name q ex s r0 : handle_ok c → plain_dim q → rec s r0 →
  runs (may_be c name q r0) (space environ name q ex c) s
    (λ res t, ∃ c' r, res = Ok (c', r) ∧ handle_ok c' ∧ match r with
      | Err _ => c' = c ∧ rec t r0
      | Ok db => (co_spaces c' = co_spaces c ∧ rec t r0 ∧ ∀ safe kw config, plan_space c name q = Ok (safe, kw, Some config) → get_item safe (co_open c) = Some db)
          ∨ ∃ safe kw config, plan_space c name q = Ok (safe, kw, Some config) ∧ merged r0 (put_item safe config (co_spaces c)) (co_spaces c') ∧
              rec t (co_spaces c') ∧ co_open c' = put_item safe db (co_open c)
      end).
Proof.
  intros (Hd & Hgood & Hopen) Hq Hs. unfold space. destruct (plan_space c name q) as [[[safe kw] new]|e] eqn:Hp.
  2: { apply runs_ret. exists c, (Err e). done. }
  destruct (get_item safe (co_open c)) as [db|] eqn:Ho.
  { apply runs_ret. exists c, (Ok db). split_and!; [done..|]. left. split_and!; [done..|]. intros safe' kw' config Hp'. by injection Hp' as <- _ _. }
  pose proof (plan_safe _ _ _ _ _ _ Hp) as Hre. rewrite Hd. set (a := space_args c kw ex).
  assert (∀ t, rec t r0 → may_be c name q r0 t) as Hold by (intros; by left).
  eapply (runs_then _ _ _ _ (λ r t, rec t r0 ∧ ∀ db, r = Ok db → confined (safe :: d) (close_space db))).
  { destruct (open_confined (H:=H) (safe :: d) a s) as [HC HQ]. split.
    - eapply Forall_impl; [exact HC|]. intros t Ht. apply Hold. by eapply space_dir_keeps.
    - eexists. split; [reflexivity|]. split; [by eapply space_dir_keeps|]. intros db Hdb. by eapply close_confined. }
  intros [db|e] t [Ht Hclose]; [|apply runs_ret; exists c, (Err e); done].
  assert (Forall open_ok (put_item safe db (co_open c))) as Hopen' by (apply put_open_ok; [done|split; [done|by apply Hclose]]).
  destruct new as [config|].
  2: { apply runs_ret. eexists _, (Ok db). split; [reflexivity|]. split; [done|]. left. split_and!; [done..|].
       by intros safe' kw' config' Hp'. }
  destruct (plan_created _ _ _ _ _ _ Hp) as (Hcr & _). pose proof (config_ok _ _ _ Hq Hcr) as Hok.
  pose proof (good_put safe config _ Hgood Hok) as Hgood1.
  set (c1 := with_spaces (put_item safe config (co_spaces c)) c).
  eapply (runs_then _ _ _ _ (λ pr u, ∃ m, pr.1 = with_spaces m c1 ∧ match pr.2 with
      Ok _ => merged r0 (co_spaces c1) m ∧ rec u m | Err _ => rec u r0 end)).
  { eapply runs_weaken; [by apply (manifest_write_runs environ d c1 t r0)| |].
    - intros u [?|(r & Hm & Hu)]; [by left|]. right. exists r. split; [|done]. by exists safe, kw, config.
    - intros r u (m & r' & -> & Hr'). exists (with_spaces m c1, r'). split; [done|]. by exists m. }
  intros [c2 r] u (m & Hc2 & Hr). cbn [fst snd] in *. subst c2. destruct r as [[]|e].
  - apply runs_ret. eexists _, (Ok db). split; [reflexivity|]. destruct Hr as [Hm Hu]. split.
    + split_and!; [exact Hd|apply Hu|exact Hopen'].
    + right. exists safe, kw, config. split_and!; [done|done|exact Hu|done].
  - eapply (runs_then _ _ _ _ (λ _ v, rec v r0)).
    { destruct (Hclose db eq_refl u) as [HC HQ]. split.
      - eapply Forall_impl; [exact HC|]. intros v Hv. apply Hold. by eapply space_dir_keeps.
      - eexists. split; [reflexivity|]. by eapply space_dir_keeps. }
    intros _ v Hv. apply runs_ret. exists c, (Err (unpublished name)). split; [by destruct c|done].
Qed.

(** Opening a collection reads what the disk records. *)
Lemma collection_runs read_only durability s r0 : rec s r0 →
  runs (λ t, rec t r0) (LodeCollection (H:=H) environ d read_only durability) s
    (λ res t, rec t r0 ∧ ∀ c, res = Ok c → co_path c = d ∧ co_read_only c = read_only ∧ co_open c = [] ∧ reads_as r0 (co_spaces c)).
Proof.
  intros Hs. unfold LodeCollection. eapply (runs_bind _ _ _ _ _ (λ _ t, rec t r0)); [by apply runs_lift| |by intros e t Ht].
  intros fsync t Ht. eapply (runs_bind _ _ _ _ _ (λ _ t, rec t r0)); [| |by intros e u Hu].
  - destruct read_only.
    + unfold runs, is_dir, gets, mbind, io_bind. cbn. by destruct (dir_exists t d); (split; [constructor|]).
    + destruct (mkdir_p_run d t) as (tr & ds & Hm & _ & _ & Htr). unfold runs. rewrite Hm. cbn.
      split; [|exact Ht]. eapply Forall_impl; [exact Htr|]. intros u Hu. eapply records_frame; [|exact Ht]. by rewrite Hu.
  - intros [] u Hu. destruct (load_records d u r0 Hu) as (r & Hl & Hreads). eapply runs_pure; [exact Hl|].
    apply runs_ret. split; [done|]. by intros c [= <-].
Qed.
End calls.

(** ** Many handles on one root *)

Inductive call :=
| OpenCollection (read_only : bool) (durability : option string)
| CallSpace (i : nat) (name : pyval) (q : space_request) (ex : extra_kwargs)
| CloseCollection (i : nat).

Definition plain_call (x : call) : Prop := match x with CallSpace _ _ q _ => plain_dim q | _ => True end.

Section many.
Context {H : Type} {SH : SpaceHost H} {SL : SpaceLaws H} {TN : TempNames} {TL : TempLaws} {LW : LockWait}.
Context (environ : gmap string string) (d : path).

Notation rec := (records d).

(** A call by one of the handles; what raises leaves the others as they are. *)
Definition run_call (x : call) (l : list (collection H)) : io (list (collection H)) :=
  match x with
  | OpenCollection read_only durability =>
      r ← attempt (LodeCollection environ d read_only durability);
      mret (match r with Ok c => l ++ [c] | Err _ => l end)
  | CallSpace i name q ex =>
      match l !! i with Some c => out ← space environ name q ex c; mret (<[i := out.1]> l) | None => mret l end
  | CloseCollection i =>
      match l !! i with Some c => out ← close c; mret (<[i := out.1]> l) | None => mret l end
  end.

Fixpoint run_calls (xs : list call) (l : list (collection H)) : io (list (collection H)) :=
  match xs with [] => mret l | x :: xs => l ← run_call x l; run_calls xs l end.

(** A disk that records every name of [r0]. *)
Definition keeps_names (r0 : registry) (t : fsys) : Prop := ∃ r, rec t r ∧ r0.*1 ⊆ r.*1.

Lemma names_get k (r : registry) : NoDup r.*1 → k ∈ r.*1 ↔ is_Some (get_item k r).
Proof.
  intros Hnd. rewrite list_elem_of_fmap. split.
  - intros ([k' v] & -> & Hin). exists v. by apply get_item_elem.
  - intros [v Hv]. exists (k, v). split; [done|]. by apply get_item_elem.
Qed.

Lemma merged_names (r0 mem r : registry) : good_registry r0 → good_registry mem → merged r0 mem r → r0.*1 ⊆ r.*1.
Proof.
  intros [Hnd0 _] [Hnd _] (r0' & [Hnd' Hr] & ->) k Hk. apply names_get in Hk as [v Hv]; [|done].
  destruct (get_item_puts k mem r0' Hnd' Hnd) as [Hn Hg]. apply names_get; [exact Hn|]. rewrite Hg.
  destruct (get_item k mem); [by eexists|]. rewrite Hr, Hv. by eexists.
Qed.

Lemma close_all_runs (l : list (string * H)) s r0 : Forall (open_ok d) l → rec s r0 →
  runs (λ t, rec t r0) (close_all l) s (λ _ t, rec t r0).
Proof.
  intros Hl. revert s. induction Hl as [|[k db] l [Hk Hc] _ IH]; intros s Hs; [by apply runs_ret|]. cbn [close_all].
  eapply (runs_bind _ _ _ _ _ (λ _ t, rec t r0)); [|intros [] t Ht; by apply IH|by intros].
  destruct (Hc s) as [HC HQ]. split; [|by eapply space_dir_keeps].
  eapply Forall_impl; [exact HC|]. intros t Ht. by eapply space_dir_keeps.
Qed.

Lemma call_runs x l s r0 : plain_call x → Forall (handle_ok d) l → rec s r0 →
  runs (keeps_names r0) (run_call x l) s (λ res t, ∃ l', res = Ok l' ∧ Forall (handle_ok d) l' ∧ keeps_names r0 t).
Proof.
  intros Hx Hl Hs. assert (∀ t, rec t r0 → keeps_names r0 t) as Hsame by (intros t Ht; by exists r0).
  assert (runs (keeps_names r0) (mret l) s (λ res t, ∃ l', res = Ok l' ∧ Forall (handle_ok d) l' ∧ keeps_names r0 t)) as Hnop
    by (apply runs_ret; exists l; split_and!; auto).
  destruct x as [ro du|i name q ex|i]; cbn [run_call plain_call] in *.
  - eapply (runs_then _ _ _ _ (λ r t, rec t r0 ∧ ∀ c, r = Ok c → handle_ok d c)).
    + eapply runs_weaken; [apply runs_attempt, collection_runs; exact Hs|exact Hsame|].
      intros r t (r' & -> & Ht & Hc). exists r'. split_and!; [done..|]. intros c Hr. destruct (Hc c Hr) as (Hd & _ & Ho & Hreads).
      split_and!; [done| |by rewrite Ho]. eapply good_reads; [apply Ht|done].
    + intros r t [Ht Hc]. apply runs_ret. eexists. split; [reflexivity|]. split; [|auto].
      destruct r as [c|e]; [|done]. apply Forall_app_2; [done|]. apply Forall_singleton. by apply Hc.
  - destruct (l !! i) as [c|] eqn:Ei; [|done]. pose proof (Forall_lookup_1 _ _ _ _ Hl Ei) as Hc.
    eapply (runs_then _ _ _ _ (λ out t, handle_ok d out.1 ∧ keeps_names r0 t)).
    + eapply runs_weaken; [apply (space_runs environ d c name q ex s r0 Hc Hx Hs)| |].
      * intros t [?|(r & (safe & kw & config & Hp & Hm) & Ht)]; [by apply Hsame|]. exists r. split; [done|].
        eapply merged_names; [apply Hs| |exact Hm]. apply good_put; [apply Hc|].
        eapply config_ok; [exact Hx|]. by apply (plan_created _ _ _ _ _ _ Hp).
      * intros res t (c' & r & -> & Hc' & Hr). eexists. split; [reflexivity|]. split; [done|].
        destruct r as [db|e]; [|by apply Hsame, Hr]. destruct Hr as [(_ & Hr & _)|(safe & kw & config & Hp & Hm & Ht & _)]; [by apply Hsame|].
        exists (co_spaces c'). split; [done|]. eapply merged_names; [apply Hs| |exact Hm]. apply good_put; [apply Hc|].
        eapply config_ok; [exact Hx|]. by apply (plan_created _ _ _ _ _ _ Hp).
    + intros out t [Hc' Ht]. apply runs_ret. eexists. split; [reflexivity|]. split; [|done]. by apply Forall_insert.
  - destruct (l !! i) as [c|] eqn:Ei; [|done]. pose proof (Forall_lookup_1 _ _ _ _ Hl Ei) as Hc. unfold close.
    eapply (runs_then _ _ _ _ (λ out t, handle_ok d out.1 ∧ keeps_names r0 t)).
    + eapply (runs_then _ _ _ _ (λ _ t, rec t r0)).
      * eapply runs_weaken; [apply runs_attempt, close_all_runs; [apply Hc|exact Hs]|exact Hsame|]. intros r t (r' & -> & Ht). by exists r'.
      * intros r t Ht. apply runs_ret. eexists. split; [reflexivity|]. split; [|by apply Hsame]. destruct Hc as (H1 & H2 & H3).
        destruct r; cbn; done.
    + intros out t [Hc' Ht]. apply runs_ret. eexists. split; [reflexivity|]. split; [|done]. by apply Forall_insert.
Qed.

Lemma calls_run xs l s r0 : Forall plain_call xs → Forall (handle_ok d) l → rec s r0 →
  runs (keeps_names r0) (run_calls xs l) s (λ res t, ∃ l', res = Ok l' ∧ Forall (handle_ok d) l' ∧ keeps_names r0 t).
Proof.
  intros Hxs. revert l s r0. induction Hxs as [|x xs Hx _ IH]; intros l s r0 Hl Hs.
  { apply runs_ret. exists l. split_and!; [done..|]. by exists r0. }
  cbn [run_calls]. eapply (runs_then _ _ _ _ (λ l' t, Forall (handle_ok d) l' ∧ keeps_names r0 t)).
  { eapply runs_weaken; [by apply call_runs|done|]. intros res t (l' & -> & ?). by exists l'. }
  intros l' t [Hl' (r & Hr & Hsub)]. eapply runs_weaken; [by apply (IH l' t r)| |].
  - intros u (r' & Hr' & Hsub'). exists r'. split; [done|]. set_solver.
  - intros res u (l'' & -> & Hl'' & r' & Hr' & Hsub'). exists l''. split_and!; [done..|]. exists r'. split; [done|]. set_solver.
Qed.
End many.

(** ** The constructor of a database as a host *)

Section lode_host.
Context {E : Type} {NO : NativeOpen E} {NH : NativeHost E}.
Context (environ : gmap string string) (build_backend : LocalModelPreset → result EmbeddingBackend).

(** The handle of a space: its directory and what [LodeDB(...)] returned; closing it closes the engine. *)
Definition lode_host : SpaceHost (path * (LodeConfig * LodeDB E)) :=
  {| open_space := λ p a, db ← LodeDB_init environ build_backend p a; mret (p, db);
     close_space := λ h, out ← on_engine h.1 (λ _, open_close) (db_engine h.2.2); lift out.1 |}.

(** The engine works below its directory. *)
Class HostConfined : Prop := {
  engine_open_confined p o : confined p (open_engine p o);
  engine_writes_confined p e s : Forall (only_below p s) (host_writes p e s) }.
Context {HC : HostConfined}.

Lemma confined_on_engine {A} p (m : fsys → st E A) e : confined p (on_engine p m e).
Proof.
  intros s. unfold runs, on_engine. cbv zeta. cbn [trace final]. pose proof (engine_writes_confined p (m s e).2 s) as Hw.
  split; [done|]. destruct (host_writes p (m s e).2 s) as [|t l _] using rev_ind; [apply only_below_refl|].
  rewrite List.last_last. by apply Forall_app in Hw as [_ [? _]%Forall_cons].
Qed.

Lemma confined_finalized p rq (e : E) : confined p (finalized p rq e).
Proof.
  apply confined_bind; [apply confined_on_engine|]. intros out. apply confined_bind; [apply confined_pure, pure_lift|].
  intros _. apply confined_pure, pure_ret.
Qed.

Lemma confined_open p o rq : confined p (_open (E:=E) p o rq).
Proof.
  assert (∀ o', confined p (e ← open_engine p o'; finalized p rq e)) as Hopen.
  { intros o'. apply confined_bind; [apply engine_open_confined|]. intros e. apply confined_finalized. }
  unfold _open. destruct (eo_read_only o); [apply Hopen|]. apply confined_bind; [|intros _; apply Hopen].
  unfold recover_wal. apply confined_bind.
  - apply confined_pure. destruct (eo_commit_mode o); [|apply pure_ret]. apply pure_bind; [apply pure_gets|]. intros names.
    apply pure_bind; [|intros; apply pure_ret]. apply pure_mapIO. intros n. apply pure_file_size.
  - intros [|]; [|apply confined_pure, pure_ret]. apply confined_bind; [apply engine_open_confined|]. intros e.
    apply confined_bind; [apply confined_on_engine|]. intros out. apply confined_pure, pure_lift.
Qed.

Lemma confined_init p a : confined p (LodeDB_init (E:=E) environ build_backend p a).
Proof.
  apply confined_bind; [apply confined_pure, pure_lift|]. intros r. apply confined_bind.
  - destruct (ia_read_only a).
    + apply confined_pure, pure_bind; [apply pure_gets|]. intros [|]; [apply pure_ret|apply pure_fail].
    + apply confined_mkdir. apply below_spec. by exists [].
  - intros _. apply confined_bind; [|intros; apply confined_pure, pure_ret].
    apply confined_bind; [apply confined_attempt, confined_open|]. intros r'. apply confined_pure, pure_lift.
Qed.

(** So the laws of spaces hold for databases opened by the constructor. *)
Lemma lode_host_laws : @SpaceLaws _ lode_host.
Proof.
  split.
  - intros p a. apply confined_bind; [apply confined_init|]. intros db. apply confined_pure, pure_ret.
  - intros p a s h Hv. apply io_bind_Ok in Hv as (db & _ & [= <-] & _). cbn.
    apply confined_bind; [apply confined_on_engine|]. intros out. apply confined_pure, pure_lift.
Qed.
End lode_host.

(** ** Claims *)

(** C30: however many handles work on one root, in whatever order, with whatever failures, a space that was
    registered stays registered: in every state the disk goes through, so after a crash at any point
    too, the manifest is either absent (nothing was ever registered) or the complete text of a
    registry with every earlier name in it, and it can be loaded. *)
Theorem collection_keeps_spaces {H : Type} {SH : SpaceHost H} {SL : SpaceLaws H} {TN : TempNames} {TL : TempLaws} {LW : LockWait}
    environ d xs (l : list (collection H)) s r0 :
  Forall plain_call xs → Forall (handle_ok d) l → records d s r0 →
  let out := run_calls environ d xs l s in
  Forall (λ t, ∃ r loaded, records d t r ∧ r0.*1 ⊆ r.*1 ∧ value (_load_manifest d t) = Ok loaded ∧ reads_as r loaded) (trace out) ∧
  ∃ l' r, value out = Ok l' ∧ Forall (handle_ok d) l' ∧ records d (final out) r ∧ r0.*1 ⊆ r.*1.
Proof.
  intros Hxs Hl Hs out. destruct (calls_run environ d xs l s r0 Hxs Hl Hs) as [HC (l' & Hv & Hl' & r & Hr & Hsub)]. split.
  - eapply Forall_impl; [exact HC|]. intros t (u & Hu & Hsub'). destruct (load_records d t u Hu) as (r' & Hload & Hreads).
    exists u, r'. rewrite Hload. done.
  - by exists l', r.
Qed.

(** Creating a space either registers it for good or leaves no trace of it. The manifest is the old or the
    new one in every state on the way; where anything fails (opening, the lock, reading or writing the
    manifest) the handle and the manifest are what they were; where it succeeds the new registry is on
    disk, and from then on, in any collection that loads it, the space opens with exactly the model,
    dimension, width, [store_text] and [index_text] it was created with: no argument that is passed
    changes them, it either agrees with them or the call raises. *)
Theorem space_reopens_as_created {H : Type} {SH : SpaceHost H} {SL : SpaceLaws H} {TN : TempNames} {TL : TempLaws} {LW : LockWait}
    environ d (c : collection H) name q ex s r0 safe kw config :
  handle_ok d c → plain_dim q → records d s r0 →
  plan_space c name q = Ok (safe, kw, Some config) → get_item safe (co_open c) = None →
  let out := space environ name q ex c s in
  Forall (λ t, records d t r0 ∨ ∃ r, merged r0 (put_item safe config (co_spaces c)) r ∧ records d t r) (trace out) ∧
  ∃ c' res, value out = Ok (c', res) ∧ match res with
    | Err _ => c' = c ∧ records d (final out) r0
    | Ok db => co_open c' = put_item safe db (co_open c) ∧ records d (final out) (co_spaces c') ∧
        get_item safe (co_spaces c') = Some config ∧
        ∀ read_only durability t (c2 : collection H), records d t (co_spaces c') →
          value (LodeCollection environ d read_only durability t) = Ok c2 →
          plan_space c2 name (bare_request (sk_embedder kw)) = Ok (safe, kw, None) ∧
          ∀ q2 plan, plan_space c2 name q2 = Ok plan → plan = (safe, with_embedder (sq_embedder q2) kw, None)
    end.
Proof.
  intros Hc Hq Hs Hp Ho out. destruct (space_runs environ d c name q ex s r0 Hc Hq Hs) as [HC (c' & res & Hv & Hc' & Hr)].
  fold out in HC, Hv, Hr. destruct (plan_created _ _ _ _ _ _ Hp) as (Hcr & _ & Hname). split.
  - eapply Forall_impl; [exact HC|]. intros t [?|(r & (safe' & kw' & config' & Hp' & Hm) & Ht)]; [by left|]. right. exists r.
    rewrite Hp in Hp'. by injection Hp' as <- <- <-.
  - exists c', res. split; [done|]. destruct res as [db|e]; [|done].
    destruct Hr as [(_ & _ & Hx)|(safe' & kw' & config' & Hp' & (r0' & [Hnd Hread] & Hm) & Hrec & Hopen)].
    { by rewrite (Hx _ _ _ Hp) in Ho. }
    rewrite Hp in Hp'. injection Hp' as <- <- <-. destruct Hc as (_ & [Hndc _] & _).
    assert (get_item safe (co_spaces c') = Some config) as Hget.
    { rewrite Hm. destruct (get_item_puts safe (put_item safe config (co_spaces c)) r0' Hnd (put_item_NoDup _ _ _ Hndc)) as [_ ->].
      rewrite get_item_put. by rewrite bool_decide_eq_true_2. }
    split_and!; [done..|]. intros ro du t c2 Ht Hload. destruct (collection_runs (H:=H) environ d ro du t _ Ht) as [_ [_ Hc2]].
    destruct (Hc2 c2 Hload) as (_ & _ & _ & _ & Hreads). unfold plan_space. rewrite Hname. cbn [mbind result_bind].
    rewrite Hreads, Hget. cbn [fmap option_fmap option_map]. split; [by rewrite (reopen_bare safe q kw config Hq Hcr)|].
    intros q2 plan. destruct (_reopen_space safe (canon_items config) q2) as [kw2|] eqn:E; [|done].
    destruct (reopen_recorded _ _ _ _ _ _ Hq Hcr E) as [-> _]. by intros [= <-].
Qed.

(** A host whose databases write nothing, a free lock and a fixed temporary name. *)
Definition demo_host : SpaceHost init_args := {| open_space := λ p a, mret a; close_space := λ _, mret tt |}.
Lemma demo_space_laws : @SpaceLaws _ demo_host.
Proof. split; intros; apply confined_pure, pure_ret. Qed.
Definition demo_temp : TempNames := λ _, ".collection-x.tmp".
Lemma demo_temp_laws : @TempLaws demo_temp.
Proof. done. Qed.
Definition demo_wait : LockWait := λ _ _ _, Ok tt.

Definition demo_root : fsys := FSys ∅ {[ ["memory"] ]}.
Definition demo_collection : collection init_args := Collection ["memory"] false None false [] [].
Definition private_vectors : space_request := SpaceRequest None (Some (PInt 8)) None None (Some (PBool false)) None.
Definition private_kwargs : space_kwargs := SpaceKw None (Some (PInt 8)) None (Some (PInt 4)) (PBool false) (PBool false).
Definition private_config : pydict := config_of [("kind", PStr "vector"); ("vector_dim", PInt 8)] 4 (false, false).

Lemma demo_records : records ["memory"] demo_root [].
Proof. split; [split; constructor|done]. Qed.
Lemma demo_handle : handle_ok (H:=init_args) (SH:=demo_host) ["memory"] demo_collection.
Proof. split; [done|]. split; [split|]; constructor. Qed.
Lemma demo_plain : plain_dim private_vectors.
Proof. by intros v [= <-]. Qed.

Lemma space_reopens_as_created_witness :
  let out := @space _ demo_host demo_temp demo_wait ∅ (PStr "notes") private_vectors no_extras demo_collection demo_root in
  Forall (λ t, records ["memory"] t [] ∨ ∃ r, merged [] (put_item "notes" private_config []) r ∧ records ["memory"] t r) (trace out) ∧
  ∃ c' res, value out = Ok (c', res) ∧ match res with
    | Err _ => c' = demo_collection ∧ records ["memory"] (final out) []
    | Ok db => co_open c' = put_item "notes" db [] ∧ records ["memory"] (final out) (co_spaces c') ∧
        get_item "notes" (co_spaces c') = Some private_config ∧
        ∀ read_only durability t (c2 : collection init_args), records ["memory"] t (co_spaces c') →
          value (LodeCollection ∅ ["memory"] read_only durability t) = Ok c2 →
          plan_space c2 (PStr "notes") (bare_request None) = Ok ("notes", private_kwargs, None) ∧
          ∀ q2 plan, plan_space c2 (PStr "notes") q2 = Ok plan → plan = ("notes", with_embedder (sq_embedder q2) private_kwargs, None)
    end.
Proof.
  exact (@space_reopens_as_created _ demo_host demo_space_laws demo_temp demo_temp_laws demo_wait ∅ ["memory"] demo_collection (PStr "notes")
    private_vectors no_extras demo_root [] "notes" private_kwargs private_config demo_handle demo_plain demo_records eq_refl eq_refl).
Defined.

Lemma collection_keeps_spaces_witness :
  let out := @run_calls _ demo_host demo_temp demo_wait ∅ ["memory"]
    [OpenCollection false None; OpenCollection false None; CallSpace 0 (PStr "a") private_vectors no_extras;
     CallSpace 1 (PStr "b") private_vectors no_extras] [] demo_root in
  Forall (λ t, ∃ r loaded, records ["memory"] t r ∧ [] ⊆ r.*1 ∧ value (_load_manifest ["memory"] t) = Ok loaded ∧ reads_as r loaded) (trace out) ∧
  ∃ l' r, value out = Ok l' ∧ Forall (handle_ok (SH:=demo_host) ["memory"]) l' ∧ records ["memory"] (final out) r ∧ [] ⊆ r.*1.
Proof.
  refine (@collection_keeps_spaces _ demo_host demo_space_laws demo_temp demo_temp_laws demo_wait ∅ ["memory"] _ [] demo_root [] _ _ demo_records);
    [|constructor]. repeat (apply Forall_cons; split; [first [exact I|exact demo_plain]|]). constructor.
Defined.

(** ** Where the checks do not reach *)

(** A name that ends in a line break is accepted. *)
Example line_break_in_name : _SPACE_NAME_RE ("notes" +:+ newline_str) = true.
Proof. reflexivity. Qed.

(** A handle that has not seen a space created by another one creates it again, with its own flags, and its
    registry overwrites the recorded entry. *)
Definition flags_after (xs : list call) : option pyval :=
  let out := @run_calls _ demo_host demo_temp demo_wait ∅ ["memory"] xs [] demo_root in
  match value (_load_manifest ["memory"] (final out)) with
  | Ok r => get_item "notes" r ≫= dict_get "store_text"
  | Err _ => None
  end.

Example stale_handle_overrides :
  let public_vectors := SpaceRequest None (Some (PInt 8)) None None None None in
  let opened := [OpenCollection false None; OpenCollection false None; CallSpace 1 (PStr "notes") private_vectors no_extras] in
  flags_after opened = Some (PBool false) ∧
  flags_after (opened ++ [CloseCollection 1; CallSpace 0 (PStr "notes") public_vectors no_extras]) = Some (PBool true).
Proof. split; vm_compute; reflexivity. Qed.

(** A manifest that is JSON but no object is an empty registry, which the next publication replaces. *)
Example list_manifest_is_empty : registry_of ["memory"] (PList []) = Ok [].
Proof. reflexivity. Qed.
