(* ===== verification/LateInteraction.v ===== *)
(** * Late interaction

    [local/late_interaction.py]: documents that are sets of patch vectors, kept as one row of a vector store
    each, with the patch matrix in the native multi-vector store. The handle runs its calls one at a time on
    the thread of the engine, so a call is a step of the engine's state. The store is opened by the
    constructor of [LocalInit.v]; NumPy's reductions and array bytes are classes, as are the engine and its host. *)

From Stdlib Require Import Ascii String ZArith Lia SpecFloat.
From stdpp Require Import base strings gmap sets list.
From S2P Require Import Prelude Numbers PyVal Bytes Json FileSys Predicate Topology EngineCore VectorBoundary LocalOpen LocalDb LocalInit.
From S2P Require Import NativeAdapter Collection.

Local Open Scope Z_scope.

Definition _PATCH_COUNT_KEY : string := "patch_count".
Definition _DTYPE_KEY : string := "li_dtype".
Definition _RESERVED_METADATA_KEYS : list string := [_PATCH_COUNT_KEY; _DTYPE_KEY].
Definition _STORAGE_CHOICES : list string := ["float16"; "float32"; "int8"].
Definition _DEFAULT_STORAGE : string := "float32".
Definition _CONFIG_FILENAME : string := "lodedb_late_interaction.meta".
Definition _CONFIG_VERSION : Z := 1.

Notation matrix := (list (list spec_float)).

(** ** Matrices *)

(** [np.linalg.norm] of a row of float32 numbers and [mean] of a column. *)
Class LateReductions := { row_norm : list spec_float → spec_float; column_mean : list spec_float → spec_float }.

(** [tobytes] of an array of 4-byte floats, 2-byte floats and signed bytes, row by row. *)
Class ArrayBytes := { f4_bytes : matrix → bytes; f2_bytes : matrix → bytes; i1_bytes : list (list Z) → bytes }.

(** A list without rows is read as one row without numbers. *)
Definition as_rows (rows : matrix) : matrix := match rows with [] => [[]] | _ => rows end.

Section matrices.
Context {LR : LateReductions} {AB : ArrayBytes}.

Definition _as_matrix (rows : matrix) (dim : Z) (normalize : bool) : result matrix :=
  array ← np_matrix (as_rows rows);
  let width := Z.of_nat (length (hd [] array)) in
  if negb (width =? dim) then raise ValueError ("each vector must have dimension " +:+ Z_str dim +:+ ", got " +:+ Z_str width)
  else if negb (forallb (forallb is_finite) array) then raise ValueError "matrix must contain only finite values"
  else if normalize
  then if existsb (λ r, is_zero (row_norm r)) array
       then raise ValueError "cannot normalize a zero-vector row; pass non-zero rows or normalize=False"
       else Ok (map (λ r, let norm := row_norm r in map (λ x, to_float32 (fdiv x norm)) r) array)
  else Ok array.

(** The columns of a matrix of a width. *)
Definition matrix_column (m : matrix) (i : nat) : list spec_float := map (λ r, nth i r S754_nan) m.

Definition _pool (m : matrix) : list spec_float :=
  let pooled := map (λ i, to_float32 (column_mean (matrix_column m i))) (seq 0 (length (hd [] m))) in
  let norm := row_norm pooled in
  if is_zero norm then hd [] m else map (λ x, to_float32 (fdiv x norm)) pooled.

(** [np.round]: to the nearest integer, ties to even. *)
Definition np_round (f : spec_float) : Z :=
  match f with
  | S754_finite s m e =>
      let a := if e >=? 0 then Z.pos m * 2 ^ e
               else let d := 2 ^ (- e) in
                    let q := Z.pos m / d in
                    let r := Z.pos m mod d in
                    match 2 * r ?= d with Lt => q | Gt => q + 1 | Eq => if Z.even q then q else q + 1 end in
      if s then - a else a
  | _ => 0
  end.

Definition clip (lo hi z : Z) : Z := Z.max lo (Z.min hi z).

Definition row_scale (r : list spec_float) : spec_float := row_max (map fabs r).
Definition row_codes (r : list spec_float) : list Z :=
  let scale := row_scale r in
  let safe := if is_zero scale then float_of_Z 1 else scale in
  map (λ x, clip (-127) 127 (np_round (to_float32 (fmul (to_float32 (fdiv x safe)) (float_of_Z 127))))) r.

Definition _encode_matrix (m : matrix) (storage : string) : result bytes :=
  if bool_decide (storage = "float32") then Ok (f4_bytes m)
  else if bool_decide (storage = "float16") then Ok (f2_bytes m)
  else if bool_decide (storage = "int8") then Ok (f4_bytes [map row_scale m] +:+ i1_bytes (map row_codes m))
  else raise ValueError ("unknown storage " +:+ str_repr storage).
End matrices.

(** ** Ids and metadata *)

Definition _require_doc_id (value : pyval) : result string :=
  match value with
  | PStr s => if is_blank s then raise ValueError "document id must be a non-empty string" else Ok s
  | _ => raise ValueError "document id must be a non-empty string"
  end.

Definition is_reserved (k : string) : bool := str_in k _RESERVED_METADATA_KEYS.

Definition _coerce_user_metadata (metadata : pyval) : result meta :=
  match metadata with
  | PNone => Ok ∅
  | PDict d =>
      match sort_by str_leb (List.filter is_reserved (map (λ kv, py_str kv.1) d)) with
      | [] => _coerce_metadata (PDict d)
      | collisions => raise ValueError ("metadata uses reserved late-interaction keys: " +:+ str_join ", " collisions)
      end
  | _ => raise ValueError "metadata must be a mapping"
  end.

Definition key_reserved (k : pyval) : bool := match k with PStr s => is_reserved s | _ => false end.
Definition _strip_internal_metadata (metadata : pyval) : result pydict :=
  items ← py_items metadata; Ok (List.filter (λ kv, negb (key_reserved kv.1)) items).

Definition _patch_count_from_metadata (metadata : pyval) : result Z :=
  v ← py_get metadata _PATCH_COUNT_KEY (PInt 0);
  match py_int (py_or v (PInt 0)) with
  | Ok n => Ok n
  | Err x => if bool_decide (exn_class x = TypeError) || is_value_error x then Ok 0 else Err x
  end.

Definition _record_id (record : pydict) : result string :=
  a ← py_get (PDict record) "document_id" PNone; b ← py_get (PDict record) "id" PNone;
  Ok (py_str (py_or (py_or a b) (PStr ""))).

Record LodeLateInteractionHit := LateHit { lh_score : spec_float; lh_id : string; lh_metadata : pydict; lh_patch_count : Z }.

Definition _hit_from_native (hit : pyval) : result LodeLateInteractionHit :=
  metadata ← py_get hit "metadata" (PDict []);
  s ← py_get hit "score" (PFloat (S754_zero false)); score ← py_float s;
  a ← py_get hit "document_id" PNone; b ← py_get hit "id" PNone;
  user ← _strip_internal_metadata metadata;
  n ← _patch_count_from_metadata metadata;
  Ok (LateHit score (py_str (py_or a b)) user n).

(** ** The configuration sidecar *)

Definition config_path (d : path) : path := _CONFIG_FILENAME :: d.

Definition corrupt_config (p : path) (storage : pyval) : string :=
  "corrupt late-interaction config at " +:+ str_join "/" (reverse p) +:+ ": storage=" +:+ py_repr storage.

(** The recorded precision; what cannot be read as an object with one counts as [None]. *)
Definition stored_precision (raw : string) : pyval :=
  match loads raw with Ok (PDict d) => match dict_get "storage" d with Some v => v | None => PNone end | _ => PNone end.

Definition _read_li_config (p : path) : io (option string) :=
  r ← attempt (read_text p);
  match r with
  | Err x => if bool_decide (exn_class x = FileNotFoundError) then mret None else lift (Err x)
  | Ok raw =>
      match stored_precision raw with
      | PStr s => if str_in s _STORAGE_CHOICES then mret (Some s) else fail ValueError (corrupt_config p (PStr s))
      | v => fail ValueError (corrupt_config p v)
      end
  end.

Definition config_payload (storage : string) : pyval := dict_of [("version", PInt _CONFIG_VERSION); ("storage", PStr storage)].
Definition _write_li_config (p : path) (storage : string) (fsync : bool) : io unit :=
  text ← lift (dumps unsorted (config_payload storage)); publish p (utf8_encode text) fsync.

Definition _resolve_storage (d : path) (read_only fsync : bool) (requested : option string) : io string :=
  stored ← _read_li_config (config_path d);
  match requested, stored with
  | Some r, Some s =>
      if bool_decide (r = s) then mret s
      else fail ValueError ("this index was created with storage=" +:+ str_repr s +:+ "; reopen with storage=" +:+ str_repr s
             +:+ " or omit it (got storage=" +:+ str_repr r +:+ ")")
  | _, Some s => mret s
  | _, None =>
      let resolved := default _DEFAULT_STORAGE requested in
      _ ← (if read_only then mret tt else _write_li_config (config_path d) resolved fsync);
      mret resolved
  end.

(** ** The index *)

(** A bring-your-own encoder. *)
Record Encoder := MkEncoder { encode_documents : list pyval → result (list matrix); encode_queries : list pyval → result (list matrix) }.

(** [resident] is a flag or a keyword; the other keyword arguments are those of the store. *)
Record late_args := LateArgs
  { la_dim : Z; la_encoder : option Encoder; la_bit_width : Z; la_storage : option string; la_scoring : string;
    la_resident : bool + string; la_read_only : bool; la_kwargs : init_args }.

Record LodeLateInteractionIndex (X : Type) := LateIndex
  { li_db : LodeDB X; li_dim : Z; li_encoder : option Encoder; li_read_only : bool; li_storage : string; li_closed : bool }.
Arguments LateIndex {X} _ _ _ _ _ _.
Arguments li_db {X} _.
Arguments li_dim {X} _.
Arguments li_encoder {X} _.
Arguments li_read_only {X} _.
Arguments li_storage {X} _.
Arguments li_closed {X} _.

Definition check_late_args (a : late_args) : result unit :=
  if (la_dim a <=? 0) || negb (la_dim a mod 8 =? 0) then raise ValueError "dim must be a positive multiple of 8"
  else if match la_storage a with Some s => negb (str_in s _STORAGE_CHOICES) | None => false end
  then raise ValueError "storage must be one of ('float16', 'float32', 'int8')"
  else if negb (str_in (la_scoring a) ["numpy"; "native"]) then raise ValueError "scoring must be 'numpy' or 'native'"
  else if match la_resident a with inl _ => false | inr s => negb (bool_decide (s = "auto")) end
  then raise ValueError "resident must be True, False, or 'auto'"
  else if match ia_store_text (la_kwargs a) with PBool false => true | _ => false end
  then raise ValueError "LodeLateInteractionIndex retains per-document state; store_text must remain True"
  else Ok tt.

(** [LodeDB.open_vector_store]: text is retained and every commit is a generation. *)
Definition vector_store_args (a : late_args) : init_args :=
  let k := la_kwargs a in
  Init (ia_model k) (PInt (la_dim a)) (ia_embedder k) (PInt (la_bit_width a)) (ia_chunk_character_limit k) (PBool true) (ia_index_text k)
    (ia_ann k) (ia_ann_clusters k) (ia_ann_nprobe k) (ia_rescore k) (ia_rescore_dtype k) (ia_rescore_oversample k) (ia_compression k)
    (la_read_only a) (ia_durability k) (Some "generation") (ia_embedding_backend k).

Section open.
Context {X : Type} {NO : NativeOpen X} {NH : NativeHost X}.
Context (environ : gmap string string) (build_backend : LocalModelPreset → result EmbeddingBackend).

(** The arguments are checked before anything is opened; the durability decides whether writes are synced. *)
Definition late_settings (a : late_args) : result bool :=
  _ ← check_late_args a;
  match ia_durability (la_kwargs a) with None => durability_from_env environ | v => normalize_durability v end.

Definition late_open (d : path) (a : late_args) : io (LodeLateInteractionIndex X) :=
  fsync ← lift (late_settings a);
  opened ← LodeDB_init environ build_backend d (vector_store_args a);
  storage ← _resolve_storage d (la_read_only a) fsync (la_storage a);
  mret (LateIndex opened.2 (la_dim a) (la_encoder a) (la_read_only a) storage false).
End open.

(** Closing runs once; a failure of the teardown is swallowed. *)
Definition late_close {X} {SH : SpaceHost (LodeDB X)} (i : LodeLateInteractionIndex X) : io (LodeLateInteractionIndex X) :=
  if li_closed i then mret i
  else _ ← attempt (close_space (li_db i));
       mret (LateIndex (li_db i) (li_dim i) (li_encoder i) (li_read_only i) (li_storage i) true).

(** One mapping of a batch, and one to encode. *)
Record patch_item := PatchItem { pi_id : pyval; pi_patches : option matrix; pi_metadata : pyval }.
Record content_item := ContentItem { cn_id : pyval; cn_content : pyval; cn_metadata : pyval }.

Section index.
Context {X : Type} {CE : CoreEngine X} {LR : LateReductions} {AB : ArrayBytes}.
Local Notation index := (LodeLateInteractionIndex X).
Local Notation _ID := _LOCAL_INDEX_ID.

Definition with_li_engine (i : index) (e : X) : index :=
  LateIndex (with_engine (li_db i) e) (li_dim i) (li_encoder i) (li_read_only i) (li_storage i) (li_closed i).

Definition _call_on_native_thread {T} (m : st X T) : st index T := λ i,
  if li_closed i then (raise RuntimeError "late-interaction index is closed", i)
  else let out := m (db_engine (li_db i)) in (out.1, with_li_engine i out.2).

Definition _late_require_writable : st index unit := λ i,
  (if li_read_only i then raise ReadOnlyError "this late-interaction index is read-only" else Ok tt, i).

Definition _require_encoder : st index Encoder := λ i,
  (match li_encoder i with
   | Some e => Ok e
   | None => raise RuntimeError ("this index has no encoder; pass encoder= exposing encode_documents / "
               +:+ "encode_queries, or use add_document / search with precomputed matrices")
   end, i).

(** The user's metadata with the bookkeeping keys. *)
Definition stamped (m : meta) (rows : Z) (storage : string) : meta := <[_DTYPE_KEY := storage]> (<[_PATCH_COUNT_KEY := Z_str rows]> m).

Definition write_document (dim : Z) (storage : string) (id : pyval) (patches : matrix) (metadata : pyval) (normalize : bool)
    : result multivector_document :=
  document_id ← _require_doc_id id;
  m ← _as_matrix patches dim normalize;
  user ← _coerce_user_metadata metadata;
  let rows := Z.of_nat (length m) in
  data ← _encode_matrix m storage;
  Ok (Multivector document_id (_pool m) (stamped user rows storage) storage rows data).

Definition _prepare_write (id : pyval) (patches : matrix) (metadata : pyval) (normalize : bool) : st index multivector_document :=
  λ i, (write_document (li_dim i) (li_storage i) id patches metadata normalize, i).

Definition _upsert_and_persist (documents : list multivector_document) : st X unit :=
  _ ← NativeCoreEngineHandle.upsert_multivector _ID documents; NativeCoreEngineHandle.persist.

Definition _delete_and_persist (document_id : string) : st X bool :=
  response ← NativeCoreEngineHandle.delete_documents _ID [document_id];
  _ ← NativeCoreEngineHandle.persist;
  n ← st_lift (v ← py_get (PDict response) "documents_deleted" (PInt 0); py_int (py_or v (PInt 0)));
  mret (0 <? n).

Definition add_document (id : pyval) (patches : matrix) (metadata : pyval) (normalize : bool) : st index string :=
  _ ← _late_require_writable;
  document ← _prepare_write id patches metadata normalize;
  _ ← _call_on_native_thread (_upsert_and_persist [document]);
  mret (mv_id document).

Definition prepare_item (normalize : bool) (item : patch_item) : st index multivector_document :=
  patches ← st_lift (match pi_patches item with Some p => Ok p | None => raise ValueError "each document needs a 'patches' matrix" end);
  _prepare_write (pi_id item) patches (pi_metadata item) normalize.

Definition add_documents (documents : list patch_item) (normalize : bool) : st index (list string) :=
  _ ← _late_require_writable;
  prepared ← mapS (prepare_item normalize) documents;
  _ ← (match prepared with [] => mret tt | _ => _call_on_native_thread (_upsert_and_persist prepared) end);
  mret (map mv_id prepared).

Definition add_texts (documents : list content_item) (normalize : bool) : st index (list string) :=
  _ ← _late_require_writable;
  encoder ← _require_encoder;
  let contents := map cn_content documents in
  _ ← st_lift (if existsb (λ v, match v with PNone => true | _ => false end) contents
               then raise ValueError "each document needs 'content' to encode" else Ok tt);
  matrices ← st_lift (encode_documents encoder contents);
  _ ← st_lift (if Nat.eqb (length matrices) (length documents) then Ok tt
               else raise RuntimeError "encoder returned the wrong number of patch matrices");
  add_documents (zip_with (λ item m, PatchItem (cn_id item) (Some m) (cn_metadata item)) documents matrices) normalize.

Definition late_remove (id : pyval) : st index bool :=
  _ ← _late_require_writable;
  document_id ← st_lift (_require_doc_id id);
  _call_on_native_thread (_delete_and_persist document_id).

(** ** Reads *)

Definition late_search (query : matrix) (k : Z) (filter : pyval) (normalize : bool) : st index (list LodeLateInteractionHit) :=
  _ ← st_lift (if k <=? 0 then raise ValueError "k must be positive" else Ok tt);
  query_matrix ← st_read (λ i : index, _as_matrix query (li_dim i) normalize);
  normalized_filter ← st_lift (_normalize_filter filter);
  response ← _call_on_native_thread (st_read (NativeCoreEngineHandle.query_multivector _ID query_matrix k normalized_filter));
  st_lift (v ← py_get (PDict response) "hits" (PList []); l ← py_iter v; mapR _hit_from_native l).

Definition late_search_text (query : pyval) (k : Z) (filter : pyval) (normalize : bool) : st index (list LodeLateInteractionHit) :=
  encoder ← _require_encoder;
  matrices ← st_lift (encode_queries encoder [query]);
  match matrices with
  | [m] => late_search m k filter normalize
  | _ => st_lift (raise RuntimeError "encoder must return exactly one query matrix")
  end.

Definition late_search_many (queries : list matrix) (k : Z) (filter : pyval) (normalize : bool) : st index (list (list LodeLateInteractionHit)) :=
  _ ← st_lift (if k <=? 0 then raise ValueError "k must be positive" else Ok tt);
  mapS (λ q, late_search q k filter normalize) queries.

Definition late_count : st index Z :=
  stats ← _call_on_native_thread (st_read (NativeCoreEngineHandle.stats _ID));
  st_lift (v ← py_get (PDict stats) "document_count" (PInt 0); py_int (py_or v (PInt 0))).

Definition record_patches (record : pydict) : result Z := v ← py_get (PDict record) "metadata" (PDict []); _patch_count_from_metadata v.

Definition patch_count : st index Z :=
  records ← _call_on_native_thread (st_read (NativeCoreEngineHandle.list_documents _ID None None None));
  st_lift (counts ← mapR record_patches records; Ok (foldr Z.add 0 counts)).

(** One redacted document. *)
Record late_record := LateRecord { lr_id : string; lr_metadata : pydict; lr_patch_count : Z }.

Definition late_record_of (record : pydict) : result late_record :=
  id ← _record_id record;
  v ← py_get (PDict record) "metadata" (PDict []);
  user ← _strip_internal_metadata v;
  n ← _patch_count_from_metadata v;
  Ok (LateRecord id user n).

Definition late_list_documents (filter : pyval) : st index (list late_record) :=
  normalized ← st_lift (_normalize_filter filter);
  records ← _call_on_native_thread (st_read (NativeCoreEngineHandle.list_documents _ID normalized None None));
  st_lift (out ← mapR late_record_of records; Ok (sort_by (λ a b, str_leb (lr_id a) (lr_id b)) out)).

Definition late_persist : st index pydict :=
  _call_on_native_thread (_ ← NativeCoreEngineHandle.persist; st_read (NativeCoreEngineHandle.stats _ID)).
End index.

(** ** The recorded precision *)

Definition recorded (d : path) (p : string) (s : fsys) : Prop :=
  ∃ f raw, files s !! config_path d = Some f ∧ utf8_decode (fdata f) = Ok raw ∧ stored_precision raw = PStr p ∧ str_in p _STORAGE_CHOICES = true.
Definition unrecorded (d : path) (s : fsys) : Prop := files s !! config_path d = None.

Lemma config_text_read q : ∃ text, dumps unsorted (config_payload q) = Ok text ∧ stored_precision text = PStr q.
Proof.
  destruct (loads_dumps_unsorted (config_payload q)) as [Hd Hl]; [reflexivity|]. eexists. split; [exact Hd|]. unfold stored_precision. by rewrite Hl.
Qed.

Lemma read_recorded d p s : recorded d p s → _read_li_config (config_path d) s = Out [] s (Ok (Some p)).
Proof.
  intros (f & raw & Hf & Hr & Hp & Hc). unfold _read_li_config. erewrite bind_run_pure.
  2: { unfold attempt, read_text. erewrite bind_run_pure; [|unfold read_bytes; by rewrite Hf]. cbn. by rewrite Hr. }
  cbn beta iota. rewrite Hp, Hc. done.
Qed.

Lemma read_unrecorded d s : unrecorded d s → _read_li_config (config_path d) s = Out [] s (Ok None).
Proof.
  intros H. unfold unrecorded in H. unfold _read_li_config.
  assert (read_bytes (config_path d) s = no_such_file (config_path d) s) as Hb by (unfold read_bytes; by rewrite H).
  assert (∃ m, attempt (read_text (config_path d)) s = Out [] s (Ok (Err (Exn FileNotFoundError m)))) as (m & Hm).
  { eexists. unfold attempt, read_text, mbind, io_bind. rewrite Hb. reflexivity. }
  by rewrite (bind_run_pure _ _ _ _ Hm).
Qed.

Lemma resolve_recorded d p ro fsync req s : recorded d p s →
  if bool_decide (req = None ∨ req = Some p) then _resolve_storage d ro fsync req s = Out [] s (Ok p)
  else ∃ x, _resolve_storage d ro fsync req s = Out [] s (Err x) ∧ exn_class x = ValueError.
Proof.
  intros Hr. unfold _resolve_storage. rewrite (bind_run_pure _ _ _ _ (read_recorded d p s Hr)). destruct req as [r|]; [|by rewrite bool_decide_eq_true_2 by auto].
  destruct (decide (r = p)) as [->|Hne].
  - rewrite !bool_decide_eq_true_2 by auto. done.
  - rewrite (bool_decide_eq_false_2 (_ ∨ _)) by naive_solver. rewrite bool_decide_eq_false_2 by done. by eexists.
Qed.

(** A file published at the sidecar's path records what it says. *)
Lemma published_recorded d text q f s t : utf8_decode (fdata f) = Ok text → stored_precision text = PStr q → str_in q _STORAGE_CHOICES = true →
  unrecorded d s → published s (config_path d) f t → unrecorded d t ∨ recorded d q t.
Proof.
  intros Hd Hs Hq Hu (_ & _ & [Hf|Hf]); [left; unfold unrecorded in *; by rewrite Hf|]. right. by exists f, text.
Qed.

Lemma resolve_unrecorded d ro fsync req s : dir_exists s d = true → match req with Some r => str_in r _STORAGE_CHOICES | None => true end = true →
  unrecorded d s → let q := default _DEFAULT_STORAGE req in
  runs (λ t, unrecorded d t ∨ ro = false ∧ recorded d q t) (_resolve_storage d ro fsync req) s
    (λ r t, r = Ok q ∧ if ro then t = s else recorded d q t).
Proof.
  intros Hdir Hreq Hu. cbv zeta. set (q := default _DEFAULT_STORAGE req).
  assert (str_in q _STORAGE_CHOICES = true) as Hq by (destruct req; [exact Hreq|reflexivity]).
  unfold _resolve_storage. eapply runs_pure; [by apply read_unrecorded|].
  assert (runs (λ t, unrecorded d t ∨ ro = false ∧ recorded d q t)
            (_ ← (if ro then mret tt else _write_li_config (config_path d) q fsync); mret q) s
            (λ r t, r = Ok q ∧ if ro then t = s else recorded d q t)) as H; [|by destruct req].
  destruct ro; [eapply runs_pure; [reflexivity|by apply runs_ret]|].
  destruct (config_text_read q) as (text & Ht & Hp). eapply runs_bind.
  - unfold _write_li_config. eapply runs_pure; [rewrite Ht; reflexivity|].
    eapply runs_weaken; [by apply publish_runs| |intros r t H; exact H].
    intros t Hpub. apply (published_recorded d text q) in Hpub as [?|?]; [by left|by right|apply utf8_decode_encode|done|done|done].
  - intros [] t [_ ->]. apply runs_ret. split; [done|]. exists (File (utf8_encode text) fsync), text.
    split; [cbn; by rewrite lookup_insert_eq|]. split; [apply utf8_decode_encode|done].
  - by intros e t [? _].
Qed.

(** What the store's opening leaves alone. *)
Definition sidecar_same (d : path) (s t : fsys) : Prop :=
  files t !! config_path d = files s !! config_path d ∧ (dir_exists s d = true → dir_exists t d = true).
Definition spares {A} (d : path) (m : io A) : Prop := ∀ s, runs (sidecar_same d s) m s (λ _ t, sidecar_same d s t).

Global Instance sidecar_same_po d : PreOrder (sidecar_same d).
Proof. split; [done|]. intros s t u [H1 H2] [H3 H4]. split; [congruence|auto]. Qed.

Lemma sidecar_same_recorded d p s t : sidecar_same d s t → recorded d p s → recorded d p t.
Proof. intros [H _] (f & raw & Hf & Hr). exists f, raw. by rewrite H. Qed.
Lemma sidecar_same_unrecorded d s t : sidecar_same d s t → unrecorded d s → unrecorded d t.
Proof. intros [H _]. unfold unrecorded. by rewrite H. Qed.

Lemma spares_pure {A} d (m : io A) : pure_io m → spares d m.
Proof. intros H s. unfold runs. rewrite (pure_run m s H). by split; [constructor|]. Qed.
Lemma spares_bind {A B} d (m : io A) (k : A → io B) : spares d m → (∀ a, spares d (k a)) → spares d (m ≫= k).
Proof.
  intros Hm Hk s. eapply runs_bind; [apply Hm| |done].
  intros a t Ht. eapply runs_weaken; [apply Hk|intros u Hu; by transitivity t|intros r u Hu; by transitivity t].
Qed.
Lemma spares_attempt {A} d (m : io A) : spares d m → spares d (attempt m).
Proof. intros Hm s. exact (Hm s). Qed.
Lemma spares_mkdir d : spares d (mkdir_p d).
Proof.
  intros s. unfold runs, mkdir_p. destruct (dir_exists s d) eqn:Ed; [by split; [constructor|]|].
  assert (sidecar_same d s (FSys (files s) (ancestors d ∪ dirs s))); [|by split; [constructor; [done|constructor]|]]. split; [done|congruence].
Qed.

(** The compiled engine writes the files of its store: it neither touches the sidecar nor removes the directory. *)
Class SidecarLaws (X : Type) {NO : NativeOpen X} {NH : NativeHost X} : Prop := {
  open_spares d o : spares d (open_engine d o);
  writes_spare d e s : Forall (sidecar_same d s) (host_writes d e s) }.

Section opening_store.
Context {X : Type} {NO : NativeOpen X} {NH : NativeHost X} {SL : SidecarLaws X}.
Context (environ : gmap string string) (build_backend : LocalModelPreset → result EmbeddingBackend) (d : path).

Lemma spares_on_engine {A} (m : fsys → st X A) e : spares d (on_engine d m e).
Proof.
  intros s. unfold runs, on_engine. cbv zeta. cbn [trace final value]. pose proof (writes_spare d (m s e).2 s) as Hw. split; [done|].
  destruct (host_writes d (m s e).2 s) as [|t l _] using rev_ind; [done|]. rewrite List.last_last.
  by apply Forall_app in Hw as [_ [Hw _]%Forall_cons].
Qed.

Lemma spares_finalized rq e : spares d (finalized d rq e).
Proof.
  unfold finalized. apply spares_bind; [apply spares_on_engine|]. intros out. apply spares_pure. solve_pure.
Qed.

Lemma spares_open o rq : spares d (_open d o rq).
Proof.
  assert (spares d (e ← open_engine d o; finalized d rq e)) as Hopen by (apply spares_bind; [apply open_spares|apply spares_finalized]).
  unfold _open. destruct (eo_read_only o); [exact Hopen|]. apply spares_bind; [|intros _; exact Hopen]. unfold recover_wal.
  apply spares_bind.
  { apply spares_pure. destruct (eo_commit_mode o); [|apply pure_ret]. unfold _has_leftover_wal, glob_suffix. apply pure_bind; [apply pure_gets|].
    intros l. apply pure_bind; [apply pure_mapIO; intros n; apply pure_file_size|intros z; apply pure_ret]. }
  intros []; [|by apply spares_pure, pure_ret]. apply spares_bind; [apply open_spares|]. intros e.
  apply spares_bind; [apply spares_on_engine|]. intros out. apply spares_pure, pure_lift.
Qed.

(** Opening the store leaves the sidecar alone, and an open store has its directory. *)
Lemma store_opens a s : runs (sidecar_same d s) (LodeDB_init environ build_backend d a) s
  (λ r t, sidecar_same d s t ∧ (is_Ok r → dir_exists t d = true)).
Proof.
  unfold LodeDB_init. eapply (runs_bind _ _ _ _ _ (λ r t, t = s)); [by apply runs_lift| |intros e t ->; split; [done|by intros []]].
  intros rv t ->. eapply (runs_bind _ _ _ _ _ (λ r t, sidecar_same d s t ∧ (is_Ok r → dir_exists t d = true))).
  - destruct (ia_read_only a).
    + unfold is_dir, gets. destruct (dir_exists s d) eqn:Ed; unfold runs, mbind, io_bind; cbn; rewrite Ed; cbn; (split; [constructor|]); [done|].
      split; [done|by intros []].
    + destruct (spares_mkdir d s) as [Ht Hf]. split; [exact Ht|]. split; [exact Hf|]. intros _. unfold mkdir_p.
      destruct (dir_exists s d) eqn:Ed; [exact Ed|]. cbn. apply bool_decide_eq_true_2. cbn. destruct d; set_solver.
  - intros [] t [Ht Hd]. unfold _maybe_init_native_vector_engine.
    assert (spares d (e ← (r ← attempt (_open d (options_of rv) (request_of a rv));
      lift (match r with Ok e => Ok e | Err x => Err (translate_open_error d x) end)); mret (rv_config rv, Db e "" 0))) as Hs.
    { apply spares_bind; [apply spares_bind; [apply spares_attempt, spares_open|]; intros r; apply spares_pure, pure_lift|].
      intros e. apply spares_pure, pure_ret. }
    eapply runs_weaken; [apply Hs|intros u Hu; by transitivity t|]. intros r u Hu. split; [by transitivity t|]. intros _. apply Hu, Hd. by eexists.
  - intros e t [Ht _]. split; [done|by intros []].
Qed.

Lemma checked_storage a fsync : late_settings environ a = Ok fsync →
  match la_storage a with Some r => str_in r _STORAGE_CHOICES | None => true end = true.
Proof.
  unfold late_settings. intros (u & Hu & _)%bind_Ok. revert Hu. unfold check_late_args. case_match; [done|].
  destruct (la_storage a); [|done]. by destruct (str_in _ _).
Qed.

(** The open without a recorded precision. *)
Lemma open_unrecorded a s : unrecorded d s → let q := default _DEFAULT_STORAGE (la_storage a) in
  runs (λ t, unrecorded d t ∨ la_read_only a = false ∧ recorded d q t) (late_open environ build_backend d a) s
    (λ r t, match r with
            | Ok i => li_storage i = q ∧ if la_read_only a then unrecorded d t else recorded d q t
            | Err _ => unrecorded d t
            end).
Proof.
  intros Hu. cbv zeta. unfold late_open. eapply (runs_bind _ _ _ _ _ (λ r t, r = late_settings environ a ∧ t = s)); [by apply runs_lift| |by intros x t [_ ->]].
  intros fsync t [Ea ->]. symmetry in Ea. apply checked_storage in Ea. eapply runs_bind.
  - eapply runs_weaken; [apply store_opens|intros t Ht; left; by eapply sidecar_same_unrecorded|intros r t H; exact H].
  - intros [c db] t [Ht Hd]. pose proof (sidecar_same_unrecorded d s t Ht Hu) as Hut. eapply runs_bind.
    + apply resolve_unrecorded; [apply Hd; by eexists|done|done].
    + intros storage u [[= ->] Hq]. apply runs_ret. split; [done|]. destruct (la_read_only a); [by subst|done].
    + by intros e u [? _].
  - intros x t [Ht _]. by eapply sidecar_same_unrecorded.
Qed.

(** The open with one: nothing is written after the store's own opening. *)
Lemma open_recorded a s p fsync : recorded d p s → late_settings environ a = Ok fsync →
  let o := late_open environ build_backend d a s in
  let opened := LodeDB_init environ build_backend d (vector_store_args a) s in
  trace o = trace opened ∧ final o = final opened ∧
  match value opened with
  | Err x => value o = Err x
  | Ok r => if bool_decide (la_storage a = None ∨ la_storage a = Some p)
            then value o = Ok (LateIndex r.2 (la_dim a) (la_encoder a) (la_read_only a) p false)
            else ∃ x, value o = Err x ∧ exn_class x = ValueError
  end.
Proof.
  intros Hr Ha. cbv zeta. unfold late_open. rewrite lift_bind_run, Ha.
  destruct (store_opens (vector_store_args a) s) as [_ [Hf _]]. apply (sidecar_same_recorded _ p) in Hf; [|done].
  destruct (LodeDB_init environ build_backend d (vector_store_args a) s) as [tr t [[c db]|x]] eqn:E; cbn [trace final value] in *.
  - rewrite (bind_run _ _ _ _ _ _ E). pose proof (resolve_recorded d p (la_read_only a) fsync (la_storage a) t Hf) as Hv.
    destruct (bool_decide _).
    + rewrite (bind_run_pure _ _ _ _ Hv). cbn. by rewrite app_nil_r.
    + destruct Hv as (x & Hx & Hc). rewrite (bind_run_err _ _ _ _ _ _ Hx). cbn. rewrite app_nil_r. eauto.
  - by rewrite (bind_run_err _ _ _ _ _ _ E).
Qed.
End opening_store.

(** C40: opening a late-interaction index fixes the storage precision of its directory. Where the sidecar records none,
    a writable open that succeeds has recorded the precision it asks for (float32 by default) in one atomic step, after
    the store itself was opened: in every state on the way the sidecar is absent or complete; a read-only open writes
    none, and an open that fails leaves none. Where the sidecar records a precision, it stays in every state of every
    open, writable or not, successful or not; the open writes what opening the store writes and nothing more,
    fails as that fails, and otherwise succeeds with the recorded precision exactly when it asks for that one or for
    none: a request for another raises [ValueError]. *)
Theorem storage_precision_fixed {X : Type} {NO : NativeOpen X} {NH : NativeHost X} {SL : SidecarLaws X} environ build_backend
    (d : path) (a : late_args) (s : fsys) :
  let o := late_open environ build_backend d a s in
  let opened := LodeDB_init environ build_backend d (vector_store_args a) s in
  let q := default _DEFAULT_STORAGE (la_storage a) in
  (unrecorded d s →
     Forall (λ t, unrecorded d t ∨ la_read_only a = false ∧ recorded d q t) (trace o) ∧
     match value o with
     | Ok i => li_storage i = q ∧ if la_read_only a then unrecorded d (final o) else recorded d q (final o)
     | Err _ => unrecorded d (final o)
     end) ∧
  (∀ p, recorded d p s →
     Forall (recorded d p) (trace o) ∧ recorded d p (final o) ∧
     match late_settings environ a with
     | Err x => o = Out [] s (Err x)
     | Ok _ =>
         trace o = trace opened ∧ final o = final opened ∧
         match value opened with
         | Err x => value o = Err x
         | Ok r => if bool_decide (la_storage a = None ∨ la_storage a = Some p)
                   then value o = Ok (LateIndex r.2 (la_dim a) (la_encoder a) (la_read_only a) p false)
                   else ∃ x, value o = Err x ∧ exn_class x = ValueError
         end
     end).
Proof.
  cbv zeta. split; [apply open_unrecorded|]. intros p Hp. destruct (late_settings environ a) as [fsync|x] eqn:Ea.
  - destruct (open_recorded environ build_backend d a s p fsync Hp Ea) as (Ht & Hf & Hv). rewrite Ht, Hf.
    destruct (store_opens environ build_backend d (vector_store_args a) s) as [HC [HQ _]].
    split; [|split; [by eapply sidecar_same_recorded|done]]. eapply Forall_impl; [exact HC|]. intros t Hut. by eapply sidecar_same_recorded.
  - assert (late_open environ build_backend d a s = Out [] s (Err x)) as -> by (unfold late_open; by rewrite lift_bind_run, Ea). done.
Qed.

(** An index of whole-byte matrices in a fresh directory, then a reader that does not ask, and one that asks for another
    precision. *)
Definition idx_args (storage : option string) (read_only : bool) : late_args := LateArgs 8 None 4 storage "native" (inr "auto") read_only default_args.
Definition idx_open := @late_open _ recorder quiet_host ∅ no_model ["idx"].

Lemma quiet_sidecar : @SidecarLaws _ recorder quiet_host.
Proof. split; [intros d o; apply spares_pure, pure_ret|constructor]. Qed.

Definition idx_disk : fsys := FSys ∅ ∅.
Definition idx_stored : fsys := final (idx_open (idx_args (Some "int8") false) idx_disk).

Lemma idx_recorded : recorded ["idx"] "int8" idx_stored.
Proof. eexists _, _. split; [vm_compute; reflexivity|]. split; [vm_compute; reflexivity|]. by vm_compute. Qed.

Lemma storage_precision_fixed_witness :
  Forall (λ t, unrecorded ["idx"] t ∨ false = false ∧ recorded ["idx"] "int8" t) (trace (idx_open (idx_args (Some "int8") false) idx_disk)) ∧
  recorded ["idx"] "int8" (final (idx_open (idx_args None true) idx_stored)) ∧
  ∃ x, value (idx_open (idx_args (Some "float16") false) idx_stored) = Err x ∧ exn_class x = ValueError.
Proof.
  split; [|split].
  - exact (proj1 (proj1 (@storage_precision_fixed _ recorder quiet_host quiet_sidecar ∅ no_model ["idx"] (idx_args (Some "int8") false) idx_disk) eq_refl)).
  - exact (proj1 (proj2 (proj2 (@storage_precision_fixed _ recorder quiet_host quiet_sidecar ∅ no_model ["idx"] (idx_args None true) idx_stored)
      "int8" idx_recorded))).
  - exact (proj2 (proj2 (proj2 (proj2 (proj2 (@storage_precision_fixed _ recorder quiet_host quiet_sidecar ∅ no_model ["idx"]
      (idx_args (Some "float16") false) idx_stored) "int8" idx_recorded))))).
Defined.

(** ** Added documents are listed *)

(** The multi-vector store: precision, patch count, bytes and metadata of every document. *)
Record patch_doc := PatchDoc { pd_dtype : string; pd_count : Z; pd_bytes : bytes; pd_meta : meta }.
Class PatchView (X : Type) := { patch_docs : X → gmap string patch_doc }.

(** A header of the sidecar, as the extension reads it, and its part of the buffer. *)
Record multi_header := MultiHeader { mh_id : string; mh_meta : meta; mh_dtype : string; mh_count : Z; mh_nbytes : nat }.

Definition read_int (v : pyval) : option Z := match v with PInt z => Some z | _ => None end.
Definition read_multi (v : pyval) : option multi_header :=
  match v with
  | PDict d => id ← dict_get "document_id" d ≫= read_str; metadata ← dict_get "metadata" d ≫= read_meta;
               dtype ← dict_get "dtype" d ≫= read_str; count ← dict_get "patch_count" d ≫= read_int;
               nbytes ← dict_get "nbytes" d ≫= read_int; Some (MultiHeader id metadata dtype count (Z.to_nat nbytes))
  | _ => None
  end.

Fixpoint split_blobs (sizes : list nat) (buffer : bytes) : list bytes :=
  match sizes with [] => [] | n :: sizes => str_take n buffer :: split_blobs sizes (str_drop n buffer) end.

Definition put_patches (headers : list multi_header) (blobs : list bytes) (m : gmap string patch_doc) : gmap string patch_doc :=
  fold_left (λ m hb, <[mh_id hb.1 := PatchDoc (mh_dtype hb.1) (mh_count hb.1) hb.2 (mh_meta hb.1)]> m) (zip headers blobs) m.

Section multi_laws.
Context {X : Type} {CE : CoreEngine X} {PV : PatchView X}.
Local Notation _ID := _LOCAL_INDEX_ID.

Definition lists_as (x : string * patch_doc) (r : pydict) : Prop :=
  dict_get "document_id" r = Some (PStr x.1) ∧ dict_get "metadata" r = Some (PDict (meta_dict (pd_meta x.2))).

Class MultiLaws : Prop := {
  multi_upsert_law m buffer text headers e : read_list read_multi text = Some headers → length m = length headers →
    is_Ok (core_upsert_multivector _ID m buffer text e).1 →
    patch_docs (core_upsert_multivector _ID m buffer text e).2 =
      put_patches headers (split_blobs (map mh_nbytes headers) buffer) (patch_docs e);
  multi_persist_law e : patch_docs (core_persist e).2 = patch_docs e;
  multi_list_law e : ∃ t docs records, core_list_documents _ID None None None e = Ok t ∧ loads t = Ok (PList (map PDict records)) ∧
    docs ≡ₚ map_to_list (patch_docs e) ∧ Forall2 lists_as docs records }.
End multi_laws.
Arguments MultiLaws X {_ _}.

(** The header of a document. *)
Definition header_of (d : multivector_document) : multi_header :=
  MultiHeader (mv_id d) (mv_metadata d) (mv_dtype d) (mv_patch_count d) (slen (mv_patch_bytes d)).
Definition stored_patches (d : multivector_document) : patch_doc := PatchDoc (mv_dtype d) (mv_patch_count d) (mv_patch_bytes d) (mv_metadata d).

Lemma multi_through d : json_ok (multivector_payload d) = true ∧ read_multi (canon (multivector_payload d)) = Some (header_of d).
Proof.
  assert (json_ok (multivector_payload d) = true) as Hok by object_ok. split; [done|].
  unfold multivector_payload in *. destruct (object_get _ Hok) as (p & -> & Hp). cbn [read_multi]. rewrite !Hp.
  change (get_item "document_id" _) with (Some (PStr (mv_id d))). change (get_item "metadata" _) with (Some (metadata_payload (mv_metadata d))).
  change (get_item "dtype" _) with (Some (PStr (mv_dtype d))). change (get_item "patch_count" _) with (Some (PInt (mv_patch_count d))).
  change (get_item "nbytes" _) with (Some (PInt (Z.of_nat (slen (mv_patch_bytes d))))).
  cbn [fmap option_fmap option_map mbind option_bind canon read_str read_int]. rewrite read_meta_dict. cbn. by rewrite Nat2Z.id.
Qed.

(** The sizes of the sidecar cut the joined buffer where the documents met. *)
Lemma split_joined l : split_blobs (map slen l) (str_join "" l) = l.
Proof.
  induction l as [|b l IH]; [done|]. cbn [map split_blobs]. assert (str_join "" (b :: l) = b +:+ str_join "" l) as ->.
  { destruct l as [|c l]; cbn; [by rewrite sapp_nil_r|done]. }
  by rewrite str_take_app, str_drop_app, IH.
Qed.

Lemma put_patches_documents l m : put_patches (map header_of l) (map mv_patch_bytes l) m =
  fold_left (λ m d, <[mv_id d := stored_patches d]> m) l m.
Proof. unfold put_patches. revert m. induction l as [|d l IH]; intros m; [done|]. cbn. apply IH. Qed.

(** ** Metadata *)

Lemma dict_get_meta_dict k m : dict_get k (meta_dict m) = PStr <$> m !! k.
Proof.
  unfold meta_dict. assert (∀ l : list (string * string), dict_get k (map (λ kv, (PStr kv.1, PStr kv.2)) l) = PStr <$> get_item k l) as ->.
  { unfold dict_get, get_item, key_is. induction l as [|[k' v] l IH]; [done|]. cbn. by destruct (bool_decide (k' = k)). }
  f_equal. apply option_eq. intros v. rewrite get_item_elem by apply items_sorted_NoDup. unfold items_sorted.
  rewrite sort_by_perm. by rewrite elem_of_map_to_list.
Qed.

Lemma dict_get_strip k d : dict_get k (List.filter (λ kv, negb (key_reserved kv.1)) d) = if is_reserved k then None else dict_get k d.
Proof.
  unfold dict_get. induction d as [|[v w] d IH]; [by destruct (is_reserved k)|]. cbn [List.filter List.find key_is fst].
  destruct (key_reserved v) eqn:E; cbn [negb List.find key_is fst].
  - rewrite IH. destruct v as [| | | |s| | | |]; try done. cbn in E |- *. case_bool_decide; [subst; by rewrite E|done].
  - destruct v as [| | | |s| | | |]; try exact IH. cbn in E |- *. case_bool_decide; [subst; by rewrite E|exact IH].
Qed.

Lemma coerce_keys k l : ∀ acc m, foldR coerce_step acc l = Ok m → Forall (λ kv : pyval * pyval, kv.1 ≠ PStr k) l → acc !! k = None → m !! k = None.
Proof.
  induction l as [|[v w] l IH]; intros acc m H HF Hacc; cbn [foldR] in H; [by injection H as <-|].
  apply Forall_cons in HF as [Hk HF]. apply bind_Ok in H as (acc' & Hs & H). eapply IH; [exact H|exact HF|].
  unfold coerce_step in Hs. cbn [fst snd] in *. destruct v as [| | | |s| | | |]; try done.
  destruct w; try done; (match type of Hs with Ok ?a = _ => assert (acc' = a) as -> by congruence end); unfold meta in *; (rewrite lookup_insert_ne; [done|congruence]).
Qed.

Lemma user_metadata_unreserved v m k : _coerce_user_metadata v = Ok m → is_reserved k = true → m !! k = None.
Proof.
  intros H Hk. destruct v as [| | | | | | |d|]; try done; [by injection H as <-|]. cbn in H.
  destruct (sort_by str_leb (List.filter is_reserved (map (λ kv, py_str kv.1) d))) as [|c cs] eqn:E; [|done].
  apply (coerce_keys k d ∅ m H); [|done]. apply Forall_forall. intros kv Hkv Hc.
  assert (k ∈ sort_by str_leb (List.filter is_reserved (map (λ kv, py_str kv.1) d))) as Hin; [|rewrite E in Hin; by apply not_elem_of_nil in Hin].
  rewrite sort_by_perm. apply list_elem_of_In, filter_In. split; [|done]. apply in_map_iff. exists kv. rewrite Hc. split; [done|by apply list_elem_of_In].
Qed.

(** The bookkeeping comes off again. *)
Lemma stamped_record user n storage r x : (∀ k, is_reserved k = true → user !! k = None) → lists_as x r → x.1 ≠ "" →
  pd_meta x.2 = stamped user n storage →
  ∃ shown, late_record_of r = Ok (LateRecord x.1 shown n) ∧ ∀ k, dict_get k shown = PStr <$> user !! k.
Proof.
  intros Hu [Hid Hmd] Hne Hm. unfold late_record_of, _record_id, py_get. rewrite Hid, Hmd, Hm. cbn [mbind result_bind].
  assert (∀ b, py_str (py_or (py_or (PStr x.1) b) (PStr "")) = x.1) as ->.
  { intros b. assert (∀ w, py_or (PStr x.1) w = PStr x.1) as Ho; [|by rewrite !Ho]. intros w. unfold py_or. by destruct x.1. }
  unfold _strip_internal_metadata, _patch_count_from_metadata, py_get. cbn [py_items mbind result_bind]. rewrite dict_get_meta_dict.
  assert (stamped user n storage !! _PATCH_COUNT_KEY = Some (Z_str n)) as ->.
  { unfold stamped, meta in *. by rewrite lookup_insert_ne, lookup_insert_eq by done. }
  cbn [fmap option_fmap option_map]. assert (py_int (py_or (PStr (Z_str n)) (PInt 0)) = Ok n) as ->.
  { assert (py_or (PStr (Z_str n)) (PInt 0) = PStr (Z_str n)) as ->; [|cbn; by rewrite parse_int_Z_str].
    pose proof (parse_int_Z_str n) as Hp. unfold py_or. by destruct (Z_str n). }
  cbn [mbind result_bind]. eexists. split; [done|]. intros k. rewrite dict_get_strip, dict_get_meta_dict.
  destruct (is_reserved k) eqn:Ek; [by rewrite Hu|]. f_equal. unfold stamped, meta in *.
  rewrite !lookup_insert_ne; [done|by intros <-|by intros <-].
Qed.

Section adding.
Context {X : Type} {CE : CoreEngine X} {LR : LateReductions} {AB : ArrayBytes} {PV : PatchView X} {ML : MultiLaws X}.
Local Notation index := (LodeLateInteractionIndex X).

Definition engine_of (i : index) : X := db_engine (li_db i).

(** The document an item stands for. *)
Definition item_document (dim : Z) (storage : string) (normalize : bool) (item : patch_item) : result multivector_document :=
  patches ← (match pi_patches item with Some p => Ok p | None => raise ValueError "each document needs a 'patches' matrix" end);
  write_document dim storage (pi_id item) patches (pi_metadata item) normalize.

Lemma prepare_item_run normalize item (i : index) : prepare_item normalize item i = (item_document (li_dim i) (li_storage i) normalize item, i).
Proof. unfold prepare_item, item_document. rewrite lift_run. by destruct (pi_patches item). Qed.

Lemma write_document_Ok dim storage id patches metadata normalize d : write_document dim storage id patches metadata normalize = Ok d →
  id = PStr (mv_id d) ∧ is_blank (mv_id d) = false ∧ mv_dtype d = storage ∧
  ∃ m user, _as_matrix patches dim normalize = Ok m ∧ _coerce_user_metadata metadata = Ok user ∧
    mv_metadata d = stamped user (Z.of_nat (length m)) storage ∧ mv_patch_count d = Z.of_nat (length m) ∧
    _encode_matrix m storage = Ok (mv_patch_bytes d).
Proof.
  intros (i & Hi & (m & Hm & (user & Hu & (data & Hd & [= <-])%bind_Ok)%bind_Ok)%bind_Ok)%bind_Ok.
  assert (id = PStr i ∧ is_blank i = false) as [-> Hb].
  { unfold _require_doc_id in Hi. destruct id; try done. destruct (is_blank _) eqn:E; [done|]. by injection Hi as <-. }
  split; [done|]. split; [done|]. split; [done|]. by exists m, user.
Qed.

(** The call on the engine: the documents are in the store, each with its own bytes. *)
Lemma upsert_run docs e e' : _upsert_and_persist docs e = (Ok tt, e') →
  patch_docs e' = fold_left (λ m d, <[mv_id d := stored_patches d]> m) docs (patch_docs e).
Proof.
  unfold _upsert_and_persist, NativeCoreEngineHandle.upsert_multivector. rewrite st_bind_run, lift_run.
  destruct (np_matrix (map mv_vector docs)) as [m|] eqn:Em; [|done]. apply matrix_length in Em as [Hm _]. rewrite lift_run.
  destruct (list_through multivector_payload read_multi header_of docs multi_through) as (text & Ht & Hr). rewrite Ht.
  unfold NativeCoreEngineHandle.answered. rewrite st_bind_run.
  pose proof (multi_upsert_law m (str_join "" (map mv_patch_bytes docs)) text (map header_of docs) e Hr) as Hlaw.
  destruct (core_upsert_multivector _ _ _ _ e) as [[raw|] e1]; [|done]. cbn [fst snd] in Hlaw.
  unfold st_lift. destruct (_loads raw); [|done]. unfold NativeCoreEngineHandle.persist. intros Hp.
  rewrite <-put_patches_documents, <-(split_joined (map mv_patch_bytes docs)), map_map.
  rewrite map_map in Hlaw. cbn [mh_nbytes header_of] in Hlaw. rewrite <-Hlaw; [|by rewrite Hm, !length_map|by eexists].
  pose proof (multi_persist_law e1) as Hl. by rewrite Hp in Hl.
Qed.

Lemma late_list_run (i : index) : li_closed i = false → ∃ docs records,
  late_list_documents PNone i = (out ← mapR late_record_of records; Ok (sort_by (λ a b, str_leb (lr_id a) (lr_id b)) out), i) ∧
  docs ≡ₚ map_to_list (patch_docs (engine_of i)) ∧ Forall2 lists_as docs records.
Proof.
  intros Ho. destruct (multi_list_law (engine_of i)) as (t & docs & records & Ht & Hl & Hp & HF). exists docs, records. split; [|done].
  unfold late_list_documents. rewrite lift_run. cbn [_normalize_filter]. rewrite st_bind_run. unfold _call_on_native_thread. rewrite Ho.
  unfold st_read, NativeCoreEngineHandle.list_documents. cbn [filter_json fmap option_fmap option_map dump_opt mbind result_bind fst snd].
  fold (engine_of i). rewrite Ht. cbn [mbind result_bind]. unfold loads_list. rewrite Hl. cbn [mbind result_bind]. rewrite mapR_map.
  assert (mapR (λ r, py_dict (PDict r)) records = Ok records) as -> by (etransitivity; [exact (mapR_total id records)|by rewrite map_id]).
  unfold with_li_engine, with_engine, engine_of, st_lift. destruct i as [db]. cbn. by destruct db.
Qed.
(** What the index keeps: named documents whose bookkeeping is on top of the user's metadata. *)
Definition doc_wf (id : string) (d : patch_doc) : Prop :=
  id ≠ "" ∧ ∃ user n, pd_meta d = stamped user n (pd_dtype d) ∧ ∀ k, is_reserved k = true → user !! k = None.
Definition store_wf (e : X) : Prop := map_Forall doc_wf (patch_docs e).

Definition shows (x : string * patch_doc) (o : late_record) : Prop :=
  ∀ user n, pd_meta x.2 = stamped user n (pd_dtype x.2) → (∀ k, is_reserved k = true → user !! k = None) →
  lr_id o = x.1 ∧ lr_patch_count o = n ∧ ∀ k, dict_get k (lr_metadata o) = PStr <$> user !! k.

Lemma stamped_inj user user' n n' storage : (∀ k, is_reserved k = true → user !! k = None) → (∀ k, is_reserved k = true → user' !! k = None) →
  stamped user n storage = stamped user' n' storage → user = user' ∧ n = n'.
Proof.
  intros Hu Hu' H. unfold stamped, meta in *. split.
  - apply map_eq. intros k. destruct (is_reserved k) eqn:Ek; [by rewrite Hu, Hu'|]. assert (_PATCH_COUNT_KEY ≠ k) as H1 by by intros <-.
    assert (_DTYPE_KEY ≠ k) as H2 by by intros <-. apply (f_equal (λ m : gmap string string, m !! k)) in H. by rewrite !lookup_insert_ne in H.
  - apply (f_equal (λ m : gmap string string, m !! _PATCH_COUNT_KEY)) in H. rewrite !(lookup_insert_ne _ _DTYPE_KEY), !lookup_insert_eq in H by done.
    injection H as H. by apply (inj Z_str).
Qed.

Lemma records_shown docs records : Forall2 lists_as docs records → Forall (λ x, doc_wf x.1 x.2) docs →
  ∃ outs, mapR late_record_of records = Ok outs ∧ Forall2 shows docs outs.
Proof.
  induction 1 as [|x r docs records Hr _ IH]; intros HF; [by exists []|]. apply Forall_cons in HF as [(Hne & user & n & Hm & Hu) HF].
  destruct (IH HF) as (outs & Houts & HS). destruct (stamped_record user n _ r x Hu Hr Hne Hm) as (shown & Hs & Hk).
  exists (LateRecord x.1 shown n :: outs). cbn [mapR]. rewrite Hs, Houts. split; [done|]. constructor; [|done].
  intros user' n' Hm' Hu'. rewrite Hm in Hm'. by destruct (stamped_inj user user' n n' _ Hu Hu' Hm') as [-> ->].
Qed.

(** A well-formed store lists every document. *)
Lemma list_shows (i : index) : li_closed i = false → store_wf (engine_of i) → ∃ out,
  late_list_documents PNone i = (Ok out, i) ∧
  ∀ id d, patch_docs (engine_of i) !! id = Some d → ∃ o, o ∈ out ∧ shows (id, d) o.
Proof.
  intros Ho Hwf. destruct (late_list_run i Ho) as (docs & records & Hrun & Hp & HF).
  assert (Forall (λ x, doc_wf x.1 x.2) docs) as Hdocs.
  { apply Forall_forall. intros [id d] Hx. rewrite Hp in Hx. apply elem_of_map_to_list in Hx. by apply Hwf. }
  destruct (records_shown docs records HF Hdocs) as (outs & Houts & HS). rewrite Houts in Hrun. eexists. split; [exact Hrun|].
  intros id d Hd. assert ((id, d) ∈ docs) as Hin by (rewrite Hp; by apply elem_of_map_to_list).
  apply list_elem_of_lookup in Hin as [n Hn]. destruct (Forall2_lookup_l _ _ _ _ _ HS Hn) as (o & Hon & Hso). exists o.
  split; [|done]. rewrite sort_by_perm. by eapply list_elem_of_lookup_2.
Qed.

Lemma add_documents_run items normalize (i i' : index) ids : add_documents items normalize i = (Ok ids, i') →
  li_closed i = false → ∃ docs, mapR (item_document (li_dim i) (li_storage i) normalize) items = Ok docs ∧ ids = map mv_id docs ∧
    li_closed i' = false ∧ patch_docs (engine_of i') = fold_left (λ m d, <[mv_id d := stored_patches d]> m) docs (patch_docs (engine_of i)).
Proof.
  intros H Ho. unfold add_documents in H. rewrite st_bind_run in H. unfold _late_require_writable in H. destruct (li_read_only i); [done|].
  rewrite st_bind_run in H. assert (mapS (prepare_item normalize) items i = (mapR (item_document (li_dim i) (li_storage i) normalize) items, i)) as Hm.
  { rewrite <-(map_id items) at 1. apply (mapS_pure (λ x, x)). intros item. apply prepare_item_run. }
  rewrite Hm in H. destruct (mapR _ items) as [docs|]; [|done]. exists docs. split; [done|].
  rewrite st_bind_run in H. destruct docs as [|d docs]; [by injection H as <- <-|]. unfold _call_on_native_thread in H. rewrite Ho in H.
  fold (engine_of i) in H. destruct (_upsert_and_persist (d :: docs) (engine_of i)) as [[[]|] e'] eqn:E; [|done]. cbn [fst snd] in H.
  injection H as <- <-. split; [done|]. split; [exact Ho|]. exact (upsert_run _ _ _ E).
Qed.

(** C39: documents that were added are in the multi-vector store, each with its own bytes cut from the one
    buffer that is sent, at the precision of the index, other documents as before. The store stays
    well-formed, and listing it shows every added document with exactly the metadata the user gave and the
    number of its patch vectors: the bookkeeping keys never show and can never be overwritten. *)
Theorem added_documents_listed (items : list patch_item) (normalize : bool) (i i' : index) (ids : list string) :
  add_documents items normalize i = (Ok ids, i') → li_closed i = false → NoDup ids → store_wf (engine_of i) →
  ∃ docs, mapR (item_document (li_dim i) (li_storage i) normalize) items = Ok docs ∧ ids = map mv_id docs ∧
    (∀ d, d ∈ docs → mv_dtype d = li_storage i ∧ patch_docs (engine_of i') !! mv_id d = Some (stored_patches d)) ∧
    (∀ id, id ∉ ids → patch_docs (engine_of i') !! id = patch_docs (engine_of i) !! id) ∧
    store_wf (engine_of i') ∧
    ∃ out, late_list_documents PNone i' = (Ok out, i') ∧ ∀ n item d, items !! n = Some item → docs !! n = Some d →
      ∃ user o, _coerce_user_metadata (pi_metadata item) = Ok user ∧ o ∈ out ∧ lr_id o = mv_id d ∧ lr_patch_count o = mv_patch_count d ∧
        ∀ k, dict_get k (lr_metadata o) = PStr <$> user !! k.
Proof.
  intros H Ho Hnd Hwf. destruct (add_documents_run _ _ _ _ _ H Ho) as (docs & Hdocs & -> & Ho' & Hst). exists docs. split; [done|]. split; [done|].
  rewrite (fold_put_union mv_id stored_patches) in Hst by done.
  assert (∀ d, d ∈ docs → patch_docs (engine_of i') !! mv_id d = Some (stored_patches d)) as Hin.
  { intros d Hd. rewrite Hst. apply lookup_union_Some_l, elem_of_list_to_map; [by rewrite <-list_fmap_compose|].
    apply list_elem_of_fmap. by exists d. }
  assert (∀ n item d, items !! n = Some item → docs !! n = Some d → item_document (li_dim i) (li_storage i) normalize item = Ok d) as Hitem.
  { intros n item d Hi Hd. apply mapR_Ok in Hdocs. exact (Forall2_lookup_lr _ _ _ _ _ _ Hdocs Hi Hd). }
  assert (∀ d, d ∈ docs → ∃ item, item ∈ items ∧ item_document (li_dim i) (li_storage i) normalize item = Ok d) as Hfrom.
  { intros d [n Hn]%list_elem_of_lookup. apply mapR_Ok in Hdocs. destruct (Forall2_lookup_r _ _ _ _ _ Hdocs Hn) as (item & Hi & Hd).
    exists item. split; [by eapply list_elem_of_lookup_2|done]. }
  assert (∀ d, d ∈ docs → mv_dtype d = li_storage i ∧ doc_wf (mv_id d) (stored_patches d)) as Hdoc.
  { intros d Hd. destruct (Hfrom d Hd) as (item & _ & Hi). apply bind_Ok in Hi as (m & _ & Hw).
    apply write_document_Ok in Hw as (_ & Hb & Hs & m' & user & _ & Hu & Hm & _). split; [done|]. split; [by intros E; rewrite E in Hb|].
    exists user, (Z.of_nat (length m')). cbn [pd_meta pd_dtype stored_patches]. rewrite Hs. split; [done|]. intros k. by eapply user_metadata_unreserved. }
  split; [intros d Hd; split; [by apply Hdoc|by apply Hin]|].
  assert (∀ id, id ∉ map mv_id docs → patch_docs (engine_of i') !! id = patch_docs (engine_of i) !! id) as Hother.
  { intros id Hid. rewrite Hst. apply lookup_union_r, not_elem_of_list_to_map_1. by rewrite <-list_fmap_compose. }
  split; [exact Hother|]. assert (store_wf (engine_of i')) as Hwf'.
  { intros id d Hd. destruct (decide (id ∈ map mv_id docs)) as [(d' & -> & Hd')%list_elem_of_fmap|Hn].
    - rewrite Hin in Hd by done. injection Hd as <-. by apply Hdoc.
    - rewrite Hother in Hd by done. by apply Hwf. }
  split; [exact Hwf'|]. destruct (list_shows i' Ho' Hwf') as (out & Hout & Hshow). exists out. split; [exact Hout|].
  intros n item d Hi Hd. assert (d ∈ docs) as Hdd by by eapply list_elem_of_lookup_2. destruct (Hshow _ _ (Hin d Hdd)) as (o & Hoo & Hs).
  pose proof (Hitem n item d Hi Hd) as Hw. apply bind_Ok in Hw as (m & _ & Hw).
  apply write_document_Ok in Hw as (_ & _ & Hty & m' & user & _ & Hu & Hm & Hc & _).
  destruct (Hs user (mv_patch_count d)) as (H1 & H2 & H3).
  { cbn [pd_meta pd_dtype stored_patches snd]. by rewrite Hty, Hc. }
  { intros k. by eapply user_metadata_unreserved. }
  by exists user, o.
Qed.
End adding.

(** ** A store to evaluate with *)

Local Notation toy_patches := (gmap string patch_doc).
Definition absent {A} : result A := raise RuntimeError "not kept".

Definition toy_listed (x : string * patch_doc) : pyval :=
  dict_of [("document_id", PStr x.1); ("metadata", PDict (meta_dict (pd_meta x.2)))].

#[local] Instance toy_patch_core : CoreEngine toy_patches := {|
  core_create_index _ _ _ := mret tt; core_create_index_with_options _ := mret tt; core_index_options _ _ := absent;
  core_set_session_overrides _ _ _ := mret tt; core_upsert_vectors _ _ := λ e, (absent, e); core_upsert_vectors_array := None;
  core_delete_documents _ _ := λ e, (absent, e); core_update_document_payload _ _ _ _ := λ e, (absent, e);
  core_upsert_multivector _ _ buffer text := λ e,
    match read_list read_multi text with
    | Some headers => (ok_answer, put_patches headers (split_blobs (map mh_nbytes headers) buffer) e)
    | None => (absent, e)
    end;
  core_query_multivector _ _ _ _ _ := absent; core_query_vector _ _ _ _ _ := absent; core_query_vector_array := None;
  core_query_vectors_batch _ _ _ _ _ := absent; core_query_vectors_batch_array := None; core_query_vectors_batch_array_out := None;
  core_prepare_text_upsert _ _ _ _ _ := λ e, (absent, e); core_apply_text_upsert _ _ _ := λ e, (absent, e);
  core_apply_text_upsert_array := None; core_prepare_query_text _ _ _ := absent; core_search_embedded_text _ _ _ _ _ _ := absent;
  core_search_embedded_text_array := None; core_search_embedded_text_batch _ _ _ _ _ _ := absent; core_stats _ _ := absent;
  core_get_document_text _ _ _ := absent; core_get_document_texts _ _ _ := absent; core_get_vectors _ _ _ := absent;
  core_get_document _ _ _ := absent; core_list_documents _ _ _ _ e := _dumps (PList (map toy_listed (map_to_list e)));
  core_persist := mret tt; core_ann_warm _ := mret true; core_compact _ := mret tt; core_refresh := mret tt; core_applied_lsn _ _ := absent;
  core_fold_wal_segment _ _ _ := λ e, (absent, e); core_close := mret tt; core_discard := mret tt |}.
#[local] Instance toy_patch_view : PatchView toy_patches := {| patch_docs e := e |}.

Lemma toy_multi_laws : MultiLaws toy_patches.
Proof.
  split; [|done|].
  - intros m buffer text headers e Hr _ _. cbn. by rewrite Hr.
  - intros e. set (docs := map_to_list e). assert (json_ok (PList (map toy_listed docs)) = true ∧ ∃ records, canon (PList (map toy_listed docs)) = PList (map PDict records) ∧ Forall2 lists_as docs records) as (Hok & records & Hc & HF).
    { induction docs as [|x docs (Hok & records & Hc & HF)]; [split; [done|by exists []]|].
      assert (json_ok (toy_listed x) = true) as Hx by object_ok. split; [cbn [map json_ok forallb] in Hok |- *; by rewrite Hx|].
      unfold toy_listed in *. destruct (object_get _ Hx) as (r & Hr & Hg). exists (r :: records). cbn [map canon] in Hc |- *. rewrite Hr.
      injection Hc as Hc. cbn [map canon] in *. rewrite Hc. split; [done|]. constructor; [|done]. split; rewrite Hg; [done|].
      change (get_item "metadata" _) with (Some (PDict (meta_dict (pd_meta x.2)))). cbn [fmap option_fmap option_map].
      by rewrite canon_dict, canon_meta_dict. }
    destruct (said _ Hok) as (t & Ht & Hl). exists t, docs, records. split; [exact Ht|]. split; [by rewrite Hl, Hc|]. done.
Qed.

(** Squares and sums round to float32, as on an array of that type; an array's bytes are its numbers. *)
#[local] Instance toy_late_reductions : LateReductions := {|
  row_norm l := to_float32 (fsqrt (fold_left (λ a x, to_float32 (fadd a (to_float32 (fmul x x)))) l (S754_zero false)));
  column_mean l := fdiv (fold_left fadd l (S754_zero false)) (float_of_Z (Z.of_nat (length l))) |}.
#[local] Instance toy_array_bytes : ArrayBytes := {|
  f4_bytes m := str_join "" (map (λ r, str_join "," (map float_repr r)) m); f2_bytes m := str_join "" (map (λ r, str_join "," (map float_repr r)) m);
  i1_bytes m := str_join "" (map (λ r, str_join "," (map Z_str r)) m) |}.

Definition demo_patch (a b : Z) : list spec_float := map float_of_Z [a; b; 0; 0; 0; 0; 0; 0].
Definition demo_items : list patch_item :=
  [PatchItem (PStr "p1") (Some [demo_patch 3 4; demo_patch 1 0]) (dict_of [("file", PStr "report.pdf")]);
   PatchItem (PStr "p2") (Some [demo_patch 0 2]) PNone].
Definition demo_index : LodeLateInteractionIndex toy_patches := LateIndex (Db ∅ "" 0) 8 None false "int8" false.

Lemma added_documents_listed_witness :
  let i' := (add_documents demo_items true demo_index).2 in
  ∃ docs, mapR (item_document 8 "int8" true) demo_items = Ok docs ∧ ["p1"; "p2"] = map mv_id docs ∧
    (∀ d, d ∈ docs → mv_dtype d = "int8" ∧ patch_docs (engine_of i') !! mv_id d = Some (stored_patches d)) ∧
    (∀ id, id ∉ ["p1"; "p2"] → patch_docs (engine_of i') !! id = None) ∧
    store_wf (engine_of i') ∧
    ∃ out, late_list_documents PNone i' = (Ok out, i') ∧ ∀ n item d, demo_items !! n = Some item → docs !! n = Some d →
      ∃ user o, _coerce_user_metadata (pi_metadata item) = Ok user ∧ o ∈ out ∧ lr_id o = mv_id d ∧ lr_patch_count o = mv_patch_count d ∧
        ∀ k, dict_get k (lr_metadata o) = PStr <$> user !! k.
Proof.
  apply (@added_documents_listed _ _ _ _ _ toy_multi_laws demo_items true demo_index).
  - vm_compute. reflexivity.
  - reflexivity.
  - by apply (bool_decide_unpack _); vm_compute.
  - intros id d Hd. discriminate Hd.
Defined.

(** A finite row whose norm overflows float32 is stored as zeros. *)
Example overflowing_row_becomes_zero : _as_matrix [map float_of_Z [10 ^ 25; 0; 0; 0; 0; 0; 0; 0]] 8 true =
  Ok [replicate 8 (S754_zero false)].
Proof. vm_compute. reflexivity. Qed.

(** A tiny row that is not zero is refused as a zero row. *)
Example tiny_row_is_refused : _as_matrix [map (λ x, fdiv x (float_of_Z (10 ^ 25))) (demo_patch 1 0)] 8 true =
  raise ValueError "cannot normalize a zero-vector row; pass non-zero rows or normalize=False".
Proof. vm_compute. reflexivity. Qed.
