(* ===== verification/Migration.v ===== *)
(** * Running a migration

    [local/migrate/runner.py]: a run replays a source export into [<target>.tmp], reopens what it
    wrote, validates it, and only then renames it to the target. The handle it writes through is
    the database of [LocalDb.v], wrapped by the adapters of [Adapters.v]; opening and closing a
    handle and what the engine writes to disk are the class [MigrationSDK], whose law is that
    they touch nothing outside the directory they are given. *)

From Stdlib Require Import Ascii String ZArith Lia SpecFloat.
From stdpp Require Import base strings gmap sets list.
From S2P Require Import Prelude Numbers PyVal Bytes Json FileSys EngineCore RouteRegistry KnowledgeGraph GraphSync VectorBoundary LocalOpen LocalDb MigrateReport MigratePlan MigrateSources Adapters DirTree.

Local Open Scope Z_scope.

(** ** The outcome of a run *)

Definition _VECTOR_DIM_MULTIPLE : Z := 8.
Definition _WRITE_BATCH : nat := Z.to_nat 500.

Definition path_str (p : path) : string := str_join "/" (reverse p).

(** A row left out, by the hash of its id. *)
Record skip := Skip { sk_id_hash : string; sk_reason : string }.

Record sample_check := SampleCheck
  { sc_size : nat; sc_ids_present : nat; sc_metadata_checked : nat; sc_metadata_matched : nat;
    sc_text_expected : nat; sc_text_recovered : nat; sc_ok : bool; sc_id_hashes : list string }.

(** What [_validate_target] checked; the audit is its number of snapshots or the class of its error. *)
Record checks := Checks
  { ck_source : option Z; ck_target : Z; ck_written : nat; ck_skipped : nat; ck_count_parity : bool;
    ck_audit : string + nat; ck_audit_passed : bool; ck_sample : sample_check; ck_passed : bool }.

Record MigrationResult := Result
  { mg_status : string; mg_route : string; mg_mode : string; mg_framework : option string; mg_provider : option string;
    mg_source_kind : string; mg_fingerprint : string; mg_target_path : string; mg_embedding_dim : option Z;
    mg_source_count : option Z; mg_store_subdir : option string; mg_written : nat; mg_skipped : list skip;
    mg_validation : option checks; mg_warnings : list string; mg_versions : pydict; mg_options : pydict;
    mg_started_at : spec_float; mg_finished_at : spec_float }.

Definition nat_val (n : nat) : pyval := PInt (Z.of_nat n).

Definition sample_dict (c : sample_check) : pydict :=
  [(PStr "size", nat_val (sc_size c)); (PStr "ids_present", nat_val (sc_ids_present c));
   (PStr "metadata_checked", nat_val (sc_metadata_checked c)); (PStr "metadata_matched", nat_val (sc_metadata_matched c));
   (PStr "text_expected", nat_val (sc_text_expected c)); (PStr "text_recovered", nat_val (sc_text_recovered c));
   (PStr "ok", PBool (sc_ok c)); (PStr "id_hashes", str_list (sc_id_hashes c))].

Definition checks_dict (c : checks) : pydict :=
  [(PStr "count", dict_of [("source", opt_int (ck_source c)); ("target", PInt (ck_target c));
                           ("written", nat_val (ck_written c)); ("skipped", nat_val (ck_skipped c))]);
   (PStr "count_parity", PBool (ck_count_parity c));
   (PStr "audit", match ck_audit c with
                  | inr n => dict_of [("status", PStr "passed"); ("snapshot_count", nat_val n);
                                      ("raw_document_text_present", PBool false)]
                  | inl name => dict_of [("error", PStr name)]
                  end);
   (PStr "audit_passed", PBool (ck_audit_passed c)); (PStr "sample", PDict (sample_dict (ck_sample c)));
   (PStr "passed", PBool (ck_passed c))].

Definition skip_dict (k : skip) : pyval := dict_of [("id_hash", PStr (sk_id_hash k)); ("reason", PStr (sk_reason k))].

(** [round(x, 6)] and the difference of two clock readings are the platform's. *)
Definition to_manifest (elapsed : spec_float → spec_float → spec_float) (r : MigrationResult) : pyval :=
  dict_of
    [("artifact_type", PStr "lodedb_migration"); ("status", PStr (mg_status r)); ("route", PStr (mg_route r));
     ("mode", PStr (mg_mode r)); ("framework", opt_val (mg_framework r)); ("provider", opt_val (mg_provider r));
     ("source", dict_of [("kind", PStr (mg_source_kind r)); ("location_fingerprint", PStr (mg_fingerprint r));
                         ("count", opt_int (mg_source_count r))]);
     ("target", dict_of [("path", PStr (mg_target_path r)); ("store_subdir", opt_val (mg_store_subdir r));
                         ("embedding_dim", opt_int (mg_embedding_dim r)); ("written_count", nat_val (mg_written r))]);
     ("skipped", PList (map skip_dict (mg_skipped r)));
     ("validation", PDict (match mg_validation r with Some c => checks_dict c | None => [] end));
     ("warnings", str_list (mg_warnings r)); ("versions", PDict (mg_versions r)); ("options", PDict (mg_options r));
     ("timings", dict_of [("started_at", PFloat (mg_started_at r)); ("finished_at", PFloat (mg_finished_at r));
                          ("seconds", if truthy (PFloat (mg_finished_at r))
                                      then PFloat (elapsed (mg_started_at r) (mg_finished_at r)) else PFloat (S754_zero false))])].

(** ** Rows *)

Definition target_has_store (target : path) : io bool :=
  dir ← is_dir target;
  if negb (dir : bool) then mret false
  else
    commits ← glob_suffix target ".commit.json";
    states ← glob_suffix target ".json";
    mret (match commits, states with [], [] => false | _, _ => true end).

Definition _would_skip (row : ExportedRow) (mode : string) (dim : option Z) : option string :=
  if bool_decide (mode = MODE_VECTOR_PRESERVE) then
    match er_vector row with
    | None => Some "missing-vector"
    | Some v =>
        match dim with
        | Some n => if negb (Z.of_nat (length v) =? n) then Some "dimension-mismatch" else None
        | None => None
        end
    end
  else match er_text row with
       | Some t => if is_blank t then Some "missing-text" else None
       | None => Some "missing-text"
       end.

Definition _stringify_metadata (metadata : pydict) : pydict :=
  fold_left (λ out kv, if is_scalar kv.2 then dict_set (py_str kv.1) kv.2 out else out) metadata [].

Definition _validate_vector_dim (dim : option Z) : result unit :=
  let bad := raise MigrationError ("vector-preserve mode needs an embedding dimension that is a positive multiple of 8 "
    +:+ "for LodeDB vector indexes; got " +:+ py_repr (opt_int dim)) in
  match dim with
  | Some n => if (n <=? 0) || negb (n mod _VECTOR_DIM_MULTIPLE =? 0) then bad else Ok tt
  | None => bad
  end.

(** [a or b] on optional numbers. *)
Definition or_opt_int (a b : option Z) : option Z :=
  match a with Some z => if z =? 0 then b else Some z | None => b end.

(** ** Opening the source *)

(** The importers of [sources/] as the run reaches them. *)
Record importers := Importers
  { im_langchain : string → result SourceExport; im_llama_index : string → result SourceExport;
    im_mem0 : string → option string → option Z → bool → result SourceExport;
    im_pgvector : pg_args → result SourceExport }.

Definition text_option (key : string) (opts : pydict) : option string :=
  match dict_get key opts with Some (PStr s) => Some s | _ => None end.
Definition int_option (key : string) (opts : pydict) : option Z :=
  match dict_get key opts with Some (PInt z) => Some z | _ => None end.
Definition flag_option (key : string) (opts : pydict) : bool :=
  match dict_get key opts with Some v => truthy v | None => false end.

Definition open_source (im : importers) (plan : MigrationPlan) (allow_remote : bool) (location_override : option string)
    (columns : column_args) (table_override : option string) : result SourceExport :=
  let opts := mp_source_options plan in
  let location := or_str location_override (or_str (text_option "location" opts) "") in
  if bool_decide (location = "") && flag_option "location_required" opts
  then raise MigrationError ("this plan's source is a credentialed connection that was not stored in the plan; "
         +:+ "re-supply it with `--source <connection>` (e.g. --source " +:+ String dquote "$DATABASE_URL" +:+ String dquote ")")
  else if bool_decide (mp_framework plan = Some "langchain") then im_langchain im location
  else if bool_decide (mp_framework plan = Some "llama-index") then im_llama_index im location
  else if bool_decide (mp_framework plan = Some "mem0")
  then im_mem0 im (or_str (mp_collection plan) "mem0") (if bool_decide (location = "") then None else Some location)
         (int_option "embedding_dim" opts) allow_remote
  else if bool_decide (mp_provider plan = Some "pgvector")
  then
    if negb (bool_decide (or_str (mp_table plan) "" = "")) && bool_decide (is_Some table_override)
    then raise TypeError "PgVectorExport() got multiple values for keyword argument 'table'"
    else im_pgvector im (PgArgs location (or_str (mp_table plan) (or_str table_override "documents")) columns
           (int_option "embedding_dim" opts) allow_remote)
  else raise MigrationError ("no source importer for route=" +:+ str_repr (mp_route plan) +:+ " framework="
         +:+ py_repr (opt_val (mp_framework plan)) +:+ " " +:+ "provider=" +:+ py_repr (opt_val (mp_provider plan))).

(** ** The database on disk *)

(** The arguments a handle is opened with. *)
Inductive open_args :=
| OpenText (model : string) (device : option string) (store_text read_only : bool) (backend : option EmbeddingBackend)
| OpenVectors (vector_dim : Z) (bit_width : option Z) (store_text read_only : bool).

(** [LodeDB(...)] and [LodeDB.open_vector_store(...)] at a directory, the states the disk goes
    through while the engine there reaches a state, and [close]. *)
Class MigrationSDK (E : Type) := {
  open_db : path → open_args → io (LodeConfig * LodeDB E);
  engine_writes : path → E → fsys → list fsys;
  close_db : path → LodeDB E → io unit }.

(** Everything they do stays below the directory of the database. *)
Class SDKLaws (E : Type) {SDK : MigrationSDK E} : Prop := {
  open_confined d a : confined d (open_db d a);
  writes_confined d e s : Forall (only_below d s) (engine_writes d e s);
  close_confined d x : confined d (close_db d x) }.

(** ** Target writers *)

(** The classes of writers; the dictionary of the LangChain adapter is part of the state. *)
Inductive writer_kind := PlainTextWriter | LangChainWriter | LlamaIndexWriter | VectorWriter | Mem0Writer (m : mem0_config).
Record writer (E : Type) := Writer
  { wr_kind : writer_kind; wr_dir : path; wr_config : LodeConfig; wr_state : langchain_store E }.
Arguments Writer {E} _ _ _ _.
Arguments wr_kind {E} _.
Arguments wr_dir {E} _.
Arguments wr_config {E} _.
Arguments wr_state {E} _.

(** A row of the sample that validation compares with the target. *)
Record sampled := Sampled { sa_id : string; sa_metadata : pydict; sa_has_text : bool }.

(** The locals of [_write_target]; [pg_error] is the exception that left the loop. *)
Record progress (E : Type) := Progress
  { pg_writer : writer E; pg_written : nat; pg_skipped : list skip; pg_sample : list sampled;
    pg_batch : list ExportedRow; pg_error : option exn }.
Arguments Progress {E} _ _ _ _ _ _.
Arguments pg_writer {E} _.
Arguments pg_written {E} _.
Arguments pg_skipped {E} _.
Arguments pg_sample {E} _.
Arguments pg_batch {E} _.
Arguments pg_error {E} _.

(** [a == b] on the scalars of metadata; [stored] is what the reopened store holds. *)
Definition is_number (v : pyval) (z : Z) : bool :=
  match v with
  | PInt n => n =? z
  | PBool b => (if b then 1 else 0) =? z
  | PFloat f => match float_trunc f, py_float (PInt z) with Ok n, Ok g => (n =? z) && SFeqb f g | _, _ => false end
  | _ => false
  end.
Definition scalar_eq (stored value : pyval) : bool :=
  match stored, value with
  | PStr a, PStr b => bool_decide (a = b)
  | PFloat f, PFloat g => SFeqb f g
  | _, PInt z => is_number stored z
  | _, PBool b => is_number stored (if b then 1 else 0)
  | PInt z, _ => is_number value z
  | PBool b, _ => is_number value (if b then 1 else 0)
  | _, _ => false
  end.

Definition _temp_target (target : path) : path := with_name target (pname target +:+ ".tmp").

Definition _store_dir (plan : MigrationPlan) (base : path) : path :=
  if bool_decide (mp_framework plan = Some "mem0") then pjoin base (or_str (mp_collection plan) "mem0") else base.

Definition has_text (row : ExportedRow) : bool :=
  match er_text row with Some t => negb (is_blank t) | None => false end.

Section runner.
Context {E : Type} {NE : NativeEngine E} {R : Reductions} {TH : Secrets} {SDK : MigrationSDK E}.
Variable uuid4 : nat → string.

(** A call on the store of a writer, with what the engine writes for it. *)
Definition on_store {A} (w : writer E) (m : st (langchain_store E) A) : io (result A * writer E) := λ s,
  let out := m (wr_state w) in
  let l := engine_writes (wr_dir w) (db_engine (lc_db out.2)) s in
  Out l (List.last l s) (Ok (out.1, Writer (wr_kind w) (wr_dir w) (wr_config w) out.2)).

Definition row_text (row : ExportedRow) : string := match er_text row with Some t => t | None => "" end.
Definition row_vector (row : ExportedRow) : list spec_float := match er_vector row with Some v => v | None => [] end.

(** A vector row without a text keeps its payload as the text. *)
Definition vector_document (row : ExportedRow) : result vector_item :=
  text ← (match er_text row, er_raw_payload row with
          | Some t, _ => Ok (PStr t)
          | None, Some (kv :: payload) => s ← _encode_payload (kv :: payload); Ok (PStr s)
          | None, _ => Ok PNone
          end);
  Ok (VectorItem (er_vector row) (PStr (er_id row)) (PDict (_stringify_metadata (er_metadata row))) text).

(** [write_batch] of the writers. The rows that reach them have a text, or a vector. *)
Definition write_batch (w : writer E) (rows : list ExportedRow) : st (langchain_store E) unit :=
  let c := wr_config w in
  match wr_kind w with
  | PlainTextWriter =>
      _ ← lc_call (add_many c (map (λ row, TextItem (opt_val (er_text row)) (PStr (er_id row))
                                             (PDict (_stringify_metadata (er_metadata row)))) rows));
      mret tt
  | LangChainWriter =>
      _ ← add_texts c (map row_text rows) (Some (map (λ row, Some (_stringify_metadata (er_metadata row))) rows))
            (Some (map er_id rows));
      mret tt
  | LlamaIndexWriter =>
      _ ← lc_call (ll_add c (map (λ row, LlNode (er_id row) (row_text row) (_stringify_metadata (er_metadata row))
                                           (er_ref_doc_id row)) rows));
      mret tt
  | VectorWriter =>
      documents ← st_lift (mapR vector_document rows);
      _ ← lc_call (add_vectors_many c documents true);
      mret tt
  | Mem0Writer m =>
      lc_call (Adapters.insert uuid4 c m (map row_vector rows)
        (Some (map (λ row, match er_raw_payload row with Some d => d | None => [] end) rows)) (Some (map er_id rows)))
  end.

Definition fresh_writer (k : writer_kind) (d : path) (opened : LodeConfig * LodeDB E) : writer E :=
  Writer k d opened.1 (LangChain opened.2 ∅).

Definition _open_text_target (plan : MigrationPlan) (write_dir : path) (backend : option EmbeddingBackend) : io (writer E) :=
  let kind := if bool_decide (mp_framework plan = Some "langchain") then LangChainWriter
              else if bool_decide (mp_framework plan = Some "llama-index") then LlamaIndexWriter else PlainTextWriter in
  let default := match kind with PlainTextWriter => "bge" | _ => "minilm" end in
  db ← open_db write_dir (OpenText (or_str (mp_model plan) default) (Some (mp_device plan)) (mp_store_text plan) false backend);
  mret (fresh_writer kind write_dir db).

(** The mem0 adapter checks the dimension before it opens its collection below the directory. *)
Definition _open_vector_target (plan : MigrationPlan) (write_dir : path) (embedding_dim : Z) : io (writer E) :=
  if bool_decide (mp_framework plan = Some "mem0") then
    _ ← lift (if (embedding_dim <=? 0) || negb (embedding_dim mod 8 =? 0)
              then raise ValueError "embedding_model_dims must be a positive multiple of 8 for LodeDB vector indexes"
              else Ok tt);
    let d := pjoin write_dir (or_str (mp_collection plan) "mem0") in
    db ← open_db d (OpenVectors embedding_dim (Some 4) (mp_store_text plan) false);
    mret (fresh_writer (Mem0Writer (Mem0Config embedding_dim true (mp_store_text plan))) d db)
  else
    db ← open_db write_dir (OpenVectors embedding_dim None (mp_store_text plan) false);
    mret (fresh_writer VectorWriter write_dir db).

(** ** Writing *)

Definition flush_batch (p : progress E) : io (progress E) :=
  '(r, w) ← on_store (pg_writer p) (write_batch (pg_writer p) (pg_batch p));
  mret (match r with
        | Ok _ => Progress w (pg_written p + length (pg_batch p)) (pg_skipped p) (pg_sample p) [] None
        | Err e => Progress w (pg_written p) (pg_skipped p) (pg_sample p) (pg_batch p) (Some e)
        end).

Definition sample_of (row : ExportedRow) : sampled := Sampled (er_id row) (_stringify_metadata (er_metadata row)) (has_text row).

(** The body of the loop over the rows. *)
Definition write_step (mode : string) (dim : option Z) (limit : Z) (p : progress E) (row : ExportedRow) : io (progress E) :=
  match pg_error p with
  | Some _ => mret p
  | None =>
      match _would_skip row mode dim with
      | Some reason => mret (Progress (pg_writer p) (pg_written p) (pg_skipped p ++ [Skip (hash_id (er_id row)) reason])
                               (pg_sample p) (pg_batch p) None)
      | None =>
          let sample := if Z.of_nat (length (pg_sample p)) <? limit then pg_sample p ++ [sample_of row] else pg_sample p in
          let p := Progress (pg_writer p) (pg_written p) (pg_skipped p) sample (pg_batch p ++ [row]) None in
          if (_WRITE_BATCH <=? length (pg_batch p))%nat then flush_batch p else mret p
      end
  end.

(** What follows the loop: the exception of the iterator, or the last batch and [persist]. *)
Definition write_rest (failure : option exn) (p : progress E) : io (progress E) :=
  match pg_error p, failure with
  | Some _, _ => mret p
  | None, Some e => mret (Progress (pg_writer p) (pg_written p) (pg_skipped p) (pg_sample p) (pg_batch p) (Some e))
  | None, None =>
      p ← (match pg_batch p with [] => mret p | _ => flush_batch p end);
      match pg_error p with
      | Some _ => mret p
      | None =>
          '(r, w) ← on_store (pg_writer p) (lc_call (persist (wr_config (pg_writer p))));
          mret (Progress w (pg_written p) (pg_skipped p) (pg_sample p) (pg_batch p) (match r with Ok _ => None | Err e => Some e end))
      end
  end.

Definition dim_of (export : SourceExport) (plan : MigrationPlan) : Z :=
  or_int (se_vector_dim export) (or_int (mp_embedding_dim plan) 0).

Definition is_preserve (mode : string) : bool := bool_decide (mode = MODE_VECTOR_PRESERVE).

Definition open_target (export : SourceExport) (plan : MigrationPlan) (write_dir : path) (backend : option EmbeddingBackend)
    : io (writer E) :=
  if is_preserve (se_mode export) then _open_vector_target plan write_dir (dim_of export plan)
  else _open_text_target plan write_dir backend.

Definition row_dim (export : SourceExport) (plan : MigrationPlan) : option Z :=
  if is_preserve (se_mode export) then Some (dim_of export plan) else None.

Definition sample_limit (plan : MigrationPlan) : result Z :=
  py_int (match dict_get "sample_size" (mp_thresholds plan) with Some v => v | None => PInt 25 end).

Definition _write_target (export : SourceExport) (plan : MigrationPlan) (write_dir : path) (backend : option EmbeddingBackend)
    : io (nat * list skip * list sampled) :=
  w ← open_target export plan write_dir backend;
  limit ← lift (sample_limit plan);
  p ← foldIO (write_step (se_mode export) (row_dim export plan) limit) (Progress w 0 [] [] [] None) (st_rows (se_rows export));
  p ← write_rest (st_failure (se_rows export)) p;
  _ ← close_db (wr_dir (pg_writer p)) (lc_db (wr_state (pg_writer p)));
  lift (match pg_error p with Some e => Err e | None => Ok (pg_written p, pg_skipped p, pg_sample p) end).

(** ** Validation *)

(** The tally over the sampled rows: ids present, metadata checked, metadata matched. *)
Definition compare_row (acc : nat * nat * nat) (row : sampled) : st (LodeDB E) (nat * nat * nat) :=
  let '(present, checked, matched) := acc in
  record ← get_document (PStr (sa_id row));
  match record with
  | None => mret acc
  | Some r =>
      match sa_metadata row with
      | [] => mret (S present, checked, matched)
      | expected =>
          m ← st_lift (v ← py_get (PDict r) "metadata" (PDict []); py_dict v);
          let same kv := match kv.1 with
            | PStr key => scalar_eq (match dict_get key m with Some v => v | None => PNone end) kv.2
            | _ => false
            end in
          mret (S present, S checked, if forallb same expected then S matched else matched)
      end
  end.

(** A [for] loop that carries a value through calls on the handle. *)
Fixpoint foldS {S A B} (f : B → A → st S B) (b : B) (l : list A) : st S B :=
  match l with [] => mret b | x :: l => b' ← f b x; foldS f b' l end.

Definition read_sample (c : LodeConfig) (plan : MigrationPlan) (sample : list sampled) : st (LodeDB E) (Z * sample_check) :=
  n ← count PNone;
  '(present, checked, matched) ← foldS compare_row (0, 0, 0)%nat sample;
  let text_ids := map sa_id (List.filter sa_has_text sample) in
  recovered ← (match text_ids with
               | [] => mret 0%nat
               | _ => if mp_store_text plan
                      then or_value_error
                             (texts ← get_texts c (PList (map PStr text_ids));
                              mret (length (List.filter (λ kv, negb (bool_decide (kv.2 = ""))) texts))) 0%nat
                      else mret 0%nat
               end);
  let ok := bool_decide (present = length sample) && (bool_decide (checked = 0%nat) || bool_decide (matched = checked))
            && (negb (mp_store_text plan) || bool_decide (recovered = length text_ids)) in
  mret (n, SampleCheck (length sample) present checked matched (length text_ids) recovered ok
             (map (λ row, hash_id (sa_id row)) (take 5 sample))).

Definition _read_back_counts (plan : MigrationPlan) (dir : path) (sample : list sampled) (embedding_dim : option Z)
    (backend : option EmbeddingBackend) : io (Z * sample_check) :=
  '(c, db) ← open_db dir (if is_preserve (mp_mode plan)
    then OpenVectors (or_int embedding_dim (or_int (mp_embedding_dim plan) 8)) None (mp_store_text plan) true
    else OpenText (or_str (mp_model plan) "minilm") None (mp_store_text plan) true backend);
  let out := read_sample c plan sample db in
  after true (lift out.1) (close_db dir out.2).

Definition _validate_target (plan : MigrationPlan) (write_dir : path) (written skipped_count : nat) (source_count : option Z)
    (sample : list sampled) (embedding_dim : option Z) (backend : option EmbeddingBackend) : io checks :=
  let store_dir := _store_dir plan write_dir in
  '(target_count, sample_result) ← _read_back_counts plan store_dir sample embedding_dim backend;
  let parity := (target_count =? Z.of_nat written)
    && match source_count with Some n => Z.of_nat (written + skipped_count) =? n | None => true end in
  audit ← attempt (audit_persisted_index_snapshots store_dir);
  let audit_passed := match audit with Ok _ => true | Err _ => false end in
  mret (Checks source_count target_count written skipped_count parity
          (match audit with Ok rows => inr (length rows) | Err e => inl (class_name e) end) audit_passed sample_result
          (parity && audit_passed && sc_ok sample_result)).

(** The first rows of the source; the number read and those that would be skipped. *)
Fixpoint probe (limit : nat) (mode : string) (dim : option Z) (rows : list ExportedRow) : nat * list skip :=
  match limit, rows with
  | S limit, row :: rows =>
      let '(n, skipped) := probe limit mode dim rows in
      (S n, match _would_skip row mode dim with Some reason => Skip (hash_id (er_id row)) reason :: skipped | None => skipped end)
  | _, _ => (0%nat, [])
  end.

Definition _dry_run_probe (export : SourceExport) (plan : MigrationPlan) : result (nat * list skip) :=
  let rows := st_rows (se_rows export) in
  let limit := Z.to_nat 200 in
  match st_failure (se_rows export), (limit <=? length rows)%nat with
  | Some e, false => Err e
  | _, _ => Ok (probe limit (se_mode export) (or_opt_int (se_vector_dim export) (mp_embedding_dim plan)) rows)
  end.

(** ** Publication *)

Definition _atomic_move (write_dir target : path) (resume overwrite : bool) : io unit :=
  _ ← mkdir_p (parent target);
  there ← path_exists target;
  let move := or_os_error (os_rename write_dir target) (shutil_move write_dir target) in
  if there && (overwrite || resume) then
    let backup := with_name target (pname target +:+ ".replaced") in
    old ← path_exists backup;
    _ ← (if (old : bool) then rmtree backup true else mret tt);
    _ ← os_rename target backup;
    _ ← move;
    rmtree backup true
  else move.

Variable elapsed : spec_float → spec_float → spec_float.

Definition manifest_bytes (r : MigrationResult) : result bytes :=
  _ ← assert_payload_free "migration.json" (to_manifest elapsed r);
  text ← dumps (indented 2) (to_manifest elapsed r);
  Ok (utf8_encode (text +:+ newline_str)).

Definition _write_manifest (directory : path) (r : MigrationResult) : io unit :=
  _ ← mkdir_p directory;
  data ← lift (manifest_bytes r);
  publish ("migration.json" :: directory) data false.

(** ** The run *)

Record run_options := RunOptions
  { ro_target : option path; ro_dry_run : bool; ro_overwrite : bool; ro_resume : bool; ro_allow_remote : bool;
    ro_backend : option EmbeddingBackend; ro_source : option SourceExport; ro_location : option string;
    ro_columns : column_args; ro_table : option string }.

Variables (version : string) (im : importers).

Definition initial_result (plan : MigrationPlan) (o : run_options) (target : path) (export : SourceExport) (started : spec_float)
    : MigrationResult :=
  Result (if ro_dry_run o then "dry-run" else "migrated") (mp_route plan) (se_mode export) (mp_framework plan) (mp_provider plan)
    (se_provider export) (or_str (Some (mp_fingerprint plan)) (fingerprint_text (se_location export))) (path_str target)
    (or_opt_int (se_vector_dim export) (mp_embedding_dim plan)) (se_count export)
    (if bool_decide (mp_framework plan = Some "mem0") then Some (or_str (mp_collection plan) "mem0") else None)
    0 [] None (mp_warnings plan ++ se_warnings export) [(PStr "lodedb", PStr version); (PStr "plan_version", PInt 1)]
    [(PStr "dry_run", PBool (ro_dry_run o)); (PStr "mode", PStr (se_mode export)); (PStr "store_text", PBool (mp_store_text plan));
     (PStr "model", opt_val (mp_model plan)); (PStr "device", PStr (mp_device plan));
     (PStr "overwrite_target", PBool (ro_overwrite o)); (PStr "resume", PBool (ro_resume o))]
    started (S754_zero false).

Definition with_outcome (r : MigrationResult) (status : string) (written : nat) (skipped : list skip) (v : option checks)
    (finished : spec_float) : MigrationResult :=
  Result status (mg_route r) (mg_mode r) (mg_framework r) (mg_provider r) (mg_source_kind r) (mg_fingerprint r)
    (mg_target_path r) (mg_embedding_dim r) (mg_source_count r) (mg_store_subdir r) written skipped v (mg_warnings r)
    (mg_versions r) (mg_options r) (mg_started_at r) finished.

(** The temporary store: written and validated, or removed when either raises. *)
Definition stage (export : SourceExport) (plan : MigrationPlan) (r : MigrationResult) (write_dir : path)
    (backend : option EmbeddingBackend) : io (nat * list skip * checks) :=
  after false
    ('(written, skipped, sample) ← _write_target export plan write_dir backend;
     v ← _validate_target plan write_dir written (length skipped) (se_count export) sample (mg_embedding_dim r) backend;
     mret (written, skipped, v))
    (there ← path_exists write_dir; if (there : bool) then rmtree write_dir true else mret tt).

Definition failed_message (v : checks) (target write_dir : path) : string :=
  "migration validation failed (count_parity=" +:+ py_repr (PBool (ck_count_parity v)) +:+ ", audit_passed="
  +:+ py_repr (PBool (ck_audit_passed v)) +:+ ", sample_ok=" +:+ py_repr (PBool (sc_ok (ck_sample v))) +:+ "); the target "
  +:+ path_str target +:+ " was not published and any existing store there is left "
  +:+ "unchanged. The unpublished run is in " +:+ path_str write_dir +:+ " for inspection.".

(** The clock is read when the run starts and when it has validated. *)
Definition run_migration (plan : MigrationPlan) (o : run_options) (started finished : spec_float) : io MigrationResult :=
  let target := match ro_target o with Some p => p | None => pjoin [] (mp_target_path plan) end in
  store ← (if negb (ro_dry_run o) && negb (ro_resume o) then target_has_store target else mret false);
  if store && negb (ro_overwrite o)
  then fail MigrationError ("target " +:+ path_str target +:+ " already contains a LodeDB store; pass --overwrite-target "
         +:+ "to replace it or --resume to write into it")
  else
    export ← lift (match ro_source o with
                   | Some e => Ok e
                   | None => open_source im plan (ro_allow_remote o) (ro_location o) (ro_columns o) (ro_table o)
                   end);
    let r := initial_result plan o target export started in
    _ ← lift (if is_preserve (se_mode export) then _validate_vector_dim (mg_embedding_dim r) else Ok tt);
    if ro_dry_run o then
      '(seen, skipped) ← lift (_dry_run_probe export plan);
      mret (with_outcome r (mg_status r) seen skipped None finished)
    else
      let write_dir := _temp_target target in
      stale ← path_exists write_dir;
      _ ← (if (stale : bool) then rmtree write_dir false else mret tt);
      '(written, skipped, v) ← stage export plan r write_dir (ro_backend o);
      let r := with_outcome r (if ck_passed v then mg_status r else "failed") written skipped (Some v) finished in
      _ ← _write_manifest write_dir r;
      if negb (ck_passed v) then fail MigrationError (failed_message v target write_dir)
      else
        _ ← _atomic_move write_dir target (ro_resume o) (ro_overwrite o);
        _ ← _write_manifest target r;
        mret r.
End runner.

(** ** Staging touches only the temporary directory *)

Lemma confined_after {A} d b (m : io A) h : confined d m → confined d h → confined d (after b m h).
Proof.
  intros Hm Hh s. unfold after, runs. destruct (Hm s) as [C Q]. destruct (Hh (final (m s))) as [C' Q'].
  assert (Forall (only_below d s) (trace (m s) ++ trace (h (final (m s))))) as Hall.
  { apply Forall_app. split; [done|]. eapply Forall_impl; [exact C'|]. intros t Ht. exact (only_below_trans _ _ _ _ Q Ht). }
  destruct (value (m s)), b; cbn; split; try done; exact (only_below_trans _ _ _ _ Q Q').
Qed.

Lemma last_in {A} (l : list A) x (P : A → Prop) : Forall P l → P x → P (List.last l x).
Proof. induction 1 as [|a [|b l] ? ? IH]; cbn; auto. Qed.

Lemma pure_audit d : pure_io (audit_persisted_index_snapshots d).
Proof.
  unfold audit_persisted_index_snapshots. apply pure_bind; [apply pure_path_exists|]. intros there.
  destruct (negb there); [apply pure_fail|]. apply pure_bind; [apply pure_gets|]. intros dir. destruct (negb dir); [apply pure_fail|].
  apply pure_bind; [apply pure_gets|]. intros commits. apply pure_bind; [apply pure_foldIO; intros; apply pure_audit_commit|].
  intros [rows audited]. apply pure_bind; [apply pure_gets|]. intros names. apply pure_foldIO. intros rs nm.
  unfold audit_legacy. destruct (_ || _); [apply pure_ret|]. apply pure_bind; [apply pure_audit_row|]. intros row. apply pure_ret.
Qed.

(** Walks a program, closing its pure steps. *)
Ltac confine :=
  repeat match goal with
  | |- confined _ (_ ≫= _) => apply confined_bind; [|intros ?]
  | |- confined _ (after _ _ _) => apply confined_after
  | |- confined _ (attempt _) => apply confined_attempt
  | |- confined _ (match ?x with _ => _ end) => destruct x
  | |- confined _ (let '_ := ?x in _) => destruct x
  | |- _ => solve [eauto 3 with confined]
  end.

Section confinement.
Context {E : Type} {NE : NativeEngine E} {R : Reductions} {TH : Secrets} {SDK : MigrationSDK E} {SL : SDKLaws E}.
Variable uuid4 : nat → string.

Lemma confined_on_store {A} (w : writer E) (m : st (langchain_store E) A) : confined (wr_dir w) (on_store w m).
Proof.
  intros s. unfold on_store, runs. cbn. pose proof (writes_confined (wr_dir w) (db_engine (lc_db (m (wr_state w)).2)) s) as H.
  split; [done|]. apply last_in; [done|apply only_below_refl].
Qed.

(** The writer keeps its directory, which is in the temporary one. *)
Definition writes_in (W : path) (w : writer E) : Prop := below W (wr_dir w) = true.

Lemma on_store_post {A} W (w : writer E) (m : st (langchain_store E) A) : writes_in W w →
  confined_post W (on_store w m) (λ rw, writes_in W rw.2).
Proof. intros Hw. split; [eapply confined_mono; [exact Hw|apply confined_on_store]|]. by intros s [r w'] [= _ <-]. Qed.

Lemma open_post (d W : path) a k : below W d = true →
  confined_post W (db ← open_db d a; mret (fresh_writer (E := E) k d db)) (writes_in W).
Proof.
  intros Hd. eapply (confined_post_bind _ _ _ (λ _, True)); [|intros db _; by apply confined_post_ret].
  split; [eapply confined_mono; [exact Hd|apply open_confined]|done].
Qed.

Lemma open_target_post (W : path) export plan b : below W (_store_dir plan W) = true →
  confined_post W (open_target export plan W b) (writes_in W).
Proof.
  intros HW. unfold open_target, _open_vector_target, _open_text_target, _store_dir in *.
  assert (below W W = true) as HWW by (apply below_spec; by exists []).
  destruct (is_preserve _); [destruct (bool_decide (mp_framework plan = Some "mem0"))|]; try by apply open_post.
  eapply (confined_post_bind _ _ _ (λ _, True)); [split; [apply confined_pure, pure_lift|done]|]. intros _ _. by apply open_post.
Qed.

Definition progress_in (W : path) (p : progress E) : Prop := writes_in W (pg_writer p).

Lemma flush_post W p : progress_in W p → confined_post W (flush_batch uuid4 p) (progress_in W).
Proof.
  intros Hp. eapply confined_post_bind; [by apply on_store_post|]. intros [r w] Hw. by destruct r; apply confined_post_ret.
Qed.

Lemma write_step_post W mode dim limit p row : progress_in W p →
  confined_post W (write_step uuid4 mode dim limit p row) (progress_in W).
Proof.
  intros Hp. unfold write_step. destruct (pg_error p); [by apply confined_post_ret|].
  destruct (_would_skip row mode dim); [by apply confined_post_ret|].
  destruct (_ <=? _)%nat; [by apply flush_post|by apply confined_post_ret].
Qed.

Lemma write_rest_post W failure p : progress_in W p → confined_post W (write_rest uuid4 failure p) (progress_in W).
Proof.
  intros Hp. unfold write_rest. destruct (pg_error p), failure; try by apply confined_post_ret.
  eapply (confined_post_bind _ _ _ (progress_in W)).
  - destruct (pg_batch p); [by apply confined_post_ret|by apply flush_post].
  - intros q Hq. destruct (pg_error q); [by apply confined_post_ret|].
    eapply confined_post_bind; [by apply on_store_post|]. intros [r w] Hw. by apply confined_post_ret.
Qed.

Lemma confined_write W export plan b : below W (_store_dir plan W) = true → confined W (_write_target uuid4 export plan W b).
Proof.
  intros HW. unfold _write_target. eapply confined_bind_post; [by apply open_target_post|]. intros w Hw.
  apply confined_bind; [apply confined_pure, pure_lift|]. intros limit.
  eapply confined_bind_post; [apply (confined_post_foldIO _ _ _ (progress_in W)); [intros; by apply write_step_post|exact Hw]|].
  intros p Hp. eapply confined_bind_post; [by apply write_rest_post|]. intros q Hq.
  apply confined_bind; [|intros _; apply confined_pure, pure_lift].
  eapply confined_mono; [exact Hq|apply close_confined].
Qed.

Lemma confined_read_back plan d sample dim b : confined d (_read_back_counts plan d sample dim b).
Proof. unfold _read_back_counts. confine; [apply open_confined|apply close_confined]. Qed.

Lemma confined_validate plan W n k c sample dim b : below W (_store_dir plan W) = true →
  confined W (_validate_target plan W n k c sample dim b).
Proof.
  intros HW. unfold _validate_target. confine.
  - eapply confined_mono; [exact HW|apply confined_read_back].
  - apply confined_pure, pure_audit.
Qed.

Lemma confined_stage export plan r W b : below W (_store_dir plan W) = true → confined W (stage uuid4 export plan r W b).
Proof.
  intros HW. unfold stage. apply confined_after; [|confine].
  apply confined_bind; [by apply confined_write|]. intros [[written skipped] sample].
  apply confined_bind; [by apply confined_validate|]. intros v. apply confined_pure, pure_ret.
Qed.
End confinement.

(** ** Publication *)

(** A directory after its manifest is being or was written. *)
Definition manifest_only (d : path) (s t : fsys) : Prop :=
  (∀ p, p ≠ "migration.json" :: d → p ≠ "migration.json.tmp" :: d → files t !! p = files s !! p) ∧
  (∀ p, below p d = false → p ∈ dirs t ↔ p ∈ dirs s) ∧ dirs s ⊆ dirs t.

Lemma manifest_only_trans d s t u : manifest_only d s t → manifest_only d t u → manifest_only d s u.
Proof.
  intros (F1 & D1 & S1) (F2 & D2 & S2). split_and!; [|intros p Hp; by rewrite D2, D1|set_solver].
  intros p Hp Hq. by rewrite F2, F1.
Qed.

Lemma manifest_only_below d s t : manifest_only d s t → only_below d s t.
Proof.
  intros (F & D & _) p Hp. split; [|apply D]. apply F; intros ->.
  - change ("migration.json" :: d) with (["migration.json"] ++ d) in Hp. by rewrite below_app in Hp.
  - change ("migration.json.tmp" :: d) with (["migration.json.tmp"] ++ d) in Hp. by rewrite below_app in Hp.
Qed.

Lemma dir_exists_in n q s : dir_exists s (n :: q) = true ↔ n :: q ∈ dirs s.
Proof. unfold dir_exists. rewrite bool_decide_eq_true. naive_solver. Qed.

Section publication.
Variable elapsed : spec_float → spec_float → spec_float.

Lemma migration_manifest_runs n q r s : runs (manifest_only (n :: q) s) (_write_manifest elapsed (n :: q) r) s (λ o t,
  manifest_only (n :: q) s t ∧ n :: q ∈ dirs t ∧ o = (_ ← manifest_bytes elapsed r; Ok tt)).
Proof.
  set (d := n :: q). assert (∀ ds, dirs s ⊆ ds → (∀ p, below p d = false → p ∈ ds ↔ p ∈ dirs s) →
    manifest_only d s (FSys (files s) ds)) as Hds by (intros ds H1 H2; repeat split; try done; by apply H2).
  eapply (runs_bind _ _ _ _ _ (λ o t, o = Ok tt ∧ manifest_only d s t ∧ d ∈ dirs t)); [| |by intros e t [? _]].
  - assert (manifest_only d s s) as Hrefl by done.
    unfold runs, mkdir_p. destruct (dir_exists s d) eqn:Ed; cbn [trace value final].
    { split; [constructor|]. split_and!; try done. by apply dir_exists_in. }
    assert (manifest_only d s (FSys (files s) (ancestors d ∪ dirs s))) as H.
    { apply Hds; [set_solver|]. intros p Hp. split; [|set_solver]. intros [Hin%ancestors_above|?]%elem_of_union; [congruence|done]. }
    split; [by constructor; [|constructor]|]. split_and!; [done..|]. cbn. set_solver.
  - intros [] t (_ & Ht & Hd). destruct (manifest_bytes elapsed r) as [data|e] eqn:Em; [|by apply runs_lift].
    eapply runs_pure; [done|]. eapply runs_weaken; [apply (publish_runs "migration.json" d data false); by apply dir_exists_in| |].
    + intros u (Hdu & Hu & _). eapply manifest_only_trans; [exact Ht|]. split_and!; [|by intros; rewrite Hdu|by rewrite Hdu].
      intros p H1 H2. by apply Hu.
    + intros o u [-> ->]. split_and!; [|done..]. eapply manifest_only_trans; [exact Ht|]. split_and!; [|done..].
      intros p H1 H2. cbn. rewrite lookup_insert_ne by done. by rewrite lookup_delete_ne.
Qed.
End publication.

(** One directory renamed to a sibling name that is free. *)
Lemma rename_runs n n' q s : n ≠ n' → n :: q ∈ dirs s → dir_exists s q = true →
  occupied (n' :: q) s = false → files s !! (n' :: q) = None →
  os_rename (n :: q) (n' :: q) s = FileSys.step (move_tree (n :: q) (n' :: q) s).
Proof.
  intros Hne Hin Hq Ho Hf. unfold os_rename. change (parent (n' :: q)) with q. rewrite Hq, Hf, Ho. cbn [negb].
  rewrite bool_decide_eq_true_2 by done. rewrite bool_decide_eq_false_2 by (by intros [? ?]).
  pose proof (sibling_below n n' q [] Hne) as Hb. cbn [app] in Hb. by rewrite Hb.
Qed.

Lemma rename_fails n n' q s : n ≠ n' → n :: q ∈ dirs s → dir_exists s q = true →
  (occupied (n' :: q) s = false ∧ files s !! (n' :: q) = None) ∨
  ∃ e, os_rename (n :: q) (n' :: q) s = Out [] s (Err e).
Proof.
  intros Hne Hin Hq. unfold os_rename. change (parent (n' :: q)) with q. rewrite Hq. cbn [negb].
  rewrite bool_decide_eq_true_2 by done. destruct (files s !! (n' :: q)) as [f|].
  - right. rewrite bool_decide_eq_true_2 by (by exists f). by eexists.
  - rewrite bool_decide_eq_false_2 by (by intros [? ?]). destruct (occupied (n' :: q) s); [right; by eexists|by left].
Qed.

(** What a rename leaves: the tree under its new name, nothing under the old one, the rest as it was. *)
Lemma moved n n' q s : n ≠ n' → occupied (n' :: q) s = false → files s !! (n' :: q) = None →
  let t := move_tree (n :: q) (n' :: q) s in
  (∀ k, tree (n' :: q) t k = tree (n :: q) s k) ∧ (∀ k, tree (n :: q) t k = None) ∧
  occupied (n :: q) t = false ∧ (∀ m, m ≠ n → m ≠ n' → same_at (m :: q) s t) ∧ (dir_exists s q = true → dir_exists t q = true).
Proof.
  intros Hne Ho Hf t. pose proof (unoccupied_tree _ _ Ho Hf) as Hfree.
  assert (∀ a b p, a ≠ b → below (a :: q) p = true → below (b :: q) p = false) as Hdis.
  { intros a b p Hab [k ->]%below_spec. apply sibling_below. congruence. }
  destruct (move_tree_spec (n :: q) (n' :: q) s Hfree) as (T1 & T2 & T3); [intros p; by apply Hdis|].
  destruct (move_tree_dirs (n :: q) (n' :: q) s) as (D1 & D2 & D3); [intros p; by apply Hdis|].
  split_and!.
  - done.
  - intros k. apply T2, below_app.
  - apply not_true_is_false. intros (p & Hb & _ & [[f Hp]|Hp])%occupied_spec; [by rewrite T2 in Hp|by eapply D1].
  - intros m Hm Hm' p Hp. split; [apply T3|apply D2]; eapply Hdis; try exact Hp; done.
  - unfold dir_exists. rewrite !bool_decide_eq_true. intros [?|Hq]; [by left|right]. apply D2; [| |done];
      apply not_true_is_false; intros [k H]%below_spec; apply (f_equal length) in H; rewrite length_app in H; cbn in H; lia.
Qed.

(** What the move may leave behind when it is interrupted: the old target, the old target under
    its backup name with the new store still in the temporary directory, or the new store. *)
Definition move_state (n w b : string) (q : path) (s s1 t : fsys) : Prop :=
  same_at (n :: q) s t ∨
  ((∀ k, tree (n :: q) t k = None) ∧ (∀ k, tree (b :: q) t k = tree (n :: q) s k) ∧ ∀ k, tree (w :: q) t k = tree (w :: q) s1 k) ∨
  ∀ k, tree (n :: q) t k = tree (w :: q) s1 k.

Section move.
Variables (n w b : string) (q : path) (s s1 : fsys).
Hypotheses (Hnw : w ≠ n) (Hnb : b ≠ n) (Hwb : w ≠ b).
Local Notation T := (n :: q).
Local Notation W := (w :: q).
Local Notation B := (b :: q).

(** The second rename: the name is free. *)
Lemma publish_move u : W ∈ dirs u → dir_exists u q = true → occupied T u = false → files u !! T = None →
  (∀ k, tree W u k = tree W s1 k) →
  runs (move_state n w b q s s1) (or_os_error (os_rename W T) (shutil_move W T)) u
    (λ r t, r = Ok tt ∧ ∀ k, tree T t k = tree W s1 k).
Proof.
  intros HW Hq Ho Hf Hu. unfold runs, or_os_error. rewrite rename_runs by done. cbn [FileSys.step value trace final].
  destruct (moved w n q u Hnw Ho Hf) as (H1 & _).
  assert (∀ k, tree T (move_tree W T u) k = tree W s1 k) as H by (intros k; by rewrite H1).
  split; [|done]. constructor; [|constructor]. right. by right.
Qed.

Lemma replace_runs u : same_at T s u → same_at W s1 u → W ∈ dirs s1 → dir_exists u q = true → T ∈ dirs u → files u !! T = None →
  runs (move_state n w b q s s1)
    (_ ← os_rename T B; _ ← or_os_error (os_rename W T) (shutil_move W T); rmtree B true) u
    (λ r t, match r with Ok _ => ∀ k, tree T t k = tree W s1 k | Err _ => same_at T s t end).
Proof.
  intros HT HW HWd Hq HTd HTf.
  destruct (rename_fails n b q u (not_eq_sym Hnb) HTd Hq) as [[Hob Hfb]|[e He]].
  2:{ unfold runs. rewrite (bind_run_err _ _ _ _ _ _ He). by split; [constructor|]. }
  destruct (moved n b q u (not_eq_sym Hnb) Hob Hfb) as (M1 & M2 & M3 & M4 & M5).
  pose proof (M4 w Hnw Hwb) as HWu. set (v := move_tree T B u) in *.
  assert (∀ k, tree W v k = tree W s1 k) as HWv.
  { intros k. by rewrite (same_at_tree W u v), (same_at_tree W s1 u). }
  eapply (runs_bind _ _ _ _ _ (λ r t, r = Ok tt ∧ t = v)); [| |by intros e t [? _]].
  { unfold runs. rewrite rename_runs by done. split; [|done]. constructor; [|constructor]. right. left.
    split_and!; [done| |done]. intros k. by rewrite M1, (same_at_tree T s u). }
  intros [] t [_ ->]. eapply runs_bind; [apply publish_move| |by intros e t [? _]].
  - apply HWu; [apply (below_app W [])|]. apply HW; [apply (below_app W [])|done].
  - by apply M5.
  - done.
  - apply (M2 []).
  - done.
  - intros [] t [_ Ht]. eapply runs_weaken; [apply rmtree_runs| |].
    + intros t' Ht'. right. right. intros k. rewrite (same_at_tree T t t'); [done|by eapply only_below_same].
    + intros r t' [Ht' [[-> _]|[? _]]]; [|done]. intros k. rewrite (same_at_tree T t t'); [done|by eapply only_below_same].
Qed.

(** A program that changes only a third sibling, or the directories above, keeps both. *)
Definition settled (t : fsys) : Prop := same_at T s t ∧ same_at W s1 t.

Lemma settled_refl : same_at T s s1 → settled s1.
Proof. done. Qed.

Lemma mkdir_settled t : settled t → runs settled (mkdir_p q) t (λ r u, r = Ok tt ∧ settled u ∧ dir_exists u q = true).
Proof.
  intros [HT HW]. assert (∀ a, below q (a :: q) = true) as Hb by (intros a; apply (below_app q [a])).
  assert (∀ u, u = final (mkdir_p q t) → settled u) as Hf.
  { intros u ->. split; (eapply same_at_trans; [eassumption|]); eapply only_below_same.
    - exact Hnw.
    - by apply confined_mkdir.
    - exact (not_eq_sym Hnw).
    - by apply confined_mkdir. }
  destruct (mkdir_p_run q t) as (tr & ds & Hrun & _ & Hd & _). unfold runs. split.
  - revert Hf. unfold mkdir_p. destruct (dir_exists t q); intros Hf; constructor; [by apply Hf|constructor].
  - split_and!; [by rewrite Hrun|by apply Hf|by rewrite Hrun].
Qed.

Lemma backup_settled t (c : bool) : settled t → runs settled (if c then rmtree B true else mret tt) t (λ r u, r = Ok tt ∧
  settled u ∧ (dir_exists t q = true → dir_exists u q = true)).
Proof.
  intros [HT HW]. destruct c; [|by apply runs_ret].
  assert (∀ u, only_below B t u → settled u) as H.
  { intros u Hu. split; eapply same_at_trans; try eassumption; (eapply only_below_same; [|exact Hu]); congruence. }
  destruct (rmtree_runs B true t) as (HC & Hu & [[Hr _]|[? _]]); [|done].
  split; [by eapply Forall_impl|]. split_and!; [done|by apply H|]. apply rmtree_keeps.
  apply not_true_is_false. intros [k Hk]%below_spec. apply (f_equal length) in Hk. rewrite length_app in Hk. cbn in Hk. lia.
Qed.

Lemma settled_state t : settled t → move_state n w b q s s1 t.
Proof. intros [HT _]. by left. Qed.

Lemma move_runs resume overwrite : same_at T s s1 → W ∈ dirs s1 → files s !! T = None →
  (occupied T s = true → T ∈ dirs s ∧ overwrite || resume = true) → b = n +:+ ".replaced" →
  runs (move_state n w b q s s1) (_atomic_move W T resume overwrite) s1
    (λ r t, match r with Ok _ => ∀ k, tree T t k = tree W s1 k | Err _ => same_at T s t end).
Proof.
  intros HT HWd Hf Hocc Hb. unfold _atomic_move. change (with_name T (pname T +:+ ".replaced")) with ((n +:+ ".replaced") :: q).
  rewrite <-Hb. eapply runs_bind; [eapply runs_weaken; [by apply mkdir_settled, settled_refl|apply settled_state|by intros r t H; exact H]| |
    by intros e t [? _]].
  intros [] u (_ & [HTu HWu] & Hq). assert (files u !! T = None) as Hfu by (by rewrite (proj1 (HTu T (below_app T [])))).
  eapply runs_pure; [apply path_exists_run|]. rewrite Hfu, (bool_decide_eq_false_2 (is_Some None)) by (by intros [? ?]).
  cbn [orb]. destruct (dir_exists u T) eqn:ETd; cbn [andb]; [|clear Hb].
  2:{ eapply runs_weaken; [apply publish_move| |]; try done.
      - by apply (HWu W (below_app W [])).
      - rewrite (occupied_same T s u) by done. apply not_true_is_false. intros [Hin _]%Hocc.
        apply (HTu T (below_app T [])), dir_exists_in in Hin. congruence.
      - intros k. by rewrite (same_at_tree W s1 u).
      - by intros r t [-> Ht]. }
  destruct (overwrite || resume) eqn:Eor.
  - eapply runs_pure; [apply path_exists_run|].
    eapply runs_bind; [eapply runs_weaken; [by apply backup_settled|apply settled_state|by intros r t H; exact H]| |by intros e t [? _]].
    intros [] v (_ & [HTv HWv] & Hqv). apply replace_runs; auto.
    + apply (HTv T (below_app T [])), (HTu T (below_app T [])). by apply dir_exists_in.
    + by rewrite (proj1 (HTv T (below_app T []))).
  - eapply runs_weaken; [apply publish_move| |]; try done.
    + by apply (HWu W (below_app W [])).
    + rewrite (occupied_same T s u) by done. apply not_true_is_false. intros [_ ?]%Hocc. done.
    + intros k. by rewrite (same_at_tree W s1 u).
    + by intros r t [-> Ht].
Qed.
End move.

(** ** Runs *)

(** The same files, their manifest apart. *)
Definition same_store (d : path) (t : fsys) (d' : path) (u : fsys) : Prop :=
  ∀ k, k ≠ ["migration.json"] → k ≠ ["migration.json.tmp"] → tree d t k = tree d' u k.

Lemma manifest_only_store d s t : manifest_only d s t → same_store d t d s.
Proof.
  intros (F & _) k H1 H2. apply F; intros Hk; [apply H1|apply H2];
    [change ("migration.json" :: d) with (["migration.json"] ++ d) in Hk|change ("migration.json.tmp" :: d) with (["migration.json.tmp"] ++ d) in Hk];
    by apply app_inv_tail in Hk.
Qed.

Lemma same_store_move d t d' u d'' v : (∀ k, tree d t k = tree d' u k) → same_store d' u d'' v → same_store d t d'' v.
Proof. intros H1 H2 k Hk Hk'. by rewrite H1, H2. Qed.

Lemma runs_read {A B} C (m : io A) (k : A → io B) s (Q : result B → fsys → Prop) : pure_io m →
  (∀ a, runs C (k a) s Q) → (∀ e, Q (Err e) s) → runs C (m ≫= k) s Q.
Proof.
  intros Hm Hk He. eapply (runs_bind _ _ _ _ _ (λ _ t, t = s)); [|by intros a t ->|by intros e t ->].
  unfold runs. rewrite (pure_run m s Hm). by split; [constructor|].
Qed.

Lemma pure_has_store d : pure_io (target_has_store d).
Proof. unfold target_has_store. solve_pure. Qed.

Section safety.
Context {E : Type} {NE : NativeEngine E} {R : Reductions} {TH : Secrets} {SDK : MigrationSDK E} {SL : SDKLaws E}.
Variables (uuid4 : nat → string) (elapsed : spec_float → spec_float → spec_float) (version : string) (im : importers).

(** [u] is a state in which the directory was written from an export and passed its validation. *)
Definition staged (plan : MigrationPlan) (W : path) (u : fsys) : Prop :=
  ∃ export dim b s0 written skipped sample v,
    let o := _write_target uuid4 export plan W b s0 in
    let o' := _validate_target plan W written (length skipped) (se_count export) sample dim b (final o) in
    value o = Ok (written, skipped, sample) ∧ value o' = Ok v ∧ ck_passed v = true ∧ final o' = u.

Lemma stage_staged export plan r W b s written skipped v : value (stage uuid4 export plan r W b s) = Ok (written, skipped, v) →
  ck_passed v = true → staged plan W (final (stage uuid4 export plan r W b s)).
Proof.
  unfold stage. intros [H ->]%after_Ok Hv. apply io_bind_Ok in H as ([[w k] sample] & Hw & H & ->).
  apply io_bind_Ok in H as (v' & Hv' & [= -> -> ->] & ->). by exists export, (mg_embedding_dim r), b, s, written, skipped, sample, v.
Qed.

(** What a run may leave when it is interrupted. *)
Definition crash_state (plan : MigrationPlan) (n : string) (q : path) (s t : fsys) : Prop :=
  let W := (n +:+ ".tmp") :: q in
  same_at (n :: q) s t ∨
  ∃ u, staged plan W u ∧
    (((∀ k, tree (n :: q) t k = None) ∧ (∀ k, tree ((n +:+ ".replaced") :: q) t k = tree (n :: q) s k) ∧ same_store W t W u) ∨
     same_store (n :: q) t W u).

Lemma name_suffix_ne n a : a ≠ "" → n +:+ a ≠ n.
Proof. intros Ha H. apply (f_equal slen) in H. rewrite slen_app in H. destruct a; [done|]. cbn in H. lia. Qed.
Lemma suffixes_ne n : n +:+ ".tmp" ≠ n +:+ ".replaced".
Proof. intros H. apply (f_equal slen) in H. rewrite !slen_app in H. cbn in H. lia. Qed.

Section publish.
Variables (plan : MigrationPlan) (n : string) (q : path) (s : fsys) (resume overwrite : bool).
Local Notation T := (n :: q).
Local Notation W := ((n +:+ ".tmp") :: q).
Hypotheses (Hf : files s !! T = None) (Hocc : occupied T s = true → T ∈ dirs s ∧ overwrite || resume = true).

Lemma publish_phase u r : same_at T s u → staged plan W u →
  runs (crash_state plan n q s)
    (_ ← _write_manifest elapsed W r; _ ← _atomic_move W T resume overwrite; _ ← _write_manifest elapsed T r; mret r) u
    (λ o t, match o with
            | Err _ => same_at T s t
            | Ok m => m = r ∧ same_store T t W u
            end).
Proof.
  intros HT Hst. pose proof (name_suffix_ne n ".tmp" ltac:(done)) as Hw. pose proof (name_suffix_ne n ".replaced" ltac:(done)) as Hb.
  assert (∀ t, manifest_only W u t → same_at T s t) as Hman.
  { intros t Ht%manifest_only_below. eapply same_at_trans; [exact HT|exact (only_below_same _ _ _ _ _ Hw Ht)]. }
  eapply runs_bind; [eapply runs_weaken; [apply migration_manifest_runs|intros t Ht; left; by apply Hman|by intros o t H; exact H]| |
    intros e t (Ht & _); by apply Hman].
  intros [] v (Hv & HWd & Hok). pose proof (manifest_only_store _ _ _ Hv) as Hsv.
  eapply runs_bind; [eapply runs_weaken; [apply (move_runs n (n +:+ ".tmp") (n +:+ ".replaced") q s v Hw Hb (suffixes_ne n)); auto| |
    by intros o t H; exact H]| |by intros e t H].
  { intros t [H|[(H1 & H2 & H3)|H]]; [by left|right; exists u; split; [done|left]|right; exists u; split; [done|right]].
    - split_and!; [done..|]. by eapply same_store_move.
    - by eapply same_store_move. }
  intros [] t Ht. assert (∀ t', manifest_only T t t' → same_store T t' W u) as Hman'.
  { intros t' Ht'%manifest_only_store k H1 H2. rewrite Ht' by done. rewrite Ht. by apply Hsv. }
  eapply runs_bind; [eapply runs_weaken; [apply migration_manifest_runs| |by intros o t' H; exact H]| |].
  - intros t' Ht'. right. exists u. split; [done|]. right. by apply Hman'.
  - intros [] t' (Ht' & _). apply runs_ret. split; [done|]. by apply Hman'.
  - intros e t' (_ & _ & He). destruct (manifest_bytes elapsed r); done.
Qed.
End publish.

(** C28: a migration does not damage its target, provided that the target is no file, that it is not occupied
    unless [--overwrite-target] or [--resume] asks to replace it (both replace it, whatever the help of [--resume]
    says, [resume_replaces]), and that the store directory of the plan lies in [<target>.tmp]. Without these it can
    ([occupied_target_nests], [collection_escapes]). Every state a crash may leave on the way has the old
    target untouched, or the validated new store in its place, or (between the two renames) the
    old target whole under [.replaced] with the validated store in [.tmp]; a run that raises
    leaves the target as it was; a run that reports [migrated] leaves there exactly the files
    that were validated and its manifest; a dry run writes nothing. *)
Theorem migration_publishes_safely plan o started finished n q s :
  let T := n :: q in
  let W := (n +:+ ".tmp") :: q in
  ro_target o = Some T → files s !! T = None →
  (occupied T s = true → T ∈ dirs s ∧ ro_overwrite o || ro_resume o = true) → below W (_store_dir plan W) = true →
  runs (crash_state plan n q s) (run_migration uuid4 elapsed version im plan o started finished) s
    (λ r t, match r with
            | Err _ => same_at T s t
            | Ok m => if ro_dry_run o then t = s else mg_status m = "migrated" ∧ ∃ u, staged plan W u ∧ same_store T t W u
            end).
Proof.
  intros T W HoT Hf Hocc HW. unfold run_migration. rewrite HoT. pose proof (name_suffix_ne n ".tmp" ltac:(done)) as Hw.
  assert (∀ t, only_below W s t → same_at T s t) as HWs by (intros t Ht; exact (only_below_same _ _ _ _ _ Hw Ht)).
  assert (same_at T s s) as Hrefl by apply same_at_refl.
  apply runs_read; [destruct (_ && _); [apply pure_has_store|apply pure_ret]| |done]. intros store.
  destruct (store && _); [by apply runs_lift|]. apply runs_read; [apply pure_lift| |done]. intros export.
  apply runs_read; [apply pure_lift| |done]. intros _. destruct (ro_dry_run o) eqn:Edry.
  { apply runs_read; [apply pure_lift| |done]. intros [seen skipped]. by apply runs_ret. }
  change (_temp_target T) with W. apply runs_read; [apply pure_path_exists| |done]. intros stale.
  assert (confined W (if stale then rmtree W false else mret tt)) as Hrm by (destruct stale; auto with confined).
  eapply runs_bind; [eapply runs_weaken; [apply Hrm|intros t Ht; left; by apply HWs|by intros r t H; exact H]| |by intros e t Ht; apply HWs].
  intros [] s1 Hs1. cbn beta in Hs1. set (r := initial_result version plan o T export started).
  pose proof (confined_stage uuid4 export plan r W (ro_backend o) HW s1) as [HC HQ].
  assert (∀ t, only_below W s1 t → same_at T s t) as HWs1.
  { intros t Ht. apply HWs. by eapply only_below_trans. }
  eapply (runs_bind _ _ _ _ _ (λ o' t, same_at T s t ∧ ∀ a b v, o' = Ok (a, b, v) → ck_passed v = true → staged plan W t)).
  { split; [eapply Forall_impl; [exact HC|]; intros t Ht; left; by apply HWs1|]. split; [by apply HWs1|].
    intros a b v Hv Hp. by eapply stage_staged. }
  2:{ by intros e t [Ht _]. }
  intros [[written skipped] v] u [Hu Hst]. cbn zeta. destruct (ck_passed v) eqn:Ev; cbn [negb].
  - eapply runs_weaken; [apply (publish_phase plan n q s (ro_resume o) (ro_overwrite o) Hf Hocc u)|done|]; [done|by eapply Hst|].
    intros [m|e] t; [|done]. intros [-> Ht]. split; [cbn; by rewrite Edry|]. exists u. split; [by eapply Hst|done].
  - eapply runs_bind; [eapply runs_weaken; [apply migration_manifest_runs| |by intros r' t H; exact H]| |].
    + intros t Ht%manifest_only_below. left. eapply same_at_trans; [exact Hu|exact (only_below_same _ _ _ _ _ Hw Ht)].
    + intros _ t (Ht%manifest_only_below & _). apply runs_lift. eapply same_at_trans; [exact Hu|exact (only_below_same _ _ _ _ _ Hw Ht)].
    + intros e t (Ht%manifest_only_below & _). eapply same_at_trans; [exact Hu|exact (only_below_same _ _ _ _ _ Hw Ht)].
Qed.
End safety.

(** ** Batches *)

(** The whole batches of a list and what is left of it. *)
Definition batches {A} (k : nat) (l : list A) : list (list A) := map (λ i, take k (drop (k * i) l)) (seq 0 (length l / k)).
Definition leftover {A} (k : nat) (l : list A) : list A := drop (k * (length l / k)) l.

Lemma batches_short {A} k (l : list A) : (length l < k)%nat → batches k l = [] ∧ leftover k l = l.
Proof. intros H. unfold batches, leftover. by rewrite Nat.div_small, Nat.mul_0_r by done. Qed.

Lemma batches_cons {A} k (b l : list A) : length b = k → (0 < k)%nat →
  batches k (b ++ l) = b :: batches k l ∧ leftover k (b ++ l) = leftover k l.
Proof.
  intros Hb Hk. unfold batches, leftover. assert (length (b ++ l) / k = S (length l / k))%nat as ->.
  { rewrite length_app, Hb. replace (k + length l)%nat with (1 * k + length l)%nat by lia. by rewrite Nat.div_add_l by lia. }
  assert (∀ i, drop (k * S i) (b ++ l) = drop (k * i) l) as Hd.
  { intros i. rewrite drop_app_ge by lia. f_equal. lia. }
  split; [|apply Hd]. cbn [seq map]. rewrite Nat.mul_0_r, drop_0, <-Hb, take_app_length. f_equal.
  rewrite <-seq_shift, map_map. apply map_ext. intros i. by rewrite Hb, Hd.
Qed.

Lemma batches_concat {A} k (l : list A) : (0 < k)%nat → concat (batches k l) ++ leftover k l = l ∧
  Forall (λ b, length b = k) (batches k l) ∧ (length (leftover k l) < k)%nat.
Proof.
  intros Hk. remember (length l) as n eqn:Hn. revert l Hn. induction (lt_wf n) as [n _ IH]. intros l Hn.
  destruct (decide (length l < k)%nat) as [Hl|Hl]; [destruct (batches_short k l Hl) as [-> ->]; by repeat constructor|].
  rewrite <-(take_drop k l). assert (length (take k l) = k) as Ht by (rewrite length_take; lia).
  destruct (batches_cons k (take k l) (drop k l) Ht Hk) as [-> ->].
  destruct (IH (length (drop k l)) ltac:(rewrite length_drop; lia) (drop k l) eq_refl) as (H1 & H2 & H3).
  cbn [concat]. rewrite <-(assoc_L (++)), H1. split_and!; [done|by constructor|done].
Qed.

Definition keeps (mode : string) (dim : option Z) (row : ExportedRow) : bool :=
  match _would_skip row mode dim with None => true | Some _ => false end.
Definition skips (mode : string) (dim : option Z) (rows : list ExportedRow) : list skip :=
  omap (λ row, Skip (hash_id (er_id row)) <$> _would_skip row mode dim) rows.

Lemma skips_cons mode dim row rows : skips mode dim (row :: rows) =
  match _would_skip row mode dim with Some reason => Skip (hash_id (er_id row)) reason :: skips mode dim rows | None => skips mode dim rows end.
Proof. unfold skips. cbn [omap list_omap]. by destruct (_would_skip row mode dim). Qed.

Lemma skip_accounts mode dim rows : (length (List.filter (keeps mode dim) rows) + length (skips mode dim rows))%nat = length rows.
Proof.
  induction rows as [|row rows IH]; [done|]. rewrite skips_cons. cbn [List.filter]. unfold keeps at 1.
  destruct (_would_skip row mode dim); cbn [length]; lia.
Qed.

Section batched.
Context {E : Type} {NE : NativeEngine E} {R : Reductions} {TH : Secrets} {SDK : MigrationSDK E}.
Variable uuid4 : nat → string.

(** The batches one after the other, up to the first that raises. *)
Fixpoint write_all (w : writer E) (bs : list (list ExportedRow)) : io (option exn * writer E) :=
  match bs with
  | [] => mret (None, w)
  | b :: bs =>
      '(r, w) ← on_store w (write_batch uuid4 w b);
      match r with Ok _ => write_all w bs | Err e => mret (Some e, w) end
  end.

(** What follows the batches: the exception of one of them or of the iterator, or [persist]. *)
Definition finish (failure : option exn) (e : option exn) (w : writer E) : io (option exn * writer E) :=
  match e, failure with
  | None, None => '(r, w) ← on_store w (lc_call (persist (wr_config w))); mret (match r with Ok _ => None | Err e => Some e end, w)
  | None, Some e => mret (Some e, w)
  | Some e, _ => mret (Some e, w)
  end.

(** The replay told in one piece: skip, cut the kept rows in batches of 500, write them in order,
    persist, close. When the iterator raises, the rows of the unfinished batch are not written. *)
Definition batched_write (export : SourceExport) (plan : MigrationPlan) (dir : path) (backend : option EmbeddingBackend)
    : io (nat * list skip * list sampled) :=
  w ← open_target export plan dir backend;
  limit ← lift (sample_limit plan);
  let rows := st_rows (se_rows export) in
  let failure := st_failure (se_rows export) in
  let keep := List.filter (keeps (se_mode export) (row_dim export plan)) rows in
  let rest := match failure, leftover _WRITE_BATCH keep with None, x :: l => [x :: l] | _, _ => [] end in
  '(e, w) ← ('(e, w) ← write_all w (batches _WRITE_BATCH keep ++ rest); finish failure e w);
  _ ← close_db (wr_dir w) (lc_db (wr_state w));
  lift (match e with
        | Some e => Err e
        | None => Ok (length keep, skips (se_mode export) (row_dim export plan) rows, map sample_of (take (Z.to_nat limit) keep))
        end).

Lemma write_all_value w bs s : ∃ e w', value (write_all w bs s) = Ok (e, w').
Proof.
  revert w s. induction bs as [|b bs IH]; intros w s; [by eexists _, _|]. cbn [write_all]. unfold mbind, io_bind. cbn [on_store value final].
  destruct (write_batch uuid4 w b (wr_state w)).1; [apply IH|by eexists _, _].
Qed.

Lemma fold_stopped mode dim limit p rows e s : pg_error p = Some e →
  foldIO (write_step uuid4 mode dim limit) p rows s = Out [] s (Ok p).
Proof.
  intros He. induction rows as [|row rows IH]; [done|]. cbn [foldIO]. rewrite (bind_run_pure _ _ _ p); [done|].
  unfold write_step. by rewrite He.
Qed.

(** Where the loop is after some rows: the writer and the error of the batches written so far and,
    without an error, the counts and the open batch. *)
Definition reached (mode : string) (dim : option Z) (limit : Z) (p : progress E) (rows : list ExportedRow)
    (out : option exn * writer E) (p' : progress E) : Prop :=
  let l := pg_batch p ++ List.filter (keeps mode dim) rows in
  pg_error p' = out.1 ∧ pg_writer p' = out.2 ∧
  (out.1 = None → pg_written p' = (pg_written p + _WRITE_BATCH * (length l / _WRITE_BATCH))%nat ∧
     pg_skipped p' = pg_skipped p ++ skips mode dim rows ∧ pg_batch p' = leftover _WRITE_BATCH l ∧
     pg_sample p' = pg_sample p ++ take (Z.to_nat limit - length (pg_sample p)) (map sample_of (List.filter (keeps mode dim) rows))).

Lemma batch_positive : (0 < _WRITE_BATCH)%nat.
Proof. unfold _WRITE_BATCH. lia. Qed.

Lemma sample_step (limit : Z) (a : list sampled) x l :
  (if Z.of_nat (length a) <? limit then a ++ [x] else a) ++
    take (Z.to_nat limit - length (if Z.of_nat (length a) <? limit then a ++ [x] else a)) l
  = a ++ take (Z.to_nat limit - length a) (x :: l).
Proof.
  destruct (Z.ltb_spec (Z.of_nat (length a)) limit) as [H|H].
  - rewrite length_app. cbn [length]. destruct (Z.to_nat limit - length a)%nat as [|m] eqn:Em; [lia|]. cbn [take].
    rewrite <-(assoc_L (++)). cbn [app]. repeat f_equal. lia.
  - replace (Z.to_nat limit - length a)%nat with 0%nat by lia. done.
Qed.

(** One row: skipped, put in the open batch, or the last one of a batch. *)
Definition skip_row (p : progress E) (row : ExportedRow) (reason : string) : progress E :=
  Progress (pg_writer p) (pg_written p) (pg_skipped p ++ [Skip (hash_id (er_id row)) reason]) (pg_sample p) (pg_batch p) None.
Definition take_row (limit : Z) (p : progress E) (row : ExportedRow) : progress E :=
  Progress (pg_writer p) (pg_written p) (pg_skipped p)
    (if Z.of_nat (length (pg_sample p)) <? limit then pg_sample p ++ [sample_of row] else pg_sample p) (pg_batch p ++ [row]) None.

Lemma step_skip mode dim limit p row reason s : pg_error p = None → _would_skip row mode dim = Some reason →
  write_step uuid4 mode dim limit p row s = Out [] s (Ok (skip_row p row reason)).
Proof. intros He Hs. unfold write_step. by rewrite He, Hs. Qed.
Lemma step_keep mode dim limit p row : pg_error p = None → _would_skip row mode dim = None →
  write_step uuid4 mode dim limit p row =
    if (_WRITE_BATCH <=? length (pg_batch p ++ [row]))%nat then flush_batch uuid4 (take_row limit p row) else mret (take_row limit p row).
Proof. intros He Hs. unfold write_step. by rewrite He, Hs. Qed.

Lemma filter_row mode dim row rows : List.filter (keeps mode dim) (row :: rows) =
  match _would_skip row mode dim with Some _ => List.filter (keeps mode dim) rows | None => row :: List.filter (keeps mode dim) rows end.
Proof. cbn [List.filter]. unfold keeps at 1. by destruct (_would_skip row mode dim). Qed.

Lemma reached_skip mode dim limit p row rows reason out p' : _would_skip row mode dim = Some reason →
  reached mode dim limit (skip_row p row reason) rows out p' → reached mode dim limit p (row :: rows) out p'.
Proof.
  intros Hs (H1 & H2 & H3). unfold reached. rewrite skips_cons, filter_row, Hs.
  split_and!; [done..|]. intros Hn. destruct (H3 Hn) as (H4 & H5 & H6 & H7). split_and!; try done.
  rewrite H5. cbn [skip_row pg_skipped]. by rewrite <-(assoc_L (++)).
Qed.

Lemma reached_keep mode dim limit p row rows out p' : _would_skip row mode dim = None →
  reached mode dim limit (take_row limit p row) rows out p' → reached mode dim limit p (row :: rows) out p'.
Proof.
  intros Hs (H1 & H2 & H3). unfold reached. rewrite skips_cons, filter_row, Hs.
  split_and!; [done..|]. intros Hn. destruct (H3 Hn) as (H4 & H5 & H6 & H7). cbn [take_row pg_batch pg_sample] in *.
  rewrite <-(assoc_L (++)) in H4, H6. split_and!; try done. rewrite H7. cbn [map]. apply sample_step.
Qed.

(** A full batch is written and the loop goes on with an empty one. *)
Lemma reached_flush mode dim limit p rows w out p' : length (pg_batch p) = _WRITE_BATCH →
  reached mode dim limit (Progress w (pg_written p + length (pg_batch p)) (pg_skipped p) (pg_sample p) [] None) rows out p' →
  reached mode dim limit p rows out p'.
Proof.
  pose proof batch_positive as HK. intros Hb (H1 & H2 & H3). split_and!; [done..|]. intros Hn. destruct (H3 Hn) as (H4 & H5 & H6 & H7).
  cbn [pg_batch pg_sample pg_skipped pg_written app] in *. destruct (batches_cons _ (pg_batch p) (List.filter (keeps mode dim) rows) Hb HK) as [_ Hl].
  split_and!; [|done|by rewrite Hl|done]. rewrite H4, length_app, Hb.
  replace (_WRITE_BATCH + length (List.filter (keeps mode dim) rows))%nat with (1 * _WRITE_BATCH + length (List.filter (keeps mode dim) rows))%nat by lia.
  rewrite Nat.div_add_l by lia. lia.
Qed.

Lemma flush_run p s : ∃ r w l, on_store (pg_writer p) (write_batch uuid4 (pg_writer p) (pg_batch p)) s = Out l (List.last l s) (Ok (r, w)) ∧
  flush_batch uuid4 p s = Out l (List.last l s) (Ok (match r with
    | Ok _ => Progress w (pg_written p + length (pg_batch p)) (pg_skipped p) (pg_sample p) [] None
    | Err e => Progress w (pg_written p) (pg_skipped p) (pg_sample p) (pg_batch p) (Some e)
    end)).
Proof. eexists _, _, _. split; [reflexivity|]. unfold flush_batch, mbind, io_bind. cbn [on_store value final trace mret io_ret]. by rewrite app_nil_r. Qed.

Lemma fold_reached mode dim limit rows : ∀ p s, pg_error p = None → (length (pg_batch p) < _WRITE_BATCH)%nat →
  let o := write_all (pg_writer p) (batches _WRITE_BATCH (pg_batch p ++ List.filter (keeps mode dim) rows)) s in
  ∃ out p', value o = Ok out ∧ foldIO (write_step uuid4 mode dim limit) p rows s = Out (trace o) (final o) (Ok p') ∧
    reached mode dim limit p rows out p'.
Proof.
  pose proof batch_positive as HK. induction rows as [|row rows IH]; intros p s He Hb.
  - cbn [List.filter]. rewrite app_nil_r. destruct (batches_short _ _ Hb) as [-> Hl]. eexists _, p. split_and!; try done.
    unfold reached. cbn [List.filter]. rewrite app_nil_r, Hl. split_and!; [done..|]. intros _. rewrite Nat.div_small by done.
    cbn. rewrite take_nil, !app_nil_r. split_and!; [lia|done..].
  - cbn [foldIO]. rewrite filter_row. destruct (_would_skip row mode dim) as [reason|] eqn:Es.
    { rewrite (bind_run_pure _ _ _ _ (step_skip _ _ _ _ _ _ _ He Es)). destruct (IH (skip_row p row reason) s eq_refl Hb) as (out & p' & H1 & H2 & H3).
      exists out, p'. split_and!; [done..|]. by eapply reached_skip. }
    rewrite (step_keep _ _ _ _ _ He Es). replace (pg_batch p ++ row :: List.filter (keeps mode dim) rows) with
      (pg_batch (take_row limit p row) ++ List.filter (keeps mode dim) rows) by (cbn; by rewrite <-(assoc_L (++))).
    destruct (Nat.leb_spec _WRITE_BATCH (length (pg_batch p ++ [row]))) as [Hfull|Hopen].
    2:{ rewrite (bind_run_pure _ _ _ (take_row limit p row)) by done. destruct (IH (take_row limit p row) s eq_refl Hopen) as (out & p' & H1 & H2 & H3).
        exists out, p'. split_and!; [done..|]. by eapply reached_keep. }
    set (t := take_row limit p row) in *. assert (length (pg_batch t) = _WRITE_BATCH) as Hlen.
    { cbn [t take_row pg_batch] in *. rewrite length_app in *. cbn in *. lia. }
    destruct (batches_cons _ (pg_batch t) (List.filter (keeps mode dim) rows) Hlen HK) as [-> _].
    change (pg_writer p) with (pg_writer t). cbn [write_all].
    destruct (flush_run t s) as (r & w & l & Hon & Hfl). rewrite (bind_run _ _ _ _ _ _ Hon), (bind_run _ _ _ _ _ _ Hfl).
    cbv beta iota. destruct r as [[]|e].
    + destruct (IH (Progress w (pg_written t + length (pg_batch t)) (pg_skipped t) (pg_sample t) [] None) (List.last l s) eq_refl HK)
        as (out & p' & H1 & H2 & H3). exists out, p'. cbn [value trace final pg_batch pg_writer app] in *. rewrite H2.
      split_and!; [done..|]. eapply reached_keep; [done|]. by eapply reached_flush.
    + eexists _, _. split_and!; [done|by rewrite (fold_stopped _ _ _ _ _ e) by done|]. by split_and!.
Qed.

Lemma bind_ext {A B} (m : io A) (k k' : A → io B) s : (∀ a t, k a t = k' a t) → (m ≫= k) s = (m ≫= k') s.
Proof. intros H. unfold mbind, io_bind. destruct (value (m s)); [|done]. by rewrite H. Qed.

Lemma write_all_app w bs bs' s e w' : value (write_all w bs s) = Ok (e, w') →
  write_all w (bs ++ bs') s =
    let o := write_all w bs s in
    match e with
    | None => let o' := write_all w' bs' (final o) in Out (trace o ++ trace o') (final o') (value o')
    | Some _ => o
    end.
Proof.
  revert w s. induction bs as [|b bs IH]; intros w s; cbn [write_all app].
  { intros [= <- <-]. cbn. by destruct (write_all w bs' s). }
  unfold mbind, io_bind. cbn [on_store value final trace]. set (w1 := Writer _ _ _ _).
  destruct (write_batch uuid4 w b (wr_state w)).1 as [[]|x]; [|by intros [= <- <-]].
  cbn [value final trace]. intros H. rewrite (IH _ _ H). cbn zeta. destruct e; [done|]. cbn. by rewrite (assoc_L (++)).
Qed.

Lemma rest_run failure p (l : list ExportedRow) s : pg_error p = None → pg_batch p = l →
  ∃ p' e w, let o := ('(e, w) ← write_all (pg_writer p) (match failure, l with None, x :: l => [x :: l] | _, _ => [] end); finish failure e w) s in
    value o = Ok (e, w) ∧ write_rest uuid4 failure p s = Out (trace o) (final o) (Ok p') ∧ pg_error p' = e ∧ pg_writer p' = w ∧
    (e = None → pg_written p' = (pg_written p + length l)%nat ∧ pg_skipped p' = pg_skipped p ∧ pg_sample p' = pg_sample p).
Proof.
  intros He <-. unfold write_rest. rewrite He. destruct failure as [x|].
  { eexists _, _, _. cbn zeta. rewrite (bind_run_pure _ _ _ (None, pg_writer p)) by done. by split_and!. }
  destruct (pg_batch p) as [|row l] eqn:Eb.
  - rewrite (bind_run_pure _ _ _ p), (bind_run_pure _ _ _ (None, pg_writer p)) by done. rewrite He. unfold finish, mbind, io_bind.
    cbn [on_store value final trace mret io_ret]. eexists _, _, _. split_and!; try done.
  - destruct (flush_run p s) as (r & w & t & Hon & Hfl). rewrite Eb in Hon. cbn [write_all].
    assert ((x ← on_store (pg_writer p) (write_batch uuid4 (pg_writer p) (row :: l)); let '(r, w) := x in
      match r with Ok _ => mret (None, w) | Err e => mret (Some e, w) end) s
      = Out t (List.last t s) (Ok (match r with Ok _ => None | Err e => Some e end, w))) as Hw.
    { rewrite (bind_run _ _ _ _ _ _ Hon). destruct r; cbn; by rewrite app_nil_r. }
    rewrite (bind_run _ _ _ _ _ _ Hw), (bind_run _ _ _ _ _ _ Hfl). cbv beta iota. destruct r as [[]|e]; cbn [pg_error].
    + unfold finish, mbind, io_bind. cbn [on_store value final trace mret io_ret pg_writer]. eexists _, _, _. split_and!; try done.
      intros _. cbn. by rewrite Eb.
    + eexists _, _, _. by split_and!.
Qed.

Lemma bind_assoc {A B C} (m : io A) (k : A → io B) (h : B → io C) s : ((m ≫= k) ≫= h) s = (m ≫= λ a, k a ≫= h) s.
Proof.
  unfold mbind, io_bind. destruct (value (m s)) as [a|e]; cbn [value final trace]; [|done].
  destruct (value (k a (final (m s)))) as [b|e]; cbn [value final trace]; [|done]. by rewrite (assoc_L (++)).
Qed.

(** The loop and what follows it, against the batches. *)
Lemma loop_run mode dim limit failure rows w s :
  let keep := List.filter (keeps mode dim) rows in
  let rest := match failure, leftover _WRITE_BATCH keep with None, x :: l => [x :: l] | _, _ => [] end in
  ∃ tr t p e w',
    ('(e, w) ← write_all w (batches _WRITE_BATCH keep ++ rest); finish failure e w) s = Out tr t (Ok (e, w')) ∧
    (foldIO (write_step uuid4 mode dim limit) (Progress w 0 [] [] [] None) rows ≫= write_rest uuid4 failure) s = Out tr t (Ok p) ∧
    pg_error p = e ∧ pg_writer p = w' ∧
    (e = None → pg_written p = length keep ∧ pg_skipped p = skips mode dim rows ∧ pg_sample p = map sample_of (take (Z.to_nat limit) keep)).
Proof.
  intros keep rest.
  destruct (fold_reached mode dim limit rows (Progress w 0 [] [] [] None) s eq_refl batch_positive) as ([e w1] & p1 & V1 & H1 & He1 & Hw1 & Hn1).
  cbn [pg_batch pg_writer app] in V1, H1, Hn1. fold keep in V1, H1, Hn1. cbn [fst snd] in *.
  pose proof (write_all_app w _ rest s e w1 V1) as Happ. cbn zeta in Happ. rewrite (bind_run _ _ _ _ _ _ H1).
  set (o1 := write_all w (batches _WRITE_BATCH keep) s) in *. destruct e as [e|].
  { assert (write_all w (batches _WRITE_BATCH keep ++ rest) s = Out (trace o1) (final o1) (Ok (Some e, w1))) as Ho.
    { rewrite Happ, <-V1. by destruct o1. }
    rewrite (bind_run _ _ _ _ _ _ Ho). unfold write_rest. rewrite He1. by eexists _, _, _, _, _. }
  destruct (Hn1 eq_refl) as (N1 & N2 & N3 & N4).
  destruct (rest_run failure p1 _ (final o1) He1 N3) as (p2 & e2 & w2 & V2 & H2 & He2 & Hw2 & Hn2). cbn zeta in *. fold rest in V2, H2.
  rewrite Hw1 in V2, H2. set (o2 := write_all w1 rest) in *.
  assert ((write_all w (batches _WRITE_BATCH keep ++ rest) ≫= λ '(e, w), finish failure e w) s =
    let o := (o2 ≫= λ '(e, w), finish failure e w) (final o1) in Out (trace o1 ++ trace o) (final o) (value o)) as Heq.
  { unfold mbind, io_bind. rewrite Happ. cbn [value trace final]. destruct (value (o2 (final o1))) as [[]|]; [|done]. cbn. by rewrite (assoc_L (++)). }
  rewrite Heq, H2. cbn zeta. rewrite V2. eexists _, _, p2, e2, w2. split_and!; [done..|]. intros He. destruct (Hn2 He) as (M1 & M2 & M3).
  cbn in N1, N2, N4. rewrite Nat.sub_0_r in N4. split_and!; [|by rewrite M2, N2|by rewrite M3, N4, <-fmap_take].
  rewrite M1, N1. unfold leftover. rewrite length_drop. pose proof (Nat.Div0.mul_div_le (length keep) _WRITE_BATCH). lia.
Qed.

(** The replay loop is what it is meant to be. Streaming the rows through a bounded buffer
    does to the target and to the disk, step by step, exactly what writing the kept rows in
    batches of 500 in the source's order does, with the same result or the same exception; the
    batches are all the kept rows, none is larger than 500, and every row of the source is either
    written or recorded as skipped. *)
Theorem replay_writes_batches export plan dir backend s :
  let rows := st_rows (se_rows export) in
  let mode := se_mode export in
  let dim := row_dim export plan in
  let keep := List.filter (keeps mode dim) rows in
  _write_target uuid4 export plan dir backend s = batched_write export plan dir backend s ∧
  concat (batches _WRITE_BATCH keep) ++ leftover _WRITE_BATCH keep = keep ∧
  Forall (λ b, length b = _WRITE_BATCH) (batches _WRITE_BATCH keep) ∧ (length (leftover _WRITE_BATCH keep) < _WRITE_BATCH)%nat ∧
  (length keep + length (skips mode dim rows))%nat = length rows.
Proof.
  intros rows mode dim keep. split; [|pose proof (batches_concat _WRITE_BATCH keep batch_positive); split_and!; try apply skip_accounts; naive_solver].
  unfold _write_target, batched_write. fold rows mode dim keep. apply bind_ext. intros w t. apply bind_ext. intros limit u.
  rewrite <-bind_assoc. destruct (loop_run mode dim limit (st_failure (se_rows export)) rows w u) as (tr & v & p & e & w' & H1 & H2 & <- & <- & Hn).
  fold keep in H1, Hn. rewrite (bind_run _ _ _ _ _ _ H1), (bind_run _ _ _ _ _ _ H2). cbv beta iota.
  destruct (pg_error p) as [e|]; [done|]. destruct (Hn eq_refl) as (-> & -> & ->). done.
Qed.
End batched.

(** ** A small store on disk *)

(** Opening makes the directory and writes one file; every call writes another. A read-only open
    finds the document [a]. *)
Definition demo_open (d : path) (a : open_args) : io (LodeConfig * LodeDB toy_engine) := λ s,
  let s' := FSys (<[ "store.lock" :: d := File "" false ]> (files s)) (ancestors d ∪ dirs s) in
  let read_only := match a with OpenText _ _ _ r _ => r | OpenVectors _ _ _ r => r end in
  let docs := if read_only then {[ "a" := NDoc (Some "fox") ∅ ]} else ∅ in
  Out [s'] s' (Ok (toy_config, Db (Toy docs []) "" 0)).
#[local] Instance demo_sdk : MigrationSDK toy_engine := {|
  open_db := demo_open;
  engine_writes := λ d _ s, [put ("data.bin" :: d) (File "x" false) s];
  close_db := λ _ _, mret tt |}.

Lemma put_only_below d n f s : only_below d s (put (n :: d) f s).
Proof.
  intros p Hp. split; [|done]. cbn. apply lookup_insert_ne. intros <-. change (n :: d) with ([n] ++ d) in Hp. by rewrite below_app in Hp.
Qed.

Lemma demo_laws : @SDKLaws toy_engine demo_sdk.
Proof.
  split; [|intros d e s; by constructor; [apply put_only_below|constructor]|intros d x; apply confined_pure, pure_ret].
  intros d a s. assert (only_below d s (final (demo_open d a s))) as H; [|by split; [constructor; [exact H|constructor]|exact H]].
  intros p Hp. destruct (put_only_below d "store.lock" (File "" false) s p Hp) as [F D]. split; [exact F|]. intros Ha. cbn.
  split; [|set_solver]. intros [Hin%ancestors_above|?]%elem_of_union; [congruence|done].
Qed.

Definition demo_plan : MigrationPlan :=
  Plan "provider" MODE_TEXT_REPLAY None (Some "pgvector") "fp" "pgvector" "store" None None None None (Some "minilm") "cpu" "pip"
    None None true [] [] DEFAULT_THRESHOLDS "" [] [] PLAN_VERSION.
Definition demo_source : SourceExport :=
  Export None "pgvector" MODE_TEXT_REPLAY "loc" None (Some 2) []
    (Stream [Row "a" (Some "fox") [] None None None; Row "b" (Some " ") [] None None None] None).
Definition demo_options : run_options :=
  RunOptions (Some ["store"; "data"]) false true false false (Some toy_backend) (Some demo_source) None
    (Columns None None None None) None.
Definition demo_importers : importers :=
  let none {A} : result A := raise MigrationError "" in Importers (λ _, none) (λ _, none) (λ _ _ _ _, none) (λ _, none).
Definition demo_disk : fsys := FSys {[ ["old.json"; "store"; "data"] := File "old" true ]} {[ ["store"; "data"]; ["data"] ]}.

Definition demo_run : outcome MigrationResult :=
  @run_migration _ (toy_native true) plain_reductions toy_secrets demo_sdk (λ _, "") (λ _ _, S754_zero false) "1.0" demo_importers
    demo_plan demo_options (S754_zero false) (float_of_Z 1) demo_disk.

Example demo_run_publishes :
  (match value demo_run with Ok m => (mg_status m, mg_written m, map sk_reason (mg_skipped m)) | Err e => (exn_msg e, 0%nat, []) end)
    = ("migrated", 1%nat, ["missing-text"]) ∧
  FileSys.content (final demo_run) ["store.lock"; "store"; "data"] = Some "" ∧ FileSys.content (final demo_run) ["old.json"; "store"; "data"] = None.
Proof. vm_compute. done. Qed.

Lemma migration_publishes_safely_witness :
  runs (@crash_state _ (toy_native true) plain_reductions toy_secrets demo_sdk (λ _, "") demo_plan "store" ["data"] demo_disk)
    (@run_migration _ (toy_native true) plain_reductions toy_secrets demo_sdk (λ _, "") (λ _ _, S754_zero false) "1.0" demo_importers
      demo_plan demo_options (S754_zero false) (float_of_Z 1)) demo_disk
    (λ r t, match r with
            | Err _ => same_at ["store"; "data"] demo_disk t
            | Ok m => if ro_dry_run demo_options then t = demo_disk else mg_status m = "migrated" ∧ ∃ u,
                @staged _ (toy_native true) plain_reductions toy_secrets demo_sdk (λ _, "") demo_plan ["store.tmp"; "data"] u ∧
                same_store ["store"; "data"] t ["store.tmp"; "data"] u
            end).
Proof.
  refine (@migration_publishes_safely _ (toy_native true) plain_reductions toy_secrets demo_sdk demo_laws (λ _, "") (λ _ _, S754_zero false)
    "1.0" demo_importers demo_plan demo_options (S754_zero false) (float_of_Z 1) "store" ["data"] demo_disk _ _ _ _).
  - reflexivity.
  - reflexivity.
  - intros _. split; [vm_compute; set_solver|reflexivity].
  - reflexivity.
Defined.

(** ** Where the code falls short of its documentation *)

Definition run_on (plan : MigrationPlan) (o : run_options) (s : fsys) : outcome MigrationResult :=
  @run_migration _ (toy_native true) plain_reductions toy_secrets demo_sdk (λ _, "") (λ _ _, S754_zero false) "1.0" demo_importers
    plan o (S754_zero false) (float_of_Z 1) s.
Definition with_flags (overwrite resume : bool) (export : SourceExport) : run_options :=
  RunOptions (Some ["store"; "data"]) false overwrite resume false (Some toy_backend) (Some export) None (Columns None None None None) None.

(** A target that is a nonempty directory without any [.json] is not refused, and the move then
    nests the store in it while the run reports [migrated]. *)
Example occupied_target_nests :
  let s := FSys {[ ["notes.txt"; "store"; "data"] := File "n" true ]} {[ ["store"; "data"]; ["data"] ]} in
  let o := run_on demo_plan (with_flags false false demo_source) s in
  (mg_status <$> value o) = Ok "migrated" ∧
  FileSys.content (final o) ["store.lock"; "store.tmp"; "store"; "data"] = Some "" ∧
  FileSys.content (final o) ["store.lock"; "store"; "data"] = None.
Proof. vm_compute. done. Qed.

(** [--resume] does not write into the existing store, it replaces it. *)
Example resume_replaces :
  let o := run_on demo_plan (with_flags false true demo_source) demo_disk in
  (mg_status <$> value o) = Ok "migrated" ∧ FileSys.content (final o) ["old.json"; "store"; "data"] = None.
Proof. vm_compute. done. Qed.

(** A number in the metadata of a sampled row is kept as a number in the sample and read back as
    a string, so the comparison fails and with it the run. *)
Example number_metadata_fails :
  scalar_eq (PStr "2020") (PInt 2020) = false ∧
  _stringify_metadata [(PStr "year", PInt 2020)] = [(PStr "year", PInt 2020)] ∧
  _coerce_metadata (PDict [(PStr "year", PInt 2020)]) = Ok {[ "year" := "2020" ]}.
Proof. vm_compute. done. Qed.

(** A mem0 collection name may lead out of the temporary directory, here to the target itself. *)
Example collection_escapes :
  let plan := Plan "framework" MODE_VECTOR_PRESERVE (Some "mem0") None "" "qdrant" "store" (Some "../store") None None None None "cpu" "pip"
    None None true [] [] DEFAULT_THRESHOLDS "" [] [] PLAN_VERSION in
  _store_dir plan (_temp_target ["store"; "data"]) = ["store"; "data"].
Proof. reflexivity. Qed.
