(* ===== verification/Traces.v ===== *)
(** * Logged worlds

    Code whose effects are calls on an outside world is run in that world paired with the log of the
    calls made. [logs m P] says that every run of [m] only appends to the log, and that [P] holds of
    the result and of what was appended; the rules follow the structure of the program. *)

From stdpp Require Import base list.
From S2P Require Import Prelude.

(** [try: m except ...: h]. *)
Definition st_try {S A} (m : st S A) (h : exn → st S A) : st S A := λ s,
  match m s with (Err e, s') => h e s' | r => r end.

(** A call on the world, noted with its outcome. *)
Definition logged {W E A} (note : result A → E) (m : st W A) : st (W * list E) A := λ s,
  let '(r, w) := m s.1 in (r, (w, s.2 ++ [note r])).

Definition logs {W E A} (m : st (W * list E) A) (P : result A → list E → Prop) : Prop :=
  ∀ s, ∃ t, (m s).2.2 = s.2 ++ t ∧ P (m s).1 t.

Section rules.
Context {W E : Type}.
Implicit Types (s : W * list E) (t : list E).

Lemma logs_weaken {A} (m : st (W * list E) A) (P Q : result A → list E → Prop) :
  logs m P → (∀ r t, P r t → Q r t) → logs m Q.
Proof. intros H HPQ s. destruct (H s) as (t & ? & ?). eauto. Qed.

Lemma logs_lift {A} (r : result A) (P : result A → list E → Prop) : P r [] → logs (W:=W) (st_lift r) P.
Proof. intros H s. exists []. by rewrite app_nil_r. Qed.

Lemma logs_ret {A} (a : A) (P : result A → list E → Prop) : P (Ok a) [] → logs (W:=W) (mret a) P.
Proof. apply logs_lift. Qed.

Lemma logs_call {A} (note : result A → E) (m : st W A) (P : result A → list E → Prop) :
  (∀ r, P r [note r]) → logs (logged note m) P.
Proof. intros H s. unfold logged. destruct (m s.1) as [r w] eqn:?. exists [note r]. eauto. Qed.

(** After [m], the continuation starts where the log of [m] ends. *)
Lemma logs_bind {A B} (m : st (W * list E) A) (f : A → st (W * list E) B) (P : result A → list E → Prop)
    (Q : result B → list E → Prop) :
  logs m P → (∀ e t, P (Err e) t → Q (Err e) t) → (∀ a t, P (Ok a) t → logs (f a) (λ r t', Q r (t ++ t'))) →
  logs (m ≫= f) Q.
Proof.
  intros Hm Herr Hok s. destruct (Hm s) as (t & Ht & HP). unfold mbind, st_bind.
  destruct (m s) as [[a|e] s'] eqn:E1; cbn in *; [|eauto].
  destruct (Hok a t HP s') as (t' & Ht' & HQ). exists (t ++ t'). by rewrite Ht', Ht, app_assoc.
Qed.

Lemma logs_lift_bind {A B} (r : result A) (f : A → st (W * list E) B) (Q : result B → list E → Prop) :
  (∀ e, r = Err e → Q (Err e) []) → (∀ a, r = Ok a → logs (f a) Q) → logs (st_lift r ≫= f) Q.
Proof.
  intros Herr Hok. eapply (logs_bind _ _ (λ r' t, r' = r ∧ t = [])); [by apply logs_lift|..].
  - by intros e t [<- ->]; apply Herr.
  - by intros a t [<- ->]; apply Hok.
Qed.

Lemma logs_try {A} (m : st (W * list E) A) h (P Q : result A → list E → Prop) :
  logs m P → (∀ a t, P (Ok a) t → Q (Ok a) t) → (∀ e t, P (Err e) t → logs (h e) (λ r t', Q r (t ++ t'))) →
  logs (st_try m h) Q.
Proof.
  intros Hm Hok Herr s. destruct (Hm s) as (t & Ht & HP). unfold st_try.
  destruct (m s) as [[a|e] s'] eqn:E1; cbn in *; [eauto|].
  destruct (Herr e t HP s') as (t' & Ht' & HQ). exists (t ++ t'). by rewrite Ht', Ht, app_assoc.
Qed.

(** ** Events that are all of one kind *)

Definition all_logs {A} (Q : E → Prop) (m : st (W * list E) A) : Prop := logs m (λ _ t, Forall Q t).

Lemma all_lift {A} Q (r : result A) : all_logs Q (st_lift r).
Proof. by apply logs_lift. Qed.

Lemma all_ret {A} Q (a : A) : all_logs Q (mret a).
Proof. by apply logs_ret. Qed.

Lemma all_call {A} Q (note : result A → E) (m : st W A) : (∀ r, Q (note r)) → all_logs Q (logged note m).
Proof. intros H. apply logs_call. auto. Qed.

Lemma all_bind {A B} Q (m : st (W * list E) A) (f : A → st (W * list E) B) :
  all_logs Q m → (∀ a, all_logs Q (f a)) → all_logs Q (m ≫= f).
Proof.
  intros Hm Hf. eapply logs_bind; [exact Hm | done |]. intros a t Ht.
  eapply logs_weaken; [apply Hf|]. intros r t' Ht'. by apply Forall_app_2.
Qed.

Lemma all_try {A} Q (m : st (W * list E) A) h : all_logs Q m → (∀ e, all_logs Q (h e)) → all_logs Q (st_try m h).
Proof.
  intros Hm Hh. eapply logs_try; [exact Hm | done |]. intros e t Ht.
  eapply logs_weaken; [apply Hh|]. intros r t' Ht'. by apply Forall_app_2.
Qed.

End rules.

Create HintDb traces.
#[export] Hint Resolve all_lift all_ret all_call : traces.

(** Reads a program that raises and branches, down to its calls. *)
Ltac all_step :=
  match goal with
  | |- all_logs _ (st_lift _) => apply all_lift
  | |- all_logs _ (mret _) => apply all_ret
  | |- all_logs _ (_ ≫= _) => apply all_bind; [|intros ?]
  | |- all_logs _ (st_try _ _) => apply all_try; [|intros ?]
  | |- all_logs _ (match ?x with _ => _ end) => destruct x
  end.

(** ** Invariants of a run *)

Definition keeps {S A} (I : S → Prop) (m : st S A) : Prop := ∀ s, I s → I (m s).2.

Section keeps.
Context {S : Type} (I : S → Prop).

Lemma keeps_lift {A} (r : result A) : keeps I (st_lift r).
Proof. by intros s Hs. Qed.

Lemma inv_ret {A} (a : A) : keeps I (mret a).
Proof. by intros s Hs. Qed.

Lemma keeps_read {A} (f : S → result A) : keeps I (st_read f).
Proof. by intros s Hs. Qed.

Lemma inv_bind {A B} (m : st S A) (f : A → st S B) : keeps I m → (∀ a, keeps I (f a)) → keeps I (m ≫= f).
Proof.
  intros Hm Hf s Hs. unfold mbind, st_bind. specialize (Hm s Hs). destruct (m s) as [[a|e] s']; cbn in *; [|done].
  by apply Hf.
Qed.

Lemma keeps_try {A} (m : st S A) h : keeps I m → (∀ e, keeps I (h e)) → keeps I (st_try m h).
Proof.
  intros Hm Hh s Hs. unfold st_try. specialize (Hm s Hs). destruct (m s) as [[a|e] s']; cbn in *; [done|]. by apply Hh.
Qed.

Lemma inv_forS {A} (f : A → st S unit) l : (∀ x, keeps I (f x)) → keeps I (forS f l).
Proof. intros Hf. induction l as [|x l IH]; cbn; [apply inv_ret|]. by apply inv_bind. Qed.

Lemma keeps_ext {A} (J : S → Prop) (m : st S A) : (∀ s, I s ↔ J s) → keeps I m → keeps J m.
Proof. intros HIJ Hm s Hs. by apply HIJ, Hm, HIJ. Qed.
End keeps.

(** Reads a program that raises, branches and pauses, down to the calls the invariant depends on. *)
Ltac keeps_step :=
  match goal with
  | |- keeps _ (st_lift _) => apply keeps_lift
  | |- keeps _ (mret _) => apply inv_ret
  | |- keeps _ (st_read _) => apply keeps_read
  | |- keeps _ (_ ≫= _) => apply inv_bind; [|intros ?]
  | |- keeps _ (st_try _ _) => apply keeps_try; [|intros ?]
  | |- keeps _ (forS _ _) => apply inv_forS; intros ?
  | |- keeps _ (match ?x with _ => _ end) => destruct x
  end.
