(* ===== verification/Base64.v ===== *)
(** * Base64

    [base64.b64encode] and the strict [base64.b64decode(..., validate=True)] of the standard library,
    which the cloud client uses for image payloads and HPKE contexts ([cloud/serving.py],
    [cloud/client.py]), with the round trip. *)

From Stdlib Require Import Ascii String NArith Lia.
From stdpp Require Import base strings list.
From S2P Require Import Prelude.

Local Open Scope N_scope.

Definition sextet_char (n : N) : ascii :=
  chr (if n <? 26 then 65 + n else if n <? 52 then 71 + n else if n <? 62 then n - 4 else if n <? 63 then 43 else 47).

Definition char_sextet (c : ascii) : option N :=
  let n := ord c in
  if in_range 65 90 c then Some (n - 65) else if in_range 97 122 c then Some (n - 71)
  else if in_range 48 57 c then Some (n + 4) else if n =? 43 then Some 62 else if n =? 47 then Some 63 else None.

Definition pad : ascii := "="%char.

(** Three octets make four characters; a last group of one or two is padded. *)
Fixpoint encode_groups (l : list ascii) : list ascii :=
  match l with
  | a :: b :: c :: l =>
      let n := 65536 * ord a + 256 * ord b + ord c in
      sextet_char (n / 262144) :: sextet_char (n / 4096 mod 64) :: sextet_char (n / 64 mod 64) :: sextet_char (n mod 64)
        :: encode_groups l
  | [a; b] =>
      let n := 256 * ord a + ord b in
      [sextet_char (n / 1024); sextet_char (n / 16 mod 64); sextet_char (4 * (n mod 16)); pad]
  | [a] => [sextet_char (ord a / 4); sextet_char (16 * (ord a mod 4)); pad; pad]
  | [] => []
  end.
Definition b64encode (data : bytes) : string := of_chars (encode_groups (chars data)).

Fixpoint decode_groups (l : list ascii) : option (list ascii) :=
  match l with
  | [] => Some []
  | c1 :: c2 :: c3 :: c4 :: l =>
      match char_sextet c1, char_sextet c2 with
      | Some n1, Some n2 =>
          match char_sextet c3, char_sextet c4 with
          | Some n3, Some n4 =>
              let n := 262144 * n1 + 4096 * n2 + 64 * n3 + n4 in
              r ← decode_groups l; Some (chr (n / 65536) :: chr (n / 256 mod 256) :: chr (n mod 256) :: r)
          | Some n3, None =>
              if bool_decide (c4 = pad ∧ l = []) then let n := 1024 * n1 + 16 * n2 + n3 / 4 in Some [chr (n / 256); chr (n mod 256)]
              else None
          | None, _ => if bool_decide (c3 = pad ∧ c4 = pad ∧ l = []) then Some [chr (4 * n1 + n2 / 16)] else None
          end
      | _, _ => None
      end
  | _ => None
  end.
Definition b64decode (s : string) : result bytes :=
  match decode_groups (chars s) with Some l => Ok (of_chars l) | None => raise ValueError "Incorrect padding" end.

Lemma char_sextet_of n : n < 64 → char_sextet (sextet_char n) = Some n.
Proof.
  intros Hn. assert (Hall : forallb (λ k, bool_decide (char_sextet (sextet_char (N.of_nat k)) = Some (N.of_nat k))) (seq 0 64) = true)
    by (vm_compute; reflexivity).
  rewrite forallb_forall in Hall. specialize (Hall (N.to_nat n)). rewrite in_seq, N2Nat.id in Hall.
  apply bool_decide_eq_true in Hall; [done|lia].
Qed.

Lemma char_sextet_pad : char_sextet pad = None.
Proof. reflexivity. Qed.

Lemma chr_of c n : n = ord c → chr n = c.
Proof. intros ->. apply chr_ord. Qed.

Lemma decode_three a b c l r : decode_groups l = Some r →
  decode_groups (encode_groups (a :: b :: c :: []) ++ l) = Some (a :: b :: c :: r).
Proof.
  intros Hl. pose proof (ord_bound a). pose proof (ord_bound b). pose proof (ord_bound c).
  cbn [encode_groups app decode_groups]. set (n := 65536 * ord a + 256 * ord b + ord c).
  assert (Hn : n < 16777216) by lia.
  rewrite !char_sextet_of by first [apply N.Div0.div_lt_upper_bound; lia | apply N.mod_lt; lia]. rewrite Hl. cbn.
  assert (Heq : 262144 * (n / 262144) + 4096 * (n / 4096 mod 64) + 64 * (n / 64 mod 64) + n mod 64 = n).
  { pose proof (N.div_mod n 64 ltac:(lia)). pose proof (N.div_mod (n / 64) 64 ltac:(lia)). pose proof (N.div_mod (n / 4096) 64 ltac:(lia)).
    rewrite !N.Div0.div_div in *. change (64 * 64) with 4096 in *. change (4096 * 64) with 262144 in *. lia. }
  rewrite Heq. do 2 f_equal; [|f_equal; [|f_equal]]; apply chr_of; unfold n.
  - symmetry. apply (N.div_unique _ _ _ (256 * ord b + ord c)); lia.
  - replace ((65536 * ord a + 256 * ord b + ord c) / 256) with (256 * ord a + ord b)
      by (apply (N.div_unique _ _ _ (ord c)); lia).
    symmetry. apply (N.mod_unique _ _ (ord a)); lia.
  - symmetry. apply (N.mod_unique _ _ (256 * ord a + ord b)); lia.
Qed.

Lemma decode_encode_groups l : decode_groups (encode_groups l) = Some l.
Proof.
  assert (H : ∀ n l, (length l < n)%nat → decode_groups (encode_groups l) = Some l); [|eauto].
  clear l. induction n as [|n IH]; [intros; lia|]. intros [|a [|b [|c l]]] Hl; [done|..].
  - pose proof (ord_bound a). cbn [encode_groups decode_groups].
    rewrite !char_sextet_of, char_sextet_pad by first [apply N.Div0.div_lt_upper_bound; lia | pose proof (N.mod_lt (ord a) 4); lia].
    rewrite bool_decide_eq_true_2 by done. do 2 f_equal. apply chr_of.
    replace (16 * (ord a mod 4) / 16) with (ord a mod 4) by (rewrite N.mul_comm, N.div_mul; lia).
    pose proof (N.div_mod (ord a) 4). lia.
  - pose proof (ord_bound a). pose proof (ord_bound b). cbn [encode_groups decode_groups]. set (n0 := 256 * ord a + ord b).
    rewrite !char_sextet_of, char_sextet_pad by
      first [apply N.Div0.div_lt_upper_bound; lia | apply N.mod_lt; lia | pose proof (N.mod_lt n0 16); lia].
    rewrite bool_decide_eq_true_2 by done.
    replace (4 * (n0 mod 16) / 4) with (n0 mod 16) by (rewrite N.mul_comm, N.div_mul; lia).
    assert (1024 * (n0 / 1024) + 16 * (n0 / 16 mod 64) + n0 mod 16 = n0) as ->.
    { pose proof (N.div_mod n0 16 ltac:(lia)). pose proof (N.div_mod (n0 / 16) 64 ltac:(lia)).
      rewrite !N.Div0.div_div in *. change (16 * 64) with 1024 in *. lia. }
    do 2 f_equal; [|f_equal]; apply chr_of; symmetry; [apply (N.div_unique _ _ _ (ord b))|apply (N.mod_unique _ _ (ord a))]; lia.
  - apply (decode_three a b c (encode_groups l)), IH. cbn in Hl. lia.
Qed.

(** Decoding what was encoded gives the bytes back. *)
Lemma b64_roundtrip data : b64decode (b64encode data) = Ok data.
Proof. unfold b64decode, b64encode. rewrite chars_of_chars, decode_encode_groups. by rewrite of_chars_chars. Qed.

Example b64_hello : b64encode "Hello!!" = "SGVsbG8hIQ==".
Proof. reflexivity. Qed.
