(* ===== verification/CloudClient.v ===== *)
(** * The control-plane client

    [cloud/transfer.py], its HTTP half: refusals and their codes, percent-encoding, and
    [CloudClient], one method per endpoint. A request is data ([request]); what the network answers
    is the class [Http], whose world also carries the server. Bodies are JSON values or the file
    that is streamed. The path of a store addresses that store only ([store_paths_injective]). *)

From Stdlib Require Import Ascii String ZArith Lia SpecFloat.
From stdpp Require Import base strings gmap sets list.
From S2P Require Import Prelude Numbers PyVal Bytes Json.

Local Open Scope Z_scope.

(** ** Requests and responses *)

Inductive http_body := NoBody | JsonBody (v : pyval) | FileBody (path : string).

(** [rq_hint] is the [X-Ore-Store] header. *)
Record request := Req
  { rq_method : string; rq_path : string; rq_params : list (string * string); rq_body : http_body; rq_hint : option string }.
Record response := Resp { rs_status : Z; rs_text : string; rs_retry_after : option string }.

(** Sending a request: a response, or a transport error. *)
Class Http (W : Type) := send : request → st W response.

(** ** Refusals *)

Definition cloud_error {A} (status : Z) (detail : string) (retry_after : option spec_float) : result A :=
  raise (CloudError status retry_after) detail.

(** The status of a [CloudError] or of its subclass. *)
Definition status_code (e : exn) : option Z :=
  match exn_class e with CloudError s _ => Some s | SyncConflictError s => Some s | _ => None end.
Definition retry_after_of (e : exn) : option spec_float := match exn_class e with CloudError _ r => r | _ => None end.

(** [re.fullmatch(r"[a-z][a-z0-9_]*", token)]. *)
Definition code_char (c : ascii) : bool := in_range 97 122 c || is_digit c || bool_decide (c = "_"%char).
Definition is_code (l : list ascii) : bool :=
  match l with c :: l => in_range 97 122 c && forallb code_char l | [] => false end.

(** [CloudError.code]: the token before the first colon of the detail. *)
Definition code (e : exn) : option string :=
  match split_once_chars ":"%char (chars (exn_msg e)) with
  | (token, Some _) => if is_code token then Some (of_chars token) else None
  | (_, None) => None
  end.

Definition _retry_after (r : response) : option spec_float :=
  match rs_retry_after r with
  | None => None
  | Some value =>
      match py_float (PStr value) with
      | Ok seconds => if SFleb (S754_zero false) seconds then Some seconds else None
      | Err _ => None
      end
  end.

Definition _raise_for (r : response) : result unit :=
  if rs_status r <? 400 then Ok tt
  else
    detail ← (match loads (rs_text r) with
              | Ok body => py_get body "detail" (PStr (rs_text r))
              | Err e => if is_value_error e then Ok (PStr (rs_text r)) else Err e
              end);
    cloud_error (rs_status r) (py_str detail) (_retry_after r).

(** ** Percent-encoding *)

(** The characters [quote] never encodes. *)
Definition unreserved (c : ascii) : bool :=
  in_range 65 90 c || in_range 97 122 c || is_digit c || str_in (String c "") ["_"; "."; "-"; "~"].
Definition hex_upper (n : N) : ascii := chr (if (n <? 10)%N then 48 + n else 55 + n).
Definition quote_byte (safe : list ascii) (c : ascii) : list ascii :=
  if unreserved c || bool_decide (c ∈ safe) then [c] else ["%"%char; hex_upper (ord c / 16); hex_upper (ord c mod 16)].
Definition quote (safe : list ascii) (s : string) : string :=
  of_chars (concat (map (quote_byte safe) (chars (utf8_encode s)))).

Definition _store_hint (org environment : string) (store : pyval) : option string :=
  match store with
  | PStr s => if bool_decide (s = "") then None else Some (quote ["/"%char] (org +:+ "/" +:+ environment +:+ "/" +:+ s))
  | _ => None
  end.

(** ** The client *)

Definition dict_opt (key : string) (v : option pyval) : pydict :=
  match v with Some x => [(PStr key, x)] | None => [] end.
Definition str_val (o : option string) : pyval := match o with Some s => PStr s | None => PNone end.

(** [f"/v1/orgs/{org}/environments/{environment}..."] and its data-plane sibling. *)
Definition env_path (org environment suffix : string) : string :=
  "/v1/orgs/" +:+ org +:+ "/environments/" +:+ environment +:+ suffix.
Definition data_path (org environment suffix : string) : string :=
  "/v1/data/orgs/" +:+ org +:+ "/environments/" +:+ environment +:+ "/stores" +:+ suffix.

(** [f".../stores/{quote(store, safe='')}{rest}"]. *)
Definition store_path (org environment store rest : string) : string :=
  env_path org environment ("/stores/" +:+ quote [] store +:+ rest).

Definition get_req (path : string) (params : list (string * string)) : request := Req "GET" path params NoBody None.
Definition post_req (path : string) (body : pyval) : request := Req "POST" path [] (JsonBody body) None.
Definition bare_req (method path : string) : request := Req method path [] NoBody None.

(** What a call makes of a response: the refusal, or the JSON value. *)
Definition decoded (response : response) : result pyval :=
  _ ← _raise_for response;
  if (rs_status response =? 204) || bool_decide (rs_text response = "") then Ok PNone else loads (rs_text response).

Section client.
Context {W : Type} {H : Http W}.

Definition _request (r : request) : st W pyval :=
  response ← send r;
  st_lift (decoded response).

(** [self._request(...)[field]]. *)
Definition _request_field (r : request) (field : string) : st W pyval :=
  v ← _request r; st_lift (py_index v field).

Definition me : st W pyval := _request (get_req "/v1/auth/me" []).
Definition token_self : st W pyval := _request (get_req "/v1/tokens/self" []).
Definition list_tokens : st W pyval := _request_field (get_req "/v1/tokens" []) "tokens".

(** [if v: body[key] = v]. *)
Definition if_given (key : string) (o : option string) : pydict :=
  match o with Some s => if bool_decide (s = "") then [] else [(PStr key, PStr s)] | None => [] end.

Definition mint_token (kind : string) (scopes : list string) (name : string) (org environment : option string)
    (expires_in_days : option Z) : st W pyval :=
  _request (post_req "/v1/tokens" (PDict
    ([(PStr "kind", PStr kind); (PStr "scopes", PList (map PStr scopes)); (PStr "name", PStr name)]
     ++ if_given "org" org ++ if_given "environment" environment ++ dict_opt "expires_in_days" (PInt <$> expires_in_days)))).

Definition revoke_token (token_id : string) : st W pyval := _request (bare_req "POST" ("/v1/tokens/" +:+ token_id +:+ "/revoke")).

Definition list_environments (org : string) : st W pyval :=
  _request_field (get_req ("/v1/orgs/" +:+ org +:+ "/environments") []) "environments".

Definition param (key : string) (o : option string) : list (string * string) := match o with Some s => [(key, s)] | None => [] end.

Definition list_stores (org environment : string) (after : option string) (limit : Z) (store prefix : option string)
    (order : string) (after_last_write : option string) : st W pyval :=
  _request (get_req (env_path org environment "/stores")
    ([("limit", Z_str limit)] ++ param "after" after ++ param "store" store ++ param "prefix" prefix
     ++ (if bool_decide (order = "name") then [] else [("order", order)]) ++ param "after_last_write" after_last_write)).

Definition store_stats (org environment : string) : st W pyval := _request (get_req (env_path org environment "/stores/stats") []).

Record store_options := StoreOptions
  { so_mode : string; so_expose_text : bool; so_preset : option string; so_vector_dim : option Z; so_encrypted : bool;
    so_sealed_material : option string }.
Definition create_body (store : string) (key : option string) (o : store_options) : pyval :=
  PDict ([(PStr "store", PStr store); (PStr "mode", PStr (so_mode o)); (PStr "expose_text", PBool (so_expose_text o))]
    ++ dict_opt "key" (PStr <$> key) ++ dict_opt "preset" (PStr <$> so_preset o) ++ dict_opt "vector_dim" (PInt <$> so_vector_dim o)
    ++ (if so_encrypted o then [(PStr "encrypted", PBool true)] else []) ++ dict_opt "sealed_material" (PStr <$> so_sealed_material o)).
Definition create_store (org environment store : string) (key : option string) (o : store_options) : st W pyval :=
  _request (post_req (env_path org environment "/stores") (create_body store key o)).

Definition store_create_challenge (org environment : string) : st W pyval :=
  _request (get_req (env_path org environment "/stores/create-challenge") []).
Definition store_unseal_challenge (org environment store : string) : st W pyval :=
  _request (bare_req "POST" (store_path org environment store "/unseal/challenge")).
Definition store_unseal_challenge_many (org environment : string) (stores : list string) : st W pyval :=
  _request (post_req (env_path org environment "/stores/unseal-many/challenge") (dict_of [("stores", PList (map PStr stores))])).
Definition unseal_store (org environment store : string) (payload : pyval) : st W pyval :=
  _request (post_req (store_path org environment store "/unseal") payload).
Definition unseal_stores_many (org environment : string) (payload : pyval) : st W pyval :=
  _request (post_req (env_path org environment "/stores/unseal-many") payload).
Definition reseal_store (org environment store : string) : st W pyval :=
  _request (bare_req "POST" (store_path org environment store "/reseal")).
Definition rotate_store_key (org environment store : string) (payload : pyval) : st W pyval :=
  _request (post_req (store_path org environment store "/key/rotate") payload).

(** Lifecycle. *)
Definition delete_org (org : string) : st W pyval := _request (bare_req "DELETE" ("/v1/orgs/" +:+ org)).
Definition restore_org (parked_slug : string) : st W pyval := _request (bare_req "POST" ("/v1/orgs/" +:+ parked_slug +:+ "/restore")).
Definition delete_environment (org environment : string) : st W pyval := _request (bare_req "DELETE" (env_path org environment "")).
Definition restore_environment (org parked_slug : string) : st W pyval := _request (bare_req "POST" (env_path org parked_slug "/restore")).
Definition delete_store (org environment store : string) (erase : bool) : st W pyval :=
  _request (bare_req "DELETE" (store_path org environment store (if erase then "?erase=true" else ""))).
Definition restore_store (org environment parked_store : string) : st W pyval :=
  _request (bare_req "POST" (store_path org environment parked_store "/restore")).
Definition delete_store_key (org environment store key : string) : st W pyval :=
  _request (post_req (env_path org environment "/stores/delete") (dict_of [("store", PStr store); ("key", PStr key)])).
Definition restore_store_key (org environment store parked_key : string) : st W pyval :=
  _request (post_req (env_path org environment "/stores/restore") (dict_of [("store", PStr store); ("key", PStr parked_key)])).
Definition list_trash (org : string) : st W pyval := _request_field (get_req ("/v1/orgs/" +:+ org +:+ "/trash") []) "items".
Definition export_org (org : string) : st W pyval := _request (get_req ("/v1/orgs/" +:+ org +:+ "/export") []).

(** Transfer sessions. *)
Definition head_request (org environment store key : string) : request :=
  get_req (env_path org environment "/stores/head") [("store", store); ("key", key)].
Definition store_head (org environment store key : string) : st W pyval := _request (head_request org environment store key).
Definition pull_plan_request (org environment store key : string) : request :=
  get_req (env_path org environment "/stores/pull-plan") [("store", store); ("key", key)].
Definition pull_plan (org environment store key : string) : st W pyval := _request (pull_plan_request org environment store key).
Definition store_history (org environment store key : string) : st W pyval :=
  _request_field (get_req (env_path org environment "/stores/head-history") [("store", store); ("key", key)]) "snapshots".
Definition rollback_store (org environment store snapshot_id : string) (key : option string) : st W pyval :=
  _request (post_req (env_path org environment "/stores/rollback")
    (dict_of [("store", PStr store); ("key", str_val key); ("snapshot_id", PStr snapshot_id)])).

Definition begin_request (org environment : string) (payload : pyval) : request := post_req (env_path org environment "/push/begin") payload.
Definition begin_push (org environment : string) (payload : pyval) : st W pyval := _request (begin_request org environment payload).
Definition push_path (org environment session_id verb : string) : string := env_path org environment ("/push/" +:+ session_id +:+ verb).
Definition commit_request (org environment session_id : string) (payload : pyval) : request :=
  post_req (push_path org environment session_id "/commit") payload.
Definition commit_push (org environment session_id : string) (payload : pyval) : st W pyval :=
  _request (commit_request org environment session_id payload).
Definition heartbeat_push (org environment session_id : string) : st W pyval :=
  _request (bare_req "POST" (push_path org environment session_id "/heartbeat")).
Definition abort_request (org environment session_id : string) : request := bare_req "POST" (push_path org environment session_id "/abort").
Definition abort_push (org environment session_id : string) : st W pyval := _request (abort_request org environment session_id).

Definition update_store (org environment store key : string) (expose_text : option bool) (mode : option string) : st W pyval :=
  _request (Req "PATCH" (env_path org environment "/stores") []
    (JsonBody (PDict ([(PStr "store", PStr store); (PStr "key", PStr key)]
       ++ dict_opt "expose_text" (PBool <$> expose_text) ++ dict_opt "mode" (PStr <$> mode)))) None).

(** Serving: every data-plane call carries the routing hint of its store. *)
Definition payload_store (payload : pydict) : pyval := match dict_get "store" payload with Some v => v | None => PNone end.
Definition data_request (verb : string) (org environment : string) (payload : pydict) : request :=
  Req "POST" (data_path org environment verb) [] (JsonBody (PDict payload)) (_store_hint org environment (payload_store payload)).
Definition data_call (verb : string) (org environment : string) (payload : pydict) : st W pyval :=
  _request (data_request verb org environment payload).

Definition api_search := data_call "/search".
Definition api_search_many := data_call "/search-many".
Definition add_documents := data_call "/documents".
Definition add_images := data_call "/images".
Definition search_image := data_call "/search-image".
Definition remove_documents := data_call "/documents/remove".
Definition browse_documents := data_call "/documents/browse".
Definition api_recall := data_call "/recall".
Definition api_context_block := data_call "/context-block".
Definition api_delete_memories := data_call "/memories/delete".

Definition truthy_param (key : string) (o : option string) : list (string * string) :=
  match o with Some s => if bool_decide (s = "") then [] else [(key, s)] | None => [] end.

Definition text_request (org environment store id : string) (key : option string) : request :=
  Req "GET" (data_path org environment "/text") ([("store", store); ("id", id)] ++ truthy_param "key" key) NoBody
    (_store_hint org environment (PStr store)).
Definition store_text (org environment store id : string) (key : option string) : st W pyval :=
  _request (text_request org environment store id key).

Definition status_request (org environment store write_id : string) (key : option string) : request :=
  Req "GET" (data_path org environment ("/writes/" +:+ write_id)) (("store", store) :: truthy_param "key" key) NoBody
    (_store_hint org environment (PStr store)).
Definition write_status (org environment store write_id : string) (key : option string) : st W pyval :=
  _request (status_request org environment store write_id key).

Definition serving_stats (org environment store : string) (key : option string) (warm : bool) : st W pyval :=
  _request (Req "GET" (data_path org environment "/serving-stats")
    ((("store", store) :: truthy_param "key" key) ++ (if warm then [("warm", "true")] else [])) NoBody
    (_store_hint org environment (PStr store))).

(** A blob through the proxy of the control plane. *)
Definition upload_blob_proxy (proxy_path file : string) : st W unit :=
  response ← send (Req "PUT" proxy_path [] (FileBody file) None);
  st_lift (_raise_for response).
Definition download_blob_proxy (proxy_path : string) : st W string :=
  response ← send (bare_req "GET" proxy_path);
  _ ← st_lift (_raise_for response);
  mret (rs_text response).
End client.

(** ** The path of a store *)

(** A character the encoding of a segment may hold. *)
Definition segment_char (c : ascii) : bool := unreserved c || bool_decide (c = "%"%char) || in_range 65 70 c.

(** What follows a store in a path: nothing, a further segment, or a query. *)
Definition rest_ok (rest : string) : bool :=
  match chars rest with [] => true | c :: _ => negb (segment_char c) end.

Lemma hex_upper_inj (n m : N) : (n < 16)%N → (m < 16)%N → hex_upper n = hex_upper m → n = m.
Proof.
  unfold hex_upper. intros Hn Hm Heq. apply (f_equal ord) in Heq.
  destruct (N.ltb_spec n 10), (N.ltb_spec m 10); rewrite !ord_chr in Heq; lia.
Qed.

Lemma quote_byte_inj c1 c2 r1 r2 : quote_byte [] c1 ++ r1 = quote_byte [] c2 ++ r2 → c1 = c2 ∧ r1 = r2.
Proof.
  assert (Hp : unreserved "%"%char = false) by done.
  unfold quote_byte. rewrite !(bool_decide_eq_false_2 (_ ∈ [])), !orb_false_r by apply not_elem_of_nil.
  destruct (unreserved c1) eqn:E1, (unreserved c2) eqn:E2; intros H; simplify_eq/=; [done | congruence..|].
  pose proof (ord_bound c1). pose proof (ord_bound c2).
  assert (ord c1 / 16 = ord c2 / 16)%N by (apply hex_upper_inj; [apply N.Div0.div_lt_upper_bound; lia..|done]).
  assert (ord c1 mod 16 = ord c2 mod 16)%N by (apply hex_upper_inj; [apply N.mod_lt; lia..|done]).
  split; [|done]. rewrite <-(chr_ord c1), <-(chr_ord c2). f_equal.
  pose proof (N.div_mod (ord c1) 16). pose proof (N.div_mod (ord c2) 16). lia.
Qed.

Lemma quote_byte_chars c : forallb segment_char (quote_byte [] c) = true.
Proof. by destruct c as [[] [] [] [] [] [] [] []]. Qed.

Lemma quote_byte_ne safe c : quote_byte safe c ≠ [].
Proof. unfold quote_byte. by case_match. Qed.

(** Two encoded segments followed by what is no part of a segment. *)
Lemma segments_inj l1 l2 r1 r2 :
  match r1 with [] => true | c :: _ => negb (segment_char c) end = true →
  match r2 with [] => true | c :: _ => negb (segment_char c) end = true →
  concat (map (quote_byte []) l1) ++ r1 = concat (map (quote_byte []) l2) ++ r2 → l1 = l2 ∧ r1 = r2.
Proof.
  assert (Hstop : ∀ c l r r', match r' with [] => true | c :: _ => negb (segment_char c) end = true →
    (quote_byte [] c ++ l) ++ r ≠ r').
  { intros c l r r' Hr' <-. pose proof (quote_byte_chars c). pose proof (quote_byte_ne [] c).
    destruct (quote_byte [] c) as [|x q]; [done|]. cbn in *. destruct (segment_char x); done. }
  revert l2. induction l1 as [|c1 l1 IH]; intros [|c2 l2] H1 H2 Heq; cbn [map concat] in Heq.
  - done.
  - by apply symmetry, Hstop in Heq.
  - by apply Hstop in Heq.
  - rewrite <-!app_assoc in Heq. apply quote_byte_inj in Heq as [-> Heq].
    by destruct (IH _ H1 H2 Heq) as [-> ->].
Qed.

Lemma utf8_encode_inj s1 s2 : utf8_encode s1 = utf8_encode s2 → s1 = s2.
Proof. intros H. apply (f_equal utf8_decode) in H. rewrite !utf8_decode_encode in H. by simplify_eq. Qed.

(** A store is addressed by exactly its own path, although its name is any end-user string:
    the encoded segment holds no slash, question mark or hash, and two store paths of one
    environment with the same text name the same store and the same operation on it. *)
Theorem store_paths_injective org environment store1 store2 rest1 rest2 :
  rest_ok rest1 = true → rest_ok rest2 = true →
  store_path org environment store1 rest1 = store_path org environment store2 rest2 →
  store1 = store2 ∧ rest1 = rest2 ∧
  forall c, c ∈ chars (quote [] store1) → c ≠ "/"%char ∧ c ≠ "?"%char ∧ c ≠ "#"%char.
Proof.
  intros H1 H2 Heq. unfold store_path, env_path in Heq. apply sapp_inj_l in Heq.
  repeat (rewrite <-?sapp_assoc in Heq; apply sapp_inj_l in Heq).
  apply (f_equal chars) in Heq. rewrite !chars_app in Heq. unfold quote in Heq. rewrite !chars_of_chars in Heq.
  apply segments_inj in Heq as [Hs Hr]; [|done..].
  split; [|split].
  - apply (f_equal of_chars) in Hs. rewrite !of_chars_chars in Hs. by apply utf8_encode_inj.
  - apply (f_equal of_chars) in Hr. by rewrite !of_chars_chars in Hr.
  - intros c Hc. unfold quote in Hc. rewrite chars_of_chars in Hc.
    apply list_elem_of_In, in_concat in Hc as (q & Hq & Hc). apply in_map_iff in Hq as (b & <- & _).
    pose proof (quote_byte_chars b) as Hb. rewrite forallb_forall in Hb. specialize (Hb c Hc).
    by repeat split; intros ->.
Qed.

Lemma store_paths_injective_witness :
  store_path "acme" "prod" "a b?" "/reseal" = store_path "acme" "prod" "a b?" "/reseal" ∧ quote [] "a b?" = "a%20b%3F" ∧
  forall c, c ∈ chars (quote [] "a b?") → c ≠ "/"%char ∧ c ≠ "?"%char ∧ c ≠ "#"%char.
Proof.
  split; [reflexivity|]. split; [reflexivity|].
  exact (proj2 (proj2 (store_paths_injective "acme" "prod" "a b?" "a b?" "/reseal" "/reseal" eq_refl eq_refl eq_refl))).
Defined.

(** A store named by two dots is its own segment, which a URL parser removes with the segment before it. *)
Example dot_segment : store_path "acme" "prod" ".." "" = "/v1/orgs/acme/environments/prod/stores/..".
Proof. reflexivity. Qed.
