(* ===== verification/CloudSync.v ===== *)
(** * Managed transfers

    [cloud/transfer.py], its managed half: [ManagedRemote], the push and pull protocols and the
    three-pointer [managed_sync]. What the Rust core does (classification, the sidecar base, the
    verified restore) and the presigned transfers are the class [ManagedCore]; its plan is typed as
    the binding builds it. Every call is an [event] of the log, so the theorems speak of whole
    protocols: what a run sends, in which order, and what it records ([push_trace], [pull_trace],
    [sync_trace]). *)

From Stdlib Require Import Ascii String ZArith Lia SpecFloat.
From stdpp Require Import base strings gmap sets list.
From S2P Require Import Prelude Numbers PyVal Bytes Json Traces CloudClient.

Local Open Scope Z_scope.

(** ** The remote *)

Record ManagedRemote := Remote { rm_org : string; rm_environment : string; rm_store : string }.

Definition SCHEME : string := "orecloud://".

(** [s.strip("/")]. *)
Definition strip_slashes (s : string) : string :=
  str_rstrip_char "/"%char (of_chars (drop_while (λ c, bool_decide (c = "/"%char)) (chars s))).

Definition parse (target : string) : result (option ManagedRemote) :=
  if negb (startswith SCHEME target) then Ok None
  else
    let segments := str_split_char "/"%char (strip_slashes (str_drop (slen SCHEME) target)) in
    let malformed := cloud_error 422 ("malformed managed target " +:+ str_repr target
      +:+ "; expected orecloud://org/environment[/store]") None in
    if negb (forallb (λ s, bool_decide (s ≠ "")) segments) then malformed
    else
      match segments with
      | [org; environment] => Ok (Some (Remote org environment "memory"))
      | [org; environment; store] => Ok (Some (Remote org environment store))
      | _ => malformed
      end.

Definition identity (remote : ManagedRemote) (host : string) : string :=
  SCHEME +:+ rm_org remote +:+ "/" +:+ rm_environment remote +:+ "/" +:+ rm_store remote
  +:+ "#host=" +:+ str_rstrip_char "/"%char host.

(** ** What the core plans *)

Record artifact := Artifact { af_sha256 : string; af_name : string; af_kind : string; af_size_bytes : Z }.
Record local_generation := LocalGeneration
  { lg_snapshot_id : string; lg_logical_id : string; lg_generation : Z; lg_legacy_redacted_id : option string;
    lg_body_json : string; lg_pointer_document : string; lg_artifacts : list artifact }.

(** The dictionary of [managed_plan] ([pl_items]) and the entries the code reads. *)
Record plan := Plan
  { pl_local : option local_generation; pl_base : option string; pl_base_is_current : bool;
    pl_local_raw_snapshot_id : option string; pl_classification : string; pl_sidecar_corrupt : bool; pl_items : pydict }.

(** The Rust core and the presigned transfers. *)
Class ManagedCore (W : Type) :=
  { managed_plan : string → string → string → option string → bool → bool → st W plan;
    managed_record_base : string → string → string → string → st W unit;
    managed_pull_requirements : string → string → string → st W (list artifact);
    managed_materialize : string → string → string → string → list (string * string) → bool → option string → st W pydict;
    local_wal_ops : string → string → st W Z;
    direct_put : pyval → pyval → string → st W response;
    direct_get : pyval → st W response }.

Definition _ENGINE_KIND_TO_WIRE : list (string * string) :=
  [("json", "state"); ("tvim", "vector"); ("tvmv", "vector"); ("tvtext", "text"); ("tvlex", "lexical");
   ("tvann", "vector"); ("tvvf", "vector"); ("gtopo", "graph"); ("gtopotext", "text")].

Definition _wire_kind (engine_kind : string) : result string :=
  match get_item engine_kind _ENGINE_KIND_TO_WIRE with
  | Some kind => Ok kind
  | None => cloud_error 422 ("this client cannot classify engine store kind " +:+ str_repr engine_kind
      +:+ " for the wire contract — upgrade lodedb before pushing this generation") None
  end.

(** ** Values on the wire *)

(** [v == w] for the scalars that identify a snapshot. *)
Definition same_id (v w : pyval) : bool :=
  match v, w with
  | PNone, PNone => true
  | PStr a, PStr b => bool_decide (a = b)
  | PInt a, PInt b => a =? b
  | PBool a, PBool b => eqb a b
  | _, _ => false
  end.
Definition is_none (v : pyval) : bool := match v with PNone => true | _ => false end.

(** A path given to the HTTP client. *)
Definition url_str (v : pyval) : result string :=
  match v with PStr s => Ok s | _ => raise TypeError "Invalid type for url.  Expected str or httpx.URL" end.
Definition wire_int (v : pyval) : result Z :=
  match v with PInt z => Ok z | PBool b => Ok (Z.b2z b) | _ => raise TypeError "unsupported operand type(s) for +=" end.

(** [response.raise_for_status()] *)
Definition raise_for_status (r : response) : result unit :=
  if (200 <=? rs_status r) && (rs_status r <? 300) then Ok tt else raise TransportError "HTTPStatusError".

(** [head["head"]["snapshot_id"] if head.get("head") else None] *)
Definition head_snapshot (head : pyval) : result pyval :=
  entry ← py_get head "head" PNone;
  if truthy entry then entry ← py_index head "head"; py_index entry "snapshot_id" else Ok PNone.

Definition opt_dumps (v : pyval) : result (option string) := if is_none v then Ok None else Some <$> dumps unsorted v.

Section transfers.
Context {W : Type} {H : Http W} {C : ManagedCore W}.

(** [except httpx.HTTPError: uploaded = False]. *)
Definition or_false (m : st W bool) : st W bool :=
  st_try m (λ e, if bool_decide (exn_class e = TransportError) then mret false else st_lift (Err e)).

(** ** Planning *)

Definition _plan (dir key : string) (remote : ManagedRemote) (host : string) (include_text include_lexical : bool)
    : st W (pyval * plan) :=
  head ← store_head (rm_org remote) (rm_environment remote) (rm_store remote) key;
  body ← st_lift (py_get head "body" PNone);
  text ← st_lift (opt_dumps body);
  plan ← managed_plan dir key (identity remote host) text include_text include_lexical;
  mret (head, plan).

(** ** Push *)

(** [name_by_sha.setdefault(artifact["sha256"], artifact["name"])]: the first name wins. *)
Definition name_by_sha (artifacts : list artifact) : list (string * string) :=
  map (λ a, (af_sha256 a, af_name a)) artifacts.

(** One iteration of the upload loop. *)
Definition upload_one (dir : string) (names : list (string * string)) (item : pyval) : st W unit :=
  sha ← st_lift (py_index item "sha256");
  _ ← st_lift (if py_hashable sha then Ok tt else raise TypeError "unhashable type");
  match (match sha with PStr s => get_item s names | _ => None end) with
  | None => st_lift (cloud_error 409 ("server asked for blob " +:+ py_str sha +:+ " this push never declared") None)
  | Some name =>
      let path := dir +:+ "/" +:+ name in
      put_url ← st_lift (py_get item "put_url" PNone);
      uploaded ← (if truthy put_url then
                    or_false (headers ← st_lift (py_get item "put_headers" PNone);
                              response ← direct_put put_url (py_or headers (PDict [])) path;
                              _ ← st_lift (raise_for_status response);
                              mret true)
                  else mret false);
      if (uploaded : bool) then mret tt
      else
        proxy_path ← st_lift (py_index item "proxy_path");
        proxy_path ← st_lift (url_str proxy_path);
        upload_blob_proxy proxy_path path
  end.

Fixpoint upload_loop (dir : string) (names : list (string * string)) (items : list pyval) (sent : Z) : st W Z :=
  match items with
  | [] => mret sent
  | item :: items =>
      _ ← upload_one dir names item;
      size ← st_lift (py_index item "size_bytes");
      size ← st_lift (wire_int size);
      upload_loop dir names items (sent + size)
  end.

Definition _upload_blobs (dir : string) (plan_local : local_generation) (need_upload : pyval) : st W Z :=
  items ← st_lift (py_iter need_upload);
  upload_loop dir (name_by_sha (lg_artifacts plan_local)) items 0.

Definition wire_artifact (a : artifact) : result pyval :=
  kind ← _wire_kind (af_kind a);
  Ok (dict_of [("sha256", PStr (af_sha256 a)); ("size_bytes", PInt (af_size_bytes a)); ("kind", PStr kind)]).

Definition push_report (key : string) (local : local_generation) (written skipped bytes : Z) (published : bool) : pydict :=
  map (λ kv, (PStr kv.1, kv.2))
    [("index_key", PStr key); ("generation", PInt (lg_generation local)); ("artifacts_written", PInt written);
     ("artifacts_skipped", PInt skipped); ("bytes_written", PInt bytes); ("pointer_published", PBool published)].

Definition begin_payload (key : string) (remote : ManagedRemote) (local : local_generation) (expected_head : pyval)
    (artifacts : list pyval) : pyval :=
  dict_of [("store", PStr (rm_store remote)); ("key", PStr key); ("snapshot_id", PStr (lg_snapshot_id local));
    ("logical_id", PStr (lg_logical_id local)); ("generation", PInt (lg_generation local));
    ("expected_head", expected_head); ("artifacts", PList artifacts)].

(** The body of the [try]: upload what the server lacks, then commit. *)
Definition upload_and_commit (dir : string) (remote : ManagedRemote) (local : local_generation) (plan : plan) (begin : pyval)
    : st W Z :=
  need_upload ← st_lift (py_index begin "need_upload");
  bytes_written ← _upload_blobs dir local need_upload;
  session_id ← st_lift (py_index begin "session_id");
  body ← st_lift (loads (lg_body_json local));
  _ ← commit_push (rm_org remote) (rm_environment remote) (py_str session_id)
        (dict_of [("body", body); ("pointer_document", PStr (lg_pointer_document local));
                  ("parent_snapshot_id", str_val (pl_base plan))]);
  mret bytes_written.

(** [try: abort_push(...) except Exception: pass; raise]. *)
Definition abort_and_raise (remote : ManagedRemote) (begin : pyval) (e : exn) : st W Z :=
  _ ← st_try (session_id ← st_lift (py_index begin "session_id");
              _ ← abort_push (rm_org remote) (rm_environment remote) (py_str session_id);
              mret tt) (λ _, mret tt);
  st_lift (Err e).

Definition unredactable : string :=
  "this generation's LodeGraph topology embeds user text (gtopotext), which cannot be redacted out of its single SQLite artifact; re-run with the text opt-in (include_text / --include-text) to push it verbatim".

(** Whether the head already is this generation, in its present or its older redacted form. *)
Definition head_matches_local (local : local_generation) (expected_head : pyval) : bool :=
  same_id expected_head (PStr (lg_snapshot_id local))
  || (bool_decide (lg_snapshot_id local = lg_logical_id local) && same_id expected_head (str_val (lg_legacy_redacted_id local))).

Definition _push_with_plan (dir key : string) (remote : ManagedRemote) (host : string) (head : pyval) (plan : plan)
    (include_text : bool) : st W pydict :=
  match pl_local plan with
  | None => st_lift (cloud_error 404 ("no committed generation to push for index key " +:+ str_repr key) None)
  | Some local =>
      let count := Z.of_nat (length (lg_artifacts local)) in
      if negb include_text && existsb (λ a, bool_decide (af_kind a = "gtopotext")) (lg_artifacts local)
      then st_lift (cloud_error 422 unredactable None)
      else
        expected_head ← st_lift (head_snapshot head);
        if head_matches_local local expected_head then
          body ← st_lift (py_get head "body" PNone);
          agreed_body ← st_lift (if is_none body then Ok (lg_body_json local) else dumps unsorted body);
          _ ← managed_record_base dir key (identity remote host) agreed_body;
          mret (push_report key local 0 count 0 false)
        else
          artifacts ← st_lift (mapR wire_artifact (lg_artifacts local));
          begin ← begin_push (rm_org remote) (rm_environment remote) (begin_payload key remote local expected_head artifacts);
          bytes_written ← st_try (upload_and_commit dir remote local plan begin) (abort_and_raise remote begin);
          _ ← managed_record_base dir key (identity remote host) (lg_body_json local);
          need_upload ← st_lift (py_index begin "need_upload");
          written ← st_lift (py_len need_upload);
          mret (push_report key local written (count - written) bytes_written true)
  end.

Definition managed_push (dir : string) (remote : ManagedRemote) (key host : string) (include_text include_lexical : bool)
    : st W pydict :=
  '(head, plan) ← _plan dir key remote host include_text include_lexical;
  _push_with_plan dir key remote host head plan include_text.

(** ** Pull *)

(** [{blob["sha256"]: blob for blob in blobs if blob["sha256"] in needed}] *)
Definition wanted_blobs (needed : list string) (blobs : list pyval) : result (list (string * pyval)) :=
  foldR (λ acc blob,
    sha ← py_index blob "sha256";
    if negb (py_hashable sha) then raise TypeError "unhashable type"
    else match sha with
         | PStr s => Ok (if str_in s needed then put_item s blob acc else acc)
         | _ => Ok acc
         end) [] blobs.

(** The presigned download, or none where it cannot be reached. *)
Definition try_direct (get_url : pyval) : st W (option string) :=
  st_try (response ← direct_get get_url;
          _ ← st_lift (raise_for_status response);
          mret (Some (rs_text response)))
    (λ e, if bool_decide (exn_class e = TransportError) then mret None else st_lift (Err e)).

Definition download_one (blob : pyval) : st W string :=
  get_url ← st_lift (py_get blob "get_url" PNone);
  fetched ← (if truthy get_url then try_direct get_url else mret None);
  match fetched with
  | Some content => mret content
  | None =>
      proxy_path ← st_lift (py_index blob "proxy_path");
      proxy_path ← st_lift (url_str proxy_path);
      download_blob_proxy proxy_path
  end.

(** The staging directory: one file per digest. *)
Fixpoint download_all (downloads : list (string * pyval)) : st W (list (string * string)) :=
  match downloads with
  | [] => mret []
  | (sha, blob) :: downloads =>
      content ← download_one blob;
      staged ← download_all downloads;
      mret ((sha, content) :: staged)
  end.

Definition head_moved : exn :=
  Exn (SyncConflictError 409) "the remote head moved between classification and pull; re-run the sync".

Definition _pull_with_body (dir key : string) (remote : ManagedRemote) (host : string) (expected_snapshot_id : pyval)
    (discard_pending_wal : bool) (expected_local_snapshot_id : option string) : st W pydict :=
  plan_response ← pull_plan (rm_org remote) (rm_environment remote) (rm_store remote) key;
  snapshot ← st_lift (py_index plan_response "snapshot");
  _ ← st_lift (if is_none expected_snapshot_id then Ok tt
               else sid ← py_index snapshot "snapshot_id";
                    if same_id sid expected_snapshot_id then Ok tt else Err head_moved);
  body ← st_lift (py_index plan_response "body");
  body_json ← st_lift (dumps unsorted body);
  required ← managed_pull_requirements dir key body_json;
  let needed := remove_dups (map af_sha256 required) in
  blobs ← st_lift (py_index plan_response "blobs");
  blobs ← st_lift (py_iter blobs);
  downloads ← st_lift (wanted_blobs needed blobs);
  let missing := List.filter (λ s, negb (str_in s downloads.*1)) needed in
  if bool_decide (missing ≠ []) then
    st_lift (cloud_error 502 ("pull plan omits " +:+ Z_str (Z.of_nat (length missing)) +:+ " blob(s) the body references") None)
  else
    staged ← download_all (sort_by key_leb downloads);
    managed_materialize dir key (identity remote host) body_json staged discard_pending_wal expected_local_snapshot_id.

Definition managed_pull (remote : ManagedRemote) (dir key host : string) : st W pydict :=
  _pull_with_body dir key remote host PNone false None.

(** ** Status *)

Definition managed_status (dir : string) (remote : ManagedRemote) (key host : string) (include_text include_lexical : bool)
    : st W pydict :=
  '(_, plan) ← _plan dir key remote host include_text include_lexical;
  mret (List.filter (λ kv, match kv.1 with
    | PStr field => negb (str_in field ["local"; "remote"; "base"; "base_is_current"; "local_raw_snapshot_id"])
    | _ => true end) (pl_items plan)).

(** ** Sync *)

Definition outcome (key : string) (plan : plan) (action : string) (forced : bool) (transfer : option pydict) : pydict :=
  let report := match transfer with Some (x :: d) => x :: d | _ => [(PStr "index_key", PStr key)] end in
  dict_set "sidecar_corrupt" (PBool (pl_sidecar_corrupt plan))
    (dict_set "forced" (PBool forced)
      (dict_set "action" (PStr action) (dict_set "classification" (PStr (pl_classification plan)) report))).

Definition _push_translating_conflict (dir key : string) (remote : ManagedRemote) (host : string) (head : pyval) (plan : plan)
    (include_text : bool) : st W pydict :=
  st_try (_push_with_plan dir key remote host head plan include_text) (λ e,
    if bool_decide (status_code e = Some 409) && str_contains "pointer conflict" (exn_msg e)
    then st_lift (raise (SyncConflictError 409) (exn_msg e +:+ "; re-run the sync to reconcile"))
    else st_lift (Err e)).

Definition _refuse_pending_wal (dir key : string) : st W unit :=
  ops ← local_wal_ops dir key;
  if ops =? 0 then mret tt
  else st_lift (raise (SyncConflictError 409) ("the local database holds " +:+ Z_str ops
    +:+ " uncheckpointed WAL operation(s); checkpoint them by opening the store once, or re-run with "
    +:+ "--force-pull to discard them along with the local lineage")).

Definition conflict_hint (plan : plan) : string :=
  "re-run with --force-push to keep the local copy or --force-pull to keep the remote copy"
  +:+ (if pl_sidecar_corrupt plan then
         " (note: the sync sidecar was present but corrupt and was ignored, so the recorded base could not be trusted)"
       else "").

(** A pull pinned to the classified head and to the classified local state. *)
Definition pull_classified (dir key : string) (remote : ManagedRemote) (host : string) (head : pyval) (plan : plan)
    (forced : bool) : st W pydict :=
  head_sha ← st_lift (head_snapshot head);
  if is_none head_sha then
    st_lift (cloud_error 404 ("no committed generation to pull for index key " +:+ str_repr key) None)
  else
    _ ← (if forced then mret tt else _refuse_pending_wal dir key);
    transfer ← _pull_with_body dir key remote host head_sha forced
                 (Some (match pl_local_raw_snapshot_id plan with Some s => s | None => "" end));
    mret (outcome key plan "pull" forced (Some transfer)).

Definition managed_sync (dir : string) (remote : ManagedRemote) (key host : string) (include_text include_lexical : bool)
    (force_push force_pull : bool) : st W pydict :=
  if force_push && force_pull then st_lift (raise ValueError "force_push and force_pull are mutually exclusive")
  else
    '(head, plan) ← _plan dir key remote host include_text include_lexical;
    let push forced :=
      transfer ← _push_translating_conflict dir key remote host head plan include_text;
      mret (outcome key plan "push" forced (Some transfer)) in
    if force_push then push true
    else if force_pull then pull_classified dir key remote host head plan true
    else if bool_decide (pl_classification plan = "in_sync") then
      _ ← (if pl_base_is_current plan then mret tt
           else body ← st_lift (py_get head "body" PNone);
                if is_none body then mret tt
                else text ← st_lift (dumps unsorted body); managed_record_base dir key (identity remote host) text);
      mret (outcome key plan "none" false None)
    else if str_in (pl_classification plan) ["local_ahead"; "republish"] then push false
    else if bool_decide (pl_classification plan = "remote_ahead") then pull_classified dir key remote host head plan false
    else st_lift (raise (SyncConflictError 409)
      ("sync refused: local and remote are " +:+ pl_classification plan +:+ "; " +:+ conflict_hint plan)).
End transfers.

(** ** The log of a transfer *)

Inductive event :=
| ESent (r : request) (answer : result response)
| EPlanned (identity : string) (body : option string) (answer : result plan)
| ERecorded (identity body : string) (answer : result unit)
| ERequired (body : string) (answer : result (list artifact))
| ERestored (identity body : string) (staged : list (string * string)) (discard : bool) (pin : option string) (answer : result pydict)
| EWal (answer : result Z)
| EPut (url : pyval) (file : string)
| EGet (url : pyval).

Global Instance logged_http {W} `{Http W} : Http (W * list event) := λ r, logged (ESent r) (send r).
Global Instance logged_core {W} `{ManagedCore W} : ManagedCore (W * list event) :=
  {| managed_plan dir key id body t l := logged (EPlanned id body) (managed_plan dir key id body t l);
     managed_record_base dir key id body := logged (ERecorded id body) (managed_record_base dir key id body);
     managed_pull_requirements dir key body := logged (ERequired body) (managed_pull_requirements dir key body);
     managed_materialize dir key id body staged discard pin :=
       logged (ERestored id body staged discard pin) (managed_materialize dir key id body staged discard pin);
     local_wal_ops dir key := logged EWal (local_wal_ops dir key);
     direct_put url headers file := logged (λ _, EPut url file) (direct_put url headers file);
     direct_get url := logged (λ _, EGet url) (direct_get url) |}.

Definition answered (a : result response) : result pyval := r ← a; decoded r.

(** ** What a transfer may do *)

Section protocol.
Context (dir key host : string) (remote : ManagedRemote) (include_text force_push force_pull : bool).
Context (head : pyval) (pl : plan).

Definition begin_of (payload : pyval) : request := begin_request (rm_org remote) (rm_environment remote) payload.
Definition commit_of (session : string) (payload : pyval) : request :=
  commit_request (rm_org remote) (rm_environment remote) session payload.
Definition abort_of (session : string) : request := abort_request (rm_org remote) (rm_environment remote) session.

(** The server opened a push, under this session. *)
Definition begun (past : list event) : Prop :=
  ∃ payload a begin, ESent (begin_of payload) a ∈ past ∧ answered a = Ok begin.
Definition opened (past : list event) (session : string) : Prop :=
  ∃ payload a begin v, ESent (begin_of payload) a ∈ past ∧ answered a = Ok begin ∧ py_index begin "session_id" = Ok v ∧ session = py_str v.
Definition committed (past : list event) (session : string) : Prop :=
  ∃ payload a v, ESent (commit_of session payload) a ∈ past ∧ answered a = Ok v.
Definition aborted (past : list event) (session : string) : Prop := ∃ a, ESent (abort_of session) a ∈ past.

Definition local_file (file : string) : Prop :=
  ∃ local a, pl_local pl = Some local ∧ a ∈ lg_artifacts local ∧ file = dir +:+ "/" +:+ af_name a.

Definition push_wanted : Prop :=
  force_push = true ∨ force_pull = false ∧ pl_classification pl ∈ ["local_ahead"; "republish"].
Definition pull_wanted : Prop :=
  force_pull = true ∨ force_push = false ∧ pl_classification pl = "remote_ahead".

(** A push begins with the planned generation, against the classified head, and never with an
    unredactable topology unless text was asked for. *)
Definition may_begin (payload : pyval) : Prop :=
  ∃ local expected_head artifacts, pl_local pl = Some local ∧ head_snapshot head = Ok expected_head ∧
    (include_text = false → Forall (λ a, af_kind a ≠ "gtopotext") (lg_artifacts local)) ∧
    payload = begin_payload key remote local expected_head artifacts.

(** A base is recorded for what both ends hold: the head that matches, or a committed push. *)
Definition may_record (past : list event) (id body : string) : Prop :=
  id = identity remote host ∧
  ((∃ v, py_get head "body" PNone = Ok v ∧ dumps unsorted v = Ok body ∧
      (pl_classification pl = "in_sync" ∨
       ∃ local h, pl_local pl = Some local ∧ head_snapshot head = Ok h ∧ head_matches_local local h = true)) ∨
   ∃ local, pl_local pl = Some local ∧ body = lg_body_json local ∧
     ((∃ h, head_snapshot head = Ok h ∧ head_matches_local local h = true) ∨ ∃ session, committed past session)).

(** A restore: wanted, over no acknowledged write unless they are discarded on request, pinned to the
    classified head and local state, with every required blob staged. *)
Definition may_restore (past : list event) (id body : string) (staged : list (string * string)) (discard : bool)
    (pin : option string) : Prop :=
  id = identity remote host ∧ pull_wanted ∧ discard = force_pull ∧ (discard = false → EWal (Ok 0) ∈ past) ∧
  pin = Some (match pl_local_raw_snapshot_id pl with Some s => s | None => "" end) ∧
  (∃ required, ERequired body (Ok required) ∈ past ∧ ∀ a, a ∈ required → af_sha256 a ∈ staged.*1) ∧
  ∃ h a response snapshot sid v, head_snapshot head = Ok h ∧ is_none h = false ∧
    ESent (pull_plan_request (rm_org remote) (rm_environment remote) (rm_store remote) key) a ∈ past ∧ answered a = Ok response ∧
    py_index response "snapshot" = Ok snapshot ∧ py_index snapshot "snapshot_id" = Ok sid ∧ same_id sid h = true ∧
    py_index response "body" = Ok v ∧ dumps unsorted v = Ok body.

Definition allowed (past : list event) (e : event) : Prop :=
  match e with
  | ESent r _ =>
      (∀ payload, r = begin_of payload → push_wanted ∧ may_begin payload) ∧
      (∀ session payload, r = commit_of session payload → opened past session) ∧
      (rq_method r = "PUT" → begun past ∧ ∃ file, rq_body r = FileBody file ∧ local_file file)
  | EPut _ file => begun past ∧ local_file file
  | ERecorded id body _ => may_record past id body
  | ERestored id body staged discard pin _ => may_restore past id body staged discard pin
  | _ => True
  end.

Fixpoint obeys (past t : list event) : Prop :=
  match t with [] => True | e :: t => allowed past e ∧ obeys (past ++ [e]) t end.

(** Every session the server opened was committed, or asked to be released. *)
Definition released (t : list event) : Prop := ∀ session, opened t session → committed t session ∨ aborted t session.
End protocol.

(** ** Lemmas on logs *)

(** Finds an event in a log given by its parts. *)
Ltac in_log := repeat (rewrite elem_of_app || rewrite elem_of_cons || rewrite list_elem_of_singleton); tauto.

Lemma logs_request {W} `{Http W} r :
  logs (_request (W:=W * list event) r) (λ res t, ∃ a, t = [ESent r a] ∧ res = answered a).
Proof.
  unfold _request. eapply (logs_bind _ _ (λ res t, t = [ESent r res])); [by apply logs_call|..].
  - intros e t ->. by exists (Err e).
  - intros a t ->. apply logs_lift. by exists (Ok a).
Qed.

Section uploads.
Context {W : Type} `{Http W} `{ManagedCore W}.

Definition is_upload (files : list string) (e : event) : Prop :=
  ∃ f, f ∈ files ∧ ((∃ u, e = EPut u f) ∨ ∃ p a, e = ESent (Req "PUT" p [] (FileBody f) None) a).
Definition is_download (e : event) : Prop := (∃ u, e = EGet u) ∨ ∃ p a, e = ESent (bare_req "GET" p) a.

Lemma get_item_In {A} k v (d : list (string * A)) : get_item k d = Some v → (k, v) ∈ d.
Proof.
  unfold get_item. destruct (List.find _ d) as [[k' v']|] eqn:E; cbn; [|done]. intros [= ->].
  apply find_some in E as [E1 E2]. cbn in E2. apply bool_decide_eq_true in E2 as ->. by apply list_elem_of_In.
Qed.

Lemma upload_one_logs dir names item :
  all_logs (is_upload (map (λ kv, dir +:+ "/" +:+ kv.2) names)) (upload_one (W:=W * list event) dir names item).
Proof.
  unfold upload_one, or_false, upload_blob_proxy. do 2 (all_step; [repeat all_step|]).
  assert (∀ name, (match a with PStr s => get_item s names | _ => None end) = Some name →
    dir +:+ "/" +:+ name ∈ map (λ kv : string * string, dir +:+ "/" +:+ kv.2) names) as Hin.
  { intros name Hn. destruct a; try done. apply get_item_In in Hn. by apply (list_elem_of_fmap_2 (λ kv : string * string, dir +:+ "/" +:+ kv.2) _ _ Hn). }
  destruct (match a with PStr s => get_item s names | _ => None end) as [name|]; [|apply all_lift].
  specialize (Hin name eq_refl). repeat all_step.
  all: apply all_call; intros r; exists (dir +:+ "/" +:+ name); eauto 10.
Qed.

Lemma upload_blobs_logs dir local need :
  all_logs (is_upload (map (λ a, dir +:+ "/" +:+ af_name a) (lg_artifacts local)))
    (_upload_blobs (W:=W * list event) dir local need).
Proof.
  unfold _upload_blobs. all_step; [all_step|]. generalize 0. induction a as [|item items IH]; intros sent; cbn [upload_loop].
  - apply all_ret.
  - all_step; [|repeat all_step; apply IH].
    eapply logs_weaken; [apply upload_one_logs|]. unfold name_by_sha. by rewrite map_map.
Qed.

Lemma download_all_logs l :
  logs (download_all (W:=W * list event) l) (λ r t, Forall is_download t ∧ ∀ staged, r = Ok staged → staged.*1 = l.*1).
Proof.
  induction l as [|[sha blob] l IH]; cbn [download_all]; [by apply logs_ret; split; [|intros ? [= <-]]|].
  eapply (logs_bind _ _ (λ _ t, Forall is_download t)).
  - change (all_logs is_download (download_one (W:=W * list event) blob)).
    unfold download_one, try_direct, download_blob_proxy. repeat all_step.
    all: apply all_call; intros r; unfold is_download; eauto.
  - done.
  - intros content t Ht. eapply logs_bind; [exact IH|..].
    + intros e t' [Ht' _]. split; [by apply Forall_app_2|done].
    + intros staged t' [Ht' Hs]. apply logs_ret. rewrite app_nil_r. split; [by apply Forall_app_2|].
      intros ? [= <-]. cbn. by rewrite Hs.
Qed.
End uploads.

(** ** The shape of a push *)

Section push.
Context {W : Type} `{Http W} `{ManagedCore W}.
Context (dir key host : string) (remote : ManagedRemote) (include_text : bool) (head : pyval) (pl : plan).

Definition files_of (local : local_generation) : list string := map (λ a, dir +:+ "/" +:+ af_name a) (lg_artifacts local).

(** Uploads, then at most one commit, of the session that was opened. *)
Definition upload_trace (local : local_generation) (begin : pyval) (r : result Z) (t : list event) : Prop :=
  ∃ up c, t = up ++ c ∧ Forall (is_upload (files_of local)) up ∧
    ((c = [] ∧ ∃ e, r = Err e) ∨
     ∃ v payload a, py_index begin "session_id" = Ok v ∧ c = [ESent (commit_of remote (py_str v) payload) a] ∧
       ((∃ n, r = Ok n) → ∃ w, answered a = Ok w)).

Lemma upload_and_commit_logs local begin :
  logs (upload_and_commit (W:=W * list event) dir remote local pl begin) (upload_trace local begin).
Proof.
  assert (Hempty : ∀ up e, Forall (is_upload (files_of local)) up → upload_trace local begin (Err e) up).
  { intros up e Hup. exists up, []. rewrite app_nil_r. eauto 6. }
  unfold upload_and_commit.
  apply logs_lift_bind; [by intros; apply Hempty|intros need _].
  eapply logs_bind; [apply upload_blobs_logs|by intros; apply Hempty|intros bytes up Hup].
  apply logs_lift_bind; [by intros; rewrite app_nil_r; apply Hempty|intros v Hv].
  apply logs_lift_bind; [by intros; rewrite app_nil_r; apply Hempty|intros body _].
  eapply logs_bind; [apply logs_request|..].
  - intros e t (a & -> & Ha). exists up. eexists. do 2 (split; [done|]). right. do 3 eexists. do 2 (split; [done|]).
    by intros [].
  - intros w t (a & -> & Ha). apply logs_ret. rewrite app_nil_r. exists up. eexists. do 2 (split; [done|]).
    right. do 3 eexists. eauto.
Qed.

Definition abort_trace (begin : pyval) (e : exn) (r : result Z) (t : list event) : Prop :=
  r = Err e ∧ ((t = [] ∧ ∀ v, py_index begin "session_id" ≠ Ok v) ∨
               ∃ v a, py_index begin "session_id" = Ok v ∧ t = [ESent (abort_of remote (py_str v)) a]).

Lemma abort_logs begin e : logs (abort_and_raise (W:=W * list event) remote begin e) (abort_trace begin e).
Proof.
  unfold abort_and_raise.
  eapply (logs_bind _ _ (λ r t, r = Ok tt ∧ abort_trace begin e (Err e) t)).
  - eapply (logs_try _ _ (λ r t, abort_trace begin e (Err e) t)).
    + apply logs_lift_bind.
      * intros e' He'. split; [done|]. left. by rewrite He'.
      * intros v Hv. eapply logs_bind; [apply logs_request|..].
        -- intros e' t (a & -> & _). split; [done|]. right. eauto.
        -- intros w t (a & -> & _). apply logs_ret. split; [done|]. right. eauto.
    + by intros [] t.
    + intros e' t Ht. apply logs_ret. by rewrite app_nil_r.
  - by intros e' t [].
  - intros [] t [_ Ht]. apply logs_lift. by rewrite app_nil_r.
Qed.

(** What a push leaves in the log, and with which outcome. *)
Inductive push_trace : result pydict → list event → Prop :=
| push_refused e : push_trace (Err e) []
| push_matched local h body r a :
    pl_local pl = Some local → head_snapshot head = Ok h → head_matches_local local h = true →
    (∃ v, py_get head "body" PNone = Ok v ∧ (if is_none v then Ok (lg_body_json local) else dumps unsorted v) = Ok body) →
    push_trace r [ERecorded (identity remote host) body a]
| push_not_begun payload a e :
    may_begin key remote include_text head pl payload → answered a = Err e →
    push_trace (Err e) [ESent (begin_of remote payload) a]
| push_failed local payload a begin up ab e e' :
    pl_local pl = Some local → may_begin key remote include_text head pl payload → answered a = Ok begin →
    upload_trace local begin (Err e') up → abort_trace begin e (Err e) ab →
    push_trace (Err e) (ESent (begin_of remote payload) a :: up ++ ab)
| push_committed local payload a begin up n r rec :
    pl_local pl = Some local → may_begin key remote include_text head pl payload → answered a = Ok begin →
    upload_trace local begin (Ok n) up →
    push_trace r (ESent (begin_of remote payload) a :: up ++ [ERecorded (identity remote host) (lg_body_json local) rec]).

Lemma push_logs : logs (_push_with_plan (W:=W * list event) dir key remote host head pl include_text) push_trace.
Proof.
  unfold _push_with_plan. destruct (pl_local pl) as [local|] eqn:Hlocal; [|apply logs_lift; constructor].
  destruct (negb include_text && _) eqn:Htext; [apply logs_lift; constructor|].
  apply logs_lift_bind; [constructor|]. intros h Hh.
  destruct (head_matches_local local h) eqn:Hm.
  - apply logs_lift_bind; [constructor|]. intros v Hv.
    apply logs_lift_bind; [constructor|]. intros body Hbody.
    eapply (logs_bind _ _ (λ r t, ∃ a, t = [ERecorded (identity remote host) body a])); [apply logs_call; eauto|..].
    + intros e t [a ->]. eauto using push_trace.
    + intros [] t [a ->]. apply logs_ret. eauto using push_trace.
  - apply logs_lift_bind; [constructor|]. intros arts _.
    assert (Hbegin : may_begin key remote include_text head pl (begin_payload key remote local h arts)).
    { exists local, h, arts. repeat split; try done. intros ->. cbn in Htext. apply Forall_forall.
      intros a Ha Hk. apply not_true_iff_false in Htext. apply Htext, existsb_exists. exists a.
      rewrite bool_decide_eq_true. split; [by apply list_elem_of_In|done]. }
    eapply logs_bind; [apply logs_request|..].
    { intros e t (a & -> & Ha). by apply push_not_begun. }
    intros begin t (a & -> & Ha%symmetry).
    eapply (logs_bind _ _ (λ r t, (∃ n up, r = Ok n ∧ t = up ∧ upload_trace local begin (Ok n) up) ∨
      ∃ e up ab, r = Err e ∧ t = up ++ ab ∧ upload_trace local begin (Err e) up ∧ abort_trace begin e (Err e) ab)).
    + eapply logs_try; [apply upload_and_commit_logs|by eauto 8|]. intros e up Hup.
      eapply logs_weaken; [apply abort_logs|]. intros r ab Hab. right. pose proof Hab as [-> _]. by exists e, up, ab.
    + intros e t [(n & up & [=] & _)|(e' & up & ab & [= <-] & -> & Hup & Hab)]. eapply (push_failed local _ _ _ up ab); eassumption.
    + intros n t [(n' & up & [= <-] & -> & Hup)|(e' & up & ab & [=] & _)].
      eapply (logs_bind _ _ (λ r t, ∃ a, t = [ERecorded (identity remote host) (lg_body_json local) a])); [apply logs_call; eauto|..].
      * intros e t' [rec ->]. eapply (push_committed local _ _ _ up); eassumption.
      * intros [] t' [rec ->]. apply logs_lift_bind.
        -- intros e _. rewrite app_nil_r. eapply (push_committed local _ _ _ up); eassumption.
        -- intros need _. apply logs_lift_bind.
           ++ intros e _. rewrite app_nil_r. eapply (push_committed local _ _ _ up); eassumption.
           ++ intros w _. apply logs_ret. rewrite app_nil_r. eapply (push_committed local _ _ _ up); eassumption.
Qed.
End push.

(** ** Requests that differ *)

Lemma begin_ne_commit remote payload session payload' : begin_of remote payload ≠ commit_of remote session payload'.
Proof.
  intros Heq. apply (f_equal rq_path) in Heq. unfold begin_of, commit_of, begin_request, commit_request, post_req, push_path, env_path in Heq.
  cbn [rq_path] in Heq. do 4 apply sapp_inj_l in Heq.
  change "/push/begin" with ("/push/" +:+ ("begi" +:+ String "n" "")) in Heq. apply sapp_inj_l in Heq.
  change "/commit" with ("/commi" +:+ String "t" "") in Heq. rewrite sapp_assoc in Heq. by apply suffix_ne in Heq.
Qed.

Section obeys.
Context (dir key host : string) (remote : ManagedRemote) (include_text force_push force_pull : bool) (head : pyval) (pl : plan).
Local Notation obeys := (obeys dir key host remote include_text force_push force_pull head pl).
Local Notation allowed := (allowed dir key host remote include_text force_push force_pull head pl).

Lemma obeys_app past t1 t2 : obeys past (t1 ++ t2) ↔ obeys past t1 ∧ obeys (past ++ t1) t2.
Proof.
  revert past. induction t1 as [|e t1 IH]; intros past; cbn; [by rewrite app_nil_r; tauto|].
  rewrite IH, <-app_assoc. tauto.
Qed.

Lemma obeys_Forall (Q : event → Prop) past t :
  (∀ past' e, Q e → allowed (past ++ past') e) → Forall Q t → obeys past t.
Proof.
  intros HQ. revert past HQ. induction t as [|e t IH]; intros past HQ Ht; [done|]. apply Forall_cons_1 in Ht as [He Ht].
  cbn. split; [by rewrite <-(app_nil_r past); apply HQ|]. apply IH; [|done]. intros past' e'. rewrite <-app_assoc. apply HQ.
Qed.

Lemma allowed_get past r a : rq_method r = "GET" → allowed past (ESent r a).
Proof. intros Hr. repeat split; intros; subst; try done; congruence. Qed.

Lemma allowed_abort past session a : allowed past (ESent (abort_of remote session) a).
Proof. repeat split; intros; done. Qed.

Lemma allowed_commit past session payload a : opened remote past session → allowed past (ESent (commit_of remote session payload) a).
Proof.
  intros Hs. repeat split; intros.
  - exfalso. by eapply begin_ne_commit.
  - exfalso. by eapply begin_ne_commit.
  - unfold commit_of, commit_request, post_req in H. injection H as Hp _. 
    unfold push_path, env_path in Hp. do 5 apply sapp_inj_l in Hp.
    apply sapp_inj_r in Hp. by subst.
  - done.
  - done.
Qed.

Lemma obeys_uploads past local t : begun remote past → pl_local pl = Some local →
  Forall (is_upload (files_of dir local)) t → obeys past t.
Proof.
  intros (payload & a & begin & Hin & Ha) Hl. apply obeys_Forall. intros past' e (f & Hf & He).
  assert (begun remote (past ++ past')) by (exists payload, a, begin; split; [apply elem_of_app; by left|done]).
  assert (local_file dir pl f).
  { apply list_elem_of_In, in_map_iff in Hf as (x & <- & Hx%list_elem_of_In). by exists local, x. }
  destruct He as [[u ->]|(p & b & ->)]; [done|]. repeat split; try done; eauto.
Qed.

Lemma obeys_downloads past t : Forall is_download t → obeys past t.
Proof. apply obeys_Forall. intros past' e [[u ->]|(p & a & ->)]; [done|]. by apply allowed_get. Qed.

Lemma opened_app_l past t session : opened remote past session → opened remote (past ++ t) session.
Proof. intros (p & a & b & v & Hin & Hr). exists p, a, b, v. split; [apply elem_of_app; by left|done]. Qed.

Lemma committed_upload past local begin n up payload a session :
  answered a = Ok begin → upload_trace dir remote local begin (Ok n) up →
  py_index begin "session_id" = Ok session →
  committed remote (past ++ ESent (begin_of remote payload) a :: up) (py_str session).
Proof.
  intros Ha (us & c & -> & _ & [[_ [e [=]]]|(v & p & b & Hv & -> & Hok)]) Hs. rewrite Hs in Hv. injection Hv as <-.
  destruct (Hok (ex_intro _ n eq_refl)) as [w Hw]. exists p, b, w. split; [|done].
  in_log.
Qed.

(** What follows the opening of a push: its files, and the commit of its session. *)
Lemma obeys_upload_trace past local payload a begin r up :
  push_wanted force_push force_pull pl → may_begin key remote include_text head pl payload →
  answered a = Ok begin → pl_local pl = Some local → upload_trace dir remote local begin r up →
  obeys past (ESent (begin_of remote payload) a :: up).
Proof.
  intros Hw Hb Ha Hl (us & c & -> & Hus & Hc). cbn [CloudSync.obeys]. split.
  - repeat split; intros; try done; [by injection H as -> | exfalso; by eapply begin_ne_commit].
  - apply obeys_app. split.
    + eapply obeys_uploads; [|done..]. exists payload, a, begin. split; [|done]. in_log.
    + destruct Hc as [[-> _]|(v & p & b & Hv & -> & _)]; [done|]. cbn [CloudSync.obeys]. split; [|done]. apply allowed_commit.
      apply opened_app_l. exists payload, a, begin, v. in_log.
Qed.

Lemma push_obeys past r t : push_wanted force_push force_pull pl →
  push_trace dir key host remote include_text head pl r t → obeys past t.
Proof.
  intros Hw [e | local h body r' a Hl Hh Hm (v & Hv & Hbody) | payload a e Hb Ha
    | local payload a begin up ab e e' Hl Hb Ha Hup Hab | local payload a begin up n r' rec Hl Hb Ha Hup].
  - done.
  - cbn. split; [|done]. split; [done|]. destruct (is_none v) eqn:Hn.
    + injection Hbody as <-. right. eauto 10.
    + left. exists v. eauto 10.
  - cbn. split; [|done]. repeat split; intros; try done; [by injection H as -> | exfalso; by eapply begin_ne_commit].
  - change (obeys past ((ESent (begin_of remote payload) a :: up) ++ ab)). apply obeys_app. split.
    { by eapply obeys_upload_trace. }
    destruct Hab as [_ [[-> _]|(v & b & _ & ->)]]; [done|]. cbn [CloudSync.obeys]. split; [apply allowed_abort|done].
  - change (obeys past ((ESent (begin_of remote payload) a :: up) ++ [ERecorded (identity remote host) (lg_body_json local) rec])).
    apply obeys_app. split; [by eapply obeys_upload_trace|]. cbn. split; [|done]. split; [done|]. right.
    exists local. split; [done|]. split; [done|]. right. pose proof Hup as (us & c & _ & _ & [[_ [e [=]]]|(v & p & b & Hv & _)]).
    exists (py_str v). by eapply committed_upload.
Qed.
End obeys.

(** ** Released sessions *)

Definition quiet (t : list event) : Prop := Forall (λ e, match e with ESent r _ => rq_method r = "GET" | _ => True end) t.

Lemma quiet_nil : quiet [].
Proof. constructor. Qed.
#[local] Hint Resolve quiet_nil : core.

(** Whether the event asks the server to open a push. *)
Definition opens (remote : ManagedRemote) (e : event) : Prop := ∃ payload a, e = ESent (begin_of remote payload) a.

Lemma quiet_opens remote t e : quiet t → e ∈ t → ¬ opens remote e.
Proof. intros Ht He (p & a & ->). unfold quiet in Ht. rewrite Forall_forall in Ht. by specialize (Ht _ He). Qed.

Lemma quiet_released remote t1 t2 : quiet t1 → released remote t2 → released remote (t1 ++ t2).
Proof.
  intros Ht1 Ht2 session (p & a & b & v & Hin & Hr). apply elem_of_app in Hin as [Hin|Hin].
  - exfalso. eapply (quiet_opens remote t1); [done..|]. by exists p, a.
  - destruct (Ht2 session) as [(q & c & w & Hq & Hc)|(c & Hc)]; [by exists p, a, b, v| |].
    + left. exists q, c, w. split; [|done]. apply elem_of_app. by right.
    + right. exists c. apply elem_of_app. by right.
Qed.

Lemma downloads_quiet t : Forall is_download t → quiet t.
Proof. intros H. eapply Forall_impl; [exact H|]. by intros e [[u ->]|(p & a & ->)]. Qed.

Lemma upload_opens dir remote local begin r up e : upload_trace dir remote local begin r up → e ∈ up → ¬ opens remote e.
Proof.
  intros (us & c & -> & Hus & Hc) He (p & a & ->). apply elem_of_app in He as [He|He].
  - rewrite Forall_forall in Hus. by destruct (Hus _ He) as (f & _ & [[u [=]]|(q & b & [=])]).
  - destruct Hc as [[-> _]|(v & q & b & _ & -> & _)]; [by apply not_elem_of_nil in He|].
    apply list_elem_of_singleton in He. apply (f_equal (λ e, match e with ESent r _ => r | _ => begin_of remote p end)) in He. by apply begin_ne_commit in He.
Qed.

Lemma push_released dir key host remote include_text head pl r t :
  push_trace dir key host remote include_text head pl r t → released remote t.
Proof.
  intros [e | local h body r' a _ _ _ _ | payload a e _ Ha
    | local payload a begin up ab e e' _ _ Ha Hup Hab | local payload a begin up n r' rec _ _ Ha Hup]
    session (p & b & w & v & Hin & Hb & Hv & ->).
  - by apply not_elem_of_nil in Hin.
  - by apply list_elem_of_singleton in Hin.
  - apply list_elem_of_singleton in Hin. injection Hin as _ ->. congruence.
  - assert (w = begin) as ->.
    { rewrite elem_of_cons, elem_of_app in Hin. destruct Hin as [Hin|[Hin|Hin]].
      - injection Hin as _ ->. congruence.
      - exfalso. eapply upload_opens; [exact Hup|exact Hin|]. by exists p, b.
      - destruct Hab as [_ [[-> _]|(v' & c & _ & ->)]]; [by apply not_elem_of_nil in Hin|]. by apply list_elem_of_singleton in Hin. }
    destruct Hab as [_ [[_ Hno]|(v' & c & Hv' & ->)]]; [by apply Hno in Hv|]. rewrite Hv in Hv'. injection Hv' as <-.
    right. exists c. in_log.
  - assert (w = begin) as ->.
    { rewrite elem_of_cons, elem_of_app, list_elem_of_singleton in Hin. destruct Hin as [Hin|[Hin|Hin]]; [|exfalso|done].
      - injection Hin as _ ->. congruence.
      - eapply upload_opens; [exact Hup|exact Hin|]. by exists p, b. }
    left. destruct (committed_upload dir remote [] local begin n up payload a v Ha Hup Hv) as (q & c & x & Hq & Hc).
    exists q, c, x. split; [|done]. rewrite app_nil_l, elem_of_cons in Hq. rewrite elem_of_cons, elem_of_app. tauto.
Qed.

(** ** The shape of a pull *)

Section pull.
Context {W : Type} `{Http W} `{ManagedCore W}.
Context (dir key host : string) (remote : ManagedRemote) (include_text force_push force_pull : bool) (head : pyval) (pl : plan).
Local Notation obeys := (obeys dir key host remote include_text force_push force_pull head pl).

Lemma quiet_obeys_get past r a : rq_method r = "GET" → obeys past [ESent r a] ∧ quiet [ESent r a].
Proof. intros Hr. repeat split; intros; subst; try done; try congruence. by apply Forall_singleton. Qed.

(** Every digest needed and not missing is a key of the downloads. *)
Lemma no_missing needed keys : List.filter (λ s, negb (str_in s keys)) needed = [] → ∀ s, s ∈ needed → s ∈ keys.
Proof.
  intros Hf s Hs. destruct (str_in s keys) eqn:E; [by apply bool_decide_eq_true in E|]. exfalso.
  assert (In s []) as []. rewrite <-Hf. apply filter_In. rewrite E. split; [by apply list_elem_of_In|done].
Qed.

Lemma wal_logs past : logs (_refuse_pending_wal (W:=W * list event) dir key)
  (λ r t, obeys past t ∧ quiet t ∧ (r = Ok tt → EWal (Ok 0) ∈ t)).
Proof.
  unfold _refuse_pending_wal. eapply (logs_bind _ _ (λ r t, t = [EWal r])); [by apply logs_call|..].
  - intros e t ->. repeat split; [|done]. by apply Forall_singleton.
  - intros ops t ->. assert (quiet [EWal (Ok ops)]) by by apply Forall_singleton.
    destruct (Z.eqb_spec ops 0) as [->|Hops].
    + apply logs_ret. rewrite app_nil_r. repeat split; [done|]. intros _. by constructor.
    + apply logs_lift. by rewrite app_nil_r.
Qed.

Lemma pull_body_logs past h discard :
  pull_wanted force_push force_pull pl → discard = force_pull → (discard = false → EWal (Ok 0) ∈ past) →
  head_snapshot head = Ok h → is_none h = false →
  logs (_pull_with_body (W:=W * list event) dir key remote host h discard
          (Some (match pl_local_raw_snapshot_id pl with Some s => s | None => "" end)))
    (λ r t, obeys past t ∧ quiet t).
Proof.
  intros Hw Hd Hwal Hh Hn. unfold _pull_with_body. rewrite Hn.
  pose (r0 := pull_plan_request (rm_org remote) (rm_environment remote) (rm_store remote) key).
  assert (Hget : ∀ a, obeys past [ESent r0 a] ∧ quiet [ESent r0 a]) by (intros; by apply quiet_obeys_get).
  eapply logs_bind; [apply logs_request| by intros e t (a & -> & _) |].
  intros response t (a & -> & Ha%symmetry). fold r0.
  apply logs_lift_bind; [intros; rewrite app_nil_r; apply Hget|intros snapshot Hs].
  apply logs_lift_bind; [intros; rewrite app_nil_r; apply Hget|intros [] Hpin].
  apply bind_Ok in Hpin as (sid & Hsid & Hpin). destruct (same_id sid h) eqn:Hsame; [|done].
  apply logs_lift_bind; [intros; rewrite app_nil_r; apply Hget|intros v Hv].
  apply logs_lift_bind; [intros; rewrite app_nil_r; apply Hget|intros body Hbody].
  assert (Hreq : ∀ b, obeys past [ESent r0 a; ERequired body b] ∧ quiet [ESent r0 a; ERequired body b]).
  { intros b. destruct (Hget a) as [[H1 _] H2]. split; [cbn [CloudSync.obeys]; split; [exact H1|by split]|]. apply (Forall_app_2 _ [_]); [exact H2|by apply Forall_singleton]. }
  eapply (logs_bind _ _ (λ r t, t = [ERequired body r])); [by apply logs_call|by intros e t ->; apply Hreq|].
  intros required t ->.
  apply logs_lift_bind; [intros; apply Hreq|intros blobs _].
  apply logs_lift_bind; [intros; apply Hreq|intros items _].
  apply logs_lift_bind; [intros; apply Hreq|intros downloads _].
  case_bool_decide as Hmiss; [by apply logs_lift; apply Hreq|].
  assert (Hdown : ∀ t, Forall is_download t →
    obeys past ([ESent r0 a] ++ [ERequired body (Ok required)] ++ t) ∧ quiet ([ESent r0 a] ++ [ERequired body (Ok required)] ++ t)).
  { intros t Ht. destruct (Hreq (Ok required)) as [H1 H2]. rewrite app_assoc. split.
    - apply obeys_app. split; [exact H1|by apply obeys_downloads].
    - apply Forall_app_2; [exact H2|by apply downloads_quiet]. }
  eapply logs_bind; [apply download_all_logs|by intros e t [Ht _]; apply Hdown|].
  intros staged t [Ht Hst]. apply logs_call. intros r. specialize (Hst _ eq_refl). destruct (Hdown t Ht) as [H1 H2].
  rewrite !app_assoc in *. split; [|apply Forall_app_2; [exact H2|by apply Forall_singleton]].
  apply obeys_app. split; [exact H1|]. cbn. split; [|done].
  split; [done|]. split; [done|]. split; [done|]. split; [intros; apply elem_of_app; left; auto|]. split; [done|]. split.
  - exists required. split; [in_log|]. intros x Hx.
    rewrite Hst. assert (af_sha256 x ∈ downloads.*1) as Hin.
    { eapply no_missing; [exact Hmiss|]. apply elem_of_remove_dups. by apply list_elem_of_fmap_2. }
    apply list_elem_of_fmap in Hin as (y & -> & Hy). apply list_elem_of_fmap_2. by apply elem_of_sort_by.
  - exists h, a, response, snapshot, sid, v. do 2 (split; [done|]). split; [unfold r0; in_log|]. done.
Qed.
End pull.

(** ** Synchronising *)

Section sync.
Context {W : Type} `{Http W} `{ManagedCore W}.
Context (dir key host : string) (remote : ManagedRemote) (include_text include_lexical force_push force_pull : bool).

Definition head_of : request := head_request (rm_org remote) (rm_environment remote) (rm_store remote) key.

(** The log of a classification: the head, then the plan of the core against it. *)
Definition plan_trace (r : result (pyval * plan)) (t : list event) : Prop :=
  (quiet t ∧ ∃ e, r = Err e) ∨
  ∃ a head body pl, r = Ok (head, pl) ∧ answered a = Ok head ∧
    t = [ESent head_of a; EPlanned (identity remote host) body (Ok pl)].

Lemma plan_logs : logs (_plan (W:=W * list event) dir key remote host include_text include_lexical) plan_trace.
Proof.
  assert (Hq : ∀ a, quiet [ESent head_of a]) by (intros; by apply Forall_singleton).
  unfold _plan. eapply logs_bind; [apply logs_request|by intros e t (a & -> & _); left; eauto|].
  intros head t (a & -> & Ha%symmetry). fold head_of.
  apply logs_lift_bind; [by left; eauto|intros v _]. apply logs_lift_bind; [by left; eauto|intros body _].
  eapply (logs_bind _ _ (λ r t, t = [EPlanned (identity remote host) body r])); [by apply logs_call|..].
  - intros e t ->. left. split; [|eauto]. apply (Forall_app_2 _ [_]); [apply Hq|by apply Forall_singleton].
  - intros pl t ->. apply logs_ret. right. exists a, head, body, pl. done.
Qed.

(** What follows the classification. *)
Definition sync_rest (head : pyval) (pl : plan) (r : result pydict) (t : list event) : Prop :=
  obeys dir key host remote include_text force_push force_pull head pl [] t ∧ released remote t ∧
  (push_wanted force_push force_pull pl ∨ pull_wanted force_push force_pull pl ∨ pl_classification pl = "in_sync" ∨
   t = [] ∧ ∃ e, r = Err e ∧ exn_class e = SyncConflictError 409).

Lemma quiet_is_released t : quiet t → released remote t.
Proof. intros Ht. rewrite <-(app_nil_r t). apply quiet_released; [done|]. by intros s (p & a & b & v & Hin%not_elem_of_nil & _). Qed.

Lemma push_rest head pl forced : push_wanted force_push force_pull pl →
  logs (transfer ← _push_translating_conflict (W:=W * list event) dir key remote host head pl include_text;
        mret (outcome key pl "push" forced (Some transfer))) (sync_rest head pl).
Proof.
  intros Hw. assert (Hrest : ∀ r r' t, push_trace dir key host remote include_text head pl r t → sync_rest head pl r' t).
  { intros r r' t Ht. split; [by eapply push_obeys|]. split; [by eapply push_released|]. by left. }
  eapply (logs_bind _ _ (λ _ t, ∃ r, push_trace dir key host remote include_text head pl r t)).
  - unfold _push_translating_conflict. eapply logs_try; [apply push_logs|by eauto|]. intros e t Ht.
    case_match; apply logs_lift; rewrite app_nil_r; eauto.
  - intros e t [r Ht]. by eapply Hrest.
  - intros d t [r Ht]. apply logs_ret. rewrite app_nil_r. by eapply Hrest.
Qed.

Lemma pull_rest head pl forced : pull_wanted force_push force_pull pl → forced = force_pull →
  logs (pull_classified (W:=W * list event) dir key remote host head pl forced) (sync_rest head pl).
Proof.
  intros Hw Hf.
  assert (Hrest : ∀ r t, obeys dir key host remote include_text force_push force_pull head pl [] t → quiet t → sync_rest head pl r t).
  { intros r t Ht Hq. split; [done|]. split; [by apply quiet_is_released|]. by right; left. }
  unfold pull_classified. apply logs_lift_bind; [intros; by apply Hrest|intros h Hh].
  destruct (is_none h) eqn:Hn; [by apply logs_lift, Hrest|].
  eapply (logs_bind _ _ (λ r t, obeys dir key host remote include_text force_push force_pull head pl [] t ∧ quiet t ∧
    (r = Ok tt → forced = false → EWal (Ok 0) ∈ t))).
  - destruct forced; [by apply logs_ret|]. eapply logs_weaken; [apply wal_logs|]. intros r t (? & ? & ?). eauto.
  - intros e t (Ht & Hq & _). by apply Hrest.
  - intros [] t (Ht & Hq & Hwal).
    eapply logs_bind; [eapply (pull_body_logs dir key host remote include_text force_push force_pull head pl t h forced); eauto|..].
    + intros e t' [Ht' Hq']. apply Hrest; [apply obeys_app; split; [exact Ht|exact Ht']|by apply Forall_app_2].
    + intros d t' [Ht' Hq']. apply logs_ret. rewrite app_nil_r. apply Hrest; [apply obeys_app; split; [exact Ht|exact Ht']|by apply Forall_app_2].
Qed.

Lemma in_sync_rest head pl : pl_classification pl = "in_sync" →
  logs (_ ← (if pl_base_is_current pl then mret tt
             else body ← st_lift (py_get head "body" PNone);
                  if is_none body then mret tt
                  else text ← st_lift (dumps unsorted body); managed_record_base (W:=W * list event) dir key (identity remote host) text);
        mret (outcome key pl "none" false None)) (sync_rest head pl).
Proof.
  intros Hc. assert (Hrest : ∀ r t, obeys dir key host remote include_text force_push force_pull head pl [] t → quiet t → sync_rest head pl r t).
  { intros r t Ht Hq. split; [done|]. split; [by apply quiet_is_released|]. by right; right; left. }
  eapply (logs_bind _ _ (λ _ t, obeys dir key host remote include_text force_push force_pull head pl [] t ∧ quiet t)).
  - destruct (pl_base_is_current pl); [by apply logs_ret|].
    apply logs_lift_bind; [done|intros v Hv]. destruct (is_none v); [by apply logs_ret|].
    apply logs_lift_bind; [done|intros text Htext]. apply logs_call. intros r. split; [|by apply Forall_singleton].
    cbn. split; [|done]. split; [done|]. left. eauto.
  - intros e t [Ht Hq]. by apply Hrest.
  - intros [] t [Ht Hq]. apply logs_ret. rewrite app_nil_r. by apply Hrest.
Qed.

Lemma sync_logs : (force_push && force_pull) = false →
  logs (managed_sync (W:=W * list event) dir remote key host include_text include_lexical force_push force_pull)
    (λ r t, (quiet t ∧ ∃ e, r = Err e) ∨ ∃ a head body pl t', answered a = Ok head ∧
       t = ESent head_of a :: EPlanned (identity remote host) body (Ok pl) :: t' ∧ sync_rest head pl r t').
Proof.
  intros Hforce. unfold managed_sync. rewrite Hforce.
  eapply logs_bind; [apply plan_logs|by intros e t [[Hq _]|(a & h & b & p & [=] & _)]; left; eauto|].
  intros [head pl] t [[_ [e [=]]]|(a & head' & body & pl' & [= <- <-] & Ha & ->)].
  eapply (logs_weaken _ (sync_rest head pl)); [|intros r t' Ht'; right; by exists a, head, body, pl, t'].
  destruct force_push eqn:Hfp; [apply push_rest; by left|].
  destruct force_pull eqn:Hfl; [apply pull_rest; [by left|done]|].
  case_bool_decide as Hc; [by apply in_sync_rest|].
  destruct (str_in _ _) eqn:Hin; [apply push_rest; right; split; [done|by apply bool_decide_eq_true in Hin]|].
  case_bool_decide as Hr; [apply pull_rest; [by right|done]|].
  apply logs_lift. split; [done|]. split; [by apply quiet_is_released|]. right; right; right. eauto.
Qed.
End sync.

(** ** The protocol *)

(** C23: [managed_sync] follows its decision table, whatever the core classifies and the server answers:
    it sends and records nothing before it has classified the head; a push begins only where force or
    the classification asks for it, against the classified head, uploads only files of the planned
    generation and commits only the session that was opened; a restore happens only where force or the
    classification asks for it, never over acknowledged writes that were not to be discarded, and
    pinned to the classified head and local state with every required blob staged; a base is recorded
    only for a generation both ends hold; where neither force nor a fast-forward applies, the sync
    raises a conflict and does nothing; and it never pushes and pulls. *)
Theorem sync_obeys_protocol {W} `{Http W} `{ManagedCore W} dir remote key host include_text include_lexical
    force_push force_pull (w : W) :
  let '(r, (_, t)) := managed_sync dir remote key host include_text include_lexical force_push force_pull (w, []) in
  (quiet t ∧ exists e, r = Err e) ∨
  exists a head body pl t', answered a = Ok head ∧
    t = ESent (head_of key remote) a :: EPlanned (identity remote host) body (Ok pl) :: t' ∧
    obeys dir key host remote include_text force_push force_pull head pl [] t' ∧
    ~ (push_wanted force_push force_pull pl ∧ pull_wanted force_push force_pull pl) ∧
    (push_wanted force_push force_pull pl ∨ pull_wanted force_push force_pull pl ∨ pl_classification pl = "in_sync" ∨
     t' = [] ∧ exists e, r = Err e ∧ exn_class e = SyncConflictError 409).
Proof.
  destruct (managed_sync _ _ _ _ _ _ _ _ _) as [r [w' t]] eqn:Hrun. destruct (force_push && force_pull) eqn:Hf.
  { unfold managed_sync in Hrun. rewrite Hf in Hrun. injection Hrun as <- _ <-. left. split; [done|eauto]. }
  destruct (sync_logs dir key host remote include_text include_lexical force_push force_pull Hf (w, [])) as (t0 & Ht & Hr).
  rewrite Hrun in Ht, Hr. cbn in Ht, Hr. subst t0.
  destruct Hr as [Hr|(a & head & body & pl & t' & Ha & -> & Hob & _ & Hend)]; [by left|right].
  exists a, head, body, pl, t'. split; [done|]. split; [done|]. split; [done|]. split; [|done].
  intros [[Hp|[Hp Hc]] [Hl|[Hl Hc']]]; rewrite ?Hp, ?Hl in *; try done. rewrite Hc' in Hc. by apply list_elem_of_In in Hc as [[=]|[[=]|[]]].
Qed.

(** C26: no push session is left behind: whatever fails during a push, sync or not (an upload, the
    commit, a malformed answer), every session the server opened has been committed, or the client has
    asked the server to release it. *)
Theorem sessions_released {W} `{Http W} `{ManagedCore W} dir remote key host include_text include_lexical
    force_push force_pull (w : W) :
  released remote (snd (snd (managed_push dir remote key host include_text include_lexical (w, [])))) ∧
  released remote (snd (snd (managed_sync dir remote key host include_text include_lexical force_push force_pull (w, [])))).
Proof.
  split.
  - assert (Hl : logs (managed_push (W:=W * list event) dir remote key host include_text include_lexical) (λ _ t, released remote t)).
    + unfold managed_push. eapply logs_bind; [apply plan_logs|..].
      * intros e t [[Hq _]|(a & h & b & p & [=] & _)]. by apply quiet_is_released.
      * intros [head pl] t [[_ [e [=]]]|(a & head' & body & pl' & [= <- <-] & Ha & ->)].
        eapply logs_weaken; [apply push_logs|]. intros r t' Ht'. apply quiet_released; [|by eapply push_released].
        apply (Forall_app_2 _ [_]); by apply Forall_singleton.
    + destruct (Hl (w, [])) as (t & Ht & Hr). cbn in Ht. by rewrite Ht.
  - destruct (force_push && force_pull) eqn:Hf.
    { unfold managed_sync. rewrite Hf. by apply quiet_is_released. }
    destruct (sync_logs dir key host remote include_text include_lexical force_push force_pull Hf (w, [])) as (t & Ht & Hr).
    cbn in Ht. rewrite Ht. destruct Hr as [[Hq _]|(a & head & body & pl & t' & Ha & -> & _ & Hr & _)]; [by apply quiet_is_released|].
    change (released remote ([ESent (head_of key remote) a; EPlanned (identity remote host) body (Ok pl)] ++ t')).
    apply quiet_released; [|done]. apply (Forall_app_2 _ [_]); by apply Forall_singleton.
Qed.

(** ** Runs *)

(** A server that answers from a script, and a core with one generation of one artifact. *)
Section runs.
Local Instance scripted : Http (list response) := λ _ script,
  match script with a :: script => (Ok a, script) | [] => (raise TransportError "no answer", []) end.
Definition demo_local : local_generation := LocalGeneration "s2" "s2" 2 None "{}" "doc" [Artifact "aa" "idx.2.tvim" "tvim" 7].
Local Instance demo_core : ManagedCore (list response) :=
  {| managed_plan _ _ _ _ _ _ := mret (Plan (Some demo_local) (Some "s1") true (Some "raw") "local_ahead" false []);
     managed_record_base _ _ _ _ := mret tt; managed_pull_requirements _ _ _ := mret [];
     managed_materialize _ _ _ _ _ _ _ := mret []; local_wal_ops _ _ := mret 0;
     direct_put _ _ _ := st_lift (raise TransportError "refused"); direct_get _ := st_lift (raise TransportError "refused") |}.

Definition demo_answer (text : string) : response := Resp 200 text None.
Definition q (s : string) : string := String dquote (s +:+ String dquote "").
Definition demo_head : response :=
  demo_answer ("{" +:+ q "head" +:+ ": {" +:+ q "snapshot_id" +:+ ": " +:+ q "s1" +:+ "}, " +:+ q "body" +:+ ": {}}").
Definition demo_begin : response :=
  demo_answer ("{" +:+ q "session_id" +:+ ": " +:+ q "p1" +:+ ", " +:+ q "need_upload" +:+ ": [{" +:+ q "sha256" +:+ ": " +:+ q "aa"
    +:+ ", " +:+ q "size_bytes" +:+ ": 7, " +:+ q "put_url" +:+ ": " +:+ q "https://s3/aa" +:+ ", " +:+ q "proxy_path" +:+ ": " +:+ q "/v1/blobs/aa" +:+ "}]}").
Definition demo_sync (script : list response) : result pydict * (list response * list event) :=
  managed_sync "db" (Remote "acme" "prod" "memory") "idx" "https://ore" false false false false (script, []).

(** What a log shows of its events: the paths requested, the direct uploads, the recorded bases. *)
Definition shown (e : event) : string :=
  match e with
  | ESent r _ => rq_method r +:+ " " +:+ rq_path r
  | EPlanned _ _ _ => "plan" | ERecorded _ body _ => "record " +:+ body | ERequired _ _ => "require" | ERestored _ _ _ _ _ _ => "restore"
  | EWal _ => "wal" | EPut _ file => "put " +:+ file | EGet _ => "get"
  end.

(** The presigned upload is refused, so the file goes through the proxy; then the commit and the base. *)
Example sync_pushes : map shown (demo_sync [demo_head; demo_begin; demo_answer ""; demo_answer "{}"]).2.2 =
  ["GET /v1/orgs/acme/environments/prod/stores/head"; "plan"; "POST /v1/orgs/acme/environments/prod/push/begin"; "put db/idx.2.tvim";
   "PUT /v1/blobs/aa"; "POST /v1/orgs/acme/environments/prod/push/p1/commit"; "record {}"].
Proof. vm_compute. reflexivity. Qed.

(** The commit is refused because the head moved: the session is released and the sync reports a conflict. *)
Example sync_conflict :
  let '(r, (_, t)) := demo_sync [demo_head; demo_begin; demo_answer ""; Resp 409 "pointer conflict" None; demo_answer ""] in
  map shown t =
    ["GET /v1/orgs/acme/environments/prod/stores/head"; "plan"; "POST /v1/orgs/acme/environments/prod/push/begin"; "put db/idx.2.tvim";
     "PUT /v1/blobs/aa"; "POST /v1/orgs/acme/environments/prod/push/p1/commit"; "POST /v1/orgs/acme/environments/prod/push/p1/abort"] ∧
  r = raise (SyncConflictError 409) "pointer conflict; re-run the sync to reconcile".
Proof. vm_compute. split; reflexivity. Qed.
End runs.
