(* ===== verification/CloudStore.v ===== *)
(** * A store served by the cloud

    [cloud/serving.py]: [CloudStore], the handle over one store. Its mutable state is the session
    ([session]: the read-your-writes floor and the last write), kept in the world beside the server
    ([SessionWorld]); the clock, the pauses, the idempotency keys and the reading of images are the
    class [Ambient]. The theorems: every read of a session asks for at least what its writes were
    acknowledged with ([session_reads_its_writes]), a write is registered once however often it is
    resent ([write_registers_once]), and the batched text read answers like the per-id one
    ([get_texts_agrees]). The waiting loops take their number of rounds as an argument. *)

From Stdlib Require Import Ascii String ZArith Lia SpecFloat.
From stdpp Require Import base strings gmap sets list.
From S2P Require Import Prelude Numbers PyVal Bytes Json LocalDb Traces Base64 CloudClient CloudSync.

Local Open Scope Z_scope.

(** ** The session and the world *)

Record session := Session { last_seq : Z; last_write_id : option string }.

Class SessionWorld (W : Type) := { session_of : W → session; with_session : session → W → W }.

(** [image_data]: the bytes of a path, of raw bytes or of a PIL image. *)
Class Ambient (W : Type) :=
  { monotonic : st W float; sleep : float → st W unit; uuid4_hex : st W string; image_data : pyval → st W bytes }.

(** What a handle is bound to. *)
Record handle := Handle
  { h_org : string; h_environment : string; h_store : string; h_key : option string;
    h_read_your_writes : bool; h_write_visibility_timeout : float }.

(** ** Hits *)

Record CloudSearchHit := Hit
  { hit_score : float; hit_id : string; hit_metadata : pydict; hit_text : pyval; hit_matched : pyval }.

Definition _hit (row : pyval) : result CloudSearchHit :=
  score ← py_index row "score";
  id ← py_index row "id";
  metadata ← py_index row "metadata";
  text ← py_get row "text" PNone;
  score ← py_float score;
  metadata ← py_dict metadata;
  Ok (Hit score (py_str id) metadata text (PList [])).

Definition hits_of (answer : pyval) (field : string) : result (list CloudSearchHit) :=
  rows ← py_index answer field; rows ← py_iter rows; mapR _hit rows.

Definition hit_lists (answer : pyval) : result (list (list CloudSearchHit)) :=
  results ← py_index answer "results"; results ← py_iter results;
  mapR (λ rows, rows ← py_iter rows; mapR _hit rows) results.

(** ** Payloads *)

Definition _MAX_IMAGE_BYTES : Z := 20 * 1024 * 1024.

Definition _image_b64 (data : bytes) : result string :=
  if bool_decide (data = "") then raise ValueError "image is empty"
  else if _MAX_IMAGE_BYTES <? Z.of_nat (slen data) then raise ValueError "image exceeds the 20 MB cloud image cap"
  else Ok (b64encode data).

(** The stringified metadata, as the JSON object of the wire. *)
Definition _coerced_metadata (metadata : pyval) : result pyval :=
  match metadata with
  | PNone => Ok PNone
  | _ => m ← _coerce_metadata metadata; Ok (dict_of (map (λ kv, (kv.1, PStr kv.2)) (items_sorted m)))
  end.

Definition fields (l : list (string * pyval)) : pydict := map (λ kv, (PStr kv.1, kv.2)) l.
Definition store_fields (h : handle) : pydict := fields [("store", PStr (h_store h)); ("key", str_val (h_key h))].

(** The provenance and lifetime a write stamps, the narrowing of a read. *)
Record stamps := Stamps { ttl_seconds : option Z; agent_id : option string; run_id : option string }.
Definition agent_fields (s : stamps) : pydict := dict_opt "agent_id" (PStr <$> agent_id s) ++ dict_opt "run_id" (PStr <$> run_id s).
Definition stamp_fields (s : stamps) : pydict := dict_opt "ttl_seconds" (PInt <$> ttl_seconds s) ++ agent_fields s.
Definition no_stamps : stamps := Stamps None None None.

Definition text_document (doc : pyval) : result pyval :=
  text ← py_index doc "text"; id ← py_get doc "id" PNone; md ← py_get doc "metadata" PNone; md ← _coerced_metadata md;
  Ok (dict_of [("text", text); ("id", id); ("metadata", md)]).

Definition wire_vector_document (doc : pyval) : result pyval :=
  vector ← py_index doc "vector"; vector ← py_iter vector; text ← py_get doc "text" PNone; id ← py_get doc "id" PNone;
  md ← py_get doc "metadata" PNone; md ← _coerced_metadata md;
  Ok (dict_of [("vector", PList vector); ("text", text); ("id", id); ("metadata", md)]).

Definition fmin (a b : float) : float := if fltb b a then b else a.
Definition fmax (a b : float) : float := if fltb a b then b else a.
Definition quarter : float := fdiv (float_of_Z 1) (float_of_Z 4).
Definition fzero : float := float_of_Z 0.

(** [error.retry_after or d] *)
Definition retry_pause (e : exn) (d : float) : float :=
  match retry_after_of e with Some s => if feqb s fzero then d else s | None => d end.

(** [(x,) = l] *)
Definition only {A} (l : list A) : result A :=
  match l with
  | [x] => Ok x
  | [] => raise ValueError "not enough values to unpack (expected 1, got 0)"
  | _ => raise ValueError "too many values to unpack (expected 1)"
  end.

Section store.
Context {W : Type} `{Http W} `{Ambient W} `{SessionWorld W}.
Context (h : handle) (fuel : nat).

Definition get_session : st W session := st_read (λ w, Ok (session_of w)).
Definition set_session (s : session) : st W unit := st_update (with_session s).

(** ** Reading *)

Definition unprovisioned (e : exn) : bool :=
  bool_decide (status_code e = Some 404)
  && (str_contains "no such store" (exn_msg e) || str_contains "nothing has been pushed" (exn_msg e)).

Definition _empty_if_unprovisioned {A} (call : st W A) (empty : A) : st W A :=
  st_try call (λ e, if unprovisioned e then mret empty else st_lift (Err e)).

(** The [while True] of [_searched], for at most [fuel] calls. *)
Fixpoint search_loop (fuel : nat) (verb : string) (payload : pydict) (stop : float) : st W pyval :=
  match fuel with
  | O => st_lift (raise OutOfFuel "")
  | S fuel =>
      st_try (data_call verb (h_org h) (h_environment h) payload) (λ e,
        match status_code e with
        | None => st_lift (Err e)
        | Some status =>
            now ← monotonic;
            if negb (status =? 425) || fleb stop now then st_lift (Err e)
            else
              _ ← sleep (fmin (retry_pause e quarter) (fmax (fsub stop now) fzero));
              search_loop fuel verb payload stop
        end)
  end.

(** [payload["min_seq"] = self._last_seq] where the session has written. *)
Definition with_floor (seq : Z) (payload : pydict) : pydict :=
  if h_read_your_writes h && (0 <? seq) then dict_set "min_seq" (PInt seq) payload else payload.

Definition _searched (verb : string) (payload : pydict) (deadline : option float) : st W pyval :=
  s ← get_session;
  now ← monotonic;
  let stop := fadd now (h_write_visibility_timeout h) in
  search_loop fuel verb (with_floor (last_seq s) payload)
    (match deadline with Some d => fmin stop d | None => stop end).

Definition read_verb (verb : string) (payload : pydict) (empty : pyval) : st W pyval :=
  _empty_if_unprovisioned (_searched verb payload None) empty.

Record read_options := ReadOptions { ro_k : Z; ro_filter : pyval; ro_mode : pyval; ro_include_text : bool }.

Definition query_payload (what : list (string * pyval)) (o : read_options) (with_mode : bool) : pydict :=
  store_fields h ++ fields (what ++ [("k", PInt (ro_k o)); ("filter", ro_filter o)]
    ++ (if with_mode then [("mode", ro_mode o)] else []) ++ [("include_text", PBool (ro_include_text o))]).

Definition no_hits : pyval := dict_of [("hits", PList [])].
(** One empty hit list per query. *)
Definition no_results {A} (queries : list A) : pyval := dict_of [("results", PList (map (λ _, PList []) queries))].

Definition search (query : string) (o : read_options) : st W (list CloudSearchHit) :=
  result ← read_verb "/search" (query_payload [("query", PStr query)] o true) no_hits;
  st_lift (hits_of result "hits").
Definition search_many (queries : list string) (o : read_options) : st W (list (list CloudSearchHit)) :=
  result ← read_verb "/search-many" (query_payload [("queries", PList (map PStr queries))] o true) (no_results queries);
  st_lift (hit_lists result).
Definition search_by_vector (vector : list pyval) (o : read_options) : st W (list CloudSearchHit) :=
  result ← read_verb "/search" (query_payload [("query_vector", PList vector)] o false) no_hits;
  st_lift (hits_of result "hits").
Definition search_many_by_vector (vectors : list (list pyval)) (o : read_options) : st W (list (list CloudSearchHit)) :=
  result ← read_verb "/search-many" (query_payload [("query_vectors", PList (map PList vectors))] o false) (no_results vectors);
  st_lift (hit_lists result).
Definition search_by_image (image : pyval) (o : read_options) : st W (list CloudSearchHit) :=
  data ← image_data image;
  b64 ← st_lift (_image_b64 data);
  result ← read_verb "/search-image" (query_payload [("query_image_b64", PStr b64)] o false) no_hits;
  st_lift (hits_of result "hits").

Definition recall_hit (row : pyval) : result CloudSearchHit :=
  hit ← _hit row;
  matched ← py_get row "matched" (PList []);
  Ok (Hit (hit_score hit) (hit_id hit) (hit_metadata hit) (hit_text hit) matched).

Definition recall (text : string) (o : read_options) (by_agent : stamps) : st W (list CloudSearchHit) :=
  result ← read_verb "/recall" (query_payload [("text", PStr text)] o false ++ agent_fields by_agent) no_hits;
  rows ← st_lift (py_index result "hits");
  rows ← st_lift (py_iter rows);
  st_lift (mapR recall_hit rows).

Definition context_block (text : option string) (max_chars : Z) (by_agent : stamps) : st W pyval :=
  result ← read_verb "/context-block"
    (store_fields h ++ fields [("max_chars", PInt max_chars)] ++ dict_opt "text" (PStr <$> text) ++ agent_fields by_agent)
    (dict_of [("block", PStr ("# Context: user " +:+ h_store h))]);
  st_lift (py_index result "block").

(** ** Enumeration *)

Definition _browse_page (payload : pydict) (deadline : option float) : st W pyval :=
  result ← _empty_if_unprovisioned (_searched "/documents/browse" payload deadline) (dict_of [("documents", PList [])]);
  st_lift (py_index result "documents").

Record browse_options := BrowseOptions
  { bo_after : pyval; bo_limit : Z; bo_include_text : bool; bo_filter : pyval; bo_ids : option (list string);
    bo_order : option string; bo_stamps : stamps }.

Definition browse_payload (o : browse_options) : pydict :=
  store_fields h ++ fields [("after", bo_after o); ("limit", PInt (bo_limit o)); ("include_text", PBool (bo_include_text o));
                            ("filter", bo_filter o)]
  ++ dict_opt "ids" (PList ∘ map PStr <$> bo_ids o) ++ dict_opt "order" (PStr <$> bo_order o) ++ agent_fields (bo_stamps o).

Definition browse (o : browse_options) : st W pyval := _browse_page (browse_payload o) None.

Definition browse_ids (batch : list string) : st W pyval :=
  browse (BrowseOptions PNone 25 true PNone (Some batch) None no_stamps).

(** [str(row.get("id") or "")] *)
Definition row_id (row : pyval) : result string := id ← py_get row "id" PNone; Ok (py_str (py_or id (PStr ""))).

Definition record_of (row : pyval) : result pyval :=
  id ← row_id row;
  md ← py_get row "metadata" PNone;
  md ← py_dict (py_or md (PDict []));
  count ← py_get row "chunk_count" PNone;
  count ← py_int (py_or count (PInt 0));
  Ok (dict_of [("id", PStr id); ("metadata", PDict md); ("chunk_count", PInt count)]).

(** The budget of a walk: its length in seconds and its absolute end. *)
Definition budget : Type := float * float.

Definition budget_spent {A} (b : budget) : result A :=
  raise TimeoutError ("list_documents did not finish within " +:+ py_str (PFloat b.1)
    +:+ "s; narrow the filter, page with after/limit, or raise the timeout").

Definition check_deadline (deadline : option budget) : st W unit :=
  match deadline with
  | None => mret tt
  | Some b => now ← monotonic; if fleb b.2 now then st_lift (budget_spent b) else mret tt
  end.

Definition list_payload (filter cursor : pyval) (page_size : Z) : pydict :=
  store_fields h ++ fields [("after", cursor); ("limit", PInt page_size); ("include_text", PBool false); ("filter", filter)].

(** The page of a walk: a wait for visibility that outlives the budget is the walk's timeout. *)
Definition list_page (filter cursor : pyval) (page_size : Z) (deadline : option budget) : st W pyval :=
  st_try (_browse_page (list_payload filter cursor page_size) (snd <$> deadline)) (λ e,
    match status_code e, deadline with
    | Some 425, Some b => now ← monotonic; if fleb b.2 now then st_lift (budget_spent b) else st_lift (Err e)
    | _, _ => st_lift (Err e)
    end).

Definition too_many (max_documents : option Z) (n : nat) : bool :=
  match max_documents with Some m => m <? Z.of_nat n | None => false end.

(** The [while] of [list_documents], for at most [n] pages. *)
Fixpoint walk (n : nat) (filter : pyval) (max_documents : option Z) (deadline : option budget)
    (remaining : option Z) (cursor : pyval) (records : list pyval) : st W (list pyval) :=
  match n with
  | O => st_lift (raise OutOfFuel "")
  | S n =>
      if (match remaining with Some r => r <=? 0 | None => false end) then mret records
      else
        _ ← check_deadline deadline;
        let page_size := match remaining with Some r => Z.min r 100 | None => 100 end in
        page ← list_page filter cursor page_size deadline;
        _ ← check_deadline deadline;
        rows ← st_lift (py_iter page);
        more ← st_lift (mapR record_of rows);
        let records := records ++ more in
        if too_many max_documents (length records) then
          st_lift (raise ValueError ("more than " +:+ py_str (match max_documents with Some m => PInt m | None => PNone end)
            +:+ " documents match; narrow the filter or page with after/limit"))
        else if Z.of_nat (length rows) <? page_size then mret records
        else
          id ← st_lift (match last rows with Some row => row_id row | None => raise IndexError "list index out of range" end);
          if bool_decide (id = "") then mret records
          else walk n filter max_documents deadline ((λ r, r - Z.of_nat (length rows)) <$> remaining) (PStr id) records
  end.

Definition list_documents (filter after : pyval) (limit max_documents : option Z) (timeout : option float) : st W (list pyval) :=
  deadline ← (match timeout with
              | None => mret None
              | Some t => now ← monotonic; mret (Some (t, fadd now t))
              end);
  walk fuel filter max_documents deadline ((λ l, Z.max l 0) <$> limit) after [].

(** ** Writing *)

Definition _WRITE_TRANSPORT_RETRIES : nat := 2.
Definition _WRITE_CONFLICT_RETRIES : nat := 2.
Definition _RETRYABLE_WRITE_CONFLICT : string := "segment_object_missing".

(** [int(result.get("seq", 0) or 0)] *)
Definition seq_in (answer : pyval) : result Z := seq ← py_get answer "seq" (PInt 0); py_int (py_or seq (PInt 0)).

Definition raise_floor (seq : Z) : st W unit :=
  s ← get_session;
  if last_seq s <? seq then set_session (Session seq (last_write_id s)) else mret tt.

Definition note_write (write_id : pyval) : st W unit :=
  s ← get_session; set_session (Session (last_seq s) (Some (py_str write_id))).

Definition _accepted (result : pyval) : st W pyval :=
  seq ← st_lift (seq_in result);
  _ ← raise_floor seq;
  write_id ← st_lift (py_index result "write_id");
  _ ← note_write write_id;
  mret result.

(** The [while True] of [_written]: [transport] and [conflicts] are the retries left. *)
Fixpoint write_loop (rounds : nat) (verb : string) (payload : pydict) (transport_failures conflicts : nat) : st W pyval :=
  match rounds with
  | O => st_lift (raise OutOfFuel "")
  | S rounds =>
      st_try (result ← data_call verb (h_org h) (h_environment h) payload; _accepted result) (λ e,
        if bool_decide (exn_class e = TransportError) then
          if Nat.ltb _WRITE_TRANSPORT_RETRIES (S transport_failures) then st_lift (Err e)
          else _ ← sleep (fmul quarter (float_of_Z (Z.of_nat (S transport_failures))));
               write_loop rounds verb payload (S transport_failures) conflicts
        else if negb (bool_decide (status_code e = Some 409) && bool_decide (code e = Some _RETRYABLE_WRITE_CONFLICT)) then st_lift (Err e)
        else if Nat.ltb _WRITE_CONFLICT_RETRIES (S conflicts) then st_lift (Err e)
        else _ ← sleep (retry_pause e (fmul quarter (float_of_Z (Z.of_nat (S conflicts)))));
             write_loop rounds verb payload transport_failures (S conflicts))
  end.

(** Every retry of either kind, and the first attempt. *)
Definition write_rounds : nat := S (_WRITE_TRANSPORT_RETRIES + _WRITE_CONFLICT_RETRIES).

Definition _written (verb : string) (payload : pydict) : st W pyval :=
  key ← uuid4_hex;
  write_loop write_rounds verb (dict_set "idempotency_key" (PStr key) payload) 0 0.

Definition ids_of (answer : pyval) : result (list pyval) := ids ← py_index answer "ids"; py_iter ids.

Definition write_payload (documents : list pyval) (s : stamps) : pydict :=
  store_fields h ++ fields [("documents", PList documents)] ++ stamp_fields s.

Definition add_many (documents : list pyval) (s : stamps) : st W (list pyval) :=
  documents ← st_lift (mapR text_document documents);
  result ← _written "/documents" (write_payload documents s);
  st_lift (ids_of result).
Definition add (text : string) (id : option string) (metadata : pyval) (s : stamps) : st W pyval :=
  ids ← add_many [dict_of [("text", PStr text); ("id", str_val id); ("metadata", metadata)]] s;
  st_lift (only ids).
Definition add_vectors_many (documents : list pyval) (s : stamps) : st W (list pyval) :=
  documents ← st_lift (mapR wire_vector_document documents);
  result ← _written "/documents" (write_payload documents s);
  st_lift (ids_of result).
Definition add_vectors (vector : list pyval) (id text : option string) (metadata : pyval) (s : stamps) : st W pyval :=
  ids ← add_vectors_many [dict_of [("vector", PList vector); ("id", str_val id); ("text", str_val text); ("metadata", metadata)]] s;
  st_lift (only ids).

Definition image_document (doc : pyval) : st W pyval :=
  image ← st_lift (py_index doc "image");
  data ← image_data image;
  b64 ← st_lift (_image_b64 data);
  text ← st_lift (py_get doc "text" PNone);
  id ← st_lift (py_get doc "id" PNone);
  md ← st_lift (py_get doc "metadata" PNone);
  md ← st_lift (_coerced_metadata md);
  mret (dict_of [("image_b64", PStr b64); ("text", text); ("id", id); ("metadata", md)]).
Fixpoint image_documents (documents : list pyval) : st W (list pyval) :=
  match documents with
  | [] => mret []
  | doc :: documents => d ← image_document doc; ds ← image_documents documents; mret (d :: ds)
  end.
Definition cloud_add_images (documents : list pyval) (s : stamps) : st W (list pyval) :=
  documents ← image_documents documents;
  result ← _written "/images" (write_payload documents s);
  st_lift (ids_of result).
Definition add_image (image : pyval) (id text : option string) (metadata : pyval) (s : stamps) : st W pyval :=
  ids ← cloud_add_images [dict_of [("image", image); ("id", str_val id); ("text", str_val text); ("metadata", metadata)]] s;
  st_lift (only ids).

Definition cloud_remove_many (ids : list string) : st W string :=
  if bool_decide (ids = []) then st_lift (raise ValueError "ids is empty — nothing to remove")
  else
    result ← _written "/documents/remove" (store_fields h ++ fields [("ids", PList (map PStr ids))]);
    write_id ← st_lift (py_index result "write_id");
    mret (py_str write_id).
Definition cloud_remove (id : string) : st W string := cloud_remove_many [id].

Definition delete_memories (by_agent : stamps) : st W pyval :=
  result ← data_call "/memories/delete" (h_org h) (h_environment h) (store_fields h ++ agent_fields by_agent);
  write_ids ← st_lift (py_get result "write_ids" (PList []));
  write_ids ← st_lift (py_iter write_ids);
  _ ← forS note_write write_ids;
  max_seq ← st_lift (py_get result "max_seq" PNone);
  _ ← (if is_none max_seq then mret tt else seq ← st_lift (py_int max_seq); raise_floor seq);
  mret result.

(** The [while True] of [wait_for], for at most [fuel] polls. *)
Fixpoint wait_loop (fuel : nat) (write_id : string) (deadline : budget) : st W pyval :=
  match fuel with
  | O => st_lift (raise OutOfFuel "")
  | S fuel =>
      status ← write_status (h_org h) (h_environment h) (h_store h) write_id (h_key h);
      state ← st_lift (py_index status "state");
      if same_id state (PStr "folded") then mret status
      else if same_id state (PStr "condemned") then
        error ← st_lift (py_get status "error" PNone);
        st_lift (cloud_error 502 ("this write could not be applied (segment condemned: " +:+ py_str error
          +:+ ") — resubmit the documents") None)
      else
        now ← monotonic;
        if fleb deadline.2 now then
          st_lift (raise TimeoutError ("write " +:+ write_id +:+ " did not fold within " +:+ py_str (PFloat deadline.1)
            +:+ "s (it stays queued and will still be applied)"))
        else _ ← sleep quarter; wait_loop fuel write_id deadline
  end.
Definition wait_for (write_id : string) (timeout : float) : st W pyval :=
  now ← monotonic; wait_loop fuel write_id (timeout, fadd now timeout).

(** ** Texts *)

Definition _get_text_by_id (id : string) : st W pyval :=
  result ← _empty_if_unprovisioned (store_text (h_org h) (h_environment h) (h_store h) id (h_key h))
             (dict_of [("found", PBool false); ("text", PNone)]);
  found ← st_lift (py_index result "found");
  if truthy found then st_lift (py_index result "text") else mret PNone.
Definition cloud_get : string → st W pyval := _get_text_by_id.

(** [list(dict.fromkeys(str(id) for id in ids))] *)
Definition unique_ids (ids : list string) : list string := (put_items [] (map (λ id, (id, tt)) ids)).*1.

(** The loop over the ids that have no text yet. *)
Fixpoint read_missing (ids : list string) (texts : list (string * pyval)) : st W (list (string * pyval)) :=
  match ids with
  | [] => mret texts
  | id :: ids =>
      match get_item id texts with
      | Some _ => read_missing ids texts
      | None => text ← _get_text_by_id id; read_missing ids (if is_none text then texts else put_item id text texts)
      end
  end.

Fixpoint texts_by_id (ids : list string) (texts : list (string * pyval)) : st W (list (string * pyval)) :=
  match ids with
  | [] => mret texts
  | id :: ids => text ← _get_text_by_id id; texts_by_id ids (if is_none text then texts else put_item id text texts)
  end.
Definition _get_texts_by_id (ids : list string) : st W (list (string * pyval)) := texts_by_id ids [].

(** [doc.get("id") in wanted] *)
Definition wanted_doc (batch : list string) (doc : pyval) : result bool :=
  id ← py_get doc "id" PNone;
  if negb (py_hashable id) then raise TypeError "unhashable type"
  else Ok (match id with PStr s => str_in s batch | _ => false end).

(** [any(doc.get("id") not in wanted for doc in page)] *)
Fixpoint any_stray (batch : list string) (page : list pyval) : result bool :=
  match page with
  | [] => Ok false
  | doc :: page => w ← wanted_doc batch doc; if (w : bool) then any_stray batch page else Ok true
  end.

Definition take_text (texts : list (string * pyval)) (doc : pyval) : result (list (string * pyval)) :=
  text ← py_get doc "text" PNone;
  if is_none text then Ok texts
  else id ← py_index doc "id"; text ← py_index doc "text"; Ok (match id with PStr s => put_item s text texts | _ => texts end).

(** The pages of a hundred; none when the control plane must be asked id by id. *)
Fixpoint batch_texts (batches : list (list string)) (texts : list (string * pyval)) : st W (option (list (string * pyval))) :=
  match batches with
  | [] => mret (Some texts)
  | batch :: batches =>
      page ← st_try (page ← browse_ids batch; mret (Some page)) (λ e,
        if bool_decide (status_code e = Some 403) then mret None else st_lift (Err e));
      match page with
      | None => mret None
      | Some page =>
          page ← st_lift (py_iter page);
          stray ← st_lift (any_stray batch page);
          if (stray : bool) then mret None
          else texts ← st_lift (foldR take_text texts page); batch_texts batches texts
      end
  end.

Definition get_texts (ids : list string) : st W (list (string * pyval)) :=
  let requested := unique_ids ids in
  texts ← batch_texts (batches 100 requested) [];
  match texts with
  | None => _get_texts_by_id requested
  | Some texts => read_missing requested texts
  end.

(** ** Statistics *)

Definition stats (warm : bool) : st W pyval := serving_stats (h_org h) (h_environment h) (h_store h) (h_key h) warm.
Definition count : st W Z :=
  s ← _empty_if_unprovisioned (stats false) (PDict []);
  n ← st_lift (py_get s "document_count" (PInt 0));
  st_lift (py_int (py_or n (PInt 0))).
End store.

(** ** Sessions *)

Section lifts.
Context {W : Type}.
(** A call on the outside, which does not touch the handle's attributes. *)
Definition beside {X A} (m : st W A) : st (X * W) A := λ s, let '(r, w) := m s.2 in (r, (s.1, w)).
(** A call that leaves no trace. *)
Definition silent {E A} (m : st W A) : st (W * list E) A := λ s, let '(r, w) := m s.1 in (r, (w, s.2)).
End lifts.

Definition sent : Type := request * result response.

Global Instance session_http {W} `{Http W} : Http (session * W) := λ r, beside (send r).
Global Instance session_ambient {W} `{Ambient W} : Ambient (session * W) :=
  {| monotonic := beside monotonic; sleep d := beside (sleep d); uuid4_hex := beside uuid4_hex; image_data v := beside (image_data v) |}.
Global Instance session_world {W} : SessionWorld (session * W) := {| session_of := fst; with_session s w := (s, w.2) |}.

Global Instance log_http {W} `{Http W} : Http (W * list sent) := λ r, logged (λ a, (r, a)) (send r).
Global Instance log_ambient {W} `{Ambient W} : Ambient (W * list sent) :=
  {| monotonic := silent monotonic; sleep d := silent (sleep d); uuid4_hex := silent uuid4_hex; image_data v := silent (image_data v) |}.
Global Instance log_session {W} `{SessionWorld W} : SessionWorld (W * list sent) :=
  {| session_of w := session_of w.1; with_session s w := (with_session s w.1, w.2) |}.

(** What a caller does with a handle. *)
Inductive op :=
| OpSearch (query : string) (o : read_options) | OpSearchMany (queries : list string) (o : read_options)
| OpSearchByVector (vector : list pyval) (o : read_options) | OpSearchManyByVector (vectors : list (list pyval)) (o : read_options)
| OpSearchByImage (image : pyval) (o : read_options) | OpRecall (text : string) (o : read_options) (s : stamps)
| OpContextBlock (text : option string) (max_chars : Z) (s : stamps) | OpBrowse (o : browse_options)
| OpListDocuments (filter after : pyval) (limit max_documents : option Z) (timeout : option float)
| OpAddMany (documents : list pyval) (s : stamps) | OpAddVectors (documents : list pyval) (s : stamps)
| OpAddImages (documents : list pyval) (s : stamps) | OpRemove (ids : list string) | OpDeleteMemories (s : stamps)
| OpWaitFor (write_id : string) (timeout : float) | OpGet (id : string) | OpGetTexts (ids : list string)
| OpStats (warm : bool) | OpCount.

Section ops.
Context {W : Type} `{Http W} `{Ambient W} `{SessionWorld W}.
Context (h : handle) (fuel : nat).

Definition done_with {A} (m : st W A) : st W unit := _ ← m; mret tt.

Definition run_op (o : op) : st W unit :=
  match o with
  | OpSearch q o => done_with (search h fuel q o)
  | OpSearchMany qs o => done_with (search_many h fuel qs o)
  | OpSearchByVector v o => done_with (search_by_vector h fuel v o)
  | OpSearchManyByVector vs o => done_with (search_many_by_vector h fuel vs o)
  | OpSearchByImage i o => done_with (search_by_image h fuel i o)
  | OpRecall t o s => done_with (recall h fuel t o s)
  | OpContextBlock t n s => done_with (context_block h fuel t n s)
  | OpBrowse o => done_with (browse h fuel o)
  | OpListDocuments f a l m t => done_with (list_documents h fuel f a l m t)
  | OpAddMany docs s => done_with (add_many h docs s)
  | OpAddVectors docs s => done_with (add_vectors_many h docs s)
  | OpAddImages docs s => done_with (cloud_add_images h docs s)
  | OpRemove ids => done_with (cloud_remove_many h ids)
  | OpDeleteMemories s => done_with (delete_memories h s)
  | OpWaitFor w t => done_with (wait_for h fuel w t)
  | OpGet id => done_with (cloud_get h id)
  | OpGetTexts ids => done_with (get_texts h fuel ids)
  | OpStats warm => done_with (stats h warm)
  | OpCount => done_with (count h)
  end.

(** The caller goes on after an exception. *)
Definition session_run (ops : list op) : st W unit := forS (λ o, st_try (run_op o) (λ _, mret tt)) ops.
End ops.

(** ** What a session asks for *)

Definition read_verbs : list string :=
  ["/search"; "/search-many"; "/search-image"; "/recall"; "/context-block"; "/documents/browse"].
Definition write_verbs : list string := ["/documents"; "/images"; "/documents/remove"].

Section floor.
Context (h : handle).

Definition to_verb (verb : string) (r : request) : bool := bool_decide (rq_path r = data_path (h_org h) (h_environment h) verb).

Definition delete_seq (answer : pyval) : result Z :=
  write_ids ← py_get answer "write_ids" (PList []);
  _ ← py_iter write_ids;
  max_seq ← py_get answer "max_seq" PNone;
  if is_none max_seq then Ok 0 else py_int max_seq.

(** The sequence number an answered write acknowledges. *)
Definition acked (e : sent) : Z :=
  match (answer ← answered e.2;
         if existsb (λ v, to_verb v e.1) write_verbs then seq_in answer
         else if to_verb "/memories/delete" e.1 then delete_seq answer else Ok 0) with
  | Ok z => z
  | Err _ => 0
  end.

(** The highest acknowledged sequence number. *)
Definition floor (past : list sent) : Z := fold_left (λ m e, Z.max m (acked e)) past 0.

Definition min_seq (r : request) : option pyval := match rq_body r with JsonBody (PDict d) => dict_get "min_seq" d | _ => None end.

(** A read asks for exactly what the session was acknowledged. *)
Definition read_ok (past : list sent) (r : request) : Prop :=
  existsb (λ v, to_verb v r) read_verbs = true →
  min_seq r = if h_read_your_writes h && (0 <? floor past) then Some (PInt (floor past)) else None.

Fixpoint reads_ok (past log : list sent) : Prop :=
  match log with [] => True | e :: log => read_ok past e.1 ∧ reads_ok (past ++ [e]) log end.

Lemma floor_snoc past e : floor (past ++ [e]) = Z.max (floor past) (acked e).
Proof. unfold floor. by rewrite fold_left_app. Qed.

Lemma reads_ok_snoc past log e : reads_ok past (log ++ [e]) ↔ reads_ok past log ∧ read_ok (past ++ log) e.1.
Proof.
  revert past. induction log as [|x log IH]; intros past; cbn; [by rewrite app_nil_r; tauto|].
  rewrite IH, <-app_assoc. tauto.
Qed.

Lemma floor_nonneg past : 0 ≤ floor past.
Proof. induction past as [|e past IH] using rev_ind; [done|]. rewrite floor_snoc. lia. Qed.
End floor.
#[global] Arguments floor : simpl never.
#[global] Arguments acked : simpl never.

Section sessions.
Context {W : Type} {HttpW : Http W} {AmbientW : Ambient W}.
Context (h : handle) (fuel : nat).
Local Notation world := ((session * W) * list sent)%type.

(** Every read so far asked for what was acknowledged, and the handle holds exactly that. *)
Definition in_session (s : world) : Prop := reads_ok h [] s.2 ∧ last_seq s.1.1 = floor h s.2.

Lemma request_run r (s : world) : ∃ a w, _request r s = (answered a, ((s.1.1, w), s.2 ++ [(r, a)])).
Proof.
  destruct s as [[sess w] l]. unfold _request, send, log_http, logged, session_http, beside. rewrite st_bind_run. cbn.
  unfold send. cbn. destruct (HttpW r w) as [a w']. exists a, w'. destruct a; reflexivity.
Qed.

(** A request that acknowledges nothing and is no read, or a read that asks for the floor. *)
Lemma request_keeps (s : world) r : in_session s → read_ok h s.2 r → (∀ a, acked h (r, a) = 0) →
  in_session (_request r s).2 ∧ (_request r s).2.1.1 = s.1.1.
Proof.
  intros [Hr Hf] Hok Ha. destruct (request_run r s) as (a & w & ->). cbn. split; [|done]. split; cbn.
  - apply reads_ok_snoc. by split.
  - rewrite floor_snoc, Ha. pose proof (floor_nonneg h s.2). lia.
Qed.

(** Pauses, clock and keys. *)
Lemma ambient_keeps {A} (m : st W A) (I : world → Prop) : (∀ s w, I s → I ((s.1.1, w), s.2)) →
  keeps I (silent (beside m)).
Proof.
  intros HI [[sess w] l] Hs. unfold silent, beside. cbn. destruct (m w) as [r w']. cbn. by apply (HI ((sess, w), l)).
Qed.

Lemma data_path_inj org environment v1 v2 : data_path org environment v1 = data_path org environment v2 → v1 = v2.
Proof. intros Heq. by repeat apply sapp_inj_l in Heq. Qed.

Lemma to_verb_data v1 v2 d : to_verb h v1 (data_request v2 (h_org h) (h_environment h) d) = bool_decide (v1 = v2).
Proof.
  unfold to_verb, data_request. cbn. apply bool_decide_ext. split; [by intros ?%data_path_inj|by intros ->].
Qed.

(** Within one read, the session's floor is fixed. *)
Definition reading (m : Z) (s : world) : Prop := in_session s ∧ last_seq s.1.1 = m.

Lemma acked_read verb d a : verb ∈ read_verbs → acked h (data_request verb (h_org h) (h_environment h) d, a) = 0.
Proof.
  intros Hv. unfold acked. cbn [fst]. destruct (answered _) as [v|]; [|done]. cbn [mbind result_bind].
  unfold write_verbs. cbn [existsb]. rewrite !to_verb_data.
  apply list_elem_of_In in Hv. by repeat destruct Hv as [<-|Hv].
Qed.

Lemma dict_get_floor m d : dict_get "min_seq" d = None →
  dict_get "min_seq" (with_floor h m d) = if h_read_your_writes h && (0 <? m) then Some (PInt m) else None.
Proof. intros Hd. unfold with_floor. destruct (_ && _); [apply dict_get_set_eq|done]. Qed.

Lemma search_loop_keeps n verb d stop m : verb ∈ read_verbs → dict_get "min_seq" d = None →
  keeps (reading m) (search_loop (W:=world) h n verb (with_floor h m d) stop).
Proof.
  intros Hv Hd. assert (Hamb : ∀ (s : world) w, reading m s → reading m ((s.1.1, w), s.2)) by done.
  induction n as [|n IH]; cbn [search_loop]; [keeps_step|]. keeps_step.
  - intros s [Hs Hm]. unfold data_call.
    destruct (request_keeps s (data_request verb (h_org h) (h_environment h) (with_floor h m d))) as [Hs' Hm']; [done|..].
    + intros _. unfold min_seq. cbn. rewrite dict_get_floor by done. destruct Hs as [_ Hf]. by rewrite <-Hf, Hm.
    + intros a. by apply acked_read.
    + split; [done|]. by rewrite Hm'.
  - keeps_step; [|keeps_step]. keeps_step; [by apply ambient_keeps|]. keeps_step; [keeps_step|].
    keeps_step; [by apply ambient_keeps|apply IH].
Qed.

Lemma searched_keeps verb d deadline : verb ∈ read_verbs → dict_get "min_seq" d = None →
  keeps in_session (_searched (W:=world) h fuel verb d deadline).
Proof.
  intros Hv Hd s Hs. assert (Hamb : ∀ (s : world) w, in_session s → in_session ((s.1.1, w), s.2)) by done.
  unfold _searched. rewrite st_bind_run. cbn [get_session st_read].
  assert (Hr : reading (last_seq (session_of s)) s) by done. revert Hr. generalize (last_seq (session_of s)) as m. intros m Hr.
  enough (Hk : keeps (reading m) (now ← monotonic;
    search_loop h fuel verb (with_floor h m d) match deadline with Some d => fmin (fadd now (h_write_visibility_timeout h)) d | None => fadd now (h_write_visibility_timeout h) end))
    by exact (proj1 (Hk s Hr)).
  keeps_step; [by apply ambient_keeps|]. by apply search_loop_keeps.
Qed.

(** Between the answer of a write and the moment the handle takes note of it. *)
Definition owed (seq : Z) (s : world) : Prop :=
  reads_ok h [] s.2 ∧ Z.max (last_seq s.1.1) seq = floor h s.2 ∧ 0 ≤ last_seq s.1.1.

Lemma request_owes (s : world) verb d : in_session s → existsb (λ v, bool_decide (v = verb)) read_verbs = false →
  ∃ a, let r := data_request verb (h_org h) (h_environment h) d in
    (_request r s).1 = answered a ∧ owed (acked h (r, a)) (_request r s).2.
Proof.
  intros [Hr Hf] Hv. set (r := data_request _ _ _ _). destruct (request_run r s) as (a & w & Hrun). exists a. cbn zeta. rewrite Hrun. cbn. split; [done|]. split; cbn.
  - apply reads_ok_snoc. split; [done|]. intros Hread. exfalso. cbn [fst] in Hread. revert Hread Hv. unfold r. generalize read_verbs. intros l.
    induction l as [|v l IH]; [done|]. cbn [existsb]. rewrite to_verb_data. intros [Hv|Hv]%orb_true_iff [Hn Hl]%orb_false_iff; [congruence|auto].
  - rewrite floor_snoc. rewrite Hf. split; [done|]. apply floor_nonneg.
Qed.

Lemma owed_none seq s : seq ≤ 0 → owed seq s → in_session s.
Proof. intros Hs (Hr & Hf & Hl). split; [done|lia]. Qed.

Lemma raise_floor_keeps seq s : owed seq s → in_session (raise_floor (W:=world) seq s).2.
Proof.
  intros (Hr & Hf & Hl). unfold raise_floor. rewrite st_bind_run. cbn. destruct (Z.ltb_spec (last_seq s.1.1) seq) as [Hlt|Hge]; split; cbn; try done; lia.
Qed.

Lemma note_write_keeps v : keeps in_session (note_write (W:=world) v).
Proof. intros s [Hr Hf]. by split. Qed.

Lemma acked_write verb d a v : verb ∈ write_verbs → answered a = Ok v →
  acked h (data_request verb (h_org h) (h_environment h) d, a) = match seq_in v with Ok z => z | Err _ => 0 end.
Proof.
  intros Hv Ha. unfold acked. cbn [fst snd]. rewrite Ha. cbn [mbind result_bind].
  replace (existsb _ write_verbs) with true; [done|]. symmetry. apply existsb_exists. exists verb.
  rewrite to_verb_data, bool_decide_eq_true. split; [by apply list_elem_of_In|done].
Qed.

Lemma acked_refused verb d a e : answered a = Err e → acked h (data_request verb (h_org h) (h_environment h) d, a) = 0.
Proof. intros Ha. unfold acked. cbn [fst snd]. by rewrite Ha. Qed.

Lemma accepted_write_keeps verb d : verb ∈ write_verbs →
  keeps in_session (result ← data_call (W:=world) verb (h_org h) (h_environment h) d; _accepted result).
Proof.
  intros Hv s Hs. rewrite st_bind_run. unfold data_call.
  destruct (request_owes s verb d Hs) as (a & Ha & Ho).
  { apply list_elem_of_In in Hv. by repeat destruct Hv as [<-|Hv]. }
  cbn zeta in *. destruct (_request _ s) as [res s1]. cbn [fst snd] in *. subst res.
  destruct (answered a) as [v|e] eqn:Hans.
  - rewrite (acked_write verb d a v Hv Hans) in Ho. unfold _accepted. rewrite st_bind_run. cbn [st_lift].
    destruct (seq_in v) as [seq|e]; [|by eapply owed_none]. rewrite st_bind_run.
    pose proof (raise_floor_keeps seq s1 Ho) as Hr. destruct (raise_floor seq s1) as [[[]|e] s2]; cbn in Hr; [|done].
    refine ((_ : keeps in_session (write_id ← st_lift (py_index v "write_id"); _ ← note_write (W:=world) write_id; mret v)) s2 Hr).
    keeps_step; [keeps_step|]. keeps_step; [apply note_write_keeps|keeps_step].
  - rewrite (acked_refused verb d a e Hans) in Ho. cbn. by eapply owed_none.
Qed.

Lemma silent_keeps {A} (m : st W A) : keeps in_session (silent (beside m)).
Proof. by apply ambient_keeps. Qed.

Lemma write_loop_keeps n verb d t c : verb ∈ write_verbs → keeps in_session (write_loop (W:=world) h n verb d t c).
Proof.
  intros Hv. revert t c. induction n as [|n IH]; intros t c; cbn [write_loop]; [keeps_step|].
  keeps_step; [by apply accepted_write_keeps|].
  repeat first [keeps_step | apply silent_keeps | apply IH].
Qed.

Lemma written_keeps verb d : verb ∈ write_verbs → keeps in_session (_written (W:=world) h verb d).
Proof. intros Hv. unfold _written. keeps_step; [apply silent_keeps|by apply write_loop_keeps]. Qed.

Lemma notes_run l s : ∃ s', forS (note_write (W:=world)) l s = (Ok tt, s') ∧ ∀ m, owed m s → owed m s'.
Proof.
  revert s. induction l as [|x l IH]; intros s; cbn; [by eexists|]. rewrite st_bind_run. cbn.
  destruct (IH (Session (last_seq s.1.1) (Some (py_str x)), s.1.2, s.2)) as (s' & Hrun & Hk). exists s'. split; [exact Hrun|].
  intros m Hm. by apply Hk.
Qed.

Lemma delete_keeps s : keeps in_session (delete_memories (W:=world) h s).
Proof.
  intros s0 Hs. unfold delete_memories. rewrite st_bind_run. unfold data_call.
  destruct (request_owes s0 "/memories/delete" (store_fields h ++ agent_fields s) Hs eq_refl) as (a & Ha & Ho).
  cbn zeta in *. destruct (_request _ s0) as [res s1]. cbn [fst snd] in *. subst res.
  destruct (answered a) as [v|e] eqn:Hans; [|rewrite (acked_refused _ _ _ e Hans) in Ho; cbn; by eapply owed_none].
  assert (Hd : acked h (data_request "/memories/delete" (h_org h) (h_environment h) (store_fields h ++ agent_fields s), a)
    = match delete_seq v with Ok z => z | Err _ => 0 end).
  { unfold acked. cbn [fst snd]. rewrite Hans. cbn [mbind result_bind].
    unfold write_verbs. cbn [existsb]. rewrite !to_verb_data. reflexivity. }
  rewrite Hd in Ho. unfold delete_seq in Ho. clear Hd Hans.
  rewrite st_bind_run. cbn [st_lift]. destruct (py_get v "write_ids" (PList [])) as [ids|e]; cbn [mbind result_bind] in Ho; [|by eapply owed_none].
  rewrite st_bind_run. cbn [st_lift]. destruct (py_iter ids) as [l|e]; cbn [mbind result_bind] in Ho; [|by eapply owed_none].
  destruct (notes_run l s1) as (s2 & Hrun & Hnotes). apply Hnotes in Ho as Ho2. rewrite st_bind_run, Hrun, st_bind_run. cbn [st_lift].
  destruct (py_get v "max_seq" PNone) as [m|e]; cbn [mbind result_bind] in Ho2; [|by eapply owed_none].
  rewrite st_bind_run. destruct (is_none m); [cbn; by eapply owed_none|]. rewrite st_bind_run. cbn [st_lift].
  destruct (py_int m) as [z|e]; [|cbn; by eapply owed_none].
  pose proof (raise_floor_keeps z s2 Ho2) as Hr. by destruct (raise_floor z s2) as [[[]|e] s3].
Qed.

Lemma other_keeps r : existsb (λ v, to_verb h v r) ("/memories/delete" :: read_verbs ++ write_verbs) = false →
  keeps in_session (_request (W:=world) r).
Proof.
  intros Hr s Hs. cbn [existsb] in Hr. rewrite existsb_app in Hr. apply orb_false_iff in Hr as [Hd [Hr Hw]%orb_false_iff].
  apply request_keeps; [done|by intros Hread; rewrite Hread in Hr|]. intros a. unfold acked. cbn [fst].
  destruct (answered _); [|done]. cbn [mbind result_bind]. by rewrite Hw, Hd.
Qed.

(** A path under [/text], [/writes/] or [/serving-stats] is none of the verbs. *)
Lemma other_path r suffix : rq_path r = data_path (h_org h) (h_environment h) suffix →
  suffix ∉ "/memories/delete" :: read_verbs ++ write_verbs → keeps in_session (_request (W:=world) r).
Proof.
  intros Hp Hs. apply other_keeps, not_true_is_false. intros (v & Hv & Heq)%existsb_exists.
  apply bool_decide_eq_true in Heq. rewrite Hp in Heq. apply data_path_inj in Heq as ->. by apply Hs, list_elem_of_In.
Qed.

Lemma text_keeps id : keeps in_session (store_text (W:=world) (h_org h) (h_environment h) (h_store h) id (h_key h)).
Proof. by apply (other_path _ "/text"); [|apply (bool_decide_eq_false_1 (_ ∈ _))]. Qed.

Lemma stats_keeps warm : keeps in_session (stats (W:=world) h warm).
Proof. by apply (other_path _ "/serving-stats"); [|apply (bool_decide_eq_false_1 (_ ∈ _))]. Qed.

Lemma status_keeps write_id :
  keeps in_session (write_status (W:=world) (h_org h) (h_environment h) (h_store h) write_id (h_key h)).
Proof.
  apply (other_path _ ("/writes/" +:+ write_id)); [done|].
  intros Hin%list_elem_of_In. repeat destruct Hin as [[=]|Hin]. done.
Qed.

(** A payload of the handle carries no floor of its own. *)
Ltac no_floor := unfold query_payload, browse_payload, list_payload, agent_fields, dict_opt;
  repeat match goal with |- context [match ?x with Some _ => _ | None => _ end] => destruct x end; reflexivity.
Lemma read_verb_keeps verb d empty : verb ∈ read_verbs → dict_get "min_seq" d = None →
  keeps in_session (read_verb (W:=world) h fuel verb d empty).
Proof. intros Hv Hd. unfold read_verb, _empty_if_unprovisioned. keeps_step; [by apply searched_keeps|]. by repeat keeps_step. Qed.

Lemma browse_keeps d deadline : dict_get "min_seq" d = None → keeps in_session (_browse_page (W:=world) h fuel d deadline).
Proof.
  intros Hd. unfold _browse_page, _empty_if_unprovisioned. keeps_step; [keeps_step|]; [|by repeat keeps_step|by repeat keeps_step].
  apply searched_keeps; [set_unfold; tauto|done].
Qed.

Lemma walk_keeps n filter m deadline remaining cursor records :
  keeps in_session (walk (W:=world) h fuel n filter m deadline remaining cursor records).
Proof.
  revert remaining cursor records. induction n as [|n IH]; intros; cbn [walk]; [keeps_step|].
  unfold check_deadline, list_page. repeat first [keeps_step | apply silent_keeps | apply IH | apply browse_keeps; reflexivity].
Qed.

Lemma text_by_id_keeps id : keeps in_session (_get_text_by_id (W:=world) h id).
Proof. unfold _get_text_by_id, _empty_if_unprovisioned. repeat first [keeps_step | apply text_keeps]. Qed.

Lemma get_texts_keeps ids : keeps in_session (get_texts (W:=world) h fuel ids).
Proof.
  assert (Hmiss : ∀ l texts, keeps in_session (read_missing (W:=world) h l texts)).
  { induction l as [|id l IH]; intros texts; cbn [read_missing]; repeat first [keeps_step | apply text_by_id_keeps | apply IH]. }
  assert (Hby : ∀ l texts, keeps in_session (texts_by_id (W:=world) h l texts)).
  { induction l as [|id l IH]; intros texts; cbn [texts_by_id]; repeat first [keeps_step | apply text_by_id_keeps | apply IH]. }
  assert (Hbatch : ∀ bs texts, keeps in_session (batch_texts (W:=world) h fuel bs texts)).
  { induction bs as [|b bs IH]; intros texts; cbn [batch_texts]; [keeps_step|].
    repeat first [keeps_step | apply browse_keeps; reflexivity | apply IH]. }
  unfold get_texts, _get_texts_by_id. keeps_step; [apply Hbatch|]. by keeps_step.
Qed.

Lemma images_keep docs : keeps in_session (image_documents (W:=world) docs).
Proof. induction docs as [|d docs IH]; cbn [image_documents]; unfold image_document; repeat first [keeps_step | apply silent_keeps | apply IH]. Qed.

Lemma wait_keeps n id deadline : keeps in_session (wait_loop (W:=world) h n id deadline).
Proof. induction n as [|n IH]; cbn [wait_loop]; repeat first [keeps_step | apply status_keeps | apply silent_keeps | apply IH]. Qed.

Lemma op_keeps o : keeps in_session (run_op (W:=world) h fuel o).
Proof.
  destruct o; cbn [run_op]; unfold done_with; keeps_step; try keeps_step;
    unfold search, search_many, search_by_vector, search_many_by_vector, search_by_image, recall, context_block, browse,
      list_documents, add_many, add_vectors_many, cloud_add_images, cloud_remove_many, wait_for, cloud_get, count, _empty_if_unprovisioned;
    repeat first [ keeps_step | apply silent_keeps | apply images_keep | apply text_by_id_keeps | apply get_texts_keeps | apply stats_keeps
      | apply delete_keeps | apply wait_keeps | apply walk_keeps | apply written_keeps; set_unfold; tauto
      | apply browse_keeps; no_floor | apply read_verb_keeps; [set_unfold; tauto|no_floor] ].
Qed.
End sessions.

(** C24: a session reads its own writes: whatever a caller does with a handle, in whatever order and with
    whatever failures, every search, recall, context and browse request carries as [min_seq] exactly the
    highest sequence number the server has acknowledged to this handle before (through add, add_images,
    add_vectors, remove and delete_memories), and none where nothing was acknowledged or the handle
    opted out ([read_your_writes=False]). Texts by id, statistics and counts are read without a floor
    ([stats_without_floor]): they may be older than the session's writes. *)
Theorem session_reads_its_writes {W} {HttpW : Http W} {AmbientW : Ambient W} (h : handle) (fuel : nat) (ops : list op) (w : W) :
  reads_ok h [] (snd (snd (session_run (W:=(session * W) * list sent) h fuel ops ((Session 0 None, w), [])))).
Proof.
  assert (Hk : keeps (in_session h) (session_run (W:=(session * W) * list sent) h fuel ops)).
  { unfold session_run. keeps_step. keeps_step; [apply op_keeps|keeps_step]. }
  apply Hk. by split.
Qed.

(** ** Writing once *)

(** The rounds of [write_loop] are enough: with more of them it does the same. *)
Lemma write_loop_enough {W} `{Http W} `{Ambient W} `{SessionWorld W} h verb payload n t c : (t ≤ 2)%nat → (c ≤ 2)%nat →
  ∀ w, write_loop (W:=W) h (5 - t - c + n) verb payload t c w = write_loop h (5 - t - c) verb payload t c w.
Proof.
  remember (5 - t - c)%nat as k eqn:Hk. revert t c Hk. induction k as [|k IH]; intros t c Hk Ht Hc w; [lia|].
  cbn [Nat.add write_loop]. unfold st_try.
  match goal with |- match ?x with _ => _ end = _ => destruct x as [[v|e] w1] end; [done|].
  destruct (bool_decide _).
  - destruct (Nat.ltb_spec _WRITE_TRANSPORT_RETRIES (S t)) as [Hlt|Hge]; [done|]. unfold _WRITE_TRANSPORT_RETRIES in Hge.
    rewrite !st_bind_run. destruct (sleep _ w1) as [[[]|e'] w2]; [|done]. apply IH; lia.
  - destruct (negb _); [done|]. destruct (Nat.ltb_spec _WRITE_CONFLICT_RETRIES (S c)) as [Hlt|Hge]; [done|]. unfold _WRITE_CONFLICT_RETRIES in Hge.
    rewrite !st_bind_run. destruct (sleep _ w1) as [[[]|e'] w2]; [|done]. apply IH; lia.
Qed.

(** The idempotency key of a request. *)
Definition key_in (r : request) : option pyval :=
  match rq_body r with JsonBody (PDict d) => dict_get "idempotency_key" d | _ => None end.

Section once.
Context {W : Type} {HttpW : Http W} {AmbientW : Ambient W}.

(** What the server promises of keyed writes: a key is registered at most once, and a request is
    accepted only once its key is; pauses and new keys register nothing. *)
Record dedup_server (registered : W → list string) : Prop := {
  ds_send : ∀ r k w, key_in r = Some (PStr k) →
    (registered (send r w).2 = registered w ∨ k ∉ registered w ∧ registered (send r w).2 = registered w ++ [k]) ∧
    ∀ v, answered (send r w).1 = Ok v → k ∈ registered (send r w).2;
  ds_sleep : ∀ d w, registered (sleep d w).2 = registered w;
  ds_key : ∀ w, ∃ k, (uuid4_hex w).1 = Ok k ∧ k ∉ registered w ∧ registered (uuid4_hex w).2 = registered w }.

Context (registered : W → list string) (Hserver : dedup_server registered).
Context (h : handle).
Local Notation world := ((session * W) * list sent)%type.

(** What one key can have left registered, and the requests sent since [l]. *)
Definition once (base : list string) (k : string) (r : request) (l : list sent) (n : nat) (s : world) : Prop :=
  (registered s.1.2 = base ∨ registered s.1.2 = base ++ [k]) ∧ ∃ t, s.2 = l ++ t ∧ (length t ≤ n)%nat ∧ Forall (λ e, e.1 = r) t.

Lemma once_le base k r l n m s : (n ≤ m)%nat → once base k r l n s → once base k r l m s.
Proof. intros Hnm (Hr & t & ? & ? & ?). split; [done|]. exists t. split; [done|]. split; [lia|done]. Qed.

Lemma accepted_once base k r l n v : keeps (once base k r l n) (_accepted (W:=world) v).
Proof.
  unfold _accepted, raise_floor, note_write, get_session, set_session. repeat keeps_step.
  all: by intros [[sess w] l'].
Qed.

Lemma answered_request_run r (s : world) :
  _request r s = (answered (send r s.1.2).1, ((s.1.1, (send r s.1.2).2), s.2 ++ [(r, (send r s.1.2).1)])).
Proof.
  destruct s as [[sess w] l]. unfold _request, log_http, logged, session_http, beside. rewrite st_bind_run. unfold send. cbn.
  destruct (HttpW r w) as [[a|e] w']; reflexivity.
Qed.

Lemma send_once base k verb payload l n : key_in (data_request verb (h_org h) (h_environment h) payload) = Some (PStr k) → k ∉ base →
  ∀ s, once base k (data_request verb (h_org h) (h_environment h) payload) l n s →
  let out := (result ← data_call (W:=world) verb (h_org h) (h_environment h) payload; _accepted result) s in
  once base k (data_request verb (h_org h) (h_environment h) payload) l (S n) out.2 ∧
  ∀ v, out.1 = Ok v → registered out.2.1.2 = base ++ [k].
Proof.
  set (r := data_request _ _ _ _). intros Hk Hbase s (Hreg & t & Ht & Hlen & Hall). cbn zeta. rewrite st_bind_run. unfold data_call. fold r.
  rewrite answered_request_run. destruct (ds_send _ Hserver r k s.1.2 Hk) as [Hsend Hok].
  set (s1 := ((s.1.1, (send r s.1.2).2), s.2 ++ [(r, (send r s.1.2).1)])).
  assert (Honce : once base k r l (S n) s1).
  { split; cbn.
    - destruct Hsend as [->|[Hnot ->]]; [done|]. destruct Hreg as [->|Hreg]; [by right|]. exfalso. apply Hnot. rewrite Hreg. apply elem_of_app. right. constructor.
    - exists (t ++ [(r, (send r s.1.2).1)]). rewrite Ht, app_assoc. split; [done|]. rewrite length_app. cbn. split; [lia|].
      apply Forall_app_2; [done|by apply Forall_singleton]. }
  destruct (answered (send r s.1.2).1) as [v|e] eqn:Ha; [|done]. split; [by apply accepted_once|]. intros v' _.
  specialize (Hok v eq_refl).
  assert (Hframe : registered (_accepted v s1).2.1.2 = registered s1.1.2).
  { refine ((_ : keeps (λ s', registered s'.1.2 = registered s1.1.2) (_accepted v)) s1 eq_refl).
    unfold _accepted, raise_floor, note_write, get_session, set_session. repeat keeps_step. all: by intros [[sess w] l']. }
  rewrite Hframe. destruct Honce as [[Hno|Hyes] _]; [|exact Hyes]. exfalso. cbn in Hno. by rewrite Hno in Hok.
Qed.

Lemma write_loop_once base k verb payload l rounds t c n :
  key_in (data_request verb (h_org h) (h_environment h) payload) = Some (PStr k) → k ∉ base →
  ∀ s, once base k (data_request verb (h_org h) (h_environment h) payload) l n s →
  let out := write_loop (W:=world) h rounds verb payload t c s in
  once base k (data_request verb (h_org h) (h_environment h) payload) l (rounds + n) out.2 ∧
  ∀ v, out.1 = Ok v → registered out.2.1.2 = base ++ [k].
Proof.
  intros Hk Hbase. revert t c n. induction rounds as [|rounds IH]; intros t c n s Hs; cbn [write_loop]; [done|].
  pose proof (send_once base k verb payload l n Hk Hbase s Hs) as [Honce Hok]. unfold st_try. cbn zeta in *.
  match type of Honce with once _ _ _ _ _ (snd ?x) => destruct x as [[v|e] s1] end; cbn [fst snd] in *.
  { split; [by eapply once_le; [|exact Honce]; lia|]. intros v' _. by eapply Hok. }
  assert (Hdone : once base k (data_request verb (h_org h) (h_environment h) payload) l (S rounds + n) s1)
    by (eapply once_le; [|exact Honce]; lia).
  assert (Hagain : ∀ d t' c', let out := (_ ← sleep (W:=world) d; write_loop h rounds verb payload t' c') s1 in
    once base k (data_request verb (h_org h) (h_environment h) payload) l (S rounds + n) out.2 ∧
    ∀ v, out.1 = Ok v → registered out.2.1.2 = base ++ [k]).
  { intros d t' c'. cbn zeta. rewrite st_bind_run. cbn. unfold silent, beside. pose proof (ds_sleep _ Hserver d s1.1.2) as Hreg.
    destruct (sleep d s1.1.2) as [res w'] eqn:E. cbn in Hreg.
    assert (Hs2 : once base k (data_request verb (h_org h) (h_environment h) payload) l (S n) ((s1.1.1, w'), s1.2)).
    { destruct Honce as [H1 H2]. split; [cbn; by rewrite Hreg|done]. }
    destruct res as [[]|e']; cbn.
    - specialize (IH t' c' (S n) _ Hs2). cbn zeta in IH. by replace (rounds + S n)%nat with (S rounds + n)%nat in IH by lia.
    - split; [|done]. eapply once_le; [|exact Hs2]. lia. }
  repeat case_match; try apply Hagain; by split.
Qed.

(** C25: a write is registered at most once, and exactly once when it returns, although it is resent after
    lost responses and coded conflicts: against a server that honours idempotency keys, one call of
    [_written] sends at most five requests, all of them the same request under one fresh key, registers
    nothing but that key, and has registered it if the call succeeds. *)
Theorem write_registers_once verb payload (s : session) (w : W) :
  exists k r, key_in r = Some (PStr k) ∧ ~ k ∈ registered w ∧
  let '(res, ((_, w'), t)) := _written (W:=world) h verb payload ((s, w), []) in
  (length t <= 5)%nat ∧ Forall (λ e, e.1 = r) t ∧
  (registered w' = registered w ∨ registered w' = registered w ++ [k]) ∧
  (forall v, res = Ok v → registered w' = registered w ++ [k]).
Proof.
  destruct (ds_key _ Hserver w) as (k & Hk & Hfresh & Hreg).
  exists k, (data_request verb (h_org h) (h_environment h) (dict_set "idempotency_key" (PStr k) payload)).
  assert (Hin : key_in (data_request verb (h_org h) (h_environment h) (dict_set "idempotency_key" (PStr k) payload)) = Some (PStr k))
    by (unfold key_in; cbn; apply dict_get_set_eq).
  split; [exact Hin|]. split; [exact Hfresh|]. unfold _written. rewrite st_bind_run. cbn [uuid4_hex log_ambient session_ambient]. unfold silent, beside. cbn [fst snd].
  destruct (uuid4_hex w) as [res w1]. cbn in Hk, Hreg. subst res. cbv beta iota.
  destruct (write_loop_once (registered w) k verb (dict_set "idempotency_key" (PStr k) payload) [] write_rounds 0 0 0 Hin Hfresh ((s, w1), []))
    as [(Hreg' & t & Ht & Hlen & Hall) Hok]; [split; [by left|exists []; split; [done|]; split; [done|constructor]]|].
  cbn zeta in *. destruct (write_loop _ _ _ _ _ _ _) as [out [[s' w'] l']]. cbn [fst snd] in *. cbn in Ht. subst l'. split; [exact Hlen|]. done.
Qed.
End once.

(** ** Texts, in pages and one by one *)

Lemma unique_ids_elem ids id : id ∈ unique_ids ids ↔ id ∈ ids.
Proof.
  assert (Hd : ∀ d : list (string * unit), id ∈ (put_items d (map (λ id, (id, tt)) ids)).*1 ↔ id ∈ d.*1 ∨ id ∈ ids).
  { unfold put_items. induction ids as [|x ids IH]; intros d; cbn; [rewrite elem_of_nil; tauto|].
    rewrite IH, put_item_keys, elem_of_cons. tauto. }
  unfold unique_ids. rewrite Hd. cbn. rewrite elem_of_nil. tauto.
Qed.

Section texts.
Context {W : Type} {HttpW : Http W} {AmbientW : Ambient W} {SessionW : SessionWorld W}.
Context (h : handle).

Definition opt_text (o : option string) : pyval := str_val o.
Definition doc_of (d : string * option string) : pyval := dict_of [("id", PStr d.1); ("text", opt_text d.2)].

(** A store that does not change while it is read: the text endpoint answers each id, and browse, whatever
    it is asked, either refuses (403) or answers documents that carry their text or none. Which ids it
    answers is left open: a control plane may ignore the ids it is given. *)
Record text_server (text_at : string → option string) : Prop := {
  tx_text : ∀ id w, answered (send (text_request (h_org h) (h_environment h) (h_store h) id (h_key h)) w).1 =
    Ok (dict_of [("found", PBool (bool_decide (is_Some (text_at id)))); ("text", opt_text (text_at id))]);
  tx_browse : ∀ d w, let a := answered (send (data_request "/documents/browse" (h_org h) (h_environment h) d) w).1 in
    (∃ e, a = Err e ∧ status_code e = Some 403) ∨
    ∃ docs : list (string * option string), a = Ok (dict_of [("documents", PList (map doc_of docs))]) ∧
      ∀ d t, d ∈ docs → d.2 = Some t → text_at d.1 = Some t;
  tx_clock : ∀ w, ∃ t w', monotonic w = (Ok t, w') }.

Context (text_at : string → option string) (Hserver : text_server text_at).

Lemma request_result r (w : W) : (_request r w).1 = answered (send r w).1.
Proof. unfold _request. rewrite st_bind_run. by destruct (send r w) as [[a|e] w']. Qed.

Lemma text_by_id_run id (w : W) : (_get_text_by_id h id w).1 = Ok (opt_text (text_at id)).
Proof.
  unfold _get_text_by_id, _empty_if_unprovisioned. rewrite st_bind_run. unfold st_try, store_text.
  pose proof (request_result (text_request (h_org h) (h_environment h) (h_store h) id (h_key h)) w) as Hr.
  rewrite (tx_text _ Hserver) in Hr. destruct (_request _ w) as [res w1]. cbn [fst] in Hr. subst res. by destruct (text_at id).
Qed.

(** Every text held is the store's, of a requested id. *)
Definition true_texts (requested : list string) (texts : list (string * pyval)) : Prop :=
  ∀ id v, get_item id texts = Some v → id ∈ requested ∧ ∃ t, text_at id = Some t ∧ v = PStr t.

Lemma true_put requested texts id t : true_texts requested texts → id ∈ requested → text_at id = Some t →
  true_texts requested (put_item id (PStr t) texts).
Proof.
  intros Ht Hin Hid i v. rewrite get_item_put. case_bool_decide as Heq; [|by apply Ht]. subst i. intros [= <-]. eauto.
Qed.

Lemma any_stray_cons batch d docs : any_stray batch (doc_of d :: docs) = if str_in d.1 batch then any_stray batch docs else Ok true.
Proof. reflexivity. Qed.

Lemma take_text_doc texts d : take_text texts (doc_of d) = Ok (match d.2 with Some t => put_item d.1 (PStr t) texts | None => texts end).
Proof. by destruct d as [id [t|]]. Qed.

Lemma take_texts_true requested batch docs texts : (∀ id, id ∈ batch → id ∈ requested) →
  (∀ d t, d ∈ docs → d.2 = Some t → text_at d.1 = Some t) → true_texts requested texts →
  any_stray batch (map doc_of docs) = Ok false →
  ∃ texts', foldR take_text texts (map doc_of docs) = Ok texts' ∧ true_texts requested texts'.
Proof.
  intros Hb. revert texts. induction docs as [|[id o] docs IH]; intros texts Hd Ht Hs; cbn [map foldR] in *; [eauto|].
  rewrite any_stray_cons in Hs. destruct (str_in _ batch) eqn:Hin; [|done]. apply bool_decide_eq_true in Hin.
  rewrite take_text_doc. cbn [mbind result_bind]. apply IH; [intros d t' Hd'; apply Hd; by right| |exact Hs].
  destruct o as [t|]; [|done]. apply true_put; [done|by apply Hb|]. apply (Hd (id, Some t)); [by left|done].
Qed.

Definition refused (e : exn) : Prop := status_code e = Some 403.
Definition true_docs (docs : list (string * option string)) : Prop := ∀ d t, d ∈ docs → d.2 = Some t → text_at d.1 = Some t.

Lemma searched_run fuel d (w : W) :
  (∃ e, (_searched h (S fuel) "/documents/browse" d None w).1 = Err e ∧ refused e) ∨
  ∃ docs, (_searched h (S fuel) "/documents/browse" d None w).1 = Ok (dict_of [("documents", PList (map doc_of docs))]) ∧ true_docs docs.
Proof.
  unfold _searched. rewrite st_bind_run. cbn [get_session st_read]. rewrite st_bind_run.
  destruct (tx_clock _ Hserver w) as (now & w1 & ->). cbn [search_loop]. generalize (with_floor h (last_seq (session_of w)) d) as d'. intros d'.
  unfold st_try, data_call. pose proof (request_result (data_request "/documents/browse" (h_org h) (h_environment h) d') w1) as Hr.
  destruct (tx_browse _ Hserver d' w1) as [(e & He & Hs)|(docs & Ha & Hd)].
  - rewrite He in Hr. destruct (_request _ w1) as [res w2]. cbn [fst] in Hr. subst res. left. rewrite Hs, st_bind_run.
    destruct (tx_clock _ Hserver w2) as (now' & w3 & ->). by exists e.
  - rewrite Ha in Hr. destruct (_request _ w1) as [res w2]. cbn [fst] in Hr. subst res. right. by exists docs.
Qed.

Lemma browse_run fuel batch (w : W) :
  (∃ e, (browse_ids h (S fuel) batch w).1 = Err e ∧ refused e) ∨
  ∃ docs, (browse_ids h (S fuel) batch w).1 = Ok (PList (map doc_of docs)) ∧ true_docs docs.
Proof.
  unfold browse_ids, browse, _browse_page, _empty_if_unprovisioned. rewrite st_bind_run. unfold st_try.
  match goal with |- context [_searched h _ _ ?d _ w] => destruct (searched_run fuel d w) as [(e & He & Hs)|(docs & Ha & Hd)] end.
  - destruct (_searched _ _ _ _ _ w) as [res w1]. cbn [fst] in He. subst res. left. unfold unprovisioned. rewrite Hs. by exists e.
  - destruct (_searched _ _ _ _ _ w) as [res w1]. cbn [fst] in Ha. subst res. right. by exists docs.
Qed.

Lemma batch_texts_run fuel requested bs texts (w : W) : (∀ b id, b ∈ bs → id ∈ b → id ∈ requested) → true_texts requested texts →
  ∃ o w', batch_texts h (S fuel) bs texts w = (Ok o, w') ∧ ∀ texts', o = Some texts' → true_texts requested texts'.
Proof.
  intros Hb. revert texts w. induction bs as [|b bs IH]; intros texts w Ht; cbn [batch_texts].
  { exists (Some texts), w. split; [done|]. by intros ? [= <-]. }
  rewrite st_bind_run. unfold st_try. rewrite st_bind_run. destruct (browse_run fuel b w) as [(e & He & Hs)|(docs & Ha & Hd)];
    destruct (browse_ids h (S fuel) b w) as [res w1]; cbn [fst] in *; subst res.
  - rewrite Hs. cbn. by exists None, w1.
  - cbn [mret st_ret]. rewrite st_bind_run. cbn [st_lift py_iter]. rewrite st_bind_run. cbn [st_lift].
    destruct (any_stray b _) as [[]|e] eqn:Hstray; [by exists None, w1| |].
    + destruct (take_texts_true requested b docs texts) as (texts' & Hf & Ht'); [by intros; eapply Hb; [left|]|done..|].
      rewrite st_bind_run. cbn [st_lift]. rewrite Hf. apply IH; [|done]. intros b' id Hb'. apply Hb. by right.
    + exfalso. revert Hstray. clear. induction docs as [|d docs IH]; cbn [map]; [done|]. rewrite any_stray_cons. by destruct (str_in d.1 b).
Qed.

(** Reading the ids one by one, from texts that are true. *)
Lemma read_missing_run requested ids texts (w : W) : (∀ id, id ∈ ids → id ∈ requested) → true_texts requested texts →
  ∃ texts' w', read_missing h ids texts w = (Ok texts', w') ∧ true_texts requested texts' ∧
    (∀ id, id ∈ ids → get_item id texts' = PStr <$> text_at id) ∧ (∀ id v, get_item id texts = Some v → get_item id texts' = Some v).
Proof.
  revert texts w. induction ids as [|id ids IH]; intros texts w Hin Ht; cbn [read_missing].
  { exists texts, w. split; [done|]. split; [done|]. split; [by intros ? ?%not_elem_of_nil|done]. }
  destruct (get_item id texts) as [v|] eqn:Hg.
  - destruct (IH texts w) as (texts' & w' & Hrun & Ht' & Hids & Hold); [by intros; apply Hin; right|done|].
    exists texts', w'. split; [done|]. split; [done|]. split; [|done]. intros i [->|Hi]%elem_of_cons; [|by apply Hids].
    apply Hold in Hg as Hg'. rewrite Hg'. destruct (Ht' _ _ Hg') as (_ & t & -> & ->). done.
  - rewrite st_bind_run. pose proof (text_by_id_run id w) as Hr. destruct (_get_text_by_id h id w) as [res w1]. cbn [fst] in Hr. subst res.
    set (texts1 := if is_none _ then texts else _).
    assert (Ht1 : true_texts requested texts1 ∧ get_item id texts1 = PStr <$> text_at id ∧ ∀ i, i ≠ id → get_item i texts1 = get_item i texts).
    { unfold texts1. destruct (text_at id) as [t|] eqn:Hid; cbn [is_none opt_text str_val]; [|done]. split; [apply true_put; [done|apply Hin; by left|done]|].
      split; [by rewrite get_item_put, bool_decide_eq_true_2|]. intros i Hi. by rewrite get_item_put, bool_decide_eq_false_2. }
    destruct Ht1 as (Ht1 & Hid1 & Hoth).
    destruct (IH texts1 w1) as (texts' & w' & Hrun & Ht' & Hids & Hold); [by intros; apply Hin; right|done|].
    exists texts', w'. split; [done|]. split; [done|]. split.
    + intros i [->|Hi]%elem_of_cons; [|by apply Hids]. destruct (get_item id texts') as [v|] eqn:Hv'.
      * destruct (Ht' _ _ Hv') as (_ & t & -> & ->). done.
      * destruct (text_at id) as [t|] eqn:Hid; [|done]. cbn in Hid1. apply Hold in Hid1. congruence.
    + intros i v Hi. apply Hold. rewrite Hoth; [done|]. intros ->. congruence.
Qed.

Lemma texts_by_id_missing ids texts (w : W) : NoDup ids → (∀ id, id ∈ ids → get_item id texts = None) →
  texts_by_id h ids texts w = read_missing h ids texts w.
Proof.
  revert texts w. induction ids as [|id ids IH]; intros texts w Hnd Hno; cbn; [done|]. apply NoDup_cons in Hnd as [Hid Hnd].
  rewrite (Hno id) by by left. rewrite !st_bind_run. destruct (_get_text_by_id h id w) as [[v|e] w1]; [|done].
  apply IH; [done|]. intros i Hi. destruct (is_none v); [apply Hno; by right|]. rewrite get_item_put, bool_decide_eq_false_2 by (intros ->; done).
  apply Hno. by right.
Qed.

Lemma unique_ids_NoDup ids : NoDup (unique_ids ids).
Proof.
  unfold unique_ids, put_items. assert (Hn : NoDup (@nil (string * unit)).*1) by constructor. revert Hn.
  generalize (@nil (string * unit)) as d. induction ids as [|x ids IH]; intros d Hd; cbn; [done|]. by apply IH, put_item_NoDup.
Qed.

(** The batched text read answers exactly like one request per id: whether the control plane serves
    pages by id, ignores the ids, leaves some out of a page, answers documents nobody asked for or refuses
    to browse, [get_texts] returns the stored text of every requested id that has one, and nothing else. *)
Theorem get_texts_agrees fuel ids (w : W) :
  exists texts w1, get_texts h (S fuel) ids w = (Ok texts, w1) ∧
  forall id, get_item id texts = if bool_decide (id ∈ ids) then PStr <$> text_at id else None.
Proof.
  assert (Hspec : ∀ texts, true_texts (unique_ids ids) texts → (∀ id, id ∈ unique_ids ids → get_item id texts = PStr <$> text_at id) →
    ∀ id, get_item id texts = if bool_decide (id ∈ ids) then PStr <$> text_at id else None).
  { intros texts Ht Hids id. case_bool_decide as Hin; [by apply Hids, unique_ids_elem|].
    destruct (get_item id texts) as [v|] eqn:Hv; [|done]. apply Ht in Hv as [Hv _]. by apply (proj1 (unique_ids_elem ids id)) in Hv. }
  unfold get_texts. rewrite st_bind_run.
  destruct (batch_texts_run fuel (unique_ids ids) (batches 100 (unique_ids ids)) [] w) as (o & w1 & Hrun & Ho); [|done|].
  { intros b id Hb Hid. rewrite <-(concat_batches 100 (unique_ids ids)) by lia. apply list_elem_of_In, in_concat. exists b.
    by rewrite <-!list_elem_of_In. }
  rewrite Hrun. destruct o as [texts|].
  - destruct (read_missing_run (unique_ids ids) (unique_ids ids) texts w1) as (texts' & w2 & Hr & Ht & Hids & _); [done|by apply Ho|].
    exists texts', w2. split; [done|]. by apply Hspec.
  - unfold _get_texts_by_id. rewrite texts_by_id_missing by (done || apply unique_ids_NoDup).
    destruct (read_missing_run (unique_ids ids) (unique_ids ids) [] w1) as (texts' & w2 & Hr & Ht & Hids & _); [done|done|].
    exists texts', w2. split; [done|]. by apply Hspec.
Qed.
End texts.

(** ** A server with an unreliable network *)

Inductive fate := Delivered | ReplyLost | RequestLost | Reaped.

Section network.
Definition keyed (r : request) : option string := match key_in r with Some (PStr k) => Some k | _ => None end.
Definition register (k : option string) (keys : list string) : list string :=
  match k with Some k => if str_in k keys then keys else keys ++ [k] | None => keys end.
Definition acceptance : result response :=
  Ok (Resp 200 ("{" +:+ q "seq" +:+ ": 5, " +:+ q "write_id" +:+ ": " +:+ q "w1" +:+ ", " +:+ q "ids" +:+ ": [" +:+ q "a" +:+ "], "
    +:+ q "hits" +:+ ": []}") None).

(** Registered keys, and what happens to the next requests. *)
Local Instance network_http : Http (list string * list fate) := λ r w,
  match w.2 with
  | RequestLost :: fates => (raise TransportError "lost", (w.1, fates))
  | ReplyLost :: fates => (raise TransportError "lost", (register (keyed r) w.1, fates))
  | Reaped :: fates => (Ok (Resp 409 ("{" +:+ q "detail" +:+ ": " +:+ q "segment_object_missing: gone" +:+ "}") None), (w.1, fates))
  | Delivered :: fates => (acceptance, (register (keyed r) w.1, fates))
  | [] => (acceptance, (register (keyed r) w.1, []))
  end.
Local Instance network_ambient : Ambient (list string * list fate) :=
  {| monotonic := mret fzero; sleep _ := mret tt; uuid4_hex w := (Ok (fresh w.1), w); image_data _ := mret "" |}.

Lemma network_dedups : dedup_server (W:=list string * list fate) fst.
Proof.
  split; [|done|].
  - intros r k [keys fates] Hk. unfold send, network_http. cbn [fst snd].
    assert (Hreg : register (keyed r) keys = keys ∧ k ∈ keys ∨ k ∉ keys ∧ register (keyed r) keys = keys ++ [k]).
    { unfold keyed. rewrite Hk. cbn [register]. destruct (str_in k keys) eqn:E; [left|right].
      - split; [done|by apply bool_decide_eq_true in E].
      - split; [by apply bool_decide_eq_false in E|done]. }
    assert (Hin : k ∈ register (keyed r) keys).
    { destruct Hreg as [[-> Hk']|[_ ->]]; [done|]. apply elem_of_app. right. by constructor. }
    destruct fates as [|[] fates]; cbn [fst snd]; (split; [tauto|intros v Hv]); first [exact Hin | exfalso; revert Hv; by vm_compute].
  - intros w. exists (fresh w.1). repeat split. apply infinite_is_fresh.
Qed.

Definition demo_handle : handle := Handle "acme" "prod" "user-42" None true (float_of_Z 30).
Local Notation demo_world := ((session * (list string * list fate)) * list sent)%type.

(** The first answer is lost, then the uploaded object is reaped: three sends, one registration. *)
Example resent_write :
  let '(res, ((s, (keys, _)), t)) :=
    add (W:=demo_world) demo_handle "likes tea" None PNone no_stamps ((Session 0 None, ([], [ReplyLost; Reaped; Delivered])), []) in
  res = Ok (PStr "a") ∧ length t = 3%nat ∧ length keys = 1%nat ∧ s = Session 5 (Some "w1").
Proof. vm_compute. repeat split; reflexivity. Qed.

Lemma write_registers_once_witness :
  exists k r, key_in r = Some (PStr k) ∧ ~ k ∈ [] ∧
  let '(res, ((_, w'), t)) := _written (W:=demo_world) demo_handle "/documents" [] ((Session 0 None, ([], [ReplyLost; Reaped])), []) in
  (length t <= 5)%nat ∧ Forall (λ e, e.1 = r) t ∧ (fst w' = [] ∨ fst w' = [] ++ [k]) ∧ (forall v, res = Ok v → fst w' = [] ++ [k]).
Proof.
  exact (write_registers_once fst network_dedups demo_handle "/documents" [] (Session 0 None) ([], [ReplyLost; Reaped])).
Defined.

(** A search after the write asks for its sequence number, one before it for nothing. *)
Example search_after_write :
  map (λ e, min_seq e.1) (session_run (W:=demo_world) demo_handle 5
    [OpSearch "tea" (ReadOptions 3 PNone PNone false); OpAddMany [] no_stamps; OpSearch "tea" (ReadOptions 3 PNone PNone false)]
    ((Session 0 None, ([], [])), [])).2.2 = [None; None; Some (PInt 5)].
Proof. vm_compute. reflexivity. Qed.

(** Statistics, a count and a text by id after the write ask for nothing. *)
Example stats_without_floor :
  let out := session_run (W:=demo_world) demo_handle 5 [OpAddMany [] no_stamps; OpStats false; OpCount; OpGet "a"] ((Session 0 None, ([], [])), []) in
  last_seq out.2.1.1 = 5 ∧ (length out.2.2 >= 4)%nat ∧ forallb (λ e, bool_decide (min_seq e.1 = None)) out.2.2 = true.
Proof. vm_compute. repeat split; lia. Qed.
End network.

(** ** An older control plane *)

(** It ignores the ids of a browse and answers a plain page; one document has text. *)
Section plain.
Local Instance plain_http : Http unit := λ r w,
  (Ok (Resp 200
    (if bool_decide (rq_path r = data_path "acme" "prod" "/documents/browse")
     then "{" +:+ q "documents" +:+ ": [{" +:+ q "id" +:+ ": " +:+ q "z" +:+ ", " +:+ q "text" +:+ ": null}]}"
     else if bool_decide (get_item "id" (rq_params r) = Some "a")
     then "{" +:+ q "found" +:+ ": true, " +:+ q "text" +:+ ": " +:+ q "alpha" +:+ "}"
     else "{" +:+ q "found" +:+ ": false, " +:+ q "text" +:+ ": null}") None), w).
Local Instance plain_ambient : Ambient unit :=
  {| monotonic := mret fzero; sleep _ := mret tt; uuid4_hex := mret "k"; image_data _ := mret "" |}.
Definition plain_text (id : string) : option string := if bool_decide (id = "a") then Some "alpha" else None.

Lemma plain_server : text_server (W:=session * unit) demo_handle plain_text.
Proof.
  split.
  - intros id w. unfold plain_text. unfold send, session_http, beside, send, plain_http. cbn [fst snd].
    rewrite bool_decide_eq_false_2 by done. change (get_item "id" (rq_params _)) with (Some id).
    rewrite (bool_decide_ext (Some id = Some "a") (id = "a")) by naive_solver.
    destruct (bool_decide (id = "a")); vm_compute; reflexivity.
  - intros d w. right. exists [("z", None)]. split; [vm_compute; reflexivity|]. by intros d' t ->%list_elem_of_singleton.
  - intros [s []]. by exists fzero, (s, ()).
Qed.

Lemma get_texts_agrees_witness :
  exists texts w1, get_texts (W:=session * unit) demo_handle 3 ["b"; "a"; "a"] (Session 0 None, tt) = (Ok texts, w1) ∧
  forall id, get_item id texts = if bool_decide (id ∈ ["b"; "a"; "a"]) then PStr <$> plain_text id else None.
Proof. exact (get_texts_agrees demo_handle plain_text plain_server 2 ["b"; "a"; "a"] (Session 0 None, tt)). Defined.

Example plain_read : (get_texts (W:=session * unit) demo_handle 3 ["b"; "a"; "a"] (Session 0 None, tt)).1 = Ok [("a", PStr "alpha")].
Proof. vm_compute. reflexivity. Qed.
End plain.
