(* ===== verification/CloudConfig.v ===== *)
(** * Cloud configuration and credentials

    [cloud/_config.py] and [cloud/_env_file.py]: the credentials file and the environment that overrides
    it, the committed remote record, and the dotenv file a minted token is written to. Files are those of
    FileSys.v, so that an operation's trace holds every state a crash can leave; permissions are not part
    of a file there. The TOML parser of the standard library is a parameter. *)

From Stdlib Require Import Ascii String ZArith Lia.
From stdpp Require Import base strings gmap sets list.
From S2P Require Import Prelude Numbers PyVal Bytes Json FileSys.

Local Open Scope Z_scope.

(** The text of an absolute path. *)
Definition path_str (p : path) : string := "/" +:+ str_join "/" (reverse p).

(** ** Credentials *)

Notation environ := (gmap string string).

Definition DEFAULT_HOST : string := "https://api.egoistmachines.com".

Record Credentials := Creds { cr_host : string; cr_token : pyval; cr_source : string }.

(** [s.rstrip("/")] *)
Definition no_slash (s : string) : string := str_rstrip_char "/"%char s.
Definition py_rstrip (v : pyval) : result string := match v with PStr s => Ok (no_slash s) | _ => no_attr v "rstrip" end.

(** A variable that is set and not empty. *)
Definition env_value (env : environ) (name : string) : option string :=
  match env !! name with Some s => if bool_decide (s = "") then None else Some s | None => None end.

Section credentials.
(** [Path.expanduser] *)
Context (expanduser : string → path).

Definition config_dir (env : environ) : path :=
  expanduser (match env !! "ORECLOUD_CONFIG_DIR" with Some s => s | None => "~/.orecloud" end).
Definition credentials_file (env : environ) : path := "credentials.json" :: config_dir env.

Definition half_set : string :=
  "ORECLOUD_HOST is set but ORECLOUD_TOKEN is not — set ORECLOUD_TOKEN to use environment credentials, or unset ORECLOUD_HOST to use the stored credentials file".

(** What the text of the credentials file says. *)
Definition stored_credentials (text : string) : result (option Credentials) :=
  match loads text with
  | Err e => if bool_decide (exn_class e = JSONDecodeError) then Ok None else Err e
  | Ok raw =>
      host ← py_get raw "host" PNone;
      token ← py_get raw "token" PNone;
      if truthy host && truthy token then host ← py_rstrip host; Ok (Some (Creds host token "file")) else Ok None
  end.

Definition load_credentials (env : environ) : io (option Credentials) :=
  match env_value env "ORECLOUD_TOKEN", env_value env "ORECLOUD_HOST" with
  | Some token, host => mret (Some (Creds (no_slash (match host with Some h => h | None => DEFAULT_HOST end)) (PStr token) "env"))
  | None, Some _ => fail CredentialsError half_set
  | None, None =>
      text ← attempt (read_text (credentials_file env));
      match text with
      | Ok text => lift (stored_credentials text)
      | Err e => if bool_decide (exn_class e = FileNotFoundError) then mret None else lift (Err e)
      end
  end.

Definition credentials_text (host token : string) : string :=
  of_chars (json_text (indented 2) 0 (dict_of [("host", PStr (no_slash host)); ("token", PStr token)])) +:+ newline_str.

Definition save_credentials (env : environ) (host token : string) : io path :=
  let target := credentials_file env in
  _ ← mkdir_p (parent target);
  _ ← (_ ← write_text (tmp_of target) (credentials_text host token); os_replace (tmp_of target) target);
  mret target.

(** [unlink]; whether there was a file. *)
Definition delete_credentials (env : environ) : io bool :=
  there ← is_file (credentials_file env);
  if (there : bool) then _ ← unlink_ok (credentials_file env); mret true else mret false.
End credentials.

(** ** The remote record *)

Definition REMOTE_FILE_NAME : string := "orecloud.toml".
Record RemoteConfig := MkRemote { rc_host : string; rc_org : string; rc_environment : string; rc_store : string }.
Definition remote_config_file (local_dir : path) : path := REMOTE_FILE_NAME :: local_dir.

Definition toml_char (c : ascii) : list ascii :=
  if bool_decide (c = backslash ∨ c = dquote) then [backslash; c] else [c].
Definition toml_quote (value : string) : string := of_chars (dquote :: concat (map toml_char (chars value)) ++ [dquote]).

Definition remote_text (config : RemoteConfig) : string :=
  str_join newline_str
    ["# OreCloud managed remote for this data directory (no secrets; safe to commit)."; "[remote]";
     "host = " +:+ toml_quote (no_slash (rc_host config)); "org = " +:+ toml_quote (rc_org config);
     "environment = " +:+ toml_quote (rc_environment config); "store = " +:+ toml_quote (rc_store config); ""].

Definition save_remote (local_dir : path) (config : RemoteConfig) : io path :=
  _ ← write_text (remote_config_file local_dir) (remote_text config); mret (remote_config_file local_dir).

Section remote.
(** [tomllib.loads]; a [TOMLDecodeError] is a [ValueError]. *)
Context (toml_loads : string → result pyval).

Definition filled (v : pyval) : bool := match v with PStr s => bool_decide (s ≠ "") | _ => false end.

Definition parse_remote (file : string) (data : bytes) : result RemoteConfig :=
  let malformed {A} (why : string) : result A := raise CredentialsError (file +:+ " is malformed: " +:+ why) in
  match (text ← utf8_decode data; doc ← toml_loads text; table ← py_get doc "remote" (PDict []);
         host ← py_index table "host"; org ← py_index table "org"; environment ← py_index table "environment";
         store ← py_get table "store" (PStr "default");
         Ok (host, org, environment, store)) with
  | Err e => if is_value_error e || bool_decide (exn_class e ∈ [KeyError; TypeError]) then malformed (exn_msg e) else Err e
  | Ok (PStr host, PStr org, PStr environment, PStr store) =>
      if filled (PStr host) && filled (PStr org) && filled (PStr environment) && filled (PStr store)
      then Ok (MkRemote (no_slash host) org environment store) else malformed "empty or non-string fields"
  | Ok _ => malformed "empty or non-string fields"
  end.

Definition load_remote (local_dir : path) : io (option RemoteConfig) :=
  raw ← attempt (read_bytes (remote_config_file local_dir));
  match raw with
  | Err e => if bool_decide (exn_class e = FileNotFoundError) then mret None else lift (Err e)
  | Ok data => config ← lift (parse_remote (path_str (remote_config_file local_dir)) data); mret (Some config)
  end.
End remote.

(** ** The dotenv file *)

(** What [read_text] makes of line endings. *)
Fixpoint universal (l : list ascii) : list ascii :=
  match l with
  | c :: l =>
      if bool_decide (c = "013"%char)
      then newline :: universal (match l with d :: l' => if bool_decide (d = newline) then l' else l | [] => l end)
      else c :: universal l
  | [] => []
  end.

(** Where [str.splitlines] breaks, among the code points of the model. *)
Definition line_break (c : ascii) : bool := in_range 10 13 c || in_range 28 30 c || bool_decide (c = "133"%char).

Fixpoint split_lines (cur l : list ascii) : list (list ascii) :=
  match l with
  | [] => match cur with [] => [] | _ => [reverse cur] end
  | c :: l => if line_break c then reverse cur :: split_lines [] l else split_lines (c :: cur) l
  end.
Definition splitlines (text : string) : list string := map of_chars (split_lines [] (chars text)).
Definition text_lines (text : string) : list string := splitlines (of_chars (universal (chars text))).

(** [line.split("=", 1)[0].strip() if "=" in line else None], and what follows the sign. *)
Definition line_key (line : string) : option string :=
  match split_once_chars "="%char (chars line) with (k, Some _) => Some (str_strip (of_chars k)) | (_, None) => None end.
Definition line_value (line : string) : string :=
  match split_once_chars "="%char (chars line) with (_, Some v) => of_chars v | (_, None) => "" end.

Definition assignment (key value : string) : string := key +:+ "=" +:+ value.
Definition del_item {A} (k : string) (d : list (string * A)) : list (string * A) := List.filter (λ kv, negb (bool_decide (kv.1 = k))) d.

(** The loop over the lines of the file, with the values that remain to be set. *)
Fixpoint update_lines (remaining : list (string * string)) (lines : list string) : list string * list (string * string) :=
  match lines with
  | [] => ([], remaining)
  | line :: lines =>
      match (k ← line_key line; v ← get_item k remaining; Some (k, v)) with
      | Some (k, v) => let '(updated, rest) := update_lines (del_item k remaining) lines in (assignment k v :: updated, rest)
      | None => let '(updated, rest) := update_lines remaining lines in (line :: updated, rest)
      end
  end.

Definition updated_lines (values : list (string * string)) (lines : list string) : list string :=
  let '(updated, rest) := update_lines values lines in updated ++ map (λ kv, assignment kv.1 kv.2) rest.
Definition env_text (values : list (string * string)) (lines : list string) : string :=
  str_join newline_str (updated_lines values lines) +:+ newline_str.

(** The lines of a text file, none where there is no file. *)
Definition file_lines (target : path) : io (option (list string)) :=
  text ← attempt (read_text target);
  match text with
  | Ok text => mret (Some (text_lines text))
  | Err e => if bool_decide (exn_class e = FileNotFoundError) then mret None else lift (Err e)
  end.

(** [scratch] is the unique name [mkstemp] picks beside the target. *)
Definition write_env_values (target scratch : path) (values : list (string * string)) : io path :=
  lines ← file_lines target;
  let content := env_text values (match lines with Some l => l | None => [] end) in
  _ ← after false (_ ← write_text scratch content; os_replace scratch target) (unlink_ok scratch);
  mret target.

(** The value of the last line that assigns the key. *)
Definition last_value (key : string) (lines : list string) : option string :=
  fold_left (λ value line, if bool_decide (line_key line = Some key) then Some (str_strip (line_value line)) else value) lines None.

Definition read_env_value (target : path) (key : string) : io (option string) :=
  lines ← file_lines target;
  mret (match lines with Some l => last_value key l | None => None end).

(** ** Keeping it out of version control *)

Fixpoint parents (p : path) : list path := match p with [] => [[]] | _ :: q => p :: parents q end.

(** The nearest directory, from [start] up, that holds a [.git]. *)
Definition _git_root (s : fsys) (start : path) : option path :=
  List.find (λ d, bool_decide (is_Some (files s !! (".git" :: d))) || bool_decide (".git" :: d ∈ dirs s)) (parents start).

Definition ignore_patterns (name : string) : list string := [name; "/" +:+ name; "*.env"; ".env*"; "**/" +:+ name].

(** The directories from [start] up to the root. *)
Definition up_to (root start : path) : list path := List.filter (λ d, Nat.leb (length root) (length d)) (parents start).

Definition covers (name : string) (lines : list string) : bool :=
  existsb (λ line, str_in (str_strip line) (ignore_patterns name)) lines.

(** Whether a [.gitignore] on the way covers the name. *)
Fixpoint covered_in (name : string) (dirs : list path) : io bool :=
  match dirs with
  | [] => mret false
  | d :: dirs =>
      lines ← file_lines (".gitignore" :: d);
      if (match lines with Some l => covers name l | None => false end) then mret true else covered_in name dirs
  end.

Definition ignored_text (existing name : string) : string :=
  existing +:+ (if endswith newline_str existing || bool_decide (existing = "") then "" else newline_str) +:+ name +:+ newline_str.

(** The note, or none where the file was covered; [target] is resolved. *)
Definition ensure_gitignored (target : path) : io (option string) :=
  root ← gets (λ s, _git_root s (parent target));
  match root with
  | None => mret (Some (pname target +:+ " is not inside a git repository — keep it out of version control"))
  | Some root =>
      covered ← covered_in (pname target) (up_to root (parent target));
      if (covered : bool) then mret None
      else
        let root_ignore := ".gitignore" :: root in
        there ← is_file root_ignore;
        existing ← (if (there : bool) then t ← read_text root_ignore; mret (of_chars (universal (chars t))) else mret "");
        _ ← write_text root_ignore (ignored_text existing (pname target));
        mret (Some ("added " +:+ pname target +:+ " to " +:+ path_str root_ignore))
  end.

(** ** The lines of a dotenv file *)

Definition plain_line (line : string) : bool := forallb (λ c, negb (line_break c)) (chars line).

(** A key a line can assign: stripped, without the sign; a value without a line break. *)
Definition good_key (k : string) : bool :=
  plain_line k && forallb (λ c, negb (bool_decide (c = "="%char))) (chars k) && bool_decide (str_strip k = k).
Definition good_values (values : list (string * string)) : Prop :=
  values ≠ [] ∧ NoDup values.*1 ∧ Forall (λ kv, good_key kv.1 = true ∧ plain_line kv.2 = true) values.

Lemma split_once_none c l r : forallb (λ x, negb (bool_decide (x = c))) l = true →
  split_once_chars c (l ++ c :: r) = (l, Some r).
Proof.
  induction l as [|x l IH]; cbn; [by rewrite bool_decide_eq_true_2|].
  intros [Hx Hl]%andb_prop. apply negb_true_iff in Hx. by rewrite Hx, IH.
Qed.

Lemma assignment_split k v : good_key k = true → split_once_chars "="%char (chars (assignment k v)) = (chars k, Some (chars v)).
Proof.
  intros [[_ Hk]%andb_prop _]%andb_prop. unfold assignment. rewrite chars_app.
  change (chars ("=" +:+ v)) with ("="%char :: chars v). by apply split_once_none.
Qed.

Lemma assignment_key k v : good_key k = true → line_key (assignment k v) = Some k.
Proof.
  intros Hk. unfold line_key. rewrite assignment_split, of_chars_chars by done.
  apply andb_prop in Hk as [_ Hk]. apply bool_decide_eq_true in Hk. by rewrite Hk.
Qed.

Lemma assignment_value k v : good_key k = true → line_value (assignment k v) = v.
Proof. intros Hk. unfold line_value. by rewrite assignment_split, of_chars_chars. Qed.

(** [last_value] from a value already seen. *)
Definition value_after (key : string) (seen : option string) (lines : list string) : option string :=
  fold_left (λ value line, if bool_decide (line_key line = Some key) then Some (str_strip (line_value line)) else value) lines seen.
Definition assigned (key : string) (lines : list string) : nat :=
  length (List.filter (λ line, bool_decide (line_key line = Some key)) lines).

Lemma value_after_cons key seen line lines : value_after key seen (line :: lines) =
  value_after key (if bool_decide (line_key line = Some key) then Some (str_strip (line_value line)) else seen) lines.
Proof. done. Qed.

Lemma value_after_none key seen lines : assigned key lines = 0%nat → value_after key seen lines = seen.
Proof.
  revert seen. induction lines as [|line lines IH]; intros seen; [done|]. rewrite value_after_cons. unfold assigned. cbn.
  destruct (bool_decide _); [done|]. apply IH.
Qed.

Lemma value_after_seen key s1 s2 lines : assigned key lines ≠ 0%nat → value_after key s1 lines = value_after key s2 lines.
Proof.
  revert s1 s2. induction lines as [|line lines IH]; intros s1 s2; [done|]. rewrite !value_after_cons. unfold assigned. cbn.
  destruct (bool_decide _); [done|]. apply IH.
Qed.

Lemma assigned_cons key line lines :
  assigned key (line :: lines) = ((if bool_decide (line_key line = Some key) then 1 else 0) + assigned key lines)%nat.
Proof. unfold assigned. cbn. by destruct (bool_decide _). Qed.

Lemma get_item_del {A} k k' (d : list (string * A)) : get_item k (del_item k' d) = if bool_decide (k = k') then None else get_item k d.
Proof.
  unfold get_item, del_item. induction d as [|[k0 v0] d IH]; cbn; [by destruct (bool_decide _)|].
  destruct (bool_decide_reflect (k0 = k')) as [->|Hne]; cbn.
  - rewrite IH. destruct (bool_decide_reflect (k = k')) as [|Hk]; [done|]. by rewrite bool_decide_eq_false_2 by congruence.
  - destruct (bool_decide_reflect (k0 = k)) as [->|Hk]; [by rewrite (bool_decide_eq_false_2 (k = k'))|done].
Qed.

Definition good_keys (d : list (string * string)) : Prop := Forall (λ kv, good_key kv.1 = true) d.

Lemma good_del k d : good_keys d → good_keys (del_item k d).
Proof.
  unfold good_keys, del_item. rewrite !Forall_forall. intros H x Hx. apply H. apply list_elem_of_In, filter_In in Hx as [Hx _].
  by apply list_elem_of_In.
Qed.

Lemma get_item_good k v d : good_keys d → get_item k d = Some v → good_key k = true.
Proof.
  unfold good_keys, get_item. rewrite Forall_forall. intros H. destruct (List.find _ d) as [[k' v']|] eqn:E; [|done].
  intros [= ->]. apply find_some in E as [E1 E2]. cbn in E2. apply bool_decide_eq_true in E2 as ->. by apply (H (k, v)), list_elem_of_In.
Qed.

(** One line of the loop. *)
Lemma update_cons remaining line lines : good_keys remaining →
  (∃ k v, line_key line = Some k ∧ get_item k remaining = Some v ∧ good_key k = true ∧
     update_lines remaining (line :: lines) =
       (assignment k v :: (update_lines (del_item k remaining) lines).1, (update_lines (del_item k remaining) lines).2)) ∨
  (∀ k, line_key line = Some k → get_item k remaining = None) ∧
     update_lines remaining (line :: lines) = (line :: (update_lines remaining lines).1, (update_lines remaining lines).2).
Proof.
  intros Hg. cbn [update_lines]. destruct (line_key line) as [k|] eqn:Hk; cbn.
  - destruct (get_item k remaining) as [v|] eqn:Hv; cbn.
    + left. exists k, v. split_and!; [done..|by eapply get_item_good|]. by destruct (update_lines _ lines).
    + right. split; [by intros k' [= <-]|]. by destruct (update_lines _ lines).
  - right. split; [done|]. by destruct (update_lines _ lines).
Qed.

(** A key that is not to be set keeps its assignments. *)
Lemma update_other key remaining lines seen : good_keys remaining → get_item key remaining = None →
  value_after key seen (update_lines remaining lines).1 = value_after key seen lines ∧
  get_item key (update_lines remaining lines).2 = None ∧ good_keys (update_lines remaining lines).2.
Proof.
  revert remaining seen. induction lines as [|line lines IH]; intros remaining seen Hg Hk; [done|].
  destruct (update_cons remaining line lines Hg) as [(k & v & Hl & Hv & Hgk & ->)|[Hno ->]]; cbn [fst snd]; rewrite !value_after_cons.
  - assert (k ≠ key) by congruence. rewrite Hl, assignment_key by done. rewrite bool_decide_eq_false_2 by congruence.
    apply IH; [by apply good_del|]. rewrite get_item_del. by rewrite Hk; destruct (bool_decide _).
  - by apply IH.
Qed.

(** A key to be set: its first assignment is replaced, later ones stay; without one it stays to be added. *)
Lemma update_set key v remaining lines seen : good_keys remaining → get_item key remaining = Some v →
  value_after key seen (update_lines remaining lines).1 =
    (if Nat.eqb (assigned key lines) 1 then Some (str_strip v) else value_after key seen lines) ∧
  get_item key (update_lines remaining lines).2 = (if Nat.eqb (assigned key lines) 0 then Some v else None) ∧
  good_keys (update_lines remaining lines).2.
Proof.
  revert remaining seen. induction lines as [|line lines IH]; intros remaining seen Hg Hk; [done|]. rewrite assigned_cons.
  destruct (update_cons remaining line lines Hg) as [(k & v' & Hl & Hv & Hgk & ->)|[Hno ->]]; cbn [fst snd]; rewrite !value_after_cons.
  - rewrite Hl, assignment_key by done. destruct (bool_decide_reflect (Some k = Some key)) as [[= ->]|Hne].
    + assert (v' = v) as -> by congruence. rewrite assignment_value by done.
      destruct (update_other key (del_item key remaining) lines (Some (str_strip v))) as (H1 & H2 & H3);
        [by apply good_del|by rewrite get_item_del, bool_decide_eq_true_2|]. rewrite H1, H2. cbn [Nat.add Nat.eqb].
      split_and!; [|done..]. destruct (Nat.eqb_spec (assigned key lines) 0) as [H0|H0]; [by apply value_after_none|by apply value_after_seen].
    + apply IH; [by apply good_del|]. by rewrite get_item_del, bool_decide_eq_false_2 by congruence.
  - rewrite bool_decide_eq_false_2; [by apply IH|]. intros Hl. apply Hno in Hl. congruence.
Qed.

Lemma NoDup_del {A} k (d : list (string * A)) : NoDup d.*1 → NoDup (del_item k d).*1.
Proof.
  unfold del_item. induction d as [|[k' v] d IH]; cbn; [done|]. intros [Hk Hd]%NoDup_cons.
  destruct (bool_decide _); cbn; [by apply IH|]. apply NoDup_cons. split; [|by apply IH].
  intros (x & -> & Hx)%list_elem_of_fmap. apply list_elem_of_In, filter_In in Hx as [Hx _]. apply Hk.
  by apply list_elem_of_fmap_2, list_elem_of_In.
Qed.

Lemma update_NoDup remaining lines : NoDup remaining.*1 → NoDup (update_lines remaining lines).2.*1.
Proof.
  revert remaining. induction lines as [|line lines IH]; intros remaining Hd; cbn; [done|].
  destruct (_ ≫= _) as [[k v]|].
  - specialize (IH (del_item k remaining) (NoDup_del _ _ Hd)). by destruct (update_lines _ lines).
  - specialize (IH remaining Hd). by destruct (update_lines _ lines).
Qed.

Lemma value_after_added key seen rest : good_keys rest → NoDup rest.*1 →
  value_after key seen (map (λ kv, assignment kv.1 kv.2) rest) =
    match get_item key rest with Some v => Some (str_strip v) | None => seen end.
Proof.
  revert seen. induction rest as [|[k v] rest IH]; intros seen Hg Hd; [done|].
  apply Forall_cons_1 in Hg as [Hk Hg]. apply NoDup_cons in Hd as [Hn Hd]. cbn [map]. rewrite value_after_cons. cbn [fst snd] in *.
  rewrite assignment_key, assignment_value by done. rewrite IH by done. unfold get_item at 2. cbn [List.find fst].
  rewrite (bool_decide_ext (Some k = Some key) (k = key)) by naive_solver. fold (get_item key rest).
  destruct (bool_decide_reflect (k = key)) as [->|Hne]; [|done]. cbn.
  destruct (get_item key rest) as [v'|] eqn:Hg'; [|done]. exfalso. apply Hn. unfold get_item in Hg'.
  destruct (List.find _ rest) as [[k' v'']|] eqn:E; [|done]. apply find_some in E as [E1 E2]. cbn in E2.
  apply bool_decide_eq_true in E2 as ->. apply list_elem_of_fmap. exists (key, v''). split; [done|by apply list_elem_of_In].
Qed.

Lemma good_values_keys values : good_values values → good_keys values.
Proof. intros (_ & _ & H). eapply Forall_impl; [exact H|]. by intros kv []. Qed.

(** What a reader finds after the update. *)
Lemma updated_value key values lines : good_values values →
  last_value key (updated_lines values lines) =
    match get_item key values with
    | Some v => if Nat.leb (assigned key lines) 1 then Some (str_strip v) else last_value key lines
    | None => last_value key lines
    end.
Proof.
  intros Hv. pose proof (good_values_keys _ Hv) as Hg. destruct Hv as (_ & Hd & _). unfold updated_lines.
  pose proof (update_NoDup values lines Hd) as Hdr.
  change (last_value key ?l) with (value_after key None l). destruct (update_lines values lines) as [u rest] eqn:E.
  unfold value_after. rewrite fold_left_app. fold (value_after key None u).
  fold (value_after key (value_after key None u) (map (λ kv, assignment kv.1 kv.2) rest)). fold (value_after key None lines).
  destruct (get_item key values) as [v|] eqn:Hkv.
  - destruct (update_set key v values lines None Hg Hkv) as (H1 & H2 & H3). rewrite E in H1, H2, H3. cbn [fst snd] in *.
    rewrite value_after_added, H2, H1 by done. destruct (assigned key lines) as [|[|n]] eqn:Ha; [|done..]. done.
  - destruct (update_other key values lines None Hg Hkv) as (H1 & H2 & H3). rewrite E in H1, H2, H3. cbn [fst snd] in *.
    by rewrite value_after_added, H2, H1.
Qed.

(** The lines that assign none of the keys, in their order. *)
Definition unmanaged (values : list (string * string)) (lines : list string) : list string :=
  List.filter (λ line, match line_key line with Some k => negb (str_in k values.*1) | None => true end) lines.

Lemma get_item_keys {A} k (d : list (string * A)) : str_in k d.*1 = bool_decide (is_Some (get_item k d)).
Proof.
  apply bool_decide_ext. unfold get_item. split.
  - intros ([k' v] & -> & Hin)%list_elem_of_fmap. destruct (List.find _ d) as [x|] eqn:E; [by eexists|].
    apply list_elem_of_In in Hin. pose proof (find_none _ _ E _ Hin) as Hn. cbn in Hn. by rewrite bool_decide_eq_true_2 in Hn.
  - intros [v Hv]. destruct (List.find _ d) as [[k' v']|] eqn:E; [|done]. apply find_some in E as [E1 E2]. cbn in E2.
    apply bool_decide_eq_true in E2 as ->. apply list_elem_of_fmap. exists (k, v'). split; [done|by apply list_elem_of_In].
Qed.

Lemma updated_unmanaged values remaining lines : good_keys remaining → (∀ k v, get_item k remaining = Some v → k ∈ values.*1) →
  unmanaged values (update_lines remaining lines).1 = unmanaged values lines ∧
  ∀ k v, get_item k (update_lines remaining lines).2 = Some v → k ∈ values.*1.
Proof.
  revert remaining. induction lines as [|line lines IH]; intros remaining Hg Hin; [done|].
  destruct (update_cons remaining line lines Hg) as [(k & v & Hl & Hv & Hgk & ->)|[Hno ->]]; cbn [fst snd]; unfold unmanaged; cbn [List.filter].
  - rewrite Hl, assignment_key by done. unfold str_in. rewrite bool_decide_eq_true_2 by by eapply Hin. cbn [negb].
    apply IH; [by apply good_del|]. intros k' v'. rewrite get_item_del. destruct (bool_decide _); [done|apply Hin].
  - destruct (IH remaining Hg Hin) as [H1 H2]. split; [|done]. unfold unmanaged in H1. by rewrite H1.
Qed.

Lemma updated_lines_unmanaged values lines : good_values values →
  unmanaged values (updated_lines values lines) = unmanaged values lines.
Proof.
  intros Hv. pose proof (good_values_keys _ Hv) as Hg.
  destruct (updated_unmanaged values values lines Hg) as [H1 H2].
  { intros k v Hk. assert (str_in k values.*1 = true) as H%bool_decide_eq_true by (rewrite get_item_keys, Hk; by apply bool_decide_eq_true_2). done. }
  assert (Hgr : good_keys (update_lines values lines).2).
  { destruct values as [|[k v] values]; [by destruct Hv|]. apply (update_set k v _ _ None Hg). unfold get_item. cbn. by rewrite bool_decide_eq_true_2. }
  unfold updated_lines. destruct (update_lines values lines) as [u rest]. cbn [fst snd] in *. unfold unmanaged in *.
  rewrite List.filter_app, H1. rewrite <-(app_nil_r (List.filter _ lines)) at 2. f_equal.
  assert (Hin : ∀ k v, (k, v) ∈ rest → k ∈ values.*1).
  { intros k v Hkv. assert (str_in k rest.*1 = true) as H by (apply bool_decide_eq_true_2, list_elem_of_fmap; by exists (k, v)).
    rewrite get_item_keys in H. apply bool_decide_eq_true in H as [v' Hv']. by eapply H2. }
  clear H1 H2 Hv. induction rest as [|[k v] rest IH]; [done|]. apply Forall_cons_1 in Hgr as [Hk Hgr]. cbn in *.
  rewrite assignment_key by done. unfold str_in. rewrite bool_decide_eq_true_2 by (apply (Hin k v); by left). cbn.
  apply IH; [done|]. intros k' v' H. apply (Hin k' v'). by right.
Qed.

(** ** The text of a dotenv file *)

Lemma split_lines_line cur l r : forallb (λ c, negb (line_break c)) l = true →
  split_lines cur (l ++ newline :: r) = (reverse cur ++ l) :: split_lines [] r.
Proof.
  revert cur. induction l as [|c l IH]; intros cur; cbn; [by rewrite app_nil_r|]. intros [Hc Hl]%andb_prop.
  apply negb_true_iff in Hc. rewrite Hc, IH by done. by rewrite reverse_cons, <-(assoc_L (++)).
Qed.

Lemma universal_plain l : forallb (λ c, negb (bool_decide (c = "013"%char))) l = true → universal l = l.
Proof. induction l as [|c l IH]; cbn; [done|]. intros [Hc Hl]%andb_prop. apply negb_true_iff in Hc. by rewrite Hc, IH. Qed.

(** The characters of lines put one after another. *)
Definition lines_chars (lines : list string) : list ascii := concat (map (λ l, chars l ++ [newline]) lines).

Lemma lines_chars_cons x lines : lines_chars (x :: lines) = chars x ++ newline :: lines_chars lines.
Proof. unfold lines_chars. cbn [map concat]. by rewrite <-(assoc_L (++)). Qed.

Lemma join_lines lines : lines ≠ [] → chars (str_join newline_str lines +:+ newline_str) = lines_chars lines.
Proof.
  intros Hne. rewrite chars_app. change (chars newline_str) with [newline]. induction lines as [|x [|y lines] IH]; [done|..].
  - unfold lines_chars. cbn. by rewrite app_nil_r.
  - change (str_join newline_str (x :: y :: lines)) with (x +:+ newline_str +:+ str_join newline_str (y :: lines)).
    rewrite !chars_app, <-!(assoc_L (++)), IH by done. by rewrite (lines_chars_cons x).
Qed.

Lemma split_lines_chars lines : forallb plain_line lines = true → map of_chars (split_lines [] (lines_chars lines)) = lines.
Proof.
  induction lines as [|x lines IH]; [done|]. cbn [forallb]. intros [Hx Hl]%andb_prop. rewrite lines_chars_cons, split_lines_line by done. cbn [map]. rewrite IH by done. change (reverse [] ++ chars x) with (chars x).
  by rewrite of_chars_chars.
Qed.

Lemma lines_chars_no_cr lines : forallb plain_line lines = true →
  forallb (λ c, negb (bool_decide (c = "013"%char))) (lines_chars lines) = true.
Proof.
  induction lines as [|x lines IH]; [done|]. cbn [forallb]. intros [Hx Hl]%andb_prop. rewrite lines_chars_cons, forallb_app. cbn [forallb].
  rewrite IH by done. rewrite andb_true_r.
  eapply forallb_impl; [|exact Hx]. intros c Hc. destruct (bool_decide_reflect (c = "013"%char)) as [->|]; [done|done].
Qed.

Lemma text_lines_join lines : lines ≠ [] → forallb plain_line lines = true →
  text_lines (str_join newline_str lines +:+ newline_str) = lines.
Proof.
  intros Hne Hp. unfold text_lines, splitlines. rewrite join_lines, universal_plain, chars_of_chars by (done || by apply lines_chars_no_cr).
  by apply split_lines_chars.
Qed.

Lemma forallb_reverse {A} (f : A → bool) l : forallb f l = true → forallb f (reverse l) = true.
Proof.
  rewrite !forallb_forall. intros H x Hx. apply H. apply list_elem_of_In. apply list_elem_of_In in Hx. by rewrite elem_of_reverse in Hx.
Qed.

(** The lines of any text are plain. *)
Lemma split_lines_are_plain cur l : forallb (λ c, negb (line_break c)) cur = true →
  forallb (forallb (λ c, negb (line_break c))) (split_lines cur l) = true.
Proof.
  revert cur. induction l as [|c l IH]; intros cur Hc; cbn.
  - pose proof (forallb_reverse _ cur Hc) as Hr. destruct cur; [done|]. cbn [forallb]. by rewrite Hr.
  - destruct (line_break c) eqn:E; cbn [forallb].
    + by rewrite IH, forallb_reverse.
    + apply IH. cbn. by rewrite E.
Qed.

Lemma text_lines_plain text : forallb plain_line (text_lines text) = true.
Proof.
  unfold text_lines, splitlines. generalize (chars (of_chars (universal (chars text)))) as l. intros l.
  pose proof (split_lines_are_plain [] l eq_refl) as H. rewrite forallb_forall in *. intros x Hx.
  apply in_map_iff in Hx as (y & <- & Hy). unfold plain_line. rewrite chars_of_chars. by apply H.
Qed.

Lemma assignment_plain k v : good_key k = true → plain_line v = true → plain_line (assignment k v) = true.
Proof.
  intros [[Hk _]%andb_prop _]%andb_prop Hv. unfold plain_line, assignment in *. by rewrite chars_app, forallb_app, Hk.
Qed.

Lemma updated_lines_plain values lines : good_values values → forallb plain_line lines = true →
  forallb plain_line (updated_lines values lines) = true.
Proof.
  intros (_ & _ & Hv) Hl. unfold updated_lines.
  assert (H : ∀ remaining lines, Forall (λ kv, good_key kv.1 = true ∧ plain_line kv.2 = true) remaining → forallb plain_line lines = true →
    forallb plain_line (update_lines remaining lines).1 = true ∧
    Forall (λ kv, good_key kv.1 = true ∧ plain_line kv.2 = true) (update_lines remaining lines).2).
  { clear. intros remaining lines. revert remaining. induction lines as [|line lines IH]; intros remaining Hr Hl; [done|].
    cbn in Hl. apply andb_prop in Hl as [Hl Hls]. assert (Hg : good_keys remaining) by (eapply Forall_impl; [exact Hr|]; by intros kv []).
    destruct (update_cons remaining line lines Hg) as [(k & v & Hlk & Hv & Hgk & ->)|[Hno ->]]; cbn [fst snd forallb].
    - destruct (IH (del_item k remaining)) as [H1 H2]; [|done|].
      + rewrite Forall_forall in *. intros x Hx. apply Hr. apply list_elem_of_In, filter_In in Hx as [Hx _]. by apply list_elem_of_In.
      + rewrite H1, assignment_plain; [done..|]. unfold get_item in Hv. destruct (List.find _ remaining) as [[k' v']|] eqn:E; [|done].
        injection Hv as ->. apply find_some in E as [E1 _]. rewrite Forall_forall in Hr. by apply (Hr (k', v)), list_elem_of_In.
    - destruct (IH remaining Hr Hls) as [H1 H2]. by rewrite H1, Hl. }
  destruct (H values lines Hv Hl) as [H1 H2]. destruct (update_lines values lines) as [u rest]. cbn [fst snd] in *.
  rewrite forallb_app, H1. cbn. apply forallb_forall. intros x Hx. apply in_map_iff in Hx as ([k v] & <- & Hx).
  rewrite Forall_forall in H2. destruct (H2 (k, v)) as [Hk Hp]; [by apply list_elem_of_In|]. by apply assignment_plain.
Qed.

Lemma updated_lines_nonempty values lines : values ≠ [] → updated_lines values lines ≠ [].
Proof.
  intros Hv. unfold updated_lines. destruct lines as [|line lines]; cbn [update_lines]; [by destruct values|].
  destruct (_ ≫= _) as [[k v]|]; [by destruct (update_lines (del_item k values) lines)|by destruct (update_lines values lines)].
Qed.

(** ** Files *)

Lemma pure_file_lines target : pure_io (file_lines target).
Proof.
  intros s. unfold file_lines, attempt, mbind, io_bind. cbn. destruct (pure_read_text target s) as [-> ->]. cbn.
  destruct (value (read_text target s)) as [text|e]; [done|]. by case_bool_decide.
Qed.

Lemma file_lines_content target s text : content s target = Some (utf8_encode text) →
  value (file_lines target s) = Ok (Some (text_lines text)).
Proof.
  intros H. unfold file_lines, attempt, mbind, io_bind. cbn. unfold read_text.
  rewrite (bind_run_pure _ _ _ _ (read_bytes_run _ _ _ H)). cbn. by rewrite utf8_decode_encode.
Qed.

(** A file written beside its target and renamed over it. *)
Lemma replace_text_runs target scratch text s : scratch ≠ target → parent scratch = parent target → dir_exists s (parent target) = true →
  let m := _ ← write_text scratch text; os_replace scratch target in
  let f := File (utf8_encode text) false in
  runs (λ t, (files t !! target = files s !! target ∨ files t !! target = Some f) ∧
             ∀ p, p ≠ target → p ≠ scratch → files t !! p = files s !! p) m s
    (λ r t, r = Ok tt ∧ t = put target f (drop_file scratch s)).
Proof.
  intros Hne Hpar Hd m f. unfold m. eapply runs_bind.
  - eapply runs_weaken; [apply (write_bytes_runs scratch); by rewrite Hpar| |by intros r t H; exact H].
    intros t [_ Ht]. split; [left; by apply Ht|]. intros p Hp Hp'. by apply Ht.
  - intros [] t [_ ->]. unfold runs, os_replace. cbn [put files]. rewrite lookup_insert_eq.
    change (dir_exists (put _ _ s) (parent target)) with (dir_exists s (parent target)). rewrite Hd. unfold step. cbn [trace value final].
    assert (Heq : drop_file scratch (put scratch f s) = drop_file scratch s) by (unfold drop_file, put; cbn; by rewrite delete_insert_eq).
    fold f. rewrite Heq. split; [|done]. apply Forall_singleton. cbn. split; [right; by rewrite lookup_insert_eq|].
    intros p Hp Hp'. by rewrite lookup_insert_ne, lookup_delete_ne.
  - by intros e t [? _].
Qed.

(** Writing secrets to a dotenv file sets them and loses nothing: the run is all or nothing (a crash
    leaves the old file or the whole new one, other files are never touched, no scratch file stays), lines
    that assign none of the keys are kept in order, every other key reads as before, and a key that was
    assigned at most once reads as the value written; a key that was assigned more often keeps reading as
    its last old assignment, since only the first is replaced. *)
Theorem env_write_read target scratch values s old :
  good_values values → scratch ≠ target → parent scratch = parent target → dir_exists s (parent target) = true →
  value (file_lines target s) = Ok old →
  let lines := match old with Some l => l | None => [] end in
  let new := utf8_encode (env_text values lines) in
  let out := write_env_values target scratch values s in
  value out = Ok target ∧
  Forall (λ t, (content t target = content s target ∨ content t target = Some new) ∧
               forall p, p ≠ target → p ≠ scratch → content t p = content s p) (trace out) ∧
  content (final out) scratch = None ∧
  (exists lines', value (file_lines target (final out)) = Ok (Some lines') ∧ unmanaged values lines' = unmanaged values lines) ∧
  forall key, value (read_env_value target key (final out)) =
    Ok (match get_item key values with
        | Some v => if Nat.leb (assigned key lines) 1 then Some (str_strip v) else last_value key lines
        | None => last_value key lines
        end).
Proof.
  intros Hv Hne Hpar Hd Hold lines new out.
  assert (Hlines : forallb plain_line lines = true).
  { unfold lines. destruct old as [l|]; [|done]. unfold file_lines, attempt, mbind, io_bind in Hold. cbn in Hold.
    destruct (value (read_text target s)) as [text|e]; cbn in Hold; [injection Hold as <-; apply text_lines_plain|].
    by destruct (bool_decide _). }
  assert (Hnew : text_lines (env_text values lines) = updated_lines values lines).
  { apply text_lines_join; [apply updated_lines_nonempty; by destruct Hv|by apply updated_lines_plain]. }
  pose (m := (_ ← write_text scratch (env_text values lines); os_replace scratch target) : io unit).
  pose proof (replace_text_runs target scratch (env_text values lines) s Hne Hpar Hd) as Hm. cbn zeta in Hm. fold m in Hm.
  destruct Hm as [Htr [Hval Hfin]].
  assert (Hout : out = Out (trace (m s)) (put target (File new false) (drop_file scratch s)) (Ok target)).
  { unfold out, write_env_values. rewrite (bind_run_pure _ _ _ old).
    2:{ rewrite (pure_run _ s (pure_file_lines target)). by rewrite Hold. }
    fold lines. fold m. rewrite (bind_run _ _ s (put target (File new false) (drop_file scratch s)) (trace (m s)) tt).
    - cbn. by rewrite app_nil_r.
    - unfold after. rewrite Hval. cbn. destruct (m s). cbn in *. by subst. }
  rewrite Hout. cbn [value trace final]. split_and!; [done|..].
  - eapply Forall_impl; [exact Htr|]. intros t [Ht Hp]. unfold content. split; [destruct Ht as [->| ->]; [by left|by right]|].
    intros p H1 H2. by rewrite Hp.
  - unfold content. cbn. by rewrite lookup_insert_ne, lookup_delete_eq.
  - exists (updated_lines values lines). split; [|by apply updated_lines_unmanaged]. rewrite <-Hnew. apply file_lines_content. apply content_put_eq.
  - intros key. unfold read_env_value, mbind, io_bind. rewrite (file_lines_content _ _ (env_text values lines)) by apply content_put_eq.
    cbn. rewrite Hnew. by rewrite updated_value.
Qed.

Definition demo_env_fs : fsys := FSys {[ [".env"; "app"] := File (of_chars (chars "A=1" ++ [newline] ++ chars "B=2" ++ [newline] ++ chars "A=3")) true ]} {[ ["app"] ]}.

Lemma env_write_read_witness :
  let out := write_env_values [".env"; "app"] [".env.x1"; "app"] [("B", "t0ken"); ("C", "c")] demo_env_fs in
  value out = Ok [".env"; "app"] ∧
  Forall (λ t, (content t [".env"; "app"] = content demo_env_fs [".env"; "app"] ∨
                content t [".env"; "app"] = Some (utf8_encode (env_text [("B", "t0ken"); ("C", "c")] ["A=1"; "B=2"; "A=3"]))) ∧
               forall p, p ≠ [".env"; "app"] → p ≠ [".env.x1"; "app"] → content t p = content demo_env_fs p) (trace out) ∧
  content (final out) [".env.x1"; "app"] = None ∧
  (exists lines', value (file_lines [".env"; "app"] (final out)) = Ok (Some lines') ∧
     unmanaged [("B", "t0ken"); ("C", "c")] lines' = unmanaged [("B", "t0ken"); ("C", "c")] ["A=1"; "B=2"; "A=3"]) ∧
  forall key, value (read_env_value [".env"; "app"] key (final out)) =
    Ok (match get_item key [("B", "t0ken"); ("C", "c")] with
        | Some v => if Nat.leb (assigned key ["A=1"; "B=2"; "A=3"]) 1 then Some (str_strip v) else last_value key ["A=1"; "B=2"; "A=3"]
        | None => last_value key ["A=1"; "B=2"; "A=3"]
        end).
Proof.
  apply (env_write_read [".env"; "app"] [".env.x1"; "app"] [("B", "t0ken"); ("C", "c")] demo_env_fs (Some ["A=1"; "B=2"; "A=3"])).
  - split; [done|]. split; [apply (bool_decide_eq_true_1 (NoDup _)); vm_compute; reflexivity|].
    repeat (apply Forall_cons; split; [split; vm_compute; reflexivity|]). constructor.
  - done.
  - done.
  - vm_compute. reflexivity.
  - vm_compute. reflexivity.
Defined.

(** A key assigned twice: the first line is replaced, and the file still reads as the second. *)
Example stale_assignment_wins :
  updated_lines [("A", "9")] ["A=1"; "B=2"; "A=3"] = ["A=9"; "B=2"; "A=3"] ∧ last_value "A" ["A=9"; "B=2"; "A=3"] = Some "3".
Proof. split; vm_compute; reflexivity. Qed.

(** A form feed inside a line becomes a line break of its own. *)
Example form_feed_splits : length (text_lines (of_chars (chars "# a" ++ ["012"%char] ++ chars "b"))) = 2%nat.
Proof. vm_compute. reflexivity. Qed.

(** ** Credentials, saved and loaded *)

Section saved.
Context (expanduser : string → path).

Lemma no_slash_idem s : no_slash (no_slash s) = no_slash s.
Proof.
  unfold no_slash, str_rstrip_char. rewrite chars_of_chars, reverse_involutive. do 2 f_equal.
  induction (reverse (chars s)) as [|c l IH]; cbn; [done|]. destruct (bool_decide (c = "/"%char)) eqn:E; [done|]. cbn. by rewrite E.
Qed.

Lemma loads_credentials host token : loads (credentials_text host token) =
  Ok (canon (dict_of [("host", PStr (no_slash host)); ("token", PStr token)])).
Proof. unfold credentials_text. apply loads_line; try apply _. vm_compute. reflexivity. Qed.

Lemma stored_text host token : no_slash host ≠ "" → token ≠ "" →
  stored_credentials (credentials_text host token) = Ok (Some (Creds (no_slash (no_slash host)) (PStr token) "file")).
Proof.
  intros Hh Ht. unfold stored_credentials. rewrite loads_credentials. unfold dict_of. cbn [map fst snd]. rewrite canon_dict.
  change (canon_items _) with [(PStr "host", PStr (no_slash host)); (PStr "token", PStr token)].
  assert (Htrue : ∀ x, x ≠ "" → truthy (PStr x) = true) by by intros [].
  change (py_get _ "host" PNone) with (Ok (PStr (no_slash host))). change (py_get _ "token" PNone) with (Ok (PStr token)).
  cbn [mbind result_bind]. by rewrite !Htrue.
Qed.

(** Saved credentials are loaded back: after [save_credentials], an environment without overrides loads
    exactly the host (without trailing slashes) and token that were saved; a crash while saving leaves the
    old credentials file or the whole new one; and a token in the environment is never combined with the
    host of the file, whatever the file holds. *)
Theorem credentials_roundtrip env host token s :
  env_value env "ORECLOUD_TOKEN" = None → env_value env "ORECLOUD_HOST" = None → no_slash host ≠ "" → token ≠ "" →
  let target := credentials_file expanduser env in
  let out := save_credentials expanduser env host token s in
  value out = Ok target ∧
  Forall (λ t, content t target = content s target ∨ content t target = Some (utf8_encode (credentials_text host token))) (trace out) ∧
  value (load_credentials expanduser env (final out)) = Ok (Some (Creds (no_slash host) (PStr token) "file")) ∧
  forall t, t ≠ "" →
    load_credentials expanduser (<["ORECLOUD_TOKEN" := t]> env) (final out) = Out [] (final out) (Ok (Some (Creds DEFAULT_HOST (PStr t) "env"))).
Proof.
  intros Ht Hh Hhost Htok target out.
  destruct (mkdir_p_run (parent target) s) as (tr & ds & Hmk & Hds & Hd & Htr).
  set (s1 := FSys (files s) ds) in *.
  assert (Hne : tmp_of target ≠ target) by apply tmp_of_ne.
  pose (m := (_ ← write_text (tmp_of target) (credentials_text host token); os_replace (tmp_of target) target) : io unit).
  pose proof (replace_text_runs target (tmp_of target) (credentials_text host token) s1 Hne eq_refl Hd) as Hm. cbn zeta in Hm. fold m in Hm.
  destruct Hm as [Hmt [Hval Hfin]].
  set (new := File (utf8_encode (credentials_text host token)) false) in *.
  assert (Hout : out = Out (tr ++ trace (m s1)) (put target new (drop_file (tmp_of target) s1)) (Ok target)).
  { unfold out, save_credentials. fold target. rewrite (bind_run _ _ _ _ _ _ Hmk).
    change (Out (tr ++ trace ((_ ← m; mret target) s1)) (final ((_ ← m; mret target) s1)) (value ((_ ← m; mret target) s1)) = Out (tr ++ trace (m s1)) (put target new (drop_file (tmp_of target) s1)) (Ok target)).
    rewrite (bind_run m _ s1 (put target new (drop_file (tmp_of target) s1)) (trace (m s1)) tt); [cbn; by rewrite app_nil_r|].
    destruct (m s1). cbn in *. by subst. }
  rewrite Hout. cbn [value trace final]. split_and!; [done|..].
  - apply Forall_app_2; (eapply Forall_impl; [first [exact Htr|exact Hmt]|]); intros t Hf; unfold content.
    + left. by rewrite Hf.
    + destruct Hf as [[->| ->] _]; [by left|by right].
  - unfold load_credentials. rewrite Ht, Hh. fold target. unfold attempt, mbind, io_bind. cbn.
    pose proof (content_put_eq (drop_file (tmp_of target) s1) target new) as Hc. unfold read_text.
    rewrite (bind_run_pure _ _ _ _ (read_bytes_run _ _ _ Hc)). cbn [fdata new lift value final trace]. rewrite utf8_decode_encode. cbn.
    rewrite stored_text by done. cbn. by rewrite no_slash_idem.
  - intros t Ht'. unfold load_credentials, env_value. rewrite lookup_insert_eq, (bool_decide_eq_false_2 (t = "")) by done.
    rewrite lookup_insert_ne by done. fold (env_value env "ORECLOUD_HOST"). by rewrite Hh.
Qed.
End saved.

Lemma credentials_roundtrip_witness :
  let target := ["credentials.json"; ".orecloud"; "root"] in
  let out := save_credentials (λ _, [".orecloud"; "root"]) ∅ "https://ore.example/" "ore_pat_1" (FSys ∅ ∅) in
  value out = Ok target ∧
  Forall (λ t, content t target = content (FSys ∅ ∅) target ∨
               content t target = Some (utf8_encode (credentials_text "https://ore.example/" "ore_pat_1"))) (trace out) ∧
  value (load_credentials (λ _, [".orecloud"; "root"]) ∅ (final out)) = Ok (Some (Creds "https://ore.example" (PStr "ore_pat_1") "file")) ∧
  forall t, t ≠ "" →
    load_credentials (λ _, [".orecloud"; "root"]) (<["ORECLOUD_TOKEN" := t]> ∅) (final out)
      = Out [] (final out) (Ok (Some (Creds DEFAULT_HOST (PStr t) "env"))).
Proof.
  refine (credentials_roundtrip (λ _, [".orecloud"; "root"]) ∅ "https://ore.example/" "ore_pat_1" (FSys ∅ ∅) eq_refl eq_refl _ _);
    vm_compute; discriminate.
Defined.

(** A host override without a token is refused, even where a token was given by the caller. *)
Example host_without_token : value (load_credentials (λ _, []) {[ "ORECLOUD_HOST" := "https://ore.example" ]} (FSys ∅ ∅)) = raise CredentialsError half_set.
Proof. reflexivity. Qed.

(** A line break in a store name is written as it is, which no TOML basic string may hold. *)
Example toml_keeps_newline : toml_quote ("a" +:+ newline_str +:+ "b") = String dquote ("a" +:+ newline_str +:+ "b" +:+ String dquote "").
Proof. reflexivity. Qed.

