(* ===== verification/CloudAccount.v ===== *)
(** * Credentials, tenancy and the client

    [cloud/client.py], the targets and [connect] of [cloud/serving.py], the contexts of
    [cloud/_sealing.py] and the login handoff of [cloud/transfer.py]: which control plane, organisation
    and environment a program addresses, and the client that is bound to them. HPKE, the sealed box of the
    login and the ISO 8601 parser are parameters; closing a connection pool is a call on the world
    ([Pool]). Tenancy is never guessed ([tenancy_never_guessed]), and a handle that fails to open does not
    keep its pool ([connect_releases_pool]). *)

From Stdlib Require Import Ascii String ZArith Lia SpecFloat.
From stdpp Require Import base strings gmap sets list.
From S2P Require Import Prelude Numbers PyVal Bytes Json FileSys Traces Base64 CloudClient CloudSync CloudStore CloudConfig.

Local Open Scope Z_scope.

(** ** Credentials *)

Definition truthy_opt (o : option string) : bool := match o with Some s => bool_decide (s ≠ "") | None => false end.

(** [stored] is what [load_credentials] gives, evaluated only where an argument is missing. *)
Definition resolve_credentials (stored : result (option Credentials)) (token host : option string) : result (string * pyval) :=
  '(token, host) ← (match token, host with
    | Some t, Some h => Ok (PStr t, Some h)
    | _, _ =>
        s ← stored;
        Ok (match token with Some t => PStr t | None => match s with Some c => cr_token c | None => PNone end end,
            match host with Some h => Some h | None => cr_host <$> s end)
    end);
  if truthy token then Ok (no_slash (if truthy_opt host then match host with Some h => h | None => "" end else DEFAULT_HOST), token)
  else cloud_error 401 "no credential configured — pass token=, set ORECLOUD_TOKEN, or run `lodedb cloud login`" None.

(** ** Sealing *)

Definition create_info (org environment store : string) : bytes :=
  utf8_encode "orecloud/store-create/v1|org=" +:+ utf8_encode org +:+ utf8_encode "|env=" +:+ utf8_encode environment
  +:+ utf8_encode "|store=" +:+ utf8_encode store.

Definition key_material (material : option bytes) (message : string) : result bytes :=
  match material with
  | Some m => if Nat.eqb (slen m) 32 then Ok m else raise ValueError message
  | None => raise ValueError message
  end.
Definition _require_key_material (material : option bytes) : result bytes := key_material material "key_material must be exactly 32 bytes".

(** [base64.b64decode(v, validate=True)] of a JSON value. *)
Definition b64_value (v : pyval) : result bytes :=
  match v with PStr s => b64decode s | _ => raise TypeError "argument should be a bytes-like object or ASCII string" end.

(** The error a caught class of exceptions is turned into. *)
Definition or_value_error {A} (kinds : list exn_kind) (m : result A) (message : string) : result A :=
  match m with
  | Ok a => Ok a
  | Err e => if is_value_error e || bool_decide (exn_class e ∈ kinds) then raise ValueError message else Err e
  end.

Definition _challenge_info (challenge : pyval) : result bytes :=
  or_value_error [KeyError; TypeError] (info ← py_index challenge "info"; b64_value info) "unseal challenge returned invalid info".

Fixpoint has_fields (challenge : pyval) (names : list string) : result unit :=
  match names with
  | [] => Ok tt
  | n :: names =>
      match py_index challenge n with
      | Ok _ => has_fields challenge names
      | Err e => if bool_decide (exn_class e ∈ [KeyError; TypeError]) then raise ValueError ("unseal challenge missing " +:+ n) else Err e
      end
  end.
Definition _validate_unseal_challenge (challenge : pyval) : result pyval :=
  _ ← has_fields challenge ["recipient_public_key"; "nonce"; "info"]; Ok challenge.

(** ** Targets *)

Inductive target := BareStore (store : string) | Managed (remote : ManagedRemote).

Definition _parse_target (text : string) : result target :=
  let is_url := startswith SCHEME text in
  let body := if is_url then str_drop (slen SCHEME) text else text in
  let segments := str_split_char "/"%char (strip_slashes body) in
  let full := forallb (λ s, bool_decide (s ≠ "")) segments in
  let malformed := cloud_error 422 ("malformed target " +:+ str_repr text
    +:+ "; expected a bare store id ('user-42' — org/environment come from the credential), 'org/environment/store', or an orecloud:// URL") None in
  match segments with
  | [store] => if full then Ok (BareStore store) else malformed
  | [org; environment] => if is_url && full then Ok (Managed (Remote org environment "memory")) else malformed
  | [org; environment; store] => if full then Ok (Managed (Remote org environment store)) else malformed
  | _ => malformed
  end.

(** ** Tenancy *)

(** [", ".join(slugs)] *)
Definition join_slugs (slugs : list pyval) : result string :=
  l ← mapR (λ v, match v with PStr s => Ok s | _ => raise TypeError "sequence item: expected str instance" end) slugs;
  Ok (str_join ", " l).

Definition slugs_of (rows : pyval) : result (list pyval) := rows ← py_iter rows; mapR (λ row, py_index row "slug") rows.

Definition no_introspection : exn :=
  Exn (CloudError 404 None)
    "this control plane does not support token introspection — pass org= and environment= explicitly, or upgrade the server".

(** The binding of an environment token, unless an explicit value contradicts it. *)
Definition bound_tenancy (info : pyval) (org environment : option string) : result (pyval * pyval) :=
  bound_org ← py_index info "org";
  bound_environment ← py_index info "environment";
  if truthy_opt org && negb (same_id (str_val org) bound_org) then
    cloud_error 403 ("this token is bound to org " +:+ py_repr bound_org +:+ ", not " +:+ py_repr (str_val org)) None
  else if truthy_opt environment && negb (same_id (str_val environment) bound_environment) then
    cloud_error 403 ("this token is bound to environment " +:+ py_repr bound_environment +:+ ", not " +:+ py_repr (str_val environment)) None
  else Ok (bound_org, bound_environment).

Definition only_org (slugs : list pyval) : result pyval :=
  match slugs with
  | [] => cloud_error 404 "this account belongs to no org" None
  | [slug] => Ok slug
  | _ => names ← join_slugs slugs;
         cloud_error 422 ("this account belongs to several orgs — pass org= (one of: " +:+ names +:+ ")") None
  end.

Definition pick_environment (org : pyval) (slugs : list pyval) : result pyval :=
  match slugs with
  | [slug] => Ok slug
  | _ =>
      if existsb (same_id (PStr "testing")) slugs then Ok (PStr "testing")
      else
        names ← (match slugs with [] => Ok "(none live)" | _ => l ← join_slugs slugs; Ok ("(one of: " +:+ l +:+ ")") end);
        cloud_error 422 ("org " +:+ py_repr org +:+ " has " +:+ Z_str (Z.of_nat (length slugs)) +:+ " environments — pass environment= " +:+ names) None
  end.

(** The connection pool of a client. *)
Class Pool (W : Type) := close_pool : st W unit.

Section account.
Context {W : Type} {HttpW : Http W}.

Definition resolve_tenancy (org environment : option string) : st W (pyval * pyval) :=
  if truthy_opt org && truthy_opt environment then mret (str_val org, str_val environment)
  else
    info ← st_try token_self (λ e, if bool_decide (status_code e = Some 404) then st_lift (Err no_introspection) else st_lift (Err e));
    bound ← st_lift (py_index info "environment");
    if truthy bound then st_lift (bound_tenancy info org environment)
    else
      org ← (match org with
             | Some o => mret (PStr o)
             | None => account ← me; rows ← st_lift (py_index account "orgs"); slugs ← st_lift (slugs_of rows); st_lift (only_org slugs)
             end);
      environment ← (match environment with
             | Some e => mret (PStr e)
             | None => rows ← list_environments (py_str org); slugs ← st_lift (slugs_of rows); st_lift (pick_environment org slugs)
             end);
      mret (org, environment).

(** ** The client *)

Record client := Bound { cl_host : string; cl_org : string; cl_environment : string }.

Section pool.
Context {PoolW : Pool W}.

(** [try: m except BaseException: client.close(); raise] *)
Definition or_close {A} (m : st W A) : st W A := st_try m (λ e, _ ← close_pool; st_lift (Err e)).

Definition Client (stored : result (option Credentials)) (token host org environment : option string) : st W client :=
  '(host, _) ← st_lift (resolve_credentials stored token host);
  '(org, environment) ← or_close (resolve_tenancy org environment);
  mret (Bound host (py_str org) (py_str environment)).

(** [connect]: the handle, with its own pool. *)
Definition new_handle (org environment store : string) (key : option string) (read_your_writes : bool) : handle :=
  Handle org environment store key read_your_writes (float_of_Z 30).

Definition connectable (e : exn) : bool :=
  bool_decide (status_code e = Some 404)
  && (str_contains "nothing has been pushed" (exn_msg e) || str_contains "no such store" (exn_msg e)).

Definition warm_up (store : handle) : st W unit :=
  st_try (_ ← stats store true; mret tt) (λ e, if connectable e then mret tt else _ ← close_pool; st_lift (Err e)).

Definition connect (stored : result (option Credentials)) (text : string) (token host key : option string) (warm read_your_writes : bool)
    : st W handle :=
  remote ← st_lift (_parse_target text);
  _ ← st_lift (resolve_credentials stored token host);
  remote ← (match remote with
            | Managed r => mret r
            | BareStore store =>
                '(org, environment) ← or_close (resolve_tenancy None None);
                mret (Remote (py_str org) (py_str environment) store)
            end);
  let store := new_handle (rm_org remote) (rm_environment remote) (rm_store remote) key read_your_writes in
  _ ← (if (warm : bool) then warm_up store else mret tt);
  mret store.
End pool.

Definition client_store (c : client) (store : string) (key : option string) (warm read_your_writes : bool) : st W handle :=
  let h := new_handle (cl_org c) (cl_environment c) store key read_your_writes in
  _ ← (if (warm : bool) then (_ ← stats h true; mret tt) else mret tt);
  mret h.

(** ** Stores *)

Section sealing.
Context {AmbientW : Ambient W}.
(** HPKE encryption to a raw public key; an ISO 8601 timestamp with its awareness. *)
Context (encrypt : bytes → bytes → bytes → result bytes) (fromisoformat : pyval → result (string * bool)).

Definition seal_material (material : bytes) (recipient_public_key : pyval) (info : bytes) : result string :=
  _ ← key_material (Some material) "delegated material must be exactly 32 bytes";
  raw ← or_value_error [TypeError] (b64_value recipient_public_key) "recipient public key must be base64 raw 32 bytes";
  if negb (Nat.eqb (slen raw) 32) then raise ValueError "recipient public key must be base64 raw 32 bytes"
  else sealed ← encrypt material raw info; Ok (b64encode sealed).

Definition _unseal_expires_at (response : pyval) : result string :=
  '(text, aware) ← or_value_error [KeyError; TypeError] (v ← py_index response "expires_at"; fromisoformat v)
    "unseal response returned invalid expires_at";
  if (aware : bool) then Ok text else raise ValueError "unseal response returned a naive expires_at".

(** What a caller names of a new store; [so_mode] of the request is ["local_push"] where nothing is named. *)
Record creation := Creation
  { cn_mode : option string; cn_expose_text : bool; cn_preset : option string; cn_vector_dim : option Z }.
Definition creation_options (o : creation) (default_mode : string) (encrypted : bool) (sealed : option string) : store_options :=
  StoreOptions (match cn_mode o with Some m => m | None => default_mode end) (cn_expose_text o) (cn_preset o) (cn_vector_dim o) encrypted sealed.

Definition create_once (c : client) (store : string) (key : option string) (material : option bytes) (o : creation) : st W pyval :=
  match material with
  | None => create_store (cl_org c) (cl_environment c) store key (creation_options o "local_push" false None)
  | Some material =>
      challenge ← store_create_challenge (cl_org c) (cl_environment c);
      public_key ← st_lift (match py_index challenge "recipient_public_key" with
        | Err e => if bool_decide (exn_class e = KeyError)
                   then raise ValueError "store creation challenge returned no recipient public key" else Err e
        | Ok v => Ok v
        end);
      sealed ← st_lift (seal_material material public_key (create_info (cl_org c) (cl_environment c) store));
      create_store (cl_org c) (cl_environment c) store key (creation_options o "cloud_writer" true (Some sealed))
  end.

Definition _CREATE_CONFLICT_RETRIES : nat := 2.

Fixpoint create_loop (rounds : nat) (conflicts : nat) (create : st W pyval) : st W pyval :=
  match rounds with
  | O => st_lift (raise OutOfFuel "")
  | S rounds =>
      st_try create (λ e,
        if negb (bool_decide (status_code e = Some 409) && bool_decide (code e = Some "empty_head_artifact_missing")) then st_lift (Err e)
        else if Nat.ltb _CREATE_CONFLICT_RETRIES (S conflicts) then st_lift (Err e)
        else _ ← sleep (retry_pause e (fmul quarter (float_of_Z (Z.of_nat (S conflicts))))); create_loop rounds (S conflicts) create)
  end.

Definition client_create_store (c : client) (store : string) (key : option string) (encrypted : bool) (material : option bytes)
    (o : creation) : st W pyval :=
  if bool_decide (is_Some material) && negb encrypted then st_lift (raise ValueError "key_material applies only to encrypted stores")
  else
    material ← st_lift (if encrypted then m ← _require_key_material material; Ok (Some m) else Ok None);
    create_loop (S _CREATE_CONFLICT_RETRIES) 0 (create_once c store key material o).

Definition client_unseal_challenge (c : client) (store : string) : st W pyval :=
  challenge ← store_unseal_challenge (cl_org c) (cl_environment c) store; st_lift (_validate_unseal_challenge challenge).

Definition unseal_store_sealed (c : client) (store : string) (sealed_material nonce : pyval) (ttl : option Z) : st W string :=
  response ← unseal_store (cl_org c) (cl_environment c) store
    (dict_of [("ttl_seconds", match ttl with Some t => PInt t | None => PNone end); ("sealed_material", sealed_material); ("nonce", nonce)]);
  st_lift (_unseal_expires_at response).

(** The caller's material, sealed to a challenge. *)
Definition seal_to (material : bytes) (challenge : pyval) : result string :=
  public_key ← py_index challenge "recipient_public_key"; info ← _challenge_info challenge; seal_material material public_key info.

Definition client_unseal_store (c : client) (store : string) (material : option bytes) (ttl : option Z) : st W string :=
  material ← st_lift (_require_key_material material);
  challenge ← client_unseal_challenge c store;
  sealed ← st_lift (seal_to material challenge);
  nonce ← st_lift (py_index challenge "nonce");
  unseal_store_sealed c store (PStr sealed) nonce ttl.

Definition client_reseal_store (c : client) (store : string) : st W bool :=
  response ← reseal_store (cl_org c) (cl_environment c) store;
  resealed ← st_lift (py_index response "resealed");
  mret (truthy resealed).

Definition client_rotate_store_key (c : client) (store : string) (material : option bytes) : st W unit :=
  material ← st_lift (_require_key_material material);
  challenge ← client_unseal_challenge c store;
  sealed ← st_lift (seal_to material challenge);
  nonce ← st_lift (py_index challenge "nonce");
  _ ← rotate_store_key (cl_org c) (cl_environment c) store (dict_of [("sealed_material", PStr sealed); ("nonce", nonce)]);
  mret tt.
End sealing.

(** The verbs with the tenancy applied. *)
Definition client_delete_environment (c : client) (slug : option string) : st W pyval :=
  delete_environment (cl_org c) (if truthy_opt slug then match slug with Some s => s | None => "" end else cl_environment c).
Definition client_mint_token (c : client) (kind : string) (scopes : list string) (name : string) (org environment : option string)
    (expires_in_days : option Z) : st W pyval :=
  if bool_decide (kind = "personal") then mint_token kind scopes name org environment expires_in_days
  else mint_token kind scopes name (Some (match org with Some o => o | None => cl_org c end))
         (Some (match environment with Some e => e | None => cl_environment c end)) expires_in_days.
Definition client_remote (c : client) (store : string) : ManagedRemote := Remote (cl_org c) (cl_environment c) store.

(** ** The login handoff *)

Section login.
Context {AmbientW : Ambient W}.
(** [SealedBox(key).decrypt(base64.b64decode(sealed)).decode("utf-8")] *)
Context (open_box : pyval → result string) (public_key_hex : string).

Record LoginStart := Login { lo_session_id : pyval; lo_user_code : pyval; lo_verification_url : pyval; lo_poll_interval_seconds : pyval }.

Definition login_start (client_label : string) : st W LoginStart :=
  info ← _request (post_req "/v1/cli/sessions" (dict_of [("public_key", PStr public_key_hex); ("client_label", PStr client_label)]));
  id ← st_lift (py_index info "id");
  user_code ← st_lift (py_index info "user_code");
  url ← st_lift (py_index info "verification_url");
  interval ← st_lift (py_index info "poll_interval_seconds");
  mret (Login id user_code url interval).

Definition poll_once (l : LoginStart) : st W (pyval * option string) :=
  res ← _request (get_req ("/v1/cli/sessions/" +:+ py_str (lo_session_id l)) []);
  sealed ← st_lift (py_get res "sealed_token" PNone);
  if is_none sealed then state ← st_lift (py_index res "state"); mret (state, None)
  else
    token ← st_lift (open_box sealed);
    state ← st_lift (py_index res "state");
    mret (state, Some token).

(** The [while] of [wait], for at most [fuel] polls. *)
Fixpoint login_loop (fuel : nat) (l : LoginStart) (deadline : float) : st W string :=
  match fuel with
  | O => st_lift (raise OutOfFuel "")
  | S fuel =>
      now ← monotonic;
      if negb (fltb now deadline) then st_lift (cloud_error 408 "login timed out waiting for approval" None)
      else
        '(state, token) ← poll_once l;
        match token with
        | Some token => mret token
        | None =>
            if existsb (λ s, same_id state (PStr s)) ["denied"; "expired"; "claimed"]
            then st_lift (cloud_error 409 ("login " +:+ py_str state) None)
            else
              pause ← st_lift (py_float (lo_poll_interval_seconds l));
              _ ← sleep pause;
              login_loop fuel l deadline
        end
  end.
Definition login_wait (fuel : nat) (l : LoginStart) (timeout_seconds : float) : st W string :=
  now ← monotonic; login_loop fuel l (fadd now timeout_seconds).
End login.
End account.

(** ** Tenancy is never guessed *)

Section tenancy.
Context {W : Type} {HttpW : Http W}.

Lemma request_logs r : logs (_request (W:=W * list sent) r) (λ res t, ∃ a, t = [(r, a)] ∧ res = answered a).
Proof.
  unfold _request. eapply (logs_bind _ _ (λ res t, t = [(r, res)])); [by apply logs_call|..].
  - intros e t ->. by exists (Err e).
  - intros a t ->. apply logs_lift. by exists (Ok a).
Qed.

Lemma field_logs r field : logs (_request_field (W:=W * list sent) r field)
  (λ res t, ∃ a, t = [(r, a)] ∧ ∀ v, res = Ok v → ∃ x, answered a = Ok x ∧ py_index x field = Ok v).
Proof.
  unfold _request_field. eapply logs_bind; [apply request_logs|by intros e t (a & -> & _); exists a|].
  intros x t (a & -> & Ha). apply logs_lift. exists a. split; [done|]. intros v Hv. by exists x.
Qed.

Definition self_req : request := get_req "/v1/tokens/self" [].
Definition me_req : request := get_req "/v1/auth/me" [].
Definition environments_req (org : string) : request := get_req ("/v1/orgs/" +:+ org +:+ "/environments") [].

(** The account's only organisation. *)
Definition sole_org (t : list sent) (o : pyval) : Prop :=
  ∃ a account rows, (me_req, a) ∈ t ∧ answered a = Ok account ∧ py_index account "orgs" = Ok rows ∧ slugs_of rows = Ok [o].

(** The organisation's only environment, or its testing environment. *)
Definition default_environment (t : list sent) (o e : pyval) : Prop :=
  ∃ a x rows slugs, (environments_req (py_str o), a) ∈ t ∧ answered a = Ok x ∧ py_index x "environments" = Ok rows ∧
    slugs_of rows = Ok slugs ∧ (slugs = [e] ∨ e = PStr "testing" ∧ existsb (same_id (PStr "testing")) slugs = true).

Definition justified (org environment : option string) (t : list sent) (o e : pyval) : Prop :=
  (truthy_opt org && truthy_opt environment = true ∧ o = str_val org ∧ e = str_val environment ∧ t = []) ∨
  ∃ a info, (self_req, a) ∈ t ∧ answered a = Ok info ∧
    ((py_index info "org" = Ok o ∧ py_index info "environment" = Ok e ∧ truthy e = true ∧
      (truthy_opt org = true → same_id (str_val org) o = true) ∧ (truthy_opt environment = true → same_id (str_val environment) e = true)) ∨
     ((∃ b, py_index info "environment" = Ok b ∧ truthy b = false) ∧
      (org = None ∧ sole_org t o ∨ ∃ s, org = Some s ∧ o = PStr s) ∧
      (environment = None ∧ default_environment t o e ∨ ∃ s, environment = Some s ∧ e = PStr s))).

Lemma bound_tenancy_ok info org environment o e : bound_tenancy info org environment = Ok (o, e) →
  py_index info "org" = Ok o ∧ py_index info "environment" = Ok e ∧
  (truthy_opt org = true → same_id (str_val org) o = true) ∧ (truthy_opt environment = true → same_id (str_val environment) e = true).
Proof.
  unfold bound_tenancy. destruct (py_index info "org") as [o'|]; [|done]. destruct (py_index info "environment") as [e'|]; [|done]. cbn.
  destruct (truthy_opt org), (same_id (str_val org) o') eqn:E1, (truthy_opt environment), (same_id (str_val environment) e') eqn:E2; cbn;
    by intros [= <- <-].
Qed.

Lemma only_org_ok slugs o : only_org slugs = Ok o → slugs = [o].
Proof. destruct slugs as [|x [|y l]]; unfold only_org; [done|by intros [= ->]|]. by destruct (join_slugs (x :: y :: l)). Qed.

Lemma pick_environment_ok org slugs e : pick_environment org slugs = Ok e →
  slugs = [e] ∨ e = PStr "testing" ∧ existsb (same_id (PStr "testing")) slugs = true.
Proof.
  unfold pick_environment. destruct slugs as [|x [|y l]]; [done|intros [= ->]; by left|].
  destruct (existsb _ _) eqn:E; [intros [= <-]; by right|]. by destruct (join_slugs (x :: y :: l)).
Qed.

Lemma org_logs org : logs (W:=W) (match org with
    | Some o => mret (PStr o)
    | None => account ← me; rows ← st_lift (py_index account "orgs"); slugs ← st_lift (slugs_of rows); st_lift (only_org slugs)
    end) (λ r t, ∀ o, r = Ok o → org = None ∧ sole_org t o ∨ ∃ s, org = Some s ∧ o = PStr s).
Proof.
  destruct org as [s|]; [apply logs_ret; intros o [= <-]; eauto|].
  eapply logs_bind; [apply request_logs|done|]. intros account t (a & -> & Ha%symmetry).
  apply logs_lift_bind; [done|intros rows Hr]. apply logs_lift_bind; [done|intros slugs Hs]. apply logs_lift. intros o Ho. left. split; [done|].
  apply only_org_ok in Ho as ->. exists a, account, rows. split; [by left|done].
Qed.

Lemma environment_logs o environment : logs (W:=W) (match environment with
    | Some e => mret (PStr e)
    | None => rows ← list_environments (py_str o); slugs ← st_lift (slugs_of rows); st_lift (pick_environment o slugs)
    end) (λ r t, ∀ e, r = Ok e → environment = None ∧ default_environment t o e ∨ ∃ s, environment = Some s ∧ e = PStr s).
Proof.
  destruct environment as [s|]; [apply logs_ret; intros e [= <-]; eauto|].
  eapply logs_bind; [apply field_logs|done|]. intros rows t (a & -> & Ha). destruct (Ha _ eq_refl) as (x & Hx & Hi).
  apply logs_lift_bind; [done|intros slugs Hs]. apply logs_lift. intros e He. left. split; [done|].
  exists a, x, rows, slugs. split; [by left|]. split_and!; try done. by eapply pick_environment_ok.
Qed.

Lemma sole_org_app t t' o : sole_org t o → sole_org (t ++ t') o.
Proof. intros (a & acc & rows & Hin & H). exists a, acc, rows. split; [apply elem_of_app; by left|done]. Qed.
Lemma sole_org_cons x t o : sole_org t o → sole_org (x :: t) o.
Proof. intros (a & acc & rows & Hin & H). exists a, acc, rows. split; [by right|done]. Qed.
Lemma default_app x t t' o e : default_environment t' o e → default_environment (x :: t ++ t') o e.
Proof. intros (a & y & rows & slugs & Hin & H). exists a, y, rows, slugs. split; [right; apply elem_of_app; by right|done]. Qed.

(** C27: tenancy is never guessed: whatever the server answers, the organisation and environment a
    credential is resolved to are the two given explicitly; or the binding of the token, which no explicit
    value contradicts; or, for a personal token, the explicit or the account's only organisation with the
    explicit, the only, or the testing environment. Production is thus chosen only where it is named,
    bound, or the only one. *)
Theorem tenancy_never_guessed org environment (w : W) o e :
  fst (resolve_tenancy (W:=W * list sent) org environment (w, [])) = Ok (o, e) →
  justified org environment (snd (snd (resolve_tenancy (W:=W * list sent) org environment (w, [])))) o e.
Proof.
  assert (Hl : logs (resolve_tenancy (W:=W * list sent) org environment) (λ r t, ∀ o e, r = Ok (o, e) → justified org environment t o e)).
  2:{ destruct (Hl (w, [])) as (t & Ht & Hr). cbn in Ht. rewrite Ht. apply Hr. }
  clear. unfold resolve_tenancy. destruct (_ && _) eqn:Hboth; [apply logs_ret; intros o e [= <- <-]; by left|].
  eapply (logs_bind _ _ (λ r t, ∀ info, r = Ok info → ∃ a, t = [(self_req, a)] ∧ answered a = Ok info)); [|done|].
  { eapply logs_try; [apply request_logs| |].
    - intros info t (a & -> & Ha) ? [= <-]. eauto.
    - intros e t _. case_bool_decide; by apply logs_lift. }
  intros info t Hself. destruct (Hself _ eq_refl) as (a & -> & Ha). clear Hself. cbn [app].
  apply logs_lift_bind; [done|intros bound Hb]. destruct (truthy bound) eqn:Htb.
  - apply logs_lift. intros o e Hok. apply bound_tenancy_ok in Hok as (H1 & H2 & H3 & H4). right. exists a, info. split; [by left|].
    split; [done|]. left. split_and!; try done. congruence.
  - eapply logs_bind; [apply org_logs|done|]. intros o t Ho. specialize (Ho o eq_refl).
    eapply logs_bind; [apply environment_logs|done|]. intros e t' He. specialize (He e eq_refl). apply logs_ret. rewrite app_nil_r.
    intros ? ? [= <- <-]. right. exists a, info. split; [by left|]. split; [done|]. right. split; [eauto|]. split.
    + destruct Ho as [[-> Ho]|Ho]; [left; split; [done|]; by apply sole_org_cons, sole_org_app|by right].
    + destruct He as [[-> He]|He]; [left; split; [done|]; by apply default_app|by right].
Qed.
End tenancy.

(** ** Pools *)

Section pools.
Context {W : Type} {HttpW : Http W}.

(** The world with the number of times the client's pool was closed. *)
Local Instance counted_http : Http (W * nat) := λ r s, let '(a, w) := send r s.1 in (a, (w, s.2)).
Local Instance counted_pool : Pool (W * nat) := λ s, (Ok tt, (s.1, S s.2)).

Definition closed_times (n : nat) (s : W * nat) : Prop := s.2 = n.

Lemma request_no_close n r : keeps (closed_times n) (_request (W:=W * nat) r).
Proof.
  unfold _request. keeps_step; [|keeps_step]. intros [w k] Hk. unfold send, counted_http. cbn. unfold send. by destruct (HttpW r w).
Qed.

Lemma tenancy_no_close n org environment : keeps (closed_times n) (resolve_tenancy (W:=W * nat) org environment).
Proof.
  unfold resolve_tenancy, token_self, me, list_environments, _request_field.
  repeat first [keeps_step | apply request_no_close].
Qed.

Lemma stats_no_close n h warm : keeps (closed_times n) (stats (W:=W * nat) h warm).
Proof. apply request_no_close. Qed.

(** A run that closes the pool exactly when it fails. *)
Definition closes_on_error {A} (n : nat) (m : st (W * nat) A) : Prop :=
  ∀ s, closed_times n s → (m s).2.2 = match (m s).1 with Ok _ => n | Err _ => S n end.

Lemma or_close_run {A} n (m : st (W * nat) A) : keeps (closed_times n) m → closes_on_error n (or_close m).
Proof.
  intros Hm s Hs. unfold or_close, st_try. specialize (Hm s Hs). destruct (m s) as [[a|e] s']; unfold closed_times in Hm; cbn [fst snd] in *; [done|]. rewrite LocalDb.st_bind_run. cbn. by rewrite Hm.
Qed.

Lemma closes_bind {A B} n (m : st (W * nat) A) (f : A → st (W * nat) B) :
  closes_on_error n m → (∀ a, closes_on_error n (f a)) → closes_on_error n (m ≫= f).
Proof.
  intros Hm Hf s Hs. rewrite LocalDb.st_bind_run. specialize (Hm s Hs). destruct (m s) as [[a|e] s']; cbn in Hm; [by apply Hf|done].
Qed.

Lemma closes_ret {A} n (a : A) : closes_on_error n (mret a).
Proof. by intros s Hs. Qed.

Lemma warm_up_run n h : closes_on_error n (warm_up (W:=W * nat) h).
Proof.
  intros s Hs. unfold warm_up, st_try. rewrite LocalDb.st_bind_run. pose proof (stats_no_close n h true s Hs) as Hk.
  destruct (stats h true s) as [[v|e] s']; unfold closed_times in Hk; cbn [fst snd] in *; [done|]. destruct (connectable e); [done|]. rewrite LocalDb.st_bind_run. cbn. by rewrite Hk.
Qed.

(** Opening a handle never leaks its connection pool: [connect] and [Client] leave the pool open when
    they return a handle, and have closed it exactly once when they raise after creating it, whether the
    tenancy, the credential or the warm-up failed and however; before there is a pool, nothing is closed. *)
Theorem connect_releases_pool stored text token host key org environment warm ryw (w : W) :
  (let '(r, (_, n)) := connect (W:=W * nat) stored text token host key warm ryw (w, 0%nat) in
   n = match r, _parse_target text, resolve_credentials stored token host with Err _, Ok _, Ok _ => 1%nat | _, _, _ => 0%nat end) ∧
  (let '(r, (_, n)) := Client (W:=W * nat) stored token host org environment (w, 0%nat) in
   n = match r, resolve_credentials stored token host with Err _, Ok _ => 1%nat | _, _ => 0%nat end).
Proof.
  split.
  - destruct (connect _ _ _ _ _ _ _ _) as [r [w' n]] eqn:E. unfold connect in E. rewrite LocalDb.lift_run in E.
    destruct (_parse_target text) as [remote|e]; [|by injection E as <- _ <-]. rewrite LocalDb.lift_run in E.
    destruct (resolve_credentials _ _ _) as [c|e]; [|by injection E as <- _ <-].
    match type of E with ?m _ = _ => assert (Hm : closes_on_error 0 m) end.
    { apply closes_bind; [|intros rm; apply closes_bind; [|intros ?; apply closes_ret]].
      - destruct remote; [|apply closes_ret]. apply closes_bind; [apply or_close_run, tenancy_no_close|]. intros [o e]. apply closes_ret.
      - destruct warm; [apply warm_up_run|apply closes_ret]. }
    specialize (Hm (w, 0%nat) eq_refl). rewrite E in Hm. cbn in Hm. by destruct r.
  - destruct (Client _ _ _ _ _ _) as [r [w' n]] eqn:E. unfold Client in E. rewrite LocalDb.lift_run in E.
    destruct (resolve_credentials _ _ _) as [[h t]|e]; [|by injection E as <- _ <-].
    match type of E with ?m _ = _ => assert (Hm : closes_on_error 0 m) end.
    { apply closes_bind; [apply or_close_run, tenancy_no_close|]. intros [o e]. apply closes_ret. }
    specialize (Hm (w, 0%nat) eq_refl). rewrite E in Hm. cbn in Hm. by destruct r.
Qed.
End pools.

(** ** Runs *)

Section runs.
Local Instance answering : Http (list response) := λ _ script,
  match script with a :: script => (Ok a, script) | [] => (raise TransportError "no answer", []) end.

Definition personal_token : response := demo_answer ("{" +:+ q "org" +:+ ": null, " +:+ q "environment" +:+ ": null}").
Definition one_org : response := demo_answer ("{" +:+ q "orgs" +:+ ": [{" +:+ q "slug" +:+ ": " +:+ q "acme" +:+ "}]}").
Definition two_environments : response :=
  demo_answer ("{" +:+ q "environments" +:+ ": [{" +:+ q "slug" +:+ ": " +:+ q "production" +:+ "}, {" +:+ q "slug" +:+ ": " +:+ q "testing" +:+ "}]}").

Lemma tenancy_never_guessed_witness :
  fst (resolve_tenancy (W:=list response * list sent) None None ([personal_token; one_org; two_environments], [])) = Ok (PStr "acme", PStr "testing") ∧
  justified None None (snd (snd (resolve_tenancy (W:=list response * list sent) None None ([personal_token; one_org; two_environments], []))))
    (PStr "acme") (PStr "testing").
Proof.
  split; [vm_compute; reflexivity|].
  refine (tenancy_never_guessed None None [personal_token; one_org; two_environments] (PStr "acme") (PStr "testing") _).
  vm_compute. reflexivity.
Defined.

(** A token passed by the caller is refused where the environment names only a host. *)
Example token_argument_refused : resolve_credentials (value (load_credentials (λ _, []) {[ "ORECLOUD_HOST" := "https://ore.example" ]} (FSys ∅ ∅)))
  (Some "ore_sk_1") None = raise CredentialsError half_set.
Proof. reflexivity. Qed.
End runs.
