(* ===== verification/McpInstall.v ===== *)
(** * Registering the server with coding assistants

    [local/mcp_install.py]: how the server is launched on this machine, where each client keeps its
    configuration, and the edits that add or remove the [lodedb] entry in a JSON or TOML file. The edits of
    a TOML file are textual; the theorems relate them to edits of the document as a list of tables, which a reader
    written from the grammar of TOML finds ([toml_text]), not the code's own search for headers. Files
    are those of FileSys.v; programs on the path, the platform and the [claude] command are parameters. *)

From Stdlib Require Import Ascii String ZArith Lia.
From stdpp Require Import base strings gmap sets list.
From S2P Require Import Prelude Numbers PyVal Bytes Json FileSys LocalOpen CloudConfig.

Local Open Scope Z_scope.

Definition SERVER_NAME : string := "lodedb".
Definition DIRECT_CONFIG_CLIENTS : list string := ["claude-desktop"; "cursor"; "lm-studio"; "codex"].
Definition CLI_CLIENTS : list string := ["claude-code"].
Definition KNOWN_CLIENTS : list string := CLI_CLIENTS ++ DIRECT_CONFIG_CLIENTS.
Definition INSTALL_ALL_CLIENTS : list string := DIRECT_CONFIG_CLIENTS.

(** ** The command *)

Record ServerInvocation := Invocation { inv_command : string; inv_args : list string; inv_how : string }.

(** What the module asks of the machine: [shutil.which], [platform.system], the environment, [Path.home],
    [sys.executable], the resolved [__file__], [Path] and [Path.resolve]. *)
Class Machine := {
  which : string → option string;
  platform_system : string;
  os_environ : environ;
  home : path;
  sys_executable : string;
  module_file : path;
  to_path : string → path;
  resolve_path : path → path }.

Definition quoted (q : ascii) (s : string) : string := String q s +:+ String q "".
Definition tick (s : string) : string := quoted "096"%char s.

Section invocation.
Context {M : Machine}.

(** [path.parents] *)
Fixpoint parents_of (p : path) : list path := match p with [] => [] | _ :: q => q :: parents_of q end.

Definition names_lodedb (text : string) : bool :=
  str_contains ("name = " +:+ quoted dquote "lodedb") text || str_contains "name = 'lodedb'" text.

(** The loop over the parents: the first [pyproject.toml] decides. *)
Fixpoint project_root_in (dirs : list path) : io (option path) :=
  match dirs with
  | [] => mret None
  | dir :: dirs =>
      let pyproject := "pyproject.toml" :: dir in
      there ← is_file pyproject;
      if (there : bool) then
        text ← attempt (read_text pyproject);
        match text with
        | Ok text => mret (if names_lodedb text then Some dir else None)
        | Err e => if is_os_error e then mret None else lift (Err e)
        end
      else project_root_in dirs
  end.
Definition _project_root_for_uv : io (option path) := project_root_in (parents_of module_file).

Fixpoint first_file (l : list path) : io (option path) :=
  match l with
  | [] => mret None
  | p :: l => there ← is_file p; if (there : bool) then mret (Some p) else first_file l
  end.

Definition _entry_point_path : io (option path) :=
  let bindir := parent (resolve_path (to_path sys_executable)) in
  first_file (if bool_decide (platform_system = "Windows") then ["lodedb.exe" :: bindir; "lodedb" :: bindir] else ["lodedb" :: bindir]).

(** A string that is set and not empty. *)
Definition set_value (s : option string) : option string :=
  match s with Some s => if bool_decide (s = "") then None else Some s | None => None end.

Definition found_on_path : ServerInvocation := Invocation "lodedb" ["mcp"] (tick "lodedb" +:+ " found on PATH").

Definition resolve_server_invocation (prefer_uv : bool) : io ServerInvocation :=
  let on_path := bool_decide (is_Some (set_value (which "lodedb"))) in
  if on_path && negb prefer_uv then mret found_on_path
  else
    root ← _project_root_for_uv;
    match root, which "uv" with
    | Some root, Some _ =>
        mret (Invocation "uv" ["run"; "--project"; path_str root; "lodedb"; "mcp"]
                (tick "uv run" +:+ " against the source checkout at " +:+ path_str root))
    | _, _ =>
        if on_path then mret found_on_path
        else
          entry ← _entry_point_path;
          match entry with
          | Some entry => mret (Invocation (path_str entry) ["mcp"] ("absolute path to the installed entry point (" +:+ path_str entry +:+ ")"))
          | None =>
              mret (Invocation sys_executable ["-m"; "lodedb"; "mcp"]
                      (tick (pname (to_path sys_executable) +:+ " -m lodedb") +:+ " (entry point not found on PATH)"))
          end
    end.
End invocation.

Record MCPOptions := McpOptions { mo_path : string; mo_model : string; mo_device : string; mo_store_text : bool; mo_exclude_text : bool }.
Definition default_options : MCPOptions := McpOptions "./data" "minilm" "auto" true false.

Definition to_args (o : MCPOptions) : list string :=
  ["--path"; mo_path o] ++
  (if bool_decide (mo_model o = "minilm") then [] else ["--model"; mo_model o]) ++
  (if bool_decide (mo_device o = "auto") then [] else ["--device"; mo_device o]) ++
  (if mo_store_text o then [] else ["--no-store-text"]) ++
  (if mo_exclude_text o then ["--exclude-text"] else []).

(** The entry a client stores, a [dict] with the keys [command] and [args]. *)
Record server_entry := Entry { en_command : string; en_args : list string }.
Definition build_server_entry (invocation : ServerInvocation) (options : MCPOptions) : server_entry :=
  Entry (inv_command invocation) (inv_args invocation ++ to_args options).
Definition entry_value (e : server_entry) : pyval :=
  dict_of [("command", PStr (en_command e)); ("args", PList (map PStr (en_args e)))].

(** ** Where each client keeps its configuration *)

Section locations.
Context {M : Machine}.

Definition _claude_desktop_config_path : result path :=
  let below base := "claude_desktop_config.json" :: "Claude" :: base in
  if bool_decide (platform_system = "Darwin") then Ok (below ("Application Support" :: "Library" :: home))
  else if bool_decide (platform_system = "Windows") then
    Ok (below (match set_value (os_environ !! "APPDATA") with Some d => to_path d | None => "Roaming" :: "AppData" :: home end))
  else raise MCPInstallError "Claude Desktop has no official Linux build, so its config path is unknown here. Use --config <path> to point at one explicitly, or install for claude-code instead.".

Definition _cursor_config_path (project : option path) : path :=
  "mcp.json" :: ".cursor" :: match project with Some p => p | None => home end.
Definition _lm_studio_config_path : path := "mcp.json" :: ".lmstudio" :: home.
Definition _codex_config_path : path :=
  "config.toml" :: match set_value (os_environ !! "CODEX_HOME") with Some d => to_path d | None => ".codex" :: home end.

Definition client_config_path (client : string) (project : option path) : result path :=
  if bool_decide (client = "claude-desktop") then _claude_desktop_config_path
  else if bool_decide (client = "cursor") then Ok (_cursor_config_path project)
  else if bool_decide (client = "lm-studio") then Ok _lm_studio_config_path
  else if bool_decide (client = "codex") then Ok _codex_config_path
  else raise MCPInstallError (str_repr client +:+ " does not use a config file this command can locate").
End locations.

(** ** Editing a JSON configuration *)

(** [not text or not text.strip()] *)
Definition no_text (text : option string) : bool := match text with Some t => is_blank t | None => true end.
Definition text_of (text : option string) : string := match text with Some t => t | None => "" end.

Definition _load_json_object (config_text : option string) : result pydict :=
  if no_text config_text then Ok []
  else
    match loads (text_of config_text) with
    | Ok (PDict data) => Ok data
    | Ok _ => raise MCPInstallError "existing config is not a JSON object"
    | Err e =>
        if bool_decide (exn_class e = JSONDecodeError) then raise MCPInstallError ("existing config is not valid JSON: " +:+ exn_msg e)
        else Err e
    end.

(** [json.dumps(data, indent=2)]: insertion order. *)
Definition indented_as_is (k : nat) : layout :=
  let nl lvl := newline :: replicate (k * lvl) " "%char in Layout nl nl [" "%char] (λ _ _, true).
Definition dump_config (data : pydict) : result string := text ← dumps (indented_as_is 2) (PDict data); Ok (text +:+ newline_str).

(** [data.get("mcpServers")] where it is a [dict]. *)
Definition servers_of (data : pydict) : option pydict :=
  match dict_get "mcpServers" data with Some (PDict servers) => Some servers | _ => None end.

Definition with_server (data : pydict) (name : string) (entry : server_entry) : pydict :=
  dict_set "mcpServers" (PDict (dict_set name (entry_value entry) (default [] (servers_of data)))) data.

Definition upsert_json_server (config_text : option string) (entry : server_entry) (name : string) : result string :=
  data ← _load_json_object config_text;
  dump_config (with_server data name entry).

Definition remove_json_server (config_text : option string) (name : string) : result (string * bool) :=
  data ← _load_json_object config_text;
  match servers_of data with
  | Some servers =>
      if bool_decide (is_Some (dict_get name servers))
      then text ← dump_config (dict_set "mcpServers" (PDict (dict_del name servers)) data); Ok (text, true)
      else text ← dump_config data; Ok (text, false)
  | None => text ← dump_config data; Ok (text, false)
  end.

(** ** Editing a TOML configuration *)

(** The replacements of [_toml_quote], one after another, character by character. *)
Definition toml_escape (c : ascii) : list ascii :=
  if bool_decide (c = backslash) then [backslash; backslash]
  else if bool_decide (c = dquote) then [backslash; dquote]
  else if bool_decide (c = newline) then [backslash; "n"%char]
  else if bool_decide (c = "009"%char) then [backslash; "t"%char]
  else [c].
Definition _toml_quote (value : string) : string := quoted dquote (of_chars (concat (map toml_escape (chars value)))).

Definition header_line (table : string) : string := "[" +:+ table +:+ "]".
Definition target_table (name : string) : string := "mcp_servers." +:+ name.
Definition command_line (entry : server_entry) : string := "command = " +:+ _toml_quote (en_command entry).
Definition args_line (entry : server_entry) : string := "args = [" +:+ str_join ", " (map _toml_quote (en_args entry)) +:+ "]".
Definition _render_codex_block (entry : server_entry) (name : string) : string :=
  header_line (target_table name) +:+ newline_str +:+ command_line entry +:+ newline_str +:+ args_line entry +:+ newline_str.

(** [s.strip("[]")] *)
Definition bracket (c : ascii) : bool := bool_decide (c = "["%char) || bool_decide (c = "]"%char).
Definition strip_brackets (l : list ascii) : list ascii := reverse (drop_while bracket (reverse (drop_while bracket l))).

Definition _toml_table_header (line : string) : option string :=
  let stripped := strip_chars (chars line) in
  match stripped, reverse stripped with
  | o :: _, c :: _ => if bool_decide (o = "["%char) && bool_decide (c = "]"%char) then Some (of_chars (strip_chars (strip_brackets stripped))) else None
  | _, _ => None
  end.

(** Whether a line ends with [c], before the characters [l]: a carriage return does not before a newline. *)
Definition ends_line (c : ascii) (l : list ascii) : bool :=
  line_break c && negb (bool_decide (c = "013"%char) && bool_decide (head l = Some newline)).

(** [text.splitlines(keepends=True)] *)
Fixpoint keep_lines (cur l : list ascii) : list (list ascii) :=
  match l with
  | [] => match cur with [] => [] | _ => [reverse cur] end
  | c :: l => if ends_line c l then reverse (c :: cur) :: keep_lines [] l else keep_lines (c :: cur) l
  end.
Definition lines_kept (text : string) : list string := map of_chars (keep_lines [] (chars text)).

Definition own (name header : string) : bool :=
  bool_decide (header = target_table name) || startswith (target_table name +:+ ".") header.

(** The loop of [_codex_block_span] over [enumerate(lines)], with the variable [start]. *)
Fixpoint span_from (name : string) (start : option nat) (i : nat) (lines : list string) : option (nat * nat) :=
  match lines with
  | [] => match start with Some s => Some (s, i) | None => None end
  | line :: lines =>
      match _toml_table_header line with
      | None => span_from name start (S i) lines
      | Some header =>
          match start with
          | None => span_from name (if bool_decide (header = target_table name) then Some i else None) (S i) lines
          | Some s => if own name header then span_from name start (S i) lines else Some (s, i)
          end
      end
  end.
Definition _codex_block_span (lines : list string) (name : string) : option (nat * nat) := span_from name None 0 lines.

Definition concat_str (lines : list string) : string := str_join "" lines.

Definition upsert_toml_server (config_text : option string) (entry : server_entry) (name : string) : string :=
  let block := _render_codex_block entry name in
  if no_text config_text then block
  else
    let text := text_of config_text in
    let lines := lines_kept text in
    match _codex_block_span lines name with
    | None => text +:+ (if endswith newline_str text then "" else newline_str) +:+ newline_str +:+ block
    | Some (start, stop) =>
        let gap := match lines !! stop with Some line => negb (is_blank line) | None => false end in
        concat_str (take start lines ++ [block +:+ (if gap then newline_str else "")] ++ drop stop lines)
    end.

Definition remove_toml_server (config_text : option string) (name : string) : string * bool :=
  if no_text config_text then (text_of config_text, false)
  else
    let text := text_of config_text in
    let lines := lines_kept text in
    match _codex_block_span lines name with
    | None => (text, false)
    | Some (start, stop) =>
        let stop := match lines !! stop with Some line => if is_blank line then S stop else stop | None => stop end in
        (concat_str (take start lines ++ drop stop lines), true)
    end.

(** ** Installing *)

Record ClientResult := InstallResult {
  ir_client : string; ir_action : string; ir_method : string; ir_path : option string; ir_entry : option server_entry;
  ir_cli_command : option (list string); ir_changed : bool; ir_dry_run : bool; ir_note : string }.

Definition _write_text (target : path) (text : string) (dry_run : bool) : io unit :=
  if dry_run then mret tt else _ ← mkdir_p (parent target); write_text target text.

Definition _read_text_or_none (target : path) : io (option string) :=
  text ← attempt (read_text target);
  match text with
  | Ok text => mret (Some (of_chars (universal (chars text))))
  | Err e => if bool_decide (exn_class e = FileNotFoundError) then mret None else lift (Err e)
  end.

Definition _claude_code_argv (entry : server_entry) (name action : string) : list string :=
  if bool_decide (action = "uninstall") then ["claude"; "mcp"; "remove"; name]
  else ["claude"; "mcp"; "add"; name; "--"; en_command entry] ++ en_args entry.

Section install.
Context {M : Machine}.
(** Runs a command line and returns its exit status. *)
Context (run : list string → io Z).

Definition _install_claude_code (entry : server_entry) (action : string) (dry_run : bool) : io ClientResult :=
  let argv := _claude_code_argv entry SERVER_NAME action in
  let line := tick (str_join " " argv) in
  let result changed note :=
    InstallResult "claude-code" action "cli" None (if bool_decide (action = "install") then Some entry else None) (Some argv) changed dry_run note in
  if dry_run then mret (result true ("dry run: would run " +:+ line))
  else if bool_decide (which "claude" = None) then
    fail MCPInstallError ("the " +:+ tick "claude" +:+ " CLI was not found on PATH; install Claude Code, or write the entry by hand. Run with --dry-run to print the exact " +:+ tick "claude mcp add" +:+ " command.")
  else
    code ← run argv;
    if bool_decide (code = 0) then mret (result true ("ran " +:+ line))
    else fail MCPInstallError (line +:+ " exited with status " +:+ Z_str code +:+ ". Run with --dry-run to print the command and run it yourself.").

Definition removed_text (is_toml : bool) (current : option string) : result (string * bool) :=
  if is_toml then Ok (remove_toml_server current SERVER_NAME) else remove_json_server current SERVER_NAME.
Definition upserted_text (is_toml : bool) (current : option string) (entry : server_entry) : result string :=
  if is_toml then Ok (upsert_toml_server current entry SERVER_NAME) else upsert_json_server current entry SERVER_NAME.

Definition _install_direct_config (client : string) (entry : server_entry) (action : string) (config_path : path) (dry_run : bool) : io ClientResult :=
  let is_toml := bool_decide (client = "codex") in
  let result entry changed note := InstallResult client action "config" (Some (path_str config_path)) entry None changed dry_run note in
  current ← _read_text_or_none config_path;
  if bool_decide (action = "uninstall") then
    new ← lift (removed_text is_toml current);
    _ ← (if (new.2 : bool) then _write_text config_path new.1 dry_run else mret tt);
    mret (result None new.2 (if (new.2 : bool) then "removed the lodedb entry" else "no lodedb entry to remove"))
  else
    new_text ← lift (upserted_text is_toml current entry);
    _ ← _write_text config_path new_text dry_run;
    mret (result (Some entry) true (if dry_run then "dry run: not written" else "wrote the lodedb entry")).

Record install_request := InstallRequest {
  iq_action : string; iq_options : option MCPOptions; iq_invocation : option ServerInvocation; iq_config_path : option path;
  iq_project : option path; iq_prefer_uv : bool; iq_dry_run : bool }.

Definition install_client (client : string) (q : install_request) : io ClientResult :=
  if negb (str_in client KNOWN_CLIENTS) then
    fail MCPInstallError ("unknown client " +:+ str_repr client +:+ "; choose one of: " +:+ str_join ", " KNOWN_CLIENTS +:+ ", all")
  else
    let options := match iq_options q with Some o => o | None => default_options end in
    invocation ← match iq_invocation q with Some i => mret i | None => resolve_server_invocation (iq_prefer_uv q) end;
    let entry := build_server_entry invocation options in
    if bool_decide (client = "claude-code") then _install_claude_code entry (iq_action q) (iq_dry_run q)
    else
      target ← lift (match iq_config_path q with Some p => Ok p | None => client_config_path client (iq_project q) end);
      _install_direct_config client entry (iq_action q) target (iq_dry_run q).
End install.

Definition expand_clients (client : string) : list string :=
  if bool_decide (client = "all") then INSTALL_ALL_CLIENTS else [client].

(** ** A configuration as a list of tables *)

(** The lines before the first header, and each table: what its header names and its lines, the header's first. Blank
    lines are left out, the others stripped. *)
Notation document K := (list string * list (K * list string))%type.

(** The edits of a document. The server's table is the first with the name [target]; the tables that follow it and
    belong to it go with it. *)
Section tables.
Context {K : Type} `{!EqDecision K} (target : K) (owns : K → bool).

Definition before_table : list (K * list string) → list (K * list string) := take_while (λ t, negb (bool_decide (t.1 = target))).
Definition from_table : list (K * list string) → list (K * list string) := drop_while (λ t, negb (bool_decide (t.1 = target))).
Definition after_table (tables : list (K * list string)) : list (K * list string) := drop_while (λ t, owns t.1) (tail (from_table tables)).

Definition set_table (body : list string) (d : document K) : document K := (d.1, before_table d.2 ++ (target, body) :: after_table d.2).
Definition drop_table (d : document K) : document K := (d.1, before_table d.2 ++ after_table d.2).
Definition has_table (d : document K) : bool := match from_table d.2 with [] => false | _ => true end.
End tables.

(** *** The document as TOML reads it *)

Definition bare_char (c : ascii) : bool :=
  in_range 48 57 c || in_range 65 90 c || in_range 97 122 c || bool_decide (c = "_"%char) || bool_decide (c = "-"%char).
Definition toml_blank (c : ascii) : bool := bool_decide (c = " "%char) || bool_decide (c = "009"%char).

(** A key, bare or quoted. *)
Definition toml_key (l : list ascii) : option (string * list ascii) :=
  match l with
  | [] => None
  | c :: l' =>
      if bool_decide (c = dquote) || bool_decide (c = squote)
      then match drop_while (λ x, negb (bool_decide (x = c))) l' with
           | [] => None
           | _ :: r => Some (of_chars (take_while (λ x, negb (bool_decide (x = c))) l'), r)
           end
      else if bare_char c then Some (of_chars (take_while bare_char l), drop_while bare_char l) else None
  end.
(** A dotted key, with blanks around its parts. *)
Fixpoint toml_path (fuel : nat) (l : list ascii) : option (list string * list ascii) :=
  match fuel with
  | O => None
  | S fuel =>
      '(k, r) ← toml_key (drop_while toml_blank l);
      match drop_while toml_blank r with
      | "."%char :: r => '(path, r) ← toml_path fuel r; Some (k :: path, r)
      | r => Some ([k], r)
      end
  end.

(** A header, of a table or of an array of tables, with or without a comment behind it. *)
Definition toml_header (line : string) : option (list string) :=
  match strip_chars (chars line) with
  | "["%char :: l =>
      let '(array, l) := match l with "["%char :: l => (true, l) | _ => (false, l) end in
      '(path, r) ← toml_path (S (length l)) l;
      r ← match (array : bool), r with true, "]"%char :: "]"%char :: r | false, "]"%char :: r => Some r | _, _ => None end;
      match drop_while toml_blank r with [] | "#"%char :: _ => Some path | _ => None end
  | _ => None
  end.

(** Where the reader stands: how many brackets are open, and in which string. A line is a header only outside of
    values. *)
Inductive toml_string := TomlBasic | TomlLiteral | TomlMultiBasic | TomlMultiLiteral.
Global Instance toml_string_eq_dec : EqDecision toml_string.
Proof. solve_decision. Defined.
Notation toml_state := (nat * option toml_string)%type.

Definition twice (c : ascii) (l : list ascii) : bool :=
  match l with x :: y :: _ => bool_decide (x = c) && bool_decide (y = c) | _ => false end.

Fixpoint toml_lex (depth : nat) (q : option toml_string) (skip : nat) (l : list ascii) : toml_state :=
  match l with
  | [] => (depth, q)
  | c :: l =>
      match skip with
      | S skip => toml_lex depth q skip l
      | O =>
          match q with
          | None =>
              if bool_decide (c = "#"%char) then (depth, None)
              else if bool_decide (c = dquote)
              then if twice c l then toml_lex depth (Some TomlMultiBasic) 2 l else toml_lex depth (Some TomlBasic) 0 l
              else if bool_decide (c = squote)
              then if twice c l then toml_lex depth (Some TomlMultiLiteral) 2 l else toml_lex depth (Some TomlLiteral) 0 l
              else if bool_decide (c = "["%char) || bool_decide (c = "{"%char) then toml_lex (S depth) None 0 l
              else if bool_decide (c = "]"%char) || bool_decide (c = "}"%char) then toml_lex (pred depth) None 0 l
              else toml_lex depth None 0 l
          | Some TomlBasic =>
              if bool_decide (c = backslash) then toml_lex depth q 1 l
              else toml_lex depth (if bool_decide (c = dquote) then None else q) 0 l
          | Some TomlLiteral => toml_lex depth (if bool_decide (c = squote) then None else q) 0 l
          | Some TomlMultiBasic =>
              if bool_decide (c = backslash) then toml_lex depth q 1 l
              else if bool_decide (c = dquote) && twice c l then toml_lex depth None 2 l else toml_lex depth q 0 l
          | Some TomlMultiLiteral => if bool_decide (c = squote) && twice c l then toml_lex depth None 2 l else toml_lex depth q 0 l
          end
      end
  end.

Definition toml_top : toml_state := (0%nat, None).
Definition toml_next (st : toml_state) (line : string) : toml_state := toml_lex st.1 st.2 0 (strip_chars (chars line)).

Fixpoint toml_document (st : toml_state) (lines : list string) : document (list string) :=
  match lines with
  | [] => ([], [])
  | line :: lines =>
      match (if bool_decide (st = toml_top) then toml_header line else None) with
      | Some path => let '(body, tables) := toml_document toml_top lines in ([], (path, str_strip line :: body) :: tables)
      | None =>
          let '(body, tables) := toml_document (toml_next st line) lines in (if is_blank line then body else str_strip line :: body, tables)
      end
  end.
Definition toml_text (text : string) : document (list string) := toml_document toml_top (lines_kept text).

Definition table_path (name : string) : list string := ["mcp_servers"; name].
Definition below_path (name : string) (path : list string) : bool := bool_decide (table_path name `prefix_of` path).

(** Texts whose headers are written plainly: a line that begins with a bracket is a header, of bare keys joined by dots,
    without blanks or a comment; the text ends outside of values. *)
Definition bare_key (k : string) : bool := forallb bare_char (chars k) && negb (bool_decide (k = "")).
Definition dotted (path : list string) : string := str_join "." path.
Definition bracketed (line : string) : bool := match strip_chars (chars line) with c :: _ => bool_decide (c = "["%char) | [] => false end.
Definition plain_header (path : list string) (line : string) : bool :=
  forallb bare_key path && negb (bool_decide (path = [])) &&
  bool_decide (str_strip line ∈ ["[" +:+ dotted path +:+ "]"; "[[" +:+ dotted path +:+ "]]"]).
Definition toml_step (st : toml_state) (line : string) : option toml_state :=
  if bracketed line
  then match (if bool_decide (st = toml_top) then toml_header line else None) with
       | Some path => if plain_header path line then Some toml_top else None
       | None => None
       end
  else Some (toml_next st line).
Fixpoint toml_walk (st : toml_state) (lines : list string) : option toml_state :=
  match lines with [] => Some st | line :: lines => st ← toml_step st line; toml_walk st lines end.
Definition plain_toml (text : string) : bool := bool_decide (toml_walk toml_top (lines_kept text) = Some toml_top).

(** *** The document as the code reads it *)

Fixpoint document_of (lines : list string) : document string :=
  match lines with
  | [] => ([], [])
  | line :: lines =>
      let '(body, tables) := document_of lines in
      match _toml_table_header line with
      | Some header => ([], (header, str_strip line :: body) :: tables)
      | None => (if is_blank line then body else str_strip line :: body, tables)
      end
  end.
Definition document_text (text : string) : document string := document_of (lines_kept text).

(** What the theorems ask: a text as the reader gives it, a name that is a key of TOML, and an entry whose
    lines have no line break but those that are escaped. *)
Definition no_cr (text : string) : bool := forallb (λ c, negb (bool_decide (c = "013"%char))) (chars text).
Definition good_name (name : string) : Prop :=
  _toml_table_header (header_line (target_table name)) = Some (target_table name) ∧ plain_line (header_line (target_table name)) = true ∧
  toml_step toml_top (header_line (target_table name) +:+ newline_str) = Some toml_top ∧ bare_key name = true.
Definition plain_entry (e : server_entry) : bool := plain_line (command_line e) && plain_line (args_line e).

(** ** Lines with their ends *)

Definition whole (line : string) : Prop :=
  ∃ body c, chars line = body ++ [c] ∧ forallb (λ c, negb (line_break c)) body = true ∧ line_break c = true ∧ c ≠ "013"%char.

Lemma chars_concat lines : chars (concat_str lines) = concat (map chars lines).
Proof.
  unfold concat_str. induction lines as [|x [|y lines] IH]; [done|cbn; by rewrite app_nil_r|].
  change (str_join "" (x :: y :: lines)) with (x +:+ "" +:+ str_join "" (y :: lines)). by rewrite !chars_app, IH.
Qed.

Lemma keep_lines_body cur body l : forallb (λ c, negb (line_break c)) body = true →
  keep_lines cur (body ++ l) = keep_lines (reverse body ++ cur) l.
Proof.
  revert cur. induction body as [|c body IH]; intros cur; [done|]. cbn [forallb app keep_lines]. intros [Hc Hb]%andb_prop.
  apply negb_true_iff in Hc. unfold ends_line. rewrite Hc. cbn [andb]. rewrite IH by done. by rewrite reverse_cons, <-(assoc_L (++)).
Qed.

Lemma lines_kept_whole lines r : Forall whole lines → lines_kept (concat_str lines +:+ r) = lines ++ lines_kept r.
Proof.
  intros H. unfold lines_kept. rewrite chars_app, chars_concat. induction H as [|x lines (body & c & Hx & Hb & Hc & Hcr) _ IH]; [done|].
  cbn [map concat]. rewrite Hx, <-!(assoc_L (++)), keep_lines_body, app_nil_r by done. cbn [app keep_lines].
  unfold ends_line at 1. rewrite Hc, (bool_decide_eq_false_2 (c = _)) by done. cbn [andb negb map].
  rewrite IH. rewrite reverse_cons, reverse_involutive, <-Hx. by rewrite of_chars_chars.
Qed.

Lemma keep_lines_shape cur l : forallb (λ c, negb (line_break c)) cur = true → forallb (λ c, negb (bool_decide (c = "013"%char))) l = true →
  ∃ full rest, map of_chars (keep_lines cur l) = full ++ (if bool_decide (rest = []) then [] else [of_chars rest]) ∧
    concat (map chars full) ++ rest = reverse cur ++ l ∧ Forall whole full ∧ forallb (λ c, negb (line_break c)) rest = true.
Proof.
  revert cur. induction l as [|c l IH]; intros cur Hcur; cbn [keep_lines forallb].
  - intros _. exists [], (reverse cur). rewrite app_nil_r. split; [|split; [done|split; [done|by apply forallb_reverse]]].
    destruct cur as [|c cur]; [done|]. by rewrite bool_decide_eq_false_2 by (rewrite reverse_cons; by destruct (reverse cur)).
  - intros [Hc Hl]%andb_prop. apply negb_true_iff, bool_decide_eq_false in Hc. unfold ends_line. rewrite (bool_decide_eq_false_2 (c = _)) by done.
    cbn [andb negb]. rewrite andb_true_r. destruct (line_break c) eqn:Eb.
    + destruct (IH [] eq_refl Hl) as (full & rest & E1 & E2 & E3 & E4). exists (of_chars (reverse (c :: cur)) :: full), rest.
      cbn [map app concat]. rewrite E1, chars_of_chars, <-(assoc_L (++)), E2. split; [done|]. split.
      * by rewrite reverse_cons, <-(assoc_L (++)).
      * split; [|done]. constructor; [|done]. exists (reverse cur), c. rewrite chars_of_chars, reverse_cons.
        split; [done|]. split; [by apply forallb_reverse|done].
    + destruct (IH (c :: cur)) as (full & rest & E1 & E2 & E3 & E4); [by cbn; rewrite Eb|done|]. exists full, rest.
      split; [done|]. split; [|done]. rewrite E2, reverse_cons, <-(assoc_L (++)). done.
Qed.

(** ** Headers and tables of a list of lines *)

Lemma drop_while_all {A} (f : A → bool) l : forallb f l = true → drop_while f l = [].
Proof. induction l as [|x l IH]; cbn; [done|]. intros [Hx Hl]%andb_prop. by rewrite Hx, IH. Qed.

Lemma drop_while_app_if {A} (f : A → bool) a b :
  drop_while f (a ++ b) = if forallb f a then drop_while f b else drop_while f a ++ b.
Proof. induction a as [|x a IH]; cbn; [done|]. by destruct (f x). Qed.

Lemma drop_while_nil {A} (f : A → bool) l : drop_while f l = [] → forallb f l = true.
Proof. intros H. by rewrite <-(take_drop_while f l), H, app_nil_r, forallb_take_while. Qed.

Lemma strip_app_space l w : forallb is_space w = true → strip_chars (l ++ w) = strip_chars l.
Proof.
  intros Hw. unfold strip_chars. rewrite drop_while_app_if. destruct (forallb is_space l) eqn:El.
  - by rewrite (drop_while_all _ w Hw), (drop_while_all _ l El).
  - by rewrite reverse_app, drop_while_app by (by apply forallb_reverse).
Qed.

Lemma blank_strip line : is_blank line = bool_decide (strip_chars (chars line) = []).
Proof.
  unfold is_blank, strip_chars. destruct (forallb is_space (chars line)) eqn:E; [rewrite (drop_while_all _ _ E); by vm_compute|].
  rewrite bool_decide_eq_false_2; [done|]. intros H%(f_equal reverse). rewrite reverse_involutive in H. apply drop_while_nil in H.
  apply forallb_reverse in H. rewrite reverse_involutive in H. destruct (drop_while is_space (chars line)) as [|c l] eqn:Ed.
  - by rewrite (drop_while_nil _ _ Ed) in E.
  - apply drop_while_hd in Ed. cbn in H. by rewrite Ed in H.
Qed.

(** Lines that differ in blanks at their ends are the same to a reader of tables. *)
Definition same_line (a b : string) : Prop := strip_chars (chars a) = strip_chars (chars b).

Lemma document_same la lb : Forall2 same_line la lb → document_of la = document_of lb.
Proof.
  induction 1 as [|a b la lb Hab _ IH]; [done|]. cbn [document_of]. rewrite IH. unfold _toml_table_header, str_strip.
  rewrite !blank_strip. unfold same_line in Hab. by rewrite Hab.
Qed.

Lemma document_blank a line b : is_blank line = true → document_of (a ++ line :: b) = document_of (a ++ b).
Proof.
  intros Hb. induction a as [|x a IH]; cbn [app document_of]; [|by rewrite IH].
  pose proof Hb as Hs. rewrite blank_strip in Hs. apply bool_decide_eq_true in Hs. unfold _toml_table_header. rewrite Hs, Hb.
  by destruct (document_of b).
Qed.

(** The walk over lines, for the plainness of a text. *)
Lemma step_same st a b : same_line a b → toml_step st a = toml_step st b.
Proof. unfold same_line. intros H. unfold toml_step, bracketed, toml_header, plain_header, toml_next, str_strip. by rewrite H. Qed.

Lemma walk_app st a b : toml_walk st (a ++ b) = toml_walk st a ≫= λ st, toml_walk st b.
Proof. revert st. induction a as [|l a IH]; intros st; [done|]. cbn [app toml_walk]. destruct (toml_step st l) as [st'|]; [apply IH|done]. Qed.

Lemma step_blank st line : is_blank line = true → toml_step st line = Some st.
Proof. rewrite blank_strip. intros H%bool_decide_eq_true. unfold toml_step, bracketed, toml_next. rewrite H. by destruct st. Qed.

(** Lines that read the same. *)
Definition alike (la lb : list string) : Prop := document_of la = document_of lb ∧ ∀ st, toml_walk st la = toml_walk st lb.

Lemma alike_same la lb : Forall2 same_line la lb → alike la lb.
Proof.
  intros H. split; [by apply document_same|]. induction H as [|a b la lb Hab _ IH]; intros st; [done|]. cbn [toml_walk].
  rewrite (step_same st a b Hab). destruct (toml_step st b); [apply IH|done].
Qed.

Lemma alike_blank a line : is_blank line = true → alike (a ++ [line]) a.
Proof.
  intros Hb. split; [by rewrite (document_blank _ _ [] Hb), app_nil_r|]. intros st. rewrite walk_app. destruct (toml_walk st a) as [t|]; [|done].
  cbn [mbind option_bind toml_walk]. by rewrite step_blank.
Qed.

Lemma alike_trans la lb lc : alike la lb → alike lb lc → alike la lc.
Proof. intros [H1 H2] [H3 H4]. split; [congruence|intros st; by rewrite H2]. Qed.

Lemma document_app a b : (document_of b).1 = [] →
  document_of (a ++ b) = ((document_of a).1, (document_of a).2 ++ (document_of b).2).
Proof.
  intros Hb. induction a as [|line a IH]; cbn [app document_of].
  - by destruct (document_of b) as [p ts]; cbn in Hb |- *; subst.
  - rewrite IH. destruct (document_of a) as [p ts]. cbn. by destruct (_toml_table_header line).
Qed.

Section edits.
Context (name : string).

Definition is_target (line : string) : bool := bool_decide (_toml_table_header line = Some (target_table name)).
(** Whether a line after the server's header still belongs to its block. *)
Definition stays (line : string) : bool := match _toml_table_header line with None => true | Some h => own name h end.

Definition pre (lines : list string) : list string := take_while (λ l, negb (is_target l)) lines.
Definition rest (lines : list string) : list string := drop_while (λ l, negb (is_target l)) lines.
Definition inner (lines : list string) : list string := take_while stays (tail (rest lines)).
Definition post (lines : list string) : list string := drop_while stays (tail (rest lines)).

Lemma span_after s i lines : span_from name (Some s) i lines = Some (s, i + length (take_while stays lines))%nat.
Proof.
  revert i. induction lines as [|line lines IH]; intros i; cbn [span_from take_while length]; [by rewrite Nat.add_0_r|].
  unfold stays at 1. destruct (_toml_table_header line) as [h|]; [destruct (own name h)|]; cbn [length];
    rewrite ?IH, ?Nat.add_0_r; try done; do 2 f_equal; lia.
Qed.

Lemma span_is i lines : span_from name None i lines =
  match rest lines with [] => None | _ :: _ => Some (i + length (pre lines), i + length (pre lines) + 1 + length (inner lines))%nat end.
Proof.
  unfold rest, pre, inner, rest. revert i. induction lines as [|line lines IH]; intros i; [done|].
  cbn [span_from take_while drop_while]. unfold is_target at 1 3 5 7.
  destruct (_toml_table_header line) as [h|]; [destruct (bool_decide_reflect (h = target_table name)) as [->|Hne]|].
  - rewrite bool_decide_eq_true_2 by done. cbn [negb tail length]. rewrite span_after. do 2 f_equal; lia.
  - rewrite bool_decide_eq_false_2 by congruence. cbn [negb length]. rewrite IH. destruct (drop_while _ lines); [done|]. do 2 f_equal; lia.
  - rewrite bool_decide_eq_false_2 by done. cbn [negb length]. rewrite IH. destruct (drop_while _ lines); [done|]. do 2 f_equal; lia.
Qed.

Lemma lines_parts lines h r : rest lines = h :: r →
  lines = pre lines ++ h :: inner lines ++ post lines ∧ _toml_table_header h = Some (target_table name) ∧
  (post lines = [] ∨ ∃ l ls hd, post lines = l :: ls ∧ _toml_table_header l = Some hd ∧ own name hd = false).
Proof.
  intros H. unfold inner, post. rewrite H. cbn [tail]. split; [|split].
  - rewrite take_drop_while, <-H. unfold pre, rest. by rewrite take_drop_while.
  - apply drop_while_hd, negb_false_iff, bool_decide_eq_true in H. done.
  - destruct (drop_while stays r) as [|l ls] eqn:E; [by left|]. right. apply drop_while_hd in E. unfold stays in E.
    destruct (_toml_table_header l) as [hd|] eqn:El; [|done]. by exists l, ls, hd.
Qed.

(** The tables of lines whose headers satisfy a predicate. *)
Lemma document_headers (f : string → bool) lines :
  Forall (λ l, ∀ h, _toml_table_header l = Some h → f h = true) lines → forallb (λ t, f t.1) (document_of lines).2 = true.
Proof.
  induction 1 as [|l lines Hl _ IH]; [done|]. cbn [document_of]. destruct (document_of lines) as [p ts]. cbn in IH.
  destruct (_toml_table_header l) as [h|]; [|done]. cbn. by rewrite (Hl h).
Qed.

Lemma pre_tables lines : forallb (λ t, negb (bool_decide (t.1 = target_table name))) (document_of (pre lines)).2 = true.
Proof.
  pose (f := λ h : string, negb (bool_decide (h = target_table name))). apply (document_headers f), Forall_forall. intros l Hl h Hh.
  pose proof (forallb_take_while (λ l, negb (is_target l)) lines) as Hf. rewrite forallb_forall in Hf.
  specialize (Hf l (proj1 (list_elem_of_In _ _) Hl)). apply negb_true_iff, bool_decide_eq_false in Hf. apply negb_true_iff, bool_decide_eq_false.
  intros ->. by apply Hf.
Qed.

Lemma inner_tables lines : forallb (λ t, own name t.1) (document_of (inner lines)).2 = true.
Proof.
  apply document_headers, Forall_forall. intros l Hl h Hh. pose proof (forallb_take_while stays (tail (rest lines))) as Hf.
  rewrite forallb_forall in Hf. specialize (Hf l (proj1 (list_elem_of_In _ _) Hl)). unfold stays in Hf. by rewrite Hh in Hf.
Qed.

Lemma own_target : own name (target_table name) = true.
Proof. unfold own. by rewrite bool_decide_eq_true_2. Qed.

(** Setting and dropping the table of a document cut at the table. *)
Lemma set_table_parts p ts0 body body' inn ts1 :
  forallb (λ t, negb (bool_decide (t.1 = target_table name))) ts0 = true → forallb (λ t, own name t.1) inn = true →
  (∀ t ts, ts1 = t :: ts → own name t.1 = false) →
  let d := (p, ts0 ++ (target_table name, body') :: inn ++ ts1) in
  set_table (target_table name) (own name) body d = (p, ts0 ++ (target_table name, body) :: ts1) ∧ drop_table (target_table name) (own name) d = (p, ts0 ++ ts1) ∧ has_table (target_table name) d = true.
Proof.
  intros H0 Hi H1 d. unfold set_table, drop_table, has_table, after_table, from_table, before_table, d. cbn [fst snd].
  rewrite drop_while_app, take_while_app by done. cbn [drop_while take_while fst]. rewrite bool_decide_eq_true_2 by done. cbn [negb tail].
  rewrite app_nil_r, drop_while_app by done. destruct ts1 as [|t ts1]; [done|]. by rewrite (drop_while_head _ t) by by eapply H1.
Qed.

Lemma set_table_absent p ts body : forallb (λ t, negb (bool_decide (t.1 = target_table name))) ts = true →
  set_table (target_table name) (own name) body (p, ts) = (p, ts ++ [(target_table name, body)]) ∧ drop_table (target_table name) (own name) (p, ts) = (p, ts) ∧ has_table (target_table name) (p, ts) = false.
Proof.
  intros H. unfold set_table, drop_table, has_table, after_table, from_table, before_table. cbn [fst snd].
  pose proof (take_while_app _ ts [] H) as Ht. rewrite app_nil_r in Ht. rewrite (drop_while_all _ _ H), Ht. cbn. by rewrite !app_nil_r.
Qed.

Lemma post_document lines h r : rest lines = h :: r →
  (document_of (post lines)).1 = [] ∧ (∀ t ts, (document_of (post lines)).2 = t :: ts → own name t.1 = false).
Proof.
  intros H. destruct (lines_parts _ _ _ H) as (_ & _ & [->|(l & ls & hd & -> & Hl & Ho)]); [done|]. cbn [document_of].
  destruct (document_of ls) as [q qs]. rewrite Hl. split; [done|]. by intros t ts [= <- _].
Qed.

(** The document of lines cut at the server's table. *)
Lemma document_parts lines h r : rest lines = h :: r →
  document_of lines = ((document_of (pre lines)).1, (document_of (pre lines)).2 ++
    (target_table name, str_strip h :: (document_of (inner lines)).1) :: (document_of (inner lines)).2 ++ (document_of (post lines)).2).
Proof.
  intros H. destruct (lines_parts _ _ _ H) as (Hl & Hh & _). destruct (post_document _ _ _ H) as [Hp _]. rewrite Hl at 1.
  assert (document_of (h :: inner lines ++ post lines) =
    ([], (target_table name, str_strip h :: (document_of (inner lines)).1) :: (document_of (inner lines)).2 ++ (document_of (post lines)).2)) as Hd.
  { cbn [document_of]. rewrite document_app by done. by rewrite Hh. }
  rewrite document_app; by rewrite Hd.
Qed.

Lemma pre_all lines : rest lines = [] → pre lines = lines.
Proof. intros H. unfold pre, rest in *. rewrite <-(take_drop_while (λ l, negb (is_target l)) lines) at 2. by rewrite H, app_nil_r. Qed.
End edits.

(** ** The text of an edit *)

Lemma concat_str_app a b : concat_str (a ++ b) = concat_str a +:+ concat_str b.
Proof. apply chars_inj. by rewrite chars_app, !chars_concat, map_app, concat_app. Qed.
Lemma concat_str_cons x l : concat_str (x :: l) = x +:+ concat_str l.
Proof. apply chars_inj. by rewrite chars_app, !chars_concat. Qed.

Lemma whole_newline line : plain_line line = true → whole (line +:+ newline_str).
Proof. intros H. exists (chars line), newline. by rewrite chars_app. Qed.

Lemma same_newline line : same_line line (line +:+ newline_str).
Proof. unfold same_line. by rewrite chars_app, strip_app_space. Qed.

(** The lines of a text as whole lines and a last one without end. *)
Lemma lines_shape text : no_cr text = true →
  ∃ full last, lines_kept text = full ++ (if bool_decide (last = "") then [] else [last]) ∧ concat_str full +:+ last = text ∧
    Forall whole full ∧ plain_line last = true.
Proof.
  intros H. destruct (keep_lines_shape [] (chars text) eq_refl H) as (full & r & E1 & E2 & E3 & E4). exists full, (of_chars r).
  unfold plain_line. rewrite chars_of_chars. split; [|split; [|done]].
  - unfold lines_kept. rewrite E1. by destruct r.
  - apply chars_inj. by rewrite chars_app, chars_concat, chars_of_chars.
Qed.

Lemma lines_concat text : no_cr text = true → concat_str (lines_kept text) = text.
Proof.
  intros H. destruct (lines_shape _ H) as (full & l & -> & E & _). rewrite concat_str_app, <-E. f_equal.
  case_bool_decide as El; [by rewrite El|done].
Qed.

(** A text and what is put between it and an appended block. *)
Lemma lines_ended text : no_cr text = true →
  ∃ lines, Forall whole lines ∧ alike lines (lines_kept text) ∧
    concat_str lines = text +:+ (if endswith newline_str text then "" else newline_str) +:+ newline_str.
Proof.
  intros H. destruct (lines_shape _ H) as (full & l & -> & E & Hf & Hl).
  assert (whole newline_str) as Hn by by apply (whole_newline "").
  assert (∀ a, alike (a ++ [newline_str]) a) as Hb by (intros a; by apply alike_blank).
  destruct (bool_decide_reflect (l = "")) as [->|Hne].
  - rewrite app_nil_r. assert (concat_str full = text) as Et by by rewrite <-E, sapp_nil_r.
    destruct (endswith newline_str text); [exists (full ++ [newline_str])|exists ((full ++ [newline_str]) ++ [newline_str])].
    + split; [by apply Forall_app; split; [|constructor]|]. split; [apply Hb|by rewrite concat_str_app, Et].
    + split; [rewrite !Forall_app; split; [split; [done|]|]; by repeat constructor|]. split; [by eapply alike_trans|].
      rewrite <-(assoc_L (++)). by rewrite concat_str_app, Et.
  - assert (endswith newline_str text = false) as ->.
    { apply not_true_iff_false. intros [r Hr]%endswith_spec. rewrite <-E in Hr. apply (f_equal (reverse ∘ chars)) in Hr. cbn in Hr.
      rewrite !chars_app, !reverse_app in Hr. unfold plain_line in Hl. apply forallb_reverse in Hl. destruct (reverse (chars l)) as [|c q] eqn:Er.
      - apply (f_equal reverse) in Er. rewrite reverse_involutive in Er. by destruct l.
      - injection Hr as -> _. done. }
    exists ((full ++ [l +:+ newline_str]) ++ [newline_str]). rewrite !Forall_app. split; [split; [split; [done|]|]; repeat constructor; [by apply whole_newline|done]|].
    split.
    + eapply alike_trans; [apply Hb|]. apply alike_same, Forall2_app; [apply Forall_Forall2_diag, Forall_forall; done|].
      constructor; [|done]. symmetry. apply same_newline.
    + rewrite !concat_str_app, <-E. rewrite !concat_str_cons. change (concat_str []) with "". by rewrite !sapp_nil_r, !sapp_assoc.
Qed.

(** Lines cut in two: the text of the second part has these lines. *)
Lemma lines_cut text a b : no_cr text = true → lines_kept text = a ++ b → b ≠ [] →
  Forall whole a ∧ lines_kept (concat_str b) = b.
Proof.
  intros H Hab Hb. pose proof (lines_concat _ H) as Hc. destruct (lines_shape _ H) as (full & l & E & _ & Hf & _).
  assert (Forall whole a) as Ha.
  { rewrite <-(take_app_length a b), <-Hab, E, take_app_le; [by apply Forall_take|].
    apply (f_equal length) in E. rewrite Hab, !length_app in E. destruct b; [done|]. cbn [length] in E. case_bool_decide; cbn in E; lia. }
  split; [done|]. rewrite Hab, concat_str_app in Hc. rewrite <-Hc, lines_kept_whole in Hab by done. by apply app_inv_head in Hab.
Qed.

Lemma blank_document text : no_cr text = true → is_blank text = true → document_text text = ([], []).
Proof.
  intros H Hb. unfold document_text. assert (Forall (λ l, is_blank l = true) (lines_kept text)) as Hl.
  { rewrite <-(lines_concat _ H) in Hb. unfold is_blank in Hb. rewrite chars_concat in Hb. induction (lines_kept text) as [|x l IH]; [done|].
    cbn [map concat] in Hb. rewrite forallb_app in Hb. apply andb_prop in Hb as [Hx Hl]. constructor; [done|by apply IH]. }
  induction Hl as [|x l Hx _ IH]; [done|]. by rewrite (document_blank [] x l Hx : document_of (x :: l) = _).
Qed.

Section rendered.
Context (name : string) (Hname : good_name name) (e : server_entry) (He : plain_entry e = true).

Definition body_lines : list string := [header_line (target_table name); command_line e; args_line e].
Definition block_lines : list string := map (λ l, l +:+ newline_str) body_lines.

Lemma block_text : _render_codex_block e name = concat_str block_lines.
Proof. unfold block_lines, _render_codex_block. cbn [map body_lines]. rewrite !concat_str_cons. change (concat_str []) with "". by rewrite sapp_nil_r, !sapp_assoc. Qed.

Lemma block_whole : Forall whole block_lines.
Proof. apply andb_prop in He as [H1 H2]. destruct Hname as (_ & H0 & _). repeat constructor; by apply whole_newline. Qed.

(** A line that begins and ends with a character that is no blank is stripped to itself. *)
Lemma strip_line c l d : is_space c = false → is_space d = false →
  let line := String c l +:+ String d "" in strip_chars (chars (line +:+ newline_str)) = chars line.
Proof.
  intros Hc Hd line. rewrite chars_app, strip_app_space by done. apply strip_chars_id; unfold line; rewrite chars_app, chars_cons.
  - by intros ? ? [= <- _].
  - by intros x l' [_ <-]%app_inj_tail.
Qed.

Lemma strip_header : str_strip (header_line (target_table name) +:+ newline_str) = header_line (target_table name).
Proof.
  unfold str_strip. pose proof (strip_line "[" (target_table name) "]" eq_refl eq_refl
    : strip_chars (chars (header_line (target_table name) +:+ newline_str)) = chars (header_line (target_table name))) as ->. by rewrite of_chars_chars.
Qed.

(** A line that begins with a letter and ends with a closing character is read as it is. *)
Lemma read_as_is c l d : is_space c = false → is_space d = false → c ≠ "["%char →
  let line := String c l +:+ String d "" in
  str_strip (line +:+ newline_str) = line ∧ _toml_table_header (line +:+ newline_str) = None ∧ is_blank (line +:+ newline_str) = false.
Proof.
  intros Hc Hd Hne line. pose proof (strip_line c l d Hc Hd : strip_chars (chars (line +:+ newline_str)) = chars line) as E.
  unfold str_strip, _toml_table_header. rewrite blank_strip, E, of_chars_chars. split; [done|]. unfold line. rewrite chars_app, chars_cons. cbn [app].
  split; [|done]. destruct (reverse _); [done|]. by rewrite bool_decide_eq_false_2.
Qed.

Lemma command_read : ∃ l, command_line e = String "c" l +:+ String dquote "".
Proof. exists ("ommand = " +:+ String dquote (of_chars (concat (map toml_escape (chars (en_command e)))))). reflexivity. Qed.
Lemma args_read : ∃ l, args_line e = String "a" l +:+ String "]" "".
Proof. by exists ("rgs = [" +:+ str_join ", " (map _toml_quote (en_args e))). Qed.

(** The document of the block before lines that begin with a header. *)
Lemma block_document lines : (document_of lines).1 = [] →
  document_of (block_lines ++ lines) = ([], (target_table name, body_lines) :: (document_of lines).2).
Proof.
  intros Hl. destruct command_read as [lc Hc], args_read as [la Ha]. unfold block_lines. cbn [map body_lines app document_of].
  destruct (read_as_is "c" lc dquote) as (C1 & C2 & C3); [done..|]. destruct (read_as_is "a" la "]") as (A1 & A2 & A3); [done..|].
  rewrite <-Hc in C1, C2, C3. rewrite <-Ha in A1, A2, A3. rewrite C1, C2, C3, A1, A2, A3. destruct (document_of lines) as [p ts]. cbn in Hl. subst p.
  assert (_toml_table_header (header_line (target_table name) +:+ newline_str) = Some (target_table name)) as ->; [|by rewrite strip_header].
  destruct Hname as [Hh _]. rewrite <-Hh. unfold _toml_table_header. by rewrite <-same_newline.
Qed.

(** The edits of a text whose lines have the server's table. *)
Lemma span_cut lines h r : rest name lines = h :: r →
  ∃ start stop, _codex_block_span lines name = Some (start, stop) ∧ take start lines = pre name lines ∧
    drop stop lines = post name lines ∧ lines !! stop = head (post name lines).
Proof.
  intros Hr. destruct (lines_parts _ _ _ _ Hr) as (Hl & _). unfold _codex_block_span. rewrite span_is, Hr. cbn [Nat.add].
  eexists _, _. split; [done|]. set (a := pre name lines) in *. set (b := post name lines) in *. set (i := inner name lines) in *.
  assert (lines = (a ++ h :: i) ++ b) as Hl' by (rewrite Hl; by rewrite <-(assoc_L (++))).
  assert (length a + 1 + length i = length (a ++ h :: i))%nat as Hlen by (rewrite length_app; cbn; lia). rewrite Hlen.
  rewrite Hl at 1. rewrite take_app_length. split; [done|]. rewrite !Hl'. rewrite drop_app_length. split; [done|].
  rewrite lookup_app_r, Nat.sub_diag by done. by destruct b.
Qed.

Definition gap (lines : list string) : list string := match post name lines with [] => [] | _ => [newline_str] end.

Lemma header_not_blank line h : _toml_table_header line = Some h → is_blank line = false.
Proof. unfold _toml_table_header. rewrite blank_strip. by destruct (strip_chars _). Qed.

Lemma upsert_present text h r : is_blank text = false → rest name (lines_kept text) = h :: r →
  upsert_toml_server (Some text) e name =
  concat_str (pre name (lines_kept text) ++ block_lines ++ gap (lines_kept text) ++ post name (lines_kept text)).
Proof.
  intros Hb Hr. unfold upsert_toml_server. cbn [no_text text_of]. rewrite Hb. destruct (span_cut _ _ _ Hr) as (i & j & -> & -> & -> & ->).
  destruct (lines_parts _ _ _ _ Hr) as (_ & _ & Hp). unfold gap. rewrite !concat_str_app, concat_str_cons, block_text.
  destruct (post name (lines_kept text)) as [|l ls]; cbn [head]; [change (concat_str []) with ""; by rewrite !sapp_nil_r|].
  destruct Hp as [Hp|(l' & ls' & hd & [= <- <-] & Hh & _)]; [done|]. rewrite (header_not_blank _ _ Hh). cbn [negb].
  change (concat_str [newline_str]) with newline_str. by rewrite <-!sapp_assoc.
Qed.

Lemma remove_present text h r : is_blank text = false → rest name (lines_kept text) = h :: r →
  remove_toml_server (Some text) name = (concat_str (pre name (lines_kept text) ++ post name (lines_kept text)), true).
Proof.
  intros Hb Hr. unfold remove_toml_server. cbn [no_text text_of]. rewrite Hb. destruct (span_cut _ _ _ Hr) as (i & j & -> & -> & Hd & ->).
  destruct (lines_parts _ _ _ _ Hr) as (_ & _ & [Hp|(l & ls & hd & Hp & Hh & _)]); rewrite Hp in Hd |- *; cbn [head]; [by rewrite Hd|].
  by rewrite (header_not_blank _ _ Hh), Hd.
Qed.

Lemma absent text : rest name (lines_kept text) = [] → _codex_block_span (lines_kept text) name = None.
Proof. intros Hr. unfold _codex_block_span. by rewrite span_is, Hr. Qed.
End rendered.

(** A line the code takes for a header begins with a bracket, so in a plain text it stands outside of values. *)
Lemma header_bracketed l h : _toml_table_header l = Some h → bracketed l = true.
Proof.
  unfold _toml_table_header, bracketed. destruct (strip_chars (chars l)) as [|c cs]; [done|]. destruct (reverse (c :: cs)); [done|].
  by destruct (bool_decide (c = "["%char)).
Qed.
Lemma header_step st l h : _toml_table_header l = Some h → st = toml_top ∨ toml_step st l = None.
Proof.
  intros H%header_bracketed. unfold toml_step. rewrite H. destruct (decide (st = toml_top)) as [->|Hne]; [by left|]. right.
  by rewrite bool_decide_eq_false_2.
Qed.
Lemma header_top st l t : bracketed l = true → toml_step st l = Some t → t = toml_top.
Proof. intros H. unfold toml_step. rewrite H. destruct (if bool_decide (st = toml_top) then toml_header l else None) as [path|]; [|done]. destruct (plain_header path l); congruence. Qed.

(** What every edit keeps of a text: the lines before the server's table, and those from the next table on. *)
Section frame.
Context (name : string) (Hname : good_name name).

Definition gap_before (after : list string) : list string := match after with [] => [] | _ => [newline_str] end.

Record frame (text : option string) (a b : list string) : Prop := Frame {
  fr_upsert e : plain_entry e = true → upsert_toml_server text e name = concat_str (a ++ block_lines name e ++ gap_before b ++ b);
  fr_whole : Forall whole a;
  fr_absent : rest name a = [];
  fr_next : b = [] ∨ ∃ l ls h, b = l :: ls ∧ _toml_table_header l = Some h ∧ own name h = false;
  fr_lines : lines_kept (concat_str b) = b;
  fr_set body : ((document_of a).1, (document_of a).2 ++ (target_table name, body) :: (document_of b).2) = set_table (target_table name) (own name) body (document_text (text_of text));
  fr_plain : plain_toml (text_of text) = true → toml_walk toml_top a = Some toml_top ∧ toml_walk toml_top b = Some toml_top;
  fr_drop : ((document_of a).1, (document_of a).2 ++ (document_of b).2) = drop_table (target_table name) (own name) (document_text (text_of text)) }.

(** A text has the table if one of its lines is the header. *)
Lemma absent_tables lines : rest name lines = [] ↔
  forallb (λ t, negb (bool_decide (t.1 = target_table name))) (document_of lines).2 = true.
Proof.
  transitivity (forallb (λ l, negb (is_target name l)) lines = true).
  { unfold rest. split; [apply drop_while_nil|intros H; exact (drop_while_all _ _ H)]. }
  apply eq_iff_eq_true. induction lines as [|l lines IH]; [done|]. cbn [document_of forallb]. rewrite IH. destruct (document_of lines) as [p ts].
  unfold is_target. destruct (_toml_table_header l) as [h|]; [|done]. cbn. f_equal. f_equal. apply bool_decide_ext. naive_solver.
Qed.

Lemma frame_blank text : no_cr (text_of text) = true → no_text text = true → frame text [] [].
Proof.
  intros Hcr Hb. assert (document_text (text_of text) = ([], [])) as Hd.
  { destruct text as [t|]; [by apply blank_document|done]. }
  split; [|constructor|done|by left|done|by rewrite Hd|done|by rewrite Hd].
  intros e He. unfold upsert_toml_server. rewrite Hb. cbn [app gap_before]. rewrite app_nil_r. apply block_text.
Qed.

Lemma frame_absent text : no_cr text = true → is_blank text = false → rest name (lines_kept text) = [] → ∃ a, frame (Some text) a [].
Proof.
  intros Hcr Hb Hr. destruct (lines_ended _ Hcr) as (a & Ha & [Hd Hw] & Hc). exists a. fold (document_text text) in Hd.
  assert (forallb (λ t, negb (bool_decide (t.1 = target_table name))) (document_of a).2 = true) as Hno by (rewrite Hd; by apply absent_tables).
  split; [|done|by apply absent_tables|by left|done| | |].
  - intros e He. unfold upsert_toml_server. cbn [no_text text_of]. rewrite Hb, absent by done.
    rewrite concat_str_app, Hc. cbn [gap_before]. rewrite !app_nil_r, block_text. by rewrite !sapp_assoc.
  - intros body. cbn [text_of]. rewrite <-Hd. destruct (document_of a) as [p ts]. symmetry. by apply set_table_absent.
  - intros Hp%bool_decide_eq_true. by rewrite Hw.
  - cbn [text_of]. rewrite <-Hd, app_nil_r. destruct (document_of a) as [p ts]. symmetry. by apply (set_table_absent name p ts []).
Qed.

Lemma frame_present text h r : no_cr text = true → is_blank text = false → rest name (lines_kept text) = h :: r →
  frame (Some text) (pre name (lines_kept text)) (post name (lines_kept text)).
Proof.
  intros Hcr Hb Hr. destruct (lines_parts _ _ _ _ Hr) as (Hl & Hh & Hp). destruct (post_document _ _ _ _ Hr) as [Hp1 Hp2].
  pose proof (document_parts _ _ _ _ Hr) as Hd. split.
  - intros e He. by apply (upsert_present name e text h r).
  - eapply (lines_cut text); [done|exact Hl|done].
  - apply absent_tables, pre_tables.
  - exact Hp.
  - destruct Hp as [->|(l & ls & hd & Hp & _)]; [done|]. eapply (lines_cut text _ _ Hcr); [|by rewrite Hp].
    rewrite Hl at 1. rewrite cons_middle, (assoc_L (++)), (assoc_L (++)). done.
  - intros body. cbn [text_of]. unfold document_text. rewrite Hd. symmetry. apply (set_table_parts name); [apply pre_tables|apply inner_tables|done].
  - intros Hw%bool_decide_eq_true. cbn [text_of] in Hw. rewrite Hl, walk_app in Hw. destruct (toml_walk toml_top (pre name (lines_kept text))) as [s1|]; [|done].
    cbn [mbind option_bind toml_walk] in Hw. destruct (header_step s1 h _ Hh) as [->|Hs]; [|by rewrite Hs in Hw].
    destruct (toml_step toml_top h) as [s2|] eqn:Es; [|done]. cbn [mbind option_bind] in Hw. rewrite walk_app in Hw. split; [done|].
    apply (header_top _ _ _ (header_bracketed _ _ Hh)) in Es as ->. destruct (toml_walk toml_top (inner name (lines_kept text))) as [s3|]; [|done].
    cbn [mbind option_bind] in Hw. destruct Hp as [Hp|(l & ls & hd & Hp & Hhd & _)]; [by rewrite Hp|]. rewrite Hp in Hw |- *. cbn [toml_walk] in Hw.
    destruct (header_step s3 l _ Hhd) as [->|Hs]; [exact Hw|by rewrite Hs in Hw].
  - cbn [text_of]. unfold document_text. rewrite Hd. symmetry. apply (set_table_parts name _ _ []); [apply pre_tables|apply inner_tables|done].
Qed.

(** The frame of any text. *)
Lemma edit_frame text : no_cr (text_of text) = true → ∃ a b, frame text a b.
Proof.
  intros Hcr. destruct text as [text|]; [|exists [], []; by apply frame_blank].
  destruct (is_blank text) eqn:Hb; [exists [], []; by apply frame_blank|]. destruct (rest name (lines_kept text)) as [|h r] eqn:Hr.
  - destruct (frame_absent text) as [a Ha]; [done..|]. by exists a, [].
  - exists (pre name (lines_kept text)), (post name (lines_kept text)). by eapply frame_present.
Qed.
End frame.

Section edited.
Context (name : string) (Hname : good_name name).

Lemma edited_lines text a b e : frame name text a b → plain_entry e = true →
  lines_kept (upsert_toml_server text e name) = a ++ block_lines name e ++ gap_before b ++ b.
Proof.
  intros Hf He. rewrite (fr_upsert _ _ _ _ Hf e He), !(assoc_L (++)), concat_str_app, lines_kept_whole, (fr_lines _ _ _ _ Hf); [done|].
  rewrite !Forall_app. split; [split; [exact (fr_whole _ _ _ _ Hf)|by apply block_whole]|]. destruct b; constructor; [by apply (whole_newline "")|done].
Qed.

Lemma next_document text a b : frame name text a b → (document_of b).1 = [] ∧ document_of (gap_before b ++ b) = document_of b.
Proof.
  intros Hf. destruct (fr_next _ _ _ _ Hf) as [->|(l & ls & h & -> & Hh & _)]; [done|]. split.
  - cbn [document_of]. destruct (document_of ls). by rewrite Hh.
  - exact (document_blank [] newline_str (l :: ls) eq_refl).
Qed.

Lemma edited_document text a b e : frame name text a b → plain_entry e = true →
  document_text (upsert_toml_server text e name) = set_table (target_table name) (own name) (body_lines name e) (document_text (text_of text)).
Proof.
  intros Hf He. destruct (next_document _ _ _ Hf) as [Hb Hg]. unfold document_text at 1. rewrite (edited_lines _ _ _ _ Hf He).
  rewrite <-(fr_set _ _ _ _ Hf). rewrite document_app; rewrite block_document; rewrite ?Hg; done.
Qed.

(** The lines of an edited text, cut again at the table. *)
Lemma edited_parts text a b e : frame name text a b → plain_entry e = true →
  let lines := lines_kept (upsert_toml_server text e name) in
  rest name lines = block_lines name e ++ gap_before b ++ b ∧ pre name lines = a ∧ post name lines = b.
Proof.
  intros Hf He lines. unfold lines. rewrite (edited_lines _ _ _ _ Hf He). destruct Hname as [Hh _].
  assert (is_target name (header_line (target_table name) +:+ newline_str) = true) as Ht.
  { unfold is_target, _toml_table_header. rewrite <-same_newline. unfold _toml_table_header in Hh. rewrite Hh. by apply bool_decide_eq_true_2. }
  pose proof (drop_while_nil _ _ (fr_absent _ _ _ _ Hf)) as Ha.
  assert (rest name (a ++ block_lines name e ++ gap_before b ++ b) = block_lines name e ++ gap_before b ++ b) as Hr.
  { unfold rest. rewrite drop_while_app by done. unfold block_lines, body_lines. cbn [map app]. apply drop_while_head. by rewrite Ht. }
  split; [done|]. split.
  - unfold pre. rewrite take_while_app by done. unfold block_lines, body_lines. cbn [map app take_while]. rewrite Ht. cbn. by rewrite app_nil_r.
  - unfold post. rewrite Hr. unfold block_lines, body_lines. cbn [map body_lines app tail].
    destruct (command_read e) as [lc Hc], (args_read e) as [la Hla]. destruct (read_as_is "c" lc dquote) as (_ & C2 & _); [done..|].
    destruct (read_as_is "a" la "]") as (_ & A2 & _); [done..|]. rewrite <-Hc in C2. rewrite <-Hla in A2.
    cbn [drop_while]. unfold stays at 1 2. rewrite C2, A2. cbv iota.
    destruct (fr_next _ _ _ _ Hf) as [->|(l & ls & h & -> & Hl & Ho)]; [done|]. cbn [gap_before app drop_while].
    change (stays name newline_str) with true. cbv iota. cbn [drop_while]. unfold stays at 1. by rewrite Hl, Ho.
Qed.
End edited.

(** A frame without the table between its parts. *)
Lemma dropped_document name text a b : frame name text a b →
  document_text (concat_str (a ++ b)) = drop_table (target_table name) (own name) (document_text (text_of text)).
Proof.
  intros Hf. unfold document_text at 1. rewrite concat_str_app, lines_kept_whole, (fr_lines _ _ _ _ Hf) by exact (fr_whole _ _ _ _ Hf).
  rewrite <-(fr_drop _ _ _ _ Hf). destruct (next_document _ _ _ _ Hf) as [Hb _]. by apply document_app.
Qed.

Lemma edited_not_blank name text a b e : frame name text a b → plain_entry e = true → is_blank (upsert_toml_server text e name) = false.
Proof.
  intros Hf He. rewrite (fr_upsert _ _ _ _ Hf e He). unfold is_blank. rewrite chars_concat, map_app, concat_app, forallb_app. unfold block_lines.
  unfold body_lines. cbn [map app concat]. unfold header_line. rewrite !chars_app. cbn. by rewrite !andb_false_r.
Qed.

(** An edit of an edited text depends on what was there before alone. *)
Lemma edit_after_edit name text e e' : good_name name → no_cr (text_of text) = true → plain_entry e = true → plain_entry e' = true →
  upsert_toml_server (Some (upsert_toml_server text e name)) e' name = upsert_toml_server text e' name ∧
  (remove_toml_server (Some (upsert_toml_server text e name)) name).2 = true ∧
  ∃ a b, frame name text a b ∧ (remove_toml_server (Some (upsert_toml_server text e name)) name).1 = concat_str (a ++ b).
Proof.
  intros Hn Hcr He He'. destruct (edit_frame name text Hcr) as (a & b & Hf).
  destruct (edited_parts name Hn _ _ _ _ Hf He) as (Hr & Ha & Hb). pose proof (edited_not_blank _ _ _ _ _ Hf He) as Hnb.
  unfold block_lines, body_lines in Hr. cbn [map app] in Hr.
  rewrite (upsert_present _ _ _ _ _ Hnb Hr), (remove_present _ _ _ _ Hnb Hr), Ha, Hb. unfold gap. rewrite Hb.
  split; [by rewrite (fr_upsert _ _ _ _ Hf e' He')|]. split; [done|]. by exists a, b.
Qed.

Lemma remove_is_drop name text : no_cr (text_of text) = true →
  document_text (remove_toml_server text name).1 = drop_table (target_table name) (own name) (document_text (text_of text)) ∧
  (remove_toml_server text name).2 = has_table (target_table name) (document_text (text_of text)) ∧
  ((remove_toml_server text name).2 = false → (remove_toml_server text name).1 = text_of text).
Proof.
  intros Hcr. assert (Hno : rest name (lines_kept (text_of text)) = [] → remove_toml_server text name = (text_of text, false)).
  { intros Hr. unfold remove_toml_server. destruct (no_text text); [done|]. by rewrite absent. }
  destruct (rest name (lines_kept (text_of text))) as [|h r] eqn:Hr.
  - rewrite Hno by done. cbn [fst snd]. apply absent_tables in Hr. fold (document_text (text_of text)) in Hr.
    destruct (document_text (text_of text)) as [p ts]. destruct (set_table_absent name p ts [] Hr) as (_ & -> & ->). done.
  - destruct text as [text|]; [|done]. cbn [text_of] in *. assert (is_blank text = false) as Hb.
    { apply not_true_iff_false. intros Hb. pose proof (blank_document _ Hcr Hb) as Hd. unfold document_text in Hd.
      assert (rest name (lines_kept text) = []) as Hr' by (apply absent_tables; by rewrite Hd). by rewrite Hr in Hr'. }
    pose proof (frame_present _ _ _ _ Hcr Hb Hr) as Hf. rewrite (remove_present _ _ _ _ Hb Hr). cbn [fst snd].
    split; [by apply (dropped_document _ (Some text))|]. split; [|done]. unfold document_text. rewrite (document_parts _ _ _ _ Hr). symmetry.
    apply (set_table_parts name _ _ []); [apply pre_tables|apply inner_tables|by eapply post_document].
Qed.

(** *** Plain texts: the code reads what TOML reads *)

Lemma bare_facts c : bare_char c = true → bracket c = false ∧ is_space c = false ∧ bool_decide (c = "."%char) = false.
Proof. destruct c as [[] [] [] [] [] [] [] []]; vm_compute; intros H; try done; by repeat split. Qed.

Lemma dotted_chars path : Forall (λ k, bare_key k = true) path → forallb (λ c, negb (bracket c) && negb (is_space c)) (chars (dotted path)) = true.
Proof.
  unfold dotted. assert (∀ k, bare_key k = true → forallb (λ c, negb (bracket c) && negb (is_space c)) (chars k) = true) as Hk.
  { intros k [Hk _]%andb_prop. rewrite forallb_forall in Hk |- *. intros c Hc%Hk. by destruct (bare_facts c Hc) as (-> & -> & _). }
  induction 1 as [|k [|k' path] H HF IH]; [done|by apply Hk|].
  change (str_join "." (k :: k' :: path)) with (k +:+ "." +:+ str_join "." (k' :: path)). rewrite !chars_app, !forallb_app, IH, Hk by done. done.
Qed.

Lemma dotted_nonempty path : path ≠ [] → Forall (λ k, bare_key k = true) path → chars (dotted path) ≠ [].
Proof.
  intros Hne. unfold dotted. destruct 1 as [|k [|k' path] [_ H]%andb_prop _]; [done| |].
  - cbn. by destruct k.
  - change (str_join "." (k :: k' :: path)) with (k +:+ "." +:+ str_join "." (k' :: path)). rewrite !chars_app. intros [_ [=]]%app_eq_nil.
Qed.

(** Brackets around a core are stripped. *)
Lemma strip_brackets_core o l c : forallb bracket o = true → forallb bracket c = true → l ≠ [] → forallb (λ c, negb (bracket c)) l = true →
  strip_brackets (o ++ l ++ c) = l.
Proof.
  intros Ho Hc Hne Hl. unfold strip_brackets. rewrite drop_while_app by done. assert (∀ r, drop_while bracket (l ++ r) = l ++ r) as Hd.
  { intros r. destruct l as [|x l]; [done|]. cbn in Hl |- *. apply andb_prop in Hl as [Hx%negb_true_iff _]. by rewrite Hx. }
  rewrite Hd, reverse_app, drop_while_app by (by apply forallb_reverse). apply forallb_reverse in Hl.
  rewrite <-(reverse_involutive l) at 2. f_equal. destruct (reverse l) as [|x r] eqn:Er.
  - done.
  - cbn in Hl |- *. apply andb_prop in Hl as [Hx%negb_true_iff _]. by rewrite Hx.
Qed.

Lemma plain_code_header line path : plain_header path line = true → _toml_table_header line = Some (dotted path) ∧ Forall (λ k, bare_key k = true) path ∧ path ≠ [].
Proof.
  unfold plain_header. rewrite !andb_true_iff, negb_true_iff, bool_decide_eq_false, bool_decide_eq_true. intros [[Hb Hne] Hin].
  assert (Forall (λ k, bare_key k = true) path) as HF by (apply Forall_forall; rewrite forallb_forall in Hb; intros k Hk; by apply Hb, list_elem_of_In).
  pose proof (dotted_chars path HF) as Hc. pose proof (dotted_nonempty path Hne HF) as Hn. split; [|done]. set (l := chars (dotted path)) in *.
  assert (∃ o c, strip_chars (chars line) = ("["%char :: o) ++ l ++ (c ++ ["]"%char]) ∧ forallb bracket o = true ∧ forallb bracket c = true) as (o & c & Hs & Ho & Hcc).
  { assert (strip_chars (chars line) = chars (str_strip line)) as -> by (unfold str_strip; by rewrite chars_of_chars).
    apply elem_of_cons in Hin as [->|Hin]; [|apply list_elem_of_singleton in Hin as ->]; [exists [], []|exists ["["%char], ["]"%char]]; by rewrite !chars_app. }
  assert (forallb (λ c, negb (bracket c)) l = true) as Hl.
  { rewrite forallb_forall in Hc |- *. intros x Hx%Hc. by apply andb_prop in Hx as [? _]. }
  assert (strip_brackets (("["%char :: o) ++ l ++ (c ++ ["]"%char])) = l) as E by (apply strip_brackets_core; [done|by rewrite forallb_app, Hcc|done|done]).
  assert (strip_chars l = l) as Hsp.
  { apply strip_chars_id; intros x r Er; rewrite Er in Hc; rewrite ?forallb_app in Hc; cbn in Hc; rewrite ?andb_true_iff in Hc; apply negb_true_iff; tauto. }
  assert (∃ t, reverse (("["%char :: o) ++ l ++ (c ++ ["]"%char])) = "]"%char :: t) as [t Ht] by (rewrite !(assoc_L (++)), reverse_app; by eexists).
  unfold _toml_table_header. rewrite Hs. cbv zeta. cbn [app] in *. rewrite Ht. rewrite !bool_decide_eq_true_2 by done. cbn [andb].
  rewrite E, Hsp. unfold l. by rewrite of_chars_chars.
Qed.

(** *** Names of tables as texts and as paths *)

Definition no_dot (l : list ascii) : bool := forallb (λ c, negb (bool_decide (c = "."%char))) l.
Definition parts (l : list ascii) : list string := map of_chars (split_all_chars "."%char [] l).

Lemma split_piece cur k l : no_dot k = true →
  split_all_chars "."%char cur (k ++ "."%char :: l) = (reverse cur ++ k) :: split_all_chars "."%char [] l.
Proof.
  revert cur. induction k as [|c k IH]; intros cur; cbn [app split_all_chars no_dot forallb].
  - by rewrite bool_decide_eq_true_2, app_nil_r.
  - intros [Hc%negb_true_iff%bool_decide_eq_false Hk]%andb_prop. rewrite bool_decide_eq_false_2, IH by done.
    by rewrite reverse_cons, <-(assoc_L (++)).
Qed.
Lemma split_last cur k : no_dot k = true → split_all_chars "."%char cur k = [reverse cur ++ k].
Proof.
  revert cur. induction k as [|c k IH]; intros cur; cbn [split_all_chars no_dot forallb]; [by rewrite app_nil_r|].
  intros [Hc%negb_true_iff%bool_decide_eq_false Hk]%andb_prop. rewrite bool_decide_eq_false_2, IH by done.
  by rewrite reverse_cons, <-(assoc_L (++)).
Qed.

Notation bare_path p := (p ≠ [] ∧ Forall (λ k, bare_key k = true) p).

Lemma bare_no_dot k : bare_key k = true → no_dot (chars k) = true.
Proof. intros [Hk _]%andb_prop. unfold no_dot. rewrite forallb_forall in Hk |- *. intros c Hc%Hk. by destruct (bare_facts c Hc) as (_ & _ & ->). Qed.

Lemma dotted_cons k p : p ≠ [] → dotted (k :: p) = k +:+ "." +:+ dotted p.
Proof. by destruct p. Qed.

Lemma parts_prefix p l : bare_path p → parts (chars (dotted p) ++ "."%char :: l) = p ++ parts l.
Proof.
  intros [Hne H]. induction H as [|k p Hk HF IH]; [done|]. destruct (decide (p = [])) as [->|Hp].
  - unfold parts, dotted. cbn [str_join]. rewrite split_piece by (by apply bare_no_dot). cbn. by rewrite of_chars_chars.
  - rewrite dotted_cons, !chars_app, <-!(assoc_L (++)) by done. change (chars ".") with ["."%char]. cbn [app]. unfold parts in *. rewrite split_piece by (by apply bare_no_dot).
    cbn [map app reverse rev_append]. rewrite IH by done. by rewrite of_chars_chars.
Qed.
Lemma parts_dotted p : bare_path p → parts (chars (dotted p)) = p.
Proof.
  intros [Hne H]. induction H as [|k p Hk HF IH]; [done|]. destruct (decide (p = [])) as [->|Hp].
  - unfold parts, dotted. cbn [str_join]. rewrite split_last by (by apply bare_no_dot). cbn. by rewrite of_chars_chars.
  - rewrite dotted_cons, !chars_app by done. change (chars ".") with ["."%char]. cbn [app]. unfold parts in *. rewrite split_piece by (by apply bare_no_dot).
    cbn [map app reverse rev_append]. rewrite IH by done. by rewrite of_chars_chars.
Qed.

Lemma dotted_app p q : p ≠ [] → q ≠ [] → dotted (p ++ q) = dotted p +:+ "." +:+ dotted q.
Proof.
  intros Hp Hq. induction p as [|k p IH]; [done|]. destruct (decide (p = [])) as [->|Hne]; [cbn [app]; by rewrite dotted_cons|].
  cbn [app]. rewrite !dotted_cons, IH, !sapp_assoc by (done || by destruct p). done.
Qed.

Section paths.
Context (name : string) (Hname : bare_key name = true).

Lemma table_path_bare : bare_path (table_path name).
Proof. split; [done|]. by repeat constructor. Qed.

Lemma target_is_dotted : target_table name = dotted (table_path name).
Proof. reflexivity. Qed.

(** The code's tests on names are the tests on paths. *)
Lemma target_path p : bare_path p → bool_decide (dotted p = target_table name) = bool_decide (p = table_path name).
Proof.
  intros Hp. apply bool_decide_ext. split; [|by intros ->]. rewrite target_is_dotted. intros H%(f_equal (parts ∘ chars)). cbn [compose] in H.
  by rewrite !parts_dotted in H by (done || apply table_path_bare).
Qed.

Lemma own_path p : bare_path p → own name (dotted p) = below_path name p.
Proof.
  intros Hp. unfold own, below_path. rewrite target_path by done. apply eq_iff_eq_true. rewrite orb_true_iff, !bool_decide_eq_true, startswith_spec.
  pose proof table_path_bare as Ht. split.
  - intros [->|[r Hr]]; [done|]. apply (f_equal (parts ∘ chars)) in Hr. cbn [compose] in Hr. rewrite parts_dotted in Hr by done.
    exists (parts (chars r)). rewrite Hr, target_is_dotted, <-parts_prefix, !chars_app, <-(assoc_L (++)) by done. done.
  - intros [r ->]. destruct (decide (r = [])) as [->|Hr]; [left; by rewrite app_nil_r|]. right. exists (dotted r).
    rewrite dotted_app by done. by rewrite target_is_dotted, sapp_assoc.
Qed.
End paths.

(** *** The two readings of a plain text *)

Lemma take_while_via {A B} (f : B → bool) (g : A → B) (h : A → bool) l : Forall (λ x, f (g x) = h x) l → take_while f (map g l) = map g (take_while h l).
Proof. induction 1 as [|x l Hx _ IH]; [done|]. cbn. rewrite Hx. destruct (h x); [|done]. cbn. by rewrite IH. Qed.
Lemma drop_while_via {A B} (f : B → bool) (g : A → B) (h : A → bool) l : Forall (λ x, f (g x) = h x) l → drop_while f (map g l) = map g (drop_while h l).
Proof. induction 1 as [|x l Hx _ IH]; [done|]. cbn. rewrite Hx. by destruct (h x). Qed.
Lemma Forall_take_while {A} (P : A → Prop) (f : A → bool) l : Forall P l → Forall P (take_while f l).
Proof. induction 1 as [|x l Hx _ IH]; [done|]. cbn. destruct (f x); by constructor. Qed.
Lemma Forall_drop_while {A} (P : A → Prop) (f : A → bool) l : Forall P l → Forall P (drop_while f l).
Proof. induction 1 as [|x l Hx Hl IH]; [done|]. cbn. destruct (f x); [done|by constructor]. Qed.

Definition code_table (t : list string * list string) : string * list string := (dotted t.1, t.2).
Definition code_tables (d : document (list string)) : document string := (d.1, map code_table d.2).
Definition bare_tables (d : document (list string)) : Prop := Forall (λ t, bare_path t.1) d.2.

Lemma code_tables_inj d d' : bare_tables d → bare_tables d' → code_tables d = code_tables d' → d = d'.
Proof.
  destruct d as [p ts], d' as [p' ts']. unfold bare_tables, code_tables. cbn [fst snd]. intros H H' [= -> Hm]. f_equal. revert ts' H' Hm.
  induction H as [|[k b] ts Hk _ IH]; intros [|[k' b'] ts'] H' Hm; try done. apply Forall_cons in H' as [Hk' H'].
  injection Hm as Hd -> Hm. apply (f_equal (parts ∘ chars)) in Hd. cbn [compose] in Hd. rewrite !parts_dotted in Hd by done.
  rewrite Hd. f_equal. by apply IH.
Qed.

Section tables_of_paths.
Context (name : string) (Hname : bare_key name = true) (d : document (list string)) (Hd : bare_tables d).

Lemma code_from : from_table (target_table name) (code_tables d).2 = map code_table (from_table (table_path name) d.2).
Proof. apply drop_while_via. eapply Forall_impl; [exact Hd|]. intros t Ht. cbn. by rewrite target_path. Qed.
Lemma code_before : before_table (target_table name) (code_tables d).2 = map code_table (before_table (table_path name) d.2).
Proof. apply take_while_via. eapply Forall_impl; [exact Hd|]. intros t Ht. cbn. by rewrite target_path. Qed.
Lemma bare_from : Forall (λ t, bare_path t.1) (tail (from_table (table_path name) d.2)).
Proof. pose proof (Forall_drop_while _ (λ t, negb (bool_decide (t.1 = table_path name))) _ Hd) as H. unfold from_table. destruct (drop_while _ _); [constructor|by apply Forall_cons in H as [_ ?]]. Qed.
Lemma code_after : after_table (target_table name) (own name) (code_tables d).2 = map code_table (after_table (table_path name) (below_path name) d.2).
Proof.
  unfold after_table. rewrite code_from. assert (tail (map code_table (from_table (table_path name) d.2)) = map code_table (tail (from_table (table_path name) d.2))) as ->
    by by destruct (from_table (table_path name) d.2). apply drop_while_via. eapply Forall_impl; [exact bare_from|]. intros t Ht. cbn. by rewrite own_path.
Qed.

Lemma code_set body : set_table (target_table name) (own name) body (code_tables d) = code_tables (set_table (table_path name) (below_path name) body d).
Proof. unfold set_table. rewrite code_before, code_after. unfold code_tables. cbn. by rewrite map_app. Qed.
Lemma code_drop : drop_table (target_table name) (own name) (code_tables d) = code_tables (drop_table (table_path name) (below_path name) d).
Proof. unfold drop_table. rewrite code_before, code_after. unfold code_tables. cbn. by rewrite map_app. Qed.
Lemma code_has : has_table (target_table name) (code_tables d) = has_table (table_path name) d.
Proof. unfold has_table. rewrite code_from. by destruct (from_table (table_path name) d.2). Qed.

Lemma bare_drop : bare_tables (drop_table (table_path name) (below_path name) d).
Proof. apply Forall_app. split; [by apply Forall_take_while|apply Forall_drop_while, bare_from]. Qed.
Lemma bare_set body : bare_tables (set_table (table_path name) (below_path name) body d).
Proof.
  apply Forall_app. split; [by apply Forall_take_while|]. constructor; [by apply table_path_bare|]. apply Forall_drop_while, bare_from.
Qed.
End tables_of_paths.

Lemma header_in_brackets line path : toml_header line = Some path → bracketed line = true.
Proof. unfold toml_header, bracketed. destruct (strip_chars (chars line)) as [|c l]; [done|]. destruct c as [[] [] [] [] [] [] [] []]; done. Qed.

(** On lines that are plainly written the code finds the headers of TOML and no others. *)
Lemma plain_documents lines : ∀ st st', toml_walk st lines = Some st' →
  document_of lines = code_tables (toml_document st lines) ∧ bare_tables (toml_document st lines).
Proof.
  induction lines as [|line lines IH]; intros st st' H; [split; [done|constructor]|]. cbn [toml_walk] in H. destruct (toml_step st line) as [t|] eqn:Es; [|done].
  destruct (IH _ _ H) as [Hd Hb]. cbn [document_of toml_document]. rewrite Hd. clear Hd H IH. unfold toml_step in Es.
  destruct (bracketed line) eqn:Eb.
  - destruct (if bool_decide (st = toml_top) then toml_header line else None) as [path|]; [|done].
    destruct (plain_header path line) eqn:Ep; [|done]. injection Es as <-. apply plain_code_header in Ep as (-> & HF & Hne).
    destruct (toml_document toml_top lines) as [body ts]. split; [done|]. by constructor.
  - injection Es as <-. assert ((if bool_decide (st = toml_top) then toml_header line else None) = None) as ->.
    { case_bool_decide; [|done]. destruct (toml_header line) eqn:Eh; [|done]. by rewrite (header_in_brackets _ _ Eh) in Eb. }
    assert (_toml_table_header line = None) as ->.
    { destruct (_toml_table_header line) eqn:Eh; [|done]. by rewrite (header_bracketed _ _ Eh) in Eb. }
    destruct (toml_document (toml_next st line) lines) as [body ts]. by split.
Qed.

Lemma plain_text_documents text : plain_toml text = true → document_text text = code_tables (toml_text text) ∧ bare_tables (toml_text text).
Proof. intros H%bool_decide_eq_true. by eapply plain_documents. Qed.

(** *** The lines of an entry end where they began *)

Lemma lex_escaped d v r : toml_lex d (Some TomlBasic) 0 (concat (map toml_escape v) ++ dquote :: r) = toml_lex d None 0 r.
Proof.
  induction v as [|c v IH]; [done|]. cbn [map concat]. rewrite <-(assoc_L (++)). unfold toml_escape at 1.
  repeat (case_bool_decide; [exact IH|]). cbn [app toml_lex]. by rewrite !bool_decide_eq_false_2.
Qed.

(** A quoted value, before anything but another quote. *)
Lemma lex_quoted d v r : head r ≠ Some dquote → toml_lex d None 0 (chars (_toml_quote v) ++ r) = toml_lex d None 0 r.
Proof.
  intros Hr. assert (chars (_toml_quote v) ++ r = dquote :: (concat (map toml_escape (chars v)) ++ dquote :: r)) as ->.
  { unfold _toml_quote, quoted. rewrite chars_app, chars_cons, chars_of_chars. cbn [app]. by rewrite <-(assoc_L (++)). }
  cbn [toml_lex]. change (bool_decide (dquote = "#"%char)) with false. rewrite bool_decide_eq_true_2 by done. cbv iota.
  assert (twice dquote (concat (map toml_escape (chars v)) ++ dquote :: r) = false) as ->; [|apply lex_escaped].
  destruct (chars v) as [|c l]; cbn [map concat app].
  - destruct r as [|x r]; [done|]. cbn. rewrite (bool_decide_eq_false_2 (x = dquote)) by (by intros ->). done.
  - unfold toml_escape at 1. repeat (case_bool_decide; [by destruct (concat _)|]). cbn. destruct (concat _ ++ _) as [|y l']; [done|].
    by rewrite bool_decide_eq_false_2.
Qed.

Lemma lex_args d args r : toml_lex d None 0 (chars (str_join ", " (map _toml_quote args)) ++ "]"%char :: r) = toml_lex (pred d) None 0 r.
Proof.
  induction args as [|a [|b args] IH]; [done|cbn [map str_join]; by rewrite lex_quoted|].
  change (str_join ", " (map _toml_quote (a :: b :: args))) with (_toml_quote a +:+ ", " +:+ str_join ", " (map _toml_quote (b :: args))).
  rewrite !chars_app, <-!(assoc_L (++)), lex_quoted by done. exact IH.
Qed.

Lemma step_letter line l d c : line = String c l +:+ String d "" → is_space c = false → is_space d = false → c ≠ "["%char →
  toml_step toml_top (line +:+ newline_str) = Some (toml_lex 0 None 0 (chars line)).
Proof.
  intros -> Hc Hd Hne. pose proof (strip_line c l d Hc Hd) as E. cbv zeta in E. unfold toml_step, bracketed, toml_next. rewrite E.
  rewrite chars_app, chars_cons. cbn [app]. by rewrite bool_decide_eq_false_2.
Qed.

Lemma block_walk name e : good_name name → toml_walk toml_top (block_lines name e) = Some toml_top.
Proof.
  intros (_ & _ & Hs & _). unfold block_lines, body_lines. cbn [map toml_walk]. rewrite Hs. cbn [mbind option_bind].
  destruct (command_read e) as [lc Hc], (args_read e) as [la Ha].
  rewrite (step_letter _ _ _ _ Hc) by done. cbn [mbind option_bind].
  assert (toml_lex 0 None 0 (chars (command_line e)) = toml_top) as ->.
  { unfold command_line. rewrite chars_app. rewrite <-(app_nil_r (chars (_toml_quote _))). cbn [chars app toml_lex].
    exact (lex_quoted 0 (en_command e) [] ltac:(done)). }
  cbn [mbind option_bind]. rewrite (step_letter _ _ _ _ Ha) by done. cbn [mbind option_bind]. unfold args_line. rewrite !chars_app.
  f_equal. exact (lex_args 1 (en_args e) []).
Qed.

(** A plain text stays plain, with the entry and without. *)
Lemma edited_plain name text a b e : good_name name → frame name text a b → plain_entry e = true → plain_toml (text_of text) = true →
  plain_toml (upsert_toml_server text e name) = true.
Proof.
  intros Hn Hf He [Ha Hb]%(fr_plain _ _ _ _ Hf). apply bool_decide_eq_true. rewrite (edited_lines name Hn _ _ _ _ Hf He).
  rewrite walk_app, Ha. cbn [mbind option_bind]. rewrite walk_app, (block_walk name e Hn). by destruct b.
Qed.

Lemma dropped_plain name text a b : frame name text a b → plain_toml (text_of text) = true → plain_toml (concat_str (a ++ b)) = true.
Proof.
  intros Hf [Ha Hb]%(fr_plain _ _ _ _ Hf). apply bool_decide_eq_true.
  rewrite concat_str_app, lines_kept_whole, (fr_lines _ _ _ _ Hf) by exact (fr_whole _ _ _ _ Hf). rewrite walk_app, Ha. exact Hb.
Qed.

Lemma remove_plain name text : no_cr (text_of text) = true → plain_toml (text_of text) = true → plain_toml (remove_toml_server text name).1 = true.
Proof.
  intros Hcr Hp. destruct (remove_is_drop name text Hcr) as (_ & R2 & R3). destruct (remove_toml_server text name).2 eqn:E; [|by rewrite R3].
  destruct text as [text|]; [|done]. cbn [text_of] in *. destruct (rest name (lines_kept text)) as [|h r] eqn:Hr.
  - apply absent_tables in Hr. fold (document_text text) in Hr. destruct (document_text text) as [p ts].
    destruct (set_table_absent name p ts [] Hr) as (_ & _ & Hh). by rewrite Hh in R2.
  - destruct (is_blank text) eqn:Hb; [unfold remove_toml_server in *; cbn [no_text] in *; by rewrite Hb in E|].
    rewrite (remove_present _ _ _ _ Hb Hr). cbn [fst]. eapply (dropped_plain name (Some text)); [by eapply frame_present|done].
Qed.

(** What TOML reads in a plain text the code reads as an edited document. *)
Lemma toml_reads text d : plain_toml text = true → document_text text = code_tables d → bare_tables d → toml_text text = d.
Proof. intros Hp Hd Hb. destruct (plain_text_documents text Hp) as [Hd' Hb']. apply code_tables_inj; [done|done|congruence]. Qed.

(** The number of the server's tables. *)
Definition occurrences (name : string) (d : document (list string)) : nat := length (List.filter (λ t, bool_decide (t.1 = table_path name)) d.2).

Lemma filter_none {A} (f : A → bool) l : forallb (λ x, negb (f x)) l = true → List.filter f l = [].
Proof. induction l as [|x l IH]; [done|]. cbn. intros [Hx%negb_true_iff Hl]%andb_prop. rewrite Hx. by apply IH. Qed.
Lemma filter_drop_while {A} (f g : A → bool) l : List.filter f l = [] → List.filter f (drop_while g l) = [].
Proof. induction l as [|x l IH]; [done|]. cbn. destruct (f x) eqn:E; [done|]. intros H. destruct (g x); [by apply IH|]. cbn. by rewrite E. Qed.

Lemma set_once name body d : (occurrences name d ≤ 1)%nat → occurrences name (set_table (table_path name) (below_path name) body d) = 1%nat.
Proof.
  destruct d as [p ts]. unfold occurrences, set_table, after_table. cbn [fst snd]. intros H.
  assert (List.filter (λ t, bool_decide (t.1 = table_path name)) (tail (from_table (table_path name) ts)) = []) as Ht.
  { rewrite <-(take_drop_while (λ t, negb (bool_decide (t.1 = table_path name))) ts), List.filter_app, length_app in H. unfold from_table.
    destruct (drop_while _ ts) as [|t l] eqn:E; [done|]. apply drop_while_hd, negb_false_iff in E. cbn [List.filter tail] in H |- *. rewrite E in H. cbn in H.
    apply nil_length_inv. lia. }
  rewrite List.filter_app. rewrite (filter_none _ (before_table _ _)) by apply forallb_take_while. cbn [List.filter app fst].
  rewrite bool_decide_eq_true_2 by done. cbn. by rewrite filter_drop_while.
Qed.


(** ** The JSON edits *)

Global Instance indented_as_is_ok k : LayoutOk (indented_as_is k).
Proof.
  assert (∀ n, forallb json_ws (replicate n " "%char) = true) as H by (by induction n).
  intros lvl. simpl. rewrite H. done.
Qed.

(** A dictionary that went through a file written in insertion order. *)
Definition filed (d : pydict) : pydict := map (λ kv, (kv.1, jsonify kv.2)) d.

Lemma json_ok_set k v d : json_ok (PDict d) = true → json_ok v = true → json_ok (PDict (dict_set k v d)) = true.
Proof.
  intros (Hs & Hnd & HF)%json_ok_dict Hv.
  assert (str_keyed (dict_set k v d) = true ∧ Forall (λ kv, json_ok kv.2 = true) (dict_set k v d) ∧ NoDup (keys_of (dict_set k v d)) ∧
    ∀ x, x ∈ keys_of (dict_set k v d) → x = k ∨ x ∈ keys_of d) as (?&?&?&_); [|by apply json_ok_dict_intro].
  induction d as [|[k' v'] d IH]; cbn [dict_set].
  { split_and!; [done|by repeat constructor|apply NoDup_singleton|]. intros x Hx%list_elem_of_singleton. by left. }
  cbn [str_keyed forallb fst] in Hs. apply andb_prop in Hs as [Hk Hs]. apply NoDup_cons in Hnd as [Hni Hnd]. apply Forall_cons in HF as [Hv' HF].
  destruct (IH Hs Hnd HF) as (I1 & I2 & I3 & I4). destruct (key_is k (k', v')) eqn:Ek.
  - apply key_is_true in Ek. cbn in Ek. subst k'. cbn [str_keyed forallb fst keys_of map key_text].
    split_and!; [done|by constructor|by apply NoDup_cons|]. intros x. rewrite !elem_of_cons. tauto.
  - cbn [str_keyed forallb fst keys_of map key_text]. split_and!; [by rewrite Hk|by constructor| |].
    + apply NoDup_cons. split; [|done]. intros [Hx|Hx]%I4; [|done]. destruct k' as [| | | |s| | | |]; try done. cbn [fst key_text] in Hx. subst s.
      unfold key_is in Ek. cbn in Ek. by rewrite bool_decide_eq_true_2 in Ek.
    + intros x. rewrite !elem_of_cons. intros [->|[->|Hx]%I4]; tauto.
Qed.

Lemma json_ok_get k v d : json_ok (PDict d) = true → dict_get k d = Some v → json_ok v = true.
Proof.
  intros (Hs & Hnd & HF)%json_ok_dict Hk. apply dict_get_elem in Hk; [|done..]. rewrite Forall_forall in HF. exact (HF _ Hk).
Qed.

Lemma dump_config_run d : json_ok (PDict d) = true → d ≠ [] →
  ∃ text, dump_config d = Ok text ∧ _load_json_object (Some text) = Ok (filed d).
Proof.
  intros Hok Hne. exists (of_chars (json_text (indented_as_is 2) 0 (PDict d)) +:+ newline_str). split.
  { unfold dump_config. by rewrite (dumps_ok (indented_as_is 2)). }
  unfold _load_json_object. cbn [no_text text_of].
  assert (is_blank (of_chars (json_text (indented_as_is 2) 0 (PDict d)) +:+ newline_str) = false) as ->.
  { unfold is_blank. rewrite chars_app, chars_of_chars. by destruct d. }
  rewrite (loads_line_with (indented_as_is 2)) by done.
  change (lay_leb (indented_as_is 2)) with (lay_leb unsorted). by rewrite canon_unsorted.
Qed.

Lemma filed_get k d : dict_get k (filed d) = jsonify <$> dict_get k d.
Proof. apply dict_get_map_snd. Qed.

Lemma jsonify_facts v : json_ok v = true → json_ok (jsonify v) = true ∧ jsonify (jsonify v) = jsonify v.
Proof.
  assert (∀ l, Forall (λ v, json_ok v = true → json_ok (jsonify v) = true ∧ jsonify (jsonify v) = jsonify v) l →
    forallb json_ok l = true → forallb json_ok (map jsonify l) = true ∧ map jsonify (map jsonify l) = map jsonify l) as Hl.
  { induction 1 as [|w l Hw _ IH]; [done|]. cbn [map forallb]. intros [Hw'%Hw Hl]%andb_prop. destruct Hw' as [-> ->].
    destruct (IH Hl) as [-> ->]. done. }
  revert v. refine (pyval_deep_ind _ _ _ _ _ _ _ _ _ _); try done.
  - intros l IH Hok. cbn [jsonify]. destruct (Hl l IH Hok) as [H1 ->]. done.
  - intros l IH Hok. cbn [jsonify]. destruct (Hl l IH Hok) as [H1 ->]. done.
  - intros d IH Hok. apply json_ok_dict in Hok as (Hs & Hnd & HF). cbn [jsonify]. rewrite map_map. cbn [fst snd]. rewrite Forall_forall in IH, HF. split.
    + apply json_ok_dict_intro.
      * unfold str_keyed in *. rewrite forallb_forall in *. intros x (y & <- & Hy)%in_map_iff. exact (Hs y Hy).
      * unfold keys_of in *. by rewrite map_map.
      * apply Forall_forall. intros x (y & -> & Hy)%list_elem_of_fmap. apply (IH y Hy), (HF y Hy).
    + f_equal. apply map_ext_in. intros y Hy%list_elem_of_In. f_equal. apply (IH y Hy), (HF y Hy).
Qed.

Lemma filed_ok d : json_ok (PDict d) = true → json_ok (PDict (filed d)) = true.
Proof. intros H. apply (jsonify_facts (PDict d) H). Qed.

(** Values that are the same once they went through a file. *)
Definition same_filed (v w : option pyval) : Prop := jsonify <$> v = jsonify <$> w.

(** The server [n] of a configuration. *)
Definition server (n : string) (d : pydict) : option pyval := servers ← servers_of d; dict_get n servers.

Lemma servers_filed d : servers_of (filed d) = filed <$> servers_of d.
Proof. unfold servers_of. rewrite filed_get. by destruct (dict_get "mcpServers" d) as [[]|]. Qed.
Lemma server_filed n d : server n (filed d) = jsonify <$> server n d.
Proof. unfold server. rewrite servers_filed. destruct (servers_of d) as [q|]; [|done]. cbn. apply filed_get. Qed.

Lemma jsonify_entry e : jsonify (entry_value e) = entry_value e ∧ json_ok (entry_value e) = true.
Proof.
  destruct e as [c a]. cbn. split.
  - by rewrite map_map.
  - rewrite andb_true_r. apply andb_true_intro. split; [|by vm_compute]. apply forallb_forall. by intros ? (x & <- & _)%in_map_iff.
Qed.

Lemma servers_ok d : json_ok (PDict d) = true → json_ok (PDict (default [] (servers_of d))) = true.
Proof. intros H. unfold servers_of. destruct (dict_get "mcpServers" d) as [[]|] eqn:E; try done. exact (json_ok_get _ _ _ H E). Qed.

(** What a configuration with other servers holds. *)
Lemma servers_set servers d : servers_of (dict_set "mcpServers" (PDict servers) d) = Some servers.
Proof. unfold servers_of. by rewrite dict_get_set_eq. Qed.

Lemma set_not_nil k v d : dict_set k v d ≠ [].
Proof. destruct d as [|kv d]; [done|]. cbn. by destruct (key_is k kv). Qed.

Lemma json_ok_del k d : json_ok (PDict d) = true → json_ok (PDict (dict_del k d)) = true.
Proof.
  intros (Hs & Hnd & HF)%json_ok_dict. unfold dict_del. apply json_ok_dict_intro.
  - unfold str_keyed in *. rewrite forallb_forall in *. intros x [Hx _]%filter_In. by apply Hs.
  - unfold keys_of in *. clear -Hnd. induction d as [|kv d IH]; [done|]. apply NoDup_cons in Hnd as [Hni Hnd]. cbn [List.filter].
    destruct (negb _); [|by apply IH]. apply NoDup_cons. split; [|by apply IH]. intros (y & Hy & Hin)%list_elem_of_fmap.
    apply Hni. rewrite Hy. apply list_elem_of_fmap. exists y. split; [done|]. apply list_elem_of_In, filter_In in Hin as [Hin _]. by apply list_elem_of_In.
  - rewrite Forall_forall in *. intros x Hx. apply HF. apply list_elem_of_In, filter_In in Hx as [Hx _]. by apply list_elem_of_In.
Qed.

(** Installing into and removing from a JSON configuration: the entry is set, or gone; every other server and
    every other key of the file reads as before; what is written is a configuration again. *)
Theorem json_edits_keep_the_rest (text : option string) (d : pydict) (e : server_entry) (name : string) :
  _load_json_object text = Ok d → json_ok (PDict d) = true →
  ∃ t1 d1 t2 d2, upsert_json_server text e name = Ok t1 ∧ _load_json_object (Some t1) = Ok d1 ∧
    remove_json_server (Some t1) name = Ok (t2, true) ∧ _load_json_object (Some t2) = Ok d2 ∧
    server name d1 = Some (entry_value e) ∧ server name d2 = None ∧
    (∀ n, n ≠ name → same_filed (server n d1) (server n d) ∧ same_filed (server n d2) (server n d)) ∧
    (∀ k, k ≠ "mcpServers" → same_filed (dict_get k d1) (dict_get k d) ∧ same_filed (dict_get k d2) (dict_get k d)).
Proof.
  intros Hd Hok. destruct (jsonify_entry e) as [He Heok].
  assert (json_ok (PDict (dict_set name (entry_value e) (default [] (servers_of d)))) = true) as Hs by (apply json_ok_set; [by apply servers_ok|done]).
  assert (json_ok (PDict (with_server d name e)) = true) as Hw by by apply json_ok_set.
  destruct (dump_config_run (with_server d name e)) as (t1 & E1 & L1); [done|apply set_not_nil|].
  pose proof (filed_ok _ Hw) as Hf. set (d1 := filed (with_server d name e)) in *.
  assert (∃ q, servers_of d1 = Some q ∧ dict_get name q = Some (entry_value e) ∧ ∀ n, n ≠ name → dict_get n q = jsonify <$> server n d) as (q & Hq & Hqn & Hqo).
  { exists (filed (dict_set name (entry_value e) (default [] (servers_of d)))). split; [|split].
    - unfold d1, with_server. by rewrite servers_filed, servers_set.
    - rewrite filed_get, dict_get_set_eq. cbn [fmap option_fmap option_map]. by rewrite He.
    - intros n Hn. rewrite filed_get, dict_get_set_ne by done. unfold server. by destruct (servers_of d). }
  destruct (dump_config_run (dict_set "mcpServers" (PDict (dict_del name q)) d1)) as (t2 & E2 & L2); [|apply set_not_nil|].
  { apply json_ok_set; [done|]. apply json_ok_del. pose proof (servers_ok d1 Hf) as H. by rewrite Hq in H. }
  exists t1, d1, t2, (filed (dict_set "mcpServers" (PDict (dict_del name q)) d1)).
  split; [unfold upsert_json_server; by rewrite Hd|]. split; [done|]. split.
  { unfold remove_json_server. rewrite L1. cbn [mbind result_bind]. rewrite Hq, bool_decide_eq_true_2 by (by rewrite Hqn). by rewrite E2. }
  split; [done|]. split; [unfold server; by rewrite Hq|]. rewrite server_filed. unfold server at 1. rewrite servers_set. cbn [mbind option_bind].
  split; [by rewrite dict_get_del_eq|]. split.
  - intros n Hn. rewrite server_filed. unfold server at 1 3, same_filed. rewrite Hq, servers_set. cbn [mbind option_bind]. rewrite dict_get_del_ne, Hqo by done.
    assert (jsonify <$> (jsonify <$> server n d) = jsonify <$> server n d) as Hi.
    { unfold server. destruct (servers_of d) as [sv|] eqn:Esv; [|done]. cbn. destruct (dict_get n sv) as [v|] eqn:Ev; [|done]. cbn. f_equal.
      apply jsonify_facts. pose proof (servers_ok d Hok) as H. rewrite Esv in H. exact (json_ok_get _ _ _ H Ev). }
    by rewrite !Hi.
  - intros k Hk. rewrite filed_get, dict_get_set_ne by done. unfold d1, same_filed. rewrite filed_get. unfold with_server. rewrite dict_get_set_ne by done.
    assert (jsonify <$> (jsonify <$> dict_get k d) = jsonify <$> dict_get k d) as Hi.
    { destruct (dict_get k d) as [v|] eqn:Ev; [|done]. cbn. f_equal. apply jsonify_facts. exact (json_ok_get _ _ _ Hok Ev). }
    by rewrite !Hi.
Qed.

(** ** Installing *)

Lemma pure_attempt {A} (m : io A) : pure_io m → pure_io (attempt m).
Proof. intros H s. exact (H s). Qed.

Section installing.
Context {M : Machine} (run : list string → io Z).

Lemma pure_invocation prefer_uv : pure_io (resolve_server_invocation prefer_uv).
Proof.
  assert (∀ dirs, pure_io (project_root_in dirs)) as Hp.
  { induction dirs as [|d dirs IH]; cbn [project_root_in]; [apply pure_ret|]. apply pure_bind; [apply pure_is_file|]. intros [|]; [|done].
    apply pure_bind; [apply pure_attempt, pure_read_text|]. intros [t|err]; [apply pure_ret|]. destruct (is_os_error err); [apply pure_ret|apply pure_lift]. }
  assert (∀ l, pure_io (first_file l)) as Hf.
  { induction l as [|q l IH]; cbn [first_file]; [apply pure_ret|]. apply pure_bind; [apply pure_is_file|]. intros [|]; [apply pure_ret|done]. }
  unfold resolve_server_invocation. destruct (_ && _); [apply pure_ret|]. apply pure_bind; [apply Hp|]. intros root.
  assert (∀ i : ServerInvocation, pure_io (if bool_decide (is_Some (set_value (which "lodedb"))) then mret found_on_path else
    entry ← _entry_point_path; match entry with Some entry => mret (Invocation (path_str entry) ["mcp"] ("absolute path to the installed entry point (" +:+ path_str entry +:+ ")")) | None => mret i end)) as Hr.
  { intros i. case_bool_decide; [apply pure_ret|]. apply pure_bind; [apply Hf|]. intros []; apply pure_ret. }
  destruct root; [|apply Hr]. destruct (which "uv"); [apply pure_ret|apply Hr].
Qed.

Lemma pure_read_none target : pure_io (_read_text_or_none target).
Proof.
  apply pure_bind; [apply pure_attempt, pure_read_text|]. intros [t|err]; [apply pure_ret|]. case_bool_decide; [apply pure_ret|apply pure_lift].
Qed.

(** The file an action writes, where it writes one. *)
Definition new_text (client : string) (q : install_request) (entry : server_entry) (current : option string) : result (option string) :=
  let is_toml := bool_decide (client = "codex") in
  if bool_decide (iq_action q = "uninstall")
  then new ← removed_text is_toml current; Ok (if (new.2 : bool) then Some new.1 else None)
  else new ← upserted_text is_toml current entry; Ok (Some new).

Definition config_target (client : string) (q : install_request) : result path :=
  match iq_config_path q with Some p => Ok p | None => client_config_path client (iq_project q) end.
Definition invocation_of (q : install_request) : io ServerInvocation :=
  match iq_invocation q with Some i => mret i | None => resolve_server_invocation (iq_prefer_uv q) end.
Definition entry_of (q : install_request) (i : ServerInvocation) : server_entry :=
  build_server_entry i (match iq_options q with Some o => o | None => default_options end).

Lemma write_config_runs target text s : runs (λ t, ∀ p, p ≠ target → files t !! p = files s !! p) (_write_text target text false) s
  (λ r t, r = Ok tt ∧ files t = <[target := File (utf8_encode text) false]> (files s)).
Proof.
  unfold _write_text. destruct (mkdir_p_run (parent target) s) as (tr & ds & E & _ & Hd & Ht).
  eapply (runs_bind _ _ _ _ _ (λ r t, r = Ok tt ∧ t = FSys (files s) ds)); [|intros [] t [_ ->]|by intros err t [? _]].
  - unfold runs. rewrite E. cbn. split; [|done]. eapply Forall_impl; [exact Ht|]. by intros t ->.
  - eapply runs_weaken; [apply (write_bytes_runs target); exact Hd|by intros t [_ H]|]. by intros r t [-> ->].
Qed.

(** What an action makes of the files, as it finds them. *)
Definition planned (client : string) (q : install_request) (entry : server_entry) (target : path) (s : fsys) : result (option string) :=
  current ← value (_read_text_or_none target s);
  new ← new_text client q entry current;
  Ok (if iq_dry_run q then None else new).

(** A run [o] from [s] that writes the text to the target, or nothing. *)
Definition writes {A} (target : path) (s : fsys) (new : option string) (o : outcome A) : Prop :=
  match new with
  | None => trace o = [] ∧ final o = s
  | Some text => Forall (λ t, ∀ p, p ≠ target → files t !! p = files s !! p) (trace o) ∧
                 files (final o) = <[target := File (utf8_encode text) false]> (files s)
  end.

Lemma write_then_return {A} target new dry_run s (a : A) :
  let m := _ ← (match new with Some text => _write_text target text dry_run | None => mret tt end); mret a in
  value (m s) = Ok a ∧ writes target s (if dry_run then None else new) (m s).
Proof.
  destruct new as [text|]; [|by destruct dry_run]. destruct dry_run; [done|]. cbv zeta.
  destruct (write_config_runs target text s) as [Ht [Hv Hf]]. unfold mbind, io_bind. rewrite Hv. cbn. split; [done|]. by rewrite app_nil_r.
Qed.

Lemma install_direct_runs client q entry target s :
  let o := _install_direct_config client entry (iq_action q) target (iq_dry_run q) s in
  match planned client q entry target s with
  | Err err => o = Out [] s (Err err)
  | Ok new => is_Ok (value o) ∧ writes target s new o
  end.
Proof.
  unfold _install_direct_config, planned, new_text. cbv zeta. destruct (value (_read_text_or_none target s)) as [current|err] eqn:Er.
  2: { erewrite bind_run_err; [done|]. by rewrite (pure_run _ s (pure_read_none target)), Er. }
  erewrite bind_run_pure by (by rewrite (pure_run _ s (pure_read_none target)), Er). cbn [mbind result_bind].
  destruct (bool_decide (iq_action q = "uninstall")); rewrite lift_bind_run.
  - destruct (removed_text _ current) as [[new changed]|]; [|done]. cbn [fst snd].
    pose proof (λ r : ClientResult, write_then_return target (if changed then Some new else None) (iq_dry_run q) s r) as H.
    destruct changed; cbn [mbind result_bind fst snd]; cbv beta iota zeta in H |- *; match goal with |- is_Ok (value ((_ ≫= λ _, mret ?r) s)) ∧ _ => destruct (H r) as [Hv Hw]; split; [by eexists|exact Hw] end.
  - destruct (upserted_text _ current entry) as [new|]; [|done].
    pose proof (λ r : ClientResult, write_then_return target (Some new) (iq_dry_run q) s r) as H.
    cbn [mbind result_bind]; cbv beta iota zeta in H |- *; match goal with |- is_Ok (value ((_ ≫= λ _, mret ?r) s)) ∧ _ => destruct (H r) as [Hv Hw]; split; [by eexists|exact Hw] end.
Qed.

Lemma pure_invocation_of q : pure_io (invocation_of q).
Proof. unfold invocation_of. destruct (iq_invocation q); [apply pure_ret|apply pure_invocation]. Qed.

(** The outcome asked of a client with a configuration file. *)
Definition installed (client : string) (q : install_request) (s : fsys) (o : outcome ClientResult) : Prop :=
  match (i ← value (invocation_of q s); target ← config_target client q;
         new ← planned client q (entry_of q i) target s; Ok (target, new)) with
  | Err err => o = Out [] s (Err err)
  | Ok (target, new) => is_Ok (value o) ∧ writes target s new o
  end.

Lemma direct_clients client : client ∈ DIRECT_CONFIG_CLIENTS → str_in client KNOWN_CLIENTS = true ∧ client ≠ "claude-code".
Proof.
  intros H. split; [apply bool_decide_eq_true_2; by right|]. intros ->. revert H. by apply (bool_decide_unpack (¬ _)).
Qed.

Lemma install_direct_client client q s : client ∈ DIRECT_CONFIG_CLIENTS → installed client q s (install_client run client q s).
Proof.
  intros [Hk Hne]%direct_clients. unfold installed, install_client. rewrite Hk. cbn [negb]. fold (invocation_of q) (config_target client q).
  pose proof (pure_run _ s (pure_invocation_of q)) as Hi. destruct (value (invocation_of q s)) as [i|err].
  2: { by erewrite bind_run_err by exact Hi. }
  erewrite bind_run_pure by exact Hi. rewrite bool_decide_eq_false_2 by done. cbn [mbind result_bind].
  rewrite lift_bind_run. destruct (config_target client q) as [target|]; [|done]. cbn [mbind result_bind]. fold (entry_of q i).
  pose proof (install_direct_runs client q (entry_of q i) target s) as H. cbv zeta in H. by destruct (planned client q (entry_of q i) target s).
Qed.

(** Installing and uninstalling do what they say to the file of the client and to nothing else. A dry run
    neither writes nor runs a command, whatever the client. For a client with a configuration file, the run fails
    exactly where the file cannot be located, read or edited, and then nothing was written; otherwise the file
    holds the edited text at the end, other files keep their content in every state on the way, and an uninstall
    without an entry to remove writes nothing. *)
Theorem install_writes_config_only (client : string) (q : install_request) (s : fsys) :
  (iq_dry_run q = true → trace (install_client run client q s) = [] ∧ final (install_client run client q s) = s) ∧
  (client ∈ DIRECT_CONFIG_CLIENTS → installed client q s (install_client run client q s)).
Proof.
  split; [|apply install_direct_client]. intros Hdry. destruct (str_in client KNOWN_CLIENTS) eqn:Hk.
  2: { unfold install_client. by rewrite Hk. }
  apply bool_decide_eq_true in Hk. apply elem_of_cons in Hk as [->|Hd].
  - unfold install_client. change (negb (str_in "claude-code" KNOWN_CLIENTS)) with false. cbv iota zeta. fold (invocation_of q).
    pose proof (pure_run _ s (pure_invocation_of q)) as Hi. destruct (value (invocation_of q s)) as [i|err].
    + erewrite bind_run_pure by exact Hi. rewrite bool_decide_eq_true_2 by done. unfold _install_claude_code. by rewrite Hdry.
    + by erewrite bind_run_err by exact Hi.
  - pose proof (install_direct_client client q s Hd) as H. unfold installed in H. destruct (value (invocation_of q s)) as [i|]; cbn [mbind result_bind] in H; [|by rewrite H].
    destruct (config_target client q) as [target|]; cbn [mbind result_bind] in H; [|by rewrite H].
    destruct (planned client q (entry_of q i) target s) as [new|] eqn:Ep; cbn [mbind result_bind] in H; [|by rewrite H]. unfold planned in Ep.
    destruct (value (_read_text_or_none target s)); [|done]. cbn [mbind result_bind] in Ep. destruct (new_text _ _ _ _); [|done]. cbn [mbind result_bind] in Ep.
    rewrite Hdry in Ep. injection Ep as <-. exact (proj2 H).
Qed.
End installing.

(** ** Examples *)

Definition demo_entry : server_entry := Entry "lodedb" ["mcp"; "--path"; "./data"].
Definition demo_old : server_entry := Entry "uv" ["run"; "lodedb"; "mcp"].
Definition text_of_lines (lines : list string) : string := str_join newline_str lines +:+ newline_str.
Definition demo_toml : string :=
  text_of_lines ["roots = ["; "  '[x]', # a value"; "]"; ""; "[mcp_servers.lodedb]"; "command = 2"; "[mcp_servers.lodedb.env]"; "KEY = 3";
                 "# the other one"; "[mcp_servers.other]"; "command = 4"].


(** A comment above the next table, and the variables of the server, go with the old entry. *)
Example comment_is_dropped :
  upsert_toml_server (Some demo_toml) demo_entry SERVER_NAME =
  text_of_lines ["roots = ["; "  '[x]', # a value"; "]"; ""; "[mcp_servers.lodedb]"; command_line demo_entry; args_line demo_entry; "";
                 "[mcp_servers.other]"; "command = 4"].
Proof. vm_compute. reflexivity. Qed.

(** A header with a comment behind it, which TOML reads, is not found: the file then has the table twice. *)
Example commented_header_is_duplicated :
  let text := text_of_lines ["[mcp_servers.lodedb] # local"; "command = 1"] in
  let edited := upsert_toml_server (Some text) demo_entry SERVER_NAME in
  edited = text_of_lines ["[mcp_servers.lodedb] # local"; "command = 1"; ""; "[mcp_servers.lodedb]"; command_line demo_entry; args_line demo_entry] ∧
  occurrences SERVER_NAME (toml_text text) = 1%nat ∧ occurrences SERVER_NAME (toml_text edited) = 2%nat.
Proof. vm_compute. done. Qed.

(** So is one with blanks between the brackets and the dots, or with a quoted key. *)
Example spelled_headers_are_read :
  map toml_header ["[mcp_servers.lodedb]"; " [[ mcp_servers . lodedb ]] # x"; "['mcp_servers'.lodedb]"; "[1, 2]"; "[x] y"] =
    [Some (table_path SERVER_NAME); Some (table_path SERVER_NAME); Some (table_path SERVER_NAME); None; None] ∧
  map (λ l, bool_decide (_toml_table_header l = Some (target_table SERVER_NAME))) ["[mcp_servers . lodedb]"; "['mcp_servers'.lodedb]"] = [false; false].
Proof. vm_compute. done. Qed.

Instance demo_machine : Machine := {|
  which := λ name, if bool_decide (name = "lodedb") then Some "/usr/bin/lodedb" else None;
  platform_system := "Linux"; os_environ := ∅; home := ["ada"; "home"]; sys_executable := "/usr/bin/python3";
  module_file := ["mcp_install.py"; "lodedb"]; to_path := λ s, [s]; resolve_path := λ p, p |}.
Definition demo_run (argv : list string) : io Z := mret 0.
Definition demo_request : install_request := InstallRequest "install" None None None None false false.
Definition demo_config : path := ["mcp.json"; ".cursor"; "ada"; "home"].
Definition demo_files : fsys := FSys {[ demo_config := File (utf8_encode "{}") false ]} (ancestors (parent demo_config)).

Lemma json_edits_keep_the_rest_witness : ∃ t1, upsert_json_server (Some "{}") demo_entry SERVER_NAME = Ok t1 ∧ is_Ok (_load_json_object (Some t1)).
Proof.
  destruct (json_edits_keep_the_rest (Some "{}") [] demo_entry SERVER_NAME) as (t1 & d1 & _ & _ & H1 & H2 & _); [vm_compute; reflexivity..|].
  exists t1. split; [exact H1|]. exists d1. exact H2.
Defined.

Definition demo_json : string := match upsert_json_server (Some "{}") demo_entry SERVER_NAME with Ok text => text | Err _ => "" end.

Lemma install_writes_config_only_witness :
  let o := install_client demo_run "cursor" demo_request demo_files in
  is_Ok (value o) ∧ content (final o) demo_config = Some (utf8_encode demo_json) ∧ Forall (λ t, ∀ p, p ≠ demo_config → content t p = None) (trace o).
Proof.
  destruct (install_writes_config_only demo_run "cursor" demo_request demo_files) as [_ H].
  assert ("cursor" ∈ DIRECT_CONFIG_CLIENTS) as Hd by (by apply (bool_decide_unpack _)).
  apply H in Hd as Hw. unfold installed in Hw.
  assert ((i ← value (invocation_of demo_request demo_files); target ← config_target "cursor" demo_request;
    new ← planned "cursor" demo_request (entry_of demo_request i) target demo_files; Ok (target, new)) = Ok (demo_config, Some demo_json)) as E by (vm_compute; reflexivity).
  rewrite E in Hw. destruct Hw as [Hok [Ht Hf]]. split; [exact Hok|]. split.
  - unfold content. rewrite Hf, lookup_insert_eq. reflexivity.
  - eapply Forall_impl; [exact Ht|]. intros t Hp p Hne. unfold content. rewrite (Hp p Hne). unfold demo_files. cbn [files].
    by rewrite lookup_singleton_ne.
Defined.
