(* ===== verification/Doctor.v ===== *)
(** * The offline check of vector sidecars

    [local/doctor.py]: the part of [lodedb doctor] that inspects a store. A float-vector sidecar (TVVF) is a base
    segment and a chain of deltas named by the committed manifest; every segment is a binary file of a
    JSON header, 64-bit ids, row checksums, the rows and an integrity trailer. The check streams each file
    once, compares what it reads with the header and the manifest, and counts the live rows without
    keeping the ids of the base in memory. The probes of the platform are the record [Probes]. *)

From Stdlib Require Import Ascii String ZArith Lia SpecFloat Sorted.
From stdpp Require Import base strings gmap sets list.
From S2P Require Import Prelude Numbers PyVal Bytes Json FileSys CommitManifest.
From S2P Require Import Collection.

Local Open Scope Z_scope.

Definition _TVVF_BASE_MAGIC : bytes := "EEVFB001".
Definition _TVVF_DELTA_MAGIC : bytes := "EEVFD001".
Definition _TVVF_INTEGRITY_TRAILER_MAGIC : bytes := "EEVFT001".
Definition _TVVF_INTEGRITY_TRAILER_BYTES : Z := 8 + 64.
Definition _TVVF_FNV_OFFSET : Z := 0xCBF29CE484222325.
Definition _TVVF_FNV_PRIME : Z := 0x00000100000001B3.
Definition _TVVF_SCHEMA_VERSION : Z := 1.
Definition _TVVF_HEADER_MAX_BYTES : Z := 64 * 1024 * 1024.
Definition _TVVF_READ_BYTES : Z := 64 * 1024.

(** ** Checked fields *)

Definition _require_mapping (value : pyval) (label : string) : result pydict :=
  match value with PDict d => Ok d | _ => raise ValueError (label +:+ " must be an object") end.

Definition _require_int (value : pyval) (label : string) (minimum : Z) : result Z :=
  match value with
  | PInt z => if z <? minimum then raise ValueError (label +:+ " must be an integer at least " +:+ Z_str minimum) else Ok z
  | _ => raise ValueError (label +:+ " must be an integer at least " +:+ Z_str minimum)
  end.

(** [Path(value).name != value]: a separator, or nothing but the current directory. *)
Definition is_file_name (s : string) : bool :=
  forallb (λ c, negb (bool_decide (c = "/"%char))) (chars s) && negb (str_in s [""; "."]).
Definition _require_file_name (value : pyval) (label : string) : result string :=
  match value with
  | PStr s => if is_file_name s then Ok s else raise ValueError (label +:+ " must be a file name")
  | _ => raise ValueError (label +:+ " must be a file name")
  end.

(** [mapping.get(key)]. *)
Definition entry (key : string) (d : pydict) : pyval := default PNone (dict_get key d).
(** [if mapping.get(key) != value: raise ValueError(msg)]. *)
Definition must_equal (v w : pyval) (msg : string) : result unit := if py_eq v w then Ok tt else raise ValueError msg.

Definition _fnv1a64_update (current : Z) (data : bytes) : Z :=
  fold_left (λ current byte, Z.land (Z.lxor current (Z.of_N (ord byte)) * _TVVF_FNV_PRIME) 0xFFFFFFFFFFFFFFFF) (chars data) current.

Definition _row_stride (dtype : string) (dim : Z) : result Z :=
  if bool_decide (dtype = "float16") then Ok (dim * 2)
  else if bool_decide (dtype = "float32") then Ok (dim * 4)
  else if bool_decide (dtype = "int8") then Ok (4 + dim)
  else raise ValueError "TVVF header has an invalid dtype".

(** ** Reading a segment *)

(** An open file: what is left of it, and what the running SHA-256 was fed. *)
Record reader := Reader { rd_rest : bytes; rd_fed : bytes }.

Definition _read_exact (size : Z) (label : string) : st reader bytes := λ r,
  let data := str_take (Z.to_nat size) (rd_rest r) in
  (if Z.of_nat (slen data) =? size then Ok data else raise ValueError (label +:+ " is truncated"),
   Reader (str_drop (Z.to_nat size) (rd_rest r)) (rd_fed r)).
(** [sha.update(data)]. *)
Definition sha_update (data : bytes) : st reader unit := λ r, (Ok tt, Reader (rd_rest r) (rd_fed r +:+ data)).
Definition read_hashed (size : Z) (label : string) : st reader bytes :=
  data ← _read_exact size label; _ ← sha_update data; mret data.

(** [while remaining: chunk = read(min(remaining, _TVVF_READ_BYTES)); ...], one step of fuel per chunk. *)
Section loop.
Context {A : Type} (label : string) (f : A → bytes → result A).
Fixpoint read_loop (fuel : nat) (acc : A) (remaining : Z) : st reader A :=
  if remaining =? 0 then mret acc
  else match fuel with
       | O => st_lift (raise OutOfFuel "")
       | S fuel =>
           chunk ← read_hashed (Z.min remaining _TVVF_READ_BYTES) label;
           acc ← st_lift (f acc chunk);
           read_loop fuel acc (remaining - Z.of_nat (slen chunk))
       end.
End loop.
Definition chunk_count (size : Z) : nat := Z.to_nat ((size + _TVVF_READ_BYTES - 1) / _TVVF_READ_BYTES).
Definition read_section {A} (label : string) (f : A → bytes → result A) (acc : A) (size : Z) : st reader A :=
  read_loop label f (chunk_count size) acc size.

(** [struct.iter_unpack("<Q", chunk)]. *)
Fixpoint unpack_words (fuel : nat) (l : list ascii) : list Z :=
  match fuel, l with
  | O, _ | _, [] => []
  | S fuel, _ => Z.of_N (le_value (take 8 l)) :: unpack_words fuel (drop 8 l)
  end.
Definition iter_unpack (chunk : bytes) : result (list Z) :=
  if Nat.eqb (slen chunk mod 8) 0 then Ok (unpack_words (slen chunk) (chars chunk))
  else raise StructError "iterative unpacking requires a buffer of a multiple of 8 bytes".

Record segment := Segment
  { sg_dtype : string; sg_dim : Z; sg_row_count : Z; sg_ids_checksum : Z; sg_row_checksums_sha256 : string;
    sg_ids : list Z; sg_deleted_ids : list Z; sg_file_bytes : Z; sg_sha256 : string }.

Definition of_interest (interest : option (gset Z)) (v : Z) : bool :=
  match interest with None => true | Some i => bool_decide (v ∈ i) end.

(** One chunk of the id section: the running checksum and the ids kept. *)
Definition ids_chunk (interest : option (gset Z)) (acc : Z * list Z) (chunk : bytes) : result (Z * list Z) :=
  values ← iter_unpack chunk;
  Ok (_fnv1a64_update acc.1 chunk, acc.2 ++ List.filter (of_interest interest) values).

Definition hex_digit (c : ascii) : bool := in_range 48 57 c || in_range 97 102 c || in_range 65 70 c.
Definition is_decoded (c : ascii) : bool := (ord c <? 128)%N.

(** [json.loads] of bytes: the encoding is read off the byte order mark or the zero bytes at the front. *)
Definition starts_with (mark : list N) (l : list ascii) : bool := bool_decide (map ord (take (length mark) l) = mark).
Definition is_nul (l : list ascii) (i : nat) : bool := bool_decide (l !! i = Some (chr 0)).

(** The bytes of the mark, those of a code unit, and whether its lowest byte comes first. *)
Definition detect_encoding (l : list ascii) : nat * nat * bool :=
  if starts_with [0; 0; 254; 255]%N l then (4, 4, false)%nat
  else if starts_with [255; 254; 0; 0]%N l then (4, 4, true)%nat
  else if starts_with [254; 255]%N l then (2, 2, false)%nat
  else if starts_with [255; 254]%N l then (2, 2, true)%nat
  else if starts_with [239; 187; 191]%N l then (3, 1, true)%nat
  else if (4 <=? length l)%nat then
    if is_nul l 0 then (if is_nul l 1 then (0, 4, false)%nat else (0, 2, false)%nat)
    else if is_nul l 1 then (if is_nul l 2 && is_nul l 3 then (0, 4, true)%nat else (0, 2, true)%nat)
    else (0, 1, true)%nat
  else if (length l =? 2)%nat then
    if is_nul l 0 then (0, 2, false)%nat else if is_nul l 1 then (0, 2, true)%nat else (0, 1, true)%nat
  else (0, 1, true)%nat.

(** Code units of [width] bytes; those beyond 255 are outside the strings modelled, and count as undecodable. *)
Fixpoint wide_units (fuel width : nat) (little : bool) (l : list ascii) : option (list ascii) :=
  match l, fuel with
  | [], _ => Some []
  | _, O => None
  | _, S fuel =>
      let unit := take width l in
      let z := le_value (if little then unit else reverse unit) in
      if (length unit <? width)%nat || (255 <? z)%N then None else (chr z ::.) <$> wide_units fuel width little (drop width l)
  end.

Definition loads_bytes (data : bytes) : result pyval :=
  let '(mark, width, little) := detect_encoding (chars data) in
  let l := drop mark (chars data) in
  text ← (match width with
          | 1%nat => utf8_decode (of_chars l)
          | _ => match wide_units (length l) width little l with
                 | Some l => Ok (of_chars l)
                 | None => raise UnicodeDecodeError "codec can't decode bytes"
                 end
          end);
  loads text.

Section parse.
Context (name : string) (magic : bytes) (is_delta : bool) (interest : option (gset Z)).

Record segment_header := Header
  { hd_dtype : string; hd_dim : Z; hd_row_count : Z; hd_ids_checksum : Z; hd_deleted : list Z }.

Definition deleted_of (header : pydict) : result (list Z) :=
  match entry "deleted_ids" header with
  | PList l =>
      ids ← mapR (λ v, _require_int v ("TVVF delta " +:+ name +:+ " deleted id") 0) l;
      if bool_decide (NoDup ids) then Ok ids else raise ValueError ("TVVF delta " +:+ name +:+ " has duplicate deleted ids")
  | _ => raise ValueError ("TVVF delta " +:+ name +:+ " is missing deleted_ids")
  end.

Definition read_header (header_bytes : bytes) : result pydict :=
  match loads_bytes header_bytes with
  | Ok v => _require_mapping v ("TVVF header " +:+ name)
  | Err e => if bool_decide (exn_class e = JSONDecodeError) then raise ValueError ("TVVF header " +:+ name +:+ " is invalid JSON") else Err e
  end.

Definition checked_header (header : pydict) : result segment_header :=
  let label field := "TVVF header " +:+ name +:+ " " +:+ field in
  _ ← must_equal (entry "schema_version" header) (PInt _TVVF_SCHEMA_VERSION) (label "has an unsupported schema version");
  dtype ← (match entry "dtype" header with PStr s => Ok s | _ => raise ValueError (label "is missing dtype") end);
  dim ← _require_int (entry "dim" header) (label "dim") 1;
  row_count ← _require_int (entry "row_count" header) (label "row_count") 0;
  if 0xFFFFFFFF <? row_count then raise ValueError (label "row_count exceeds the format limit")
  else
    ids_checksum ← _require_int (entry "ids_checksum" header) (label "ids_checksum") 0;
    deleted ← (if is_delta then deleted_of header else Ok []);
    Ok (Header dtype dim row_count ids_checksum deleted).

Definition check_trailer (trailer row_checksums : bytes) : result string :=
  if negb (bool_decide (str_take 8 trailer = _TVVF_INTEGRITY_TRAILER_MAGIC))
  then raise ValueError ("TVVF segment " +:+ name +:+ " has an invalid integrity trailer")
  else
    let digest := str_drop 8 trailer in
    if negb (forallb is_decoded (chars digest))
    then raise ValueError ("TVVF segment " +:+ name +:+ " has an invalid row-checksum digest")
    else if negb (Nat.eqb (slen digest) 64) || negb (forallb hex_digit (chars digest))
            || negb (bool_decide (digest = sha256_hex row_checksums))
    then raise ValueError ("TVVF segment " +:+ name +:+ " failed row-checksum identity validation")
    else Ok digest.

(** The ids section, checked against the header. *)
Definition read_ids (h : segment_header) : st reader (list Z) :=
  out ← read_section ("TVVF ids " +:+ name) (ids_chunk interest) (_TVVF_FNV_OFFSET, []) (hd_row_count h * 8);
  let '(checksum, ids) := out in
  st_lift (if negb (checksum =? hd_ids_checksum h) then raise ValueError ("TVVF ids section failed checksum for " +:+ name)
           else if bool_decide (interest = None) && negb (bool_decide (NoDup ids))
           then raise ValueError ("TVVF segment " +:+ name +:+ " contains duplicate stable ids")
           else if is_delta && existsb (λ i, bool_decide (i ∈ hd_deleted h)) ids
           then raise ValueError ("TVVF delta " +:+ name +:+ " upserts and deletes the same stable id")
           else Ok ids).

Definition read_segment (file_size : Z) : st reader segment :=
  prefix ← read_hashed 16 ("TVVF segment " +:+ name);
  if negb (bool_decide (str_take 8 prefix = magic))
  then st_lift (raise ValueError ("TVVF segment " +:+ name +:+ " is not a " +:+ (if is_delta then "delta" else "base") +:+ " segment"))
  else
    let header_size := Z.of_N (le_value (drop 8 (chars prefix))) in
    if (_TVVF_HEADER_MAX_BYTES <? header_size) || (file_size <? 16 + header_size)
    then st_lift (raise ValueError ("TVVF segment " +:+ name +:+ " has an invalid header length"))
    else
      header_bytes ← read_hashed header_size ("TVVF header " +:+ name);
      header ← st_lift (read_header header_bytes);
      h ← st_lift (checked_header header);
      stride ← st_lift (_row_stride (hd_dtype h) (hd_dim h));
      let expected_size := 16 + header_size + hd_row_count h * (8 + 4 + stride) + _TVVF_INTEGRITY_TRAILER_BYTES in
      if negb (file_size =? expected_size) then st_lift (raise ValueError ("TVVF segment " +:+ name +:+ " has an invalid length"))
      else
        ids ← read_ids h;
        row_checksums ← read_section ("TVVF row checksums " +:+ name) (λ acc chunk, Ok (acc +:+ chunk)) "" (hd_row_count h * 4);
        _ ← read_section ("TVVF payload " +:+ name) (λ _ _, Ok tt) tt (hd_row_count h * stride);
        trailer ← read_hashed _TVVF_INTEGRITY_TRAILER_BYTES ("TVVF integrity trailer " +:+ name);
        digest ← st_lift (check_trailer trailer row_checksums);
        sha ← st_read (λ r, Ok (sha256_hex (rd_fed r)));
        mret (Segment (hd_dtype h) (hd_dim h) (hd_row_count h) (hd_ids_checksum h) digest ids (hd_deleted h) file_size sha).
End parse.

Definition parse_content (name : string) (magic : bytes) (is_delta : bool) (interest : option (gset Z)) (content : bytes) : result segment :=
  (read_segment name magic is_delta interest (Z.of_nat (slen content)) (Reader content "")).1.

Definition _read_tvvf_segment (p : path) (magic : bytes) (is_delta : bool) (interest : option (gset Z)) : io segment :=
  content ← read_bytes p;
  lift (parse_content (pname p) magic is_delta interest content).

(** ** A sidecar *)

(** The ids upserted and deleted by a delta, and what the manifest says of it. *)
Definition check_delta (delta_dir : path) (previous : Z) (v : pyval) : io (Z * segment) :=
  e ← lift (_require_mapping v "TVVF delta manifest entry");
  sequence ← lift (_require_int (entry "seq" e) "TVVF delta seq" 0);
  if sequence <=? previous then fail ValueError "TVVF manifest has out-of-order delta segments"
  else
    name ← lift (_require_file_name (entry "file_name" e) "TVVF delta file_name");
    expected_sha ← lift (match entry "sha256" e with
                         | PStr (String _ _ as s) => Ok s
                         | _ => raise ValueError "TVVF delta manifest is missing sha256"
                         end);
    delta ← _read_tvvf_segment (pjoin delta_dir name) _TVVF_DELTA_MAGIC true None;
    let wrong what := "TVVF delta " +:+ name +:+ " " +:+ what in
    _ ← lift (if bool_decide (sg_sha256 delta = expected_sha) then Ok tt
              else raise ValueError (wrong "failed full-file SHA-256 validation"));
    _ ← lift (must_equal (entry "file_bytes" e) (PInt (sg_file_bytes delta)) (wrong "file size does not match its manifest"));
    _ ← lift (must_equal (entry "upsert_rows" e) (PInt (sg_row_count delta)) (wrong "upsert row count does not match its manifest"));
    _ ← lift (must_equal (entry "deleted_rows" e) (PInt (Z.of_nat (length (sg_deleted_ids delta))))
                (wrong "deleted row count does not match its manifest"));
    mret (sequence, delta).

Definition check_deltas (delta_dir : path) (deltas : list pyval) : io (list segment) :=
  out ← foldIO (λ acc v, d ← check_delta delta_dir acc.1 v; mret (d.1, acc.2 ++ [d.2])) (-1, []) deltas;
  mret out.2.

Definition touched_ids (deltas : list segment) : gset Z :=
  list_to_set (concat (map (λ d, sg_ids d ++ sg_deleted_ids d) deltas)).

(** The fields of the base that its manifest entry repeats. *)
Definition base_fields (base : segment) : list (string * pyval) :=
  [("dtype", PStr (sg_dtype base)); ("dim", PInt (sg_dim base)); ("row_count", PInt (sg_row_count base));
   ("ids_checksum", PInt (sg_ids_checksum base)); ("row_checksums_sha256", PStr (sg_row_checksums_sha256 base))].

Definition check_base (base_manifest : pydict) (base : segment) : result unit :=
  _ ← must_equal (PStr (sg_sha256 base)) (entry "sha256" base_manifest) "TVVF base failed full-file SHA-256 validation";
  _ ← must_equal (entry "file_bytes" base_manifest) (PInt (sg_file_bytes base)) "TVVF base file size does not match its manifest";
  foldR (λ _ kv, must_equal (entry kv.1 base_manifest) kv.2 ("TVVF base " +:+ kv.1 +:+ " does not match its header")) tt (base_fields base).

(** The running count of live rows, and the latest state of every id a delta touched. *)
Record live_count := Live { lc_rows : Z; lc_latest : gmap Z bool }.

Definition was_live (base_touched : gset Z) (l : live_count) (i : Z) : bool :=
  default (bool_decide (i ∈ base_touched)) (lc_latest l !! i).
Definition count_delete (base_touched : gset Z) (l : live_count) (i : Z) : live_count :=
  Live (if was_live base_touched l i then lc_rows l - 1 else lc_rows l) (<[i := false]> (lc_latest l)).
Definition count_upsert (base_touched : gset Z) (l : live_count) (i : Z) : live_count :=
  Live (if was_live base_touched l i then lc_rows l else lc_rows l + 1) (<[i := true]> (lc_latest l)).
Definition count_delta (base : segment) (base_touched : gset Z) (l : live_count) (delta : segment) : result live_count :=
  if negb (bool_decide (sg_dtype delta = sg_dtype base)) || negb (sg_dim delta =? sg_dim base)
  then raise ValueError "TVVF delta dtype or dimension does not match the base"
  else Ok (fold_left (count_upsert base_touched) (sg_ids delta) (fold_left (count_delete base_touched) (sg_deleted_ids delta) l)).

Record coverage := Coverage { cv_sidecar_rows : Z; cv_tombstones : Z; cv_base_rows : Z; cv_delta_segments : Z }.

Definition covered (base : segment) (deltas : list segment) : result coverage :=
  l ← foldR (count_delta base (list_to_set (sg_ids base))) (Live (sg_row_count base) ∅) deltas;
  Ok (Coverage (Z.max (lc_rows l) 0)
        (Z.of_nat (length (List.filter (λ kv, negb kv.2) (map_to_list (lc_latest l)))))
        (sg_row_count base) (Z.of_nat (length deltas))).

Definition base_file (vf_epoch : Z) : string := "vf" +:+ Z_str vf_epoch +:+ ".tvvf".

Definition _validate_tvvf_sidecar (index_key : string) (root : path) (manifest : pyval) : io coverage :=
  m ← lift (_require_mapping manifest "committed TVVF manifest");
  _ ← lift (must_equal (entry "schema_version" m) (PInt _TVVF_SCHEMA_VERSION) "TVVF manifest has an unsupported schema version");
  _ ← lift (must_equal (entry "index_key" m) (PStr index_key) "TVVF manifest identity does not match the committed index key");
  vf_epoch ← lift (_require_int (entry "vf_epoch" m) "TVVF manifest vf_epoch" 1);
  base_manifest ← lift (_require_mapping (entry "base" m) "TVVF manifest base");
  base_name ← lift (_require_file_name (entry "file_name" base_manifest) "TVVF base file_name");
  if negb (bool_decide (base_name = base_file vf_epoch))
  then fail ValueError "TVVF manifest identity does not match the base path"
  else
    let base_path := pjoin (pjoin root (index_key +:+ ".gen")) base_name in
    let delta_dir := with_name base_path (pname base_path +:+ ".tvvf-delta") in
    deltas ← lift (match entry "deltas" m with PList l => Ok l | _ => raise ValueError "TVVF manifest deltas must be an array" end);
    parsed_deltas ← check_deltas delta_dir deltas;
    base ← _read_tvvf_segment base_path _TVVF_BASE_MAGIC false (Some (touched_ids parsed_deltas));
    _ ← lift (check_base base_manifest base);
    lift (covered base parsed_deltas).

(** ** Findings *)

Record finding := Finding { fi_status : string; fi_index_key : string; fi_message : string; fi_coverage : option coverage }.

(** [_doctor_finding]: the report's dictionary. *)
Definition coverage_dict (c : coverage) : pyval :=
  dict_of [("sidecar_rows", PInt (cv_sidecar_rows c)); ("tombstones", PInt (cv_tombstones c));
           ("base_rows", PInt (cv_base_rows c)); ("delta_segments", PInt (cv_delta_segments c))].
Definition _doctor_finding (f : finding) : pydict :=
  [(PStr "name", PStr "tvvf_sidecar"); (PStr "status", PStr (fi_status f)); (PStr "index_key", PStr (fi_index_key f));
   (PStr "message", PStr (fi_message f))]
  ++ match fi_coverage f with Some c => [(PStr "coverage", coverage_dict c)] | None => [] end.

Definition commit_suffix : string := ".commit.json".
Definition index_key_of (commit_name : string) : string := str_take (slen commit_name - slen commit_suffix) commit_name.

(** The body of a commit manifest whose checksum holds. *)
Definition committed_body (document : pyval) : result pydict :=
  commit ← _require_mapping document "commit";
  _ ← must_equal (entry "schema_version" commit) (PInt 1) "unsupported commit manifest schema version";
  body ← _require_mapping (entry "body" commit) "commit body";
  digest ← body_sha256 body;
  match entry "body_sha256" commit with
  | PStr s => if bool_decide (s = digest) then Ok body else raise ValueError "commit manifest failed body checksum"
  | _ => raise ValueError "commit manifest failed body checksum"
  end.

(** One commit manifest; [None] when it names no sidecar. *)
Definition inspect_commit (root : path) (commit_name : string) : io (option coverage) :=
  text ← read_text (commit_name :: root);
  document ← lift (loads text);
  body ← lift (committed_body document);
  match entry "tvvf" body with
  | PNone => mret None
  | m => c ← _validate_tvvf_sidecar (index_key_of commit_name) root m; mret (Some c)
  end.

Definition failed_message (e : exn) : string :=
  "Commit manifest or TVVF sidecar validation failed: " +:+ exn_msg e +:+ ". Doctor reports the problem and never "
  +:+ "removes files. Full-file SHA-256 validation may read a 32 GB base.".
Definition ok_message : string :=
  "TVVF manifest identity, base header, ids checksum, and full-file SHA-256 validated. Full-file SHA-256 validation may "
  +:+ "read a 32 GB base; doctor only reports and never removes files.".
Definition missing_message (root : path) : string :=
  "Native store path is not an existing directory: /" +:+ str_join "/" (reverse root) +:+ ". Nothing was "
  +:+ "inspected. Doctor reports only and never removes files.".

Definition finding_of (commit_name : string) (out : result (option coverage)) : list finding :=
  let index_key := index_key_of commit_name in
  match out with
  | Err e => [Finding "fail" index_key (failed_message e) None]
  | Ok None => []
  | Ok (Some c) => [Finding "ok" index_key ok_message (Some c)]
  end.

Definition native_store_findings (root : path) : io (list finding) :=
  there ← is_dir root;
  if negb there then mret [Finding "fail" "" (missing_message root) None]
  else
    names ← glob_suffix root commit_suffix;
    foldIO (λ findings name, out ← attempt (inspect_commit root name); mret (findings ++ finding_of name out)) [] names.

(** ** The capability report *)

(** What the platform answers: imports, drivers, devices, and the reports of other modules. *)
Record Probes := MkProbes
  { pb_windows : bool; pb_torch : bool; pb_torch_cuda_build : option string; pb_nvidia_smi : bool;
    pb_pillow : bool; pb_sentence_transformers_spec : bool; pb_apple_silicon : bool; pb_native_core : bool; pb_cuda_driver : bool;
    pb_onnxruntime : bool; pb_sentence_transformers : bool; pb_onnx_providers : result (list string);
    pb_mps : bool; pb_cuda : bool; pb_build_profile : option string; pb_device : string → string;
    pb_capability : pydict; pb_dispatch : string }.

Definition _PYTORCH_CUDA_INDEX : string := "https://download.pytorch.org/whl/cu121".

Section report.
Variable p : Probes.

Definition _windows_gpu_embedding_hint : option pydict :=
  if negb (pb_windows p) then None
  else if negb (pb_torch p) then None
  else match pb_torch_cuda_build p with
       | Some _ => None
       | None => Some [(PStr "torch_cuda_build", PBool false); (PStr "nvidia_smi_detected", PBool (pb_nvidia_smi p));
                       (PStr "index_url", PStr _PYTORCH_CUDA_INDEX);
                       (PStr "command", PStr ("pip install torch --force-reinstall --no-deps --index-url " +:+ _PYTORCH_CUDA_INDEX))]
       end.

Definition _image_embedding_status : pydict :=
  let available := pb_pillow p && pb_sentence_transformers_spec p in
  let missing := (if pb_pillow p then [] else ["Pillow"]) ++ (if pb_sentence_transformers_spec p then [] else ["sentence-transformers"]) in
  [(PStr "image_embedding_available", PBool available); (PStr "pillow_present", PBool (pb_pillow p));
   (PStr "model", PStr "sentence-transformers/clip-ViT-B-32");
   (PStr "reason", PStr (if available then "Pillow + sentence-transformers present (use model='clip')"
                         else "image embedding requires " +:+ str_join " + " missing +:+ " (pip install 'lodedb[image]')"))].

Definition _gpu_vector_scan_status : pydict :=
  [(PStr "gpu_vector_scan_available", PBool (pb_cuda_driver p)); (PStr "native_core_available", PBool (pb_native_core p));
   (PStr "reason", PStr (
      if pb_cuda_driver p then "native core + CUDA driver present"
      else if pb_apple_silicon p
      then "Apple Silicon: the CUDA GPU vector scan is unavailable here; the NEON CPU kernel is the accelerated path."
      else if negb (pb_native_core p) then "GPU vector scan requires the bundled native core, which is not loaded"
      else "GPU vector scan requires a CUDA driver (none detected)"))].

Definition _native_build_profile : string := default "unavailable" (pb_build_profile p).

Record runtime_status := Runtime
  { rt_preferred : string; rt_onnx : bool; rt_sentence_transformers : bool; rt_providers : list string; rt_note : string }.
Definition _embedding_runtime_status : runtime_status :=
  let providers := if pb_onnxruntime p then match pb_onnx_providers p with Ok l => l | Err _ => [] end else [] in
  let '(preferred, note) :=
    if pb_onnxruntime p
    then ("onnx", if pb_sentence_transformers p then "auto prefers ONNX; falls back to PyTorch if a model's ONNX graph is unavailable"
                  else "auto uses ONNX; install lodedb[torch] for the PyTorch fallback")
    else if pb_sentence_transformers p
    then ("torch", "onnxruntime not installed; auto uses PyTorch (install lodedb[embeddings] for ONNX)")
    else ("none", "no embedding runtime installed; text embedding is unavailable (pip install 'lodedb[embeddings]', or bring your own vectors)") in
  Runtime preferred (pb_onnxruntime p) (pb_sentence_transformers p) providers note.

Definition runtime_dict (r : runtime_status) : pyval :=
  dict_of [("preferred", PStr (rt_preferred r)); ("onnxruntime_available", PBool (rt_onnx r));
           ("sentence_transformers_available", PBool (rt_sentence_transformers r));
           ("onnx_providers", PList (map PStr (rt_providers r))); ("note", PStr (rt_note r))].

Definition cpu_fallback_warning (device : string) : string :=
  let r := _embedding_runtime_status in
  if bool_decide (pb_device p device = "cuda") && rt_onnx r && negb (str_in "CUDAExecutionProvider" (rt_providers r))
  then "the device resolves to CUDA but ONNX Runtime has no CUDAExecutionProvider: text embedding runs on the CPU. Install "
       +:+ "onnxruntime-gpu (pip install onnxruntime-gpu) to use the GPU."
  else "".

Definition local_capability_report (device : string) (store : option path) : io pydict :=
  let report := [
    (PStr "platform", dict_of [("apple_silicon", PBool (pb_apple_silicon p))]);
    (PStr "embedding", dict_of [("requested_device", PStr device); ("auto_resolves_to", PStr (pb_device p device));
       ("mps_available", PBool (pb_mps p)); ("cuda_available", PBool (pb_cuda p)); ("runtime", runtime_dict _embedding_runtime_status);
       ("cpu_fallback_warning", PStr (cpu_fallback_warning device))]);
    (PStr "image_embedding", PDict _image_embedding_status);
    (PStr "compact_backend", PDict (dict_set "native_build_profile" (PStr _native_build_profile)
                                      (dict_set "inferred_native_dispatch" (PStr (pb_dispatch p)) (pb_capability p))));
    (PStr "gpu_vector_scan", PDict _gpu_vector_scan_status);
    (PStr "windows_gpu_hint", match _windows_gpu_embedding_hint with Some d => PDict d | None => PNone end)] in
  match store with
  | None => mret report
  | Some root =>
      findings ← native_store_findings root;
      mret (report ++ [(PStr "store", dict_of [("path", PStr ("/" +:+ str_join "/" (reverse root)));
                                               ("findings", PList (map (λ f, PDict (_doctor_finding f)) findings))])])
  end.
End report.

(** ** What a successful read has consumed *)

(** A run of a reader consumes a prefix of what is left and feeds exactly that prefix to the digest. *)
Definition reads {A} (m : st reader A) (Q : A → bytes → Prop) : Prop :=
  ∀ r a r', m r = (Ok a, r') → ∃ d, rd_rest r = d +:+ rd_rest r' ∧ rd_fed r' = rd_fed r +:+ d ∧ Q a d.

Lemma reads_lift {A} (x : result A) (Q : A → bytes → Prop) : (∀ a, x = Ok a → Q a "") → reads (st_lift x) Q.
Proof. intros H r a r' [= Hx <-]. exists "". rewrite sapp_nil_r. split_and!; [done..|]. by apply H. Qed.
Lemma reads_ret {A} (a : A) : reads (mret a) (λ a' d, a' = a ∧ d = "").
Proof. intros r a' r' [= <- <-]. exists "". by rewrite sapp_nil_r. Qed.
Lemma reads_bind {A B} (m : st reader A) (k : A → st reader B) Q Q' : reads m Q → (∀ a, reads (k a) (Q' a)) →
  reads (m ≫= k) (λ b d, ∃ a d1 d2, d = d1 +:+ d2 ∧ Q a d1 ∧ Q' a b d2).
Proof.
  intros Hm Hk r b r'. unfold mbind, st_bind. specialize (Hm r). destruct (m r) as [[a|e] r1]; [|done]. intros H.
  destruct (Hm a r1 eq_refl) as (d1 & H1 & H2 & HQ). destruct (Hk a r1 b r' H) as (d2 & H3 & H4 & HQ').
  exists (d1 +:+ d2). rewrite H1, H3, H4, H2, !sapp_assoc. split_and!; [done..|]. by exists a, d1, d2.
Qed.
Lemma reads_weaken {A} (m : st reader A) (Q Q' : A → bytes → Prop) : reads m Q → (∀ a d, Q a d → Q' a d) → reads m Q'.
Proof. intros Hm HQ r a r' H. destruct (Hm r a r' H) as (d & ? & ? & ?). exists d. eauto. Qed.

Lemma read_hashed_run size label r : let data := str_take (Z.to_nat size) (rd_rest r) in
  let rest := str_drop (Z.to_nat size) (rd_rest r) in
  read_hashed size label r = if Z.of_nat (slen data) =? size then (Ok data, Reader rest (rd_fed r +:+ data))
                             else (raise ValueError (label +:+ " is truncated"), Reader rest (rd_fed r)).
Proof. cbv zeta. unfold read_hashed, mbind, st_bind, _read_exact, sha_update. by destruct (_ =? size). Qed.

Lemma reads_hashed size label : 0 ≤ size → reads (read_hashed size label) (λ data d, data = d ∧ Z.of_nat (slen d) = size).
Proof.
  intros Hs r a r'. rewrite read_hashed_run.
  destruct (Z.eqb_spec (Z.of_nat (slen (str_take (Z.to_nat size) (rd_rest r)))) size) as [E|]; [|done].
  intros [= <- <-]. exists (str_take (Z.to_nat size) (rd_rest r)). cbn [rd_rest rd_fed]. split_and!; [|done..].
  symmetry. unfold str_take, str_drop. rewrite <-of_chars_app, take_drop. apply of_chars_chars.
Qed.

(** Chunk by chunk: the chunks are what was consumed. *)
Lemma reads_loop {A} label (f : A → bytes → result A) fuel acc size : 0 ≤ size →
  reads (read_loop label f fuel acc size) (λ acc' d, Z.of_nat (slen d) = size ∧
    ∃ chunks, d = foldr String.append "" chunks ∧ foldR f acc chunks = Ok acc').
Proof.
  revert acc size; induction fuel as [|fuel IH]; intros acc size Hs; cbn [read_loop].
  - destruct (Z.eqb_spec size 0) as [->|]; [|by apply reads_lift].
    eapply reads_weaken; [apply reads_ret|]. intros a d [-> ->]. split; [done|]. by exists [].
  - destruct (Z.eqb_spec size 0) as [->|].
    + eapply reads_weaken; [apply reads_ret|]. intros a d [-> ->]. split; [done|]. by exists [].
    + assert (0 ≤ Z.min size _TVVF_READ_BYTES) as Hm by (unfold _TVVF_READ_BYTES; lia).
      intros r a r'. unfold mbind at 1, st_bind. pose proof (reads_hashed _ label Hm r) as Hr.
      destruct (read_hashed (Z.min size _TVVF_READ_BYTES) label r) as [[chunk|e] r1]; [|done].
      destruct (Hr chunk r1 eq_refl) as (d1 & H1 & H2 & -> & Hl).
      unfold mbind at 1, st_bind, st_lift. destruct (f acc d1) as [acc1|e] eqn:Ef; [|done]. intros H.
      destruct (IH acc1 (size - Z.of_nat (slen d1)) ltac:(lia) r1 a r' H) as (d2 & H3 & H4 & Hl2 & chunks & -> & Hf).
      exists (d1 +:+ foldr String.append "" chunks). rewrite H1, H3, H4, H2, !sapp_assoc. split; [done|]. split; [done|].
      split; [rewrite slen_app; lia|]. exists (d1 :: chunks). split; [done|]. cbn [foldR]. by rewrite Ef.
Qed.

Lemma reads_section {A} label (f : A → bytes → result A) acc size : 0 ≤ size →
  reads (read_section label f acc size) (λ acc' d, Z.of_nat (slen d) = size ∧
    ∃ chunks, d = foldr String.append "" chunks ∧ foldR f acc chunks = Ok acc').
Proof. apply reads_loop. Qed.

(** The fuel is enough: a section ends by itself or by an error of its chunks. *)
Lemma section_ends {A} label (f : A → bytes → result A) acc size r : 0 ≤ size →
  (∀ acc c e, f acc c = Err e → exn_class e ≠ OutOfFuel) → ∀ e, (read_section label f acc size r).1 = Err e → exn_class e ≠ OutOfFuel.
Proof.
  intros Hs Hf. unfold read_section. assert (size ≤ Z.of_nat (chunk_count size) * _TVVF_READ_BYTES) as Hfuel.
  { unfold chunk_count. change _TVVF_READ_BYTES with 65536. pose proof (Z.div_mod (size + 65536 - 1) 65536).
    pose proof (Z.mod_pos_bound (size + 65536 - 1) 65536). pose proof (Z.div_pos (size + 65536 - 1) 65536). lia. }
  revert Hfuel. generalize (chunk_count size) as fuel. revert acc size Hs r. intros acc size Hs r fuel. revert acc size Hs r.
  induction fuel as [|fuel IH]; intros acc size Hs r Hfuel e; cbn [read_loop]; (destruct (Z.eqb_spec size 0) as [|Hne]; [intros H; discriminate H|]); [lia|].
  unfold mbind at 1, st_bind. rewrite read_hashed_run.
  destruct (Z.eqb_spec (Z.of_nat (slen (str_take (Z.to_nat (Z.min size _TVVF_READ_BYTES)) (rd_rest r)))) (Z.min size _TVVF_READ_BYTES)) as [E|].
  2: { intros H. injection H as <-. done. }
  set (data := str_take (Z.to_nat (Z.min size _TVVF_READ_BYTES)) (rd_rest r)) in *. unfold mbind at 1, st_bind, st_lift.
  destruct (f acc data) as [acc1|e1] eqn:Ef; [|intros H; injection H as <-; by eapply Hf].
  apply IH; [lia|]. rewrite E. unfold _TVVF_READ_BYTES in *. lia.
Qed.

(** *** The id section *)

Lemma fnv_app cur a b : _fnv1a64_update cur (a +:+ b) = _fnv1a64_update (_fnv1a64_update cur a) b.
Proof. unfold _fnv1a64_update. by rewrite chars_app, fold_left_app. Qed.

Lemma unpack_fuel n m l : (length l ≤ n)%nat → (n ≤ m)%nat → unpack_words m l = unpack_words n l.
Proof.
  revert m l; induction n as [|n IH]; intros m l Hl Hm; [destruct l; [by destruct m|cbn in Hl; lia]|].
  destruct m as [|m]; [lia|]. destruct l as [|c l]; [done|]. cbn [unpack_words]. f_equal. apply IH; [|lia].
  rewrite length_drop. cbn [length] in *. lia.
Qed.
Lemma unpack_app l k : (length l mod 8 = 0)%nat →
  unpack_words (length (l ++ k)) (l ++ k) = unpack_words (length l) l ++ unpack_words (length k) k.
Proof.
  remember (length l / 8)%nat as q eqn:Eq. revert l Eq. induction q as [|q IH]; intros l Eq Hl.
  - assert (length l = 0)%nat as ->%nil_length_inv; [|done].
    pose proof (Nat.div_mod (length l) 8). lia.
  - assert (8 ≤ length l)%nat as H8. { pose proof (Nat.div_mod (length l) 8). lia. }
    assert (∀ x : list ascii, (8 ≤ length x)%nat → unpack_words (length x) x = Z.of_N (le_value (take 8 x)) :: unpack_words (length (drop 8 x)) (drop 8 x)) as Hstep.
    { intros x Hx. destruct x as [|a x]; [cbn in Hx; lia|]. cbn [length unpack_words]. f_equal. apply unpack_fuel; [done|]. rewrite length_drop. cbn [length]. lia. }
    rewrite (Hstep (l ++ k)), (Hstep l) by (rewrite ?length_app; lia).
    rewrite take_app_le, drop_app_le by lia. cbn [app]. f_equal. apply IH.
    + rewrite length_drop. replace (length l) with (length l - 8 + 1 * 8)%nat in Eq by lia. rewrite Nat.div_add in Eq by lia. lia.
    + rewrite length_drop. replace (length l) with (length l - 8 + 1 * 8)%nat in Hl by lia. by rewrite Nat.Div0.mod_add in Hl.
Qed.

(** The ids a section holds. *)
Definition section_ids (d : bytes) : list Z := unpack_words (slen d) (chars d).

Lemma section_ids_app a b : (slen a mod 8 = 0)%nat → section_ids (a +:+ b) = section_ids a ++ section_ids b.
Proof. intros Ha. unfold section_ids. rewrite !slen_chars, chars_app in *. by apply unpack_app. Qed.

Lemma ids_chunks interest chunks acc out : foldR (ids_chunk interest) acc chunks = Ok out →
  let d := foldr String.append "" chunks in
  out = (_fnv1a64_update acc.1 d, acc.2 ++ List.filter (of_interest interest) (section_ids d)).
Proof.
  revert acc; induction chunks as [|a chunks IH]; intros acc; cbn [foldR foldr].
  - intros [= <-]. cbn. rewrite (right_id_L [] (++)). by destruct acc.
  - intros H. destruct (ids_chunk interest acc a) as [acc1|] eqn:Ea; [|discriminate H]. cbn [mbind result_bind] in H.
    apply IH in H as ->. unfold ids_chunk, iter_unpack in Ea. destruct (Nat.eqb_spec (slen a mod 8) 0) as [Ha|]; [|discriminate Ea].
    injection Ea as <-. cbn [fst snd]. fold (section_ids a). rewrite fnv_app, section_ids_app by done.
    by rewrite List.filter_app, (assoc_L (++)).
Qed.

Lemma sums_chunks chunks acc out : foldR (λ acc chunk, Ok (acc +:+ chunk)) acc chunks = Ok out → out = acc +:+ foldr String.append "" chunks.
Proof.
  revert acc; induction chunks as [|a chunks IH]; intros acc; cbn [foldR foldr mbind result_bind]; [intros [= <-]; by rewrite sapp_nil_r|].
  intros ->%IH. by rewrite sapp_assoc.
Qed.

(** ** What a verified segment is *)

(** A segment file taken apart. *)
Record segment_parts := Parts
  { pt_length : bytes; pt_header : bytes; pt_ids : bytes; pt_sums : bytes; pt_rows : bytes; pt_digest : bytes }.
Definition assemble (magic : bytes) (p : segment_parts) : bytes :=
  magic +:+ pt_length p +:+ pt_header p +:+ pt_ids p +:+ pt_sums p +:+ pt_rows p +:+ _TVVF_INTEGRITY_TRAILER_MAGIC +:+ pt_digest p.

(** The file is what its header says, down to its last byte. *)
Record certified (name : string) (magic : bytes) (is_delta : bool) (interest : option (gset Z)) (content : bytes) (seg : segment)
    (p : segment_parts) : Prop := {
  ct_whole : content = assemble magic p;
  ct_length : Z.of_N (le_value (chars (pt_length p))) = Z.of_nat (slen (pt_header p));
  ct_header : ∃ header stride, read_header name (pt_header p) = Ok header ∧
    checked_header name is_delta header = Ok (Header (sg_dtype seg) (sg_dim seg) (sg_row_count seg) (sg_ids_checksum seg) (sg_deleted_ids seg)) ∧
    _row_stride (sg_dtype seg) (sg_dim seg) = Ok stride ∧ Z.of_nat (slen (pt_rows p)) = sg_row_count seg * stride;
  ct_ids_size : Z.of_nat (slen (pt_ids p)) = sg_row_count seg * 8;
  ct_ids_checksum : _fnv1a64_update _TVVF_FNV_OFFSET (pt_ids p) = sg_ids_checksum seg;
  ct_sums_size : Z.of_nat (slen (pt_sums p)) = sg_row_count seg * 4;
  ct_digest : pt_digest p = sg_row_checksums_sha256 seg ∧ sg_row_checksums_sha256 seg = sha256_hex (pt_sums p);
  ct_ids : sg_ids seg = List.filter (of_interest interest) (section_ids (pt_ids p));
  ct_distinct : interest = None → NoDup (section_ids (pt_ids p));
  ct_disjoint : is_delta = true → ∀ i, i ∈ sg_ids seg → i ∉ sg_deleted_ids seg;
  ct_file : sg_file_bytes seg = Z.of_nat (slen content) ∧ sg_sha256 seg = sha256_hex content }.

Lemma st_bind_inv {S A B} (m : st S A) (k : A → st S B) s b s' : (m ≫= k) s = (Ok b, s') →
  ∃ a s1, m s = (Ok a, s1) ∧ k a s1 = (Ok b, s').
Proof. unfold mbind, st_bind. destruct (m s) as [[a|e] s1]; [|done]. intros H. by exists a, s1. Qed.
Lemma st_lift_inv {S A} (r : result A) (s s' : S) a : st_lift r s = (Ok a, s') → r = Ok a ∧ s' = s.
Proof. by intros [= -> ->]. Qed.

Lemma row_stride_nonneg dtype dim stride : 1 ≤ dim → _row_stride dtype dim = Ok stride → 0 ≤ stride.
Proof. unfold _row_stride. intros H. repeat case_bool_decide; intros [= <-]; lia. Qed.

Lemma require_int_bound v label m z : _require_int v label m = Ok z → m ≤ z.
Proof. unfold _require_int. destruct v; try done. destruct (Z.ltb_spec z0 m); [done|]. intros [= <-]. done. Qed.

Lemma checked_header_bounds name is_delta header h : checked_header name is_delta header = Ok h → 1 ≤ hd_dim h ∧ 0 ≤ hd_row_count h.
Proof.
  unfold checked_header. intros H. res_cases H.
  repeat match goal with H : _require_int _ _ _ = Ok _ |- _ => apply require_int_bound in H end. by split.
Qed.

(** The id section of a verified segment. *)
Lemma read_ids_sound name is_delta interest h r ids r' : 0 ≤ hd_row_count h →
  read_ids name is_delta interest h r = (Ok ids, r') →
  ∃ d, rd_rest r = d +:+ rd_rest r' ∧ rd_fed r' = rd_fed r +:+ d ∧ Z.of_nat (slen d) = hd_row_count h * 8 ∧
    _fnv1a64_update _TVVF_FNV_OFFSET d = hd_ids_checksum h ∧ ids = List.filter (of_interest interest) (section_ids d) ∧
    (interest = None → NoDup (section_ids d)) ∧ (is_delta = true → ∀ i, i ∈ ids → i ∉ hd_deleted h).
Proof.
  intros Hn. unfold read_ids. intros (out & r1 & H1 & H2)%st_bind_inv.
  assert (0 ≤ hd_row_count h * 8) as H0 by lia.
  destruct (reads_section _ _ _ _ H0 _ _ _ H1) as (d & Hd & Hfed & Hlen & chunks & -> & Hf). apply ids_chunks in Hf. subst out.
  cbn [fst snd app] in H2. apply st_lift_inv in H2 as [H2 ->]. set (d := foldr String.append "" chunks) in *.
  destruct (Z.eqb_spec (_fnv1a64_update _TVVF_FNV_OFFSET d) (hd_ids_checksum h)) as [Hc|]; [|done]. cbn [negb] in H2.
  set (kept := List.filter (of_interest interest) (section_ids d)) in *.
  destruct (bool_decide (interest = None) && negb (bool_decide (NoDup kept))) eqn:End; [done|].
  destruct (is_delta && existsb (λ i, bool_decide (i ∈ hd_deleted h)) kept) eqn:Edis; [done|]. injection H2 as <-.
  exists d. do 5 (split; [done|]). split.
  - intros Hi. apply andb_false_iff in End as [H|H]; [by apply bool_decide_eq_false_1 in H|]. apply negb_false_iff, bool_decide_eq_true_1 in H.
    unfold kept in H. rewrite Hi in H. cbn [of_interest] in H. by rewrite (List.filter_ext _ (λ _, true)), List.filter_true in H.
  - intros -> i Hi Hdel. cbn [andb] in Edis. apply not_true_iff_false in Edis. apply Edis, existsb_exists. exists i.
    split; [by apply list_elem_of_In|]. by apply bool_decide_eq_true_2.
Qed.

Lemma check_trailer_sound name trailer sums digest : check_trailer name trailer sums = Ok digest →
  trailer = _TVVF_INTEGRITY_TRAILER_MAGIC +:+ digest ∧ digest = sha256_hex sums.
Proof.
  unfold check_trailer. intros H. case_bool_decide as E1; [|done]. cbn [negb] in H.
  destruct (negb (forallb is_decoded _)); [done|]. destruct (_ || _) eqn:E2; [done|]. injection H as <-.
  apply orb_false_iff in E2 as [_ E2]. apply negb_false_iff, bool_decide_eq_true_1 in E2. split; [|done].
  rewrite <-E1. unfold str_take, str_drop. rewrite <-of_chars_app, take_drop. by rewrite of_chars_chars.
Qed.

Lemma take_8_split prefix : prefix = str_take 8 prefix +:+ of_chars (drop 8 (chars prefix)).
Proof. unfold str_take. by rewrite <-of_chars_app, take_drop, of_chars_chars. Qed.

Theorem verified_segment_is_whole name magic is_delta interest content seg :
  parse_content name magic is_delta interest content = Ok seg → ∃ p, certified name magic is_delta interest content seg p.
Proof.
  unfold parse_content. destruct (read_segment _ _ _ _ _ _) as [res r9] eqn:Hrun. cbn [fst]. intros ->.
  unfold read_segment in Hrun. apply st_bind_inv in Hrun as (prefix & r1 & H1 & Hrun).
  destruct (reads_hashed 16 _ ltac:(lia) _ _ _ H1) as (d1 & Hr1 & Hf1 & -> & Hl1). cbn [rd_rest rd_fed] in Hr1, Hf1.
  case_bool_decide as Hmagic; cbn [negb] in Hrun; [|by apply st_lift_inv in Hrun as [? _]].
  set (hs := Z.of_N (le_value (drop 8 (chars d1)))) in *.
  destruct ((_TVVF_HEADER_MAX_BYTES <? hs) || (_ <? 16 + hs)); [by apply st_lift_inv in Hrun as [? _]|].
  apply st_bind_inv in Hrun as (hb & r2 & H2 & Hrun). assert (0 ≤ hs) as Hhs by lia.
  destruct (reads_hashed hs _ Hhs _ _ _ H2) as (d2 & Hr2 & Hf2 & -> & Hl2).
  apply st_bind_inv in Hrun as (header & r3 & [Hheader ->]%st_lift_inv & Hrun).
  apply st_bind_inv in Hrun as (h & r3 & [Hh ->]%st_lift_inv & Hrun).
  apply st_bind_inv in Hrun as (stride & r3 & [Hst ->]%st_lift_inv & Hrun).
  destruct (checked_header_bounds _ _ _ _ Hh) as [Hdim Hrc]. pose proof (row_stride_nonneg _ _ _ Hdim Hst) as Hs0.
  destruct (Z.eqb_spec (Z.of_nat (slen content)) (16 + hs + hd_row_count h * (8 + 4 + stride) + _TVVF_INTEGRITY_TRAILER_BYTES)) as [Hsize|];
    cbn [negb] in Hrun; [|by apply st_lift_inv in Hrun as [? _]].
  apply st_bind_inv in Hrun as (ids & r4 & H4 & Hrun).
  destruct (read_ids_sound _ _ _ _ _ _ _ Hrc H4) as (d4 & Hr4 & Hf4 & Hl4 & Hfnv & Hids & Hnd & Hdis).
  apply st_bind_inv in Hrun as (sums & r5 & H5 & Hrun). assert (0 ≤ hd_row_count h * 4) as H0 by lia.
  destruct (reads_section _ _ _ _ H0 _ _ _ H5) as (d5 & Hr5 & Hf5 & Hl5 & chunks & Hd5 & Hsums%sums_chunks). cbn in Hsums. subst sums. rewrite <-Hd5 in Hrun.
  apply st_bind_inv in Hrun as (u & r6 & H6 & Hrun). assert (0 ≤ hd_row_count h * stride) as H0' by lia.
  destruct (reads_section _ _ _ _ H0' _ _ _ H6) as (d6 & Hr6 & Hf6 & Hl6 & _).
  apply st_bind_inv in Hrun as (trailer & r7 & H7 & Hrun).
  destruct (reads_hashed _TVVF_INTEGRITY_TRAILER_BYTES _ ltac:(done) _ _ _ H7) as (d7 & Hr7 & Hf7 & -> & Hl7).
  apply st_bind_inv in Hrun as (digest & r8 & [Hdig ->]%st_lift_inv & Hrun). apply check_trailer_sound in Hdig as [Htr Hdig].
  apply st_bind_inv in Hrun as (sha & r8 & H8 & Hrun). injection H8 as <- <-. injection Hrun as <- _.
  rewrite Hr2, Hr4, Hr5, Hr6, Hr7 in Hr1. rewrite Hf6, Hf5, Hf4, Hf2, Hf1 in Hf7.
  assert (rd_rest r7 = "") as Hend.
  { assert (slen (rd_rest r7) = 0%nat) as Hz; [|by destruct (rd_rest r7)]. apply (f_equal slen) in Hr1. rewrite !slen_app in Hr1.
    unfold _TVVF_INTEGRITY_TRAILER_BYTES in *. lia. }
  rewrite Hend, sapp_nil_r in Hr1. change ("" +:+ d1) with d1 in Hf7. rewrite <-!sapp_assoc in Hf7. rewrite <-Hr1 in Hf7.
  exists (Parts (of_chars (drop 8 (chars d1))) d2 d4 d5 d6 digest). split; cbn [pt_length pt_header pt_ids pt_sums pt_rows pt_digest
    sg_dtype sg_dim sg_row_count sg_ids_checksum sg_deleted_ids sg_ids sg_file_bytes sg_sha256 sg_row_checksums_sha256]; try done.
  - unfold assemble. cbn [pt_length pt_header pt_ids pt_sums pt_rows pt_digest]. rewrite <-Htr, <-Hmagic, Hr1 at 1.
    rewrite (take_8_split d1) at 1. by rewrite !sapp_assoc.
  - by rewrite chars_of_chars, Hl2.
  - exists header, stride. by destruct h.
  - rewrite Hf7. done.
Qed.

(** ** The live rows *)

(** The sidecar's ids after its deltas. *)
Definition replay_delta (live : gset Z) (d : segment) : gset Z := list_to_set (sg_ids d) ∪ live ∖ list_to_set (sg_deleted_ids d).
Definition replay (base : gset Z) (deltas : list segment) : gset Z := fold_left replay_delta deltas base.

Section counting.
Context (base touched : gset Z).
Local Notation base_touched := (base ∩ touched).

(** The running count against the set of live ids. *)
Record counts (live : gset Z) (l : live_count) : Prop := {
  ct_rows : lc_rows l = Z.of_nat (size live);
  ct_seen : ∀ i b, lc_latest l !! i = Some b → b = bool_decide (i ∈ live);
  ct_unseen : ∀ i, lc_latest l !! i = None → i ∈ live ↔ i ∈ base }.

Lemma was_live_spec live l i : counts live l → i ∈ touched → was_live base_touched l i = bool_decide (i ∈ live).
Proof.
  intros [_ Hs Hu] Hi. unfold was_live. destruct (lc_latest l !! i) as [b|] eqn:E; cbn; [by apply Hs|].
  apply bool_decide_ext. rewrite Hu by done. set_solver.
Qed.

Lemma count_delete_spec live l i : counts live l → i ∈ touched → counts (live ∖ {[i]}) (count_delete base_touched l i).
Proof.
  intros H Hi. unfold count_delete. rewrite (was_live_spec live) by done. destruct H as [Hr Hs Hu]. split; cbn [lc_rows lc_latest].
  - case_bool_decide as Hl.
    + rewrite size_difference, size_singleton by set_solver. pose proof (subseteq_size {[i]} live ltac:(set_solver)) as Hsz.
      rewrite size_singleton in Hsz. lia.
    + rewrite Hr. do 2 f_equal. set_solver.
  - intros j b. rewrite lookup_insert_Some. intros [[-> <-]|[Hne Hj]]; [symmetry; apply bool_decide_eq_false_2; set_solver|].
    rewrite (Hs _ _ Hj). apply bool_decide_ext. set_solver.
  - intros j. rewrite lookup_insert_None. intros [Hj Hne]. rewrite <-(Hu j Hj). set_solver.
Qed.

Lemma count_upsert_spec live l i : counts live l → i ∈ touched → counts ({[i]} ∪ live) (count_upsert base_touched l i).
Proof.
  intros H Hi. unfold count_upsert. rewrite (was_live_spec live) by done. destruct H as [Hr Hs Hu]. split; cbn [lc_rows lc_latest].
  - case_bool_decide as Hl.
    + by replace ({[i]} ∪ live) with live by set_solver.
    + rewrite size_union, size_singleton by set_solver. lia.
  - intros j b. rewrite lookup_insert_Some. intros [[-> <-]|[Hne Hj]]; [symmetry; apply bool_decide_eq_true_2; set_solver|].
    rewrite (Hs _ _ Hj). apply bool_decide_ext. set_solver.
  - intros j. rewrite lookup_insert_None. intros [Hj Hne]. rewrite <-(Hu j Hj). set_solver.
Qed.

Lemma count_deletes_spec ids live l : counts live l → (∀ i, i ∈ ids → i ∈ touched) →
  counts (live ∖ list_to_set ids) (fold_left (count_delete base_touched) ids l).
Proof.
  revert live l; induction ids as [|i ids IH]; intros live l H Ht; cbn [fold_left].
  - by replace (live ∖ list_to_set (@nil Z)) with live by set_solver.
  - replace (live ∖ list_to_set (i :: ids)) with (live ∖ {[i]} ∖ list_to_set ids) by set_solver.
    apply IH; [apply count_delete_spec; [done|set_solver]|set_solver].
Qed.
Lemma count_upserts_spec ids live l : counts live l → (∀ i, i ∈ ids → i ∈ touched) →
  counts (list_to_set ids ∪ live) (fold_left (count_upsert base_touched) ids l).
Proof.
  revert live l; induction ids as [|i ids IH]; intros live l H Ht; cbn [fold_left].
  - by replace (list_to_set (@nil Z) ∪ live) with live by set_solver.
  - replace (list_to_set (i :: ids) ∪ live) with (list_to_set ids ∪ ({[i]} ∪ live)) by set_solver.
    apply IH; [apply count_upsert_spec; [done|set_solver]|set_solver].
Qed.

Lemma latest_fold {A} (f : live_count → A → live_count) (b : bool) (key : A → Z) ids l :
  (∀ l a, lc_latest (f l a) = <[key a := b]> (lc_latest l)) →
  dom (lc_latest (fold_left f ids l)) = list_to_set (map key ids) ∪ dom (lc_latest l).
Proof.
  intros Hf. revert l; induction ids as [|a ids IH]; intros l; cbn [fold_left map]; [set_solver|]. rewrite IH, Hf, dom_insert_L. set_solver.
Qed.

Lemma count_deltas_spec b deltas live l out : counts live l → (∀ d i, d ∈ deltas → i ∈ sg_ids d ++ sg_deleted_ids d → i ∈ touched) →
  foldR (count_delta b base_touched) l deltas = Ok out →
  counts (replay live deltas) out ∧ dom (lc_latest out) = touched_ids deltas ∪ dom (lc_latest l).
Proof.
  revert live l; induction deltas as [|d deltas IH]; intros live l H Ht; cbn [foldR].
  - intros [= <-]. split; [done|]. unfold touched_ids. cbn. set_solver.
  - intros Hrun. destruct (count_delta b base_touched l d) as [l1|] eqn:E1; [|done]. cbn [mbind result_bind] in Hrun.
    unfold count_delta in E1. destruct (_ || _); [done|]. injection E1 as <-.
    apply (IH (replay_delta live d)) in Hrun as [Hc Hd]; [|apply count_upserts_spec; [apply count_deletes_spec; [done|]|]; set_solver|set_solver].
    split; [exact Hc|]. rewrite Hd, (latest_fold _ true id), (latest_fold _ false id) by done. rewrite !map_id.
    unfold touched_ids. cbn [map concat]. rewrite !list_to_set_app_L. set_solver.
Qed.

(** Dead ids are those a delta touched and none of which is live. *)
Lemma tombstones_spec live l : counts live l →
  length (List.filter (λ kv : Z * bool, negb kv.2) (map_to_list (lc_latest l))) = size (dom (lc_latest l) ∖ live).
Proof.
  intros [_ Hs _]. set (dead := List.filter _ _). assert (NoDup dead.*1) as Hnd.
  { pose proof (NoDup_fst_map_to_list (lc_latest l)) as H. unfold dead. generalize (map_to_list (lc_latest l)), H. intros k.
    induction k as [|[i b] k IH]; cbn; [done|]. intros [Hi Hk]%NoDup_cons. destruct b; cbn; [by apply IH|].
    apply NoDup_cons. split; [|by apply IH]. intros ([i' b'] & -> & Hin)%list_elem_of_fmap. apply list_elem_of_In, filter_In in Hin as [Hin _].
    apply Hi, list_elem_of_fmap. eexists. split; [|by apply list_elem_of_In]. done. }
  rewrite <-(length_map fst dead). transitivity (size (list_to_set dead.*1 : gset Z)); [by rewrite size_list_to_set|]. f_equal.
  apply set_eq. intros i. rewrite elem_of_list_to_set, list_elem_of_fmap, elem_of_difference, elem_of_dom. split.
  - intros ([i' b] & -> & Hin). unfold dead in Hin. apply list_elem_of_In, filter_In in Hin as [Hin Hb]. apply list_elem_of_In, elem_of_map_to_list in Hin.
    split; [by eexists|]. pose proof (Hs _ _ Hin) as E. cbn in Hb. destruct b; [done|]. symmetry in E. by apply bool_decide_eq_false_1 in E.
  - intros [[b Hb] Hi]. exists (i, b). split; [done|]. unfold dead. apply list_elem_of_In, filter_In. split; [by apply list_elem_of_In, elem_of_map_to_list|].
    rewrite (Hs _ _ Hb). cbn. by rewrite bool_decide_eq_false_2.
Qed.
End counting.

Lemma filter_interest (T : gset Z) l : (list_to_set (List.filter (of_interest (Some T)) l) : gset Z) = list_to_set l ∩ T.
Proof.
  apply set_eq. intros i. rewrite elem_of_intersection, !elem_of_list_to_set, !list_elem_of_In, filter_In. cbn [of_interest].
  by rewrite bool_decide_eq_true.
Qed.

(** Counting without the ids of the base: only those a delta touched were kept when the base was read. *)
Lemma covered_spec base deltas ids c : NoDup ids → sg_row_count base = Z.of_nat (length ids) →
  sg_ids base = List.filter (of_interest (Some (touched_ids deltas))) ids → covered base deltas = Ok c →
  let live := replay (list_to_set ids) deltas in
  cv_sidecar_rows c = Z.of_nat (size live) ∧ cv_tombstones c = Z.of_nat (size (touched_ids deltas ∖ live)) ∧
  cv_base_rows c = Z.of_nat (length ids) ∧ cv_delta_segments c = Z.of_nat (length deltas).
Proof.
  intros Hnd Hrc Hids. unfold covered. rewrite Hids, filter_interest. intros H.
  destruct (foldR _ _ _) as [l|] eqn:El; [|done]. injection H as <-. cbn [cv_sidecar_rows cv_tombstones cv_base_rows cv_delta_segments].
  apply (count_deltas_spec (list_to_set ids) (touched_ids deltas) base deltas (list_to_set ids)) in El as [Hc Hd].
  - cbn [lc_latest] in Hd. rewrite dom_empty_L, (right_id_L ∅ (∪)) in Hd. rewrite (tombstones_spec _ _ _ Hc), Hd, (ct_rows _ _ _ Hc). split_and!; try done. lia.
  - split; cbn; [|done|done]. by rewrite Hrc, size_list_to_set.
  - intros d i Hdin Hi. unfold touched_ids. apply elem_of_list_to_set, list_elem_of_In, in_concat. exists (sg_ids d ++ sg_deleted_ids d).
    split; [|by apply list_elem_of_In]. apply (in_map (λ d, sg_ids d ++ sg_deleted_ids d)). by apply list_elem_of_In.
Qed.

(** ** What a verified sidecar is *)

Lemma must_equal_str s v msg : must_equal (PStr s) v msg = Ok tt → v = PStr s.
Proof. unfold must_equal. destruct v; cbn; try done. case_bool_decide; [by subst|done]. Qed.

Lemma require_int_value v label m z : _require_int v label m = Ok z → v = PInt z.
Proof. unfold _require_int. destruct v; try done. destruct (_ <? _); [done|]. by intros [= ->]. Qed.

(** Whole words. *)
Lemma section_ids_length d : Z.of_nat (slen d) mod 8 = 0 → Z.of_nat (length (section_ids d)) * 8 = Z.of_nat (slen d).
Proof.
  unfold section_ids. rewrite slen_chars. generalize (chars d) as l. intros l Hm.
  assert (∀ n l, (length l ≤ n)%nat → (length l mod 8 = 0)%nat → (length (unpack_words n l) * 8 = length l)%nat) as H.
  { clear. induction n as [|n IH]; intros l Hn Hm; [destruct l; [done|cbn in Hn; lia]|]. destruct l as [|a l]; [done|]. cbn [unpack_words length].
    assert (8 ≤ length (a :: l))%nat as H8. { destruct (decide (length (a :: l) < 8)%nat) as [H|]; [|lia]. rewrite Nat.mod_small in Hm by done. cbn in Hm. lia. }
    specialize (IH (drop 8 (a :: l))). rewrite length_drop in IH. cbn [length] in *.
    assert ((S (length l) - 8) mod 8 = 0)%nat as Hr.
    { replace (S (length l)) with (S (length l) - 8 + 1 * 8)%nat in Hm by lia. by rewrite Nat.Div0.mod_add in Hm. }
    specialize (IH ltac:(lia) Hr). lia. }
  rewrite <-(H (length l) l) at 2; [lia|done|]. apply Nat2Z.inj. rewrite Nat2Z.inj_mod. exact Hm.
Qed.

Lemma pure_read_tvvf p magic is_delta interest : pure_io (_read_tvvf_segment p magic is_delta interest).
Proof. apply pure_bind; [apply pure_read_bytes|intros; apply pure_lift]. Qed.
Lemma read_segment_Ok p magic is_delta interest s seg : value (_read_tvvf_segment p magic is_delta interest s) = Ok seg →
  ∃ c parts, content s p = Some c ∧ certified (pname p) magic is_delta interest c seg parts.
Proof.
  intros (c & Hc & H)%pure_bind_Ok; [|apply pure_read_bytes]. unfold read_bytes in Hc. unfold content.
  destruct (files s !! p) as [f|]; [|done]. injection Hc as <-. cbn [lift value] in H. apply verified_segment_is_whole in H as [parts H].
  by exists (fdata f), parts.
Qed.

(** One delta of the chain: its place in the sequence, its file, whole and with the recorded digest. *)
Definition delta_verified (s : fsys) (delta_dir : path) (v : pyval) (d : Z * segment) : Prop :=
  ∃ e name c parts, v = PDict e ∧ entry "seq" e = PInt d.1 ∧ entry "file_name" e = PStr name ∧
    content s (pjoin delta_dir name) = Some c ∧ entry "sha256" e = PStr (sha256_hex c) ∧
    certified (pname (pjoin delta_dir name)) _TVVF_DELTA_MAGIC true None c d.2 parts.

Lemma check_delta_pure delta_dir previous v : pure_io (check_delta delta_dir previous v).
Proof.
  unfold check_delta. repeat first [apply pure_ret | apply pure_lift | apply pure_fail | apply pure_read_tvvf
    | apply pure_bind; [|intros ?] | match goal with |- pure_io (if ?b then _ else _) => destruct b end].
Qed.

Lemma check_delta_Ok delta_dir previous v s d : value (check_delta delta_dir previous v s) = Ok d →
  previous < d.1 ∧ delta_verified s delta_dir v d.
Proof.
  unfold check_delta. intros (e & He & H)%pure_bind_Ok; [|apply pure_lift]. cbn [lift value] in He.
  apply pure_bind_Ok in H as (q & Hq & H); [|apply pure_lift]. cbn [lift value] in Hq.
  destruct (Z.leb_spec q previous); [done|]. apply pure_bind_Ok in H as (name & Hname & H); [|apply pure_lift]. cbn [lift value] in Hname.
  apply pure_bind_Ok in H as (sha & Hsha & H); [|apply pure_lift]. cbn [lift value] in Hsha.
  apply pure_bind_Ok in H as (seg & Hseg & H); [|apply pure_read_tvvf]. apply pure_bind_Ok in H as ([] & Hd & H); [|apply pure_lift].
  cbn [lift value] in Hd. case_bool_decide as Hdig; [|done]. do 3 (apply pure_bind_Ok in H as (? & _ & H); [|apply pure_lift]).
  injection H as <-. cbn [fst snd]. split; [lia|]. apply read_segment_Ok in Hseg as (c & parts & Hc & Hcert).
  exists e, name, c, parts. assert (v = PDict e) as -> by (unfold _require_mapping in He; destruct v; try done; by injection He as ->). split; [done|]. split.
  { unfold _require_int in Hq. destruct (entry "seq" e); try done. destruct (_ <? _); [done|by injection Hq as ->]. } split.
  { unfold _require_file_name in Hname. destruct (entry "file_name" e); try done. destruct (is_file_name _); [by injection Hname as ->|done]. }
  split; [done|]. split; [|done]. destruct (ct_file _ _ _ _ _ _ _ Hcert) as [_ <-]. rewrite Hdig.
  destruct (entry "sha256" e) as [| | | |[|a b]| | | |]; try done. by injection Hsha as <-.
Qed.

Lemma check_deltas_Ok delta_dir deltas s segs : value (check_deltas delta_dir deltas s) = Ok segs →
  ∃ ds, Forall2 (delta_verified s delta_dir) deltas ds ∧ map snd ds = segs ∧ Sorted Z.lt (-1 :: map fst ds).
Proof.
  unfold check_deltas. set (f := λ acc v, d ← check_delta delta_dir acc.1 v; mret (d.1, acc.2 ++ [d.2])).
  assert (∀ acc v, pure_io (f acc v)) as Hp by (intros; apply pure_bind; [apply check_delta_pure|intros; apply pure_ret]).
  intros (out & H & Hs)%pure_bind_Ok; [|by apply pure_foldIO]. injection Hs as <-.
  enough (∀ last pre, value (foldIO f (last, pre) deltas s) = Ok out →
    ∃ ds, Forall2 (delta_verified s delta_dir) deltas ds ∧ pre ++ map snd ds = out.2 ∧ Sorted Z.lt (last :: map fst ds)) as Hgen by (by apply (Hgen _ []) in H).
  clear H. induction deltas as [|v deltas IH]; intros last pre; cbn [foldIO].
  - intros [= <-]. exists []. cbn. rewrite (right_id_L [] (++)). by repeat constructor.
  - intros (acc & Ha & H)%pure_bind_Ok; [|apply Hp]. apply pure_bind_Ok in Ha as (d & Hd & Ha); [|apply check_delta_pure]. injection Ha as <-.
    apply check_delta_Ok in Hd as [Hlt Hd]. apply IH in H as (ds & HF & Hds & Hsorted). exists (d :: ds). split; [by constructor|].
    cbn [map]. rewrite <-Hds, <-(assoc_L (++)). split; [done|]. constructor; [done|by constructor].
Qed.

(** C33: a sidecar that passes the check is what its manifest says, to the byte. If [_validate_tvvf_sidecar]
    returns, the base and every delta exist, have the recorded full-file digest, and are exactly a
    header, as many ids, row checksums and rows as it announces, an id section with the announced checksum and a trailer with the digest of the row checksums; the
    deltas are in increasing sequence and none upserts an id it deletes. Where the base holds no id twice,
    the reported coverage is that of replaying the deltas over the base, though the ids of the base
    were never all held in memory: the live rows, the ids deltas left dead, the rows of the base, the deltas. *)
Theorem verified_sidecar_is_replayed (index_key : string) (root : path) (m : pydict) (s : fsys) (cov : coverage) :
  value (_validate_tvvf_sidecar index_key root (PDict m) s) = Ok cov →
  ∃ epoch base_entry entries base_bytes base parts ds,
    let base_path := pjoin (pjoin root (index_key +:+ ".gen")) (base_file epoch) in
    entry "vf_epoch" m = PInt epoch ∧ entry "base" m = PDict base_entry ∧ entry "deltas" m = PList entries ∧
    content s base_path = Some base_bytes ∧ entry "sha256" base_entry = PStr (sha256_hex base_bytes) ∧
    certified (pname base_path) _TVVF_BASE_MAGIC false (Some (touched_ids (map snd ds))) base_bytes base parts ∧
    Forall2 (delta_verified s (with_name base_path (pname base_path +:+ ".tvvf-delta"))) entries ds ∧
    Sorted Z.lt (-1 :: map fst ds) ∧
    (NoDup (section_ids (pt_ids parts)) →
     let live := replay (list_to_set (section_ids (pt_ids parts))) (map snd ds) in
     cv_sidecar_rows cov = Z.of_nat (size live) ∧ cv_tombstones cov = Z.of_nat (size (touched_ids (map snd ds) ∖ live)) ∧
     cv_base_rows cov = Z.of_nat (length (section_ids (pt_ids parts))) ∧ cv_delta_segments cov = Z.of_nat (length entries)).
Proof.
  unfold _validate_tvvf_sidecar. intros H. apply pure_bind_Ok in H as (m' & [= <-] & H); [|apply pure_lift].
  do 2 (apply pure_bind_Ok in H as (? & _ & H); [|apply pure_lift]).
  apply pure_bind_Ok in H as (epoch & He & H); [|apply pure_lift]. apply pure_bind_Ok in H as (be & Hbe & H); [|apply pure_lift].
  apply pure_bind_Ok in H as (name & Hname & H); [|apply pure_lift]. cbn [lift value] in He, Hbe.
  case_bool_decide as Hn; [|done]. subst name. cbn [negb] in H. set (base_path := pjoin (pjoin root (index_key +:+ ".gen")) (base_file epoch)) in *.
  apply pure_bind_Ok in H as (entries & Hentries & H); [|apply pure_lift]. cbn [lift value] in Hentries.
  apply pure_bind_Ok in H as (segs & Hsegs & H).
  2: { apply pure_bind; [|intros; apply pure_ret]. apply pure_foldIO. intros. apply pure_bind; [apply check_delta_pure|intros; apply pure_ret]. }
  apply pure_bind_Ok in H as (base & Hbase & H); [|apply pure_read_tvvf]. apply pure_bind_Ok in H as ([] & Hcheck & H); [|apply pure_lift].
  cbn [lift value] in Hcheck, H. apply check_deltas_Ok in Hsegs as (ds & HF & <- & Hsorted).
  apply read_segment_Ok in Hbase as (c & parts & Hc & Hcert). exists epoch, be, entries, c, base, parts, ds. cbv zeta. split_and!; try done.
  - apply require_int_value in He. done.
  - unfold _require_mapping in Hbe. destruct (entry "base" m); try done. by injection Hbe as ->.
  - destruct (entry "deltas" m); try done. by injection Hentries as ->.
  - unfold check_base in Hcheck. apply bind_Ok in Hcheck as ([] & Hsha & _). apply must_equal_str in Hsha.
    rewrite Hsha. by destruct (ct_file _ _ _ _ _ _ _ Hcert) as [_ ->].
  - intros Hnd. pose proof (ct_ids_size _ _ _ _ _ _ _ Hcert) as Hsz.
    replace (length entries) with (length (map snd ds)) by (rewrite length_map; symmetry; by eapply Forall2_length).
    eapply (covered_spec base); [exact Hnd| |apply (ct_ids _ _ _ _ _ _ _ Hcert)|exact H].
    assert (Z.of_nat (length (section_ids (pt_ids parts))) * 8 = Z.of_nat (slen (pt_ids parts))) as Hl; [|lia].
    apply section_ids_length. rewrite Hsz. by apply Z.mod_mul.
Qed.

(** ** The report *)

Lemma pure_validate index_key root manifest : pure_io (_validate_tvvf_sidecar index_key root manifest).
Proof.
  unfold _validate_tvvf_sidecar, check_deltas. repeat first [apply pure_ret | apply pure_lift | apply pure_fail | apply pure_read_tvvf
    | apply pure_foldIO; intros ? ? | apply check_delta_pure | apply pure_bind; [|intros ?] | match goal with |- pure_io (if ?b then _ else _) => destruct b end].
Qed.
Lemma pure_inspect root name : pure_io (inspect_commit root name).
Proof.
  unfold inspect_commit. apply pure_bind; [apply pure_read_text|intros text]. apply pure_bind; [apply pure_lift|intros document].
  apply pure_bind; [apply pure_lift|intros body]. destruct (entry "tvvf" body); try apply pure_ret;
    (apply pure_bind; [apply pure_validate|intros; apply pure_ret]).
Qed.

(** The check reports, whatever it finds: it never raises and never writes, an absent directory is one
    failure, and every commit manifest, in name order, is judged by itself: one finding when it
    names a sidecar or cannot be read, ok exactly when the whole of the check passes, none when it names no sidecar. *)
Theorem doctor_only_reports (root : path) (s : fsys) : ∃ names, value (glob_suffix root commit_suffix s) = Ok names ∧
  native_store_findings root s = Out [] s (Ok (
    if dir_exists s root then concat (map (λ name, finding_of name (value (inspect_commit root name s))) names)
    else [Finding "fail" "" (missing_message root) None])).
Proof.
  assert (∀ pre name, (out ← attempt (inspect_commit root name); mret (pre ++ finding_of name out)) s
      = Out [] s (Ok (pre ++ finding_of name (value (inspect_commit root name s))))) as Hone.
  { intros pre name. unfold attempt, mbind, io_bind. by destruct (pure_inspect root name s) as [-> ->]. }
  assert (∀ l pre, foldIO (λ findings name, out ← attempt (inspect_commit root name); mret (findings ++ finding_of name out)) pre l s
    = Out [] s (Ok (pre ++ concat (map (λ name, finding_of name (value (inspect_commit root name s))) l)))) as Hfold.
  { induction l as [|name l IH]; intros pre; cbn [foldIO map concat]; [by rewrite (right_id_L [] (++))|].
    erewrite bind_run_pure by apply Hone. rewrite IH. by rewrite <-(assoc_L (++)). }
  eexists. split; [reflexivity|]. unfold native_store_findings. erewrite bind_run_pure by reflexivity.
  destruct (dir_exists s root); [|done]. cbn [negb]. erewrite bind_run_pure by reflexivity. by rewrite Hfold.
Qed.

(** The report with a store never raises nor writes either. *)
Theorem report_never_fails (p : Probes) (device : string) (store : option path) (s : fsys) :
  ∃ report, local_capability_report p device store s = Out [] s (Ok report).
Proof.
  unfold local_capability_report. destruct store as [root|]; [|by eexists].
  destruct (doctor_only_reports root s) as (names & _ & H). erewrite bind_run_pure by exact H. by eexists.
Qed.

(** ** On concrete data *)

Definition words (ids : list Z) : bytes := of_chars (concat (map (λ i, le_bytes 8 (Z.to_N i)) ids)).
Definition demo_sums (n : nat) : bytes := of_chars (replicate (4 * n) "a"%char).
Definition demo_segment (magic : bytes) (ids : list Z) (extra : pydict) : bytes :=
  let n := length ids in
  let header := of_chars (json_text compact 0 (PDict ([(PStr "schema_version", PInt 1); (PStr "dtype", PStr "float32"); (PStr "dim", PInt 1);
      (PStr "row_count", PInt (Z.of_nat n)); (PStr "ids_checksum", PInt (_fnv1a64_update _TVVF_FNV_OFFSET (words ids)))] ++ extra))) in
  assemble magic (Parts (of_chars (le_bytes 8 (N.of_nat (slen header)))) header (words ids) (demo_sums n) (demo_sums n) (sha256_hex (demo_sums n))).

(** Three rows; a delta that deletes the second and adds a fourth. *)
Definition demo_base (ids : list Z) : bytes := demo_segment _TVVF_BASE_MAGIC ids [].
Definition demo_delta : bytes := demo_segment _TVVF_DELTA_MAGIC [4] [(PStr "deleted_ids", PList [PInt 2])].
Definition demo_store (ids : list Z) : fsys :=
  FSys (<[["vf7.tvvf"; "k.gen"; "db"] := File (demo_base ids) true]>
       (<[["d0"; "vf7.tvvf.tvvf-delta"; "k.gen"; "db"] := File demo_delta true]> ∅)) ∅.
Definition demo_manifest (ids : list Z) : pydict :=
  [(PStr "schema_version", PInt 1); (PStr "index_key", PStr "k"); (PStr "vf_epoch", PInt 7);
   (PStr "base", dict_of [("file_name", PStr "vf7.tvvf"); ("sha256", PStr (sha256_hex (demo_base ids)));
      ("file_bytes", PInt (Z.of_nat (slen (demo_base ids)))); ("dtype", PStr "float32"); ("dim", PInt 1);
      ("row_count", PInt (Z.of_nat (length ids))); ("ids_checksum", PInt (_fnv1a64_update _TVVF_FNV_OFFSET (words ids)));
      ("row_checksums_sha256", PStr (sha256_hex (demo_sums (length ids))))]);
   (PStr "deltas", PList [dict_of [("seq", PInt 0); ("file_name", PStr "d0"); ("sha256", PStr (sha256_hex demo_delta));
      ("file_bytes", PInt (Z.of_nat (slen demo_delta))); ("upsert_rows", PInt 1); ("deleted_rows", PInt 1)]])].

Example demo_coverage : value (_validate_tvvf_sidecar "k" ["db"] (PDict (demo_manifest [1; 2; 3])) (demo_store [1; 2; 3]))
  = Ok (Coverage 3 1 3 1).
Proof. by vm_compute. Qed.

(** An id that is twice in the base is not noticed: only the ids of deltas are compared. *)
Example duplicate_base_ids_pass : value (_validate_tvvf_sidecar "k" ["db"] (PDict (demo_manifest [1; 2; 2])) (demo_store [1; 2; 2]))
  = Ok (Coverage 3 1 3 1).
Proof. by vm_compute. Qed.

Lemma verified_sidecar_is_replayed_witness : ∃ entries base_bytes base_entry,
  entry "base" (demo_manifest [1; 2; 3]) = PDict base_entry ∧ entry "deltas" (demo_manifest [1; 2; 3]) = PList entries ∧
  content (demo_store [1; 2; 3]) ["vf7.tvvf"; "k.gen"; "db"] = Some base_bytes ∧ entry "sha256" base_entry = PStr (sha256_hex base_bytes).
Proof.
  destruct (@verified_sidecar_is_replayed "k" ["db"] (demo_manifest [1; 2; 3]) (demo_store [1; 2; 3]) (Coverage 3 1 3 1))
    as (epoch & be & entries & bb & base & parts & ds & He & Hbe & Hen & Hc & Hs & _); [by vm_compute|].
  injection He as <-. by exists entries, bb, be.
Defined.

(** A header in UTF-16 is read like one in UTF-8. *)
Example wide_json : let wide := concat (map (λ c, [c; chr 0]) (chars "[1]")) in
  loads_bytes (of_chars wide) = Ok (PList [PInt 1]) ∧ loads_bytes (of_chars (chr 255 :: chr 254 :: wide)) = Ok (PList [PInt 1]) ∧
  loads_bytes "[1]" = Ok (PList [PInt 1]).
Proof. by vm_compute. Qed.

Example commit_keys : index_key_of "abc.commit.json" = "abc". Proof. reflexivity. Qed.
