(* ===== verification/EmbedBackends.v ===== *)
(** * Embedding backends

    [engine/embedding_backends.py]: from texts to vectors. The tokenizers, encoders and ONNX sessions of
    third-party runtimes are the classes [TorchHost] and [OnnxHost]; what the backends do around them is
    written out: prefixes, the plan of padded batches, the lazy loads, pooling, normalization, the checks
    of shape, the limits on images and the sizing of the thread pool. A tensor is a list of rows of
    float32 numbers; the order of NumPy's and PyTorch's reductions is the class [TensorMath]. *)

From Stdlib Require Import Ascii String ZArith Lia SpecFloat.
From stdpp Require Import base strings gmap sets list sorting.
From S2P Require Import Prelude Numbers PyVal Bytes FileSys Topology VectorBoundary StableIds.

Local Open Scope Z_scope.

(** ** The plan of batches *)

Record _PlannedBatch := Planned { pl_indices : list nat; pl_pad_len : Z }.

Definition _resolve_pad_buckets (max_seq_length : Z) (pad_buckets : option (list Z)) : list Z :=
  let candidates := default [32; 64; 128] pad_buckets in
  sort_by Z.leb (elements (list_to_set (List.filter (λ b, (0 <? b) && (b <? max_seq_length)) candidates) : gset Z))
  ++ [max_seq_length].

Definition _select_bucket (longest_len : Z) (buckets : list Z) : Z :=
  default (List.last buckets 0) (List.find (λ bucket, longest_len <=? bucket) buckets).

(** [by_bucket.setdefault(bucket, []).append(index)]. *)
Definition add_to_bucket (buckets : list Z) (by_bucket : gmap Z (list nat)) (il : nat * Z) : gmap Z (list nat) :=
  let bucket := _select_bucket il.2 buckets in
  <[bucket := default [] (by_bucket !! bucket) ++ [il.1]]> by_bucket.

Definition _plan_batches (lengths : list Z) (batch_size : Z) (buckets : list Z) : list _PlannedBatch :=
  let by_bucket := fold_left (add_to_bucket buckets) (zip (seq 0 (length lengths)) lengths) ∅ in
  concat (map (λ bucket, map (λ indices, Planned indices bucket)
                             (batches (Z.to_nat batch_size) (default [] (by_bucket !! bucket))))
              (sort_by Z.leb (elements (dom by_bucket)))).

(** ** Devices and precision *)

Definition _EMBEDDING_DTYPES : list string := ["float32"; "float16"; "bfloat16"].

Definition _resolve_embedding_dtype (requested device : string) : string * string :=
  if bool_decide (requested = "float32") then ("float32", "")
  else if bool_decide (device = "cuda") then (requested, "")
  else if bool_decide (device = "cpu") && bool_decide (requested = "bfloat16") then ("bfloat16", "")
  else
    let reason := if bool_decide (device = "cpu") then "fp16 CPU inference is slow/patchy" else "MPS half is untested here" in
    ("float32", "embedding_dtype=" +:+ requested +:+ " is not used on device=" +:+ device +:+ "; running float32 (" +:+ reason +:+ ").").

(** ** Tensors *)

Notation vec := (list spec_float).

(** An array of two dimensions, of three, or of another number of them. *)
Inductive tensor := T2 (rows : list vec) | T3 (rows : list (list vec)) | TN (ndim : Z).

(** The sum of token vectors, the norm of a row, and rounding to a half precision. *)
Class TensorMath := { token_sum : list vec → vec; row_norm : vec → spec_float; half_round : string → spec_float → spec_float }.

Definition f_one : spec_float := float_of_Z 1.
Definition round_to `{TensorMath} (dtype : string) (f : spec_float) : spec_float :=
  if bool_decide (dtype = "float32") then to_float32 f else half_round dtype f.
Definition np_max (a b : spec_float) : spec_float := if fltb a b then b else a.

(** One row of a tokenizer's output; a tokenizer need not emit masks nor segments. *)
Record token_row := Row { input_ids : list Z; attention_mask : option (list Z); token_type_ids : option (list Z) }.
Definition row_length (r : token_row) : Z := Z.of_nat (length (input_ids r)).

Section pooling.
Context {TM : TensorMath}.

(** [(tokens * mask).sum(1) / max(mask.sum(1), 1.0)] at a precision. *)
Definition mean_pool (dtype : string) (tokens : list vec) (mask : list Z) : vec :=
  let m := map float_of_Z mask in
  let summed := token_sum (zip_with (λ t w, map (λ x, round_to dtype (fmul x w)) t) tokens m) in
  let count := np_max (float_of_Z (fold_right Z.add 0 mask)) f_one in
  map (λ x, round_to dtype (fdiv x count)) summed.

(** [tokens[:, 0, :]]. *)
Definition cls_pool (tokens : list vec) : result vec :=
  match tokens with t :: _ => Ok t | [] => raise IndexError "index 0 is out of bounds for dimension 1 with size 0" end.

(** One row of [_l2_normalize_rows]. *)
Definition _l2_normalize_row (row : vec) : vec :=
  let norm := row_norm row in divide_row row (if is_zero norm then f_one else norm).
Definition _l2_normalize_rows (array : list vec) : list vec := map _l2_normalize_row array.

(** [functional.normalize(p=2, dim=1, eps=1e-12)]. *)
Definition torch_eps : spec_float := to_float32 (dec_to_float false 1 1 (-12)).
Definition torch_normalize (row : vec) : vec := divide_row row (np_max (row_norm row) torch_eps).

Definition _select_onnx_embedding_output (outputs : list (string * tensor)) (output_name : option string) : result tensor :=
  match output_name with
  | Some n => match get_item n outputs with
              | Some t => Ok t
              | None => raise ValueError ("ONNX output " +:+ str_repr n +:+ " was not returned")
              end
  | None => match List.find (λ kv, match kv.2 with T2 _ | T3 _ => true | TN _ => false end) outputs with
            | Some kv => Ok kv.2
            | None => raise ValueError "ONNX session returned no embedding-shaped output"
            end
  end.

Definition mask_of (r : token_row) : result (list Z) :=
  match attention_mask r with Some m => Ok m | None => raise ValueError "mean pooling requires a 2D attention_mask" end.

Definition _pool_onnx_output (outputs : list (string * tensor)) (batch : list token_row) (pooling : string)
    (output_name : option string) : result (list vec) :=
  selected ← _select_onnx_embedding_output outputs output_name;
  match selected with
  | T2 rows => Ok rows
  | TN _ => raise ValueError "ONNX output must be a 2D sentence tensor or 3D token tensor"
  | T3 rows =>
      if bool_decide (pooling = "cls") then mapR cls_pool rows
      else masks ← mapR mask_of batch; Ok (zip_with (mean_pool "float32") rows masks)
  end.

(** [array.shape[1] != native_dim], for an array that has rows. *)
Definition _validate_embedding_array (array : list vec) (native_dim : Z) (model_name : string) : result unit :=
  let dim := Z.of_nat (length (hd [] array)) in
  if dim =? native_dim then Ok tt
  else raise ValueError (model_name +:+ " returned dim " +:+ Z_str dim +:+ "; expected " +:+ Z_str native_dim).
End pooling.

(** ** The compiled PyTorch backend *)

(** PyTorch and Transformers: what is installed, and what they load. *)
Class TorchHost (Tok Enc : Type) :=
  { torch_installed : bool; transformers_installed : bool; is_bf16_supported : bool;
    auto_model : string → string → string → result Enc;          (* name, device, dtype *)
    torch_compile : string → bool;                                 (* whether a mode compiles *)
    auto_tokenizer : string → result Tok;
    tokenize : Tok → Z → list string → list token_row;             (* padding=False, truncation=True *)
    tokenizer_pad : Tok → Z → list token_row → list token_row;     (* padding="max_length" *)
    last_hidden_state : Enc → list token_row → list (list vec) }.

Record CompiledTorchConfig := TorchConfig
  { tc_model_name : string; tc_native_dim : Z; tc_device : string; tc_batch_size : Z; tc_max_seq_length : Z;
    tc_query_prefix : string; tc_document_prefix : string; tc_pooling : string; tc_normalize : bool;
    tc_compile_mode : string; tc_dtype : string; tc_pad_buckets : list Z }.

(** The fields that lazy loading sets. *)
Record CompiledTorch (Tok Enc : Type) := CompiledState
  { ct_model : option Enc; ct_tokenizer : option Tok; ct_compiled : bool; ct_effective_dtype : string }.
Arguments CompiledState {Tok Enc} _ _ _ _.
Arguments ct_model {Tok Enc} _.
Arguments ct_tokenizer {Tok Enc} _.
Arguments ct_compiled {Tok Enc} _.
Arguments ct_effective_dtype {Tok Enc} _.

(** The checks all constructors share. *)
Definition require_config (model_name : string) (native_dim batch_size : Z) : result unit :=
  if bool_decide (model_name = "") then raise ValueError "model_name is required"
  else if native_dim <=? 0 then raise ValueError "native_dim must be positive"
  else if batch_size <=? 0 then raise ValueError "batch_size must be positive"
  else Ok tt.

Definition CompiledTorchEmbeddingBackend {Tok Enc} (model_name : string) (native_dim : Z) (device : string) (batch_size max_seq_length : Z)
    (query_prefix document_prefix pooling : string) (normalize : bool) (compile_mode dtype : string) (pad_buckets : option (list Z))
    : result (CompiledTorchConfig * CompiledTorch Tok Enc) :=
  _ ← require_config model_name native_dim batch_size;
  if max_seq_length <=? 0 then raise ValueError "max_seq_length must be positive"
  else if negb (str_in pooling ["cls"; "mean"]) then raise ValueError "pooling must be cls or mean"
  else if negb (str_in dtype _EMBEDDING_DTYPES) then raise ValueError "dtype must be one of ('float32', 'float16', 'bfloat16')"
  else Ok (TorchConfig model_name native_dim device batch_size max_seq_length query_prefix document_prefix pooling normalize
             compile_mode dtype (_resolve_pad_buckets max_seq_length pad_buckets),
           CompiledState None None false (_resolve_embedding_dtype dtype device).1).

Section torch.
Context {TM : TensorMath} {Tok Enc : Type} {TH : TorchHost Tok Enc} (c : CompiledTorchConfig).
Notation M := (st (CompiledTorch Tok Enc)).

Definition load_failed {A} (msg : string) : M A := st_lift (raise RuntimeError msg).

(** [_load_model] with [_locked_load_model]. *)
Definition _load_model : M Enc :=
  s ← st_read Ok;
  match ct_model s with
  | Some e => mret e
  | None =>
      if negb (torch_installed && transformers_installed)
      then load_failed "the torch-compile embedding runtime needs torch + transformers (install lodedb[embeddings,torch])."
      else
        _ ← st_update (λ s, if bool_decide (ct_effective_dtype s = "bfloat16") && bool_decide (tc_device c = "cuda") && negb is_bf16_supported
                            then CompiledState (ct_model s) (ct_tokenizer s) (ct_compiled s) "float16" else s);
        s ← st_read Ok;
        encoder ← st_lift (auto_model (tc_model_name c) (tc_device c) (ct_effective_dtype s));
        let mode := if bool_decide (tc_compile_mode c = "reduce-overhead") && negb (bool_decide (tc_device c = "cuda"))
                    then "default" else tc_compile_mode c in
        _ ← st_update (λ s, CompiledState (Some encoder) (ct_tokenizer s) (torch_compile mode) (ct_effective_dtype s));
        mret encoder
  end.

Definition _load_tokenizer : M Tok :=
  s ← st_read Ok;
  match ct_tokenizer s with
  | Some t => mret t
  | None =>
      if negb transformers_installed then load_failed "transformers is required to tokenize for the torch-compile runtime."
      else
        t ← st_lift (auto_tokenizer (tc_model_name c));
        _ ← st_update (λ s, CompiledState (ct_model s) (Some t) (ct_compiled s) (ct_effective_dtype s));
        mret t
  end.

(** [_FusedSentenceEncoder.forward] on one row, and on a batch. *)
Definition forward_row (dtype : string) (r : token_row) (tokens : list vec) : result vec :=
  pooled ← (match attention_mask r with
            | None => raise TypeError "forward() missing 1 required positional argument: 'attention_mask'"
            | Some m => if bool_decide (tc_pooling c = "cls") then cls_pool tokens else Ok (mean_pool dtype tokens m)
            end);
  let pooled := map to_float32 pooled in
  Ok (if tc_normalize c then torch_normalize pooled else pooled).
Definition forward (dtype : string) (encoder : Enc) (rows : list token_row) : result (list vec) :=
  mapR (λ rt, forward_row dtype rt.1 rt.2) (zip rows (last_hidden_state encoder rows)).

(** [out[index] = row], which spreads a row of one number. *)
Definition out_row (native_dim : Z) (row : vec) : result vec :=
  if Z.of_nat (length row) =? native_dim then Ok row
  else match row with
       | [x] => Ok (replicate (Z.to_nat native_dim) x)
       | _ => raise ValueError ("could not broadcast input array from shape (" +:+ Z_str (Z.of_nat (length row)) +:+ ",) into shape ("
                                  +:+ Z_str native_dim +:+ ",)")
       end.

(** One batch: pad, fill up with copies of the first row, run, keep the real rows, scatter them. *)
Definition run_batch (dtype : string) (encoder : Enc) (tokenizer : Tok) (encoded : list token_row) (pad_to_full : bool)
    (out : list vec) (batch : _PlannedBatch) : result (list vec) :=
  let tokens := tokenizer_pad tokenizer (pl_pad_len batch) (omap (λ i, encoded !! i) (pl_indices batch)) in
  let real := length (pl_indices batch) in
  let feed := if pad_to_full && (Z.of_nat real <? tc_batch_size c)
              then tokens ++ replicate (Z.to_nat (tc_batch_size c) - real) (hd (Row [] None None) tokens) else tokens in
  pooled ← forward dtype encoder feed;
  foldR (λ out ir, row ← out_row (tc_native_dim c) ir.2; Ok (<[ir.1 := row]> out)) out (zip (pl_indices batch) (take real pooled)).

(** The batch with the model and the tokenizer at hand. *)
Definition encode_loaded (s : CompiledTorch Tok Enc) (model : Enc) (tokenizer : Tok) (texts : list string) : result (list vec) :=
  let encoded := tokenize tokenizer (tc_max_seq_length c) texts in
  let plan := _plan_batches (map row_length encoded) (tc_batch_size c) (tc_pad_buckets c) in
  let pad_to_full := ct_compiled s && bool_decide (tc_device c = "cuda") && (tc_batch_size c <? Z.of_nat (length texts)) in
  let empty := replicate (length texts) (replicate (Z.to_nat (tc_native_dim c)) S754_nan) in
  out ← foldR (run_batch (ct_effective_dtype s) model tokenizer encoded pad_to_full) empty plan;
  _ ← _validate_embedding_array out (tc_native_dim c) (tc_model_name c);
  Ok out.

Definition _encode (texts : list string) : M (list vec) :=
  match texts with
  | [] => mret []
  | _ =>
      if negb torch_installed then st_lift (raise ModuleNotFoundError "No module named 'torch'")
      else
        model ← _load_model;
        tokenizer ← _load_tokenizer;
        s ← st_read Ok;
        st_lift (encode_loaded s model tokenizer texts)
  end.

Definition embed_documents (texts : list string) : M (list vec) := _encode (map (String.append (tc_document_prefix c)) texts).
Definition first_row (rows : list vec) : result vec :=
  match rows with r :: _ => Ok r | [] => raise IndexError "tuple index out of range" end.
Definition embed_query (text : string) : M vec := rows ← _encode [tc_query_prefix c +:+ text]; st_lift (first_row rows).
End torch.

(** ** The sentence-transformers and CLIP backends *)

(** A loaded [SentenceTransformer] and its [encode] with [normalize_embeddings=True], as an array. *)
Class SentenceHost (Model : Type) :=
  { sentence_transformer : string → string → option Z → result Model;   (* name, device, max_seq_length *)
    model_encode : Model → list string → Z → result tensor }.

Record SentenceConfig := SentenceTransformerConfig
  { sc_model_name : string; sc_native_dim : Z; sc_device : string; sc_batch_size : Z; sc_max_seq_length : option Z;
    sc_query_prefix : string; sc_document_prefix : string }.
Definition SentenceTransformerEmbeddingBackend (c : SentenceConfig) : result SentenceConfig :=
  _ ← require_config (sc_model_name c) (sc_native_dim c) (sc_batch_size c); Ok c.
(** The CLIP backend has no prefixes and leaves the model's length alone. *)
Definition ClipEmbeddingBackend (model_name : string) (native_dim : Z) (device : string) (batch_size : Z) : result SentenceConfig :=
  SentenceTransformerEmbeddingBackend (SentenceTransformerConfig model_name native_dim device batch_size None "" "").

(** The rows of an array of the expected width. *)
Definition checked_rows (model_name : string) (native_dim : Z) (array : tensor) : result (list vec) :=
  let wrong dim := raise ValueError (model_name +:+ " returned dim " +:+ dim +:+ "; expected " +:+ Z_str native_dim) in
  match array with
  | T2 rows => let dim := Z.of_nat (length (hd [] rows)) in if dim =? native_dim then Ok rows else wrong (Z_str dim)
  | _ => wrong "unknown"
  end.

Section sentence.
Context {Model : Type} {SH : SentenceHost Model} (c : SentenceConfig).

Definition st_load_model : st (option Model) Model :=
  loaded ← st_read Ok;
  match loaded with
  | Some m => mret m
  | None => m ← st_lift (sentence_transformer (sc_model_name c) (sc_device c) (sc_max_seq_length c));
            _ ← st_update (λ _, Some m); mret m
  end.
Definition st_encode (texts : list string) : st (option Model) (list vec) :=
  match texts with
  | [] => mret []
  | _ => model ← st_load_model;
         st_lift (array ← model_encode model texts (sc_batch_size c);
                  checked_rows (sc_model_name c) (sc_native_dim c) (match array with T2 rows => T2 (map (map to_float32) rows) | t => t end))
  end.
Definition st_embed_documents (texts : list string) : st (option Model) (list vec) := st_encode (map (String.append (sc_document_prefix c)) texts).
Definition st_embed_query (text : string) : st (option Model) vec :=
  rows ← st_encode [sc_query_prefix c +:+ text]; st_lift (first_row rows).
End sentence.

(** ** Images *)

Definition _DEFAULT_MAX_IMAGE_PIXELS : Z := 64000000.

Definition _max_image_pixels (env : gmap string string) : result Z :=
  match env !! "LODEDB_MAX_IMAGE_PIXELS" with
  | None => Ok _DEFAULT_MAX_IMAGE_PIXELS
  | Some raw =>
      if is_blank raw then Ok _DEFAULT_MAX_IMAGE_PIXELS
      else match parse_int raw with
           | None => raise ValueError "LODEDB_MAX_IMAGE_PIXELS must be an integer"
           | Some value => if value <=? 0 then raise ValueError "LODEDB_MAX_IMAGE_PIXELS must be a positive integer" else Ok value
           end
  end.

(** The size in the header of an image. *)
Definition _reject_oversized_image (width height limit : Z) : result unit :=
  if limit <? width * height
  then raise ValueError ("image is " +:+ Z_str width +:+ "x" +:+ Z_str height +:+ " (" +:+ Z_str (width * height) +:+ " pixels), over the "
                           +:+ Z_str limit +:+ "-pixel limit; raise LODEDB_MAX_IMAGE_PIXELS to allow it")
  else Ok tt.

(** What an image is given as. *)
Inductive image_input (Image : Type) := PilImage (i : Image) | ImageBytes (b : bytes) | ImagePath (p : string) | OtherItem (type : string).
Arguments PilImage {Image} i.
Arguments ImageBytes {Image} b.
Arguments ImagePath {Image} p.
Arguments OtherItem {Image} type.

(** Pillow: the opened header, its size, the full decode, and its own limit on bombs ([inl]). *)
Class Pillow (Image : Type) :=
  { pillow_installed : bool; image_size : Image → Z * Z; image_convert : Image → result Image;
    image_open : bytes + string → string + result Image }.

Section images.
Context {Image : Type} {P : Pillow Image} (env : gmap string string).

Definition opened_image (limit : Z) (i : Image) : result Image :=
  _ ← _reject_oversized_image (image_size i).1 (image_size i).2 limit; image_convert i.
Definition open_image_source (limit : Z) (source : bytes + string) : result Image :=
  match image_open source with
  | inl bomb => raise ValueError ("image rejected as a decompression bomb: " +:+ bomb)
  | inr i => i ← i; opened_image limit i
  end.
Definition _load_image (item : image_input Image) : result Image :=
  if negb pillow_installed
  then raise ImportError "image embedding requires Pillow; install the optional extra: pip install 'lodedb[image]'"
  else
    limit ← _max_image_pixels env;
    match item with
    | PilImage i => opened_image limit i
    | ImageBytes b => open_image_source limit (inl b)
    | ImagePath p => open_image_source limit (inr p)
    | OtherItem type => raise TypeError ("image must be a path, bytes, or a PIL Image; got " +:+ type)
    end.
Definition load_images (images : list (image_input Image)) : result (list Image) := mapR _load_image images.
End images.

(** ** The thread pool *)

Definition _CGROUP_CPU_MAX_PATH : path := ["cpu.max"; "cgroup"; "fs"; "sys"].

Definition is_ascii_text (s : string) : bool := forallb (λ c, (ord c <? 128)%N) (chars s).

(** [a / b] of positive integers, rounded correctly, and [math.ceil] of what is not negative. *)
Definition true_div (a b : Z) : spec_float :=
  let '(m, e, l) := SFdiv_core_binary prec64 emax64 a 0 b 0 in binary_round_aux prec64 emax64 false m e l.
Definition ceil_div (a b : Z) : result Z :=
  match true_div a b with
  | S754_finite _ m e => Ok (if e >=? 0 then Z.pos m * 2 ^ e else - (- Z.pos m / 2 ^ (- e)))
  | S754_zero _ => Ok 0
  | _ => raise OverflowError "integer division result too large for a float"
  end.

(** The two fields of the file. *)
Definition parse_quota (raw : string) : result (option Z) :=
  match str_split raw with
  | [quota; period] =>
      if bool_decide (quota = "max") then Ok None
      else match parse_int quota, parse_int period with
           | Some q, Some p => if (q <=? 0) || (p <=? 0) then Ok None else Some <$> ceil_div q p
           | _, _ => Ok None
           end
  | _ => Ok None
  end.
Definition _cgroup_cpu_quota (p : path) : io (option Z) :=
  raw ← attempt (read_bytes p);
  lift (match raw with Ok raw => if is_ascii_text raw then parse_quota raw else Ok None | Err _ => Ok None end).

(** [os.cpu_count()], and the size of the affinity mask where there is one. *)
Record Cpus := MkCpus { cpu_count : option Z; sched_affinity : option (result Z) }.

(** [machine or 1]. *)
Definition py_or_one (machine : option Z) : Z := match machine with Some m => if m =? 0 then 1 else m | None => 1 end.

Definition _resolve_cpu_allotment (cpus : Cpus) (quota : option Z) : Z * bool :=
  let affinity := match sched_affinity cpus with Some (Ok n) => n | _ => 0 end in
  let count := if 0 <? affinity then affinity else py_or_one (cpu_count cpus) in
  let constrained := (0 <? affinity) && match cpu_count cpus with Some machine => affinity <? machine | None => false end in
  let '(count, constrained) := match quota with
                               | Some q => if q <? count then (q, true) else (count, constrained)
                               | None => (count, constrained)
                               end in
  (Z.max 1 count, constrained).

Record SessionOptions := Options { intra_op_num_threads : Z; inter_op_num_threads : Z; session_entries : list (string * string) }.
Definition _build_session_options (intra_op_threads : Z) : SessionOptions :=
  Options intra_op_threads 1 [("session.intra_op.allow_spinning", "0")].

(** ** The ONNX backend *)

(** One text's inputs, by name. *)
Notation feed := (list (string * list Z)).
Definition row_items (r : token_row) : feed :=
  [("input_ids", input_ids r)] ++ match attention_mask r with Some m => [("attention_mask", m)] | None => [] end
  ++ match token_type_ids r with Some t => [("token_type_ids", t)] | None => [] end.

(** ONNX Runtime and the tokenizer: a session is made of a model file, options and providers; each of
    its outputs is an array for the batch. *)
Class OnnxHost (Tok Ses : Type) :=
  { onnxruntime_installed : bool; tokenizers_installed : bool;
    onnx_tokenizer : string → result Tok;
    tokenize_padded : Tok → Z → list string → list token_row;      (* padding=True, truncation=True *)
    inference_session : path → option SessionOptions → list string → result Ses;
    session_inputs : Ses → list string; session_outputs : Ses → list string;
    session_output : Ses → string → list feed → tensor }.

Record OnnxConfig := MkOnnxConfig
  { oc_model_name : string; oc_native_dim : Z; oc_onnx_model_path : path; oc_tokenizer_name_or_path : string;
    oc_providers : list string; oc_batch_size : Z; oc_max_seq_length : Z; oc_query_prefix : string; oc_document_prefix : string;
    oc_pooling : string; oc_normalize : bool; oc_output_name : option string; oc_intra_op_threads : option Z }.

Definition ONNXRuntimeEmbeddingBackend (c : OnnxConfig) : result OnnxConfig :=
  _ ← require_config (oc_model_name c) (oc_native_dim c) (oc_batch_size c);
  if oc_max_seq_length c <=? 0 then raise ValueError "max_seq_length must be positive"
  else if negb (str_in (oc_pooling c) ["cls"; "mean"]) then raise ValueError "pooling must be cls or mean"
  else match oc_providers c with
       | [] => raise ValueError "at least one ONNX Runtime execution provider is required"
       | _ => if match oc_intra_op_threads c with Some n => n <=? 0 | None => false end
              then raise ValueError "intra_op_threads must be positive (or None for auto)" else Ok c
       end.

Record OnnxState (Tok Ses : Type) := MkOnnxState { os_session : option Ses; os_tokenizer : option Tok }.
Arguments MkOnnxState {Tok Ses} _ _.
Arguments os_session {Tok Ses} _.
Arguments os_tokenizer {Tok Ses} _.

(** [np.asarray(value, dtype=np.float32)]. *)
Definition tensor32 (t : tensor) : tensor :=
  match t with T2 rows => T2 (map (map to_float32) rows) | T3 rows => T3 (map (map (map to_float32)) rows) | TN n => TN n end.

(** [np.vstack]. *)
Definition vstack (rows : list vec) : result (list vec) :=
  if ragged rows then raise ValueError "all the input array dimensions except for the concatenation axis must match exactly" else Ok rows.

Section onnx.
Context {TM : TensorMath} {Tok Ses : Type} {OH : OnnxHost Tok Ses} (c : OnnxConfig) (allotment : Z * bool).
Notation M := (st (OnnxState Tok Ses)).

Definition onnx_load_failed {A} (msg : string) : M A := st_lift (raise RuntimeError msg).

(** The options of the session; [None] keeps the defaults of the runtime. *)
Definition session_options : option SessionOptions :=
  match oc_intra_op_threads c with
  | Some n => Some (_build_session_options n)
  | None => if allotment.2 then Some (_build_session_options allotment.1) else None
  end.

Definition _load_session : M Ses :=
  s ← st_read Ok;
  match os_session s with
  | Some x => mret x
  | None =>
      if negb onnxruntime_installed
      then onnx_load_failed "onnxruntime is required for the ONNX embedding runtime (install it, or use a runtime that falls back to torch)."
      else
        x ← st_lift (inference_session (oc_onnx_model_path c) session_options (oc_providers c));
        _ ← st_update (λ s, MkOnnxState (Some x) (os_tokenizer s));
        mret x
  end.
Definition onnx_load_tokenizer : M Tok :=
  s ← st_read Ok;
  match os_tokenizer s with
  | Some t => mret t
  | None =>
      if negb tokenizers_installed then onnx_load_failed "transformers is required to tokenize for the ONNX embedding runtime."
      else
        t ← st_lift (onnx_tokenizer (oc_tokenizer_name_or_path c));
        _ ← st_update (λ s, MkOnnxState (os_session s) (Some t));
        mret t
  end.
Definition _tokenize (texts : list string) : M (list token_row) :=
  t ← onnx_load_tokenizer; mret (tokenize_padded t (oc_max_seq_length c) texts).

(** The inputs the graph declares, with zero segments where it wants segments and the tokenizer has none. *)
Definition run_inputs (input_names : list string) (r : token_row) : feed :=
  let inputs := List.filter (λ kv, str_in kv.1 input_names) (row_items r) in
  if str_in "token_type_ids" input_names && negb (str_in "token_type_ids" (map fst inputs)) && str_in "input_ids" (map fst inputs)
  then inputs ++ [("token_type_ids", map (λ _, 0) (input_ids r))] else inputs.

Definition run_session (session : Ses) (tokenized : list token_row) : result (list (string * tensor)) :=
  let input_names := session_inputs session in
  if forallb (λ r, Nat.eqb (length (List.filter (λ kv, str_in kv.1 input_names) (row_items r))) 0) tokenized
  then raise ValueError (oc_model_name c +:+ " ONNX graph accepted no tokenizer inputs")
  else Ok (map (λ o, (o, tensor32 (session_output session o (map (run_inputs input_names) tokenized)))) (session_outputs session)).
Definition _session_run (tokenized : list token_row) : M (list (string * tensor)) :=
  session ← _load_session; st_lift (run_session session tokenized).

Definition onnx_batch (batch : list string) : M (list vec) :=
  tokenized ← _tokenize batch;
  outputs ← _session_run tokenized;
  st_lift (_pool_onnx_output outputs tokenized (oc_pooling c) (oc_output_name c)).

Section batches.
Context {A B S : Type} (f : A → st S (list B)).
Fixpoint concatS (l : list A) : st S (list B) :=
  match l with [] => mret [] | x :: l => ys ← f x; zs ← concatS l; mret (ys ++ zs) end.
End batches.

(** Stack, normalize, validate. *)
Definition finish_rows (rows : list vec) : result (list vec) :=
  array ← vstack rows;
  let array := if oc_normalize c then _l2_normalize_rows array else array in
  _ ← _validate_embedding_array array (oc_native_dim c) (oc_model_name c);
  Ok array.

Definition onnx_encode (texts : list string) : M (list vec) :=
  match texts with
  | [] => mret []
  | _ => rows ← concatS onnx_batch (batches (Z.to_nat (oc_batch_size c)) texts); st_lift (finish_rows rows)
  end.
Definition onnx_embed_documents (texts : list string) : M (list vec) := onnx_encode (map (String.append (oc_document_prefix c)) texts).
Definition onnx_embed_query (text : string) : M vec := rows ← onnx_encode [oc_query_prefix c +:+ text]; st_lift (first_row rows).
End onnx.

(** ** Fixture embeddings *)

(** [(byte - 127.5) / 127.5]. *)
Definition half_scale : spec_float := dec_to_float false 1275 4 (-1).
Definition byte_value (b : ascii) : spec_float := fdiv (fsub (float_of_Z (Z.of_N (ord b))) half_scale) half_scale.

(** [while len(values) < dim], one step of fuel per digest. *)
Fixpoint hash_values (fuel : nat) (counter : Z) (text : string) (dim : nat) (values : vec) : result vec :=
  if Nat.leb dim (length values) then Ok values
  else match fuel with
       | O => raise OutOfFuel ""
       | S fuel => hash_values fuel (counter + 1) text dim
                     (values ++ map byte_value (sha256_digest (utf8_encode (Z_str counter +:+ ":" +:+ text))))
       end.

Definition hash_embedding `{TensorMath} (text : string) (dim : Z) : result vec :=
  if dim <=? 0 then raise ValueError "dim must be positive"
  else
    values ← hash_values (Z.to_nat dim) 0 text (Z.to_nat dim) [];
    let array := map to_float32 (take (Z.to_nat dim) values) in
    let norm := row_norm array in
    Ok (if is_zero norm then replicate (Z.to_nat dim) (S754_zero false) else divide_row array norm).

Definition HashEmbeddingBackend (native_dim : Z) : result Z :=
  if native_dim <=? 0 then raise ValueError "native_dim must be positive" else Ok native_dim.
Definition hash_embed_documents `{TensorMath} (native_dim : Z) (texts : list string) : result (list vec) :=
  mapR (λ text, hash_embedding text native_dim) texts.

(** ** The plan covers every text once *)

Section partition.
Context {A K : Type} `{EqDecision K} (f : A → K).
Definition of_key (l : list A) (k : K) : list A := List.filter (λ x, bool_decide (f x = k)) l.

Lemma of_key_none l k : (∀ x, x ∈ l → f x ≠ k) → of_key l k = [].
Proof.
  induction l as [|x l IH]; intros H; [done|]. cbn. rewrite bool_decide_eq_false_2 by (apply H; left).
  apply IH. intros. apply H. by right.
Qed.

Lemma concat_of_key l ks : NoDup ks → (∀ x, x ∈ l → f x ∈ ks) → concat (map (of_key l) ks) ≡ₚ l.
Proof.
  intros Hnd. induction l as [|x l IH]; intros Hin.
  { replace (concat (map (of_key []) ks)) with (@nil A); [done|]. clear. by induction ks. }
  rewrite <-IH at 2 by (intros; apply Hin; by right). assert (f x ∈ ks) as Hx by (apply Hin; left). clear IH Hin.
  induction Hnd as [|k ks Hk Hnd IH]; [by apply elem_of_nil in Hx|]. cbn [map concat].
  unfold of_key at 1. cbn [List.filter]. case_bool_decide as E.
  - subst k. cbn [app]. constructor. apply reflexive_eq. do 2 f_equal. apply map_ext_in. intros k Hin.
    unfold of_key. cbn [List.filter]. rewrite bool_decide_eq_false_2; [done|]. intros <-. by apply Hk, list_elem_of_In.
  - apply elem_of_cons in Hx as [Hx|Hx]; [done|]. rewrite (IH Hx). by rewrite <-Permutation_middle.
Qed.
End partition.

Lemma concat_map_concat {A B} (g : A → list (list B)) l : concat (concat (map g l)) = concat (map (λ x, concat (g x)) l).
Proof. induction l as [|x l IH]; [done|]. cbn [map concat]. by rewrite concat_app, IH. Qed.

Lemma batch_length {A} n (l b : list A) : b ∈ batches n l → (length b ≤ n)%nat.
Proof. unfold batches. intros (i & -> & _)%list_elem_of_fmap. rewrite length_take. lia. Qed.

Lemma batch_nonempty {A} n (l b : list A) : (0 < n)%nat → b ∈ batches n l → b ≠ [].
Proof.
  unfold batches. intros Hn (i & -> & Hi%list_elem_of_In%in_seq)%list_elem_of_fmap H. apply (f_equal length) in H.
  rewrite length_take, length_drop in H. cbn in H. pose proof (Nat.Div0.mul_div_le (length l + n - 1) n). nia.
Qed.

Section plan.
Context (buckets : list Z).
Notation bucket_of := (λ il : nat * Z, _select_bucket il.2 buckets).

Lemma by_bucket_lookup l m b : default [] (fold_left (add_to_bucket buckets) l m !! b)
  = default [] (m !! b) ++ map fst (of_key bucket_of l b).
Proof.
  revert m. induction l as [|il l IH]; intros m; cbn [fold_left]; [by unfold of_key; cbn; rewrite app_nil_r|].
  rewrite IH. unfold add_to_bucket, of_key. cbn [List.filter]. case_bool_decide as E.
  - rewrite E, lookup_insert_eq. cbn. by rewrite <-(assoc_L (++)).
  - by rewrite lookup_insert_ne.
Qed.

Lemma by_bucket_dom l m b : b ∈ dom (fold_left (add_to_bucket buckets) l m) ↔ b ∈ dom m ∨ ∃ il, il ∈ l ∧ bucket_of il = b.
Proof.
  revert m. induction l as [|il l IH]; intros m; cbn [fold_left].
  - split; [by left|]. intros [H|(il & H & _)]; [done|by apply elem_of_nil in H].
  - rewrite IH. unfold add_to_bucket at 1. rewrite dom_insert_L. set_solver.
Qed.

Lemma zip_seq_fst {A} k (l : list A) : map fst (zip (seq k (length l)) l) = seq k (length l).
Proof. revert k. induction l as [|x l IH]; intros k; [done|]. cbn. by rewrite IH. Qed.
Lemma zip_seq_elem {A} k (l : list A) i x : (i, x) ∈ zip (seq k (length l)) l → (k ≤ i)%nat ∧ l !! (i - k)%nat = Some x.
Proof.
  revert k. induction l as [|y l IH]; intros k; cbn; [by intros ?%elem_of_nil|]. intros [[= -> ->]|H]%elem_of_cons.
  - split; [done|]. by rewrite Nat.sub_diag.
  - apply IH in H as [H1 H2]. split; [lia|]. replace (i - k)%nat with (S (i - S k)) by lia. done.
Qed.

Lemma plan_indices lengths batch_size : 0 < batch_size →
  concat (map pl_indices (_plan_batches lengths batch_size buckets)) ≡ₚ seq 0 (length lengths).
Proof.
  intros Hb. unfold _plan_batches. set (l := zip (seq 0 (length lengths)) lengths). set (m := fold_left _ l ∅).
  rewrite concat_map, map_map.
  transitivity (concat (map (λ b, map fst (of_key bucket_of l b)) (sort_by Z.leb (elements (dom m))))).
  { apply reflexive_eq. rewrite concat_map_concat. f_equal. apply map_ext. intros b. rewrite map_map. cbn. rewrite map_id, concat_batches by lia.
    unfold m. by rewrite by_bucket_lookup, lookup_empty. }
  rewrite <-(map_map (of_key bucket_of l) (map fst)), <-concat_map. rewrite <-(zip_seq_fst 0 lengths) at 1. fold l.
  apply Permutation_map, concat_of_key.
  - rewrite sort_by_perm. apply NoDup_elements.
  - intros il Hil. apply elem_of_sort_by, elem_of_elements. unfold m. apply by_bucket_dom. right. by exists il.
Qed.

Lemma plan_batch lengths batch_size b : 0 < batch_size → b ∈ _plan_batches lengths batch_size buckets → pl_indices b ≠ [] ∧
  (length (pl_indices b) ≤ Z.to_nat batch_size)%nat ∧
  ∀ i, i ∈ pl_indices b → ∃ len, lengths !! i = Some len ∧ pl_pad_len b = _select_bucket len buckets.
Proof.
  unfold _plan_batches. intros Hpos Hb. apply list_elem_of_In, in_concat in Hb as (l & Hl & Hb).
  apply in_map_iff in Hl as (bucket & <- & _). apply in_map_iff in Hb as (ids & <- & Hids). cbn [pl_indices pl_pad_len].
  apply list_elem_of_In in Hids.
  split; [eapply batch_nonempty; [|exact Hids]; lia|]. split; [by eapply batch_length|]. intros i Hi.
  assert (i ∈ map fst (of_key bucket_of (zip (seq 0 (length lengths)) lengths) bucket)) as Hin.
  { set (m := fold_left _ _ ∅) in Hids. assert (ids ⊆ default [] (m !! bucket)) as Hsub.
    { unfold batches in Hids. apply list_elem_of_fmap in Hids as (k & -> & _). intros x Hx.
      rewrite <-(take_drop (k * Z.to_nat batch_size) (default [] _)). apply elem_of_app. right.
      rewrite <-(take_drop (Z.to_nat batch_size) (drop _ _)). apply elem_of_app. by left. }
    apply Hsub in Hi. unfold m in Hi. by rewrite by_bucket_lookup, lookup_empty in Hi. }
  apply list_elem_of_fmap in Hin as ([j len] & -> & Hin). unfold of_key in Hin.
  apply list_elem_of_In, filter_In in Hin as [Hin E]. apply bool_decide_eq_true_1 in E. apply list_elem_of_In, zip_seq_elem in Hin as [_ Hin].
  rewrite Nat.sub_0_r in Hin. exists len. by split.
Qed.

Lemma select_fits len : len ≤ List.last buckets 0 → len ≤ _select_bucket len buckets.
Proof.
  unfold _select_bucket. destruct (List.find _ buckets) as [b|] eqn:E; cbn; [|done].
  intros _. apply find_some in E as [_ E]. by apply Z.leb_le.
Qed.
End plan.

(** ** What the runtimes promise *)

Class TensorLaws (TM : TensorMath) : Prop :=
  { token_sum_zeros l zs : l ≠ [] → Forall (λ z, Forall (λ x, is_zero x = true) z ∧ length z = length (hd [] l)) zs →
      token_sum (l ++ zs) = token_sum l;
    half_round_zero dtype x : is_zero x = true → is_zero (half_round dtype x) = true }.

(** A row that is not empty and is all mask. *)
Definition well_formed (r : token_row) : Prop := input_ids r ≠ [] ∧ attention_mask r = Some (replicate (length (input_ids r)) 1).
Definition fits (n : Z) (r : token_row) : Prop := well_formed r ∧ row_length r ≤ n.

(** Padding to a length: an id of the tokenizer's, no mask, the first segment. *)
Definition padded (pad n : Z) (r : token_row) : token_row :=
  let k := (Z.to_nat n - length (input_ids r))%nat in
  Row (input_ids r ++ replicate k pad) ((.++ replicate k 0) <$> attention_mask r) ((.++ replicate k 0) <$> token_type_ids r).

(** Token vectors of the padding: finite, as wide as those of the text. *)
Definition junk_of (states : token_row → list vec) (n : Z) (r : token_row) (j : list vec) : Prop :=
  length j = (Z.to_nat n - length (input_ids r))%nat ∧
  Forall (λ v, Forall (λ x, is_finite x = true) v ∧ length v = length (hd [] (states r))) j.

(** An encoder looks at the unmasked tokens of a row only. *)
Definition row_states (states : token_row → list vec) (out : list token_row → list (list vec)) (pad : Z) : Prop :=
  (∀ r, well_formed r → length (states r) = length (input_ids r)) ∧
  ∀ n rows, Forall (fits n) rows → ∃ junk, out (map (padded pad n) rows) = zip_with (λ r j, states r ++ j) rows junk
                                           ∧ Forall2 (junk_of states n) rows junk.

Class TorchLaws {Tok Enc : Type} (TH : TorchHost Tok Enc) :=
  { pad_id : Tok → Z;
    tokenize_rows t n texts : tokenize t n texts = concat (map (λ x, tokenize t n [x]) texts);
    tokenize_one t n x : 0 < n → ∃ r, tokenize t n [x] = [r] ∧ fits n r;
    pad_rows t n rows : Forall (λ r, row_length r ≤ n) rows → tokenizer_pad t n rows = map (padded (pad_id t) n) rows;
    encoder_rows e t : ∃ states, row_states states (last_hidden_state e) (pad_id t) }.

Section pooled.
Context {TM : TensorMath} {TL : TensorLaws TM}.

Lemma round_zero dtype x : is_zero x = true → is_zero (round_to dtype x) = true.
Proof. intros H. unfold round_to. case_bool_decide; [by apply zero_float32|by apply half_round_zero]. Qed.
Lemma finite_times_zero x : is_finite x = true → is_zero (fmul x (float_of_Z 0)) = true.
Proof. by destruct x. Qed.

Lemma sum_mask_zeros l k : fold_right Z.add 0 (l ++ replicate k 0) = fold_right Z.add 0 l.
Proof. induction l as [|x l IH]; cbn; [|by rewrite IH]. induction k; cbn; [done|by rewrite IHk]. Qed.

(** The padding does not reach the mean. *)
Lemma mean_pool_padding dtype (tokens j : list vec) (mask : list Z) : tokens ≠ [] → length mask = length tokens →
  Forall (λ v, Forall (λ x, is_finite x = true) v ∧ length v = length (hd [] tokens)) j →
  mean_pool dtype (tokens ++ j) (mask ++ replicate (length j) 0) = mean_pool dtype tokens mask.
Proof.
  intros Hne Hm Hj. unfold mean_pool. rewrite sum_mask_zeros, map_app, zip_with_app by (by rewrite length_map).
  rewrite token_sum_zeros; [done| |].
  - destruct tokens, mask; done.
  - replace (length (hd [] (zip_with _ tokens (map float_of_Z mask)))) with (length (hd [] tokens)).
    2: { destruct tokens, mask; cbn; rewrite ?length_map; done. }
    induction Hj as [|v j [Hf Hl] Hj IH]; cbn; constructor; [|done]. split; [|by rewrite length_map].
    apply Forall_map. eapply Forall_impl; [exact Hf|]. intros x Hx. by apply round_zero, finite_times_zero.
Qed.

Lemma cls_pool_app (tokens j : list vec) : tokens ≠ [] → cls_pool (tokens ++ j) = cls_pool tokens.
Proof. by destruct tokens. Qed.

Lemma padded_mask pad n r : fits n r →
  attention_mask (padded pad n r) = Some (replicate (length (input_ids r)) 1 ++ replicate (Z.to_nat n - length (input_ids r)) 0).
Proof. intros [[_ Hm] _]. cbn. by rewrite Hm. Qed.
End pooled.

(** ** The compiled backend embeds each text as if alone *)

Section torch_rows.
Context {TM : TensorMath} {TL : TensorLaws TM} {Tok Enc : Type} {TH : TorchHost Tok Enc} {LW : TorchLaws TH} (c : CompiledTorchConfig).

(** The embedding of a row does not see how it is padded, nor its batch. *)
Lemma forward_rows dtype e t : ∃ emb : token_row → vec, ∀ n rows, Forall (fits n) rows →
  forward c dtype e (map (padded (pad_id t) n) rows) = Ok (map emb rows).
Proof.
  destruct (encoder_rows (TH := TH) e t) as (states & Hlen & Hrows).
  exists (λ r, match forward_row c dtype r (states r) with Ok v => v | Err _ => [] end).
  intros n rows HF. destruct (Hrows n rows HF) as (junk & Hout & HJ). unfold forward. rewrite Hout. clear Hout Hrows.
  revert junk HJ. induction HF as [|r rows Hr HF IH]; intros junk HJ; inversion HJ as [|? j ? junk' [Hjl Hj] HJ']; subst; [done|].
  change (zip_with _ (r :: rows) (j :: junk')) with ((states r ++ j) :: zip_with (λ r j, states r ++ j) rows junk').
  cbn [map]. change (zip (?a :: ?l) (?b :: ?m)) with ((a, b) :: zip l m). cbn [mapR]. destruct (Hr) as [Hw _]. specialize (Hlen r Hw) as Hl.
  assert (states r ≠ []) as Hne by (destruct Hw as [Hw _]; destruct (input_ids r), (states r); done).
  assert (∃ v, forward_row c dtype r (states r) = Ok v ∧ forward_row c dtype (padded (pad_id t) n r) (states r ++ j) = Ok v) as (v & Hv & Hp).
  { unfold forward_row. rewrite (padded_mask _ _ _ Hr). destruct Hw as [_ ->]. rewrite cls_pool_app by done.
    rewrite <-Hjl, mean_pool_padding by (done || by rewrite length_replicate). case_bool_decide; [|by eexists].
    destruct (states r); [done|by eexists]. }
  cbn [fst snd]. rewrite Hp, Hv. cbn [mbind result_bind]. by rewrite (IH _ HJ').
Qed.

Lemma scatter_rows dim (g : nat → vec) (h : nat → vec) ids (out : list vec) : (∀ i, i ∈ ids → out_row dim (g i) = Ok (h i)) →
  foldR (λ (out : list vec) ir, row ← out_row dim ir.2; Ok (<[ir.1 := row]> out)) out (zip ids (map g ids))
  = Ok (fold_left (λ (out : list vec) i, <[i := h i]> out) ids out).
Proof.
  revert out. induction ids as [|i ids IH]; intros out H; [done|]. change (zip (i :: ids) (map g (i :: ids))) with ((i, g i) :: zip ids (map g ids)).
  cbn [foldR fold_left fst snd]. rewrite (H i) by left. cbn [mbind result_bind fst snd]. apply IH. intros. apply H. by right.
Qed.

Lemma scattered_lookup (h : nat → vec) ids (out : list vec) i : (i < length out)%nat →
  fold_left (λ (out : list vec) i, <[i := h i]> out) ids out !! i = if bool_decide (i ∈ ids) then Some (h i) else out !! i.
Proof.
  revert out. induction ids as [|k ids IH]; intros out Hi; [done|]. cbn [fold_left]. rewrite IH by (by rewrite length_insert).
  repeat case_bool_decide; try done; try set_solver.
  - destruct (decide (i = k)) as [->|]; [by rewrite list_lookup_insert_eq|set_solver].
  - rewrite list_lookup_insert_ne; [done|set_solver].
Qed.
Lemma scattered_length (h : nat → vec) ids (out : list vec) : length (fold_left (λ (out : list vec) i, <[i := h i]> out) ids out) = length out.
Proof. revert out. induction ids as [|k ids IH]; intros out; [done|]. cbn. by rewrite IH, length_insert. Qed.

Lemma omap_indices {A} (l : list A) ids : (∀ i, i ∈ ids → (i < length l)%nat) →
  ∀ d, omap (λ i, l !! i) ids = map (λ i, nth i l d) ids.
Proof.
  intros H d. induction ids as [|i ids IH]; [done|]. cbn. destruct (l !! i) as [x|] eqn:E.
  - rewrite (nth_lookup_Some _ _ d _ E). f_equal. apply IH. intros. apply H. by right.
  - apply lookup_ge_None in E. specialize (H i ltac:(left)). lia.
Qed.

(** One batch writes the rows of its texts, whether or not it is filled up. *)
Lemma run_batch_rows dtype e t encoded full (emb : token_row → vec) (h : nat → vec) batch out :
  (∀ n rows, Forall (fits n) rows → forward c dtype e (map (padded (pad_id t) n) rows) = Ok (map emb rows)) →
  pl_indices batch ≠ [] → (∀ i, i ∈ pl_indices batch → ∃ r, encoded !! i = Some r ∧ fits (pl_pad_len batch) r ∧ out_row (tc_native_dim c) (emb r) = Ok (h i)) →
  run_batch c dtype e t encoded full out batch = Ok (fold_left (λ (out : list vec) i, <[i := h i]> out) (pl_indices batch) out).
Proof.
  intros Hf Hne Hb. set (ids := pl_indices batch) in *. set (n := pl_pad_len batch) in *. set (g i := nth i encoded (Row [] None None)).
  assert (omap (λ i, encoded !! i) ids = map g ids) as Hrows.
  { apply omap_indices. intros i Hi. destruct (Hb i Hi) as (r & Hr & _). by eapply lookup_lt_Some. }
  assert (∀ i, i ∈ ids → fits n (g i) ∧ out_row (tc_native_dim c) (emb (g i)) = Ok (h i)) as Hg.
  { intros i Hi. destruct (Hb i Hi) as (r & Hr & ?). unfold g. by rewrite (nth_lookup_Some _ _ _ _ Hr). }
  assert (Forall (fits n) (map g ids)) as HF. { apply Forall_map, Forall_forall. intros i Hi. by apply Hg. }
  unfold run_batch. fold ids n. rewrite Hrows, pad_rows by (eapply Forall_impl; [exact HF|by intros r [_ ?]]).
  set (feed := if full && _ then _ else _). assert (∃ k, feed = map (padded (pad_id t) n) (map g ids ++ replicate k (hd (Row [] None None) (map g ids)))
    ∧ Forall (fits n) (map g ids ++ replicate k (hd (Row [] None None) (map g ids)))) as (k & -> & HFk).
  { subst feed. destruct (full && _) eqn:E; cycle 1.
    { exists 0%nat. cbn [replicate]. by rewrite app_nil_r. }
    destruct ids as [|i ids']; [done|]. eexists. rewrite map_app. split; [f_equal; symmetry; apply (fmap_replicate (padded (pad_id t) n))|].
    apply Forall_app. split; [done|]. apply Forall_replicate. by inversion HF. }
  rewrite Hf by done. cbn [mbind result_bind].
  rewrite map_app, take_app_le, take_ge by (rewrite !length_map; lia). rewrite map_map. by apply scatter_rows; intros; apply Hg.
Qed.

(** A configuration its constructor accepts. *)
Record torch_config_ok : Prop := {
  tok_dim : 0 < tc_native_dim c; tok_batch : 0 < tc_batch_size c; tok_length : 0 < tc_max_seq_length c;
  tok_buckets : List.last (tc_pad_buckets c) 0 = tc_max_seq_length c }.
Context (Hc : torch_config_ok).

Lemma out_row_length row v : out_row (tc_native_dim c) row = Ok v → Z.of_nat (length v) = tc_native_dim c.
Proof.
  destruct Hc. unfold out_row. destruct (Z.eqb_spec (Z.of_nat (length row)) (tc_native_dim c)); [by intros [= <-]|].
  destruct row as [|x [|]]; [done| |done]. intros [= <-]. rewrite length_replicate. lia.
Qed.

Lemma encoded_rows t texts : ∃ rows, tokenize t (tc_max_seq_length c) texts = rows ∧ length rows = length texts ∧
  Forall2 (λ x r, tokenize t (tc_max_seq_length c) [x] = [r] ∧ fits (tc_max_seq_length c) r) texts rows.
Proof.
  destruct Hc. rewrite tokenize_rows. eexists. split; [reflexivity|].
  assert (Forall2 (λ x r, tokenize t (tc_max_seq_length c) [x] = [r] ∧ fits (tc_max_seq_length c) r) texts
            (concat (map (λ x, tokenize t (tc_max_seq_length c) [x]) texts))) as H.
  { induction texts as [|x texts IH]; cbn; [constructor|].
    destruct (tokenize_one t (tc_max_seq_length c) x) as (r & Hr & Hf); [done|]. rewrite Hr. by constructor. }
  split; [|done]. symmetry. by eapply Forall2_length.
Qed.

(** What the batch computes, when no row has the wrong width. *)
Lemma encode_loaded_rows s e t texts (h : nat → vec) emb : texts ≠ [] →
  (∀ n rows, Forall (fits n) rows → forward c (ct_effective_dtype s) e (map (padded (pad_id t) n) rows) = Ok (map emb rows)) →
  (∀ i x r, texts !! i = Some x → tokenize t (tc_max_seq_length c) [x] = [r] → out_row (tc_native_dim c) (emb r) = Ok (h i)) →
  encode_loaded c s e t texts = Ok (map h (seq 0 (length texts))).
Proof.
  intros Hne Hf Hh. unfold encode_loaded. destruct (encoded_rows t texts) as (rows & -> & Hlen & HF).
  destruct Hc as [Hdim Hbs _ Hlast]. set (plan := _plan_batches _ _ _). set (out0 := replicate _ _). set (full := ct_compiled s && _ && _).
  assert (∀ i r, rows !! i = Some r → fits (tc_max_seq_length c) r ∧ out_row (tc_native_dim c) (emb r) = Ok (h i)) as Hrow.
  { intros i r Hr. destruct (Forall2_lookup_r _ _ _ _ _ HF Hr) as (x & Hx & Ht & Hfit). split; [done|by eapply Hh]. }
  assert (foldR (run_batch c (ct_effective_dtype s) e t rows full) out0 plan
          = Ok (fold_left (λ (out : list vec) i, <[i := h i]> out) (concat (map pl_indices plan)) out0)) as ->.
  { assert (∀ b, b ∈ plan → ∀ out, run_batch c (ct_effective_dtype s) e t rows full out b
                                   = Ok (fold_left (λ (out : list vec) i, <[i := h i]> out) (pl_indices b) out)) as Hb.
    { intros b (Hbne & _ & Hb)%plan_batch out; [|done]. apply run_batch_rows with emb; [done..|]. intros i Hi.
      destruct (Hb i Hi) as (len & Hl & ->). apply list_lookup_fmap_Some in Hl as (r & -> & Er).
      destruct (Hrow i r Er) as [[Hw Hl] Ho]. exists r. split; [done|]. split; [split; [done|]|done].
      apply select_fits. by rewrite Hlast. }
    clear -Hb. generalize out0. induction plan as [|b plan IH]; intros out; [done|]. cbn [foldR map concat].
    rewrite Hb by left. cbn [mbind result_bind]. rewrite IH by (intros; apply Hb; by right). by rewrite fold_left_app. }
  cbn [mbind result_bind]. set (out := fold_left _ _ _).
  assert (out = map h (seq 0 (length texts))) as ->.
  { pose proof (plan_indices (tc_pad_buckets c) (map row_length rows) (tc_batch_size c) Hbs) as Hperm. fold plan in Hperm.
    rewrite length_map, Hlen in Hperm. assert (length out0 = length texts) as Ho by (unfold out0; by rewrite length_replicate).
    apply list_eq. intros i. destruct (decide (i < length texts)%nat) as [Hi|Hi].
    - unfold out. rewrite scattered_lookup by lia. rewrite bool_decide_eq_true_2.
      + symmetry. apply list_lookup_fmap_Some. exists i. by rewrite lookup_seq_lt.
      + rewrite Hperm. apply elem_of_seq. lia.
    - rewrite !lookup_ge_None_2; [done| |]; rewrite ?length_map, ?length_seq; [lia|]. unfold out. rewrite scattered_length. lia. }
  destruct texts as [|x texts]; [done|]. destruct rows as [|r rows]; [done|]. unfold _validate_embedding_array. cbn [length seq map hd].
  destruct (Hrow 0%nat r eq_refl) as [_ Ho%out_row_length]. rewrite Ho, Z.eqb_refl. done.
Qed.

Lemma plan_single len : ∃ pad, _plan_batches [len] (tc_batch_size c) (tc_pad_buckets c) = [Planned [0%nat] pad].
Proof.
  destruct Hc as [_ Hbs _ _]. pose proof (plan_indices (tc_pad_buckets c) [len] _ Hbs) as Hp.
  pose proof (plan_batch (tc_pad_buckets c) [len] (tc_batch_size c)) as Hb. set (plan := _plan_batches _ _ _) in *.
  assert (∀ b, b ∈ plan → pl_indices b ≠ []) as Hne by (intros b Hin; by apply Hb). clearbody plan. clear Hb. cbn in Hp.
  symmetry in Hp. apply Permutation_length_1_inv in Hp. destruct plan as [|[ids pad] plan]; [done|]. exists pad. cbn in Hp.
  destruct ids as [|i ids]; [by destruct (Hne (Planned [] pad)); [left|]|]. injection Hp as -> Hp.
  apply app_eq_nil in Hp as [-> Hp]. destruct plan as [|b plan]; [done|]. cbn in Hp. apply app_eq_nil in Hp as [Hp _].
  by destruct (Hne b); [right; left|].
Qed.

(** A text alone: its row is what its only batch computes. *)
Lemma encode_single s e t x r v emb :
  (∀ n rows, Forall (fits n) rows → forward c (ct_effective_dtype s) e (map (padded (pad_id t) n) rows) = Ok (map emb rows)) →
  tokenize t (tc_max_seq_length c) [x] = [r] → encode_loaded c s e t [x] = Ok [v] → out_row (tc_native_dim c) (emb r) = Ok v.
Proof.
  intros Hf Hr Hv. destruct (out_row (tc_native_dim c) (emb r)) as [w|err] eqn:Ho.
  - rewrite (encode_loaded_rows s e t [x] (λ _, w) emb) in Hv; [by injection Hv as ->|done..|].
    intros [|i] x' r' Hx Hr'; [|done]. injection Hx as <-. rewrite Hr in Hr'. by injection Hr' as <-.
  - exfalso. unfold encode_loaded in Hv. rewrite Hr in Hv. cbn [map] in Hv. destruct Hc as [_ Hbs Hml Hlast].
    destruct (plan_single (row_length r)) as (pad & Hplan). assert (fits pad r) as Hfit.
    { destruct (tokenize_one t _ x Hml) as (r' & Hr' & Hw & Hl). rewrite Hr in Hr'. injection Hr' as <-. split; [done|].
      destruct (plan_batch (tc_pad_buckets c) [row_length r] _ (Planned [0%nat] pad) Hbs) as (_ & _ & Hb); [rewrite Hplan; left|].
      destruct (Hb 0%nat) as (len & Hlen & Hpad); [left|]. injection Hlen as <-. cbn in Hpad. subst pad. apply select_fits. by rewrite Hlast. }
    rewrite Hplan in Hv. cbn [foldR] in Hv. unfold run_batch in Hv. cbn [pl_indices pl_pad_len omap list_omap lookup list_lookup length] in Hv.
    rewrite (pad_rows t pad [r]) in Hv by (constructor; [by apply Hfit|constructor]).
    replace (Z.of_nat 1 <? tc_batch_size c) with (1 <? tc_batch_size c) in Hv by done.
    replace (tc_batch_size c <? Z.of_nat 1) with false in Hv by (symmetry; apply Z.ltb_ge; lia).
    rewrite !andb_false_r in Hv. cbn [andb] in Hv. rewrite Hf in Hv by (constructor; [done|constructor]).
    cbn in Hv. by rewrite Ho in Hv.
Qed.

(** The loads come first and do not depend on the texts. *)
Lemma encode_run s texts : texts ≠ [] → (_encode c texts s).1 =
  if negb torch_installed then raise ModuleNotFoundError "No module named 'torch'"
  else match _load_model c s with
       | (Ok e, s1) => match _load_tokenizer c s1 with
                       | (Ok t, s2) => encode_loaded c s2 e t texts
                       | (Err x, _) => Err x
                       end
       | (Err x, _) => Err x
       end.
Proof.
  intros Hne. destruct texts as [|x texts]; [done|]. unfold _encode. destruct torch_installed; [|done]. cbn [negb].
  unfold mbind at 1, st_bind. destruct (_load_model c s) as [[e|err] s1]; [|done].
  unfold mbind at 1. destruct (_load_tokenizer c s1) as [[t|err] s2]; [|done]. reflexivity.
Qed.

Lemma torch_batches s texts rows : Forall2 (λ x v, (_encode c [x] s).1 = Ok [v]) texts rows → (_encode c texts s).1 = Ok rows.
Proof.
  intros HF. destruct texts as [|x0 texts0]; [by inversion HF|]. set (texts := x0 :: texts0) in *.
  rewrite encode_run by done. assert (∀ i x, texts !! i = Some x → (_encode c [x] s).1 = Ok [nth i rows []]) as Hs.
  { intros i x Hx. destruct (Forall2_lookup_l _ _ _ _ _ HF Hx) as (v & Hv & H). by rewrite (nth_lookup_Some _ _ _ _ Hv). }
  pose proof (Hs 0%nat x0 eq_refl) as H0. rewrite encode_run in H0 by done. destruct torch_installed; [|done].
  cbn [negb] in *. destruct (_load_model c s) as [[e|err] s1] eqn:El; [|done]. destruct (_load_tokenizer c s1) as [[t|err] s2] eqn:Et; [|done].
  destruct (forward_rows (ct_effective_dtype s2) e t) as (emb & Hemb).
  rewrite (encode_loaded_rows s2 e t texts (λ i, nth i rows []) emb); [|done..|].
  - f_equal. rewrite (Forall2_length _ _ _ HF). clear. apply list_eq. intros i. destruct (rows !! i) as [v|] eqn:E.
    + apply list_lookup_fmap_Some. exists i. rewrite lookup_seq_lt by (by eapply lookup_lt_Some).
      split; [|done]. symmetry. by apply nth_lookup_Some.
    + apply lookup_ge_None in E. apply lookup_ge_None_2. by rewrite length_map, length_seq.
  - intros i x r Hx Hr. eapply encode_single; [exact Hemb|exact Hr|]. specialize (Hs i x Hx). rewrite encode_run in Hs by done.
    destruct torch_installed; [|done]. by rewrite El, Et in Hs.
Qed.
End torch_rows.

(** ** The ONNX backend embeds each text as if alone *)

Class OnnxLaws {Tok Ses : Type} (OH : OnnxHost Tok Ses) :=
  { onnx_pad_id : Tok → Z;
    session_rank : Ses → string → Z;
    tokenized_rows t n texts : 0 < n → ∃ k rows, tokenize_padded t n texts = map (padded (onnx_pad_id t) k) rows ∧ Forall (fits k) rows ∧
      Forall2 (λ x r, tokenize_padded t n [x] = [r]) texts rows;
    session_rows t x o : let out rows := tensor32 (session_output x o (map (run_inputs (session_inputs x)) rows)) in
      if session_rank x o =? 2
      then ∃ emb, ∀ n rows, Forall (fits n) rows → out (map (padded (onnx_pad_id t) n) rows) = T2 (map emb rows)
      else if session_rank x o =? 3
      then ∃ states rows_out, (∀ rows, out rows = T3 (rows_out rows)) ∧ row_states states rows_out (onnx_pad_id t)
      else ∀ rows, out rows = TN (session_rank x o) }.

Section onnx_rows.
Context {TM : TensorMath} {TL : TensorLaws TM} {Tok Ses : Type} {OH : OnnxHost Tok Ses} {LW : OnnxLaws OH} (c : OnnxConfig) (allotment : Z * bool).

Definition selects (x : Ses) (o : string) : bool := (session_rank x o =? 2) || (session_rank x o =? 3).

(** The output that is selected depends on its name and rank alone. *)
Lemma select_output x (F : string → tensor) os :
  (∀ o, match F o with T2 _ | T3 _ => true | TN _ => false end = selects x o) →
  _select_onnx_embedding_output (map (λ o, (o, F o)) os) (oc_output_name c)
  = match (match oc_output_name c with Some n => List.find (λ o, bool_decide (o = n)) os | None => List.find (selects x) os end) with
    | Some o => Ok (F o)
    | None => match oc_output_name c with
              | Some n => raise ValueError ("ONNX output " +:+ str_repr n +:+ " was not returned")
              | None => raise ValueError "ONNX session returned no embedding-shaped output"
              end
    end.
Proof.
  intros Hk. unfold _select_onnx_embedding_output. destruct (oc_output_name c) as [n|].
  - assert (get_item n (map (λ o, (o, F o)) os) = F <$> List.find (λ o, bool_decide (o = n)) os) as ->.
    { unfold get_item. induction os as [|o os IH]; [done|]. cbn [map List.find fst]. case_bool_decide; [by subst|].
      rewrite <-IH. done. }
    by destruct (List.find _ os).
  - assert (List.find (λ kv : string * tensor, match kv.2 with T2 _ | T3 _ => true | TN _ => false end) (map (λ o, (o, F o)) os)
            = (λ o, (o, F o)) <$> List.find (selects x) os) as ->.
    { induction os as [|o os IH]; [done|]. cbn [map List.find snd]. rewrite Hk. by destruct (selects x o). }
    by destruct (List.find _ os).
Qed.

(** What the graph computes for a batch is computed row by row. *)
Definition pooled (x : Ses) (rows : list token_row) : result (list vec) :=
  outputs ← run_session c x rows; _pool_onnx_output outputs rows (oc_pooling c) (oc_output_name c).
Definition accepts (x : Ses) (r : token_row) : bool :=
  negb (Nat.eqb (length (List.filter (λ kv, str_in kv.1 (session_inputs x)) (row_items r))) 0).

Lemma accepts_padded x pad n r : accepts x (padded pad n r) = accepts x r.
Proof.
  unfold accepts, row_items, padded. cbn [input_ids attention_mask token_type_ids].
  destruct (attention_mask r), (token_type_ids r); cbn; by repeat destruct (str_in _ _).
Qed.

Lemma output_rows t x o : ∃ emb : result (token_row → vec), ∀ n rows, Forall (fits n) rows →
  match tensor32 (session_output x o (map (run_inputs (session_inputs x)) (map (padded (onnx_pad_id t) n) rows))) with
  | T2 rows => Ok rows
  | TN _ => raise ValueError "ONNX output must be a 2D sentence tensor or 3D token tensor"
  | T3 out => if bool_decide (oc_pooling c = "cls") then mapR cls_pool out
              else masks ← mapR mask_of (map (padded (onnx_pad_id t) n) rows); Ok (zip_with (mean_pool "float32") out masks)
  end = (emb ← emb; Ok (map emb rows)).
Proof.
  pose proof (session_rows t x o) as H. cbv zeta in H. destruct (session_rank x o =? 2); [|destruct (session_rank x o =? 3)].
  - destruct H as (emb & H). exists (Ok emb). intros n rows HF. by rewrite H.
  - destruct H as (states & out & Hout & Hlen & Hrows).
    exists (Ok (λ r, if bool_decide (oc_pooling c = "cls") then hd [] (states r)
                     else mean_pool "float32" (states r) (replicate (length (input_ids r)) 1))).
    intros n rows HF. rewrite Hout. destruct (Hrows n rows HF) as (junk & -> & HJ). clear Hout Hrows.
    cbn [mbind result_bind]. case_bool_decide as Hp.
    + revert junk HJ. induction HF as [|r rows [Hw Hl] HF IH]; intros junk HJ; inversion HJ as [|? j ? junk' Hj HJ']; subst; [done|].
      change (zip_with ?f (r :: rows) (j :: junk')) with (f r j :: zip_with f rows junk'). cbn [map mapR].
      specialize (Hlen r Hw). destruct Hw as [Hw _]. destruct (states r) as [|v vs]; [by destruct (input_ids r)|]. cbn [app cls_pool mbind result_bind].
      by rewrite (IH _ HJ').
    + revert junk HJ. induction HF as [|r rows Hr HF IH]; intros junk HJ; inversion HJ as [|? j ? junk' [Hjl Hj] HJ']; subst; [done|].
      change (zip_with ?f (r :: rows) (j :: junk')) with (f r j :: zip_with f rows junk'). cbn [map mapR].
      assert (mask_of (padded (onnx_pad_id t) n r) = Ok (replicate (length (input_ids r)) 1 ++ replicate (Z.to_nat n - length (input_ids r)) 0)) as ->
        by (unfold mask_of; by rewrite (padded_mask _ _ _ Hr)).
      cbn [mbind result_bind]. specialize (IH _ HJ').
      destruct (mapR mask_of _) as [masks|]; [|done]. cbn [mbind result_bind] in IH |- *. injection IH as IH.
      change (zip_with ?f (?a :: ?l) (?b :: ?m)) with (f a b :: zip_with f l m). rewrite IH. do 2 f_equal.
      destruct Hr as [Hw _]. specialize (Hlen r Hw). destruct Hw as [Hw _].
      rewrite <-Hjl. apply mean_pool_padding; [by destruct (states r), (input_ids r)|by rewrite length_replicate|done].
  - exists (raise ValueError "ONNX output must be a 2D sentence tensor or 3D token tensor"). intros n rows _. by rewrite H.
Qed.

Lemma pooled_rows t x : ∃ emb : result (token_row → vec), ∀ n rows, Forall (fits n) rows → existsb (accepts x) rows = true →
  pooled x (map (padded (onnx_pad_id t) n) rows) = (emb ← emb; Ok (map emb rows)).
Proof.
  set (chosen := match oc_output_name c with
                 | Some n => List.find (λ o, bool_decide (o = n)) (session_outputs x)
                 | None => List.find (selects x) (session_outputs x) end).
  assert (∃ emb : result (token_row → vec), ∀ n rows, Forall (fits n) rows →
    _pool_onnx_output (map (λ o, (o, tensor32 (session_output x o (map (run_inputs (session_inputs x)) (map (padded (onnx_pad_id t) n) rows)))))
        (session_outputs x)) (map (padded (onnx_pad_id t) n) rows) (oc_pooling c) (oc_output_name c) = (emb ← emb; Ok (map emb rows))) as (emb & Hemb).
  { assert (∀ n rows, Forall (fits n) rows → ∀ o, match tensor32 (session_output x o (map (run_inputs (session_inputs x)) (map (padded (onnx_pad_id t) n) rows))) with
        T2 _ | T3 _ => true | TN _ => false end = selects x o) as Hk.
    { intros n rows HF o. unfold selects. pose proof (session_rows t x o) as H. cbv zeta in H. destruct (session_rank x o =? 2); [|destruct (session_rank x o =? 3)].
      - destruct H as (emb & H). by rewrite H.
      - destruct H as (states & out & -> & _). done.
      - by rewrite H. }
    destruct chosen as [o|] eqn:Ec.
    - destruct (output_rows t x o) as (emb & Hemb). exists emb. intros n rows HF. rewrite <-(Hemb n rows HF). unfold _pool_onnx_output.
      rewrite (select_output x _ _ (Hk n rows HF)). fold chosen. by rewrite Ec.
    - destruct (oc_output_name c) eqn:Eo; eexists (Err _); intros n rows HF; unfold _pool_onnx_output;
        rewrite <-Eo, (select_output x _ _ (Hk n rows HF)), Eo; fold chosen; rewrite Ec; reflexivity. }
  exists emb. intros n rows HF Hin. unfold pooled, run_session.
  assert (forallb (λ r, Nat.eqb (length (List.filter (λ kv, str_in kv.1 (session_inputs x)) (row_items r))) 0) (map (padded (onnx_pad_id t) n) rows) = false) as ->.
  { apply existsb_exists in Hin as (r & Hr & Ha). apply not_true_iff_false. intros Hall. rewrite forallb_forall in Hall.
    specialize (Hall (padded (onnx_pad_id t) n r) ltac:(by apply in_map)). rewrite <-(accepts_padded x (onnx_pad_id t) n) in Ha.
    unfold accepts in Ha. by rewrite Hall in Ha. }
  by apply Hemb.
Qed.

(** The loads, then the batch. *)
Lemma onnx_batch_run s texts : onnx_batch c allotment texts s =
  match onnx_load_tokenizer c s with
  | (Ok t, s1) => match _load_session c allotment s1 with
                  | (Ok x, s2) => (pooled x (tokenize_padded t (oc_max_seq_length c) texts), s2)
                  | (Err e, s2) => (Err e, s2)
                  end
  | (Err e, s1) => (Err e, s1)
  end.
Proof.
  unfold onnx_batch, _tokenize, _session_run, mbind, st_bind. destruct (onnx_load_tokenizer c s) as [[t|e] s1]; [|done].
  cbn [mret st_ret]. destruct (_load_session c allotment s1) as [[x|e] s2]; [|done].
  unfold st_lift, pooled, mbind, result_bind. by destruct (run_session c x _).
Qed.

Lemma loads_stay s t x s1 s2 : onnx_load_tokenizer c s = (Ok t, s1) → _load_session c allotment s1 = (Ok x, s2) →
  onnx_load_tokenizer c s2 = (Ok t, s2) ∧ _load_session c allotment s2 = (Ok x, s2).
Proof.
  unfold onnx_load_tokenizer, _load_session. destruct s as [ses [tok|]]; cbn; intros Ht Hs.
  - injection Ht as <- <-. destruct ses as [y|]; cbn in Hs; [injection Hs as <- <-; done|].
    destruct onnxruntime_installed; [|done]. cbn in Hs. destruct (inference_session _ _ _); [|done]. by injection Hs as <- <-.
  - destruct tokenizers_installed; [|done]. cbn in Ht. destruct (onnx_tokenizer _); [|done]. cbn in Ht. injection Ht as <- <-.
    destruct ses as [y|]; cbn in Hs; [injection Hs as <- <-; done|].
    destruct onnxruntime_installed; [|done]. cbn in Hs. destruct (inference_session _ _ _); [|done]. by injection Hs as <- <-.
Qed.

Lemma concatS_rows {A B S} (f : A → st S (list B)) (g : A → list B) l s s' : l ≠ [] →
  (∀ a, a ∈ l → f a s = (Ok (g a), s') ∧ f a s' = (Ok (g a), s')) → concatS f l s = (Ok (concat (map g l)), s').
Proof.
  destruct l as [|a l]; [done|]. intros _ H. assert (∀ a, a ∈ l → f a s' = (Ok (g a), s')) as Hl by (intros; apply H; by right).
  destruct (H a ltac:(left)) as [Ha _]. clear H. cbn [concatS map concat]. unfold mbind at 1, st_bind. rewrite Ha.
  assert (concatS f l s' = (Ok (concat (map g l)), s')) as Hrest.
  { clear Ha a. induction l as [|a l IH]; [done|]. cbn [concatS map concat]. unfold mbind at 1, st_bind. rewrite Hl by left.
    unfold mbind at 1. by rewrite IH by (intros; apply Hl; by right). }
  unfold mbind at 1. by rewrite Hrest.
Qed.

Definition finish_row (row : vec) : vec := if oc_normalize c then _l2_normalize_row row else row.
Lemma finish_row_length row : length (finish_row row) = length row.
Proof. unfold finish_row, _l2_normalize_row, divide_row. destruct (oc_normalize c); [by rewrite length_map|done]. Qed.

Lemma finish_rows_Ok rows : rows ≠ [] → Forall (λ r, Z.of_nat (length r) = oc_native_dim c) rows → finish_rows c rows = Ok (map finish_row rows).
Proof.
  intros Hne HF. unfold finish_rows, vstack. destruct rows as [|r rows]; [done|]. inversion HF as [|? ? Hr HF']; subst.
  assert (ragged (r :: rows) = false) as ->.
  { unfold ragged. apply negb_false_iff, forallb_forall. intros r' Hin%list_elem_of_In. apply Nat.eqb_eq.
    rewrite Forall_forall in HF'. specialize (HF' r' Hin). lia. }
  cbn [mbind result_bind]. assert ((if oc_normalize c then _l2_normalize_rows (r :: rows) else r :: rows) = map finish_row (r :: rows)) as ->.
  { unfold finish_row, _l2_normalize_rows. destruct (oc_normalize c); [done|by rewrite map_id]. }
  unfold _validate_embedding_array. cbn [map hd]. by rewrite finish_row_length, Hr, Z.eqb_refl.
Qed.

Lemma finish_single row v : finish_rows c [row] = Ok [v] → v = finish_row row ∧ Z.of_nat (length row) = oc_native_dim c.
Proof.
  unfold finish_rows, vstack. cbn [ragged forallb negb mbind result_bind].
  assert ((if oc_normalize c then _l2_normalize_rows [row] else [row]) = [finish_row row]) as ->.
  { unfold finish_row, _l2_normalize_rows. by destruct (oc_normalize c). }
  unfold _validate_embedding_array. cbn [hd]. rewrite finish_row_length.
  destruct (Z.eqb_spec (Z.of_nat (length row)) (oc_native_dim c)); [|done]. cbn. by intros [= <-].
Qed.

Context (Hbatch : 0 < oc_batch_size c) (Hlength : 0 < oc_max_seq_length c).

Lemma batches_single {A} (a : A) n : (0 < n)%nat → batches n [a] = [[a]].
Proof. intros Hn. unfold batches. cbn [length]. replace ((1 + n - 1) / n)%nat with 1%nat; [destruct n; [lia|]; cbn; by rewrite take_nil|]. replace (1 + n - 1)%nat with n by lia. by rewrite Nat.div_same by lia. Qed.

(** A text alone, once everything is loaded. *)
Lemma onnx_single s y v t x s1 s2 (emb : result (token_row → vec)) r :
  onnx_load_tokenizer c s = (Ok t, s1) → _load_session c allotment s1 = (Ok x, s2) →
  (∀ n rows, Forall (fits n) rows → existsb (accepts x) rows = true → pooled x (map (padded (onnx_pad_id t) n) rows) = (emb ← emb; Ok (map emb rows))) →
  tokenize_padded t (oc_max_seq_length c) [y] = [r] → (onnx_encode c allotment [y] s).1 = Ok [v] →
  accepts x r = true ∧ ∃ f, emb = Ok f ∧ v = finish_row (f r) ∧ Z.of_nat (length (f r)) = oc_native_dim c.
Proof.
  intros Ht Hx Hemb Hr Hv. unfold onnx_encode in Hv. rewrite batches_single in Hv by lia. cbn [concatS] in Hv.
  unfold mbind, st_bind in Hv. rewrite onnx_batch_run, Ht, Hx, Hr in Hv.
  destruct (tokenized_rows t _ [y] Hlength) as (k & rows & Hrows & HF & HF2).
  inversion HF2 as [|? r0 ? ? Hr0 HF2']; subst. inversion HF2'; subst. rewrite Hr in Hr0. injection Hr0 as <-.
  rewrite Hr in Hrows. cbn [map] in Hrows. injection Hrows as Hrows.
  assert (accepts x r = true) as Ha.
  { apply not_false_iff_true. intros Ha. unfold pooled, run_session in Hv. cbn [forallb] in Hv. apply negb_false_iff in Ha. by rewrite Ha in Hv. }
  split; [done|]. rewrite Hrows in Hv. specialize (Hemb k [r] HF). cbn [map existsb] in Hemb. rewrite Ha in Hemb. rewrite Hemb in Hv by done.
  destruct emb as [f|e]; [|done]. exists f. split; [done|]. cbn in Hv. by apply finish_single.
Qed.

Lemma onnx_batches s texts rows : Forall2 (λ x v, (onnx_encode c allotment [x] s).1 = Ok [v]) texts rows →
  (onnx_encode c allotment texts s).1 = Ok rows.
Proof.
  intros HF. destruct texts as [|y0 texts0]; [by inversion HF|]. set (texts := y0 :: texts0) in *.
  assert (∃ t s1 x s2, onnx_load_tokenizer c s = (Ok t, s1) ∧ _load_session c allotment s1 = (Ok x, s2)) as (t & s1 & x & s2 & Ht & Hx).
  { inversion HF as [|? v0 ? ? H0 _]; subst. unfold onnx_encode in H0. rewrite batches_single in H0 by lia. cbn [concatS] in H0.
    unfold mbind, st_bind in H0. rewrite onnx_batch_run in H0. destruct (onnx_load_tokenizer c s) as [[t|] s1]; [|done].
    destruct (_load_session c allotment s1) as [[x|] s2] eqn:Hx; [|done]. by exists t, s1, x, s2. }
  destruct (pooled_rows t x) as (emb & Hemb). pose (row y := hd (Row [] None None) (tokenize_padded t (oc_max_seq_length c) [y])).
  assert (∀ y, tokenize_padded t (oc_max_seq_length c) [y] = [row y]) as Hrow.
  { intros y. destruct (tokenized_rows t _ [y] Hlength) as (k & rs & _ & _ & HF2). inversion HF2 as [|? r ? ? Hr ?]; subst. unfold row. by rewrite Hr. }
  assert (∃ f, emb = Ok f) as (f & ->).
  { inversion HF as [|? v0 ? ? H0 _]; subst. destruct (onnx_single s y0 v0 t x s1 s2 emb (row y0)) as (_ & f & ? & _); eauto. }
  assert (∀ y, y ∈ texts → accepts x (row y) = true ∧ Z.of_nat (length (f (row y))) = oc_native_dim c) as Hy.
  { intros y (i & Hi)%list_elem_of_lookup. destruct (Forall2_lookup_l _ _ _ _ _ HF Hi) as (v & _ & Hv).
    destruct (onnx_single s y v t x s1 s2 (Ok f) (row y)) as (? & f' & [= <-] & _ & ?); eauto. }
  assert (rows = map finish_row (map (λ y, f (row y)) texts)) as ->.
  { rewrite map_map. clear Hy. induction HF as [|y v l vs Hv HF IH]; [done|]. cbn [map]. rewrite <-IH. f_equal.
    by destruct (onnx_single s y v t x s1 s2 (Ok f) (row y)) as (_ & f' & [= <-] & -> & _). }
  assert (onnx_encode c allotment texts s = (rows ← concatS (onnx_batch c allotment) (batches (Z.to_nat (oc_batch_size c)) texts); st_lift (finish_rows c rows)) s) as -> by done.
  unfold mbind, st_bind. rewrite (concatS_rows (onnx_batch c allotment) (map (λ y, f (row y))) _ _ s2).
  - rewrite <-concat_map, concat_batches by lia. apply finish_rows_Ok; [done|]. apply Forall_map, Forall_forall. intros y Hin. by apply Hy.
  - intros E. assert (concat (batches (Z.to_nat (oc_batch_size c)) texts) = []) as E' by (by rewrite E). by rewrite concat_batches in E' by lia.
  - intros b Hb. assert (∀ y, y ∈ b → y ∈ texts) as Hsub.
    { intros y Hin. rewrite <-(concat_batches (Z.to_nat (oc_batch_size c)) texts) by lia. apply list_elem_of_In, in_concat. exists b. by rewrite <-!list_elem_of_In. }
    destruct (tokenized_rows t _ b Hlength) as (k & rs & Hrs & Hfit & HF2).
    assert (rs = map row b) as ->.
    { clear -HF2 Hrow. induction HF2 as [|y r b rs Hr HF2 IH]; [done|]. cbn. rewrite <-IH. f_equal. rewrite Hrow in Hr. by injection Hr. }
    assert (pooled x (tokenize_padded t (oc_max_seq_length c) b) = Ok (map (λ y, f (row y)) b)) as Hp.
    { rewrite Hrs, Hemb; [by rewrite <-(map_map row f)|done|]. apply batch_nonempty in Hb; [|lia]. destruct b as [|y b]; [done|].
      cbn. destruct (Hy y) as [-> _]; [apply Hsub; left|done]. }
    destruct (loads_stay s t x s1 s2 Ht Hx) as [Ht2 Hx2]. rewrite !onnx_batch_run, Ht, Hx, Ht2, Hx2, Hp. done.
Qed.
End onnx_rows.

(** ** Properties *)

Lemma torch_config_made {Tok Enc} name dim device bs ml qp dp pooling normalize mode dtype pads c (s0 : CompiledTorch Tok Enc) :
  CompiledTorchEmbeddingBackend name dim device bs ml qp dp pooling normalize mode dtype pads = Ok (c, s0) → torch_config_ok c.
Proof.
  unfold CompiledTorchEmbeddingBackend, require_config. repeat case_bool_decide; try done.
  destruct (Z.leb_spec dim 0); [done|]. destruct (Z.leb_spec bs 0); [done|]. cbn [mbind result_bind]. destruct (Z.leb_spec ml 0); [done|].
  destruct (negb (str_in pooling _)); [done|]. destruct (negb (str_in dtype _)); [done|]. intros [= <- _].
  constructor; cbn; try lia. unfold _resolve_pad_buckets. apply last_last.
Qed.

(** C34: batching is invisible: for both backends that batch texts themselves, whatever the batch size, the pad
    buckets, the pooling, the truncation and the rows a GPU batch is filled up with, and in whatever state of lazy loading, the documents of one call
    get, in their order, the vectors each of them gets in a call of its own. The tokenizer and the
    encoder are arbitrary but treat rows apart and masked tokens as absent. *)
Theorem batching_is_invisible {TM : TensorMath} {TL : TensorLaws TM} {Tok Enc TokO Ses : Type} {TH : TorchHost Tok Enc} {LT : TorchLaws TH}
    {OH : OnnxHost TokO Ses} {LO : OnnxLaws OH} name dim device bs ml qp dp pooling normalize mode dtype pads
    (c : CompiledTorchConfig) (s0 s : CompiledTorch Tok Enc) (oc : OnnxConfig) (allotment : Z * bool) (os : OnnxState TokO Ses)
    (texts : list string) (rows : list vec) :
  CompiledTorchEmbeddingBackend name dim device bs ml qp dp pooling normalize mode dtype pads = Ok (c, s0) →
  ONNXRuntimeEmbeddingBackend oc = Ok oc →
  (Forall2 (λ x v, (embed_documents c [x] s).1 = Ok [v]) texts rows → (embed_documents c texts s).1 = Ok rows) ∧
  (Forall2 (λ x v, (onnx_embed_documents oc allotment [x] os).1 = Ok [v]) texts rows → (onnx_embed_documents oc allotment texts os).1 = Ok rows).
Proof.
  intros Hc%torch_config_made Ho. unfold embed_documents, onnx_embed_documents. split; intros HF.
  - apply torch_batches; [done|]. by apply Forall2_fmap_l.
  - assert (0 < oc_batch_size oc ∧ 0 < oc_max_seq_length oc) as [Hb Hm].
    { unfold ONNXRuntimeEmbeddingBackend, require_config in Ho. case_bool_decide; [done|]. destruct (oc_native_dim oc <=? 0); [done|].
      destruct (Z.leb_spec (oc_batch_size oc) 0); [done|]. cbn [mbind result_bind] in Ho. destruct (Z.leb_spec (oc_max_seq_length oc) 0); [done|]. lia. }
    apply onnx_batches; [done..|]. by apply Forall2_fmap_l.
Qed.

(** The plan visits every text once, no batch is empty or too large, and every text fits the length its
    batch is padded to. *)
Theorem plan_covers_once lengths batch_size max_seq_length pad_buckets :
  0 < batch_size → Forall (λ len, len ≤ max_seq_length) lengths →
  let plan := _plan_batches lengths batch_size (_resolve_pad_buckets max_seq_length pad_buckets) in
  concat (map pl_indices plan) ≡ₚ seq 0 (length lengths) ∧
  ∀ b, b ∈ plan → pl_indices b ≠ [] ∧ Z.of_nat (length (pl_indices b)) ≤ batch_size ∧
    ∀ i, i ∈ pl_indices b → ∃ len, lengths !! i = Some len ∧ len ≤ pl_pad_len b.
Proof.
  intros Hb HF. cbv zeta. split; [by apply plan_indices|]. intros b (Hne & Hlen & Hi)%plan_batch; [|done]. split; [done|]. split; [lia|].
  intros i (len & Hl & ->)%Hi. exists len. split; [done|]. apply select_fits. unfold _resolve_pad_buckets. rewrite last_last.
  rewrite Forall_lookup in HF. by eapply HF.
Qed.

(** The thread pool gets at least one thread, and never more than the affinity mask (else the machine)
    and the quota allow; without either constraint the defaults of the runtime are kept. *)
Theorem cpu_allotment_bounds cpus quota : let '(n, constrained) := _resolve_cpu_allotment cpus quota in
  1 ≤ n ∧ (∀ m a, cpu_count cpus = Some m → sched_affinity cpus = Some (Ok a) → 0 < a → n ≤ Z.max 1 a) ∧
  (∀ q, quota = Some q → n ≤ Z.max 1 q) ∧
  (constrained = false → sched_affinity cpus = None → n = Z.max 1 (py_or_one (cpu_count cpus))).
Proof.
  unfold _resolve_cpu_allotment. destruct (sched_affinity cpus) as [[a|]|]; destruct quota as [q|]; cbn [Z.ltb Z.compare];
    repeat match goal with |- context [?x <? ?y] => destruct (Z.ltb_spec x y) end; repeat split; intros; simplify_eq; cbn in *; try lia; try done.
  destruct (Z.ltb_spec 0 a0); lia.
Qed.

(** An image with more pixels than the limit is never decoded. *)
Theorem oversized_image_not_decoded {Image} {P : Pillow Image} env item image : _load_image env item = Ok image →
  ∃ limit opened, _max_image_pixels env = Ok limit ∧ image_convert opened = Ok image ∧ (image_size opened).1 * (image_size opened).2 ≤ limit.
Proof.
  unfold _load_image. destruct pillow_installed; [|done]. cbn [negb]. destruct (_max_image_pixels env) as [limit|]; [|done]. cbn [mbind result_bind].
  assert (∀ i, opened_image limit i = Ok image → ∃ limit' opened, Ok limit = Ok limit' ∧ image_convert opened = Ok image ∧
            (image_size opened).1 * (image_size opened).2 ≤ limit') as Hopen.
  { intros i. unfold opened_image, _reject_oversized_image. destruct (Z.ltb_spec limit ((image_size i).1 * (image_size i).2)); [done|].
    cbn. intros Hconv. by exists limit, i. }
  destruct item; try done; [by apply Hopen|..]; unfold open_image_source; destruct (image_open _) as [|[i|]]; try done; cbn; apply Hopen.
Qed.

Lemma digest_length data : length (sha256_digest data) = 32%nat.
Proof. unfold sha256_digest. cbn [map concat]. by rewrite !length_app, !length_reverse, !length_le_bytes. Qed.

Lemma hash_values_enough dim text fuel : ∀ counter values, (dim ≤ length values + fuel)%nat →
  ∃ out, hash_values fuel counter text dim values = Ok out ∧ (dim ≤ length out)%nat.
Proof.
  induction fuel as [|fuel IH]; intros counter values Hf; cbn [hash_values].
  - destruct (Nat.leb_spec dim (length values)); [by eexists|lia].
  - destruct (Nat.leb_spec dim (length values)); [by eexists|]. apply IH. rewrite length_app, length_map, digest_length. lia.
Qed.

(** The fixture backend always ends, with a vector of the dimension asked for. *)
Theorem hash_embedding_total {TM : TensorMath} text dim : 0 < dim → ∃ v, hash_embedding text dim = Ok v ∧ Z.of_nat (length v) = dim.
Proof.
  intros Hd. unfold hash_embedding. destruct (Z.leb_spec dim 0); [lia|].
  destruct (hash_values_enough (Z.to_nat dim) text (Z.to_nat dim) 0 []) as (values & -> & Hl); [cbn; lia|]. cbn [mbind result_bind].
  eexists. split; [reflexivity|]. assert (length (map to_float32 (take (Z.to_nat dim) values)) = Z.to_nat dim) as Hn
    by (rewrite length_map, length_take; lia).
  destruct (is_zero _); [rewrite length_replicate; lia|]. unfold divide_row. rewrite length_map. lia.
Qed.

(** ** On concrete data *)

Definition plain_token_sum (l : list vec) : vec :=
  let rows := List.filter (λ r, negb (forallb is_zero r)) l in
  map (λ i, fold_left fadd (map (λ r, nth i r (S754_zero false)) rows) (S754_zero false)) (seq 0 (length (hd [] l))).
Definition plain_math : TensorMath := {| token_sum := plain_token_sum; row_norm r := fsqrt (sum_squares r); half_round _ := to_float32 |}.
Lemma plain_math_laws : TensorLaws plain_math.
Proof.
  constructor; [|by intros ? x; apply zero_float32]. intros l zs Hne HF. cbn. unfold plain_token_sum.
  assert (hd [] (l ++ zs) = hd [] l) as -> by (by destruct l). f_equal.
  replace (List.filter (λ r, negb (forallb is_zero r)) (l ++ zs)) with (List.filter (λ r, negb (forallb is_zero r)) l); [done|].
  rewrite List.filter_app. replace (List.filter _ zs) with (@nil vec); [by rewrite app_nil_r|].
  induction HF as [|z zs [Hz _] HF IH]; [done|]. cbn. rewrite <-IH. replace (forallb is_zero z) with true; [done|].
  symmetry. apply forallb_forall. rewrite Forall_forall in Hz. intros x Hx. apply Hz. by apply list_elem_of_In.
Qed.

(** A token per letter after a first one; a token's vector depends on its id alone. *)
Definition demo_row (n : Z) (x : string) : token_row :=
  let ids := take (Z.to_nat n) (101 :: map (λ a, Z.of_N (ord a)) (chars x)) in Row ids (Some (replicate (length ids) 1)) None.
Definition demo_token (id : Z) : vec := map to_float32 [if id <? 98 then f_one else float_of_Z 2; f_one].
Definition demo_torch : TorchHost unit unit :=
  {| torch_installed := true; transformers_installed := true; is_bf16_supported := true;
     auto_model _ _ _ := Ok tt; torch_compile _ := true; auto_tokenizer _ := Ok tt;
     tokenize _ n texts := map (demo_row n) texts; tokenizer_pad _ n rows := map (padded 0 n) rows;
     last_hidden_state _ rows := map (λ r, map demo_token (input_ids r)) rows |}.

Lemma demo_row_fits n x : 0 < n → fits n (demo_row n x).
Proof.
  intros Hn. split; [split; [|done]|].
  - unfold demo_row. cbn [input_ids]. destruct (Z.to_nat n) eqn:E; [lia|done].
  - unfold row_length, demo_row. cbn [input_ids]. rewrite length_take. lia.
Qed.
Lemma demo_states_rows out : (∀ rows, out rows = map (λ r, map demo_token (input_ids r)) rows) →
  row_states (λ r, map demo_token (input_ids r)) out 0.
Proof.
  intros Ho. split; [intros r _; by rewrite length_map|]. intros n rows HF. rewrite Ho.
  exists (map (λ r, replicate (Z.to_nat n - length (input_ids r)) (demo_token 0)) rows).
  induction HF as [|r rows [[Hne _] _] HF [IH IHJ]]; [done|]. cbn [map]. split.
  - change (zip_with ?f (?a :: ?l) (?b :: ?m)) with (f a b :: zip_with f l m). rewrite <-IH. f_equal.
    cbn [padded input_ids]. rewrite map_app. f_equal. apply (fmap_replicate demo_token).
  - constructor; [|done]. split; [by rewrite length_replicate|]. apply Forall_replicate. split; [by vm_compute; repeat constructor|].
    by destruct (input_ids r).
Qed.
Definition demo_torch_laws : TorchLaws demo_torch.
Proof.
  refine {| pad_id := λ _ : unit, 0 |}.
  - intros t n texts. cbn. induction texts as [|x texts IH]; [done|]. cbn. by rewrite IH.
  - intros t n x Hn. exists (demo_row n x). split; [done|by apply demo_row_fits].
  - done.
  - intros e t. eexists. by apply demo_states_rows.
Defined.

Definition longest (rows : list token_row) : Z := fold_right Z.max 0 (map row_length rows).
Definition demo_onnx : OnnxHost unit unit :=
  {| onnxruntime_installed := true; tokenizers_installed := true; onnx_tokenizer _ := Ok tt;
     tokenize_padded _ n texts := let rows := map (demo_row n) texts in map (padded 0 (longest rows)) rows;
     inference_session _ _ _ := Ok tt; session_inputs _ := ["input_ids"; "attention_mask"; "token_type_ids"]; session_outputs _ := ["last_hidden_state"];
     session_output _ _ feeds := T3 (map (λ f, map demo_token (default [] (get_item "input_ids" f))) feeds) |}.

Lemma longest_fits rows : Forall well_formed rows → Forall (fits (longest rows)) rows.
Proof.
  intros HF. apply Forall_forall. intros r Hr. split; [rewrite Forall_forall in HF; by apply HF|]. clear HF. unfold longest.
  induction rows as [|r' rows IH]; [by apply elem_of_nil in Hr|]. cbn. apply elem_of_cons in Hr as [->|Hr]; [lia|]. specialize (IH Hr). lia.
Qed.
Lemma padded_alone r : well_formed r → token_type_ids r = None → padded 0 (longest [r]) r = r.
Proof.
  intros [_ Hm] Ht. destruct r as [ids mask types]. cbn in Hm, Ht |- *. subst. unfold padded, longest, row_length. cbn.
  replace (Z.to_nat (Z.of_nat (length ids) `max` 0) - length ids)%nat with 0%nat by lia. cbn. by rewrite !app_nil_r.
Qed.
Definition demo_onnx_laws : OnnxLaws demo_onnx.
Proof.
  refine {| onnx_pad_id := λ _ : unit, 0; session_rank := λ _ _, 3 |}.
  - intros t n texts Hn. exists (longest (map (demo_row n) texts)), (map (demo_row n) texts). cbn.
    assert (Forall well_formed (map (demo_row n) texts)) as HF by (apply Forall_map, Forall_forall; intros x _; by apply demo_row_fits).
    split; [done|]. split; [by apply longest_fits|]. clear HF. induction texts as [|x texts IH]; constructor; [|done].
    f_equal. apply padded_alone; [by apply demo_row_fits|done].
  - intros t x o. cbn. exists (λ r, map demo_token (input_ids r)), (λ rows, map (λ r, map demo_token (input_ids r)) rows).
    split; [|by apply demo_states_rows]. intros rows. f_equal. rewrite !map_map. apply map_ext. intros [ids mask types].
    assert (default [] (get_item "input_ids" (run_inputs ["input_ids"; "attention_mask"; "token_type_ids"] (Row ids mask types))) = ids) as ->
      by (by destruct mask, types). rewrite map_map. apply map_ext. intros id. unfold demo_token.
    destruct (id <? 98); by vm_compute.
Defined.

Definition demo_compiled : result (CompiledTorchConfig * CompiledTorch unit unit) :=
  CompiledTorchEmbeddingBackend "m" 2 "cuda" 2 4 "" "d " "mean" true "reduce-overhead" "bfloat16" (Some [2; 3]).
Definition demo_torch_config : CompiledTorchConfig := TorchConfig "m" 2 "cuda" 2 4 "" "d " "mean" true "reduce-overhead" "bfloat16" [2; 3; 4].
Definition demo_torch_state : CompiledTorch unit unit := CompiledState None None false "bfloat16".
Definition demo_onnx_config : OnnxConfig :=
  MkOnnxConfig "m" 2 ["model.onnx"] "t" ["CPUExecutionProvider"] 2 4 "" "d " "mean" true None None.
Definition demo_texts : list string := ["bb"; "c"; "abb"; ""; "cc"].
Definition alone (encode : list string → result (list vec)) (x : string) : vec := match encode [x] with Ok [v] => v | _ => [] end.

(** Texts of different lengths, in batches of two, the last one filled up. *)
Example demo_plan : _plan_batches [3; 2; 4; 1; 3] 2 [2; 3; 4]
  = [Planned [1%nat; 3%nat] 2; Planned [0%nat; 4%nat] 3; Planned [2%nat] 4].
Proof. by vm_compute. Qed.
Example demo_vectors_differ : alone (λ x, (embed_documents (TM := plain_math) (TH := demo_torch) demo_torch_config x demo_torch_state).1) "bb"
  ≠ alone (λ x, (embed_documents (TM := plain_math) (TH := demo_torch) demo_torch_config x demo_torch_state).1) "abb".
Proof. by vm_compute. Qed.

Lemma batching_is_invisible_witness :
  let torch := λ x, (embed_documents (TM := plain_math) (TH := demo_torch) demo_torch_config x demo_torch_state).1 in
  let onnx := λ x, (onnx_embed_documents (TM := plain_math) (OH := demo_onnx) demo_onnx_config (4, false) x (MkOnnxState None None)).1 in
  torch demo_texts = Ok (map (alone torch) demo_texts) ∧ onnx demo_texts = Ok (map (alone onnx) demo_texts).
Proof.
  intros torch onnx. assert (∀ rows, Forall2 (λ x v, torch [x] = Ok [v]) demo_texts rows → torch demo_texts = Ok rows) as Ht.
  { intros rows. apply (@batching_is_invisible plain_math plain_math_laws unit unit unit unit demo_torch demo_torch_laws demo_onnx demo_onnx_laws
      "m" 2 "cuda" 2 4 "" "d " "mean" true "reduce-overhead" "bfloat16" (Some [2; 3]) demo_torch_config demo_torch_state demo_torch_state
      demo_onnx_config (4, false) (MkOnnxState None None) demo_texts rows); reflexivity. }
  assert (∀ rows, Forall2 (λ x v, onnx [x] = Ok [v]) demo_texts rows → onnx demo_texts = Ok rows) as Ho.
  { intros rows. apply (@batching_is_invisible plain_math plain_math_laws unit unit unit unit demo_torch demo_torch_laws demo_onnx demo_onnx_laws
      "m" 2 "cuda" 2 4 "" "d " "mean" true "reduce-overhead" "bfloat16" (Some [2; 3]) demo_torch_config demo_torch_state demo_torch_state
      demo_onnx_config (4, false) (MkOnnxState None None) demo_texts rows); reflexivity. }
  split; [apply Ht|apply Ho]; repeat constructor; by vm_compute.
Defined.
