(* ===== verification/OnnxArtifacts.v ===== *)
(** * ONNX artifacts

    [local/onnx_artifacts.py]: the cache of model files. A model comes from the cache, from a snapshot of the
    Hugging Face Hub, or from an export that runs as a subprocess; whatever was fetched is copied file by
    file into the cache directory, and a manifest with the size, time and digest of the model
    commits it. The hub, the exporter, the clock of the file system, the order of directory listings and the random
    part of temporary names are the class [OnnxWorld]. The lock of a cache directory is taken at once:
    one process at a time is modelled. *)

From Stdlib Require Import Ascii String ZArith Lia SpecFloat.
From stdpp Require Import base strings gmap sets list.
From S2P Require Import Prelude Numbers PyVal Bytes Json FileSys Predicate EngineCore LocalOpen CommitManifest DirTree Collection CloudConfig.

Local Open Scope Z_scope.

Definition _SNAPSHOT_ALLOW_PATTERNS : list string :=
  ["onnx/model.onnx"; "model.onnx"; "config.json"; "tokenizer.json"; "tokenizer_config.json"; "special_tokens_map.json";
   "vocab.txt"; "merges.txt"; "sentencepiece.bpe.model"; "sentence_bert_config.json"].
Definition _TOKENIZER_SUFFIXES : list string := [".json"; ".txt"; ".model"].
Definition _CACHE_MANIFEST_NAME : string := "artifact.json".
Definition _CACHE_SCHEMA_VERSION : Z := 1.
Definition _DEFAULT_ONNX_EXPORT_TIMEOUT_SECONDS : Z := 30 * 60.
Definition _ONNX_CACHE_VERIFY_ENV : string := "LODEDB_ONNX_CACHE_VERIFY".

Record OnnxArtifact := Artifact { oa_model_name : string; oa_model_path : path; oa_tokenizer_dir : path; oa_source : string }.

(** What became of the exporter. *)
Inductive export_outcome := Exported | ExportTimeout | ExporterMissing | ExportFailed (stderr : string).

(** The world around the cache. [snapshot_download] is [None] when [huggingface_hub] is not installed. *)
Class OnnxWorld :=
  { ow_env : gmap string string; ow_home : path; expanded : string → path;
    mtime_ns : fsys → path → Z; scan_order : list path → list path; temp_token : fsys → string;
    snapshot_download : option (string → list string → io path);
    optimum_cli : option string; sys_executable : string;
    run_export : list string → spec_float → path → io export_outcome }.

Section cache.
Context {W : OnnxWorld}.

Definition onnx_cache_root : path :=
  match ow_env !! "LODEDB_ONNX_CACHE" with
  | Some (String _ _ as override) => expanded override
  | _ => "onnx" :: "lodedb" :: ".cache" :: ow_home
  end.

(** [model_name.replace("/", "__").replace("\\", "__")]. *)
Definition sanitize_char (c : ascii) : list ascii :=
  if bool_decide (c = "/"%char) || bool_decide (c = backslash) then ["_"%char; "_"%char] else [c].
Definition sanitized (model_name : string) : string := of_chars (concat (map sanitize_char (chars model_name))).
Definition _model_cache_dir (model_name : string) : path := pjoin onnx_cache_root (sanitized model_name).

(** [root.rglob("*")]: everything below a directory, in the order of the listing. *)
Definition rglob (s : fsys) (root : path) : list path :=
  scan_order (List.filter (λ p, below root p && negb (bool_decide (p = root))) (map fst (map_to_list (files s)) ++ elements (dirs s))).

(** The order of paths: that of their components. *)
Fixpoint parts_leb (a b : list string) : bool :=
  match a, b with
  | [], _ => true
  | _, [] => false
  | x :: a, y :: b => if bool_decide (x = y) then parts_leb a b else str_leb x y
  end.
Definition path_leb (p q : path) : bool := parts_leb (reverse p) (reverse q).

Definition _find_onnx_file (root : path) : io (option path) :=
  let direct := pjoin root "model.onnx" in
  there ← is_file direct;
  if there : bool then mret (Some direct)
  else
    candidates ← gets (λ s, sort_by path_leb (List.filter (λ p, endswith ".onnx" (pname p)) (rglob s root)));
    mret (hd_error candidates).

Definition _has_tokenizer (root : path) : io bool :=
  fast ← is_file (pjoin root "tokenizer.json");
  if fast : bool then mret true else is_file (pjoin root "vocab.txt").

(** [path.suffix]. *)
Definition path_suffix (name : string) : string :=
  match reverse (str_split_char "."%char name) with
  | ext :: (_ :: _ as rest) => if bool_decide (ext = "") || bool_decide (rest = [""]) then "" else "." +:+ ext
  | _ => ""
  end.

(** ** The lock *)

Definition _cache_lock_path (cache_dir : path) : path := with_name cache_dir (pname cache_dir +:+ ".lock").

(** [open("a+b")] and one byte written: the file only grows. *)
Definition append_byte (p : path) : io unit := λ s,
  if dir_exists s (parent p)
  then let d := default "" (content s p) in
       let s' := put p (File (d +:+ String (chr 0) "") false) s in
       Out [put p (File d false) s; s'] s' (Ok tt)
  else no_such_file p s.
Definition take_lock (p : path) : io unit := _ ← mkdir_p (parent p); append_byte p.

(** ** The cache *)

Definition _onnx_cache_verify_sha256 : bool :=
  str_in (str_lower (str_strip (default "" (ow_env !! _ONNX_CACHE_VERIFY_ENV)))) ["1"; "true"; "yes"].

(** The manifest's text, where neither the file nor its syntax is at fault. *)
Definition read_artifact_manifest (manifest_path : path) : io (option pyval) :=
  r ← attempt (text ← read_text manifest_path; lift (loads text));
  match r with
  | Ok v => mret (Some v)
  | Err e => if is_os_error e || bool_decide (exn_class e = JSONDecodeError) then mret None else lift (Err e)
  end.

(** What a manifest says of the model file, when it speaks of this model. *)
Definition manifest_file (model_name : string) (manifest : pyval) : result (option string) :=
  version ← py_get manifest "schema_version" PNone;
  name ← py_get manifest "model_name" PNone;
  file ← py_get manifest "model_file" (PStr "");
  let model_file := py_str file in
  Ok (if negb (py_eq version (PInt _CACHE_SCHEMA_VERSION)) then None
      else if negb (py_eq name (PStr model_name)) then None
      else if bool_decide (model_file = "") || str_contains "/" model_file || str_contains (String backslash "") model_file then None
      else Some model_file).

Definition _load_cached_artifact (model_name : string) (cache_dir : path) : io (option OnnxArtifact) :=
  let manifest_path := pjoin cache_dir _CACHE_MANIFEST_NAME in
  there ← is_file manifest_path;
  if negb there then mret None
  else
    manifest ← read_artifact_manifest manifest_path;
    match manifest with
    | None => mret None
    | Some manifest =>
        file ← lift (manifest_file model_name manifest);
        match file with
        | None => mret None
        | Some model_file =>
            let model_path := pjoin cache_dir model_file in
            there ← is_file model_path;
            tokenizer ← _has_tokenizer cache_dir;
            if negb (there && tokenizer) then mret None
            else
              size ← file_size model_path;
              mtime ← gets (λ s, mtime_ns s model_path);
              expected_size ← lift (py_get manifest "model_size_bytes" PNone);
              expected_mtime ← lift (py_get manifest "model_mtime_ns" PNone);
              expected_sha ← lift (py_get manifest "model_sha256" PNone);
              if negb (py_eq expected_size (PInt size)) then mret None
              else if negb (py_eq expected_mtime (PInt mtime)) then mret None
              else match expected_sha with
                   | PStr sha =>
                       actual ← sha256_file model_path;
                       if _onnx_cache_verify_sha256 && negb (bool_decide (actual = sha)) then mret None
                       else mret (Some (Artifact model_name model_path cache_dir "cached"))
                   | _ => mret None
                   end
        end
    end.

(** ** Publishing *)

Definition _temp_path (target : path) (s : fsys) : path := with_name target ("." +:+ pname target +:+ "." +:+ temp_token s +:+ ".tmp").

(** Write a sibling temporary, put it in place, remove what is left of it. *)
Definition publish_temp (target : path) (write : path → io unit) : io unit :=
  _ ← mkdir_p (parent target);
  tmp ← gets (_temp_path target);
  after true (_ ← write tmp; durable_replace tmp target false) (unlink_ok tmp).

Definition _copy_file_atomic (source target : path) : io unit :=
  publish_temp target (λ tmp, data ← read_bytes source; write_bytes tmp data).
Definition _write_json_atomic (target : path) (payload : pydict) : io unit :=
  publish_temp target (λ tmp, text ← lift (dumps compact (PDict payload)); write_text tmp (text +:+ newline_str)).

Definition _copy_tokenizer_files (source destination : path) : io unit :=
  ps ← gets (λ s, rglob s source);
  foldIO (λ _ p,
    file ← is_file p;
    let target := pjoin destination (pname p) in
    if negb file || negb (str_in (path_suffix (pname p)) _TOKENIZER_SUFFIXES) || bool_decide (target = p) then mret tt
    else _copy_file_atomic p target) tt ps.

Definition manifest_of (model_name source : string) (model_path : path) (size mtime : Z) (sha : string) : pydict :=
  [(PStr "schema_version", PInt _CACHE_SCHEMA_VERSION); (PStr "model_name", PStr model_name);
   (PStr "model_file", PStr (pname model_path)); (PStr "model_size_bytes", PInt size); (PStr "model_mtime_ns", PInt mtime);
   (PStr "model_sha256", PStr sha); (PStr "source", PStr source)].

Definition _publish_artifact (model_name : string) (cache_dir source_onnx tokenizer_source : path) (source : string) : io OnnxArtifact :=
  _ ← mkdir_p cache_dir;
  _ ← _copy_tokenizer_files tokenizer_source cache_dir;
  let model_path := pjoin cache_dir "model.onnx" in
  _ ← _copy_file_atomic source_onnx model_path;
  size ← file_size model_path;
  mtime ← gets (λ s, mtime_ns s model_path);
  sha ← sha256_file model_path;
  _ ← _write_json_atomic (pjoin cache_dir _CACHE_MANIFEST_NAME) (manifest_of model_name source model_path size mtime sha);
  mret (Artifact model_name model_path cache_dir source).

(** ** Sources *)

Definition _try_snapshot (model_name : string) (cache_dir : path) : io (option OnnxArtifact) :=
  match snapshot_download with
  | None => mret None
  | Some download =>
      r ← attempt (download model_name _SNAPSHOT_ALLOW_PATTERNS);
      match r with
      | Err _ => mret None
      | Ok snapshot =>
          source_onnx ← _find_onnx_file snapshot;
          tokenizer ← _has_tokenizer snapshot;
          match source_onnx with
          | Some onnx => if tokenizer : bool
                         then a ← _publish_artifact model_name cache_dir onnx snapshot "snapshot"; mret (Some a)
                         else mret None
          | None => mret None
          end
      end
  end.

Definition _onnx_export_timeout_seconds : result spec_float :=
  match ow_env !! "LODEDB_ONNX_EXPORT_TIMEOUT_SECONDS" with
  | None => Ok (float_of_Z _DEFAULT_ONNX_EXPORT_TIMEOUT_SECONDS)
  | Some value =>
      if is_blank value then Ok (float_of_Z _DEFAULT_ONNX_EXPORT_TIMEOUT_SECONDS)
      else match parse_float value with
           | None => raise ValueError "LODEDB_ONNX_EXPORT_TIMEOUT_SECONDS must be a number"
           | Some timeout => if fleb timeout (S754_zero false) then raise ValueError "LODEDB_ONNX_EXPORT_TIMEOUT_SECONDS must be greater than zero"
                             else Ok timeout
           end
  end.

Definition export_command (model_name : string) (export_dir : path) : list string :=
  (match optimum_cli with Some cli => [cli; "export"; "onnx"] | None => [sys_executable; "-m"; "optimum.exporters.onnx"] end)
  ++ ["--model"; model_name; "--library-name"; "transformers"; "--task"; "feature-extraction"; "--framework"; "pt"; "--opset"; "17";
      path_str export_dir].

(** [f"{seconds:.0f}"]: to the nearest integer, ties to even. *)
Definition format_0f (f : spec_float) : string :=
  match f with
  | S754_finite s m e =>
      let a := if e >=? 0 then Z.pos m * 2 ^ e
               else let d := 2 ^ (- e) in let q := Z.pos m / d in
                    match 2 * (Z.pos m mod d) ?= d with Lt => q | Gt => q + 1 | Eq => if Z.even q then q else q + 1 end in
      (if s then "-" else "") +:+ Z_str a
  | S754_zero s => if s then "-0" else "0"
  | S754_infinity s => if s then "-inf" else "inf"
  | S754_nan => "nan"
  end.

(** The last lines of what the exporter wrote to its error output. *)
Definition stderr_tail (stderr : string) : string :=
  let ls := splitlines (str_strip stderr) in str_join " " (drop (length ls - 5) ls).

Definition export_error (model_name : string) (timeout : spec_float) (o : export_outcome) : string :=
  match o with
  | ExportTimeout => "Optimum ONNX export timed out after " +:+ format_0f timeout +:+ "s for " +:+ str_repr model_name +:+ "."
  | ExporterMissing => "Optimum is required to export an ONNX model and is not installed (no prebuilt ONNX snapshot for " +:+ str_repr model_name +:+ ")."
  | ExportFailed stderr => "Optimum ONNX export failed for " +:+ str_repr model_name +:+ ": " +:+ stderr_tail stderr
  | Exported => "Optimum export produced no ONNX file for " +:+ str_repr model_name
  end.

Definition _export_with_optimum (model_name : string) (cache_dir : path) : io OnnxArtifact :=
  let export_dir := pjoin cache_dir "export" in
  there ← path_exists export_dir;
  _ ← (if there : bool then rmtree export_dir false else mret tt);
  _ ← mkdir_p export_dir;
  timeout_seconds ← lift _onnx_export_timeout_seconds;
  outcome ← run_export (export_command model_name export_dir) timeout_seconds export_dir;
  exported ← (match outcome with Exported => _find_onnx_file export_dir | _ => mret None end);
  match exported with
  | None =>
      _ ← rmtree export_dir true;
      fail OnnxMaterializationError (export_error model_name timeout_seconds outcome)
  | Some exported_onnx =>
      artifact ← _publish_artifact model_name cache_dir exported_onnx export_dir "export";
      _ ← rmtree export_dir true;
      mret artifact
  end.

Definition materialize_onnx_model (model_name : string) : io OnnxArtifact :=
  if bool_decide (model_name = "") then fail ValueError "model_name is required"
  else
    let cache_dir := _model_cache_dir model_name in
    _ ← take_lock (_cache_lock_path cache_dir);
    cached ← _load_cached_artifact model_name cache_dir;
    match cached with
    | Some artifact => mret artifact
    | None =>
        snapshot ← _try_snapshot model_name cache_dir;
        match snapshot with
        | Some artifact => mret artifact
        | None => _export_with_optimum model_name cache_dir
        end
    end.
End cache.

(** ** Publishing one file *)

Class ArtifactLaws (W : OnnxWorld) : Prop :=
  { mtime_same s t p : files s !! p = files t !! p → mtime_ns s p = mtime_ns t p;
    scan_all l : scan_order l ≡ₚ l }.

(** Names that do not begin with a dot, unlike those of temporaries. *)
Definition visible (p : path) : bool := negb (startswith "." (pname p)).
Definition only_target (target : path) (s t : fsys) : Prop := ∀ q, visible q = true → q ≠ target → files t !! q = files s !! q.

Section publishing.
Context {W : OnnxWorld} {L : ArtifactLaws W}.

(** A program that reads files only. *)
Definition reads_files (get : io bytes) : Prop := pure_io get ∧ ∀ s t, files s = files t → value (get s) = value (get t).

Lemma only_target_refl target s t : files t = files s → only_target target s t.
Proof. by intros H q _ _; rewrite H. Qed.
Lemma only_target_trans target s t u : only_target target s t → only_target target t u → only_target target s u.
Proof. intros H1 H2 q Hq Hne. by rewrite H2, H1. Qed.

Definition file_written (target : path) (get : io bytes) (s t : fsys) : Prop := ∃ d, value (get s) = Ok d ∧ files t !! target = Some (File d false).

Lemma publish_temp_runs target get s : reads_files get →
  runs (λ t, only_target target s t ∧ (files t !! target = files s !! target ∨ file_written target get s t))
    (publish_temp target (λ tmp, data ← get; write_bytes tmp data)) s
    (λ r t, only_target target s t ∧ dirs s ⊆ dirs t ∧
            match r with Ok _ => file_written target get s t | Err _ => files t !! target = files s !! target end).
Proof.
  intros [Hp Hg]. unfold publish_temp. destruct (mkdir_p_run (parent target) s) as (tr & ds & Hm & Hds & Hdir & Htr).
  set (s1 := FSys (files s) ds) in *. set (tmp := _temp_path target s1).
  assert (tmp ≠ target ∧ visible tmp = false ∧ parent tmp = parent target) as (Hne & Hh & Hpar).
  { assert (visible tmp = false) as Hh by (unfold visible, tmp, _temp_path, with_name; cbn [pname hd]; by rewrite startswith_app). split; [|done]. unfold tmp, _temp_path, with_name.
    destruct target as [|n q]; [done|]. intros E. apply (f_equal pname) in E. cbn [pname hd] in E.
    apply (f_equal slen) in E. rewrite !slen_app in E. change (slen ".") with 1%nat in E. lia. }
  assert (∀ q, visible q = true → q ≠ tmp) as Hvis by (intros q Hq ->; congruence).
  pose (m := λ tmp, after true (_ ← (data ← get; write_bytes tmp data); durable_replace tmp target false) (unlink_ok tmp)). assert (runs (λ t, only_target target s t ∧ (files t !! target = files s !! target ∨ file_written target get s t)) (m tmp) s1
    (λ r t, only_target target s t ∧ dirs s ⊆ dirs t ∧
            match r with Ok _ => file_written target get s t | Err _ => files t !! target = files s !! target end)) as Hrun; cycle 1.
  { destruct Hrun as [HC HQ]. unfold runs. rewrite (bind_run _ _ _ _ _ _ Hm). cbn [trace value final].
    assert ((tmp ← gets (_temp_path target); m tmp) s1 = m tmp s1) as E by by apply bind_run_pure. unfold m in E, HC, HQ. rewrite E.
    split; [|done]. apply Forall_app. split; [|done]. eapply Forall_impl; [exact Htr|]. intros t Ht.
    split; [by apply only_target_refl|]. left. by rewrite Ht. }
  subst m. cbv beta. assert (value (get s1) = value (get s)) as Hv1 by by apply Hg. unfold after.
  destruct (value (get s)) as [d|e] eqn:Eg.
  - assert ((data ← get; write_bytes tmp data) s1 = write_bytes tmp d s1) as Hw.
    { apply bind_run_pure. rewrite (pure_run get s1 Hp). by rewrite Hv1. }
    assert (runs (λ t, only_target target s t ∧ (files t !! target = files s !! target ∨ file_written target get s t))
      (_ ← (data ← get; write_bytes tmp data); durable_replace tmp target false) s1
      (λ r t, r = Ok tt ∧ t = put target (File d false) (drop_file tmp (put tmp (File d false) s1)))) as [HC [HQv HQf]].
    { assert (dir_exists s1 (parent tmp) = true) as Hd1 by (by rewrite Hpar).
      eapply (runs_bind _ _ _ _ _ (λ r t, r = Ok tt ∧ t = put tmp (File d false) s1)).
      - unfold runs. rewrite Hw. destruct (write_bytes_runs tmp d s1 Hd1) as [HC HQ]. split; [|done].
        eapply Forall_impl; [exact HC|]. intros t [_ Ht]. split; [intros q Hq _; apply Ht; by apply Hvis|left; by apply Ht].
      - intros [] t [_ ->]. eapply runs_weaken; [apply (durable_replace_runs tmp target false _ (File d false) Hne); [apply lookup_insert_eq|by rewrite <-Hpar]| |].
        + intros t (_ & Hq & Ht). split; [intros q Hqv Hqt; rewrite Hq by auto; apply lookup_insert_ne; symmetry; auto|].
          destruct Ht as [Ht|[Ht _]]; [left; rewrite Ht; by apply lookup_insert_ne|right; by exists d].
        + by intros r t [-> ->].
      - by intros e t [? _]. }
    unfold runs. rewrite HQv, HQf. unfold unlink_ok. cbn [files drop_file put].
    rewrite lookup_insert_ne, lookup_delete_eq by done. cbn [trace value final]. rewrite app_nil_r. split; [done|]. split; [|split; [done|]].
    + intros q Hq Hqt. cbn. by rewrite !lookup_insert_ne, lookup_delete_ne, lookup_insert_ne by (done || symmetry; auto).
    + exists d. split; [done|]. cbn. by rewrite lookup_insert_eq.
  - assert ((_ ← (data ← get; write_bytes tmp data); durable_replace tmp target false) s1 = Out [] s1 (Err e)) as Hm'.
    { unfold mbind, io_bind. rewrite (pure_run get s1 Hp), Hv1. done. }
    unfold runs. rewrite Hm'. cbn [value final trace app]. unfold unlink_ok. cbn [files s1]. destruct (files s !! tmp) eqn:Et; cbn.
    + assert (only_target target s (drop_file tmp s1) ∧ files (drop_file tmp s1) !! target = files s !! target) as [H1 H2].
      { split; [intros q Hq _|]; cbn; apply lookup_delete_ne; [|done]. symmetry. by apply Hvis. }
      split; [|done]. constructor; [|constructor]. split; [done|by left].
    + split; [constructor|]. split; [by apply only_target_refl|done].
Qed.

Lemma copy_reads source : reads_files (read_bytes source).
Proof. split; [apply pure_read_bytes|]. intros s t E. unfold read_bytes. rewrite E. by destruct (files t !! source). Qed.

(** Visible files do not disappear, and some stay as they are. *)
Definition grows (kept : list path) (s t : fsys) : Prop :=
  (∀ q, visible q = true → is_Some (files s !! q) → is_Some (files t !! q)) ∧ dirs s ⊆ dirs t ∧
  ∀ q, q ∈ kept → files t !! q = files s !! q.
Lemma grows_refl kept s t : files t = files s → dirs s ⊆ dirs t → grows kept s t.
Proof. intros E Hd. unfold grows. by rewrite E. Qed.
Lemma grows_trans kept s t u : grows kept s t → grows kept t u → grows kept s u.
Proof. intros (H1 & H2 & H3) (H4 & H5 & H6). split; [eauto|]. split; [set_solver|]. intros q Hq. by rewrite H6, H3. Qed.

Lemma copied_grows kept get target s t : Forall (λ q, visible q = true ∧ q ≠ target) kept → only_target target s t → dirs s ⊆ dirs t →
  files t !! target = files s !! target ∨ file_written target get s t → grows kept s t.
Proof.
  intros Hk Ht Hd Hw. split; [|split; [done|]].
  - intros q Hq Hs. destruct (decide (q = target)) as [->|]; [|by rewrite Ht]. destruct Hw as [->|(d & _ & ->)]; [done|by eexists].
  - intros q Hq. rewrite Forall_forall in Hk. by apply Ht; apply Hk.
Qed.

(** Which files are copied, and where to. *)
Definition token_target (destination p : path) : path := pjoin destination (pname p).
Definition token_file (p : path) : bool := str_in (path_suffix (pname p)) _TOKENIZER_SUFFIXES.

Lemma copy_tokens_runs kept source dest s :
  (∀ p q, p ∈ rglob s source → token_file p = true → q ∈ kept → visible q = true ∧ q ≠ token_target dest p) →
  runs (λ t, ∀ q, q ∈ kept → files t !! q = files s !! q) (_copy_tokenizer_files source dest) s
    (λ r t, grows kept s t ∧ (r = Ok tt → ∀ p, p ∈ rglob s source → visible p = true → token_file p = true → is_Some (files s !! p) →
                               visible (token_target dest p) = true → is_Some (files t !! token_target dest p))).
Proof.
  intros Hk. unfold _copy_tokenizer_files. eapply runs_pure; [reflexivity|]. generalize (rglob s source) Hk. clear Hk. intros ps.
  assert (∀ u, grows kept s u → (∀ p q, p ∈ ps → token_file p = true → q ∈ kept → visible q = true ∧ q ≠ token_target dest p) →
    let step := λ (_ : unit) p, file ← is_file p; let target := pjoin dest (pname p) in
                  if negb file || negb (str_in (path_suffix (pname p)) _TOKENIZER_SUFFIXES) || bool_decide (target = p) then mret tt
                  else _copy_file_atomic p target in
    runs (λ t, ∀ q, q ∈ kept → files t !! q = files s !! q) (foldIO step tt ps) u (λ r t, grows kept u t ∧
      (r = Ok tt → ∀ p, p ∈ ps → visible p = true → token_file p = true → is_Some (files s !! p) →
                    visible (token_target dest p) = true → is_Some (files t !! token_target dest p)))) as H.
  2: { intros Hk. specialize (H s (grows_refl kept s s eq_refl ltac:(done)) Hk). exact H. }
  induction ps as [|p ps IH]; intros u Hu Hk; cbv zeta; cbn [foldIO].
  { apply runs_ret. split; [by apply grows_refl|]. intros _ p Hp. by apply elem_of_nil in Hp. }
  assert (∀ q, q ∈ kept → files u !! q = files s !! q) as Hsame by (apply Hu).
  eapply (runs_bind _ _ _ _ _ (λ r t, grows kept u t ∧ (r = Ok tt → visible p = true → token_file p = true → is_Some (files s !! p) →
            visible (token_target dest p) = true → is_Some (files t !! token_target dest p)))).
  - eapply runs_pure; [reflexivity|]. fold (token_file p) (token_target dest p). destruct (decide (is_Some (files u !! p))) as [Hf|Hf].
    2: { rewrite bool_decide_eq_false_2 by done. apply runs_ret. split; [by apply grows_refl|]. intros _ Hv _ Hs _. destruct Hf.
         by apply (proj1 Hu). }
    rewrite bool_decide_eq_true_2 by done. cbn [negb orb]. destruct (token_file p) eqn:Et; cbn [negb orb]; [|apply runs_ret; split; [by apply grows_refl|done]].
    case_bool_decide as E; [apply runs_ret; split; [by apply grows_refl|]; intros _ _ _ Hs _; by rewrite E|].
    eapply runs_weaken; [apply (publish_temp_runs (token_target dest p) (read_bytes p) u (copy_reads p))| |].
    + intros t [Ht _] q Hq. rewrite Ht; [by apply Hsame|by eapply Hk; [left|..]..].
    + intros r t (Ht & Hd & Hw). split.
      * eapply copied_grows; [|exact Ht|exact Hd|]; [apply Forall_forall; intros q Hq; by eapply Hk; [left|..]|].
        destruct r as [[]|]; [by right|by left].
      * intros -> _ _ _ _. destruct Hw as (d & _ & ->). by eexists.
  - intros [] u' [Hg Hp]. eapply runs_weaken; [apply IH; [by eapply grows_trans|intros; eapply Hk; [by right|..]; done]|done|].
    intros r t [Hg' Hps]. split; [by eapply grows_trans|]. intros -> p' [->|Hp']%elem_of_cons Hv Ht Hs Hv'; [|by apply Hps].
    by apply (proj1 Hg'); [|apply Hp].
  - intros e u' [Hg _]. split; [done|]. intros [=].
Qed.

(** ** Publishing a model *)

Context (model_name : string) (cache : path).
Definition model_file : path := "model.onnx" :: cache.
Definition manifest_file_path : path := _CACHE_MANIFEST_NAME :: cache.
Definition artifact_bytes (source : string) (data : bytes) (mtime : Z) : bytes :=
  utf8_encode (of_chars (json_text compact 0 (PDict (manifest_of model_name source model_file (Z.of_nat (slen data)) mtime (sha256_hex data)))) +:+ newline_str).

(** A manifest that speaks of the model file beside it. *)
Definition whole_artifact (t : fsys) : Prop := ∃ source data, content t model_file = Some data ∧
  content t manifest_file_path = Some (artifact_bytes source data (mtime_ns t model_file)).

Lemma pjoin_model : pjoin cache "model.onnx" = model_file.
Proof. by apply pjoin_simple. Qed.
Lemma pjoin_manifest : pjoin cache _CACHE_MANIFEST_NAME = manifest_file_path.
Proof. by apply pjoin_simple. Qed.

Lemma manifest_ok source size mtime sha : json_ok (PDict (manifest_of model_name source model_file size mtime sha)) = true.
Proof. cbn. rewrite bool_decide_eq_true_2; [done|]. repeat (constructor; [set_solver|]). constructor. Qed.

Lemma publish_temp_ext target (w w' : path → io unit) s : (∀ tmp s, w tmp s = w' tmp s) → publish_temp target w s = publish_temp target w' s.
Proof.
  intros H. unfold publish_temp, after, mbind, io_bind. destruct (value (mkdir_p (parent target) s)); [|done]. cbn.
  by rewrite !H.
Qed.

(** What cannot fail to be computed is written. *)
Lemma publish_temp_total target get s d : reads_files get → value (get s) = Ok d → target ≠ [] →
  value (publish_temp target (λ tmp, data ← get; write_bytes tmp data) s) = Ok tt.
Proof.
  intros [Hp Hg] Hd Hne. unfold publish_temp. destruct (mkdir_p_run (parent target) s) as (tr & ds & Hm & _ & Hdir & _).
  rewrite (bind_run _ _ _ _ _ _ Hm). cbn [value]. set (s1 := FSys (files s) ds) in *. set (tmp := _temp_path target s1).
  rewrite (bind_run_pure (gets (_temp_path target)) _ s1 tmp eq_refl). unfold after.
  assert (parent tmp = parent target) as Hpar by (by destruct target).
  assert (value (get s1) = Ok d) as Hv by (rewrite <-Hd; by apply Hg).
  assert ((data ← get; write_bytes tmp data) s1 = write_bytes tmp d s1) as Hw.
  { apply bind_run_pure. rewrite (pure_run get s1 Hp). by rewrite Hv. }
  assert (write_bytes tmp d s1 = Out (write_states tmp d s1) (put tmp (File d false) s1) (Ok tt)) as Hw'.
  { unfold write_bytes. by rewrite Hpar, Hdir. }
  rewrite Hw' in Hw. rewrite (bind_run _ _ _ _ _ _ Hw). unfold durable_replace, os_replace, mbind, io_bind. cbn.
  rewrite lookup_insert_eq. unfold dir_exists in *. cbn [dirs put] in *. rewrite Hdir. cbn. unfold unlink_ok. cbn.
  by destruct (<[target := _]> _ !! tmp).
Qed.

Lemma artifact_manifest_runs source s data mtime :
  let d := artifact_bytes source data mtime in
  runs (λ t, only_target manifest_file_path s t ∧ (files t !! manifest_file_path = files s !! manifest_file_path ∨ files t !! manifest_file_path = Some (File d false)))
    (_write_json_atomic manifest_file_path (manifest_of model_name source model_file (Z.of_nat (slen data)) mtime (sha256_hex data))) s
    (λ r t, only_target manifest_file_path s t ∧ dirs s ⊆ dirs t ∧ r = Ok tt ∧ files t !! manifest_file_path = Some (File d false)).
Proof.
  intros d. unfold _write_json_atomic, runs. set (payload := manifest_of _ _ _ _ _ _).
  rewrite (publish_temp_ext _ _ (λ tmp, data ← lift (Ok d); write_bytes tmp data)).
  - assert (reads_files (lift (Ok d))) as Hget by by split.
    destruct (publish_temp_runs manifest_file_path (lift (Ok d)) s Hget) as [HC HQ]. split.
    + eapply Forall_impl; [exact HC|]. intros t (Ht & [E|(d' & [= <-] & E)]); (split; [done|]); [by left|by right].
    + rewrite (publish_temp_total _ _ s d Hget eq_refl) in HQ |- * by done. destruct HQ as (Ht & Hd & d' & [= <-] & E). done.
  - intros tmp u. rewrite dumps_ok by apply manifest_ok. reflexivity.
Qed.

Lemma committed_after s data source mtime t : content s model_file = Some data → mtime = mtime_ns s model_file →
  only_target manifest_file_path s t → files t !! manifest_file_path = Some (File (artifact_bytes source data mtime) false) → whole_artifact t.
Proof.
  intros Hd -> Ht Hm. assert (files t !! model_file = files s !! model_file) as E by (by apply Ht).
  exists source, data. unfold content in *. rewrite E, Hm. split; [done|]. cbn. by rewrite (mtime_same s t model_file (eq_sym E)).
Qed.

(** The manifest is the last thing that changes. *)
Lemma publish_artifact_runs (onnx tokens : path) source s (kept : list path) : kept ⊆ [manifest_file_path] →
  (∀ p q, p ∈ rglob (final (mkdir_p cache s)) tokens → token_file p = true → q ∈ kept → visible q = true ∧ q ≠ token_target cache p) →
  runs (λ t, ∀ q, q ∈ kept → files t !! q = files s !! q ∨ whole_artifact t) (_publish_artifact model_name cache onnx tokens source) s
    (λ r t, ∀ a, r = Ok a → a = Artifact model_name model_file cache source ∧ grows [] s t ∧ whole_artifact t ∧
       ∀ p, p ∈ rglob (final (mkdir_p cache s)) tokens → visible p = true → token_file p = true → is_Some (files s !! p) →
            visible (token_target cache p) = true → is_Some (files t !! token_target cache p)).
Proof.
  intros Hk Htok. unfold _publish_artifact. rewrite pjoin_model, pjoin_manifest.
  destruct (mkdir_p_run cache s) as (tr & ds & Hm & Hds & _ & Htr). rewrite Hm in Htok. cbn [final] in Htok. rewrite Hm. cbn [final]. set (s1 := FSys (files s) ds) in *.
  eapply (runs_bind _ _ _ _ _ (λ r t, r = Ok tt ∧ t = s1)); [|intros [] t [_ ->]|by intros e t [? _]].
  { unfold runs. rewrite Hm. split; [|done]. eapply Forall_impl; [exact Htr|]. intros t Ht q _. left. by rewrite Ht. }
  eapply runs_bind; [eapply runs_weaken; [by apply (copy_tokens_runs kept)|intros t Ht q Hq; left; by rewrite Ht|intros r t H; exact H]| |done].
  intros [] s2 [Hg2 Ht2]. specialize (Ht2 eq_refl).
  assert (∀ q, q ∈ kept → q ≠ model_file ∧ visible q = true ∧ files s2 !! q = files s !! q) as Hk2.
  { intros q Hq. split_and!; [|..|by apply Hg2]; apply Hk in Hq as ->%list_elem_of_singleton; done. }
  eapply runs_bind; [eapply runs_weaken; [apply (publish_temp_runs model_file (read_bytes onnx) s2), copy_reads| |intros r t H; exact H]| |done].
  { intros t [Ht _] q Hq. left. destruct (Hk2 q Hq) as (Hne & Hv & <-). by apply Ht. }
  intros [] s3 (Ho3 & Hd3 & data & _ & Hm3). assert (content s3 model_file = Some data) as Hc3 by (unfold content; by rewrite Hm3).
  eapply runs_pure; [by apply file_size_run|]. eapply runs_pure; [reflexivity|]. eapply runs_pure; [by apply sha256_file_run|].
  eapply runs_bind; [eapply runs_weaken; [apply artifact_manifest_runs| |intros r t H; exact H]| |by intros e t (_ & _ & ? & _)].
  - intros t [Ht Hw] q Hq. pose proof (Hk q Hq) as ->%list_elem_of_singleton. destruct (Hk2 _ Hq) as (Hne & Hv & E).
    destruct Hw as [Hw|Hw]; [left|right; by eapply committed_after]. rewrite Hw, <-E. by apply Ho3.
  - intros [] t (Ht & Hdt & _ & Hw). apply runs_ret. intros a [= <-]. split; [done|].
    assert (grows [] s3 t) as Hg3.
    { eapply (copied_grows [] (lift (Ok _))); [constructor|exact Ht|done|right; by eexists]. }
    assert (grows [] s2 s3) as Hg2'. { eapply (copied_grows [] (lift (Ok data))); [constructor|exact Ho3|done|right; by eexists]. }
    assert (grows [] s s2) as Hg. { destruct Hg2 as (H1 & H2 & _). split; [|split; [set_solver|by intros q ?%elem_of_nil]]. exact H1. }
    split; [eapply grows_trans; [exact Hg|]; by eapply grows_trans|]. split; [by eapply committed_after|].
    intros p Hp Hv Hit Hs Hvt. apply (proj1 Hg3); [done|]. apply (proj1 Hg2'); [done|]. by apply Ht2.
Qed.

(** ** A published model is found *)

Definition tokenized (t : fsys) : bool := bool_decide (is_Some (files t !! ("tokenizer.json" :: cache))) || bool_decide (is_Some (files t !! ("vocab.txt" :: cache))).

Lemma has_tokenizer_run t : _has_tokenizer cache t = Out [] t (Ok (tokenized t)).
Proof.
  unfold _has_tokenizer, tokenized. rewrite !pjoin_simple by done. erewrite bind_run_pure by reflexivity.
  by destruct (bool_decide (is_Some (files t !! ("tokenizer.json" :: cache)))).
Qed.

Lemma pure_load : pure_io (_load_cached_artifact model_name cache).
Proof.
  unfold _load_cached_artifact. apply pure_bind; [done|]. intros there. destruct (negb there); [done|]. apply pure_bind.
  { unfold read_artifact_manifest. apply pure_bind; [intros s|intros [v|e]; [done|]; by destruct (_ || _)].
    exact (pure_bind _ _ (pure_read_text _) (λ text, pure_lift _) s). }
  intros [v|]; [|done]. apply pure_bind; [done|]. intros [f|]; [|done]. apply pure_bind; [done|]. intros b.
  apply pure_bind; [intros s; by rewrite has_tokenizer_run|]. intros k. destruct (negb (b && k)); [done|]. solve_pure.
Qed.

Lemma manifest_field source data mtime k v : dict_get k (manifest_of model_name source model_file (Z.of_nat (slen data)) mtime (sha256_hex data)) = Some v →
  dict_get k (canon_items (manifest_of model_name source model_file (Z.of_nat (slen data)) mtime (sha256_hex data))) = Some (canon v).
Proof. intros H. rewrite dict_get_canon by apply manifest_ok. by rewrite H. Qed.

Lemma content_is_file (t : fsys) p b : content t p = Some b → is_Some (files t !! p).
Proof. unfold content. destruct (files t !! p); [by eexists|done]. Qed.

Lemma load_committed t : whole_artifact t → tokenized t = true →
  _load_cached_artifact model_name cache t = Out [] t (Ok (Some (Artifact model_name model_file cache "cached"))).
Proof.
  intros (source & data & Hd & Hm) Ht. unfold _load_cached_artifact. rewrite pjoin_manifest.
  erewrite bind_run_pure by reflexivity. rewrite bool_decide_eq_true_2 by (by eapply content_is_file).
  cbn [negb]. set (d := manifest_of model_name source model_file (Z.of_nat (slen data)) (mtime_ns t model_file) (sha256_hex data)) in *.
  assert (read_artifact_manifest manifest_file_path t = Out [] t (Ok (Some (PDict (canon_items d))))) as Hr.
  { assert ((text ← read_text manifest_file_path; lift (loads text)) t = Out [] t (Ok (PDict (canon_items d)))) as E.
    { rewrite (read_text_run t _ _ _ Hm). unfold artifact_bytes. rewrite utf8_decode_encode, (loads_line compact) by apply manifest_ok. by rewrite canon_dict. }
    unfold read_artifact_manifest. erewrite bind_run_pure; [|unfold attempt; rewrite E; reflexivity]. done. }
  rewrite (bind_run_pure _ _ _ _ Hr). clear Hr. cbn iota.
  assert (∀ k v, dict_get k d = Some v → py_get (PDict (canon_items d)) k PNone = Ok (canon v)) as Hget.
  { intros k v H. unfold py_get, d. unfold d in H. by rewrite (manifest_field _ _ _ _ _ H). }
  assert (manifest_file model_name (PDict (canon_items d)) = Ok (Some "model.onnx")) as Hf.
  { unfold manifest_file. rewrite (Hget "schema_version" (PInt 1) eq_refl), (Hget "model_name" (PStr model_name) eq_refl).
    cbn [mbind result_bind]. replace (py_get (PDict (canon_items d)) "model_file" (PStr "")) with (@Ok pyval (PStr "model.onnx")).
    - cbn. by rewrite bool_decide_eq_true_2.
    - unfold py_get, d. by rewrite (manifest_field _ _ _ "model_file" (PStr "model.onnx") eq_refl). }
  rewrite lift_bind_run, Hf, pjoin_model. erewrite bind_run_pure by reflexivity.
  rewrite bool_decide_eq_true_2 by (by eapply content_is_file).
  rewrite (bind_run_pure _ _ _ _ (has_tokenizer_run t)), Ht. cbn [negb andb].
  rewrite (bind_run_pure _ _ _ _ (file_size_run _ _ _ Hd)). erewrite bind_run_pure by reflexivity.
  rewrite !lift_bind_run, (Hget "model_size_bytes" (PInt (Z.of_nat (slen data))) eq_refl).
  rewrite lift_bind_run, (Hget "model_mtime_ns" (PInt (mtime_ns t model_file)) eq_refl).
  rewrite lift_bind_run, (Hget "model_sha256" (PStr (sha256_hex data)) eq_refl).
  cbn [canon py_eq]. rewrite !Z.eqb_refl. cbn [negb]. rewrite (bind_run_pure _ _ _ _ (sha256_file_run _ _ _ Hd)).
  rewrite bool_decide_eq_true_2 by done. by rewrite andb_false_r.
Qed.
End publishing.

(** ** Materializing *)

Section materialize.
Context {W : OnnxWorld} {L : ArtifactLaws W} (model_name : string).
Notation cache := (_model_cache_dir model_name).
Notation lock := (_cache_lock_path (_model_cache_dir model_name)).
Context (Hname : str_in (sanitized model_name) [""; "."; ".."] = false).

Lemma sanitized_slash : forallb (λ c, negb (bool_decide (c = "/"%char))) (chars (sanitized model_name)) = true.
Proof.
  unfold sanitized. rewrite chars_of_chars. induction (chars model_name) as [|c l IH]; [done|]. cbn [map concat].
  rewrite forallb_app, IH, andb_true_r. unfold sanitize_char. destruct (bool_decide (c = "/"%char)) eqn:E; [done|].
  cbn [orb]. destruct (bool_decide (c = backslash)); [done|]. cbn. by rewrite E.
Qed.
Lemma cache_shape : cache = sanitized model_name :: onnx_cache_root.
Proof. unfold _model_cache_dir. apply pjoin_simple. unfold simple_name. by rewrite sanitized_slash, Hname. Qed.

Definition agree (s t : fsys) : Prop := ∀ q, q ≠ lock → files t !! q = files s !! q.

Lemma below_cache_ne q k : q = k ++ cache → q ≠ lock.
Proof.
  intros -> E. apply (f_equal length) in E as El. unfold _cache_lock_path, with_name in *. rewrite cache_shape in *. cbn in *.
  rewrite length_app in El. cbn in El. destruct k; [|cbn in El; lia]. cbn in E. injection E as E. apply (f_equal slen) in E.
  rewrite slen_app in E. cbn in E. lia.
Qed.

Lemma acquire_agrees s : ∃ tr t, take_lock lock s = Out tr t (Ok tt) ∧ agree s t ∧ Forall (agree s) tr.
Proof.
  unfold take_lock. destruct (mkdir_p_run (parent lock) s) as (tr & ds & Hm & _ & Hdir & Htr).
  rewrite (bind_run _ _ _ _ _ _ Hm). unfold append_byte. rewrite Hdir. cbn [trace final value]. eexists _, _. split; [reflexivity|].
  assert (∀ f, agree s (put lock f (FSys (files s) ds))) as Hp by (intros f q Hq; cbn; by apply lookup_insert_ne).
  split; [apply Hp|]. apply Forall_app. split; [|repeat (constructor; [apply Hp|]); constructor].
  eapply Forall_impl; [exact Htr|]. intros u Hu q _. by rewrite Hu.
Qed.

Lemma same_bind {A B} (m : io A) (k : A → io B) s t : pure_io m → value (m s) = value (m t) →
  (∀ a, value (m s) = Ok a → value (k a s) = value (k a t)) → value ((m ≫= k) s) = value ((m ≫= k) t).
Proof.
  intros Hm E Hk. unfold mbind, io_bind. destruct (Hm s) as [_ ->], (Hm t) as [_ ->]. rewrite E in Hk |- *.
  destruct (value (m t)); [|done]. by apply Hk.
Qed.
Lemma agree_read s t p : agree s t → p ≠ lock → value (read_bytes p s) = value (read_bytes p t).
Proof. intros H Hp. unfold read_bytes. rewrite (H p Hp). by destruct (files s !! p). Qed.
Lemma agree_file s t p : agree s t → p ≠ lock → value (is_file p s) = value (is_file p t).
Proof. intros H Hp. unfold is_file, gets. cbn. by rewrite (H p Hp). Qed.

Lemma contains_slash f : str_contains "/" f = false → forallb (λ c, negb (bool_decide (c = "/"%char))) (chars f) = true.
Proof.
  unfold str_contains. induction f as [|c f IH]; [done|]. cbn [String.index]. rewrite chars_cons. cbn [forallb].
  destruct (String.prefix "/" (String c f)) eqn:E; [done|]. intros H. rewrite IH by (by destruct (String.index 0 "/" f)).
  rewrite andb_true_r. apply negb_true_iff, bool_decide_eq_false_2. intros ->. cbn in E. by destruct f.
Qed.

(** A manifest can only name a file of the cache, or a directory near it. *)
Lemma named_file_ne f : str_contains "/" f = false → pjoin cache f ≠ lock.
Proof.
  intros Hf%contains_slash. unfold pjoin, str_split_char. rewrite split_all_none by done. change (reverse [] ++ chars f) with (chars f).
  cbn [map fold_left]. rewrite of_chars_chars. assert (startswith "/" f = false) as ->.
  { destruct (startswith "/" f) eqn:E; [|done]. apply startswith_spec in E as (r & ->). done. }
  destruct (str_in f [""; "."]); [by apply (below_cache_ne _ [])|]. case_bool_decide; [|by apply (below_cache_ne _ [f])].
  unfold _cache_lock_path, with_name. rewrite cache_shape. cbn. intros E. apply (f_equal length) in E. cbn in E. lia.
Qed.

Lemma load_agrees s t : agree s t → value (_load_cached_artifact model_name cache s) = value (_load_cached_artifact model_name cache t).
Proof.
  intros H. assert (pjoin cache _CACHE_MANIFEST_NAME ≠ lock) as Hmf by (rewrite pjoin_simple by done; by apply (below_cache_ne _ [_CACHE_MANIFEST_NAME])).
  unfold _load_cached_artifact. apply same_bind; [done|exact (agree_file s t _ H Hmf)|]. intros there _. destruct (negb there); [done|].
  apply same_bind; [| |].
  { unfold read_artifact_manifest. apply pure_bind; [intros u|intros [v|e]; [done|]; by destruct (_ || _)].
    exact (pure_bind _ _ (pure_read_text _) (λ text, pure_lift _) u). }
  { unfold read_artifact_manifest. apply same_bind; [intros u; exact (pure_bind _ _ (pure_read_text _) (λ text, pure_lift _) u)| |intros [v|e] _; [done|by destruct (_ || _)]].
    unfold attempt. cbn [value]. f_equal. apply same_bind; [apply pure_read_text| |done]. unfold read_text.
    apply same_bind; [apply pure_read_bytes|exact (agree_read s t _ H Hmf)|done]. }
  intros [v|] _; [|done]. apply same_bind; [done..|]. intros [f|] Hf; [|done].
  assert (pjoin cache f ≠ lock) as Hne.
  { apply named_file_ne. cbn [lift value] in Hf. unfold manifest_file in Hf. repeat (apply bind_Ok in Hf as (? & _ & Hf)).
    injection Hf as Hf. destruct (negb _); [done|]. destruct (negb _); [done|]. destruct (_ || _ || _) eqn:E; [done|]. injection Hf as <-.
    by apply orb_false_iff in E as [[_ ?]%orb_false_iff _]. }
  apply same_bind; [done|by apply agree_file|]. intros b _. apply same_bind; [intros u; by rewrite has_tokenizer_run| |].
  { rewrite !has_tokenizer_run. cbn [value]. f_equal. unfold tokenized.
    rewrite (H ("tokenizer.json" :: cache)), (H ("vocab.txt" :: cache)); [done|by apply (below_cache_ne _ ["vocab.txt"])|by apply (below_cache_ne _ ["tokenizer.json"])]. }
  intros k _. destruct (negb (b && k)); [done|]. apply same_bind; [apply pure_file_size| |].
  { unfold file_size. apply same_bind; [apply pure_read_bytes|by apply agree_read|done]. }
  intros size _. apply same_bind; [done| |]; [cbn [gets value]; f_equal; apply mtime_same; symmetry; by apply H|].
  intros mtime _. do 3 (apply same_bind; [done..|]; intros ? _). destruct (negb _); [done|]. destruct (negb _); [done|].
  match goal with |- context [match ?x with PStr _ => _ | _ => _ end] => destruct x; try done end.
  apply same_bind; [apply pure_sha256_file| |intros ? _; by destruct (_ && _)]. unfold sha256_file.
  apply same_bind; [apply pure_read_bytes|by apply agree_read|done].
Qed.

(** ** Where a model comes from *)

Lemma pure_find root : pure_io (_find_onnx_file root).
Proof. unfold _find_onnx_file. apply pure_bind; [done|]. intros there. destruct (there : bool); [done|]. by apply pure_bind. Qed.
Lemma pure_has_tokenizer root : pure_io (_has_tokenizer root).
Proof. intros s. by rewrite has_tokenizer_run. Qed.

Lemma published_Ok onnx tokens source s a : value (_publish_artifact model_name cache onnx tokens source s) = Ok a →
  let t := final (_publish_artifact model_name cache onnx tokens source s) in
  a = Artifact model_name (model_file cache) cache source ∧ whole_artifact model_name cache t ∧ (tokenized tokens s = true → tokenized cache t = true).
Proof.
  intros Ha. destruct (publish_artifact_runs model_name cache onnx tokens source s []) as [_ HQ]; [set_solver|by intros ? ? _ _ ?%elem_of_nil|].
  destruct (HQ a Ha) as (-> & _ & Hc & Ht). split; [done|]. split; [done|]. unfold tokenized.
  assert (∀ n, simple_name n = true → visible [n] = true → token_file [n] = true → is_Some (files s !! (n :: tokens)) →
    is_Some (files (final (_publish_artifact model_name cache onnx tokens source s)) !! (n :: cache))) as Hn.
  { intros n Hn Hv Htok Hs. rewrite <-(pjoin_simple cache n Hn). apply (Ht (n :: tokens)); [|done..|].
    - destruct (mkdir_p_run cache s) as (tr & ds & -> & _). cbn [final]. unfold rglob. rewrite scan_all. apply list_elem_of_In, filter_In. split.
      + apply in_or_app. left. apply list_elem_of_In, list_elem_of_fmap. destruct Hs as [f Hf]. exists (n :: tokens, f). split; [done|].
        by apply elem_of_map_to_list.
      + apply andb_true_iff. split; [exact (below_app tokens [n])|]. apply negb_true_iff, bool_decide_eq_false_2. intros E. apply (f_equal length) in E. cbn in E. lia.
    - unfold token_target. cbn [pname hd]. by rewrite pjoin_simple. }
  intros [H|H]%orb_true_iff; apply bool_decide_eq_true_1 in H; apply orb_true_iff; [left|right]; apply bool_decide_eq_true_2; by apply Hn.
Qed.

Lemma snapshot_Ok s a : value (_try_snapshot model_name cache s) = Ok (Some a) →
  let t := final (_try_snapshot model_name cache s) in
  a = Artifact model_name (model_file cache) cache "snapshot" ∧ whole_artifact model_name cache t ∧ tokenized cache t = true.
Proof.
  unfold _try_snapshot. destruct snapshot_download as [download|]; [|done]. intros H.
  apply io_bind_Ok in H as (r & _ & H & ->). set (s1 := final _) in *. destruct r as [sp|]; [|done].
  apply io_bind_Ok in H as (onnx & _ & H & ->). destruct (pure_find sp s1) as [_ Hf]. rewrite Hf in *.
  apply io_bind_Ok in H as (tok & Htok & H & ->). destruct (pure_has_tokenizer sp s1) as [_ Hf']. rewrite Hf' in *.
  rewrite has_tokenizer_run in Htok. injection Htok as <-. destruct onnx as [onnx|]; [|done]. destruct (tokenized sp s1) eqn:Et; [|done].
  apply io_bind_Ok in H as (a' & Ha & H & ->). injection H as ->. apply published_Ok in Ha as (-> & Hc & Ht). split; [done|]. split; [done|by apply Ht].
Qed.

Lemma committed_same s t : files t !! model_file cache = files s !! model_file cache →
  files t !! manifest_file_path cache = files s !! manifest_file_path cache → whole_artifact model_name cache s → whole_artifact model_name cache t.
Proof.
  intros Hm Hf (source & data & Hd & Hb). exists source, data. unfold content in *. rewrite Hm, Hf. split; [done|].
  by rewrite (mtime_same t s _ Hm).
Qed.

Lemma export_Ok s a : value (_export_with_optimum model_name cache s) = Ok a →
  a = Artifact model_name (model_file cache) cache "export" ∧ whole_artifact model_name cache (final (_export_with_optimum model_name cache s)).
Proof.
  unfold _export_with_optimum. intros H. do 3 (apply io_bind_Ok in H as (? & _ & H & ->)).
  apply io_bind_Ok in H as (timeout & _ & H & ->). apply io_bind_Ok in H as (outcome & _ & H & ->).
  apply io_bind_Ok in H as (exported & _ & H & ->). set (s1 := final _) in *. destruct exported as [onnx|].
  2: { by apply io_bind_Ok in H as (? & _ & H & _). }
  apply io_bind_Ok in H as (a' & Ha & H & ->). apply io_bind_Ok in H as (u & _ & H & ->). injection H as <-.
  apply published_Ok in Ha as (-> & Hc & _). split; [done|]. cbn [mret io_ret final].
  rewrite (pjoin_simple cache "export") in * by done.
  set (t := final (_publish_artifact _ _ _ _ _ _)) in *. destruct (rmtree_runs ("export" :: cache) true t) as [_ [Ho _]].
  assert (∀ n, n ≠ "export" → files (final (rmtree ("export" :: cache) true t)) !! (n :: cache) = files t !! (n :: cache)) as Hsame.
  { intros n Hn. apply Ho. by apply (sibling_below "export" n cache []). }
  eapply committed_same; [by apply Hsame..|done].
Qed.

(** A hit needs no network, no subprocess, and touches the lock alone. *)
Lemma hit_materializes t x : value (_load_cached_artifact model_name cache t) = Ok (Some x) →
  value (materialize_onnx_model model_name t) = Ok x ∧ Forall (agree t) (trace (materialize_onnx_model model_name t)) ∧
  agree t (final (materialize_onnx_model model_name t)).
Proof.
  intros Hx. assert (model_name ≠ "") as Hne.
  { intros E. assert (str_in (sanitized "") [""; "."; ".."] = true) by done. rewrite E in Hname. congruence. }
  unfold materialize_onnx_model. rewrite bool_decide_eq_false_2 by done. destruct (acquire_agrees t) as (tr & u & Hu & Hag & Htr).
  rewrite (bind_run _ _ _ _ _ _ Hu). cbn [value trace final]. rewrite (load_agrees t u Hag) in Hx.
  assert (_load_cached_artifact model_name cache u = Out [] u (Ok (Some x))) as Hl by (rewrite <-Hx; apply pure_run, pure_load).
  rewrite (bind_run_pure _ _ _ _ Hl). cbn. by rewrite app_nil_r.
Qed.

Lemma load_shape s a : value (_load_cached_artifact model_name cache s) = Ok (Some a) → ∃ p, a = Artifact model_name p cache "cached".
Proof.
  unfold _load_cached_artifact. intros H. apply io_bind_Ok in H as (there & _ & H & _). destruct (negb there); [done|].
  apply io_bind_Ok in H as (v & _ & H & _). destruct v as [v|]; [|done]. apply io_bind_Ok in H as (f & _ & H & _). destruct f as [f|]; [|done].
  do 2 (apply io_bind_Ok in H as (? & _ & H & _)). destruct (negb _); [done|]. do 5 (apply io_bind_Ok in H as (? & _ & H & _)).
  destruct (negb _); [done|]. destruct (negb _); [done|]. match type of H with context [match ?x with PStr _ => _ | _ => _ end] => destruct x; try done end.
  apply io_bind_Ok in H as (? & _ & H & _). destruct (_ && _); [done|]. injection H as <-. by eexists.
Qed.

Lemma materialized_hit s a : value (materialize_onnx_model model_name s) = Ok a →
  let t := final (materialize_onnx_model model_name s) in
  (oa_source a = "export" → value (_has_tokenizer cache t) = Ok true) →
  value (_load_cached_artifact model_name cache t) = Ok (Some (Artifact model_name (oa_model_path a) cache "cached")).
Proof.
  unfold materialize_onnx_model. case_bool_decide; [done|]. intros H' Htok.
  apply io_bind_Ok in H' as ([] & _ & H' & E). rewrite E in *. clear E. set (s1 := final _) in *.
  apply io_bind_Ok in H' as (cached & Hc & H' & E). rewrite E in *. clear E. destruct (pure_load model_name cache s1) as [_ Hf]. rewrite Hf in *.
  destruct cached as [x|].
  { injection H' as ->. cbn [mret io_ret final] in *. destruct (load_shape _ _ Hc) as [p ->]. done. }
  apply io_bind_Ok in H' as (snapshot & Hs & H' & E). rewrite E in *. clear E. destruct snapshot as [x|].
  { injection H' as ->. cbn [mret io_ret final] in *. destruct (snapshot_Ok _ _ Hs) as (-> & Hcom & Ht). by rewrite load_committed. }
  destruct (export_Ok _ _ H') as (-> & Hcom). rewrite load_committed; [done|done|].
  specialize (Htok eq_refl). rewrite has_tokenizer_run in Htok. by injection Htok.
Qed.
End materialize.

(** ** Properties *)

(** C35: a model is materialized once: when materializing returned a model, from the cache, a snapshot or an export, in
    whatever state and whatever the hub and the exporter did to the file system, doing it again returns the same model file from the cache
    and changes nothing but the lock file; for an export, provided it brought a tokenizer. *)
Theorem materialized_is_cached {W : OnnxWorld} {L : ArtifactLaws W} (model_name : string) (s : fsys) (a : OnnxArtifact) :
  str_in (sanitized model_name) [""; "."; ".."] = false →
  value (materialize_onnx_model model_name s) = Ok a →
  let t := final (materialize_onnx_model model_name s) in
  (oa_source a = "export" → value (_has_tokenizer (_model_cache_dir model_name) t) = Ok true) →
  value (materialize_onnx_model model_name t) = Ok (Artifact model_name (oa_model_path a) (_model_cache_dir model_name) "cached") ∧
  Forall (agree model_name t) (trace (materialize_onnx_model model_name t)) ∧ agree model_name t (final (materialize_onnx_model model_name t)).
Proof. intros Hn Ha t Ht. apply (hit_materializes model_name Hn). by apply (materialized_hit model_name Hn). Qed.

(** A publication that is cut short is no hit: from a cache without manifest, at every point the cache
    is a miss or the manifest describes the model file that is there, to its size, time and digest. *)
Theorem interrupted_publication_is_no_hit {W : OnnxWorld} {L : ArtifactLaws W} model_name (cache onnx tokens : path) source s :
  files s !! manifest_file_path cache = None →
  (∀ p, p ∈ rglob (final (mkdir_p cache s)) tokens → token_file p = true → token_target cache p ≠ manifest_file_path cache) →
  Forall (λ t, value (_load_cached_artifact model_name cache t) = Ok None ∨ whole_artifact model_name cache t)
    (trace (_publish_artifact model_name cache onnx tokens source s)).
Proof.
  intros Hs Htok. destruct (publish_artifact_runs model_name cache onnx tokens source s [manifest_file_path cache]) as [HC _]; [done| |].
  { intros p q Hp Hit ->%list_elem_of_singleton. split; [done|]. symmetry. by apply Htok. }
  eapply Forall_impl; [exact HC|]. intros t Ht. destruct (Ht (manifest_file_path cache)) as [E|]; [by left| |by right].
  left. rewrite Hs in E. unfold _load_cached_artifact. rewrite pjoin_manifest. erewrite bind_run_pure by reflexivity.
  by rewrite E.
Qed.

(** ** On concrete data *)

(** A machine with a hub that has model [m], or with an exporter that writes some files. *)
Definition demo_world (hub : option path) (exported : list (string * bytes)) : OnnxWorld :=
  {| ow_env := {["LODEDB_ONNX_CACHE" := "/c"]}; ow_home := ["home"]; expanded _ := ["c"];
     mtime_ns s p := default 0%Z ((λ b, Z.of_nat (slen b)) <$> content s p); scan_order l := l; temp_token _ := "t";
     snapshot_download := (λ p _ _, mret p) <$> hub; optimum_cli := None; sys_executable := "python";
     run_export _ _ dir := foldIO (λ _ nd, _ ← write_bytes (nd.1 :: dir) nd.2; mret Exported) Exported exported |}.
Lemma demo_world_laws hub exported : ArtifactLaws (demo_world hub exported).
Proof. split; [|done]. intros s t p E. cbn. unfold content. by rewrite E. Qed.

Definition hub_files : fsys :=
  FSys (<[["model.onnx"; "onnx"; "hub"] := File "weights" true]> (<[["tokenizer.json"; "hub"] := File "{}" true]> ∅)) {[["hub"]; ["onnx"; "hub"]; ["c"]]}.

Lemma materialized_is_cached_witness :
  let W := demo_world (Some ["hub"]) [] in
  let t := final (materialize_onnx_model "org/m" hub_files) in
  value (materialize_onnx_model "org/m" t) = Ok (Artifact "org/m" ["model.onnx"; "org__m"; "c"] ["org__m"; "c"] "cached") ∧
  content t ["model.onnx"; "org__m"; "c"] = Some "weights".
Proof.
  intros W t. split; [|by vm_compute].
  apply (@materialized_is_cached W (demo_world_laws _ _) "org/m" hub_files (Artifact "org/m" ["model.onnx"; "org__m"; "c"] ["org__m"; "c"] "snapshot"));
    [reflexivity|by vm_compute|intros E; discriminate E].
Defined.

(** An export without tokenizer files is returned but never found again: every call exports anew. *)
Example export_without_tokenizer_is_repeated :
  let W := demo_world None [("model.onnx", "weights")] in
  let t := final (materialize_onnx_model "m" hub_files) in
  (oa_source <$> value (materialize_onnx_model "m" hub_files)) = Ok "export" ∧ (oa_source <$> value (materialize_onnx_model "m" t)) = Ok "export".
Proof. by vm_compute. Qed.

(** A manifest that is JSON but no object is not a miss: it raises, and goes on doing so. *)
Example list_manifest_raises :
  let W := demo_world (Some ["hub"]) [] in
  let s := put ["artifact.json"; "m"; "c"] (File "[]" true) hub_files in
  match value (materialize_onnx_model "m" s) with Err e => exn_class e = AttributeError | Ok _ => False end.
Proof. by vm_compute. Qed.
