(* ===== verification/EmbedRuntime.v ===== *)
(** * The choice of an embedding runtime

    [local/backends.py]: from a preset and the caller's wishes (runtime, device, precision, threads) to a backend of
    [EmbedBackends.v] and a record of what was chosen. What the machine answers to the probes is the record
    [Host]; the model file comes from [OnnxArtifacts.v]. *)

From Stdlib Require Import Ascii String ZArith Lia SpecFloat.
From stdpp Require Import base strings gmap sets list.
From S2P Require Import Prelude Numbers PyVal Bytes FileSys CloudConfig EngineCore RouteRegistry LocalInit EmbedBackends OnnxArtifacts.

Local Open Scope Z_scope.

(** The platform, what can be imported, and PyTorch's and ONNX Runtime's answers. *)
Record Host := MkHost
  { ho_system : string; ho_machine : string; ho_torch : bool; ho_mps : result bool; ho_cuda : result bool;
    ho_torch_cuda : option string; ho_spec : string → bool; ho_onnx_providers : result (list string); ho_env : gmap string string }.

Record LocalEmbeddingResolution := Resolution
  { requested_device : string; backend_name : string; effective_device : string; fallback_used : bool; fallback_reason : string }.
Definition resolution_dict (r : LocalEmbeddingResolution) : pyval :=
  dict_of [("requested_device", PStr (requested_device r)); ("backend_name", PStr (backend_name r));
           ("effective_device", PStr (effective_device r)); ("fallback_used", PBool (fallback_used r));
           ("fallback_reason", PStr (fallback_reason r))].

(** [except (AttributeError, RuntimeError)], [except ImportError] and their subclasses. *)
Definition is_runtime_error (e : exn) : bool :=
  match exn_class e with RuntimeError | NotImplementedError | OnnxMaterializationError => true | _ => false end.
Definition is_import_error (e : exn) : bool := match exn_class e with ImportError | ModuleNotFoundError => true | _ => false end.

(** The backends of [EmbedBackends.v]. *)
Inductive built_backend :=
| BuiltOnnx (c : OnnxConfig) | BuiltCompiled (c : CompiledTorchConfig) | BuiltSentence (c : SentenceConfig) | BuiltClip (c : SentenceConfig).
Definition built_name (b : built_backend) : string :=
  match b with BuiltOnnx _ => "onnx_runtime" | BuiltCompiled _ => "torch_compile" | BuiltSentence _ => "sentence_transformers" | BuiltClip _ => "clip" end.

Section host.
Variable h : Host.

Definition is_apple_silicon : bool := bool_decide (ho_system h = "Darwin") && str_in (str_lower (ho_machine h)) ["arm64"; "aarch64"].

Definition torch_answer (answer : result bool) : result bool :=
  if negb (ho_torch h) then Ok false
  else match answer with
       | Ok b => Ok b
       | Err e => if bool_decide (exn_class e = AttributeError) || is_runtime_error e then Ok false else Err e
       end.
Definition torch_mps_available : result bool := torch_answer (ho_mps h).
Definition torch_cuda_available : result bool := torch_answer (ho_cuda h).
Definition torch_cuda_build_version : option string := if ho_torch h then ho_torch_cuda h else None.

Definition resolve_local_device (requested : string) : result string :=
  let choice := str_lower (str_strip (if bool_decide (requested = "") then "auto" else requested)) in
  if negb (str_in choice ["auto"; "cpu"; "mps"; "cuda"])
  then raise ValueError ("unknown device " +:+ str_repr requested +:+ "; choose auto, cpu, mps, or cuda")
  else if negb (bool_decide (choice = "auto")) then Ok choice
  else
    mps ← torch_mps_available;
    if mps : bool then Ok "mps"
    else cuda ← torch_cuda_available; Ok (if cuda : bool then "cuda" else "cpu").

Definition onnxruntime_available : bool := ho_spec h "onnxruntime".
Definition sentence_transformers_available : bool := ho_spec h "sentence_transformers".
Definition _torch_compile_available : bool := ho_spec h "torch" && ho_spec h "transformers".

Definition _missing_embedding_runtime_error {A} (runtime : string) (onnx_installed : bool) : result A :=
  let hint := if bool_decide (runtime = "torch") then "pip install 'lodedb[embeddings,torch]'"
              else if onnx_installed
              then "pip install 'lodedb[embeddings,torch]' (PyTorch fallback) or 'lodedb[onnx-export]' (export ONNX for this model)"
              else "pip install 'lodedb[embeddings]'" in
  raise ModuleNotFoundError ("text embedding needs an embedding runtime, which is not installed: " +:+ hint
    +:+ " (or bring your own vectors via LodeDB.open_vector_store(...) / pass embedder=).").

Definition _coreml_opt_in : bool :=
  str_in (str_lower (str_strip (default "" (ho_env h !! "LODEDB_ONNX_COREML")))) ["1"; "true"; "yes"; "auto"].

Definition _preferred_onnx_providers (device : string) : list string :=
  if bool_decide (device = "cuda") then ["CUDAExecutionProvider"; "CPUExecutionProvider"]
  else if bool_decide (device = "mps") && _coreml_opt_in then ["CoreMLExecutionProvider"; "CPUExecutionProvider"]
  else ["CPUExecutionProvider"].

Definition _resolve_onnx_providers (device : string) : list string :=
  match ho_onnx_providers h with
  | Err _ => ["CPUExecutionProvider"]
  | Ok available =>
      let chosen := List.filter (λ provider, str_in provider available) (_preferred_onnx_providers device) in
      if str_in "CPUExecutionProvider" chosen then chosen else chosen ++ ["CPUExecutionProvider"]
  end.
End host.

(** ** Building *)

(** The settings of a call, with their defaults in the code. *)
Record BuildRequest := Request
  { br_device : string; br_batch_size : Z; br_max_seq_length : Z; br_runtime : string; br_dtype : string; br_threads : option Z }.

(** [(value or default).strip().lower()]. *)
Definition setting (value default : string) : string := str_lower (str_strip (if bool_decide (value = "") then default else value)).

(** [preset.model_name] and [preset.native_dim]. *)
Definition preset_model_name (p : LocalModelPreset) : result string := pl_model <$> preset_policy p.
Definition preset_native_dim (p : LocalModelPreset) : result Z := pl_dim <$> preset_policy p.

Section build.
Context {W : OnnxWorld} (h : Host) (preset : LocalModelPreset) (q : BuildRequest).

Definition _sentence_transformer_backend (device : string) : result SentenceConfig :=
  model_name ← preset_model_name preset;
  native_dim ← preset_native_dim preset;
  SentenceTransformerEmbeddingBackend (SentenceTransformerConfig model_name native_dim device (br_batch_size q)
    (Some (br_max_seq_length q)) (lp_query_prefix preset) (lp_document_prefix preset)).

Definition _onnx_backend (providers : list string) : io OnnxConfig :=
  model_name ← lift (preset_model_name preset);
  artifact ← materialize_onnx_model model_name;
  native_dim ← lift (preset_native_dim preset);
  lift (ONNXRuntimeEmbeddingBackend (MkOnnxConfig model_name native_dim (oa_model_path artifact) (path_str (oa_tokenizer_dir artifact))
    providers (br_batch_size q) (br_max_seq_length q) (lp_query_prefix preset) (lp_document_prefix preset) (lp_pooling preset) true None (br_threads q))).

(** The checks of the settings: the runtime and the precision. *)
Definition checked_settings : result (string * string) :=
  let runtime := setting (br_runtime q) "auto" in
  if negb (str_in runtime ["auto"; "onnx"; "torch"; "torch-compile"])
  then raise ValueError ("unknown embedding_runtime " +:+ str_repr (br_runtime q) +:+ "; choose auto, onnx, torch, or torch-compile")
  else
    let dtype := setting (br_dtype q) "float32" in
    if negb (str_in dtype ["float32"; "float16"; "bfloat16"])
    then raise ValueError ("unknown embedding_dtype " +:+ str_repr (br_dtype q) +:+ "; choose float32, float16, or bfloat16")
    else if negb (bool_decide (dtype = "float32")) && negb (bool_decide (runtime = "torch-compile"))
    then raise ValueError ("embedding_dtype=" +:+ str_repr dtype +:+ " is only supported with embedding_runtime='torch-compile' (got " +:+ str_repr runtime +:+ ")")
    else if match br_threads q with Some n => n <=? 0 | None => false end
    then raise ValueError "embedding_threads must be positive (or None for auto)"
    else Ok (runtime, dtype).

Definition chosen (b : built_backend) (device reason : string) (used : bool) : built_backend * LocalEmbeddingResolution :=
  (b, Resolution (br_device q) (built_name b) device used reason).

Definition build_compiled (resolved dtype : string) : result (built_backend * LocalEmbeddingResolution) :=
  if lp_multimodal preset then raise ValueError "torch-compile runtime does not support the multimodal 'clip' preset"
  else if negb (_torch_compile_available h) then _missing_embedding_runtime_error "torch" false
  else
    model_name ← preset_model_name preset;
    native_dim ← preset_native_dim preset;
    backend ← CompiledTorchEmbeddingBackend (Tok := unit) (Enc := unit) model_name native_dim resolved (br_batch_size q) (br_max_seq_length q)
                (lp_query_prefix preset) (lp_document_prefix preset) (lp_pooling preset) true "reduce-overhead" dtype None;
    Ok (chosen (BuiltCompiled backend.1) resolved "" false).

Definition build_clip (resolved : string) : result (built_backend * LocalEmbeddingResolution) :=
  if negb (sentence_transformers_available h)
  then raise ModuleNotFoundError "the 'clip' preset needs the sentence-transformers stack, which is not installed: pip install 'lodedb[image]'"
  else
    model_name ← preset_model_name preset;
    native_dim ← preset_native_dim preset;
    backend ← ClipEmbeddingBackend model_name native_dim resolved (br_batch_size q);
    Ok (chosen (BuiltClip backend) resolved "" false).

Definition build_torch (runtime resolved fallback : string) : result (built_backend * LocalEmbeddingResolution) :=
  if negb (sentence_transformers_available h) then _missing_embedding_runtime_error runtime (onnxruntime_available h)
  else backend ← _sentence_transformer_backend resolved;
       Ok (chosen (BuiltSentence backend) resolved fallback (negb (bool_decide (fallback = "")))).

Definition cuda_reason : string :=
  "cuda requested but onnxruntime has no CUDAExecutionProvider; embedding on cpu (install onnxruntime-gpu)".
Definition build_onnx (resolved : string) : io (built_backend * LocalEmbeddingResolution) :=
  let providers := _resolve_onnx_providers h resolved in
  let cuda_fell_back_to_cpu := bool_decide (resolved = "cuda") && negb (str_in "CUDAExecutionProvider" providers) in
  backend ← _onnx_backend providers;
  mret (chosen (BuiltOnnx backend) (if cuda_fell_back_to_cpu then "cpu" else resolved)
          (if cuda_fell_back_to_cpu then cuda_reason else "") cuda_fell_back_to_cpu).

Definition build_local_embedding_backend : io (built_backend * LocalEmbeddingResolution) :=
  settings ← lift checked_settings;
  let '(runtime, dtype) := settings in
  resolved ← lift (resolve_local_device h (br_device q));
  if bool_decide (runtime = "torch-compile") then lift (build_compiled resolved dtype)
  else if lp_multimodal preset then lift (build_clip resolved)
  else if bool_decide (runtime = "torch") then lift (build_torch runtime resolved "")
  else if bool_decide (runtime = "onnx") && negb (onnxruntime_available h) then lift (_missing_embedding_runtime_error "onnx" false)
  else if bool_decide (runtime = "onnx") || onnxruntime_available h then
    r ← attempt (build_onnx resolved);
    match r with
    | Ok out => mret out
    | Err e =>
        if is_runtime_error e || is_import_error e then
          if bool_decide (runtime = "onnx") then lift (Err e)
          else lift (build_torch runtime resolved ("onnx runtime unavailable, using torch: " +:+ exn_msg e))
        else lift (Err e)
    end
  else lift (build_torch runtime resolved "onnxruntime not installed; using torch").
End build.

(** ** Properties *)

Lemma torch_made h preset q runtime resolved fallback b r : build_torch h preset q runtime resolved fallback = Ok (b, r) →
  (∃ c, b = BuiltSentence c ∧ sc_device c = resolved) ∧ r = Resolution (br_device q) "sentence_transformers" resolved (negb (bool_decide (fallback = ""))) fallback.
Proof.
  unfold build_torch. destruct (negb (sentence_transformers_available h)); [done|]. intros H. apply bind_Ok in H as (c & Hc & H). injection H as <- <-.
  split; [|done]. exists c. split; [done|]. unfold _sentence_transformer_backend in Hc. apply bind_Ok in Hc as (m & _ & Hc). apply bind_Ok in Hc as (d & _ & Hc).
  unfold SentenceTransformerEmbeddingBackend in Hc. apply bind_Ok in Hc as (? & _ & Hc). by injection Hc as <-.
Qed.

Lemma providers_end_on_cpu h device : "CPUExecutionProvider" ∈ _resolve_onnx_providers h device.
Proof.
  unfold _resolve_onnx_providers. destruct (ho_onnx_providers h); [|by left]. destruct (str_in _ _) eqn:E.
  - by apply bool_decide_eq_true_1 in E.
  - apply elem_of_app. right. by left.
Qed.

Lemma onnx_made {W : OnnxWorld} h preset q resolved s b r : value (build_onnx h preset q resolved s) = Ok (b, r) →
  ∃ c, b = BuiltOnnx c ∧ oc_providers c = _resolve_onnx_providers h resolved ∧ requested_device r = br_device q ∧ backend_name r = "onnx_runtime" ∧
    fallback_used r = (bool_decide (resolved = "cuda") && negb (str_in "CUDAExecutionProvider" (oc_providers c))) ∧
    effective_device r = (if fallback_used r then "cpu" else resolved) ∧ fallback_reason r = (if fallback_used r then cuda_reason else "").
Proof.
  unfold build_onnx. intros H. apply io_bind_Ok in H as (c & Hc & H & _). injection H as <- <-. exists c. split; [done|].
  unfold _onnx_backend in Hc. do 3 (apply io_bind_Ok in Hc as (? & _ & Hc & _)). cbn [lift value] in Hc.
  assert (oc_providers c = _resolve_onnx_providers h resolved) as ->; [|done].
  unfold ONNXRuntimeEmbeddingBackend in Hc. apply bind_Ok in Hc as (? & _ & Hc). destruct (_ <=? 0); [done|]. destruct (negb _); [done|].
  cbn [oc_providers] in Hc. destruct (_resolve_onnx_providers h resolved) eqn:E; [done|]. 
  cbn [oc_intra_op_threads] in Hc. destruct (br_threads q) as [n|]; [destruct (n <=? 0); [done|]|]; by injection Hc as <-.
Qed.

(** What is reported is what was built: the runtime the caller forced is never replaced, only [auto] falls back to
    PyTorch; a reason is given exactly when there was a fallback; and where the report says that ONNX runs on CUDA, its session has the CUDA
    provider. *)
Theorem runtime_reported_as_built {W : OnnxWorld} h preset q s b r : value (build_local_embedding_backend h preset q s) = Ok (b, r) →
  let runtime := setting (br_runtime q) "auto" in
  requested_device r = br_device q ∧ backend_name r = built_name b ∧ (fallback_used r = true ↔ fallback_reason r ≠ "") ∧
  match b with
  | BuiltCompiled _ => runtime = "torch-compile" ∧ lp_multimodal preset = false ∧ fallback_used r = false
  | BuiltClip _ => lp_multimodal preset = true ∧ runtime ≠ "torch-compile" ∧ fallback_used r = false
  | BuiltSentence c => (runtime = "torch" ∧ fallback_used r = false ∨ runtime = "auto" ∧ fallback_used r = true) ∧ sc_device c = effective_device r
  | BuiltOnnx c => (runtime = "onnx" ∨ runtime = "auto") ∧ "CPUExecutionProvider" ∈ oc_providers c ∧
                   (effective_device r = "cuda" → "CUDAExecutionProvider" ∈ oc_providers c)
  end.
Proof.
  unfold build_local_embedding_backend. intros H. apply io_bind_Ok in H as ([runtime dtype] & Hs & H & _). cbn [lift value] in Hs.
  assert (setting (br_runtime q) "auto" = runtime ∧ runtime ∈ ["auto"; "onnx"; "torch"; "torch-compile"]) as [-> Hr].
  { unfold checked_settings in Hs. destruct (str_in (setting (br_runtime q) "auto") _) eqn:E; [|done]. apply bool_decide_eq_true_1 in E. cbn [negb] in Hs.
    destruct (negb _); [done|]. destruct (_ && _); [done|]. destruct (br_threads q) as [n|]; [destruct (n <=? 0); [done|]|]; injection Hs as <- _; by split. }
  clear Hs. apply io_bind_Ok in H as (resolved & _ & H & _). cbn [lift final] in H. cbv zeta.
  assert (∀ fallback, build_torch h preset q runtime resolved fallback = Ok (b, r) → (runtime = "torch" ∧ fallback = "" ∨ runtime = "auto" ∧ fallback ≠ "") →
    requested_device r = br_device q ∧ backend_name r = built_name b ∧ (fallback_used r = true ↔ fallback_reason r ≠ "") ∧
    match b with BuiltSentence c => (runtime = "torch" ∧ fallback_used r = false ∨ runtime = "auto" ∧ fallback_used r = true) ∧ sc_device c = effective_device r
               | _ => False end) as Htorch.
  { intros fallback ((c & -> & Hd) & ->)%torch_made Hf. cbn. split; [done|]. split; [done|]. split; [by rewrite negb_true_iff, bool_decide_eq_false|]. split; [|done].
    destruct Hf as [[-> ->]|[-> Hf]]; [by left|right]. split; [done|]. by rewrite bool_decide_eq_false_2. }
  case_bool_decide as E1.
  { subst runtime. cbn [lift value] in H. unfold build_compiled in H. destruct (lp_multimodal preset) eqn:Em; [done|]. destruct (negb (_torch_compile_available h)); [done|].
    do 3 (apply bind_Ok in H as (? & _ & H)). injection H as <- <-. done. }
  destruct (lp_multimodal preset) eqn:Em.
  { cbn [lift value] in H. unfold build_clip in H. destruct (negb (sentence_transformers_available h)); [done|].
    do 3 (apply bind_Ok in H as (? & _ & H)). injection H as <- <-. done. }
  case_bool_decide as E2.
  { subst runtime. destruct (Htorch "" H ltac:(by left)) as (? & ? & ? & Hb). by destruct b. }
  destruct (bool_decide (runtime = "onnx") && negb (onnxruntime_available h)); [done|].
  assert (runtime = "onnx" ∨ runtime = "auto") as Hoa by set_solver.
  assert (∀ fallback, fallback ≠ "" → runtime ≠ "onnx" → build_torch h preset q runtime resolved fallback = Ok (b, r) →
    match b with BuiltSentence c => (runtime = "torch" ∧ fallback_used r = false ∨ runtime = "auto" ∧ fallback_used r = true) ∧ sc_device c = effective_device r | _ => False end
    ∧ requested_device r = br_device q ∧ backend_name r = built_name b ∧ (fallback_used r = true ↔ fallback_reason r ≠ "")) as Hauto.
  { intros fallback Hf Hno Hb. destruct Hoa as [->| ->]; [done|]. destruct (Htorch fallback Hb ltac:(by right)) as (? & ? & ? & ?). done. }
  destruct (bool_decide (runtime = "onnx") || onnxruntime_available h) eqn:E3.
  - apply io_bind_Ok in H as (out & Hout & H & _). cbn [attempt value] in Hout. injection Hout as Hout. destruct out as [[b' r']|e].
    + injection H as <- <-. destruct (onnx_made _ _ _ _ _ _ _ Hout) as (c & -> & Hp & Hd & Hn & Hu & He & Hre). rewrite Hd, Hn, He, Hre, Hu. split; [done|]. split; [done|].
      split; [by destruct (bool_decide (resolved = "cuda") && _)|]. split; [done|]. split; [rewrite Hp; apply providers_end_on_cpu|].
      destruct (bool_decide (resolved = "cuda") && _) eqn:Eb; [done|]. intros ->. rewrite bool_decide_eq_true_2 in Eb by done. cbn in Eb.
      by apply negb_false_iff, bool_decide_eq_true_1 in Eb.
    + destruct (is_runtime_error e || is_import_error e); [|done]. case_bool_decide; [done|]. apply Hauto in H as (Hb & ? & ? & ?); [|done..]. by destruct b.
  - apply orb_false_iff in E3 as [E3 _]. apply bool_decide_eq_false_1 in E3. apply Hauto in H as (Hb & ? & ? & ?); [|done..]. by destruct b.
Qed.

(** Without [onnxruntime], [auto] falls back; forcing it fails before anything is downloaded. *)
Definition plain_host (onnx torch : bool) : Host :=
  MkHost "Linux" "x86_64" torch (Ok false) (Ok true) None (λ n, if bool_decide (n = "onnxruntime") then onnx else torch)
    (Ok ["CPUExecutionProvider"]) ∅.
Definition plain_request (runtime : string) : BuildRequest := Request "auto" 32 256 runtime "float32" None.
Definition demo_preset : LocalModelPreset := Preset "minilm" MINILM_TURBOVEC_ROUTE_PROFILE "" "" "" "mean" false.
Definition demo_build (runtime : string) (h : Host) : result (string * bool * string) :=
  (λ br, (built_name br.1, fallback_used br.2, effective_device br.2)) <$>
  value (build_local_embedding_backend (W := demo_world (Some ["hub"]) []) h demo_preset (plain_request runtime) hub_files).
Example built_on_demand :
  demo_build " ONNX " (plain_host true true) = Ok ("onnx_runtime", true, "cpu") ∧
  demo_build "" (plain_host false true) = Ok ("sentence_transformers", true, "cuda") ∧
  demo_build "torch" (plain_host true true) = Ok ("sentence_transformers", false, "cuda") ∧
  demo_build "torch-compile" (plain_host false true) = Ok ("torch_compile", false, "cuda") ∧
  match demo_build "onnx" (plain_host false true) with Err e => exn_class e = ModuleNotFoundError | Ok _ => False end.
Proof. by vm_compute. Qed.

Lemma runtime_reported_as_built_witness :
  let W := demo_world (Some ["hub"]) [] in
  ∃ b r, value (build_local_embedding_backend (plain_host true true) demo_preset (plain_request "auto") hub_files) = Ok (b, r) ∧
         fallback_used r = true ∧ fallback_reason r ≠ "" ∧ backend_name r = built_name b.
Proof.
  intros W. eexists _, _.
  assert (value (build_local_embedding_backend (plain_host true true) demo_preset (plain_request "auto") hub_files) = Ok _) as H by (vm_compute; reflexivity).
  destruct (runtime_reported_as_built (W := W) _ _ _ _ _ _ H) as (_ & Hn & Hf & _). split; [exact H|]. split; [reflexivity|]. split; [apply Hf; reflexivity|exact Hn].
Defined.
